(* ===== verification/_CoqProject ===== *)
-Q . S2P
Prelude.v
Bits.v
KString.v
Kalloc.v
Pipe.v
BlockCache.v
Bio.v
Log.v
LogBio.v
Printfmt.v
NetUtil.v
NetSys.v
NetDev.v
NetAddr.v
Ether.v
Arp.v
Ip.v
Transport.v
NetFuel.v
Icmp.v
Udp.v
Tcp.v
TcpMsg.v
TcpOpen.v
TcpData.v
TcpState.v
Vm.v
VmTable.v
VmSpace.v
VmCopy.v
VmRead.v
VmUser.v
VmFork.v
VmFree.v
VmSafe.v
VmProc.v
Spinlock.v
File.v
Proc.v
ProcVm.v
ProcFork.v
Sleep.v
ProcExit.v
PageFault.v
Trans.v
TransLog.v
S5.v
S5Bits.v
S5Map.v
S5Io.v
S5Log.v
S5Inode.v
S5Dir.v
Grep.v
Console.v
Umalloc.v
Sh.v
Vfs.v
S5File.v
VfsPath.v
