(* ===== verification/Prelude.v ===== *)
(** * xv6 on the CV1800B: a verification library

    The repository is a Unix-like teaching kernel (xv6 for RISC-V) ported to the
    CV1800B of the Milk-V Duo board, with a second file system (ext2), a VFS layer
    and a TCP/IP stack (kernel/net, from microps). This library models the parts
    of the kernel that carry its own logic and proves what makes them correct; it
    also records, as theorems where it can, the places where the code does not do
    what it means to.

    ** Conventions

    Each C function is a definition of the same name. A C integer of width [w] is a
    [Z] with its wrap-around written out ([u8] .. [u64], [s32]). Stateful code
    runs in the monad [M S A]: a run returns a value and a state ([Ret]), panics
    ([Panic]), makes an access the C program may not make ([Fault], for reads and
    writes outside an object), waits for a lock that is held ([Block]) or exhausts
    the fuel of a loop ([OutOfFuel]). A critical section is one step of the model;
    where a function has several, or sleeps, it is cut there, and what may happen
    in between is part of the theorems (reachability relations of calls, sleeps
    and wake-ups). Output for the console, debug messages and mutexes leave no
    trace.

    ** Files

    - [Prelude]: integers, bytes, the monad, accesses to byte lists, hint
      databases ([xv6], [word]) and tactics that all files share.
    - [Bits] (kernel/find_bits.c, bitops.h), [KString] (kernel/string.c),
      [Printfmt] (kernel/printfmt.c): the library routines, over a flat byte
      memory, a bitmap, a character sink. [KString.memmove_correct],
      [Printfmt.snprintf_correct] and [Printfmt.vprintfmt_terminates].
    - [Kalloc] (kernel/kalloc.c): the free list through byte memory and the
      reference counts of copy-on-write; [client_safe] is its invariant under any
      client, [kfree_race] the interleaving that breaks it.
    - Virtual memory (kernel/vm.c): [Vm] holds the code, over the byte memory and
      the allocator of [Kalloc]; [VmTable] shows that a page table stands for two
      maps (its tables by level and position, its leaves by page number) and that
      [walk] and [mappages] look up and insert in them; [VmSpace] is the invariant
      [vm_inv] of all address spaces and of the kernel's pages together, with the
      proof obligation of an operation on one of them ([vm_close]); [VmCopy]
      ([copyout] and copy-on-write), [VmRead] ([copyin], [copyinstr]), [VmUser]
      (growing, shrinking), [VmFork] ([uvmcopy]), [VmFree] (the kernel's mappings
      in a space, [freewalk]) and [VmSafe] (new spaces, the kernel's pages)
      specify the operations; [VmProc] has the theorems as a process sees them
      and the invariant of all reachable states. [PageFault] (kernel/trap.c) is the
      handler of page faults, over the same copy of a shared page
      ([pagefault_correct]).
    - [Spinlock] (kernel/spinlock.c): the functions, and the machine in which the
      harts' accesses to the words of a lock interleave; [spinlock_safe] is mutual
      exclusion and the bookkeeping of interrupts, [lock_calls] relates the two.
    - [File] (kernel/file.c): the file table over the class [Objects] of what files
      stand for; [file_references] is its invariant under any client. [S5File]
      implements the class by the xv6 file system and the log: [filewrite_correct]
      says what a write in several transactions leaves on the disk, and what a crash
      at any of its disk writes leaves.
    - Processes (kernel/proc.c): [Proc] holds the code, over [Vm] and [File]; the
      theorems use [kinv], which says that every used slot of the table has its
      own address space and trapframe in [vm_inv]. [ProcVm] has the tables of user
      memory, [ProcFork] the proofs of [allocproc], [fork] and [freeproc],
      [ProcExit] that of [exit]. [Sleep] cuts [wait], [exit], [fork], [kill],
      [sleep], [wakeup] and the scheduler at their locks and lets them interleave:
      [wait_exit_safe] is the invariant.
    - [Pipe] (kernel/pipe.c): [pipe_fifo] refines the ring to a queue under any
      interleaving, up to the byte a read loses when [copyout] fails;
      [pipe_no_lost_wakeup] says who may be asleep, after a kill too.
    - [BlockCache]: the interface between buffer cache and log, as a class of
      operations and a class of laws over an abstract state. [Bio] (kernel/bio.c,
      ramdisk.c, sleeplock.c) implements it ([bcache_lru]: the linked list is a
      list in order of last use); [Log] (kernel/log.c) is proved against it
      ([log_crash_atomic]: whatever write of a commit the machine dies at, and
      even if it dies again while it recovers, all of the operations' blocks are
      new or none); [LogBio] puts the two together on a concrete machine.
    - The xv6 file system (kernel/s5.c): [S5] holds the code, over the class
      [Trans] of blocks in a transaction and the class [UserMem] of copies.
      [TransLog] shows that the log implements [Trans], and what the end of an
      operation leaves on the disk and for the next one ([at_rest]). [S5Bits] is the free map,
      [S5Map] the blocks of a file ([wf], [bmap]), [S5Io] reading and writing
      ([readi_correct], [writei_correct]); [S5Log] puts the file system on the log
      and the cache ([file_write_atomic]) and has the machine of the examples.
      [S5Inode] reads and truncates inodes ([ilock_correct], [itrunc_correct]);
      [S5Dir] treats directories as maps from names to inodes ([dirlookup_correct],
      [dirlink_correct], [unlink_correct], [ialloc_correct]).
    - The layer above (kernel/vfs.c, vfsmount.c): [Vfs] is the inode table and the
      references to its entries ([vfs_references], for any sequence of operations,
      each run to its end); [VfsPath] the walk along a path name over a tree of
      directories on disk ([namex_correct]). Both theorems are for a machine on which
      nothing is mounted.
    - [Console] (kernel/console.c): [console_refines] says that the ring is a line
      editor. [Umalloc] (user/umalloc.c): the free list in the bytes of a process,
      [umalloc_safe] for requests below [2^31] bytes ([malloc_wraps] runs two larger
      ones). [Grep] (user/grep.c): [match_correct] relates the matcher to the texts a
      pattern stands for, [grep_correct] the line buffer to the lines of the input, if
      they fit it and hold no NUL. [Sh] (user/sh.c): the parser of the shell, proved
      equivalent to a grammar over tokens ([parsecmd_correct]).
    - The network stack: [NetUtil] (net/util.c, std.c, platform.h: byte order,
      checksum, queue, timers, sleeping), [NetSys] (the interface [SysIf] to pages,
      time and randomness), [NetDev] (net/net.c: devices, protocols, soft
      interrupt), [NetAddr] (addresses as text), [Ether] (net/ether.c), [Arp]
      (net/arp.c), [Ip] (net/ip.c), [Transport] (what UDP and TCP share), [NetFuel]
      (the routines below TCP end), [Icmp], [Udp], [Tcp] (net/icmp.c, udp.c, tcp.c), and for the theorems on TCP
      [TcpMsg], [TcpOpen], [TcpData] and [TcpState].

    ** How the layers of the stack are put together

    A layer keeps its own variables above an environment that holds the layers
    below: its routines run in [M (O * E)], with [own] for its variables and [up]
    for calls of the layer below. What a layer uses of those below it is a class:
    [SysIf] (the platform), [DevOps] (a driver), [Resolver] (ARP, for IP),
    [IpService] (IP, for ICMP, UDP and TCP), each with instances. Function
    pointers in a state are names, and the code that calls through them takes the
    meaning of the names as a parameter. Protocol exchanges between two machines
    are proved with one state per machine, the message of one being the input of
    the other ([arp_handshake], [ip_roundtrip], [udp_roundtrip], [tcp_handshake]).

    ** The theorems

    - Data: checksum, addresses, frames, packets and datagrams survive the trip
      from printing or sending to parsing or receiving; corrupted IP headers are
      dropped ([ip_detects_corruption]).
    - State: [arp_cache_invariant], [net_registration_wf], [udp_pcbs_invariant],
      [tcp_state_diagram] hold whatever the sequence of calls and packets.
    - Streams: [tcp_stream_fifo] says that a connection delivers the bytes that
      arrived in order and fit the window, until its sequence numbers wrap;
      [tcp_send_window] that the peer's window is respected.
    - Memory: [vm_reach_inv] (what a process may write nobody else maps),
      [copyout_correct], [copyin_correct], [copyinstr_correct], [uvmalloc_correct]
      and [uvmcopy_correct] give the bytes each process reads ([uload]) after an
      operation, for the process concerned and for all others, and say which
      failures there can be ([tight]: so many pages at most are free);
      [uvmfree_correct], [freeproc_correct] and [fork_correct] carry this to whole
      processes, with the files they hold, and say what a fork that fails leaves.
    - Sharing: [spinlock_safe], [file_references] and [wait_exit_safe].
    - Files: [readi_correct] and [writei_correct] give the bytes of a file after an
      operation, for it and for every other file, as [contents]; a write that ends
      an operation is all or nothing across a crash ([file_write_atomic]), and a
      longer one ([filewrite_correct]) a number of whole transactions. They are for
      a disk with room: [s5_balloc] panics when it finds no free block. A tree on
      disk ([tree]) is what [namex_correct] walks; the operations of [S5Dir] are
      lookup, insertion and deletion in the map of one directory, and
      [vfs_references] says that the counts of the table are right meanwhile.
    - Defects, each with a concrete or general run that shows it: the short
      reservation of the log, the races of [kfree] and [arp_input], the page lost
      per frame, the buffer overrun of [tcp_segment_arrives] and of
      [ip_endpoint_pton], the duplicated bytes of an overlapping segment, the
      socket that [tcp_close] does not give back, and others.

    ** Fuel

    Loops over lists recurse on the list. Fuel is used where C code follows pointers
    or counts with machine integers: the digits of [printnum] (64 bits have at most
    64), the format string, the list walk of [bget] ([NBUF] steps), [tcp_send] and
    the loops of [copyout] and [copyin] (a byte at least per turn), the page loops
    of [vm.c] (the number of pages), and the release of a TCP block with the blocks
    of its backlog. The loops over directory entries have the size of the directory,
    [namex] the length of the path (an element has a character at least),
    [component_search] one turn more than there are mounts, the free list of
    [malloc], the matcher and the shell's parser the lengths of what they run over.
    [vprintfmt_terminates] and [tcp_calls_terminate] show that the fuel given is
    enough (TCP's over any lower layers whose own routines end, class [IpFuel], which
    [NetFuel] proves of the modelled ones), the other theorems produce the result.

    ** Not modelled

    Device drivers (emmc.c, sd.c, designware.c, i2c.c, spi.c, gpio.c, pwm.c, adc.c,
    uart.c, virtio_disk.c, rtc.c, sbi.c, plic.c) program registers whose behaviour
    the repository does not define; where the modelled code calls one it is a class
    or a parameter. The assembly files, start.c, main.c and trap.c are the
    machine's; so are the switch of proc.c and its first process. The calls mmap and
    munmap and the kernel's own page table, exec.c, the system calls (syscall.c,
    sysproc.c, sysfile.c, syssocket.c), the sockets of net/socket.c, registering and
    mounting file systems (the mount table is a parameter of [Vfs], whose theorems
    are for a machine without mounts), the second file system ext2.c and what the
    shell does with a parsed command are left out: they mostly dispatch to what is
    modelled, or repeat it (ext2.c follows s5.c with another layout on disk). fs.c
    is not compiled. Of the user programs the library has malloc, grep and the
    shell's parser; the others exercise the system calls and have no logic of their
    own. The vendored headers of include/ and list.h are Linux's. *)
From stdpp Require Export base tactics functions list gmap numbers strings.
From Stdlib Require Export ZArith Lia ZifyBool.
#[global] Open Scope Z_scope.

(** ** Machine integers

    A C integer of width [w] is a [Z]; an unsigned operation wraps modulo
    [2^w], a conversion to a signed type takes the representative in
    [[-2^(w-1), 2^(w-1))]. *)

Definition wrap (w z : Z) : Z := z mod 2 ^ w.
Definition swrap (w z : Z) : Z := (z + 2 ^ (w - 1)) mod 2 ^ w - 2 ^ (w - 1).

Abbreviation u8 := (wrap 8).
Abbreviation u16 := (wrap 16).
Abbreviation u32 := (wrap 32).
Abbreviation u64 := (wrap 64).
Abbreviation s32 := (swrap 32).
Abbreviation s64 := (swrap 64).

Definition in_range (w z : Z) : Prop := 0 <= z < 2 ^ w.
Abbreviation is_byte := (in_range 8).
Abbreviation bytes := (list Z).

Create HintDb xv6 discriminated.
Create HintDb word discriminated.
Create Rewrite HintDb word.
Create Rewrite HintDb xv6.

Section words.
Implicit Types w z : Z.

Lemma wrap_range w z : 0 <= w → in_range w (wrap w z).
Proof. intros Hw. apply Z.mod_pos_bound, Z.pow_pos_nonneg; lia. Qed.

Lemma wrap_small w z : in_range w z → wrap w z = z.
Proof. apply Z.mod_small. Qed.

Lemma wrap_wrap w z : wrap w (wrap w z) = wrap w z.
Proof. unfold wrap. apply Z.mod_mod_divide, Z.divide_refl. Qed.

Lemma wrap_add_l w z1 z2 : wrap w (wrap w z1 + z2) = wrap w (z1 + z2).
Proof. apply Zplus_mod_idemp_l. Qed.

Lemma wrap_add_r w z1 z2 : wrap w (z1 + wrap w z2) = wrap w (z1 + z2).
Proof. apply Zplus_mod_idemp_r. Qed.

Lemma wrap_sub_l w z1 z2 : wrap w (wrap w z1 - z2) = wrap w (z1 - z2).
Proof. apply Zminus_mod_idemp_l. Qed.

Lemma wrap_sub_r w z1 z2 : wrap w (z1 - wrap w z2) = wrap w (z1 - z2).
Proof. apply Zminus_mod_idemp_r. Qed.

(** The bits of a wrapped value are those of the value below the width. *)
Lemma wrap_testbit w z i :
  0 <= w → 0 <= i → Z.testbit (wrap w z) i = bool_decide (i < w) && Z.testbit z i.
Proof.
  intros Hw Hi. unfold wrap. case_bool_decide.
  - by rewrite Z.mod_pow2_bits_low by lia.
  - by rewrite Z.mod_pow2_bits_high by lia.
Qed.

Lemma wrap_land w z : 0 <= w → wrap w z = Z.land z (Z.ones w).
Proof. intros. by rewrite Z.land_ones. Qed.

Lemma wrap_swrap w z : wrap w (swrap w z) = wrap w z.
Proof.
  unfold wrap, swrap. rewrite Zminus_mod_idemp_l. f_equal. lia.
Qed.

Lemma swrap_wrap w z : swrap w (wrap w z) = swrap w z.
Proof. unfold wrap, swrap. by rewrite Zplus_mod_idemp_l. Qed.

Lemma swrap_small w z : 0 < w → - 2 ^ (w - 1) <= z < 2 ^ (w - 1) → swrap w z = z.
Proof.
  intros Hw Hz. unfold swrap. rewrite Z.mod_small; [lia|].
  replace (2 ^ w) with (2 ^ (w - 1) + 2 ^ (w - 1)); [lia|].
  replace w with (Z.succ (w - 1)) at 3 by lia. rewrite Z.pow_succ_r by lia. lia.
Qed.

Lemma land_range w z1 z2 : 0 <= w → in_range w z1 → in_range w (Z.land z1 z2).
Proof.
  intros Hw H1. rewrite <- (wrap_small w z1) by done.
  rewrite wrap_land, <- Z.land_assoc, (Z.land_comm _ z2), Z.land_assoc by done.
  rewrite <- wrap_land by done. by apply wrap_range.
Qed.
End words.

#[export] Hint Rewrite wrap_wrap wrap_add_l wrap_add_r wrap_sub_l wrap_sub_r wrap_swrap : word.
#[export] Hint Resolve wrap_range land_range : word.

(** [bitwise] proves an equality of integers bit by bit. *)
Ltac bitwise i Hi :=
  apply Z.bits_inj'; intros i Hi;
  repeat first
    [ rewrite Z.lor_spec | rewrite Z.land_spec | rewrite Z.lxor_spec
    | rewrite Z.shiftr_spec by lia | rewrite Z.shiftl_spec by lia ].

(** ** Outcomes and the state monad

    A routine of the kernel returns a value, stops the machine with [panic],
    accesses memory outside an object (C gives that no meaning: [Fault]),
    sleeps with nobody in the model to wake it ([Block]), or exhausts the fuel
    a definition was given ([OutOfFuel], proved unreachable where it matters). *)

Inductive outcome (A : Type) : Type :=
  | Ret (a : A)
  | Panic (msg : string)
  | Fault
  | Block
  | OutOfFuel.
Arguments Ret {A} a.
Arguments Panic {A} msg%_string.
Arguments Fault {A}.
Arguments Block {A}.
Arguments OutOfFuel {A}.

Definition outcome_bind {A B} (o : outcome A) (f : A → outcome B) : outcome B :=
  match o with
  | Ret a => f a
  | Panic msg => Panic msg
  | Fault => Fault
  | Block => Block
  | OutOfFuel => OutOfFuel
  end.

Definition M (S A : Type) : Type := S → outcome (A * S).

#[global] Instance M_ret S : MRet (M S) := λ A a s, Ret (a, s).
#[global] Instance M_bind S : MBind (M S) := λ A B f m s,
  outcome_bind (m s) (λ '(a, s'), f a s').

Definition gets {S A} (f : S → A) : M S A := λ s, Ret (f s, s).
Definition modify {S} (f : S → S) : M S () := λ s, Ret ((), f s).
Definition panic {S A} (msg : string) : M S A := λ _, Panic msg.
Definition fault {S A} : M S A := λ _, Fault.
Definition would_block {S A} : M S A := λ _, Block.
Definition out_of_fuel {S A} : M S A := λ _, OutOfFuel.
Definition when {S} (b : bool) (m : M S ()) : M S () := if b then m else mret ().
(** A loop over a list. *)
Definition mapM_ {S A} (f : A → M S ()) : list A → M S () :=
  foldr (λ a m, f a ;; m) (mret ()).
(** [oget o]: the value an access in bounds yields; out of bounds is a fault. *)
Definition oget {S A} (o : option A) : M S A :=
  match o with Some a => mret a | None => fault end.

Arguments panic {S A} msg%_string.

(** [run m s P]: [m] returns from [s], in a state and with a value where [P]
    holds. [may m s P]: if it returns at all, [P] holds. *)
Definition run {S A} (m : M S A) (s : S) (P : A → S → Prop) : Prop :=
  match m s with Ret (a, s') => P a s' | _ => False end.
Definition may {S A} (m : M S A) (s : S) (P : A → S → Prop) : Prop :=
  match m s with Ret (a, s') => P a s' | _ => True end.

Section monad.
Context {S : Type}.
Implicit Types s : S.

Lemma bind_Ret {A B} (m : M S A) (f : A → M S B) s a s' :
  m s = Ret (a, s') → (m ≫= f) s = f a s'.
Proof. intros H. unfold mbind, M_bind. by rewrite H. Qed.

Lemma bind_Panic {A B} (m : M S A) (f : A → M S B) s msg : m s = Panic msg → (m ≫= f) s = Panic msg.
Proof. intros H. unfold mbind, M_bind. by rewrite H. Qed.
Lemma mapM_cons {A} (f : A → M S ()) a l s s1 :
  f a s = Ret ((), s1) → mapM_ f (a :: l) s = mapM_ f l s1.
Proof. intros E1. cbn. by rewrite (bind_Ret _ _ _ _ _ E1). Qed.

Lemma bind_Ret_inv {A B} (m : M S A) (f : A → M S B) s b s'' :
  (m ≫= f) s = Ret (b, s'') → ∃ a s', m s = Ret (a, s') ∧ f a s' = Ret (b, s'').
Proof.
  unfold mbind, M_bind. destruct (m s) as [[a s']| | | |]; simpl; try done. eauto.
Qed.

Lemma bind_assoc {A B C} (m : M S A) (f : A → M S B) (g : B → M S C) s :
  ((m ≫= f) ≫= g) s = (m ≫= λ a, f a ≫= g) s.
Proof. unfold mbind, M_bind. by destruct (m s) as [[a s']| | | |]. Qed.

Lemma run_bind {A B} (m : M S A) (f : A → M S B) s P :
  run (m ≫= f) s P ↔ run m s (λ a s', run (f a) s' P).
Proof. unfold run, mbind, M_bind. by destruct (m s) as [[a s']| | | |]. Qed.

Lemma may_bind {A B} (m : M S A) (f : A → M S B) s P :
  may (m ≫= f) s P ↔ may m s (λ a s', may (f a) s' P).
Proof. unfold may, mbind, M_bind. by destruct (m s) as [[a s']| | | |]. Qed.

Lemma run_mono {A} (m : M S A) s (P Q : A → S → Prop) :
  run m s P → (∀ a s', P a s' → Q a s') → run m s Q.
Proof. unfold run. destruct (m s) as [[a s']| | | |]; try done. auto. Qed.

Lemma may_mono {A} (m : M S A) s (P Q : A → S → Prop) :
  may m s P → (∀ a s', P a s' → Q a s') → may m s Q.
Proof. unfold may. destruct (m s) as [[a s']| | | |]; try done. auto. Qed.

Lemma run_may {A} (m : M S A) s P : run m s P → may m s P.
Proof. unfold run, may. by destruct (m s) as [[a s']| | | |]. Qed.

Lemma run_Ret {A} (m : M S A) s P :
  run m s P ↔ ∃ a s', m s = Ret (a, s') ∧ P a s'.
Proof. unfold run. destruct (m s) as [[a s']| | | |].
  1: split; [eauto | by intros (? & ? & [= <- <-] & ?)].
  all: split; [done | by intros (? & ? & [=] & ?)].
Qed.

Lemma may_Ret {A} (m : M S A) s P :
  may m s P ↔ ∀ a s', m s = Ret (a, s') → P a s'.
Proof. unfold may. destruct (m s) as [[a s']| | | |].
  1: split; [by intros ? ? ? [= <- <-] | auto].
  all: split; [by intros ? ? ? [=] | done].
Qed.

Lemma run_and_may {A} (m : M S A) s P Q :
  run m s P → may m s Q → run m s (λ a s', P a s' ∧ Q a s').
Proof. unfold run, may. by destruct (m s) as [[a s']| | | |]. Qed.
End monad.

(** [Keeps f m]: running [m] does not change the part [f] of the state. The
    instances follow the structure of the code, so a frame property of a
    routine is found by type class search. *)
Class Keeps {S B A} (f : S → B) (m : M S A) : Prop :=
  keeps : ∀ s a s', m s = Ret (a, s') → f s' = f s.
#[global] Hint Mode Keeps - - - ! ! : typeclass_instances.

Section keeps.
Context {S B : Type} (f : S → B).

#[global] Instance keeps_ret {A} (a : A) : Keeps f (mret a).
Proof. intros s x s' [= <- <-]. done. Qed.
#[global] Instance keeps_gets {A} (g : S → A) : Keeps f (gets g).
Proof. intros s x s' [= <- <-]. done. Qed.
#[global] Instance keeps_panic {A} msg : Keeps f (@panic S A msg).
Proof. intros s x s' [=]. Qed.
#[global] Instance keeps_fault {A} : Keeps f (@fault S A).
Proof. intros s x s' [=]. Qed.
#[global] Instance keeps_block {A} : Keeps f (@would_block S A).
Proof. intros s x s' [=]. Qed.
#[global] Instance keeps_out_of_fuel {A} : Keeps f (@out_of_fuel S A).
Proof. intros s x s' [=]. Qed.
#[global] Instance keeps_oget {A} (o : option A) : Keeps f (oget o).
Proof. destruct o; apply _. Qed.
#[global] Instance keeps_bind {A C} (m : M S A) (k : A → M S C) :
  Keeps f m → (∀ a, Keeps f (k a)) → Keeps f (m ≫= k).
Proof.
  intros Hm Hk s b s'' (a & s' & H1 & H2)%bind_Ret_inv.
  rewrite (Hk a _ _ _ H2). eapply Hm, H1.
Qed.
#[global] Instance keeps_if {A} (b : bool) (m1 m2 : M S A) :
  Keeps f m1 → Keeps f m2 → Keeps f (if b then m1 else m2).
Proof. by destruct b. Qed.
#[global] Instance keeps_when (b : bool) (m : M S ()) : Keeps f m → Keeps f (when b m).
Proof. destruct b; [done|]. intros _. apply keeps_ret. Qed.
#[global] Instance keeps_option {A C} (o : option C) (m1 : C → M S A) (m2 : M S A) :
  (∀ c, Keeps f (m1 c)) → Keeps f m2 →
  Keeps f (match o with Some c => m1 c | None => m2 end).
Proof. by destruct o. Qed.

#[global] Instance keeps_pair {A C D} (p : C * D) (m : C → D → M S A) :
  (∀ c d, Keeps f (m c d)) → Keeps f (let '(c, d) := p in m c d).
Proof. by destruct p. Qed.

Lemma keeps_modify (g : S → S) : (∀ s, f (g s) = f s) → Keeps f (modify g).
Proof. intros H s x s' [= <- <-]. done. Qed.

Lemma keeps_may {A} (m : M S A) s P :
  Keeps f m → may m s P → may m s (λ a s', f s' = f s ∧ P a s').
Proof.
  intros Hk. rewrite !may_Ret. intros HP a s' Hm. split; [by eapply Hk|by apply HP].
Qed.
End keeps.
#[export] Hint Extern 2 (Keeps _ (modify _)) =>
  (apply keeps_modify; intros; reflexivity) : typeclass_instances.

(** Tactics of the development: [dlia] is [lia] with [/] and [mod] by constants
    turned into equations; [in_list] decides membership in lists; [minv H] inverts a run of a monadic program
    that returned, one step per call; [mcase] splits on the scrutinee of the
    first conditional of the goal. *)
Ltac dlia := intros; Z.div_mod_to_equations; lia.

Ltac in_list :=
  repeat match goal with
  | |- context [_ ∈ _ ++ _] => rewrite elem_of_app
  | |- context [_ ∈ _ :: _] => rewrite elem_of_cons
  | |- context [_ ∈ []] => rewrite elem_of_nil
  | H : context [_ ∈ _ ++ _] |- _ => rewrite elem_of_app in H
  | H : context [_ ∈ _ :: _] |- _ => rewrite elem_of_cons in H
  end; tauto.

Ltac minv H :=
  let a := fresh "a" in let s := fresh "s" in let H1 := fresh "H" in let H2 := fresh "H" in
  apply bind_Ret_inv in H; destruct H as (a & s & H1 & H2).

Ltac mcase :=
  match goal with
  | |- context [if ?b then _ else _] => destruct b eqn:?
  | |- context [match ?x with _ => _ end] => destruct x eqn:?
  end.

(** ** Lists *)

Lemma alter_insert {A} (f : A → A) i x (l : list A) : l !! i = Some x → alter f i l = <[i := f x]> l.
Proof.
  intros Hx. pose proof (lookup_lt_Some _ _ _ Hx). apply list_eq. intros j.
  destruct (decide (j = i)) as [->|].
  - by rewrite list_lookup_alter_eq, list_lookup_insert_eq, Hx.
  - by rewrite list_lookup_alter_ne, list_lookup_insert_ne.
Qed.

(** ** Bytes in memory

    RISC-V is little-endian: the object representation of an unsigned integer
    of [n] bytes is its digits in base 256, least significant first. *)

Fixpoint le_bytes (n : nat) (z : Z) : bytes :=
  match n with
  | O => []
  | S n => z mod 256 :: le_bytes n (z / 256)
  end.

Fixpoint le_val (l : bytes) : Z :=
  match l with
  | [] => 0
  | b :: l => b + 256 * le_val l
  end.

Section le.
Implicit Types l : bytes.

Lemma length_le_bytes n z : length (le_bytes n z) = n.
Proof. revert z. induction n; simpl; auto. Qed.

Lemma le_bytes_byte n z : Forall is_byte (le_bytes n z).
Proof.
  revert z. induction n as [|n IH]; intros z; simpl; constructor; [|done].
  apply (Z.mod_pos_bound z 256). lia.
Qed.

Lemma le_val_bytes n z : le_val (le_bytes n z) = z mod 2 ^ (8 * Z.of_nat n).
Proof.
  revert z. induction n as [|n IH]; intros z; cbn [le_bytes le_val].
  { by rewrite Z.mod_1_r. }
  rewrite IH, Nat2Z.inj_succ.
  replace (8 * Z.succ (Z.of_nat n)) with (8 + 8 * Z.of_nat n) by lia.
  rewrite Z.pow_add_r by lia. change (2 ^ 8) with 256.
  rewrite Z.rem_mul_r by lia. done.
Qed.

Lemma le_bytes_val l : Forall is_byte l → le_bytes (length l) (le_val l) = l.
Proof.
  induction 1 as [|b l Hb _ IH]; cbn [le_bytes le_val length]; [done|].
  unfold in_range in Hb. change (2 ^ 8) with 256 in Hb.
  rewrite (Z.mul_comm 256), Z_mod_plus_full, Z.mod_small by lia.
  rewrite Z.div_add by lia. rewrite Z.div_small by lia.
  by rewrite Z.add_0_l, IH.
Qed.

Lemma le_val_range l :
  Forall is_byte l → in_range (8 * Z.of_nat (length l)) (le_val l).
Proof.
  intros Hl. rewrite <- (le_bytes_val l Hl) at 2. rewrite le_val_bytes.
  apply Z.mod_pos_bound, Z.pow_pos_nonneg; lia.
Qed.

(** Byte [k] of the representation holds bits [8k] to [8k+7]. *)
Lemma lookup_le_bytes n z k :
  (k < n)%nat → le_bytes n z !! k = Some (Z.shiftr z (8 * Z.of_nat k) mod 256).
Proof.
  revert n z. induction k as [|k IH]; intros [|n] z Hk; try lia; cbn [le_bytes lookup list_lookup].
  { by rewrite Z.shiftr_0_r. }
  change (list_lookup k (le_bytes n (z / 256))) with (le_bytes n (z / 256) !! k).
  rewrite IH by lia. f_equal. f_equal.
  change 256 with (2 ^ 8). rewrite <- Z.shiftr_div_pow2, Z.shiftr_shiftr by lia.
  f_equal. lia.
Qed.

Lemma byte_testbit_high b j : is_byte b → 8 <= j → Z.testbit b j = false.
Proof.
  intros Hb Hj. rewrite <- (Z.mod_small b (2 ^ 8)) by done.
  apply Z.mod_pow2_bits_high. lia.
Qed.

Lemma le_val_testbit l k b j :
  Forall is_byte l → l !! k = Some b → 0 <= j < 8 →
  Z.testbit (le_val l) (8 * Z.of_nat k + j) = Z.testbit b j.
Proof.
  intros Hl. revert k. induction Hl as [|c l Hc Hl IH]; intros k Hk Hj; [done|].
  assert (le_val (c :: l) = Z.lor c (Z.shiftl (le_val l) 8)) as ->.
  { assert (Z.land c (Z.shiftl (le_val l) 8) = 0) as Hd.
    { apply Z.bits_inj'. intros i Hi. rewrite Z.land_spec, Z.bits_0.
      destruct (Z_lt_le_dec i 8); [|by rewrite byte_testbit_high].
      rewrite Z.shiftl_spec_low by lia. apply andb_false_r. }
    rewrite <- Z.lxor_lor, <- Z.add_nocarry_lxor by done.
    rewrite Z.shiftl_mul_pow2 by lia. cbn [le_val]. lia. }
  rewrite Z.lor_spec, Z.shiftl_spec by lia. destruct k as [|k].
  - injection Hk as ->. rewrite (Z.testbit_neg_r (le_val l)) by lia. simpl Z.of_nat.
    by rewrite orb_false_r.
  - rewrite byte_testbit_high by (done || lia). cbn [orb].
    rewrite <- (IH k) by done. f_equal. lia.
Qed.
End le.

#[export] Hint Rewrite length_le_bytes : xv6.
#[export] Hint Resolve le_bytes_byte : xv6.

(** ** Buffers

    [sub_bytes l off n] reads [n] bytes at offset [off]; [blit l off src] is a
    [memcpy] of [src] into the object [l] at offset [off]. Both are [None] when
    the access is not inside the object. *)

Definition sub_bytes (l : bytes) (off n : Z) : option bytes :=
  if (0 <=? off) && (0 <=? n) && (off + n <=? Z.of_nat (length l))
  then Some (take (Z.to_nat n) (drop (Z.to_nat off) l)) else None.

Definition blit (l : bytes) (off : Z) (src : bytes) : option bytes :=
  if (0 <=? off) && (off + Z.of_nat (length src) <=? Z.of_nat (length l))
  then Some (take (Z.to_nat off) l ++ src ++ drop (Z.to_nat off + length src) l)
  else None.

Lemma length_blit l off src l' : blit l off src = Some l' → length l' = length l.
Proof.
  unfold blit. destruct (_ && _) eqn:E; intros [= <-].
  rewrite !length_app, length_take, length_drop. lia.
Qed.

Lemma length_sub_bytes l off n l' :
  sub_bytes l off n = Some l' → Z.of_nat (length l') = n.
Proof.
  unfold sub_bytes. destruct (_ && _) eqn:E; intros [= <-].
  rewrite length_take, length_drop. lia.
Qed.

Lemma sub_bytes_blit l off src l' :
  blit l off src = Some l' → sub_bytes l' off (Z.of_nat (length src)) = Some src.
Proof.
  intros Hb. pose proof (length_blit _ _ _ _ Hb) as Hlen. revert Hb.
  unfold blit, sub_bytes. destruct (_ && _) eqn:E; intros [= <-].
  rewrite Hlen.
  replace ((0 <=? off) && (0 <=? Z.of_nat (length src)) &&
    (off + Z.of_nat (length src) <=? Z.of_nat (length l))) with true by lia.
  rewrite drop_app_ge by (rewrite length_take; lia).
  rewrite length_take, Nat.min_l, Nat.sub_diag, drop_0 by lia.
  by rewrite Nat2Z.id, take_app_length.
Qed.

Lemma lookup_blit l off src l' k :
  blit l off src = Some l' →
  l' !! k = if decide (off <= Z.of_nat k < off + Z.of_nat (length src))
            then src !! (k - Z.to_nat off)%nat else l !! k.
Proof.
  unfold blit. destruct (_ && _) eqn:E; intros [= <-].
  assert (length (take (Z.to_nat off) l) = Z.to_nat off) as Ht
    by (rewrite length_take; lia).
  case_decide.
  - rewrite lookup_app_r, Ht by lia. by rewrite lookup_app_l by lia.
  - destruct (Z_lt_le_dec (Z.of_nat k) off).
    + rewrite lookup_app_l by lia. by rewrite lookup_take_lt by lia.
    + rewrite lookup_app_r, Ht by lia. rewrite lookup_app_r by lia.
      rewrite lookup_drop. f_equal. lia.
Qed.

Lemma lookup_sub_bytes l off n l' k :
  sub_bytes l off n = Some l' → Z.of_nat k < n → l' !! k = l !! (Z.to_nat off + k)%nat.
Proof.
  unfold sub_bytes. destruct (_ && _) eqn:E; intros [= <-] Hk.
  by rewrite lookup_take_lt, lookup_drop by lia.
Qed.

(** A read that does not meet the bytes written. *)
Lemma sub_bytes_blit_other l off src l' o n :
  blit l off src = Some l' → o + n <= off ∨ off + Z.of_nat (length src) <= o →
  sub_bytes l' o n = sub_bytes l o n.
Proof.
  intros Hb Hd. unfold sub_bytes. rewrite (length_blit _ _ _ _ Hb).
  destruct (_ && _) eqn:E; [|done]. f_equal. apply list_eq. intros k.
  destruct (decide (Z.of_nat k < n)); [|by rewrite !lookup_take_ge by lia].
  rewrite !lookup_take_lt, !lookup_drop, (lookup_blit _ _ _ _ _ Hb) by lia.
  by rewrite decide_False by lia.
Qed.

Lemma blit_at l l1 l2 l3 off src :
  l = l1 ++ l2 ++ l3 → off = Z.of_nat (length l1) → length src = length l2 →
  blit l off src = Some (l1 ++ src ++ l3).
Proof.
  intros -> -> Hl. unfold blit. rewrite !length_app. replace (_ && _) with true by lia.
  rewrite Nat2Z.id, take_app_length. do 3 f_equal.
  rewrite <- drop_drop, drop_app_length, Hl, drop_app_length. done.
Qed.

Lemma sub_bytes_at l l1 l2 l3 off n :
  l = l1 ++ l2 ++ l3 → off = Z.of_nat (length l1) → n = Z.of_nat (length l2) →
  sub_bytes l off n = Some l2.
Proof.
  intros -> -> ->. unfold sub_bytes. rewrite !length_app. replace (_ && _) with true by lia.
  by rewrite !Nat2Z.id, drop_app_length, take_app_length.
Qed.

Lemma blit_is_Some l off src :
  0 <= off → off + Z.of_nat (length src) <= Z.of_nat (length l) → is_Some (blit l off src).
Proof.
  intros. unfold blit. replace (_ && _) with true by lia. eauto.
Qed.

Lemma sub_bytes_is_Some l off n :
  0 <= off → 0 <= n → off + n <= Z.of_nat (length l) → is_Some (sub_bytes l off n).
Proof.
  intros. unfold sub_bytes. replace (_ && _) with true by lia. eauto.
Qed.

Lemma blit_bytes l off src l' :
  Forall is_byte l → Forall is_byte src → blit l off src = Some l' → Forall is_byte l'.
Proof.
  intros Hl Hs. unfold blit. destruct (_ && _); intros [= <-].
  rewrite !Forall_app. split_and!; [by apply Forall_take|done|by apply Forall_drop].
Qed.

Lemma sub_bytes_bytes l off n l' :
  Forall is_byte l → sub_bytes l off n = Some l' → Forall is_byte l'.
Proof.
  intros Hl. unfold sub_bytes. destruct (_ && _); intros [= <-].
  by apply Forall_take, Forall_drop.
Qed.
