(* ===== verification/Bits.v ===== *)
(** * Bitmap scanning and bit operations

    [kernel/find_bits.c] (the ext2 allocator's bitmap scan) and the inline
    functions of [kernel/bitops.h]. A bitmap of [find_next_zero_bit] is the
    list of its 64-bit words; the byte-addressed bitmaps of [bitops.h] are byte
    lists, of which the atomic operations access one 32-bit word. *)
From S2P Require Import Prelude.

Definition BITS_PER_LONG : Z := 64.

(** [riscv_ctzl]: the loop runs at most 64 times on a non-zero word. *)
Fixpoint riscv_ctzl_loop (fuel : nat) (x r : Z) : outcome Z :=
  if Z.land x 1 =? 0 then
    match fuel with
    | O => OutOfFuel
    | S fuel => riscv_ctzl_loop fuel (Z.shiftr x 1) (r + 1)
    end
  else Ret r.

Definition riscv_ctzl (x : Z) : outcome Z :=
  if x =? 0 then Ret 64 else riscv_ctzl_loop 64 x 0.

(** The scanning loop of [find_next_zero_bit], entered with the inverted word
    in [word]; one unit of fuel per word of the bitmap. *)
Fixpoint find_zero_loop (fuel : nat) (addr : list Z) (size idx word : Z) : outcome Z :=
  if negb (word =? 0) then
    outcome_bind (riscv_ctzl word) (λ bit,
      let res := u64 (idx * BITS_PER_LONG + bit) in
      Ret (if res <? size then res else size))
  else
    let idx := u64 (idx + 1) in
    if size <=? u64 (idx * BITS_PER_LONG) then Ret size
    else
      match fuel with
      | O => OutOfFuel
      | S fuel =>
          match addr !! Z.to_nat idx with
          | None => Fault
          | Some w => find_zero_loop fuel addr size idx (u64 (Z.lnot w))
          end
      end.

Definition find_next_zero_bit (addr : list Z) (size offset : Z) : outcome Z :=
  if size <=? offset then Ret size
  else
    let idx := offset / BITS_PER_LONG in
    let bitpos := offset mod BITS_PER_LONG in
    match addr !! Z.to_nat idx with
    | None => Fault
    | Some w =>
        let word := Z.land (u64 (Z.lnot w)) (u64 (Z.shiftl (u64 (-1)) bitpos)) in
        find_zero_loop (length addr) addr size idx word
    end.

(** [generic_ffs]: [int] arithmetic, the right shifts are arithmetic. *)
Definition ffs_step (mask k : Z) (xr : Z * Z) : Z * Z :=
  let '(x, r) := xr in
  if Z.land x mask =? 0 then (Z.shiftr x k, r + k) else (x, r).

Definition generic_ffs (x : Z) : Z :=
  if x =? 0 then 0
  else
    let xr := ffs_step 0xffff 16 (x, 1) in
    let xr := ffs_step 0xff 8 xr in
    let xr := ffs_step 0xf 4 xr in
    let xr := ffs_step 3 2 xr in
    let xr := ffs_step 1 1 xr in
    xr.2.

(** [generic_fls]: the masks are [unsigned], so each test is on the 32-bit
    pattern of [x]; a left shift keeps 32 bits. *)
Definition fls_step (mask k : Z) (xr : Z * Z) : Z * Z :=
  let '(x, r) := xr in
  if Z.land (u32 x) mask =? 0 then (s32 (Z.shiftl x k), r - k) else (x, r).

Definition generic_fls (x : Z) : Z :=
  if x =? 0 then 0
  else
    let xr := fls_step 0xffff0000 16 (x, 32) in
    let xr := fls_step 0xff000000 8 xr in
    let xr := fls_step 0xf0000000 4 xr in
    let xr := fls_step 0xc0000000 2 xr in
    let xr := fls_step 0x80000000 1 xr in
    xr.2.

Definition __ilog2_u32 (n : Z) : Z := generic_fls (s32 n) - 1.

(** [test_bit] reads one byte of the bitmap. *)
Definition test_bit (nr : Z) (addr : bytes) : option Z :=
  match addr !! Z.to_nat (nr / 8) with
  | None => None
  | Some p => Some (Z.land (Z.shiftr p (nr mod 8)) 1)
  end.

(** The atomic operations: one [amoor.w]/[amoand.w] on the 32-bit word that
    holds bit [nr]; the result is whether the bit was set, and the memory. *)
Definition load32 (mem : bytes) (off : Z) : option Z :=
  match sub_bytes mem off 4 with Some l => Some (le_val l) | None => None end.
Definition store32 (mem : bytes) (off v : Z) : option bytes := blit mem off (le_bytes 4 v).

Definition test_and_set_bit (nr : Z) (mem : bytes) : option (bool * bytes) :=
  let mask := u32 (Z.shiftl 1 (nr mod 32)) in
  let p := 4 * (nr / 32) in
  match load32 mem p with
  | None => None
  | Some old =>
      match store32 mem p (Z.lor old mask) with
      | None => None
      | Some mem' => Some (negb (Z.land old mask =? 0), mem')
      end
  end.

Definition test_and_clear_bit (nr : Z) (mem : bytes) : option (bool * bytes) :=
  let mask := u32 (Z.shiftl 1 (nr mod 32)) in
  let p := 4 * (nr / 32) in
  match load32 mem p with
  | None => None
  | Some old =>
      match store32 mem p (Z.land old (u32 (Z.lnot mask))) with
      | None => None
      | Some mem' => Some (negb (Z.land old mask =? 0), mem')
      end
  end.

(** ** Correctness *)

(** Bit [i] of a bitmap of 64-bit words. *)
Definition bit_of (addr : list Z) (i : Z) : bool :=
  Z.testbit (nth (Z.to_nat (i / 64)) addr 0) (i mod 64).

(** [i] is the lowest set bit of [x]. *)
Definition lowest_bit (x i : Z) : Prop :=
  0 <= i ∧ Z.testbit x i = true ∧ ∀ j, 0 <= j < i → Z.testbit x j = false.

Lemma lowest_bit_below x (n : nat) :
  (∃ i, lowest_bit x i ∧ i < Z.of_nat n) ∨
  (∀ j, 0 <= j < Z.of_nat n → Z.testbit x j = false).
Proof.
  induction n as [|n [(i & Hi & Hlt)|IH]].
  - right. lia.
  - left. exists i. split; [done|lia].
  - destruct (Z.testbit x (Z.of_nat n)) eqn:E.
    + left. exists (Z.of_nat n). split; [|lia]. split_and!; [lia|done|done].
    + right. intros j Hj. destruct (decide (j = Z.of_nat n)) as [->|]; [done|].
      apply IH. lia.
Qed.

Lemma lowest_bit_exists w x :
  0 <= w → in_range w x → x ≠ 0 → ∃ i, lowest_bit x i ∧ i < w.
Proof.
  intros Hw Hx Hnz.
  destruct (lowest_bit_below x (Z.to_nat w)) as [(i & Hi & Hlt)|H].
  { exists i. split; [done|lia]. }
  destruct Hnz. apply Z.bits_inj_0. intros j.
  destruct (Z_lt_le_dec j 0); [by rewrite Z.testbit_neg_r by lia|].
  destruct (Z_lt_le_dec j w); [apply H; lia|].
  rewrite <- (Z.mod_small x (2 ^ w)) by done. apply Z.mod_pow2_bits_high. lia.
Qed.

Lemma lowest_bit_unique x i j : lowest_bit x i → lowest_bit x j → i = j.
Proof.
  intros (Hi & Hbi & Hli) (Hj & Hbj & Hlj).
  destruct (Z.lt_trichotomy i j) as [H|[H|H]]; [|done|].
  - rewrite Hlj in Hbi by lia. done.
  - rewrite Hli in Hbj by lia. done.
Qed.

(** Masking by [2^k - 1] tests the bits below [k]; shifting them out moves the
    lowest set bit down by [k]. *)
Lemma lowest_bit_land x i k :
  0 <= k → lowest_bit x i → (Z.land x (Z.ones k) =? 0) = (k <=? i).
Proof.
  intros Hk (Hi & Hb & Hl). destruct (Z.leb_spec k i).
  - apply Z.eqb_eq, Z.bits_inj'. intros j Hj. rewrite Z.land_spec, Z.bits_0.
    destruct (Z_lt_le_dec j k); [by rewrite Hl by lia|].
    rewrite Z.ones_spec_high by lia. apply andb_false_r.
  - apply Z.eqb_neq. intros H0. assert (Z.testbit (Z.land x (Z.ones k)) i = false) as E.
    { by rewrite H0, Z.bits_0. }
    rewrite Z.land_spec, Z.ones_spec_low, Hb in E by lia. done.
Qed.

Lemma lowest_bit_shiftr x i k :
  0 <= k <= i → lowest_bit x i → lowest_bit (Z.shiftr x k) (i - k).
Proof.
  intros Hk (Hi & Hb & Hl). split_and!; [lia| |].
  - rewrite Z.shiftr_spec by lia. by replace (i - k + k) with i by lia.
  - intros j Hj. rewrite Z.shiftr_spec by lia. apply Hl. lia.
Qed.

Lemma riscv_ctzl_loop_spec fuel x r i :
  lowest_bit x i → i <= Z.of_nat fuel → riscv_ctzl_loop fuel x r = Ret (r + i).
Proof.
  revert x r i. induction fuel as [|fuel IH]; intros x r i Hx Hf;
    pose proof (lowest_bit_land x i 1 ltac:(lia) Hx) as Hm; change (Z.ones 1) with 1 in Hm;
    cbn [riscv_ctzl_loop]; rewrite Hm; destruct (Z.leb_spec 1 i).
  - lia.
  - destruct Hx as [? _]. by replace i with 0 by lia; rewrite Z.add_0_r.
  - rewrite (IH _ _ (i - 1)); [f_equal; lia| |lia]. apply lowest_bit_shiftr; [lia|done].
  - destruct Hx as [? _]. by replace i with 0 by lia; rewrite Z.add_0_r.
Qed.

Lemma riscv_ctzl_spec x i : in_range 64 x → lowest_bit x i → riscv_ctzl x = Ret i.
Proof.
  intros Hx Hi. unfold riscv_ctzl. destruct (Z.eqb_spec x 0) as [->|Hnz].
  { destruct Hi as (_ & Hb & _). by rewrite Z.bits_0 in Hb. }
  destruct (lowest_bit_exists 64 x) as (j & Hj & Hlt); [lia|done..|].
  rewrite (lowest_bit_unique x i j) in * by done.
  by rewrite (riscv_ctzl_loop_spec _ _ _ j) by (done || lia).
Qed.

(** What a scan from [offset] must return. *)
Definition next_zero (addr : list Z) (size offset r : Z) : Prop :=
  offset <= r <= size ∧ (∀ i, offset <= i < r → bit_of addr i = true) ∧
  (r < size → bit_of addr r = false).

(** The invariant of the scan: [word] shows the clear bits of word [idx] at or
    after [offset], and every bit between [offset] and that word is set. *)
Definition scan_inv (addr : list Z) (size offset idx word : Z) : Prop :=
  0 <= idx ∧ idx * 64 < size ∧ offset < (idx + 1) * 64 ∧ in_range 64 word ∧
  (∀ j, 0 <= j < 64 → Z.testbit word j =
     negb (bit_of addr (idx * 64 + j)) && (offset <=? idx * 64 + j)) ∧
  (∀ i, offset <= i < idx * 64 → bit_of addr i = true).

Lemma bit_of_word addr idx j w :
  0 <= idx → 0 <= j < 64 → addr !! Z.to_nat idx = Some w →
  bit_of addr (idx * 64 + j) = Z.testbit w j.
Proof.
  intros Hi Hj Hw. unfold bit_of.
  rewrite Z.div_add_l, (Z.div_small j), Z.add_0_r by lia.
  rewrite Z.add_comm, Z_mod_plus_full, Z.mod_small by lia.
  by rewrite (nth_lookup_Some _ _ _ _ Hw).
Qed.

Lemma lnot_word_testbit w j :
  0 <= j < 64 → Z.testbit (u64 (Z.lnot w)) j = negb (Z.testbit w j).
Proof.
  intros Hj. rewrite wrap_testbit, bool_decide_eq_true_2 by lia. by rewrite Z.lnot_spec by lia.
Qed.

Lemma scan_word addr size offset idx word :
  scan_inv addr size offset idx word → word = 0 →
  ∀ i, offset <= i < (idx + 1) * 64 → bit_of addr i = true.
Proof.
  intros (Hi & Hs & Ho & Hr & Hw & Hpre) -> i Hoff.
  destruct (Z_lt_le_dec i (idx * 64)); [apply Hpre; lia|].
  specialize (Hw (i - idx * 64) ltac:(lia)). rewrite Z.bits_0 in Hw.
  replace (idx * 64 + (i - idx * 64)) with i in Hw by lia.
  destruct (bit_of addr i); [done|]. simpl in Hw. lia.
Qed.

Lemma find_zero_loop_spec addr size offset fuel idx word :
  size <= 64 * Z.of_nat (length addr) → size + 64 <= 2 ^ 64 → 0 <= offset < size →
  scan_inv addr size offset idx word → Z.of_nat (length addr) <= Z.of_nat fuel + idx →
  ∃ r, find_zero_loop fuel addr size idx word = Ret r ∧ next_zero addr size offset r.
Proof.
  intros Hsz Hov Hoff. revert idx word.
  induction fuel as [|fuel IH]; intros idx word Hinv Hf;
    pose proof Hinv as (Hi & Hs & Ho & Hr & Hw & Hpre); [lia|].
  cbn [find_zero_loop]. unfold BITS_PER_LONG. destruct (Z.eqb_spec word 0) as [Hz|Hz]; cbn [negb].
  - pose proof (scan_word _ _ _ _ _ Hinv Hz) as Hall.
    rewrite (wrap_small 64 (idx + 1)) by (unfold in_range; lia).
    destruct (Z_le_gt_dec size ((idx + 1) * 64)) as [Hend|Hmore].
    + exists size. split; [|split_and!; [lia..| |lia]; intros i ?; apply Hall; lia].
      rewrite wrap_small by (unfold in_range; lia).
      by destruct (Z.leb_spec size ((idx + 1) * 64)); [|lia].
    + rewrite wrap_small by (unfold in_range; lia).
      destruct (Z.leb_spec size ((idx + 1) * 64)); [lia|].
      destruct (lookup_lt_is_Some_2 addr (Z.to_nat (idx + 1))) as [w Hwd]; [lia|].
      rewrite Hwd. apply IH; [|lia].
      split_and!; [lia..|apply wrap_range; lia| |done].
      intros j Hj. rewrite lnot_word_testbit, (bit_of_word _ _ _ w) by (done || lia).
      destruct (Z.leb_spec offset ((idx + 1) * 64 + j)); [by rewrite andb_true_r|lia].
  - destruct (lowest_bit_exists 64 word) as (b & Hb & Hlt); [lia|done..|].
    rewrite (riscv_ctzl_spec _ b) by done. cbn [outcome_bind].
    destruct Hb as (Hb0 & Hbt & Hbl).
    rewrite Hw in Hbt by lia. apply andb_true_iff in Hbt as [Hclr Hge%Z.leb_le].
    rewrite wrap_small by (unfold in_range; lia).
    assert (∀ i, offset <= i < idx * 64 + b → bit_of addr i = true) as Hall.
    { intros i Hib. destruct (Z_lt_le_dec i (idx * 64)); [apply Hpre; lia|].
      specialize (Hbl (i - idx * 64) ltac:(lia)). rewrite Hw in Hbl by lia.
      replace (idx * 64 + (i - idx * 64)) with i in Hbl by lia.
      destruct (bit_of addr i); [done|]. simpl in Hbl. lia. }
    destruct (Z.ltb_spec (idx * 64 + b) size).
    + eexists. split; [done|]. split_and!; [lia..|done|]. intros _.
      by destruct (bit_of addr (idx * 64 + b)).
    + exists size. split; [done|]. split_and!; [lia..| |lia].
      intros i Hib. apply Hall. lia.
Qed.

(** the scan finds the first clear bit. *)
Theorem find_next_zero_bit_correct addr size offset :
  Forall (in_range 64) addr → size <= 64 * Z.of_nat (length addr) → size + 64 <= 2 ^ 64 →
  0 <= offset → 0 <= size →
  ∃ r, find_next_zero_bit addr size offset = Ret r ∧
    if size <=? offset then r = size else next_zero addr size offset r.
Proof.
  intros Haddr Hsz Hov Hoff Hsz0. unfold find_next_zero_bit, BITS_PER_LONG.
  destruct (Z.leb_spec size offset); [by eexists|].
  pose proof (Z.div_mod offset 64 ltac:(lia)) as Hdm.
  pose proof (Z.mod_pos_bound offset 64 ltac:(lia)) as Hmb.
  destruct (lookup_lt_is_Some_2 addr (Z.to_nat (offset / 64))) as [w Hw]; [lia|].
  rewrite Hw. apply find_zero_loop_spec; [lia..| |lia].
  split_and!; [lia..| | |intros; lia].
  - apply land_range; [lia|]. apply wrap_range. lia.
  - intros j Hj. rewrite Z.land_spec, lnot_word_testbit by done.
    rewrite (bit_of_word _ _ _ w) by (done || lia). f_equal.
    rewrite wrap_testbit, bool_decide_eq_true_2 by lia. cbn [andb].
    rewrite Z.shiftl_spec by lia. destruct (Z.leb_spec offset (offset / 64 * 64 + j)).
    + rewrite wrap_testbit, bool_decide_eq_true_2 by lia. by rewrite Z.bits_m1 by lia.
    + apply Z.testbit_neg_r. lia.
Qed.

(** *** ffs and fls *)

Lemma ffs_step_spec k x r i :
  0 <= k → lowest_bit x i →
  ∃ x' r' i', ffs_step (Z.ones k) k (x, r) = (x', r') ∧ lowest_bit x' i' ∧
    r' + i' = r + i ∧ i' = if k <=? i then i - k else i.
Proof.
  intros Hk Hx. unfold ffs_step. rewrite (lowest_bit_land x i k) by done.
  destruct (Z.leb_spec k i); eexists _, _, _; (split; [done|]).
  - split_and!; [by apply lowest_bit_shiftr|lia|done].
  - split_and!; [done|lia|done].
Qed.

Theorem generic_ffs_correct x :
  x ≠ 0 → - 2 ^ 31 <= x < 2 ^ 31 →
  lowest_bit x (generic_ffs x - 1) ∧ 1 <= generic_ffs x <= 32.
Proof.
  intros Hnz Hx.
  assert (∃ i, lowest_bit x i ∧ i < 32) as (i & Hi & Hlt).
  { destruct (lowest_bit_below x 32) as [?|H]; [done|].
    destruct Hnz. apply Z.bits_inj_0. intros j.
    destruct (Z_lt_le_dec j 0); [by rewrite Z.testbit_neg_r by lia|].
    destruct (Z_lt_le_dec j 32); [apply H; lia|].
    assert (Z.testbit x 31 = false) as H31 by (apply H; lia).
    assert (0 <= x).
    { destruct (Z_lt_le_dec x 0); [|done]. exfalso. destruct (decide (x = -1)) as [->|].
      { by rewrite Z.bits_m1 in H31 by lia. }
      rewrite Z.bits_above_log2_neg in H31; [done|lia|]. apply Z.log2_lt_pow2; lia. }
    destruct (decide (x = 0)) as [->|]; [by rewrite Z.bits_0|].
    apply Z.bits_above_log2; [done|]. apply Z.log2_lt_pow2; [lia|].
    apply Z.lt_le_trans with (2 ^ 31); [lia|]. apply Z.pow_le_mono_r; lia. }
  unfold generic_ffs. destruct (Z.eqb_spec x 0); [done|].
  pose proof Hi as [Hi0 _].
  destruct (ffs_step_spec 16 x 1 i) as (x1 & r1 & i1 & E1 & L1 & S1 & D1); [lia|done|].
  destruct (ffs_step_spec 8 x1 r1 i1) as (x2 & r2 & i2 & E2 & L2 & S2 & D2); [lia|done|].
  destruct (ffs_step_spec 4 x2 r2 i2) as (x3 & r3 & i3 & E3 & L3 & S3 & D3); [lia|done|].
  destruct (ffs_step_spec 2 x3 r3 i3) as (x4 & r4 & i4 & E4 & L4 & S4 & D4); [lia|done|].
  destruct (ffs_step_spec 1 x4 r4 i4) as (x5 & r5 & i5 & E5 & L5 & S5 & D5); [lia|done|].
  change (Z.ones 16) with 0xffff in E1. change (Z.ones 8) with 0xff in E2.
  change (Z.ones 4) with 0xf in E3. change (Z.ones 2) with 3 in E4.
  change (Z.ones 1) with 1 in E5.
  rewrite E1, E2, E3, E4, E5. cbn [snd].
  assert (r5 = i + 1) as ->.
  { destruct (Z.leb_spec 16 i), (Z.leb_spec 8 i1), (Z.leb_spec 4 i2), (Z.leb_spec 2 i3),
      (Z.leb_spec 1 i4); lia. }
  replace (i + 1 - 1) with i by lia. split; [done|lia].
Qed.

(** Clearing the low bits of [y] leaves nothing exactly when [y < 2^m]. *)
Lemma land_high_mask y m :
  in_range 32 y → 0 <= m <= 32 →
  (Z.land y (2 ^ 32 - 2 ^ m) =? 0) = (y <? 2 ^ m).
Proof.
  intros Hy Hm. unfold in_range in Hy.
  assert (Z.land y (2 ^ 32 - 2 ^ m) = Z.shiftl (Z.shiftr y m) m) as ->.
  { replace (2 ^ 32 - 2 ^ m) with (Z.shiftl (Z.ones (32 - m)) m).
    2:{ rewrite Z.ones_equiv, Z.shiftl_mul_pow2 by lia. unfold Z.pred.
        rewrite Z.mul_add_distr_r, <- Z.pow_add_r by lia.
        replace (32 - m + m) with 32 by lia. lia. }
    apply Z.bits_inj'. intros j Hj. rewrite Z.land_spec, !Z.shiftl_spec by lia.
    destruct (Z_lt_le_dec j m).
    { rewrite !(Z.testbit_neg_r _ (j - m)) by lia. apply andb_false_r. }
    rewrite Z.shiftr_spec by lia. replace (j - m + m) with j by lia.
    destruct (Z_lt_le_dec j 32).
    - rewrite Z.ones_spec_low by lia. apply andb_true_r.
    - rewrite Z.ones_spec_high by lia. rewrite andb_false_r.
      rewrite <- (Z.mod_small y (2 ^ 32)) by done.
      by rewrite Z.mod_pow2_bits_high by lia. }
  pose proof (Z.pow_pos_nonneg 2 m ltac:(lia) ltac:(lia)).
  rewrite Z.shiftl_mul_pow2, Z.shiftr_div_pow2 by lia.
  destruct (Z.ltb_spec y (2 ^ m)).
  - rewrite Z.div_small by lia. done.
  - apply Z.eqb_neq. assert (1 <= y / 2 ^ m) by (apply Z.div_le_lower_bound; lia). nia.
Qed.

Lemma fls_step_spec k x r :
  0 < k <= 31 → u32 x ≠ 0 →
  ∃ x' r', fls_step (2 ^ 32 - 2 ^ (32 - k)) k (x, r) = (x', r') ∧ u32 x' ≠ 0 ∧
    let h := Z.log2 (u32 x) in let h' := Z.log2 (u32 x') in
    r' + h' = r + h ∧ h' = if h <? 32 - k then h + k else h.
Proof.
  intros Hk Hnz. unfold fls_step.
  pose proof (wrap_range 32 x ltac:(lia)) as Hr. unfold in_range in Hr.
  rewrite land_high_mask by (done || lia).
  destruct (Z.ltb_spec (u32 x) (2 ^ (32 - k))) as [Hlt|Hge].
  - eexists _, _. split; [done|].
    assert (u32 (s32 (Z.shiftl x k)) = u32 x * 2 ^ k) as E.
    { rewrite wrap_swrap.
      rewrite Z.shiftl_mul_pow2 by lia. unfold wrap. rewrite <- Zmult_mod_idemp_l.
      apply Z.mod_small. fold (u32 x).
      replace (2 ^ 32) with (2 ^ (32 - k) * 2 ^ k) by (rewrite <- Z.pow_add_r by lia; f_equal; lia).
      pose proof (Z.pow_pos_nonneg 2 k ltac:(lia) ltac:(lia)). nia. }
    rewrite E. pose proof (Z.pow_pos_nonneg 2 k ltac:(lia) ltac:(lia)).
    rewrite Z.log2_mul_pow2 by lia.
    assert (Z.log2 (u32 x) < 32 - k) by (apply Z.log2_lt_pow2; lia).
    cbn zeta. destruct (Z.ltb_spec (Z.log2 (u32 x)) (32 - k)); split_and!; lia.
  - eexists _, _. split; [done|]. cbn zeta.
    assert (32 - k <= Z.log2 (u32 x)) by (apply Z.log2_le_pow2; lia).
    destruct (Z.ltb_spec (Z.log2 (u32 x)) (32 - k)); split_and!; lia.
Qed.

Theorem generic_fls_correct x :
  u32 x ≠ 0 → generic_fls x = Z.log2 (u32 x) + 1.
Proof.
  intros Hnz. pose proof (wrap_range 32 x ltac:(lia)) as Hr. unfold in_range in Hr.
  assert (0 <= Z.log2 (u32 x) < 32).
  { split; [apply Z.log2_nonneg|]. apply Z.log2_lt_pow2; lia. }
  unfold generic_fls. destruct (Z.eqb_spec x 0) as [->|]; [done|].
  destruct (fls_step_spec 16 x 32) as (x1 & r1 & E1 & N1 & S1 & D1); [lia|done|].
  destruct (fls_step_spec 8 x1 r1) as (x2 & r2 & E2 & N2 & S2 & D2); [lia|done|].
  destruct (fls_step_spec 4 x2 r2) as (x3 & r3 & E3 & N3 & S3 & D3); [lia|done|].
  destruct (fls_step_spec 2 x3 r3) as (x4 & r4 & E4 & N4 & S4 & D4); [lia|done|].
  destruct (fls_step_spec 1 x4 r4) as (x5 & r5 & E5 & N5 & S5 & D5); [lia|done|].
  change (2 ^ 32 - 2 ^ (32 - 16)) with 0xffff0000 in E1.
  change (2 ^ 32 - 2 ^ (32 - 8)) with 0xff000000 in E2.
  change (2 ^ 32 - 2 ^ (32 - 4)) with 0xf0000000 in E3.
  change (2 ^ 32 - 2 ^ (32 - 2)) with 0xc0000000 in E4.
  change (2 ^ 32 - 2 ^ (32 - 1)) with 0x80000000 in E5.
  rewrite E1, E2, E3, E4, E5. cbn [snd].
  repeat match type of D1 with _ = (if ?b then _ else _) => destruct b eqn:? end.
  all: repeat match goal with
    | D : _ = (if ?b then _ else _) |- _ => destruct b eqn:?
    end; lia.
Qed.

(** *** The byte-addressed bitmaps *)

Lemma test_bit_byte i mem p :
  0 <= i → mem !! Z.to_nat (i / 8) = Some p →
  test_bit i mem = Some (Z.b2z (Z.testbit p (i mod 8))).
Proof.
  intros Hi Hp. unfold test_bit. rewrite Hp. f_equal.
  change 1 with (Z.ones 1). rewrite Z.land_ones by lia. change (2 ^ 1) with 2.
  by rewrite <- Z.bit0_mod, Z.shiftr_spec by lia.
Qed.

Lemma load32_bit mem nr old :
  Forall is_byte mem → 0 <= nr → load32 mem (4 * (nr / 32)) = Some old →
  test_bit nr mem = Some (Z.b2z (Z.testbit old (nr mod 32))).
Proof.
  intros Hm Hnr. unfold load32. destruct (sub_bytes _ _ _) as [l|] eqn:El; intros [= <-].
  assert (nr / 8 = 4 * (nr / 32) + nr mod 32 / 8 ∧ nr mod 8 = nr mod 32 mod 8) as [H8 Hm8]
    by (split; Z.div_mod_to_equations; lia).
  pose proof (Z.mod_pos_bound nr 32 ltac:(lia)).
  assert (0 <= nr mod 32 / 8 < 4) by (split; Z.div_mod_to_equations; lia).
  assert (0 <= nr / 32) by (apply Z.div_pos; lia).
  pose proof (length_sub_bytes _ _ _ _ El).
  destruct (lookup_lt_is_Some_2 l (Z.to_nat (nr mod 32 / 8))) as [b Hb]; [lia|].
  pose proof (lookup_sub_bytes _ _ _ _ (Z.to_nat (nr mod 32 / 8)) El ltac:(lia)) as Hlk. rewrite Hb in Hlk.
  rewrite (test_bit_byte nr mem b); [|lia|].
  - f_equal. f_equal.
    rewrite Hm8, <- (le_val_testbit l (Z.to_nat (nr mod 32 / 8)) b) by
      (first [by eapply sub_bytes_bytes | done | apply Z.mod_pos_bound; lia]).
    f_equal. rewrite Z2Nat.id by lia. symmetry. apply Z.div_mod. lia.
  - rewrite Hlk. f_equal. rewrite H8. lia.
Qed.

Lemma store32_bit mem nr v mem' i :
  0 <= nr → 0 <= i → store32 mem (4 * (nr / 32)) v = Some mem' →
  test_bit i mem' = if i / 32 =? nr / 32 then Some (Z.b2z (Z.testbit v (i mod 32)))
                    else test_bit i mem.
Proof.
  intros Hnr Hi Hst. unfold store32 in Hst.
  assert (i / 8 = 4 * (i / 32) + i mod 32 / 8 ∧ i mod 8 = i mod 32 mod 8) as [H8 Hm8]
    by (split; Z.div_mod_to_equations; lia).
  pose proof (Z.mod_pos_bound i 32 ltac:(lia)).
  assert (0 <= i mod 32 / 8 < 4) by (split; Z.div_mod_to_equations; lia).
  assert (0 <= nr / 32) by (apply Z.div_pos; lia).
  assert (0 <= i / 32) by (apply Z.div_pos; lia).
  pose proof (lookup_blit _ _ _ _ (Z.to_nat (i / 8)) Hst) as Hlk.
  rewrite length_le_bytes in Hlk. destruct (Z.eqb_spec (i / 32) (nr / 32)) as [E|E].
  - rewrite decide_True, lookup_le_bytes in Hlk by lia.
    rewrite (test_bit_byte i mem' _ Hi Hlk). f_equal. f_equal.
    change 256 with (2 ^ 8). rewrite Z.mod_pow2_bits_low
      by (apply Z.mod_pos_bound; lia).
    rewrite Z.shiftr_spec by (apply Z.mod_pos_bound; lia). f_equal.
    rewrite Hm8, H8, E. pose proof (Z.div_mod (i mod 32) 8 ltac:(lia)). lia.
  - rewrite decide_False in Hlk by lia. unfold test_bit. by rewrite Hlk.
Qed.

Lemma bit_mask_testbit n j :
  0 <= n < 32 → 0 <= j < 32 → Z.testbit (u32 (Z.shiftl 1 n)) j = bool_decide (j = n).
Proof.
  intros Hn Hj. rewrite wrap_testbit, bool_decide_eq_true_2 by lia.
  rewrite Z.shiftl_spec by lia. cbn [andb]. case_bool_decide.
  - subst. by rewrite Z.sub_diag.
  - destruct (Z_lt_le_dec j n); [apply Z.testbit_neg_r; lia|].
    apply Z.bits_above_log2; [lia|]. simpl. lia.
Qed.

Lemma land_mask_nonzero old n :
  0 <= n < 32 → negb (Z.land old (u32 (Z.shiftl 1 n)) =? 0) = Z.testbit old n.
Proof.
  intros Hn. destruct (Z.testbit old n) eqn:E.
  - apply negb_true_iff, Z.eqb_neq. intros H0.
    assert (Z.testbit (Z.land old (u32 (Z.shiftl 1 n))) n = false) as Hf by (rewrite H0; apply Z.bits_0).
    rewrite Z.land_spec, E, bit_mask_testbit, bool_decide_eq_true_2 in Hf by (done || lia). done.
  - apply negb_false_iff, Z.eqb_eq, Z.bits_inj'. intros j Hj. rewrite Z.land_spec, Z.bits_0.
    destruct (Z_lt_le_dec j 32).
    + rewrite bit_mask_testbit by lia. case_bool_decide; [subst; by rewrite E|apply andb_false_r].
    + rewrite wrap_testbit, bool_decide_eq_false_2 by lia. apply andb_false_r.
Qed.

Lemma word_access mem nr v :
  0 <= nr → 4 * (nr / 32) + 4 <= Z.of_nat (length mem) →
  ∃ old mem', load32 mem (4 * (nr / 32)) = Some old ∧ store32 mem (4 * (nr / 32)) v = Some mem'.
Proof.
  intros Hnr Hlen. assert (0 <= nr / 32) by (apply Z.div_pos; lia). unfold load32, store32.
  destruct (sub_bytes_is_Some mem (4 * (nr / 32)) 4) as [l ->]; [lia..|].
  destruct (blit_is_Some mem (4 * (nr / 32)) (le_bytes 4 v)) as [m' ->];
    [lia|rewrite length_le_bytes; lia|]. eauto.
Qed.

Theorem test_and_set_bit_correct mem nr :
  Forall is_byte mem → 0 <= nr → 4 * (nr / 32) + 4 <= Z.of_nat (length mem) →
  ∃ was mem', test_and_set_bit nr mem = Some (was, mem') ∧
    test_bit nr mem = Some (Z.b2z was) ∧
    ∀ i, 0 <= i → test_bit i mem' = if i =? nr then Some 1 else test_bit i mem.
Proof.
  intros Hm Hnr Hlen. pose proof (Z.mod_pos_bound nr 32 ltac:(lia)).
  unfold test_and_set_bit.
  destruct (word_access mem nr 0 Hnr Hlen) as (old & _ & Hld & _). rewrite Hld.
  destruct (word_access mem nr (Z.lor old (u32 (Z.shiftl 1 (nr mod 32)))) Hnr Hlen)
    as (_ & mem' & _ & Hst). rewrite Hst.
  eexists _, mem'. split; [done|]. rewrite land_mask_nonzero by done.
  split; [by apply load32_bit|]. intros i Hi.
  pose proof (Z.mod_pos_bound i 32 ltac:(lia)).
  rewrite (store32_bit _ _ _ _ _ Hnr Hi Hst). destruct (Z.eqb_spec (i / 32) (nr / 32)) as [E|E].
  - rewrite Z.lor_spec, bit_mask_testbit by done. destruct (Z.eqb_spec i nr) as [->|Hne].
    + by rewrite bool_decide_eq_true_2, orb_true_r.
    + rewrite bool_decide_eq_false_2, orb_false_r by (Z.div_mod_to_equations; lia).
      rewrite <- E in Hld. by rewrite (load32_bit mem i old).
  - destruct (Z.eqb_spec i nr) as [->|]; done.
Qed.

Theorem test_and_clear_bit_correct mem nr :
  Forall is_byte mem → 0 <= nr → 4 * (nr / 32) + 4 <= Z.of_nat (length mem) →
  ∃ was mem', test_and_clear_bit nr mem = Some (was, mem') ∧
    test_bit nr mem = Some (Z.b2z was) ∧
    ∀ i, 0 <= i → test_bit i mem' = if i =? nr then Some 0 else test_bit i mem.
Proof.
  intros Hm Hnr Hlen. pose proof (Z.mod_pos_bound nr 32 ltac:(lia)).
  unfold test_and_clear_bit.
  destruct (word_access mem nr 0 Hnr Hlen) as (old & _ & Hld & _). rewrite Hld.
  destruct (word_access mem nr (Z.land old (u32 (Z.lnot (u32 (Z.shiftl 1 (nr mod 32)))))) Hnr Hlen)
    as (_ & mem' & _ & Hst). rewrite Hst.
  eexists _, mem'. split; [done|]. rewrite land_mask_nonzero by done.
  split; [by apply load32_bit|]. intros i Hi.
  pose proof (Z.mod_pos_bound i 32 ltac:(lia)).
  rewrite (store32_bit _ _ _ _ _ Hnr Hi Hst). destruct (Z.eqb_spec (i / 32) (nr / 32)) as [E|E].
  - rewrite Z.land_spec, (wrap_testbit 32 (Z.lnot _)), bool_decide_eq_true_2 by lia.
    rewrite Z.lnot_spec, bit_mask_testbit by lia. cbn [andb].
    destruct (Z.eqb_spec i nr) as [->|Hne].
    + by rewrite bool_decide_eq_true_2, andb_false_r.
    + rewrite bool_decide_eq_false_2, andb_true_r by (Z.div_mod_to_equations; lia).
      rewrite <- E in Hld. by rewrite (load32_bit mem i old).
  - destruct (Z.eqb_spec i nr) as [->|]; done.
Qed.
