(* ===== verification/KString.v ===== *)
(** * The kernel's string library: [kernel/string.c]

    Memory is a finite map from addresses to bytes; an access to an address
    that is not mapped is a [Fault]. Pointers are addresses, and [char] is
    unsigned, as it is for the RISC-V compilers the Makefile names. *)
From S2P Require Import Prelude.

Abbreviation mem := (gmap Z Z).

Definition load8 (p : Z) : M mem Z := b ← gets (λ m, m !! p); oget b.
Definition store8 (p v : Z) : M mem () :=
  b ← gets (λ m, m !! p); _ ← oget b; modify (λ m, <[p := u8 v]> m).

(** The strings a [while] loop can walk are shorter than the memory is large. *)
Definition str_fuel : M mem nat := gets (λ m, S (size m)).

Fixpoint memset_loop (i n : nat) (dst c : Z) : M mem () :=
  match n with
  | O => mret ()
  | S n => store8 (dst + Z.of_nat i) c ;; memset_loop (S i) n dst c
  end.
Definition memset (dst c : Z) (n : nat) : M mem Z := memset_loop 0 n dst c ;; mret dst.

Fixpoint memcmp (v1 v2 : Z) (n : nat) : M mem Z :=
  match n with
  | O => mret 0
  | S n =>
      b1 ← load8 v1; b2 ← load8 v2;
      if negb (b1 =? b2) then mret (b1 - b2) else memcmp (v1 + 1) (v2 + 1) n
  end.

Fixpoint move_up (d s : Z) (n : nat) : M mem () :=
  match n with
  | O => mret ()
  | S n => b ← load8 s; store8 d b ;; move_up (d + 1) (s + 1) n
  end.
Fixpoint move_down (d s : Z) (n : nat) : M mem () :=
  match n with
  | O => mret ()
  | S n => b ← load8 (s - 1); store8 (d - 1) b ;; move_down (d - 1) (s - 1) n
  end.
Definition memmove (dst src : Z) (n : nat) : M mem Z :=
  match n with
  | O => mret dst
  | S _ =>
      (if (src <? dst) && (dst <? src + Z.of_nat n)
       then move_down (dst + Z.of_nat n) (src + Z.of_nat n) n
       else move_up dst src n) ;;
      mret dst
  end.
Definition memcpy (dst src : Z) (n : nat) : M mem Z := memmove dst src n.

Fixpoint strncmp (p q : Z) (n : nat) : M mem Z :=
  match n with
  | O => mret 0
  | S n' =>
      a ← load8 p;
      if a =? 0 then b ← load8 q; mret (a - b)
      else
        b ← load8 q;
        if a =? b then strncmp (p + 1) (q + 1) n' else mret (a - b)
  end.

(** [strncpy]: copy up to and including the NUL, then pad with NULs. *)
Fixpoint strncpy_pad (s : Z) (n : nat) : M mem () :=
  match n with
  | O => mret ()
  | S n => store8 s 0 ;; strncpy_pad (s + 1) n
  end.
Fixpoint strncpy_loop (s t : Z) (n : nat) : M mem () :=
  match n with
  | O => mret ()
  | S n =>
      b ← load8 t; store8 s b ;;
      if b =? 0 then strncpy_pad (s + 1) n else strncpy_loop (s + 1) (t + 1) n
  end.
Definition strncpy (s t n : Z) : M mem Z := strncpy_loop s t (Z.to_nat n) ;; mret s.

(** [safestrcpy]: [--n > 0] leaves room for the terminator. *)
Fixpoint safestrcpy_loop (s t : Z) (n : nat) : M mem Z :=
  match n with
  | O => mret s
  | S n =>
      b ← load8 t; store8 s b ;;
      if b =? 0 then mret (s + 1) else safestrcpy_loop (s + 1) (t + 1) n
  end.
Definition safestrcpy (s t n : Z) : M mem Z :=
  if n <=? 0 then mret s
  else e ← safestrcpy_loop s t (Z.to_nat (n - 1)); store8 e 0 ;; mret s.

Fixpoint strlen_loop (fuel : nat) (s n : Z) : M mem Z :=
  b ← load8 (s + n);
  if b =? 0 then mret n
  else match fuel with
       | O => out_of_fuel
       | S fuel => strlen_loop fuel s (n + 1)
       end.
Definition strlen (s : Z) : M mem Z := fuel ← str_fuel; strlen_loop fuel s 0.

(** [itoa]: C's [%] and [/] truncate; a negative index into [digits] is out of
    bounds. The digits go to [tbuf], which holds 16 characters. *)
Definition itoa_digit (x : Z) : option Z :=
  let d := Z.rem x 10 in if d <? 0 then None else Some (if d <? 10 then 48 + d else 87 + d).
Fixpoint itoa_digits (fuel : nat) (x : Z) (tbuf : list Z) : M mem (list Z) :=
  d ← oget (itoa_digit x);
  let tbuf := d :: tbuf in
  let x := Z.quot x 10 in
  if x =? 0 then mret tbuf
  else match fuel with O => fault | S fuel => itoa_digits fuel x tbuf end.
Fixpoint itoa_copy (l : list Z) (j buf : Z) : M mem () :=
  match l with
  | [] => mret ()
  | c :: l => store8 (buf + j) c ;; itoa_copy l (j + 1) buf
  end.
Definition itoa (xx buf : Z) : M mem () :=
  l ← itoa_digits 15 xx []; itoa_copy l 0 buf.

(** [strconcat]: the loop advances [j] only. *)
Fixpoint strconcat_loop (r b i j : Z) (n : nat) : M mem () :=
  match n with
  | O => mret ()
  | S n => c ← load8 (b + j); store8 (r + i) c ;; strconcat_loop r b i (j + 1) n
  end.
Definition strconcat (r a b : Z) : M mem () :=
  asize ← strlen a; bsize ← strlen b;
  strncpy r a asize ;;
  strconcat_loop r b asize 0 (Z.to_nat bsize) ;;
  store8 (r + (asize + bsize)) 0.

Definition strcmp (p q : Z) : M mem Z :=
  gtrlen ← strlen p; qlen ← strlen q;
  strncmp p q (Z.to_nat (if gtrlen <? qlen then qlen else gtrlen)).

Fixpoint memscan (addr c : Z) (size : nat) : M mem Z :=
  match size with
  | O => mret addr
  | S size =>
      b ← load8 addr; if b =? u8 c then mret addr else memscan (addr + 1) c size
  end.

Fixpoint strnlen_loop (s n : Z) (z : nat) : M mem Z :=
  match z with
  | O => mret n
  | S z => b ← load8 (s + n); if b =? 0 then mret n else strnlen_loop s (n + 1) z
  end.
Definition strnlen (s : Z) (z : nat) : M mem Z := strnlen_loop s 0 z.

(** ** Specifications *)

(** The bytes [l] stand at [p]; the [n] addresses from [p] are mapped. *)
Definition bytes_at (m : mem) (p : Z) (l : bytes) : Prop :=
  ∀ k b, l !! k = Some b → m !! (p + Z.of_nat k) = Some b.
Definition mapped (m : mem) (p : Z) (n : nat) : Prop :=
  ∀ k, (k < n)%nat → is_Some (m !! (p + Z.of_nat k)).
(** A NUL-terminated string. *)
Definition str_at (m : mem) (p : Z) (l : bytes) : Prop :=
  bytes_at m p (l ++ [0]) ∧ Forall (λ b, b ≠ 0 ∧ is_byte b) l.
(** [m'] is [m] with [l] written at [d]. *)
Definition written (m m' : mem) (d : Z) (l : bytes) : Prop :=
  ∀ a, m' !! a = if decide (d <= a < d + Z.of_nat (length l))
                 then l !! Z.to_nat (a - d) else m !! a.

Section facts.
Implicit Types m : mem.
Implicit Types l : bytes.

Lemma load8_run m p b : m !! p = Some b → load8 p m = Ret (b, m).
Proof. intros H. unfold load8, gets, mbind, M_bind. simpl. by rewrite H. Qed.

Lemma store8_run m p v : is_Some (m !! p) → store8 p v m = Ret ((), <[p := u8 v]> m).
Proof. intros [b H]. unfold store8, gets, mbind, M_bind. simpl. by rewrite H. Qed.

Lemma written_nil m d : written m m d [].
Proof. intros a. by rewrite decide_False by (simpl; lia). Qed.

(** Writing one byte in front of, or after, a written range extends it. *)
Lemma written_cons m m' d b l :
  written (<[d := b]> m) m' (d + 1) l → written m m' d (b :: l).
Proof.
  intros H a. rewrite H. cbn [length]. destruct (decide (a = d)) as [->|Hne].
  - rewrite decide_False, decide_True by lia. rewrite lookup_insert_eq, Z.sub_diag. done.
  - rewrite lookup_insert_ne by done. repeat case_decide; try lia; [|done].
    replace (Z.to_nat (a - d)) with (S (Z.to_nat (a - (d + 1)))) by lia. done.
Qed.

Lemma written_snoc m m' d b l :
  written (<[d + Z.of_nat (length l) := b]> m) m' d l → written m m' d (l ++ [b]).
Proof.
  intros H a. rewrite H, length_app. cbn [length].
  destruct (decide (a = d + Z.of_nat (length l))) as [->|Hne].
  - rewrite decide_False, decide_True by lia. rewrite lookup_insert_eq.
    rewrite lookup_app_r by lia. by replace (Z.to_nat _ - _)%nat with O by lia.
  - rewrite lookup_insert_ne by done. repeat case_decide; try lia; [|done].
    by rewrite lookup_app_l by lia.
Qed.

Lemma written_app m m1 m2 d l1 l2 :
  written m m1 d l1 → written m1 m2 (d + Z.of_nat (length l1)) l2 →
  written m m2 d (l1 ++ l2).
Proof.
  intros H1 H2 a. rewrite H2, H1, length_app.
  repeat case_decide; try lia; try done.
  - rewrite lookup_app_r by lia. f_equal. lia.
  - by rewrite lookup_app_l by lia.
Qed.

Lemma mapped_insert m p n a b : mapped m p n → mapped (<[a := b]> m) p n.
Proof.
  intros H k Hk. destruct (decide (a = p + Z.of_nat k)) as [->|].
  - rewrite lookup_insert_eq. eauto.
  - rewrite lookup_insert_ne by done. by apply H.
Qed.

Lemma mapped_S m p n : mapped m p (S n) ↔ is_Some (m !! p) ∧ mapped m (p + 1) n.
Proof.
  split.
  - intros H. split; [by replace p with (p + Z.of_nat 0) by lia; apply H; lia|].
    intros k Hk. replace (p + 1 + Z.of_nat k) with (p + Z.of_nat (S k)) by lia.
    apply H. lia.
  - intros [H0 H] [|k] Hk; [by rewrite Z.add_0_r|].
    replace (p + Z.of_nat (S k)) with (p + 1 + Z.of_nat k) by lia. apply H. lia.
Qed.

Lemma mapped_written m m' p n d l : written m m' d l → mapped m p n → mapped m' p n.
Proof.
  intros Hw H k Hk. rewrite Hw. case_decide; [|by apply H].
  apply lookup_lt_is_Some_2. lia.
Qed.

Lemma bytes_at_cons m p b l : bytes_at m p (b :: l) ↔ m !! p = Some b ∧ bytes_at m (p + 1) l.
Proof.
  split.
  - intros H. split; [by rewrite <- (H O b), Z.add_0_r|].
    intros k c Hk. rewrite <- (H (S k) c) by done. f_equal. lia.
  - intros [H0 H] [|k] c Hk; [simplify_eq/=; by rewrite Z.add_0_r|].
    rewrite <- (H k c) by done. f_equal. lia.
Qed.

Lemma bytes_at_app m p l1 l2 :
  bytes_at m p (l1 ++ l2) ↔ bytes_at m p l1 ∧ bytes_at m (p + Z.of_nat (length l1)) l2.
Proof.
  revert p. induction l1 as [|b l1 IH]; intros p; cbn [app length].
  - rewrite Z.add_0_r. split; [by split; [intros k ? [=]|]|by intros [_ H]].
  - rewrite !bytes_at_cons, IH.
    replace (p + Z.of_nat (S (length l1))) with (p + 1 + Z.of_nat (length l1)) by lia. tauto.
Qed.

Lemma bytes_at_mapped m p l : bytes_at m p l → mapped m p (length l).
Proof.
  intros H k Hk. destruct (lookup_lt_is_Some_2 l k Hk) as [b Hb]. eauto.
Qed.

Lemma bytes_at_insert m p l a b :
  (a < p ∨ p + Z.of_nat (length l) <= a) → bytes_at m p l → bytes_at (<[a := b]> m) p l.
Proof.
  intros Ha H k c Hk. pose proof (lookup_lt_Some _ _ _ Hk).
  rewrite lookup_insert_ne by lia. by apply H.
Qed.

Lemma bytes_at_written m m' p l d l' :
  (d + Z.of_nat (length l') <= p ∨ p + Z.of_nat (length l) <= d) →
  written m m' d l' → bytes_at m p l → bytes_at m' p l.
Proof.
  intros Hd Hw H k c Hk. pose proof (lookup_lt_Some _ _ _ Hk).
  rewrite Hw, decide_False by lia. by apply H.
Qed.

Lemma written_bytes_at m m' d l : written m m' d l → bytes_at m' d l.
Proof.
  intros Hw k b Hk. pose proof (lookup_lt_Some _ _ _ Hk).
  rewrite Hw, decide_True by lia. by replace (Z.to_nat _) with k by lia.
Qed.

(** A string is shorter than the memory: the fuel of [strlen] is enough. *)
Lemma mapped_size m p n : mapped m p n → (n <= size m)%nat.
Proof.
  intros H. rewrite <- size_dom.
  transitivity (size (list_to_set (seqZ p (Z.of_nat n)) : gset Z)).
  { rewrite size_list_to_set by apply NoDup_seqZ. rewrite length_seqZ. lia. }
  apply subseteq_size. intros a Ha%elem_of_list_to_set%elem_of_seqZ.
  apply elem_of_dom. replace a with (p + Z.of_nat (Z.to_nat (a - p))) by lia.
  apply H. lia.
Qed.
End facts.
#[export] Hint Resolve written_nil written_cons written_snoc mapped_insert : xv6.

(** ** Correctness *)

Lemma memset_loop_spec n : ∀ i dst c m,
  mapped m (dst + Z.of_nat i) n →
  ∃ m', memset_loop i n dst c m = Ret ((), m') ∧
    written m m' (dst + Z.of_nat i) (replicate n (u8 c)).
Proof.
  induction n as [|n IH]; intros i dst c m Hm; cbn [memset_loop replicate].
  { exists m. split; [done|apply written_nil]. }
  apply mapped_S in Hm as [Hp Hm].
  erewrite bind_Ret by (by apply store8_run).
  replace (dst + Z.of_nat i + 1) with (dst + Z.of_nat (S i)) in Hm by lia.
  destruct (IH (S i) dst c (<[dst + Z.of_nat i := u8 c]> m)) as (m' & E & W);
    [by apply mapped_insert|].
  exists m'. split; [done|]. apply written_cons.
  by replace (dst + Z.of_nat i + 1) with (dst + Z.of_nat (S i)) by lia.
Qed.

Theorem memset_correct m dst c n :
  mapped m dst n →
  ∃ m', memset dst c n m = Ret (dst, m') ∧ written m m' dst (replicate n (u8 c)).
Proof.
  intros Hm. destruct (memset_loop_spec n 0 dst c m) as (m' & E & W).
  { by rewrite Z.add_0_r. }
  rewrite Z.add_0_r in W. exists m'. split; [|done].
  unfold memset. by rewrite (bind_Ret _ _ _ _ _ E).
Qed.

Lemma move_up_spec l : ∀ d s m,
  Forall is_byte l → bytes_at m s l → mapped m d (length l) →
  (d <= s ∨ s + Z.of_nat (length l) <= d) →
  ∃ m', move_up d s (length l) m = Ret ((), m') ∧ written m m' d l.
Proof.
  induction l as [|b l IH]; intros d s m Hl Hs Hd Hov; cbn [move_up length].
  { exists m. split; [done|apply written_nil]. }
  apply Forall_cons in Hl as [Hb Hl]. apply bytes_at_cons in Hs as [Hsb Hs].
  apply mapped_S in Hd as [Hd0 Hd]. cbn [length] in Hov.
  rewrite (bind_Ret _ _ _ _ _ (load8_run _ _ _ Hsb)).
  rewrite (bind_Ret _ _ _ _ _ (store8_run _ _ b Hd0)). rewrite wrap_small by done.
  destruct (IH (d + 1) (s + 1) (<[d := b]> m)) as (m' & E & W).
  - done.
  - apply bytes_at_insert; [lia|done].
  - by apply mapped_insert.
  - lia.
  - exists m'. split; [done|]. by apply written_cons.
Qed.

Lemma move_down_spec l : ∀ d s m,
  Forall is_byte l → bytes_at m s l → mapped m d (length l) → s <= d →
  ∃ m', move_down (d + Z.of_nat (length l)) (s + Z.of_nat (length l)) (length l) m
          = Ret ((), m') ∧ written m m' d l.
Proof.
  induction l as [|b l IH] using rev_ind; intros d s m Hl Hs Hd Hov.
  { exists m. split; [done|apply written_nil]. }
  apply Forall_app in Hl as [Hl [Hb _]%Forall_cons].
  apply bytes_at_app in Hs as [Hs [Hsb _]%bytes_at_cons].
  rewrite length_app in *. cbn [length] in *. rewrite Nat.add_1_r in *. cbn [move_down].
  replace (s + Z.of_nat (S (length l)) - 1) with (s + Z.of_nat (length l)) by lia.
  replace (d + Z.of_nat (S (length l)) - 1) with (d + Z.of_nat (length l)) by lia.
  rewrite (bind_Ret _ _ _ _ _ (load8_run _ _ _ Hsb)).
  rewrite (bind_Ret _ _ _ _ _ (store8_run _ _ b (Hd (length l) ltac:(lia)))).
  rewrite wrap_small by done.
  destruct (IH d s (<[d + Z.of_nat (length l) := b]> m)) as (m' & E & W).
  - done.
  - apply bytes_at_insert; [lia|done].
  - apply mapped_insert. intros k Hk. apply Hd. lia.
  - done.
  - exists m'. split; [done|]. by apply written_snoc.
Qed.

(** [memmove] copies also when the ranges overlap. *)
Lemma memmove_run m dst src l :
  Forall is_byte l → bytes_at m src l → mapped m dst (length l) →
  ∃ m', memmove dst src (length l) m = Ret (dst, m') ∧ written m m' dst l.
Proof.
  intros Hl Hs Hd. unfold memmove. destruct l as [|b l']; cbn [length].
  { exists m. split; [done|apply written_nil]. }
  change (S (length l')) with (length (b :: l')). set (l := b :: l') in *.
  destruct ((src <? dst) && (dst <? src + Z.of_nat (length l))) eqn:E.
  - destruct (move_down_spec l dst src m) as (m' & E' & W); [done..|lia|].
    exists m'. split; [|done]. by rewrite (bind_Ret _ _ _ _ _ E').
  - destruct (move_up_spec l dst src m) as (m' & E' & W); [done..|lia|].
    exists m'. split; [|done]. by rewrite (bind_Ret _ _ _ _ _ E').
Qed.

(** C37: [memmove] returns its destination and leaves the bytes that stood at the
    source there, whether or not the ranges overlap; it changes no other byte. *)
Theorem memmove_correct m dst src l :
  Forall is_byte l → bytes_at m src l → mapped m dst (length l) →
  run (memmove dst src (length l)) m (λ r m',
    r = dst ∧ bytes_at m' dst l ∧ ∀ a, ¬ (dst <= a < dst + Z.of_nat (length l)) → m' !! a = m !! a).
Proof.
  intros Hl Hs Hd. destruct (memmove_run m dst src l Hl Hs Hd) as (m' & E & W). unfold run. rewrite E.
  split_and!; [done|by eapply written_bytes_at|]. intros a Ha. by rewrite W, decide_False.
Qed.

(** *** Comparison *)

(** The lexicographic difference [memcmp] computes. *)
Fixpoint bytes_diff (l1 l2 : bytes) : Z :=
  match l1, l2 with
  | a :: l1, b :: l2 => if a =? b then bytes_diff l1 l2 else a - b
  | _, _ => 0
  end.

Lemma bytes_diff_0 l1 l2 : length l1 = length l2 → (bytes_diff l1 l2 = 0 ↔ l1 = l2).
Proof.
  revert l2. induction l1 as [|a l1 IH]; intros [|b l2] Hlen; simplify_eq/=; [done|].
  destruct (Z.eqb_spec a b) as [->|].
  - rewrite IH by done. split; congruence.
  - split; [intros ?; exfalso; lia|congruence].
Qed.

Theorem memcmp_correct m v1 v2 l1 l2 :
  bytes_at m v1 l1 → bytes_at m v2 l2 → length l1 = length l2 →
  memcmp v1 v2 (length l1) m = Ret (bytes_diff l1 l2, m).
Proof.
  revert v1 v2 l2. induction l1 as [|a l1 IH]; intros v1 v2 [|b l2] H1 H2 Hlen;
    simplify_eq/=; [done|].
  apply bytes_at_cons in H1 as [Ha H1], H2 as [Hb H2].
  rewrite (bind_Ret _ _ _ _ _ (load8_run _ _ _ Ha)), (bind_Ret _ _ _ _ _ (load8_run _ _ _ Hb)).
  destruct (a =? b); cbn [negb]; [by apply IH|done].
Qed.

Lemma str_at_cons m p b l : str_at m p (b :: l) ↔ b ≠ 0 ∧ is_byte b ∧ m !! p = Some b ∧ str_at m (p + 1) l.
Proof. unfold str_at. cbn [app]. rewrite bytes_at_cons, Forall_cons. tauto. Qed.

Lemma str_at_nil m p : str_at m p [] ↔ m !! p = Some 0.
Proof.
  unfold str_at. cbn [app]. rewrite bytes_at_cons. split; [tauto|]. intros H.
  split_and!; [done|by intros k ? [=]|by constructor].
Qed.

(** Reading a string: the byte at its start. *)
Lemma str_at_head m p l : str_at m p l → m !! p = Some (default 0 (head l)).
Proof.
  destruct l as [|b l]; [by rewrite str_at_nil|]. rewrite str_at_cons. simpl. tauto.
Qed.

Lemma str_at_size m p l : str_at m p l → (length l < size m)%nat.
Proof.
  intros [H _]. pose proof (mapped_size _ _ _ (bytes_at_mapped _ _ _ H)) as Hs.
  rewrite length_app in Hs. simpl in Hs. lia.
Qed.

Lemma strlen_loop_spec l : ∀ fuel s n m,
  str_at m (s + n) l → (length l <= fuel)%nat →
  strlen_loop fuel s n m = Ret (n + Z.of_nat (length l), m).
Proof.
  induction l as [|b l IH]; intros fuel s n m Hs Hf.
  - apply str_at_nil in Hs. destruct fuel; cbn [strlen_loop];
      rewrite (bind_Ret _ _ _ _ _ (load8_run _ _ _ Hs)); simpl; by rewrite Z.add_0_r.
  - apply str_at_cons in Hs as (Hnz & Hb & Hp & Hs). destruct fuel as [|fuel]; [simpl in Hf; lia|].
    cbn [strlen_loop length] in *. rewrite (bind_Ret _ _ _ _ _ (load8_run _ _ _ Hp)).
    destruct (Z.eqb_spec b 0); [done|].
    rewrite IH; [f_equal; f_equal; lia| |lia]. by rewrite Z.add_assoc.
Qed.

Theorem strlen_correct m s l : str_at m s l → strlen s m = Ret (Z.of_nat (length l), m).
Proof.
  intros Hs. pose proof (str_at_size _ _ _ Hs). unfold strlen, str_fuel.
  erewrite bind_Ret by done. rewrite (strlen_loop_spec l); [done|by rewrite Z.add_0_r|lia].
Qed.

(** [strncmp] compares at most [n] bytes, stopping after the terminator. *)
Fixpoint str_diff (n : nat) (l1 l2 : bytes) : Z :=
  match n with
  | O => 0
  | S n =>
      let a := default 0 (head l1) in let b := default 0 (head l2) in
      if (a =? 0) || negb (a =? b) then a - b else str_diff n (tail l1) (tail l2)
  end.

Lemma strncmp_correct n : ∀ m p q l1 l2,
  str_at m p l1 → str_at m q l2 → strncmp p q n m = Ret (str_diff n l1 l2, m).
Proof.
  induction n as [|n IH]; intros m p q l1 l2 H1 H2; cbn [strncmp str_diff]; [done|].
  rewrite (bind_Ret _ _ _ _ _ (load8_run _ _ _ (str_at_head _ _ _ H1))).
  destruct l1 as [|a l1]; cbn [head tail from_option id].
  { change (0 =? 0) with true. cbn [orb].
    by rewrite (bind_Ret _ _ _ _ _ (load8_run _ _ _ (str_at_head _ _ _ H2))). }
  apply str_at_cons in H1 as (Hnz & Ha & Hp & H1).
  destruct (Z.eqb_spec a 0) as [|_]; [done|]. cbn [orb].
  rewrite (bind_Ret _ _ _ _ _ (load8_run _ _ _ (str_at_head _ _ _ H2))).
  destruct (Z.eqb_spec a (default 0 (head l2))) as [E|]; cbn [negb]; [|done].
  destruct l2 as [|b l2]; [done|]. apply str_at_cons in H2 as (_ & _ & _ & H2).
  by apply IH.
Qed.

Lemma str_diff_0 n l1 l2 :
  Forall (λ b, b ≠ 0 ∧ is_byte b) l1 → Forall (λ b, b ≠ 0 ∧ is_byte b) l2 →
  (length l1 <= n)%nat → (length l2 <= n)%nat → (str_diff n l1 l2 = 0 ↔ l1 = l2).
Proof.
  revert l1 l2. induction n as [|n IH]; intros [|a l1] [|b l2] H1 H2 Hl1 Hl2;
    cbn [str_diff head tail from_option length] in *; unfold id; try lia; try done.
  - apply Forall_cons in H2 as [[Hb _] _]. cbn [orb Z.eqb].
    split; [intros ?; exfalso; lia|done].
  - apply Forall_cons in H1 as [[Ha _] _]. destruct (Z.eqb_spec a 0); [done|].
    cbn [orb negb]. split; [intros ?; exfalso; lia|done].
  - apply Forall_cons in H1 as [[Ha _] H1], H2 as [[Hb _] H2].
    destruct (Z.eqb_spec a 0); [done|]. cbn [orb].
    destruct (Z.eqb_spec a b) as [->|]; cbn [negb].
    + rewrite IH by (done || lia). split; congruence.
    + split; [intros ?; exfalso; lia|congruence].
Qed.

Theorem strcmp_correct m p q l1 l2 :
  str_at m p l1 → str_at m q l2 →
  ∃ d, strcmp p q m = Ret (d, m) ∧ (d = 0 ↔ l1 = l2).
Proof.
  intros H1 H2. unfold strcmp.
  rewrite (bind_Ret _ _ _ _ _ (strlen_correct _ _ _ H1)).
  rewrite (bind_Ret _ _ _ _ _ (strlen_correct _ _ _ H2)).
  erewrite strncmp_correct by done. eexists. split; [done|].
  apply str_diff_0; [apply H1|apply H2|..]; case_match; lia.
Qed.

(** *** Copies *)

Lemma strncpy_pad_spec n : ∀ s m, mapped m s n →
  ∃ m', strncpy_pad s n m = Ret ((), m') ∧ written m m' s (replicate n 0).
Proof.
  induction n as [|n IH]; intros s m Hm; cbn [strncpy_pad replicate].
  { exists m. split; [done|apply written_nil]. }
  apply mapped_S in Hm as [Hp Hm]. rewrite (bind_Ret _ _ _ _ _ (store8_run _ _ 0 Hp)).
  destruct (IH (s + 1) (<[s := u8 0]> m)) as (m' & E & W); [by apply mapped_insert|].
  exists m'. split; [done|]. by apply written_cons.
Qed.

(** What [strncpy] leaves in the destination: the source cut or NUL-padded to
    exactly [n] bytes (no terminator when the source is at least that long). *)
Definition padded (n : nat) (l : bytes) : bytes :=
  take n l ++ replicate (n - length l) 0.

Lemma str_at_insert m p l a b :
  (a < p ∨ p + Z.of_nat (length l) < a) → str_at m p l → str_at (<[a := b]> m) p l.
Proof.
  intros Ha [H ?]. split; [|done]. apply bytes_at_insert; [|done].
  rewrite length_app. simpl. lia.
Qed.

Lemma strncpy_loop_spec n : ∀ s t m l,
  str_at m t l → mapped m s n →
  (s + Z.of_nat n <= t ∨ t + Z.of_nat (length l) < s) →
  ∃ m', strncpy_loop s t n m = Ret ((), m') ∧ written m m' s (padded n l).
Proof.
  induction n as [|n IH]; intros s t m l Ht Hs Hd; cbn [strncpy_loop].
  { exists m. split; [done|]. apply written_nil. }
  apply mapped_S in Hs as [Hs0 Hs].
  rewrite (bind_Ret _ _ _ _ _ (load8_run _ _ _ (str_at_head _ _ _ Ht))).
  rewrite (bind_Ret _ _ _ _ _ (store8_run _ _ _ Hs0)).
  destruct l as [|b l]; cbn [head tail from_option id].
  - destruct (strncpy_pad_spec n (s + 1) (<[s := u8 0]> m)) as (m' & E & W);
      [by apply mapped_insert|].
    exists m'. split; [done|]. by apply written_cons.
  - apply str_at_cons in Ht as (Hnz & Hb & Hp & Ht).
    rewrite wrap_small by done. destruct (Z.eqb_spec b 0); [done|]. cbn [length] in Hd.
    destruct (IH (s + 1) (t + 1) (<[s := b]> m) l) as (m' & E & W).
    + apply str_at_insert; [lia|done].
    + by apply mapped_insert.
    + lia.
    + exists m'. split; [done|]. by apply written_cons.
Qed.

Theorem strncpy_correct m s t n l :
  0 <= n → str_at m t l → mapped m s (Z.to_nat n) →
  (s + n <= t ∨ t + Z.of_nat (length l) < s) →
  ∃ m', strncpy s t n m = Ret (s, m') ∧ written m m' s (padded (Z.to_nat n) l).
Proof.
  intros Hn Ht Hs Hd. destruct (strncpy_loop_spec (Z.to_nat n) s t m l) as (m' & E & W);
    [done|done|lia|].
  exists m'. split; [|done]. unfold strncpy. by rewrite (bind_Ret _ _ _ _ _ E).
Qed.

Lemma safestrcpy_loop_spec n : ∀ s t m l,
  str_at m t l → mapped m s n →
  (s + Z.of_nat n <= t ∨ t + Z.of_nat (length l) < s) →
  ∃ m' e, safestrcpy_loop s t n m = Ret (e, m') ∧
    written m m' s (take n (l ++ [0])) ∧ e = s + Z.of_nat (length (take n (l ++ [0]))).
Proof.
  induction n as [|n IH]; intros s t m l Ht Hs Hd; cbn [safestrcpy_loop].
  { exists m, s. split_and!; [done|apply written_nil|simpl; lia]. }
  apply mapped_S in Hs as [Hs0 Hs].
  rewrite (bind_Ret _ _ _ _ _ (load8_run _ _ _ (str_at_head _ _ _ Ht))).
  rewrite (bind_Ret _ _ _ _ _ (store8_run _ _ _ Hs0)).
  destruct l as [|b l]; cbn [head tail from_option id].
  - eexists _, _. split; [done|]. cbn [app take]. rewrite firstn_nil.
    split; [|done]. apply written_cons, written_nil.
  - apply str_at_cons in Ht as (Hnz & Hb & Hp & Ht).
    rewrite wrap_small by done. destruct (Z.eqb_spec b 0); [done|]. cbn [length] in Hd.
    destruct (IH (s + 1) (t + 1) (<[s := b]> m) l) as (m' & e & E & W & He).
    + apply str_at_insert; [lia|done].
    + by apply mapped_insert.
    + lia.
    + exists m', e. split_and!; [done|by apply written_cons|]. cbn [app take length]. lia.
Qed.

(** [safestrcpy] leaves a NUL-terminated string. *)
Theorem safestrcpy_correct m s t n l :
  0 < n → str_at m t l → mapped m s (Z.to_nat n) →
  (s + n <= t ∨ t + Z.of_nat (length l) < s) →
  ∃ m', safestrcpy s t n m = Ret (s, m') ∧ str_at m' s (take (Z.to_nat (n - 1)) l) ∧
    ∀ a, a < s ∨ s + n <= a → m' !! a = m !! a.
Proof.
  intros Hn Ht Hs Hd. unfold safestrcpy. destruct (Z.leb_spec n 0); [lia|].
  destruct (safestrcpy_loop_spec (Z.to_nat (n - 1)) s t m l) as (m1 & e & E & W & He);
    [done|intros k Hk; apply Hs; lia|lia|].
  set (w := take (Z.to_nat (n - 1)) (l ++ [0])) in *.
  assert (length w <= Z.to_nat (n - 1))%nat as Hw by (subst w; rewrite length_take; lia).
  rewrite (bind_Ret _ _ _ _ _ E).
  assert (is_Some (m1 !! e)) as Hm1.
  { rewrite He. apply (mapped_written _ _ _ _ _ _ W Hs). lia. }
  rewrite (bind_Ret _ _ _ _ _ (store8_run _ _ 0 Hm1)).
  eexists. split; [done|].
  assert (written m (<[e := 0]> m1) s (w ++ [0])) as W'.
  { eapply written_app; [done|]. rewrite <- He. apply written_cons, written_nil. }
  destruct Ht as [Ht Hnz]. split.
  - split; [|by apply Forall_take].
    pose proof (written_bytes_at _ _ _ _ W') as Hb. subst w.
    destruct (decide (length l < Z.to_nat (n - 1))%nat) as [Hlt|Hge].
    + rewrite take_ge in Hb by (rewrite length_app; simpl; lia).
      rewrite take_ge by lia. by apply bytes_at_app in Hb as [? _].
    + by rewrite take_app_le in Hb by lia.
  - intros a Ha. rewrite W', length_app, decide_False; [done|]. simpl. lia.
Qed.

(** *** Numbers *)

Definition dec_val (l : bytes) : Z := fold_left (λ a c, 10 * a + (c - 48)) l 0.
Definition is_digit (c : Z) : Prop := 48 <= c <= 57.

Lemma dec_val_snoc l c : dec_val (l ++ [c]) = 10 * dec_val l + (c - 48).
Proof. unfold dec_val. by rewrite fold_left_app. Qed.

Lemma itoa_digits_spec m fuel : ∀ x t,
  0 <= x < 10 ^ (Z.of_nat fuel + 1) →
  ∃ l, itoa_digits fuel x t m = Ret (l ++ t, m) ∧ dec_val l = x ∧ Forall is_digit l ∧
    ∀ k, (0 < k)%nat → x < 10 ^ Z.of_nat k → (0 < length l <= k)%nat.
Proof.
  induction fuel as [|fuel IH]; intros x t Hx; cbn [itoa_digits].
  all: pose proof (Z.rem_mod_nonneg x 10 ltac:(lia) ltac:(lia)) as Er.
  all: pose proof (Z.quot_div_nonneg x 10 ltac:(lia) ltac:(lia)) as Eq.
  all: pose proof (Z.mod_pos_bound x 10 ltac:(lia)); pose proof (Z.div_mod x 10 ltac:(lia)).
  all: unfold itoa_digit; rewrite Er, Eq.
  all: destruct (Z.ltb_spec (x mod 10) 0); [lia|]; destruct (Z.ltb_spec (x mod 10) 10); [|lia].
  all: cbn [oget]; erewrite bind_Ret by done; destruct (Z.eqb_spec (x / 10) 0) as [E0|E0].
  - exists [48 + x mod 10]. split_and!; [done|unfold dec_val; simpl; lia| |simpl; lia].
    repeat constructor; lia.
  - change (10 ^ (Z.of_nat 0 + 1)) with 10 in Hx. rewrite Z.div_small in E0; lia.
  - exists [48 + x mod 10]. split_and!; [done|unfold dec_val; simpl; lia| |simpl; lia].
    repeat constructor; lia.
  - destruct (IH (x / 10) ((48 + x mod 10) :: t)) as (l & E & Hv & Hd & Hlen).
    { split; [apply Z.div_pos; lia|]. apply Z.div_lt_upper_bound; [lia|].
      rewrite <- Z.pow_succ_r by lia. replace (Z.succ _) with (Z.of_nat (S fuel) + 1) by lia. apply Hx. }
    exists (l ++ [48 + x mod 10]). rewrite <- app_assoc. split_and!; [done| | |].
    + rewrite dec_val_snoc. lia.
    + apply Forall_app. split; [done|]. repeat constructor; lia.
    + intros [|[|k]] Hk Hxk; [lia|rewrite Z.div_small in E0; lia|].
      rewrite length_app. cbn [length].
      destruct (Hlen (S k)); [lia| |lia]. apply Z.div_lt_upper_bound; [lia|].
      rewrite <- Z.pow_succ_r by lia. by replace (Z.succ _) with (Z.of_nat (S (S k))) by lia.
Qed.

Lemma itoa_copy_spec l : ∀ j buf m,
  Forall is_byte l → mapped m (buf + j) (length l) →
  ∃ m', itoa_copy l j buf m = Ret ((), m') ∧ written m m' (buf + j) l.
Proof.
  induction l as [|c l IH]; intros j buf m Hl Hm; cbn [itoa_copy].
  { exists m. split; [done|apply written_nil]. }
  apply Forall_cons in Hl as [Hc Hl]. apply mapped_S in Hm as [Hp Hm].
  rewrite (bind_Ret _ _ _ _ _ (store8_run _ _ c Hp)). rewrite wrap_small by done.
  rewrite <- Z.add_assoc in Hm.
  destruct (IH (j + 1) buf (<[buf + j := c]> m)) as (m' & E & W); [done|by apply mapped_insert|].
  exists m'. split; [done|]. apply written_cons. by rewrite <- Z.add_assoc.
Qed.

(** [itoa] writes the decimal digits and no terminator. *)
Theorem itoa_correct m xx buf :
  0 <= xx < 2 ^ 31 → mapped m buf 10 →
  ∃ l m', itoa xx buf m = Ret ((), m') ∧ written m m' buf l ∧
    dec_val l = xx ∧ Forall is_digit l ∧ (0 < length l <= 10)%nat.
Proof.
  intros Hx Hm. destruct (itoa_digits_spec m 15 xx []) as (l & E & Hv & Hd & Hlen); [lia|].
  rewrite app_nil_r in E. specialize (Hlen 10%nat ltac:(lia) ltac:(lia)).
  destruct (itoa_copy_spec l 0 buf m) as (m' & E' & W).
  - eapply Forall_impl; [done|]. unfold is_digit, in_range. simpl. lia.
  - rewrite Z.add_0_r. intros k Hk. apply Hm. lia.
  - exists l, m'. rewrite Z.add_0_r in W. split_and!; try done; [|lia..].
    unfold itoa. by rewrite (bind_Ret _ _ _ _ _ E).
Qed.

(** A negative argument indexes [digits] below its first element. *)
Lemma itoa_negative m xx buf : xx < 0 → Z.rem xx 10 ≠ 0 → itoa xx buf m = Fault.
Proof.
  intros Hx Hr. pose proof (Z.rem_nonpos xx 10 ltac:(lia) ltac:(lia)).
  unfold itoa. cbn [itoa_digits]. unfold itoa_digit.
  by destruct (Z.ltb_spec (Z.rem xx 10) 0); [|lia].
Qed.

(** *** Searches *)

Theorem memscan_correct m addr c l :
  bytes_at m addr l →
  ∃ k, memscan addr c (length l) m = Ret (addr + Z.of_nat k, m) ∧ (k <= length l)%nat ∧
    (∀ j b, (j < k)%nat → l !! j = Some b → b ≠ u8 c) ∧
    ((k < length l)%nat → l !! k = Some (u8 c)).
Proof.
  revert addr. induction l as [|b l IH]; intros addr H; cbn [memscan length].
  { exists O. rewrite Z.add_0_r. split_and!; [done|lia|done|lia]. }
  apply bytes_at_cons in H as [Hb H]. rewrite (bind_Ret _ _ _ _ _ (load8_run _ _ _ Hb)).
  destruct (Z.eqb_spec b (u8 c)) as [->|Hne].
  - exists O. rewrite Z.add_0_r. split_and!; [done|lia|lia|done].
  - destruct (IH _ H) as (k & E & Hk & Hpre & Hat). exists (S k). rewrite E.
    split_and!; [f_equal; f_equal; lia|lia| |simpl; intros; apply Hat; lia].
    intros [|j] b' Hj Hb'; [by simplify_eq/=|]. apply (Hpre j); [lia|done].
Qed.

Theorem strnlen_correct m s l z :
  str_at m s l → strnlen s z m = Ret (Z.of_nat (length l `min` z), m).
Proof.
  intros H. unfold strnlen. rewrite <- (Z.add_0_l (Z.of_nat _)).
  rewrite <- (Z.add_0_r s) in H. revert H. generalize 0 as n.
  revert s l. induction z as [|z IH]; intros s l n H; cbn [strnlen_loop].
  { rewrite Nat.min_0_r. by rewrite Z.add_0_r. }
  rewrite (bind_Ret _ _ _ _ _ (load8_run _ _ _ (str_at_head _ _ _ H))).
  destruct l as [|b l]; cbn [head from_option length]; unfold id.
  { simpl. by rewrite Z.add_0_r. }
  apply str_at_cons in H as (Hnz & _ & _ & H). destruct (Z.eqb_spec b 0); [done|].
  rewrite <- Z.add_assoc in H. rewrite (IH s l) by done. f_equal. f_equal. lia.
Qed.

(** *** [strconcat] *)

(** [strconcat] does not concatenate.

    Its loop stores every character of [b] at the same index: joining "ab" and
    "cd" in a buffer of question marks leaves "abd?". *)
Theorem strconcat_overwrites :
  let m := list_to_map (zip (seqZ 0 20)
    ([97; 98; 0] ++ [99; 100; 0] ++ replicate 14 63)) in
  match strconcat 10 0 3 m with
  | Ret (_, m') => map (λ a, m' !! a) [10; 11; 12; 13; 14] =
                   [Some 97; Some 98; Some 100; Some 63; Some 0]
  | _ => False
  end.
Proof. vm_compute. reflexivity. Qed.

(** *** Witnesses *)

Definition demo_mem : mem := list_to_map (zip (seqZ 100 16) (seqZ 1 16)).

Lemma memmove_witness :
  run (memmove 102 100 (length [1; 2; 3; 4])) demo_mem (λ r m',
    r = 102 ∧ bytes_at m' 102 [1; 2; 3; 4] ∧ ∀ a, ¬ (102 <= a < 102 + Z.of_nat (length [1; 2; 3; 4])) → m' !! a = demo_mem !! a).
Proof.
  apply (memmove_correct demo_mem 102 100 [1; 2; 3; 4]).
  - repeat constructor; done.
  - intros [|[|[|[|k]]]] b Hb; vm_compute in Hb; try discriminate Hb;
      injection Hb as <-; vm_compute; reflexivity.
  - intros [|[|[|[|k]]]] Hk; try (vm_compute; eexists; reflexivity).
    simpl in Hk. lia.
Defined.
