(* ===== verification/Kalloc.v ===== *)
(** * The page allocator: [kernel/kalloc.c]

    Free pages are chained through their own first eight bytes, in the byte
    memory of [KString]; [pgcount_arr] counts the references to each page
    (copy-on-write). [defs.h] defines [LAB_COW], so the code under that macro
    is part of the program. [_end] is the linker's symbol, a parameter.

    The critical sections under [cowlock] and [kmem.lock] are single steps;
    [kfree] reads the count a second time outside the lock, and [Race] at the
    end models two harts doing so. *)
From S2P Require Import Prelude KString.

(** ** Words in memory *)

Fixpoint load_bytes (n : nat) (p : Z) : M mem bytes :=
  match n with
  | O => mret []
  | S n => b ← load8 p; l ← load_bytes n (p + 1); mret (b :: l)
  end.
Fixpoint store_bytes (p : Z) (l : bytes) : M mem () :=
  match l with
  | [] => mret ()
  | b :: l => store8 p b ;; store_bytes (p + 1) l
  end.
Definition load64 (p : Z) : M mem Z := l ← load_bytes 8 p; mret (le_val l).
Definition store64 (p v : Z) : M mem () := store_bytes p (le_bytes 8 v).

(** ** The allocator *)

Definition PGSIZE : Z := 4096.
Definition PGROUNDUP (sz : Z) : Z := Z.land (u64 (sz + PGSIZE - 1)) (u64 (Z.lnot (PGSIZE - 1))).
Definition KERNBASE : Z := 0x80200000.
Definition PHYSTOP : Z := KERNBASE + 60 * 1024 * 1024.
Definition NPGCOUNT : Z := 32768.

Record kmem_t := KMem {
  phys : mem;
  freelist : Z;
  pgcount_arr : list Z;
}.
Definition set_phys (f : mem → mem) (s : kmem_t) : kmem_t :=
  KMem (f (phys s)) (freelist s) (pgcount_arr s).
Definition set_freelist (p : Z) (s : kmem_t) : kmem_t := KMem (phys s) p (pgcount_arr s).
Definition set_pgcount (l : list Z) (s : kmem_t) : kmem_t := KMem (phys s) (freelist s) l.

(** Running a routine of the string library on the physical memory. *)
Definition in_phys {A} (m : M mem A) : M kmem_t A := λ s,
  outcome_bind (m (phys s)) (λ '(a, m'), Ret (a, set_phys (λ _, m') s)).

Section kalloc.
Context (_end : Z).

Definition PAGECOUNT_IDX (pa : Z) : Z := (pa - _end) / PGSIZE.

Definition pgcount_get (i : Z) : M kmem_t Z :=
  o ← gets (λ s, if i <? 0 then None else pgcount_arr s !! Z.to_nat i); oget o.
Definition pgcount_set (i v : Z) : M kmem_t () :=
  pgcount_get i ;; modify (λ s, set_pgcount (<[Z.to_nat i := s32 v]> (pgcount_arr s)) s).

(** [kfree], in its three steps: the decrement under [cowlock], the second
    read of the count, and the insertion under [kmem.lock]. *)
Definition kfree_bad (pa : Z) : bool :=
  negb (pa mod PGSIZE =? 0) || (pa <? _end) || (PHYSTOP <=? pa).
Definition kfree_dec (pa : Z) : M kmem_t () :=
  c ← pgcount_get (PAGECOUNT_IDX pa); pgcount_set (PAGECOUNT_IDX pa) (c - 1).
Definition kfree_push (pa : Z) : M kmem_t () :=
  fl ← gets freelist;
  in_phys (store64 pa fl) ;;
  modify (set_freelist pa).
Definition kfree (pa : Z) : M kmem_t () :=
  if kfree_bad pa then panic "kfree" else
  kfree_dec pa ;;
  cur_pgcnt ← pgcount_get (PAGECOUNT_IDX pa);
  if 0 <? cur_pgcnt then mret () else
  in_phys (memset pa 1 (Z.to_nat PGSIZE)) ;;
  kfree_push pa.

(** A second reference to a page: what [uvmcopy] does for each page a child
    shares with its parent. *)
Definition page_share (pa : Z) : M kmem_t () :=
  c ← pgcount_get (PAGECOUNT_IDX pa); pgcount_set (PAGECOUNT_IDX pa) (c + 1).

Definition kalloc : M kmem_t Z :=
  r ← gets freelist;
  (if r =? 0 then mret () else
     next ← in_phys (load64 r); modify (set_freelist next)) ;;
  (if r =? 0 then mret () else in_phys (memset r 5 (Z.to_nat PGSIZE)) ;; mret ()) ;;
  (if r =? 0 then mret () else pgcount_set (PAGECOUNT_IDX r) 1) ;;
  mret r.

Fixpoint freerange_loop (fuel : nat) (p pa_end : Z) : M kmem_t () :=
  if p + PGSIZE <=? pa_end then
    match fuel with
    | O => out_of_fuel
    | S fuel => kfree p ;; freerange_loop fuel (p + PGSIZE) pa_end
    end
  else mret ().
Definition freerange (pa_start pa_end : Z) : M kmem_t () :=
  freerange_loop (Z.to_nat (pa_end - pa_start)) (PGROUNDUP pa_start) pa_end.
Definition kinit : M kmem_t () := freerange _end PHYSTOP.

(** ** Two harts in [kfree]

    Each hart runs [kfree pa] from the decrement on; a schedule says which one
    takes the next step. *)

Inductive kfree_pc := AtDec | AtRead | AtPush | AtEnd.
#[global] Instance kfree_pc_eq_dec : EqDecision kfree_pc.
Proof. solve_decision. Defined.

Definition kfree_step (pa : Z) (pc : kfree_pc) : M kmem_t kfree_pc :=
  match pc with
  | AtDec => kfree_dec pa ;; mret AtRead
  | AtRead =>
      c ← pgcount_get (PAGECOUNT_IDX pa);
      if 0 <? c then mret AtEnd
      else in_phys (memset pa 1 (Z.to_nat PGSIZE)) ;; mret AtPush
  | AtPush => kfree_push pa ;; mret AtEnd
  | AtEnd => mret AtEnd
  end.
(** [true] schedules the first hart. *)
Fixpoint kfree_sched (pa : Z) (sched : list bool) (pcs : kfree_pc * kfree_pc) :
    M kmem_t (kfree_pc * kfree_pc) :=
  match sched with
  | [] => mret pcs
  | true :: sched => pc ← kfree_step pa pcs.1; kfree_sched pa sched (pc, pcs.2)
  | false :: sched => pc ← kfree_step pa pcs.2; kfree_sched pa sched (pcs.1, pc)
  end.

(** ** The abstract allocator *)

(** What the kernel is entitled to: a list of free pages and a count of
    references per page; the memory of the pages in use. *)
Definition page (pa : Z) : Prop := pa mod PGSIZE = 0 ∧ _end <= pa < PHYSTOP.
Definition refs (s : kmem_t) (pa : Z) : Z :=
  default 0 (pgcount_arr s !! Z.to_nat (PAGECOUNT_IDX pa)).

Fixpoint chain (m : mem) (p : Z) (l : list Z) : Prop :=
  match l with
  | [] => p = 0
  | x :: l => p = x ∧ ∃ q, bytes_at m x (le_bytes 8 q) ∧ in_range 64 q ∧ chain m q l
  end.

Record kmem_inv (s : kmem_t) (l : list Z) : Prop := {
  inv_mapped : ∀ pa, page pa → mapped (phys s) pa (Z.to_nat PGSIZE);
  inv_chain : chain (phys s) (freelist s) l;
  inv_nodup : NoDup l;
  inv_page : Forall page l;
  inv_refs : Forall (λ pa, refs s pa <= 0) l;
  inv_len : Z.of_nat (length (pgcount_arr s)) = NPGCOUNT;
}.
End kalloc.

(** ** Memory lemmas *)

Lemma load_bytes_run m p l : bytes_at m p l → load_bytes (length l) p m = Ret (l, m).
Proof.
  revert p. induction l as [|b l IH]; intros p H; cbn [load_bytes length]; [done|].
  apply bytes_at_cons in H as [Hb H]. rewrite (bind_Ret _ _ _ _ _ (load8_run _ _ _ Hb)).
  by rewrite (bind_Ret _ _ _ _ _ (IH _ H)).
Qed.

Lemma load64_run m p v : in_range 64 v → bytes_at m p (le_bytes 8 v) → load64 p m = Ret (v, m).
Proof.
  intros Hv H. unfold load64. rewrite (bind_Ret _ _ _ _ _ (load_bytes_run _ _ _ H)).
  rewrite le_val_bytes. change (_ * _) with 64. by rewrite Z.mod_small.
Qed.

Lemma store_bytes_run l : ∀ m p,
  Forall is_byte l → mapped m p (length l) →
  ∃ m', store_bytes p l m = Ret ((), m') ∧ written m m' p l.
Proof.
  induction l as [|b l IH]; intros m p Hl Hm; cbn [store_bytes].
  { exists m. split; [done|apply written_nil]. }
  apply Forall_cons in Hl as [Hb Hl]. apply mapped_S in Hm as [Hp Hm].
  rewrite (bind_Ret _ _ _ _ _ (store8_run _ _ b Hp)). rewrite wrap_small by done.
  destruct (IH (<[p := b]> m) (p + 1)) as (m' & E & W); [done|by apply mapped_insert|].
  exists m'. split; [done|]. by apply written_cons.
Qed.

Lemma store64_run m p v :
  mapped m p 8 → ∃ m', store64 p v m = Ret ((), m') ∧ written m m' p (le_bytes 8 v).
Proof. intros Hm. apply store_bytes_run; [apply le_bytes_byte|done]. Qed.

Lemma in_phys_run {A} (m : M mem A) s a m' :
  m (phys s) = Ret (a, m') → in_phys m s = Ret (a, set_phys (λ _, m') s).
Proof. intros H. unfold in_phys. by rewrite H. Qed.

(** Overwriting the beginning of a written range. *)
Lemma written_over m m1 m2 d l1 l2 :
  written m m1 d l1 → written m1 m2 d l2 → (length l2 <= length l1)%nat →
  written m m2 d (l2 ++ drop (length l2) l1).
Proof.
  intros H1 H2 Hle a. rewrite H2, H1, length_app, length_drop.
  repeat case_decide; try lia; [by rewrite lookup_app_l by lia| |done].
  rewrite lookup_app_r, lookup_drop by lia. f_equal. lia.
Qed.

Lemma mapped_le m p n k : (k <= n)%nat → mapped m p n → mapped m p k.
Proof. intros Hk H i Hi. apply H. lia. Qed.

(** A write outside the first words of the free pages keeps the chain. *)
Lemma chain_written m m' d b l : ∀ p,
  written m m' d b →
  Forall (λ x, d + Z.of_nat (length b) <= x ∨ x + 8 <= d) l →
  chain m p l → chain m' p l.
Proof.
  induction l as [|x l IH]; intros p Hw Hd; cbn [chain]; [done|].
  apply Forall_cons in Hd as [Hx Hd]. intros (-> & q & Hq & Hr & Hc).
  split; [done|]. exists q. split_and!; [|done|by apply IH].
  eapply bytes_at_written; [|done|done]. rewrite length_le_bytes. lia.
Qed.

Section facts.
Context (_end : Z) (Hend : KERNBASE <= _end <= PHYSTOP).
Implicit Types s : kmem_t.

Lemma page_disjoint pa pb :
  page _end pa → page _end pb → pa ≠ pb → pa + PGSIZE <= pb ∨ pb + PGSIZE <= pa.
Proof using. unfold page, PGSIZE. intros [Ha _] [Hb _] Hne. dlia. Qed.

Lemma page_good pa : page _end pa ↔ kfree_bad _end pa = false.
Proof using. unfold page, kfree_bad, PGSIZE. lia. Qed.

Lemma page_idx pa : page _end pa → 0 <= PAGECOUNT_IDX _end pa < NPGCOUNT.
Proof using Hend.
  unfold page, PAGECOUNT_IDX, NPGCOUNT, PGSIZE, PHYSTOP, KERNBASE in *. dlia.
Qed.

(** Distinct pages have distinct counters, wherever [_end] falls in its page. *)
Lemma page_idx_inj pa pb :
  page _end pa → page _end pb → PAGECOUNT_IDX _end pa = PAGECOUNT_IDX _end pb → pa = pb.
Proof using. unfold page, PAGECOUNT_IDX, PGSIZE. dlia. Qed.

Lemma pgcount_get_run s pa :
  page _end pa → Z.of_nat (length (pgcount_arr s)) = NPGCOUNT →
  pgcount_get (PAGECOUNT_IDX _end pa) s = Ret (refs _end s pa, s).
Proof using Hend.
  intros Hp Hl. pose proof (page_idx _ Hp) as Hi. unfold pgcount_get.
  erewrite bind_Ret by done. destruct (Z.ltb_spec (PAGECOUNT_IDX _end pa) 0); [lia|].
  unfold refs. destruct (lookup_lt_is_Some_2 (pgcount_arr s) (Z.to_nat (PAGECOUNT_IDX _end pa)))
    as [c ->]; [lia|done].
Qed.

(** The state after the counter of [pa] was set to [v]. *)
Definition counted (pa v : Z) (s : kmem_t) : kmem_t :=
  set_pgcount (<[Z.to_nat (PAGECOUNT_IDX _end pa) := s32 v]> (pgcount_arr s)) s.

Lemma pgcount_set_run s pa v :
  page _end pa → Z.of_nat (length (pgcount_arr s)) = NPGCOUNT →
  pgcount_set (PAGECOUNT_IDX _end pa) v s = Ret ((), counted pa v s).
Proof using Hend.
  intros Hp Hl. unfold pgcount_set. by rewrite (bind_Ret _ _ _ _ _ (pgcount_get_run _ _ Hp Hl)).
Qed.

Lemma refs_counted s pa pb v :
  page _end pa → page _end pb → Z.of_nat (length (pgcount_arr s)) = NPGCOUNT →
  refs _end (counted pa v s) pb = if decide (pa = pb) then s32 v else refs _end s pb.
Proof using Hend.
  intros Ha Hb Hl. unfold refs, counted. cbn [set_pgcount pgcount_arr].
  pose proof (page_idx _ Ha). case_decide as Hab.
  - subst pb. by rewrite list_lookup_insert_eq by lia.
  - rewrite list_lookup_insert_ne; [done|]. intros E. apply Hab, page_idx_inj; [done..|].
    pose proof (page_idx _ Hb). lia.
Qed.

(** Changing the counter of a page that is not free keeps the invariant. *)
Lemma inv_counted s l pa v :
  page _end pa → (pa ∈ l → s32 v <= 0) → kmem_inv _end s l → kmem_inv _end (counted pa v s) l.
Proof using Hend.
  intros Hp Hv []. constructor; try done.
  - rewrite Forall_forall in inv_page0, inv_refs0 |- *. intros x Hx.
    rewrite refs_counted by auto. case_decide; [subst; auto|auto].
  - cbn. by rewrite length_insert.
Qed.

Lemma memset_page s l pa c :
  kmem_inv _end s l → page _end pa →
  ∃ m', in_phys (memset pa c (Z.to_nat PGSIZE)) s = Ret (pa, set_phys (λ _, m') s) ∧
    written (phys s) m' pa (replicate (Z.to_nat PGSIZE) (u8 c)).
Proof using.
  intros Hi Hp. destruct (memset_correct (phys s) pa c (Z.to_nat PGSIZE)) as (m' & E & W).
  { by apply Hi. }
  exists m'. split; [|done]. by apply in_phys_run.
Qed.

(** Writing in a page that is not free keeps the invariant. *)
Lemma inv_phys s l pa d b m' :
  page _end pa → pa ∉ l → written (phys s) m' d b →
  pa <= d → d + Z.of_nat (length b) <= pa + PGSIZE →
  kmem_inv _end s l → kmem_inv _end (set_phys (λ _, m') s) l.
Proof using.
  intros Hp Hn Hw Hd1 Hd2 []. constructor; try done.
  - intros x Hx. cbn. eapply mapped_written; [done|]. by apply inv_mapped0.
  - eapply chain_written; [done| |done]. rewrite Forall_forall in inv_page0 |- *.
    intros x Hx. assert (pa ≠ x) by (by intros ->).
    destruct (page_disjoint pa x) as [?|?]; [done|by apply inv_page0|done|lia|].
    unfold PGSIZE in *. lia.
Qed.

Lemma chain_head m p l : Forall (page _end) l → chain m p l → (p = 0 ↔ l = []).
Proof using Hend.
  intros Hl. destruct l as [|x l]; cbn [chain]; [done|]. intros [-> _].
  apply Forall_cons in Hl as [[_ Hx] _]. unfold KERNBASE in *. split; [lia|done].
Qed.

Lemma chain_range m p l : Forall (page _end) l → chain m p l → in_range 64 p.
Proof using Hend.
  intros Hl. destruct l as [|x l]; cbn [chain]; [by intros ->|]. intros [-> _].
  apply Forall_cons in Hl as [[_ Hx] _]. unfold in_range. unfold PHYSTOP, KERNBASE in *. lia.
Qed.

(** ** Correctness *)

(** What a call leaves alone: the counters of the other pages. *)
Definition same_refs (pa : Z) (s s' : kmem_t) : Prop :=
  ∀ pb, page _end pb → pb ≠ pa → refs _end s' pb = refs _end s pb.

Lemma same_refs_counted s pa v :
  page _end pa → Z.of_nat (length (pgcount_arr s)) = NPGCOUNT → same_refs pa s (counted pa v s).
Proof using Hend. intros Hp Hl pb Hb Hne. rewrite refs_counted by done. by rewrite decide_False by done. Qed.

(** [kalloc] takes the page at the head of the free list, or returns 0
    when there is none: the page is filled with fives, has one reference, and
    no other byte and no other counter changes. *)
Lemma kalloc_spec s l :
  kmem_inv _end s l →
  ∃ s', kalloc _end s = Ret (default 0 (head l), s') ∧ kmem_inv _end s' (tail l) ∧
    match l with
    | [] => s' = s
    | p :: _ => refs _end s' p = 1 ∧ same_refs p s s' ∧
        written (phys s) (phys s') p (replicate (Z.to_nat PGSIZE) 5)
    end.
Proof using Hend.
  intros Hi. pose proof (chain_head _ _ _ (inv_page _ _ _ Hi) (inv_chain _ _ _ Hi)) as Hz.
  unfold kalloc. erewrite bind_Ret by done.
  destruct l as [|p l]; cbn [head tail from_option id].
  { rewrite (proj2 Hz) by done. exists s. split_and!; [done..]. }
  destruct (Z.eqb_spec (freelist s) 0) as [E0|_]; [by apply Hz in E0|].
  pose proof (inv_chain _ _ _ Hi) as (-> & q & Hq & Hr & Hc).
  pose proof (inv_page _ _ _ Hi) as [Hp Hps]%Forall_cons.
  pose proof (inv_nodup _ _ _ Hi) as [Hn Hnd]%NoDup_cons.
  pose proof (inv_refs _ _ _ Hi) as [_ Hrl]%Forall_cons.
  erewrite bind_Ret.
  2:{ rewrite (bind_Ret _ _ _ _ _ (in_phys_run _ _ _ _ (load64_run _ _ _ Hr Hq))). done. }
  set (s1 := set_freelist q (set_phys (λ _, phys s) s)).
  assert (kmem_inv _end s1 l) as Hi1 by (constructor; try done; apply Hi).
  destruct (memset_page s1 l p 5) as (m' & E & W); [done..|].
  rewrite bind_assoc, (bind_Ret _ _ _ _ _ E). cbv beta. erewrite bind_Ret by done.
  set (s2 := set_phys (λ _, m') s1) in *.
  assert (kmem_inv _end s2 l) as Hi2.
  { eapply inv_phys; [done..| |]; rewrite ?length_replicate; [|done]. unfold PGSIZE. lia. }
  rewrite (bind_Ret _ _ _ _ _ (pgcount_set_run s2 p 1 Hp (inv_len _ _ _ Hi2))).
  eexists. split; [done|]. split; [by apply inv_counted|]. split_and!.
  - rewrite refs_counted by (done || apply Hi2). by rewrite decide_True.
  - intros pb Hb Hne. rewrite (same_refs_counted s2 p 1 Hp (inv_len _ _ _ Hi2) pb) by done. done.
  - apply W.
Qed.

(** [kfree] drops one reference; a page with references left is not
    touched, any other is filled with ones and put at the head of the list. *)
Lemma kfree_spec s l pa :
  kmem_inv _end s l → page _end pa → pa ∉ l → - 2 ^ 31 < refs _end s pa < 2 ^ 31 →
  ∃ s', kfree _end pa s = Ret ((), s') ∧
    refs _end s' pa = refs _end s pa - 1 ∧ same_refs pa s s' ∧
    if decide (1 < refs _end s pa)
    then kmem_inv _end s' l ∧ phys s' = phys s ∧ freelist s' = freelist s
    else kmem_inv _end s' (pa :: l) ∧
         written (phys s) (phys s') pa
           (le_bytes 8 (freelist s) ++ replicate (Z.to_nat (PGSIZE - 8)) 1).
Proof using Hend.
  intros Hi Hp Hn Hr. unfold kfree. rewrite (proj1 (page_good pa) Hp). unfold kfree_dec.
  pose proof (inv_len _ _ _ Hi) as Hlen.
  erewrite bind_Ret.
  2:{ rewrite (bind_Ret _ _ _ _ _ (pgcount_get_run _ _ Hp Hlen)). by apply pgcount_set_run. }
  set (v := refs _end s pa - 1). set (s1 := counted pa v s).
  assert (Hlen1 : Z.of_nat (length (pgcount_arr s1)) = NPGCOUNT)
    by (subst s1; cbn; by rewrite length_insert).
  assert (Hv : refs _end s1 pa = v).
  { subst s1 v. rewrite refs_counted, decide_True by done. apply swrap_small; lia. }
  assert (kmem_inv _end s1 l) as Hi1 by (by apply inv_counted).
  rewrite (bind_Ret _ _ _ _ _ (pgcount_get_run _ _ Hp Hlen1)). rewrite Hv.
  pose proof (same_refs_counted s pa v Hp Hlen) as Hsame.
  destruct (Z.ltb_spec 0 v) as [Hpos|Hneg].
  { exists s1. rewrite decide_True by (subst v; lia). split_and!; done. }
  destruct (memset_page s1 l pa 1 Hi1 Hp) as (m1 & E1 & W1).
  rewrite (bind_Ret _ _ _ _ _ E1). set (s2 := set_phys (λ _, m1) s1).
  assert (kmem_inv _end s2 l) as Hi2.
  { eapply inv_phys; [done..| |]; rewrite ?length_replicate; [|done]. unfold PGSIZE. lia. }
  unfold kfree_push. erewrite bind_Ret by done.
  destruct (store64_run (phys s2) pa (freelist s2)) as (m2 & E2 & W2).
  { eapply mapped_le; [|by apply Hi2]. unfold PGSIZE. lia. }
  rewrite (bind_Ret _ _ _ _ _ (in_phys_run _ _ _ _ E2)). eexists. split; [done|].
  rewrite decide_False by (subst v; lia). split_and!; [done|done| |].
  - assert (kmem_inv _end (set_phys (λ _, m2) s2) l) as [].
    { eapply inv_phys; [done..| | |]; rewrite ?length_le_bytes; [lia|unfold PGSIZE; lia|done]. }
    constructor; try done.
    + cbn. split; [done|]. exists (freelist s). split_and!; [by eapply written_bytes_at|by eapply chain_range; [|apply Hi]; apply Hi|done].
    + by constructor.
    + by constructor.
    + constructor; [|done]. change (refs _end s1 pa <= 0). lia.
  - pose proof (written_over _ _ _ _ _ _ W1 W2) as Hw.
    rewrite drop_replicate, length_le_bytes, length_replicate in Hw.
    replace (Z.to_nat (PGSIZE - 8)) with (Z.to_nat PGSIZE - 8)%nat by (unfold PGSIZE; lia).
    apply Hw. unfold PGSIZE. lia.
Qed.

Lemma kfree_invalid s pa : ¬ page _end pa → kfree _end pa s = Panic "kfree".
Proof using.
  intros Hp. unfold kfree. destruct (kfree_bad _end pa) eqn:E; [done|].
  by apply page_good in E.
Qed.

(** *** Initialisation *)

Lemma PGROUNDUP_spec sz :
  0 <= sz -> sz + PGSIZE <= 2 ^ 64 -> PGROUNDUP sz = (sz + PGSIZE - 1) / PGSIZE * PGSIZE.
Proof using.
  unfold PGROUNDUP, PGSIZE. intros H1 H2. rewrite (wrap_small 64) by (unfold in_range; lia).
  set (x := sz + 4096 - 1). assert (in_range 64 x) as Hx by (unfold in_range; lia).
  rewrite <- (wrap_small 64 x) at 1 by done. rewrite !wrap_land by lia.
  rewrite <- Z.land_assoc, (Z.land_comm (Z.ones 64)), <- Z.land_assoc, Z.land_diag.
  rewrite (Z.land_comm _ (Z.ones 64)), Z.land_assoc, <- wrap_land, wrap_small by (done || lia).
  change (Z.lnot (4096 - 1)) with (Z.lnot (Z.ones 12)). rewrite <- Z.ldiff_land.
  rewrite Z.ldiff_ones_r, Z.shiftl_mul_pow2, Z.shiftr_div_pow2 by lia. done.
Qed.

Lemma freerange_spec fuel : ∀ p s l,
  p mod PGSIZE = 0 → _end <= p → kmem_inv _end s l →
  (∀ pa, pa ∈ l ↔ page _end pa ∧ pa < p) →
  (∀ pa, page _end pa → p <= pa → refs _end s pa = 0) →
  PHYSTOP - p <= Z.of_nat fuel →
  ∃ s' l', freerange_loop _end fuel p PHYSTOP s = Ret ((), s') ∧ kmem_inv _end s' l' ∧
    ∀ pa, pa ∈ l' ↔ page _end pa.
Proof using Hend.
  induction fuel as [|fuel IH]; intros p s l Hp He Hi Hl Hz Hf; cbn [freerange_loop].
  all: destruct (Z.leb_spec (p + PGSIZE) PHYSTOP) as [Hle|Hgt].
  1: unfold PGSIZE in Hle; lia.
  1,3: exists s, l; split_and!; [done..|]; intros pa; rewrite Hl; split; [tauto|];
    intros H; split; [done|]; destruct H; unfold PGSIZE, PHYSTOP, KERNBASE in *; dlia.
  assert (page _end p) as Hpp by (unfold page, PGSIZE in *; lia).
  assert (p ∉ l) as Hn by (rewrite Hl; lia).
  destruct (kfree_spec s l p Hi Hpp Hn) as (s' & E & Hrp & Hsame & H);
    [rewrite Hz by (done || lia); lia|].
  rewrite (bind_Ret _ _ _ _ _ E). rewrite (Hz p Hpp) in H by lia. simpl in H.
  destruct H as [Hi' _]. apply (IH (p + PGSIZE) s' (p :: l)).
  - unfold PGSIZE in *. dlia.
  - unfold PGSIZE. lia.
  - done.
  - intros pa. rewrite elem_of_cons, Hl. split.
    + intros [->|[? ?]]; (split; [done|unfold PGSIZE; lia]).
    + intros [Hpa Hlt]. destruct (decide (pa = p)); [by left|right]. split; [done|].
      destruct Hpa. unfold PGSIZE in *. dlia.
  - intros pa Hpa Hge. unfold PGSIZE in *. rewrite Hsame by (done || lia). apply Hz; [done|lia].
  - unfold PGSIZE. lia.
Qed.

(** The machine at boot: the pages are mapped, the counters are zero. *)
Definition boot (s : kmem_t) : Prop :=
  (∀ pa, page _end pa → mapped (phys s) pa (Z.to_nat PGSIZE)) ∧ freelist s = 0 ∧
  pgcount_arr s = replicate (Z.to_nat NPGCOUNT) 0.

(** [kinit] returns, with every page between the kernel and [PHYSTOP] on
    the free list exactly once. *)
Lemma kinit_spec s :
  boot s →
  ∃ s' l, kinit _end s = Ret ((), s') ∧ kmem_inv _end s' l ∧ ∀ pa, pa ∈ l ↔ page _end pa.
Proof using Hend.
  intros (Hm & Hf & Hc). unfold kinit, freerange.
  assert (Hr : ∀ pa, refs _end s pa = 0).
  { intros pa. unfold refs. rewrite Hc. destruct (replicate _ _ !! _) eqn:E; [|done].
    by apply lookup_replicate in E as [-> _]. }
  rewrite PGROUNDUP_spec by (unfold PGSIZE, PHYSTOP, KERNBASE in *; lia).
  apply (freerange_spec _ _ s []); unfold PGSIZE.
  - apply Z_mod_mult.
  - dlia.
  - constructor; try done; try constructor. by rewrite Hc, length_replicate.
  - intros pa. split; [by intros ?%elem_of_nil|]. intros [[? ?] ?]. unfold PGSIZE in *. exfalso. dlia.
  - done.
  - dlia.
Qed.

(** *** Clients *)

(** A kernel that only drops references it holds: [client s o] when [s] is
    reached from boot with the references [o] held (a page occurs in [o] once
    for each reference to it). *)
Inductive client : kmem_t → list Z → Prop :=
  | client_boot s s' : boot s → kinit _end s = Ret ((), s') → client s' []
  | client_none s o s' : client s o → kalloc _end s = Ret (0, s') → client s' o
  | client_some s o p s' :
      client s o → kalloc _end s = Ret (p, s') → p ≠ 0 → client s' (p :: o)
  | client_share s o pa s' :
      client s o → pa ∈ o → Z.of_nat (length o) < 2 ^ 31 - 1 →
      page_share _end pa s = Ret ((), s') → client s' (pa :: o)
  | client_free s o pa o' s' :
      client s o → o ≡ₚ pa :: o' → Z.of_nat (length o) < 2 ^ 31 →
      kfree _end pa s = Ret ((), s') → client s' o'.

Definition held (o : list Z) (pa : Z) : Z := Z.of_nat (count_occ Z.eq_dec o pa).

Lemma held_cons o pa pb : held (pa :: o) pb = held o pb + if decide (pa = pb) then 1 else 0.
Proof using. unfold held. simpl. destruct (Z.eq_dec pa pb); case_decide; lia. Qed.

Lemma held_perm o o' pa : o ≡ₚ o' → held o pa = held o' pa.
Proof using. intros H. unfold held. f_equal. by apply Permutation_count_occ. Qed.

Lemma held_pos o pa : pa ∈ o ↔ 0 < held o pa.
Proof using. unfold held. rewrite list_elem_of_In, (count_occ_In Z.eq_dec). lia. Qed.

Lemma held_le o pa : held o pa <= Z.of_nat (length o).
Proof using. unfold held. pose proof (count_occ_bound Z.eq_dec pa o). lia. Qed.

(** What the allocator guarantees such a client: the free list holds the pages
    nobody refers to, each once, and the counters count the references. *)
Record client_inv (s : kmem_t) (o l : list Z) : Prop := {
  ci_inv : kmem_inv _end s l;
  ci_part : ∀ pa, page _end pa → (pa ∈ l ↔ held o pa = 0);
  ci_page : ∀ pa, 0 < held o pa → page _end pa;
  ci_refs : ∀ pa, 0 < held o pa → refs _end s pa = held o pa;
}.

Lemma client_inv_alloc s o l s' p :
  client_inv s o l → kalloc _end s = Ret (p, s') →
  (p = 0 ∧ s' = s) ∨ (p ≠ 0 ∧ client_inv s' (p :: o) (tail l)).
Proof using Hend.
  intros [Hi Hp Hg Hr] E. destruct (kalloc_spec s l Hi) as (s1 & E' & Hi' & H).
  rewrite E in E'; simplify_eq. destruct l as [|p l]; simpl in *; [by left|right].
  pose proof (inv_page _ _ _ Hi) as [Hpp _]%Forall_cons.
  pose proof (inv_nodup _ _ _ Hi) as [Hn _]%NoDup_cons.
  assert (held o p = 0) as H0 by (apply Hp; [done|left]).
  destruct H as (H1 & Hs & _). split; [destruct Hpp; unfold KERNBASE in *; lia|].
  constructor; [done|..]; intros pa; rewrite held_cons.
  - intros Hpa. specialize (Hp pa Hpa). rewrite elem_of_cons in Hp.
    pose proof (Nat2Z.is_nonneg (count_occ Z.eq_dec o pa)).
    case_decide as Heq; [subst pa; rewrite H0; split; [done|lia]|].
    rewrite Z.add_0_r, <- Hp. split; [by right|by intros [->|]].
  - case_decide as Heq; [by subst pa|]. rewrite Z.add_0_r. apply Hg.
  - case_decide as Heq; [subst pa; by rewrite H0|]. rewrite Z.add_0_r. intros Hpa.
    rewrite Hs; [by apply Hr|by apply Hg|congruence].
Qed.

Lemma client_inv_share s o l s' pa :
  client_inv s o l → pa ∈ o → held o pa < 2 ^ 31 - 1 →
  page_share _end pa s = Ret ((), s') → client_inv s' (pa :: o) l.
Proof using Hend.
  intros [Hi Hp Hg Hr] Ho%held_pos Hle E. pose proof (Hg _ Ho) as Hpp.
  pose proof (inv_len _ _ _ Hi) as Hl.
  assert (pa ∉ l) as Hn by (rewrite Hp by done; lia).
  unfold page_share in E. rewrite (bind_Ret _ _ _ _ _ (pgcount_get_run _ _ Hpp Hl)) in E.
  rewrite pgcount_set_run, (Hr pa Ho) in E by done. injection E as <-.
  constructor; [by apply inv_counted|..]; intros pb; rewrite held_cons.
  - intros Hpb. rewrite (Hp pb Hpb). case_decide as Heq; [subst pb; lia|by rewrite Z.add_0_r].
  - case_decide as Heq; [by subst pb|]. rewrite Z.add_0_r. apply Hg.
  - case_decide as Heq.
    + subst pb. intros _. rewrite refs_counted, decide_True by done. apply swrap_small; lia.
    + rewrite Z.add_0_r. intros Hpb. rewrite refs_counted, decide_False by (by auto). by apply Hr.
Qed.

Lemma client_inv_free s o l s' pa o' :
  client_inv s o l → o ≡ₚ pa :: o' → held o pa < 2 ^ 31 →
  kfree _end pa s = Ret ((), s') → ∃ l', client_inv s' o' l'.
Proof using Hend.
  intros [Hi Hp Hg Hr] Hperm Hle E.
  assert (Hh : ∀ pb, held o pb = held o' pb + if decide (pa = pb) then 1 else 0).
  { intros pb. rewrite (held_perm _ _ _ Hperm). apply held_cons. }
  pose proof (Hh pa) as Hpa. rewrite decide_True in Hpa by done.
  assert (0 <= held o' pa) as Hnn by (unfold held; lia). assert (0 < held o pa) as Hpos by lia.
  pose proof (Hg _ Hpos) as Hpp.
  destruct (kfree_spec s l pa Hi Hpp) as (s1 & E' & H1 & Hs & H);
    [rewrite Hp by done; lia|rewrite Hr by done; lia|].
  rewrite E in E'; simplify_eq. rewrite Hr in H, H1 by done.
  assert (∀ pb, 0 < held o' pb → page _end pb) as Hg'.
  { intros pb Hb. apply Hg. rewrite Hh. destruct (decide (pa = pb)); lia. }
  assert (∀ pb, 0 < held o' pb → refs _end s1 pb = held o' pb) as Hr'.
  { intros pb Hb. destruct (decide (pb = pa)) as [->|Hne]; [lia|].
    assert (held o pb = held o' pb) as Eq by (rewrite Hh, decide_False by congruence; lia).
    rewrite Hs by auto. rewrite <- Eq in Hb |- *. by apply Hr. }
  destruct (decide (1 < held o pa)).
  - exists l. destruct H as (Hi' & _ & _). constructor; [done| |done|done].
    intros pb Hpb. rewrite Hp, Hh by done. case_decide as Heq; [subst pb; lia|lia].
  - exists (pa :: l). destruct H as [Hi' _]. constructor; [done| |done|done].
    intros pb Hpb. rewrite elem_of_cons, Hp, Hh by done. case_decide as Heq.
    + subst pb. split; [lia|by left].
    + split; [intros [->|]; [done|lia]|right; lia].
Qed.

(** C14: However such a kernel interleaves [kalloc], [kfree] and sharing, the
    free list holds exactly the pages nobody refers to (so none is handed out
    while it is in use, and none is lost), and [pgcount_arr] is the number of
    references to each page in use. *)
Theorem client_safe s o : client s o → ∃ l, client_inv s o l.
Proof using Hend.
  induction 1 as [s s' Hb E|s o s' _ [l IH] E|s o p s' _ [l IH] E Hp
    |s o pa s' _ [l IH] Ho Hl E|s o pa o' s' _ [l IH] Hperm Hl E].
  - destruct (kinit_spec s Hb) as (s1 & l & E' & Hi & Hl). rewrite E in E'; simplify_eq.
    exists l. constructor; [done| |done|done]. intros pa Hpa. by rewrite Hl.
  - destruct (client_inv_alloc _ _ _ _ _ IH E) as [[_ ->]|[? _]]; [eauto|done].
  - destruct (client_inv_alloc _ _ _ _ _ IH E) as [[? _]|[_ H]]; [done|eauto].
  - exists l. eapply client_inv_share; [exact IH|exact Ho| |exact E]. pose proof (held_le o pa). lia.
  - eapply client_inv_free; [exact IH|exact Hperm| |exact E]. pose proof (held_le o pa). lia.
Qed.
End facts.

(** *** The race in [kfree]

    Two harts that free a page with two references can both read the count
    after both decrements; both then insert the page, and the next two calls
    of [kalloc] hand out the same page. *)
Definition race_end : Z := PHYSTOP - PGSIZE.
Definition race_page : Z := PHYSTOP - PGSIZE.
Definition race_state : kmem_t :=
  KMem (list_to_map ((λ a, (a, 0)) <$> seqZ race_end PGSIZE)) 0 [2].
Definition race_schedule : list bool := [true; false; true; false; true; false].

(** A schedule of two [kfree] calls, one per reference, after which [kalloc]
    returns the same page twice. *)
Theorem kfree_race :
  match (kfree_sched race_end race_page race_schedule (AtDec, AtDec) ;;
         p1 ← kalloc race_end; p2 ← kalloc race_end; mret (p1, p2)) race_state with
  | Ret (p, _) => p = (race_page, race_page)
  | _ => False
  end.
Proof. vm_compute. reflexivity. Qed.

(** *** Witness: a machine with one free page, allocated *)

Definition boot_state : kmem_t :=
  KMem (list_to_map ((λ a, (a, 0)) <$> seqZ race_end PGSIZE)) 0
    (replicate (Z.to_nat NPGCOUNT) 0).

Lemma boot_state_boot : boot race_end boot_state.
Proof.
  split; [|split; reflexivity]. intros pa [Hm [H1 H2]] k Hk. cbn [phys boot_state].
  exists 0. apply elem_of_list_to_map_1.
  - rewrite <- list_fmap_compose. apply (NoDup_fmap_2 id), NoDup_seqZ.
  - apply list_elem_of_fmap. exists (pa + Z.of_nat k). split; [done|].
    apply elem_of_seqZ. unfold race_end, PGSIZE, PHYSTOP, KERNBASE in *. dlia.
Qed.

Lemma client_safe_witness :
  ∃ s p l, client race_end s [p] ∧ p = race_end ∧ client_inv race_end s [p] l.
Proof.
  assert (KERNBASE <= race_end <= PHYSTOP) as Hend by (split; vm_compute; discriminate).
  destruct (ex_intro _ boot_state boot_state_boot : ∃ bs, boot race_end bs) as [bs Hbs].
  destruct (kinit_spec race_end Hend bs Hbs) as (s & l & E & Hi & Hl).
  assert (page race_end race_end) as Hpage
    by (split; [reflexivity|split; [vm_compute; discriminate|reflexivity]]).
  assert (race_end ∈ l) as Hin by (by apply Hl).
  destruct (kalloc_spec race_end Hend s l Hi) as (s' & E' & Hi' & _).
  destruct l as [|p l]; [by apply elem_of_nil in Hin|]. cbn [head from_option] in E'.
  assert (page race_end p) as [Hm Hp] by (apply Hl; left).
  assert (client race_end s' [p]) as Hc.
  { eapply client_some; [eapply client_boot; [exact Hbs|exact E]|exact E'|].
    intros ->. destruct Hp as [Hp _]. by apply Hp. }
  destruct (client_safe race_end Hend s' [p] Hc) as [l' Hl'].
  exists s', p, l'. split_and!; [exact Hc| |exact Hl'].
  unfold race_end, PGSIZE, PHYSTOP, KERNBASE in *. dlia.
Defined.
