(* ===== verification/Pipe.v ===== *)
(** * Pipes: [kernel/pipe.c]

    The ring of 512 bytes with its two free-running 32-bit counters, the
    processes asleep on it, and the reader's or writer's memory behind the
    interface [UserMem] ([copyin] and [copyout] of one byte, which is how the
    code calls them). A call runs under [pi->lock] until it returns or sleeps,
    so one definition covers the code from one wake-up to the next: it yields
    [Done] with the result, or [Sleeping] with the loop index kept across the
    sleep, from which the same definition is run again.

    [pipealloc] belongs to the file layer and is not modelled here. *)
From S2P Require Import Prelude.

Class UserMem (U : Type) := {
  copyin1 : U → Z → option Z;
  copyout1 : U → Z → Z → option U;
}.
Class UserMemLaws (U : Type) `{UserMem U} : Prop := {
  copyin1_byte u a b : copyin1 u a = Some b → is_byte b;
  copyout1_same u a b u' : is_byte b → copyout1 u a b = Some u' → copyin1 u' a = Some b;
  copyout1_other u a b u' a' :
    copyout1 u a b = Some u' → a' ≠ a → copyin1 u' a' = copyin1 u a';
}.

(** A process with a finite set of mapped addresses. *)
#[global] Instance gmap_user : UserMem (gmap Z Z) := {
  copyin1 u a := u8 <$> u !! a;
  copyout1 u a b := match u !! a with Some _ => Some (<[a := b]> u) | None => None end;
}.
#[global] Instance gmap_user_laws : UserMemLaws (gmap Z Z).
Proof.
  split.
  - intros u a b Hb. simpl in Hb. destruct (u !! a); simplify_eq/=. by apply wrap_range.
  - intros u a b u' Hb Hu. simpl in *. destruct (u !! a); simplify_eq.
    rewrite lookup_insert_eq. simpl. by rewrite wrap_small.
  - intros u a b u' a' Hu Hne. simpl in *. destruct (u !! a); simplify_eq.
    by rewrite lookup_insert_ne.
Qed.

Definition PIPESIZE : Z := 512.

Record pipe := Pipe {
  data : list Z;
  nread : Z;
  nwrite : Z;
  readopen : bool;
  writeopen : bool;
}.

(** The two channels processes sleep on, [&pi->nread] and [&pi->nwrite]. *)
Inductive chan := ChRead | ChWrite.
#[global] Instance chan_eq_dec : EqDecision chan.
Proof. solve_decision. Defined.

Inductive wait := Done (r : Z) | Sleeping (i : Z).

Section pipe.
Context {U : Type} `{UserMem U}.

Record psys := PSys {
  pi : pipe;
  pi_freed : bool;
  pu : U;
  asleep : list (Z * chan);
}.
Definition set_pi (f : pipe → pipe) (s : psys) : psys := PSys (f (pi s)) (pi_freed s) (pu s) (asleep s).
Definition set_pu (u : U) (s : psys) : psys := PSys (pi s) (pi_freed s) u (asleep s).

Definition wakeup (c : chan) : M psys () :=
  modify (λ s, PSys (pi s) (pi_freed s) (pu s) (filter (λ x, x.2 ≠ c) (asleep s))).
Definition sleep (pid : Z) (c : chan) : M psys () :=
  modify (λ s, PSys (pi s) (pi_freed s) (pu s) ((pid, c) :: asleep s)).

Definition pipeclose (writable : bool) : M psys () :=
  (if writable then
     modify (set_pi (λ p, Pipe (data p) (nread p) (nwrite p) (readopen p) false)) ;; wakeup ChRead
   else
     modify (set_pi (λ p, Pipe (data p) (nread p) (nwrite p) false (writeopen p))) ;; wakeup ChWrite) ;;
  p ← gets pi;
  if negb (readopen p) && negb (writeopen p)
  then modify (λ s, PSys (pi s) true (pu s) (asleep s)) else mret ().

(** [todo] is [n - i]; [killed] is what [killed(pr)] returns in iteration [i]:
    another process can set it while the loop runs. *)
Fixpoint pipewrite_loop (pid addr : Z) (killed : Z → bool) (todo : nat) (i : Z) : M psys wait :=
  match todo with
  | O => wakeup ChRead ;; mret (Done i)
  | S todo =>
      p ← gets pi;
      if negb (readopen p) || killed i then mret (Done (-1))
      else if nwrite p =? u32 (nread p + PIPESIZE)
      then wakeup ChRead ;; sleep pid ChWrite ;; mret (Sleeping i)
      else
        u ← gets pu;
        match copyin1 u (u64 (addr + i)) with
        | None => wakeup ChRead ;; mret (Done i)
        | Some ch =>
            modify (set_pi (λ p, Pipe (<[Z.to_nat (nwrite p mod PIPESIZE) := ch]> (data p))
              (nread p) (u32 (nwrite p + 1)) (readopen p) (writeopen p))) ;;
            pipewrite_loop pid addr killed todo (i + 1)
        end
  end.
Definition pipewrite (pid addr n : Z) (killed : Z → bool) : M psys wait :=
  pipewrite_loop pid addr killed (Z.to_nat n) 0.
(** After a wake-up the loop goes on from the index it had reached. *)
Definition pipewrite_resume (pid addr n : Z) (killed : Z → bool) (i : Z) : M psys wait :=
  pipewrite_loop pid addr killed (Z.to_nat (n - i)) i.

Fixpoint piperead_loop (addr : Z) (todo : nat) (i : Z) : M psys wait :=
  match todo with
  | O => wakeup ChWrite ;; mret (Done i)
  | S todo =>
      p ← gets pi;
      if nread p =? nwrite p then wakeup ChWrite ;; mret (Done i)
      else
        ch ← oget (data p !! Z.to_nat (nread p mod PIPESIZE));
        modify (set_pi (λ p, Pipe (data p) (u32 (nread p + 1)) (nwrite p) (readopen p) (writeopen p))) ;;
        u ← gets pu;
        match copyout1 u (u64 (addr + i)) ch with
        | None => wakeup ChWrite ;; mret (Done i)
        | Some u' => modify (set_pu u') ;; piperead_loop addr todo (i + 1)
        end
  end.
Definition piperead (pid addr n : Z) (killed : bool) : M psys wait :=
  p ← gets pi;
  if (nread p =? nwrite p) && writeopen p then
    if killed then mret (Done (-1)) else sleep pid ChRead ;; mret (Sleeping 0)
  else piperead_loop addr (Z.to_nat n) 0.

(** ** The abstract pipe: a queue of bytes *)

Record pipe_rep (p : pipe) (q : list Z) : Prop := {
  rep_len : Z.of_nat (length (data p)) = PIPESIZE;
  rep_nread : in_range 32 (nread p);
  rep_nwrite : nwrite p = u32 (nread p + Z.of_nat (length q));
  rep_size : Z.of_nat (length q) <= PIPESIZE;
  rep_byte : Forall is_byte q;
  rep_data : ∀ k b, q !! k = Some b →
    data p !! Z.to_nat ((nread p + Z.of_nat k) mod PIPESIZE) = Some b;
}.

(** The bytes of a process at [a], [a+1], ... *)
Definition user_at (u : U) (a : Z) (bs : list Z) : Prop :=
  ∀ j b, bs !! j = Some b → copyin1 u (u64 (a + Z.of_nat j)) = Some b.
End pipe.
Arguments psys U : clear implicits.

(** ** Arithmetic of the counters *)

(** The counters wrap modulo [2^32], a multiple of the size of the ring. *)
Lemma u32_mod_PIPESIZE z : u32 z mod PIPESIZE = z mod PIPESIZE.
Proof. unfold wrap, PIPESIZE. apply Z.mod_mod_divide. by exists (2 ^ 23). Qed.

Lemma ring_index_inj n i j :
  0 <= i < PIPESIZE → 0 <= j < PIPESIZE → (n + i) mod PIPESIZE = (n + j) mod PIPESIZE → i = j.
Proof. unfold PIPESIZE. dlia. Qed.

Section rep.
Context {U : Type} `{UserMemLaws U}.
Implicit Types (p : pipe) (q : list Z) (s : psys U).

Lemma rep_empty p q : pipe_rep p q → (nread p = nwrite p ↔ q = []).
Proof.
  intros []. rewrite rep_nwrite0. unfold PIPESIZE, in_range, wrap in *. split.
  - intros E. destruct q; [done|]. cbn [length] in *. exfalso. dlia.
  - intros ->. cbn [length]. rewrite Z.add_0_r, Z.mod_small; lia.
Qed.

Lemma rep_full p q :
  pipe_rep p q → (nwrite p = u32 (nread p + PIPESIZE) ↔ Z.of_nat (length q) = PIPESIZE).
Proof.
  intros []. rewrite rep_nwrite0. unfold PIPESIZE, in_range, wrap in *.
  split; [|by intros ->]. dlia.
Qed.

Lemma rep_put p q b :
  pipe_rep p q → Z.of_nat (length q) < PIPESIZE → is_byte b →
  pipe_rep (Pipe (<[Z.to_nat (nwrite p mod PIPESIZE) := b]> (data p)) (nread p)
    (u32 (nwrite p + 1)) (readopen p) (writeopen p)) (q ++ [b]).
Proof.
  intros [] Hlen Hb. constructor; cbn [data nread nwrite].
  - by rewrite length_insert.
  - done.
  - rewrite rep_nwrite0, length_app, wrap_add_l. f_equal. cbn [length]. lia.
  - rewrite length_app. cbn [length]. lia.
  - apply Forall_app. split; [done|by constructor].
  - intros k c Hk. pose proof (lookup_lt_Some _ _ _ Hk) as Hlt.
    rewrite length_app in Hlt. cbn [length] in Hlt. rewrite rep_nwrite0, u32_mod_PIPESIZE.
    pose proof (Z.mod_pos_bound (nread p + Z.of_nat (length q)) PIPESIZE ltac:(done)).
    pose proof (Z.mod_pos_bound (nread p + Z.of_nat k) PIPESIZE ltac:(done)).
    destruct (decide (k = length q)) as [->|Hne].
    + rewrite list_lookup_insert_eq by lia. rewrite lookup_app_r, Nat.sub_diag in Hk by lia. done.
    + rewrite list_lookup_insert_ne.
      * apply rep_data0. by rewrite lookup_app_l in Hk by lia.
      * intros E. apply Hne. apply Nat2Z.inj. apply (ring_index_inj (nread p)); lia.
Qed.

Lemma rep_get p q b :
  pipe_rep p (b :: q) →
  data p !! Z.to_nat (nread p mod PIPESIZE) = Some b ∧
  pipe_rep (Pipe (data p) (u32 (nread p + 1)) (nwrite p) (readopen p) (writeopen p)) q.
Proof.
  intros []. cbn [length] in *. split.
  - pose proof (rep_data0 O b eq_refl) as Hd. by rewrite Z.add_0_r in Hd.
  - constructor; cbn [data nread nwrite]; [done|by apply wrap_range|..].
    + rewrite rep_nwrite0, wrap_add_l. f_equal. lia.
    + lia.
    + by apply Forall_cons in rep_byte0 as [_ ?].
    + intros k c Hk. rewrite <- (rep_data0 (S k) c Hk). f_equal. f_equal.
      rewrite <- Zplus_mod_idemp_l, u32_mod_PIPESIZE, Zplus_mod_idemp_l. f_equal. lia.
Qed.

(** ** The loops *)

Definition waiting (c : chan) (l : list (Z * chan)) : list (Z * chan) := filter (λ x, x.2 ≠ c) l.

(** What a stretch of [pipewrite] does: it appends the bytes [bs] of the caller
    and stops for one of five reasons. *)
Definition wrote (pid addr : Z) (killed : Z → bool) (todo : nat) (i : Z)
    (s : psys U) (q bs : list Z) (r : wait) (s' : psys U) : Prop :=
  let k := i + Z.of_nat (length bs) in
  pipe_rep (pi s') (q ++ bs) ∧ pu s' = pu s ∧ pi_freed s' = pi_freed s ∧
  readopen (pi s') = readopen (pi s) ∧ writeopen (pi s') = writeopen (pi s) ∧
  nread (pi s') = nread (pi s) ∧
  user_at (pu s) (addr + i) bs ∧ (length bs <= todo)%nat ∧
  (∀ j, i <= j < k → killed j = false) ∧
  match r with
  | Done j =>
      (j = -1 ∧ asleep s' = asleep s ∧ (readopen (pi s) = false ∧ bs = [] ∨ killed k = true)) ∨
      (j = k ∧ asleep s' = waiting ChRead (asleep s) ∧
       (length bs = todo ∨ copyin1 (pu s) (u64 (addr + k)) = None))
  | Sleeping j =>
      j = k ∧ asleep s' = (pid, ChWrite) :: waiting ChRead (asleep s) ∧
      (length bs < todo)%nat ∧ readopen (pi s) = true ∧
      Z.of_nat (length (q ++ bs)) = PIPESIZE
  end.

Lemma user_at_cons u a b bs :
  copyin1 u (u64 a) = Some b → user_at u (a + 1) bs → user_at u a (b :: bs).
Proof.
  intros Hb Hbs [|j] c Hc; [injection Hc as <-; by rewrite Z.add_0_r|].
  rewrite <- (Hbs j c Hc). do 2 f_equal. lia.
Qed.

Lemma pipewrite_loop_spec pid addr killed todo : ∀ i s q,
  pipe_rep (pi s) q →
  ∃ r s' bs, pipewrite_loop pid addr killed todo i s = Ret (r, s') ∧
    wrote pid addr killed todo i s q bs r s'.
Proof.
  induction todo as [|todo IH]; intros i s q Hr; cbn [pipewrite_loop].
  { eexists _, _, []. split; [done|]. unfold wrote. cbn [length]. rewrite app_nil_r, Z.add_0_r.
    split_and!; try done; [intros; lia|]. right. by auto. }
  erewrite bind_Ret by done. destruct (negb (readopen (pi s)) || killed i) eqn:Ek.
  { eexists _, _, []. split; [done|]. unfold wrote. cbn [length]. rewrite app_nil_r, Z.add_0_r.
    split_and!; try done; [intros; lia..|left].
    split_and!; [done..|]. apply orb_true_iff in Ek as [?%negb_true_iff|?]; auto. }
  apply orb_false_iff in Ek as [Ero%negb_false_iff Ek].
  pose proof (rep_full _ _ Hr) as Hfull.
  destruct (Z.eqb_spec (nwrite (pi s)) (u32 (nread (pi s) + PIPESIZE))) as [Ef|Ef].
  { eexists _, _, []. split; [done|]. unfold wrote. cbn [length]. rewrite app_nil_r, Z.add_0_r.
    split_and!; try done; [intros; lia..|by apply Hfull]. }
  erewrite bind_Ret by done. destruct (copyin1 (pu s) (u64 (addr + i))) as [b|] eqn:Eb.
  2:{ eexists _, _, []. split; [done|]. unfold wrote. cbn [length]. rewrite app_nil_r, Z.add_0_r.
    split_and!; try done; [intros; lia..|right; auto]. }
  erewrite bind_Ret by done.
  assert (Z.of_nat (length q) < PIPESIZE) as Hlt.
  { pose proof (rep_size _ _ Hr). destruct (decide (Z.of_nat (length q) = PIPESIZE)); [|lia].
    by apply Hfull in e. }
  match goal with |- context [pipewrite_loop _ _ _ _ _ ?s1] =>
    destruct (IH (i + 1) s1 (q ++ [b])) as (r & s' & bs & E & Hw) end.
  { apply rep_put; [done..|]. by eapply copyin1_byte. }
  exists r, s', (b :: bs). split; [done|]. unfold wrote in *. cbn [length set_pi pi pu pi_freed asleep readopen writeopen] in *.
  rewrite <- app_assoc in Hw. cbn [app] in Hw.
  replace (i + 1 + Z.of_nat (length bs)) with (i + Z.of_nat (S (length bs))) in Hw by lia.
  destruct Hw as (? & ? & ? & ? & ? & ? & Hu & ? & Hk & Hres). split_and!; try done.
  - apply user_at_cons; [done|]. by rewrite <- Z.add_assoc.
  - lia.
  - intros j Hj. destruct (decide (j = i)) as [->|]; [done|]. apply Hk. lia.
  - destruct r; [|destruct Hres as (? & ? & ? & ? & ?); split_and!; (done || lia)].
    destruct Hres as [(? & ? & [[? ->]|?])|(? & ? & Hw0)].
    + congruence.
    + left. auto.
    + right. split_and!; [done..|]. destruct Hw0 as [?|?]; [left; lia|by right].
Qed.

Lemma rep_nread_small p q : pipe_rep p q → u32 (nread p + Z.of_nat 0) = nread p.
Proof. intros []. rewrite Z.add_0_r. by apply wrap_small. Qed.

(** What the copying stretch of [piperead] does: the first bytes of the queue
    go to the caller; a byte whose [copyout] fails is taken off the queue too. *)
Definition did_read (addr : Z) (todo : nat) (i : Z) (s : psys U) (q bs lost q' : list Z)
    (r : wait) (s' : psys U) : Prop :=
  q = bs ++ lost ++ q' ∧ r = Done (i + Z.of_nat (length bs)) ∧ pipe_rep (pi s') q' ∧
  user_at (pu s') (addr + i) bs ∧
  (∀ a, (∀ j, (j < todo)%nat → a ≠ u64 (addr + i + Z.of_nat j)) → copyin1 (pu s') a = copyin1 (pu s) a) ∧
  asleep s' = waiting ChWrite (asleep s) ∧ pi_freed s' = pi_freed s ∧
  readopen (pi s') = readopen (pi s) ∧ writeopen (pi s') = writeopen (pi s) ∧
  nread (pi s') = u32 (nread (pi s) + Z.of_nat (length bs + length lost)) ∧
  (length bs + length lost <= todo)%nat ∧
  ((lost = [] ∧ (length bs = todo ∨ q' = [])) ∨
   ∃ b, lost = [b] ∧ copyout1 (pu s') (u64 (addr + i + Z.of_nat (length bs))) b = None).

Lemma piperead_loop_spec addr todo : ∀ i s q,
  pipe_rep (pi s) q → Z.of_nat todo < 2 ^ 64 →
  ∃ r s' bs lost q', piperead_loop addr todo i s = Ret (r, s') ∧
    did_read addr todo i s q bs lost q' r s'.
Proof.
  induction todo as [|todo IH]; intros i s q Hr Ht; cbn [piperead_loop].
  { eexists _, _, [], [], q. split; [done|]. unfold did_read. cbn [length app].
    split_and!; try done; [by rewrite Z.add_0_r|symmetry; by eapply rep_nread_small|auto]. }
  erewrite bind_Ret by done. pose proof (rep_empty _ _ Hr) as He.
  destruct (Z.eqb_spec (nread (pi s)) (nwrite (pi s))) as [E|E].
  { apply He in E as ->. eexists _, _, [], [], []. split; [done|]. unfold did_read. cbn [length app].
    split_and!; try done; [by rewrite Z.add_0_r|symmetry; by eapply rep_nread_small|lia|auto]. }
  destruct q as [|b q]; [by destruct E; apply He|].
  destruct (rep_get _ _ _ Hr) as [Hd Hr']. rewrite Hd. cbn [oget].
  assert (is_byte b) as Hb by (by pose proof (rep_byte _ _ Hr) as [? _]%Forall_cons).
  do 3 (erewrite bind_Ret by done). cbn [set_pi pu].
  destruct (copyout1 (pu s) (u64 (addr + i)) b) as [u'|] eqn:Eu.
  2:{ eexists _, _, [], [b], q. split; [done|]. unfold did_read. cbn [length app set_pi pu pi].
    split_and!; try done; [by rewrite Z.add_0_r|lia|]. right. exists b. by rewrite Z.add_0_r. }
  erewrite bind_Ret by done.
  match goal with |- context [piperead_loop _ _ _ ?s1] =>
    destruct (IH (i + 1) s1 q) as (r & s' & bs & lost & q' & E' & Hw) end; [done|lia|].
  exists r, s', (b :: bs), lost, q'. split; [done|]. unfold did_read in *.
  cbn [length app set_pi set_pu pu pi asleep pi_freed nread readopen writeopen] in *.
  destruct Hw as (-> & -> & ? & Hbs & Hoth & ? & ? & ? & ? & Hnr & ? & Hend).
  rewrite Z.add_assoc in Hbs, Hoth, Hend.
  assert (∀ j, (j < todo)%nat → u64 (addr + i) ≠ u64 (addr + i + 1 + Z.of_nat j)) as Hdiff.
  { intros j Hj. unfold wrap. dlia. }
  split_and!; try done.
  - f_equal. lia.
  - apply user_at_cons; [|done]. rewrite Hoth by done. by eapply copyout1_same.
  - intros a Ha. rewrite Hoth.
    + eapply copyout1_other; [done|]. rewrite <- (Z.add_0_r (addr + i)). apply (Ha O). lia.
    + intros j Hj. specialize (Ha (S j) ltac:(lia)).
      by replace (addr + i + 1 + Z.of_nat j) with (addr + i + Z.of_nat (S j)) by lia.
  - rewrite Hnr, wrap_add_l. f_equal. lia.
  - lia.
  - destruct Hend as [[-> [-> | ->]]|(c & -> & Hc)]; [left; auto..|right].
    exists c. split; [done|].
    by replace (addr + i + Z.of_nat (S (length bs))) with (addr + i + 1 + Z.of_nat (length bs)) by lia.
Qed.

(** ** Streams

    The life of a pipe: readers and writers, of any processes (each with its
    own memory), take turns in any order and resume after sleeping. The bytes
    of [sent] stand in the writers' memory; the counters tell how many bytes a
    call moved. [got] has an entry for every byte taken off the ring, in order:
    the byte, for one that a read counts in its result and that stands in the
    reader's memory, and none for one that the read took and does not count. *)
Inductive pipe_trace : psys U → list Z → list (option Z) → Prop :=
  | trace_open s : pipe_rep (pi s) [] → pipe_trace s [] []
  | trace_user s u sent got : pipe_trace s sent got → pipe_trace (set_pu u s) sent got
  | trace_write s sent got pid addr killed todo i r s' bs :
      pipe_trace s sent got →
      pipewrite_loop pid addr killed todo i s = Ret (r, s') →
      user_at (pu s) (addr + i) bs →
      Z.of_nat (length bs) = u32 (nwrite (pi s') - nwrite (pi s)) →
      pipe_trace s' (sent ++ bs) got
  | trace_read s sent got pid addr n killed k s' bs (dropped : nat) :
      pipe_trace s sent got → n < 2 ^ 31 →
      piperead pid addr n killed s = Ret (Done k, s') →
      user_at (pu s') addr bs → Z.of_nat (length bs) = Z.max 0 k →
      Z.of_nat (length bs + dropped) = u32 (nread (pi s') - nread (pi s)) →
      pipe_trace s' sent (got ++ (Some <$> bs) ++ replicate dropped None)
  | trace_wait s sent got pid addr n killed i s' :
      pipe_trace s sent got → n < 2 ^ 31 →
      piperead pid addr n killed s = Ret (Sleeping i, s') →
      pipe_trace s' sent got
  | trace_close s sent got w s' :
      pipe_trace s sent got → pipeclose w s = Ret ((), s') → pipe_trace s' sent got.

(** What the readers have, against the bytes taken off the ring. *)
Definition received : list (option Z) → list Z → Prop := Forall2 (λ g b, g = Some b ∨ g = None).

Lemma received_some bs : received (Some <$> bs) bs.
Proof. induction bs; constructor; auto. Qed.
Lemma received_none bs : received (replicate (length bs) None) bs.
Proof. induction bs; constructor; auto. Qed.

Lemma user_at_inj u a bs bs' : user_at u a bs → user_at u a bs' → length bs = length bs' → bs = bs'.
Proof.
  intros Hb Hb' Hlen. apply list_eq_same_length with (n := length bs); [done|done|].
  intros j x y _ Hx Hy. apply Hb in Hx. apply Hb' in Hy. congruence.
Qed.

Lemma u32_diff n k : 0 <= k < 2 ^ 32 → u32 (u32 (n + k) - n) = k.
Proof. intros Hk. rewrite wrap_sub_l. replace (n + k - n) with k by lia. by apply wrap_small. Qed.

Lemma counter_diff n a b : 0 <= b < 2 ^ 32 → u32 (u32 (n + (a + b)) - u32 (n + a)) = b.
Proof.
  intros Hb. rewrite wrap_sub_l, wrap_sub_r. replace (_ - _) with b by lia. by apply wrap_small.
Qed.

Lemma nread_bound p q : pipe_rep p q → 0 <= Z.of_nat (length q) < 2 ^ 32.
Proof. intros []. unfold PIPESIZE in *. lia. Qed.

(** [piperead]: the three ways it goes. *)
Lemma piperead_cases pid addr n killed s q :
  pipe_rep (pi s) q → n < 2 ^ 31 →
  ∃ r s', piperead pid addr n killed s = Ret (r, s') ∧
    ((q = [] ∧ writeopen (pi s) = true ∧ killed = true ∧ r = Done (-1) ∧ s' = s) ∨
     (q = [] ∧ writeopen (pi s) = true ∧ killed = false ∧ r = Sleeping 0 ∧
      s' = PSys (pi s) (pi_freed s) (pu s) ((pid, ChRead) :: asleep s)) ∨
     ((q = [] → writeopen (pi s) = false) ∧
      ∃ bs lost q', did_read addr (Z.to_nat n) 0 s q bs lost q' r s')).
Proof.
  intros Hr Hn. unfold piperead. erewrite bind_Ret by done.
  pose proof (rep_empty _ _ Hr) as He.
  destruct (Z.eqb_spec (nread (pi s)) (nwrite (pi s))) as [E|E]; cbn [andb].
  1: destruct (writeopen (pi s)) eqn:Ew; [apply He in E; destruct killed|].
  1, 2: eexists _, _; split; [done|]; auto 10.
  all: destruct (piperead_loop_spec addr (Z.to_nat n) 0 s q Hr) as (r & s' & bs & lost & q' & E' & Hw);
    [lia|]; exists r, s'; split; [done|]; right; right; split; [|by eauto].
  - done.
  - intros Hq. by apply He in Hq.
Qed.

Lemma pipeclose_run w s :
  ∃ s', pipeclose w s = Ret ((), s') ∧ pu s' = pu s ∧
    data (pi s') = data (pi s) ∧ nread (pi s') = nread (pi s) ∧ nwrite (pi s') = nwrite (pi s) ∧
    readopen (pi s') = readopen (pi s) && w ∧ writeopen (pi s') = writeopen (pi s) && negb w ∧
    asleep s' = waiting (if w then ChRead else ChWrite) (asleep s) ∧
    pi_freed s' = pi_freed s || (negb (readopen (pi s')) && negb (writeopen (pi s'))).
Proof.
  unfold pipeclose. destruct s as [[d nr nw ro wo] fr u l].
  destruct w, ro, wo; (eexists; split; [reflexivity|]); cbn;
    rewrite ?orb_true_r, ?orb_false_r; done.
Qed.

Lemma rep_same p p' q :
  data p' = data p → nread p' = nread p → nwrite p' = nwrite p → pipe_rep p q → pipe_rep p' q.
Proof. intros E1 E2 E3 []. constructor; rewrite ?E1, ?E2, ?E3; done. Qed.

(** One read, as the counter shows it: what it counts, and one byte more exactly
    when that byte's [copyout] failed. *)
Lemma did_read_counter addr todo i s q bs lost q' r s' :
  pipe_rep (pi s) q → did_read addr todo i s q bs lost q' r s' →
  u32 (nread (pi s') - nread (pi s)) = Z.of_nat (length bs + length lost).
Proof.
  intros Hr (-> & _ & _ & _ & _ & _ & _ & _ & _ & Hnr & _). rewrite Hnr.
  pose proof (nread_bound _ _ Hr) as Hb. rewrite !length_app in Hb. rewrite u32_diff by lia. lia.
Qed.

Lemma pipe_trace_rep s sent got :
  pipe_trace s sent got → ∃ taken q, sent = taken ++ q ∧ received got taken ∧ pipe_rep (pi s) q.
Proof.
  induction 1 as [s Hr|s u sent got _ IH|s sent got pid addr killed todo i r s' bs _ (taken & q & -> & Hg & Hr) E Hbs Hlen
    |s sent got pid addr n killed k s' bs d _ (taken & q & -> & Hg & Hr) Hn E Hbs Hk Hlen
    |s sent got pid addr n killed i s' _ (taken & q & -> & Hg & Hr) Hn E|s sent got w s' _ (taken & q & -> & Hg & Hr) E].
  - exists [], []. split_and!; [done|constructor|done].
  - done.
  - destruct (pipewrite_loop_spec pid addr killed todo i s q Hr) as (r' & s1 & bs' & E' & Hw).
    rewrite E in E'; simplify_eq. destruct Hw as (Hr' & _ & _ & _ & _ & Hnr & Hbs' & _).
    rewrite (rep_nwrite _ _ Hr'), (rep_nwrite _ _ Hr), Hnr, length_app, Nat2Z.inj_add in Hlen.
    pose proof (nread_bound _ _ Hr') as Hb. rewrite length_app in Hb.
    rewrite counter_diff in Hlen by lia.
    assert (bs = bs') as -> by (eapply user_at_inj; [done..|lia]).
    exists taken, (q ++ bs'). by rewrite app_assoc.
  - destruct (piperead_cases pid addr n killed s q Hr Hn) as (r & s1 & E' & Hcase).
    rewrite E in E'; simplify_eq.
    destruct Hcase as [(-> & _ & _ & [= ->] & ->)|[(_ & _ & _ & [=] & _)|(_ & bs' & lost & q' & Hw)]].
    { rewrite Z.sub_diag in Hlen. change (u32 0) with 0 in Hlen.
      destruct bs; [|done]. destruct d; [|done]. exists taken, []. by rewrite !app_nil_r. }
    rewrite (did_read_counter _ _ _ _ _ _ _ _ _ _ Hr Hw) in Hlen.
    destruct Hw as (-> & [= ->] & Hr' & Hbs' & _). rewrite Z.add_0_r in Hbs'.
    assert (bs = bs') as -> by (eapply user_at_inj; [done..|lia]).
    assert (d = length lost) as -> by lia.
    exists (taken ++ bs' ++ lost), q'. split_and!; [by rewrite <- !app_assoc| |done].
    by apply Forall2_app, Forall2_app, received_none; [|apply received_some].
  - destruct (piperead_cases pid addr n killed s q Hr Hn) as (r & s1 & E' & Hcase).
    rewrite E in E'; simplify_eq.
    destruct Hcase as [(_ & _ & _ & [=] & _)|[(_ & _ & _ & _ & ->)|(_ & bs & lost & q' & Hw)]];
      [by exists taken, q|by destruct Hw as (_ & [=] & _)].
  - destruct (pipeclose_run w s) as (s1 & E' & _ & E1 & E2 & E3 & _).
    rewrite E in E'; simplify_eq. exists taken, q. split_and!; [done..|]. by eapply rep_same.
Qed.

(** C13: A pipe is a queue: whatever the interleaving of reads, writes, sleeps
    and closes, and across the wrap-around of the counters, the bytes written
    are, in order, those taken off the ring and those (at most 512) still in it;
    and what the readers have are the bytes taken, in order, but for the dropped
    ones. A read drops at most one byte, the next one after those it delivers, and
    only when [copyout] of that byte fails; a read that sleeps or is killed takes
    none. *)
Theorem pipe_fifo s sent got :
  pipe_trace s sent got →
  ∃ taken q, sent = taken ++ q ∧ received got taken ∧ pipe_rep (pi s) q ∧ (length q <= 512)%nat ∧
    ∀ pid addr n killed, n < 2 ^ 31 → ∃ r s', piperead pid addr n killed s = Ret (r, s') ∧
      match r with
      | Sleeping _ => pi s' = pi s
      | Done k =>
          nread (pi s') = u32 (nread (pi s) + Z.max 0 k) ∨
          ∃ b, q !! Z.to_nat k = Some b ∧ copyout1 (pu s') (u64 (addr + k)) b = None ∧
            nread (pi s') = u32 (nread (pi s) + k + 1)
      end.
Proof.
  intros (taken & q & -> & Hg & Hr)%pipe_trace_rep. exists taken, q. split_and!; [done..| |].
  { pose proof (rep_size _ _ Hr). unfold PIPESIZE in *. lia. }
  intros pid addr n killed Hn. destruct (piperead_cases pid addr n killed s q Hr Hn) as (r & s' & E & Hcase).
  exists r, s'. split; [done|].
  destruct Hcase as [(-> & _ & _ & -> & ->)|[(_ & _ & _ & -> & ->)|(_ & bs & lost & q' & Hw)]]; [left|done|].
  - symmetry. by eapply (rep_nread_small _ []).
  - destruct Hw as (-> & -> & _ & _ & _ & _ & _ & _ & _ & Hnr & _ & [[-> _]|(b & -> & Hb)]); rewrite Z.add_0_l in *.
    + left. rewrite Hnr. cbn [length]. f_equal. lia.
    + right. exists b. rewrite Nat2Z.id, Hnr. split_and!.
      * rewrite lookup_app_r, Nat.sub_diag by lia. done.
      * by rewrite Z.add_0_r in Hb.
      * cbn [length]. f_equal. lia.
Qed.

(** ** Wake-ups *)

(** Nobody sleeps while what it waits for has come; [cut] excepts the readers. *)
Definition awake_ok (s : psys U) (q : list Z) (cut : bool) : Prop :=
  (cut = false → ∀ pid, (pid, ChRead) ∈ asleep s → q = [] ∧ writeopen (pi s) = true) ∧
  (∀ pid, (pid, ChWrite) ∈ asleep s → Z.of_nat (length q) = PIPESIZE ∧ readopen (pi s) = true).

(** Any interleaving of calls, each from one wake-up to the next, with
    [killed(pr)] changing at any time. [cut] tells that a write returned -1 after
    it had stored bytes, and that [wakeup(&pi->nread)] was not called since. *)
Inductive pipe_run (s0 : psys U) : psys U → bool → Prop :=
  | run_start : pipe_run s0 s0 false
  | run_write s cut pid addr killed todo i r s' :
      pipe_run s0 s cut → 0 <= i → pipewrite_loop pid addr killed todo i s = Ret (r, s') →
      pipe_run s0 s' (if r is Done (-1) then cut || negb (nwrite (pi s') =? nwrite (pi s)) else false)
  | run_read s cut pid addr n killed r s' :
      pipe_run s0 s cut → n < 2 ^ 31 → piperead pid addr n killed s = Ret (r, s') → pipe_run s0 s' cut
  | run_close s cut w s' :
      pipe_run s0 s cut → pipeclose w s = Ret ((), s') → pipe_run s0 s' (if w then false else cut)
  | run_user s cut u : pipe_run s0 s cut → pipe_run s0 (set_pu u s) cut.

Lemma in_waiting x c l : x ∈ waiting c l ↔ x ∈ l ∧ x.2 ≠ c.
Proof. unfold waiting. rewrite list_elem_of_filter. tauto. Qed.

Lemma wrote_awake pid addr killed todo i s q bs r s' cut :
  pipe_rep (pi s) q → 0 <= i → awake_ok s q cut → wrote pid addr killed todo i s q bs r s' →
  awake_ok s' (q ++ bs) (if r is Done (-1) then cut || negb (nwrite (pi s') =? nwrite (pi s)) else false).
Proof.
  intros Hr Hi [HR HW] (Hr' & _ & _ & Ero & Ewo & Hnr & _ & _ & _ & Hres).
  pose proof (rep_size _ _ Hr') as Hsz. rewrite length_app in Hsz.
  assert (∀ z, (z, ChWrite) ∈ asleep s → Z.of_nat (length (q ++ bs)) = PIPESIZE ∧ readopen (pi s') = true) as HW'.
  { intros p Hp. apply HW in Hp as [??]. rewrite length_app, Ero. split; [lia|done]. }
  destruct r as [j|j]; [destruct Hres as [(-> & Ea & _)|(-> & Ea & _)]|].
  - split; rewrite Ea; [|done]. intros [-> Hnw%negb_false_iff%Z.eqb_eq]%orb_false_iff.
    assert (bs = []) as ->; [|rewrite app_nil_r, Ewo; by apply HR].
    rewrite (rep_nwrite _ _ Hr'), (rep_nwrite _ _ Hr), Hnr, length_app, Nat2Z.inj_add in Hnw.
    destruct bs as [|b bs]; [done|exfalso]. cbn [length] in *. pose proof (nread_bound _ _ Hr') as Hb.
    rewrite length_app in Hb. cbn [length] in Hb. unfold wrap, PIPESIZE in *. dlia.
  - split; [intros _|]; intros p; rewrite Ea, in_waiting; [by intros [_ []]|by intros [?%HW' _]].
  - destruct Hres as (_ & Ea & _ & Hro & Hfull).
    split; [intros _|]; intros p; rewrite Ea, elem_of_cons, in_waiting; [by intros [?|[_ []]]|].
    intros _. by rewrite Ero.
Qed.

Lemma did_read_awake addr todo i s q bs lost q' r s' cut :
  awake_ok s q cut → did_read addr todo i s q bs lost q' r s' → awake_ok s' q' cut.
Proof.
  intros [HR HW] (-> & _ & _ & _ & _ & Ea & _ & _ & Ewo & _).
  split; [intros Hc|]; intros p; rewrite Ea, in_waiting; [|by intros [_ []]].
  intros [[Hnil ?]%HR _]; [|done]. rewrite Ewo.
  apply app_eq_nil in Hnil as [_ Hnil]. by apply app_eq_nil in Hnil as [_ ->].
Qed.

(** C36: However reads, writes and closes interleave, and whenever processes are
    killed: one asleep in [pipewrite] faces a full pipe with an open read end, and
    one asleep in [piperead] an empty pipe with an open write end, unless a write
    was killed between two of its iterations: then it has stored bytes and returned
    -1 without waking the readers, and they sleep until the next wake-up comes. *)
Theorem pipe_no_lost_wakeup s0 s cut :
  pipe_rep (pi s0) [] → asleep s0 = [] → pipe_run s0 s cut →
  ∃ q, pipe_rep (pi s) q ∧
    (∀ pid, (pid, ChWrite) ∈ asleep s → Z.of_nat (length q) = PIPESIZE ∧ readopen (pi s) = true) ∧
    (cut = false → ∀ pid, (pid, ChRead) ∈ asleep s → q = [] ∧ writeopen (pi s) = true).
Proof.
  intros Hr0 Ha0 Hrun. cut (∃ q, pipe_rep (pi s) q ∧ awake_ok s q cut).
  { intros (q & Hr & HR & HW). by exists q. }
  induction Hrun as [|s cut pid addr killed todo i r s' _ (q & Hr & Ha) Hi E
    |s cut pid addr n killed r s' _ (q & Hr & Ha) Hn E|s cut w s' _ (q & Hr & Ha) E|s cut u _ IH].
  - exists []. split; [done|]. unfold awake_ok. rewrite Ha0. split; [intros _|]; by intros pid ?%elem_of_nil.
  - destruct (pipewrite_loop_spec pid addr killed todo i s q Hr) as (r' & s1 & bs & E' & Hw).
    rewrite E in E'; simplify_eq. exists (q ++ bs). split; [apply Hw|by eapply wrote_awake].
  - destruct (piperead_cases pid addr n killed s q Hr Hn) as (r' & s1 & E' & Hcase).
    rewrite E in E'; simplify_eq.
    destruct Hcase as [(-> & _ & _ & _ & ->)|[(-> & Hwo & _ & _ & ->)|(_ & bs & lost & q' & Hw)]].
    + by exists [].
    + exists []. split; [done|]. destruct Ha as [HR HW].
      split; cbn [asleep pi]; [by intros _|]. intros p. rewrite elem_of_cons. by intros [?|?%HW].
    + exists q'. split; [apply Hw|by eapply did_read_awake].
  - destruct (pipeclose_run w s) as (s1 & E' & _ & E1 & E2 & E3 & E4 & E5 & E6 & _).
    rewrite E in E'; simplify_eq. exists q. split; [by eapply rep_same|].
    destruct Ha as [HR HW]. split; [intros Hc|]; intros p; rewrite E6, in_waiting.
    + intros [Hp Hne]. destruct w; [done|]. apply HR in Hp as [??]; [|done]. split; [done|]. by rewrite E5, andb_true_r.
    + intros [[??]%HW Hne]. split; [done|]. destruct w; [|done]. by rewrite E4, andb_true_r.
  - done.
Qed.
End rep.

(** ** Two schedules that go wrong *)

Definition demo_pipe : pipe := Pipe (replicate 512 0) (2 ^ 32 - 1) (2 ^ 32 - 1) true true.
Definition demo_user : gmap Z Z := list_to_map [(100, 65); (101, 66); (102, 67); (200, 0); (201, 0)].

(** When another process kills the writer between two iterations,
    [pipewrite] returns -1 without the wake-up for the bytes it has written:
    the reader sleeps on although the pipe holds a byte. *)
Theorem pipewrite_killed_lost_wakeup :
  let s := PSys demo_pipe false demo_user [(7, ChRead)] in
  match pipewrite 8 100 2 (λ i, i =? 1) s with
  | Ret (r, s') => r = Done (-1) ∧ asleep s' = [(7, ChRead)] ∧ nread (pi s') ≠ nwrite (pi s')
  | _ => False
  end.
Proof. vm_compute. split_and!; congruence. Qed.

(** [piperead] takes a byte off the ring before [copyout] and does not put
    it back when [copyout] fails: the byte is lost. *)
Theorem piperead_copyout_loses :
  let s := PSys demo_pipe false demo_user [] in
  match (pipewrite 8 100 2 (λ _, false) ;; piperead 9 300 1 false) s with
  | Ret (r, s') =>
      r = Done 0 ∧
      match piperead 9 200 2 false s' with
      | Ret (r', s'') => r' = Done 1 ∧ pu s'' !! 200 = Some 66
      | _ => False
      end
  | _ => False
  end.
Proof. vm_compute. split_and!; reflexivity. Qed.

(** ** Witnesses *)

Definition state_of {A} (o : outcome (A * psys (gmap Z Z))) (d : psys (gmap Z Z)) :=
  match o with Ret (_, s) => s | _ => d end.
Definition demo0 : psys (gmap Z Z) := PSys demo_pipe false demo_user [].
Definition demo1 := state_of (pipewrite 8 100 3 (λ _, false) demo0) demo0.

Lemma demo_rep : pipe_rep demo_pipe [].
Proof. by split. Qed.

Definition demo1b := state_of (piperead 9 300 2 false demo1) demo1.
Definition demo2b := state_of (piperead 9 200 1 false demo1b) demo1b.

(** Three bytes written, the first dropped by a read to an address that is not
    mapped, the second read, the third still in the ring. *)
Lemma pipe_fifo_witness :
  pipe_trace demo2b [65; 66; 67] [None; Some 66] ∧
  ∃ taken q, [65; 66; 67] = taken ++ q ∧ received [None; Some 66] taken ∧ pipe_rep (pi demo2b) q.
Proof.
  assert (pipe_trace demo2b ([] ++ [65; 66; 67]) (([] ++ (Some <$> []) ++ replicate 1 None) ++ (Some <$> [66]) ++ replicate 0 None)) as Ht.
  { apply (trace_read demo1b _ _ 9 200 1 false 1).
    - apply (trace_read demo1 _ _ 9 300 2 false 0).
      + eapply (trace_write demo0 _ _ 8 100 (λ _, false) 3 0 (Done 3)).
        * apply trace_open, demo_rep.
        * vm_compute. reflexivity.
        * intros [|[|[|j]]] b Hb; vm_compute in Hb |- *; congruence.
        * vm_compute. reflexivity.
      + lia.
      + vm_compute. reflexivity.
      + intros j b Hb. by rewrite lookup_nil in Hb.
      + reflexivity.
      + vm_compute. reflexivity.
    - lia.
    - vm_compute. reflexivity.
    - intros [|j] b Hb; vm_compute in Hb |- *; congruence.
    - reflexivity.
    - vm_compute. reflexivity. }
  split; [exact Ht|]. destruct (pipe_fifo _ _ _ Ht) as (taken & q & E & Hg & Hr & _). by exists taken, q.
Defined.

Definition demo3 := state_of (piperead 9 200 2 false demo0) demo0.
Definition demo4 := state_of (pipewrite 8 100 3 (λ _, false) demo3) demo3.

Definition demo5 := state_of (pipewrite 8 100 2 (λ i, i =? 1) demo3) demo3.

(** A reader falls asleep and is woken by a write; had the write been killed after
    its first byte, the reader would sleep on. *)
Lemma pipe_no_lost_wakeup_witness :
  pipe_run demo0 demo4 false ∧ pipe_run demo0 demo5 true ∧ asleep demo5 = [(9, ChRead)] ∧
  ∃ q, pipe_rep (pi demo4) q ∧ ∀ pid, (pid, ChRead) ∈ asleep demo4 → q = [] ∧ writeopen (pi demo4) = true.
Proof.
  assert (pipe_run demo0 demo3 false) as H3.
  { apply (run_read _ demo0 _ 9 200 2 false (Sleeping 0)); [apply run_start|lia|vm_compute; reflexivity]. }
  assert (pipe_run demo0 demo4 false) as H4.
  { apply (run_write _ demo3 false 8 100 (λ _, false) 3 0 (Done 3)); [exact H3|lia|vm_compute; reflexivity]. }
  split; [exact H4|]. split; [|split; [vm_compute; reflexivity|]].
  - apply (run_write _ demo3 false 8 100 (λ i, i =? 1) 2 0 (Done (-1))); [exact H3|lia|vm_compute; reflexivity].
  - destruct (pipe_no_lost_wakeup demo0 demo4 false demo_rep eq_refl H4) as (q & Hr & _ & HR).
    exists q. split; [exact Hr|]. exact (HR eq_refl).
Defined.
