(* ===== verification/BlockCache.v ===== *)
(** * The contract between the buffer cache and the log

    [kernel/log.c] uses [kernel/bio.c] through [bread], [bwrite], [brelse],
    [bpin] and [bunpin]. [BlockCache] names these operations for one device;
    [BlockCacheSpec] is what they promise, as a refinement of a small abstract
    state: who holds which block, how many references it has, its contents as
    the cache shows them and as the disk stores them, and the writes the disk
    was given so far. [Bio] gives the instance, [Log] is proved against it. *)

From S2P Require Import Prelude.

Abbreviation block := (list Z).
Definition BSIZE : Z := 1024.
Definition FSSIZE : Z := 1500.

(** Updating a function at one block. *)
Lemma fn_insert_at {A} (f : Z → A) n v m : (<[n := v]> f) m = if decide (m = n) then v else f m.
Proof. case_decide as Hm; [subst m; apply fn_lookup_insert|apply fn_lookup_insert_ne; congruence]. Qed.

Record astate (B : Type) := AState {
  a_refs : Z → Z;
  a_held : Z → option B;
  a_view : Z → block;
  a_disk : Z → block;
  a_avail : Z;
  a_hist : list (Z * block);
}.
Arguments AState {B}.
Arguments a_refs {B}. Arguments a_held {B}. Arguments a_view {B}.
Arguments a_disk {B}. Arguments a_avail {B}. Arguments a_hist {B}.

(** Two abstract states that show the same of every block. *)
#[global] Instance astate_equiv B : Equiv (astate B) := λ a a',
  (∀ n, a_refs a n = a_refs a' n) ∧ (∀ n, a_held a n = a_held a' n) ∧
  (∀ n, a_view a n = a_view a' n) ∧ (∀ n, a_disk a n = a_disk a' n) ∧
  a_avail a = a_avail a' ∧ a_hist a = a_hist a'.
#[global] Instance astate_equivalence B : Equivalence (≡@{astate B}).
Proof.
  split.
  - done.
  - intros a a' (?&?&?&?&?&?). split_and!; done.
  - intros a1 a2 a3 (H1&H2&H3&H4&H5&H6) (?&?&?&?&?&?).
    split_and!; intros; rewrite ?H1, ?H2, ?H3, ?H4, ?H5, ?H6; done.
Qed.

Section astate.
Context {B : Type}.
Implicit Types a : astate B.

(** A buffer can be had: the block has one, or one is free. *)
Definition a_room (n : Z) (a : astate B) : Prop :=
  0 < a_refs a n < 2 ^ 32 - 1 ∨ a_refs a n = 0 ∧ 0 < a_avail a.
Definition a_read (n : Z) (b : B) (a : astate B) : astate B :=
  AState (<[n := a_refs a n + 1]> (a_refs a)) (<[n := Some b]> (a_held a)) (a_view a) (a_disk a)
    (if a_refs a n =? 0 then a_avail a - 1 else a_avail a) (a_hist a).
Definition a_store (n : Z) (d : block) (a : astate B) : astate B :=
  AState (a_refs a) (a_held a) (<[n := d]> (a_view a)) (a_disk a) (a_avail a) (a_hist a).
Definition a_write (n : Z) (a : astate B) : astate B :=
  AState (a_refs a) (a_held a) (a_view a) (<[n := a_view a n]> (a_disk a)) (a_avail a)
    (a_hist a ++ [(n, a_view a n)]).
Definition a_release (n : Z) (a : astate B) : astate B :=
  AState (<[n := a_refs a n - 1]> (a_refs a)) (<[n := None]> (a_held a)) (a_view a) (a_disk a)
    (if a_refs a n =? 1 then a_avail a + 1 else a_avail a) (a_hist a).
Definition a_pin (n : Z) (a : astate B) : astate B :=
  AState (<[n := a_refs a n + 1]> (a_refs a)) (a_held a) (a_view a) (a_disk a) (a_avail a) (a_hist a).
Definition a_unpin (n : Z) (a : astate B) : astate B :=
  AState (<[n := a_refs a n - 1]> (a_refs a)) (a_held a) (a_view a) (a_disk a) (a_avail a) (a_hist a).
End astate.

(** Reading a function at the blocks it was updated at. *)
Ltac fn_simpl :=
  repeat first [rewrite fn_lookup_insert | rewrite fn_lookup_insert_ne by congruence].

(** Two expressions of the same abstract state. *)
Ltac same_state :=
  split_and!; intros; cbn; rewrite ?fn_insert_at; repeat case_decide; subst;
  rewrite ?decide_True, ?decide_False by (done || congruence);
  repeat match goal with |- context [?x =? ?y] => destruct (Z.eqb_spec x y) end;
  try done; try lia.

Class BlockCache (S B : Type) := {
  bc_read : Z → M S B;
  bc_data : B → M S block;
  bc_store : B → block → M S ();
  bc_write : B → M S ();
  bc_release : B → M S ();
  bc_pin : B → M S ();
  bc_unpin : B → M S ();
}.

Class BlockCacheSpec (S B : Type) `{BlockCache S B} := {
  bc_rep : S → astate B → Prop;
  bc_rep_proper :: Proper ((=) ==> (≡) ==> iff) bc_rep;
  bc_rep_block s a n : bc_rep s a → 0 <= n < FSSIZE →
    Z.of_nat (length (a_view a n)) = BSIZE ∧ Z.of_nat (length (a_disk a n)) = BSIZE;
  bc_rep_clean s a n :
    bc_rep s a → 0 <= n < FSSIZE → a_refs a n = 0 → a_view a n = a_disk a n;
  bc_rep_held s a n b : bc_rep s a → a_held a n = Some b → 0 <= n < FSSIZE ∧ 0 < a_refs a n < 2 ^ 32;
  bc_read_ok s a n :
    bc_rep s a → 0 <= n < FSSIZE → a_held a n = None → a_room n a →
    ∃ b s', bc_read n s = Ret (b, s') ∧ bc_rep s' (a_read n b a);
  bc_data_ok s a n b :
    bc_rep s a → a_held a n = Some b → bc_data b s = Ret (a_view a n, s);
  bc_store_ok s a n b d :
    bc_rep s a → a_held a n = Some b → Z.of_nat (length d) = BSIZE →
    ∃ s', bc_store b d s = Ret ((), s') ∧ bc_rep s' (a_store n d a);
  bc_write_ok s a n b :
    bc_rep s a → a_held a n = Some b →
    ∃ s', bc_write b s = Ret ((), s') ∧ bc_rep s' (a_write n a);
  bc_release_ok s a n b :
    bc_rep s a → a_held a n = Some b → (a_refs a n = 1 → a_view a n = a_disk a n) →
    ∃ s', bc_release b s = Ret ((), s') ∧ bc_rep s' (a_release n a);
  bc_pin_ok s a n b :
    bc_rep s a → a_held a n = Some b → a_refs a n < 2 ^ 32 - 1 →
    ∃ s', bc_pin b s = Ret ((), s') ∧ bc_rep s' (a_pin n a);
  bc_unpin_ok s a n b :
    bc_rep s a → a_held a n = Some b → 1 < a_refs a n →
    ∃ s', bc_unpin b s = Ret ((), s') ∧ bc_rep s' (a_unpin n a);
}.
