(* ===== verification/Bio.v ===== *)
(** * The buffer cache: [kernel/bio.c], [kernel/ramdisk.c], [kernel/sleeplock.c]

    Buffers are the elements of a list; the element [HEAD], after the [NBUF]
    buffers, is [bcache.head], and [prev] and [next] are indices into the list.
    The critical sections under [bcache.lock] are atomic; an attempt to take a
    sleep lock that is held is [Block].

    The ramdisk image is a list of blocks; the routines of the SD card driver
    are behind the class [SdCard]. The device also keeps the history of the
    writes it was given, which is what a crash is about. *)
From S2P Require Import Prelude BlockCache.

Class SdCard (D : Type) := {
  sd_read_ext2 : Z → list Z → D → Z * list Z;
  sd_write_ext2 : Z → list Z → D → Z * D;
}.

Definition NBUF : nat := 30.
Definition HEAD : nat := NBUF.
Definition SDCARD : Z := 7.
Definition ROOTDEV : Z := 1.

Record buf := Buf {
  valid : bool;
  dev : Z;
  blockno : Z;
  b_locked : bool;
  b_pid : Z;
  refcnt : Z;
  prev : nat;
  next : nat;
  data : block;
}.
Definition set_valid v b := Buf v (dev b) (blockno b) (b_locked b) (b_pid b) (refcnt b) (prev b) (next b) (data b).
Definition set_key d n b := Buf (valid b) d n (b_locked b) (b_pid b) (refcnt b) (prev b) (next b) (data b).
Definition set_lock l p b := Buf (valid b) (dev b) (blockno b) l p (refcnt b) (prev b) (next b) (data b).
Definition set_refcnt r b := Buf (valid b) (dev b) (blockno b) (b_locked b) (b_pid b) r (prev b) (next b) (data b).
Definition set_prev p b := Buf (valid b) (dev b) (blockno b) (b_locked b) (b_pid b) (refcnt b) p (next b) (data b).
Definition set_next n b := Buf (valid b) (dev b) (blockno b) (b_locked b) (b_pid b) (refcnt b) (prev b) n (data b).
Definition set_data d b := Buf (valid b) (dev b) (blockno b) (b_locked b) (b_pid b) (refcnt b) (prev b) (next b) d.

(** A buffer without its links. *)
Record cbuf := CBuf {
  c_valid : bool;
  c_dev : Z;
  c_blockno : Z;
  c_locked : bool;
  c_pid : Z;
  c_refcnt : Z;
  c_data : block;
}.

Section bio.
Context {D : Type} `{SdCard D}.

Record bsys := BSys {
  bufs : list buf;
  ramdisk : list block;
  sd : D;
  dwrites : list (Z * block);
}.
Definition set_bufs (l : list buf) (s : bsys) : bsys := BSys l (ramdisk s) (sd s) (dwrites s).
Definition set_sd (d : D) (s : bsys) : bsys := BSys (bufs s) (ramdisk s) d (dwrites s).

Definition getb (i : nat) : M bsys buf := o ← gets (λ s, bufs s !! i); oget o.
Definition updb (i : nat) (f : buf → buf) : M bsys () :=
  _ ← getb i; modify (λ s, set_bufs (alter f i (bufs s)) s).

(** *** Sleep locks *)

Definition acquiresleep (pid : Z) (i : nat) : M bsys () :=
  b ← getb i;
  if b_locked b then would_block else updb i (set_lock true pid).
Definition releasesleep (i : nat) : M bsys () := updb i (set_lock false 0).
Definition holdingsleep (pid : Z) (i : nat) : M bsys bool :=
  b ← getb i; mret (b_locked b && (b_pid b =? pid)).

(** *** The ramdisk *)

Definition ramdiskrw (pid : Z) (i : nat) (write : bool) : M bsys () :=
  h ← holdingsleep pid i;
  if negb h then panic "ramdiskrw: buf not locked" else
  b ← getb i;
  if FSSIZE <=? blockno b then panic "ramdiskrw: blockno too big" else
  old ← gets (λ s, ramdisk s !! Z.to_nat (blockno b));
  blk ← oget old;
  if write then
    modify (λ s, BSys (bufs s) (<[Z.to_nat (blockno b) := data b]> (ramdisk s)) (sd s)
      (dwrites s ++ [(blockno b, data b)]))
  else updb i (set_data blk).

(** *** The list of buffers *)

(** Unlinking a buffer, and linking one right after the head. *)
Definition unlink (i : nat) : M bsys () :=
  b ← getb i; updb (next b) (set_prev (prev b)) ;;
  b ← getb i; updb (prev b) (set_next (next b)).
Definition push_front (i : nat) : M bsys () :=
  h ← getb HEAD; updb i (set_next (next h)) ;;
  updb i (set_prev HEAD) ;;
  h ← getb HEAD; updb (next h) (set_prev i) ;;
  updb HEAD (set_next i).

Fixpoint binit_loop (i n : nat) : M bsys () :=
  match n with
  | O => mret ()
  | S n => updb i (set_lock false 0) ;; push_front i ;; binit_loop (S i) n
  end.
Definition binit : M bsys () :=
  updb HEAD (set_prev HEAD) ;; updb HEAD (set_next HEAD) ;; binit_loop 0 NBUF.

(** The two walks of [bget]: forward for a buffer of the block, backward for
    one without references. *)
Fixpoint walk (fuel : nat) (dir : buf → nat) (p : buf → bool) (i : nat) : M bsys (option nat) :=
  if bool_decide (i = HEAD) then mret None else
  b ← getb i;
  if p b then mret (Some i) else
  match fuel with
  | O => out_of_fuel
  | S fuel => walk fuel dir p (dir b)
  end.

Definition is_block (d n : Z) (b : buf) : bool := (dev b =? d) && (blockno b =? n).

(** The critical section of [bget]. *)
Definition bget_find (d n : Z) : M bsys nat :=
  h ← getb HEAD;
  r ← walk NBUF next (is_block d n) (next h);
  match r with
  | Some i => b ← getb i; updb i (set_refcnt (u32 (refcnt b + 1))) ;; mret i
  | None =>
      h ← getb HEAD;
      r ← walk NBUF prev (λ b, refcnt b =? 0) (prev h);
      match r with
      | Some i =>
          updb i (set_key d n) ;; updb i (set_valid false) ;; updb i (set_refcnt 1) ;; mret i
      | None => panic "bget: no buffers"
      end
  end.
Definition bget (pid d n : Z) : M bsys nat :=
  i ← bget_find d n; acquiresleep pid i ;; mret i.

Definition bread (pid d n : Z) : M bsys nat :=
  i ← bget pid d n;
  b ← getb i;
  (if valid b then mret () else
     (if d =? SDCARD then
        c ← gets sd; updb i (set_data (sd_read_ext2 n (data b) c).2)
      else ramdiskrw pid i false) ;;
     updb i (set_valid true)) ;;
  mret i.

Definition bwrite (pid : Z) (i : nat) : M bsys () :=
  h ← holdingsleep pid i;
  if negb h then panic "bwrite" else
  b ← getb i;
  if dev b =? SDCARD
  then modify (λ s, set_sd (sd_write_ext2 (blockno b) (data b) (sd s)).2 s)
  else ramdiskrw pid i true.

Definition bput (i : nat) : M bsys () :=
  b ← getb i;
  updb i (set_refcnt (u32 (refcnt b - 1))) ;;
  b ← getb i;
  if refcnt b =? 0 then unlink i ;; push_front i else mret ().
Definition brelse (pid : Z) (i : nat) : M bsys () :=
  h ← holdingsleep pid i;
  if negb h then panic "brelse" else
  releasesleep i ;; bput i.

Definition bpin (i : nat) : M bsys () :=
  b ← getb i; updb i (set_refcnt (u32 (refcnt b + 1))).
Definition bunpin (i : nat) : M bsys () :=
  b ← getb i; updb i (set_refcnt (u32 (refcnt b - 1))).

(** A client's store to [b->data], with the lock held. *)
Definition bstore (i : nat) (d : block) : M bsys () := updb i (set_data d).

(** ** The doubly linked list *)

Fixpoint path (f : nat → option nat) (x : nat) (o : list nat) (y : nat) : Prop :=
  match o with
  | [] => f x = Some y
  | z :: o => f x = Some z ∧ path f z o y
  end.
Definition nx (l : list buf) (i : nat) : option nat := next <$> l !! i.
Definition pv (l : list buf) (i : nat) : option nat := prev <$> l !! i.

(** [o] is the list from [head.next] to [head.prev], most recent first. *)
Record dll (l : list buf) (o : list nat) : Prop := {
  dll_next : path (nx l) HEAD o HEAD;
  dll_prev : path (pv l) HEAD (rev o) HEAD;
  dll_nodup : NoDup (HEAD :: o);
}.

(** What the list does not change: a buffer without its links. *)
Definition core (b : buf) : cbuf :=
  CBuf (valid b) (dev b) (blockno b) (b_locked b) (b_pid b) (refcnt b) (data b).

(** The cache as its users see it: the order of the buffers, and their
    contents. *)
Record rep (s : bsys) (o : list nat) (cs : list cbuf) : Prop := {
  rep_len : length (bufs s) = S NBUF;
  rep_dll : dll (bufs s) o;
  rep_perm : o ≡ₚ seq 0 NBUF;
  rep_core : core <$> take NBUF (bufs s) = cs;
}.

End bio.
Arguments bsys D : clear implicits.

(** ** Paths *)

(** The node a path from [x] through [o] ends with. *)
Fixpoint endof (x : nat) (o : list nat) : nat :=
  match o with [] => x | z :: o => endof z o end.

Section path.
Implicit Types f g : nat → option nat.

Lemma path_ext f g x o y : (∀ z, z ∈ x :: o → f z = g z) → path f x o y → path g x o y.
Proof.
  revert x. induction o as [|z o IH]; intros x He; cbn [path]; [by rewrite He by left|].
  rewrite He by left. intros [? ?]. split; [done|]. apply IH; [|done].
  intros w Hw. apply He. by right.
Qed.

Lemma path_app f x o1 z o2 y :
  path f x (o1 ++ z :: o2) y ↔ path f x o1 z ∧ path f z o2 y.
Proof. revert x. induction o1 as [|w o1 IH]; intros x; cbn [path app]; [done|]. rewrite IH. tauto. Qed.

Lemma path_last f x o y : path f x o y → f (endof x o) = Some y.
Proof.
  revert x. induction o as [|z o IH]; intros x; cbn [path]; [done|].
  intros [_ Hp]. by apply IH.
Qed.

Lemma endof_snoc x o z : endof x (o ++ [z]) = z.
Proof. revert x. induction o as [|w o IH]; intros x; simpl; auto. Qed.

Lemma endof_in (x : nat) o : endof x o ∈ x :: o.
Proof. revert x. induction o as [|w o IH]; intros x; [by left|]. right. apply IH. Qed.

(** Sending the last node elsewhere. *)
Lemma path_redirect f g x o y y' :
  NoDup (x :: o) → (∀ z, z ∈ x :: o → z ≠ endof x o → g z = f z) → g (endof x o) = Some y' →
  path f x o y → path g x o y'.
Proof.
  revert x. induction o as [|z o IH]; intros x Hn Hg Hl; cbn [path]; [done|].
  intros [Hx Hp]. apply NoDup_cons in Hn as [Hni Hn].
  split; [|apply IH; auto; intros w ? ?; apply Hg; [by right|done]].
  rewrite Hg; [done|by left|]. intros Heq. apply Hni. rewrite Heq. apply (endof_in z).
Qed.

Lemma path_unlink f g h o1 i o2 :
  NoDup (h :: o1 ++ i :: o2) →
  (∀ z, z ≠ endof h o1 → g z = f z) → g (endof h o1) = f i →
  path f h (o1 ++ i :: o2) h → path g h (o1 ++ o2) h.
Proof.
  intros Hn Hg Hl [H1 H2]%path_app.
  assert (NoDup (h :: o1)) as Hn1.
  { change (h :: o1 ++ i :: o2) with ((h :: o1) ++ i :: o2) in Hn. by apply NoDup_app in Hn as [? _]. }
  destruct o2 as [|n o2]; cbn [path] in H2.
  - rewrite app_nil_r. by apply (path_redirect f g h o1 i); [|auto|rewrite Hl|].
  - destruct H2 as [Hi H2]. apply path_app. split.
    + by apply (path_redirect f g h o1 i); [|auto|rewrite Hl|].
    + eapply path_ext; [|done]. intros z Hz. symmetry. apply Hg. intros ->.
      change (h :: o1 ++ i :: n :: o2) with ((h :: o1) ++ i :: n :: o2) in Hn.
      apply NoDup_app in Hn as (_ & Hd & _). apply (Hd (endof h o1)); [|by right]. apply endof_in.
Qed.

Lemma path_push f g h o i :
  i ≠ h → i ∉ o → h ∉ o → g i = f h → g h = Some i → (∀ z, z ≠ i → z ≠ h → g z = f z) →
  path f h o h → path g h (i :: o) h.
Proof.
  intros Hi Ho Hh Hgi Hgh Hg. destruct o as [|z o]; cbn [path]; [by intros <-|].
  intros [Hz Hp]. split_and!; [done|by rewrite Hgi|]. eapply path_ext; [|done].
  intros w Hw. symmetry. apply Hg; by intros ->.
Qed.

(** The head's successor is the last node of the reversed list. *)
Lemma path_head f h o : path f h o h → f h = Some (endof h (rev o)).
Proof. destruct o as [|z o]; [done|]. intros [-> _]. simpl. by rewrite endof_snoc. Qed.

Lemma rev_NoDup (h : nat) (o : list nat) : NoDup (h :: o) → NoDup (h :: rev o).
Proof. by rewrite <- Permutation_rev. Qed.
End path.

(** ** The list operations on the buffers *)

Section dll.
Context {D : Type} `{SdCard D}.
Implicit Types (l : list buf) (s : bsys D) (o : list nat).

Lemma getb_run s i b : bufs s !! i = Some b → getb i s = Ret (b, s).
Proof. intros E. unfold getb. erewrite bind_Ret by done. by rewrite E. Qed.

Lemma updb_run s i f b :
  bufs s !! i = Some b → updb i f s = Ret ((), set_bufs (alter f i (bufs s)) s).
Proof. intros E. unfold updb. by rewrite (bind_Ret _ _ _ _ _ (getb_run _ _ _ E)). Qed.

Lemma updb_ok s i f :
  (i < length (bufs s))%nat → updb i f s = Ret ((), set_bufs (alter f i (bufs s)) s).
Proof. intros Hi. destruct (lookup_lt_is_Some_2 _ _ Hi) as [b Hb]. by eapply updb_run. Qed.

Lemma nx_alter l i f j :
  nx (alter f i l) j = if decide (j = i) then next <$> (f <$> l !! i) else nx l j.
Proof.
  unfold nx. case_decide as Hj; [subst j; by rewrite list_lookup_alter_eq|].
  by rewrite list_lookup_alter_ne.
Qed.
Lemma pv_alter l i f j :
  pv (alter f i l) j = if decide (j = i) then prev <$> (f <$> l !! i) else pv l j.
Proof.
  unfold pv. case_decide as Hj; [subst j; by rewrite list_lookup_alter_eq|].
  by rewrite list_lookup_alter_ne.
Qed.
Lemma core_alter l i f : (∀ b, core (f b) = core b) → core <$> alter f i l = core <$> l.
Proof.
  intros Hf. apply list_eq. intros j. rewrite !list_lookup_fmap.
  destruct (decide (j = i)) as [->|]; [rewrite list_lookup_alter_eq|by rewrite list_lookup_alter_ne].
  destruct (l !! i); [|done]. simpl. by rewrite Hf.
Qed.

(** An update of the contents of a buffer keeps the list. *)
Lemma dll_alter l o i f :
  (∀ b, next (f b) = next b ∧ prev (f b) = prev b) → dll l o → dll (alter f i l) o.
Proof.
  intros Hf []. constructor; [| |done].
  - eapply path_ext; [|done]. intros z _. rewrite nx_alter. case_decide as Hz; [subst z|done].
    unfold nx. destruct (l !! i); [|done]. simpl. by rewrite (proj1 (Hf _)).
  - eapply path_ext; [|done]. intros z _. rewrite pv_alter. case_decide as Hz; [subst z|done].
    unfold pv. destruct (l !! i); [|done]. simpl. by rewrite (proj2 (Hf _)).
Qed.

Lemma lookup_in_bounds l i : length l = S NBUF → (i <= NBUF)%nat → ∃ b, l !! i = Some b.
Proof. intros Hl Hi. apply lookup_lt_is_Some_2. lia. Qed.

Lemma last_bound o : Forall (λ j, (j < NBUF)%nat) o → (endof HEAD o <= NBUF)%nat.
Proof.
  intros Ho. rewrite Forall_forall in Ho.
  pose proof (endof_in HEAD o) as [->|Hin]%elem_of_cons; [done|]. by apply Nat.lt_le_incl, Ho.
Qed.

Lemma unlink_run s o1 i o2 :
  length (bufs s) = S NBUF → Forall (λ j, (j < NBUF)%nat) (o1 ++ i :: o2) →
  dll (bufs s) (o1 ++ i :: o2) →
  ∃ l, unlink i s = Ret ((), set_bufs l s) ∧ core <$> l = core <$> bufs s ∧ dll l (o1 ++ o2).
Proof.
  intros Hl Ho [Hn Hp Hd]. pose proof Ho as [Ho1 [Hi Ho2]%Forall_cons]%Forall_app.
  destruct (lookup_in_bounds _ i Hl ltac:(lia)) as [b Hb].
  assert (next b = endof HEAD (rev o2)) as Hnb.
  { apply path_app in Hn as [_ Hn]. assert (nx (bufs s) i = Some (next b)) as E by (unfold nx; by rewrite Hb).
    destruct o2 as [|n o2]; cbn [path] in Hn; [rewrite E in Hn; by injection Hn|].
    destruct Hn as [Hn _]. simpl. rewrite endof_snoc. congruence. }
  assert (prev b = endof HEAD o1) as Hpb.
  { rewrite rev_app_distr in Hp. simpl in Hp. rewrite <- app_assoc in Hp. simpl in Hp.
    apply path_app in Hp as [_ Hp]. assert (pv (bufs s) i = Some (prev b)) as E by (unfold pv; by rewrite Hb).
    destruct (rev o1) as [|n r] eqn:Er; cbn [path] in Hp.
    - apply (f_equal (@rev _)) in Er. rewrite rev_involutive in Er. subst o1. simpl. congruence.
    - apply (f_equal (@rev _)) in Er. rewrite rev_involutive in Er. subst o1. simpl.
      rewrite endof_snoc. destruct Hp. congruence. }
  destruct (lookup_in_bounds _ (next b) Hl) as [bn Hbn].
  { rewrite Hnb. apply last_bound, Forall_rev, Ho2. }
  unfold unlink. rewrite (bind_Ret _ _ _ _ _ (getb_run _ _ _ Hb)).
  rewrite (bind_Ret _ _ _ _ _ (updb_run _ _ _ _ Hbn)).
  set (l1 := alter (set_prev (prev b)) (next b) (bufs s)).
  assert (length l1 = S NBUF) as Hl1 by (subst l1; by rewrite length_alter).
  destruct (lookup_in_bounds l1 i Hl1 ltac:(lia)) as [b1 Hb1].
  assert (next b1 = next b ∧ prev b1 = prev b) as [En1 Ep1].
  { subst l1. destruct (decide (i = next b)) as [E|].
    - rewrite <- E, list_lookup_alter_eq, Hb in Hb1. injection Hb1 as <-. by rewrite <- E.
    - rewrite list_lookup_alter_ne, Hb in Hb1 by congruence. by injection Hb1 as <-. }
  rewrite (bind_Ret _ _ _ _ _ (getb_run (set_bufs l1 s) _ _ Hb1)). rewrite Ep1, En1.
  destruct (lookup_in_bounds l1 (prev b) Hl1) as [bp Hbp].
  { rewrite Hpb. by apply last_bound. }
  rewrite (updb_run (set_bufs l1 s) _ _ _ Hbp). eexists. split; [done|].
  cbn [set_bufs bufs]. split; [rewrite core_alter by done; by apply core_alter|].
  constructor.
  - apply (path_unlink (nx (bufs s)) _ HEAD o1 i o2); [done| | |done].
    + intros z Hz. rewrite nx_alter, decide_False by congruence. subst l1. rewrite nx_alter.
      case_decide as Hzn; [subst z|done]. unfold nx. by rewrite Hbn.
    + rewrite nx_alter, decide_True by congruence. rewrite Hbp. simpl. unfold nx. by rewrite Hb.
  - rewrite rev_app_distr. apply (path_unlink (pv (bufs s)) _ HEAD (rev o2) i (rev o1)).
    + rewrite rev_app_distr in Hp. simpl in Hp.
      apply rev_NoDup in Hd. rewrite rev_app_distr in Hd. simpl in Hd. by rewrite <- app_assoc in Hd.
    + intros z Hz. rewrite pv_alter. subst l1. case_decide as Hzp.
      * subst z. rewrite list_lookup_alter_ne by congruence. unfold pv. by destruct (bufs s !! prev b).
      * by rewrite pv_alter, decide_False by congruence.
    + rewrite pv_alter. subst l1. case_decide as Hzp.
      * assert (prev b = next b) as E by congruence. rewrite E, list_lookup_alter_eq, Hbn. simpl.
        unfold pv. by rewrite Hb, <- E.
      * rewrite pv_alter, decide_True by congruence. rewrite Hbn. simpl. unfold pv. by rewrite Hb.
    + rewrite rev_app_distr in Hp. simpl in Hp. by rewrite <- app_assoc in Hp.
  - change (HEAD :: o1 ++ o2) with ((HEAD :: o1) ++ o2).
    change (HEAD :: o1 ++ i :: o2) with ((HEAD :: o1) ++ i :: o2) in Hd.
    rewrite <- Permutation_middle in Hd. by apply NoDup_cons in Hd as [_ Hd].
Qed.

Lemma push_front_run s o i :
  length (bufs s) = S NBUF → Forall (λ j, (j < NBUF)%nat) (i :: o) → i ∉ o → dll (bufs s) o →
  ∃ l, push_front i s = Ret ((), set_bufs l s) ∧ core <$> l = core <$> bufs s ∧ dll l (i :: o).
Proof.
  intros Hl [Hi Ho]%Forall_cons Hio [Hn Hp Hd].
  pose proof Hd as [Hhd Hod]%NoDup_cons.
  assert (i ≠ HEAD) as Hih by (unfold HEAD; lia).
  pose proof (path_head _ _ _ Hn) as Hhead. set (e := endof HEAD (rev o)) in *.
  assert (e <= NBUF)%nat as He by (apply last_bound, Forall_rev, Ho).
  assert (e ≠ i) as Hei.
  { pose proof (endof_in HEAD (rev o)) as Hin. fold e in Hin. intros ->.
    apply elem_of_cons in Hin as [?|Hin]; [done|]. by rewrite <- Permutation_rev in Hin. }
  destruct (lookup_in_bounds _ HEAD Hl ltac:(done)) as [h Hh].
  destruct (lookup_in_bounds _ i Hl ltac:(lia)) as [b Hb].
  destruct (lookup_in_bounds _ e Hl He) as [be Hbe].
  assert (next h = e) as Hne by (unfold nx in Hhead; rewrite Hh in Hhead; by injection Hhead).
  unfold push_front. rewrite (bind_Ret _ _ _ _ _ (getb_run _ _ _ Hh)).
  rewrite (bind_Ret _ _ _ _ _ (updb_run _ _ _ _ Hb)). rewrite Hne.
  erewrite bind_Ret by (apply updb_ok; cbn [set_bufs bufs]; rewrite ?length_alter; lia).
  erewrite bind_Ret by (apply getb_run; cbn [set_bufs bufs]; rewrite !list_lookup_alter_ne by done; exact Hh).
  rewrite Hne.
  erewrite bind_Ret by (apply updb_ok; cbn [set_bufs bufs]; rewrite ?length_alter; lia).
  cbn [set_bufs bufs].
  set (l2 := alter (set_prev HEAD) i (alter (set_next e) i (bufs s))).
  assert (∃ h2, alter (set_prev i) e l2 !! HEAD = Some h2) as [h2 Hh2].
  { apply lookup_in_bounds; [subst l2; rewrite !length_alter; lia|done]. }
  erewrite updb_run by done. eexists. split; [done|]. cbn [set_bufs bufs].
  split; [subst l2; rewrite 3!core_alter by done; by apply core_alter|].
  constructor.
  - apply (path_push (nx (bufs s))); try done.
    + rewrite nx_alter, decide_False, nx_alter, decide_False by congruence. subst l2.
      rewrite nx_alter, decide_True, list_lookup_alter_eq, Hb, Hhead by congruence. done.
    + by rewrite nx_alter, decide_True, Hh2 by congruence.
    + intros z Hz1 Hz2. rewrite nx_alter, decide_False by congruence. rewrite nx_alter.
      subst l2. case_decide as Hze; [subst z; rewrite !list_lookup_alter_ne by congruence|].
      * unfold nx. by rewrite Hbe.
      * by rewrite !nx_alter, !decide_False by congruence.
  - simpl. apply path_app. split; cbn [path].
    + apply (path_redirect (pv (bufs s)) _ _ _ HEAD); [by apply rev_NoDup| | |done]; fold e.
      * intros z Hzin Hz. rewrite pv_alter. case_decide as Hzh.
        -- subst z. rewrite list_lookup_alter_ne by congruence. subst l2.
           rewrite !list_lookup_alter_ne by congruence. unfold pv. by rewrite Hh.
        -- rewrite pv_alter, decide_False by congruence. subst l2. rewrite pv_alter.
           case_decide as Hzi; [subst z|by rewrite pv_alter, decide_False by congruence].
           apply elem_of_cons in Hzin as [?|Hzin]; [done|]. by rewrite <- Permutation_rev in Hzin.
      * rewrite pv_alter. subst l2. case_decide as Hzh.
        -- rewrite <- Hzh, !list_lookup_alter_eq. rewrite !list_lookup_alter_ne, Hbe by congruence. done.
        -- rewrite pv_alter, decide_True, !list_lookup_alter_ne, Hbe by congruence. done.
    + rewrite pv_alter, decide_False by congruence. rewrite pv_alter, decide_False by congruence.
      subst l2. rewrite pv_alter, decide_True, list_lookup_alter_eq, Hb by congruence. done.
  - apply NoDup_cons. rewrite NoDup_cons. split_and!; [|done..].
    rewrite elem_of_cons. intros [?|?]; done.
Qed.

(** ** Running the operations on the two-level representation *)

Lemma rep_order_lt s o cs : rep s o cs → Forall (λ j, (j < NBUF)%nat) o.
Proof. intros []. rewrite rep_perm0. apply Forall_forall. intros j Hj%elem_of_seq. lia. Qed.

Lemma rep_order_in s o cs i : rep s o cs → (i ∈ o ↔ (i < NBUF)%nat).
Proof. intros []. rewrite rep_perm0, elem_of_seq. lia. Qed.

Lemma rep_cs_length s o cs : rep s o cs → length cs = NBUF.
Proof. intros []. rewrite <- rep_core0, length_fmap, length_take. lia. Qed.

Lemma rep_lookup s o cs i c :
  rep s o cs → cs !! i = Some c → ∃ b, bufs s !! i = Some b ∧ core b = c ∧ (i < NBUF)%nat.
Proof.
  intros Hr Hc. pose proof (rep_cs_length _ _ _ Hr). pose proof (lookup_lt_Some _ _ _ Hc).
  destruct Hr. rewrite <- rep_core0, list_lookup_fmap, lookup_take_lt in Hc by lia.
  destruct (bufs s !! i) as [b|]; [|done]. injection Hc as <-. eauto with lia.
Qed.

Lemma rep_getb s o cs i c :
  rep s o cs → cs !! i = Some c → ∃ b, getb i s = Ret (b, s) ∧ core b = c.
Proof.
  intros Hr Hc. destruct (rep_lookup _ _ _ _ _ Hr Hc) as (b & Hb & ? & _).
  exists b. split; [by apply getb_run|done].
Qed.

Lemma take_alter {A} (f : A → A) i n (l : list A) : take n (alter f i l) = alter f i (take n l).
Proof.
  apply list_eq. intros j. destruct (decide (j < n)%nat).
  - rewrite lookup_take_lt by done. destruct (decide (j = i)) as [->|].
    + by rewrite !list_lookup_alter_eq, lookup_take_lt by done.
    + by rewrite !list_lookup_alter_ne, lookup_take_lt by done.
  - rewrite lookup_take_ge by lia. symmetry. apply lookup_ge_None.
    rewrite length_alter, length_take. lia.
Qed.

Lemma alter_ext_lookup {A} (f g : A → A) i x (l : list A) :
  l !! i = Some x → f x = g x → alter f i l = alter g i l.
Proof.
  intros Hx Hf. apply list_eq. intros j. destruct (decide (j = i)) as [->|].
  - rewrite !list_lookup_alter_eq, Hx. simpl. by rewrite Hf.
  - by rewrite !list_lookup_alter_ne.
Qed.

Lemma alter_alter {A} (f g : A → A) i (l : list A) : alter f i (alter g i l) = alter (f ∘ g) i l.
Proof.
  apply list_eq. intros j. destruct (decide (j = i)) as [->|].
  - rewrite !list_lookup_alter_eq. by destruct (l !! i).
  - by rewrite !list_lookup_alter_ne.
Qed.

Lemma filter_out (i : nat) o : i ∉ o → filter (λ j, j ≠ i) o = o.
Proof.
  induction o as [|j o IH]; [done|]. rewrite not_elem_of_cons. intros [Hj Ho].
  rewrite filter_cons_True by done. by rewrite IH.
Qed.

Lemma rep_updb s o cs i f g :
  rep s o cs → (i < NBUF)%nat →
  (∀ b, next (f b) = next b ∧ prev (f b) = prev b ∧ core (f b) = g (core b)) →
  ∃ l, updb i f s = Ret ((), set_bufs l s) ∧ rep (set_bufs l s) o (alter g i cs).
Proof.
  intros [] Hi Hf. eexists. split; [apply updb_ok; lia|]. constructor; cbn [set_bufs bufs].
  - by rewrite length_alter.
  - apply dll_alter; [|done]. intros b. destruct (Hf b) as (? & ? & ?). done.
  - done.
  - rewrite take_alter. subst cs. apply list_eq. intros j. rewrite list_lookup_fmap.
    destruct (decide (j = i)) as [->|].
    + rewrite !list_lookup_alter_eq, list_lookup_fmap. destruct (take _ _ !! i); [|done].
      simpl. f_equal. apply Hf.
    + by rewrite !list_lookup_alter_ne, list_lookup_fmap by done.
Qed.

(** The core of a buffer after each update. *)
Definition cset_valid v c := CBuf v (c_dev c) (c_blockno c) (c_locked c) (c_pid c) (c_refcnt c) (c_data c).
Definition cset_key d n c := CBuf (c_valid c) d n (c_locked c) (c_pid c) (c_refcnt c) (c_data c).
Definition cset_lock (k : bool) p c := CBuf (c_valid c) (c_dev c) (c_blockno c) k p (c_refcnt c) (c_data c).
Definition cset_refcnt r c := CBuf (c_valid c) (c_dev c) (c_blockno c) (c_locked c) (c_pid c) r (c_data c).
Definition cset_data d c := CBuf (c_valid c) (c_dev c) (c_blockno c) (c_locked c) (c_pid c) (c_refcnt c) d.

(** The first buffer of a list of indices that satisfies a predicate. *)
Definition first_such (cs : list cbuf) (p : cbuf → bool) (o : list nat) : option nat :=
  head (filter (λ i, Is_true (match cs !! i with Some c => p c | None => false end)) o).

Lemma first_such_Some cs p o i :
  first_such cs p o = Some i → i ∈ o ∧ ∃ c, cs !! i = Some c ∧ p c = true.
Proof.
  unfold first_such. intros Hh. assert (i ∈ filter (λ i, Is_true (match cs !! i with Some c => p c | None => false end)) o) as Hin.
  { destruct (filter _ _); [done|]. injection Hh as ->. left. }
  apply list_elem_of_filter in Hin as [Hp Hin]. split; [done|].
  destruct (cs !! i) as [c|]; [|done]. exists c. split; [done|]. by apply Is_true_true.
Qed.

Lemma first_such_None cs p o i c :
  first_such cs p o = None → i ∈ o → cs !! i = Some c → p c = false.
Proof.
  unfold first_such. intros Hh Hi Hc. destruct (p c) eqn:E; [|done].
  assert (i ∈ filter (λ i, Is_true (match cs !! i with Some c => p c | None => false end)) o) as Hin.
  { apply list_elem_of_filter. rewrite Hc, E. done. }
  destruct (filter _ _); [by apply elem_of_nil in Hin|done].
Qed.

(** A walk along a path finds the first buffer on it. *)
Lemma walk_run s o cs dir p q : ∀ r fuel i,
  rep s o cs → (∀ b, p b = q (core b)) →
  path (λ i, dir <$> bufs s !! i) i r HEAD → Forall (λ j, (j < NBUF)%nat) (i :: r) →
  (length (i :: r) <= fuel)%nat →
  walk fuel dir p i s = Ret (first_such cs q (i :: r), s).
Proof.
  induction r as [|j r IH]; intros fuel i Hr Hp Hpath [Hi Hj]%Forall_cons Hf;
    destruct fuel as [|fuel]; cbn [length] in Hf; try lia; cbn [walk];
    rewrite bool_decide_false by (unfold HEAD; lia).
  all: pose proof (rep_cs_length _ _ _ Hr) as Hl.
  all: destruct (lookup_lt_is_Some_2 cs i ltac:(lia)) as [c Hc].
  all: destruct (rep_lookup _ _ _ _ _ Hr Hc) as (b & Hb & <- & _).
  all: rewrite (bind_Ret _ _ _ _ _ (getb_run _ _ _ Hb)), Hp.
  all: unfold first_such; rewrite filter_cons; rewrite Hc; cbn [path] in Hpath; rewrite Hb in Hpath.
  - destruct (q (core b)); simpl; [done|]. injection Hpath as ->. by destruct fuel.
  - destruct Hpath as [Hd Hpath]. injection Hd as Hd. destruct (q (core b)); simpl; [done|].
    rewrite Hd. rewrite IH; [done..|cbn [length]; lia].
Qed.

(** *** [bget] and [brelse] on the order *)

Definition c_is (d n : Z) (c : cbuf) : bool := (c_dev c =? d) && (c_blockno c =? n).
Definition c_free (c : cbuf) : bool := c_refcnt c =? 0.

(** The specification of [bget]: the buffer of the block, else the least
    recently used one without references, else none. *)
Definition lru_get (d n : Z) (o : list nat) (cs : list cbuf) : option (nat * list cbuf) :=
  match first_such cs (c_is d n) o with
  | Some i => Some (i, alter (λ c, cset_refcnt (u32 (c_refcnt c + 1)) c) i cs)
  | None =>
      match first_such cs c_free (rev o) with
      | Some i => Some (i, alter (λ c, cset_refcnt 1 (cset_valid false (cset_key d n c))) i cs)
      | None => None
      end
  end.

(** The specification of the end of [brelse]: the last reference gone, the
    buffer becomes the most recently used one. *)
Definition lru_put (i : nat) (o : list nat) (cs : list cbuf) : list nat * list cbuf :=
  match cs !! i with
  | Some c =>
      let r := u32 (c_refcnt c - 1) in
      (if r =? 0 then i :: filter (λ j, j ≠ i) o else o, alter (cset_refcnt r) i cs)
  | None => (o, cs)
  end.

Lemma rep_set_core s o cs l o' :
  rep s o cs → core <$> l = core <$> bufs s → dll l o' → o' ≡ₚ seq 0 NBUF → rep (set_bufs l s) o' cs.
Proof.
  intros [] Hc Hd Hp. constructor; cbn [set_bufs bufs]; try done.
  - apply (f_equal length) in Hc. rewrite !length_fmap in Hc. lia.
  - by rewrite fmap_take, Hc, <- fmap_take.
Qed.

Lemma rep_walk s o cs d n :
  rep s o cs →
  ∃ h, getb HEAD s = Ret (h, s) ∧
    walk NBUF next (is_block d n) (next h) s = Ret (first_such cs (c_is d n) o, s) ∧
    walk NBUF prev (λ b, refcnt b =? 0) (prev h) s = Ret (first_such cs c_free (rev o), s).
Proof.
  intros Hr. pose proof Hr as [Hl [Hn Hp Hd] Hperm Hc].
  pose proof (rep_order_lt _ _ _ Hr) as Ho.
  assert (length o = NBUF) as Hlen by (rewrite Hperm; apply length_seq).
  destruct (lookup_in_bounds _ HEAD Hl ltac:(done)) as [h Hh].
  exists h. split; [by apply getb_run|].
  assert (length (rev o) = NBUF) as Hlenr by (by rewrite length_rev).
  assert (Forall (λ j, (j < NBUF)%nat) (rev o)) as Hor by (by apply Forall_rev).
  destruct o as [|i r]; [done|]. destruct (rev (i :: r)) as [|i' r']; [done|].
  destruct Hn as [Hn Hn']. destruct Hp as [Hp Hp']. unfold nx, pv in Hn, Hp. rewrite Hh in Hn, Hp.
  injection Hn as ->. injection Hp as ->. split.
  - apply (walk_run s (i :: r)); (done || lia).
  - apply (walk_run s (i :: r)); (done || lia).
Qed.

Lemma bget_find_run s o cs d n :
  rep s o cs →
  match lru_get d n o cs with
  | Some (i, cs') => ∃ l, bget_find d n s = Ret (i, set_bufs l s) ∧ rep (set_bufs l s) o cs'
  | None => bget_find d n s = Panic "bget: no buffers"
  end.
Proof.
  intros Hr. destruct (rep_walk s o cs d n Hr) as (h & Eh & E1 & E2).
  unfold bget_find, lru_get. rewrite (bind_Ret _ _ _ _ _ Eh), (bind_Ret _ _ _ _ _ E1).
  destruct (first_such cs (c_is d n) o) as [i|] eqn:Ef.
  - apply first_such_Some in Ef as (Hi & c & Hc & _).
    destruct (rep_lookup _ _ _ _ _ Hr Hc) as (b & Hb & Hbc & Hlt).
    rewrite (bind_Ret _ _ _ _ _ (getb_run _ _ _ Hb)).
    destruct (rep_updb s o cs i (set_refcnt (u32 (refcnt b + 1))) (cset_refcnt (u32 (c_refcnt c + 1))))
      as (l & E & Hr'); [done|done| |].
    { intros b'. subst c. by destruct b'. }
    exists l. rewrite (bind_Ret _ _ _ _ _ E). split; [done|].
    rewrite (alter_ext_lookup _ (cset_refcnt (u32 (c_refcnt c + 1))) i c) by done. done.
  - rewrite (bind_Ret _ _ _ _ _ Eh), (bind_Ret _ _ _ _ _ E2).
    destruct (first_such cs c_free (rev o)) as [i|] eqn:Eg; [|done].
    apply first_such_Some in Eg as (Hi & c & Hc & _).
    destruct (rep_lookup _ _ _ _ _ Hr Hc) as (b & Hb & Hbc & Hlt).
    destruct (rep_updb s o cs i (set_key d n) (cset_key d n)) as (l1 & E1' & Hr1); [done..|].
    destruct (rep_updb _ _ _ i (set_valid false) (cset_valid false) Hr1) as (l2 & E2' & Hr2); [done..|].
    destruct (rep_updb _ _ _ i (set_refcnt 1) (cset_refcnt 1) Hr2) as (l3 & E3' & Hr3); [done..|].
    exists l3. rewrite (bind_Ret _ _ _ _ _ E1'), (bind_Ret _ _ _ _ _ E2'), (bind_Ret _ _ _ _ _ E3').
    split; [done|]. rewrite !alter_alter in Hr3. done.
Qed.

Lemma bput_run s o cs i c :
  rep s o cs → cs !! i = Some c →
  ∃ l, bput i s = Ret ((), set_bufs l s) ∧
    rep (set_bufs l s) (lru_put i o cs).1 (lru_put i o cs).2.
Proof.
  intros Hr Hc. destruct (rep_lookup _ _ _ _ _ Hr Hc) as (b & Hb & Hbc & Hlt).
  unfold bput, lru_put. rewrite Hc. rewrite (bind_Ret _ _ _ _ _ (getb_run _ _ _ Hb)).
  set (r := u32 (c_refcnt c - 1)). assert (u32 (refcnt b - 1) = r) as -> by (by subst r c).
  destruct (rep_updb s o cs i (set_refcnt r) (cset_refcnt r)) as (l1 & E1 & Hr1); [done..|].
  rewrite (bind_Ret _ _ _ _ _ E1).
  assert (alter (cset_refcnt r) i cs !! i = Some (cset_refcnt r c)) as Hc1
    by (by rewrite list_lookup_alter_eq, Hc).
  destruct (rep_getb _ _ _ _ _ Hr1 Hc1) as (b1 & Eb1 & Hb1).
  rewrite (bind_Ret _ _ _ _ _ Eb1). assert (refcnt b1 = r) as ->.
  { change (c_refcnt (core b1) = r). by rewrite Hb1. }
  cbn [fst snd]. destruct (Z.eqb_spec r 0) as [E0|E0]; [|by exists l1].
  assert (i ∈ o) as Hio by (by apply (rep_order_in _ _ _ _ Hr)).
  apply list_elem_of_split in Hio as (o1 & o2 & ->).
  pose proof Hr1 as [Hl1 Hd1 Hp1 _]. pose proof (rep_order_lt _ _ _ Hr1) as Ho.
  destruct (unlink_run _ o1 i o2 Hl1 Ho Hd1) as (l2 & E2 & Hc2 & Hd2).
  pose proof (dll_nodup _ _ Hd1) as [_ Hnd]%NoDup_cons. rewrite <- Permutation_middle in Hnd, Ho.
  apply NoDup_cons in Hnd as [Hni Hnd].
  rewrite (bind_Ret _ _ _ _ _ E2).
  destruct (push_front_run (set_bufs l2 (set_bufs l1 s)) (o1 ++ o2) i) as (l3 & E3 & Hc3 & Hd3).
  { cbn. apply (f_equal length) in Hc2. rewrite !length_fmap in Hc2. cbn in Hc2, Hl1. lia. }
  { done. } { done. } { done. }
  exists l3. split; [done|].
  assert (filter (λ j, j ≠ i) (o1 ++ i :: o2) = o1 ++ o2) as ->.
  { rewrite filter_app, filter_cons_False by (by intros []).
    rewrite !filter_out; [done|..]; intros ?; apply Hni; in_list. }
  apply (rep_set_core (set_bufs l1 s) (o1 ++ i :: o2)); [exact Hr1| |done|].
  - cbn in Hc3. rewrite Hc3. exact Hc2.
  - by rewrite <- Hp1, <- Permutation_middle.
Qed.

(** *** [binit] *)

Lemma binit_loop_run n : ∀ k s,
  (k + n = NBUF)%nat → length (bufs s) = S NBUF → dll (bufs s) (rev (seq 0 k)) →
  ∃ l, binit_loop k n s = Ret ((), set_bufs l s) ∧ dll l (rev (seq 0 NBUF)) ∧ length l = S NBUF ∧
    ∀ j, core <$> l !! j =
      if decide (k <= j < NBUF)%nat then cset_lock false 0 <$> (core <$> bufs s !! j)
      else core <$> bufs s !! j.
Proof.
  induction n as [|n IH]; intros k s Hk Hl Hd; cbn [binit_loop].
  { exists (bufs s). replace NBUF with k by lia. split_and!; [by destruct s|done|lia|].
    intros j. by rewrite decide_False by lia. }
  rewrite (bind_Ret _ _ _ _ _ (updb_ok s k _ ltac:(lia))).
  set (s1 := set_bufs (alter (set_lock false 0) k (bufs s)) s).
  assert (length (bufs s1) = S NBUF) as Hl1 by (subst s1; cbn; rewrite length_alter; lia).
  assert (∀ j, j ∈ rev (seq 0 k) ↔ (j < k)%nat) as Hin.
  { intros j. rewrite <- Permutation_rev, elem_of_seq. lia. }
  destruct (push_front_run s1 (rev (seq 0 k)) k) as (l2 & E2 & Hc2 & Hd2); [done| | | |].
  { constructor; [lia|]. apply Forall_forall. intros j Hj%Hin. lia. }
  { rewrite Hin. lia. }
  { by apply dll_alter. }
  rewrite (bind_Ret _ _ _ _ _ E2).
  destruct (IH (S k) (set_bufs l2 s1)) as (l & E & Hd3 & Hl3 & Hc).
  { lia. }
  { cbn. apply (f_equal length) in Hc2. rewrite !length_fmap in Hc2. lia. }
  { by rewrite seq_S, rev_app_distr. }
  exists l. rewrite E. split_and!; [done..|]. intros j. rewrite Hc. cbn [set_bufs bufs].
  rewrite <- (list_lookup_fmap core l2), Hc2, list_lookup_fmap. subst s1. cbn [set_bufs bufs].
  destruct (decide (j = k)) as [->|Hne].
  - rewrite decide_False, decide_True, list_lookup_alter_eq by lia. by destruct (bufs s !! k).
  - rewrite list_lookup_alter_ne by done.
    destruct (decide (S k <= j < NBUF)%nat), (decide (k <= j < NBUF)%nat); (done || lia).
Qed.

Lemma binit_run s :
  length (bufs s) = S NBUF →
  ∃ l, binit s = Ret ((), set_bufs l s) ∧
    rep (set_bufs l s) (rev (seq 0 NBUF)) (cset_lock false 0 <$> (core <$> take NBUF (bufs s))).
Proof.
  intros Hl. unfold binit. assert (HEAD < S NBUF)%nat as HH by (unfold HEAD; lia).
  rewrite (bind_Ret _ _ _ _ _ (updb_ok s HEAD _ ltac:(lia))).
  erewrite bind_Ret by (apply updb_ok; cbn [set_bufs bufs]; rewrite length_alter; lia).
  cbn [set_bufs bufs].
  match goal with |- context [binit_loop _ _ ?s1] => set (s2 := s1) end.
  destruct (lookup_in_bounds _ HEAD Hl ltac:(done)) as [h Hh].
  destruct (binit_loop_run NBUF 0 s2) as (l & E & Hd & Hl' & Hc); [done| | |].
  { subst s2. cbn. rewrite !length_alter. done. }
  { subst s2. constructor; cbn [path seq rev set_bufs bufs].
    - by rewrite nx_alter, decide_True, list_lookup_alter_eq, Hh.
    - rewrite pv_alter, decide_True, list_lookup_alter_eq, Hh by done. done.
    - apply NoDup_singleton. }
  exists l. rewrite E. split; [done|]. constructor; cbn [set_bufs bufs]; [done|done| |].
  { by rewrite <- Permutation_rev. }
  apply list_eq. intros j. rewrite !list_lookup_fmap. destruct (decide (j < NBUF)%nat).
  - rewrite !lookup_take_lt, Hc, decide_True by lia. subst s2. cbn [set_bufs bufs].
    rewrite !list_lookup_alter_ne by (unfold HEAD; lia). done.
  - by rewrite !lookup_take_ge by lia.
Qed.

(** C16: The doubly linked list implements an LRU list. [binit] makes the list
    of all buffers; [bget] finds the buffer of the block, or else recycles the
    least recently used buffer without references, or else panics; when the
    last reference goes, [brelse] makes the buffer the most recently used. *)
Theorem bcache_lru s o cs :
  (length (bufs s) = S NBUF →
   ∃ s', binit s = Ret ((), s') ∧
     rep s' (rev (seq 0 NBUF)) (cset_lock false 0 <$> (core <$> take NBUF (bufs s)))) ∧
  (rep s o cs →
   (∀ d n, match lru_get d n o cs with
           | Some (i, cs') => ∃ s', bget_find d n s = Ret (i, s') ∧ rep s' o cs'
           | None => bget_find d n s = Panic "bget: no buffers"
           end) ∧
   (∀ i, (i < NBUF)%nat →
      ∃ s', bput i s = Ret ((), s') ∧ rep s' (lru_put i o cs).1 (lru_put i o cs).2)).
Proof.
  split; [|intros Hr; split].
  - intros Hl. destruct (binit_run s Hl) as (l & E & Hr). eauto.
  - intros d n. pose proof (bget_find_run s o cs d n Hr) as H0.
    destruct (lru_get d n o cs) as [[i cs']|]; [|done]. destruct H0 as (l & E & Hr'). eauto.
  - intros i Hi. destruct (lookup_lt_is_Some_2 cs i) as [c Hc].
    { by rewrite (rep_cs_length _ _ _ Hr). }
    destruct (bput_run s o cs i c Hr Hc) as (l & E & Hr'). eauto.
Qed.
End dll.

(** ** The cache for one process: the contract of [BlockCache] *)

Section contract.
Context {D : Type} `{SdCard D} (pid : Z).
Implicit Types (s : bsys D) (o : list nat) (cs : list cbuf) (rd : list block).

#[global] Instance bio_cache : BlockCache (bsys D) nat := {
  bc_read n := bread pid ROOTDEV n;
  bc_data i := b ← getb i; mret (data b);
  bc_store i d := bstore i d;
  bc_write i := bwrite pid i;
  bc_release i := brelse pid i;
  bc_pin i := bpin i;
  bc_unpin i := bunpin i;
}.

(** The invariant of the cache between operations of this process: one buffer
    per block, and an unreferenced buffer agrees with the disk. *)
Record cinv cs rd : Prop := {
  ci_disk : Z.of_nat (length rd) = FSSIZE;
  ci_blocks : Forall (λ b, Z.of_nat (length b) = BSIZE) rd;
  ci_uniq : ∀ i j c c', cs !! i = Some c → cs !! j = Some c' → c_dev c ≠ 0 →
    c_dev c = c_dev c' → c_blockno c = c_blockno c' → i = j;
  ci_ref : ∀ i c, cs !! i = Some c → in_range 32 (c_refcnt c);
  ci_lock : ∀ i c, cs !! i = Some c → c_locked c = true → 0 < c_refcnt c;
  ci_root : ∀ i c, cs !! i = Some c → c_dev c = ROOTDEV →
    0 <= c_blockno c < FSSIZE ∧ (0 < c_refcnt c → c_valid c = true) ∧
    (c_locked c = true → c_pid c = pid) ∧
    (c_valid c = true → Z.of_nat (length (c_data c)) = BSIZE ∧
      (c_refcnt c = 0 → rd !! Z.to_nat (c_blockno c) = Some (c_data c)));
}.

Definition centry cs (n : Z) : option (nat * cbuf) :=
  list_find (λ c, Is_true (c_is ROOTDEV n c)) cs.
Definition crefs cs n : Z := match centry cs n with Some (_, c) => c_refcnt c | None => 0 end.
Definition cheld cs n : option nat :=
  match centry cs n with Some (i, c) => if c_locked c then Some i else None | None => None end.
Definition cview cs rd n : option block :=
  match centry cs n with
  | Some (_, c) => if c_valid c then Some (c_data c) else rd !! Z.to_nat n
  | None => rd !! Z.to_nat n
  end.
Definition cavail cs : Z := Z.of_nat (length (filter (λ c, Is_true (c_free c)) cs)).

Record cobs cs rd (h : list (Z * block)) (a : astate nat) : Prop := {
  co_refs : ∀ n, a_refs a n = crefs cs n;
  co_held : ∀ n, a_held a n = cheld cs n;
  co_view : ∀ n, 0 <= n < FSSIZE → cview cs rd n = Some (a_view a n);
  co_disk : ∀ n, 0 <= n < FSSIZE → rd !! Z.to_nat n = Some (a_disk a n);
  co_avail : a_avail a = cavail cs;
  co_hist : a_hist a = h;
}.
Definition bio_rep s (a : astate nat) : Prop :=
  ∃ o cs, rep s o cs ∧ cinv cs (ramdisk s) ∧ cobs cs (ramdisk s) (dwrites s) a.

Lemma c_is_true d n c : c_is d n c = true ↔ c_dev c = d ∧ c_blockno c = n.
Proof. unfold c_is. lia. Qed.

Lemma centry_Some cs rd n i c :
  cinv cs rd → (centry cs n = Some (i, c) ↔ cs !! i = Some c ∧ c_is ROOTDEV n c = true).
Proof.
  intros Hi. unfold centry. rewrite list_find_Some. split.
  - intros (? & Hc & _). split; [done|]. by apply Is_true_true.
  - intros [Hc Hk]. split_and!; [done|by apply Is_true_true|].
    intros j c' Hj Hlt Hk'%Is_true_true. apply c_is_true in Hk as [E ?], Hk' as [? ?].
    assert (i = j); [|lia].
    eapply (ci_uniq _ _ Hi i j c c'); [done|done|by rewrite E|congruence..].
Qed.

Lemma centry_None cs n i c : centry cs n = None → cs !! i = Some c → c_is ROOTDEV n c = false.
Proof.
  unfold centry. rewrite list_find_None. intros Hf Hc. rewrite Forall_lookup in Hf.
  apply Hf in Hc. by destruct (c_is ROOTDEV n c).
Qed.

(** Replacing the buffer [i]: either it is the block's buffer, or the block has
    none and [i] is not in use. *)
Definition target cs n i c : Prop :=
  cs !! i = Some c ∧ (c_is ROOTDEV n c = true ∨ centry cs n = None ∧ c_refcnt c = 0).

Lemma target_inv cs rd rd' n i c c' :
  cinv cs rd → target cs n i c → 0 <= n < FSSIZE →
  c_dev c' = ROOTDEV → c_blockno c' = n → c_valid c' = true → in_range 32 (c_refcnt c') →
  (c_locked c' = true → 0 < c_refcnt c' ∧ c_pid c' = pid) →
  Z.of_nat (length (c_data c')) = BSIZE →
  (c_refcnt c' = 0 → rd' !! Z.to_nat n = Some (c_data c')) →
  Z.of_nat (length rd') = FSSIZE → Forall (λ b, Z.of_nat (length b) = BSIZE) rd' →
  (∀ m, m ≠ n → 0 <= m < FSSIZE → rd' !! Z.to_nat m = rd !! Z.to_nat m) →
  cinv (<[i := c']> cs) rd'.
Proof.
  intros Hi [Hc Ht] Hn Hd Hb Hv Hr Hk Hl Hcl Hrl Hrb Hsame.
  pose proof (lookup_lt_Some _ _ _ Hc) as Hlt.
  assert (Hother : ∀ j x, j ≠ i → cs !! j = Some x → c_is ROOTDEV n x = false).
  { intros j x Hj Hx. destruct Ht as [Hk'|[He _]]; [|by eapply centry_None].
    destruct (c_is ROOTDEV n x) eqn:E; [|done]. destruct Hj.
    apply c_is_true in Hk' as [? ?], E as [E1 ?].
    eapply (ci_uniq _ _ Hi j i x c); [done|done|by rewrite E1|congruence..]. }
  assert (Hlk : ∀ j x, <[i := c']> cs !! j = Some x → j = i ∧ x = c' ∨ j ≠ i ∧ cs !! j = Some x).
  { intros j x. destruct (decide (j = i)) as [->|].
    - rewrite list_lookup_insert_eq by done. intros [= <-]. by left.
    - rewrite list_lookup_insert_ne by done. by right. }
  constructor; [done|done|..].
  - intros j k x y [[-> ->]|[Hj Hx]]%Hlk [[-> ->]|[Hky Hy]]%Hlk Hdev E1 E2; [done|..].
    + exfalso. assert (c_is ROOTDEV n y = true) by (apply c_is_true; split; congruence).
      by rewrite (Hother k) in *.
    + exfalso. assert (c_is ROOTDEV n x = true) by (apply c_is_true; split; congruence).
      by rewrite (Hother j) in *.
    + by eapply (ci_uniq _ _ Hi).
  - intros j x [[-> ->]|[_ Hx]]%Hlk; [done|]. by eapply (ci_ref _ _ Hi).
  - intros j x [[-> ->]|[_ Hx]]%Hlk; [by intros [? _]%Hk|]. by eapply (ci_lock _ _ Hi).
  - intros j x [[-> ->]|[Hj Hx]]%Hlk Hdx.
    + rewrite Hb. split_and!; [lia|lia|done|by intros [_ ?]%Hk|]. intros _. by split.
    + destruct (ci_root _ _ Hi j x Hx Hdx) as (? & ? & ? & Hval). split_and!; [lia|lia|done|done|].
      intros Hvx. destruct (Hval Hvx) as [? Hdisk]. split; [done|]. intros Hz.
      rewrite Hsame; [by apply Hdisk| |lia]. intros E.
      pose proof (Hother j x Hj Hx) as Hf. by rewrite (proj2 (c_is_true _ _ _) (conj Hdx E)) in Hf.
Qed.

(** The entries after such a replacement. *)
Lemma target_entry cs rd rd' n i c c' m :
  cinv cs rd → cinv (<[i := c']> cs) rd' → target cs n i c → c_is ROOTDEV n c' = true → m ≠ n →
  centry (<[i := c']> cs) m =
    (if c_is ROOTDEV m c then None else centry cs m) ∧
  (c_is ROOTDEV m c = true → centry cs m = Some (i, c) ∧ c_refcnt c = 0).
Proof.
  intros Hi Hi' [Hc Ht] Hk Hm. pose proof (lookup_lt_Some _ _ _ Hc) as Hlt. split.
  - destruct (c_is ROOTDEV m c) eqn:Em.
    + destruct (centry _ m) as [[j x]|] eqn:E; [exfalso|done].
      apply (centry_Some _ _ _ _ _ Hi') in E as [Hj Hx]. destruct (decide (j = i)) as [->|Hne].
      * rewrite list_lookup_insert_eq in Hj by done. injection Hj as <-.
        apply c_is_true in Hk as [_ ?], Hx as [_ ?]. congruence.
      * rewrite list_lookup_insert_ne in Hj by done. apply Hne.
        apply c_is_true in Em as [E1 ?], Hx as [Ex ?].
        eapply (ci_uniq _ _ Hi j i x c); [done|done|by rewrite Ex|congruence..].
    + destruct (centry cs m) as [[j x]|] eqn:E.
      * apply (centry_Some _ _ _ _ _ Hi) in E as [Hj Hx]. apply (centry_Some _ _ _ _ _ Hi').
        split; [|done]. rewrite list_lookup_insert_ne; [done|]. intros ->. congruence.
      * destruct (centry (<[i := c']> cs) m) as [[j x]|] eqn:E'; [exfalso|done].
        apply (centry_Some _ _ _ _ _ Hi') in E' as [Hj Hx]. destruct (decide (j = i)) as [->|Hne].
        -- rewrite list_lookup_insert_eq in Hj by done. injection Hj as <-.
           apply c_is_true in Hk as [_ ?], Hx as [_ ?]. congruence.
        -- rewrite list_lookup_insert_ne in Hj by done.
           by rewrite (centry_None _ _ _ _ E Hj) in Hx.
  - intros Em. split; [by apply (centry_Some _ _ _ _ _ Hi)|].
    destruct Ht as [Hn|[_ ?]]; [|done]. apply c_is_true in Em as [_ ?], Hn as [_ ?]. congruence.
Qed.

Lemma filter_insert_length {A} (P : A → bool) (l : list A) i x y :
  l !! i = Some x →
  Z.of_nat (length (filter (λ a, Is_true (P a)) (<[i := y]> l))) =
  Z.of_nat (length (filter (λ a, Is_true (P a)) l)) - (if P x then 1 else 0) + (if P y then 1 else 0).
Proof.
  revert i. induction l as [|z l IH]; intros [|i] Hx; simplify_eq/=; rewrite !filter_cons.
  - destruct (P x) eqn:E1, (P y) eqn:E2; simpl; lia.
  - specialize (IH i Hx). destruct (P z); simpl; lia.
Qed.

(** The step of the refinement: the buffer [i] becomes [c'], the state of block
    [n] changes accordingly, and nothing is visible of the other blocks. *)
Lemma bio_rep_target s s' o o' cs a a' n i c c' :
  rep s o cs → cinv cs (ramdisk s) → cobs cs (ramdisk s) (dwrites s) a → target cs n i c →
  rep s' o' (<[i := c']> cs) → 0 <= n < FSSIZE →
  c_dev c' = ROOTDEV → c_blockno c' = n → c_valid c' = true → in_range 32 (c_refcnt c') →
  (c_locked c' = true → 0 < c_refcnt c' ∧ c_pid c' = pid) →
  Z.of_nat (length (c_data c')) = BSIZE →
  (c_refcnt c' = 0 → a_disk a' n = c_data c') →
  ramdisk s' = <[Z.to_nat n := a_disk a' n]> (ramdisk s) → Z.of_nat (length (a_disk a' n)) = BSIZE →
  (∀ m, a_refs a' m = if decide (m = n) then c_refcnt c' else a_refs a m) →
  (∀ m, a_held a' m = if decide (m = n) then if c_locked c' then Some i else None else a_held a m) →
  (∀ m, a_view a' m = if decide (m = n) then c_data c' else a_view a m) →
  (∀ m, m ≠ n → a_disk a' m = a_disk a m) →
  a_avail a' = a_avail a - (if c_refcnt c =? 0 then 1 else 0) + (if c_refcnt c' =? 0 then 1 else 0) →
  a_hist a' = dwrites s' →
  bio_rep s' a'.
Proof.
  intros Hr Hi Ho Ht Hr' Hn Hd Hb Hv Hrf Hk Hl Hcl Hrd Hdl Ar Ah Av Ad Aa Ahist.
  assert (Hlen : (Z.to_nat n < length (ramdisk s))%nat) by (pose proof (ci_disk _ _ Hi); lia).
  assert (Hi' : cinv (<[i := c']> cs) (ramdisk s')).
  { apply (target_inv cs (ramdisk s) (ramdisk s') n i c c'); try done.
    - intros H0. rewrite Hrd, list_lookup_insert_eq by done. by rewrite Hcl.
    - rewrite Hrd, length_insert. by apply Hi.
    - rewrite Hrd. apply Forall_insert; [by apply Hi|done].
    - intros m Hm Hmr. rewrite Hrd, list_lookup_insert_ne; [done|lia]. }
  assert (Hkc : c_is ROOTDEV n c' = true) by (by apply c_is_true).
  destruct Ht as [Hc Ht]. pose proof (lookup_lt_Some _ _ _ Hc) as Hlt.
  assert (He : centry (<[i := c']> cs) n = Some (i, c')).
  { apply (centry_Some _ _ _ _ _ Hi'). by rewrite list_lookup_insert_eq. }
  assert (Hem := λ m, target_entry cs (ramdisk s) (ramdisk s') n i c c' m Hi Hi' (conj Hc Ht) Hkc).
  exists o', (<[i := c']> cs). split_and!; [done|done|]. constructor; [..|done].
  - intros m. rewrite Ar. unfold crefs. case_decide as Hm; [subst m; by rewrite He|].
    destruct (Hem m Hm) as [-> H0]. rewrite (co_refs _ _ _ _ Ho). unfold crefs.
    destruct (c_is ROOTDEV m c); [|done]. by destruct H0 as [-> ->].
  - intros m. rewrite Ah. unfold cheld. case_decide as Hm; [subst m; by rewrite He|].
    destruct (Hem m Hm) as [-> H0]. rewrite (co_held _ _ _ _ Ho). unfold cheld.
    destruct (c_is ROOTDEV m c); [|done]. destruct H0 as [-> H0]; [done|].
    destruct (c_locked c) eqn:El; [|done]. pose proof (ci_lock _ _ Hi _ _ Hc El). lia.
  - intros m Hmr. rewrite Av. unfold cview. case_decide as Hm; [subst m; by rewrite He, Hv|].
    destruct (Hem m Hm) as [-> H0]. rewrite <- (co_view _ _ _ _ Ho) by done. unfold cview.
    assert (ramdisk s' !! Z.to_nat m = ramdisk s !! Z.to_nat m) as Hsame
      by (rewrite Hrd, list_lookup_insert_ne; [done|lia]).
    destruct (c_is ROOTDEV m c) eqn:Em; [|by rewrite Hsame]. destruct H0 as [-> H0]; [done|].
    rewrite Hsame. destruct (c_valid c) eqn:Ev; [|done]. apply c_is_true in Em as [E1 E2].
    destruct (ci_root _ _ Hi _ _ Hc E1) as (_ & _ & _ & Hval).
    destruct (Hval Ev) as [_ Hdk]. rewrite <- E2. by apply Hdk.
  - intros m Hmr. rewrite Hrd. destruct (decide (m = n)) as [->|Hm].
    + by rewrite list_lookup_insert_eq.
    + rewrite list_lookup_insert_ne, Ad by lia. by apply (co_disk _ _ _ _ Ho).
  - rewrite Aa, (co_avail _ _ _ _ Ho). unfold cavail.
    rewrite (filter_insert_length c_free _ _ c) by done. done.
Qed.

(** One update of a buffer whose contents are known. *)
Lemma rep_step s o cs i c f g :
  rep s o cs → cs !! i = Some c →
  (∀ b, next (f b) = next b ∧ prev (f b) = prev b ∧ core (f b) = g (core b)) →
  ∃ l, updb i f s = Ret ((), set_bufs l s) ∧ rep (set_bufs l s) o (<[i := g c]> cs).
Proof.
  intros Hr Hc Hf. destruct (rep_lookup _ _ _ _ _ Hr Hc) as (_ & _ & _ & Hlt).
  destruct (rep_updb s o cs i f g Hr Hlt Hf) as (l & E & Hr'). exists l. split; [done|].
  by rewrite <- (alter_insert g i c).
Qed.

Lemma holdingsleep_run s o cs i c :
  rep s o cs → cs !! i = Some c → holdingsleep pid i s = Ret (c_locked c && (c_pid c =? pid), s).
Proof.
  intros Hr Hc. destruct (rep_getb _ _ _ _ _ Hr Hc) as (b & Eb & <-).
  unfold holdingsleep. by rewrite (bind_Ret _ _ _ _ _ Eb).
Qed.

(** The choice of [bget]. *)
Lemma lru_get_target s o cs a n :
  rep s o cs → cinv cs (ramdisk s) → cobs cs (ramdisk s) (dwrites s) a → a_held a n = None → a_room n a →
  ∃ i c c1, lru_get ROOTDEV n o cs = Some (i, <[i := c1]> cs) ∧ target cs n i c ∧
    c_locked c = false ∧ c_refcnt c = a_refs a n ∧
    (c_is ROOTDEV n c = true ∧ c1 = cset_refcnt (a_refs a n + 1) c ∨
     centry cs n = None ∧ a_refs a n = 0 ∧
     c1 = CBuf false ROOTDEV n (c_locked c) (c_pid c) 1 (c_data c)).
Proof.
  intros Hr Hi Ho Hh Hroom. rewrite (co_held _ _ _ _ Ho) in Hh. unfold cheld in Hh.
  unfold lru_get. pose proof (co_refs _ _ _ _ Ho n) as Href. unfold crefs in Href.
  destruct (first_such cs (c_is ROOTDEV n) o) as [i|] eqn:Ef.
  - apply first_such_Some in Ef as (_ & c & Hc & Hk).
    pose proof (proj2 (centry_Some _ _ _ _ _ Hi) (conj Hc Hk)) as He. rewrite He in Hh, Href.
    exists i, c, (cset_refcnt (a_refs a n + 1) c). rewrite (alter_insert _ i c) by done.
    rewrite <- Href, (wrap_small 32) by (unfold in_range; destruct Hroom; lia).
    split_and!; [done|split; [done|by left]|by destruct (c_locked c)|done|by left].
  - assert (He : centry cs n = None).
    { destruct (centry cs n) as [[i c]|] eqn:E; [exfalso|done].
      apply (centry_Some _ _ _ _ _ Hi) in E as [Hc Hk].
      destruct (rep_lookup _ _ _ _ _ Hr Hc) as (_ & _ & _ & Hlt).
      apply (rep_order_in _ _ _ _ Hr) in Hlt.
      by rewrite (first_such_None _ _ _ _ _ Ef Hlt Hc) in Hk. }
    rewrite He in Href. destruct Hroom as [?|[_ Hav]]; [lia|].
    destruct (first_such cs c_free (rev o)) as [i|] eqn:Eg.
    + apply first_such_Some in Eg as (_ & c & Hc & Hfree). unfold c_free in Hfree.
      assert (c_refcnt c = 0) as H0 by lia. rewrite (alter_insert _ i c) by done.
      exists i, c, (CBuf false ROOTDEV n (c_locked c) (c_pid c) 1 (c_data c)).
      split_and!; [done|split; [done|by right]| |congruence|by right].
      destruct (c_locked c) eqn:El; [|done]. pose proof (ci_lock _ _ Hi _ _ Hc El). lia.
    + exfalso. rewrite (co_avail _ _ _ _ Ho) in Hav. unfold cavail in Hav.
      destruct (filter _ cs) as [|c l] eqn:Efl; [simpl in Hav; lia|].
      assert (c ∈ filter (λ c, Is_true (c_free c)) cs) as Hin by (rewrite Efl; left).
      apply list_elem_of_filter in Hin as [Hfr Hin]. apply list_elem_of_lookup in Hin as [i Hc].
      destruct (rep_lookup _ _ _ _ _ Hr Hc) as (_ & _ & _ & Hlt).
      apply (rep_order_in _ _ _ _ Hr) in Hlt.
      rewrite (first_such_None _ _ _ i c Eg) in Hfr; [done| |done]. by rewrite <- Permutation_rev.
Qed.

Lemma acquiresleep_run s o cs i c :
  rep s o cs → cs !! i = Some c → c_locked c = false →
  ∃ l, acquiresleep pid i s = Ret ((), set_bufs l s) ∧ rep (set_bufs l s) o (<[i := cset_lock true pid c]> cs).
Proof.
  intros Hr Hc Hl. destruct (rep_getb _ _ _ _ _ Hr Hc) as (b & Eb & Hb).
  unfold acquiresleep. rewrite (bind_Ret _ _ _ _ _ Eb).
  assert (b_locked b = false) as -> by (by rewrite <- Hl, <- Hb).
  by apply (rep_step s o cs i c).
Qed.

Lemma ramdisk_read_run s o cs i c d :
  rep s o cs → cs !! i = Some c → c_locked c = true → c_pid c = pid → c_blockno c < FSSIZE →
  ramdisk s !! Z.to_nat (c_blockno c) = Some d →
  ∃ l, ramdiskrw pid i false s = Ret ((), set_bufs l s) ∧ rep (set_bufs l s) o (<[i := cset_data d c]> cs).
Proof.
  intros Hr Hc Hl Hp Hn Hd. destruct (rep_getb _ _ _ _ _ Hr Hc) as (b & Eb & <-).
  unfold ramdiskrw. rewrite (bind_Ret _ _ _ _ _ (holdingsleep_run _ _ _ _ _ Hr Hc)).
  rewrite Hl, Hp, Z.eqb_refl. cbn [andb negb]. rewrite (bind_Ret _ _ _ _ _ Eb).
  cbn [core c_blockno] in *. destruct (Z.leb_spec FSSIZE (blockno b)); [lia|].
  erewrite bind_Ret by done. rewrite Hd. cbn [oget]. erewrite bind_Ret by done.
  by apply (rep_step s o cs i (core b)).
Qed.

Lemma bio_held s a n i :
  bio_rep s a → a_held a n = Some i →
  ∃ o cs c, rep s o cs ∧ cinv cs (ramdisk s) ∧ cobs cs (ramdisk s) (dwrites s) a ∧
    target cs n i c ∧ 0 <= n < FSSIZE ∧
    c = CBuf true ROOTDEV n true pid (a_refs a n) (a_view a n) ∧ 0 < a_refs a n < 2 ^ 32 ∧
    Z.of_nat (length (a_view a n)) = BSIZE.
Proof.
  intros (o & cs & Hr & Hi & Ho) Hh. rewrite (co_held _ _ _ _ Ho) in Hh. unfold cheld in Hh.
  destruct (centry cs n) as [[j c]|] eqn:E; [|done]. destruct (c_locked c) eqn:El; [|done].
  injection Hh as ->. pose proof (proj1 (centry_Some _ _ _ _ _ Hi) E) as [Hc Hk].
  pose proof (ci_lock _ _ Hi _ _ Hc El) as Hpos. pose proof (ci_ref _ _ Hi _ _ Hc) as Hrg.
  pose proof Hk as [Hd Hb]%c_is_true. destruct (ci_root _ _ Hi _ _ Hc Hd) as (Hn & Hv & Hp & Hval).
  specialize (Hv Hpos). specialize (Hp El). destruct (Hval Hv) as [Hlen _]. rewrite Hb in Hn.
  pose proof (co_refs _ _ _ _ Ho n) as Href. unfold crefs in Href. rewrite E in Href.
  pose proof (co_view _ _ _ _ Ho n Hn) as Hvw. unfold cview in Hvw. rewrite E, Hv in Hvw.
  injection Hvw as Hvw. exists o, cs, c. rewrite Href, <- Hvw. unfold in_range in Hrg.
  split_and!; try done; try lia; [split; [done|by left]|]. destruct c; cbn in *. by subst.
Qed.

Lemma bio_read_ok s a n :
  bio_rep s a → 0 <= n < FSSIZE → a_held a n = None → a_room n a →
  ∃ i s', bread pid ROOTDEV n s = Ret (i, s') ∧ bio_rep s' (a_read n i a).
Proof.
  intros (o & cs & Hr & Hi & Ho) Hn Hh Hroom.
  destruct (lru_get_target _ _ _ _ _ Hr Hi Ho Hh Hroom) as (i & c & c1 & Eg & Ht & Hl & Hrf & Hcase).
  pose proof (bget_find_run s o cs ROOTDEV n Hr) as Hb. rewrite Eg in Hb. destruct Hb as (l1 & E1 & Hr1).
  pose proof Ht as [Hc _]. pose proof (lookup_lt_Some _ _ _ Hc) as Hlt.
  assert (Hrng : 0 <= a_refs a n < 2 ^ 32 - 1).
  { pose proof (ci_ref _ _ Hi _ _ Hc) as Hrg. unfold in_range in Hrg. destruct Hroom; lia. }
  unfold bread, bget. rewrite bind_assoc, (bind_Ret _ _ _ _ _ E1). set (s1 := set_bufs l1 s) in *.
  assert (Hc1 : <[i := c1]> cs !! i = Some c1) by (by apply list_lookup_insert_eq).
  assert (c_locked c1 = false ∧ c_dev c1 = ROOTDEV ∧ c_blockno c1 = n ∧ c_refcnt c1 = a_refs a n + 1)
    as (Hl1 & Hd1 & Hb1 & Hrf1).
  { destruct Hcase as [[[? ?]%c_is_true ->]|(_ & H0 & ->)]; [done|]. cbn. rewrite H0. done. }
  destruct (acquiresleep_run s1 o _ i c1 Hr1 Hc1 Hl1) as (l2 & E2 & Hr2).
  rewrite list_insert_insert_eq in Hr2. set (c2 := cset_lock true pid c1) in *.
  rewrite bind_assoc, (bind_Ret _ _ _ _ _ E2). erewrite bind_Ret by done.
  set (s2 := set_bufs l2 s1) in *.
  assert (Hc2 : <[i := c2]> cs !! i = Some c2) by (by apply list_lookup_insert_eq).
  destruct (rep_getb _ _ _ _ _ Hr2 Hc2) as (b & Eb & Hbc). rewrite (bind_Ret _ _ _ _ _ Eb).
  assert (valid b = c_valid c2) as -> by (by rewrite <- Hbc).
  assert (Hdk : ramdisk s !! Z.to_nat n = Some (a_disk a n)) by (by apply (co_disk _ _ _ _ Ho)).
  assert (Hvw : cview cs (ramdisk s) n = Some (a_view a n)) by (by apply (co_view _ _ _ _ Ho)).
  assert (Hdlen : Z.of_nat (length (a_disk a n)) = BSIZE).
  { pose proof (ci_blocks _ _ Hi) as Hbl. rewrite Forall_lookup in Hbl. by eapply Hbl. }
  assert (Hsame : <[Z.to_nat n := a_disk a n]> (ramdisk s) = ramdisk s) by (by apply list_insert_id).
  assert (Hfin : ∀ l d, rep (set_bufs l s2) o (<[i := CBuf true ROOTDEV n true pid (a_refs a n + 1) d]> cs) →
      d = a_view a n → Z.of_nat (length d) = BSIZE → bio_rep (set_bufs l s2) (a_read n i a)).
  { intros l d Hrd Ed Hlen. subst d.
    eapply (bio_rep_target s _ o o cs a _ n i c); try done; cbn; try lia; unfold in_range; try lia.
    - intros m. apply fn_insert_at.
    - intros m. apply fn_insert_at.
    - intros m. by case_decide; [subst|].
    - rewrite Hrf. destruct (Z.eqb_spec (a_refs a n) 0), (Z.eqb_spec (a_refs a n + 1) 0); lia.
    - by apply (co_hist _ _ _ _ Ho). }
  destruct (c_valid c2) eqn:Ev.
  - destruct Hcase as [[Hk ->]|(_ & _ & ->)]; [|done].
    erewrite bind_Ret by done. exists i, s2. split; [done|]. unfold cview in Hvw.
    rewrite (proj2 (centry_Some _ _ _ _ _ Hi) (conj Hc Hk)) in Hvw. cbn in Ev. rewrite Ev in Hvw.
    injection Hvw as Hvw. apply (Hfin l2 (c_data c)); [|done|].
    + replace (CBuf _ _ _ _ _ _ _) with c2; [exact Hr2|]. subst c2. cbn in *. unfold cset_lock, cset_refcnt. cbn. by rewrite Ev, Hd1, Hb1.
    + destruct (ci_root _ _ Hi _ _ Hc Hd1) as (_ & _ & _ & Hval). by destruct (Hval Ev).
  - change (ROOTDEV =? SDCARD) with false. cbv iota.
    destruct (ramdisk_read_run s2 o _ i c2 (a_disk a n) Hr2 Hc2) as (l3 & E3 & Hr3); [done|done| | |].
    { cbn. lia. } { cbn. by rewrite Hb1. }
    rewrite list_insert_insert_eq in Hr3.
    destruct (rep_step _ _ _ i (cset_data (a_disk a n) c2) (set_valid true) (cset_valid true) Hr3)
      as (l4 & E4 & Hr4); [by apply list_lookup_insert_eq|done|].
    rewrite list_insert_insert_eq in Hr4. rewrite bind_assoc, (bind_Ret _ _ _ _ _ E3), (bind_Ret _ _ _ _ _ E4).
    exists i, (set_bufs l4 s2). split; [done|]. apply (Hfin l4 (a_disk a n)); [|  |done].
    + replace (CBuf _ _ _ _ _ _ _) with (cset_valid true (cset_data (a_disk a n) c2)); [exact Hr4|].
      unfold cset_valid, cset_data. cbn. by rewrite Hd1, Hb1, Hrf1.
    + unfold cview in Hvw. destruct Hcase as [[Hk ->]|(He & _ & _)]; [|rewrite He in Hvw; congruence].
      rewrite (proj2 (centry_Some _ _ _ _ _ Hi) (conj Hc Hk)) in Hvw. cbn in Ev. rewrite Ev in Hvw. congruence.
Qed.

(** The same buffer with other contents, references or lock. *)
Lemma bio_update s a n i (f : buf → buf) (g : cbuf → cbuf) a' (k : bool) r d :
  bio_rep s a → a_held a n = Some i →
  (∀ b, next (f b) = next b ∧ prev (f b) = prev b ∧ core (f b) = g (core b)) →
  g (CBuf true ROOTDEV n true pid (a_refs a n) (a_view a n)) = CBuf true ROOTDEV n k pid r d →
  in_range 32 r → 0 < r → Z.of_nat (length d) = BSIZE →
  (∀ m, a_refs a' m = if decide (m = n) then r else a_refs a m) →
  (∀ m, a_held a' m = if decide (m = n) then if k then Some i else None else a_held a m) →
  (∀ m, a_view a' m = if decide (m = n) then d else a_view a m) →
  (∀ m, a_disk a' m = a_disk a m) → a_avail a' = a_avail a → a_hist a' = a_hist a →
  ∃ s', updb i f s = Ret ((), s') ∧ bio_rep s' a'.
Proof.
  intros Ha Hh Hf Hg Hr Hpos Hd A1 A2 A3 A4 A5 A6.
  destruct (bio_held _ _ _ _ Ha Hh) as (o & cs & c & Hrep & Hi & Ho & Ht & Hn & Hc & Hrf & _).
  pose proof Ht as [Hci _].
  destruct (rep_step s o cs i c f g Hrep Hci Hf) as (l & E & Hr'). rewrite Hc, Hg in Hr'.
  assert (Hdk : ramdisk s !! Z.to_nat n = Some (a_disk a n)) by (by apply (co_disk _ _ _ _ Ho)).
  exists (set_bufs l s). split; [done|].
  apply (bio_rep_target s _ o o cs a a' n i c (CBuf true ROOTDEV n k pid r d)); try done; cbn.
  - lia.
  - rewrite A4. symmetry. by apply list_insert_id.
  - rewrite A4. pose proof (ci_blocks _ _ Hi) as Hbl. rewrite Forall_lookup in Hbl. by eapply Hbl.
  - rewrite A5, Hc. cbn. destruct (Z.eqb_spec (a_refs a n) 0), (Z.eqb_spec r 0); lia.
  - rewrite A6. by apply (co_hist _ _ _ _ Ho).
Qed.

Lemma bio_getb s a n i :
  bio_rep s a → a_held a n = Some i →
  ∃ b, getb i s = Ret (b, s) ∧ core b = CBuf true ROOTDEV n true pid (a_refs a n) (a_view a n).
Proof.
  intros Ha Hh. destruct (bio_held _ _ _ _ Ha Hh) as (o & cs & c & Hr & _ & _ & [Hc _] & _ & -> & _).
  exact (rep_getb _ _ _ _ _ Hr Hc).
Qed.

Lemma bio_holding s a n i :
  bio_rep s a → a_held a n = Some i → holdingsleep pid i s = Ret (true, s).
Proof.
  intros Ha Hh. destruct (bio_getb _ _ _ _ Ha Hh) as (b & Eb & Hb).
  unfold holdingsleep. rewrite (bind_Ret _ _ _ _ _ Eb).
  assert (b_locked b = true) as -> by exact (f_equal c_locked Hb).
  assert (b_pid b = pid) as -> by exact (f_equal c_pid Hb). by rewrite Z.eqb_refl.
Qed.

Lemma bio_pin_ok s a n i :
  bio_rep s a → a_held a n = Some i → a_refs a n < 2 ^ 32 - 1 →
  ∃ s', bpin i s = Ret ((), s') ∧ bio_rep s' (a_pin n a).
Proof.
  intros Ha Hh Hlt. destruct (bio_getb _ _ _ _ Ha Hh) as (b & Eb & Hb).
  unfold bpin. rewrite (bind_Ret _ _ _ _ _ Eb).
  assert (refcnt b = a_refs a n) as -> by exact (f_equal c_refcnt Hb).
  destruct (bio_held _ _ _ _ Ha Hh) as (o & cs & c & _ & _ & _ & _ & _ & _ & Hrf & Hlen).
  rewrite (wrap_small 32) by (unfold in_range; lia).
  eapply (bio_update s a n i _ (cset_refcnt (a_refs a n + 1)) _ true (a_refs a n + 1) (a_view a n)); try done.
  - unfold in_range. lia.
  - lia.
  - intros m. apply fn_insert_at.
  - intros m. by case_decide; [subst|].
  - intros m. by case_decide; [subst|].
Qed.

Lemma bio_unpin_ok s a n i :
  bio_rep s a → a_held a n = Some i → 1 < a_refs a n →
  ∃ s', bunpin i s = Ret ((), s') ∧ bio_rep s' (a_unpin n a).
Proof.
  intros Ha Hh Hlt. destruct (bio_getb _ _ _ _ Ha Hh) as (b & Eb & Hb).
  unfold bunpin. rewrite (bind_Ret _ _ _ _ _ Eb).
  assert (refcnt b = a_refs a n) as -> by exact (f_equal c_refcnt Hb).
  destruct (bio_held _ _ _ _ Ha Hh) as (o & cs & c & _ & _ & _ & _ & _ & _ & Hrf & Hlen).
  rewrite (wrap_small 32) by (unfold in_range; lia).
  eapply (bio_update s a n i _ (cset_refcnt (a_refs a n - 1)) _ true (a_refs a n - 1) (a_view a n)); try done.
  - unfold in_range. lia.
  - lia.
  - intros m. apply fn_insert_at.
  - intros m. by case_decide; [subst|].
  - intros m. by case_decide; [subst|].
Qed.

Lemma bio_store_ok s a n i d :
  bio_rep s a → a_held a n = Some i → Z.of_nat (length d) = BSIZE →
  ∃ s', bstore i d s = Ret ((), s') ∧ bio_rep s' (a_store n d a).
Proof.
  intros Ha Hh Hlen.
  destruct (bio_held _ _ _ _ Ha Hh) as (o & cs & c & _ & _ & _ & _ & _ & _ & Hrf & _).
  eapply (bio_update s a n i _ (cset_data d) _ true (a_refs a n) d); try done.
  - unfold in_range. lia.
  - lia.
  - intros m. by case_decide; [subst|].
  - intros m. by case_decide; [subst|].
  - intros m. apply fn_insert_at.
Qed.

Lemma bio_write_ok s a n i :
  bio_rep s a → a_held a n = Some i →
  ∃ s', bwrite pid i s = Ret ((), s') ∧ bio_rep s' (a_write n a).
Proof.
  intros Ha Hh. destruct (bio_getb _ _ _ _ Ha Hh) as (b & Eb & Hb).
  pose proof (bio_holding _ _ _ _ Ha Hh) as Ehold.
  destruct (bio_held _ _ _ _ Ha Hh) as (o & cs & c & Hr & Hi & Ho & Ht & Hn & Hc & Hrf & Hlen).
  unfold bwrite, ramdiskrw. rewrite (bind_Ret _ _ _ _ _ Ehold). cbn [negb].
  rewrite (bind_Ret _ _ _ _ _ Eb).
  assert (dev b = ROOTDEV) as -> by exact (f_equal c_dev Hb).
  change (ROOTDEV =? SDCARD) with false. cbv iota.
  rewrite (bind_Ret _ _ _ _ _ Ehold). cbn [negb]. rewrite (bind_Ret _ _ _ _ _ Eb).
  assert (blockno b = n) as -> by exact (f_equal c_blockno Hb).
  assert (data b = a_view a n) as -> by exact (f_equal c_data Hb).
  destruct (Z.leb_spec FSSIZE n); [lia|].
  erewrite bind_Ret by done. rewrite (co_disk _ _ _ _ Ho) by done. cbn [oget].
  erewrite bind_Ret by done. eexists. split; [done|].
  pose proof Ht as [Hci _].
  assert (Hid : <[i := c]> cs = cs) by (by apply list_insert_id).
  assert (Hrs : ∀ rd (d : D) h, rep (BSys (bufs s) rd d h) o cs) by (intros; destruct Hr; by constructor).
  eapply (bio_rep_target s _ o o cs a _ n i c c); try done; rewrite ?Hid, ?Hc; cbn; try done; try lia;
    rewrite ?fn_lookup_insert; try done.
  - unfold in_range. lia.
  - intros m. case_decide; by subst.
  - intros m. case_decide; by subst.
  - intros m. case_decide; by subst.
  - intros m Hm. apply fn_lookup_insert_ne. congruence.
  - by rewrite (co_hist _ _ _ _ Ho).
Qed.

Lemma bio_release_ok s a n i :
  bio_rep s a → a_held a n = Some i → (a_refs a n = 1 → a_view a n = a_disk a n) →
  ∃ s', brelse pid i s = Ret ((), s') ∧ bio_rep s' (a_release n a).
Proof.
  intros Ha Hh Hcl. pose proof (bio_holding _ _ _ _ Ha Hh) as Ehold.
  destruct (bio_held _ _ _ _ Ha Hh) as (o & cs & c & Hr & Hi & Ho & Ht & Hn & Hc & Hrf & Hlen).
  pose proof Ht as [Hci _]. pose proof (lookup_lt_Some _ _ _ Hci) as Hlt.
  unfold brelse. rewrite (bind_Ret _ _ _ _ _ Ehold). cbn [negb]. unfold releasesleep.
  destruct (rep_step s o cs i c (set_lock false 0) (cset_lock false 0) Hr Hci) as (l1 & E1 & Hr1); [done|].
  rewrite (bind_Ret _ _ _ _ _ E1). set (c1 := cset_lock false 0 c) in *.
  assert (Hc1 : <[i := c1]> cs !! i = Some c1) by (by apply list_lookup_insert_eq).
  destruct (bput_run _ o _ i c1 Hr1 Hc1) as (l2 & E2 & Hr2).
  exists (set_bufs l2 (set_bufs l1 s)). split; [done|].
  unfold lru_put in Hr2. rewrite Hc1 in Hr2. cbn [fst snd] in Hr2.
  assert (u32 (c_refcnt c1 - 1) = a_refs a n - 1) as Er.
  { subst c1. rewrite Hc. cbn. apply wrap_small. unfold in_range. lia. }
  rewrite Er, (alter_insert _ i c1), list_insert_insert_eq in Hr2 by done.
  assert (Hdk : ramdisk s !! Z.to_nat n = Some (a_disk a n)) by (by apply (co_disk _ _ _ _ Ho)).
  eapply (bio_rep_target s _ o _ cs a _ n i c); try done; cbn; rewrite ?Hc; try done; try lia.
  - unfold in_range. cbn. lia.
  - cbn. intros ?. symmetry. apply Hcl. lia.
  - symmetry. by apply list_insert_id.
  - pose proof (ci_blocks _ _ Hi) as Hbl. rewrite Forall_lookup in Hbl. by eapply Hbl.
  - intros m. apply fn_insert_at.
  - intros m. apply fn_insert_at.
  - intros m. case_decide; by subst.
  - cbn. destruct (Z.eqb_spec (a_refs a n) 1), (Z.eqb_spec (a_refs a n) 0),
      (Z.eqb_spec (a_refs a n - 1) 0); lia.
  - by apply (co_hist _ _ _ _ Ho).
Qed.

Lemma bio_rep_equiv s a a' : a ≡ a' → bio_rep s a → bio_rep s a'.
Proof.
  intros (E1 & E2 & E3 & E4 & E5 & E6) (o & cs & Hr & Hi & []). exists o, cs.
  split_and!; [done|done|]. constructor; intros; rewrite <- ?E1, <- ?E2, <- ?E3, <- ?E4, <- ?E5, <- ?E6; auto.
Qed.

#[global] Instance bio_cache_spec : BlockCacheSpec (bsys D) nat.
Proof.
  refine {| bc_rep := bio_rep |}.
  - intros s ? <- a a' Ha. split; [|symmetry in Ha]; by apply bio_rep_equiv.
  - intros s a n (o & cs & _ & Hi & Ho) Hn.
    pose proof (ci_blocks _ _ Hi) as Hbl. rewrite Forall_lookup in Hbl.
    pose proof (co_disk _ _ _ _ Ho n Hn) as Hdk. pose proof (co_view _ _ _ _ Ho n Hn) as Hvw.
    split; [|by eapply Hbl]. unfold cview in Hvw.
    destruct (centry cs n) as [[i c]|] eqn:E; [|by eapply Hbl].
    destruct (c_valid c) eqn:Ev; [|by eapply Hbl]. injection Hvw as <-.
    apply (centry_Some _ _ _ _ _ Hi) in E as [Hc [Hd _]%c_is_true].
    destruct (ci_root _ _ Hi _ _ Hc Hd) as (_ & _ & _ & Hval). by destruct (Hval Ev).
  - intros s a n (o & cs & _ & Hi & Ho) Hn H0.
    pose proof (co_disk _ _ _ _ Ho n Hn) as Hdk. pose proof (co_view _ _ _ _ Ho n Hn) as Hvw.
    rewrite (co_refs _ _ _ _ Ho) in H0. unfold cview, crefs in *.
    destruct (centry cs n) as [[i c]|] eqn:E; [|congruence].
    destruct (c_valid c) eqn:Ev; [|congruence].
    apply (centry_Some _ _ _ _ _ Hi) in E as [Hc [Hd Hb]%c_is_true].
    destruct (ci_root _ _ Hi _ _ Hc Hd) as (_ & _ & _ & Hval). destruct (Hval Ev) as [_ Hcl].
    rewrite Hb in Hcl. specialize (Hcl H0). congruence.
  - intros s a n i Ha Hh.
    by destruct (bio_held _ _ _ _ Ha Hh) as (o & cs & c & _ & _ & _ & _ & ? & _ & ? & _).
  - exact bio_read_ok.
  - intros s a n i Ha Hh. destruct (bio_getb _ _ _ _ Ha Hh) as (b & Eb & Hb). cbn.
    rewrite (bind_Ret _ _ _ _ _ Eb). assert (data b = a_view a n) as -> by exact (f_equal c_data Hb). done.
  - exact bio_store_ok.
  - exact bio_write_ok.
  - exact bio_release_ok.
  - exact bio_pin_ok.
  - exact bio_unpin_ok.
Defined.

(** *** The cache at boot *)

(** [binit] on zeroed buffers and a disk image: every block is unreferenced,
    and its contents are the disk's. *)
Lemma bio_boot s b0 rd :
  bufs s = replicate (S NBUF) b0 → core b0 = CBuf false 0 0 false 0 0 [] → ramdisk s = rd →
  Z.of_nat (length rd) = FSSIZE → Forall (λ b, Z.of_nat (length b) = BSIZE) rd → dwrites s = [] →
  ∃ s', binit s = Ret ((), s') ∧
    bio_rep s' (AState (λ _, 0) (λ _, None) (λ n, default [] (rd !! Z.to_nat n))
      (λ n, default [] (rd !! Z.to_nat n)) (Z.of_nat NBUF) []).
Proof.
  intros Hb Hc <- Hlen Hbl Hw. destruct (binit_run s) as (l & E & Hr).
  { by rewrite Hb, length_replicate. }
  exists (set_bufs l s). split; [done|]. eexists _, _. split; [exact Hr|].
  set (cs := _ <$> _). assert (Hcs : ∀ i c, cs !! i = Some c → c = CBuf false 0 0 false 0 0 []).
  { intros i c. subst cs. rewrite Hb, !list_lookup_fmap. intros Hx.
    destruct (take _ _ !! i) as [x|] eqn:Ex; [|done]. apply lookup_take_Some in Ex as [Ex _].
    apply lookup_replicate in Ex as [-> _]. cbn in Hx. rewrite Hc in Hx. by injection Hx. }
  assert (Hentry : ∀ n, centry cs n = None).
  { intros n. apply list_find_None. apply Forall_lookup. intros i c Hi%Hcs. subst c. by apply Is_true_false. }
  split.
  - constructor; cbn; try done.
    + intros i j c c' Hi%Hcs. by subst c.
    + intros i c Hi%Hcs. subst c. cbn. unfold in_range. lia.
    + intros i c Hi%Hcs. by subst c.
    + intros i c Hi%Hcs. by subst c.
  - constructor; cbn; intros; unfold crefs, cheld, cview; rewrite ?Hentry; try done.
    + destruct (lookup_lt_is_Some_2 (ramdisk s) (Z.to_nat n)) as [b ->]; [lia|done].
    + destruct (lookup_lt_is_Some_2 (ramdisk s) (Z.to_nat n)) as [b ->]; [lia|done].
    + unfold cavail. subst cs. rewrite Hb, take_replicate, !fmap_replicate, Hc. done.
Qed.
End contract.

(** ** Witness: the cache at boot *)

Definition idle_sd : SdCard () := {|
  sd_read_ext2 := λ n d c, (0, d);
  sd_write_ext2 := λ n d c, (0, c);
|}.
Definition boot_cache : bsys () :=
  BSys (replicate (S NBUF) (Buf false 0 0 false 0 0 0 0 [])) (replicate 3 []) () [].

Lemma bcache_lru_witness :
  ∃ s o cs i s', binit boot_cache = Ret ((), s) ∧ rep s o cs ∧
    bget_find ROOTDEV 1 s = Ret (i, s') ∧ i = O.
Proof.
  destruct (bcache_lru boot_cache [] []) as [Hinit _].
  destruct Hinit as (s & E & Hr); [reflexivity|].
  pose proof (proj1 (proj2 (bcache_lru s _ _) Hr)) as Hget.
  specialize (Hget ROOTDEV 1).
  destruct (lru_get ROOTDEV 1 _ _) as [[i cs']|] eqn:Eg; [|vm_compute in Eg; discriminate Eg].
  destruct Hget as (s' & E' & _). eexists s, _, _, i, s'.
  split; [exact E|]. split; [exact Hr|]. split; [exact E'|].
  vm_compute in Eg. injection Eg as <- _. reflexivity.
Defined.
