(* ===== verification/Log.v ===== *)
(** * The write-ahead log: [kernel/log.c]

    The log is written against the interface [BlockCache]; the state pairs the
    in-memory [struct log] with a cache. A header block holds [n] and [LOGSIZE]
    block numbers, little-endian 32-bit integers at the start of the block.
    Loops over [log.lh.n] entries recurse on the number of entries left.

    The sleeping loop of [begin_op] is cut at [sleep]: one definition is one
    attempt, and a process that sleeps makes another when it is woken. *)
From S2P Require Import Prelude BlockCache.

Definition MAXOPBLOCKS : Z := 10.
Definition LOGSIZE : Z := MAXOPBLOCKS * 3.

(** ** Integers in a block *)

Definition get32 (d : block) (off : Z) : option Z :=
  match sub_bytes d off 4 with Some l => Some (s32 (le_val l)) | None => None end.
Definition put32 (d : block) (off v : Z) : option block := blit d off (le_bytes 4 v).

Record log_t := Log {
  start : Z;
  size : Z;
  outstanding : Z;
  committing : bool;
  log_dev : Z;
  lh_n : Z;
  lh_block : list Z;
}.
Definition set_n n l := Log (start l) (size l) (outstanding l) (committing l) (log_dev l) n (lh_block l).
Definition set_block b l := Log (start l) (size l) (outstanding l) (committing l) (log_dev l) (lh_n l) b.
Definition set_outstanding o l := Log (start l) (size l) o (committing l) (log_dev l) (lh_n l) (lh_block l).
Definition set_committing c l := Log (start l) (size l) (outstanding l) c (log_dev l) (lh_n l) (lh_block l).

Inductive op_result := OpStarted | OpSleeping.

Section log.
Context {C B : Type} `{BlockCache C B}.

Record lsys := LSys { lg : log_t; cache : C }.
Definition upd_log (f : log_t → log_t) : M lsys () := modify (λ s, LSys (f (lg s)) (cache s)).
Definition in_cache {A} (m : M C A) : M lsys A := λ s,
  outcome_bind (m (cache s)) (λ '(x, c), Ret (x, LSys (lg s) c)).

(** [bread]: block numbers are [int]s in the log and in its header, and the cache
    takes a [uint]. *)
Definition lbread (n : Z) : M lsys B := in_cache (bc_read (u32 n)).

(** [log.lh.block[i]], in bounds. *)
Definition block_at (i : Z) : M lsys Z :=
  o ← gets (λ s, if i <? 0 then None else lh_block (lg s) !! Z.to_nat i); oget o.
Definition set_block_at (i v : Z) : M lsys () :=
  _ ← block_at i; upd_log (λ l, set_block (<[Z.to_nat i := v]> (lh_block l)) l).

(** [k] is [log.lh.n - tail]. *)
Fixpoint install_loop (recovering : bool) (k : nat) (tail : Z) : M lsys () :=
  match k with
  | O => mret ()
  | S k =>
      st ← gets (λ s, start (lg s));
      lbuf ← lbread (st + tail + 1);
      dst ← block_at tail;
      dbuf ← lbread dst;
      d ← in_cache (bc_data lbuf);
      in_cache (bc_store dbuf d) ;;
      in_cache (bc_write dbuf) ;;
      (if recovering then mret () else in_cache (bc_unpin dbuf)) ;;
      in_cache (bc_release lbuf) ;;
      in_cache (bc_release dbuf) ;;
      install_loop recovering k (tail + 1)
  end.
Definition install_trans (recovering : bool) : M lsys () :=
  n ← gets (λ s, lh_n (lg s)); install_loop recovering (Z.to_nat n) 0.

Fixpoint read_head_loop (d : block) (k : nat) (i : Z) : M lsys () :=
  match k with
  | O => mret ()
  | S k => v ← oget (get32 d (4 + 4 * i)); set_block_at i v ;; read_head_loop d k (i + 1)
  end.
Definition read_head : M lsys () :=
  st ← gets (λ s, start (lg s));
  b ← lbread st;
  d ← in_cache (bc_data b);
  n ← oget (get32 d 0);
  upd_log (set_n n) ;;
  read_head_loop d (Z.to_nat n) 0 ;;
  in_cache (bc_release b).

(** The stores to the header buffer, on the block they are made to. *)
Fixpoint write_head_loop (d : block) (k : nat) (i : Z) : M lsys block :=
  match k with
  | O => mret d
  | S k => v ← block_at i; d ← oget (put32 d (4 + 4 * i) v); write_head_loop d k (i + 1)
  end.
Definition write_head : M lsys () :=
  st ← gets (λ s, start (lg s));
  b ← lbread st;
  d ← in_cache (bc_data b);
  n ← gets (λ s, lh_n (lg s));
  d ← oget (put32 d 0 n);
  d ← write_head_loop d (Z.to_nat n) 0;
  in_cache (bc_store b d) ;;
  in_cache (bc_write b) ;;
  in_cache (bc_release b).

Definition recover_from_log : M lsys () :=
  read_head ;;
  install_trans true ;;
  upd_log (set_n 0) ;;
  write_head.

(** [initlog], with the [logstart] and [nlog] its call of [s5_readsb] finds. *)
Definition initlog (d logstart nlog : Z) : M lsys () :=
  upd_log (λ l, Log logstart nlog (outstanding l) (committing l) d (lh_n l) (lh_block l)) ;;
  recover_from_log.

Definition begin_op : M lsys op_result :=
  l ← gets lg;
  if committing l then mret OpSleeping
  else if LOGSIZE <? lh_n l + (outstanding l + 1) * MAXOPBLOCKS then mret OpSleeping
  else upd_log (λ l, set_outstanding (outstanding l + 1) l) ;; mret OpStarted.

(** [k] is [log.lh.n - tail]. *)
Fixpoint write_log_loop (k : nat) (tail : Z) : M lsys () :=
  match k with
  | O => mret ()
  | S k =>
      st ← gets (λ s, start (lg s));
      to ← lbread (st + tail + 1);
      src ← block_at tail;
      from ← lbread src;
      d ← in_cache (bc_data from);
      in_cache (bc_store to d) ;;
      in_cache (bc_write to) ;;
      in_cache (bc_release from) ;;
      in_cache (bc_release to) ;;
      write_log_loop k (tail + 1)
  end.
Definition write_log : M lsys () :=
  n ← gets (λ s, lh_n (lg s)); write_log_loop (Z.to_nat n) 0.

Definition commit : M lsys () :=
  n ← gets (λ s, lh_n (lg s));
  if 0 <? n then
    write_log ;;
    write_head ;;
    install_trans false ;;
    upd_log (set_n 0) ;;
    write_head
  else mret ().

(** [end_op]: the first critical section, the commit outside the lock, and the
    second critical section. *)
Definition end_op_enter : M lsys bool :=
  upd_log (λ l, set_outstanding (outstanding l - 1) l) ;;
  l ← gets lg;
  if committing l then panic "log.committing"
  else if outstanding l =? 0 then upd_log (set_committing true) ;; mret true
  else mret false.
Definition end_op : M lsys () :=
  do_commit ← end_op_enter;
  if (do_commit : bool) then commit ;; upd_log (set_committing false) else mret ().

(** The absorption loop of [log_write]: the index of the block in the log, or
    [log.lh.n]. *)
Fixpoint absorb (k : nat) (i bno : Z) : M lsys Z :=
  match k with
  | O => mret i
  | S k => v ← block_at i; if u32 v =? bno then mret i else absorb k (i + 1) bno
  end.
Definition log_write (b : B) (bno : Z) : M lsys () :=
  l ← gets lg;
  if (LOGSIZE <=? lh_n l) || (size l - 1 <=? lh_n l) then panic "too big a transaction"
  else if outstanding l <? 1 then panic "log_write outside of trans"
  else
    i ← absorb (Z.to_nat (lh_n l)) 0 bno;
    set_block_at i (s32 bno) ;;
    if i =? lh_n l then in_cache (bc_pin b) ;; upd_log (λ l, set_n (lh_n l + 1) l) else mret ().

(** ** What a log on disk stands for *)

(** The header on a disk: the home blocks of a committed transaction. *)
Definition header_blocks (d : block) : option (list Z) :=
  match get32 d 0 with
  | Some n =>
      if (0 <=? n) && (n <=? LOGSIZE)
      then mapM (λ i, get32 d (4 + 4 * Z.of_nat i)) (seq 0 (Z.to_nat n)) else None
  | None => None
  end.

(** The disk as recovery leaves it: each home block from its log block. *)
Fixpoint installed (st i : Z) (bs : list Z) (d : Z → block) : Z → block :=
  match bs with
  | [] => d
  | b :: bs => installed st (i + 1) bs (<[b := d (st + i + 1)]> d)
  end.
Definition recovered (st : Z) (d : Z → block) : Z → block :=
  match header_blocks (d st) with Some bs => installed st 0 bs d | None => d end.

(** The disk after the writes of a history. *)
Definition after (d : Z → block) (w : list (Z * block)) : Z → block :=
  fold_left (λ d w, <[w.1 := w.2]> d) w d.
End log.
Arguments lsys C : clear implicits.

(** ** Headers *)

Lemma length_put32 d off v d' : put32 d off v = Some d' → length d' = length d.
Proof. apply length_blit. Qed.

Lemma put32_is_Some d off v :
  0 <= off → off + 4 <= Z.of_nat (length d) → is_Some (put32 d off v).
Proof. intros ??. apply blit_is_Some; [done|]. by rewrite length_le_bytes. Qed.

Lemma get32_put32 d off v d' :
  put32 d off v = Some d' → - 2 ^ 31 <= v < 2 ^ 31 → get32 d' off = Some v.
Proof.
  intros Hp Hv. unfold get32. pose proof (sub_bytes_blit _ _ _ _ Hp) as Hs.
  rewrite length_le_bytes in Hs. change (Z.of_nat 4) with 4 in Hs. rewrite Hs, le_val_bytes.
  change (8 * Z.of_nat 4) with 32. f_equal. unfold swrap. rewrite Zplus_mod_idemp_l.
  apply swrap_small; lia.
Qed.

Lemma get32_put32_other d off v d' o :
  put32 d off v = Some d' → o + 4 <= off ∨ off + 4 <= o → get32 d' o = get32 d o.
Proof.
  intros Hp Ho. unfold get32. by rewrite (sub_bytes_blit_other _ _ _ _ o 4 Hp) by (rewrite length_le_bytes; lia).
Qed.

(** The header [d] lists [bs]. *)
Lemma header_blocks_intro d bs :
  get32 d 0 = Some (Z.of_nat (length bs)) → Z.of_nat (length bs) <= LOGSIZE →
  (∀ i b, bs !! i = Some b → get32 d (4 + 4 * Z.of_nat i) = Some b) → header_blocks d = Some bs.
Proof.
  intros Hn Hl Hb. unfold header_blocks. rewrite Hn.
  replace (_ && _) with true by lia. rewrite Nat2Z.id. apply mapM_Some. apply Forall2_same_length_lookup_2.
  { by rewrite length_seq. }
  intros i x y Hx Hy. apply lookup_seq in Hx as [-> _]. by apply Hb.
Qed.

Lemma header_blocks_elim d bs :
  header_blocks d = Some bs →
  get32 d 0 = Some (Z.of_nat (length bs)) ∧ Z.of_nat (length bs) <= LOGSIZE ∧
  ∀ i b, bs !! i = Some b → get32 d (4 + 4 * Z.of_nat i) = Some b.
Proof.
  unfold header_blocks. destruct (get32 d 0) as [n|]; [|done].
  destruct (_ && _) eqn:E; [|done]. intros Hm%mapM_Some.
  pose proof (Forall2_length _ _ _ Hm) as Hl. rewrite length_seq in Hl.
  split_and!; [f_equal; lia|lia|]. intros i b Hi.
  destruct (Forall2_lookup_r _ _ _ _ _ Hm Hi) as (x & Hx & Hg).
  by apply lookup_seq in Hx as [-> _].
Qed.

(** The log in memory lists [bs]. *)
Record lists (l : log_t) (bs : list Z) : Prop := {
  ls_n : lh_n l = Z.of_nat (length bs);
  ls_len : Z.of_nat (length (lh_block l)) = LOGSIZE;
  ls_max : Z.of_nat (length bs) < LOGSIZE;
  ls_at : ∀ i b, bs !! i = Some b → lh_block l !! i = Some b;
}.

(** Where a log may be, and what it may name: blocks of the disk outside the
    log, each once. *)
Definition outside (st m : Z) : Prop := 0 <= m < FSSIZE ∧ (m < st ∨ st + LOGSIZE <= m).
Record placed (st : Z) (bs : list Z) : Prop := {
  pl_start : 0 <= st ∧ st + LOGSIZE <= FSSIZE;
  pl_max : Z.of_nat (length bs) < LOGSIZE;
  pl_home : Forall (outside st) bs;
  pl_nodup : NoDup bs;
}.

Lemma after_ext (f g : Z → block) ws m : (∀ n, f n = g n) → after f ws m = after g ws m.
Proof.
  unfold after. revert f g. induction ws as [|x ws IH]; intros f g Hfg; cbn; [done|]. apply IH. intros j. rewrite !fn_insert_at. by rewrite Hfg.
Qed.

Section run.
Context {C B : Type} `{BlockCacheSpec C B}.
Implicit Types (s : lsys C) (a : astate B).

Lemma in_cache_run {A} (m : M C A) s x c :
  m (cache s) = Ret (x, c) → in_cache m s = Ret (x, LSys (lg s) c).
Proof. intros E. unfold in_cache. by rewrite E. Qed.
Lemma lbread_run s n b c :
  0 <= n < FSSIZE → bc_read n (cache s) = Ret (b, c) → lbread n s = Ret (b, LSys (lg s) c).
Proof.
  intros Hn E. unfold lbread. rewrite wrap_small by (unfold in_range, FSSIZE in *; lia).
  by apply in_cache_run.
Qed.

Lemma block_at_run s bs i b :
  lists (lg s) bs → bs !! i = Some b → block_at (Z.of_nat i) s = Ret (b, s).
Proof.
  intros Hl Hb. unfold block_at. erewrite bind_Ret by done.
  destruct (Z.ltb_spec (Z.of_nat i) 0); [lia|]. by rewrite Nat2Z.id, (ls_at _ _ Hl _ _ Hb).
Qed.

Lemma write_head_loop_run s bs suf : ∀ pre d,
  lists (lg s) bs → bs = pre ++ suf → Z.of_nat (length d) = BSIZE →
  Forall (λ b, 0 <= b < FSSIZE) bs →
  ∃ d', write_head_loop d (length suf) (Z.of_nat (length pre)) s = Ret (d', s) ∧
    Z.of_nat (length d') = BSIZE ∧
    (∀ o, o < 4 + 4 * Z.of_nat (length pre) → 0 <= o → o mod 4 = 0 → get32 d' o = get32 d o) ∧
    (∀ j b, suf !! j = Some b → get32 d' (4 + 4 * Z.of_nat (length pre + j)) = Some b).
Proof.
  induction suf as [|b suf IH]; intros pre d Hl -> Hd Hr; cbn [write_head_loop length].
  { exists d. by split_and!. }
  pose proof (ls_max _ _ Hl) as Hmax. rewrite length_app in Hmax. cbn [length] in Hmax.
  assert ((pre ++ b :: suf) !! length pre = Some b) as Hb by (by apply list_lookup_middle).
  rewrite (bind_Ret _ _ _ _ _ (block_at_run _ _ _ _ Hl Hb)).
  unfold LOGSIZE, MAXOPBLOCKS, BSIZE in *.
  destruct (put32_is_Some d (4 + 4 * Z.of_nat (length pre)) b) as [d1 Hp]; [lia..|].
  rewrite Hp. cbn [oget]. erewrite bind_Ret by done.
  destruct (IH (pre ++ [b]) d1) as (d' & E & Hd' & Hlow & Hhigh).
  { done. } { by rewrite <- app_assoc. } { by rewrite (length_put32 _ _ _ _ Hp). } { done. }
  rewrite length_app, Nat2Z.inj_add in E. cbn [length] in E. exists d'. split_and!; [done|done| |].
  - intros o Ho1 Ho2 Hm. rewrite Hlow by (rewrite ?length_app; cbn [length]; lia).
    apply (get32_put32_other _ _ _ _ _ Hp). left. dlia.
  - intros [|j] x Hx.
    + injection Hx as <-. rewrite Nat.add_0_r, Hlow.
      * apply (get32_put32 _ _ _ _ Hp). rewrite Forall_app, Forall_cons in Hr. unfold FSSIZE in *. lia.
      * rewrite length_app. cbn [length]. lia.
      * lia.
      * dlia.
    + specialize (Hhigh j x Hx). rewrite length_app in Hhigh. cbn [length] in Hhigh.
      by replace (length pre + S j)%nat with (length pre + 1 + j)%nat by lia.
Qed.

(** *** Steps on the abstract cache *)

Definition quiet a : Prop := ∀ m, a_held a m = None.
Definition a_head (st : Z) (d : block) a : astate B :=
  AState (a_refs a) (a_held a) (<[st := d]> (a_view a)) (<[st := d]> (a_disk a)) (a_avail a)
    (a_hist a ++ [(st, d)]).
(** Block [src] copied to [dst], on disk too. *)
Definition a_copy (src dst : Z) a : astate B :=
  AState (a_refs a) (a_held a) (<[dst := a_view a src]> (a_view a))
    (<[dst := a_view a src]> (a_disk a)) (a_avail a) (a_hist a ++ [(dst, a_view a src)]).
(** The same, and [dst] loses a reference. *)
Definition a_install (src dst : Z) a : astate B :=
  AState (<[dst := a_refs a dst - 1]> (a_refs a)) (a_held a) (<[dst := a_view a src]> (a_view a))
    (<[dst := a_view a src]> (a_disk a)) (if a_refs a dst =? 1 then a_avail a + 1 else a_avail a)
    (a_hist a ++ [(dst, a_view a src)]).

Lemma write_head_run s a bs :
  bc_rep (cache s) a → quiet a → lists (lg s) bs → Forall (λ b, 0 <= b < FSSIZE) bs →
  0 <= start (lg s) < FSSIZE → a_room (start (lg s)) a →
  ∃ c d, write_head s = Ret ((), LSys (lg s) c) ∧ bc_rep c (a_head (start (lg s)) d a) ∧
    header_blocks d = Some bs ∧ Z.of_nat (length d) = BSIZE.
Proof.
  intros Ha Hq Hl Hr Hst Hroom. unfold write_head. erewrite bind_Ret by done.
  set (st := start (lg s)) in *.
  destruct (bc_read_ok _ a st Ha Hst (Hq st) Hroom) as (b & c1 & E1 & Ha1).
  rewrite (bind_Ret _ _ _ _ _ (lbread_run _ _ _ _ Hst E1)). set (s1 := LSys (lg s) c1).
  assert (Hh1 : a_held (a_read st b a) st = Some b) by apply fn_lookup_insert.
  rewrite (bind_Ret _ _ _ _ _ (in_cache_run _ s1 _ _ (bc_data_ok _ _ _ _ Ha1 Hh1))).
  erewrite bind_Ret by done. change (a_view (a_read st b a) st) with (a_view a st).
  destruct (bc_rep_block _ _ st Ha Hst) as [Hlen _].
  destruct (put32_is_Some (a_view a st) 0 (lh_n (lg s))) as [d1 Hp]; [lia|unfold BSIZE in *; lia|].
  cbn [lg s1]. rewrite Hp. cbn [oget]. erewrite bind_Ret by done.
  pose proof (ls_max _ _ Hl) as Hmax. unfold LOGSIZE, MAXOPBLOCKS in Hmax.
  destruct (write_head_loop_run s1 bs bs [] d1) as (d & E2 & Hd & Hlow & Hhigh); [done|done| |done|].
  { by rewrite (length_put32 _ _ _ _ Hp). }
  cbn [length] in E2, Hlow, Hhigh. change (Z.of_nat 0) with 0 in *.
  rewrite (ls_n _ _ Hl), Nat2Z.id in *. change (LSys (lg s) (cache s1)) with s1.
  rewrite (bind_Ret _ _ _ _ _ E2).
  destruct (bc_store_ok _ _ _ _ d Ha1 Hh1 Hd) as (c2 & E3 & Ha2).
  rewrite (bind_Ret _ _ _ _ _ (in_cache_run _ s1 _ _ E3)). set (s2 := LSys (lg s1) c2).
  destruct (bc_write_ok _ _ st b Ha2 Hh1) as (c3 & E4 & Ha3).
  rewrite (bind_Ret _ _ _ _ _ (in_cache_run _ s2 _ _ E4)). set (s3 := LSys (lg s2) c3).
  destruct (bc_release_ok _ _ st b Ha3 Hh1) as (c4 & E5 & Ha4).
  { intros _. cbn. by rewrite !fn_lookup_insert. }
  exists c4, d. rewrite (in_cache_run _ s3 _ _ E5). split_and!; [done| | |done].
  - eapply bc_rep_proper; [done| |exact Ha4]. unfold a_head. same_state.
  - apply header_blocks_intro; [|unfold LOGSIZE, MAXOPBLOCKS; lia|].
    + rewrite Hlow by done. apply (get32_put32 _ _ _ _ Hp). lia.
    + intros i x Hx. by apply Hhigh.
Qed.

(** One round of [write_log]: [src], which is pinned, to the log block [dst]. *)
Lemma write_log_step s a src dst tail (k : M (lsys C) ()) :
  bc_rep (cache s) a → quiet a → 0 <= src < FSSIZE → 0 <= dst < FSSIZE → src ≠ dst →
  (∀ c : C, block_at tail (LSys (lg s) c) = Ret (src, LSys (lg s) c)) →
  0 < a_refs a src < 2 ^ 32 - 1 → a_room dst a →
  ∃ c, (to ← lbread dst; src ← block_at tail; from ← lbread src;
        d ← in_cache (bc_data from); in_cache (bc_store to d) ;; in_cache (bc_write to) ;;
        in_cache (bc_release from) ;; in_cache (bc_release to) ;; k) s = k (LSys (lg s) c) ∧
    bc_rep c (a_copy src dst a).
Proof.
  intros Ha Hq Hs Hd Hne Hblk Hps Hroom.
  destruct (bc_read_ok _ a dst Ha Hd (Hq dst) Hroom) as (t & c1 & E1 & Ha1).
  rewrite (bind_Ret _ _ _ _ _ (lbread_run _ _ _ _ Hd E1)). rewrite (bind_Ret _ _ _ _ _ (Hblk c1)). set (s1 := LSys (lg s) c1).
  destruct (bc_read_ok _ _ src Ha1 Hs) as (f & c2 & E2 & Ha2).
  { cbn. fn_simpl. apply Hq. }
  { left. cbn. by fn_simpl. }
  rewrite (bind_Ret _ _ _ _ _ (lbread_run s1 _ _ _ Hs E2)). set (s2 := LSys (lg s1) c2).
  assert (Hf : a_held (a_read src f (a_read dst t a)) src = Some f) by apply fn_lookup_insert.
  assert (Ht : a_held (a_read src f (a_read dst t a)) dst = Some t).
  { cbn. by fn_simpl. }
  rewrite (bind_Ret _ _ _ _ _ (in_cache_run _ s2 _ _ (bc_data_ok _ _ _ _ Ha2 Hf))).
  change (a_view (a_read src f (a_read dst t a)) src) with (a_view a src).
  destruct (bc_rep_block _ _ src Ha Hs) as [Hlen _].
  destruct (bc_store_ok _ _ _ _ (a_view a src) Ha2 Ht Hlen) as (c3 & E3 & Ha3).
  rewrite (bind_Ret _ _ _ _ _ (in_cache_run _ s2 _ _ E3)). set (s3 := LSys (lg s2) c3).
  destruct (bc_write_ok _ _ dst t Ha3 Ht) as (c4 & E4 & Ha4).
  rewrite (bind_Ret _ _ _ _ _ (in_cache_run _ s3 _ _ E4)). set (s4 := LSys (lg s3) c4).
  destruct (bc_release_ok _ _ src f Ha4 Hf) as (c5 & E5 & Ha5).
  { cbn. fn_simpl. lia. }
  rewrite (bind_Ret _ _ _ _ _ (in_cache_run _ s4 _ _ E5)). set (s5 := LSys (lg s4) c5).
  destruct (bc_release_ok _ _ dst t Ha5) as (c6 & E6 & Ha6).
  { cbn. by fn_simpl. }
  { cbn. by fn_simpl. }
  rewrite (bind_Ret _ _ _ _ _ (in_cache_run _ s5 _ _ E6)). exists c6. split; [done|].
  eapply bc_rep_proper; [done| |exact Ha6]. unfold a_copy. same_state.
Qed.

(** One round of [install_trans]: the log block [src] to [dst]. *)
Lemma install_step s a (rec : bool) src dst tail (k : M (lsys C) ()) :
  bc_rep (cache s) a → quiet a → 0 <= src < FSSIZE → 0 <= dst < FSSIZE → src ≠ dst →
  (∀ c : C, block_at tail (LSys (lg s) c) = Ret (dst, LSys (lg s) c)) →
  a_refs a src = 0 → 0 < a_avail a →
  (if rec then a_refs a dst = 0 ∧ 1 < a_avail a else 0 < a_refs a dst < 2 ^ 32 - 1) →
  ∃ c, (lbuf ← lbread src; dst ← block_at tail; dbuf ← lbread dst;
        d ← in_cache (bc_data lbuf); in_cache (bc_store dbuf d) ;; in_cache (bc_write dbuf) ;;
        (if rec then mret () else in_cache (bc_unpin dbuf)) ;;
        in_cache (bc_release lbuf) ;; in_cache (bc_release dbuf) ;; k) s = k (LSys (lg s) c) ∧
    bc_rep c (if rec then a_copy src dst a else a_install src dst a).
Proof.
  intros Ha Hq Hs Hd Hne Hblk Hz Hav Hdst.
  destruct (bc_read_ok _ a src Ha Hs (Hq src)) as (l & c1 & E1 & Ha1); [right; lia|].
  rewrite (bind_Ret _ _ _ _ _ (lbread_run _ _ _ _ Hs E1)). rewrite (bind_Ret _ _ _ _ _ (Hblk c1)).
  set (s1 := LSys (lg s) c1).
  destruct (bc_read_ok _ _ dst Ha1 Hd) as (b & c2 & E2 & Ha2).
  { cbn. fn_simpl. apply Hq. }
  { unfold a_room. cbn. fn_simpl. rewrite Hz. simpl.
    destruct rec; [right; lia|left; lia]. }
  rewrite (bind_Ret _ _ _ _ _ (lbread_run s1 _ _ _ Hd E2)). set (s2 := LSys (lg s1) c2).
  set (a2 := a_read dst b (a_read src l a)) in *.
  assert (Hb : a_held a2 dst = Some b) by apply fn_lookup_insert.
  assert (Hl : a_held a2 src = Some l) by (cbn; by fn_simpl).
  rewrite (bind_Ret _ _ _ _ _ (in_cache_run _ s2 _ _ (bc_data_ok _ _ _ _ Ha2 Hl))).
  change (a_view a2 src) with (a_view a src).
  destruct (bc_rep_block _ _ src Ha Hs) as [Hlen _].
  destruct (bc_store_ok _ _ _ _ (a_view a src) Ha2 Hb Hlen) as (c3 & E3 & Ha3).
  rewrite (bind_Ret _ _ _ _ _ (in_cache_run _ s2 _ _ E3)). set (s3 := LSys (lg s2) c3).
  destruct (bc_write_ok _ _ dst b Ha3 Hb) as (c4 & E4 & Ha4).
  rewrite (bind_Ret _ _ _ _ _ (in_cache_run _ s3 _ _ E4)). set (s4 := LSys (lg s3) c4).
  set (a4 := a_write dst _) in *.
  assert (Hun : ∃ c5, (if rec then mret () else in_cache (bc_unpin b)) s4 = Ret ((), LSys (lg s) c5) ∧
    bc_rep c5 (if rec then a4 else a_unpin dst a4)).
  { destruct rec; [by exists c4|]. destruct (bc_unpin_ok _ _ dst b Ha4 Hb) as (c5 & E5 & Ha5).
    - cbn. fn_simpl. lia.
    - exists c5. split; [by rewrite (in_cache_run _ s4 _ _ E5)|done]. }
  destruct Hun as (c5 & E5 & Ha5). rewrite (bind_Ret _ _ _ _ _ E5). set (s5 := LSys (lg s) c5).
  set (a5 := if rec then a4 else a_unpin dst a4) in *.
  assert (Hr5 : a_refs a5 dst = if rec then 1 else a_refs a dst).
  { subst a5. destruct rec; cbn; fn_simpl; lia. }
  destruct (bc_release_ok _ _ src l Ha5) as (c6 & E6 & Ha6).
  { subst a5. by destruct rec. }
  { intros _. subst a5. pose proof (bc_rep_clean _ _ _ Ha Hs Hz) as Hcl.
    destruct rec; cbn; by fn_simpl. }
  rewrite (bind_Ret _ _ _ _ _ (in_cache_run _ s5 _ _ E6)). set (s6 := LSys (lg s5) c6).
  destruct (bc_release_ok _ _ dst b Ha6) as (c7 & E7 & Ha7).
  { cbn. fn_simpl. subst a5. by destruct rec. }
  { intros _. subst a5. destruct rec; cbn; by fn_simpl. }
  rewrite (bind_Ret _ _ _ _ _ (in_cache_run _ s6 _ _ E7)). exists c7. split; [done|].
  eapply bc_rep_proper; [done| |exact Ha7]. unfold a_copy, a_install. subst a5 a4 a2. destruct rec; same_state.
Qed.

(** *** The loops *)

Fixpoint a_logged (st i : Z) (bs : list Z) a : astate B :=
  match bs with
  | [] => a
  | b :: bs => a_logged st (i + 1) bs (a_copy b (st + i + 1) a)
  end.
Fixpoint a_installed (rec : bool) (st i : Z) (bs : list Z) a : astate B :=
  match bs with
  | [] => a
  | b :: bs =>
      a_installed rec st (i + 1) bs
        (if rec then a_copy (st + i + 1) b a else a_install (st + i + 1) b a)
  end.

(** The writes the two loops make, from the contents [v] of the blocks. *)
Fixpoint log_writes (st i : Z) (bs : list Z) (v : Z → block) : list (Z * block) :=
  match bs with [] => [] | b :: bs => (st + i + 1, v b) :: log_writes st (i + 1) bs v end.
Fixpoint home_writes (st i : Z) (bs : list Z) (v : Z → block) : list (Z * block) :=
  match bs with [] => [] | b :: bs => (b, v (st + i + 1)) :: home_writes st (i + 1) bs v end.

(** The entries from [i] on fit in the log, and are home blocks. *)
Definition fits (st i : Z) (bs : list Z) : Prop :=
  0 <= st ∧ st + LOGSIZE <= FSSIZE ∧ 0 <= i ∧ i + Z.of_nat (length bs) < LOGSIZE ∧
  Forall (outside st) bs.

Lemma fits_cons st i b bs :
  fits st i (b :: bs) → outside st b ∧ 0 <= st + i + 1 < FSSIZE ∧ b ≠ st + i + 1 ∧ fits st (i + 1) bs.
Proof.
  intros (? & ? & ? & Hl & [Hb Hbs]%Forall_cons). cbn [length] in Hl. unfold outside in *.
  split_and!; try done; try lia. unfold fits, outside. split_and!; (done || lia).
Qed.

Lemma write_log_loop_run suf : ∀ pre s a,
  lists (lg s) (pre ++ suf) → fits (start (lg s)) (Z.of_nat (length pre)) suf →
  bc_rep (cache s) a → quiet a → Forall (λ b, 0 < a_refs a b < 2 ^ 32 - 1) suf →
  (∀ m, start (lg s) <= m < start (lg s) + LOGSIZE → a_refs a m = 0) → 0 < a_avail a →
  ∃ c, write_log_loop (length suf) (Z.of_nat (length pre)) s = Ret ((), LSys (lg s) c) ∧
    bc_rep c (a_logged (start (lg s)) (Z.of_nat (length pre)) suf a).
Proof.
  induction suf as [|b suf IH]; intros pre s a Hl Hf Ha Hq Hpin Hlog Hav; cbn [write_log_loop length a_logged].
  { exists (cache s). by destruct s. }
  apply fits_cons in Hf as (Hb & Hdst & Hne & Hf). apply Forall_cons in Hpin as [Hpb Hpin].
  set (st := start (lg s)) in *. set (i := Z.of_nat (length pre)) in *. erewrite bind_Ret by done.
  assert (Hblk : ∀ c : C, block_at i (LSys (lg s) c) = Ret (b, LSys (lg s) c)).
  { intros c. eapply block_at_run; [exact Hl|]. by apply list_lookup_middle. }
  assert (Hi : 0 <= i < LOGSIZE - 1) by (destruct Hf as (_ & _ & ? & ? & _); lia).
  destruct (write_log_step s a b (st + i + 1) i (write_log_loop (length suf) (i + 1)))
    as (c & E & Ha'); try done.
  { apply Hb. } { right. split; [apply Hlog; lia|done]. }
  fold st. rewrite E.
  destruct (IH (pre ++ [b]) (LSys (lg s) c) (a_copy b (st + i + 1) a)) as (c' & E' & Ha'').
  - by rewrite <- app_assoc.
  - rewrite length_app, Nat2Z.inj_add. exact Hf.
  - done. - done. - done. - done. - done.
  - rewrite length_app, Nat2Z.inj_add in E', Ha''. exists c'. split; [exact E'|exact Ha''].
Qed.

Lemma install_loop_run (rec : bool) suf : ∀ pre s a,
  lists (lg s) (pre ++ suf) → fits (start (lg s)) (Z.of_nat (length pre)) suf → NoDup suf →
  bc_rep (cache s) a → quiet a →
  Forall (λ b, if rec then a_refs a b = 0 else 0 < a_refs a b < 2 ^ 32 - 1) suf →
  (∀ m, start (lg s) <= m < start (lg s) + LOGSIZE → a_refs a m = 0) →
  (if rec then 1 else 0) < a_avail a →
  ∃ c, install_loop rec (length suf) (Z.of_nat (length pre)) s = Ret ((), LSys (lg s) c) ∧
    bc_rep c (a_installed rec (start (lg s)) (Z.of_nat (length pre)) suf a).
Proof.
  induction suf as [|b suf IH]; intros pre s a Hl Hf Hnd Ha Hq Hpin Hlog Hav;
    cbn [install_loop length a_installed]; [exists (cache s); by destruct s|].
  apply fits_cons in Hf as (Hb & Hsrc & Hne & Hf). apply Forall_cons in Hpin as [Hpb Hpin].
  apply NoDup_cons in Hnd as [Hnb Hnd].
  set (st := start (lg s)) in *. set (i := Z.of_nat (length pre)) in *. erewrite bind_Ret by done.
  assert (Hblk : ∀ c : C, block_at i (LSys (lg s) c) = Ret (b, LSys (lg s) c)).
  { intros c. eapply block_at_run; [exact Hl|]. by apply list_lookup_middle. }
  assert (Hi : 0 <= i < LOGSIZE - 1) by (destruct Hf as (_ & _ & ? & ? & _); lia).
  destruct (install_step s a rec (st + i + 1) b i (install_loop rec (length suf) (i + 1)))
    as (c & E & Ha'); try done.
  { apply Hb. } { apply Hlog. lia. } { destruct rec; lia. } { by destruct rec. }
  fold st. rewrite E. set (a1 := if rec then a_copy _ _ _ else _) in *.
  destruct (IH (pre ++ [b]) (LSys (lg s) c) a1) as (c' & E' & Ha'').
  - by rewrite <- app_assoc.
  - rewrite length_app, Nat2Z.inj_add. exact Hf.
  - done.
  - done.
  - by destruct rec.
  - rewrite Forall_forall in Hpin |- *. intros x Hx. subst a1. specialize (Hpin x Hx).
    destruct rec; [done|]. cbn. rewrite fn_insert_at, decide_False; [done|]. by intros ->.
  - intros m Hm. subst a1. cbn in Hm. specialize (Hlog m Hm). destruct rec; [done|].
    cbn. rewrite fn_insert_at, decide_False; [done|]. unfold outside in Hb. intros ->. fold st in Hm. lia.
  - subst a1. destruct rec; [done|]. cbn. destruct (_ =? _); lia.
  - rewrite length_app, Nat2Z.inj_add in E', Ha''. exists c'. split; [exact E'|exact Ha''].
Qed.

(** What [write_log] leaves: the contents of the home blocks in the log. *)
Lemma a_logged_facts bs : ∀ st i a,
  fits st i bs →
  let a' := a_logged st i bs a in
  (∀ m, a_refs a' m = a_refs a m) ∧ a_held a' = a_held a ∧ a_avail a' = a_avail a ∧
  a_hist a' = a_hist a ++ log_writes st i bs (a_view a) ∧
  (∀ m, m <= st + i ∨ st + i + Z.of_nat (length bs) < m →
     a_view a' m = a_view a m ∧ a_disk a' m = a_disk a m) ∧
  (∀ j b, bs !! j = Some b → a_view a' (st + i + 1 + Z.of_nat j) = a_view a b).
Proof.
  induction bs as [|b bs IH]; intros st i a Hf; cbn [a_logged log_writes length].
  { split_and!; try done. by rewrite app_nil_r. }
  apply fits_cons in Hf as (Hb & Hdst & Hne & Hf).
  destruct (IH st (i + 1) (a_copy b (st + i + 1) a) Hf) as (E1 & E2 & E3 & E4 & E5 & E6).
  pose proof Hf as (Hst & _ & Hi & Hlen & Hout).
  assert (Hv : ∀ x, outside st x → a_view (a_copy b (st + i + 1) a) x = a_view a x).
  { intros x Hx. cbn. apply fn_lookup_insert_ne. unfold outside in Hx. lia. }
  assert (Hw : ∀ l k, Forall (outside st) l →
    log_writes st k l (a_view (a_copy b (st + i + 1) a)) = log_writes st k l (a_view a)).
  { intros l. induction l as [|x l IHl]; intros k Hl; [done|]. apply Forall_cons in Hl as [Hx Hl].
    cbn [log_writes]. by rewrite Hv, IHl. }
  split_and!.
  - done. - done. - done.
  - rewrite E4, Hw by done. cbn. by rewrite <- app_assoc.
  - intros m Hm. destruct (E5 m) as [-> ->]; [lia|]. cbn. by rewrite !fn_lookup_insert_ne by lia.
  - intros [|j] x Hx.
    + injection Hx as <-. change (Z.of_nat 0) with 0. rewrite Z.add_0_r.
      destruct (E5 (st + i + 1)) as [-> _]; [lia|]. apply fn_lookup_insert.
    + replace (st + i + 1 + Z.of_nat (S j)) with (st + (i + 1) + 1 + Z.of_nat j) by lia.
      rewrite (E6 j x Hx). apply Hv. rewrite Forall_lookup in Hout. by eapply Hout.
Qed.

(** What [install_trans] leaves: the contents of the log in the home blocks. *)
Lemma a_installed_facts (rec : bool) bs : ∀ st i a,
  fits st i bs → NoDup bs →
  let a' := a_installed rec st i bs a in
  (∀ m, a_refs a' m = if rec then a_refs a m else if decide (m ∈ bs) then a_refs a m - 1 else a_refs a m) ∧
  a_held a' = a_held a ∧ a_avail a <= a_avail a' ∧
  a_hist a' = a_hist a ++ home_writes st i bs (a_view a) ∧
  (∀ m, m ∉ bs → a_view a' m = a_view a m ∧ a_disk a' m = a_disk a m) ∧
  (∀ j b, bs !! j = Some b →
     a_view a' b = a_view a (st + i + 1 + Z.of_nat j) ∧ a_disk a' b = a_view a (st + i + 1 + Z.of_nat j)).
Proof.
  induction bs as [|b bs IH]; intros st i a Hf Hnd; cbn [a_installed home_writes].
  { split_and!; try done. by destruct rec. by rewrite app_nil_r. }
  apply fits_cons in Hf as (Hb & Hdst & Hne & Hf). apply NoDup_cons in Hnd as [Hnb Hnd].
  set (a1 := if rec then _ else _).
  destruct (IH st (i + 1) a1 Hf Hnd) as (E1 & E2 & E3 & E4 & E5 & E6).
  pose proof Hf as (Hst & Htop & Hi & Hlen & Hout).
  assert (Hv1 : ∀ m, m ≠ b → a_view a1 m = a_view a m ∧ a_disk a1 m = a_disk a m).
  { intros m Hm. subst a1. destruct rec; cbn; by rewrite !fn_lookup_insert_ne. }
  assert (Hvb : a_view a1 b = a_view a (st + i + 1) ∧ a_disk a1 b = a_view a (st + i + 1)).
  { subst a1. destruct rec; cbn; by rewrite !fn_lookup_insert. }
  assert (Hw : ∀ l k, 0 <= k → k + Z.of_nat (length l) < LOGSIZE →
    home_writes st k l (a_view a1) = home_writes st k l (a_view a)).
  { intros l. induction l as [|x l IHl]; intros k Hk Hkl; [done|]. cbn [home_writes length] in *.
    rewrite IHl by lia. destruct (Hv1 (st + k + 1)) as [-> _]; [|done]. unfold outside in Hb. lia. }
  assert (Hj : ∀ j, (j < length bs)%nat → a_view a1 (st + (i + 1) + 1 + Z.of_nat j) =
    a_view a (st + i + 1 + Z.of_nat (S j))).
  { intros j Hj. destruct (Hv1 (st + (i + 1) + 1 + Z.of_nat j)) as [-> _]; [|f_equal; lia].
    unfold outside in Hb. lia. }
  split_and!.
  - intros m. rewrite E1. subst a1. destruct rec; [done|]. cbn. rewrite fn_insert_at.
    destruct (decide (m = b)) as [->|Hm].
    + by rewrite decide_False, decide_True by in_list.
    + destruct (decide (m ∈ bs)); [by rewrite decide_True by in_list|by rewrite decide_False by in_list].
  - rewrite E2. subst a1. by destruct rec.
  - etrans; [|exact E3]. subst a1. destruct rec; cbn; [lia|]. destruct (_ =? _); lia.
  - rewrite E4, Hw by lia. subst a1. destruct rec; cbn; by rewrite <- app_assoc.
  - intros m Hm. rewrite not_elem_of_cons in Hm. destruct Hm as [Hm Hms].
    destruct (E5 m Hms) as [-> ->]. by apply Hv1.
  - intros [|j] x Hx.
    + injection Hx as <-. rewrite Z.add_0_r. by destruct (E5 b Hnb) as [-> ->].
    + simpl in Hx. pose proof (lookup_lt_Some _ _ _ Hx).
      rewrite <- Hj by done. by apply E6.
Qed.

(** The references the log had are given back. *)
Lemma a_installed_avail bs : ∀ st i a, fits st i bs → NoDup bs → Forall (λ b, a_refs a b = 1) bs →
  a_avail (a_installed false st i bs a) = a_avail a + Z.of_nat (length bs).
Proof.
  induction bs as [|b bs IH]; intros st i a Hf Hnd Hr; cbn [a_installed length]; [lia|].
  apply fits_cons in Hf as (_ & _ & _ & Hf). apply NoDup_cons in Hnd as [Hnb Hnd]. apply Forall_cons in Hr as [Hb Hr].
  rewrite IH by (try done; rewrite Forall_forall in Hr |- *; intros x Hx; cbn; rewrite fn_insert_at, decide_False by (by intros ->); auto).
  cbn. rewrite Hb. cbn. lia.
Qed.

(** The history tells how the disk changes. *)
Definition writes_between a a' (w : list (Z * block)) : Prop := a_hist a' = a_hist a ++ w ∧ ∀ m, a_disk a' m = after (a_disk a) w m.
Lemma writes_trans a1 a2 a3 w1 w2 : writes_between a1 a2 w1 → writes_between a2 a3 w2 → writes_between a1 a3 (w1 ++ w2).
Proof.
  intros [H1 D1] [H2 D2]. split; [by rewrite H2, H1, app_assoc|]. intros m. rewrite D2. unfold after. rewrite fold_left_app. change (after (a_disk a2) w2 m = after (after (a_disk a1) w1) w2 m). by apply after_ext.
Qed.
Lemma writes_one a n d : writes_between a (a_head n d a) [(n, d)].
Proof. done. Qed.
Lemma writes_logged bs : ∀ st i a, ∃ w, writes_between a (a_logged st i bs a) w.
Proof.
  induction bs as [|b bs IH]; intros st i a; cbn [a_logged]; [exists []; split; [by rewrite app_nil_r|done]|].
  destruct (IH st (i + 1) (a_copy b (st + i + 1) a)) as [w Hw]. eexists. eapply writes_trans; [|exact Hw]. by instantiate (1 := [(_, _)]).
Qed.
Lemma writes_installed bs : ∀ st i a, ∃ w, writes_between a (a_installed false st i bs a) w.
Proof.
  induction bs as [|b bs IH]; intros st i a; cbn [a_installed]; [exists []; split; [by rewrite app_nil_r|done]|].
  destruct (IH st (i + 1) (a_install (st + i + 1) b a)) as [w Hw]. eexists. eapply writes_trans; [|exact Hw]. by instantiate (1 := [(_, _)]).
Qed.
End run.

(** ** Crashes, on disks *)

Section crash.
Implicit Types (d : Z → block) (bs : list Z) (w : list (Z * block)).

Lemma after_app d w1 w2 : after d (w1 ++ w2) = after (after d w1) w2.
Proof. unfold after. apply fold_left_app. Qed.

Lemma after_other d w m : m ∉ w.*1 → after d w m = d m.
Proof.
  revert d. induction w as [|[n b] w IH]; intros d Hm; [done|]. cbn [fmap list_fmap fst] in Hm.
  rewrite not_elem_of_cons in Hm. destruct Hm as [Hn Hm]. unfold after. cbn [fold_left].
  etrans; [by apply IH|]. apply fn_lookup_insert_ne. cbn in *. congruence.
Qed.

Lemma take_in {A} (x : A) k l : x ∈ take k l → x ∈ l.
Proof. rewrite <- (take_drop k l) at 2. intros. apply elem_of_app. by left. Qed.

Lemma log_writes_dom st i bs v m :
  m ∈ (log_writes st i bs v).*1 → st + i < m <= st + i + Z.of_nat (length bs).
Proof.
  revert i. induction bs as [|b bs IH]; intros i; cbn [log_writes]; [by intros ?%elem_of_nil|].
  cbn [fmap list_fmap fst length]. rewrite elem_of_cons. intros [->|Hm%IH]; lia.
Qed.

Lemma home_writes_dom st i bs v : (home_writes st i bs v).*1 = bs.
Proof. revert i. induction bs as [|b bs IH]; intros i; [done|]. cbn. f_equal. apply IH. Qed.

Lemma length_log_writes st i bs v : length (log_writes st i bs v) = length bs.
Proof. revert i. induction bs; intros i; simpl; auto. Qed.

Lemma length_home_writes st i bs v : length (home_writes st i bs v) = length bs.
Proof. revert i. induction bs; intros i; simpl; auto. Qed.

Lemma after_log_writes d st i bs v j b :
  bs !! j = Some b → after d (log_writes st i bs v) (st + i + 1 + Z.of_nat j) = v b.
Proof.
  revert d i j. induction bs as [|x bs IH]; intros d i j Hj; [done|].
  cbn [log_writes]. change (after d (?a :: ?l)) with (after (<[a.1 := a.2]> d) l). cbn [fst snd].
  destruct j as [|j].
  - injection Hj as <-. rewrite after_other, Z.add_0_r; [apply fn_lookup_insert|].
    intros Hm%log_writes_dom. lia.
  - simpl in Hj. rewrite <- (IH (<[st + i + 1 := v x]> d) (i + 1) j Hj). f_equal. lia.
Qed.

Lemma after_home_writes d st i bs v j b :
  NoDup bs → bs !! j = Some b → after d (home_writes st i bs v) b = v (st + i + 1 + Z.of_nat j).
Proof.
  revert d i j. induction bs as [|x bs IH]; intros d i j Hnd Hj; [done|].
  apply NoDup_cons in Hnd as [Hx Hnd].
  cbn [home_writes]. change (after d (?a :: ?l)) with (after (<[a.1 := a.2]> d) l). cbn [fst snd].
  destruct j as [|j].
  - injection Hj as <-. rewrite after_other, Z.add_0_r; [apply fn_lookup_insert|].
    by rewrite home_writes_dom.
  - simpl in Hj. rewrite (IH _ (i + 1) j Hnd Hj). f_equal. lia.
Qed.

Lemma installed_other st i bs d m : m ∉ bs → installed st i bs d m = d m.
Proof.
  revert i d. induction bs as [|b bs IH]; intros i d Hm; [done|]. rewrite not_elem_of_cons in Hm.
  cbn [installed]. rewrite IH by tauto. apply fn_lookup_insert_ne. destruct Hm. congruence.
Qed.

Lemma installed_at st i bs d j (b : Z) :
  fits st i bs → NoDup bs → bs !! j = Some b →
  installed st i bs d b = d (st + i + 1 + Z.of_nat j).
Proof.
  revert i d j. induction bs as [|x bs IH]; intros i d j Hf Hnd Hj; [done|].
  apply fits_cons in Hf as (Hx & Hdst & Hne & Hf). apply NoDup_cons in Hnd as [Hxn Hnd].
  pose proof Hf as (? & ? & ? & Hlen & _). cbn [installed]. destruct j as [|j].
  - injection Hj as <-. rewrite installed_other, Z.add_0_r by done. apply fn_lookup_insert.
  - simpl in Hj. pose proof (lookup_lt_Some _ _ _ Hj). rewrite (IH (i + 1) _ j) by done.
    rewrite fn_lookup_insert_ne; [f_equal; lia|]. unfold outside in Hx. lia.
Qed.

Lemma placed_fits st bs : placed st bs → fits st 0 bs.
Proof. intros []. unfold fits. split_and!; (done || lia). Qed.

Lemma placed_nil st : 0 <= st → st + LOGSIZE <= FSSIZE → placed st [].
Proof. intros ??. by constructor; try constructor. Qed.

(** The writes of a commit: the log, the header, the home blocks, the header. *)
Definition commit_writes st bs (v v' : Z → block) (d1 d2 : block) : list (Z * block) :=
  log_writes st 0 bs v ++ (st, d1) :: home_writes st 0 bs v' ++ [(st, d2)].

(** The contents of the disk the commit is about. *)
Definition committed bs (v d : Z → block) : Z → block :=
  λ m, if decide (m ∈ bs) then v m else d m.

Lemma outside_not_log st bs i v m : outside st m → fits st i bs → m ∉ (log_writes st i bs v).*1.
Proof. intros Hm (? & ? & ? & ? & _) Hin%log_writes_dom. unfold outside in Hm. lia. Qed.

Lemma not_log_home st bs j : placed st bs → 0 <= j < LOGSIZE → st + j ∉ bs.
Proof.
  intros [] Hj Hin. rewrite Forall_forall in pl_home0. specialize (pl_home0 _ Hin).
  unfold outside in *. lia.
Qed.

(** Recovery of a disk with header [bs] and the contents [v] in its log. *)
Lemma recovered_committed st bs d (v : Z → block) m :
  placed st bs → header_blocks (d st) = Some bs →
  (∀ j b, bs !! j = Some b → d (st + 0 + 1 + Z.of_nat j) = v b) →
  recovered st d m = committed bs v d m.
Proof.
  intros Hp Hh Hl. unfold recovered, committed. rewrite Hh. case_decide as Hm.
  - apply list_elem_of_lookup in Hm as [j Hj].
    rewrite (installed_at st 0 bs d j m); [by apply Hl|by apply placed_fits|by apply Hp|done].
  - by apply installed_other.
Qed.

Lemma crash_commit st bs (D v v' : Z → block) (d1 d2 : block) k :
  placed st bs → header_blocks (D st) = Some [] → header_blocks d1 = Some bs →
  header_blocks d2 = Some [] → (∀ j b, bs !! j = Some b → v' (st + 0 + 1 + Z.of_nat j) = v b) →
  let d := after D (take k (commit_writes st bs v v' d1 d2)) in
  ∃ hb, header_blocks (d st) = Some hb ∧ placed st hb ∧
    ∀ m, outside st m → recovered st d m = (if decide (k <= length bs)%nat then D m else committed bs v D m).
Proof.
  intros Hp HD H1 H2 Hv. set (n := length bs). pose proof (placed_fits _ _ Hp) as Hf.
  pose proof (pl_start _ _ Hp) as [Hst Htop]. pose proof (placed_nil st Hst Htop) as Hnil.
  pose proof (pl_max _ _ Hp) as Hmax. unfold commit_writes.
  assert (Hst0 : st ∉ (log_writes st 0 bs v).*1) by (intros Hm%log_writes_dom; lia).
  assert (Hsth : st ∉ bs) by (pose proof (not_log_home st bs 0 Hp); rewrite Z.add_0_r in *; unfold LOGSIZE, MAXOPBLOCKS in *; auto with lia).
  destruct (decide (k <= n)%nat) as [Hk|Hk].
  - rewrite take_app_le by (rewrite length_log_writes; done). cbn zeta.
    set (d := after D _). assert (Hds : d st = D st).
    { apply after_other. intros Hin. apply Hst0. rewrite fmap_take in Hin. by eapply take_in. }
    exists []. rewrite Hds. split_and!; [done|done|]. intros m Hm. unfold recovered. rewrite Hds, HD.
    apply after_other. intros Hin. rewrite fmap_take in Hin. apply take_in in Hin.
    by eapply outside_not_log.
  - rewrite take_app_ge by (rewrite length_log_writes; lia). rewrite length_log_writes.
    destruct (k - length bs)%nat as [|j] eqn:Ej; [lia|]. cbn [take]. rewrite after_app.
    set (dl := after D (log_writes st 0 bs v)).
    change (after dl (?a :: ?l)) with (after (<[a.1 := a.2]> dl) l). cbn [fst snd].
    set (d1' := <[st := d1]> dl).
    assert (Hlog : ∀ i b, bs !! i = Some b → d1' (st + 0 + 1 + Z.of_nat i) = v b).
    { intros i b Hi. subst d1'. rewrite fn_lookup_insert_ne by lia. by apply after_log_writes. }
    assert (Hout : ∀ m, outside st m → d1' m = D m).
    { intros m Hm. subst d1'. rewrite fn_lookup_insert_ne by (unfold outside in Hm; unfold LOGSIZE, MAXOPBLOCKS in *; lia).
      apply after_other. by eapply outside_not_log. }
    destruct (decide (j <= n)%nat) as [Hj|Hj].
    + rewrite take_app_le by (rewrite length_home_writes; done). cbn zeta.
      set (hw := take j _). assert (Hdom : ∀ m, m ∉ bs → m ∉ hw.*1).
      { intros m Hm Hin. apply Hm. subst hw. rewrite fmap_take, home_writes_dom in Hin. by eapply take_in. }
      assert (Hds : after d1' hw st = d1) by (rewrite after_other by auto; apply fn_lookup_insert).
      exists bs. rewrite Hds. split_and!; [done|done|]. intros m Hm.
      rewrite (recovered_committed st bs _ v); [| done|by rewrite Hds|].
      * unfold committed. case_decide; [done|]. rewrite after_other by auto. by apply Hout.
      * intros i b Hi. rewrite after_other; [by apply Hlog|]. apply Hdom.
        rewrite <- !Z.add_assoc. apply not_log_home; [done|]. pose proof (lookup_lt_Some _ _ _ Hi). lia.
    + rewrite (take_ge (_ ++ _)) by (rewrite length_app, length_home_writes; cbn [length]; lia).
      cbn zeta. rewrite after_app. set (dh := after d1' _).
      change (after dh [(st, d2)]) with (<[st := d2]> dh).
      exists []. rewrite fn_lookup_insert. split_and!; [done|done|]. intros m Hm.
      unfold recovered. rewrite fn_lookup_insert, H2. cbn [installed].
      rewrite fn_lookup_insert_ne by (unfold outside in Hm; unfold LOGSIZE, MAXOPBLOCKS in *; lia).
      subst dh. unfold committed. case_decide as Hin.
      * apply list_elem_of_lookup in Hin as [i Hi].
        rewrite (after_home_writes _ _ _ _ _ i) by (done || apply Hp). by apply Hv.
      * rewrite after_other by (by rewrite home_writes_dom). by apply Hout.
Qed.

(** A crash during recovery is recovered from to the same contents. *)
Lemma crash_recover st bs (D : Z → block) (d2 : block) k :
  placed st bs → header_blocks (D st) = Some bs → header_blocks d2 = Some [] →
  let d := after D (take k (home_writes st 0 bs D ++ [(st, d2)])) in
  (∃ hb, header_blocks (d st) = Some hb ∧ placed st hb) ∧
  ∀ m, outside st m → recovered st d m = recovered st D m.
Proof.
  intros Hp HD H2. pose proof (pl_start _ _ Hp) as [Hst Htop]. pose proof (pl_max _ _ Hp) as Hmax.
  assert (Hsth : st ∉ bs) by (pose proof (not_log_home st bs 0 Hp); rewrite Z.add_0_r in *; unfold LOGSIZE, MAXOPBLOCKS in *; auto with lia).
  assert (Hrec : ∀ m, recovered st D m = installed st 0 bs D m) by (intros; unfold recovered; by rewrite HD).
  destruct (decide (k <= length bs)%nat) as [Hk|Hk].
  - rewrite take_app_le by (by rewrite length_home_writes). cbn zeta. set (hw := take k _).
    assert (Hdom : ∀ m, m ∉ bs → m ∉ hw.*1).
    { intros m Hm Hin. apply Hm. subst hw. rewrite fmap_take, home_writes_dom in Hin. by eapply take_in. }
    assert (Hds : after D hw st = D st) by (by apply after_other; auto).
    split; [exists bs; by rewrite Hds|]. intros m Hm. rewrite Hrec. unfold recovered. rewrite Hds, HD.
    destruct (decide (m ∈ bs)) as [Hin|Hin].
    + apply list_elem_of_lookup in Hin as [i Hi]. pose proof (lookup_lt_Some _ _ _ Hi).
      rewrite !(installed_at st 0 bs _ i) by (done || by apply placed_fits || apply Hp).
      apply after_other, Hdom. rewrite <- !Z.add_assoc. apply not_log_home; [done|lia].
    + rewrite !installed_other by done. by apply after_other; auto.
  - rewrite take_ge by (rewrite length_app, length_home_writes; cbn [length]; lia). cbn zeta.
    rewrite after_app. set (dh := after D _). change (after dh [(st, d2)]) with (<[st := d2]> dh).
    rewrite fn_lookup_insert. split; [exists []; split; [done|by apply placed_nil]|].
    intros m Hm. unfold recovered at 1. rewrite fn_lookup_insert, H2, Hrec. cbn [installed].
    rewrite fn_lookup_insert_ne by (unfold outside in Hm; unfold LOGSIZE, MAXOPBLOCKS in *; lia).
    subst dh. destruct (decide (m ∈ bs)) as [Hin|Hin].
    + apply list_elem_of_lookup in Hin as [i Hi].
      rewrite (after_home_writes _ _ _ _ _ i) by (done || apply Hp).
      by rewrite (installed_at st 0 bs _ i) by (done || by apply placed_fits || apply Hp).
    + rewrite installed_other by done. apply after_other. by rewrite home_writes_dom.
Qed.
End crash.

(** ** Commit and recovery, on the cache *)

Section commit.
Context {C B : Type} `{BlockCacheSpec C B}.
Implicit Types (s : lsys C) (a : astate B).

(** A log ready to commit [bs]: no operation holds a buffer, the blocks of the
    transaction are pinned, the header on disk is empty. *)
Record committable s a (bs : list Z) : Prop := {
  cm_rep : bc_rep (cache s) a;
  cm_quiet : quiet a;
  cm_lists : lists (lg s) bs;
  cm_placed : placed (start (lg s)) bs;
  cm_pinned : Forall (λ b, 0 < a_refs a b < 2 ^ 32 - 1) bs;
  cm_log : ∀ m, start (lg s) <= m < start (lg s) + LOGSIZE → a_refs a m = 0;
  cm_avail : 0 < a_avail a;
  cm_head : header_blocks (a_disk a (start (lg s))) = Some [];
}.

Lemma lists_set_n l bs : lists l bs → lists (set_n 0 l) [].
Proof. intros []. constructor; cbn; (done || lia). Qed.

Lemma a_head_rest st d a m : m ≠ st → a_view (a_head st d a) m = a_view a m.
Proof. intros Hm. apply fn_lookup_insert_ne. congruence. Qed.

(** What [commit] leaves. *)
Definition a_committed (st : Z) (bs : list Z) (d1 d2 : block) a : astate B :=
  a_head st d2 (a_installed false st 0 bs (a_head st d1 (a_logged st 0 bs a))).
Lemma a_committed_facts st bs d1 d2 a : placed st bs → let a' := a_committed st bs d1 d2 a in
  (∀ m, a_refs a' m = if decide (m ∈ bs) then a_refs a m - 1 else a_refs a m) ∧ a_held a' = a_held a ∧
  (Forall (λ b, a_refs a b = 1) bs → a_avail a' = a_avail a + Z.of_nat (length bs)) ∧ (∃ w, writes_between a a' w) ∧
  (∀ m, outside st m → a_disk a' m = if decide (m ∈ bs) then a_view a m else a_disk a m) ∧ a_disk a' st = d2.
Proof.
  intros Hp. pose proof (placed_fits _ _ Hp) as Hf. pose proof (pl_nodup _ _ Hp) as Hnd. pose proof (pl_max _ _ Hp) as Hmax.
  destruct (a_logged_facts bs st 0 a Hf) as (F1 & F2 & F3 & _ & F5 & F6). set (a1 := a_logged st 0 bs a) in *.
  destruct (a_installed_facts false bs st 0 (a_head st d1 a1) Hf Hnd) as (G1 & G2 & _ & _ & G5 & G6). unfold a_committed. fold a1. split_and!.
  - intros m. cbn in *. by rewrite G1, F1.
  - cbn in *. by rewrite G2, F2.
  - intros Hr. cbn. rewrite a_installed_avail; [cbn; by rewrite F3|done..|]. eapply Forall_impl; [exact Hr|]. intros x Hx. cbn. by rewrite F1.
  - destruct (writes_logged bs st 0 a) as [w1 W1], (writes_installed bs st 0 (a_head st d1 a1)) as [w2 W2]. eexists.
    eapply writes_trans; [exact W1|]. eapply writes_trans; [apply writes_one|]. eapply writes_trans; [exact W2|]. apply writes_one.
  - intros m Hm. cbn. rewrite fn_lookup_insert_ne by (unfold outside, LOGSIZE, MAXOPBLOCKS in Hm; lia). case_decide as Hin.
    + apply list_elem_of_lookup in Hin as [j Hj]. destruct (G6 j m Hj) as [_ ->]. cbn. rewrite fn_lookup_insert_ne by lia. by apply F6.
    + destruct (G5 m Hin) as [_ ->]. cbn. rewrite fn_lookup_insert_ne by (unfold outside, LOGSIZE, MAXOPBLOCKS in Hm; lia). apply F5. unfold outside in Hm. lia.
  - cbn. apply fn_lookup_insert.
Qed.

Lemma commit_run s a bs :
  committable s a bs → bs ≠ [] →
  ∃ c a' d1 d2 v', commit s = Ret ((), LSys (set_n 0 (lg s)) c) ∧ bc_rep c a' ∧
    a' = a_committed (start (lg s)) bs d1 d2 a ∧
    a_hist a' = a_hist a ++ commit_writes (start (lg s)) bs (a_view a) v' d1 d2 ∧
    header_blocks d1 = Some bs ∧ header_blocks d2 = Some [] ∧
    ∀ j b, bs !! j = Some b → v' (start (lg s) + 0 + 1 + Z.of_nat j) = a_view a b.
Proof.
  intros [] Hne. set (st := start (lg s)) in *. set (n := length bs).
  pose proof (placed_fits _ _ cm_placed0) as Hf. pose proof (pl_start _ _ cm_placed0) as [Hst Htop].
  pose proof (pl_max _ _ cm_placed0) as Hmax.
  assert (Hstr : 0 <= st < FSSIZE) by (unfold LOGSIZE, MAXOPBLOCKS in *; lia).
  assert (Hhome : Forall (λ b, 0 <= b < FSSIZE) bs)
    by (eapply Forall_impl; [apply cm_placed0|]; by intros b [? _]).
  unfold commit. erewrite bind_Ret by done. rewrite (ls_n _ _ cm_lists0). fold n.
  destruct (Z.ltb_spec 0 (Z.of_nat n)); [|destruct bs; [done|subst n; cbn [length] in *; lia]].
  (* write_log *)
  destruct (write_log_loop_run bs [] s a) as (c1 & E1 & Ha1); try done.
  cbn [length] in E1, Ha1. change (Z.of_nat 0) with 0 in *. fold st in Ha1.
  destruct (a_logged_facts bs st 0 a Hf) as (F1 & F2 & F3 & F4 & F5 & F6).
  set (a1 := a_logged st 0 bs a) in *.
  assert (write_log s = Ret ((), LSys (lg s) c1)) as E1'.
  { unfold write_log. erewrite bind_Ret by done. by rewrite (ls_n _ _ cm_lists0), Nat2Z.id. }
  rewrite (bind_Ret _ _ _ _ _ E1'). set (s1 := LSys (lg s) c1).
  (* write_head *)
  destruct (write_head_run s1 a1 bs) as (c2 & d1 & E2 & Ha2 & Hd1 & _); try done.
  { intros m. rewrite F2. apply cm_quiet0. }
  { right. rewrite F1, F3. split; [apply cm_log0|done]. unfold LOGSIZE, MAXOPBLOCKS. cbn. fold st. lia. }
  rewrite (bind_Ret _ _ _ _ _ E2). cbn [lg s1] in *. fold st in Ha2.
  set (s2 := LSys (lg s) c2). set (a2 := a_head st d1 a1) in *.
  (* install_trans *)
  destruct (install_loop_run false bs [] s2 a2) as (c3 & E3 & Ha3); try done.
  { apply cm_placed0. } { intros m. cbn. rewrite F2. apply cm_quiet0. }
  { eapply Forall_impl; [exact cm_pinned0|]. intros b Hb. cbn. by rewrite F1. }
  { intros m Hm. cbn. rewrite F1. by apply cm_log0. } { cbn. by rewrite F3. }
  cbn [length lg s2] in E3, Ha3. change (Z.of_nat 0) with 0 in *. fold st in Ha3.
  destruct (a_installed_facts false bs st 0 a2 Hf (pl_nodup _ _ cm_placed0)) as (G1 & G2 & G3 & G4 & G5 & G6).
  set (a3 := a_installed false st 0 bs a2) in *.
  assert (install_trans false s2 = Ret ((), LSys (lg s) c3)) as E3'.
  { unfold install_trans. erewrite bind_Ret by done. cbn [lg s2].
    by rewrite (ls_n _ _ cm_lists0), Nat2Z.id. }
  rewrite (bind_Ret _ _ _ _ _ E3'). erewrite bind_Ret by done.
  set (s3 := LSys (set_n 0 (lg s)) c3).
  (* write_head *)
  assert (Hsth : st ∉ bs) by (pose proof (not_log_home st bs 0 cm_placed0); rewrite Z.add_0_r in *;
    unfold LOGSIZE, MAXOPBLOCKS in *; auto with lia).
  destruct (write_head_run s3 a3 []) as (c4 & d2 & E4 & Ha4 & Hd2 & _); try done.
  { intros m. rewrite G2. cbn. rewrite F2. apply cm_quiet0. }
  { by eapply lists_set_n. }
  { right. cbn in G1, G3. cbn [lg s3 set_n start]. fold st. rewrite G1, decide_False, F1 by done.
    rewrite F3 in G3. split; [|lia]. apply cm_log0. unfold LOGSIZE, MAXOPBLOCKS. lia. }
  exists c4, (a_head st d2 a3), d1, d2, (a_view a2).
  split_and!; [exact E4|exact Ha4|done| |done|done|].
  - cbn [a_head a_hist]. rewrite G4. cbn [a_head a_hist a2]. rewrite F4. unfold commit_writes.
    rewrite <- !app_assoc. done.
  - intros j b Hj. pose proof (lookup_lt_Some _ _ _ Hj). subst a2.
    rewrite a_head_rest by lia. by apply F6.
Qed.

(** The last operation to end runs the commit. *)
Lemma end_op_last s :
  outstanding (lg s) = 1 → committing (lg s) = false →
  end_op s = (commit ;; upd_log (set_committing false))
    (LSys (set_committing true (set_outstanding 0 (lg s))) (cache s)).
Proof.
  destruct s as [[st sz out com dv n bl] c]. cbn. intros -> ->. reflexivity.
Qed.

(** A cache just booted on the disk [d]. *)
Record fresh (c : C) a (d : Z → block) : Prop := {
  fr_rep : bc_rep c a;
  fr_quiet : quiet a;
  fr_refs : ∀ m, a_refs a m = 0;
  fr_avail : 1 < a_avail a;
  fr_disk : ∀ m, 0 <= m < FSSIZE → a_disk a m = d m;
  fr_hist : a_hist a = [];
}.

Lemma read_head_loop_run d suf : ∀ pre s,
  (∀ j b, suf !! j = Some b → get32 d (4 + 4 * Z.of_nat (length pre + j)) = Some b) →
  Z.of_nat (length (lh_block (lg s))) = LOGSIZE → Z.of_nat (length pre + length suf) <= LOGSIZE →
  take (length pre) (lh_block (lg s)) = pre →
  ∃ l, read_head_loop d (length suf) (Z.of_nat (length pre)) s =
      Ret ((), LSys (set_block l (lg s)) (cache s)) ∧
    Z.of_nat (length l) = LOGSIZE ∧ take (length pre + length suf) l = pre ++ suf.
Proof.
  induction suf as [|b suf IH]; intros pre s Hd Hlen Hle Htk; cbn [read_head_loop length] in *.
  { exists (lh_block (lg s)). rewrite Nat.add_0_r, app_nil_r. split_and!; [by destruct s as [[]]|done..]. }
  pose proof (Hd O b eq_refl) as Hb. rewrite Nat.add_0_r in Hb. rewrite Hb. cbn [oget].
  erewrite bind_Ret by done.
  assert (Hin : (length pre < length (lh_block (lg s)))%nat) by lia.
  destruct (lookup_lt_is_Some_2 _ _ Hin) as [x Hx].
  set (l1 := <[length pre := b]> (lh_block (lg s))).
  assert (set_block_at (Z.of_nat (length pre)) b s = Ret ((), LSys (set_block l1 (lg s)) (cache s))) as E1.
  { unfold set_block_at, block_at. rewrite bind_assoc. erewrite bind_Ret by done.
    destruct (Z.ltb_spec (Z.of_nat (length pre)) 0); [lia|]. rewrite Nat2Z.id, Hx. done. }
  rewrite (bind_Ret _ _ _ _ _ E1).
  destruct (IH (pre ++ [b]) (LSys (set_block l1 (lg s)) (cache s))) as (l & E & Hl & Ht).
  - intros j y Hy. rewrite length_app. cbn [length]. rewrite <- (Hd (S j) y Hy). do 3 f_equal. lia.
  - cbn. subst l1. by rewrite length_insert.
  - rewrite length_app. cbn [length]. lia.
  - rewrite length_app. cbn [length lg lh_block set_block]. subst l1. rewrite Nat.add_1_r.
    rewrite (take_S_r _ _ b) by (by apply list_lookup_insert_eq).
    by rewrite take_insert_ge, Htk by lia.
  - rewrite length_app, Nat2Z.inj_add in E. exists l. split_and!; [exact E|done|].
    rewrite length_app in Ht. cbn [length] in Ht. rewrite <- app_assoc in Ht.
    by replace (length pre + S (length suf))%nat with (length pre + 1 + length suf)%nat by lia.
Qed.

Lemma read_head_run s a bs :
  bc_rep (cache s) a → quiet a → a_room (start (lg s)) a → a_refs a (start (lg s)) = 0 →
  placed (start (lg s)) bs → header_blocks (a_disk a (start (lg s))) = Some bs →
  Z.of_nat (length (lh_block (lg s))) = LOGSIZE →
  ∃ c l, read_head s = Ret ((), LSys l c) ∧ bc_rep c a ∧ lists l bs ∧ start l = start (lg s).
Proof.
  intros Ha Hq Hroom H0' Hp Hh Hlen. set (st := start (lg s)) in *.
  pose proof (pl_start _ _ Hp) as [Hst Htop]. pose proof (pl_max _ _ Hp) as Hmax.
  assert (Hstr : 0 <= st < FSSIZE) by (unfold LOGSIZE, MAXOPBLOCKS in *; lia).
  unfold read_head. erewrite bind_Ret by done. fold st.
  destruct (bc_read_ok _ a st Ha Hstr (Hq st) Hroom) as (b & c1 & E1 & Ha1).
  rewrite (bind_Ret _ _ _ _ _ (lbread_run _ _ _ _ Hstr E1)). set (s1 := LSys (lg s) c1).
  assert (Hh1 : a_held (a_read st b a) st = Some b) by apply fn_lookup_insert.
  rewrite (bind_Ret _ _ _ _ _ (in_cache_run _ s1 _ _ (bc_data_ok _ _ _ _ Ha1 Hh1))).
  change (a_view (a_read st b a) st) with (a_view a st).
  rewrite (bc_rep_clean _ _ _ Ha Hstr H0').
  destruct (header_blocks_elim _ _ Hh) as (Hn & _ & Hb). rewrite Hn. cbn [oget].
  erewrite bind_Ret by done. erewrite bind_Ret by done. rewrite Nat2Z.id.
  set (s2 := LSys (set_n (Z.of_nat (length bs)) (lg s1)) (cache s1)).
  destruct (read_head_loop_run (a_disk a st) bs [] s2) as (l & E2 & Hl & Ht); [done|done|cbn; lia|done|].
  cbn [length] in E2. change (Z.of_nat 0) with 0 in E2. cbn [length app] in Ht.
  rewrite (bind_Ret _ _ _ _ _ E2).
  destruct (bc_release_ok _ _ st b Ha1 Hh1) as (c2 & E3 & Ha2).
  { intros _. apply (bc_rep_clean _ _ _ Ha Hstr H0'). }
  exists c2. eexists. rewrite (in_cache_run _ (LSys _ (cache s2)) _ _ E3). split_and!; [done| | |done].
  - eapply bc_rep_proper; [done| |exact Ha2]. symmetry. same_state.
  - constructor; cbn; try done. intros i x Hi.
    rewrite <- (lookup_take_lt l (length bs)); [|by eapply lookup_lt_Some].
    simpl in Ht. by rewrite Ht.
Qed.

Lemma recover_run s a d bs :
  fresh (cache s) a d → placed (start (lg s)) bs → header_blocks (d (start (lg s))) = Some bs →
  Z.of_nat (length (lh_block (lg s))) = LOGSIZE →
  ∃ s' a' d2, recover_from_log s = Ret ((), s') ∧ bc_rep (cache s') a' ∧
    a_hist a' = home_writes (start (lg s)) 0 bs d ++ [(start (lg s), d2)] ∧
    header_blocks d2 = Some [] ∧ lists (lg s') [] ∧ start (lg s') = start (lg s) ∧
    (∀ m, a_refs a' m = 0) ∧ quiet a' ∧
    (∀ m, outside (start (lg s)) m → a_disk a' m = recovered (start (lg s)) d m).
Proof.
  intros [] Hp Hh Hlen. set (st := start (lg s)) in *. pose proof (placed_fits _ _ Hp) as Hf.
  pose proof (pl_start _ _ Hp) as [Hst Htop]. pose proof (pl_max _ _ Hp) as Hmax.
  assert (Hstr : 0 <= st < FSSIZE) by (unfold LOGSIZE, MAXOPBLOCKS in *; lia).
  assert (Hv : ∀ m, 0 <= m < FSSIZE → a_view a m = d m).
  { intros m Hm. rewrite <- fr_disk0 by done. by eapply bc_rep_clean. }
  unfold recover_from_log.
  destruct (read_head_run s a bs) as (c1 & l & E1 & Ha1 & Hl & Hsl); try done.
  { right. split; [done|lia]. } { by rewrite fr_disk0. }
  rewrite (bind_Ret _ _ _ _ _ E1). fold st in Hsl.
  destruct (install_loop_run true bs [] (LSys l c1) a) as (c2 & E2 & Ha2); try done.
  { cbn. by rewrite Hsl. } { apply Hp. } { by apply Forall_forall. }
  cbn [length lg] in E2, Ha2. change (Z.of_nat 0) with 0 in *. rewrite Hsl in Ha2.
  destruct (a_installed_facts true bs st 0 a Hf (pl_nodup _ _ Hp)) as (G1 & G2 & G3 & G4 & G5 & G6).
  set (a2 := a_installed true st 0 bs a) in *.
  assert (install_trans true (LSys l c1) = Ret ((), LSys l c2)) as E2'.
  { unfold install_trans. erewrite bind_Ret by done. cbn [lg]. by rewrite (ls_n _ _ Hl), Nat2Z.id. }
  rewrite (bind_Ret _ _ _ _ _ E2'). erewrite bind_Ret by done. cbn [lg cache].
  destruct (write_head_run (LSys (set_n 0 l) c2) a2 []) as (c3 & d2 & E3 & Ha3 & Hd2 & _); try done.
  { intros m. by rewrite G2. } { by eapply lists_set_n. } { cbn. by rewrite Hsl. }
  { right. rewrite G1. split; [done|lia]. }
  cbn [lg set_n start] in Ha3. rewrite Hsl in Ha3.
  exists (LSys (set_n 0 l) c3), (a_head st d2 a2), d2. split_and!; try done.
  - cbn. rewrite G4, fr_hist0. cbn. f_equal. clear -Hf Hv Hmax Hst Htop.
    assert (Hgen : ∀ l i, 0 <= i → i + Z.of_nat (length l) < LOGSIZE →
      home_writes st i l (a_view a) = home_writes st i l d).
    { induction l as [|x l IH]; intros i Hi Hl; [done|]. cbn [home_writes length] in *.
      rewrite IH, Hv by lia. done. }
    apply Hgen; lia.
  - by eapply lists_set_n.
  - intros m. cbn. by rewrite G1.
  - intros m. cbn. by rewrite G2.
  - intros m Hm. cbn. rewrite fn_lookup_insert_ne by (unfold outside in Hm; unfold LOGSIZE, MAXOPBLOCKS in *; lia).
    unfold recovered. rewrite Hh. destruct (decide (m ∈ bs)) as [Hin|Hin].
    + apply list_elem_of_lookup in Hin as [j Hj]. pose proof (lookup_lt_Some _ _ _ Hj).
      destruct (G6 j m Hj) as [_ ->]. rewrite (installed_at st 0 bs d j m) by (done || apply Hp).
      apply Hv. lia.
    + destruct (G5 m Hin) as [_ ->]. rewrite installed_other by done. apply fr_disk0. apply Hm.
Qed.

Lemma crash_atomic s a bs :
  committable s a bs → bs ≠ [] → outstanding (lg s) = 1 → committing (lg s) = false →
  ∃ s' a' w, end_op s = Ret ((), s') ∧ bc_rep (cache s') a' ∧ (∃ d1 d2, a' = a_committed (start (lg s)) bs d1 d2 a ∧ header_blocks d2 = Some []) ∧
    a_hist a' = a_hist a ++ w ∧ lg s' = set_n 0 (set_outstanding 0 (lg s)) ∧
    ∀ k (c0 : C) a0 l0,
      let d := after (a_disk a) (take k w) in
      let result := if decide (k <= length bs)%nat then a_disk a
                    else committed bs (a_view a) (a_disk a) in
      fresh c0 a0 d → start l0 = start (lg s) → Z.of_nat (length (lh_block l0)) = LOGSIZE →
      ∃ s1 a1, recover_from_log (LSys l0 c0) = Ret ((), s1) ∧ bc_rep (cache s1) a1 ∧
        (∀ m, outside (start (lg s)) m → a_disk a1 m = result m) ∧
        ∀ j m, outside (start (lg s)) m →
          recovered (start (lg s)) (after d (take j (a_hist a1))) m = result m.
Proof.
  intros Hc Hne Hout Hcom. pose proof (end_op_last s Hout Hcom) as Eend.
  set (s0 := LSys (set_committing true (set_outstanding 0 (lg s))) (cache s)) in *.
  assert (committable s0 a bs) as Hc0.
  { destruct Hc. constructor; try done. destruct cm_lists0. by constructor. }
  destruct (commit_run s0 a bs Hc0 Hne) as (c & a' & d1 & d2 & v' & E & Ha' & Hshape & Hh & H1 & H2 & Hv).
  rewrite (bind_Ret _ _ _ _ _ E) in Eend. destruct Hc0. eexists _, a', _. split_and!; [exact Eend|exact Ha'|by exists d1, d2|exact Hh| |].
  { cbn. rewrite <- Hcom. by destruct (lg s). }
  change (start (lg s0)) with (start (lg s)) in *.
  intros k c0 a0 l0 d result Hf Hst Hlen.
  destruct (crash_commit _ bs (a_disk a) (a_view a) v' d1 d2 k cm_placed0 cm_head0 H1 H2 Hv)
    as (hb & Hhb & Hphb & Hrec).
  destruct (recover_run (LSys l0 c0) a0 d hb) as (s1 & a1 & d3 & E1 & Ha1 & Hh1 & Hd3 & _ & _ & _ & _ & Hdisk);
    cbn [lg cache]; rewrite ?Hst; try done.
  cbn [lg] in *. rewrite Hst in *. exists s1, a1. split_and!; [done|done| |].
  - intros m Hm. rewrite Hdisk by done. rewrite Hrec by done. subst result. by case_decide.
  - intros j m Hm. rewrite Hh1.
    destruct (crash_recover _ hb d d3 j Hphb Hhb Hd3) as [_ Hcr]. rewrite Hcr by done.
    rewrite Hrec by done. subst result. by case_decide.
Qed.
(** C1: A transaction is atomic across crashes. The last [end_op] commits; let
    the machine stop after any number [k] of the writes of that commit, and boot
    again: recovery returns, and every block outside the log has its old
    contents if the header had not been written, and its new contents if it
    had; a second crash, during that recovery, changes nothing. *)
Theorem log_crash_atomic s a bs :
  committable s a bs → bs ≠ [] → outstanding (lg s) = 1 → committing (lg s) = false →
  ∃ s' a' w, end_op s = Ret ((), s') ∧ bc_rep (cache s') a' ∧ a_hist a' = a_hist a ++ w ∧
    lg s' = set_n 0 (set_outstanding 0 (lg s)) ∧
    ∀ k (c0 : C) a0 l0,
      let d := after (a_disk a) (take k w) in
      let result := if decide (k <= length bs)%nat then a_disk a
                    else committed bs (a_view a) (a_disk a) in
      fresh c0 a0 d → start l0 = start (lg s) → Z.of_nat (length (lh_block l0)) = LOGSIZE →
      ∃ s1 a1, recover_from_log (LSys l0 c0) = Ret ((), s1) ∧ bc_rep (cache s1) a1 ∧
        (∀ m, outside (start (lg s)) m → a_disk a1 m = result m) ∧
        ∀ j m, outside (start (lg s)) m →
          recovered (start (lg s)) (after d (take j (a_hist a1))) m = result m.
Proof. intros Hc Hne Ho Hcm. destruct (crash_atomic s a bs Hc Hne Ho Hcm) as (s' & a' & w & E & Ha' & _ & Hw). by exists s', a', w. Qed.

(** *** The log while operations run *)

Lemma absorb_run suf : ∀ pre s bno,
  lists (lg s) (pre ++ suf) → Forall (λ b, 0 <= b < FSSIZE) suf →
  ∃ i, absorb (length suf) (Z.of_nat (length pre)) bno s = Ret (Z.of_nat i, s) ∧
    (length pre <= i <= length pre + length suf)%nat ∧
    (if decide (bno ∈ suf) then (pre ++ suf) !! i = Some bno else i = length (pre ++ suf)).
Proof.
  induction suf as [|b suf IH]; intros pre s bno Hl Hr; cbn [absorb length].
  { exists (length pre). rewrite decide_False by (intros ?%elem_of_nil; done).
    rewrite app_nil_r. split_and!; (done || lia). }
  rewrite (bind_Ret _ _ _ _ _ (block_at_run _ _ _ _ Hl (list_lookup_middle _ _ _ _ eq_refl))).
  apply Forall_cons in Hr as [Hb Hr]. rewrite (wrap_small 32 b) by (unfold in_range, FSSIZE in *; lia).
  destruct (Z.eqb_spec b bno) as [->|Hne].
  - exists (length pre). rewrite decide_True by in_list. split_and!; [done|lia|lia|].
    by apply list_lookup_middle.
  - destruct (IH (pre ++ [b]) s bno) as (i & E & Hi & Hres); [by rewrite <- app_assoc|done|].
    rewrite !length_app, Nat2Z.inj_add in *. cbn [length] in *.
    exists i. split_and!; [exact E|lia|lia|]. rewrite <- app_assoc in Hres.
    destruct (decide (bno ∈ suf)); [by rewrite decide_True by in_list|].
    rewrite decide_False by (rewrite elem_of_cons; intros [?|?]; congruence). cbn [length]. lia.
Qed.

(** [log_write] enters a block in the log once: a block already there is
    absorbed, another is appended and pinned; the log stays within its bounds
    and without duplicates. *)
Theorem log_write_correct s a bs b bno :
  bc_rep (cache s) a → lists (lg s) bs → placed (start (lg s)) bs → outside (start (lg s)) bno →
  a_held a bno = Some b → a_refs a bno < 2 ^ 32 - 1 → 0 < outstanding (lg s) →
  Z.of_nat (length bs) < size (lg s) - 1 → size (lg s) <= LOGSIZE →
  let bs' := if decide (bno ∈ bs) then bs else bs ++ [bno] in
  ∃ l c, log_write b bno s = Ret ((), LSys l c) ∧ lists l bs' ∧ placed (start l) bs' ∧
    outstanding l = outstanding (lg s) ∧
    bc_rep c (if decide (bno ∈ bs) then a else a_pin bno a).
Proof.
  intros Ha Hl Hp Hout Hh Href Hop Hsz Hmax bs'. unfold log_write. erewrite bind_Ret by done.
  rewrite (ls_n _ _ Hl). pose proof (ls_len _ _ Hl) as Hlen.
  replace (_ || _) with false by lia. destruct (Z.ltb_spec (outstanding (lg s)) 1); [lia|].
  rewrite Nat2Z.id. destruct (absorb_run bs [] s bno Hl) as (i & E & Hi & Hres).
  { eapply Forall_impl; [apply (pl_home _ _ Hp)|]. by intros x [? _]. }
  assert (s32 bno = bno) as Es by (destruct Hout as [Hb _]; apply swrap_small; [done|unfold FSSIZE in *; lia]).
  cbn [length app] in E, Hi, Hres. change (Z.of_nat 0) with 0 in E. rewrite (bind_Ret _ _ _ _ _ E).
  destruct (lookup_lt_is_Some_2 (lh_block (lg s)) i ltac:(lia)) as [x Hx].
  set (l1 := <[i := bno]> (lh_block (lg s))).
  assert (set_block_at (Z.of_nat i) (s32 bno) s = Ret ((), LSys (set_block l1 (lg s)) (cache s))) as E1.
  { rewrite Es. unfold set_block_at, block_at. rewrite bind_assoc. erewrite bind_Ret by done.
    destruct (Z.ltb_spec (Z.of_nat i) 0); [lia|]. by rewrite Nat2Z.id, Hx. }
  rewrite (bind_Ret _ _ _ _ _ E1). subst bs'. destruct (decide (bno ∈ bs)) as [Hin|Hin].
  - pose proof (lookup_lt_Some _ _ _ Hres). destruct (Z.eqb_spec (Z.of_nat i) (Z.of_nat (length bs))); [lia|].
    eexists _, (cache s). split; [done|]. split_and!; [|exact Hp|done|done].
    destruct Hl. constructor; cbn; try done; [subst l1; by rewrite length_insert|].
    intros j y Hj. subst l1. destruct (decide (i = j)) as [->|].
    + rewrite list_lookup_insert_eq by lia. congruence.
    + rewrite list_lookup_insert_ne by done. by apply ls_at0.
  - subst i. destruct (Z.eqb_spec (Z.of_nat (length bs)) (Z.of_nat (length bs))); [|done].
    destruct (bc_pin_ok _ _ bno b Ha Hh Href) as (c & Ec & Hc).
    rewrite (bind_Ret _ _ _ _ _ (in_cache_run _ (LSys _ (cache s)) _ _ Ec)).
    eexists _, c. split; [done|]. split_and!; [| |done|done].
    + destruct Hl. constructor; cbn.
      * rewrite ls_n0, length_app. cbn [length]. lia.
      * subst l1. by rewrite length_insert.
      * rewrite length_app. cbn [length]. lia.
      * intros j y Hj. subst l1. destruct (decide (j < length bs)%nat).
        -- rewrite lookup_app_l in Hj by done. rewrite list_lookup_insert_ne by lia. by apply ls_at0.
        -- pose proof (lookup_lt_Some _ _ _ Hj) as Hlt. rewrite length_app in Hlt. cbn [length] in Hlt.
           replace j with (length bs) in * by lia. rewrite list_lookup_middle in Hj by done.
           rewrite list_lookup_insert_eq by lia. congruence.
    + destruct Hp. constructor; cbn; [done| | |].
      * rewrite length_app. cbn [length]. lia.
      * apply Forall_app. split; [done|]. by constructor.
      * apply NoDup_app. split_and!; [done| |by apply NoDup_singleton].
        intros y Hy ->%list_elem_of_singleton. done.
Qed.

(** The reservation of [begin_op] does not cover what the log holds. With
    the [nlog = LOGSIZE] of mkfs, three operations of [MAXOPBLOCKS] blocks each
    are admitted together, but the log takes 29 blocks: with 29 in it, any
    [log_write], even of a block already there, panics. *)
Theorem log_reservation_short (s : lsys C) :
  lh_n (lg s) = 0 → outstanding (lg s) = 0 → committing (lg s) = false → size (lg s) = LOGSIZE →
  (∃ s', (r1 ← begin_op; r2 ← begin_op; r3 ← begin_op; mret (r1, r2, r3)) s =
      Ret (OpStarted, OpStarted, OpStarted, s') ∧ outstanding (lg s') * MAXOPBLOCKS = LOGSIZE) ∧
  ∀ s' (b : B) bno, size (lg s') = LOGSIZE → lh_n (lg s') = LOGSIZE - 1 →
    log_write b bno s' = Panic "too big a transaction".
Proof.
  destruct s as [[st sz out com dv n bl] c]. cbn. intros -> -> -> ->. split.
  - eexists. split; [reflexivity|reflexivity].
  - intros s' b bno Hs Hn. unfold log_write. erewrite bind_Ret by done. by rewrite Hs, Hn.
Qed.
End commit.
