(* ===== verification/LogBio.v ===== *)
(** * The log on the buffer cache

    [Log] is proved against the interface [BlockCache], which [Bio] implements;
    this file puts the two together on a concrete machine: a zeroed disk, a
    booted cache, one operation that has modified block 100 and logged it. *)
From S2P Require Import Prelude BlockCache Bio Log.

(** An SD card that is never used. *)
#[global] Instance no_sd : SdCard () := {
  sd_read_ext2 n d c := (0, d);
  sd_write_ext2 n d c := (0, c);
}.

Definition zero_block : block := replicate (Z.to_nat BSIZE) 0.
Definition ones_block : block := replicate (Z.to_nat BSIZE) 1.
Definition zero_disk : list block := replicate (Z.to_nat FSSIZE) zero_block.
Definition buf0 : buf := Buf false 0 0 false 0 0 0 0 [].
Definition machine0 : bsys () := BSys (replicate (S NBUF) buf0) zero_disk () [].

#[local] Instance cache1 : BlockCache (bsys ()) nat := bio_cache 1.
#[local] Instance cache1_spec : BlockCacheSpec (bsys ()) nat := bio_cache_spec 1.

(** The log after [log_write] of block 100, in the geometry of mkfs. *)
Definition log100 : log_t :=
  Log 2 LOGSIZE 1 false ROOTDEV 1 (100 :: replicate (Z.to_nat (LOGSIZE - 1)) 0).

Definition abs0 : astate nat :=
  AState (λ _, 0) (λ _, None) (λ n, default [] (zero_disk !! Z.to_nat n))
    (λ n, default [] (zero_disk !! Z.to_nat n)) (Z.of_nat NBUF) [].

Lemma machine0_boots : ∃ c : bsys (), bc_rep c abs0.
Proof.
  destruct (bio_boot 1 machine0 buf0 zero_disk) as (s & _ & Hs); try reflexivity.
  - apply Forall_replicate. reflexivity.
  - exists s. exact Hs.
Qed.

(** [b = bread(100); b->data = ones; bpin(b); brelse(b)], as [log_write] has it. *)
Definition abs100 (b : nat) : astate nat :=
  a_release 100 (a_pin 100 (a_store 100 ones_block (a_read 100 b abs0))).

Lemma machine100 : ∃ (c : bsys ()) b, bc_rep c (abs100 b).
Proof.
  destruct machine0_boots as [c Hc]. assert (0 <= 100 < FSSIZE) as Hr by (unfold FSSIZE; lia).
  destruct (bc_read_ok c abs0 100 Hc Hr) as (b & c1 & _ & H1); [reflexivity|right; split; reflexivity|].
  assert (Hh : a_held (a_read 100 b abs0) 100 = Some b) by apply fn_lookup_insert.
  destruct (bc_store_ok c1 _ 100 b ones_block H1 Hh) as (c2 & _ & H2); [reflexivity|].
  destruct (bc_pin_ok c2 _ 100 b H2 Hh) as (c3 & _ & H3); [reflexivity|].
  destruct (bc_release_ok c3 _ 100 b H3 Hh) as (c4 & _ & H4); [intros E; discriminate E|].
  exists c4, b. exact H4.
Qed.

Lemma abs100_refs b m : a_refs (abs100 b) m = if decide (m = 100) then 1 else 0.
Proof. unfold abs100. cbn. rewrite !fn_insert_at. by case_decide. Qed.

Lemma log100_lists : lists log100 [100].
Proof. split; try reflexivity. intros [|i] x Hx; [exact Hx|done]. Qed.

Lemma log100_placed : placed 2 [100].
Proof.
  split; [split; vm_compute; discriminate|reflexivity| |apply NoDup_singleton].
  constructor; [|constructor]. split; [split; [discriminate|reflexivity]|right; vm_compute; discriminate].
Qed.

Lemma log_crash_atomic_witness :
  ∃ (s : lsys (bsys ())) a, committable s a [100] ∧ a_disk a 100 = zero_block ∧
    a_view a 100 = ones_block ∧
    ∃ s' a' w, end_op s = Ret ((), s') ∧ bc_rep (cache s') a' ∧ a_hist a' = a_hist a ++ w.
Proof.
  destruct machine100 as (c & b & Hc). set (s := LSys log100 c).
  assert (committable s (abs100 b) [100]) as Hcm.
  { split; [exact Hc| |exact log100_lists|exact log100_placed| | | |].
    - intros m. unfold abs100. cbn. rewrite !fn_insert_at. by case_decide.
    - constructor; [|constructor]. rewrite abs100_refs. by rewrite decide_True.
    - intros m Hm. rewrite abs100_refs, decide_False; [done|]. intros ->.
      destruct Hm as [_ Hm]. discriminate Hm.
    - reflexivity.
    - vm_compute. reflexivity. }
  exists s, (abs100 b). split; [exact Hcm|]. split; [vm_compute; reflexivity|].
  split; [vm_compute; reflexivity|].
  destruct (log_crash_atomic s (abs100 b) [100] Hcm) as (s' & a' & w & E & Hr & Hh & _);
    [discriminate|reflexivity|reflexivity|].
  exists s', a', w. split; [exact E|split; [exact Hr|exact Hh]].
Defined.

Lemma log_write_correct_witness :
  ∃ (c c' : bsys ()) b l, log_write b 200 (LSys log100 c) = Ret ((), LSys l c') ∧ lists l [100; 200].
Proof.
  destruct machine100 as (c & b & Hc).
  assert (0 <= 200 < FSSIZE) as Hr by (split; [discriminate|reflexivity]).
  destruct (bc_read_ok c (abs100 b) 200 Hc Hr) as (b2 & c1 & _ & H1).
  { unfold abs100. cbn. by rewrite !fn_insert_at. }
  { right. rewrite abs100_refs. split; reflexivity. }
  destruct (log_write_correct (LSys log100 c1) _ [100] b2 200 H1 log100_lists log100_placed)
    as (l & c2 & E & Hl & _); try reflexivity.
  { split; [exact Hr|right; vm_compute; discriminate]. }
  exists c1, c2, b2, l. split; [exact E|exact Hl].
Defined.

Lemma log_reservation_short_witness :
  let s := LSys (C := bsys ()) (Log 2 LOGSIZE 0 false ROOTDEV 0 []) machine0 in
  ∃ s', (r1 ← begin_op; r2 ← begin_op; r3 ← begin_op; mret (r1, r2, r3)) s =
      Ret (OpStarted, OpStarted, OpStarted, s').
Proof.
  intros s.
  destruct (log_reservation_short (B := nat) s eq_refl eq_refl eq_refl eq_refl) as [(s' & E & _) _].
  exists s'. exact E.
Defined.
