(* ===== verification/Printfmt.v ===== *)
(** * Formatted printing: [kernel/printfmt.c]

    The routines call a function [putch] on every character; here it is a
    parameter, an action on a state of its own, as the function pointer and
    [putdat] are in the code. [vsnprintf] instantiates it with [sprintputch].
    The variadic arguments are a list: an integer argument is its 64-bit slot,
    a string argument the bytes before its NUL. *)
From S2P Require Import Prelude.

(** A string literal as bytes. *)
Definition str (s : string) : bytes := (λ a, Z.of_N (Ascii.N_of_ascii a)) <$> String.list_ascii_of_string s.
Arguments str s%_string.

Inductive arg := AInt (z : Z) | AStr (s : option bytes).

Definition MAXERROR : Z := 16.
Definition error_string (err : Z) : option bytes :=
  if err =? 0 then None else
  (str <$> ["unspecified error"; "bad environment"; "invalid parameter"; "out of memory";
    "out of environments"; "segmentation fault"; "env is not recving";
    "unexpected end of file"; "no free space on disk"; "too many files are open";
    "file or block not found"; "invalid path"; "file already exists";
    "file is not a valid executable"; "operation not supported"]%string)
  !! Z.to_nat (err - 1).

Definition hex_digits : bytes := str "0123456789abcdef".
Definition digit_char (d : Z) : Z := default 0 (hex_digits !! Z.to_nat d).

Record fspec := FSpec { padc : Z; width : Z; precision : Z; lflag : Z; altflag : bool }.
Definition fspec_init : fspec := FSpec 32 (-1) (-1) 0 false.

Definition is_digit (c : Z) : bool := (48 <=? c) && (c <=? 57).
Fixpoint parse_width (prec : Z) (fmt : bytes) : Z * bytes :=
  match fmt with
  | ch :: fmt' => if is_digit ch then parse_width (s32 (prec * 10 + ch - 48)) fmt' else (prec, fmt)
  | [] => (prec, [])
  end.
(** [process_precision] *)
Definition set_prec (p : Z) (f : fspec) : fspec :=
  if width f <? 0 then FSpec (padc f) p (-1) (lflag f) (altflag f)
  else FSpec (padc f) (width f) p (lflag f) (altflag f).

Section printfmt.
Context {S : Type} (putch : Z → M S ()).

Fixpoint pad (n : nat) (c : Z) : M S () :=
  match n with O => mret () | Datatypes.S n => putch c ;; pad n c end.

Fixpoint printnum (fuel : nat) (num base width padc : Z) : M S () :=
  (if base <=? num then
     match fuel with
     | O => out_of_fuel
     | Datatypes.S fuel => printnum fuel (num / base) base (s32 (width - 1)) padc
     end
   else pad (Z.to_nat (s32 (width - 1))) padc) ;;
  putch (digit_char (num mod base)).

(** The arguments: one slot per call of [va_arg]. *)
Definition va_int (args : list arg) : M S (Z * list arg) :=
  match args with AInt z :: args => mret (z, args) | _ => fault end.
Definition va_str (args : list arg) : M S (option bytes * list arg) :=
  match args with AStr p :: args => mret (p, args) | _ => fault end.
Definition getuint (args : list arg) (lflag : Z) : M S (Z * list arg) :=
  '(z, args) ← va_int args; mret ((if 1 <=? lflag then u64 z else u32 z), args).
Definition getint (args : list arg) (lflag : Z) : M S (Z * list arg) :=
  '(z, args) ← va_int args; mret ((if 1 <=? lflag then s64 z else s32 z), args).

(** The characters of [%s]; the result is what is left of [width]. *)
Fixpoint put_chars (p : bytes) (width precision : Z) (alt : bool) : M S Z :=
  match p with
  | ch :: p =>
      if (precision <? 0) || (0 <=? precision - 1) then
        putch (if alt && ((ch <? 32) || (126 <? ch)) then 63 else ch) ;;
        put_chars p (s32 (width - 1)) (if precision <? 0 then precision else precision - 1) alt
      else mret width
  | [] => mret width
  end.
Definition put_string (p : bytes) (f : fspec) : M S () :=
  let n := Z.min (Z.of_nat (length p)) (u32 (precision f)) in
  w ← (if (0 <? width f) && negb (padc f =? 45)
       then pad (Z.to_nat (s32 (width f - n))) (padc f) ;; mret (Z.min 0 (s32 (width f - n)))
       else mret (width f));
  w ← put_chars p w (precision f) (altflag f);
  pad (Z.to_nat w) 32.

(** From [reswitch] to the end of the escape: the result is the rest of the
    format and of the arguments. [esc] is the format right after the [%], and
    [print_error] the recursive call for [%e]. *)
Fixpoint escape (fuel : nat) (print_error : Z → M S ()) (esc fmt : bytes) (args : list arg)
    (f : fspec) : M S (bytes * list arg) :=
  match fuel with
  | O => out_of_fuel
  | Datatypes.S fuel =>
      let again := escape fuel print_error esc in
      match fmt with
      | [] => putch 37 ;; mret (esc, args)
      | ch :: fmt =>
          if ch =? 45 then again fmt args (FSpec 45 (width f) (precision f) (lflag f) (altflag f))
          else if ch =? 48 then again fmt args (FSpec 48 (width f) (precision f) (lflag f) (altflag f))
          else if is_digit ch then
            let '(p, fmt) := parse_width (ch - 48) fmt in again fmt args (set_prec p f)
          else if ch =? 42 then
            '(p, args) ← va_int args; again fmt args (set_prec (s32 p) f)
          else if ch =? 46 then
            again fmt args (FSpec (padc f) (if width f <? 0 then 0 else width f) (precision f) (lflag f) (altflag f))
          else if ch =? 35 then
            again fmt args (FSpec (padc f) (width f) (precision f) (lflag f) true)
          else if (ch =? 108) || (ch =? 122) then
            again fmt args (FSpec (padc f) (width f) (precision f) (lflag f + 1) (altflag f))
          else if ch =? 99 then '(z, args) ← va_int args; putch (s32 z) ;; mret (fmt, args)
          else if ch =? 101 then
            '(z, args) ← va_int args;
            print_error (if s32 z <? 0 then s32 (- s32 z) else s32 z) ;; mret (fmt, args)
          else if ch =? 115 then
            '(p, args) ← va_str args;
            put_string (default (str "(null)") p) f ;; mret (fmt, args)
          else if ch =? 100 then
            '(num, args) ← getint args (lflag f);
            when (num <? 0) (putch 45) ;;
            printnum 64 (if num <? 0 then u64 (- num) else num) 10 (width f) (padc f) ;;
            mret (fmt, args)
          else if ch =? 117 then
            '(num, args) ← getuint args (lflag f);
            printnum 64 num 10 (width f) (padc f) ;; mret (fmt, args)
          else if ch =? 111 then putch 88 ;; putch 88 ;; putch 88 ;; mret (fmt, args)
          else if ch =? 112 then
            putch 48 ;; putch 120 ;;
            '(z, args) ← va_int args;
            printnum 64 (u64 z) 16 (width f) (padc f) ;; mret (fmt, args)
          else if ch =? 120 then
            '(num, args) ← getuint args (lflag f);
            printnum 64 num 16 (width f) (padc f) ;; mret (fmt, args)
          else if ch =? 37 then putch ch ;; mret (fmt, args)
          else putch 37 ;; mret (esc, args)
      end
  end.

Fixpoint vprintfmt_loop (fuel : nat) (print_error : Z → M S ()) (fmt : bytes) (args : list arg) : M S () :=
  match fuel with
  | O => out_of_fuel
  | Datatypes.S fuel =>
      match fmt with
      | [] => mret ()
      | ch :: fmt =>
          if negb (ch =? 37) then putch ch ;; vprintfmt_loop fuel print_error fmt args
          else
            '(fmt, args) ← escape (Datatypes.S (length fmt)) print_error fmt fmt args fspec_init;
            vprintfmt_loop fuel print_error fmt args
      end
  end.
(** Both formats of [%e] are free of [%e]: the recursion has depth two. *)
Definition print_error (err : Z) : M S () :=
  match (if MAXERROR <=? err then None else error_string err) with
  | None => let fmt := str "error %d" in
      vprintfmt_loop (Datatypes.S (length fmt)) (λ _, fault) fmt [AInt err]
  | Some p => let fmt := str "%s" in
      vprintfmt_loop (Datatypes.S (length fmt)) (λ _, fault) fmt [AStr (Some p)]
  end.
Definition vprintfmt (fmt : bytes) (args : list arg) : M S () :=
  vprintfmt_loop (Datatypes.S (length fmt)) print_error fmt args.
End printfmt.

(** The object the buffer lies in is [sp_done ++ sp_rest] with [buf] between
    them, and [sp_left] is [ebuf - buf]. *)
Record sprintbuf := SPB { sp_done : bytes; sp_rest : bytes; sp_left : Z; cnt : Z }.
Definition sprintputch (ch : Z) : M sprintbuf () := λ b,
  let n := s32 (cnt b + 1) in
  if 0 <? sp_left b then
    match sp_rest b with
    | _ :: rest => Ret ((), SPB (sp_done b ++ [u8 ch]) rest (sp_left b - 1) n)
    | [] => Fault
    end
  else Ret ((), SPB (sp_done b) (sp_rest b) (sp_left b) n).

Definition E_INVAL : Z := 3.
(** [buf] is the object the pointer points to; [None] is a null pointer. The
    result holds the object after the call. *)
Definition vsnprintf (buf : option bytes) (n : Z) (fmt : bytes) (args : list arg) : outcome (Z * option bytes) :=
  match buf with
  | None => Ret (- E_INVAL, None)
  | Some b =>
      if n <? 1 then Ret (- E_INVAL, buf) else
      match vprintfmt sprintputch fmt args (SPB [] b (n - 1) 0) with
      | Ret (_, s) =>
          match sp_rest s with
          | _ :: rest => Ret (cnt s, Some (sp_done s ++ 0 :: rest))
          | [] => Fault
          end
      | Panic m => Panic m
      | Fault => Fault
      | Block => Block
      | OutOfFuel => OutOfFuel
      end
  end.
Definition snprintf := vsnprintf.

(** ** What is printed *)

(** [emit] collects the characters; [printed fmt args] is what any [putch] is
    called with. *)
Definition emit (c : Z) : M bytes () := modify (λ out, out ++ [c]).
Definition printed (fmt : bytes) (args : list arg) : outcome bytes :=
  match vprintfmt emit fmt args [] with
  | Ret (_, out) => Ret out
  | Panic m => Panic m
  | Fault => Fault
  | Block => Block
  | OutOfFuel => OutOfFuel
  end.

(** Two actions that return the same value, in related states, or fail alike. *)
Section mrel.
Context {S T : Type} (R : S → T → Prop).

Definition mrel {A} (m1 : M S A) (m2 : M T A) : Prop := ∀ s t, R s t →
  match m1 s, m2 t with
  | Ret (a, s'), Ret (b, t') => a = b ∧ R s' t'
  | Panic m, Panic m' => m = m'
  | Fault, Fault | Block, Block | OutOfFuel, OutOfFuel => True
  | _, _ => False
  end.

Lemma mrel_ret {A} (a : A) : mrel (mret a) (mret a).
Proof. intros s t H. done. Qed.
Lemma mrel_fault {A} : mrel (@fault S A) fault.
Proof. intros s t H. done. Qed.
Lemma mrel_fuel {A} : mrel (@out_of_fuel S A) out_of_fuel.
Proof. intros s t H. done. Qed.
Lemma mrel_bind {A B} (m1 : M S A) m2 (k1 : A → M S B) k2 :
  mrel m1 m2 → (∀ a, mrel (k1 a) (k2 a)) → mrel (m1 ≫= k1) (m2 ≫= k2).
Proof.
  intros Hm Hk s t Hst. specialize (Hm s t Hst). unfold mbind, M_bind.
  destruct (m1 s) as [[a s']| | | |], (m2 t) as [[b t']| | | |]; try done.
  destruct Hm as [-> Hr]. exact (Hk b s' t' Hr).
Qed.
End mrel.

Create HintDb mrel discriminated.
#[export] Hint Resolve mrel_ret mrel_fault mrel_fuel : mrel.
Ltac mrel_step := first
  [ progress cbv zeta
  | match goal with
    | x : _ * _ |- _ => destruct x
    | |- mrel _ (_ ≫= _) _ => apply mrel_bind; [|intros ?]
    | |- mrel _ (if ?b then _ else _) _ => destruct b
    | |- mrel _ (match ?o with _ => _ end) _ => destruct o
    | |- mrel _ (when ?b _) _ => destruct b; unfold when
    end
  | solve [auto with mrel]].
Ltac mrel_tac := repeat mrel_step.

(** Printing is parametric in [putch]. *)
Section printfmt_rel.
Context {S T : Type} (R : S → T → Prop) (p : Z → M S ()) (p' : Z → M T ()).
Hypothesis putch_rel : ∀ c, mrel R (p c) (p' c).
Local Hint Resolve putch_rel : mrel.

Lemma pad_rel n c : mrel R (pad p n c) (pad p' n c).
Proof. induction n; cbn [pad]; mrel_tac. Qed.
Local Hint Resolve pad_rel : mrel.

Lemma printnum_rel fuel num base w pc : mrel R (printnum p fuel num base w pc) (printnum p' fuel num base w pc).
Proof. revert num w. induction fuel; intros; cbn [printnum]; mrel_tac. Qed.
Local Hint Resolve printnum_rel : mrel.

Lemma put_chars_rel s w prec alt : mrel R (put_chars p s w prec alt) (put_chars p' s w prec alt).
Proof. revert w prec. induction s; intros; cbn [put_chars]; mrel_tac. Qed.
Local Hint Resolve put_chars_rel : mrel.

Lemma put_string_rel s f : mrel R (put_string p s f) (put_string p' s f).
Proof. unfold put_string. mrel_tac. Qed.
Local Hint Resolve put_string_rel : mrel.

Lemma va_int_rel args : mrel R (@va_int S args) (@va_int T args).
Proof. unfold va_int. mrel_tac. Qed.
Lemma va_str_rel args : mrel R (@va_str S args) (@va_str T args).
Proof. unfold va_str. mrel_tac. Qed.
Local Hint Resolve va_int_rel va_str_rel : mrel.
Lemma getint_rel args l : mrel R (@getint S args l) (@getint T args l).
Proof. unfold getint. mrel_tac. Qed.
Lemma getuint_rel args l : mrel R (@getuint S args l) (@getuint T args l).
Proof. unfold getuint. mrel_tac. Qed.
Local Hint Resolve getint_rel getuint_rel : mrel.

Lemma escape_rel pe pe' fuel esc fmt args f :
  (∀ err, mrel R (pe err) (pe' err)) →
  mrel R (escape p fuel pe esc fmt args f) (escape p' fuel pe' esc fmt args f).
Proof.
  intros Hpe. revert fmt args f. induction fuel as [|fuel IH]; intros; cbn [escape]; mrel_tac.
Qed.

Lemma vprintfmt_loop_rel pe pe' fuel fmt args :
  (∀ err, mrel R (pe err) (pe' err)) →
  mrel R (vprintfmt_loop p fuel pe fmt args) (vprintfmt_loop p' fuel pe' fmt args).
Proof.
  intros Hpe. revert fmt args. induction fuel as [|fuel IH]; intros; cbn [vprintfmt_loop]; mrel_tac.
  by apply escape_rel.
Qed.

Lemma vprintfmt_rel fmt args : mrel R (vprintfmt p fmt args) (vprintfmt p' fmt args).
Proof.
  apply vprintfmt_loop_rel. intros err. unfold print_error.
  destruct (MAXERROR <=? err); [|destruct (error_string err)];
    apply vprintfmt_loop_rel; intros; intros ?? _; done.
Qed.
End printfmt_rel.

(** [sprintputch] keeps the first [n - 1] characters. *)
Definition sp_rel (b : bytes) (n : Z) (out : bytes) (s : sprintbuf) : Prop :=
  let k := Nat.min (Z.to_nat (n - 1)) (length out) in
  sp_done s = take k (u8 <$> out) ∧ sp_rest s = drop k b ∧ sp_left s = n - 1 - Z.of_nat k ∧
  cnt s = s32 (Z.of_nat (length out)).

Lemma sprintputch_rel b n c :
  1 <= n <= Z.of_nat (length b) → mrel (sp_rel b n) (emit c) (sprintputch c).
Proof.
  intros Hn out [dn rest left ct] (H1 & H2 & H3 & H4). cbn [sp_done sp_rest sp_left cnt] in *.
  assert (Hc : s32 (s32 (Z.of_nat (length out)) + 1) = s32 (Z.of_nat (length out + 1))).
  { unfold swrap. dlia. }
  subst. unfold emit, modify, sprintputch. cbn [sp_done sp_rest sp_left cnt].
  destruct (Z.ltb_spec 0 (n - 1 - Z.of_nat (Z.to_nat (n - 1) `min` length out))) as [Hl|Hl].
  - rewrite Nat.min_r by lia.
    destruct (lookup_lt_is_Some_2 b (length out)) as [x Hx]; [lia|].
    rewrite (drop_S _ _ _ Hx). split; [done|].
    unfold sp_rel. cbn [sp_done sp_rest sp_left cnt]. rewrite Nat.min_r by (rewrite length_app; simpl; lia).
    rewrite length_app, fmap_app. cbn [length]. rewrite Hc.
    rewrite !take_ge by (rewrite ?length_app, !length_fmap; simpl; lia).
    split_and!; [done|f_equal; lia|lia|done].
  - split; [done|]. unfold sp_rel. cbn [sp_done sp_rest sp_left cnt].
    rewrite length_app, fmap_app. cbn [length]. rewrite Hc.
    rewrite !Nat.min_l by lia. rewrite take_app_le by (rewrite length_fmap; lia). done.
Qed.

Lemma snprintf_run b n fmt args :
  1 <= n <= Z.of_nat (length b) →
  snprintf (Some b) n fmt args =
    match printed fmt args with
    | Ret out =>
        let kept := take (Z.to_nat (n - 1)) (u8 <$> out) in
        Ret (s32 (Z.of_nat (length out)), Some (kept ++ 0 :: drop (S (length kept)) b))
    | Panic m => Panic m
    | Fault => Fault
    | Block => Block
    | OutOfFuel => OutOfFuel
    end.
Proof.
  intros Hn. unfold snprintf, vsnprintf, printed. destruct (Z.ltb_spec n 1); [lia|].
  pose proof (vprintfmt_rel (sp_rel b n) emit sprintputch (λ c, sprintputch_rel b n c Hn) fmt args
    [] (SPB [] b (n - 1) 0)) as Hr.
  specialize (Hr ltac:(unfold sp_rel; cbn; rewrite Nat.min_0_r; split_and!; done || lia)).
  destruct (vprintfmt emit fmt args []) as [[[] out]| | | |],
    (vprintfmt sprintputch fmt args _) as [[[] s]| | | |]; try done; [|by subst].
  destruct Hr as [_ (H1 & H2 & H3 & H4)]. rewrite H1, H2, H4. cbv zeta.
  set (k := Nat.min (Z.to_nat (n - 1)) (length out)).
  assert (take (Z.to_nat (n - 1)) (u8 <$> out) = take k (u8 <$> out)) as ->.
  { destruct (decide (Z.to_nat (n - 1) <= length out)%nat).
    - subst k. by rewrite Nat.min_l.
    - subst k. rewrite Nat.min_r by lia. by rewrite !take_ge by (rewrite length_fmap; lia). }
  rewrite (length_take_le (u8 <$> out)) by (rewrite length_fmap; lia).
  destruct (lookup_lt_is_Some_2 b k) as [x Hx]; [lia|]. by rewrite (drop_S _ _ _ Hx).
Qed.

(** [snprintf] stores the first [n - 1] characters that the format and its
    arguments print and a NUL after them, leaves the rest of the buffer alone,
    and returns the number of characters printed, stored or not. It fails
    exactly as the formatting does. *)
Theorem snprintf_correct b n fmt args :
  1 <= n <= Z.of_nat (length b) →
  snprintf (Some b) n fmt args =
    match printed fmt args with
    | Ret out =>
        let kept := take (Z.to_nat (n - 1)) (u8 <$> out) in
        Ret (s32 (Z.of_nat (length out)), Some (kept ++ 0 :: drop (S (length kept)) b))
    | Panic m => Panic m
    | Fault => Fault
    | Block => Block
    | OutOfFuel => OutOfFuel
    end.
Proof. apply snprintf_run. Qed.

(** ** Enough fuel *)

(** The fuel the definitions take is never exhausted. *)
Definition ends {S A} (m : M S A) (P : A → Prop) : Prop :=
  ∀ s, match m s with Ret (a, _) => P a | OutOfFuel => False | _ => True end.

Section ends.
Context {S : Type}.
Lemma ends_ret {A} (a : A) (P : A → Prop) : P a → ends (S := S) (mret a) P.
Proof. by intros ? s. Qed.
Lemma ends_fault {A} (P : A → Prop) : ends (S := S) fault P.
Proof. by intros s. Qed.
Lemma ends_bind {A B} (m : M S A) (k : A → M S B) P Q :
  ends m P → (∀ a, P a → ends (k a) Q) → ends (m ≫= k) Q.
Proof.
  intros Hm Hk s. specialize (Hm s). unfold mbind, M_bind.
  destruct (m s) as [[a s']| | | |]; try done. by apply Hk.
Qed.
Lemma ends_mono {A} (m : M S A) (P Q : A → Prop) : ends m P → (∀ a, P a → Q a) → ends m Q.
Proof. intros Hm HP s. specialize (Hm s). destruct (m s) as [[]| | | |]; auto. Qed.
End ends.

Lemma parse_width_length p fmt : (length (parse_width p fmt).2 <= length fmt)%nat.
Proof.
  revert p. induction fmt as [|c fmt IH]; intros p; cbn [parse_width]; [done|].
  destruct (is_digit c); [|done]. etrans; [apply IH|]. simpl. lia.
Qed.

Section printfmt_ends.
Context {S : Type} (putch : Z → M S ()).
Hypothesis putch_ends : ∀ c, ends (putch c) (λ _, True).

Lemma pad_ends n c : ends (pad putch n c) (λ _, True).
Proof. induction n; cbn [pad]; [by apply ends_ret|]. eapply ends_bind; eauto. Qed.

Lemma printnum_ends fuel num base w pc :
  2 <= base → 0 <= num < 2 ^ Z.of_nat fuel → ends (printnum putch fuel num base w pc) (λ _, True).
Proof.
  intros Hb. revert num w. induction fuel as [|fuel IH]; intros num w Hn; cbn [printnum].
  all: eapply ends_bind; [|intros; apply putch_ends].
  all: destruct (Z.leb_spec base num); [|apply pad_ends].
  { change (2 ^ Z.of_nat 0) with 1 in Hn. lia. }
  rewrite Nat2Z.inj_succ, Z.pow_succ_r in Hn by lia.
  apply IH. split; [apply Z.div_pos; lia|]. apply Z.div_lt_upper_bound; nia.
Qed.

Lemma va_int_ends args : ends (@va_int S args) (λ _, True).
Proof. unfold va_int. destruct args as [|[] ]; first [apply ends_fault|by apply ends_ret]. Qed.
Lemma va_str_ends args : ends (@va_str S args) (λ _, True).
Proof. unfold va_str. destruct args as [|[] ]; first [apply ends_fault|by apply ends_ret]. Qed.
Lemma getuint_ends args l : ends (@getuint S args l) (λ '(z, _), 0 <= z < 2 ^ Z.of_nat 64).
Proof.
  eapply ends_bind; [apply va_int_ends|]. intros [z args'] _. apply ends_ret.
  pose proof (wrap_range 64 z) as H1. pose proof (wrap_range 32 z) as H2. unfold in_range in *.
  change (Z.of_nat 64) with 64. destruct (1 <=? l); lia.
Qed.
Lemma getint_ends args l : ends (@getint S args l) (λ '(z, _), - 2 ^ 63 <= z < 2 ^ 63).
Proof.
  eapply ends_bind; [apply va_int_ends|]. intros [z args'] _. apply ends_ret.
  unfold swrap. destruct (1 <=? l); cbn -[Z.pow Z.modulo]; dlia.
Qed.
Lemma put_chars_ends p w prec alt : ends (put_chars putch p w prec alt) (λ _, True).
Proof.
  revert w prec. induction p as [|c p IH]; intros; cbn [put_chars]; [by apply ends_ret|].
  destruct (_ || _); [|by apply ends_ret]. eapply ends_bind; [done|]. intros. apply IH.
Qed.
Lemma put_string_ends p f : ends (put_string putch p f) (λ _, True).
Proof.
  unfold put_string. eapply ends_bind with (P := λ _, True); [|intros w _; eapply ends_bind].
  - destruct (_ && _); [|by apply ends_ret]. eapply ends_bind; [apply pad_ends|]. intros. by apply ends_ret.
  - apply put_chars_ends.
  - intros. apply pad_ends.
Qed.
Local Hint Resolve putch_ends pad_ends printnum_ends va_int_ends va_str_ends getint_ends getuint_ends put_string_ends : core.

Lemma escape_ends pe fuel esc fmt args f :
  (∀ err, ends (pe err) (λ _, True)) → (length fmt < fuel)%nat → (length fmt <= length esc)%nat →
  ends (escape putch fuel pe esc fmt args f) (λ '(fmt', _), (length fmt' <= length esc)%nat).
Proof.
  intros Hpe. revert fmt args f. induction fuel as [|fuel IH]; intros fmt args f Hf He; [lia|].
  cbn [escape]. destruct fmt as [|ch fmt].
  { eapply ends_bind; [done|]. intros. by apply ends_ret. }
  cbv zeta. simpl in Hf, He.
  assert (IH' : ∀ args f, ends (escape putch fuel pe esc fmt args f) (λ '(fmt', _), (length fmt' <= length esc)%nat))
    by (intros; apply IH; lia).
  assert (Hn : ∀ n, 0 <= n < 2 ^ 64 → 0 <= n < 2 ^ Z.of_nat 64) by done.
  repeat match goal with |- ends (if ?b then _ else _) _ => destruct b end; try apply IH'.
  all: try (eapply ends_bind; [solve [eauto]|intros [z args'] Hz]).
  all: try solve [apply IH' | eapply ends_bind; [solve [eauto]|intros]; apply ends_ret; lia].
  - pose proof (parse_width_length (ch - 48) fmt). destruct (parse_width _ _) as [p fmt']. apply IH; simpl in *; lia.
  - eapply ends_bind with (P := λ _, True); [unfold when; destruct (z <? 0); [done|by apply ends_ret]|].
    intros _ _. eapply ends_bind; [apply printnum_ends; [lia|]|intros; apply ends_ret; lia].
    destruct (z <? 0) eqn:E; [|lia]. apply (wrap_range 64). lia.
  - eapply ends_bind; [apply printnum_ends; [lia|done]|intros; apply ends_ret; lia].
  - repeat (eapply ends_bind; [done|intros _ _]). apply ends_ret. lia.
  - repeat (eapply ends_bind; [done|intros _ _]). eapply ends_bind; [done|intros [z args'] _].
    eapply ends_bind; [apply printnum_ends; [lia|apply (wrap_range 64); lia]|intros; apply ends_ret; lia].
  - eapply ends_bind; [apply printnum_ends; [lia|done]|intros; apply ends_ret; lia].
Qed.

Lemma vprintfmt_loop_ends pe fuel fmt args :
  (∀ err, ends (pe err) (λ _, True)) → (length fmt < fuel)%nat →
  ends (vprintfmt_loop putch fuel pe fmt args) (λ _, True).
Proof.
  intros Hpe. revert fmt args. induction fuel as [|fuel IH]; intros fmt args Hf; [lia|].
  cbn [vprintfmt_loop]. destruct fmt as [|ch fmt]; [by apply ends_ret|]. simpl in Hf.
  destruct (negb _).
  - eapply ends_bind; [done|]. intros. apply IH. lia.
  - eapply ends_bind; [apply escape_ends; [done|lia|done]|]. intros [fmt' args'] Hl. apply IH. lia.
Qed.

Lemma vprintfmt_ends fmt args : ends (vprintfmt putch fmt args) (λ _, True).
Proof.
  apply vprintfmt_loop_ends; [|lia]. intros err. unfold print_error.
  destruct (MAXERROR <=? err); [|destruct (error_string err)];
    apply vprintfmt_loop_ends; first [lia | intros; apply ends_fault].
Qed.
End printfmt_ends.

(** Formatting always ends: whatever the format, the arguments and the
    (terminating) [putch], the loops over the format, the digits and the
    padding are within the fuel of the definitions. *)
Theorem vprintfmt_terminates {S : Type} (putch : Z → M S ()) fmt args s :
  (∀ c s', putch c s' ≠ OutOfFuel) → vprintfmt putch fmt args s ≠ OutOfFuel.
Proof.
  intros Hp. assert (ends (vprintfmt putch fmt args) (λ _, True)) as He.
  { apply vprintfmt_ends. intros c s'. specialize (Hp c s'). by destruct (putch c s') as [[]| | | |]. }
  specialize (He s). by destruct (vprintfmt putch fmt args s) as [[]| | | |].
Qed.

Lemma vprintfmt_terminates_witness :
  (∀ c s', emit c s' ≠ OutOfFuel) ∧ vprintfmt emit (str "%08l") [AInt 5] [] ≠ OutOfFuel.
Proof.
  assert (∀ c s', emit c s' ≠ OutOfFuel) as H by done.
  split; [exact H|apply (vprintfmt_terminates emit (str "%08l") [AInt 5] [] H)].
Defined.

Lemma snprintf_correct_witness :
  1 <= 4 <= Z.of_nat (length (repeat 46 6)) ∧
  snprintf (Some (repeat 46 6)) 4 (str "net%d") [AInt 12] = Ret (5, Some (str "net" ++ [0; 46; 46])).
Proof.
  assert (1 <= 4 <= Z.of_nat (length (repeat 46 6))) as H by (simpl; lia).
  split; [exact H|]. rewrite (snprintf_correct _ _ _ _ H). vm_compute. reflexivity.
Defined.

(** ** Numbers *)

(** The digits of [num], most significant first. *)
Fixpoint digits (fuel : nat) (num base : Z) : bytes :=
  match fuel with
  | O => []
  | S fuel => (if base <=? num then digits fuel (num / base) base else []) ++ [digit_char (num mod base)]
  end.

Lemma pad_emit n c out : pad emit n c out = Ret ((), out ++ replicate n c).
Proof.
  revert out. induction n as [|n IH]; intros out; cbn [pad replicate]; [by rewrite app_nil_r|].
  erewrite bind_Ret by done. rewrite IH, <- app_assoc. done.
Qed.

(** [printnum] prints the digits, padded to the width. *)
Lemma printnum_emit fuel num base w pc out :
  2 <= base → 0 <= num < 2 ^ Z.of_nat fuel → - 2 ^ 31 + Z.of_nat fuel < w < 2 ^ 31 →
  let ds := digits (S fuel) num base in
  printnum emit fuel num base w pc out =
    Ret ((), out ++ replicate (Z.to_nat (w - Z.of_nat (length ds))) pc ++ ds).
Proof.
  intros Hb. revert num w. induction fuel as [|fuel IH]; intros num w Hn Hw ds; subst ds; cbn [printnum].
  - destruct (Z.leb_spec base num) as [Hle|Hle]; [change (2 ^ Z.of_nat 0) with 1 in Hn; lia|].
    rewrite (bind_Ret _ _ _ _ _ (pad_emit _ _ _)). unfold emit, modify. do 2 f_equal.
    rewrite <- app_assoc. f_equal. cbn [digits]. destruct (Z.leb_spec base num); [lia|].
    rewrite swrap_small by (unfold Z.sub; lia). done.
  - rewrite Nat2Z.inj_succ in Hn, Hw. rewrite Z.pow_succ_r in Hn by lia.
    remember (S fuel) as f1. cbn [digits]. subst f1. rewrite length_app. cbn [length].
    rewrite (swrap_small 32 (w - 1)) by lia.
    destruct (Z.leb_spec base num).
    + assert (0 <= num / base < 2 ^ Z.of_nat fuel).
      { split; [apply Z.div_pos; lia|]. apply Z.div_lt_upper_bound; nia. }
      rewrite (bind_Ret _ _ _ _ _ (IH (num / base) (w - 1) ltac:(done) ltac:(lia))).
      unfold emit, modify. do 2 f_equal. rewrite <- !app_assoc. do 2 f_equal. f_equal. lia.
    + rewrite (bind_Ret _ _ _ _ _ (pad_emit _ _ _)). unfold emit, modify. do 2 f_equal.
      rewrite <- !app_assoc. done.
Qed.

(** [%-5d]: the comment says the flag pads on the right; [printnum] is given
    the padding character [-] and pads on the left with it. *)
Theorem printfmt_minus_pads_left : printed (str "%-5d|") [AInt 42] = Ret (str "---42|").
Proof. vm_compute. reflexivity. Qed.
