(* ===== verification/NetUtil.v ===== *)
(** * Utilities of the network stack: [net/util.c], [platform/xv6-riscv/std.c],
    [platform.h]

    Packets are lists of bytes. The queue of [util.c] is modelled twice: on a
    heap of entries, as the code has it, and as the list of its data, which the
    theorem [queue_refines] shows it implements and which the other files of the
    stack use. Pages come from [kalloc]; a page is freed where the code frees
    it, so a count of free pages makes leaks visible. *)
From S2P Require Import Prelude.

(** ** Byte order

    [byteorder()] looks at the first byte of a 32-bit 1; RISC-V is
    little-endian, so the [hton] functions swap. *)

Definition byteorder_little : bool := negb (default 0 (head (le_bytes 4 1)) =? 0).
Definition byteswap16 (v : Z) : Z :=
  u16 (Z.lor (Z.shiftl (Z.land v 0x00ff) 8) (Z.shiftr (Z.land v 0xff00) 8)).
Definition byteswap32 (v : Z) : Z :=
  Z.lor (Z.lor (u32 (Z.shiftl (Z.land v 0x000000ff) 24)) (Z.shiftl (Z.land v 0x0000ff00) 8))
    (Z.lor (Z.shiftr (Z.land v 0x00ff0000) 8) (Z.shiftr (Z.land v 0xff000000) 24)).
Definition hton16 (h : Z) : Z := if byteorder_little then byteswap16 h else h.
Definition ntoh16 (n : Z) : Z := if byteorder_little then byteswap16 n else n.
Definition hton32 (h : Z) : Z := if byteorder_little then byteswap32 h else h.
Definition ntoh32 (n : Z) : Z := if byteorder_little then byteswap32 n else n.

(** ** Fields of packets *)

(** Loads and stores of a field at an offset, in the byte order of the machine. *)
Definition load (n : nat) (off : Z) (p : bytes) : option Z :=
  match sub_bytes p off (Z.of_nat n) with Some l => Some (le_val l) | None => None end.
Abbreviation load8 := (load 1).
Abbreviation load16 := (load 2).
Abbreviation load32 := (load 4).

(** ** Checksum *)

(** The sum of the 16-bit words, with the odd byte at the end; [fuel] is the
    number of words. *)
Fixpoint cksum_words (p : bytes) (count : nat) (sum : Z) : option Z :=
  match count, p with
  | S (S count), b0 :: b1 :: p => cksum_words p count (u32 (sum + le_val [b0; b1]))
  | S O, b :: _ => Some (u32 (sum + b))
  | O, _ => Some sum
  | _, _ => None
  end.
(** [while (sum >> 16)]: two rounds are enough for 32 bits. *)
Fixpoint cksum_fold (fuel : nat) (sum : Z) : option Z :=
  if Z.shiftr sum 16 =? 0 then Some sum else
  match fuel with
  | O => None
  | S fuel => cksum_fold fuel (Z.land sum 0xffff + Z.shiftr sum 16)
  end.
Definition cksum16 (p : bytes) (count init : Z) : option Z :=
  match cksum_words p (Z.to_nat (u16 count)) (u32 init) with
  | Some sum =>
      match cksum_fold 3 sum with
      | Some sum => Some (u16 (Z.lnot (u16 sum)))
      | None => None
      end
  | None => None
  end.

(** ** Memory and queues on the heap *)

Definition PGSIZE : Z := 4096.

Record queue_entry := QEntry { q_next : Z; q_data : Z }.
Record queue_head := QHead { q_head : Z; q_tail : Z; q_num : Z }.
(** The entries in use and the pages [kalloc] has, in the order it gives them. *)
Record qheap := QHeap { q_entries : gmap Z queue_entry; q_free : list Z; q : queue_head }.

Definition set_q (f : queue_head → queue_head) (s : qheap) : qheap := QHeap (q_entries s) (q_free s) (f (q s)).

Definition memory_alloc_at (size : Z) : M qheap Z := λ s,
  if PGSIZE <? size then Ret (0, s) else
  match q_free s with
  | [] => Ret (0, s)
  | p :: l => Ret (p, QHeap (<[p := QEntry 0 0]> (q_entries s)) l (q s))
  end.
Definition memory_free_at (p : Z) : M qheap () := λ s,
  match q_entries s !! p with
  | Some _ => Ret ((), QHeap (delete p (q_entries s)) (p :: q_free s) (q s))
  | None => Fault
  end.
Definition entry_at (p : Z) : M qheap queue_entry := o ← gets (λ s, q_entries s !! p); oget o.
Definition set_entry (p : Z) (f : queue_entry → queue_entry) : M qheap () :=
  e ← entry_at p; modify (λ s, QHeap (<[p := f e]> (q_entries s)) (q_free s) (q s)).

Definition queue_init : M qheap () := modify (set_q (λ _, QHead 0 0 0)).

Definition queue_push (data : Z) : M qheap Z :=
  entry ← memory_alloc_at 16;
  if entry =? 0 then mret 0 else
  set_entry entry (λ e, QEntry 0 (q_data e)) ;;
  set_entry entry (λ e, QEntry (q_next e) data) ;;
  h ← gets q;
  (if q_tail h =? 0 then mret ()
   else set_entry (q_tail h) (λ e, QEntry entry (q_data e))) ;;
  modify (set_q (λ h, QHead (q_head h) entry (q_num h))) ;;
  (if q_head h =? 0 then modify (set_q (λ h, QHead entry (q_tail h) (q_num h))) else mret ()) ;;
  modify (set_q (λ h, QHead (q_head h) (q_tail h) (u32 (q_num h + 1)))) ;;
  mret data.

Definition queue_pop : M qheap Z :=
  h ← gets q;
  if q_head h =? 0 then mret 0 else
  entry ← entry_at (q_head h);
  modify (set_q (λ h, QHead (q_next entry) (q_tail h) (q_num h))) ;;
  (if q_next entry =? 0 then modify (set_q (λ h, QHead (q_head h) 0 (q_num h))) else mret ()) ;;
  modify (set_q (λ h, QHead (q_head h) (q_tail h) (u32 (q_num h - 1)))) ;;
  memory_free_at (q_head h) ;;
  mret (q_data entry).

Definition queue_peek : M qheap Z :=
  h ← gets q;
  if q_head h =? 0 then mret 0 else entry ← entry_at (q_head h); mret (q_data entry).

(** The data [queue_foreach] visits, in its order. *)
Fixpoint queue_foreach_loop (fuel : nat) (p : Z) : M qheap (list Z) :=
  if p =? 0 then mret [] else
  match fuel with
  | O => out_of_fuel
  | S fuel => e ← entry_at p; l ← queue_foreach_loop fuel (q_next e); mret (q_data e :: l)
  end.
Definition queue_foreach : M qheap (list Z) :=
  h ← gets q; n ← gets (λ s, size (q_entries s)); queue_foreach_loop n (q_head h).

(** ** Time *)

Record timeval := TV { tv_sec : Z; tv_usec : Z }.
#[global] Instance timeval_eq_dec : EqDecision timeval.
Proof. solve_decision. Defined.

Definition timersub (a b : timeval) : timeval :=
  let sec := tv_sec a - tv_sec b in
  let usec := tv_usec a - tv_usec b in
  if usec <? 0 then TV (sec - 1) (usec + 1000 * 1000) else TV sec usec.
(** [timercmp(a, b, <)] and [timercmp(a, b, >)]. *)
Definition timer_lt (a b : timeval) : bool :=
  if tv_sec a =? tv_sec b then tv_usec a <? tv_usec b else tv_sec a <? tv_sec b.
Definition timeval_add_usec (x : timeval) (y : Z) : timeval :=
  let x := TV (tv_sec x + Z.quot y 1000000) (tv_usec x + Z.rem y 1000000) in
  if 1000000 <=? tv_usec x then TV (tv_sec x + 1) (tv_usec x - 1000000) else x.

(** ** Random numbers *)

Definition random (seed : Z) : Z := u32 (seed * 1103515245 + 12345) mod 0x7fffffff.

(** ** Numbers in strings

    A pointer into a string is the rest of the string before its NUL. *)

Definition char0 (s : bytes) : Z := default 0 (head s).

Fixpoint skip_blanks (s : bytes) : bytes :=
  match s with c :: s' => if (c =? 32) || (c =? 9) then skip_blanks s' else s | [] => [] end.
Definition digit_of (c : Z) : option Z :=
  if (48 <=? c) && (c <=? 57) then Some (c - 48)
  else if (97 <=? c) && (c <=? 122) then Some (c - 97 + 10)
  else if (65 <=? c) && (c <=? 90) then Some (c - 65 + 10)
  else None.
Fixpoint strtol_digits (s : bytes) (base val : Z) : Z * bytes :=
  match s with
  | [] => (val, [])
  | c :: s' =>
      match digit_of c with
      | Some dig => if base <=? dig then (val, s) else strtol_digits s' base (s64 (val * base + dig))
      | None => (val, s)
      end
  end.
Definition strtol (s : bytes) (base : Z) : Z * bytes :=
  let s := skip_blanks s in
  let '(neg, s) := if char0 s =? 43 then (false, drop 1 s)
                   else if char0 s =? 45 then (true, drop 1 s) else (false, s) in
  let '(s, base) :=
    if ((base =? 0) || (base =? 16)) && ((char0 s =? 48) && (char0 (drop 1 s) =? 120))
    then (drop 2 s, 16)
    else if (base =? 0) && (char0 s =? 48) then (drop 1 s, 8)
    else if base =? 0 then (s, 10) else (s, base) in
  let '(val, s) := strtol_digits s base 0 in
  ((if neg then s64 (- val) else val), s).

(** The suffix at the last occurrence. *)
Fixpoint strrchr_loop (cp : bytes) (ch : Z) (save : option bytes) : option bytes :=
  match cp with
  | [] => save
  | c :: cp' => strrchr_loop cp' ch (if c =? ch then Some cp else save)
  end.
Definition strrchr (cp : bytes) (ch : Z) : option bytes := strrchr_loop cp ch None.

(** ** Waiting: [struct sched_ctx]

    [sched_sleep] is cut at [sleep]: the part before it, and the part after the
    process was woken. *)

Record sched_ctx := Sched { interrupted : bool; wc : Z }.
Definition sched_ctx_init : sched_ctx := Sched false 0.
(** -1 when processes still wait. *)
Definition sched_ctx_destroy (c : sched_ctx) : Z := if wc c =? 0 then 0 else -1.
(** [None]: interrupted, the caller gets [EINTR] without sleeping. *)
Definition sched_sleep_enter (c : sched_ctx) : option sched_ctx :=
  if interrupted c then None else Some (Sched (interrupted c) (wc c + 1)).
(** The result of [sched_sleep] after the wake-up. *)
Definition sched_sleep_leave (c : sched_ctx) : Z * sched_ctx :=
  let c := Sched (interrupted c) (wc c - 1) in
  if interrupted c
  then (-1, if wc c =? 0 then Sched false (wc c) else c)
  else (0, c).
Definition sched_interrupt (c : sched_ctx) : sched_ctx := Sched true (wc c).

(** ** Byte order: proofs *)

Lemma land_mask v w n :
  0 <= w → 0 <= n → Z.land v (Z.shiftl (Z.ones w) n) = (v / 2 ^ n mod 2 ^ w) * 2 ^ n.
Proof.
  intros Hw Hn. rewrite <- Z.shiftr_div_pow2, <- Z.land_ones, <- Z.shiftl_mul_pow2 by done.
  bitwise i Hi. destruct (Z_lt_le_dec i n).
  - by rewrite !(Z.testbit_neg_r (Z.ones w)), !andb_false_r by lia.
  - rewrite Z.shiftr_spec by lia. do 2 f_equal. lia.
Qed.

(** Joining a value above the bits of another. *)
Lemma lor_add a b n : 0 <= n → 0 <= b < 2 ^ n → Z.lor (a * 2 ^ n) b = a * 2 ^ n + b.
Proof.
  intros Hn Hb. assert (Z.land (a * 2 ^ n) b = 0) as Hd.
  { rewrite <- Z.shiftl_mul_pow2 by done. apply Z.bits_inj'. intros i Hi.
    rewrite Z.land_spec, Z.bits_0. destruct (Z_lt_le_dec i n); [by rewrite Z.shiftl_spec_low|].
    rewrite <- (Z.mod_small b (2 ^ n)), Z.mod_pow2_bits_high by lia. apply andb_false_r. }
  by rewrite <- Z.lxor_lor, <- Z.add_nocarry_lxor.
Qed.

Lemma byteswap16_val v : in_range 16 v → byteswap16 v = le_val (rev (le_bytes 2 v)).
Proof.
  intros Hv. unfold in_range in Hv. unfold byteswap16.
  change 0xff00 with (Z.shiftl (Z.ones 8) 8). change 0x00ff with (Z.shiftl (Z.ones 8) 0).
  rewrite !land_mask, Z.shiftl_mul_pow2, Z.shiftr_div_pow2, Z.div_mul by lia.
  change (2 ^ 0) with 1. rewrite Z.mul_1_r, Z.div_1_r.
  rewrite lor_add by dlia. cbn [le_bytes rev app le_val].
  rewrite (wrap_small 16) by (unfold in_range; dlia). change (2 ^ 8) with 256. lia.
Qed.

Lemma byteswap32_val v : in_range 32 v → byteswap32 v = le_val (rev (le_bytes 4 v)).
Proof.
  intros Hv. unfold in_range in Hv. unfold byteswap32.
  change 0xff000000 with (Z.shiftl (Z.ones 8) 24). change 0x00ff0000 with (Z.shiftl (Z.ones 8) 16).
  change 0x0000ff00 with (Z.shiftl (Z.ones 8) 8). change 0x000000ff with (Z.shiftl (Z.ones 8) 0).
  rewrite !land_mask, !Z.shiftl_mul_pow2, !Z.shiftr_div_pow2 by lia.
  set (b0 := v / 2 ^ 0 mod 2 ^ 8). set (b1 := v / 2 ^ 8 mod 2 ^ 8).
  set (b2 := v / 2 ^ 16 mod 2 ^ 8). set (b3 := v / 2 ^ 24 mod 2 ^ 8).
  assert (0 <= b0 < 256 ∧ 0 <= b1 < 256 ∧ 0 <= b2 < 256 ∧ 0 <= b3 < 256) as (H0 & H1 & H2 & H3)
    by (subst b0 b1 b2 b3; split_and!; apply Z.mod_pos_bound; lia).
  rewrite (wrap_small 32) by (unfold in_range; lia).
  replace (b2 * 2 ^ 16 / 2 ^ 8) with (b2 * 2 ^ 8) by dlia.
  rewrite !Z.div_mul by lia.
  replace (b0 * 2 ^ 0 * 2 ^ 24) with (b0 * 2 ^ 8 * 2 ^ 16) by lia.
  replace (b1 * 2 ^ 8 * 2 ^ 8) with (b1 * 2 ^ 16) by lia.
  rewrite (lor_add b2 b3 8) by lia.
  replace (b0 * 2 ^ 8 * 2 ^ 16) with ((b0 * 2 ^ 8) * 2 ^ 16) by lia.
  assert (Z.lor (b0 * 2 ^ 8 * 2 ^ 16) (b1 * 2 ^ 16) = (b0 * 2 ^ 8 + b1) * 2 ^ 16) as ->.
  { rewrite <- !Z.shiftl_mul_pow2, <- Z.shiftl_lor, !Z.shiftl_mul_pow2 by lia. by rewrite lor_add by lia. }
  rewrite lor_add by lia. cbn [le_bytes rev app le_val].
  subst b0 b1 b2 b3. dlia.
Qed.

(** In memory, [hton] puts the most significant byte first. *)
Lemma hton16_bytes v : in_range 16 v → le_bytes 2 (hton16 v) = rev (le_bytes 2 v).
Proof.
  intros Hv. unfold hton16. change byteorder_little with true. cbv iota.
  rewrite byteswap16_val by done. replace 2%nat with (length (rev (le_bytes 2 v))) at 1 by done.
  apply le_bytes_val, Forall_rev, le_bytes_byte.
Qed.
Lemma hton32_bytes v : in_range 32 v → le_bytes 4 (hton32 v) = rev (le_bytes 4 v).
Proof.
  intros Hv. unfold hton32. change byteorder_little with true. cbv iota.
  rewrite byteswap32_val by done. replace 4%nat with (length (rev (le_bytes 4 v))) at 1 by done.
  apply le_bytes_val, Forall_rev, le_bytes_byte.
Qed.

Lemma hton16_range v : in_range 16 (hton16 v).
Proof. unfold hton16. change byteorder_little with true. apply wrap_range. lia. Qed.
Lemma hton32_range v : in_range 32 v → in_range 32 (hton32 v).
Proof.
  intros Hv. unfold hton32. change byteorder_little with true. cbv iota. rewrite byteswap32_val by done.
  pose proof (le_val_range (rev (le_bytes 4 v))) as Hr. apply Hr, Forall_rev, le_bytes_byte.
Qed.

Lemma le_val_inj l l' :
  Forall is_byte l → Forall is_byte l' → length l = length l' → le_val l = le_val l' → l = l'.
Proof.
  intros Hl Hl' Hlen E. rewrite <- (le_bytes_val l), <- (le_bytes_val l') by done. by rewrite Hlen, E.
Qed.

Lemma hton16_involutive v : in_range 16 v → hton16 (hton16 v) = v.
Proof.
  intros Hv. pose proof (hton16_bytes _ (hton16_range v)) as E. rewrite (hton16_bytes v) in E by done.
  rewrite rev_involutive in E. apply (f_equal le_val) in E. rewrite !le_val_bytes in E.
  rewrite !Z.mod_small in E; [done|exact Hv|apply hton16_range].
Qed.
Lemma hton32_involutive v : in_range 32 v → hton32 (hton32 v) = v.
Proof.
  intros Hv. pose proof (hton32_bytes _ (hton32_range v Hv)) as E. rewrite (hton32_bytes v) in E by done.
  rewrite rev_involutive in E. apply (f_equal le_val) in E. rewrite !le_val_bytes in E.
  rewrite !Z.mod_small in E; [done|exact Hv|by apply hton32_range, hton32_range].
Qed.

(** ** Checksum: proofs *)

(** The sum of the words, without the wrap-around of 32 bits. *)
Fixpoint word_sum (p : bytes) : Z :=
  match p with
  | b0 :: b1 :: p => le_val [b0; b1] + word_sum p
  | [b] => b
  | [] => 0
  end.

(** Induction on words. *)
Lemma words_ind (P : bytes → Prop) :
  P [] → (∀ b, P [b]) → (∀ b0 b1 p, P p → P (b0 :: b1 :: p)) → ∀ p, P p.
Proof.
  intros H0 H1 H2 p. enough (P p ∧ ∀ b, P (b :: p)) by tauto.
  induction p as [|b p [IH1 IH2]]; [auto|]. split; [auto|]. intros b'. by apply H2.
Qed.

Lemma word_sum_range p :
  Forall is_byte p → 0 <= word_sum p <= 65535 * ((Z.of_nat (length p) + 1) / 2).
Proof.
  induction p as [|b|b0 b1 p IH] using words_ind; intros Hp; cbn [word_sum length le_val].
  - done.
  - apply Forall_cons in Hp as [Hb _]. unfold in_range in Hb. change ((Z.of_nat 1 + 1) / 2) with 1. lia.
  - apply Forall_cons in Hp as [Hb0 [Hb1 Hp]%Forall_cons]. specialize (IH Hp).
    unfold in_range in Hb0, Hb1. rewrite !Nat2Z.inj_succ. revert IH.
    replace ((Z.succ (Z.succ (Z.of_nat (length p))) + 1) / 2) with ((Z.of_nat (length p) + 1) / 2 + 1) by dlia.
    lia.
Qed.

Lemma cksum_words_sum p : ∀ sum,
  Forall is_byte p → 0 <= sum → sum + word_sum p < 2 ^ 32 →
  cksum_words p (length p) sum = Some (sum + word_sum p).
Proof.
  induction p as [|b|b0 b1 p IH] using words_ind; intros sum Hp Hs Hlt.
  - simpl. f_equal. lia.
  - simpl in *. apply Forall_cons in Hp as [Hb _]. unfold in_range in Hb.
    rewrite wrap_small by (unfold in_range; lia). done.
  - apply Forall_cons in Hp as [Hb0 [Hb1 Hp]%Forall_cons]. unfold in_range in Hb0, Hb1.
    pose proof (word_sum_range p Hp).
    assert (0 <= (Z.of_nat (length p) + 1) / 2) by (apply Z.div_pos; lia).
    cbn [cksum_words length word_sum] in *. rewrite wrap_small by (unfold in_range; cbn [le_val] in *; lia).
    rewrite IH by (done || cbn [le_val] in *; lia). f_equal. lia.
Qed.

(** The folded sum: congruent modulo [2^16 - 1], and zero only for zero. *)
Lemma cksum_fold_spec sum :
  0 <= sum < 2 ^ 32 →
  ∃ f, cksum_fold 3 sum = Some f ∧ 0 <= f <= 65535 ∧ f mod 65535 = sum mod 65535 ∧ (f = 0 ↔ sum = 0).
Proof.
  intros Hs.
  assert (Hstep : ∀ x, 0 <= x → Z.land x 0xffff + Z.shiftr x 16 = x - 65535 * (x / 65536)).
  { intros x Hx. pose proof (Z.land_ones x 16 ltac:(lia)) as E. change (Z.ones 16) with 0xffff in E.
    rewrite E, Z.shiftr_div_pow2 by lia. change (2 ^ 16) with 65536. dlia. }
  assert (Hz : ∀ x, (Z.shiftr x 16 =? 0) = (x / 65536 =? 0)).
  { intros x. by rewrite Z.shiftr_div_pow2. }
  assert (Hmod : ∀ x k, (x - 65535 * k) mod 65535 = x mod 65535).
  { intros x k. rewrite <- (Z_mod_plus_full x (- k) 65535). f_equal. lia. }
  unfold cksum_fold. rewrite !Hz.
  destruct (Z.eqb_spec (sum / 65536) 0) as [E0|E0]; [exists sum; split_and!; (done || dlia)|].
  rewrite !Hstep by lia. set (s1 := sum - 65535 * (sum / 65536)).
  assert (0 < s1 <= 131070) as Hs1 by (subst s1; dlia).
  destruct (Z.eqb_spec (s1 / 65536) 0) as [E1|E1].
  { exists s1. split_and!; [done|lia|dlia|apply Hmod|]. split; intros; exfalso; dlia. }
  rewrite !Hstep by lia. set (s2 := s1 - 65535 * (s1 / 65536)).
  assert (0 < s2 <= 65535) as Hs2 by (subst s2; dlia).
  destruct (Z.eqb_spec (s2 / 65536) 0) as [E2|E2]; [|dlia].
  exists s2. split_and!; [done|lia|lia| |].
  - subst s2 s1. by rewrite !Hmod.
  - split; intros; exfalso; dlia.
Qed.

Lemma lnot16 f : 0 <= f <= 65535 → u16 (Z.lnot (u16 f)) = 65535 - f.
Proof.
  intros Hf. rewrite (wrap_small 16 f) by (unfold in_range; lia).
  unfold Z.lnot, wrap. change (2 ^ 16) with 65536. dlia.
Qed.

(** The checksum of a packet is total and is the complement of its folded sum. *)
Lemma cksum16_spec p init :
  Forall is_byte p → Z.of_nat (length p) < 65536 → 0 <= init <= 65535 →
  ∃ f, cksum16 p (Z.of_nat (length p)) init = Some (65535 - f) ∧ 0 <= f <= 65535 ∧
    f mod 65535 = (init + word_sum p) mod 65535 ∧ (f = 0 ↔ init + word_sum p = 0).
Proof.
  intros Hp Hl Hi. pose proof (word_sum_range p Hp) as Hw.
  assert (init + word_sum p < 2 ^ 32) as Hlt.
  { assert ((Z.of_nat (length p) + 1) / 2 <= 32768) by dlia. lia. }
  unfold cksum16. rewrite (wrap_small 16), Nat2Z.id, (wrap_small 32) by (unfold in_range; lia).
  rewrite cksum_words_sum by (done || lia).
  destruct (cksum_fold_spec (init + word_sum p)) as (f & E & Hf & Hm & Hz); [lia|].
  rewrite E. exists f. rewrite lnot16 by done. done.
Qed.

(** Only the first [count] bytes count. *)
Lemma cksum_words_app p x : ∀ count sum, (count <= length p)%nat →
  cksum_words (p ++ x) count sum = cksum_words p count sum.
Proof.
  induction p as [|b|b0 b1 p IH] using words_ind; intros [|[|count]] sum Hc; simpl in Hc; try lia; try done.
  - by destruct x.
  - cbn [app cksum_words]. apply IH. lia.
Qed.
Lemma cksum16_app p x count init :
  0 <= count <= Z.of_nat (length p) → count < 65536 → cksum16 (p ++ x) count init = cksum16 p count init.
Proof.
  intros Hc Hl. unfold cksum16. rewrite (wrap_small 16 count) by (unfold in_range; lia).
  by rewrite cksum_words_app by lia.
Qed.

Lemma word_sum_app l1 l2 :
  Nat.even (length l1) = true → word_sum (l1 ++ l2) = word_sum l1 + word_sum l2.
Proof.
  induction l1 as [|b|b0 b1 l1 IH] using words_ind; intros He; [done|done|].
  cbn [app word_sum]. rewrite IH by done. lia.
Qed.

Lemma word_sum_insert p k b b0 :
  p !! k = Some b0 → word_sum (<[k := b]> p) = word_sum p + (b - b0) * (if Nat.even k then 1 else 256).
Proof.
  revert k. induction p as [|c|c0 c1 p IH] using words_ind; intros k Hk; [done| |].
  - destruct k as [|k]; [|done]. injection Hk as ->. cbn. lia.
  - destruct k as [|[|k] ].
    + injection Hk as ->. cbn [insert list_insert word_sum le_val Nat.even]. lia.
    + injection Hk as ->. cbn [insert list_insert word_sum le_val Nat.even]. lia.
    + change (<[S (S k) := b]> (c0 :: c1 :: p)) with (c0 :: c1 :: <[k := b]> p). cbn [word_sum Nat.even].
      rewrite (IH k Hk). lia.
Qed.

(** A changed byte is noticed. *)
Lemma cksum16_detects p k b b0 :
  Forall is_byte p → Z.of_nat (length p) < 65536 → cksum16 p (Z.of_nat (length p)) 0 = Some 0 →
  p !! k = Some b0 → is_byte b → b ≠ b0 → cksum16 (<[k := b]> p) (Z.of_nat (length p)) 0 ≠ Some 0.
Proof.
  intros Hp Hl H0 Hk Hb Hne.
  assert (Forall is_byte (<[k := b]> p)) as Hp' by by apply Forall_insert.
  assert (is_byte b0) as Hb0 by (eapply Forall_lookup_1 in Hp; eauto).
  destruct (cksum16_spec p 0 Hp Hl ltac:(lia)) as (f & E1 & Hf & Hm & _).
  destruct (cksum16_spec (<[k := b]> p) 0 Hp' ltac:(by rewrite length_insert) ltac:(lia)) as (f' & E2 & Hf' & Hm' & _).
  rewrite length_insert in E2. rewrite E2. rewrite H0 in E1. injection E1 as E1. intros [= E3].
  assert (f = 65535) as -> by lia. assert (f' = 65535) as -> by lia.
  rewrite (word_sum_insert p k b b0 Hk) in Hm'. unfold in_range in Hb, Hb0.
  rewrite Z.add_0_l in Hm, Hm'. destruct (Nat.even k).
  all: Z.div_mod_to_equations; lia.
Qed.

(** Storing a checksum in a field of zeroes: the receiver's sum is 0. *)
Lemma cksum16_insert p off init c :
  Forall is_byte p → Z.of_nat (length p) < 65536 → 0 <= init <= 65535 →
  0 <= off → Z.even off = true → sub_bytes p off 2 = Some [0; 0] →
  cksum16 p (Z.of_nat (length p)) init = Some c →
  ∃ p', blit p off (le_bytes 2 c) = Some p' ∧ length p' = length p ∧ Forall is_byte p' ∧
    in_range 16 c ∧ cksum16 p' (Z.of_nat (length p')) init = Some 0.
Proof.
  intros Hp Hl Hi Hoff Hev Hz Hc.
  destruct (cksum16_spec p init Hp Hl Hi) as (f & E & Hf & Hm & H0). rewrite Hc in E. injection E as ->.
  assert (off + 2 <= Z.of_nat (length p)) as Hle.
  { unfold sub_bytes in Hz. destruct (_ && _) eqn:Eb; [lia|done]. }
  destruct (blit_is_Some p off (le_bytes 2 (65535 - f))) as [p' Hp']; [done|by rewrite length_le_bytes|].
  assert (Forall is_byte p') as Hb' by (eapply blit_bytes; [exact Hp|apply le_bytes_byte|exact Hp']).
  pose proof (length_blit _ _ _ _ Hp') as Hlen.
  exists p'. split_and!; [done|done|done|unfold in_range; lia|].
  assert (Hsum : word_sum p' = word_sum p + (65535 - f)).
  { set (k := Z.to_nat off). assert (Nat.even k = true) as Hk.
    { subst k. apply Nat.even_spec. apply Z.even_spec in Hev as [m Hm'].
      exists (Z.to_nat m). lia. }
    assert (p = take k p ++ [0; 0] ++ drop (k + 2) p) as Ep.
    { rewrite <- (take_drop k p) at 1. f_equal. unfold sub_bytes in Hz. fold k in Hz.
      destruct (_ && _); [|done]. injection Hz as Hz. rewrite <- (take_drop 2 (drop k p)), drop_drop.
      f_equal. exact Hz. }
    assert (p' = take k p ++ le_bytes 2 (65535 - f) ++ drop (k + 2) p) as Ep'.
    { unfold blit in Hp'. destruct (_ && _); [|done]. by injection Hp' as <-. }
    assert (Nat.even (length (take k p)) = true) as Hek by (rewrite length_take_le by lia; done).
    revert Ep Ep' Hek. generalize (take k p) as l1, (drop (k + 2) p) as l2. intros l1 l2 -> -> He.
    rewrite !word_sum_app by done. cbn [app le_bytes word_sum le_val]. dlia. }
  destruct (cksum16_spec p' init Hb') as (f' & E' & Hf' & Hm' & H0'); [lia|done|].
  rewrite E'. f_equal. rewrite Hsum in Hm', H0'. revert H0 H0' Hm Hm'.
  pose proof (word_sum_range p Hp). clear -Hf Hf' Hi H.
  assert (0 <= (Z.of_nat (length p) + 1) / 2) by (apply Z.div_pos; lia).
  intros. assert ((init + word_sum p + (65535 - f)) mod 65535 = 0) as Hzero.
  { replace (init + word_sum p + (65535 - f)) with ((init + word_sum p - f) + 1 * 65535) by lia.
    rewrite Z_mod_plus_full, Zminus_mod, <- Hm, Z.sub_diag. done. }
  rewrite Z.add_assoc, Hzero in Hm'. rewrite Z.add_assoc in H0'.
  assert (f' ≠ 0) by lia. dlia.
Qed.

(** ** Queues: proofs *)

(** The queue holds the data [l], in entries at [ps]; the free pages are not
    in use. *)
Record qrep (s : qheap) (ps l : list Z) : Prop := {
  qr_len : length ps = length l;
  qr_nodup : NoDup (ps ++ q_free s);
  qr_nonnull : Forall (λ p, p ≠ 0) (ps ++ q_free s);
  qr_entry : ∀ i p d, ps !! i = Some p → l !! i = Some d →
    q_entries s !! p = Some (QEntry (default 0 (ps !! S i)) d);
  qr_free : Forall (λ p, q_entries s !! p = None) (q_free s);
  qr_q : q s = QHead (default 0 (head ps)) (default 0 (last ps)) (u32 (Z.of_nat (length l)));
}.

Lemma entry_at_run s p e : q_entries s !! p = Some e → entry_at p s = Ret (e, s).
Proof. intros E. unfold entry_at. erewrite bind_Ret by done. by rewrite E. Qed.

Lemma set_entry_run s p f e :
  q_entries s !! p = Some e →
  set_entry p f s = Ret ((), QHeap (<[p := f e]> (q_entries s)) (q_free s) (q s)).
Proof. intros E. unfold set_entry. by rewrite (bind_Ret _ _ _ _ _ (entry_at_run _ _ _ E)). Qed.

Lemma qrep_last s ps l : qrep s ps l → (default 0 (last ps) = 0 ↔ ps = []).
Proof.
  intros []. destruct ps as [|p ps _] using rev_ind; [done|].
  rewrite last_snoc. simpl. split; [|by intros [? ?]%app_eq_nil].
  intros ->. rewrite !Forall_app in qr_nonnull0. by destruct qr_nonnull0 as [[_ [? _]%Forall_cons] _].
Qed.

Lemma queue_push_run s ps l data :
  qrep s ps l →
  match q_free s with
  | [] => queue_push data s = Ret (0, s)
  | p :: _ => ∃ s', queue_push data s = Ret (data, s') ∧ qrep s' (ps ++ [p]) (l ++ [data]) ∧
      q_free s = p :: q_free s'
  end.
Proof.
  intros Hr. pose proof (qrep_last _ _ _ Hr) as Hlast. destruct Hr, s as [es fr qh]. cbn [q_free q_entries q] in *.
  subst qh. destruct fr as [|p fr]; [done|].
  unfold queue_push, memory_alloc_at. cbn [q_free].
  erewrite bind_Ret by done. cbn [q_entries q_free q].
  pose proof qr_nonnull0 as [_ [Hp0 _]%Forall_cons]%Forall_app.
  destruct (Z.eqb_spec p 0); [done|].
  erewrite bind_Ret by (apply set_entry_run; cbn; apply lookup_insert_eq). cbn [q_entries q_free q q_data q_next].
  rewrite insert_insert_eq.
  erewrite bind_Ret by (apply set_entry_run; cbn; apply lookup_insert_eq). cbn [q_entries q_free q q_data q_next].
  rewrite insert_insert_eq. erewrite bind_Ret by done. cbn [q q_tail q_head].
  assert (p ∉ ps) as Hpn.
  { apply NoDup_app in qr_nodup0 as (_ & Hd & _). intros Hin. apply (Hd p Hin). left. }
  assert (Hstep : ∃ es', (if default 0 (last ps) =? 0 then mret ()
      else set_entry (default 0 (last ps)) (λ e, QEntry p (q_data e)))
      (QHeap (<[p:=QEntry 0 data]> es) fr (QHead (default 0 (head ps)) (default 0 (last ps)) (u32 (Z.of_nat (length l))))) =
      Ret ((), QHeap es' fr (QHead (default 0 (head ps)) (default 0 (last ps)) (u32 (Z.of_nat (length l))))) ∧
      es' !! p = Some (QEntry 0 data) ∧
      (∀ i x d, ps !! i = Some x → l !! i = Some d → es' !! x = Some (QEntry (default p (ps !! S i)) d)) ∧
      (∀ x, x ≠ p → x ∉ ps → es' !! x = es !! x)).
  { destruct (Z.eqb_spec (default 0 (last ps)) 0) as [E|E].
    - apply Hlast in E as ->. eexists. split; [done|]. split_and!; [apply lookup_insert_eq|done|].
      intros x Hx _. by rewrite lookup_insert_ne.
    - destruct ps as [|t ps _] using rev_ind; [by destruct E|]. rewrite last_snoc in *. cbn [from_option] in *. unfold id in *.
      rewrite length_app in qr_len0. cbn [length] in qr_len0.
      destruct (lookup_lt_is_Some_2 l (length ps)) as [dt Hdt]; [lia|].
      pose proof (qr_entry0 (length ps) t dt (list_lookup_middle _ _ _ _ eq_refl) Hdt) as Ht.
      assert (t ≠ p) as Htp by (intros ->; apply Hpn; in_list).
      exists (<[t := QEntry p dt]> (<[p := QEntry 0 data]> es)). split_and!.
      + erewrite set_entry_run by (cbn; by rewrite lookup_insert_ne). done.
      + by rewrite lookup_insert_ne, lookup_insert_eq by done.
      + intros i x d Hi Hd. destruct (decide (i < length ps)%nat) as [Hlt|Hge].
        * pose proof Hi as Hi'. rewrite lookup_app_l in Hi' by done.
          assert (x ≠ t). { intros ->. apply NoDup_app in qr_nodup0 as (Hnd & _ & _).
            rewrite <- Permutation_cons_append in Hnd. apply NoDup_cons in Hnd as [Hn _]. apply Hn.
            by eapply list_elem_of_lookup_2. }
          assert (x ≠ p) by (intros ->; apply Hpn; by eapply list_elem_of_lookup_2).
          rewrite !lookup_insert_ne by congruence. rewrite (qr_entry0 i x d Hi Hd).
          destruct (lookup_lt_is_Some_2 (ps ++ [t]) (S i)) as [y ->]; [rewrite length_app; simpl; lia|done].
        * pose proof (lookup_lt_Some _ _ _ Hi) as Hlt. rewrite length_app in Hlt. cbn [length] in Hlt.
          assert (i = length ps) as -> by lia. rewrite list_lookup_middle in Hi by done.
          injection Hi as <-. rewrite lookup_insert_eq, (lookup_ge_None_2 (ps ++ [t])); [simpl; congruence|].
          rewrite length_app. simpl. lia.
      + intros x Hx Hn. rewrite !lookup_insert_ne; [done|congruence|]. intros ->. apply Hn. in_list. }
  destruct Hstep as (es' & E & Hep & Hes & Hrest). rewrite (bind_Ret _ _ _ _ _ E).
  erewrite bind_Ret by done. unfold set_q. cbn [q q_entries q_free q_head q_tail q_num].
  assert (Hhead : ∃ h, (if default 0 (head ps) =? 0
      then modify (set_q (λ h : queue_head, QHead p (q_tail h) (q_num h))) else mret ())
      (QHeap es' fr (QHead (default 0 (head ps)) p (u32 (Z.of_nat (length l))))) =
      Ret ((), QHeap es' fr (QHead h p (u32 (Z.of_nat (length l))))) ∧ h = default 0 (head (ps ++ [p]))).
  { destruct ps as [|x ps]; [by exists p|]. apply Forall_app in qr_nonnull0 as [[Hx _]%Forall_cons _].
    simpl. destruct (Z.eqb_spec x 0); [done|]. by exists x. }
  destruct Hhead as (h & Eh & ->). unfold set_q in Eh. rewrite (bind_Ret _ _ _ _ _ Eh).
  eexists. split; [done|]. split; [|done]. cbn [q q_entries q_free q_head q_tail q_num] in *.
  constructor; cbn [q q_entries q_free q_head q_tail q_num].
  - rewrite !length_app. simpl. lia.
  - rewrite <- app_assoc. done.
  - rewrite <- app_assoc. done.
  - intros i x d Hi Hd. destruct (decide (i < length ps)%nat) as [Hlt|Hge].
    + rewrite lookup_app_l in Hi, Hd by lia. rewrite (Hes i x d Hi Hd). do 2 f_equal.
      destruct (decide (S i < length ps)%nat).
      * rewrite lookup_app_l by done. by destruct (lookup_lt_is_Some_2 ps (S i)) as [y ->].
      * rewrite (lookup_ge_None_2 ps) by lia. rewrite lookup_app_r by lia.
        by replace (S i - length ps)%nat with O by lia.
    + pose proof (lookup_lt_Some _ _ _ Hi) as Hlt. rewrite length_app in Hlt. cbn [length] in Hlt.
      assert (i = length ps) as -> by lia. rewrite list_lookup_middle in Hi by done. injection Hi as <-.
      rewrite lookup_app_r, qr_len0, Nat.sub_diag in Hd by lia. injection Hd as <-.
      rewrite Hep, (lookup_ge_None_2 (ps ++ [p])); [done|]. rewrite length_app. simpl. lia.
  - apply Forall_cons in qr_free0 as [_ Hfr]. rewrite Forall_forall in Hfr |- *. intros x Hx.
    apply NoDup_app in qr_nodup0 as (_ & Hd & [Hpf _]%NoDup_cons).
    rewrite Hrest; [by apply Hfr|by intros ->|]. intros Hin. apply (Hd x Hin). by right.
  - rewrite last_snoc, wrap_add_l, length_app. simpl. do 2 f_equal. lia.
Qed.

Lemma queue_pop_run s ps l :
  qrep s ps l →
  match l with
  | [] => queue_pop s = Ret (0, s)
  | d :: l' => ∃ s' p ps', queue_pop s = Ret (d, s') ∧ ps = p :: ps' ∧ qrep s' ps' l' ∧
      q_free s' = p :: q_free s
  end.
Proof.
  intros Hr. destruct Hr, s as [es fr qh]. cbn [q_free q_entries q] in *. subst qh.
  unfold queue_pop. erewrite bind_Ret by done. cbn [q q_head].
  destruct ps as [|p ps], l as [|d l]; try done. cbn [head from_option]. unfold id.
  pose proof qr_nonnull0 as [[Hp0 _]%Forall_cons _]%Forall_app.
  destruct (Z.eqb_spec p 0); [done|].
  pose proof (qr_entry0 O p d eq_refl eq_refl) as Hp.
  rewrite (bind_Ret _ _ _ _ _ (entry_at_run (QHeap es fr _) _ _ Hp)).
  erewrite bind_Ret by done. unfold set_q. cbn [q q_entries q_free q_head q_tail q_num q_next q_data].
  change ((p :: ps) !! 1%nat) with (ps !! O).
  pose proof qr_nodup0 as Hnd. cbn [app] in Hnd. apply NoDup_cons in Hnd as [Hpn Hnd].
  assert (Hnext : default 0 (ps !! O) = default 0 (head ps)) by (by destruct ps).
  rewrite !Hnext.
  assert (Hstep : (if default 0 (head ps) =? 0 then modify (λ s : qheap, QHeap (q_entries s) (q_free s)
        (QHead (q_head (q s)) 0 (q_num (q s)))) else mret ())
      (QHeap es fr (QHead (default 0 (head ps)) (default 0 (last (p :: ps))) (u32 (Z.of_nat (length (d :: l)))))) =
      Ret ((), QHeap es fr (QHead (default 0 (head ps)) (default 0 (last ps)) (u32 (Z.of_nat (length (d :: l))))))).
  { destruct ps as [|y ps]; [done|]. apply Forall_app in qr_nonnull0 as [[_ [Hy _]%Forall_cons]%Forall_cons _].
    simpl. destruct (Z.eqb_spec y 0); [done|]. done. }
  rewrite (bind_Ret _ _ _ _ _ Hstep). erewrite bind_Ret by done.
  erewrite bind_Ret by (unfold memory_free_at; cbn [q_entries q_free q]; by rewrite Hp).
  cbn [q q_entries q_free q_head q_tail q_num].
  eexists _, p, ps. split_and!; [done|done| |done].
  constructor; cbn [q q_entries q_free].
  - by injection qr_len0.
  - rewrite <- Permutation_middle. by constructor.
  - rewrite <- Permutation_middle. done.
  - intros i x d' Hi Hd. rewrite lookup_delete_ne.
    + by rewrite (qr_entry0 (S i) x d').
    + intros ->. apply Hpn. apply elem_of_app. left. by eapply list_elem_of_lookup_2.
  - constructor; [apply lookup_delete_eq|]. rewrite Forall_forall in qr_free0 |- *. intros x Hx.
    rewrite lookup_delete_ne; [by apply qr_free0|]. intros ->. apply Hpn. in_list.
  - f_equal. rewrite wrap_sub_l. f_equal. simpl. lia.
Qed.

Lemma queue_foreach_loop_run s ps l : ∀ n k,
  qrep s ps l → (length ps - k <= n)%nat →
  queue_foreach_loop n (default 0 (ps !! k)) s = Ret (drop k l, s).
Proof.
  intros n. induction n as [|n IH]; intros k Hr Hn; cbn [queue_foreach_loop].
  all: destruct (ps !! k) as [p|] eqn:Hk; cbn [from_option]; unfold id.
  all: try (apply lookup_ge_None_1 in Hk; rewrite drop_ge by (rewrite <- (qr_len _ _ _ Hr); lia); done).
  all: pose proof (lookup_lt_Some _ _ _ Hk).
  { lia. }
  pose proof (qr_nonnull _ _ _ Hr) as Hnn. apply Forall_app in Hnn as [Hnn _].
  rewrite Forall_lookup in Hnn. specialize (Hnn k p Hk). destruct (Z.eqb_spec p 0); [done|].
  destruct (lookup_lt_is_Some_2 l k) as [d Hd]; [rewrite <- (qr_len _ _ _ Hr); lia|].
  rewrite (bind_Ret _ _ _ _ _ (entry_at_run _ _ _ (qr_entry _ _ _ Hr k p d Hk Hd))). cbn [q_next q_data].
  rewrite (bind_Ret _ _ _ _ _ (IH (S k) Hr ltac:(lia))). by rewrite (drop_S l d k).
Qed.

Lemma qrep_size s ps l : qrep s ps l → (length ps <= size (q_entries s))%nat.
Proof.
  intros []. apply NoDup_app in qr_nodup0 as (Hnd & _ & _).
  rewrite <- size_dom, <- (size_list_to_set (C := gset Z) ps) by done.
  apply subseteq_size. intros p Hp%elem_of_list_to_set. apply list_elem_of_lookup in Hp as [i Hi].
  destruct (lookup_lt_is_Some_2 l i) as [d Hd]; [rewrite <- qr_len0; by eapply lookup_lt_Some|].
  apply elem_of_dom. by rewrite (qr_entry0 i p d Hi Hd).
Qed.

(** The linked queue of [util.c] is a FIFO list: [queue_push] appends
    (or returns NULL, changing nothing, when no page is left), [queue_pop]
    takes the first element and gives its page back, [queue_peek] reads it, and
    [queue_foreach] visits the elements in order. *)
Theorem queue_refines s ps l data :
  qrep s ps l →
  match q_free s with
  | [] => queue_push data s = Ret (0, s)
  | p :: _ => ∃ s', queue_push data s = Ret (data, s') ∧ qrep s' (ps ++ [p]) (l ++ [data]) ∧
      q_free s = p :: q_free s'
  end ∧
  match l with
  | [] => queue_pop s = Ret (0, s)
  | d :: l' => ∃ s' p ps', queue_pop s = Ret (d, s') ∧ ps = p :: ps' ∧ qrep s' ps' l' ∧
      q_free s' = p :: q_free s
  end ∧
  queue_peek s = Ret (default 0 (head l), s) ∧ queue_foreach s = Ret (l, s).
Proof.
  intros Hr. split_and!; [by apply queue_push_run|by apply queue_pop_run| |].
  - unfold queue_peek. erewrite bind_Ret by done. rewrite (qr_q _ _ _ Hr). cbn [q_head].
    pose proof (qr_len _ _ _ Hr). destruct ps as [|p ps], l as [|d l]; try done.
    cbn [head from_option]. unfold id.
    pose proof (qr_nonnull _ _ _ Hr) as [[Hp0 _]%Forall_cons _]%Forall_app. destruct (Z.eqb_spec p 0); [done|].
    by rewrite (bind_Ret _ _ _ _ _ (entry_at_run _ _ _ (qr_entry _ _ _ Hr O p d eq_refl eq_refl))).
  - unfold queue_foreach. do 2 erewrite bind_Ret by done. rewrite (qr_q _ _ _ Hr). cbn [q_head].
    pose proof (qrep_size _ _ _ Hr).
    replace (default 0 (head ps)) with (default 0 (ps !! O)) by (by destruct ps).
    rewrite (queue_foreach_loop_run s ps l) by (done || lia). done.
Qed.

Lemma queue_refines_witness :
  qrep (QHeap ∅ [4096; 8192] (QHead 0 0 0)) [] [] ∧
  ∃ s', queue_push 7 (QHeap ∅ [4096; 8192] (QHead 0 0 0)) = Ret (7, s') ∧ qrep s' [4096] [7] ∧
    [4096; 8192] = 4096 :: q_free s'.
Proof.
  assert (Hr : qrep (QHeap ∅ [4096; 8192] (QHead 0 0 0)) [] []).
  { constructor; try reflexivity.
    - apply (bool_decide_unpack _). vm_compute. exact I.
    - repeat constructor; discriminate.
    - intros i p d H. discriminate H.
    - repeat constructor. }
  split; [exact Hr|]. exact (proj1 (queue_refines _ _ _ 7 Hr)).
Defined.

(** A checksum stored where the field was zero makes the receiver's check
    come out 0, for any even offset and any initial value (a pseudo header's
    sum): what [ip], [icmp], [udp] and [tcp] send is what they accept. *)
Theorem cksum16_roundtrip p off init c :
  Forall is_byte p → Z.of_nat (length p) < 65536 → 0 <= init <= 65535 →
  0 <= off → Z.even off = true → sub_bytes p off 2 = Some [0; 0] →
  cksum16 p (Z.of_nat (length p)) init = Some c →
  ∃ p', blit p off (le_bytes 2 c) = Some p' ∧
    cksum16 p' (Z.of_nat (length p')) init = Some 0.
Proof.
  intros H1 H2 H3 H4 H5 H6 H7.
  destruct (cksum16_insert p off init c H1 H2 H3 H4 H5 H6 H7) as (p' & ? & _ & _ & _ & ?). eauto.
Qed.

Lemma cksum16_roundtrip_witness :
  ∃ p', blit [69; 0; 0; 84; 0; 0; 64; 0; 9] 4 (le_bytes 2 0xab60) = Some p' ∧
    cksum16 p' (Z.of_nat (length p')) 17 = Some 0.
Proof.
  apply (cksum16_roundtrip [69; 0; 0; 84; 0; 0; 64; 0; 9] 4 17 0xab60).
  - repeat constructor; discriminate.
  - reflexivity.
  - split; discriminate.
  - discriminate.
  - reflexivity.
  - reflexivity.
  - vm_compute. reflexivity.
Defined.
