(* ===== verification/NetSys.v ===== *)
(** * What the network stack uses of the kernel: [platform.h]

    Every layer of the stack keeps a state of its own above an environment [E]
    which holds the layers below: a layer's routine runs in [M (O * E)], with
    [own] and [own_set] for its own variables and [up] for a call of a lower
    layer. The class [SysIf] is what all of them use of the platform; [sys] is
    the implementation the witnesses run. Debug printing and the mutexes leave
    no trace in the model: each critical section is one step. *)
From S2P Require Import Prelude NetUtil.

Section layers.
Context {O E : Type}.

Definition up {A} (m : M E A) : M (O * E) A := λ s,
  match m s.2 with
  | Ret (a, e) => Ret (a, (s.1, e))
  | Panic msg => Panic msg
  | Fault => Fault
  | Block => Block
  | OutOfFuel => OutOfFuel
  end.
Definition own {A} (f : O → A) : M (O * E) A := gets (λ s, f s.1).
Definition own_set (f : O → O) : M (O * E) () := modify (λ s, (f s.1, s.2)).

Lemma up_Ret {A} (m : M E A) o e a e' : m e = Ret (a, e') → up m (o, e) = Ret (a, (o, e')).
Proof. intros E1. unfold up. cbn. by rewrite E1. Qed.

Lemma up_Ret_inv {A} (m : M E A) s a s' :
  up m s = Ret (a, s') → ∃ e', m s.2 = Ret (a, e') ∧ s' = (s.1, e').
Proof. unfold up. destruct (m s.2) as [[]| | | |]; try done. intros [= -> <-]. eauto. Qed.

#[global] Instance keeps_up_fst {A B} (f : O → B) (m : M E A) : Keeps (λ s : O * E, f s.1) (up m).
Proof. intros s a s' (e' & _ & ->)%up_Ret_inv. done. Qed.
#[global] Instance keeps_up_fst' {A} (m : M E A) : Keeps fst (up m).
Proof. intros s a s' (e' & _ & ->)%up_Ret_inv. done. Qed.
#[global] Instance keeps_up_snd {A B} (f : E → B) (m : M E A) :
  Keeps f m → Keeps (λ s : O * E, f s.2) (up m).
Proof. intros Hm s a s' (e' & E1 & ->)%up_Ret_inv. by apply Hm in E1. Qed.
#[global] Instance keeps_own {A B} (f : O → A) (g : O * E → B) : Keeps g (own f).
Proof. apply keeps_gets. Qed.
#[global] Instance keeps_own_set_snd {B} (f : O → O) (g : E → B) : Keeps (λ s : O * E, g s.2) (own_set f).
Proof. intros s a s' [= <- <-]. done. Qed.
#[global] Instance keeps_own_set_snd' (f : O → O) : Keeps (snd : O * E → E) (own_set f).
Proof. intros s a s' [= <- <-]. done. Qed.
End layers.

(** A part [P] of a larger state [F], and a routine on the part run on the whole. *)
Class Inside (P F : Type) := {
  iget : F → P;
  iput : P → F → F;
  iget_iput p f : iget (iput p f) = p;
  iput_iput p p' f : iput p (iput p' f) = iput p f;
}.
#[global] Instance inside_refl {P} : Inside P P.
Proof. by refine {| iget f := f; iput p _ := p |}. Defined.
#[global] Instance inside_snd {P O F} `{Inside P F} : Inside P (O * F).
Proof.
  refine {| iget f := iget f.2; iput p f := (f.1, iput p f.2) |}.
  - intros p [o f]. apply iget_iput.
  - intros p p' [o f]. cbn. by rewrite iput_iput.
Defined.
#[global] Hint Mode Inside ! ! : typeclass_instances.

Definition inside {P F A} `{Inside P F} (m : M P A) : M F A := λ f,
  match m (iget f) with
  | Ret (a, p) => Ret (a, iput p f)
  | Panic msg => Panic msg
  | Fault => Fault
  | Block => Block
  | OutOfFuel => OutOfFuel
  end.
Lemma inside_Ret {P F A} `{Inside P F} (m : M P A) (f : F) a p :
  m (iget f) = Ret (a, p) → inside m f = Ret (a, iput p f).
Proof. intros E1. unfold inside. by rewrite E1. Qed.

(** [memory_alloc] returns whether it found a page; which one it is does not
    matter to the stack, how many are left does. *)
Class SysIf (E : Type) := {
  memory_alloc : Z → M E bool;
  memory_free : M E ();
  gettimeofday : M E timeval;
  rand : M E Z;
  intr_raise_irq : Z → M E ();
}.

#[global] Instance sys_up {O E} `{SysIf E} : SysIf (O * E) := {
  memory_alloc size := up (memory_alloc size);
  memory_free := up memory_free;
  gettimeofday := up gettimeofday;
  rand := up rand;
  intr_raise_irq irq := up (intr_raise_irq irq);
}.

(** The queue of [util.c], as the list it implements: an entry takes a page. *)
Definition qpush {E A} `{SysIf E} (q : list A) (x : A) : M E (list A * bool) :=
  b ← memory_alloc 16; mret (if b : bool then (q ++ [x], true) else (q, false)).
Definition qpop {E A} `{SysIf E} (q : list A) : M E (list A * option A) :=
  match q with [] => mret ([], None) | x :: q => memory_free ;; mret (q, Some x) end.

(** The promises of the platform the theorems use: the pages are counted, the
    clock and the other calls leave them alone. *)
Class SysLaws (E : Type) `{SysIf E} := {
  pages : E → nat;
  alloc_none size e : PGSIZE < size ∨ pages e = O → memory_alloc size e = Ret (false, e);
  alloc_some size e : size <= PGSIZE → pages e ≠ O →
    ∃ e', memory_alloc size e = Ret (true, e') ∧ pages e = S (pages e');
  free_pages e : ∃ e', memory_free e = Ret ((), e') ∧ pages e' = S (pages e);
  time_ret e : ∃ t, gettimeofday e = Ret (t, e);
  irq_ret irq e : ∃ e', intr_raise_irq irq e = Ret ((), e') ∧ pages e' = pages e;
  irq_time irq e e' : intr_raise_irq irq e = Ret ((), e') → ∀ t, gettimeofday e = Ret (t, e) → gettimeofday e' = Ret (t, e');
  rand_ret e : ∃ r e', rand e = Ret (r, e') ∧ pages e' = pages e ∧ 0 <= r < 0x7fffffff;
}.

#[global] Instance sys_up_laws {O E} `{SysLaws E} : SysLaws (O * E).
Proof.
  refine {| pages s := pages s.2 |}.
  - intros size [o e] He. by apply up_Ret, alloc_none.
  - intros size [o e] Hs Hp. destruct (alloc_some size e Hs Hp) as (e' & E1 & E2).
    exists (o, e'). split; [by apply up_Ret|done].
  - intros [o e]. destruct (free_pages e) as (e' & E1 & E2). exists (o, e'). split; [by apply up_Ret|done].
  - intros [o e]. destruct (time_ret e) as (t & E1). exists t. by apply up_Ret.
  - intros irq [o e]. destruct (irq_ret irq e) as (e' & E1 & E2). exists (o, e'). split; [by apply up_Ret|done].
  - intros irq [o e] s' (e' & E1 & ->)%up_Ret_inv t (e2 & E2 & [= <-])%up_Ret_inv.
    apply up_Ret. eapply irq_time; eauto.
  - intros [o e]. destruct (rand_ret e) as (r & e' & E1 & E2). exists r, (o, e'). split; [by apply up_Ret|done].
Defined.

(** The laws at a layer above. *)
Section up_laws.
Context {O E : Type} `{SysLaws E}.
Implicit Types (o : O) (e : E).
Lemma alloc_up_none size o e : PGSIZE < size ∨ pages e = 0%nat → memory_alloc size (o, e) = Ret (false, (o, e)).
Proof. intros. by apply up_Ret, alloc_none. Qed.
Lemma alloc_up_some size o e : size <= PGSIZE → pages e ≠ 0%nat →
  ∃ e', memory_alloc size (o, e) = Ret (true, (o, e')) ∧ pages e = S (pages e').
Proof. intros Hs Hp. destruct (alloc_some size e Hs Hp) as (e' & E1 & E2). exists e'. split; [by apply up_Ret|done]. Qed.
Lemma free_up o e : ∃ e', memory_free (o, e) = Ret ((), (o, e')) ∧ pages e' = S (pages e).
Proof. destruct (free_pages e) as (e' & E1 & E2). exists e'. split; [by apply up_Ret|done]. Qed.
Lemma time_up o e : ∃ t, gettimeofday (o, e) = Ret (t, (o, e)).
Proof. destruct (time_ret e) as [t E1]. exists t. by apply up_Ret. Qed.
Lemma irq_up irq o e : ∃ e', intr_raise_irq irq (o, e) = Ret ((), (o, e')) ∧ pages e' = pages e.
Proof. destruct (irq_ret irq e) as (e' & E1 & E2). exists e'. split; [by apply up_Ret|done]. Qed.
End up_laws.

(** ** The platform *)

Record sys := Sys { npages : nat; now : timeval; seed : Z; pending : Z }.
Definition sys_raise_irq (irq : Z) : M sys () :=
  modify (λ s, Sys (npages s) (now s) (seed s) (Z.lor (pending s) irq)).
Definition sys_alloc (size : Z) : M sys bool := λ s,
  if PGSIZE <? size then Ret (false, s) else
  match npages s with
  | O => Ret (false, s)
  | S n => Ret (true, Sys n (now s) (seed s) (pending s))
  end.
Definition sys_free : M sys () := modify (λ s, Sys (S (npages s)) (now s) (seed s) (pending s)).
Definition srand (newseed : Z) : M sys () := modify (λ s, Sys (npages s) (now s) (u32 newseed) (pending s)).
Definition sys_random : M sys Z := λ s,
  let r := random (seed s) in Ret (r, Sys (npages s) (now s) r (pending s)).

#[global] Instance sys_if : SysIf sys := {
  memory_alloc := sys_alloc;
  memory_free := sys_free;
  gettimeofday := gets now;
  rand := sys_random;
  intr_raise_irq := sys_raise_irq;
}.
#[global] Instance sys_laws : SysLaws sys.
Proof.
  refine {| pages := npages |}.
  - intros size e [He|He]; cbn; unfold sys_alloc.
    + by destruct (Z.ltb_spec PGSIZE size); [|lia].
    + rewrite He. by destruct (_ <? _).
  - intros size e Hs Hp. cbn. unfold sys_alloc. destruct (Z.ltb_spec PGSIZE size); [lia|].
    destruct (npages e) eqn:En; [done|]. eexists. split; [done|]. done.
  - intros e. eexists. split; reflexivity.
  - intros e. eexists. reflexivity.
  - intros irq e. eexists. split; reflexivity.
  - intros irq e e' [= <-] t [= <-]. done.
  - intros e. do 2 eexists. split_and!; [reflexivity|reflexivity|apply Z.mod_pos_bound; lia..].
Defined.
