(* ===== verification/NetDev.v ===== *)
(** * The device layer: [net/net.c]

    Devices, protocols, timers and events are the lists of [net.c], newest
    first. A device pointer is the index the device was registered under, an
    interface pointer a number. A [struct ip_iface] is a [struct net_iface] with
    more fields, and the code casts between the two: one record is both. A
    function pointer kept in the state is a name of a type [H]; what the name
    stands for is the parameter [call] of the routines that call it. *)
From S2P Require Import Prelude KString Printfmt NetUtil NetSys.

Definition IFNAMSIZ : Z := 16.
Definition NET_DEVICE_TYPE_ETHERNET : Z := 0x0002.
Definition NET_DEVICE_FLAG_UP : Z := 0x0001.
Definition NET_DEVICE_FLAG_BROADCAST : Z := 0x0002.
Definition NET_DEVICE_FLAG_NEED_ARP : Z := 0x0080.
Definition NET_DEVICE_ADDR_LEN : Z := 16.
Definition NET_PROTOCOL_TYPE_IP : Z := 0x0800.
Definition NET_PROTOCOL_TYPE_ARP : Z := 0x0806.
Definition NET_IFACE_FAMILY_IP : Z := 1.
Definition INTR_IRQ_SOFTIRQ : Z := 2.
Definition INTR_IRQ_EVENT : Z := 4.

(** [ifaces] are pointers to the interfaces, in the order of the list. *)
Record net_device := Dev {
  index : Z; name : bytes; d_type : Z; mtu : Z; flags : Z; hlen : Z; alen : Z;
  addr : bytes; broadcast : bytes; ifaces : list Z }.
Record net_iface := NIface {
  family : Z; if_dev : option Z; unicast : Z; netmask : Z; if_broadcast : Z }.
Record net_protocol (H : Type) := Proto {
  p_type : Z; queue : list (Z * bytes); p_handler : H }.
Record net_timer (H : Type) := Timer { interval : timeval; last_run : timeval; t_handler : H }.
Record net_event (H : Type) := Event { e_handler : H; e_arg : Z }.
Arguments Proto {H} _ _ _. Arguments p_type {H} _. Arguments queue {H} _. Arguments p_handler {H} _.
Arguments Timer {H} _ _ _. Arguments interval {H} _. Arguments last_run {H} _. Arguments t_handler {H} _.
Arguments Event {H} _ _. Arguments e_handler {H} _. Arguments e_arg {H} _.

Record net (H : Type) := Net {
  devices : list net_device; next_index : Z; ifs : gmap Z net_iface;
  protocols : list (net_protocol H); timers : list (net_timer H); events : list (net_event H) }.
Arguments Net {H} _ _ _ _ _ _. Arguments devices {H} _. Arguments next_index {H} _. Arguments ifs {H} _.
Arguments protocols {H} _. Arguments timers {H} _. Arguments events {H} _.

Definition set_devices {H} f (n : net H) := Net (f (devices n)) (next_index n) (ifs n) (protocols n) (timers n) (events n).
Definition set_ifs {H} f (n : net H) := Net (devices n) (next_index n) (f (ifs n)) (protocols n) (timers n) (events n).
Definition set_protocols {H} f (n : net H) := Net (devices n) (next_index n) (ifs n) (f (protocols n)) (timers n) (events n).
Definition set_timers {H} f (n : net H) := Net (devices n) (next_index n) (ifs n) (protocols n) (f (timers n)) (events n).
Definition set_events {H} f (n : net H) := Net (devices n) (next_index n) (ifs n) (protocols n) (timers n) (f (events n)).
Definition dev_set_flags f d := Dev (index d) (name d) (d_type d) (mtu d) (f (flags d)) (hlen d) (alen d) (addr d) (broadcast d) (ifaces d).
Definition dev_set_ifaces f d := Dev (index d) (name d) (d_type d) (mtu d) (flags d) (hlen d) (alen d) (addr d) (broadcast d) (f (ifaces d)).

Definition NET_DEVICE_IS_UP (d : net_device) : bool := negb (Z.land (flags d) NET_DEVICE_FLAG_UP =? 0).

(** The bytes of a string before its NUL. *)
Fixpoint cstr (b : bytes) : bytes :=
  match b with [] => [] | c :: b => if c =? 0 then [] else c :: cstr b end.

(** [struct net_device_ops]: what the driver of a device provides; a missing
    operation is a null pointer. *)
Class DevOps (E : Type) := {
  op_open : Z → option (net_device → M E Z);
  op_close : Z → option (net_device → M E Z);
  op_transmit : Z → net_device → Z → bytes → bytes → M E Z;
}.

(** Address resolution, as the IP layer calls it: the result of [arp_resolve]
    and the hardware address it copied. *)
Class Resolver (F : Type) := resolve_addr : Z → Z → M F (Z * option bytes).

Section netdev.
Context {H E : Type} `{SysIf E} `{DevOps E}.
Implicit Types n : net H.

(** ** Devices *)

Definition dev_at (dev : Z) : M (net H * E) net_device :=
  o ← own (λ n, List.find (λ d, index d =? dev) (devices n)); oget o.
Definition dev_update (dev : Z) (f : net_device → net_device) : M (net H * E) () :=
  own_set (set_devices (map (λ d, if index d =? dev then f d else d))).
Definition iface_at (ifp : Z) : M (net H * E) net_iface := o ← own (λ n, ifs n !! ifp); oget o.
Definition iface_update (ifp : Z) (f : net_iface → net_iface) : M (net H * E) () :=
  i ← iface_at ifp; own_set (set_ifs <[ifp := f i]>).

Definition net_device_alloc : M (net H * E) (option net_device) :=
  b ← memory_alloc 112;
  if b : bool then mret (Some (Dev 0 (replicate 16 0) 0 0 0 0 0 (replicate 16 0) (replicate 16 0) [])) else mret None.

Definition net_device_register (dev : net_device) : M (net H * E) Z :=
  i ← own next_index;
  own_set (λ n, Net (devices n) (u32 (i + 1)) (ifs n) (protocols n) (timers n) (events n)) ;;
  nm ← (match snprintf (Some (name dev)) IFNAMSIZ (str "net%d") [AInt i] with
        | Ret (_, Some b) => mret b | _ => fault end);
  own_set (set_devices (cons (Dev i nm (d_type dev) (mtu dev) (flags dev) (hlen dev) (alen dev)
    (addr dev) (broadcast dev) (ifaces dev)))) ;;
  mret 0.

Definition net_device_open (dev : Z) : M (net H * E) Z :=
  d ← dev_at dev;
  if NET_DEVICE_IS_UP d then mret (-1) else
  r ← (match op_open dev with Some op => up (op d) | None => mret 0 end);
  if r =? -1 then mret (-1) else
  dev_update dev (dev_set_flags (λ f, Z.lor f NET_DEVICE_FLAG_UP)) ;; mret 0.

Definition net_device_close (dev : Z) : M (net H * E) Z :=
  d ← dev_at dev;
  if negb (NET_DEVICE_IS_UP d) then mret (-1) else
  r ← (match op_close dev with Some op => up (op d) | None => mret 0 end);
  if r =? -1 then mret (-1) else
  dev_update dev (dev_set_flags (λ f, u16 (Z.land f (Z.lnot NET_DEVICE_FLAG_UP)))) ;; mret 0.

Definition net_device_by_index (i : Z) : M (net H * E) (option Z) :=
  own (λ n, index <$> List.find (λ d, index d =? i) (devices n)).
Definition net_device_by_name (nm : bytes) : M (net H * E) (option Z) :=
  own (λ n, index <$> List.find (λ d, bool_decide (cstr (name d) = cstr nm)) (devices n)).

Fixpoint find_family (l : list Z) (fam : Z) : M (net H * E) (option Z) :=
  match l with
  | [] => mret None
  | i :: l => e ← iface_at i; if family e =? fam then mret (Some i) else find_family l fam
  end.
Definition net_device_get_iface (dev fam : Z) : M (net H * E) (option Z) :=
  d ← dev_at dev; find_family (ifaces d) fam.
Definition net_device_add_iface (dev ifp : Z) : M (net H * E) Z :=
  d ← dev_at dev;
  i ← iface_at ifp;
  o ← find_family (ifaces d) (family i);
  match o with
  | Some _ => mret (-1)
  | None =>
      iface_update ifp (λ i, NIface (family i) (Some dev) (unicast i) (netmask i) (if_broadcast i)) ;;
      dev_update dev (dev_set_ifaces (cons ifp)) ;; mret 0
  end.

Definition net_device_output (dev type : Z) (data dst : bytes) : M (net H * E) Z :=
  d ← dev_at dev;
  if negb (NET_DEVICE_IS_UP d) then mret (-1) else
  if mtu d <? Z.of_nat (length data) then mret (-1) else
  r ← up (op_transmit dev d type data dst);
  if r =? -1 then mret (-1) else mret 0.

(** ** Protocols *)

Definition net_protocol_register (type : Z) (handler : H) : M (net H * E) Z :=
  o ← own (λ n, List.find (λ p, p_type p =? type) (protocols n));
  match o with
  | Some _ => mret (-1)
  | None =>
      b ← memory_alloc 48;
      if negb b then mret (-1) else
      own_set (set_protocols (cons (Proto type [] handler))) ;; mret 0
  end.

(** [proto->queue = q] at the first protocol of a type. *)
Fixpoint set_queue (type : Z) (f : list (Z * bytes) → list (Z * bytes)) (l : list (net_protocol H)) : list (net_protocol H) :=
  match l with
  | [] => []
  | p :: l => if p_type p =? type then Proto (p_type p) (f (queue p)) (p_handler p) :: l
              else p :: set_queue type f l
  end.

Definition net_input_handler (type : Z) (data : bytes) (dev : Z) : M (net H * E) Z :=
  o ← own (λ n, List.find (λ p, p_type p =? type) (protocols n));
  match o with
  | None => mret 0
  | Some proto =>
      b ← memory_alloc (16 + Z.of_nat (length data));
      if negb b then mret (-1) else
      '(_, pushed) ← qpush (queue proto) (dev, data);
      if negb pushed then memory_free ;; mret (-1) else
      own_set (set_protocols (set_queue type (λ q, q ++ [(dev, data)]))) ;;
      intr_raise_irq INTR_IRQ_SOFTIRQ ;;
      mret 0
  end.

(** [queue_pop] on the queue of the [k]-th protocol. *)
Definition proto_pop (k : nat) : M (net H * E) (option (H * (Z * bytes))) :=
  o ← own (λ n, protocols n !! k);
  match o with
  | None => fault
  | Some p =>
      '(q, x) ← qpop (queue p);
      own_set (set_protocols (alter (λ p, Proto (p_type p) q (p_handler p)) k)) ;;
      mret ((λ x, (p_handler p, x)) <$> x)
  end.

(** ** Timers and events *)

Definition net_timer_register (iv : timeval) (handler : H) : M (net H * E) Z :=
  b ← memory_alloc 48;
  if negb b then mret (-1) else
  t ← gettimeofday;
  own_set (set_timers (cons (Timer iv t handler))) ;; mret 0.

(** The test of one timer: the handler to call and the time to store. *)
Definition timer_due (k : nat) : M (net H * E) (option (H * timeval)) :=
  o ← own (λ n, timers n !! k);
  match o with
  | None => fault
  | Some t =>
      now ← gettimeofday;
      mret (if timer_lt (interval t) (timersub now (last_run t)) then Some (t_handler t, now) else None)
  end.
Definition timer_done (k : nat) (now : timeval) : M (net H * E) () :=
  own_set (set_timers (alter (λ t, Timer (interval t) now (t_handler t)) k)).

Definition net_event_subscribe (handler : H) (arg : Z) : M (net H * E) Z :=
  b ← memory_alloc 24;
  if negb b then mret (-1) else
  own_set (set_events (cons (Event handler arg))) ;; mret 0.
Definition net_raise_event : M (net H * E) () := intr_raise_irq INTR_IRQ_EVENT.

(** ** Start and stop *)

Definition net_run : M (net H * E) Z :=
  ds ← own devices;
  mapM_ (λ d, net_device_open (index d) ;; mret ()) ds ;; mret 0.
Definition net_shutdown : M (net H * E) () :=
  ds ← own devices; mapM_ (λ d, net_device_close (index d) ;; mret ()) ds.

(** ** The interrupt handlers

    They call functions of the layers above, so they run on the state [F] of
    the whole stack; [call] and [call_event] are what the names of functions
    stand for. *)
Section handlers.
Context {F : Type} `{Inside (net H * E) F}.
Context (call : H → bytes → Z → M F ()) (call_timer : H → M F ()) (call_event : H → Z → M F ()).

Fixpoint proto_drain (fuel : nat) (k : nat) : M F () :=
  match fuel with
  | O => out_of_fuel
  | S fuel =>
      o ← inside (proto_pop k);
      match o with
      | None => mret ()
      | Some (h, (dev, data)) => call h data dev ;; inside memory_free ;; proto_drain fuel k
      end
  end.
(** The fuel: the packets that wait when the loop starts. *)
Definition net_softirq_handler : M F Z :=
  ps ← inside (own protocols);
  mapM_ (λ k, p ← inside (own (λ n, protocols n !! k));
              match p with Some p => proto_drain (S (length (queue p))) k | None => fault end)
    (seq 0 (length ps)) ;;
  mret 0.

Definition net_timer_handler : M F Z :=
  ts ← inside (own timers);
  mapM_ (λ k, o ← inside (timer_due k);
              match o with
              | Some (h, now) => call_timer h ;; inside (timer_done k now)
              | None => mret ()
              end) (seq 0 (length ts)) ;;
  mret 0.

Definition net_event_handler : M F Z :=
  es ← inside (own events); mapM_ (λ e, call_event (e_handler e) (e_arg e)) es ;; mret 0.
End handlers.
End netdev.

(** Reading a structure through its pointer. *)
Section pointers.
Context {H E : Type}.
Implicit Types n : net H.
Lemma dev_at_Ret dev n (e : E) d :
  dev_at dev (n, e) = Ret (d, (n, e)) ↔ List.find (λ d, index d =? dev) (devices n) = Some d.
Proof.
  unfold dev_at. erewrite bind_Ret by done. cbn. destruct (List.find _ _) as [d'|]; [|done].
  split; [by intros [= ->]|by intros [= ->]].
Qed.
Lemma iface_at_Ret ifp n (e : E) i :
  iface_at ifp (n, e) = Ret (i, (n, e)) ↔ ifs n !! ifp = Some i.
Proof.
  unfold iface_at. erewrite bind_Ret by done. cbn. destruct (ifs n !! ifp) as [i'|]; [|done].
  split; [by intros [= ->]|by intros [= ->]].
Qed.
End pointers.

(** ** Accepting a packet *)

Section input.
Context {H E : Type} `{SysLaws E}.
Implicit Types n : net H.

(** [set_queue] changes the queue of the protocol found, and no other. *)
Lemma set_queue_spec type f (l : list (net_protocol H)) p :
  List.find (λ p, p_type p =? type) l = Some p →
  ∃ l1 l2, l = l1 ++ p :: l2 ∧ p_type p = type ∧ Forall (λ q, p_type q ≠ type) l1 ∧
    set_queue type f l = l1 ++ Proto (p_type p) (f (queue p)) (p_handler p) :: l2.
Proof.
  induction l as [|q l IH]; [done|]. cbn [List.find set_queue].
  destruct (Z.eqb_spec (p_type q) type) as [E1|E1].
  - intros [= ->]. exists [], l. by split_and!.
  - intros Hf. destruct (IH Hf) as (l1 & l2 & E2 & E3 & E4 & E5). exists (q :: l1), l2.
    rewrite E5, E2 at 1. split_and!; [done|done|by constructor|done].
Qed.

Lemma net_input_handler_run type data dev n (e : E) :
  run (net_input_handler type data dev) (n, e) (λ r s,
    match List.find (λ p, p_type p =? type) (protocols n) with
    | None => r = 0 ∧ s = (n, e)
    | Some p =>
        (r = 0 ∧ s.1 = set_protocols (set_queue type (λ q, q ++ [(dev, data)])) n ∧
          pages e = S (S (pages s.2))) ∨
        (r = -1 ∧ s.1 = n ∧ pages s.2 = pages e ∧
          (PGSIZE < 16 + Z.of_nat (length data) ∨ (pages e < 2)%nat))
    end).
Proof.
  apply run_Ret. unfold net_input_handler. erewrite bind_Ret by done. cbn [fst].
  destruct (List.find _ (protocols n)) as [p|] eqn:Hf; [|by do 2 eexists].
  destruct (decide (16 + Z.of_nat (length data) <= PGSIZE)) as [Hs|Hs].
  2: { apply Z.nle_gt in Hs.
    rewrite (bind_Ret _ _ _ _ _ (alloc_up_none _ n e (or_introl Hs))).
    do 2 eexists. split; [done|]. right. split_and!; [done..|lia]. }
  destruct (decide (pages e = O)) as [Hp|Hp].
  { rewrite (bind_Ret _ _ _ _ _ (alloc_up_none _ n e (or_intror Hp))).
    do 2 eexists. split; [done|]. right. split_and!; [done..|lia]. }
  destruct (alloc_up_some _ n e Hs Hp) as (e1 & E1 & P1).
  rewrite (bind_Ret _ _ _ _ _ E1). cbn [negb]. unfold qpush.
  destruct (decide (pages e1 = O)) as [Hp1|Hp1].
  - erewrite bind_Ret by (erewrite bind_Ret by (apply (alloc_up_none 16 n e1 (or_intror Hp1))); done).
    cbn [negb]. destruct (free_up n e1) as (e2 & E2 & P2).
    rewrite (bind_Ret _ _ _ _ _ E2).
    do 2 eexists. split; [done|]. right. cbn [fst snd]. split_and!; [done..|lia|lia].
  - destruct (alloc_up_some 16 n e1 ltac:(done) Hp1) as (e2 & E2 & P2).
    erewrite bind_Ret by (erewrite bind_Ret by (apply E2); done).
    cbn [negb]. erewrite bind_Ret by done. cbn [fst snd].
    destruct (irq_up INTR_IRQ_SOFTIRQ (set_protocols (set_queue type (λ q, q ++ [(dev, data)])) n) e2) as (e3 & E3 & P3).
    rewrite (bind_Ret _ _ _ _ _ E3).
    do 2 eexists. split; [done|]. left. cbn [fst snd]. split_and!; [done..|lia].
Qed.

(** A packet a device hands to the stack is queued for its protocol, taking
    two pages and raising the soft interrupt, or refused with -1 and no page
    lost when it is too long or memory is short; an unknown type is ignored. *)
Theorem net_input_accepts type data dev n (e : E) :
  run (net_input_handler type data dev) (n, e) (λ r s,
    (r = 0 ∧ List.find (λ p, p_type p =? type) (protocols n) = None ∧ s = (n, e)) ∨
    (r = 0 ∧ pages e = S (S (pages s.2)) ∧ ∃ l1 l2 p,
      protocols n = l1 ++ p :: l2 ∧ p_type p = type ∧
      s.1 = set_protocols (λ _, l1 ++ Proto type (queue p ++ [(dev, data)]) (p_handler p) :: l2) n) ∨
    (r = -1 ∧ s.1 = n ∧ pages s.2 = pages e ∧
      (PGSIZE < 16 + Z.of_nat (length data) ∨ (pages e < 2)%nat))).
Proof.
  eapply run_mono; [apply net_input_handler_run|]. intros r s.
  destruct (List.find _ (protocols n)) as [p|] eqn:Hf; [|intros [-> ->]; by left].
  intros [(-> & E1 & E2)|(-> & E1 & E2 & E3)]; [right; left|right; right; done].
  destruct (set_queue_spec type (λ q, q ++ [(dev, data)]) _ _ Hf) as (l1 & l2 & Hl & Ht & _ & Hq).
  split_and!; [done|done|]. exists l1, l2, p. split_and!; [done|done|].
  rewrite E1. unfold set_protocols. by rewrite Hq, Ht.
Qed.

(** ** The soft interrupt *)

Context {F : Type} `{Inside (net H * E) F}.
Context (call : H → bytes → Z → M F ()) (tr : F → list (H * (Z * bytes))).
Hypothesis tr_iput : ∀ (p : net H * E) f, tr (iput p f) = tr f.
Hypothesis call_ok : ∀ h data dev f, ∃ f', call h data dev f = Ret ((), f') ∧
  protocols (iget (P := net H * E) f').1 = protocols (iget (P := net H * E) f).1 ∧
  pages (iget (P := net H * E) f').2 = pages (iget (P := net H * E) f).2 ∧
  tr f' = tr f ++ [(h, (dev, data))].

Lemma proto_drain_run k fuel : ∀ f t q h,
  protocols (iget f).1 !! k = Some (Proto t q h) → (length q < fuel)%nat →
  ∃ f', proto_drain call fuel k f = Ret ((), f') ∧
    protocols (iget f').1 = <[k := Proto t [] h]> (protocols (iget f).1) ∧
    tr f' = tr f ++ (pair h <$> q) ∧ pages (iget f').2 = (pages (iget f).2 + 2 * length q)%nat.
Proof.
  induction fuel as [|fuel IH]; intros f t q h Hk Hf; [lia|]. cbn [proto_drain].
  destruct (iget f) as [n e] eqn:En. cbn [fst snd] in *. destruct q as [|[dev data] q].
  - assert (E1 : proto_pop k (n, e) = Ret (None, (set_protocols (alter (λ p, Proto (p_type p) [] (p_handler p)) k) n, e))).
    { unfold proto_pop. erewrite bind_Ret by done. cbn [fst]. rewrite Hk. done. }
    rewrite <- En in E1. rewrite (bind_Ret _ _ _ _ _ (inside_Ret _ _ _ _ E1)).
    eexists. split; [done|]. rewrite iget_iput, tr_iput, app_nil_r. cbn [fst snd set_protocols protocols].
    split_and!; [|done|simpl; lia]. apply list_eq. intros i. destruct (decide (i = k)) as [->|].
    + rewrite list_lookup_alter_eq, list_lookup_insert_eq by (by eapply lookup_lt_Some). by rewrite Hk.
    + by rewrite list_lookup_alter_ne, list_lookup_insert_ne.
  - destruct (free_up n e) as (e1 & E1 & P1).
    assert (E2 : proto_pop k (n, e) = Ret (Some (h, (dev, data)), (set_protocols (alter (λ p, Proto (p_type p) q (p_handler p)) k) n, e1))).
    { unfold proto_pop. erewrite bind_Ret by done. cbn [fst]. rewrite Hk. unfold qpop. cbn [queue].
      erewrite bind_Ret by (erewrite bind_Ret by (apply E1); done). done. }
    rewrite <- En in E2. rewrite (bind_Ret _ _ _ _ _ (inside_Ret _ _ _ _ E2)).
    set (f1 := iput _ f). destruct (call_ok h data dev f1) as (f2 & E3 & Hp & Hpg & Ht).
    rewrite (bind_Ret _ _ _ _ _ E3).
    destruct (iget f2) as [n2 e2] eqn:En2. cbn [fst snd] in *.
    destruct (free_up n2 e2) as (e3 & E4 & P4).
    assert (E5 : memory_free (iget f2) = Ret ((), (n2, e3))) by (by rewrite En2).
    rewrite (bind_Ret _ _ _ _ _ (inside_Ret _ _ _ _ E5)).
    assert (Hp1 : protocols n2 = alter (λ p, Proto (p_type p) q (p_handler p)) k (protocols n)).
    { rewrite Hp. subst f1. by rewrite iget_iput. }
    destruct (IH (iput (n2, e3) f2) t q h) as (f' & E6 & Q1 & Q2 & Q3).
    { rewrite iget_iput. cbn [fst]. rewrite Hp1, list_lookup_alter_eq, Hk. done. }
    { simpl in Hf. lia. }
    exists f'. split; [done|]. rewrite iget_iput in Q1, Q3. cbn [fst snd] in *.
    rewrite Q1, Q2, Q3, tr_iput, Ht. subst f1. rewrite tr_iput, <- app_assoc. cbn [length fmap list_fmap].
    split_and!.
    + rewrite Hp1. apply list_eq. intros i. destruct (decide (i = k)) as [->|].
      * pose proof (lookup_lt_Some _ _ _ Hk). by rewrite !list_lookup_insert_eq by (rewrite ?length_alter; done).
      * by rewrite !list_lookup_insert_ne, list_lookup_alter_ne.
    + done.
    + rewrite iget_iput in Hpg. cbn [snd] in Hpg. lia.
Qed.

(** The soft interrupt handler hands every waiting packet to its protocol's
    handler, the packets of a protocol in the order they arrived, leaves all the
    queues empty, and frees the two pages each packet took. *)
Theorem net_softirq_delivers f :
  run (net_softirq_handler call) f (λ r f', r = 0 ∧
    tr f' = tr f ++ flat_map (λ p, pair (p_handler p) <$> queue p) (protocols (iget f).1) ∧
    protocols (iget f').1 = map (λ p, Proto (p_type p) [] (p_handler p)) (protocols (iget f).1) ∧
    pages (iget f').2 = (pages (iget f).2 + 2 * sum_list_with (λ p, length (queue p)) (protocols (iget f).1))%nat).
Proof.
  apply run_Ret. unfold net_softirq_handler.
  assert (E0 : own protocols (iget f) = Ret (protocols (iget f).1, iget f)) by done.
  rewrite (bind_Ret _ _ _ _ _ (inside_Ret _ _ _ _ E0)).
  set (body := λ k : nat, _ : M F ()).
  cut (∀ m i f1, length (protocols (iget f1).1) = (i + m)%nat → ∃ f2, mapM_ body (seq i m) f1 = Ret ((), f2) ∧
    tr f2 = tr f1 ++ flat_map (λ p, pair (p_handler p) <$> queue p) (drop i (protocols (iget f1).1)) ∧
    protocols (iget f2).1 = take i (protocols (iget f1).1) ++ map (λ p, Proto (p_type p) [] (p_handler p)) (drop i (protocols (iget f1).1)) ∧
    pages (iget f2).2 = (pages (iget f1).2 + 2 * sum_list_with (λ p, length (queue p)) (drop i (protocols (iget f1).1)))%nat).
  { intros Hl. destruct (Hl (length (protocols (iget f).1)) O (iput (P := net H * E) (iget f) f)) as (f2 & E2 & T1 & T2 & T3); [by rewrite iget_iput|].
    rewrite (bind_Ret _ _ _ _ _ E2). rewrite iget_iput in T1, T2, T3. rewrite tr_iput in T1.
    do 2 eexists. split; [done|]. done. }
  intros m. induction m as [|m IH]; intros i f1 Hl.
  { exists f1. rewrite drop_ge, take_ge by lia. cbn. rewrite !app_nil_r, Nat.add_0_r. done. }
  cbn [seq]. destruct (lookup_lt_is_Some_2 (protocols (iget f1).1) i) as [[t q h] Hi]; [lia|].
  assert (E1 : own (λ n, protocols n !! i) (iget f1) = Ret (Some (Proto t q h), iget f1)).
  { unfold own, gets. by rewrite Hi. }
  destruct (proto_drain_run i (S (length q)) (iput (P := net H * E) (iget f1) f1) t q h) as (f2 & E2 & P1 & P2 & P3); [by rewrite iget_iput|lia|].
  rewrite iget_iput in P1, P3. rewrite tr_iput in P2.
  destruct (IH (S i) f2) as (f3 & E3 & Q1 & Q2 & Q3); [rewrite P1, length_insert; lia|].
  exists f3. split.
  { rewrite (mapM_cons _ _ _ _ f2); [done|]. unfold body.
    rewrite (bind_Ret _ _ _ _ _ (inside_Ret _ _ _ _ E1)). done. }
  pose proof (lookup_lt_Some _ _ _ Hi).
  rewrite P1, drop_insert_lt in Q1, Q2, Q3 by lia. rewrite (drop_S _ _ _ Hi). cbn [flat_map map sum_list_with queue p_handler p_type].
  rewrite Q1, Q2, Q3, P2, P3. split_and!; [by rewrite <- app_assoc| |lia].
  erewrite take_S_r by (by apply list_lookup_insert_eq). rewrite take_insert_ge by lia. by rewrite <- app_assoc.
Qed.
End input.

Lemma net_softirq_delivers_witness :
  let n : net nat := Net [] 0 ∅ [Proto 0x806 [] 1%nat; Proto 0x800 [(0, [1]); (0, [2])] 2%nat] [] [] in
  let call h data dev : M (list (nat * (Z * bytes)) * (net nat * sys)) () :=
    own_set (λ l, l ++ [(h, (dev, data))]) in
  run (net_softirq_handler call) ([], (n, Sys 3 (TV 0 0) 1 0)) (λ r f', r = 0 ∧
    f'.1 = [(2%nat, (0, [1])); (2%nat, (0, [2]))] ∧ npages f'.2.2 = 7%nat).
Proof.
  intros n call.
  assert (Ht : ∀ (p : net nat * sys) (f : list (nat * (Z * bytes)) * (net nat * sys)), (iput p f).1 = f.1) by reflexivity.
  assert (Hc : ∀ (h : nat) (data : bytes) (dev : Z) (f : list (nat * (Z * bytes)) * (net nat * sys)), ∃ f', call h data dev f = Ret ((), f') ∧
    protocols (iget (P := net nat * sys) f').1 = protocols (iget (P := net nat * sys) f).1 ∧
    pages (iget (P := net nat * sys) f').2 = pages (iget (P := net nat * sys) f).2 ∧
    f'.1 = f.1 ++ [(h, (dev, data))]).
  { intros h data dev f. eexists. split_and!; reflexivity. }
  pose proof (net_softirq_delivers call fst Ht Hc ([], (n, Sys 3 (TV 0 0) 1 0))) as Hr.
  eapply run_mono; [exact Hr|]. intros r f' (H1 & H2 & _ & H4). split_and!; [exact H1|exact H2|exact H4].
Defined.

(** ** Registration *)

Section registration.
Context {H E : Type} `{SysIf E} `{DevOps E}.
Implicit Types (n : net H) (s : net H * E).

Definition fams n (d : net_device) : list (option Z) := (λ i, family <$> ifs n !! i) <$> ifaces d.
(** Devices have distinct numbers, protocols distinct types, and a device has
    one interface per family. *)
Record net_wf n : Prop := {
  wf_index : NoDup (index <$> devices n);
  wf_next : Forall (λ d, 0 <= index d < next_index n) (devices n);
  wf_proto : NoDup (p_type <$> protocols n);
  wf_fams : Forall (λ d, NoDup (fams n d) ∧ Forall is_Some (fams n d)) (devices n);
}.

(** One call of the layer, by whatever caller. [iface_update] stands for the
    assignments of [ip_iface_reconfigure]. *)
Inductive net_step s : net H * E → Prop :=
  | step_register d r s' : ifaces d = [] → next_index s.1 < 2 ^ 32 - 1 →
      net_device_register d s = Ret (r, s') → net_step s s'
  | step_open dev r s' : net_device_open dev s = Ret (r, s') → net_step s s'
  | step_close dev r s' : net_device_close dev s = Ret (r, s') → net_step s s'
  | step_add_iface dev ifp r s' : net_device_add_iface dev ifp s = Ret (r, s') → net_step s s'
  | step_output dev ty data dst r s' : net_device_output dev ty data dst s = Ret (r, s') → net_step s s'
  | step_protocol ty h r s' : net_protocol_register ty h s = Ret (r, s') → net_step s s'
  | step_input ty data dev r s' : net_input_handler ty data dev s = Ret (r, s') → net_step s s'
  | step_pop k r s' : proto_pop k s = Ret (r, s') → net_step s s'
  | step_timer iv h r s' : net_timer_register iv h s = Ret (r, s') → net_step s s'
  | step_timer_done k t r s' : timer_done k t s = Ret (r, s') → net_step s s'
  | step_event h a r s' : net_event_subscribe h a s = Ret (r, s') → net_step s s'
  | step_iface ifp f r s' : (∀ i, family (f i) = family i) →
      iface_update ifp f s = Ret (r, s') → net_step s s'.

(** What of the registration state the other calls may change: nothing. *)
Definition reg n := (index <$> devices n, ifaces <$> devices n, next_index n, p_type <$> protocols n, family <$> ifs n).

Lemma net_wf_reg n n' : reg n' = reg n → net_wf n → net_wf n'.
Proof.
  intros Hr [Q1 Q2 Q3 Q4]. injection Hr as E1 E2 E3 E4 E5. constructor.
  - by rewrite E1.
  - rewrite E3. rewrite Forall_lookup in Q2 |- *. intros i d Hd.
    assert ((index <$> devices n) !! i = Some (index d)) as Hi by (rewrite <- E1, list_lookup_fmap, Hd; done).
    rewrite list_lookup_fmap in Hi. destruct (devices n !! i) as [d'|] eqn:Hd'; [|done].
    injection Hi as <-. by eapply Q2.
  - by rewrite E4.
  - rewrite Forall_lookup in Q4 |- *. intros i d Hd.
    assert ((ifaces <$> devices n) !! i = Some (ifaces d)) as Hi by (rewrite <- E2, list_lookup_fmap, Hd; done).
    rewrite list_lookup_fmap in Hi. destruct (devices n !! i) as [d'|] eqn:Hd'; [|done]. injection Hi as Hi.
    specialize (Q4 i d' Hd'). unfold fams in *. rewrite <- Hi.
    replace ((λ i0, family <$> ifs n' !! i0) <$> ifaces d') with ((λ i0, family <$> ifs n !! i0) <$> ifaces d'); [done|].
    apply list_fmap_ext. intros _ x _. rewrite <- !lookup_fmap. by rewrite E5.
Qed.

Lemma fmap_map_same {A B} (h : A → B) (g : A → A) l : (∀ a, h (g a) = h a) → h <$> map g l = h <$> l.
Proof. intros Hg. induction l as [|a l IH]; [done|]. cbn. by rewrite Hg, IH. Qed.

Lemma reg_dev_flags dev f n :
  reg (set_devices (map (λ d, if index d =? dev then dev_set_flags f d else d)) n) = reg n.
Proof.
  unfold reg, set_devices. cbn. by rewrite !fmap_map_same by (intros d; by destruct (index d =? dev)).
Qed.

#[local] Instance keeps_reg_flags dev f :
  Keeps (λ s : net H * E, reg s.1) (dev_update dev (dev_set_flags f)).
Proof. intros s a s' [= <- <-]. apply reg_dev_flags. Qed.
#[local] Instance keeps_reg_dev_at dev : Keeps (λ s : net H * E, reg s.1) (dev_at dev).
Proof. unfold dev_at. apply _. Qed.
#[local] Instance keeps_reg_iface_at ifp : Keeps (λ s : net H * E, reg s.1) (iface_at ifp).
Proof. unfold iface_at. apply _. Qed.
#[local] Instance keeps_reg_timers f : Keeps (λ s : net H * E, reg s.1) (own_set (set_timers f)).
Proof. intros s a s' [= <- <-]. done. Qed.
#[local] Instance keeps_reg_events f : Keeps (λ s : net H * E, reg s.1) (own_set (set_events f)).
Proof. intros s a s' [= <- <-]. done. Qed.

Lemma set_queue_types ty f (l : list (net_protocol H)) : p_type <$> set_queue ty f l = p_type <$> l.
Proof.
  induction l as [|p l IH]; [done|]. cbn. destruct (p_type p =? ty); [done|]. cbn. by f_equal.
Qed.
#[local] Instance keeps_reg_queue ty f : Keeps (λ s : net H * E, reg s.1) (own_set (set_protocols (set_queue ty f))).
Proof. intros s a s' [= <- <-]. unfold reg. cbn. by rewrite set_queue_types. Qed.
Lemma alter_types q k (l : list (net_protocol H)) :
  p_type <$> alter (λ p, Proto (p_type p) q (p_handler p)) k l = p_type <$> l.
Proof.
  apply list_eq. intros i. rewrite !list_lookup_fmap. destruct (decide (i = k)) as [->|].
  - rewrite list_lookup_alter_eq. by destruct (l !! k).
  - by rewrite list_lookup_alter_ne.
Qed.
#[local] Instance keeps_reg_alter q k :
  Keeps (λ s : net H * E, reg s.1) (own_set (set_protocols (alter (λ p, Proto (p_type p) q (p_handler p)) k))).
Proof.
  intros s a s' [= <- <-]. unfold reg. cbn. by rewrite alter_types.
Qed.
#[local] Instance keeps_alloc {B} (f : net H → B) size : Keeps (λ s : net H * E, f s.1) (memory_alloc size).
Proof. apply _. Qed.
#[local] Instance keeps_free {B} (f : net H → B) : Keeps (λ s : net H * E, f s.1) memory_free.
Proof. apply _. Qed.
#[local] Instance keeps_time {B} (f : net H → B) : Keeps (λ s : net H * E, f s.1) gettimeofday.
Proof. apply _. Qed.
#[local] Instance keeps_irq {B} (f : net H → B) irq : Keeps (λ s : net H * E, f s.1) (intr_raise_irq irq).
Proof. apply _. Qed.

#[local] Instance keeps_qpop {A B} (f : net H → B) (q : list A) : Keeps (λ s : net H * E, f s.1) (qpop q).
Proof. destruct q; unfold qpop; apply _. Qed.

Lemma find_family_spec l fam s o s' :
  find_family l fam s = Ret (o, s') → s' = s ∧ match o with
    | None => Forall (λ i, ∃ e, ifs s.1 !! i = Some e ∧ family e ≠ fam) l
    | Some i => i ∈ l ∧ ∃ e, ifs s.1 !! i = Some e ∧ family e = fam
    end.
Proof.
  induction l as [|i l IH]; cbn [find_family]; [by intros [= <- <-]|].
  intros (e & s1 & A1 & A2)%bind_Ret_inv. apply bind_Ret_inv in A1 as (o' & s2 & A1 & A3).
  injection A1 as <- <-. destruct (ifs s.1 !! i) as [e'|] eqn:Hi; [|done]. injection A3 as <- <-. rename e' into e.
  destruct (Z.eqb_spec (family e) fam) as [E1|E1].
  - injection A2 as <- <-. split; [done|]. split; [left|eauto].
  - destruct (IH A2) as [-> Ho]. split; [done|]. destruct o as [j|].
    + destruct Ho as [Hj ?]. split; [by right|done].
    + constructor; [eauto|done].
Qed.


Lemma register_wf d r s s' :
  ifaces d = [] → next_index s.1 < 2 ^ 32 - 1 → net_device_register d s = Ret (r, s') →
  net_wf s.1 → 0 <= next_index s.1 → net_wf s'.1 ∧ 0 <= next_index s'.1.
Proof.
  intros Hd Hn Hr [Q1 Q2 Q3 Q4] H0'. destruct s as [n e]. unfold net_device_register in Hr.
  erewrite bind_Ret in Hr by done. erewrite bind_Ret in Hr by done. cbn [fst snd] in *.
  apply bind_Ret_inv in Hr as (nm & s1 & A1 & A2).
  assert (s1 = (Net (devices n) (u32 (next_index n + 1)) (ifs n) (protocols n) (timers n) (events n), e)) as ->.
  { destruct (snprintf _ _ _ _) as [[? [b|]]| | | |]; try done. by injection A1 as <- <-. }
  injection A2 as <- <-. cbn [fst snd]. rewrite wrap_small by (unfold in_range; lia).
  split; [|cbn; lia]. constructor; cbn [devices protocols next_index set_devices].
  - rewrite fmap_cons. cbn [index]. apply NoDup_cons. split; [|done].
    intros (d' & Ei & Hin)%list_elem_of_fmap. rewrite Forall_forall in Q2. specialize (Q2 d' Hin). lia.
  - constructor; [cbn; lia|]. eapply Forall_impl; [exact Q2|]. cbn. lia.
  - done.
  - constructor; [|done]. unfold fams. cbn [ifaces]. rewrite Hd. split; constructor.
Qed.

Lemma iface_update_spec ifp f s r s' :
  iface_update ifp f s = Ret (r, s') →
  ∃ i, ifs s.1 !! ifp = Some i ∧ s' = (set_ifs <[ifp := f i]> s.1, s.2).
Proof.
  intros (i & s1 & A1 & A2)%bind_Ret_inv. apply bind_Ret_inv in A1 as (o & s2 & A1 & A3).
  injection A1 as <- <-. destruct (ifs s.1 !! ifp) as [i'|] eqn:Hi; [|done].
  injection A3 as <- <-. injection A2 as <- <-. eauto.
Qed.

Lemma reg_iface_update ifp f s r s' :
  (∀ i, family (f i) = family i) → iface_update ifp f s = Ret (r, s') → reg s'.1 = reg s.1.
Proof.
  intros Hf (i & Hi & ->)%iface_update_spec. unfold reg, set_ifs. cbn [fst devices next_index ifs protocols].
  rewrite fmap_insert, Hf, insert_id; [done|]. by rewrite lookup_fmap, Hi.
Qed.

Lemma add_iface_wf dev ifp r s s' :
  net_device_add_iface dev ifp s = Ret (r, s') → net_wf s.1 → 0 <= next_index s.1 →
  net_wf s'.1 ∧ 0 <= next_index s'.1.
Proof.
  intros Hr Hwf Hnx. unfold net_device_add_iface in Hr.
  apply bind_Ret_inv in Hr as (d & s1 & A1 & Hr). apply bind_Ret_inv in A1 as (o & s2 & A1 & A2).
  injection A1 as <- <-. destruct (List.find _ (devices s.1)) as [d'|] eqn:Hd; [|done]. injection A2 as <- <-. rename d' into d.
  apply bind_Ret_inv in Hr as (i & s1 & A1 & Hr). apply bind_Ret_inv in A1 as (o & s2 & A1 & A2).
  injection A1 as <- <-. destruct (ifs s.1 !! ifp) as [i'|] eqn:Hi; [|done]. injection A2 as <- <-. rename i' into i.
  apply bind_Ret_inv in Hr as (o & s1 & A1 & Hr). apply find_family_spec in A1 as [-> Ho].
  destruct o as [j|]; [by injection Hr as <- <-|].
  apply bind_Ret_inv in Hr as ([] & s1 & A1 & Hr). injection Hr as <- <-.
  pose proof A1 as A1'. apply reg_iface_update in A1'; [|done].
  pose proof (net_wf_reg _ _ A1' Hwf) as Hwf1. apply List.find_some in Hd as [Hd Hdi].
  apply iface_update_spec in A1 as (i' & Hi' & ->). simplify_eq. cbn [fst snd] in *.
  split; [|done]. destruct Hwf1 as [Q1 Q2 Q3 Q4]. set (n1 := set_ifs _ s.1) in *.
  assert (Hsame : ∀ h : net_device → Z, (∀ d f, h (dev_set_ifaces f d) = h d) →
    h <$> map (λ d, if index d =? dev then dev_set_ifaces (cons ifp) d else d) (devices n1) = h <$> devices n1).
  { intros h Hh. apply fmap_map_same. intros a. by destruct (index a =? dev). }
  constructor; cbn [devices protocols next_index set_devices].
  - by rewrite (Hsame index).
  - rewrite Forall_map. eapply Forall_impl; [exact Q2|]. intros a Ha. cbn. by destruct (index a =? dev).
  - done.
  - rewrite Forall_map. rewrite Forall_forall in Q4 |- *. intros a Ha. specialize (Q4 a Ha).
    destruct (Z.eqb_spec (index a) dev) as [E1|E1]; [|exact Q4].
    assert (a = d) as ->.
    { apply list_elem_of_In in Hd. change (devices n1) with (devices s.1) in *.
      apply list_elem_of_lookup in Ha as [k1 K1], Hd as [k2 K2].
      assert (k1 = k2) as ->; [|congruence]. apply (NoDup_lookup _ _ _ (index d) Q1); rewrite list_lookup_fmap.
      - rewrite K1. cbn. f_equal. lia.
      - by rewrite K2. }
    unfold fams in *. cbn [ifaces dev_set_ifaces set_devices ifs]. rewrite fmap_cons.
    assert (family <$> ifs n1 !! ifp = Some (family i)) as Hfam.
    { subst n1. cbn. by rewrite lookup_insert_eq. }
    rewrite Hfam. destruct Q4 as [Q4 Q5]. split; [|by constructor].
    apply NoDup_cons. split; [|done]. intros (j & Hj & Hjin)%list_elem_of_fmap.
    rewrite Forall_forall in Ho. destruct (Ho j Hjin) as (ej & Hej & Hne). apply Hne.
    assert (family <$> ifs n1 !! j = family <$> ifs s.1 !! j) as Hj2.
    { rewrite <- !lookup_fmap. exact (f_equal (λ m, m !! j) A1'). }
    rewrite Hj2, Hej in Hj. by injection Hj.
Qed.

Lemma protocol_wf ty h r s s' :
  net_protocol_register ty h s = Ret (r, s') → net_wf s.1 → 0 <= next_index s.1 →
  net_wf s'.1 ∧ 0 <= next_index s'.1.
Proof.
  intros Hr Hwf Hnx. unfold net_protocol_register in Hr. erewrite bind_Ret in Hr by done.
  destruct (List.find _ (protocols s.1)) as [p|] eqn:Hf; [by injection Hr as <- <-|].
  apply bind_Ret_inv in Hr as (b & s1 & A1 & Hr). apply up_Ret_inv in A1 as (e' & _ & ->).
  destruct b; [|by injection Hr as <- <-]. injection Hr as <- <-. cbn [fst snd].
  destruct Hwf as [Q1 Q2 Q3 Q4]. split; [|done]. constructor; try done.
  cbn. apply NoDup_cons. split; [|done]. intros (p & -> & Hin)%list_elem_of_fmap.
  apply list_elem_of_In in Hin. pose proof (List.find_none _ _ Hf p Hin) as Hx. cbn in Hx. lia.
Qed.

(** The registration invariant: however the calls of the device layer are
    interleaved, devices keep distinct indices (below 2^32 devices), there is
    one protocol per type, and a device has at most one interface of a family,
    so [net_device_get_iface] has one answer. *)
Theorem net_registration_wf s s' :
  net_wf s.1 → 0 <= next_index s.1 → rtc net_step s s' → net_wf s'.1.
Proof.
  intros Hwf Hnx Hs. assert (net_wf s'.1 ∧ 0 <= next_index s'.1) as []; [|done].
  assert (Hk : ∀ A (m : M (net H * E) A) s1 a s2, Keeps (λ s : net H * E, reg s.1) m → m s1 = Ret (a, s2) →
    net_wf s1.1 → 0 <= next_index s1.1 → net_wf s2.1 ∧ 0 <= next_index s2.1).
  { intros A m s1 a s2 Hm Hr Hw Hn. apply Hm in Hr. split; [by eapply net_wf_reg|].
    injection Hr as _ _ -> _ _. done. }
  revert Hwf Hnx. induction Hs as [s|s1 s2 s3 Hst _ IH]; [done|]. intros Hwf Hnx.
  cut (net_wf s2.1 ∧ 0 <= next_index s2.1); [intros []; by apply IH|].
  destruct Hst as [d r s2 Hi Hn Hr|dev r s2 Hr|dev r s2 Hr|dev ifp r s2 Hr|dev ty data dst r s2 Hr|ty h r s2 Hr
    |ty data dev r s2 Hr|k r s2 Hr|iv h r s2 Hr|k t r s2 Hr|h a r s2 Hr|ifp f r s2 Hf Hr].
  - by eapply register_wf.
  - eapply Hk; [|exact Hr|done|done]. unfold net_device_open. apply _.
  - eapply Hk; [|exact Hr|done|done]. unfold net_device_close. apply _.
  - by eapply add_iface_wf.
  - eapply Hk; [|exact Hr|done|done]. unfold net_device_output. apply _.
  - by eapply protocol_wf.
  - eapply Hk; [|exact Hr|done|done]. unfold net_input_handler, qpush. apply _.
  - eapply Hk; [|exact Hr|done|done]. unfold proto_pop. apply _.
  - eapply Hk; [|exact Hr|done|done]. unfold net_timer_register. apply _.
  - eapply Hk; [|exact Hr|done|done]. unfold timer_done. apply _.
  - eapply Hk; [|exact Hr|done|done]. unfold net_event_subscribe. apply _.
  - apply reg_iface_update in Hr; [|done]. split; [by eapply net_wf_reg|]. injection Hr as _ _ -> _ _. done.
Qed.
End registration.

(** Two devices, an interface of each, two protocols: the steps of a boot. *)
Section registration_witness.
#[local] Instance no_driver : DevOps sys :=
  { op_open _ := None; op_close _ := None; op_transmit _ _ _ _ _ := mret 0 }.
Definition after {S} (s : S) (m : M S Z) : S := match m s with Ret (_, s') => s' | _ => s end.
Definition blank_dev : net_device := Dev 0 (replicate 16 0) 2 1500 0 14 6 (replicate 16 0) (replicate 16 255) [].
Definition boot_net : net nat := Net [] 0 {[ 100 := NIface 1 None 1 2 3; 101 := NIface 1 None 4 5 6 ]} [] [] [].

Lemma net_registration_wf_witness :
  ∃ s', rtc net_step (boot_net, Sys 9 (TV 0 0) 1 0) s' ∧ net_wf s'.1 ∧
    ifaces <$> devices s'.1 = [[]; [100]] ∧ p_type <$> protocols s'.1 = [0x800].
Proof.
  set (s0 := (boot_net, Sys 9 (TV 0 0) 1 0)).
  set (s1 := after s0 (net_device_register blank_dev)). set (s2 := after s1 (net_device_register blank_dev)).
  set (s3 := after s2 (net_device_add_iface 0 100)). set (s4 := after s3 (net_device_add_iface 0 101)).
  set (s5 := after s4 (net_protocol_register 0x800 7%nat)).
  assert (net_device_register blank_dev s0 = Ret (0, s1)) as R1 by reflexivity.
  assert (net_device_register blank_dev s1 = Ret (0, s2)) as R2 by reflexivity.
  assert (net_device_add_iface 0 100 s2 = Ret (0, s3)) as R3 by reflexivity.
  assert (net_device_add_iface 0 101 s3 = Ret (-1, s4)) as R4 by reflexivity.
  assert (net_protocol_register 0x800 7%nat s4 = Ret (0, s5)) as R5 by reflexivity.
  assert (ifaces <$> devices s5.1 = [[]; [100]] ∧ p_type <$> protocols s5.1 = [0x800]) as [D5 P5] by (split; reflexivity).
  clearbody s5 s4 s3. assert (next_index s1.1 = 1) as I1 by reflexivity. clearbody s2 s1.
  assert (Hs : rtc net_step s0 s5).
  { eapply rtc_l; [eapply (step_register s0 blank_dev); [reflexivity|vm_compute; reflexivity|exact R1]|].
    eapply rtc_l; [eapply (step_register s1 blank_dev); [reflexivity|rewrite I1; reflexivity|exact R2]|].
    eapply rtc_l; [eapply (step_add_iface s2 0 100); exact R3|].
    eapply rtc_l; [eapply (step_add_iface s3 0 101); exact R4|].
    eapply rtc_l; [eapply (step_protocol s4 0x800 7%nat); exact R5|]. apply rtc_refl. }
  exists s5. split_and!; [exact Hs| |exact D5|exact P5].
  refine (net_registration_wf s0 s5 _ _ Hs); [|discriminate]. constructor; constructor.
Defined.
End registration_witness.
