(* ===== verification/NetAddr.v ===== *)
(** * Addresses as text: [net/ether.c], [net/ip.c]

    The [pton] routines parse with [strtol] and the [ntop] routines print with
    [snprintf]; what is printed parses back. A string is the list of its bytes
    before the NUL, a pointer into it the rest from there on. *)
From S2P Require Import Prelude KString Printfmt NetUtil NetSys NetDev.

Definition ETHER_ADDR_LEN : Z := 6.
Definition IP_ADDR_STR_LEN : Z := 16.

(** The result and the bytes written to [n]. *)
Fixpoint ether_addr_pton_loop (k : nat) (index : nat) (p ep n : bytes) : nat * bytes * bytes :=
  match k with
  | O => (index, ep, n)
  | S k =>
      let '(val, ep) := strtol p 16 in
      if bool_decide (length ep = length p) || (val <? 0) || (0xff <? val) ||
         (bool_decide (index < 5)%nat && negb (char0 ep =? 58))
      then (index, ep, n)
      else ether_addr_pton_loop k (S index) (drop 1 ep) ep (<[index := val]> n)
  end.
Definition ether_addr_pton (p n : bytes) : Z * bytes :=
  let '(index, ep, n) := ether_addr_pton_loop 6 0 p p n in
  if bool_decide (index ≠ 6%nat) || negb (char0 ep =? 0) then (-1, n) else (0, n).

Definition byte_at (n : bytes) (i : nat) : arg := AInt (default 0 (n !! i)).
Definition ether_addr_ntop (n p : bytes) (size : Z) : outcome (Z * option bytes) :=
  snprintf (Some p) size (str "%02x:%02x:%02x:%02x:%02x:%02x")
    [byte_at n 0; byte_at n 1; byte_at n 2; byte_at n 3; byte_at n 4; byte_at n 5].

Fixpoint ip_addr_pton_loop (k : nat) (idx : nat) (sp n : bytes) : Z * bytes :=
  match k with
  | O => (0, n)
  | S k =>
      let '(ret, ep) := strtol sp 10 in
      if (ret <? 0) || (255 <? ret) then (-1, n)
      else if bool_decide (length ep = length sp) then (-1, n)
      else if (bool_decide (idx = 3%nat) && negb (char0 ep =? 0)) ||
              (bool_decide (idx ≠ 3%nat) && negb (char0 ep =? 46)) then (-1, n)
      else ip_addr_pton_loop k (S idx) (drop 1 ep) (<[idx := ret]> n)
  end.
Definition ip_addr_pton (p : bytes) (n : Z) : Z * Z :=
  let '(r, n) := ip_addr_pton_loop 4 0 p (le_bytes 4 n) in (r, le_val n).
Definition ip_addr_ntop (n : Z) (p : bytes) (size : Z) : outcome (Z * option bytes) :=
  let b := le_bytes 4 n in
  snprintf (Some p) size (str "%d.%d.%d.%d") [byte_at b 0; byte_at b 1; byte_at b 2; byte_at b 3].

(** [struct ip_endpoint]; the port is in network byte order. *)
Record ip_endpoint := EP { ep_addr : Z; ep_port : Z }.
#[global] Instance ip_endpoint_eq_dec : EqDecision ip_endpoint.
Proof. solve_decision. Defined.

(** [beyond] is the string in memory after the local array [addr]: sixteen
    characters fill the array and leave no NUL in it; more overflow it. *)
Definition ip_endpoint_pton (beyond p : bytes) (n : ip_endpoint) : outcome (Z * ip_endpoint) :=
  match strrchr p 58 with
  | None => Ret (-1, n)
  | Some sep =>
      let len := (length p - length sep)%nat in
      if bool_decide (16 < len)%nat then Fault else
      let addr := take len p ++ (if bool_decide (len = 16%nat) then beyond else []) in
      let '(r, a) := ip_addr_pton addr (ep_addr n) in
      let n := EP a (ep_port n) in
      if r =? -1 then Ret (-1, n) else
      let port := (strtol (drop 1 sep) 10).1 in
      if (port <=? 0) || (65535 <? port) then Ret (-1, n) else
      Ret (0, EP a (hton16 (u16 port)))
  end.
Definition ip_endpoint_ntop (n : ip_endpoint) (p : bytes) (size : Z) : outcome bytes :=
  match ip_addr_ntop (ep_addr n) p size with
  | Ret (_, Some p) =>
      let offset := length (cstr p) in
      match snprintf (Some (drop offset p)) (size - Z.of_nat offset) (str ":%d") [AInt (ntoh16 (ep_port n))] with
      | Ret (_, Some p') => Ret (take offset p ++ p')
      | _ => Fault
      end
  | _ => Fault
  end.

(** ** Digits *)

Lemma digit_of_char d : 0 <= d < 16 → digit_of (digit_char d) = Some d.
Proof.
  intros Hd. assert (d ∈ seqZ 0 16) as Hin by (apply elem_of_seqZ; lia).
  clear Hd. revert d Hin. apply Forall_forall. vm_compute. repeat constructor.
Qed.
Lemma digit_char_range d : 0 <= d < 10 → digit_char d = 48 + d.
Proof.
  intros Hd. assert (d ∈ seqZ 0 10) as Hin by (apply elem_of_seqZ; lia).
  clear Hd. revert d Hin. apply Forall_forall. vm_compute. repeat constructor.
Qed.
Lemma digit_char_not d : 0 <= d < 16 → digit_char d ∉ [0; 32; 9; 43; 45; 46; 58; 120].
Proof.
  intros Hd. assert (d ∈ seqZ 0 16) as Hin by (apply elem_of_seqZ; lia).
  clear Hd. revert d Hin. apply Forall_forall. repeat constructor; apply (bool_decide_unpack _); vm_compute; exact I.
Qed.

(** [strtol] undoes [printnum]. *)
Lemma strtol_digits_digits fuel base num rest :
  2 <= base <= 16 → 0 <= num < 2 ^ Z.of_nat fuel → num < 2 ^ 63 →
  strtol_digits (digits (S fuel) num base ++ rest) base 0 = strtol_digits rest base num.
Proof.
  intros Hb. revert num rest. induction fuel as [|fuel IH]; intros num rest Hn Hm.
  { change (2 ^ Z.of_nat 0) with 1 in Hn. assert (num = 0) as -> by lia. cbn [digits].
    destruct (Z.leb_spec base 0); [lia|]. cbn. rewrite Z.mod_0_l by lia.
    rewrite (digit_of_char 0) by lia. destruct (Z.leb_spec base 0); [lia|]. done. }
  remember (S fuel) as f1. cbn [digits]. subst f1. rewrite <- app_assoc. cbn [app].
  pose proof (Z.mod_pos_bound num base ltac:(lia)) as Hr. pose proof (Z.div_mod num base ltac:(lia)) as Hdm.
  assert (Hstep : ∀ v, v = num / base →
    strtol_digits (digit_char (num mod base) :: rest) base v = strtol_digits rest base num).
  { intros v ->. cbn [strtol_digits]. rewrite digit_of_char by lia.
    destruct (Z.leb_spec base (num mod base)); [lia|]. f_equal.
    rewrite swrap_small; [lia|lia|]. change (64 - 1) with 63. nia. }
  destruct (Z.leb_spec base num).
  - rewrite Nat2Z.inj_succ, Z.pow_succ_r in Hn by lia. rewrite IH; [by apply Hstep| |].
    + split; [apply Z.div_pos; lia|]. apply Z.div_lt_upper_bound; nia.
    + apply Z.div_lt_upper_bound; nia.
  - cbn [app]. apply Hstep. rewrite Z.div_small by lia. done.
Qed.

Lemma digits_cons fuel num base :
  2 <= base <= 16 → 0 <= num → Forall (λ c, ∃ d, 0 <= d < base ∧ c = digit_char d) (digits fuel num base).
Proof.
  intros Hb. revert num. induction fuel as [|fuel IH]; intros num Hn; cbn [digits]; [done|].
  apply Forall_app. split.
  - destruct (base <=? num); [|done]. apply IH. apply Z.div_pos; lia.
  - repeat constructor. exists (num mod base). split; [apply Z.mod_pos_bound; lia|done].
Qed.

Lemma digits_nonempty fuel num base : digits (S fuel) num base ≠ [].
Proof. cbn [digits]. intros [_ ?]%app_eq_nil. done. Qed.

(** A run of digits that does not look like a prefix parses as its value. *)
Lemma strtol_number fuel base num k rest :
  2 <= base <= 16 → 0 <= num < 2 ^ Z.of_nat fuel → num < 2 ^ 63 →
  (base = 16 → char0 rest ≠ 120) →
  match rest with [] => True | c :: _ => digit_of c = None end →
  strtol (replicate k 48 ++ digits (S fuel) num base ++ rest) base = (num, rest).
Proof.
  intros Hb Hn Hm Hx Hrest.
  set (ds := replicate k 48 ++ digits (S fuel) num base).
  assert (Hds : Forall (λ c, ∃ d, 0 <= d < base ∧ c = digit_char d) ds).
  { apply Forall_app. split; [|by apply digits_cons; lia]. apply Forall_replicate. exists 0. split; [lia|done]. }
  assert (Hne : ds ≠ []).
  { subst ds. intros [_ ?]%app_eq_nil. by apply (digits_nonempty fuel num base). }
  assert (Hval : strtol_digits (ds ++ rest) base 0 = (num, rest)).
  { subst ds. rewrite <- app_assoc. induction k as [|k IH]; cbn [replicate app].
    - rewrite strtol_digits_digits by done. destruct rest as [|c rest]; [done|]. cbn. by rewrite Hrest.
    - cbn [strtol_digits]. change (digit_of 48) with (Some 0). cbv iota beta.
      destruct (Z.leb_spec base 0); [lia|]. change (s64 (0 * base + 0)) with 0.
      apply IH. + by apply Forall_app; apply Forall_app in Hds as [Hds ?]; inversion Hds.
      + intros [_ ?]%app_eq_nil. by apply (digits_nonempty fuel num base). }
  rewrite app_assoc. fold ds. revert Hds Hne Hval. generalize ds. clear ds. intros [|c ds] Hds Hne Hval; [done|].
  inversion Hds as [|? ? (d & Hd & Hc) Hds']; subst c.
  pose proof (digit_char_not d ltac:(lia)) as Hnot. rewrite !not_elem_of_cons in Hnot.
  destruct Hnot as (N0 & N1 & N2 & N3 & N4 & N5 & N6 & N7 & _).
  unfold strtol. cbn [skip_blanks app].
  destruct (Z.eqb_spec (digit_char d) 32); [done|]. destruct (Z.eqb_spec (digit_char d) 9); [done|]. cbn [orb].
  unfold char0. cbn [head from_option]. unfold id.
  destruct (Z.eqb_spec (digit_char d) 43); [done|]. destruct (Z.eqb_spec (digit_char d) 45); [done|].
  destruct (Z.eqb_spec base 0); [lia|]. cbn [orb].
  assert (Hpre : (base =? 16) && ((digit_char d =? 48) && (default 0 (head (drop 1 (digit_char d :: ds ++ rest))) =? 120)) = false).
  { destruct (Z.eqb_spec base 16); [|done]. destruct (digit_char d =? 48); [|done]. cbn [andb drop].
    apply Z.eqb_neq. destruct ds as [|c' ds].
    - cbn [app]. by apply Hx.
    - inversion Hds' as [|? ? (d' & Hd' & Hc')]; subst. cbn. intros E1.
      pose proof (digit_char_not d' ltac:(lia)) as Hnot. apply Hnot. rewrite E1. by repeat (first [left|right]). }
  unfold id in *. cbn [head from_option drop] in *. rewrite Hpre. cbn [andb]. cbn [app] in Hval. by rewrite Hval.
Qed.

(** ** What the formats print *)

Abbreviation dec z := (digits 65 z 10).
Definition hex2 (z : Z) : bytes :=
  replicate (Z.to_nat (2 - Z.of_nat (length (digits 65 z 16)))) 48 ++ digits 65 z 16.

Lemma print_lit fuel pe c fmt args out :
  c ≠ 37 → vprintfmt_loop emit (S fuel) pe (c :: fmt) args out = vprintfmt_loop emit fuel pe fmt args (out ++ [c]).
Proof. intros Hc. cbn [vprintfmt_loop]. destruct (Z.eqb_spec c 37); [done|]. cbn [negb]. by erewrite bind_Ret. Qed.

Lemma escape_d fuel pe esc z fmt args out :
  0 <= z < 2 ^ 31 →
  escape emit (S fuel) pe esc (100 :: fmt) (AInt z :: args) fspec_init out = Ret ((fmt, args), out ++ digits 65 z 10).
Proof.
  intros Hz. cbn -[printnum mbind swrap]. unfold getint, va_int. erewrite bind_Ret by done.
  cbn -[printnum mbind swrap]. rewrite swrap_small by lia.
  destruct (Z.ltb_spec z 0); [lia|]. erewrite bind_Ret by done.
  erewrite bind_Ret by (apply printnum_emit; lia). by replace (Z.to_nat (-1 - _)) with O by lia.
Qed.

Lemma escape_02x fuel pe esc z fmt args out :
  0 <= z < 256 →
  escape emit (S (S (S fuel))) pe esc (48 :: 50 :: 120 :: fmt) (AInt z :: args) fspec_init out =
    Ret ((fmt, args), out ++ replicate (Z.to_nat (2 - Z.of_nat (length (digits 65 z 16)))) 48 ++ digits 65 z 16).
Proof.
  intros Hz. cbn -[printnum mbind wrap]. unfold getuint, va_int. erewrite bind_Ret by done.
  cbn -[printnum mbind wrap]. rewrite wrap_small by (unfold in_range; lia).
  by erewrite bind_Ret by (apply printnum_emit; lia).
Qed.

Lemma print_d fuel pe z fmt args out :
  0 <= z < 2 ^ 31 →
  vprintfmt_loop emit (S fuel) pe (37 :: 100 :: fmt) (AInt z :: args) out =
    vprintfmt_loop emit fuel pe fmt args (out ++ digits 65 z 10).
Proof.
  intros Hz. cbn [vprintfmt_loop]. change (negb (37 =? 37)) with false. cbv iota.
  by rewrite (bind_Ret _ _ _ _ _ (escape_d _ _ _ _ _ _ _ Hz)).
Qed.

Lemma print_02x fuel pe z fmt args out :
  0 <= z < 256 →
  vprintfmt_loop emit (S fuel) pe (37 :: 48 :: 50 :: 120 :: fmt) (AInt z :: args) out =
    vprintfmt_loop emit fuel pe fmt args
      (out ++ hex2 z).
Proof.
  intros Hz. cbn [vprintfmt_loop]. change (negb (37 =? 37)) with false. cbv iota. cbn [length].
  by rewrite (bind_Ret _ _ _ _ _ (escape_02x _ _ _ _ _ _ _ Hz)).
Qed.

(** ** Round trips *)

Definition text (l : bytes) : Prop := Forall (λ c, 0 < c < 256) l.

Lemma byte_cases (P : Z → Prop) `{∀ z, Decision (P z)} :
  forallb (λ z, bool_decide (P z)) (seqZ 0 256) = true → ∀ z, is_byte z → P z.
Proof.
  intros Hall z Hz. rewrite forallb_forall in Hall. specialize (Hall z).
  rewrite <- list_elem_of_In, elem_of_seqZ in Hall. unfold in_range in Hz. change (2 ^ 8) with 256 in Hz.
  exact (bool_decide_eq_true_1 _ (Hall ltac:(lia))).
Qed.

Lemma digits_text fuel num base : 2 <= base <= 16 → 0 <= num → text (digits fuel num base).
Proof.
  intros Hb Hn. eapply Forall_impl; [by apply digits_cons|]. intros c (d & Hd & ->).
  assert (d ∈ seqZ 0 16) as Hin by (apply elem_of_seqZ; lia). clear Hd. revert d Hin.
  apply Forall_forall. vm_compute. repeat constructor.
Qed.
Lemma dec_length z : is_byte z → (length (dec z) <= 3)%nat.
Proof. apply (byte_cases (λ z, (length (dec z) <= 3)%nat)). vm_compute. reflexivity. Qed.
Lemma hex2_length z : is_byte z → length (hex2 z) = 2%nat.
Proof. apply (byte_cases (λ z, length (hex2 z) = 2%nat)). vm_compute. reflexivity. Qed.
Lemma hex2_text z : is_byte z → text (hex2 z).
Proof.
  intros Hz. apply Forall_app. split; [by apply Forall_replicate|].
  apply digits_text; unfold in_range in Hz; lia.
Qed.

Lemma cstr_text l x : text l → cstr (l ++ 0 :: x) = l.
Proof.
  induction 1 as [|c l Hc _ IH]; [done|]. cbn [app cstr]. destruct (Z.eqb_spec c 0); [lia|]. by f_equal.
Qed.

(** The buffer [snprintf] leaves holds the text, if it fits. *)
Lemma snprintf_text b n fmt args out :
  1 <= n <= Z.of_nat (length b) → printed fmt args = Ret out → text out → Z.of_nat (length out) < n →
  ∃ b', snprintf (Some b) n fmt args = Ret (s32 (Z.of_nat (length out)), Some b') ∧
    b' = out ++ 0 :: drop (S (length out)) b ∧ cstr b' = out.
Proof.
  intros Hn Hp Ht Hl. rewrite snprintf_run, Hp by done. cbv zeta.
  assert (u8 <$> out = out) as ->.
  { clear -Ht. induction Ht as [|c l Hc _ IH]; [done|]. cbn. rewrite IH, wrap_small; [done|]. unfold in_range. lia. }
  rewrite take_ge by lia. eexists. split; [done|]. split; [done|].
  by apply cstr_text.
Qed.

Lemma strtol_dec z rest :
  0 <= z < 2 ^ 63 → match rest with [] => True | c :: _ => digit_of c = None end →
  strtol (dec z ++ rest) 10 = (z, rest).
Proof. intros Hz Hr. apply (strtol_number 64 10 z 0 rest); first [done|lia]. Qed.
Lemma strtol_hex2 z rest :
  is_byte z → char0 rest ≠ 120 → match rest with [] => True | c :: _ => digit_of c = None end →
  strtol (hex2 z ++ rest) 16 = (z, rest).
Proof.
  intros Hz Hx Hr. unfold in_range in Hz. unfold hex2. rewrite <- app_assoc.
  apply strtol_number; first [done|lia].
Qed.

Lemma ip_pton_step k idx z rest n :
  is_byte z → (idx = 3%nat ∧ rest = [] ∨ idx ≠ 3%nat ∧ head rest = Some 46) →
  ip_addr_pton_loop (S k) idx (dec z ++ rest) n = ip_addr_pton_loop k (S idx) (drop 1 rest) (<[idx := z]> n).
Proof.
  intros Hz Hr. unfold in_range in Hz. cbn [ip_addr_pton_loop]. rewrite strtol_dec.
  2: lia. 2: { destruct Hr as [[_ ->]|[_ Hr]]; [done|]. destruct rest as [|c rest]; [done|]. by injection Hr as ->. }
  destruct (Z.ltb_spec z 0); [lia|]. destruct (Z.ltb_spec 255 z); [lia|]. cbn [orb].
  rewrite bool_decide_false.
  2: { rewrite length_app. intros E1. assert (length (dec z) = 0%nat) as E2 by lia.
    apply nil_length_inv in E2. by apply (digits_nonempty 64 z 10). }
  destruct Hr as [[-> ->]|[Hi Hr]]; [done|].
  rewrite (bool_decide_false (idx = _)), (bool_decide_true (idx ≠ _)) by done.
  destruct rest as [|c rest]; [done|]. by injection Hr as ->.
Qed.

Lemma ether_pton_step k idx z rest ep n :
  is_byte z → (idx = 5%nat ∧ rest = [] ∨ (idx < 5)%nat ∧ head rest = Some 58) →
  ether_addr_pton_loop (S k) idx (hex2 z ++ rest) ep n = ether_addr_pton_loop k (S idx) (drop 1 rest) rest (<[idx := z]> n).
Proof.
  intros Hz Hr. cbn [ether_addr_pton_loop]. rewrite strtol_hex2.
  2: done. 2: { destruct Hr as [[_ ->]|[_ Hr]]; [done|]. destruct rest as [|c rest]; [done|]. injection Hr as ->. done. }
  2: { destruct Hr as [[_ ->]|[_ Hr]]; [done|]. destruct rest as [|c rest]; [done|]. by injection Hr as ->. }
  rewrite bool_decide_false.
  2: { rewrite length_app, hex2_length by done. lia. }
  unfold in_range in Hz. destruct (Z.ltb_spec z 0); [lia|]. destruct (Z.ltb_spec 0xff z); [lia|]. cbn [orb].
  destruct Hr as [[-> ->]|[Hi Hr]]; [done|]. rewrite bool_decide_true by done.
  destruct rest as [|c rest]; [done|]. by injection Hr as ->.
Qed.

Definition ip_text (n : Z) : bytes :=
  let b i := default 0 (le_bytes 4 n !! i) in
  dec (b 0%nat) ++ 46 :: dec (b 1%nat) ++ 46 :: dec (b 2%nat) ++ 46 :: dec (b 3%nat).

Lemma le_bytes_4 n : ∃ a b c d, le_bytes 4 n = [a; b; c; d] ∧ is_byte a ∧ is_byte b ∧ is_byte c ∧ is_byte d.
Proof.
  pose proof (le_bytes_byte 4 n) as Hb. cbn [le_bytes] in *. do 4 eexists. split; [done|].
  rewrite !Forall_cons in Hb. tauto.
Qed.

Lemma printed_ip n :
  let b := le_bytes 4 n in
  printed (str "%d.%d.%d.%d") [byte_at b 0; byte_at b 1; byte_at b 2; byte_at b 3] = Ret (ip_text n).
Proof.
  unfold ip_text, byte_at. destruct (le_bytes_4 n) as (a & b & c & d & -> & Ha & Hb & Hc & Hd).
  cbn [lookup list_lookup from_option]. unfold id, in_range in *.
  unfold printed, vprintfmt. change (str "%d.%d.%d.%d") with [37; 100; 46; 37; 100; 46; 37; 100; 46; 37; 100].
  cbn [length]. repeat first [rewrite print_d by lia | rewrite print_lit by done].
  cbn [vprintfmt_loop mret M_ret]. rewrite <- !app_assoc. done.
Qed.

Lemma ip_text_spec n : text (ip_text n) ∧ (length (ip_text n) <= 15)%nat.
Proof.
  unfold ip_text. destruct (le_bytes_4 n) as (a & b & c & d & -> & Ha & Hb & Hc & Hd).
  cbn [lookup list_lookup from_option]. unfold id. split.
  - unfold in_range in *. unfold text. rewrite !Forall_app, !Forall_cons, !Forall_app, !Forall_cons, !Forall_app, !Forall_cons.
    split_and!; try lia; apply digits_text; lia.
  - rewrite length_app. cbn [length]. rewrite length_app. cbn [length]. rewrite length_app. cbn [length].
    pose proof (dec_length a Ha). pose proof (dec_length b Hb). pose proof (dec_length c Hc). pose proof (dec_length d Hd). lia.
Qed.

Lemma ip_pton_text n m : in_range 32 n → ip_addr_pton (ip_text n) m = (0, n).
Proof.
  intros Hn. unfold ip_addr_pton, ip_text.
  assert (n = le_val (le_bytes 4 n)) as Hv by (rewrite le_val_bytes; symmetry; by apply wrap_small).
  destruct (le_bytes_4 n) as (a & b & c & d & E1 & Ha & Hb & Hc & Hd).
  destruct (le_bytes_4 m) as (a' & b' & c' & d' & E2 & _). rewrite E1 in *. rewrite E2.
  cbn [lookup list_lookup from_option]. unfold id.
  rewrite ip_pton_step by (done || by right). cbn [drop]; rewrite ?drop_0.
  rewrite ip_pton_step by (done || by right). cbn [drop]; rewrite ?drop_0.
  rewrite ip_pton_step by (done || by right). cbn [drop]; rewrite ?drop_0.
  rewrite <- (app_nil_r (dec d)). rewrite ip_pton_step by (done || by left). by rewrite Hv.
Qed.

(** An IPv4 address printed by [ip_addr_ntop] into the usual 16 bytes is
    read back by [ip_addr_pton]; the text fits and ends in a NUL. *)
Theorem ip_addr_roundtrip n p m :
  in_range 32 n → length p = 16%nat →
  ∃ r p', ip_addr_ntop n p IP_ADDR_STR_LEN = Ret (r, Some p') ∧ length p' = 16%nat ∧ 0 ∈ p' ∧
    ip_addr_pton (cstr p') m = (0, n).
Proof.
  intros Hn Hp. destruct (ip_text_spec n) as [Ht Hl].
  destruct (snprintf_text p 16 _ _ _ ltac:(rewrite Hp; lia) (printed_ip n) Ht ltac:(lia)) as (p' & E1 & E2 & E3).
  eexists _, p'. split; [exact E1|]. rewrite E3. split_and!; [| |by apply ip_pton_text].
  - rewrite E2, length_app. cbn [length]. rewrite length_drop. lia.
  - rewrite E2. in_list.
Qed.

(** The same for Ethernet addresses and their 18 bytes. *)
Theorem ether_addr_roundtrip n p m :
  Forall is_byte n → length n = 6%nat → length p = 18%nat → length m = 6%nat →
  ∃ r p', ether_addr_ntop n p 18 = Ret (r, Some p') ∧ ether_addr_pton (cstr p') m = (0, n).
Proof.
  intros Hn Hl Hp Hm.
  destruct n as [|n0 [|n1 [|n2 [|n3 [|n4 [|n5 [|] ]]]]]]; try done.
  destruct m as [|m0 [|m1 [|m2 [|m3 [|m4 [|m5 [|] ]]]]]]; try done.
  rewrite !Forall_cons in Hn. destruct Hn as (H0 & H1 & H2 & H3 & H4 & H5 & _).
  set (out := hex2 n0 ++ 58 :: hex2 n1 ++ 58 :: hex2 n2 ++ 58 :: hex2 n3 ++ 58 :: hex2 n4 ++ 58 :: hex2 n5).
  assert (Hpr : printed (str "%02x:%02x:%02x:%02x:%02x:%02x") [AInt n0; AInt n1; AInt n2; AInt n3; AInt n4; AInt n5] = Ret out).
  { unfold in_range in *. unfold printed, vprintfmt. set (f := str _). vm_compute in f. subst f.
    cbn [length]. repeat first [rewrite print_02x by lia | rewrite print_lit by done].
    cbn [vprintfmt_loop mret M_ret]. f_equal. subst out. rewrite <- !app_assoc. done. }
  assert (Ht : text out).
  { subst out. unfold text. do 5 (rewrite Forall_app; split; [by apply hex2_text|]; rewrite Forall_cons; split; [lia|]).
    by apply hex2_text. }
  assert (Hlen : length out = 17%nat).
  { subst out. do 5 (rewrite length_app; cbn [length]). by rewrite !hex2_length. }
  destruct (snprintf_text p 18 _ _ _ ltac:(rewrite Hp; lia) Hpr Ht ltac:(lia)) as (p' & E1 & _ & E3).
  eexists _, p'. split; [exact E1|]. rewrite E3. subst out. unfold ether_addr_pton.
  do 5 (rewrite ether_pton_step by (done || (right; split; [lia|done])); cbn [drop]; rewrite ?drop_0).
  rewrite <- (app_nil_r (hex2 n5)) at 1. rewrite ether_pton_step by (done || by left). done.
Qed.

Lemma strrchr_loop_none q ch save : ch ∉ q → strrchr_loop q ch save = save.
Proof.
  revert save. induction q as [|c q IH]; intros save Hq; [done|]. apply not_elem_of_cons in Hq as [Hc Hq].
  cbn [strrchr_loop]. destruct (Z.eqb_spec c ch); [done|]. by apply IH.
Qed.
Lemma strrchr_last l ch q : ch ∉ q → strrchr (l ++ ch :: q) ch = Some (ch :: q).
Proof.
  intros Hq. unfold strrchr. generalize (@None bytes).
  induction l as [|c l IH]; intros save; cbn [app strrchr_loop].
  - rewrite Z.eqb_refl. by apply strrchr_loop_none.
  - apply IH.
Qed.

Lemma dec_no_colon z : 0 <= z → 58 ∉ dec z.
Proof.
  intros Hz Hin. pose proof (digits_cons 65 z 10 ltac:(lia) Hz) as Hd. rewrite Forall_forall in Hd.
  destruct (Hd _ Hin) as (d & Hd' & E1). rewrite digit_char_range in E1 by done. lia.
Qed.

(** The digits of [num < 10^k] are at most [k]. *)
Lemma digits_length fuel num base (k : nat) :
  2 <= base → 0 <= num < base ^ Z.of_nat (S k) → (length (digits fuel num base) <= S k)%nat.
Proof.
  intros Hb. revert num k. induction fuel as [|fuel IH]; intros num k Hn; cbn [digits]; [simpl; lia|].
  rewrite length_app. cbn [length]. destruct (Z.leb_spec base num); [|simpl; lia].
  destruct k as [|k].
  - change (Z.of_nat 1) with 1 in Hn. lia.
  - assert (length (digits fuel (num / base) base) <= S k)%nat; [|lia]. apply IH.
    rewrite (Nat2Z.inj_succ (S k)), Z.pow_succ_r in Hn by lia.
    split; [apply Z.div_pos; lia|]. apply Z.div_lt_upper_bound; lia.
Qed.

(** An endpoint printed by [ip_endpoint_ntop] is read back by
    [ip_endpoint_pton], port in network order included, whatever the stack
    holds beyond its buffer. *)
Theorem ip_endpoint_roundtrip n p m beyond :
  in_range 32 (ep_addr n) → in_range 16 (ep_port n) → ep_port n ≠ 0 → length p = 22%nat →
  ∃ p', ip_endpoint_ntop n p 22 = Ret p' ∧ ip_endpoint_pton beyond (cstr p') m = Ret (0, n).
Proof.
  destruct n as [a port]. cbn [ep_addr ep_port]. intros Ha Hport Hp0 Hp.
  destruct (ip_text_spec a) as [Ht Hl].
  destruct (snprintf_text p 22 _ _ _ ltac:(rewrite Hp; lia) (printed_ip a) Ht ltac:(lia)) as (p1 & E1 & E2 & E3).
  set (h := ntoh16 port). assert (in_range 16 h) as Hh by apply hton16_range.
  assert (Hinv : hton16 h = port) by by apply hton16_involutive.
  assert (h ≠ 0) as Hh0 by (intros E0; apply Hp0; by rewrite <- Hinv, E0).
  unfold in_range in Hh. change (2 ^ 16) with 65536 in Hh.
  assert (Hpr : printed (str ":%d") [AInt h] = Ret (58 :: dec h)).
  { unfold printed, vprintfmt. change (str ":%d") with [58; 37; 100]. cbn [length].
    rewrite print_lit by done. rewrite print_d by lia. done. }
  assert (Hdt : text (58 :: dec h)) by (constructor; [lia|apply digits_text; lia]).
  pose proof (digits_length 65 h 10 4 ltac:(lia) ltac:(lia)) as Hdl.
  assert (Hlp1 : length p1 = 22%nat) by (rewrite E2, length_app; cbn [length]; rewrite length_drop; lia).
  destruct (snprintf_text (drop (length (ip_text a)) p1) (22 - Z.of_nat (length (ip_text a))) _ _ _
    ltac:(rewrite length_drop; lia) Hpr Hdt ltac:(cbn [length]; lia)) as (p2 & F1 & F2 & F3).
  exists (take (length (ip_text a)) p1 ++ p2). split.
  { unfold ip_endpoint_ntop, ip_addr_ntop. cbn [ep_addr ep_port]. rewrite E1, E3. cbv zeta. fold h. by rewrite F1. }
  rewrite E2 at 1. rewrite take_app_length. rewrite F2, app_assoc.
  rewrite cstr_text by (by apply Forall_app). unfold ip_endpoint_pton.
  rewrite strrchr_last by (apply dec_no_colon; lia).
  replace (length (ip_text a ++ 58%Z :: dec h) - length (58%Z :: dec h))%nat with (length (ip_text a)) by (rewrite length_app; lia).
  rewrite bool_decide_false by lia. rewrite take_app_length, bool_decide_false, app_nil_r by lia.
  cbn [ep_addr]. rewrite ip_pton_text by done. change (0 =? -1) with false. cbv iota zeta. cbn [drop]. rewrite ?drop_0.
  rewrite <- (app_nil_r (dec h)), strtol_dec by (done || lia). cbn [fst].
  destruct (Z.leb_spec h 0); [lia|]. destruct (Z.ltb_spec 65535 h); [lia|]. cbn [orb].
  by rewrite wrap_small, Hinv.
Qed.

(** [ip_endpoint_pton] copies what precedes the last colon into an array of
    16 bytes without a check: an address of more characters overflows it. *)
Theorem ip_endpoint_pton_overflow beyond l q n :
  58 ∉ q → (16 < length l)%nat → ip_endpoint_pton beyond (l ++ 58 :: q) n = Fault.
Proof.
  intros Hq Hl. unfold ip_endpoint_pton. rewrite strrchr_last by done.
  rewrite bool_decide_true; [done|]. rewrite length_app. lia.
Qed.

Lemma ip_addr_roundtrip_witness :
  ∃ r p', ip_addr_ntop 0x0100007f (replicate 16 0) IP_ADDR_STR_LEN = Ret (r, Some p') ∧ length p' = 16%nat ∧ 0 ∈ p' ∧
    ip_addr_pton (cstr p') 0 = (0, 0x0100007f).
Proof. apply (ip_addr_roundtrip 0x0100007f (replicate 16 0) 0); [split; [discriminate|reflexivity]|reflexivity]. Defined.

Lemma ether_addr_roundtrip_witness :
  ∃ r p', ether_addr_ntop [2; 0; 94; 16; 0; 255] (replicate 18 0) 18 = Ret (r, Some p') ∧
    ether_addr_pton (cstr p') (replicate 6 0) = (0, [2; 0; 94; 16; 0; 255]).
Proof.
  apply (ether_addr_roundtrip [2; 0; 94; 16; 0; 255] (replicate 18 0) (replicate 6 0)); [|reflexivity..].
  repeat (constructor; [split; [discriminate|reflexivity]|]). constructor.
Defined.

Lemma ip_endpoint_roundtrip_witness :
  ∃ p', ip_endpoint_ntop (EP 0x0100007f (hton16 80)) (replicate 22 0) 22 = Ret p' ∧
    ip_endpoint_pton [49] (cstr p') (EP 0 0) = Ret (0, EP 0x0100007f (hton16 80)).
Proof.
  apply (ip_endpoint_roundtrip (EP 0x0100007f (hton16 80)) (replicate 22 0) (EP 0 0) [49]);
    [split; [discriminate|reflexivity]|split; [discriminate|reflexivity]|discriminate|reflexivity].
Defined.

Lemma ip_endpoint_pton_overflow_witness :
  (58 ∉ [56; 48]) ∧ (16 < length (str "192.168.001.000.1"))%nat ∧
  ip_endpoint_pton [] (str "192.168.001.000.1" ++ 58 :: [56; 48]) (EP 0 0) = Fault.
Proof.
  assert (58 ∉ [56; 48]) as H1 by (apply (bool_decide_unpack _); vm_compute; exact I).
  assert (16 < length (str "192.168.001.000.1"))%nat as H2 by (vm_compute; lia).
  split; [exact H1|]. split; [exact H2|]. exact (ip_endpoint_pton_overflow [] _ _ (EP 0 0) H1 H2).
Defined.
