(* ===== verification/Ether.v ===== *)
(** * Ethernet framing: [net/ether.c]

    The driver's receive and send routines are the callbacks of the helpers.
    A frame is built in a page, so data that fit a page fit the buffer. *)
From S2P Require Import Prelude NetUtil NetSys NetDev NetAddr.

Definition ETHER_HDR_SIZE : Z := 14.
Definition ETHER_FRAME_SIZE_MIN : Z := 60.
Definition ETHER_FRAME_SIZE_MAX : Z := 1514.
Definition ETHER_PAYLOAD_SIZE_MIN : Z := ETHER_FRAME_SIZE_MIN - ETHER_HDR_SIZE.
Definition ETHER_PAYLOAD_SIZE_MAX : Z := ETHER_FRAME_SIZE_MAX - ETHER_HDR_SIZE.
Definition ETHER_ADDR_ANY : bytes := replicate 6 0.
Definition ETHER_ADDR_BROADCAST : bytes := replicate 6 255.

Section ether.
Context {H E : Type} `{SysIf E}.

(** The page of the frame: the first [ETHER_FRAME_SIZE_MAX] bytes are zero,
    [junk] is the rest of it. *)
Definition ether_transmit_helper (dev : net_device) (type : Z) (data dst junk : bytes)
    (callback : net_device → bytes → M E Z) : M E Z :=
  b ← memory_alloc ETHER_FRAME_SIZE_MAX;
  if negb b then mret (-1) else
  let frame := replicate (Z.to_nat ETHER_FRAME_SIZE_MAX) 0 ++ junk in
  d6 ← oget (sub_bytes dst 0 ETHER_ADDR_LEN);
  s6 ← oget (sub_bytes (addr dev) 0 ETHER_ADDR_LEN);
  frame ← oget (blit frame 0 d6);
  frame ← oget (blit frame 6 s6);
  frame ← oget (blit frame 12 (le_bytes 2 (hton16 type)));
  frame ← oget (blit frame ETHER_HDR_SIZE data);
  let len := Z.of_nat (length data) in
  let pad := if len <? ETHER_PAYLOAD_SIZE_MIN then ETHER_PAYLOAD_SIZE_MIN - len else 0 in
  let flen := ETHER_HDR_SIZE + len + pad in
  out ← oget (sub_bytes frame 0 flen);
  r ← callback dev out;
  mret (if r =? flen then 0 else -1).

(** [callback] returns the length and the frame buffer it filled. *)
Definition ether_input_helper (dev : Z) (callback : net_device → Z → M E (Z * bytes)) : M (net H * E) Z :=
  b ← memory_alloc ETHER_FRAME_SIZE_MAX;
  if negb b then mret (-1) else
  d ← dev_at dev;
  '(flen, frame) ← up (callback d ETHER_FRAME_SIZE_MAX);
  if flen <? ETHER_HDR_SIZE then memory_free ;; mret (-1) else
  dst ← oget (sub_bytes frame 0 ETHER_ADDR_LEN);
  mine ← oget (sub_bytes (addr d) 0 ETHER_ADDR_LEN);
  if negb (bool_decide (mine = dst)) && negb (bool_decide (ETHER_ADDR_BROADCAST = dst))
  then memory_free ;; mret (-1) else
  ty ← oget (load16 12 frame);
  data ← oget (sub_bytes frame ETHER_HDR_SIZE (flen - ETHER_HDR_SIZE));
  ret ← net_input_handler (ntoh16 ty) data dev;
  memory_free ;; mret ret.

Definition ether_setup_helper (dev : net_device) : net_device :=
  Dev (index dev) (name dev) NET_DEVICE_TYPE_ETHERNET ETHER_PAYLOAD_SIZE_MAX
    (Z.lor NET_DEVICE_FLAG_BROADCAST NET_DEVICE_FLAG_NEED_ARP) ETHER_HDR_SIZE ETHER_ADDR_LEN
    (addr dev) (ETHER_ADDR_BROADCAST ++ drop 6 (broadcast dev)) (ifaces dev).
End ether.

(** ** The frame *)

(** What goes on the wire. *)
Definition ether_frame (dst src : bytes) (type : Z) (data : bytes) : bytes :=
  dst ++ src ++ le_bytes 2 (hton16 type) ++ data ++ replicate (46 - length data) 0.

Section ether_proofs.
Context {H E : Type} `{SysLaws E}.

(** Sending: the frame, and the page it is built in. *)
Lemma ether_transmit_run dev type data dst junk callback (e : E) :
  length dst = 6%nat → (6 <= length (addr dev))%nat →
  (length data <= 1500)%nat → pages e ≠ 0%nat →
  ∃ e1, pages e = S (pages e1) ∧
    ether_transmit_helper dev type data dst junk callback e =
      (r ← callback dev (ether_frame dst (take 6 (addr dev)) type data);
       mret (if r =? Z.of_nat (14 + Nat.max 46 (length data)) then 0 else -1)) e1.
Proof.
  intros Hd Ha Hl Hp. destruct (alloc_some ETHER_FRAME_SIZE_MAX e ltac:(done) Hp) as (e1 & E1 & P1).
  exists e1. split; [done|]. unfold ether_transmit_helper. rewrite (bind_Ret _ _ _ _ _ E1). cbn [negb]. cbv zeta.
  set (src := take 6 (addr dev)). assert (length src = 6%nat) as Hs by (subst src; rewrite length_take; lia).
  assert (sub_bytes dst 0 ETHER_ADDR_LEN = Some dst) as ->.
  { apply (sub_bytes_at _ [] dst []); [by rewrite app_nil_r|done|by rewrite Hd]. }
  assert (sub_bytes (addr dev) 0 ETHER_ADDR_LEN = Some src) as ->.
  { apply (sub_bytes_at _ [] src (drop 6 (addr dev))); [symmetry; apply take_drop|done|by rewrite Hs]. }
  do 2 (erewrite bind_Ret by done).
  set (z := Z.to_nat ETHER_FRAME_SIZE_MAX).
  assert (replicate z 0 = replicate 6 0 ++ replicate 6 0 ++ replicate 2 0 ++ replicate (length data) 0 ++ replicate (1500 - length data) 0) as ->.
  { rewrite <- !replicate_add. f_equal. change z with 1514%nat. lia. }
  set (ty := le_bytes 2 (hton16 type)). assert (length ty = 2%nat) as Ht by done.
  rewrite (blit_at _ [] (replicate 6 0)
    (replicate 6 0 ++ replicate 2 0 ++ replicate (length data) 0 ++ replicate (1500 - length data) 0 ++ junk)).
  2: by rewrite <- !app_assoc. 2: done. 2: by rewrite length_replicate.
  erewrite bind_Ret by done.
  rewrite (blit_at _ dst (replicate 6 0)
    (replicate 2 0 ++ replicate (length data) 0 ++ replicate (1500 - length data) 0 ++ junk)).
  2: done. 2: by rewrite Hd. 2: by rewrite length_replicate.
  erewrite bind_Ret by done.
  rewrite (blit_at _ (dst ++ src) (replicate 2 0)
    (replicate (length data) 0 ++ replicate (1500 - length data) 0 ++ junk)).
  2: by rewrite <- !app_assoc. 2: by rewrite length_app, Hd, Hs. 2: done.
  erewrite bind_Ret by done.
  rewrite (blit_at _ (dst ++ src ++ ty) (replicate (length data) 0) (replicate (1500 - length data) 0 ++ junk)).
  2: by rewrite <- !app_assoc. 2: by rewrite !length_app, Hd, Hs. 2: by rewrite length_replicate.
  erewrite bind_Ret by done.
  set (flen := ETHER_HDR_SIZE + _ + _).
  assert (flen = Z.of_nat (14 + Nat.max 46 (length data))) as Hf.
  { subst flen. unfold ETHER_PAYLOAD_SIZE_MIN, ETHER_FRAME_SIZE_MIN, ETHER_HDR_SIZE.
    destruct (Z.ltb_spec (Z.of_nat (length data)) (60 - 14)); lia. }
  assert (Hout : sub_bytes ((dst ++ src ++ ty) ++ data ++ replicate (1500 - length data) 0 ++ junk) 0 flen =
    Some (ether_frame dst src type data)).
  { unfold ether_frame. fold ty.
    replace (replicate (1500 - length data) 0) with (replicate (46 - length data) 0 ++ replicate (1500 - Nat.max 46 (length data)) 0)
      by (rewrite <- replicate_add; f_equal; lia).
    apply (sub_bytes_at _ [] _ (replicate (1500 - Nat.max 46 (length data)) 0 ++ junk)).
    - rewrite <- !app_assoc. done.
    - done.
    - rewrite Hf, !length_app, Hd, Hs, Ht, length_replicate. lia. }
  rewrite Hout. erewrite bind_Ret by done. by rewrite Hf.
Qed.
Lemma sub_bytes_app_l l off n x l' : sub_bytes l off n = Some l' → sub_bytes (l ++ x) off n = Some l'.
Proof.
  unfold sub_bytes. destruct (_ && _) eqn:E1; [|done]. intros [= <-]. rewrite length_app.
  replace (_ && _) with true by lia. rewrite drop_app_le, take_app_le by (rewrite ?length_drop; lia). done.
Qed.

(** Receiving the frame. *)
Lemma ether_input_run dev d src dst type data rest callback n (e e1 e2 : E) :
  dev_at dev (n, e1) = Ret (d, (n, e1)) → (6 <= length (addr d))%nat →
  length dst = 6%nat → length src = 6%nat → in_range 16 type →
  dst = take 6 (addr d) ∨ dst = ETHER_ADDR_BROADCAST →
  let frame := ether_frame dst src type data in
  memory_alloc ETHER_FRAME_SIZE_MAX e = Ret (true, e1) →
  callback d ETHER_FRAME_SIZE_MAX e1 = Ret ((Z.of_nat (length frame), frame ++ rest), e2) →
  ether_input_helper dev callback (n, e) =
    (ret ← net_input_handler (H := H) type (data ++ replicate (46 - length data) 0) dev;
     memory_free ;; mret ret) (n, e2).
Proof.
  intros Hdev Ha Hd Hs Hty Hmine frame Halloc Hcb. unfold ether_input_helper.
  erewrite bind_Ret by (apply up_Ret; exact Halloc). cbn [negb].
  rewrite (bind_Ret _ _ _ _ _ Hdev). erewrite bind_Ret by (apply up_Ret; exact Hcb). cbv beta iota.
  set (ty := le_bytes 2 (hton16 type)). assert (length ty = 2%nat) as Ht by done.
  set (pay := data ++ replicate (46 - length data) 0).
  assert (frame ++ rest = dst ++ src ++ ty ++ pay ++ rest) as Hf.
  { subst frame pay. unfold ether_frame. fold ty. by rewrite <- !app_assoc. }
  assert (length frame = 14 + length pay)%nat as Hlf.
  { subst frame pay. unfold ether_frame. fold ty. rewrite !length_app, Hd, Hs, Ht. lia. }
  replace (Z.of_nat (length frame) <? ETHER_HDR_SIZE) with false by (unfold ETHER_HDR_SIZE; lia).
  rewrite Hf. rewrite (sub_bytes_at (dst ++ src ++ ty ++ pay ++ rest) [] dst (src ++ ty ++ pay ++ rest) 0 ETHER_ADDR_LEN).
  2: reflexivity. 2: reflexivity. 2: by rewrite Hd.
  erewrite bind_Ret by done.
  rewrite (sub_bytes_at (addr d) [] (take 6 (addr d)) (drop 6 (addr d))).
  2: symmetry; apply take_drop. 2: done. 2: rewrite length_take; unfold ETHER_ADDR_LEN; lia.
  erewrite bind_Ret by done.
  replace (negb (bool_decide (take 6 (addr d) = dst)) && negb (bool_decide (ETHER_ADDR_BROADCAST = dst))) with false.
  2: { destruct Hmine as [-> | ->]; [by rewrite bool_decide_true|].
       by rewrite (bool_decide_true (ETHER_ADDR_BROADCAST = _)), andb_false_r. }
  unfold load16, load. change (Z.of_nat 2) with 2.
  rewrite (sub_bytes_at (dst ++ src ++ ty ++ pay ++ rest) (dst ++ src) ty (pay ++ rest) 12 2).
  2: by rewrite <- app_assoc. 2: by rewrite length_app, Hd, Hs. 2: by rewrite Ht.
  erewrite bind_Ret by done.
  rewrite (sub_bytes_at (dst ++ src ++ ty ++ pay ++ rest) (dst ++ src ++ ty) pay rest).
  2: by rewrite <- !app_assoc. 2: by rewrite !length_app, Hd, Hs, Ht. 2: rewrite Hlf; unfold ETHER_HDR_SIZE; lia.
  erewrite bind_Ret by done. subst ty. rewrite le_val_bytes.
  change (2 ^ (8 * Z.of_nat 2)) with (2 ^ 16). fold (wrap 16 (hton16 type)).
  rewrite (wrap_small 16) by apply hton16_range. unfold ntoh16. fold (hton16 (hton16 type)). by rewrite hton16_involutive.
Qed.
End ether_proofs.

Section ether_theorems.
Context {H E : Type} `{SysLaws E}.

(** What [ether_transmit_helper] hands to the sender's driver is a frame of
    60 bytes or more that [ether_input_helper], given it by the receiver's
    driver, passes up with the same type and the same data (and the padding),
    if the destination is the receiver's address or the broadcast address. *)
Theorem ether_roundtrip sdev type data dst junk :
  length dst = 6%nat → (6 <= length (addr sdev))%nat → (length data <= 1500)%nat → in_range 16 type →
  ∃ frame, (60 <= length frame <= 1514)%nat ∧
    (∀ callback (e : E), pages e ≠ 0%nat → ∃ e1, pages e = S (pages e1) ∧
      ether_transmit_helper sdev type data dst junk callback e =
        (r ← callback sdev frame; mret (if r =? Z.of_nat (length frame) then 0 else -1)) e1) ∧
    (∀ dev d callback rest n (e e1 e2 : E),
      dev_at dev (n, e1) = Ret (d, (n, e1)) → (6 <= length (addr d))%nat →
      dst = take 6 (addr d) ∨ dst = ETHER_ADDR_BROADCAST →
      memory_alloc ETHER_FRAME_SIZE_MAX e = Ret (true, e1) →
      callback d ETHER_FRAME_SIZE_MAX e1 = Ret ((Z.of_nat (length frame), frame ++ rest), e2) →
      ether_input_helper dev callback (n, e) =
        (ret ← net_input_handler (H := H) type (data ++ replicate (46 - length data) 0) dev;
         memory_free ;; mret ret) (n, e2)).
Proof.
  intros Hd Ha Hl Hty. assert (length (take 6 (addr sdev)) = 6%nat) as Hs by (rewrite length_take; lia).
  exists (ether_frame dst (take 6 (addr sdev)) type data).
  assert (length (ether_frame dst (take 6 (addr sdev)) type data) = 14 + Nat.max 46 (length data))%nat as Hlen.
  { unfold ether_frame. rewrite !length_app, Hd, Hs, length_le_bytes, length_replicate. lia. }
  split; [lia|]. split.
  - intros callback e Hp. rewrite Hlen. by apply ether_transmit_run.
  - intros dev d callback rest n e e1 e2 ? ? ? ? ?. eapply (ether_input_run _ _ (take 6 (addr sdev)) dst); eassumption.
Qed.

(** A frame for another host is dropped: [ether_input_helper] returns -1,
    queues nothing and gives its page back. *)
Theorem ether_filter dev d callback frame flen n (e e1 : E) dst :
  dev_at (H := H) dev (n, e) = Ret (d, (n, e)) → (6 <= length (addr d))%nat → pages e ≠ 0%nat →
  sub_bytes frame 0 6 = Some dst → dst ≠ take 6 (addr d) → dst ≠ ETHER_ADDR_BROADCAST →
  (∀ e, callback d ETHER_FRAME_SIZE_MAX e = Ret ((flen, frame), e)) →
  run (ether_input_helper (H := H) dev callback) (n, e) (λ r s, r = -1 ∧ s.1 = n ∧ pages s.2 = pages e).
Proof.
  intros Hdev Ha Hp Hdst N1 N2 Hcb. apply run_Ret. unfold ether_input_helper.
  destruct (alloc_up_some ETHER_FRAME_SIZE_MAX n e ltac:(done) Hp) as (e2 & E1 & P1).
  rewrite (bind_Ret _ _ _ _ _ E1). cbn [negb].
  assert (Hdev2 : dev_at dev (n, e2) = Ret (d, (n, e2))).
  { by apply dev_at_Ret, (dev_at_Ret dev n e). }
  rewrite (bind_Ret _ _ _ _ _ Hdev2). erewrite bind_Ret by (apply up_Ret, Hcb). cbv beta iota.
  destruct (free_up n e2) as (e3 & E3 & P3).
  destruct (flen <? ETHER_HDR_SIZE).
  { rewrite (bind_Ret _ _ _ _ _ E3). do 2 eexists. split; [done|]. cbn. split_and!; [done..|lia]. }
  unfold ETHER_ADDR_LEN. rewrite Hdst. erewrite bind_Ret by done.
  rewrite (sub_bytes_at (addr d) [] (take 6 (addr d)) (drop 6 (addr d))).
  2: symmetry; apply take_drop. 2: done. 2: rewrite length_take; lia.
  erewrite bind_Ret by done. rewrite !bool_decide_false by congruence. cbn [negb andb].
  rewrite (bind_Ret _ _ _ _ _ E3). do 2 eexists. split; [done|]. cbn. split_and!; [done..|lia].
Qed.

(** [ether_transmit_helper] never frees the page it builds the frame in:
    every frame sent, or not sent, costs the system a page. *)
Theorem ether_transmit_leaks dev type data dst junk callback (e : E) r e' :
  length dst = 6%nat → (6 <= length (addr dev))%nat → (length data <= 1500)%nat → pages e ≠ 0%nat →
  (∀ d f e1 a e2, callback d f e1 = Ret (a, e2) → pages e2 = pages e1) →
  ether_transmit_helper dev type data dst junk callback e = Ret (r, e') → pages e = S (pages e').
Proof.
  intros Hd Ha Hl Hp Hcb. destruct (ether_transmit_run dev type data dst junk callback e Hd Ha Hl Hp) as (e1 & P1 & ->).
  intros (a & e2 & E2 & [= _ <-])%bind_Ret_inv. apply Hcb in E2. lia.
Qed.
End ether_theorems.

Section ether_witnesses.
Definition test_dev : net_device :=
  Dev 0 [] 2 1500 0x83 14 6 ([2; 0; 0; 0; 0; 1] ++ replicate 10 0) (replicate 6 255 ++ replicate 10 0) [].
Definition test_net : net nat := Net [test_dev] 1 ∅ [Proto 0x800 [] 7%nat] [] [].
Definition test_sys : sys := Sys 8 (TV 100 0) 1 0.

Definition wire (_ : net_device) (f : bytes) : M sys Z := mret (Z.of_nat (length f)).
Definition from_wire (f : bytes) (_ : net_device) (_ : Z) : M sys (Z * bytes) := mret (Z.of_nat (length f), f).

Lemma ether_roundtrip_witness : ∃ frame : bytes, (60 <= length frame <= 1514)%nat ∧
  (∃ e1, ether_transmit_helper test_dev 0x800 [1; 2; 3] [2; 0; 0; 0; 0; 1] [] wire test_sys =
    (r ← wire test_dev frame; mret (if r =? Z.of_nat (length frame) then 0 else -1)) e1) ∧
  ether_input_helper 0 (from_wire frame) (test_net, test_sys) =
    (ret ← net_input_handler 0x800 ([1; 2; 3] ++ replicate 43 0) 0;
     memory_free ;; mret ret) (test_net, Sys 7 (TV 100 0) 1 0).
Proof.
  assert (in_range 16 0x800) as Hty by (split; [discriminate|reflexivity]).
  destruct (ether_roundtrip (H := nat) (E := sys) test_dev 0x800 [1; 2; 3] [2; 0; 0; 0; 0; 1] []
    eq_refl ltac:(vm_compute; lia) ltac:(vm_compute; lia) Hty) as (frame & Hf & Ht & Hr).
  exists frame. split; [exact Hf|]. split.
  - destruct (Ht wire test_sys ltac:(discriminate)) as (e1 & _ & E1). exists e1. exact E1.
  - refine (Hr 0 test_dev (from_wire frame) [] test_net test_sys (Sys 7 (TV 100 0) 1 0) (Sys 7 (TV 100 0) 1 0) _ _ _ _ _).
    + reflexivity.
    + vm_compute. lia.
    + left. reflexivity.
    + reflexivity.
    + rewrite app_nil_r. reflexivity.
Defined.

Lemma ether_filter_witness :
  run (ether_input_helper 0 (from_wire (replicate 60 9))) (test_net, test_sys)
    (λ r s, r = -1 ∧ s.1 = test_net ∧ pages s.2 = 8%nat).
Proof.
  refine (ether_filter 0 test_dev (from_wire (replicate 60 9)) (replicate 60 9) 60 test_net test_sys test_sys (replicate 6 9) _ _ _ _ _ _ _).
  - reflexivity.
  - vm_compute. lia.
  - discriminate.
  - reflexivity.
  - discriminate.
  - discriminate.
  - reflexivity.
Defined.

Lemma ether_transmit_leaks_witness :
  pages (E := sys) test_sys = S (pages (E := sys) (Sys 7 (TV 100 0) 1 0)).
Proof.
  refine (ether_transmit_leaks test_dev 0x800 [1; 2; 3] [2; 0; 0; 0; 0; 1] [] wire
    test_sys 0 _ _ _ _ _ _ _).
  - reflexivity.
  - vm_compute. lia.
  - vm_compute. lia.
  - discriminate.
  - intros d f e1 a e2 [= _ <-]. reflexivity.
  - vm_compute. reflexivity.
Defined.
End ether_witnesses.
