(* ===== verification/Arp.v ===== *)
(** * Address resolution: [net/arp.c]

    The cache is the array [caches]; [F] holds the layers below, the device
    layer among them ([Inside]). A critical section is one step; [arp_input] has
    two, and between them another hart may run. *)
From S2P Require Import Prelude NetUtil NetSys NetDev NetAddr.

Definition ARP_HRD_ETHER : Z := 0x0001.
Definition ARP_PRO_IP : Z := 0x0800.
Definition ETHER_TYPE_ARP : Z := 0x0806.
Definition ARP_OP_REQUEST : Z := 1.
Definition ARP_OP_REPLY : Z := 2.
Definition ARP_CACHE_SIZE : nat := 32.
Definition ARP_CACHE_TIMEOUT : Z := 30.
Definition ARP_RESOLVE_ERROR : Z := -1.
Definition ARP_RESOLVE_INCOMPLETE : Z := 0.
Definition ARP_RESOLVE_FOUND : Z := 1.
Definition IP_ADDR_LEN : Z := 4.

Inductive arp_state := FREE | INCOMPLETE | RESOLVED | STATIC.
#[global] Instance arp_state_eq_dec : EqDecision arp_state.
Proof. solve_decision. Defined.
Record arp_cache := Cache { state : arp_state; pa : Z; ha : bytes; timestamp : timeval }.
Abbreviation caches := (list arp_cache).

Definition arp_hdr (op : Z) : bytes :=
  le_bytes 2 (hton16 ARP_HRD_ETHER) ++ le_bytes 2 (hton16 ARP_PRO_IP) ++ [6; 4] ++ le_bytes 2 (hton16 op).
(** [struct arp_ether_ip] *)
Definition arp_ether_ip (op : Z) (sha : bytes) (spa : Z) (tha : bytes) (tpa : Z) : bytes :=
  arp_hdr op ++ sha ++ le_bytes 4 spa ++ tha ++ le_bytes 4 tpa.

(** ** The cache *)

Definition cache_free : arp_cache := Cache FREE 0 (replicate 6 0) (TV 0 0).
Definition arp_cache_delete (i : nat) (l : caches) : caches := <[i := cache_free]> l.

(** [inl i]: a free entry; [inr o]: none, [o] is the oldest. *)
Fixpoint alloc_scan (l : caches) (i : nat) (oldest : option (nat * timeval)) : nat + option nat :=
  match l with
  | [] => inr (fst <$> oldest)
  | e :: l =>
      if bool_decide (state e = FREE) then inl i else
      alloc_scan l (S i)
        (match oldest with
         | None => Some (i, timestamp e)
         | Some (_, t) => if timer_lt (timestamp e) t then Some (i, timestamp e) else oldest
         end)
  end.
Definition arp_cache_alloc (l : caches) : option (nat * caches) :=
  match alloc_scan l 0 None with
  | inl i => Some (i, l)
  | inr (Some i) => Some (i, arp_cache_delete i l)
  | inr None => None
  end.

Fixpoint arp_cache_select (l : caches) (a : Z) : option nat :=
  match l with
  | [] => None
  | e :: l => if bool_decide (state e ≠ FREE) && (pa e =? a) then Some O else S <$> arp_cache_select l a
  end.

Section arp.
Context {H E F : Type} `{SysIf E} `{DevOps E} `{Inside (net H * E) F}.

(** A routine of the device layer. *)
Definition net_ {A} (m : M (net H * E) A) : M (caches * F) A := inside m.

Definition arp_cache_update (a : Z) (hw : bytes) : M (caches * F) bool :=
  l ← own id;
  match arp_cache_select l a with
  | None => mret false
  | Some i =>
      t ← net_ gettimeofday;
      own_set (alter (λ e, Cache RESOLVED (pa e) hw t) i) ;; mret true
  end.

Definition arp_cache_insert (a : Z) (hw : bytes) : M (caches * F) bool :=
  l ← own id;
  match arp_cache_alloc l with
  | None => mret false
  | Some (i, l) =>
      t ← net_ gettimeofday;
      own_set (λ _, <[i := Cache RESOLVED a hw t]> l) ;; mret true
  end.

(** ** Messages *)

Definition arp_send (op : Z) (ifp : Z) (tha : bytes) (tpa : Z) (dst : net_device → bytes) : M (net H * E) Z :=
  i ← iface_at ifp;
  dev ← oget (if_dev i);
  d ← dev_at dev;
  sha ← oget (sub_bytes (addr d) 0 ETHER_ADDR_LEN);
  net_device_output dev ETHER_TYPE_ARP (arp_ether_ip op sha (unicast i) tha tpa) (dst d).
Definition arp_request (ifp : Z) (tpa : Z) : M (net H * E) Z :=
  arp_send ARP_OP_REQUEST ifp (replicate 6 0) tpa broadcast.
Definition arp_reply (ifp : Z) (tha : bytes) (tpa : Z) (dst : bytes) : M (net H * E) Z :=
  arp_send ARP_OP_REPLY ifp tha tpa (λ _, dst).

(** The checks of [arp_input]: operation and addresses of a good message. *)
Definition arp_parse (data : bytes) : option (Z * bytes * Z * Z) :=
  if Z.of_nat (length data) <? 28 then None else
  match load16 0 data, load16 2 data, load8 4 data, load8 5 data, load16 6 data with
  | Some hrd, Some pro, Some hln, Some pln, Some op =>
      if negb (ntoh16 hrd =? ARP_HRD_ETHER) || negb (hln =? ETHER_ADDR_LEN) then None
      else if negb (ntoh16 pro =? ARP_PRO_IP) || negb (pln =? IP_ADDR_LEN) then None
      else match sub_bytes data 8 6, load32 14 data, load32 24 data with
           | Some sha, Some spa, Some tpa => Some (ntoh16 op, sha, spa, tpa)
           | _, _, _ => None
           end
  | _, _, _, _, _ => None
  end.

(** The part after the first critical section. *)
Definition arp_input_rest (marge : bool) (op : Z) (sha : bytes) (spa tpa dev : Z) : M (caches * F) () :=
  ifp ← net_ (net_device_get_iface dev NET_IFACE_FAMILY_IP);
  match ifp with
  | None => mret ()
  | Some ifp =>
      i ← net_ (iface_at ifp);
      if unicast i =? tpa then
        when (negb marge) (arp_cache_insert spa sha ;; mret ()) ;;
        when (op =? ARP_OP_REQUEST) (net_ (arp_reply ifp sha spa sha) ;; mret ())
      else mret ()
  end.
Definition arp_input (data : bytes) (dev : Z) : M (caches * F) () :=
  match arp_parse data with
  | None => mret ()
  | Some (op, sha, spa, tpa) =>
      marge ← arp_cache_update spa sha;
      arp_input_rest marge op sha spa tpa dev
  end.

(** The result and what was copied to [ha]. *)
Definition arp_resolve (ifp : Z) (a : Z) : M (caches * F) (Z * option bytes) :=
  i ← net_ (iface_at ifp);
  dev ← oget (if_dev i);
  d ← net_ (dev_at dev);
  if negb (d_type d =? NET_DEVICE_TYPE_ETHERNET) then mret (ARP_RESOLVE_ERROR, None) else
  if negb (family i =? NET_IFACE_FAMILY_IP) then mret (ARP_RESOLVE_ERROR, None) else
  l ← own id;
  match arp_cache_select l a with
  | None =>
      match arp_cache_alloc l with
      | None => mret (ARP_RESOLVE_ERROR, None)
      | Some (k, l) =>
          t ← net_ gettimeofday;
          own_set (λ _, alter (λ e, Cache INCOMPLETE a (ha e) t) k l) ;;
          net_ (arp_request ifp a) ;;
          mret (ARP_RESOLVE_INCOMPLETE, None)
      end
  | Some k =>
      e ← oget (l !! k);
      if bool_decide (state e = INCOMPLETE)
      then net_ (arp_request ifp a) ;; mret (ARP_RESOLVE_INCOMPLETE, None)
      else mret (ARP_RESOLVE_FOUND, Some (ha e))
  end.

Definition expired (now : timeval) (e : arp_cache) : bool :=
  bool_decide (state e ≠ FREE) && bool_decide (state e ≠ STATIC) &&
  (ARP_CACHE_TIMEOUT <? tv_sec (timersub now (timestamp e))).
Definition arp_timer_handler : M (caches * F) () :=
  now ← net_ gettimeofday;
  own_set (map (λ e, if expired now e then cache_free else e)).

Definition arp_init (input timer : H) : M (caches * F) Z :=
  r ← net_ (net_protocol_register NET_PROTOCOL_TYPE_ARP input);
  if r =? -1 then mret (-1) else
  r ← net_ (net_timer_register (TV 1 0) timer);
  if r =? -1 then mret (-1) else mret 0.
End arp.
#[global] Instance arp_resolver {H E F} `{SysIf E} `{DevOps E} `{Inside (net H * E) F} :
  Resolver (caches * F) := arp_resolve.
(** The static array at boot. *)
Definition caches_boot : caches := replicate ARP_CACHE_SIZE cache_free.

(** ** The cache: proofs *)

Definition holds (l : caches) (i : nat) (e : arp_cache) : Prop := l !! i = Some e ∧ state e ≠ FREE.
(** No address twice. *)
Definition arp_wf (l : caches) : Prop :=
  length l = ARP_CACHE_SIZE ∧
  ∀ i j e e', holds l i e → holds l j e' → pa e = pa e' → i = j.

Lemma select_Some l a i :
  arp_cache_select l a = Some i → ∃ e, holds l i e ∧ pa e = a.
Proof.
  revert i. induction l as [|e l IH]; intros i; cbn [arp_cache_select]; [done|].
  destruct (bool_decide (state e ≠ FREE) && (pa e =? a)) eqn:Eb.
  - intros [= <-]. apply andb_prop in Eb as [E1 E2]. exists e. split; [|lia].
    split; [done|]. by apply bool_decide_eq_true in E1.
  - intros (k & Hk & ->)%fmap_Some. destruct (IH k Hk) as (e' & [H1 H2] & H3). exists e'. by repeat split.
Qed.

Lemma select_None l a : arp_cache_select l a = None ↔ ∀ i e, holds l i e → pa e ≠ a.
Proof.
  induction l as [|e l IH]; cbn [arp_cache_select].
  { split; [|done]. intros _ i e [H1 _]. done. }
  destruct (bool_decide (state e ≠ FREE) && (pa e =? a)) eqn:Eb.
  - split; [done|]. intros Hn. apply andb_prop in Eb as [E1 E2]. apply bool_decide_eq_true in E1.
    exfalso. apply (Hn O e); [done|lia].
  - rewrite fmap_None, IH. split; intros Hn i e'.
    + destruct i as [|i]; [|intros [H1 H2]; by apply (Hn i)]. intros [[= <-] H2] E1.
      apply andb_false_iff in Eb as [Eb|Eb]; [by apply bool_decide_eq_false in Eb|lia].
    + intros [H1 H2]. by apply (Hn (S i)).
Qed.

Lemma select_holds l a i e : arp_wf l → holds l i e → pa e = a → arp_cache_select l a = Some i.
Proof.
  intros [_ Hu] Hh Ha. destruct (arp_cache_select l a) as [j|] eqn:Hs.
  - apply select_Some in Hs as (e' & Hh' & Ha'). f_equal. eapply Hu; [done..|congruence].
  - rewrite select_None in Hs. by destruct (Hs i e Hh).
Qed.

Lemma alloc_scan_spec l : ∀ i o,
  match alloc_scan l i o with
  | inl k => ∃ j e, (k = i + j)%nat ∧ l !! j = Some e ∧ state e = FREE
  | inr (Some k) => (fst <$> o = Some k) ∨ ∃ j, (k = i + j)%nat ∧ (j < length l)%nat
  | inr None => l = [] ∧ o = None
  end.
Proof.
  induction l as [|e l IH]; intros i o; cbn [alloc_scan].
  { destruct o as [[k t]|]; [by left|done]. }
  destruct (bool_decide (state e = FREE)) eqn:Ef.
  { apply bool_decide_eq_true in Ef. exists O, e. split_and!; [lia|done|done]. }
  set (o' := match o with None => Some (i, timestamp e) | Some (_, t) => _ end). specialize (IH (S i) o').
  assert (Ho' : ∃ k t, o' = Some (k, t) ∧ (k = i ∨ fst <$> o = Some k)).
  { subst o'. destruct o as [[k t]|]; [|by do 2 eexists; eauto]. destruct (timer_lt _ t); do 2 eexists; eauto. }
  destruct (alloc_scan l (S i) o') as [k|[k|] ].
  - destruct IH as (j & e' & -> & Hj & Hf). exists (S j), e'. split_and!; [lia|done|done].
  - destruct IH as [Hk|(j & -> & Hj)].
    + destruct Ho' as (k' & t & Ho & Hd). rewrite Ho in Hk. injection Hk as ->.
      destruct Hd as [->|?]; [right; exists O; simpl; split; lia|by left].
    + right. exists (S j). simpl. split; lia.
  - destruct IH as [_ IH]. destruct Ho' as (k' & t & Ho & _). congruence.
Qed.

(** [arp_cache_alloc] always finds a place, and forgets at most what was there. *)
Lemma alloc_spec l : arp_wf l →
  ∃ k l', arp_cache_alloc l = Some (k, l') ∧ arp_wf l' ∧ (k < length l')%nat ∧
    (∀ e, l' !! k = Some e → state e = FREE) ∧ (∀ i e, holds l' i e → holds l i e) ∧
    (∀ i, i ≠ k → l' !! i = l !! i).
Proof.
  intros [Hl Hu]. unfold arp_cache_alloc. pose proof (alloc_scan_spec l 0 None) as Hs.
  destruct (alloc_scan l 0 None) as [k|[k|] ].
  - destruct Hs as (j & e & -> & Hj & Hf). exists j, l. split; [done|]. split_and!; try done.
    + by eapply lookup_lt_Some.
    + intros e' He'. by rewrite Hj in He'; simplify_eq.
  - destruct Hs as [?|(j & -> & Hj)]; [done|]. exists j, (arp_cache_delete j l). split; [done|].
    assert (Hh : ∀ i e, holds (arp_cache_delete j l) i e → holds l i e).
    { intros i e [H1 H2]. destruct (decide (i = j)) as [->|].
      - unfold arp_cache_delete in H1. rewrite list_lookup_insert_eq in H1 by done. by injection H1 as <-.
      - split; [|done]. unfold arp_cache_delete in H1. by rewrite list_lookup_insert_ne in H1. }
    split_and!.
    + split; [unfold arp_cache_delete; by rewrite length_insert|]. eauto.
    + unfold arp_cache_delete. by rewrite length_insert.
    + intros e. unfold arp_cache_delete. rewrite list_lookup_insert_eq by done. by intros [= <-].
    + done.
    + intros i Hi. unfold arp_cache_delete. by rewrite list_lookup_insert_ne.
  - destruct Hs as [-> _]. done.
Qed.

(** Filling the place with an address that was not there. *)
Lemma insert_wf l k c :
  arp_wf l → (k < length l)%nat → (∀ i e, i ≠ k → holds l i e → pa e ≠ pa c) → arp_wf (<[k := c]> l).
Proof.
  intros [Hl Hu] Hk Hn. split; [by rewrite length_insert|]. intros i j e e' [H1 H2] [H3 H4] Hp.
  destruct (decide (i = k)) as [->|Hi], (decide (j = k)) as [->|Hj]; [done| | |].
  - rewrite list_lookup_insert_eq in H1 by done. injection H1 as <-.
    rewrite list_lookup_insert_ne in H3 by done. destruct (Hn j e'); done.
  - rewrite list_lookup_insert_eq in H3 by done. injection H3 as <-.
    rewrite list_lookup_insert_ne in H1 by done. destruct (Hn i e); done.
  - rewrite list_lookup_insert_ne in H1, H3 by done. by apply (Hu i j e e').
Qed.

Lemma wf_delete_some (p : arp_cache → bool) l :
  arp_wf l → arp_wf (map (λ e, if p e then cache_free else e) l).
Proof.
  intros [Hl Hu]. split; [by rewrite length_map|].
  assert (Hh : ∀ i e, holds (map (λ e, if p e then cache_free else e) l) i e → holds l i e).
  { intros i e [H1 H2]. change (map ?f l) with (f <$> l) in H1. rewrite list_lookup_fmap in H1.
    destruct (l !! i) as [e0|] eqn:Hi; [|done]. injection H1 as E1.
    destruct (p e0); subst e; [done|]. by split. }
  eauto.
Qed.

Lemma caches_boot_wf : arp_wf caches_boot.
Proof.
  split; [apply length_replicate|]. intros i j e e' [Hi Hf]. apply lookup_replicate in Hi as [-> _]. done.
Qed.

(** ** The operations on the cache *)

Section arp_ops.
Context {H E F : Type} `{SysLaws E} `{DevOps E} `{Inside (net H * E) F}.
Implicit Types (l : caches) (f : F) (p : net H * E).

Lemma net_Ret {A} (m : M (net H * E) A) l f a p :
  m (iget f) = Ret (a, p) → net_ m (l, f) = Ret (a, (l, iput p f)).
Proof. intros E1. unfold net_, inside. cbn. by rewrite E1. Qed.
Lemma net_Ret_inv {A} (m : M (net H * E) A) l f a s :
  net_ m (l, f) = Ret (a, s) → ∃ p, m (iget f) = Ret (a, p) ∧ s = (l, iput p f).
Proof. unfold net_, inside. cbn. destruct (m (iget f)) as [[a' p]| | | |]; try done. intros [= -> <-]. eauto. Qed.

Lemma net_time l f : ∃ t, net_ gettimeofday (l, f) = Ret (t, (l, iput (iget (P := net H * E) f) f)).
Proof.
  destruct (iget f) as [n e] eqn:En. destruct (time_up n e) as [t Ht]. exists t.
  apply net_Ret. by rewrite En.
Qed.

(** The caches of a step that only calls the layers below do not change. *)
#[local] Instance keeps_net {A} (m : M (net H * E) A) : Keeps (fst : caches * F → caches) (net_ m).
Proof. intros [l f] a s (p & _ & ->)%net_Ret_inv. done. Qed.

Lemma update_run l f a hw :
  ∃ (b : bool) l', arp_cache_update a hw (l, f) = Ret (b, (l', if b then iput (iget (P := net H * E) f) f else f)) ∧
    match arp_cache_select l a with
    | None => b = false ∧ l' = l
    | Some i => b = true ∧ ∃ t e, l !! i = Some e ∧ l' = <[i := Cache RESOLVED (pa e) hw t]> l
    end.
Proof.
  unfold arp_cache_update. erewrite bind_Ret by done. cbn [fst id].
  destruct (arp_cache_select l a) as [i|] eqn:Hs; [|by exists false, l].
  destruct (net_time l f) as [t Ht]. rewrite (bind_Ret _ _ _ _ _ Ht).
  apply select_Some in Hs as (e & [He _] & _).
  exists true, (<[i := Cache RESOLVED (pa e) hw t]> l). split; [|eauto].
  erewrite bind_Ret by done. cbn [fst snd]. by rewrite (alter_insert _ i e l He).
Qed.

Lemma insert_run l f a hw :
  arp_wf l → ∃ l' f', arp_cache_insert a hw (l, f) = Ret (true, (l', f')) ∧ f' = iput (iget (P := net H * E) f) f ∧
    ∃ k l1 t, arp_cache_alloc l = Some (k, l1) ∧ l' = <[k := Cache RESOLVED a hw t]> l1.
Proof.
  intros Hwf. unfold arp_cache_insert. erewrite bind_Ret by done. cbn [fst id].
  destruct (alloc_spec l Hwf) as (k & l1 & Hal & _). rewrite Hal.
  destruct (net_time l f) as [t Ht]. rewrite (bind_Ret _ _ _ _ _ Ht).
  do 2 eexists. split; [done|]. cbn [fst snd]. split; [done|]. eauto.
Qed.

(** What a step does to an address: it is there, resolved to [hw]. *)
Definition resolved l a hw : Prop := ∃ i t, l !! i = Some (Cache RESOLVED a hw t).

Lemma update_wf l f a hw (b : bool) l' f' :
  arp_wf l → arp_cache_update a hw (l, f) = Ret (b, (l', f')) →
  arp_wf l' ∧ if b then resolved l' a hw else l' = l ∧ arp_cache_select l a = None.
Proof.
  intros Hwf Hr. destruct (update_run l f a hw) as (b' & l1 & E1 & Hs). rewrite E1 in Hr. injection Hr as -> -> _.
  destruct (arp_cache_select l a) as [i|] eqn:Hsel; [|by destruct Hs as [-> ->]].
  destruct Hs as (-> & t & e & He & ->). apply select_Some in Hsel as (e' & [He' Hs'] & Hpa).
  pose proof (lookup_lt_Some _ _ _ He) as Hlt. rewrite He' in He. injection He as <-. split.
  - apply insert_wf; [done|done|]. cbn. intros j e2 Hj Hh Hp. apply Hj.
    destruct Hwf as [_ Hu]. eapply (Hu j i); [done|by split|done].
  - exists i, t. rewrite <- Hpa. by apply list_lookup_insert_eq.
Qed.

Lemma insert_ok l f a hw l' f' b :
  arp_wf l → arp_cache_select l a = None → arp_cache_insert a hw (l, f) = Ret (b, (l', f')) →
  arp_wf l' ∧ resolved l' a hw.
Proof.
  intros Hwf Hsel Hr. destruct (insert_run l f a hw Hwf) as (l2 & f2 & E1 & _ & k & l1 & t & Hal & ->).
  rewrite E1 in Hr. injection Hr as <- <- _.
  destruct (alloc_spec l Hwf) as (k' & l1' & Hal' & Hwf1 & Hk & Hf & Hh & _).
  rewrite Hal in Hal'. simplify_eq. split.
  - apply insert_wf; [done|done|]. cbn. intros i e _ Hi. rewrite select_None in Hsel. by eapply Hsel, Hh.
  - exists k', t. by apply list_lookup_insert_eq.
Qed.

Lemma resolve_wf ifp a l f r l' f' :
  arp_wf l → arp_resolve ifp a (l, f) = Ret (r, (l', f')) → arp_wf l'.
Proof.
  intros Hwf Hr. unfold arp_resolve in Hr.
  apply bind_Ret_inv in Hr as (i & s1 & (p1 & _ & ->)%net_Ret_inv & Hr).
  apply bind_Ret_inv in Hr as (dev & s1 & A1 & Hr). destruct (if_dev i); [|done]. injection A1 as <- <-.
  apply bind_Ret_inv in Hr as (d & s1 & (p2 & _ & ->)%net_Ret_inv & Hr).
  destruct (negb _); [by injection Hr as _ <- _|]. destruct (negb _); [by injection Hr as _ <- _|].
  erewrite bind_Ret in Hr by done. cbn [fst id] in Hr.
  destruct (arp_cache_select l a) as [k|] eqn:Hsel.
  - apply bind_Ret_inv in Hr as (e & s1 & A1 & Hr). destruct (l !! k); [|done]. injection A1 as <- <-.
    destruct (bool_decide (state _ = _)); [|by injection Hr as _ <- _].
    apply bind_Ret_inv in Hr as (x & s1 & (p3 & _ & ->)%net_Ret_inv & Hr). by injection Hr as _ <- _.
  - destruct (alloc_spec l Hwf) as (k & l1 & Hal & Hwf1 & Hk & Hf & Hh & _). rewrite Hal in Hr.
    apply bind_Ret_inv in Hr as (t & s1 & (p3 & _ & ->)%net_Ret_inv & Hr). erewrite bind_Ret in Hr by done.
    apply bind_Ret_inv in Hr as (x & s1 & A1 & Hr). cbn [fst snd] in A1. apply net_Ret_inv in A1 as (p4 & _ & ->).
    injection Hr as _ <- _. destruct (lookup_lt_is_Some_2 _ _ Hk) as [c Hc]. rewrite (alter_insert _ _ _ _ Hc).
    apply insert_wf; [done|done|]. cbn. intros j e _ Hj. rewrite select_None in Hsel. by eapply Hsel, Hh.
Qed.

Lemma rest_wf marge op sha spa tpa dev l f x l' f' :
  arp_wf l → (marge = false → arp_cache_select l spa = None) →
  arp_input_rest marge op sha spa tpa dev (l, f) = Ret (x, (l', f')) →
  arp_wf l' ∧ (l' = l ∨ resolved l' spa sha).
Proof.
  intros Hwf Hm Hr. unfold arp_input_rest in Hr.
  apply bind_Ret_inv in Hr as (o & s1 & (p1 & _ & ->)%net_Ret_inv & Hr).
  destruct o as [ifp|]; [|injection Hr as _ <- _; auto].
  apply bind_Ret_inv in Hr as (i & s1 & (p2 & _ & ->)%net_Ret_inv & Hr).
  destruct (unicast i =? tpa); [|injection Hr as _ <- _; auto].
  apply bind_Ret_inv in Hr as (u & [l2 f2] & A1 & Hr).
  assert (l' = l2) as ->.
  { unfold when in Hr. destruct (op =? ARP_OP_REQUEST); [|by injection Hr as _ <- _].
    apply bind_Ret_inv in Hr as (y & s2 & (p3 & _ & ->)%net_Ret_inv & Hr). by injection Hr as _ <- _. }
  destruct marge; cbn [negb when] in A1; [injection A1 as _ <- _; auto|].
  apply bind_Ret_inv in A1 as (b & [l3 f3] & A1 & A2). injection A2 as _ <- _.
  apply insert_ok in A1; [|done|by apply Hm]. destruct A1; auto.
Qed.

Lemma input_wf data dev l f x l' f' :
  arp_wf l → arp_input data dev (l, f) = Ret (x, (l', f')) → arp_wf l'.
Proof.
  intros Hwf Hr. unfold arp_input in Hr. destruct (arp_parse data) as [[[[op sha] spa] tpa]|]; [|by injection Hr as _ <- _].
  apply bind_Ret_inv in Hr as (b & [l1 f1] & A1 & Hr). apply update_wf in A1 as [Hwf1 Hb]; [|done].
  eapply rest_wf in Hr as [Hw _]; [done|done|]. intros ->. by destruct Hb as [-> ?].
Qed.

Lemma timer_run l f :
  ∃ now, arp_timer_handler (l, f) =
    Ret ((), (map (λ e, if expired now e then cache_free else e) l, iput (iget (P := net H * E) f) f)) ∧
    net_ gettimeofday (l, f) = Ret (now, (l, iput (iget (P := net H * E) f) f)).
Proof.
  destruct (net_time l f) as [now Ht]. exists now. split; [|done].
  unfold arp_timer_handler. by rewrite (bind_Ret _ _ _ _ _ Ht).
Qed.

(** One call of the component; [as_env] is anything the layers below do. *)
Inductive arp_step (s : caches * F) : caches * F → Prop :=
  | as_input data dev x s' : arp_input data dev s = Ret (x, s') → arp_step s s'
  | as_resolve ifp a r s' : arp_resolve ifp a s = Ret (r, s') → arp_step s s'
  | as_timer x s' : arp_timer_handler s = Ret (x, s') → arp_step s s'
  | as_env f : arp_step s (s.1, f).

(** The cache keeps its 32 entries and never holds an address twice,
    whatever the sequence of messages, lookups and expirations, evictions of
    the oldest entry included. *)
Theorem arp_cache_invariant s s' : arp_wf s.1 → rtc arp_step s s' → arp_wf s'.1.
Proof.
  intros Hwf Hs. induction Hs as [|s1 s2 s3 Hst _ IH]; [done|]. apply IH.
  destruct s1 as [l f]. destruct Hst as [data dev x [l' f'] Hr|ifp a r [l' f'] Hr|x [l' f'] Hr|f']; cbn [fst] in *.
  - by eapply input_wf.
  - by eapply resolve_wf.
  - destruct (timer_run l f) as (now & E1 & _). rewrite E1 in Hr. injection Hr as _ <- _. by apply wf_delete_some.
  - done.
Qed.

(** The timer frees exactly the entries, not static, whose last update is
    more than 30 seconds old, and changes no other. *)
Theorem arp_timer_correct l f :
  ∃ now, net_ gettimeofday (l, f) = Ret (now, (l, iput (iget (P := net H * E) f) f)) ∧
  run arp_timer_handler (l, f) (λ _ s, length s.1 = length l ∧ ∀ i e, l !! i = Some e →
    s.1 !! i = Some (if bool_decide (state e ≠ FREE) && bool_decide (state e ≠ STATIC) &&
                        (30 <? tv_sec (timersub now (timestamp e)))
                     then cache_free else e)).
Proof.
  destruct (timer_run l f) as (now & E1 & E2). exists now. split; [done|]. apply run_Ret.
  do 2 eexists. split; [exact E1|]. cbn [fst]. split; [by rewrite length_map|]. intros i e Hi.
  change (map ?g l) with (g <$> l). rewrite list_lookup_fmap, Hi. done.
Qed.
End arp_ops.

(** ** Messages *)

Lemma arp_parse_build op sha spa tha tpa padding :
  length sha = 6%nat → length tha = 6%nat → in_range 16 op → in_range 32 spa → in_range 32 tpa →
  arp_parse (arp_ether_ip op sha spa tha tpa ++ padding) = Some (op, sha, spa, tpa).
Proof.
  intros Hs Ht Ho Hp1 Hp2. unfold arp_ether_ip.
  set (o2 := le_bytes 2 (hton16 op)). set (s4 := le_bytes 4 spa). set (t4 := le_bytes 4 tpa).
  set (h4 := le_bytes 2 (hton16 ARP_HRD_ETHER) ++ le_bytes 2 (hton16 ARP_PRO_IP) ++ [6; 4]).
  assert (arp_hdr op = h4 ++ o2) as -> by done.
  set (m := ((h4 ++ o2) ++ sha ++ s4 ++ tha ++ t4) ++ padding).
  assert (m = h4 ++ o2 ++ sha ++ s4 ++ tha ++ t4 ++ padding) as Em by (subst m; by rewrite <- !app_assoc).
  clearbody m.
  assert (length o2 = 2 ∧ length s4 = 4 ∧ length t4 = 4 ∧ length h4 = 6)%nat as (L1 & L2 & L3 & L4) by done.
  assert (Hsub : ∀ a b c k n, m = a ++ b ++ c → k = Z.of_nat (length a) → n = Z.of_nat (length b) →
    sub_bytes m k n = Some b) by (intros a b c k n; apply (sub_bytes_at m a b c)).
  assert (Hl : (28 <= length m)%nat) by (rewrite Em, !length_app; lia).
  assert (Hfix : ∀ k x, (k < 6)%nat → h4 !! k = Some x → load8 (Z.of_nat k) m = Some x).
  { intros k x Hk Hx. unfold load. rewrite Em. change (Z.of_nat 1) with 1.
    rewrite (sub_bytes_at _ (take k h4) [x] (drop (S k) h4 ++ o2 ++ sha ++ s4 ++ tha ++ t4 ++ padding)).
    - cbn [le_val]. f_equal. lia.
    - rewrite <- (take_drop k h4) at 1. rewrite (drop_S _ _ _ Hx). by rewrite <- !app_assoc.
    - rewrite length_take_le; [done|lia].
    - done. }
  assert (Hw : ∀ (k : nat) a b c v, m = a ++ le_bytes k v ++ c → b = Z.of_nat (length a) → in_range (8 * Z.of_nat k) v →
    load k b m = Some v).
  { intros k a b c v E1 E2 Hv. unfold load. rewrite (sub_bytes_at m a (le_bytes k v) c) by (done || by rewrite length_le_bytes).
    rewrite le_val_bytes. f_equal. by apply wrap_small. }
  unfold arp_parse. destruct (Z.ltb_spec (Z.of_nat (length m)) 28); [lia|].
  rewrite (Hw 2%nat [] 0 (le_bytes 2 (hton16 ARP_PRO_IP) ++ [6; 4] ++ o2 ++ sha ++ s4 ++ tha ++ t4 ++ padding) (hton16 ARP_HRD_ETHER));
    [|by rewrite Em|done|apply hton16_range].
  rewrite (Hw 2%nat (le_bytes 2 (hton16 ARP_HRD_ETHER)) 2 ([6; 4] ++ o2 ++ sha ++ s4 ++ tha ++ t4 ++ padding) (hton16 ARP_PRO_IP));
    [|by rewrite Em|done|apply hton16_range].
  change 4 with (Z.of_nat 4) at 1. rewrite (Hfix 4%nat 6) by (done || lia).
  change 5 with (Z.of_nat 5) at 1. rewrite (Hfix 5%nat 4) by (done || lia).
  rewrite (Hw 2%nat h4 6 (sha ++ s4 ++ tha ++ t4 ++ padding) (hton16 op)); [|done|done|apply hton16_range].
  change (ntoh16 (hton16 ARP_HRD_ETHER)) with ARP_HRD_ETHER. change (ntoh16 (hton16 ARP_PRO_IP)) with ARP_PRO_IP.
  cbn -[sub_bytes load ntoh16].
  rewrite (Hsub (h4 ++ o2) sha (s4 ++ tha ++ t4 ++ padding) 8 6); [|by rewrite Em, <- app_assoc|done|by rewrite Hs].
  rewrite (Hw 4%nat (h4 ++ o2 ++ sha) 14 (tha ++ t4 ++ padding) spa);
    [|by rewrite Em, <- !app_assoc|rewrite !length_app, Hs; done|done].
  rewrite (Hw 4%nat (h4 ++ o2 ++ sha ++ s4 ++ tha) 24 padding tpa);
    [|by rewrite Em, <- !app_assoc|rewrite !length_app, Hs, Ht; done|done].
  unfold ntoh16. fold (hton16 (hton16 op)). by rewrite hton16_involutive.
Qed.

(** ** Resolution *)

Section arp_protocol.
Context {H E F : Type} `{SysLaws E} `{DevOps E} `{Inside (net H * E) F}.
Implicit Types (l : caches) (f : F).

(** An Ethernet host: its interface [ifp] on device [dev]. *)
Record host f dev ifp d i : Prop := {
  h_dev : List.find (λ d, index d =? dev) (devices (iget (P := net H * E) f).1) = Some d;
  h_if : ifs (iget (P := net H * E) f).1 !! ifp = Some i;
  h_ifdev : if_dev i = Some dev;
  h_get : net_device_get_iface dev NET_IFACE_FAMILY_IP (iget (P := net H * E) f) = Ret (Some ifp, iget f);
  h_addr : (6 <= length (addr d))%nat;
  h_type : d_type d = NET_DEVICE_TYPE_ETHERNET;
  h_fam : family i = NET_IFACE_FAMILY_IP;
  h_ip : in_range 32 (unicast i);
}.
Definition mac (d : net_device) : bytes := take 6 (addr d).

Lemma host_iget f f' dev ifp d i : iget (P := net H * E) f' = iget f → host f dev ifp d i → host f' dev ifp d i.
Proof. intros E1 []. constructor; rewrite ?E1; done. Qed.

Lemma host_iface f dev ifp d i : host f dev ifp d i → iface_at ifp (iget (P := net H * E) f) = Ret (i, iget f).
Proof. intros []. destruct (iget f) as [n e]. by apply iface_at_Ret. Qed.
Lemma host_device f dev ifp d i : host f dev ifp d i → dev_at dev (iget (P := net H * E) f) = Ret (d, iget f).
Proof. intros []. destruct (iget f) as [n e]. by apply dev_at_Ret. Qed.

Lemma mac_sub d : (6 <= length (addr d))%nat → sub_bytes (addr d) 0 ETHER_ADDR_LEN = Some (mac d).
Proof.
  intros Ha. apply (sub_bytes_at _ [] (mac d) (drop 6 (addr d))); [symmetry; apply take_drop|done|].
  unfold mac. rewrite length_take. unfold ETHER_ADDR_LEN. lia.
Qed.

Lemma send_run f dev ifp d i op tha tpa dst :
  host f dev ifp d i →
  arp_send op ifp tha tpa dst (iget (P := net H * E) f) =
    net_device_output dev ETHER_TYPE_ARP (arp_ether_ip op (mac d) (unicast i) tha tpa) (dst d) (iget f).
Proof.
  intros Hh. unfold arp_send. rewrite (bind_Ret _ _ _ _ _ (host_iface _ _ _ _ _ Hh)), (h_ifdev _ _ _ _ _ Hh).
  erewrite bind_Ret by done. rewrite (bind_Ret _ _ _ _ _ (host_device _ _ _ _ _ Hh)).
  rewrite mac_sub by apply Hh. by erewrite bind_Ret by done.
Qed.

(** Receiving a message addressed to the host. *)
Lemma input_run l f dev ifp d i op sha spa tha padding :
  arp_wf l → host f dev ifp d i → length sha = 6%nat → length tha = 6%nat → in_range 16 op → in_range 32 spa →
  ∃ l' f', arp_wf l' ∧ resolved l' spa sha ∧ iget (P := net H * E) f' = iget f ∧
    arp_input (arp_ether_ip op sha spa tha (unicast i) ++ padding) dev (l, f) =
      when (op =? ARP_OP_REQUEST) (net_ (net_device_output dev ETHER_TYPE_ARP
        (arp_ether_ip ARP_OP_REPLY (mac d) (unicast i) sha spa) sha) ;; mret ()) (l', f').
Proof.
  intros Hwf Hh Hs Ht Hop Hsp. unfold arp_input. rewrite arp_parse_build by (done || apply Hh).
  destruct (update_run l f spa sha) as (b & l1 & E1 & _). rewrite (bind_Ret _ _ _ _ _ E1).
  destruct (update_wf l f spa sha b l1 _ Hwf E1) as [Hwf1 Hb].
  set (f1 := if b then _ else f) in *.
  assert (iget (P := net H * E) f1 = iget f) as Hf1 by (subst f1; destruct b; [by rewrite iget_iput|done]).
  pose proof (host_iget f f1 _ _ _ _ Hf1 Hh) as Hh1. unfold arp_input_rest.
  rewrite (bind_Ret _ _ _ _ _ (net_Ret _ l1 f1 _ _ (h_get _ _ _ _ _ Hh1))).
  set (f2 := iput (P := net H * E) (iget f1) f1). assert (iget (P := net H * E) f2 = iget f) as Hf2 by (subst f2; by rewrite iget_iput).
  pose proof (host_iget f f2 _ _ _ _ Hf2 Hh) as Hh2.
  rewrite (bind_Ret _ _ _ _ _ (net_Ret _ l1 f2 _ _ (host_iface _ _ _ _ _ Hh2))).
  set (f3 := iput (P := net H * E) (iget f2) f2). assert (iget (P := net H * E) f3 = iget f) as Hf3 by (subst f3; by rewrite iget_iput).
  rewrite Z.eqb_refl.
  assert (Hins : ∃ l4 f4, when (negb b) (arp_cache_insert spa sha ;; mret ()) (l1, f3) = Ret ((), (l4, f4)) ∧
    arp_wf l4 ∧ resolved l4 spa sha ∧ iget (P := net H * E) f4 = iget f).
  { destruct b; cbn [negb when].
    - exists l1, f3. by split_and!.
    - destruct Hb as [-> Hsel]. destruct (insert_run l f3 spa sha Hwf) as (l4 & f4 & E4 & -> & _).
      exists l4, (iput (P := net H * E) (iget f3) f3). rewrite (bind_Ret _ _ _ _ _ E4).
      destruct (insert_ok l f3 spa sha _ _ _ Hwf Hsel E4). split_and!; [done..|by rewrite iget_iput]. }
  destruct Hins as (l4 & f4 & E4 & Hwf4 & Hr4 & Hf4). rewrite (bind_Ret _ _ _ _ _ E4).
  exists l4, f4. split_and!; [done..|]. unfold when. destruct (op =? ARP_OP_REQUEST); [|done].
  unfold mbind at 1, M_bind at 1. unfold net_, inside. cbn [iget inside_snd snd].
  unfold arp_reply. rewrite (send_run f4 dev ifp d i) by (by eapply host_iget).
  unfold mbind, M_bind. cbn. by destruct (net_device_output _ _ _ _ _) as [[]| | | |].
Qed.

Lemma resolve_run l f dev ifp d i a hw :
  arp_wf l → host f dev ifp d i → resolved l a hw →
  ∃ f', iget (P := net H * E) f' = iget f ∧ arp_resolve ifp a (l, f) = Ret ((ARP_RESOLVE_FOUND, Some hw), (l, f')).
Proof.
  intros Hwf Hh (k & t & Hk). unfold arp_resolve.
  rewrite (bind_Ret _ _ _ _ _ (net_Ret _ l f _ _ (host_iface _ _ _ _ _ Hh))), (h_ifdev _ _ _ _ _ Hh).
  erewrite bind_Ret by done. set (f1 := iput _ f).
  assert (iget (P := net H * E) f1 = iget f) as Hf1 by (subst f1; by rewrite iget_iput).
  rewrite (bind_Ret _ _ _ _ _ (net_Ret _ l f1 _ _ (host_device _ _ _ _ _ (host_iget f f1 _ _ _ _ Hf1 Hh)))).
  rewrite (h_type _ _ _ _ _ Hh), (h_fam _ _ _ _ _ Hh). cbn [negb Z.eqb Pos.eqb NET_DEVICE_TYPE_ETHERNET NET_IFACE_FAMILY_IP].
  erewrite bind_Ret by done. cbn [fst id].
  rewrite (select_holds l a k (Cache RESOLVED a hw t) Hwf) by (done || split; done).
  rewrite Hk. erewrite bind_Ret by done. rewrite bool_decide_false by done.
  eexists. split; [|done]. by rewrite iget_iput.
Qed.

(** A lookup that fails: the entry is made, and the request sent. *)
Lemma resolve_miss l f dev ifp d i a :
  arp_wf l → host f dev ifp d i → arp_cache_select l a = None →
  ∃ l' f', arp_wf l' ∧ (∃ k hw t, l' !! k = Some (Cache INCOMPLETE a hw t)) ∧ iget (P := net H * E) f' = iget f ∧
    arp_resolve ifp a (l, f) =
      (net_ (net_device_output dev ETHER_TYPE_ARP
         (arp_ether_ip ARP_OP_REQUEST (mac d) (unicast i) (replicate 6 0) a) (broadcast d)) ;;
       mret (ARP_RESOLVE_INCOMPLETE, None)) (l', f').
Proof.
  intros Hwf Hh Hsel. unfold arp_resolve.
  rewrite (bind_Ret _ _ _ _ _ (net_Ret _ l f _ _ (host_iface _ _ _ _ _ Hh))), (h_ifdev _ _ _ _ _ Hh).
  erewrite bind_Ret by done. set (f1 := iput _ f).
  assert (iget (P := net H * E) f1 = iget f) as Hf1 by (subst f1; by rewrite iget_iput).
  rewrite (bind_Ret _ _ _ _ _ (net_Ret _ l f1 _ _ (host_device _ _ _ _ _ (host_iget f f1 _ _ _ _ Hf1 Hh)))).
  rewrite (h_type _ _ _ _ _ Hh), (h_fam _ _ _ _ _ Hh). cbn [negb Z.eqb Pos.eqb NET_DEVICE_TYPE_ETHERNET NET_IFACE_FAMILY_IP].
  set (f2 := iput _ f1). assert (iget (P := net H * E) f2 = iget f) as Hf2 by (subst f2; by rewrite iget_iput).
  erewrite bind_Ret by done. cbn [fst id]. rewrite Hsel.
  destruct (alloc_spec l Hwf) as (k & l1 & Hal & Hwf1 & Hk & _ & Hh1 & _). rewrite Hal.
  destruct (net_time (H := H) (E := E) l f2) as [t Ht]. rewrite (bind_Ret _ _ _ _ _ Ht).
  destruct (lookup_lt_is_Some_2 _ _ Hk) as [c Hc]. erewrite bind_Ret by done. cbn [fst snd].
  rewrite (alter_insert _ _ _ _ Hc). set (f3 := iput (P := net H * E) (iget f2) f2).
  assert (iget (P := net H * E) f3 = iget f) as Hf3 by (subst f3; by rewrite iget_iput).
  exists (<[k:=Cache INCOMPLETE a (ha c) t]> l1), f3. split_and!.
  - apply insert_wf; [done|done|]. cbn. intros j e _ Hj. rewrite select_None in Hsel. by eapply Hsel, Hh1.
  - exists k, (ha c), t. by apply list_lookup_insert_eq.
  - done.
  - unfold mbind at 1, M_bind at 1. unfold net_ at 1, inside. cbn [iget inside_snd snd fst].
    unfold arp_request. rewrite (send_run f3 dev ifp d i) by (by eapply host_iget).
    unfold mbind, M_bind, net_, inside. cbn. by destruct (net_device_output _ _ _ _ _) as [[]| | | |].
Qed.

(** C32: Two hosts that do not know each other: [arp_resolve] of the first one
    records the address as incomplete and broadcasts a request; the second
    learns the first one's address from it and answers; the answer is what the
    first one learns, so that its next [arp_resolve] finds the hardware address
    of the second. *)
Theorem arp_handshake l1 f1 dev1 if1 d1 i1 l2 f2 dev2 if2 d2 i2 padding :
  arp_wf l1 → host f1 dev1 if1 d1 i1 → arp_wf l2 → host f2 dev2 if2 d2 i2 →
  arp_cache_select l1 (unicast i2) = None →
  let request := arp_ether_ip ARP_OP_REQUEST (mac d1) (unicast i1) (replicate 6 0) (unicast i2) in
  let reply := arp_ether_ip ARP_OP_REPLY (mac d2) (unicast i2) (mac d1) (unicast i1) in
  ∃ l1' f1' l2' f2',
    arp_resolve if1 (unicast i2) (l1, f1) =
      (net_ (net_device_output dev1 ETHER_TYPE_ARP request (broadcast d1)) ;; mret (ARP_RESOLVE_INCOMPLETE, None)) (l1', f1') ∧
    (∃ k hw t, l1' !! k = Some (Cache INCOMPLETE (unicast i2) hw t)) ∧
    arp_input (request ++ padding) dev2 (l2, f2) =
      (net_ (net_device_output dev2 ETHER_TYPE_ARP reply (mac d1)) ;; mret ()) (l2', f2') ∧
    resolved l2' (unicast i1) (mac d1) ∧
    ∀ l f, arp_wf l → host f dev1 if1 d1 i1 → ∃ l' f' f'',
      arp_input (reply ++ padding) dev1 (l, f) = Ret ((), (l', f')) ∧
      arp_resolve if1 (unicast i2) (l', f') = Ret ((ARP_RESOLVE_FOUND, Some (mac d2)), (l', f'')).
Proof.
  intros Hw1 Hh1 Hw2 Hh2 Hsel request reply.
  assert (∀ d, (6 <= length (addr d))%nat → length (mac d) = 6%nat) as Hmac by (intros; unfold mac; rewrite length_take; lia).
  pose proof (Hmac d1 (h_addr _ _ _ _ _ Hh1)) as M1. pose proof (Hmac d2 (h_addr _ _ _ _ _ Hh2)) as M2.
  destruct (resolve_miss l1 f1 dev1 if1 d1 i1 (unicast i2) Hw1 Hh1 Hsel) as (l1' & f1' & _ & Hinc & _ & E1).
  destruct (input_run l2 f2 dev2 if2 d2 i2 ARP_OP_REQUEST (mac d1) (unicast i1) (replicate 6 0) padding)
    as (l2' & f2' & _ & Hr2 & _ & E2); try done; [apply Hh1|].
  exists l1', f1', l2', f2'. split_and!; [exact E1|exact Hinc|exact E2|exact Hr2|].
  intros l f Hw Hh.
  destruct (input_run l f dev1 if1 d1 i1 ARP_OP_REPLY (mac d2) (unicast i2) (mac d1) padding)
    as (l' & f' & Hw' & Hr' & Hf' & E3); try done; [apply Hh2|].
  destruct (resolve_run l' f' dev1 if1 d1 i1 (unicast i2) (mac d2) Hw') as (f'' & _ & E4);
    [by eapply host_iget|done|].
  exists l', f', f''. split; [exact E3|exact E4].
Qed.
End arp_protocol.

(** ** Witnesses *)

Section arp_witnesses.
#[local] Instance test_driver : DevOps sys :=
  { op_open _ := None; op_close _ := None; op_transmit _ _ _ _ _ := mret 0 }.
Definition host_dev (last : Z) : net_device :=
  Dev 0 [] 2 1500 0x83 14 6 ([2; 0; 0; 0; 0; last] ++ replicate 10 0) (replicate 6 255 ++ replicate 10 0) [50].
Definition host_if (ip : Z) : net_iface := NIface 1 (Some 0) ip 0x00ffffff 0xff00000a.
Definition host_net (last : Z) : net nat * sys :=
  (Net [host_dev last] 1 {[ 50 := host_if (0x0000000a + last * 0x1000000) ]} [] [] [], Sys 8 (TV 100 0) 1 0).

Lemma host_net_ok last : 0 <= last < 255 → host (host_net last) 0 50 (host_dev last) (host_if (0x0000000a + last * 0x1000000)).
Proof.
  intros Hl. constructor; try reflexivity; [simpl; lia|]. unfold in_range. cbn. lia.
Qed.

Lemma arp_handshake_witness :
  ∃ l1' f1' l2' f2', arp_resolve (H := nat) (E := sys) 50 0x0200000a (caches_boot, host_net 1) =
    (net_ (net_device_output 0 ETHER_TYPE_ARP
       (arp_ether_ip ARP_OP_REQUEST [2; 0; 0; 0; 0; 1] 0x0100000a (replicate 6 0) 0x0200000a) (broadcast (host_dev 1))) ;;
     mret (ARP_RESOLVE_INCOMPLETE, None)) (l1', f1') ∧
    arp_input (arp_ether_ip ARP_OP_REQUEST [2; 0; 0; 0; 0; 1] 0x0100000a (replicate 6 0) 0x0200000a ++ replicate 18 0) 0
      (caches_boot, host_net 2) =
    (net_ (H := nat) (E := sys) (net_device_output 0 ETHER_TYPE_ARP
       (arp_ether_ip ARP_OP_REPLY [2; 0; 0; 0; 0; 2] 0x0200000a [2; 0; 0; 0; 0; 1] 0x0100000a) [2; 0; 0; 0; 0; 1]) ;;
     mret ()) (l2', f2').
Proof.
  destruct (arp_handshake caches_boot (host_net 1) 0 50 (host_dev 1) (host_if 0x0100000a)
    caches_boot (host_net 2) 0 50 (host_dev 2) (host_if 0x0200000a) (replicate 18 0)
    caches_boot_wf (host_net_ok 1 ltac:(lia)) caches_boot_wf (host_net_ok 2 ltac:(lia)) eq_refl)
    as (l1' & f1' & l2' & f2' & E1 & _ & E2 & _ & _).
  exists l1', f1', l2', f2'. split; [exact E1|exact E2].
Defined.

Definition one_incomplete : caches := <[0%nat := Cache INCOMPLETE 77 (replicate 6 0) (TV 100 0)]> caches_boot.
Lemma resolve_77 : arp_resolve (H := nat) (E := sys) 50 77 (caches_boot, host_net 2) = Ret ((0, None), (one_incomplete, host_net 2)).
Proof. vm_compute. reflexivity. Qed.

Lemma arp_cache_invariant_witness :
  rtc (arp_step (H := nat) (E := sys)) (caches_boot, host_net 2) (one_incomplete, host_net 2) ∧ arp_wf one_incomplete.
Proof.
  assert (rtc (arp_step (H := nat) (E := sys)) (caches_boot, host_net 2) (one_incomplete, host_net 2)) as Hs.
  { apply rtc_once. exact (as_resolve (H := nat) (E := sys) (caches_boot, host_net 2) 50 77 (0, None) (one_incomplete, host_net 2) resolve_77). }
  split; [exact Hs|]. exact (arp_cache_invariant (H := nat) (E := sys) (F := net nat * sys) (caches_boot, host_net 2) (one_incomplete, host_net 2) caches_boot_wf Hs).
Defined.

(** The two critical sections of [arp_input] are not one: a lookup by
    another hart between them leaves two entries for one address. *)
Theorem arp_input_race :
  let data := arp_ether_ip ARP_OP_REQUEST [2; 0; 0; 0; 0; 1] 0x0100000a (replicate 6 0) 0x0200000a in
  ∃ s1 s2 s3 : caches * (net nat * sys),
    arp_parse data = Some (ARP_OP_REQUEST, [2; 0; 0; 0; 0; 1], 0x0100000a, 0x0200000a) ∧
    arp_cache_update 0x0100000a [2; 0; 0; 0; 0; 1] (caches_boot, host_net 2) = Ret (false, s1) ∧
    arp_resolve 50 0x0100000a s1 = Ret ((ARP_RESOLVE_INCOMPLETE, None), s2) ∧
    arp_input_rest false ARP_OP_REQUEST [2; 0; 0; 0; 0; 1] 0x0100000a 0x0200000a 0 s2 = Ret ((), s3) ∧
    ¬ arp_wf s3.1.
Proof.
  intros data. set (l2 := <[0%nat := Cache INCOMPLETE 0x0100000a (replicate 6 0) (TV 100 0)]> caches_boot).
  exists (caches_boot, host_net 2), (l2, host_net 2),
    (<[1%nat := Cache RESOLVED 0x0100000a [2; 0; 0; 0; 0; 1] (TV 100 0)]> l2, host_net 2).
  split; [vm_compute; reflexivity|]. split; [vm_compute; reflexivity|]. split; [vm_compute; reflexivity|].
  split; [vm_compute; reflexivity|]. intros [_ Hu].
  specialize (Hu 0%nat 1%nat (Cache INCOMPLETE 0x0100000a (replicate 6 0) (TV 100 0))
    (Cache RESOLVED 0x0100000a [2; 0; 0; 0; 0; 1] (TV 100 0))).
  discriminate Hu; [split; [reflexivity|done]|split; [reflexivity|done]|reflexivity].
Qed.
End arp_witnesses.
