(* ===== verification/Ip.v ===== *)
(** * The Internet protocol: [net/ip.c]

    The state is the interfaces, protocols and routes of [ip.c] (newest first)
    and the identification counter; below are the device layer ([Inside]) and
    an address resolution ([Resolver]). A handler gets a pointer into the packet
    and a length: the bytes from the pointer to the end of the packet's buffer,
    and the number. *)
From S2P Require Import Prelude NetUtil NetSys NetDev NetAddr.

Definition IP_VERSION_IPV4 : Z := 4.
Definition IP_HDR_SIZE_MIN : Z := 20.
Definition IP_TOTAL_SIZE_MAX : Z := 1500.
Definition IP_ADDR_ANY : Z := 0.
Definition IP_ADDR_BROADCAST : Z := 0xffffffff.
Definition IP_PROTOCOL_ICMP : Z := 1.
Definition IP_PROTOCOL_TCP : Z := 6.
Definition IP_PROTOCOL_UDP : Z := 17.

Record ip_route := Route { network : Z; r_netmask : Z; nexthop : Z; r_iface : Z }.
Record ip_protocol (H : Type) := IpProto { ip_type : Z; ip_handler : H }.
Arguments IpProto {H} _ _. Arguments ip_type {H} _. Arguments ip_handler {H} _.
Record ip (H : Type) := Ip { ip_ifaces : list Z; ip_protocols : list (ip_protocol H); routes : list ip_route; ip_id : Z }.
Arguments Ip {H} _ _ _ _. Arguments ip_ifaces {H} _. Arguments ip_protocols {H} _. Arguments routes {H} _. Arguments ip_id {H} _.
Definition ip_boot {H} : ip H := Ip [] [] [] 128.

Definition set_routes {H} f (s : ip H) := Ip (ip_ifaces s) (ip_protocols s) (f (routes s)) (ip_id s).
Definition set_ip_ifaces {H} f (s : ip H) := Ip (f (ip_ifaces s)) (ip_protocols s) (routes s) (ip_id s).
Definition set_ip_protocols {H} (f : list (ip_protocol H) → list (ip_protocol H)) (s : ip H) :=
  Ip (ip_ifaces s) (f (ip_protocols s)) (routes s) (ip_id s).

(** [~x] on 32 bits. *)
Definition not32 (x : Z) : Z := u32 (Z.lnot x).
Definition broadcast_of (unicast netmask : Z) : Z := Z.lor (Z.land unicast netmask) (not32 netmask).

(** ** Routes *)

Fixpoint route_scan (l : list ip_route) (dst : Z) (candidate : option ip_route) : option ip_route :=
  match l with
  | [] => candidate
  | r :: l =>
      route_scan l dst
        (if Z.land dst (r_netmask r) =? network r then
           match candidate with
           | None => Some r
           | Some c => if ntoh32 (r_netmask c) <? ntoh32 (r_netmask r) then Some r else candidate
           end
         else candidate)
  end.
Definition ip_route_lookup (l : list ip_route) (dst : Z) : option ip_route := route_scan l dst None.

(** ** Packets *)

(** The header [ip_output_core] builds, with the checksum field [sum]. *)
Definition ip_hdr (total id offset protocol sum src dst : Z) : bytes :=
  [Z.lor (Z.shiftl IP_VERSION_IPV4 4) (Z.shiftr IP_HDR_SIZE_MIN 2); 0] ++ le_bytes 2 (hton16 total) ++
  le_bytes 2 (hton16 id) ++ le_bytes 2 (hton16 offset) ++ [0xff; protocol] ++ le_bytes 2 sum ++
  le_bytes 4 src ++ le_bytes 4 dst.

(** The checks of [ip_input] that only look at the packet: [hlen] and [total]. *)
Definition ip_check (data : bytes) : option (Z * Z) :=
  let len := Z.of_nat (length data) in
  if len <? IP_HDR_SIZE_MIN then None else
  match load8 0 data, load16 2 data, load16 6 data with
  | Some vhl, Some total, Some offset =>
      if negb (Z.shiftr vhl 4 =? IP_VERSION_IPV4) then None else
      let hlen := Z.shiftl (Z.land vhl 0x0f) 2 in
      if len <? hlen then None else
      let total := ntoh16 total in
      if len <? total then None else
      if negb (bool_decide (cksum16 data hlen 0 = Some 0)) then None else
      let offset := ntoh16 offset in
      if negb (Z.land offset 0x2000 =? 0) || negb (Z.land offset 0x1fff =? 0) then None else
      Some (hlen, total)
  | _, _, _ => None
  end.

Section ip.
Context {H E F : Type} `{SysIf E} `{DevOps E} `{Inside (net H * E) F} `{Resolver F}.

Definition ipnet {A} (m : M (net H * E) A) : M (ip H * F) A := inside m.

Definition ip_route_add (nw mask hop ifp : Z) : M (ip H * F) bool :=
  b ← ipnet (memory_alloc 24);
  if b : bool then own_set (set_routes (cons (Route nw mask hop ifp))) ;; mret true else mret false.

Definition ip_route_set_default_gateway (ifp : Z) (gateway : bytes) : M (ip H * F) Z :=
  let '(r, gw) := ip_addr_pton gateway 0 in
  if r =? -1 then mret (-1) else
  b ← ip_route_add IP_ADDR_ANY IP_ADDR_ANY gw ifp;
  if negb b then mret (-1) else mret 0.

Definition ip_route_get_iface (dst : Z) : M (ip H * F) (option Z) :=
  own (λ s, r_iface <$> ip_route_lookup (routes s) dst).

(** ** Interfaces *)

(** The pointer of the new structure is a fresh number. *)
Definition ip_iface_alloc (uni mask : bytes) : M (ip H * F) (option Z) :=
  b ← ipnet (memory_alloc 40);
  if negb b then mret None else
  let '(r1, u) := ip_addr_pton uni 0 in
  if r1 =? -1 then ipnet memory_free ;; mret None else
  let '(r2, m) := ip_addr_pton mask 0 in
  if r2 =? -1 then ipnet memory_free ;; mret None else
  ifp ← ipnet (own (λ n, fresh (dom (ifs n))));
  ipnet (own_set (set_ifs <[ifp := NIface NET_IFACE_FAMILY_IP None u m (broadcast_of u m)]>)) ;;
  mret (Some ifp).

Definition ip_iface_register (dev ifp : Z) : M (ip H * F) Z :=
  r ← ipnet (net_device_add_iface dev ifp);
  if r =? -1 then mret (-1) else
  i ← ipnet (iface_at ifp);
  b ← ip_route_add (Z.land (unicast i) (netmask i)) (netmask i) IP_ADDR_ANY ifp;
  if negb b then mret (-1) else
  own_set (set_ip_ifaces (cons ifp)) ;; mret 0.

Definition ip_iface_reconfigure (ifp uni mask : Z) : M (ip H * F) Z :=
  ipnet (iface_update ifp (λ i, NIface (family i) (if_dev i) uni mask (broadcast_of uni mask))) ;;
  own_set (set_routes (map (λ r,
    if r_iface r =? ifp then Route (Z.land uni mask) mask (nexthop r) (r_iface r) else r))) ;;
  mret 0.

Fixpoint iface_select_loop (l : list Z) (a : Z) : M (ip H * F) (option Z) :=
  match l with
  | [] => mret None
  | ifp :: l => i ← ipnet (iface_at ifp); if unicast i =? a then mret (Some ifp) else iface_select_loop l a
  end.
Definition ip_iface_select (a : Z) : M (ip H * F) (option Z) :=
  l ← own ip_ifaces; iface_select_loop l a.

Definition ip_protocol_register (type : Z) (handler : H) : M (ip H * F) Z :=
  o ← own (λ s, List.find (λ p, ip_type p =? type) (ip_protocols s));
  match o with
  | Some _ => mret (-1)
  | None =>
      b ← ipnet (memory_alloc 24);
      if negb b then mret (-1) else
      own_set (set_ip_protocols (cons (IpProto type handler))) ;; mret 0
  end.

(** ** Input *)

(** [ip_input] up to the call of the handler: which one, and its arguments. *)
Definition ip_accept (data : bytes) (dev : Z) : M (ip H * F) (option (H * (bytes * Z * Z * Z * Z))) :=
  match ip_check data with
  | None => mret None
  | Some (hlen, total) =>
      o ← ipnet (net_device_get_iface dev NET_IFACE_FAMILY_IP);
      match o with
      | None => mret None
      | Some ifp =>
          i ← ipnet (iface_at ifp);
          src ← oget (load32 12 data);
          dst ← oget (load32 16 data);
          if negb (dst =? unicast i) && (negb (dst =? if_broadcast i) && negb (dst =? IP_ADDR_BROADCAST))
          then mret None else
          protocol ← oget (load8 9 data);
          own (λ s, (λ p, (ip_handler p, (drop (Z.to_nat hlen) data, u64 (total - hlen), src, dst, ifp))) <$>
                    List.find (λ p, ip_type p =? protocol) (ip_protocols s))
      end
  end.

(** ** Output *)

Definition ip_output_device (ifp : Z) (data : bytes) (dst : Z) : M (ip H * F) Z :=
  i ← ipnet (iface_at ifp);
  dev ← oget (if_dev i);
  d ← ipnet (dev_at dev);
  let hwaddr := replicate (Z.to_nat NET_DEVICE_ADDR_LEN) 0 in
  if negb (Z.land (flags d) NET_DEVICE_FLAG_NEED_ARP =? 0) then
    if (dst =? if_broadcast i) || (dst =? IP_ADDR_BROADCAST) then
      b ← oget (sub_bytes (broadcast d) 0 (alen d));
      hwaddr ← oget (blit hwaddr 0 b);
      ipnet (net_device_output dev NET_PROTOCOL_TYPE_IP data hwaddr)
    else
      '(ret, ha) ← up (resolve_addr ifp dst);
      if negb (ret =? 1) then mret ret else
      ha ← oget ha;
      hwaddr ← oget (blit hwaddr 0 ha);
      ipnet (net_device_output dev NET_PROTOCOL_TYPE_IP data hwaddr)
  else ipnet (net_device_output dev NET_PROTOCOL_TYPE_IP data hwaddr).

(** The buffer is a page; no byte of it is read before it is written. *)
Definition ip_output_core (ifp protocol : Z) (data : bytes) (src dst hop id offset : Z) : M (ip H * F) Z :=
  b ← ipnet (memory_alloc IP_TOTAL_SIZE_MAX);
  if negb b then mret (-1) else
  let buf := replicate (Z.to_nat PGSIZE) 0 in
  let total := u16 (IP_HDR_SIZE_MIN + Z.of_nat (length data)) in
  buf ← oget (blit buf 0 (ip_hdr total id offset protocol 0 src dst));
  sum ← oget (cksum16 buf IP_HDR_SIZE_MIN 0);
  buf ← oget (blit buf 10 (le_bytes 2 sum));
  buf ← oget (blit buf IP_HDR_SIZE_MIN data);
  pkt ← oget (sub_bytes buf 0 total);
  ret ← ip_output_device ifp pkt hop;
  ipnet memory_free ;;
  mret ret.

Definition ip_generate_id : M (ip H * F) Z :=
  ret ← own ip_id;
  own_set (λ s, Ip (ip_ifaces s) (ip_protocols s) (routes s) (u16 (ip_id s + 1))) ;;
  mret ret.

Definition ip_output (protocol : Z) (data : bytes) (src dst : Z) : M (ip H * F) Z :=
  if (src =? IP_ADDR_ANY) && (dst =? IP_ADDR_BROADCAST) then mret (-1) else
  route ← own (λ s, ip_route_lookup (routes s) dst);
  match route with
  | None => mret (-1)
  | Some route =>
      let ifp := r_iface route in
      i ← ipnet (iface_at ifp);
      if negb (src =? IP_ADDR_ANY) && negb (src =? unicast i) then mret (-1) else
      let hop := if negb (nexthop route =? IP_ADDR_ANY) then nexthop route else dst in
      dev ← oget (if_dev i);
      d ← ipnet (dev_at dev);
      if mtu d <? IP_HDR_SIZE_MIN + Z.of_nat (length data) then mret (-1) else
      id ← ip_generate_id;
      r ← ip_output_core ifp protocol data (unicast i) dst hop id 0;
      if r =? -1 then mret (-1) else mret (Z.of_nat (length data))
  end.

Definition ip_init (input : H) : M (ip H * F) Z :=
  r ← ipnet (net_protocol_register NET_PROTOCOL_TYPE_IP input);
  if r =? -1 then mret (-1) else mret 0.
End ip.

(** What the transport protocols use of this layer. *)
Class IpService (F : Type) := {
  ip_send : Z → bytes → Z → Z → M F Z;
  ip_iface_for : Z → M F (option Z);
  iface_unicast : Z → M F Z;
  iface_broadcast : Z → M F Z;
  iface_mtu : Z → M F Z;
}.
#[global] Instance ip_service {H E F} `{SysIf E} `{DevOps E} `{Inside (net H * E) F} `{Resolver F} : IpService (ip H * F) := {
  ip_send := ip_output;
  ip_iface_for := ip_route_get_iface;
  iface_unicast ifp := i ← ipnet (iface_at ifp); mret (unicast i);
  iface_broadcast ifp := i ← ipnet (iface_at ifp); mret (if_broadcast i);
  iface_mtu ifp := i ← ipnet (iface_at ifp); dev ← oget (if_dev i); d ← ipnet (dev_at dev); mret (mtu d);
}.

(** [ip_input]: the handler belongs to a layer above, so the whole routine runs
    on the state [G] of the whole stack. *)
Section ip_input.
Context {H E F G : Type} `{SysIf E} `{DevOps E} `{Inside (net H * E) F} `{Inside (ip H * F) G}.
Context (call : H → bytes → Z → Z → Z → Z → M G ()).
Definition ip_input (data : bytes) (dev : Z) : M G () :=
  o ← inside (ip_accept data dev);
  match o with
  | None => mret ()
  | Some (h, (payload, len, src, dst, ifp)) => call h payload len src dst ifp
  end.
End ip_input.

(** ** Routing *)

Lemma route_scan_spec l dst c :
  match route_scan l dst c with
  | Some r => (r ∈ l ∧ Z.land dst (r_netmask r) = network r ∨ c = Some r) ∧
      (∀ r', r' ∈ l → Z.land dst (r_netmask r') = network r' → ntoh32 (r_netmask r') <= ntoh32 (r_netmask r)) ∧
      (∀ r', c = Some r' → ntoh32 (r_netmask r') <= ntoh32 (r_netmask r))
  | None => c = None ∧ ∀ r, r ∈ l → Z.land dst (r_netmask r) ≠ network r
  end.
Proof.
  revert c. induction l as [|r l IH]; intros c; cbn [route_scan].
  { destruct c as [r|].
    - split_and!; [by right|by intros r' ?%elem_of_nil|by intros r' [= ->]].
    - split; [done|]. by intros r ?%elem_of_nil. }
  set (c' := if Z.land dst (r_netmask r) =? network r then _ else c). specialize (IH c').
  assert (Hc' : (c' = Some r ∧ Z.land dst (r_netmask r) = network r ∨ c' = c) ∧
    (Z.land dst (r_netmask r) = network r → ∃ r', c' = Some r' ∧ ntoh32 (r_netmask r) <= ntoh32 (r_netmask r')) ∧
    (∀ r', c = Some r' → ∃ r'', c' = Some r'' ∧ ntoh32 (r_netmask r') <= ntoh32 (r_netmask r''))).
  { subst c'. destruct (Z.eqb_spec (Z.land dst (r_netmask r)) (network r)) as [E1|E1].
    - destruct c as [c|].
      + destruct (Z.ltb_spec (ntoh32 (r_netmask c)) (ntoh32 (r_netmask r))) as [E2|E2].
        * split_and!; [by left|intros _; exists r; split; [done|lia]|].
          intros r' [= <-]. exists r. split; [done|lia].
        * split_and!; [by right|intros _; exists c; split; [done|lia]|].
          intros r' [= <-]. exists c. split; [done|lia].
      + split_and!; [by left|intros _; exists r; split; [done|lia]|done].
    - split_and!; [by right|done|]. intros r' ->. exists r'. split; [done|lia]. }
  destruct Hc' as (H1 & H2 & H3). destruct (route_scan l dst c') as [best|].
  - destruct IH as (I1 & I2 & I3). split_and!.
    + destruct I1 as [[I1 I1']|I1]; [left; split; [by right|done]|].
      destruct H1 as [[E1 E2]|E1]; [|right; congruence]. left. rewrite E1 in I1. injection I1 as <-. split; [left|done].
    + intros r' [->|Hr']%elem_of_cons Hm; [|by apply I2]. destruct (H2 Hm) as (r2 & E1 & E2).
      specialize (I3 r2 E1). lia.
    + intros r' Hr'. destruct (H3 r' Hr') as (r2 & E1 & E2). specialize (I3 r2 E1). lia.
  - destruct IH as [I1 I2]. split.
    + destruct c as [c|]; [|done]. destruct (H3 c eq_refl) as (r2 & E1 & _). congruence.
    + intros r' [->|Hr']%elem_of_cons; [|by apply I2]. intros Hm. destruct (H2 Hm) as (r2 & E1 & _). congruence.
Qed.

(** [ip_route_lookup] finds a route of the longest prefix: one that matches
    the destination and whose mask, in host order, no matching route exceeds;
    it finds none only when none matches. *)
Theorem ip_route_longest_prefix l dst :
  match ip_route_lookup l dst with
  | Some r => r ∈ l ∧ Z.land dst (r_netmask r) = network r ∧
      ∀ r', r' ∈ l → Z.land dst (r_netmask r') = network r' → ntoh32 (r_netmask r') <= ntoh32 (r_netmask r)
  | None => ∀ r, r ∈ l → Z.land dst (r_netmask r) ≠ network r
  end.
Proof.
  pose proof (route_scan_spec l dst None) as Hs. unfold ip_route_lookup.
  destruct (route_scan l dst None) as [r|]; [|by destruct Hs].
  destruct Hs as ([[]|] & Hm & _); [|done]. split_and!; done.
Qed.

(** ** Headers *)

Definition ip_pre (total id offset protocol : Z) : bytes :=
  [69; 0] ++ le_bytes 2 (hton16 total) ++ le_bytes 2 (hton16 id) ++ le_bytes 2 (hton16 offset) ++ [255; protocol].
Definition ip_packet (protocol id src dst : Z) (data : bytes) : bytes :=
  let total := IP_HDR_SIZE_MIN + Z.of_nat (length data) in
  let sum := default 0 (cksum16 (ip_hdr total id 0 protocol 0 src dst) IP_HDR_SIZE_MIN 0) in
  ip_hdr total id 0 protocol sum src dst ++ data.

Lemma ip_hdr_split total id offset protocol sum src dst :
  ip_hdr total id offset protocol sum src dst =
    ip_pre total id offset protocol ++ le_bytes 2 sum ++ le_bytes 4 src ++ le_bytes 4 dst.
Proof. reflexivity. Qed.

Lemma ip_hdr_bytes total id offset protocol sum src dst :
  is_byte protocol → Forall is_byte (ip_hdr total id offset protocol sum src dst).
Proof.
  intros Hp. unfold ip_hdr. repeat (apply Forall_app; split); auto with xv6.
  - repeat constructor; discriminate.
  - constructor; [split; [discriminate|reflexivity]|]. by constructor.
Qed.

(** The header the code stores: its checksum verifies. *)
Lemma ip_hdr_cksum total id protocol src dst :
  is_byte protocol →
  ∃ sum, cksum16 (ip_hdr total id 0 protocol 0 src dst) IP_HDR_SIZE_MIN 0 = Some sum ∧ in_range 16 sum ∧
    blit (ip_hdr total id 0 protocol 0 src dst) 10 (le_bytes 2 sum) = Some (ip_hdr total id 0 protocol sum src dst) ∧
    cksum16 (ip_hdr total id 0 protocol sum src dst) IP_HDR_SIZE_MIN 0 = Some 0.
Proof.
  intros Hp. set (h := ip_hdr total id 0 protocol 0 src dst).
  assert (Forall is_byte h) as Hb by by apply ip_hdr_bytes.
  assert (Z.of_nat (length h) = 20) as Hl by done.
  destruct (cksum16_spec h 0 Hb ltac:(lia) ltac:(lia)) as (f & E1 & _). rewrite Hl in E1.
  destruct (cksum16_insert h 10 0 _ Hb ltac:(lia) ltac:(lia) ltac:(lia) eq_refl eq_refl ltac:(rewrite Hl; exact E1))
    as (h' & B1 & B2 & _ & B3 & B4).
  eexists. split; [exact E1|]. split; [done|].
  assert (blit h 10 (le_bytes 2 (65535 - f)) = Some (ip_hdr total id 0 protocol (65535 - f) src dst)) as Hb2.
  { apply (blit_at h (ip_pre total id 0 protocol) (le_bytes 2 0) (le_bytes 4 src ++ le_bytes 4 dst)); done. }
  rewrite Hb2 in B1. injection B1 as <-. split; [done|]. done.
Qed.

Lemma ip_fields total id offset protocol sum src dst x :
  in_range 16 sum → in_range 32 src → in_range 32 dst → is_byte protocol →
  let p := ip_hdr total id offset protocol sum src dst ++ x in
  load8 0 p = Some 69 ∧ load16 2 p = Some (hton16 total) ∧ load16 6 p = Some (hton16 offset) ∧
  load8 9 p = Some protocol ∧ load32 12 p = Some src ∧ load32 16 p = Some dst.
Proof.
  intros Hs Hsrc Hdst Hp p.
  assert (Hw : ∀ (k : nat) off a c v, p = a ++ le_bytes k v ++ c → off = Z.of_nat (length a) → in_range (8 * Z.of_nat k) v →
    load k off p = Some v).
  { intros k off a c v E1 E2 Hv. unfold load. rewrite (sub_bytes_at p a (le_bytes k v) c) by (done || by rewrite length_le_bytes).
    rewrite le_val_bytes. f_equal. by apply wrap_small. }
  assert (Hb : ∀ v off a c, p = a ++ [v] ++ c → off = Z.of_nat (length a) → load8 off p = Some v).
  { intros v off a c E1 E2. unfold load. rewrite (sub_bytes_at p a [v] c) by done. cbn [le_val]. f_equal. lia. }
  split_and!.
  - eapply (Hb 69 0 []); [reflexivity|done].
  - eapply (Hw 2%nat 2 [69; 0]); [reflexivity|done|apply hton16_range].
  - eapply (Hw 2%nat 6 ([69; 0] ++ le_bytes 2 (hton16 total) ++ le_bytes 2 (hton16 id))); [|done|apply hton16_range].
    subst p. unfold ip_hdr. rewrite <- !app_assoc. reflexivity.
  - eapply (Hb protocol 9 ([69; 0] ++ le_bytes 2 (hton16 total) ++ le_bytes 2 (hton16 id) ++ le_bytes 2 (hton16 offset) ++ [255])); [|done].
    subst p. unfold ip_hdr. rewrite <- !app_assoc. reflexivity.
  - eapply (Hw 4%nat 12 (ip_pre total id offset protocol ++ le_bytes 2 sum)); [|done|done].
    subst p. rewrite ip_hdr_split, <- !app_assoc. reflexivity.
  - eapply (Hw 4%nat 16 (ip_pre total id offset protocol ++ le_bytes 2 sum ++ le_bytes 4 src)); [|done|done].
    subst p. rewrite ip_hdr_split, <- !app_assoc. reflexivity.
Qed.

(** A header whose checksum is right passes the receiver's checks when no more
    than what follows it is claimed - nothing says the claim covers the header. *)
Lemma ip_check_hdr total id protocol src dst x :
  is_byte protocol → in_range 32 src → in_range 32 dst → in_range 16 total → total <= 20 + Z.of_nat (length x) →
  ∃ sum, cksum16 (ip_hdr total id 0 protocol 0 src dst) IP_HDR_SIZE_MIN 0 = Some sum ∧ in_range 16 sum ∧
    ip_check (ip_hdr total id 0 protocol sum src dst ++ x) = Some (20, total).
Proof.
  intros Hp Hsrc Hdst Ht Hl.
  destruct (ip_hdr_cksum total id protocol src dst Hp) as (sum & E1 & E2 & _ & E3). exists sum. split_and!; [done|done|].
  destruct (ip_fields total id 0 protocol sum src dst x E2 Hsrc Hdst Hp) as (F1 & F2 & F3 & _).
  set (h := ip_hdr total id 0 protocol sum src dst) in *. assert (length h = 20%nat) as Hh by done.
  unfold ip_check. rewrite F1, F2, F3.
  assert (Z.of_nat (length (h ++ x)) = 20 + Z.of_nat (length x)) as -> by (rewrite length_app, Hh; lia).
  destruct (Z.ltb_spec (20 + Z.of_nat (length x)) IP_HDR_SIZE_MIN) as [Hlt|_]; [unfold IP_HDR_SIZE_MIN in Hlt; lia|].
  change (negb (Z.shiftr 69 4 =? IP_VERSION_IPV4)) with false. change (Z.shiftl (Z.land 69 15) 2) with 20. cbv iota.
  destruct (Z.ltb_spec (20 + Z.of_nat (length x)) 20); [lia|].
  unfold ntoh16. fold (hton16 (hton16 total)). fold (hton16 (hton16 0)). rewrite (hton16_involutive total Ht).
  destruct (Z.ltb_spec (20 + Z.of_nat (length x)) total) as [Hlt|_]; [lia|].
  rewrite cksum16_app by (rewrite ?Hh; lia). rewrite bool_decide_true by exact E3. reflexivity.
Qed.

(** ** Sending and receiving *)

Section ip_proofs.
Context {H E F : Type} `{SysLaws E} `{DevOps E} `{Inside (net H * E) F} `{Resolver F}.
Implicit Types (o : ip H) (f : F).

Abbreviation lower f := (iget (P := net H * E) f).

Lemma ipnet_Ret {A} (m : M (net H * E) A) o f a p :
  m (lower f) = Ret (a, p) → ipnet m (o, f) = Ret (a, (o, iput p f)).
Proof. intros E1. unfold ipnet, inside. cbn. by rewrite E1. Qed.
(** A read of the device layer. *)
Lemma ipnet_read {A} (m : M (net H * E) A) o f a :
  m (lower f) = Ret (a, lower f) → ∃ f', lower f' = lower f ∧ ipnet m (o, f) = Ret (a, (o, f')).
Proof. intros E1. exists (iput (lower f) f). split; [by rewrite iget_iput|by apply ipnet_Ret]. Qed.
Lemma iface_lower ifp f i : ifs (lower f).1 !! ifp = Some i → iface_at ifp (lower f) = Ret (i, lower f).
Proof. destruct (lower f) as [n e]. apply iface_at_Ret. Qed.
Lemma dev_lower dev f d :
  List.find (λ d, index d =? dev) (devices (lower f).1) = Some d → dev_at dev (lower f) = Ret (d, lower f).
Proof. destruct (lower f) as [n e]. apply dev_at_Ret. Qed.

Lemma page_split n : Z.of_nat n <= 4076 →
  ∃ rest, replicate (Z.to_nat PGSIZE) 0 = [] ++ replicate 20 0 ++ replicate n 0 ++ replicate rest 0.
Proof.
  intros Hn. exists (Z.to_nat PGSIZE - 20 - n)%nat. cbn [app]. rewrite <- !replicate_add.
  replace (20 + (n + (Z.to_nat PGSIZE - 20 - n)))%nat with (Z.to_nat PGSIZE); [done|].
  unfold PGSIZE. lia.
Qed.

(** [ip_output_core] sends [ip_packet] and gives its page back. *)
Lemma core_run ifp protocol data src dst hop id o f :
  is_byte protocol → Z.of_nat (length data) <= 4076 → pages (lower f).2 ≠ 0%nat →
  ∃ f1, (lower f1).1 = (lower f).1 ∧ pages (lower f).2 = S (pages (lower f1).2) ∧
    ip_output_core ifp protocol data src dst hop id 0 (o, f) =
      (ret ← ip_output_device ifp (ip_packet protocol id src dst data) hop; ipnet memory_free ;; mret ret) (o, f1).
Proof.
  intros Hp Hl Hpg. destruct (lower f) as [n e] eqn:En. cbn [fst snd] in *.
  destruct (alloc_up_some IP_TOTAL_SIZE_MAX n e ltac:(done) Hpg) as (e1 & E1 & P1).
  exists (iput (n, e1) f). rewrite !iget_iput. split_and!; [done|done|].
  rewrite <- En in E1. unfold ip_output_core. rewrite (bind_Ret _ _ _ _ _ (ipnet_Ret _ o f _ _ E1)). cbn [negb]. cbv zeta.
  set (total := IP_HDR_SIZE_MIN + Z.of_nat (length data)).
  assert (u16 total = total) as -> by (apply wrap_small; subst total; unfold in_range, IP_HDR_SIZE_MIN; lia).
  set (h0 := ip_hdr total id 0 protocol 0 src dst). assert (length h0 = 20%nat) as Hh0 by done.
  destruct (page_split (length data) ltac:(lia)) as (rest & Hz). revert Hz.
  generalize (replicate (Z.to_nat PGSIZE) 0). intros page Hz.
  rewrite (blit_at _ [] (replicate 20 0) (replicate (length data) 0 ++ replicate rest 0) 0 h0 Hz eq_refl Hh0).
  erewrite bind_Ret by done. cbn [app].
  destruct (ip_hdr_cksum total id protocol src dst Hp) as (sum & S1 & S2 & S3 & _). fold h0 in S1, S3.
  rewrite cksum16_app by (rewrite ?Hh0; unfold IP_HDR_SIZE_MIN; lia). rewrite S1. erewrite bind_Ret by done.
  set (h := ip_hdr total id 0 protocol sum src dst) in *.
  rewrite (blit_at _ (ip_pre total id 0 protocol) (le_bytes 2 0)
    ((le_bytes 4 src ++ le_bytes 4 dst) ++ replicate (length data) 0 ++ replicate rest 0)); [|done|done|done].
  erewrite bind_Ret by done.
  rewrite (blit_at _ h (replicate (length data) 0) (replicate rest 0)); [|done|done|by rewrite length_replicate].
  erewrite bind_Ret by done.
  rewrite (sub_bytes_at _ [] (h ++ data) (replicate rest 0)).
  2: by rewrite <- app_assoc. 2: done.
  2: { rewrite length_app. change (length h) with 20%nat. subst total. unfold IP_HDR_SIZE_MIN. lia. }
  erewrite bind_Ret by done. unfold ip_packet. fold total. fold h0. rewrite S1. reflexivity.
Qed.

(** Receiving a packet: the length the handler gets is what the header claims. *)
Lemma accept_hdr protocol total id src dst x dev ifp i p o f :
  is_byte protocol → in_range 32 src → in_range 32 dst → in_range 16 total → total <= 20 + Z.of_nat (length x) →
  net_device_get_iface dev NET_IFACE_FAMILY_IP (lower f) = Ret (Some ifp, lower f) →
  ifs (lower f).1 !! ifp = Some i →
  dst = unicast i ∨ dst = if_broadcast i ∨ dst = IP_ADDR_BROADCAST →
  List.find (λ p, ip_type p =? protocol) (ip_protocols o) = Some p →
  ∃ sum f', cksum16 (ip_hdr total id 0 protocol 0 src dst) IP_HDR_SIZE_MIN 0 = Some sum ∧ lower f' = lower f ∧
    ip_accept (ip_hdr total id 0 protocol sum src dst ++ x) dev (o, f) =
      Ret (Some (ip_handler p, (x, u64 (total - 20), src, dst, ifp)), (o, f')).
Proof.
  intros Hp Hsrc Hdst Ht Hl Hget Hif Hd Hproto.
  destruct (ip_check_hdr total id protocol src dst x Hp Hsrc Hdst Ht Hl) as (sum & S1 & S2 & S3). exists sum.
  destruct (ipnet_read _ o f _ Hget) as (f1 & L1 & E1).
  destruct (ipnet_read (iface_at ifp) o f1 i) as (f2 & L2 & E2).
  { apply iface_lower. by rewrite L1. }
  exists f2. split; [done|]. split; [congruence|].
  unfold ip_accept. rewrite S3. rewrite (bind_Ret _ _ _ _ _ E1), (bind_Ret _ _ _ _ _ E2).
  destruct (ip_fields total id 0 protocol sum src dst x S2 Hsrc Hdst Hp) as (_ & _ & _ & F4 & F5 & F6).
  rewrite F5. erewrite bind_Ret by done. rewrite F6. erewrite bind_Ret by done.
  replace (negb (dst =? unicast i) && (negb (dst =? if_broadcast i) && negb (dst =? IP_ADDR_BROADCAST))) with false.
  2: { destruct Hd as [->|[->| ->] ]; rewrite Z.eqb_refl; cbn [negb andb]; rewrite ?andb_false_r; done. }
  rewrite F4. erewrite bind_Ret by done. unfold own, gets. cbn [fst]. by rewrite Hproto.
Qed.

Lemma accept_run protocol id src dst data padding dev ifp i p o f :
  is_byte protocol → in_range 32 src → in_range 32 dst → Z.of_nat (length data) <= 65515 →
  net_device_get_iface dev NET_IFACE_FAMILY_IP (lower f) = Ret (Some ifp, lower f) →
  ifs (lower f).1 !! ifp = Some i →
  dst = unicast i ∨ dst = if_broadcast i ∨ dst = IP_ADDR_BROADCAST →
  List.find (λ p, ip_type p =? protocol) (ip_protocols o) = Some p →
  ∃ f', lower f' = lower f ∧ ip_accept (ip_packet protocol id src dst data ++ padding) dev (o, f) =
    Ret (Some (ip_handler p, (data ++ padding, Z.of_nat (length data), src, dst, ifp)), (o, f')).
Proof.
  intros Hp Hsrc Hdst Hl Hget Hif Hd Hproto. unfold ip_packet. set (total := IP_HDR_SIZE_MIN + Z.of_nat (length data)).
  destruct (accept_hdr protocol total id src dst (data ++ padding) dev ifp i p o f) as (sum & f' & S1 & L & E1); try done.
  1-2: subst total; rewrite ?length_app; unfold in_range, IP_HDR_SIZE_MIN; lia.
  exists f'. split; [done|]. rewrite S1. change (default 0 (Some sum)) with sum. rewrite <- app_assoc, E1.
  rewrite wrap_small by (subst total; unfold in_range, IP_HDR_SIZE_MIN; lia).
  do 3 f_equal. repeat f_equal. subst total. unfold IP_HDR_SIZE_MIN. lia.
Qed.

(** C31: Sending and receiving fit: for a routed destination [ip_output] hands to
    the interface one packet and returns the length, having used and returned a
    page and taken the next identification; and that packet, with whatever
    padding the frame adds, is passed by the destination's [ip_input] to the
    handler of its protocol with the addresses and the payload. *)
Theorem ip_roundtrip protocol data src dst o f route i dev d :
  is_byte protocol → src = IP_ADDR_ANY ∨ src = unicast i → ¬ (src = IP_ADDR_ANY ∧ dst = IP_ADDR_BROADCAST) →
  in_range 32 (unicast i) → in_range 32 dst →
  ip_route_lookup (routes o) dst = Some route → ifs (lower f).1 !! r_iface route = Some i → if_dev i = Some dev →
  List.find (λ d, index d =? dev) (devices (lower f).1) = Some d →
  20 + Z.of_nat (length data) <= mtu d → mtu d <= 4096 → pages (lower f).2 ≠ 0%nat →
  let packet := ip_packet protocol (ip_id o) (unicast i) dst data in
  let hop := if nexthop route =? IP_ADDR_ANY then dst else nexthop route in
  (∃ f1, (lower f1).1 = (lower f).1 ∧ pages (lower f).2 = S (pages (lower f1).2) ∧
    ip_output protocol data src dst (o, f) =
      (r ← (ret ← ip_output_device (r_iface route) packet hop; ipnet memory_free ;; mret ret);
       if r =? -1 then mret (-1) else mret (Z.of_nat (length data)))
      (Ip (ip_ifaces o) (ip_protocols o) (routes o) (u16 (ip_id o + 1)), f1)) ∧
  (∀ padding dev' ifp' i' p' o' f',
    net_device_get_iface dev' NET_IFACE_FAMILY_IP (lower f') = Ret (Some ifp', lower f') →
    ifs (lower f').1 !! ifp' = Some i' → dst = unicast i' ∨ dst = if_broadcast i' ∨ dst = IP_ADDR_BROADCAST →
    List.find (λ p, ip_type p =? protocol) (ip_protocols o') = Some p' →
    ∃ f'', lower f'' = lower f' ∧ ip_accept (packet ++ padding) dev' (o', f') =
      Ret (Some (ip_handler p', (data ++ padding, Z.of_nat (length data), unicast i, dst, ifp')), (o', f''))).
Proof.
  intros Hp Hsrc Hany Hu Hdst Hroute Hif Hdev Hd Hmtu Hmax Hpg packet hop. split.
  2: { intros padding dev' ifp' i' p' o' f' Q1 Q2 Q3 Q4. apply (accept_run _ _ _ _ _ _ _ _ i'); try done. lia. }
  unfold ip_output. replace ((src =? IP_ADDR_ANY) && (dst =? IP_ADDR_BROADCAST)) with false by lia.
  erewrite bind_Ret by done. cbn [fst]. rewrite Hroute.
  destruct (ipnet_read (iface_at (r_iface route)) o f i (iface_lower _ _ _ Hif)) as (f1 & L1 & E1).
  rewrite (bind_Ret _ _ _ _ _ E1).
  replace (negb (src =? IP_ADDR_ANY) && negb (src =? unicast i)) with false by lia.
  rewrite Hdev. erewrite bind_Ret by done.
  destruct (ipnet_read (dev_at dev) o f1 d) as (f2 & L2 & E2); [apply dev_lower; by rewrite L1|].
  rewrite (bind_Ret _ _ _ _ _ E2).
  replace (mtu d <? IP_HDR_SIZE_MIN + Z.of_nat (length data)) with false by (unfold IP_HDR_SIZE_MIN; lia).
  unfold ip_generate_id. erewrite bind_Ret by (erewrite bind_Ret by done; done). cbn [fst snd].
  destruct (core_run (r_iface route) protocol data (unicast i) dst hop (ip_id o)
    (Ip (ip_ifaces o) (ip_protocols o) (routes o) (u16 (ip_id o + 1))) f2 Hp ltac:(lia)) as (f3 & L3 & P3 & E3).
  { by rewrite L2, L1. }
  exists f3. split; [by rewrite L3, L2, L1|]. split; [by rewrite <- P3, L2, L1|].
  replace (if negb (nexthop route =? IP_ADDR_ANY) then nexthop route else dst) with hop
    by (subst hop; by destruct (nexthop route =? IP_ADDR_ANY)).
  fold packet in E3. unfold mbind at 1, M_bind at 1. rewrite E3. done.
Qed.

(** A byte of the header changed on the way, other than the one of version
    and header length, makes the receiver drop the packet. *)
Theorem ip_detects_corruption protocol id src dst data padding k b b0 :
  is_byte protocol → in_range 32 src → in_range 32 dst → Z.of_nat (length data) <= 65515 →
  (1 <= k < 20)%nat → ip_packet protocol id src dst data !! k = Some b0 → is_byte b → b ≠ b0 →
  ip_check (<[k := b]> (ip_packet protocol id src dst data ++ padding)) = None.
Proof.
  intros Hp Hsrc Hdst Hl Hk Hb0 Hb Hne. unfold ip_packet in *. set (total := IP_HDR_SIZE_MIN + Z.of_nat (length data)) in *.
  destruct (ip_hdr_cksum total id protocol src dst Hp) as (sum & S1 & S2 & _ & S3). rewrite S1 in *.
  change (default 0 (Some sum)) with sum in *. rewrite <- app_assoc.
  set (h := ip_hdr total id 0 protocol sum src dst) in *. assert (length h = 20%nat) as Hh by done.
  rewrite lookup_app_l in Hb0 by lia. rewrite insert_app_l by lia.
  pose proof (ip_hdr_bytes total id 0 protocol sum src dst Hp) as Hbytes. fold h in Hbytes.
  pose proof (cksum16_detects h k b b0 Hbytes ltac:(lia) S3 Hb0 Hb Hne) as Hc. rewrite Hh in Hc.
  unfold ip_check. destruct (_ <? IP_HDR_SIZE_MIN); [done|].
  assert (load8 0 (<[k:=b]> h ++ data ++ padding) = Some 69) as ->.
  { unfold load. change (Z.of_nat 1) with 1.
    rewrite (sub_bytes_at _ [] [69] (drop 1 (<[k := b]> h) ++ data ++ padding)); [done| |done|done].
    destruct k as [|k]; [lia|]. done. }
  destruct (load16 2 _) as [t|]; [|done]. destruct (load16 6 _) as [off|]; [|done].
  change (Z.shiftr 69 4 =? IP_VERSION_IPV4) with true. cbn [negb]. change (Z.shiftl (Z.land 69 15) 2) with 20.
  destruct (_ <? 20); [done|]. destruct (_ <? ntoh16 t); [done|].
  rewrite cksum16_app by (rewrite ?length_insert, ?Hh; lia). rewrite bool_decide_false by exact Hc. done.
Qed.
End ip_proofs.

(** ** What goes wrong *)

Section ip_findings.
Context {H E F : Type} `{SysLaws E} `{DevOps E} `{Inside (net H * E) F}.
Implicit Types (o : ip H) (f : F).

(** [ip_iface_reconfigure] rewrites every route through the interface, the
    default route included: on a host whose routes use one interface no
    destination outside the new network has a route any more. *)
Theorem ip_reconfigure_loses_gateway ifp uni mask dst o f i :
  ifs (iget (P := net H * E) f).1 !! ifp = Some i → Forall (λ r, r_iface r = ifp) (routes o) →
  Z.land dst mask ≠ Z.land uni mask →
  run (ip_iface_reconfigure (E := E) ifp uni mask) (o, f) (λ r s, r = 0 ∧ ip_route_lookup (routes s.1) dst = None).
Proof.
  intros Hif Hr Hd. apply run_Ret. unfold ip_iface_reconfigure.
  set (g := λ i, NIface _ _ _ _ _).
  assert (E1 : iface_update ifp g (iget (P := net H * E) f) = Ret ((), (set_ifs <[ifp := g i]> (iget f).1, (iget f).2))).
  { unfold iface_update. destruct (iget f) as [n e]. apply (iface_at_Ret ifp n e) in Hif.
    by rewrite (bind_Ret _ _ _ _ _ Hif). }
  unfold ipnet. erewrite bind_Ret by (by apply inside_Ret). erewrite bind_Ret by done.
  do 2 eexists. split; [done|]. split; [done|]. cbn [fst snd].
  pose proof (route_scan_spec (routes (set_routes (map (λ r, if r_iface r =? ifp
    then Route (Z.land uni mask) mask (nexthop r) (r_iface r) else r)) o)) dst None) as Hs.
  unfold ip_route_lookup. cbn [iput inside_snd fst] in *. destruct (route_scan _ dst None) as [r|] eqn:Hsc; [|done].
  destruct Hs as ([[Hin Hm]|] & _); [|done]. exfalso. apply Hd.
  cbn [routes set_routes] in Hin. apply list_elem_of_In, in_map_iff in Hin as (r0 & Hr0 & Hin).
  rewrite Forall_forall in Hr. apply list_elem_of_In in Hin. rewrite (Hr r0 Hin), Z.eqb_refl in Hr0. subst r. exact Hm.
Qed.
End ip_findings.

Section ip_witnesses.
#[local] Instance quiet_driver : DevOps sys :=
  { op_open _ := None; op_close _ := None; op_transmit _ _ _ _ _ := mret 0 }.
#[local] Instance known_neighbour : Resolver (net nat * sys) := λ _ _, mret (1, Some [2; 0; 0; 0; 0; 2]).
Definition lan_dev : net_device :=
  Dev 0 [] 2 1500 0x83 14 6 ([2; 0; 0; 0; 0; 1] ++ replicate 10 0) (replicate 6 255 ++ replicate 10 0) [50].
(** 10.0.0.[last]/24, and a default gateway 10.0.0.254. *)
Definition lan_if (last : Z) : net_iface := NIface 1 (Some 0) (0x0000000a + last * 0x1000000) 0x00ffffff 0xff00000a.
Definition lan_net (last : Z) : net nat * sys := (Net [lan_dev] 1 {[ 50 := lan_if last ]} [] [] [], Sys 8 (TV 100 0) 1 0).
Definition lan_ip : ip nat :=
  Ip [50] [IpProto 17 7%nat; IpProto 1 8%nat] [Route 0 0 0xfe00000a 50; Route 0x0000000a 0x00ffffff 0 50] 128.

Lemma ip_roundtrip_witness :
  ∃ f1, ip_output 17 [1; 2; 3] IP_ADDR_ANY 0x0200000a (lan_ip, lan_net 1) =
      (r ← (ret ← ip_output_device 50 (ip_packet 17 128 0x0100000a 0x0200000a [1; 2; 3]) 0x0200000a;
            ipnet memory_free ;; mret ret);
       if r =? -1 then mret (-1) else mret 3) (Ip (ip_ifaces lan_ip) (ip_protocols lan_ip) (routes lan_ip) 129, f1) ∧
  ∃ f2, ip_accept (ip_packet 17 128 0x0100000a 0x0200000a [1; 2; 3] ++ replicate 23 0) 0 (lan_ip, lan_net 2) =
    Ret (Some (7%nat, ([1; 2; 3] ++ replicate 23 0, 3, 0x0100000a, 0x0200000a, 50)), (lan_ip, f2)).
Proof.
  assert (is_byte 17) as Hp by (split; [discriminate|reflexivity]).
  assert (in_range 32 (unicast (lan_if 1))) as Hu by (split; [discriminate|reflexivity]).
  assert (in_range 32 0x0200000a) as Hd by (split; [discriminate|reflexivity]).
  assert (¬ (IP_ADDR_ANY = IP_ADDR_ANY ∧ 0x0200000a = IP_ADDR_BROADCAST)) as Hb by (intros [_ ?]; discriminate).
  destruct (ip_roundtrip (H := nat) (E := sys) (F := net nat * sys) 17 [1; 2; 3] IP_ADDR_ANY 0x0200000a lan_ip (lan_net 1)
    (Route 0x0000000a 0x00ffffff 0 50) (lan_if 1) 0 lan_dev Hp (or_introl eq_refl) Hb Hu Hd) as [(f1 & _ & _ & E1) Hrecv].
  1-4: vm_compute; reflexivity. 1-2: vm_compute; discriminate. 1: vm_compute; discriminate.
  exists f1. split; [exact E1|].
  destruct (Hrecv (replicate 23 0) 0 50 (lan_if 2) (IpProto 17 7%nat) lan_ip (lan_net 2)) as (f2 & _ & E2).
  1-2: vm_compute; reflexivity. 1: by left. 1: vm_compute; reflexivity.
  exists f2. exact E2.
Defined.

Lemma ip_detects_corruption_witness :
  ip_check (<[3%nat := 40]> (ip_packet 17 128 0x0100000a 0x0200000a [1; 2; 3] ++ [])) = None.
Proof.
  apply (ip_detects_corruption 17 128 0x0100000a 0x0200000a [1; 2; 3] [] 3 40 23).
  - split; [discriminate|reflexivity].
  - split; [discriminate|reflexivity].
  - split; [discriminate|reflexivity].
  - discriminate.
  - lia.
  - vm_compute. reflexivity.
  - split; [discriminate|reflexivity].
  - discriminate.
Defined.

Lemma ip_reconfigure_loses_gateway_witness :
  ip_route_lookup (routes lan_ip) 0x08080808 = Some (Route 0 0 0xfe00000a 50) ∧
  run (ip_iface_reconfigure (E := sys) 50 0x0500000a 0x00ffffff) (lan_ip, lan_net 1)
    (λ r s, r = 0 ∧ ip_route_lookup (routes s.1) 0x08080808 = None).
Proof.
  split; [vm_compute; reflexivity|].
  apply (ip_reconfigure_loses_gateway (H := nat) (E := sys) (F := net nat * sys) 50 0x0500000a 0x00ffffff 0x08080808 lan_ip (lan_net 1) (lan_if 1)).
  - reflexivity.
  - repeat constructor.
  - vm_compute. discriminate.
Defined.

(** A header length of 8 passes the checks too: the handler gets the rest of the
    header as payload. *)
Lemma ip_short_header_accepted :
  let short := [0x42; 0; 0; 20; 0xbd; 0xeb; 0; 0; 255; 17; 0; 0] ++ le_bytes 4 0x0100000a ++ le_bytes 4 0x0200000a in
  ∃ s, ip_accept short 0 (lan_ip, lan_net 2) =
    Ret (Some (7%nat, (drop 8 short, 12, 0x0100000a, 0x0200000a, 50)), (lan_ip, s)).
Proof. exists (lan_net 2); vm_compute; reflexivity. Qed.
End ip_witnesses.
