(* ===== verification/Transport.v ===== *)
(** * What UDP and TCP share

    The pseudo header of the checksum, a message assembled in a page, a table of
    protocol control blocks addressed by index, and calls that may sleep. *)
From S2P Require Import Prelude NetUtil NetSys NetAddr Ip.

(** [struct pseudo_hdr], in both [udp.c] and [tcp.c]. *)
Definition pseudo_hdr (src dst protocol len : Z) : bytes :=
  le_bytes 4 src ++ le_bytes 4 dst ++ [0; protocol] ++ le_bytes 2 (hton16 (u16 len)).
(** [psum = ~cksum16(&pseudo, sizeof(pseudo), 0)]. *)
Definition pseudo_sum (src dst protocol len : Z) : option Z :=
  match cksum16 (pseudo_hdr src dst protocol len) 12 0 with Some c => Some (u16 (Z.lnot c)) | None => None end.

(** What a call that may wait returns: it goes to sleep, to be continued from
    [k] after a wake-up, or it is over. *)
Inductive call (K A : Type) := Sleeps (k : K) | Returns (a : A).
Arguments Sleeps {K A} k. Arguments Returns {K A} a.

(** ** Control blocks *)

Section table.
Context {P F : Type}.
Definition pcb_at (id : nat) : M (list P * F) P := o ← own (λ l, l !! id); oget o.
Definition pcb_upd (id : nat) (f : P → P) : M (list P * F) () := p ← pcb_at id; own_set <[id := f p]>.

Lemma pcb_at_Ret id l (f : F) p : l !! id = Some p → pcb_at id (l, f) = Ret (p, (l, f)).
Proof. intros E1. unfold pcb_at. erewrite bind_Ret by done. cbn. by rewrite E1. Qed.
Lemma pcb_upd_Ret id l (f : F) p g : l !! id = Some p → pcb_upd id g (l, f) = Ret ((), (<[id := g p]> l, f)).
Proof. intros E1. unfold pcb_upd. by rewrite (bind_Ret _ _ _ _ _ (pcb_at_Ret _ _ _ _ E1)). Qed.
Lemma pcb_at_inv id l (f : F) p s : pcb_at id (l, f) = Ret (p, s) → l !! id = Some p ∧ s = (l, f).
Proof.
  intros (o & s1 & [= <- <-] & E2)%bind_Ret_inv. cbn in E2. destruct (l !! id) as [p'|]; [|done]. by injection E2 as -> ->.
Qed.
Lemma pcb_upd_inv id l (f : F) g r s :
  pcb_upd id g (l, f) = Ret (r, s) → ∃ p, l !! id = Some p ∧ s = (<[id := g p]> l, f).
Proof. intros (p & s1 & [E1 ->]%pcb_at_inv & E2)%bind_Ret_inv. injection E2 as <- <-. eauto. Qed.
End table.

(** What a call may do to the table, one step at a time: the layers below only
    change their own state. [mstep] takes a step, [msteps] all of them. *)
Section table_may.
Context {P F : Type} `{SysIf F}.
Implicit Types (l : list P) (f : F).

Lemma may_ret {S A} (a : A) (s : S) (Q : A → S → Prop) : Q a s → may (mret a) s Q.
Proof. done. Qed.
Lemma may_oget {S A} (o : option A) (s : S) (Q : A → S → Prop) : (∀ a, o = Some a → Q a s) → may (oget o) s Q.
Proof. intros HQ. destruct o; [by apply HQ|done]. Qed.
Lemma may_own {A} (h : list P → A) l f Q : Q (h l) (l, f) → may (own h) (l, f) Q.
Proof. done. Qed.
Lemma may_own_set (h : list P → list P) l f Q : Q () (h l, f) → may (own_set h) (l, f) Q.
Proof. done. Qed.
Lemma may_at id l f Q : (∀ p, l !! id = Some p → Q p (l, f)) → may (pcb_at id) (l, f) Q.
Proof. intros HQ. apply may_Ret. intros p s [E1 ->]%pcb_at_inv. by apply HQ. Qed.
Lemma may_upd id g l f Q : (∀ p, l !! id = Some p → Q () (<[id := g p]> l, f)) → may (pcb_upd id g) (l, f) Q.
Proof. intros HQ. apply may_Ret. intros [] s (p & E1 & ->)%pcb_upd_inv. by apply HQ. Qed.
Lemma may_up {A} (m : M F A) l f Q : (∀ a f', Q a (l, f')) → may (up m) (l, f) Q.
Proof. intros HQ. apply may_Ret. intros a s (f' & _ & ->)%up_Ret_inv. by apply HQ. Qed.
Lemma may_alloc size l f Q : (∀ b f', Q b (l, f')) → may (memory_alloc size) (l, f) Q.
Proof. apply (may_up (memory_alloc size)). Qed.
Lemma may_free l f Q : (∀ f', Q () (l, f')) → may memory_free (l, f) Q.
Proof. intros HQ. apply (may_up memory_free). by intros []. Qed.
Lemma may_time l f Q : (∀ t f', Q t (l, f')) → may gettimeofday (l, f) Q.
Proof. apply (may_up gettimeofday). Qed.
Lemma may_rand l f Q : (∀ r f', Q r (l, f')) → may rand (l, f) Q.
Proof. apply (may_up rand). Qed.
Lemma may_qpush {A} (q : list A) x l f Q :
  (∀ f', Q (q ++ [x], true) (l, f')) → (∀ f', Q (q, false) (l, f')) → may (qpush q x) (l, f) Q.
Proof. intros Q1 Q2. unfold qpush. apply may_bind, may_alloc. intros [] f'; apply may_ret; auto. Qed.
Lemma may_qpop {A} (q : list A) l f Q :
  (q = [] → Q ([], None) (l, f)) → (∀ x q' f', q = x :: q' → Q (q', Some x) (l, f')) → may (qpop q) (l, f) Q.
Proof. intros Q1 Q2. destruct q as [|x q]; [by apply Q1|]. cbn. apply may_bind, may_free. intros f'. by apply may_ret, Q2. Qed.
Lemma may_frees {A} (q : list A) l f Q :
  (∀ f', Q () (l, f')) → may (mapM_ (λ _, memory_free ;; memory_free) q) (l, f) Q.
Proof.
  intros HQ. revert f. induction q as [|x q IH]; intros f; [by apply may_ret|].
  change (may ((memory_free ;; memory_free) ;; mapM_ (λ _, memory_free ;; memory_free) q) (l, f) Q).
  do 2 apply may_bind. apply may_free. intros f1. apply may_free. intros f2. apply IH.
Qed.
End table_may.

Ltac mstep :=
  let a := fresh "a" in let Ha := fresh "Ha" in
  let pcb := fresh "pcb" in let Hpcb := fresh "Hpcb" in let fl := fresh "fl" in
  lazymatch goal with
  | |- may (_ ≫= _) _ _ => apply may_bind
  | |- may (mret _) _ _ => apply may_ret
  | |- may (oget _) _ _ => apply may_oget; intros a Ha
  | |- may (own _) _ _ => apply may_own
  | |- may (own_set _) _ _ => apply may_own_set
  | |- may (pcb_at _) _ _ => apply may_at; intros pcb Hpcb
  | |- may (pcb_upd _ _) _ _ => apply may_upd; intros pcb Hpcb
  | |- may (up _) _ _ => apply may_up; intros a fl
  | |- may (memory_alloc _) _ _ => apply may_alloc; intros a fl
  | |- may memory_free _ _ => apply may_free; intros fl
  | |- may gettimeofday _ _ => apply may_time; intros a fl
  | |- may rand _ _ => apply may_rand; intros a fl
  | |- may (qpush _ _) _ _ => apply may_qpush; intros fl
  | |- may (if ?b then _ else _) _ _ => destruct b eqn:Ha
  | |- may (match ?o with _ => _ end) _ _ => destruct o eqn:Ha
  end; cbv beta iota.

(** ** Messages *)

Lemma replicate_split (n m : nat) : (n <= m)%nat → replicate m (0 : Z) = replicate n 0 ++ replicate (m - n) 0.
Proof. intros. rewrite <- replicate_add. f_equal. lia. Qed.

(** A header and its payload copied to the start of an empty page. *)
Lemma page_message h data :
  Z.of_nat (length h) + Z.of_nat (length data) <= PGSIZE →
  ∃ b1 b2, blit (replicate (Z.to_nat PGSIZE) 0) 0 h = Some b1 ∧ blit b1 (Z.of_nat (length h)) data = Some b2 ∧
    sub_bytes b2 0 (Z.of_nat (length h) + Z.of_nat (length data)) = Some (h ++ data).
Proof.
  intros Hl. rewrite (replicate_split (length h + length data) (Z.to_nat PGSIZE)) by lia.
  rewrite replicate_add, <- app_assoc. generalize (replicate (Z.to_nat PGSIZE - (length h + length data)) 0). intros rest.
  exists (h ++ replicate (length data) 0 ++ rest), ((h ++ data) ++ rest). split_and!.
  - apply (blit_at _ [] (replicate (length h) 0)); [done|done|by rewrite length_replicate].
  - rewrite <- app_assoc. apply (blit_at _ h (replicate (length data) 0)); [done|done|by rewrite length_replicate].
  - apply (sub_bytes_at _ [] (h ++ data) rest); [done|done|]. rewrite length_app. lia.
Qed.

Lemma pseudo_sum_ok src dst protocol len :
  is_byte protocol → ∃ psum, pseudo_sum src dst protocol len = Some psum ∧ 0 <= psum <= 65535.
Proof.
  intros Hp. unfold pseudo_sum.
  assert (Forall is_byte (pseudo_hdr src dst protocol len)) as Hb.
  { unfold pseudo_hdr. repeat (apply Forall_app; split); auto with xv6.
    constructor; [split; [discriminate|reflexivity]|]. by constructor. }
  destruct (cksum16_spec (pseudo_hdr src dst protocol len) 0 Hb ltac:(cbn; lia) ltac:(lia)) as (g & E1 & _).
  change (Z.of_nat (length (pseudo_hdr src dst protocol len))) with 12 in E1. rewrite E1. eexists. split; [done|].
  pose proof (wrap_range 16 (Z.lnot (65535 - g)) ltac:(lia)) as Hr. unfold in_range in Hr. lia.
Qed.

(** A message [pre ++ sum ++ post] whose checksum field was zero when the sum was
    taken: it is the sum that the receiver verifies, whatever follows. *)
Lemma message_cksum pre post psum :
  Forall is_byte pre → Forall is_byte post → Z.even (Z.of_nat (length pre)) = true →
  Z.of_nat (length pre) + 2 + Z.of_nat (length post) < 65536 → 0 <= psum <= 65535 →
  let len := Z.of_nat (length pre) + 2 + Z.of_nat (length post) in
  ∃ sum, cksum16 (pre ++ le_bytes 2 0 ++ post) len psum = Some sum ∧ in_range 16 sum ∧
    blit (pre ++ le_bytes 2 0 ++ post) (Z.of_nat (length pre)) (le_bytes 2 sum) = Some (pre ++ le_bytes 2 sum ++ post) ∧
    ∀ junk, cksum16 ((pre ++ le_bytes 2 sum ++ post) ++ junk) len psum = Some 0.
Proof.
  intros Hpre Hpost He Hl Hps len. set (m0 := pre ++ le_bytes 2 0 ++ post).
  assert (Forall is_byte m0) as Hb by (subst m0; repeat (apply Forall_app; split); auto with xv6).
  assert (Z.of_nat (length m0) = len) as Hlen by (subst m0 len; rewrite !length_app, length_le_bytes; lia).
  destruct (cksum16_spec m0 psum Hb ltac:(lia) ltac:(lia)) as (g & E1 & _).
  assert (sub_bytes m0 (Z.of_nat (length pre)) 2 = Some [0; 0]) as Hz
    by (by apply (sub_bytes_at _ pre (le_bytes 2 0) post)).
  destruct (cksum16_insert m0 (Z.of_nat (length pre)) psum _ Hb ltac:(lia) ltac:(lia) ltac:(lia) He Hz E1)
    as (m & B1 & B2 & _ & B3 & B4).
  rewrite Hlen in E1. exists (65535 - g). split_and!; [done|done| |].
  - apply (blit_at _ pre (le_bytes 2 0) post); done.
  - intros junk. assert (m = pre ++ le_bytes 2 (65535 - g) ++ post) as <-.
    { assert (blit m0 (Z.of_nat (length pre)) (le_bytes 2 (65535 - g)) = Some (pre ++ le_bytes 2 (65535 - g) ++ post)) as B5
        by (apply (blit_at _ pre (le_bytes 2 0) post); done). congruence. }
    rewrite cksum16_app by (rewrite ?B2; lia). rewrite <- B4. f_equal. rewrite B2. done.
Qed.

(** ** The layers below, as a wire

    The theorems on protocol exchanges are proved against this specification of
    the layers below: a message given to [ip_send] is on its way, and nothing else
    is. [outbox] are the messages sent, with protocol, source and destination. *)
Abbreviation datagram := (Z * bytes * Z * Z)%type.
Class IpWire (F : Type) `{SysLaws F} `{IpService F} := {
  outbox : F → list datagram;
  wire_send proto m src dst f : ∃ f', ip_send proto m src dst f = Ret (Z.of_nat (length m), f') ∧
    outbox f' = outbox f ++ [(proto, m, src, dst)] ∧ pages f' = pages f;
  wire_broadcast ifp f : ∃ a, iface_broadcast ifp f = Ret (a, f);
  outbox_alloc size f r f' : memory_alloc size f = Ret (r, f') → outbox f' = outbox f;
  outbox_free f f' : memory_free f = Ret ((), f') → outbox f' = outbox f;
  outbox_rand f r f' : rand f = Ret (r, f') → outbox f' = outbox f;
}.

Section wire_laws.
Context {P F : Type} `{IpWire F}.
Implicit Types (l : list P) (f : F).

Lemma alloc_wire size l f : size <= PGSIZE → pages f ≠ 0%nat →
  ∃ f', memory_alloc size (l, f) = Ret (true, (l, f')) ∧ pages f = S (pages f') ∧ outbox f' = outbox f.
Proof.
  intros Hs Hp. destruct (alloc_some size f Hs Hp) as (f' & E1 & E2). exists f'.
  split_and!; [by apply up_Ret|done|by eapply outbox_alloc].
Qed.
Lemma free_wire l f : ∃ f', memory_free (l, f) = Ret ((), (l, f')) ∧ pages f' = S (pages f) ∧ outbox f' = outbox f.
Proof.
  destruct (free_pages f) as (f' & E1 & E2). exists f'. split_and!; [by apply up_Ret|done|by eapply outbox_free].
Qed.
Lemma rand_wire l f : ∃ r f', rand (l, f) = Ret (r, (l, f')) ∧ 0 <= r < 0x7fffffff ∧ pages f' = pages f ∧ outbox f' = outbox f.
Proof.
  destruct (rand_ret f) as (r & f' & E1 & E2 & E3). exists r, f'.
  split_and!; [by apply up_Ret|lia|lia|done|by eapply outbox_rand].
Qed.
Lemma send_wire proto m src dst l f : ∃ f',
  up (ip_send proto m src dst) (l, f) = Ret (Z.of_nat (length m), (l, f')) ∧
  pages f' = pages f ∧ outbox f' = outbox f ++ [(proto, m, src, dst)].
Proof.
  destruct (wire_send proto m src dst f) as (f' & E1 & E2 & E3). exists f'. split_and!; [by apply up_Ret|done|done].
Qed.
End wire_laws.

(** A wire over the platform, for the witnesses: every message leaves from
    10.0.0.1. *)
Definition wire : Type := list datagram * sys.
#[global] Instance wire_ip : IpService wire := {
  ip_send proto m src dst := own_set (λ o, o ++ [(proto, m, src, dst)]) ;; mret (Z.of_nat (length m));
  ip_iface_for _ := mret (Some 50);
  iface_unicast _ := mret 0x0100000a;
  iface_broadcast _ := mret 0xff00000a;
  iface_mtu _ := mret 1500;
}.
#[global] Instance wire_sys : SysIf wire := sys_up.
#[global] Instance wire_sys_laws : SysLaws wire := sys_up_laws.
#[global] Instance wire_wire : IpWire wire.
Proof.
  refine {| outbox f := f.1 |}.
  - intros proto m src dst f. eexists. split_and!; reflexivity.
  - intros ifp f. eexists. reflexivity.
  - intros size [o e] r f' (e' & _ & ->)%up_Ret_inv. done.
  - intros [o e] f' (e' & _ & ->)%up_Ret_inv. done.
  - intros [o e] r f' (e' & _ & ->)%up_Ret_inv. done.
Defined.
