(* ===== verification/NetFuel.v ===== *)
(** * Routines that end: what the layers below promise

    A routine of the model is [Fuelled] when it never runs out of the fuel that
    stands for the turns of its loops, from any state and whatever the result. The
    instances follow the code, so the proof for a routine is found by instance
    search. [IpFuel] is what a transport protocol needs of the layers below it; the
    IP layer of [Ip] over the address resolution of [Arp] and the devices of
    [NetDev] provides it, for any driver that does ([DevFuel]). *)
From S2P Require Import Prelude NetUtil NetSys NetDev NetAddr Ether Arp Ip Transport.

Class Fuelled {S A} (m : M S A) : Prop := fuelled : ∀ s, m s ≠ OutOfFuel.
#[global] Hint Mode Fuelled - - ! : typeclass_instances.

Section monad.
Context {S A B C D : Type}.
#[export] Instance fuelled_ret (a : A) : Fuelled (mret a : M S A).
Proof. done. Qed.
#[export] Instance fuelled_oget (o : option A) : Fuelled (oget o : M S A).
Proof. intros s. by destruct o. Qed.
#[export] Instance fuelled_gets (g : S → A) : Fuelled (gets g).
Proof. done. Qed.
#[export] Instance fuelled_modify (g : S → S) : Fuelled (modify g).
Proof. done. Qed.
#[export] Instance fuelled_bind (m : M S A) (k : A → M S B) : Fuelled m → (∀ a, Fuelled (k a)) → Fuelled (m ≫= k).
Proof.
  intros Hm Hk s E. unfold mbind, M_bind in E. specialize (Hm s). destruct (m s) as [[a s']| | | |]; try done. by apply (Hk a s').
Qed.
#[export] Instance fuelled_if (b : bool) (m1 m2 : M S A) : Fuelled m1 → Fuelled m2 → Fuelled (if b then m1 else m2).
Proof. by destruct b. Qed.
#[export] Instance fuelled_option (o : option C) (m1 : C → M S A) (m2 : M S A) :
  (∀ c, Fuelled (m1 c)) → Fuelled m2 → Fuelled (match o with Some c => m1 c | None => m2 end).
Proof. by destruct o. Qed.
#[export] Instance fuelled_pair (p : C * D) (m : C → D → M S A) :
  (∀ c d, Fuelled (m c d)) → Fuelled (let '(c, d) := p in m c d).
Proof. by destruct p. Qed.
End monad.
#[export] Instance fuelled_mapM {S A} (g : A → M S ()) l : (∀ a, Fuelled (g a)) → Fuelled (mapM_ g l).
Proof. intros Hg. induction l as [|a l IH]; [by intros s|]. change (Fuelled (g a ;; mapM_ g l)). apply _. Qed.

(** One layer up. *)
#[export] Instance fuelled_up {O E A} (m : M E A) : Fuelled m → Fuelled (up m : M (O * E) A).
Proof. intros Hm [o e] E1. unfold up in E1. cbn in E1. specialize (Hm e). by destruct (m e) as [[]| | | |]. Qed.
#[export] Instance fuelled_own {O E A} (g : O → A) : Fuelled (own g : M (O * E) A).
Proof. done. Qed.
#[export] Instance fuelled_own_set {O E} (g : O → O) : Fuelled (own_set g : M (O * E) ()).
Proof. done. Qed.
#[export] Instance fuelled_inside {P F A} `{Inside P F} (m : M P A) : Fuelled m → Fuelled (inside m : M F A).
Proof. intros Hm f E1. unfold inside in E1. specialize (Hm (iget f)). by destruct (m (iget f)) as [[]| | | |]. Qed.

(** ** The platform *)

Section platform.
Context {E : Type} `{SysLaws E}.
#[export] Instance fuelled_alloc size : Fuelled (memory_alloc size : M E bool).
Proof.
  intros e E1. destruct (Z_le_gt_dec size PGSIZE) as [Hs|Hs]; [|rewrite alloc_none in E1 by (left; lia); done].
  destruct (decide (pages e = 0%nat)) as [Hp|Hp]; [rewrite alloc_none in E1 by (by right); done|].
  destruct (alloc_some size e Hs Hp) as (e' & E2 & _). by rewrite E1 in E2.
Qed.
#[export] Instance fuelled_free : Fuelled (memory_free : M E ()).
Proof. intros e E1. destruct (free_pages e) as (e' & E2 & _). by rewrite E1 in E2. Qed.
#[export] Instance fuelled_time : Fuelled (gettimeofday : M E timeval).
Proof. intros e E1. destruct (time_ret e) as (t & E2). by rewrite E1 in E2. Qed.
#[export] Instance fuelled_qpush {A} (q : list A) x : Fuelled (qpush q x : M E (list A * bool)).
Proof. unfold qpush. apply _. Qed.
#[export] Instance fuelled_qpop {A} (q : list A) : Fuelled (qpop q : M E (list A * option A)).
Proof. destruct q; cbn; apply _. Qed.
End platform.

(** ** The layers below the transport protocols *)

(** A driver whose transmission ends. *)
Class DevFuel (E : Type) `{DevOps E} : Prop := fuelled_transmit dev d type data dst :: Fuelled (op_transmit dev d type data dst : M E Z).
Class ResolverFuel (F : Type) `{Resolver F} : Prop := fuelled_resolve ifp dst :: Fuelled (resolve_addr ifp dst : M F _).
Class IpFuel (F : Type) `{IpService F} : Prop := {
  fuelled_send proto m src dst :: Fuelled (ip_send proto m src dst : M F Z);
  fuelled_iface_for dst :: Fuelled (ip_iface_for dst : M F (option Z));
  fuelled_mtu ifp :: Fuelled (iface_mtu ifp : M F Z);
}.

Section net.
Context {H E F : Type} `{SysLaws E} `{DevOps E} `{!DevFuel E} `{Inside (net H * E) F}.

#[export] Instance fuelled_dev_at dev : Fuelled (dev_at dev : M (net H * E) net_device).
Proof. unfold dev_at. apply _. Qed.
#[export] Instance fuelled_iface_at ifp : Fuelled (iface_at ifp : M (net H * E) net_iface).
Proof. unfold iface_at. apply _. Qed.
#[export] Instance fuelled_output dev type data dst : Fuelled (net_device_output dev type data dst : M (net H * E) Z).
Proof using All. unfold net_device_output. apply _. Qed.

#[export] Instance fuelled_arp_request ifp a : Fuelled (arp_request ifp a : M (net H * E) Z).
Proof using All. unfold arp_request, arp_send. apply _. Qed.
(** [arp_resolve] ends. *)
#[export] Instance arp_resolver_fuel : ResolverFuel (caches * F).
Proof using All. intros ifp dst. unfold resolve_addr, arp_resolver, arp_resolve, net_. apply _. Qed.

Context `{Resolver F} `{!ResolverFuel F}.
#[export] Instance fuelled_output_core ifp protocol data src dst hop id offset :
  Fuelled (ip_output_core ifp protocol data src dst hop id offset : M (ip H * F) Z).
Proof using All. unfold ip_output_core, ip_output_device, ipnet. apply _. Qed.
(** The IP layer ends. *)
#[export] Instance ip_service_fuel : IpFuel (ip H * F).
Proof using All.
  split; intros *; cbn [ip_send ip_iface_for iface_mtu ip_service].
  - unfold ip_output, ip_generate_id, ipnet. apply _.
  - unfold ip_route_get_iface. apply _.
  - unfold ipnet. apply _.
Qed.

(** The MTU of an interface is that of a device. *)
Lemma ip_service_mtu (s s' : ip H * F) ifp m (P : Z → Prop) :
  Forall (λ d, P (mtu d)) (devices (iget s : net H * E).1) → iface_mtu ifp s = Ret (m, s') → P m.
Proof using Type.
  intros Hd E1. cbn [iface_mtu ip_service] in E1. destruct s as [o f].
  apply bind_Ret_inv in E1 as (i & s1 & E1 & (dev & s2 & E2 & E3)%bind_Ret_inv).
  apply bind_Ret_inv in E3 as (d & s3 & E3 & [= <- _]).
  unfold ipnet, inside in E1. destruct (iface_at ifp _) as [[i' n1]| | | |] eqn:Ei; try done. injection E1 as <- <-.
  unfold iface_at in Ei. apply bind_Ret_inv in Ei as (oi & n2 & [= <- <-] & Ei).
  destruct (_ !! ifp) as [i0|]; [|done]. injection Ei as <- <-.
  destruct (if_dev i0) as [dev'|]; [|done]. injection E2 as <- <-.
  unfold ipnet, inside in E3. destruct (dev_at dev' _) as [[d' n3]| | | |] eqn:Ed; try done. injection E3 as <- _.
  unfold dev_at in Ed. apply bind_Ret_inv in Ed as (od & n4 & [= <- <-] & Ed).
  rewrite iget_iput in Ed. destruct (List.find _ _) as [d0|] eqn:Ef; [|done]. injection Ed as <- _.
  apply find_some in Ef as [Hin%list_elem_of_In _]. rewrite Forall_forall in Hd. by apply Hd.
Qed.
End net.
