(* ===== verification/Icmp.v ===== *)
(** * Echo: [net/icmp.c]

    The layer has no state: it runs on the layers below, of which it uses the
    pages ([SysIf]) and the IP layer ([IpService]). [icmp_init] registers the
    handler under the name [input]. *)
From S2P Require Import Prelude NetUtil NetSys NetDev Ip Transport.

Definition ICMP_HDR_SIZE : Z := 8.
Definition ICMP_BUFSIZ : Z := IP_TOTAL_SIZE_MAX - IP_HDR_SIZE_MIN.
Definition ICMP_TYPE_ECHOREPLY : Z := 0.
Definition ICMP_TYPE_ECHO : Z := 8.

(** [struct icmp_hdr]; [values] is in the byte order of the packet. *)
Definition icmp_hdr (type code sum values : Z) : bytes := [type; code] ++ le_bytes 2 sum ++ le_bytes 4 values.

Section icmp.
Context {F : Type} `{SysIf F} `{IpService F}.

(** The buffer is a page; no byte of it is read before it is written. *)
Definition icmp_output (type code values : Z) (data : bytes) (len src dst : Z) : M F Z :=
  b ← memory_alloc ICMP_BUFSIZ;
  if negb b then mret (-1) else
  let buf := replicate (Z.to_nat PGSIZE) 0 in
  buf ← oget (blit buf 0 (icmp_hdr type code 0 values));
  payload ← oget (sub_bytes data 0 len);
  buf ← oget (blit buf ICMP_HDR_SIZE payload);
  let msg_len := ICMP_HDR_SIZE + len in
  msg ← oget (sub_bytes buf 0 msg_len);
  sum ← oget (cksum16 msg msg_len 0);
  msg ← oget (blit msg 2 (le_bytes 2 sum));
  ret ← ip_send IP_PROTOCOL_ICMP msg src dst;
  memory_free ;;
  mret ret.

Definition icmp_input (data : bytes) (len src dst ifp : Z) : M F () :=
  if len <? ICMP_HDR_SIZE then mret () else
  sum ← oget (cksum16 data len 0);
  if negb (sum =? 0) then mret () else
  type ← oget (load8 0 data);
  if type =? ICMP_TYPE_ECHO then
    code ← oget (load8 1 data);
    values ← oget (load32 4 data);
    u ← iface_unicast ifp;
    icmp_output ICMP_TYPE_ECHOREPLY code values (drop 8 data) (len - ICMP_HDR_SIZE) u src ;; mret ()
  else mret ().
End icmp.

Definition icmp_init {H E F} `{SysIf E} `{DevOps E} `{Inside (net H * E) F} (input : H) : M (ip H * F) Z :=
  r ← ip_protocol_register IP_PROTOCOL_ICMP input; if r =? -1 then mret (-1) else mret 0.

(** ** Echo *)

(** A message with its checksum. *)
Definition icmp_msg (type code values : Z) (data : bytes) : bytes :=
  let sum := default 0 (cksum16 (icmp_hdr type code 0 values ++ data) (ICMP_HDR_SIZE + Z.of_nat (length data)) 0) in
  icmp_hdr type code sum values ++ data.

Section icmp_proofs.
Context {F : Type} `{SysLaws F} `{IpService F}.
Implicit Types f : F.

Lemma icmp_hdr_bytes type code sum values :
  is_byte type → is_byte code → Forall is_byte (icmp_hdr type code sum values).
Proof. intros. unfold icmp_hdr. repeat (apply Forall_app; split); auto with xv6. Qed.

Lemma icmp_msg_cksum type code values data :
  is_byte type → is_byte code → Forall is_byte data → Z.of_nat (length data) <= 65527 →
  ∃ sum, cksum16 (icmp_hdr type code 0 values ++ data) (ICMP_HDR_SIZE + Z.of_nat (length data)) 0 = Some sum ∧
    blit (icmp_hdr type code 0 values ++ data) 2 (le_bytes 2 sum) = Some (icmp_msg type code values data) ∧
    (∀ junk, cksum16 (icmp_msg type code values data ++ junk) (ICMP_HDR_SIZE + Z.of_nat (length data)) 0 = Some 0) ∧
    icmp_msg type code values data = icmp_hdr type code sum values ++ data ∧ in_range 16 sum.
Proof.
  intros Ht Hc Hd Hl.
  destruct (message_cksum [type; code] (le_bytes 4 values ++ data) 0) as (sum & E1 & E2 & E3 & E4).
  - apply Forall_cons_2; [done|]. by apply Forall_singleton.
  - apply Forall_app; auto with xv6.
  - done.
  - rewrite length_app. cbn. lia.
  - lia.
  - assert (Z.of_nat (length [type; code]) + 2 + Z.of_nat (length (le_bytes 4 values ++ data)) =
      ICMP_HDR_SIZE + Z.of_nat (length data)) as Hlen by (rewrite length_app; unfold ICMP_HDR_SIZE; cbn; lia).
    rewrite Hlen in *. change ([type; code] ++ le_bytes 2 0 ++ le_bytes 4 values ++ data) with (icmp_hdr type code 0 values ++ data) in *.
    exists sum.
    assert (icmp_msg type code values data = icmp_hdr type code sum values ++ data) as Em by (unfold icmp_msg; by rewrite E1).
    rewrite Em. split_and!; [done|done|done|done|done].
Qed.

Lemma icmp_fields type code sum values x :
  in_range 32 values → let m := icmp_hdr type code sum values ++ x in
  load8 0 m = Some type ∧ load8 1 m = Some code ∧ load32 4 m = Some values.
Proof.
  intros Hv m. unfold load. change (Z.of_nat 1) with 1. change (Z.of_nat 4) with 4. split_and!.
  - rewrite (sub_bytes_at m [] [type] ([code] ++ le_bytes 2 sum ++ le_bytes 4 values ++ x)) by done. cbn. f_equal. lia.
  - rewrite (sub_bytes_at m [type] [code] (le_bytes 2 sum ++ le_bytes 4 values ++ x)) by done. cbn. f_equal. lia.
  - rewrite (sub_bytes_at m ([type; code] ++ le_bytes 2 sum) (le_bytes 4 values) x) by done.
    rewrite le_val_bytes. f_equal. by apply wrap_small.
Qed.

Lemma output_run type code values data junk src dst f :
  is_byte type → is_byte code → Forall is_byte data → Z.of_nat (length data) <= 4088 → pages f ≠ 0%nat →
  ∃ f1, pages f = S (pages f1) ∧
    icmp_output type code values (data ++ junk) (Z.of_nat (length data)) src dst f =
      (ret ← ip_send IP_PROTOCOL_ICMP (icmp_msg type code values data) src dst; memory_free ;; mret ret) f1.
Proof.
  intros Ht Hc Hd Hl Hpg. destruct (alloc_some ICMP_BUFSIZ f ltac:(done) Hpg) as (f1 & E1 & P1).
  exists f1. split; [done|]. unfold icmp_output. rewrite (bind_Ret _ _ _ _ _ E1). cbn [negb]. cbv zeta.
  destruct (page_message (icmp_hdr type code 0 values) data) as (b1 & b2 & B1 & B2 & B3).
  { change (length (icmp_hdr type code 0 values)) with 8%nat. unfold PGSIZE. lia. }
  change (Z.of_nat (length (icmp_hdr type code 0 values))) with ICMP_HDR_SIZE in *.
  rewrite B1. erewrite bind_Ret by done.
  rewrite (sub_bytes_at (data ++ junk) [] data junk) by done. erewrite bind_Ret by done.
  rewrite B2. erewrite bind_Ret by done. rewrite B3. erewrite bind_Ret by done.
  destruct (icmp_msg_cksum type code values data Ht Hc Hd ltac:(lia)) as (sum & S1 & S2 & _).
  rewrite S1. erewrite bind_Ret by done. rewrite S2. by erewrite bind_Ret by done.
Qed.

(** [ping]: a message [icmp_output] builds as an echo request is answered by
    [icmp_input] of its receiver, from the receiving interface's address, with an
    echo reply of the same code, identifier and sequence number and the same
    data; the reply's own checksum verifies and no page is kept. *)
Theorem icmp_echo_answered code values data junk src dst ifp u f :
  is_byte code → in_range 32 values → Forall is_byte data → Z.of_nat (length data) <= 4088 →
  iface_unicast ifp f = Ret (u, f) → pages f ≠ 0%nat →
  let reply := icmp_msg ICMP_TYPE_ECHOREPLY code values data in
  cksum16 reply (Z.of_nat (length reply)) 0 = Some 0 ∧
  ∃ f1, pages f = S (pages f1) ∧
    icmp_input (icmp_msg ICMP_TYPE_ECHO code values data ++ junk) (8 + Z.of_nat (length data)) src dst ifp f =
      (ip_send IP_PROTOCOL_ICMP reply u src ;; memory_free) f1.
Proof.
  intros Hc Hv Hd Hl Hu Hpg reply.
  assert (is_byte ICMP_TYPE_ECHOREPLY) as Hr by (split; [discriminate|reflexivity]).
  assert (is_byte ICMP_TYPE_ECHO) as He by (split; [discriminate|reflexivity]). split.
  - destruct (icmp_msg_cksum _ code values data Hr Hc Hd ltac:(lia)) as (sum & _ & _ & E1 & E2 & _).
    specialize (E1 []). rewrite app_nil_r in E1.
    replace (Z.of_nat (length reply)) with (ICMP_HDR_SIZE + Z.of_nat (length data)); [exact E1|].
    subst reply. rewrite E2, length_app. change (length (icmp_hdr _ _ _ _)) with 8%nat. unfold ICMP_HDR_SIZE. lia.
  - destruct (output_run ICMP_TYPE_ECHOREPLY code values data junk u src f Hr Hc Hd Hl Hpg) as (f1 & P1 & E1).
    exists f1. split; [done|]. unfold icmp_input. unfold ICMP_HDR_SIZE at 1.
    destruct (Z.ltb_spec (8 + Z.of_nat (length data)) 8); [lia|].
    destruct (icmp_msg_cksum _ code values data He Hc Hd ltac:(lia)) as (sum & _ & _ & E2 & E3 & _).
    unfold ICMP_HDR_SIZE in E2. rewrite E2, E3, <- app_assoc.
    erewrite bind_Ret by done. change (negb (0 =? 0)) with false. cbv iota.
    destruct (icmp_fields ICMP_TYPE_ECHO code sum values (data ++ junk) Hv) as (F1 & F2 & F3).
    rewrite F1. erewrite bind_Ret by done. change (ICMP_TYPE_ECHO =? ICMP_TYPE_ECHO) with true. cbv iota.
    rewrite F2. erewrite bind_Ret by done. rewrite F3. erewrite bind_Ret by done.
    rewrite (bind_Ret _ _ _ _ _ Hu).
    change (drop 8 (icmp_hdr ICMP_TYPE_ECHO code sum values ++ data ++ junk)) with (data ++ junk).
    replace (8 + Z.of_nat (length data) - ICMP_HDR_SIZE) with (Z.of_nat (length data)) by (unfold ICMP_HDR_SIZE; lia).
    unfold mbind at 1, M_bind at 1. rewrite E1. unfold mbind, M_bind.
    destruct (ip_send _ _ _ _ f1) as [[r f2]| | | |]; try done. cbn. by destruct (memory_free f2) as [[[] f3]| | | |].
Qed.

(** The length [ip_input] computes when a packet's total length is less than
    its header length: the checksum reads past the end of the packet. *)
Lemma icmp_input_overread data k src dst ifp f :
  1 <= k <= 60 → Z.of_nat (length data) < 65536 - k - 1 →
  icmp_input data (2 ^ 64 - k) src dst ifp f = Fault.
Proof.
  intros Hk Hl. unfold icmp_input. unfold ICMP_HDR_SIZE at 1. destruct (Z.ltb_spec (2 ^ 64 - k) 8); [lia|].
  assert (cksum16 data (2 ^ 64 - k) 0 = None) as ->; [|done].
  unfold cksum16. replace (u16 (2 ^ 64 - k)) with (65536 - k).
  2: { unfold wrap. replace (2 ^ 64 - k) with ((65536 - k) + (2 ^ 48 - 1) * 65536) by lia. change (2 ^ 16) with 65536.
       rewrite Z_mod_plus_full, Z.mod_small; lia. }
  assert (∀ p count sum, (length p + 1 < count)%nat → cksum_words p count sum = None) as Hn; [|by rewrite Hn by lia].
  clear. intros p. induction p as [|b|b0 b1 p IH] using words_ind; intros [|[|count]] sum Hc; simpl in Hc; try lia; try done.
  cbn [cksum_words]. apply IH. lia.
Qed.
End icmp_proofs.

(** ** Echo over IP *)

Section icmp_ip.
Context {H E F : Type} `{SysLaws E} `{DevOps E} `{Inside (net H * E) F} `{Resolver F} `{SysIf F}.
Context (call : H → bytes → Z → Z → Z → Z → M (ip H * F) ()).

(** A packet for this host whose header is right but for a total length less
    than the header's takes the kernel down: [ip_input] passes the difference,
    a number near 2^64, and [icmp_input] sums up memory past the packet. *)
Theorem icmp_short_total_faults icmp total id src dst x dev ifp i o (f : F) :
  (∀ data len src dst ifp, call icmp data len src dst ifp = icmp_input data len src dst ifp) →
  in_range 32 src → in_range 32 dst → 0 <= total < 20 → Z.of_nat (length x) < 65515 →
  net_device_get_iface dev NET_IFACE_FAMILY_IP (iget (P := net H * E) f) = Ret (Some ifp, iget f) →
  ifs (iget (P := net H * E) f).1 !! ifp = Some i → dst = unicast i →
  List.find (λ p, ip_type p =? IP_PROTOCOL_ICMP) (ip_protocols o) = Some (IpProto IP_PROTOCOL_ICMP icmp) →
  ∃ sum, cksum16 (ip_hdr total id 0 IP_PROTOCOL_ICMP 0 src dst) IP_HDR_SIZE_MIN 0 = Some sum ∧
    ip_input call (ip_hdr total id 0 IP_PROTOCOL_ICMP sum src dst ++ x) dev (o, f) = Fault.
Proof.
  intros Hcall Hsrc Hdst Ht Hl Hget Hif Hu Hp.
  destruct (accept_hdr IP_PROTOCOL_ICMP total id src dst x dev ifp i _ o f ltac:(split; [discriminate|reflexivity])
    Hsrc Hdst ltac:(unfold in_range; lia) ltac:(lia) Hget Hif (or_introl Hu) Hp) as (sum & f' & S1 & L & E1).
  exists sum. split; [done|]. unfold ip_input. erewrite bind_Ret; [|apply inside_Ret; exact E1].
  cbv beta iota. cbn [ip_handler]. rewrite Hcall.
  assert (u64 (total - 20) = 2 ^ 64 - (20 - total)) as ->.
  { unfold wrap. replace (total - 20) with ((2 ^ 64 - (20 - total)) + (-1) * 2 ^ 64) by lia.
    rewrite Z_mod_plus_full, Z.mod_small; lia. }
  apply icmp_input_overread; lia.
Qed.
End icmp_ip.

Section icmp_witnesses.
#[local] Existing Instances quiet_driver known_neighbour.

Lemma icmp_echo_answered_witness :
  ∃ f1, icmp_input (icmp_msg ICMP_TYPE_ECHO 0 0x07000001 [104; 105] ++ replicate 16 0) 10 0x0100000a 0x0200000a 50 (lan_ip, lan_net 2) =
      (ip_send IP_PROTOCOL_ICMP (icmp_msg ICMP_TYPE_ECHOREPLY 0 0x07000001 [104; 105]) 0x0200000a 0x0100000a ;; memory_free) f1.
Proof.
  destruct (icmp_echo_answered (F := ip nat * (net nat * sys)) 0 0x07000001 [104; 105] (replicate 16 0) 0x0100000a 0x0200000a 50
    0x0200000a (lan_ip, lan_net 2)) as (_ & f1 & _ & E1).
  - split; [discriminate|reflexivity].
  - split; [discriminate|reflexivity].
  - repeat constructor; discriminate.
  - discriminate.
  - vm_compute. reflexivity.
  - discriminate.
  - exists f1. exact E1.
Defined.

Lemma icmp_short_total_faults_witness :
  ∃ sum, ip_input (H := nat) (E := sys) (F := net nat * sys) (λ _ data len src dst ifp, icmp_input data len src dst ifp)
    (ip_hdr 0 1 0 IP_PROTOCOL_ICMP sum 0x0100000a 0x0200000a ++ [8; 0; 0; 0]) 0 (lan_ip, lan_net 2) = Fault.
Proof.
  destruct (icmp_short_total_faults (H := nat) (E := sys) (F := net nat * sys)
    (λ _ data len src dst ifp, icmp_input data len src dst ifp) 8%nat 0 1 0x0100000a 0x0200000a [8; 0; 0; 0] 0 50 (lan_if 2)
    lan_ip (lan_net 2)) as (sum & _ & E1).
  - done.
  - split; [discriminate|reflexivity].
  - split; [discriminate|reflexivity].
  - lia.
  - cbn. lia.
  - vm_compute. reflexivity.
  - reflexivity.
  - reflexivity.
  - reflexivity.
  - exists sum. exact E1.
Defined.
End icmp_witnesses.
