(* ===== verification/Udp.v ===== *)
(** * UDP: [net/udp.c]

    The state is the table of protocol control blocks. A call runs on it and on
    the layers below, of which it uses the pages and the IP layer. The calls
    hold the mutex except in [sched_sleep], where [udp_recvfrom] is cut: the
    part up to the sleep, and [udp_recv_wake] from the wake-up on. *)
From S2P Require Import Prelude NetUtil NetSys NetDev NetAddr Ip Transport.

Definition UDP_PCB_SIZE : Z := 16.
Definition UDP_PCB_STATE_FREE : Z := 0.
Definition UDP_PCB_STATE_OPEN : Z := 1.
Definition UDP_PCB_STATE_CLOSING : Z := 2.
Definition UDP_SOURCE_PORT_MIN : Z := 49152.
Definition UDP_SOURCE_PORT_MAX : Z := 65535.
Definition UDP_HDR_SIZE : Z := 8.
Definition IP_PAYLOAD_SIZE_MAX : Z := IP_TOTAL_SIZE_MAX - IP_HDR_SIZE_MIN.

(** [struct udp_queue_entry]; [e_data] has [e_len] bytes. *)
Record udp_queue_entry := UEntry { e_foreign : ip_endpoint; e_len : Z; e_data : bytes }.
Record udp_pcb := UPcb { u_state : Z; u_local : ip_endpoint; u_queue : list udp_queue_entry; u_ctx : sched_ctx }.
Definition udp_boot : list udp_pcb :=
  replicate (Z.to_nat UDP_PCB_SIZE) (UPcb UDP_PCB_STATE_FREE (EP 0 0) [] sched_ctx_init).

Definition u_set_state v p := UPcb v (u_local p) (u_queue p) (u_ctx p).
Definition u_set_local v p := UPcb (u_state p) v (u_queue p) (u_ctx p).
Definition u_set_queue v p := UPcb (u_state p) (u_local p) v (u_ctx p).
Definition u_set_ctx v p := UPcb (u_state p) (u_local p) (u_queue p) v.

(** [struct udp_hdr]. *)
Definition udp_hdr (src dst len sum : Z) : bytes := le_bytes 2 src ++ le_bytes 2 dst ++ le_bytes 2 len ++ le_bytes 2 sum.

(** Which control block a datagram is for. *)
Definition udp_match (a port : Z) (p : udp_pcb) : Prop :=
  u_state p = UDP_PCB_STATE_OPEN ∧
  (ep_addr (u_local p) = IP_ADDR_ANY ∨ ep_addr (u_local p) = a) ∧ ep_port (u_local p) = port.
#[global] Instance udp_match_dec a port p : Decision (udp_match a port p).
Proof. apply _. Defined.

Section udp.
Context {F : Type} `{SysIf F} `{IpService F}.
Abbreviation UM := (M (list udp_pcb * F)).

(** ** Control blocks *)

Definition udp_pcb_alloc : UM (option nat) :=
  o ← own (list_find (λ p, u_state p = UDP_PCB_STATE_FREE));
  match o with
  | None => mret None
  | Some (id, _) => pcb_upd id (λ p, u_set_ctx sched_ctx_init (u_set_state UDP_PCB_STATE_OPEN p)) ;; mret (Some id)
  end.

(** [queue_pop] frees the queue's node, the loop the datagram. *)
Definition udp_discard (q : list udp_queue_entry) : UM () := mapM_ (λ _, memory_free ;; memory_free) q.

Definition udp_pcb_release (id : nat) : UM () :=
  pcb_upd id (u_set_state UDP_PCB_STATE_CLOSING) ;;
  p ← pcb_at id;
  if sched_ctx_destroy (u_ctx p) =? -1 then mret () else
  pcb_upd id (λ p, u_set_local (EP IP_ADDR_ANY 0) (u_set_state UDP_PCB_STATE_FREE p)) ;;
  udp_discard (u_queue p) ;;
  pcb_upd id (u_set_queue []).

Definition udp_pcb_select (a port : Z) : UM (option nat) :=
  own (λ l, fst <$> list_find (udp_match a port) l).

Definition udp_pcb_get (id : Z) : UM (option nat) :=
  if (id <? 0) || (UDP_PCB_SIZE <=? id) then mret None else
  p ← pcb_at (Z.to_nat id);
  if negb (u_state p =? UDP_PCB_STATE_OPEN) then mret None else mret (Some (Z.to_nat id)).

(** ** Input and output *)

Definition udp_input (data : bytes) (len src dst ifp : Z) : UM () :=
  if len <? UDP_HDR_SIZE then mret () else
  l ← oget (load16 4 data);
  if negb (len =? ntoh16 l) then mret () else
  psum ← oget (pseudo_sum src dst IP_PROTOCOL_UDP len);
  sum ← oget (cksum16 data len psum);
  if negb (sum =? 0) then mret () else
  sport ← oget (load16 0 data);
  dport ← oget (load16 2 data);
  o ← udp_pcb_select dst dport;
  match o with
  | None => mret ()
  | Some id =>
      b ← memory_alloc (12 + (len - UDP_HDR_SIZE));
      if negb b then mret () else
      let n := u16 (len - UDP_HDR_SIZE) in
      payload ← oget (sub_bytes data 8 n);
      p ← pcb_at id;
      '(q, pushed) ← qpush (u_queue p) (UEntry (EP src sport) n payload);
      if negb pushed then mret () else
      pcb_upd id (u_set_queue q)
  end.

(** The buffer is a page; no byte of it is read before it is written. *)
Definition udp_output (src dst : ip_endpoint) (data : bytes) : UM Z :=
  let len := Z.of_nat (length data) in
  b ← memory_alloc IP_PAYLOAD_SIZE_MAX;
  if negb b then mret (-1) else
  if IP_PAYLOAD_SIZE_MAX - UDP_HDR_SIZE <? len then memory_free ;; mret (-1) else
  let buf := replicate (Z.to_nat PGSIZE) 0 in
  let total := u16 (UDP_HDR_SIZE + len) in
  buf ← oget (blit buf 0 (udp_hdr (ep_port src) (ep_port dst) (hton16 total) 0));
  buf ← oget (blit buf UDP_HDR_SIZE data);
  psum ← oget (pseudo_sum (ep_addr src) (ep_addr dst) IP_PROTOCOL_UDP total);
  msg ← oget (sub_bytes buf 0 total);
  sum ← oget (cksum16 msg total psum);
  msg ← oget (blit msg 6 (le_bytes 2 sum));
  r ← up (ip_send IP_PROTOCOL_UDP msg (ep_addr src) (ep_addr dst));
  if r =? -1 then memory_free ;; mret (-1) else
  memory_free ;; mret len.

Definition event_handler : UM () :=
  own_set (map (λ p, if u_state p =? UDP_PCB_STATE_OPEN then u_set_ctx (sched_interrupt (u_ctx p)) p else p)).

(** ** Calls *)

Definition udp_open : UM Z :=
  o ← udp_pcb_alloc;
  match o with None => mret (-1) | Some id => mret (Z.of_nat id) end.

Definition udp_close (id : Z) : UM Z :=
  o ← udp_pcb_get id;
  match o with None => mret (-1) | Some pcb => udp_pcb_release pcb ;; mret 0 end.

Definition udp_bind (id : Z) (local : ip_endpoint) : UM Z :=
  o ← udp_pcb_get id;
  match o with
  | None => mret (-1)
  | Some pcb =>
      exist ← udp_pcb_select (ep_addr local) (ep_port local);
      match exist with
      | Some _ => mret (-1)
      | None => pcb_upd pcb (u_set_local local) ;; mret 0
      end
  end.

(** The search for a source port from [p] on; [n] ports are left. *)
Fixpoint udp_assign_port (n : nat) (p a : Z) : UM (option Z) :=
  match n with
  | O => mret None
  | S n =>
      o ← udp_pcb_select a (hton16 p);
      match o with None => mret (Some (hton16 p)) | Some _ => udp_assign_port n (p + 1) a end
  end.
Definition udp_source_ports : nat := Z.to_nat (UDP_SOURCE_PORT_MAX - UDP_SOURCE_PORT_MIN + 1).

(** [udp_sendto] in the critical section: the source endpoint. *)
Definition udp_send_local (id : Z) (foreign : ip_endpoint) : UM (option ip_endpoint) :=
  o ← udp_pcb_get id;
  match o with
  | None => mret None
  | Some pcb =>
      p ← pcb_at pcb;
      la ← (if ep_addr (u_local p) =? IP_ADDR_ANY then
              ifp ← up (ip_iface_for (ep_addr foreign));
              match ifp with None => mret None | Some ifp => a ← up (iface_unicast ifp); mret (Some a) end
            else mret (Some (ep_addr (u_local p))));
      match la with
      | None => mret None
      | Some la =>
          if negb (ep_port (u_local p) =? 0) then mret (Some (EP la (ep_port (u_local p)))) else
          port ← udp_assign_port udp_source_ports UDP_SOURCE_PORT_MIN la;
          match port with
          | None => mret None
          | Some port =>
              pcb_upd pcb (λ p, u_set_local (EP (ep_addr (u_local p)) port) p) ;;
              if port =? 0 then mret None else mret (Some (EP la port))
          end
      end
  end.
Definition udp_sendto (id : Z) (data : bytes) (foreign : ip_endpoint) : UM Z :=
  o ← udp_send_local id foreign;
  match o with None => mret (-1) | Some local => udp_output local foreign data end.

(** The loop of [udp_recvfrom] up to a sleep or the end: the sender and the
    bytes copied to the caller; [None] stands for the return value -1. *)
Definition udp_recv_loop (pcb : nat) (size : Z) : UM (call nat (option (ip_endpoint * bytes))) :=
  p ← pcb_at pcb;
  '(q, o) ← qpop (u_queue p);
  match o with
  | Some e =>
      pcb_upd pcb (u_set_queue q) ;;
      d ← oget (sub_bytes (e_data e) 0 (Z.min size (e_len e)));
      memory_free ;;
      mret (Returns (Some (e_foreign e, d)))
  | None =>
      match sched_sleep_enter (u_ctx p) with
      | None => mret (Returns None)
      | Some c => pcb_upd pcb (u_set_ctx c) ;; mret (Sleeps pcb)
      end
  end.
Definition udp_recvfrom (id size : Z) : UM (call nat (option (ip_endpoint * bytes))) :=
  o ← udp_pcb_get id;
  match o with None => mret (Returns None) | Some pcb => udp_recv_loop pcb size end.
Definition udp_recv_wake (pcb : nat) (size : Z) : UM (call nat (option (ip_endpoint * bytes))) :=
  p ← pcb_at pcb;
  let '(err, c) := sched_sleep_leave (u_ctx p) in
  pcb_upd pcb (u_set_ctx c) ;;
  if negb (err =? 0) then mret (Returns None) else
  if u_state p =? UDP_PCB_STATE_CLOSING then udp_pcb_release pcb ;; mret (Returns None) else
  udp_recv_loop pcb size.
End udp.

Definition udp_init {H E F} `{SysIf E} `{DevOps E} `{Inside (net H * E) F} (input events : H) : M (ip H * F) Z :=
  r ← ip_protocol_register IP_PROTOCOL_UDP input;
  if r =? -1 then mret (-1) else
  ipnet (net_event_subscribe events 0) ;; mret 0.

(** ** The control blocks are well formed *)

(** A free block is unbound, empty and nobody waits on it. *)
Definition entry_ok (e : udp_queue_entry) : Prop := e_len e = Z.of_nat (length (e_data e)).
Definition pcb_ok (p : udp_pcb) : Prop :=
  Forall entry_ok (u_queue p) ∧
  (u_state p = UDP_PCB_STATE_FREE ∧ u_local p = EP 0 0 ∧ u_queue p = [] ∧ wc (u_ctx p) = 0 ∨
   u_state p = UDP_PCB_STATE_OPEN ∨ u_state p = UDP_PCB_STATE_CLOSING).

(** [sl] are the blocks on which processes sleep in [udp_recvfrom]. *)
Definition waiters (sl : list nat) (id : nat) : Z := Z.of_nat (count_occ Nat.eq_dec sl id).
Record udp_ok (l : list udp_pcb) (sl : list nat) : Prop := {
  ok_len : length l = 16%nat;
  ok_pcb id p : l !! id = Some p → pcb_ok p ∧ wc (u_ctx p) = waiters sl id;
  ok_uniq i j p q : l !! i = Some p → l !! j = Some q →
    u_state p = UDP_PCB_STATE_OPEN → u_state q = UDP_PCB_STATE_OPEN →
    u_local p = u_local q → ep_port (u_local p) ≠ 0 → i = j;
}.

Lemma waiters_cons sl i j : waiters (i :: sl) j = waiters sl j + (if decide (i = j) then 1 else 0).
Proof. unfold waiters. cbn. destruct (Nat.eq_dec i j), (decide (i = j)); lia. Qed.
Lemma waiters_nonneg sl i : 0 <= waiters sl i.
Proof. unfold waiters. lia. Qed.

(** Changing one block. *)
Lemma udp_ok_upd l sl sl' id p p' :
  udp_ok l sl → l !! id = Some p → pcb_ok p' → wc (u_ctx p') = waiters sl' id →
  (∀ j, j ≠ id → waiters sl' j = waiters sl j) →
  (u_state p' = UDP_PCB_STATE_OPEN → ep_port (u_local p') ≠ 0 →
   ∀ j q, j ≠ id → l !! j = Some q → u_state q = UDP_PCB_STATE_OPEN → u_local q ≠ u_local p') →
  udp_ok (<[id := p']> l) sl'.
Proof.
  intros [Hl Hp Hu] Hid Hok Hwc Hsl Huniq. pose proof (lookup_lt_Some _ _ _ Hid) as Hlt. constructor.
  - by rewrite length_insert.
  - intros j q. destruct (decide (j = id)) as [->|Hne].
    + rewrite list_lookup_insert_eq by done. by intros [= <-].
    + rewrite list_lookup_insert_ne by done. intros Hq. destruct (Hp _ _ Hq) as [? ->]. by rewrite Hsl.
  - intros i j q1 q2 Hi Hj O1 O2 E1 E2. destruct (decide (i = id)) as [->|Hi'], (decide (j = id)) as [->|Hj']; [done| | |].
    + rewrite list_lookup_insert_eq in Hi by done. rewrite list_lookup_insert_ne in Hj by done. injection Hi as <-.
      exfalso. by apply (Huniq O1 E2 j q2).
    + rewrite list_lookup_insert_eq in Hj by done. rewrite list_lookup_insert_ne in Hi by done. injection Hj as <-.
      exfalso. apply (Huniq O2 ltac:(congruence) i q1); congruence.
    + rewrite list_lookup_insert_ne in Hi, Hj by done. by eapply Hu.
Qed.

(** When state, address and waiters stay. *)
Lemma udp_ok_keep l sl id p p' :
  udp_ok l sl → l !! id = Some p → u_state p' = u_state p → u_local p' = u_local p → wc (u_ctx p') = wc (u_ctx p) →
  Forall entry_ok (u_queue p') → (u_state p = UDP_PCB_STATE_FREE → u_queue p' = []) →
  udp_ok (<[id := p']> l) sl.
Proof.
  intros Hok Hid E1 E2 E3 E4 E5. destruct (ok_pcb _ _ Hok _ _ Hid) as [[_ Hp] Hwc].
  eapply udp_ok_upd; [done|done| |congruence|done|].
  - split; [done|]. rewrite E1, E2, E3. destruct Hp as [(? & ? & ? & ?)|Hp]; [|tauto]. left. auto.
  - rewrite E1, E2. intros O1 E6 j q Hj Hq O2 E7. apply Hj. symmetry. eapply (ok_uniq _ _ Hok id j); eauto.
Qed.

(** The outcome of a call that may wait, among the sleepers. *)
Definition asleep {A} (r : call nat A) (sl : list nat) : list nat := match r with Sleeps id => id :: sl | Returns _ => sl end.

Section udp_invariant.
Context {F : Type} `{SysIf F} `{IpService F}.
Implicit Types (l : list udp_pcb) (sl : list nat) (f : F).

Definition keeps_ok {A} (m : M (list udp_pcb * F) A) : Prop :=
  ∀ l sl f, udp_ok l sl → may m (l, f) (λ _ s, udp_ok s.1 sl).

Lemma alloc_ok l sl f : udp_ok l sl → may udp_pcb_alloc (l, f) (λ _ s, udp_ok s.1 sl).
Proof.
  intros Hok. unfold udp_pcb_alloc. do 2 mstep. mstep; [|by mstep]. destruct p as [id p].
  apply list_find_Some in Ha as (Hid & Hfree & _). do 3 mstep. cbn [fst].
  destruct (ok_pcb _ _ Hok _ _ Hpcb) as [[Hq Hp] Hwc]. assert (pcb = p) as -> by congruence.
  destruct Hp as [(? & Hl & ? & ?)|[?|?]]; [|unfold UDP_PCB_STATE_FREE, UDP_PCB_STATE_OPEN, UDP_PCB_STATE_CLOSING in *; lia..].
  eapply udp_ok_upd; [done|done| | |done|].
  - split; [done|]. right; left. done.
  - cbn. congruence.
  - cbn. rewrite Hl. intros _ E. by cbn in E.
Qed.

Lemma release_ok l sl f id :
  udp_ok l sl → may (udp_pcb_release id) (l, f) (λ _ s, udp_ok s.1 sl).
Proof.
  intros Hok. unfold udp_pcb_release. do 2 mstep. destruct (ok_pcb _ _ Hok _ _ Hpcb) as [[Hq Hp] Hwc].
  pose proof (lookup_lt_Some _ _ _ Hpcb) as Hlt.
  do 2 mstep. rewrite list_lookup_insert_eq in Hpcb0 by done. injection Hpcb0 as <-. cbn [u_set_state u_ctx].
  assert (udp_ok (<[id := u_set_state UDP_PCB_STATE_CLOSING pcb]> l) sl) as Hok1.
  { eapply udp_ok_upd; [done|done| |done|done|].
    - split; [done|]. by right; right.
    - intros O1. exfalso. by cbn in O1. }
  mstep; [by mstep|]. do 3 mstep. apply may_frees. intros f'. mstep. cbn [fst].
  rewrite list_lookup_insert_eq in Hpcb0 by done. injection Hpcb0 as <-.
  rewrite list_lookup_insert_eq in Hpcb1 by (by rewrite length_insert). injection Hpcb1 as <-.
  rewrite !list_insert_insert_eq. eapply udp_ok_upd; [done|done| |done|done|].
  - split; [constructor|]. left. split_and!; try done. cbn. unfold sched_ctx_destroy in Ha.
    destruct (Z.eqb_spec (wc (u_ctx pcb)) 0); [done|lia].
  - intros O1. exfalso. by cbn in O1.
Qed.

Lemma udp_select_None l a port : fst <$> list_find (udp_match a port) l = None → Forall (λ p, ¬ udp_match a port p) l.
Proof. destruct (list_find _ l) as [[id p]|] eqn:Hf; [done|]. intros _. by apply list_find_None in Hf. Qed.

Lemma udp_select_Some l a port id : fst <$> list_find (udp_match a port) l = Some id →
  ∃ p, l !! id = Some p ∧ udp_match a port p.
Proof. intros ([i p] & Hf & ->)%fmap_Some. apply list_find_Some in Hf as (? & ? & _). eauto. Qed.

Lemma get_run id p l f :
  l !! id = Some p → u_state p = UDP_PCB_STATE_OPEN → (id < 16)%nat →
  udp_pcb_get (Z.of_nat id) (l, f) = Ret (Some id, (l, f)).
Proof.
  intros Hid Hopen Hlt. unfold udp_pcb_get. destruct (Z.ltb_spec (Z.of_nat id) 0); [lia|].
  destruct (Z.leb_spec UDP_PCB_SIZE (Z.of_nat id)); [unfold UDP_PCB_SIZE in *; lia|]. cbn [orb].
  rewrite Nat2Z.id. by rewrite (bind_Ret _ _ _ _ _ (pcb_at_Ret _ _ _ _ Hid)), Hopen.
Qed.

Lemma get_ok id l f : may (udp_pcb_get id) (l, f) (λ o s,
  s = (l, f) ∧ ∀ pcb, o = Some pcb → ∃ p, l !! pcb = Some p ∧ u_state p = UDP_PCB_STATE_OPEN).
Proof.
  unfold udp_pcb_get. mstep; [by mstep|]. do 3 mstep; [by mstep|]. mstep. split; [done|]. intros ? [= <-].
  eexists. split; [done|lia].
Qed.

Lemma input_ok l sl f data len src dst ifp :
  udp_ok l sl → may (udp_input data len src dst ifp) (l, f) (λ _ s, udp_ok s.1 sl).
Proof.
  intros Hok. unfold udp_input. mstep; [by mstep|]. do 3 mstep; [by mstep|]. do 5 mstep; [by mstep|]. do 5 mstep.
  unfold udp_pcb_select. mstep. mstep; [|by mstep]. do 3 mstep; [by mstep|]. do 5 mstep. mstep.
  - cbn [negb]. mstep. cbn [fst]. assert (pcb0 = pcb) as -> by congruence.
    destruct (ok_pcb _ _ Hok _ _ Hpcb) as [[Hq Hp] Hwc].
    assert (udp_match dst a3 pcb) as (Hopen & _).
    { apply udp_select_Some in Ha7 as (p & Hp' & ?). congruence. }
    apply udp_ok_keep with (p := pcb); [done|done|done|done|done| |].
    + cbn. apply Forall_app. split; [done|]. apply Forall_singleton. unfold entry_ok. cbn.
      by apply length_sub_bytes in Ha9.
    + intros E. unfold UDP_PCB_STATE_FREE, UDP_PCB_STATE_OPEN in *. lia.
  - cbn [negb]. by mstep.
Qed.

Lemma output_keeps src dst data l f : may (udp_output src dst data) (l, f) (λ _ s, s.1 = l).
Proof.
  unfold udp_output. do 3 mstep; [by mstep|]. mstep; [by do 3 mstep|]. do 14 mstep; by do 3 mstep.
Qed.

Lemma event_ok l sl : udp_ok l sl →
  udp_ok (map (λ p, if u_state p =? UDP_PCB_STATE_OPEN then u_set_ctx (sched_interrupt (u_ctx p)) p else p) l) sl.
Proof.
  intros [Hl Hp Hu]. set (g := λ p, _). change (map g l) with (g <$> l).
  assert (Hg : ∀ p, u_state (g p) = u_state p ∧ u_local (g p) = u_local p ∧ u_queue (g p) = u_queue p ∧ wc (u_ctx (g p)) = wc (u_ctx p)).
  { intros p. subst g. cbv beta. by destruct (u_state p =? UDP_PCB_STATE_OPEN). }
  constructor.
  - by rewrite length_fmap.
  - intros id p. rewrite list_lookup_fmap. intros (p0 & E1 & E2)%fmap_Some. subst p.
    destruct (Hp _ _ E1) as [H1 H2]. destruct (Hg p0) as (G1 & G2 & G3 & G4). unfold pcb_ok. by rewrite G1, G2, G3, G4.
  - intros i j p q. rewrite !list_lookup_fmap. intros (p0 & E1 & E2)%fmap_Some (q0 & E3 & E4)%fmap_Some. subst p q.
    destruct (Hg p0) as (G1 & G2 & _). destruct (Hg q0) as (G3 & G4 & _). rewrite G1, G2, G3, G4. by apply Hu.
Qed.

Lemma bind_ok l sl f id local : udp_ok l sl → may (udp_bind id local) (l, f) (λ _ s, udp_ok s.1 sl).
Proof.
  intros Hok. unfold udp_bind. mstep. eapply may_mono; [apply get_ok|]. intros o s [-> Ho]. cbv beta.
  destruct o as [id'|]; [|by mstep]. destruct (Ho _ eq_refl) as (p & Hid & Hopen).
  mstep. unfold udp_pcb_select. mstep. mstep; [by mstep|]. do 3 mstep. cbn [fst]. apply udp_select_None in Ha.
  assert (pcb = p) as -> by congruence. destruct (ok_pcb _ _ Hok _ _ Hid) as [[Hq Hp] Hwc].
  eapply udp_ok_upd; [done|done| |done|done|].
  - split; [done|]. by right; left.
  - cbn. intros _ Hport j q Hj Hl Hq' E. rewrite Forall_lookup in Ha. apply (Ha _ _ Hl). unfold udp_match. rewrite E. auto.
Qed.

Lemma assign_run n p a l f : ∃ k, (k <= n)%nat ∧
  (∀ j, (j < k)%nat → ∃ q, q ∈ l ∧ ep_port (u_local q) = hton16 (p + Z.of_nat j)) ∧
  udp_assign_port n p a (l, f) = Ret (if decide (k = n) then None else Some (hton16 (p + Z.of_nat k)), (l, f)) ∧
  ((k < n)%nat → Forall (λ q, ¬ udp_match a (hton16 (p + Z.of_nat k)) q) l).
Proof.
  revert p. induction n as [|n IH]; intros p; cbn [udp_assign_port].
  { exists 0%nat. split_and!; [done|lia|done|lia]. }
  unfold udp_pcb_select. erewrite bind_Ret by done. cbn [fst].
  destruct (fst <$> list_find _ l) as [id|] eqn:Hs.
  - destruct (IH (p + 1)) as (k & Hk & Hj & E1 & Hn). exists (S k). split; [lia|].
    assert (∃ q, q ∈ l ∧ ep_port (u_local q) = hton16 p) as Hq.
    { apply udp_select_Some in Hs as (q & Hi & Hm). exists q. split; [by eapply list_elem_of_lookup_2|]. by destruct Hm as (_ & _ & ?). }
    replace (p + Z.of_nat (S k)) with (p + 1 + Z.of_nat k) by lia. split_and!.
    + intros [|j] Hlt; [by rewrite Z.add_0_r|]. destruct (Hj j ltac:(lia)) as (q & ? & Eq).
      exists q. split; [done|]. rewrite Eq. f_equal. lia.
    + rewrite E1. do 2 f_equal. repeat case_decide; (done || lia).
    + intros Hlt. apply Hn. lia.
  - exists 0%nat. rewrite Z.add_0_r. split_and!; [lia|lia| |].
    + by rewrite decide_False by lia.
    + intros _. by apply udp_select_None in Hs.
Qed.

Lemma assign_may n p a l f :
  may (udp_assign_port n p a) (l, f) (λ o s, s = (l, f) ∧ ∀ port, o = Some port → Forall (λ q, ¬ udp_match a port q) l).
Proof.
  destruct (assign_run n p a l f) as (k & Hk & _ & E1 & Hn). unfold may. rewrite E1. split; [done|].
  intros port. case_decide; [done|]. intros [= <-]. apply Hn. lia.
Qed.

Lemma send_local_ok l sl f id foreign : udp_ok l sl → may (udp_send_local id foreign) (l, f) (λ _ s, udp_ok s.1 sl).
Proof.
  intros Hok. unfold udp_send_local. mstep. eapply may_mono; [apply get_ok|]. intros o s [-> Ho]. cbv beta.
  destruct o as [id'|]; [|by mstep]. destruct (Ho _ eq_refl) as (p & Hid & Hopen). do 2 mstep.
  assert (pcb = p) as -> by congruence. clear Hpcb. mstep.
  apply may_mono with (P := λ la s, s.1 = l ∧ ∀ a, la = Some a → ep_addr (u_local p) = IP_ADDR_ANY ∨ ep_addr (u_local p) = a).
  { mstep; [|mstep; split; [done|]; intros ? [=]; by right]. do 2 mstep. mstep; [|by mstep].
    do 3 mstep. split; [done|]. intros ? _. left. lia. }
  intros la [l' f'] [E Hla]. cbn [fst] in E. subst l'. destruct la as [la|]; [|by mstep].
  mstep; [by mstep|]. mstep. eapply may_mono; [apply assign_may|]. intros o s [-> Hport]. cbv beta.
  destruct o as [port|]; [|by mstep]. specialize (Hport _ eq_refl). specialize (Hla _ eq_refl).
  do 2 mstep. assert (pcb = p) as -> by congruence. destruct (ok_pcb _ _ Hok _ _ Hid) as [[Hq Hp] Hwc].
  assert (udp_ok (<[id' := u_set_local (EP (ep_addr (u_local p)) port) p]> l) sl).
  { eapply udp_ok_upd; [done|done| |done|done|].
    - split; [done|]. by right; left.
    - cbn. intros _ Hp0 j q Hj Hl Hq' E. rewrite Forall_lookup in Hport. apply (Hport _ _ Hl). unfold udp_match. rewrite E. cbn. auto. }
  mstep; by mstep.
Qed.

Lemma recv_loop_ok l sl f id size :
  udp_ok l sl → (∀ p, l !! id = Some p → u_state p ≠ UDP_PCB_STATE_FREE) →
  may (udp_recv_loop id size) (l, f) (λ r s, udp_ok s.1 (asleep r sl)).
Proof.
  intros Hok Hst. unfold udp_recv_loop. do 3 mstep. specialize (Hst _ Hpcb).
  destruct (ok_pcb _ _ Hok _ _ Hpcb) as [[Hq Hp] Hwc]. apply may_qpop.
  - intros Hnil. cbv beta iota. mstep; [|by mstep]. do 3 mstep. cbn [fst asleep].
    assert (pcb0 = pcb) as -> by congruence. unfold sched_sleep_enter in Ha. destruct (interrupted _); [done|]. injection Ha as <-.
    eapply udp_ok_upd; [done|done| | | |].
    + split; [done|]. destruct Hp as [(? & _)|Hp]; [done|by right].
    + cbn. rewrite waiters_cons, decide_True by done. lia.
    + intros j Hj. rewrite waiters_cons, decide_False by done. lia.
    + cbn. intros O1 E6 j q Hj Hl O2 E7. apply Hj. eapply (ok_uniq _ _ Hok j id); eauto. congruence.
  - intros e q f' Eq. cbv beta iota. do 7 mstep. cbn [fst asleep]. assert (pcb0 = pcb) as -> by congruence.
    apply udp_ok_keep with (p := pcb); try done. rewrite Eq in Hq. by inversion_clear Hq.
Qed.

Lemma recvfrom_ok l sl f id size :
  udp_ok l sl → may (udp_recvfrom id size) (l, f) (λ r s, udp_ok s.1 (asleep r sl)).
Proof.
  intros Hok. unfold udp_recvfrom. mstep. eapply may_mono; [apply get_ok|]. intros o s [-> Ho]. cbv beta.
  destruct o as [id'|]; [|by mstep]. destruct (Ho _ eq_refl) as (p & Hid & Hopen). apply recv_loop_ok; [done|].
  intros p'. rewrite Hid. intros [= <-]. by rewrite Hopen.
Qed.

Lemma recv_wake_ok l sl f id size :
  udp_ok l (id :: sl) → may (udp_recv_wake id size) (l, f) (λ r s, udp_ok s.1 (asleep r sl)).
Proof.
  intros Hok. unfold udp_recv_wake. do 2 mstep. destruct (sched_sleep_leave (u_ctx pcb)) as [err c] eqn:Hl.
  destruct (ok_pcb _ _ Hok _ _ Hpcb) as [[Hq Hp] Hwc]. rewrite waiters_cons, decide_True in Hwc by done.
  pose proof (waiters_nonneg sl id). do 2 mstep. assert (pcb0 = pcb) as -> by congruence.
  assert (wc c = wc (u_ctx pcb) - 1) as Hc.
  { unfold sched_sleep_leave in Hl. cbn in Hl. destruct (interrupted _); [|by injection Hl as _ <-].
    injection Hl as _ <-. destruct (Z.eqb_spec (wc (u_ctx pcb) - 1) 0); [|done]. cbn. lia. }
  assert (u_state pcb ≠ UDP_PCB_STATE_FREE) as Hst.
  { destruct Hp as [(_ & _ & _ & ?)|[->| ->] ]; [lia|done|done]. }
  assert (udp_ok (<[id := u_set_ctx c pcb]> l) sl) as Hok1.
  { eapply udp_ok_upd; [done|done| | | |].
    - split; [done|]. destruct Hp as [(? & _)|Hp]; [done|by right].
    - cbn. lia.
    - intros j Hj. rewrite waiters_cons, decide_False by done. lia.
    - cbn. intros O1 E6 j q Hj Hl' O2 E7. apply Hj. eapply (ok_uniq _ _ Hok j id); eauto. congruence. }
  mstep; [by mstep|]. mstep.
  - mstep. eapply may_mono; [by apply release_ok|]. intros [] s Hs. by mstep.
  - apply recv_loop_ok; [done|]. intros p. pose proof (lookup_lt_Some _ _ _ Hpcb).
    rewrite list_lookup_insert_eq by done. intros [= <-]. done.
Qed.

(** One call of the component, or its part up to or after a sleep; [us_below] is
    anything the layers below do, [us_wake] a wake-up, deserved or not. *)
Inductive udp_step : (list udp_pcb * F) * list nat → (list udp_pcb * F) * list nat → Prop :=
  | us_open s sl r s' : udp_open s = Ret (r, s') → udp_step (s, sl) (s', sl)
  | us_close id s sl r s' : udp_close id s = Ret (r, s') → udp_step (s, sl) (s', sl)
  | us_bind id local s sl r s' : udp_bind id local s = Ret (r, s') → udp_step (s, sl) (s', sl)
  | us_sendto id data foreign s sl r s' : udp_sendto id data foreign s = Ret (r, s') → udp_step (s, sl) (s', sl)
  | us_input data len src dst ifp s sl r s' : udp_input data len src dst ifp s = Ret (r, s') → udp_step (s, sl) (s', sl)
  | us_event s sl r s' : event_handler s = Ret (r, s') → udp_step (s, sl) (s', sl)
  | us_recv id size s sl r s' : udp_recvfrom id size s = Ret (r, s') → udp_step (s, sl) (s', asleep r sl)
  | us_wake id size s sl sl' r s' :
      sl ≡ₚ id :: sl' → udp_recv_wake id size s = Ret (r, s') → udp_step (s, sl) (s', asleep r sl')
  | us_below f s sl : udp_step (s, sl) ((s.1, f), sl).

Lemma udp_ok_perm l sl sl' : sl ≡ₚ sl' → udp_ok l sl → udp_ok l sl'.
Proof.
  intros Hp [H1 H2 H3]. constructor; [done| |done]. intros id p Hid. destruct (H2 _ _ Hid) as [? ->]. split; [done|].
  unfold waiters. f_equal. by apply Permutation_count_occ.
Qed.

Lemma udp_step_ok c c' : udp_step c c' → udp_ok c.1.1 c.2 → udp_ok c'.1.1 c'.2.
Proof.
  assert (Hm : ∀ A (m : M (list udp_pcb * F) A) l f P r s', may m (l, f) (λ a s, P a s.1) → m (l, f) = Ret (r, s') → P r s'.1)
    by (intros A m l f P r s' HP E; rewrite may_Ret in HP; by apply HP in E).
  destruct 1 as [s sl r s' Hr|id s sl r s' Hr|id local s sl r s' Hr|id data foreign s sl r s' Hr|data len src dst ifp s sl r s' Hr
    |s sl r s' Hr|id size s sl r s' Hr|id size s sl sl' r s' Hp Hr|f s sl]; intros Hok; cbn [fst snd] in *;
    try destruct s as [l f]; try done; cbn [fst] in *.
  - eapply (Hm _ _ _ _ (λ _ l', udp_ok l' sl)); [|exact Hr]. unfold udp_open. mstep.
    eapply may_mono; [by apply alloc_ok|]. intros o s Hs. by destruct o; apply may_ret.
  - eapply (Hm _ _ _ _ (λ _ l', udp_ok l' sl)); [|exact Hr]. unfold udp_close. mstep.
    eapply may_mono; [apply get_ok|]. intros o s [-> _]. destruct o; [|by apply may_ret]. mstep.
    eapply may_mono; [by apply release_ok|]. intros [] s Hs. by apply may_ret.
  - eapply (Hm _ _ _ _ (λ _ l', udp_ok l' sl)); [|exact Hr]. by apply bind_ok.
  - eapply (Hm _ _ _ _ (λ _ l', udp_ok l' sl)); [|exact Hr]. unfold udp_sendto. mstep.
    eapply may_mono; [by apply send_local_ok|]. intros o [l' f'] Hs. destruct o; [|by apply may_ret].
    eapply may_mono; [apply output_keeps|]. by intros r' s ->.
  - eapply (Hm _ _ _ _ (λ _ l', udp_ok l' sl)); [|exact Hr]. by apply input_ok.
  - injection Hr as <- <-. by apply event_ok.
  - eapply (Hm _ _ _ _ (λ r l', udp_ok l' (asleep r sl))); [|exact Hr]. by apply recvfrom_ok.
  - eapply (Hm _ _ _ _ (λ r l', udp_ok l' (asleep r sl'))); [|exact Hr]. apply recv_wake_ok. by eapply udp_ok_perm.
Qed.

Lemma udp_boot_ok : udp_ok udp_boot [].
Proof.
  constructor.
  - done.
  - intros id p [-> _]%lookup_replicate. split; [|done]. split; [constructor|]. by left.
  - intros i j p q [-> _]%lookup_replicate. done.
Qed.
Lemma udp_reach_ok f c : rtc udp_step ((udp_boot, f), []) c → udp_ok c.1.1 c.2.
Proof.
  intros Hs. remember ((udp_boot, f), []) as c0 eqn:E. assert (udp_ok c0.1.1 c0.2) as H1 by (subst; apply udp_boot_ok).
  clear E. induction Hs as [|c1 c2 c3 Hst _ IH]; [done|]. by eapply IH, udp_step_ok.
Qed.

(** C29: Whatever the calls, the datagrams, the sleeps and wake-ups: [wc] counts
    the processes asleep on a block, so no block is free, and none is given to
    another process, while one sleeps on it; two open blocks never have the same
    local address and port, unless the port is 0, as it is before [udp_bind] and
    the first [udp_sendto]; a free block is unbound with nothing in its queue. *)
Theorem udp_pcbs_invariant f l f' sl :
  rtc udp_step ((udp_boot, f), []) ((l, f'), sl) →
  length l = 16%nat ∧
  (∀ id p, l !! id = Some p → wc (u_ctx p) = waiters sl id ∧ (id ∈ sl → u_state p ≠ UDP_PCB_STATE_FREE) ∧
    (u_state p = UDP_PCB_STATE_FREE → u_local p = EP 0 0 ∧ u_queue p = [])) ∧
  (∀ i j p q, l !! i = Some p → l !! j = Some q → u_state p = UDP_PCB_STATE_OPEN → u_state q = UDP_PCB_STATE_OPEN →
    u_local p = u_local q → ep_port (u_local p) ≠ 0 → i = j).
Proof.
  intros [Hl Hp Hu]%udp_reach_ok. cbn [fst snd] in *. split_and!; [done| |done]. intros id p Hid.
  destruct (Hp _ _ Hid) as [[_ Hst] Hwc]. split_and!; [done| |].
  - intros Hin Hfree. destruct Hst as [(_ & _ & _ & Hz)|[E|E]]; [|rewrite Hfree in E; discriminate E..].
    rewrite Hz in Hwc. unfold waiters in Hwc. rewrite list_elem_of_In, (count_occ_In Nat.eq_dec) in Hin. lia.
  - intros Hfree. destruct Hst as [(_ & ? & ? & _)|[E|E]]; [done|rewrite Hfree in E; discriminate E..].
Qed.

(** A source port is always found: [udp_sendto] on an open block without a
    port gives it, from the first 17 of the dynamic range, one that no open block
    of the source address has. *)
Theorem udp_port_assigned l sl f id p foreign :
  udp_ok l sl → l !! id = Some p → u_state p = UDP_PCB_STATE_OPEN → ep_port (u_local p) = 0 →
  ep_addr (u_local p) ≠ IP_ADDR_ANY →
  ∃ port, 49152 <= port <= 49168 ∧
    udp_send_local (Z.of_nat id) foreign (l, f) =
      Ret (Some (EP (ep_addr (u_local p)) (hton16 port)),
           (<[id := u_set_local (EP (ep_addr (u_local p)) (hton16 port)) p]> l, f)) ∧
    Forall (λ q, ¬ udp_match (ep_addr (u_local p)) (hton16 port) q) l.
Proof.
  intros Hok Hid Hopen Hport Haddr. pose proof (lookup_lt_Some _ _ _ Hid) as Hlt. rewrite (ok_len _ _ Hok) in Hlt.
  destruct (assign_run udp_source_ports UDP_SOURCE_PORT_MIN (ep_addr (u_local p)) l f) as (k & Hk & Hj & E1 & Hn).
  assert (Hinj : ∀ x y, 0 <= x < 65536 → 0 <= y < 65536 → hton16 x = hton16 y → x = y).
  { intros x y Hx Hy E. rewrite <- (hton16_involutive x), <- (hton16_involutive y) by done. by rewrite E. }
  assert (Z.of_nat udp_source_ports = 16384) as Hsp by done.
  assert (k <= 16)%nat as Hk16.
  { assert (map (λ j, hton16 (UDP_SOURCE_PORT_MIN + Z.of_nat j)) (seq 0 k) ⊆+ map (λ q, ep_port (u_local q)) l) as Hsub.
    { apply NoDup_submseteq.
      - apply NoDup_fmap_2_strong; [|apply NoDup_seq]. intros i j Hi%elem_of_seq Hj'%elem_of_seq E.
        apply Hinj in E; unfold UDP_SOURCE_PORT_MIN in *; lia.
      - intros x (j & -> & Hj'%elem_of_seq)%list_elem_of_fmap. destruct (Hj j ltac:(lia)) as (q & Hq & Eq).
        apply list_elem_of_fmap. eauto. }
    apply submseteq_length in Hsub. rewrite !length_map, length_seq, (ok_len _ _ Hok) in Hsub. done. }
  rewrite decide_False in E1 by lia. exists (UDP_SOURCE_PORT_MIN + Z.of_nat k). split_and!.
  - unfold UDP_SOURCE_PORT_MIN. lia.
  - unfold UDP_SOURCE_PORT_MIN. lia.
  - unfold udp_send_local. rewrite (bind_Ret _ _ _ _ _ (get_run _ _ _ _ Hid Hopen Hlt)).
    rewrite (bind_Ret _ _ _ _ _ (pcb_at_Ret _ _ _ _ Hid)). destruct (Z.eqb_spec (ep_addr (u_local p)) IP_ADDR_ANY); [contradiction|].
    erewrite bind_Ret by done. rewrite Hport. change (negb (0 =? 0)) with false. cbv iota.
    rewrite (bind_Ret _ _ _ _ _ E1). rewrite (bind_Ret _ _ _ _ _ (pcb_upd_Ret _ _ _ _ _ Hid)).
    destruct (Z.eqb_spec (hton16 (UDP_SOURCE_PORT_MIN + Z.of_nat k)) 0) as [E|_]; [|done].
    change 0 with (hton16 0) in E. apply Hinj in E; unfold UDP_SOURCE_PORT_MIN in *; lia.
  - apply Hn. lia.
Qed.
End udp_invariant.

(** ** From sender to receiver *)

Definition udp_pre (src dst : ip_endpoint) (n : Z) : bytes :=
  le_bytes 2 (ep_port src) ++ le_bytes 2 (ep_port dst) ++ le_bytes 2 (hton16 (UDP_HDR_SIZE + n)).
(** The datagram [udp_output] sends. *)
Definition udp_msg (src dst : ip_endpoint) (data : bytes) : bytes :=
  let len := UDP_HDR_SIZE + Z.of_nat (length data) in
  let psum := default 0 (pseudo_sum (ep_addr src) (ep_addr dst) IP_PROTOCOL_UDP len) in
  let sum := default 0 (cksum16 (udp_hdr (ep_port src) (ep_port dst) (hton16 len) 0 ++ data) len psum) in
  udp_hdr (ep_port src) (ep_port dst) (hton16 len) sum ++ data.

Lemma udp_msg_cksum src dst data :
  Forall is_byte data → Z.of_nat (length data) <= 65527 →
  let len := UDP_HDR_SIZE + Z.of_nat (length data) in
  ∃ psum sum, pseudo_sum (ep_addr src) (ep_addr dst) IP_PROTOCOL_UDP len = Some psum ∧
    cksum16 (udp_hdr (ep_port src) (ep_port dst) (hton16 len) 0 ++ data) len psum = Some sum ∧
    blit (udp_hdr (ep_port src) (ep_port dst) (hton16 len) 0 ++ data) 6 (le_bytes 2 sum) = Some (udp_msg src dst data) ∧
    udp_msg src dst data = udp_pre src dst (Z.of_nat (length data)) ++ le_bytes 2 sum ++ data ∧
    ∀ junk, cksum16 (udp_msg src dst data ++ junk) len psum = Some 0.
Proof.
  intros Hd Hl len.
  destruct (pseudo_sum_ok (ep_addr src) (ep_addr dst) IP_PROTOCOL_UDP len) as (psum & E1 & Hps); [done|].
  destruct (message_cksum (udp_pre src dst (Z.of_nat (length data))) data psum) as (sum & S1 & _ & S2 & S3).
  - unfold udp_pre. repeat (apply Forall_app; split); auto with xv6.
  - done.
  - done.
  - change (length (udp_pre src dst (Z.of_nat (length data)))) with 6%nat. lia.
  - done.
  - change (Z.of_nat (length (udp_pre src dst (Z.of_nat (length data))))) with 6 in *.
    change (6 + 2 + Z.of_nat (length data)) with len in *.
    change (udp_pre src dst (Z.of_nat (length data)) ++ le_bytes 2 0 ++ data)
      with (udp_hdr (ep_port src) (ep_port dst) (hton16 len) 0 ++ data) in *.
    exists psum, sum. split; [done|]. split; [done|].
    assert (udp_msg src dst data = udp_pre src dst (Z.of_nat (length data)) ++ le_bytes 2 sum ++ data) as ->.
    { unfold udp_msg. fold len. rewrite E1. change (default 0 (Some psum)) with psum. rewrite S1. done. }
    split_and!; [done|done|done].
Qed.

Lemma udp_fields src dst n sum data :
  in_range 16 (ep_port src) → in_range 16 (ep_port dst) → 0 <= n <= 65527 →
  let m := udp_pre src dst n ++ le_bytes 2 sum ++ data in
  load16 0 m = Some (ep_port src) ∧ load16 2 m = Some (ep_port dst) ∧ load16 4 m = Some (hton16 (UDP_HDR_SIZE + n)).
Proof.
  intros Hs Hd Hn m. unfold load. change (Z.of_nat 2) with 2.
  assert (Hw : ∀ v, in_range 16 v → le_val (le_bytes 2 v) = v) by (intros v Hv; rewrite le_val_bytes; by apply wrap_small).
  split_and!.
  - rewrite (sub_bytes_at m [] (le_bytes 2 (ep_port src)) (drop 2 m)) by done. by rewrite Hw.
  - rewrite (sub_bytes_at m (le_bytes 2 (ep_port src)) (le_bytes 2 (ep_port dst)) (drop 4 m)) by done. by rewrite Hw.
  - rewrite (sub_bytes_at m (take 4 m) (le_bytes 2 (hton16 (UDP_HDR_SIZE + n))) (drop 6 m)) by done.
    rewrite Hw; [done|apply hton16_range].
Qed.

Section udp_messages.
Context {F : Type} `{SysLaws F} `{IpService F}.
Implicit Types (l : list udp_pcb) (f : F).

Lemma udp_output_run src dst data l f :
  Forall is_byte data → Z.of_nat (length data) <= 1472 → pages f ≠ 0%nat →
  ∃ f1, pages f = S (pages f1) ∧ udp_output src dst data (l, f) =
    (r ← up (ip_send IP_PROTOCOL_UDP (udp_msg src dst data) (ep_addr src) (ep_addr dst));
     if r =? -1 then memory_free ;; mret (-1) else memory_free ;; mret (Z.of_nat (length data))) (l, f1).
Proof.
  intros Hd Hl Hpg. destruct (alloc_up_some IP_PAYLOAD_SIZE_MAX l f ltac:(done) Hpg) as (f1 & E1 & P1).
  exists f1. split; [done|]. unfold udp_output. rewrite (bind_Ret _ _ _ _ _ E1). cbn [negb]. cbv zeta.
  destruct (Z.ltb_spec (IP_PAYLOAD_SIZE_MAX - UDP_HDR_SIZE) (Z.of_nat (length data))) as [Hlt|_];
    [unfold IP_PAYLOAD_SIZE_MAX, UDP_HDR_SIZE, IP_TOTAL_SIZE_MAX, IP_HDR_SIZE_MIN in Hlt; lia|].
  set (len := UDP_HDR_SIZE + Z.of_nat (length data)).
  assert (u16 len = len) as -> by (apply wrap_small; subst len; unfold in_range, UDP_HDR_SIZE; lia).
  destruct (page_message (udp_hdr (ep_port src) (ep_port dst) (hton16 len) 0) data) as (b1 & b2 & B1 & B2 & B3).
  { change (length (udp_hdr (ep_port src) (ep_port dst) (hton16 len) 0)) with 8%nat. unfold PGSIZE. lia. }
  change (Z.of_nat (length (udp_hdr (ep_port src) (ep_port dst) (hton16 len) 0))) with UDP_HDR_SIZE in *.
  rewrite B1. erewrite bind_Ret by done. rewrite B2. erewrite bind_Ret by done.
  destruct (udp_msg_cksum src dst data Hd ltac:(lia)) as (psum & sum & S1 & S2 & S3 & _). fold len in S1, S2, S3.
  rewrite S1. erewrite bind_Ret by done. fold len in B3. rewrite B3. erewrite bind_Ret by done.
  rewrite S2. erewrite bind_Ret by done. rewrite S3. by erewrite bind_Ret by done.
Qed.

Lemma udp_input_run src dst data junk ifp id p l f :
  Forall is_byte data → Z.of_nat (length data) <= 4076 → in_range 16 (ep_port src) → in_range 16 (ep_port dst) →
  list_find (udp_match (ep_addr dst) (ep_port dst)) l = Some (id, p) → (2 <= pages f)%nat →
  ∃ f', pages f = S (S (pages f')) ∧
    udp_input (udp_msg src dst data ++ junk) (UDP_HDR_SIZE + Z.of_nat (length data)) (ep_addr src) (ep_addr dst) ifp (l, f) =
      Ret ((), (<[id := u_set_queue (u_queue p ++ [UEntry src (Z.of_nat (length data)) data]) p]> l, f')).
Proof.
  intros Hd Hl Hs Hp Hf Hpg. set (len := UDP_HDR_SIZE + Z.of_nat (length data)).
  destruct (udp_msg_cksum src dst data Hd ltac:(lia)) as (psum & sum & S1 & _ & _ & S4 & S5). fold len in S1, S5.
  destruct (udp_fields src dst (Z.of_nat (length data)) sum (data ++ junk) Hs Hp ltac:(lia)) as (F1 & F2 & F3).
  assert (udp_msg src dst data ++ junk = udp_pre src dst (Z.of_nat (length data)) ++ le_bytes 2 sum ++ data ++ junk) as Em
    by (rewrite S4; by rewrite <- !app_assoc).
  unfold udp_input. destruct (Z.ltb_spec len UDP_HDR_SIZE); [unfold len in *; lia|]. rewrite Em, F3. fold len.
  erewrite bind_Ret by done.
  assert (ntoh16 (hton16 len) = len) as ->
    by (apply hton16_involutive; subst len; unfold in_range, UDP_HDR_SIZE; lia).
  rewrite Z.eqb_refl. cbn [negb]. rewrite S1. erewrite bind_Ret by done. rewrite <- Em, S5. erewrite bind_Ret by done.
  change (negb (0 =? 0)) with false. cbv iota. rewrite Em, F1. erewrite bind_Ret by done. rewrite F2. erewrite bind_Ret by done. unfold udp_pcb_select. erewrite bind_Ret by done. cbn [fst]. rewrite Hf. cbn [fmap option_fmap option_map fst].
  assert (len - UDP_HDR_SIZE = Z.of_nat (length data)) as -> by (subst len; lia).
  destruct (alloc_up_some (12 + Z.of_nat (length data)) l f ltac:(unfold PGSIZE; lia) ltac:(lia)) as (f1 & E1 & P1).
  rewrite (bind_Ret _ _ _ _ _ E1). cbn [negb]. rewrite wrap_small by (unfold in_range; lia).
  rewrite (sub_bytes_at _ (udp_pre src dst (Z.of_nat (length data)) ++ le_bytes 2 sum) data junk) by done.
  erewrite bind_Ret by done. apply list_find_Some in Hf as (Hid & _ & _).
  rewrite (bind_Ret _ _ _ _ _ (pcb_at_Ret _ _ _ _ Hid)).
  destruct (alloc_up_some 16 l f1 ltac:(done) ltac:(lia)) as (f2 & E2 & P2). unfold qpush.
  erewrite bind_Ret; [|rewrite (bind_Ret _ _ _ _ _ E2); reflexivity]. cbv beta iota. cbn [negb].
  exists f2. split; [lia|]. rewrite (pcb_upd_Ret _ _ _ _ _ Hid). by destruct src.
Qed.

Lemma recv_run id p e q size l f :
  l !! id = Some p → u_queue p = e :: q → entry_ok e → 0 <= size →
  ∃ f', pages f' = S (S (pages f)) ∧
    udp_recv_loop id size (l, f) =
      Ret (Returns (Some (e_foreign e, take (Z.to_nat size) (e_data e))), (<[id := u_set_queue q p]> l, f')).
Proof.
  intros Hid Hq He Hs. unfold udp_recv_loop. rewrite (bind_Ret _ _ _ _ _ (pcb_at_Ret _ _ _ _ Hid)), Hq. cbn [qpop].
  destruct (free_up l f) as (f1 & E1 & P1). erewrite bind_Ret; [|rewrite (bind_Ret _ _ _ _ _ E1); reflexivity]. cbv beta iota.
  rewrite (bind_Ret _ _ _ _ _ (pcb_upd_Ret _ _ _ _ _ Hid)).
  unfold sub_bytes. rewrite He. replace (_ && _) with true by lia. erewrite bind_Ret by done.
  destruct (free_up (<[id := u_set_queue q p]> l) f1) as (f2 & E2 & P2). rewrite (bind_Ret _ _ _ _ _ E2).
  exists f2. split; [lia|]. change (drop (Z.to_nat 0) (e_data e)) with (e_data e). unfold mret, M_ret. do 5 f_equal.
  destruct (Z.le_gt_cases size (Z.of_nat (length (e_data e)))); [by rewrite Z.min_l by lia|].
  rewrite Z.min_r, Nat2Z.id, firstn_all by lia. symmetry. apply firstn_all2. lia.
Qed.

(** C30: Sending and receiving fit: [udp_output] sends one datagram, keeping no
    page; any host with an open block for its destination queues it, behind those
    waiting, for two pages; and [udp_recvfrom] on an empty queue then returns the
    sender's endpoint and the payload, cut to the size asked for, and gives the
    pages back. *)
Theorem udp_roundtrip src dst data l f :
  Forall is_byte data → Z.of_nat (length data) <= 1472 → in_range 16 (ep_port src) → in_range 16 (ep_port dst) →
  pages f ≠ 0%nat →
  (∃ f1, pages f = S (pages f1) ∧ udp_output src dst data (l, f) =
    (r ← up (ip_send IP_PROTOCOL_UDP (udp_msg src dst data) (ep_addr src) (ep_addr dst));
     if r =? -1 then memory_free ;; mret (-1) else memory_free ;; mret (Z.of_nat (length data))) (l, f1)) ∧
  ∀ junk ifp id p l' f', length l' = 16%nat →
    list_find (udp_match (ep_addr dst) (ep_port dst)) l' = Some (id, p) → (2 <= pages f')%nat →
    ∃ l2 f2, udp_input (udp_msg src dst data ++ junk) (8 + Z.of_nat (length data)) (ep_addr src) (ep_addr dst) ifp (l', f') =
        Ret ((), (l2, f2)) ∧ pages f' = S (S (pages f2)) ∧
      l2 = <[id := u_set_queue (u_queue p ++ [UEntry src (Z.of_nat (length data)) data]) p]> l' ∧
      (u_queue p = [] → ∀ size, 0 <= size → ∃ f3, pages f3 = pages f' ∧
        udp_recvfrom (Z.of_nat id) size (l2, f2) =
          Ret (Returns (Some (src, take (Z.to_nat size) data)), (l', f3))) .
Proof.
  intros Hd Hl Hs Hp Hpg. split; [by apply udp_output_run|]. intros junk ifp id p l' f' Hlen Hf Hpg'.
  destruct (udp_input_run src dst data junk ifp id p l' f' Hd ltac:(lia) Hs Hp Hf Hpg') as (f2 & P2 & E2).
  eexists _, f2. split; [exact E2|]. split; [done|]. split; [done|]. intros Hnil size Hsize.
  apply list_find_Some in Hf as (Hid & (Hopen & _) & _). pose proof (lookup_lt_Some _ _ _ Hid) as Hlt. rewrite Hnil. cbn [app].
  set (e := UEntry src (Z.of_nat (length data)) data). set (p1 := u_set_queue [e] p).
  assert (<[id := p1]> l' !! id = Some p1) as Hid1 by by apply list_lookup_insert_eq.
  destruct (recv_run id p1 e [] size (<[id := p1]> l') f2 Hid1 eq_refl eq_refl Hsize) as (f3 & P3 & E3).
  exists f3. split; [lia|]. unfold udp_recvfrom.
  rewrite (bind_Ret _ _ _ _ _ (get_run _ _ _ _ Hid1 Hopen ltac:(lia))), E3. cbn [e_foreign e_data e].
  rewrite list_insert_insert_eq, list_insert_id; [done|]. rewrite Hid. subst p1. destruct p. cbn in Hnil. by subst.
Qed.

(** An event while nobody waits marks a block interrupted for good: from then
    on [udp_recvfrom] never waits again, it fails whenever the queue is empty. *)
Theorem udp_event_sticks l f id p size :
  length l = 16%nat → l !! id = Some p → u_state p = UDP_PCB_STATE_OPEN → u_queue p = [] →
  ∃ l1, event_handler (l, f) = Ret ((), (l1, f)) ∧
    ∀ n, Nat.iter n (λ m, m ;; udp_recvfrom (Z.of_nat id) size) (mret (Returns None)) (l1, f) = Ret (Returns None, (l1, f)).
Proof.
  intros Hlen Hid Hopen Hq. pose proof (lookup_lt_Some _ _ _ Hid).
  set (g := λ p, if u_state p =? UDP_PCB_STATE_OPEN then u_set_ctx (sched_interrupt (u_ctx p)) p else p).
  exists (map g l). split; [done|]. set (l1 := map g l). assert (l1 !! id = Some (u_set_ctx (sched_interrupt (u_ctx p)) p)) as Hid1.
  { subst l1. change (map g l) with (g <$> l). rewrite list_lookup_fmap, Hid. cbn. subst g. cbv beta. by rewrite Hopen. }
  clearbody l1. induction n as [|n IH]; [done|]. rewrite Nat.iter_succ. cbv beta. rewrite (bind_Ret _ _ _ _ _ IH). unfold udp_recvfrom.
  rewrite (bind_Ret _ _ _ _ _ (get_run _ _ _ _ Hid1 Hopen ltac:(lia))). cbv iota. unfold udp_recv_loop.
  rewrite (bind_Ret _ _ _ _ _ (pcb_at_Ret _ _ _ _ Hid1)). cbn [u_set_ctx u_queue u_ctx]. rewrite Hq. cbn [qpop].
  by erewrite bind_Ret by done.
Qed.
End udp_messages.

Section udp_witnesses.
#[local] Existing Instances quiet_driver known_neighbour.
Abbreviation lan := (ip nat * (net nat * sys))%type.

(** Block 0 bound to 10.0.0.1:7, block 1 open and unbound, nobody waiting. *)
Definition udp_demo (c : sched_ctx) : list udp_pcb :=
  <[0%nat := UPcb 1 (EP 0x0100000a (hton16 7)) [] c]> (<[1%nat := UPcb 1 (EP 0 0) [] sched_ctx_init]> udp_boot).

Lemma udp_demo_reach (f : lan) : ∃ f', rtc (udp_step (F := lan)) ((udp_boot, f), []) ((udp_demo (Sched false 1), f'), [0%nat]).
Proof.
  exists f. eapply rtc_l; [apply (us_open (udp_boot, f) [] 0); reflexivity|].
  eapply rtc_l; [apply (us_bind 0 (EP 0x0100000a (hton16 7)) _ [] 0); reflexivity|].
  eapply rtc_l; [apply (us_open _ [] 1); reflexivity|].
  eapply rtc_l; [apply (us_recv 0 100 _ [] (Sleeps 0%nat)); reflexivity|]. apply rtc_refl.
Qed.

Lemma udp_pcbs_invariant_witness :
  length (udp_demo (Sched false 1)) = 16%nat ∧ (0%nat ∈ [0%nat] → ¬ UDP_PCB_STATE_OPEN = UDP_PCB_STATE_FREE).
Proof.
  destruct (udp_demo_reach (lan_ip, lan_net 1)) as [f' Hr].
  destruct (udp_pcbs_invariant (F := lan) _ _ _ _ Hr) as (H1 & H2 & _). split; [exact H1|].
  destruct (H2 0%nat (UPcb 1 (EP 0x0100000a (hton16 7)) [] (Sched false 1)) eq_refl) as (_ & H3 & _). exact H3.
Defined.

Lemma udp_demo_ok (f : lan) : udp_ok (udp_demo (Sched false 1)) [0%nat].
Proof. destruct (udp_demo_reach f) as [f' Hr]. apply udp_reach_ok in Hr. exact Hr. Qed.

Lemma udp_port_assigned_witness :
  ∃ port, 49152 <= port <= 49168 ∧
    udp_send_local 2 (EP 0x0200000a (hton16 53)) (<[2%nat := UPcb 1 (EP 0x0100000a 0) [] sched_ctx_init]> (udp_demo (Sched false 1)), (lan_ip, lan_net 1)) =
    Ret (Some (EP 0x0100000a (hton16 port)),
         (<[2%nat := UPcb 1 (EP 0x0100000a (hton16 port)) [] sched_ctx_init]> (udp_demo (Sched false 1)), (lan_ip, lan_net 1))).
Proof.
  destruct (udp_port_assigned (F := lan) (<[2%nat := UPcb 1 (EP 0x0100000a 0) [] sched_ctx_init]> (udp_demo (Sched false 1))) [0%nat]
    (lan_ip, lan_net 1) 2 (UPcb 1 (EP 0x0100000a 0) [] sched_ctx_init) (EP 0x0200000a (hton16 53))) as (port & H1 & H2 & _).
  - eapply (udp_ok_upd _ [0%nat]); [apply (udp_demo_ok (lan_ip, lan_net 1))|reflexivity| |reflexivity|done|].
    + split; [constructor|]. by right; left.
    + intros _ E. by cbn in E.
  - reflexivity.
  - reflexivity.
  - reflexivity.
  - discriminate.
  - exists port. split; [exact H1|exact H2].
Defined.

Lemma udp_roundtrip_witness :
  let src := EP 0x0200000a (hton16 53) in let dst := EP 0x0100000a (hton16 7) in
  ∃ l2 f2, udp_input (udp_msg src dst [1; 2; 3] ++ [0]) 11 0x0200000a 0x0100000a 50 (udp_demo sched_ctx_init, (lan_ip, lan_net 1)) = Ret ((), (l2, f2)) ∧
    ∃ f3, udp_recvfrom 0 2 (l2, f2) = Ret (Returns (Some (src, [1; 2])), (udp_demo sched_ctx_init, f3)).
Proof.
  intros src dst.
  destruct (udp_roundtrip (F := lan) src dst [1; 2; 3] (udp_demo sched_ctx_init) (lan_ip, lan_net 1)) as (_ & Hr).
  - repeat constructor; discriminate.
  - cbn. lia.
  - split; [discriminate|reflexivity].
  - split; [discriminate|reflexivity].
  - discriminate.
  - destruct (Hr [0] 50 0%nat (UPcb 1 (EP 0x0100000a (hton16 7)) [] sched_ctx_init) (udp_demo sched_ctx_init) (lan_ip, lan_net 1)
      eq_refl eq_refl ltac:(cbn; lia)) as (l2 & f2 & E1 & _ & _ & Hrecv).
    exists l2, f2. split; [exact E1|]. destruct (Hrecv eq_refl 2 ltac:(lia)) as (f3 & _ & E2). exists f3. exact E2.
Defined.

Lemma udp_event_sticks_witness :
  ∃ l1, event_handler (udp_demo sched_ctx_init, (lan_ip, lan_net 1)) = Ret ((), (l1, (lan_ip, lan_net 1))) ∧
    Nat.iter 3 (λ m, m ;; udp_recvfrom 0 9) (mret (Returns None)) (l1, (lan_ip, lan_net 1)) = Ret (Returns None, (l1, (lan_ip, lan_net 1))).
Proof.
  destruct (udp_event_sticks (F := lan) (udp_demo sched_ctx_init) (lan_ip, lan_net 1) 0
    (UPcb 1 (EP 0x0100000a (hton16 7)) [] sched_ctx_init) 9 eq_refl eq_refl eq_refl eq_refl) as (l1 & H1 & H2).
  exists l1. split; [exact H1|exact (H2 3%nat)].
Defined.
End udp_witnesses.
