(* ===== verification/Tcp.v ===== *)
(** * TCP: [net/tcp.c]

    The state is the table of control blocks (the theorems are in [TcpMsg], [TcpOpen], [TcpData] and [TcpState]). A
    pointer to a block is its index. The calls hold the mutex except in
    [sched_sleep], where they are cut: a call returns [Sleeps] with what it
    needs to go on, and the [_wake] routines are the parts from the wake-up on. *)
From S2P Require Import Prelude NetUtil NetSys NetDev NetAddr Ip Transport.

Definition TCP_FLG_FIN : Z := 0x01.
Definition TCP_FLG_SYN : Z := 0x02.
Definition TCP_FLG_RST : Z := 0x04.
Definition TCP_FLG_PSH : Z := 0x08.
Definition TCP_FLG_ACK : Z := 0x10.
Definition TCP_FLG_ISSET (x y : Z) : bool := negb (Z.land (Z.land x 0x3f) y =? 0).

Definition TCP_PCB_SIZE : Z := 16.
Definition TCP_PCB_MODE_RFC793 : Z := 0.
Definition TCP_PCB_MODE_SOCKET : Z := 1.
Definition TCP_PCB_STATE_FREE : Z := 0.
Definition TCP_PCB_STATE_CLOSED : Z := 1.
Definition TCP_PCB_STATE_LISTEN : Z := 2.
Definition TCP_PCB_STATE_SYN_SENT : Z := 3.
Definition TCP_PCB_STATE_SYN_RECEIVED : Z := 4.
Definition TCP_PCB_STATE_ESTABLISHED : Z := 5.
Definition TCP_PCB_STATE_FIN_WAIT1 : Z := 6.
Definition TCP_PCB_STATE_FIN_WAIT2 : Z := 7.
Definition TCP_PCB_STATE_CLOSING : Z := 8.
Definition TCP_PCB_STATE_TIME_WAIT : Z := 9.
Definition TCP_PCB_STATE_CLOSE_WAIT : Z := 10.
Definition TCP_PCB_STATE_LAST_ACK : Z := 11.

Definition TCP_DEFAULT_RTO : Z := 200000.
Definition TCP_RETRANSMIT_DEADLINE : Z := 12.
Definition TCP_SOURCE_PORT_MIN : Z := 49152.
Definition TCP_SOURCE_PORT_MAX : Z := 65535.
Definition TCP_RCV_BUF_SIZE : Z := 65535.
Definition TCP_HDR_SIZE : Z := 20.
Definition TCP_PAYLOAD_BUF : Z := IP_TOTAL_SIZE_MAX - IP_HDR_SIZE_MIN.

Record tcp_segment_info := Seg { sg_seq : Z; sg_ack : Z; sg_len : Z; sg_wnd : Z }.
Record snd_vars := Snd { snd_nxt : Z; snd_una : Z; snd_wnd : Z; wl1 : Z; wl2 : Z }.
Record rcv_vars := Rcv { rcv_nxt : Z; rcv_wnd : Z }.
(** [struct tcp_queue_entry]; [len] is the length of [te_data]. *)
Record tcp_queue_entry := TEntry { first : timeval; last : timeval; rto : Z; te_seq : Z; te_flg : Z; te_data : bytes }.

(** [t_buf]: the bytes of the receive buffer up to the last one ever written, the
    others are zero. The fields [up], [mtu] and [mss] of the C structure are
    never read or written. *)
Record tcp_pcb := TPcb {
  t_state : Z; t_mode : Z; t_local : ip_endpoint; t_foreign : ip_endpoint;
  t_snd : snd_vars; iss : Z; t_rcv : rcv_vars; irs : Z;
  t_buf : bytes; t_ctx : sched_ctx; t_queue : list tcp_queue_entry;
  t_parent : option nat; t_backlog : list nat;
}.
Definition tcp_pcb_zero : tcp_pcb :=
  TPcb TCP_PCB_STATE_FREE 0 (EP 0 0) (EP 0 0) (Snd 0 0 0 0 0) 0 (Rcv 0 0) 0 [] sched_ctx_init [] None [].
Definition tcp_boot : list tcp_pcb := replicate (Z.to_nat TCP_PCB_SIZE) tcp_pcb_zero.

Definition t_set_state v p := TPcb v (t_mode p) (t_local p) (t_foreign p) (t_snd p) (iss p) (t_rcv p) (irs p) (t_buf p) (t_ctx p) (t_queue p) (t_parent p) (t_backlog p).
Definition t_set_mode v p := TPcb (t_state p) v (t_local p) (t_foreign p) (t_snd p) (iss p) (t_rcv p) (irs p) (t_buf p) (t_ctx p) (t_queue p) (t_parent p) (t_backlog p).
Definition t_set_local v p := TPcb (t_state p) (t_mode p) v (t_foreign p) (t_snd p) (iss p) (t_rcv p) (irs p) (t_buf p) (t_ctx p) (t_queue p) (t_parent p) (t_backlog p).
Definition t_set_foreign v p := TPcb (t_state p) (t_mode p) (t_local p) v (t_snd p) (iss p) (t_rcv p) (irs p) (t_buf p) (t_ctx p) (t_queue p) (t_parent p) (t_backlog p).
Definition t_set_snd v p := TPcb (t_state p) (t_mode p) (t_local p) (t_foreign p) v (iss p) (t_rcv p) (irs p) (t_buf p) (t_ctx p) (t_queue p) (t_parent p) (t_backlog p).
Definition t_set_iss v p := TPcb (t_state p) (t_mode p) (t_local p) (t_foreign p) (t_snd p) v (t_rcv p) (irs p) (t_buf p) (t_ctx p) (t_queue p) (t_parent p) (t_backlog p).
Definition t_set_rcv v p := TPcb (t_state p) (t_mode p) (t_local p) (t_foreign p) (t_snd p) (iss p) v (irs p) (t_buf p) (t_ctx p) (t_queue p) (t_parent p) (t_backlog p).
Definition t_set_irs v p := TPcb (t_state p) (t_mode p) (t_local p) (t_foreign p) (t_snd p) (iss p) (t_rcv p) v (t_buf p) (t_ctx p) (t_queue p) (t_parent p) (t_backlog p).
Definition t_set_buf v p := TPcb (t_state p) (t_mode p) (t_local p) (t_foreign p) (t_snd p) (iss p) (t_rcv p) (irs p) v (t_ctx p) (t_queue p) (t_parent p) (t_backlog p).
Definition t_set_ctx v p := TPcb (t_state p) (t_mode p) (t_local p) (t_foreign p) (t_snd p) (iss p) (t_rcv p) (irs p) (t_buf p) v (t_queue p) (t_parent p) (t_backlog p).
Definition t_set_queue v p := TPcb (t_state p) (t_mode p) (t_local p) (t_foreign p) (t_snd p) (iss p) (t_rcv p) (irs p) (t_buf p) (t_ctx p) v (t_parent p) (t_backlog p).
Definition t_set_parent v p := TPcb (t_state p) (t_mode p) (t_local p) (t_foreign p) (t_snd p) (iss p) (t_rcv p) (irs p) (t_buf p) (t_ctx p) (t_queue p) v (t_backlog p).
Definition t_set_backlog v p := TPcb (t_state p) (t_mode p) (t_local p) (t_foreign p) (t_snd p) (iss p) (t_rcv p) (irs p) (t_buf p) (t_ctx p) (t_queue p) (t_parent p) v.

(** The receive buffer: a [memcpy] into it at [off], and what a [memcpy] of [n]
    bytes from its start reads. *)
Definition buf_pad (n : nat) (b : bytes) : bytes := b ++ replicate (n - length b) 0.
Definition buf_write (b : bytes) (off : Z) (data : bytes) : option bytes :=
  if (0 <=? off) && (off + Z.of_nat (length data) <=? TCP_RCV_BUF_SIZE)
  then blit (buf_pad (Z.to_nat off + length data) b) off data else None.
Definition buf_read (b : bytes) (n : Z) : bytes := take (Z.to_nat n) (buf_pad (Z.to_nat n) b).

(** [struct tcp_hdr] without options; the fields in the byte order of the packet. *)
Definition tcp_hdr (src dst seq ack flg wnd sum : Z) : bytes :=
  le_bytes 2 src ++ le_bytes 2 dst ++ le_bytes 4 seq ++ le_bytes 4 ack ++
  [Z.shiftl (Z.shiftr TCP_HDR_SIZE 2) 4; flg] ++ le_bytes 2 wnd ++ le_bytes 2 sum ++ le_bytes 2 0.

Section tcp.
Context {F : Type} `{SysIf F} `{IpService F}.
Abbreviation TM := (M (list tcp_pcb * F)).

(** ** Control blocks *)

Definition tcp_pcb_alloc : TM (option nat) :=
  o ← own (list_find (λ p, t_state p = TCP_PCB_STATE_FREE));
  match o with
  | None => mret None
  | Some (id, _) => pcb_upd id (λ p, t_set_ctx sched_ctx_init (t_set_state TCP_PCB_STATE_CLOSED p)) ;; mret (Some id)
  end.

(** The blocks of the backlog are released in turn: the fuel bounds the depth and
    the length of that, [tcp_pcb_release] has enough ([release_fuel]). *)
Fixpoint release (fuel : nat) (id : nat) : TM () :=
  match fuel with
  | O => out_of_fuel
  | S fuel =>
      p ← pcb_at id;
      if sched_ctx_destroy (t_ctx p) =? -1 then mret () else
      mapM_ (λ _, memory_free ;; memory_free) (t_queue p) ;;
      pcb_upd id (t_set_queue []) ;;
      release_backlog fuel id ;;
      pcb_upd id (λ _, tcp_pcb_zero)
  end
with release_backlog (fuel : nat) (id : nat) : TM () :=
  match fuel with
  | O => out_of_fuel
  | S fuel =>
      p ← pcb_at id;
      '(q, o) ← qpop (t_backlog p);
      match o with
      | None => mret ()
      | Some est => pcb_upd id (t_set_backlog q) ;; release fuel est ;; release_backlog fuel id
      end
  end.
Definition backlogs (l : list tcp_pcb) : nat := sum_list_with (λ p, length (t_backlog p)) l.
Definition tcp_pcb_release (id : nat) : TM () := n ← own backlogs; release (2 * n + 2) id.

Fixpoint select_loop (local : ip_endpoint) (foreign : option ip_endpoint) (l : list tcp_pcb) (id : nat) (listen : option nat) : option nat :=
  match l with
  | [] => listen
  | p :: l =>
      if ((ep_addr (t_local p) =? IP_ADDR_ANY) || (ep_addr (t_local p) =? ep_addr local)) && (ep_port (t_local p) =? ep_port local) then
        match foreign with
        | None => Some id
        | Some foreign =>
            if (ep_addr (t_foreign p) =? ep_addr foreign) && (ep_port (t_foreign p) =? ep_port foreign) then Some id else
            select_loop local (Some foreign) l (S id)
              (if (t_state p =? TCP_PCB_STATE_LISTEN) && ((ep_addr (t_foreign p) =? IP_ADDR_ANY) && (ep_port (t_foreign p) =? 0))
               then Some id else listen)
        end
      else select_loop local foreign l (S id) listen
  end.
Definition tcp_pcb_select (local : ip_endpoint) (foreign : option ip_endpoint) : TM (option nat) :=
  own (λ l, select_loop local foreign l 0 None).

Definition tcp_pcb_get (id : Z) : TM (option nat) :=
  if (id <? 0) || (TCP_PCB_SIZE <=? id) then mret None else
  p ← pcb_at (Z.to_nat id);
  if t_state p =? TCP_PCB_STATE_FREE then mret None else mret (Some (Z.to_nat id)).

(** ** Output *)

(** The buffer is a page; no byte of it is read before it is written. *)
Definition tcp_output_segment (seq ack flg wnd : Z) (data : bytes) (local foreign : ip_endpoint) : TM Z :=
  b ← memory_alloc TCP_PAYLOAD_BUF;
  if negb b then mret (-1) else
  let buf := replicate (Z.to_nat PGSIZE) 0 in
  let len := Z.of_nat (length data) in
  buf ← oget (blit buf 0 (tcp_hdr (ep_port local) (ep_port foreign) (hton32 seq) (hton32 ack) flg (hton16 wnd) 0));
  buf ← oget (blit buf TCP_HDR_SIZE data);
  let total := u16 (TCP_HDR_SIZE + len) in
  psum ← oget (pseudo_sum (ep_addr local) (ep_addr foreign) IP_PROTOCOL_TCP total);
  msg ← oget (sub_bytes buf 0 total);
  sum ← oget (cksum16 msg total psum);
  msg ← oget (blit msg 16 (le_bytes 2 sum));
  r ← up (ip_send IP_PROTOCOL_TCP msg (ep_addr local) (ep_addr foreign));
  if r =? -1 then memory_free ;; mret (-1) else
  memory_free ;; mret len.

Definition tcp_retransmit_queue_add (id : nat) (seq flg : Z) (data : bytes) : TM Z :=
  b ← memory_alloc (56 + Z.of_nat (length data));
  if negb b then mret (-1) else
  t ← gettimeofday;
  p ← pcb_at id;
  '(q, pushed) ← qpush (t_queue p) (TEntry t t TCP_DEFAULT_RTO seq flg data);
  if negb pushed then memory_free ;; mret (-1) else
  pcb_upd id (t_set_queue q) ;; mret 0.

(** [queue_pop] frees the queue's node, the loop the entry. *)
Fixpoint cleanup_loop (q : list tcp_queue_entry) (una : Z) : TM (list tcp_queue_entry) :=
  match q with
  | [] => mret []
  | e :: q' => if una <=? te_seq e then mret q else memory_free ;; memory_free ;; cleanup_loop q' una
  end.
Definition tcp_retransmit_queue_cleanup (id : nat) : TM () :=
  p ← pcb_at id;
  q ← cleanup_loop (t_queue p) (snd_una (t_snd p));
  pcb_upd id (t_set_queue q).

Definition tcp_retransmit_queue_emit (id : nat) (k : nat) : TM () :=
  p ← pcb_at id;
  e ← oget (t_queue p !! k);
  now ← gettimeofday;
  if TCP_RETRANSMIT_DEADLINE <=? tv_sec (timersub now (first e)) then pcb_upd id (t_set_state TCP_PCB_STATE_CLOSED) else
  if timer_lt (timeval_add_usec (last e) (rto e)) now then
    tcp_output_segment (te_seq e) (rcv_nxt (t_rcv p)) (te_flg e) (rcv_wnd (t_rcv p)) (te_data e) (t_local p) (t_foreign p) ;;
    pcb_upd id (t_set_queue (<[k := TEntry (first e) now (u32 (rto e * 2)) (te_seq e) (te_flg e) (te_data e)]> (t_queue p)))
  else mret ().

Definition tcp_output (id : nat) (flg : Z) (data : bytes) : TM Z :=
  p ← pcb_at id;
  let seq := if TCP_FLG_ISSET flg TCP_FLG_SYN then iss p else snd_nxt (t_snd p) in
  (if TCP_FLG_ISSET flg (Z.lor TCP_FLG_SYN TCP_FLG_FIN) || negb (length data =? 0)%nat
   then tcp_retransmit_queue_add id seq flg data ;; mret () else mret ()) ;;
  tcp_output_segment seq (rcv_nxt (t_rcv p)) flg (rcv_wnd (t_rcv p)) data (t_local p) (t_foreign p).

(** ** A segment arrives *)

Definition tcp_reset (seg : tcp_segment_info) (flags : Z) (local foreign : ip_endpoint) : TM () :=
  if TCP_FLG_ISSET flags TCP_FLG_RST then mret () else
  if negb (TCP_FLG_ISSET flags TCP_FLG_ACK)
  then tcp_output_segment 0 (u32 (sg_seq seg + sg_len seg)) (Z.lor TCP_FLG_RST TCP_FLG_ACK) 0 [] local foreign ;; mret ()
  else tcp_output_segment (sg_ack seg) 0 TCP_FLG_RST 0 [] local foreign ;; mret ().

(** [case TCP_PCB_STATE_LISTEN]: a block of a socket stays in this state, a new
    one takes the connection. *)
Definition arrives_listen (id : nat) (seg : tcp_segment_info) (flags : Z) (local foreign : ip_endpoint) : TM () :=
  if TCP_FLG_ISSET flags TCP_FLG_RST then mret () else
  if TCP_FLG_ISSET flags TCP_FLG_ACK
  then tcp_output_segment (sg_ack seg) 0 TCP_FLG_RST 0 [] local foreign ;; mret () else
  if TCP_FLG_ISSET flags TCP_FLG_SYN then
    p ← pcb_at id;
    o ← (if t_mode p =? TCP_PCB_MODE_SOCKET then
           new ← tcp_pcb_alloc;
           match new with
           | None => mret None
           | Some n => pcb_upd n (t_set_mode TCP_PCB_MODE_SOCKET) ;; pcb_upd n (t_set_parent (Some id)) ;; mret (Some n)
           end
         else mret (Some id));
    match o with
    | None => mret ()
    | Some n =>
        pcb_upd n (t_set_local local) ;;
        pcb_upd n (t_set_foreign foreign) ;;
        pcb_upd n (t_set_rcv (Rcv (u32 (sg_seq seg + 1)) TCP_RCV_BUF_SIZE)) ;;
        pcb_upd n (t_set_irs (sg_seq seg)) ;;
        r ← rand;
        pcb_upd n (t_set_iss (u32 r)) ;;
        tcp_output n (Z.lor TCP_FLG_SYN TCP_FLG_ACK) [] ;;
        pcb_upd n (λ p, t_set_snd (Snd (u32 (iss p + 1)) (iss p) (snd_wnd (t_snd p)) (wl1 (t_snd p)) (wl2 (t_snd p))) p) ;;
        pcb_upd n (t_set_state TCP_PCB_STATE_SYN_RECEIVED)
    end
  else mret ().

Definition set_una (v : Z) (p : tcp_pcb) : tcp_pcb :=
  t_set_snd (Snd (snd_nxt (t_snd p)) v (snd_wnd (t_snd p)) (wl1 (t_snd p)) (wl2 (t_snd p))) p.
Definition set_window (seg : tcp_segment_info) (p : tcp_pcb) : tcp_pcb :=
  t_set_snd (Snd (snd_nxt (t_snd p)) (snd_una (t_snd p)) (sg_wnd seg) (sg_seq seg) (sg_ack seg)) p.
Definition add_nxt (n : Z) (p : tcp_pcb) : tcp_pcb :=
  t_set_snd (Snd (u32 (snd_nxt (t_snd p) + n)) (snd_una (t_snd p)) (snd_wnd (t_snd p)) (wl1 (t_snd p)) (wl2 (t_snd p))) p.
Definition set_rcv_nxt (v : Z) (p : tcp_pcb) : tcp_pcb := t_set_rcv (Rcv v (rcv_wnd (t_rcv p))) p.
Definition set_rcv_wnd (v : Z) (p : tcp_pcb) : tcp_pcb := t_set_rcv (Rcv (rcv_nxt (t_rcv p)) v) p.

(** [case TCP_PCB_STATE_SYN_SENT]. *)
Definition arrives_syn_sent (id : nat) (seg : tcp_segment_info) (flags : Z) (local foreign : ip_endpoint) : TM () :=
  p ← pcb_at id;
  let ack := TCP_FLG_ISSET flags TCP_FLG_ACK in
  if ack && ((sg_ack seg <=? iss p) || (snd_nxt (t_snd p) <? sg_ack seg))
  then tcp_output_segment (sg_ack seg) 0 TCP_FLG_RST 0 [] local foreign ;; mret () else
  let acceptable := ack && ((snd_una (t_snd p) <=? sg_ack seg) && (sg_ack seg <=? snd_nxt (t_snd p))) in
  if TCP_FLG_ISSET flags TCP_FLG_SYN then
    pcb_upd id (set_rcv_nxt (u32 (sg_seq seg + 1))) ;;
    pcb_upd id (t_set_irs (sg_seq seg)) ;;
    (if acceptable then pcb_upd id (set_una (sg_ack seg)) ;; tcp_retransmit_queue_cleanup id else mret ()) ;;
    p ← pcb_at id;
    if iss p <? snd_una (t_snd p) then
      pcb_upd id (t_set_state TCP_PCB_STATE_ESTABLISHED) ;;
      tcp_output id TCP_FLG_ACK [] ;;
      pcb_upd id (set_window seg)
    else
      pcb_upd id (t_set_state TCP_PCB_STATE_SYN_RECEIVED) ;;
      tcp_output id (Z.lor TCP_FLG_SYN TCP_FLG_ACK) [] ;; mret ()
  else mret ().

Definition in_states (s : Z) (l : list Z) : bool := existsb (Z.eqb s) l.

(** The first check, the sequence number: true in the states it is not made in. *)
Definition seq_acceptable (p : tcp_pcb) (seg : tcp_segment_info) : bool :=
  let nxt := rcv_nxt (t_rcv p) in let wnd := rcv_wnd (t_rcv p) in
  let end_ := u32 (nxt + wnd) in let last := u32 (u32 (sg_seq seg + sg_len seg) - 1) in
  if in_states (t_state p) [TCP_PCB_STATE_SYN_RECEIVED; TCP_PCB_STATE_ESTABLISHED; TCP_PCB_STATE_FIN_WAIT1;
    TCP_PCB_STATE_FIN_WAIT2; TCP_PCB_STATE_CLOSE_WAIT; TCP_PCB_STATE_LAST_ACK] then
    if sg_len seg =? 0 then
      if wnd =? 0 then sg_seq seg =? nxt else (nxt <=? sg_seq seg) && (sg_seq seg <? end_)
    else
      if wnd =? 0 then false else
      ((nxt <=? sg_seq seg) && (sg_seq seg <? end_)) || ((nxt <=? last) && (last <? end_))
  else true.

(** The fifth check, the ACK field: whether processing goes on. *)
Definition arrives_ack_data (id : nat) (seg : tcp_segment_info) : TM bool :=
  p ← pcb_at id;
  let una := snd_una (t_snd p) in let nxt := snd_nxt (t_snd p) in
  go ← (if (una <? sg_ack seg) && (sg_ack seg <=? nxt) then
          pcb_upd id (set_una (sg_ack seg)) ;;
          tcp_retransmit_queue_cleanup id ;;
          (if (wl1 (t_snd p) <? sg_seq seg) || ((wl1 (t_snd p) =? sg_seq seg) && (wl2 (t_snd p) <=? sg_ack seg))
           then pcb_upd id (set_window seg) else mret ()) ;; mret true
        else if sg_ack seg <? una then mret true
        else if nxt <? sg_ack seg then tcp_output id TCP_FLG_ACK [] ;; mret false
        else mret true);
  if negb go then mret false else
  (if (t_state p =? TCP_PCB_STATE_FIN_WAIT1) && (sg_ack seg =? nxt)
   then pcb_upd id (t_set_state TCP_PCB_STATE_FIN_WAIT2) else mret ()) ;;
  mret true.
Definition arrives_ack (id : nat) (seg : tcp_segment_info) (local foreign : ip_endpoint) : TM bool :=
  p ← pcb_at id;
  if t_state p =? TCP_PCB_STATE_SYN_RECEIVED then
    if (snd_una (t_snd p) <=? sg_ack seg) && (sg_ack seg <=? snd_nxt (t_snd p)) then
      pcb_upd id (t_set_state TCP_PCB_STATE_ESTABLISHED) ;;
      (match t_parent p with
       | None => mret ()
       | Some par =>
           pp ← pcb_at par;
           '(q, pushed) ← qpush (t_backlog pp) id;
           pcb_upd par (t_set_backlog q)
       end) ;;
      arrives_ack_data id seg
    else tcp_output_segment (sg_ack seg) 0 TCP_FLG_RST 0 [] local foreign ;; mret false
  else if in_states (t_state p) [TCP_PCB_STATE_ESTABLISHED; TCP_PCB_STATE_FIN_WAIT1; TCP_PCB_STATE_FIN_WAIT2;
    TCP_PCB_STATE_CLOSE_WAIT] then arrives_ack_data id seg
  else if t_state p =? TCP_PCB_STATE_LAST_ACK then
    (if sg_ack seg =? snd_nxt (t_snd p)
     then pcb_upd id (t_set_state TCP_PCB_STATE_CLOSED) ;; tcp_pcb_release id else mret ()) ;;
    mret false
  else mret true.

(** The seventh check, the text: [len] bytes at the start of [data]. *)
Definition arrives_text (id : nat) (seg : tcp_segment_info) (data : bytes) (len : Z) : TM () :=
  p ← pcb_at id;
  if in_states (t_state p) [TCP_PCB_STATE_ESTABLISHED; TCP_PCB_STATE_FIN_WAIT1; TCP_PCB_STATE_FIN_WAIT2] &&
     negb (len =? 0) then
    d ← oget (sub_bytes data 0 len);
    buf ← oget (buf_write (t_buf p) (TCP_RCV_BUF_SIZE - rcv_wnd (t_rcv p)) d);
    pcb_upd id (t_set_buf buf) ;;
    pcb_upd id (set_rcv_nxt (u32 (sg_seq seg + sg_len seg))) ;;
    pcb_upd id (set_rcv_wnd (u16 (rcv_wnd (t_rcv p) - len))) ;;
    tcp_output id TCP_FLG_ACK [] ;; mret ()
  else mret ().

(** The eighth check, the FIN bit. *)
Definition arrives_fin (id : nat) (seg : tcp_segment_info) (flags : Z) : TM () :=
  if TCP_FLG_ISSET flags TCP_FLG_FIN then
    p ← pcb_at id;
    if in_states (t_state p) [TCP_PCB_STATE_CLOSED; TCP_PCB_STATE_LISTEN] then mret () else
    pcb_upd id (set_rcv_nxt (u32 (sg_seq seg + 1))) ;;
    tcp_output id TCP_FLG_ACK [] ;;
    if in_states (t_state p) [TCP_PCB_STATE_SYN_RECEIVED; TCP_PCB_STATE_ESTABLISHED]
    then pcb_upd id (t_set_state TCP_PCB_STATE_CLOSE_WAIT)
    else if t_state p =? TCP_PCB_STATE_FIN_WAIT1 then
      if sg_ack seg =? snd_nxt (t_snd p) then pcb_upd id (t_set_state TCP_PCB_STATE_TIME_WAIT)
      else pcb_upd id (t_set_state TCP_PCB_STATE_CLOSING)
    else if t_state p =? TCP_PCB_STATE_FIN_WAIT2 then pcb_upd id (t_set_state TCP_PCB_STATE_TIME_WAIT)
    else mret ()
  else mret ().

Definition tcp_segment_arrives (seg : tcp_segment_info) (flags : Z) (data : bytes) (len : Z) (local foreign : ip_endpoint) : TM () :=
  o ← tcp_pcb_select local (Some foreign);
  match o with
  | None => tcp_reset seg flags local foreign
  | Some id =>
      p ← pcb_at id;
      if t_state p =? TCP_PCB_STATE_CLOSED then tcp_reset seg flags local foreign else
      if t_state p =? TCP_PCB_STATE_LISTEN then arrives_listen id seg flags local foreign else
      if t_state p =? TCP_PCB_STATE_SYN_SENT then arrives_syn_sent id seg flags local foreign else
      if negb (seq_acceptable p seg) then
        if negb (TCP_FLG_ISSET flags TCP_FLG_RST) then tcp_output id TCP_FLG_ACK [] ;; mret () else mret ()
      else if negb (TCP_FLG_ISSET flags TCP_FLG_ACK) then mret () else
      go ← arrives_ack id seg local foreign;
      if negb go then mret () else
      arrives_text id seg data len ;;
      arrives_fin id seg flags
  end.

(** A number of bytes from [data] on, as the handlers of [ip_input] get them. *)
Definition tcp_input (data : bytes) (len src dst ifp : Z) : TM () :=
  if len <? TCP_HDR_SIZE then mret () else
  psum ← oget (pseudo_sum src dst IP_PROTOCOL_TCP len);
  sum ← oget (cksum16 data len psum);
  if negb (sum =? 0) then mret () else
  bc ← up (iface_broadcast ifp);
  if (src =? IP_ADDR_BROADCAST) || ((src =? bc) || ((dst =? IP_ADDR_BROADCAST) || (dst =? bc))) then mret () else
  sport ← oget (load16 0 data);
  dport ← oget (load16 2 data);
  seq ← oget (load32 4 data);
  ack ← oget (load32 8 data);
  off ← oget (load8 12 data);
  flg ← oget (load8 13 data);
  wnd ← oget (load16 14 data);
  let hlen := Z.shiftl (Z.shiftr off 4) 2 in
  let l := u16 (len - hlen) in
  let l := if TCP_FLG_ISSET flg TCP_FLG_SYN then u16 (l + 1) else l in
  let l := if TCP_FLG_ISSET flg TCP_FLG_FIN then u16 (l + 1) else l in
  tcp_segment_arrives (Seg (ntoh32 seq) (ntoh32 ack) l (ntoh16 wnd)) flg (drop (Z.to_nat hlen) data) (u64 (len - hlen))
    (EP dst dport) (EP src sport).

(** ** Timer and events *)

Definition tcp_timer : TM () :=
  mapM_ (λ id, p ← pcb_at id;
    if t_state p =? TCP_PCB_STATE_FREE then mret () else
    mapM_ (tcp_retransmit_queue_emit id) (seq 0 (length (t_queue p)))) (seq 0 (Z.to_nat TCP_PCB_SIZE)).

Definition event_handler : TM () :=
  own_set (map (λ p, if negb (t_state p =? TCP_PCB_STATE_FREE) then t_set_ctx (sched_interrupt (t_ctx p)) p else p)).

(** ** User calls *)

(** [AGAIN:] of [tcp_open_rfc793] and [tcp_connect]: the call sleeps, to be
    continued with the state it waits to be left. *)
Definition open_fail (id : nat) : TM (call (nat * Z) Z) :=
  pcb_upd id (t_set_state TCP_PCB_STATE_CLOSED) ;; tcp_pcb_release id ;; mret (Returns (-1)).
Definition open_sleep (id : nat) : TM (call (nat * Z) Z) :=
  p ← pcb_at id;
  match sched_sleep_enter (t_ctx p) with
  | None => open_fail id
  | Some c => pcb_upd id (t_set_ctx c) ;; mret (Sleeps (id, t_state p))
  end.
Definition open_wake (id : nat) (state : Z) : TM (call (nat * Z) Z) :=
  p ← pcb_at id;
  let '(err, c) := sched_sleep_leave (t_ctx p) in
  pcb_upd id (t_set_ctx c) ;;
  if err =? -1 then open_fail id else
  if t_state p =? state then open_sleep id else
  if negb (t_state p =? TCP_PCB_STATE_ESTABLISHED) then
    if t_state p =? TCP_PCB_STATE_SYN_RECEIVED then open_sleep id else open_fail id
  else mret (Returns (Z.of_nat id)).

(** The active open both calls make. *)
Definition open_active (id : nat) (local foreign : ip_endpoint) : TM (call (nat * Z) Z) :=
  pcb_upd id (t_set_local local) ;;
  pcb_upd id (t_set_foreign foreign) ;;
  pcb_upd id (set_rcv_wnd TCP_RCV_BUF_SIZE) ;;
  r ← rand;
  pcb_upd id (t_set_iss (u32 r)) ;;
  r ← tcp_output id TCP_FLG_SYN [];
  if r =? -1 then open_fail id else
  pcb_upd id (λ p, t_set_snd (Snd (u32 (iss p + 1)) (iss p) (snd_wnd (t_snd p)) (wl1 (t_snd p)) (wl2 (t_snd p))) p) ;;
  pcb_upd id (t_set_state TCP_PCB_STATE_SYN_SENT) ;;
  open_sleep id.

Definition tcp_open_rfc793 (local : ip_endpoint) (foreign : option ip_endpoint) (active : bool) : TM (call (nat * Z) Z) :=
  o ← tcp_pcb_alloc;
  match o with
  | None => mret (Returns (-1))
  | Some id =>
      if active then foreign ← oget foreign; open_active id local foreign
      else
        pcb_upd id (t_set_local local) ;;
        (match foreign with Some foreign => pcb_upd id (t_set_foreign foreign) | None => mret () end) ;;
        pcb_upd id (t_set_state TCP_PCB_STATE_LISTEN) ;;
        open_sleep id
  end.

Definition tcp_close (id : Z) : TM Z :=
  o ← tcp_pcb_get id;
  match o with
  | None => mret (-1)
  | Some id =>
      p ← pcb_at id;
      if t_state p =? TCP_PCB_STATE_LISTEN then
        pcb_upd id (t_set_state TCP_PCB_STATE_CLOSED) ;; tcp_pcb_release id ;; mret 0
      else if t_state p =? TCP_PCB_STATE_ESTABLISHED then
        tcp_output id (Z.lor TCP_FLG_ACK TCP_FLG_FIN) [] ;;
        pcb_upd id (add_nxt 1) ;; pcb_upd id (t_set_state TCP_PCB_STATE_FIN_WAIT1) ;; mret 0
      else if t_state p =? TCP_PCB_STATE_CLOSE_WAIT then
        tcp_output id (Z.lor TCP_FLG_ACK TCP_FLG_FIN) [] ;;
        pcb_upd id (add_nxt 1) ;; pcb_upd id (t_set_state TCP_PCB_STATE_LAST_ACK) ;; mret 0
      else mret (-1)
  end.

Definition tcp_open : TM Z :=
  o ← tcp_pcb_alloc;
  match o with
  | None => mret (-1)
  | Some id => pcb_upd id (t_set_mode TCP_PCB_MODE_SOCKET) ;; mret (Z.of_nat id)
  end.

(** The block of a socket call: [None] for an id out of range or not in use and
    for a block not opened in socket mode. *)
Definition socket_pcb (id : Z) : TM (option nat) :=
  o ← tcp_pcb_get id;
  match o with
  | None => mret None
  | Some id => p ← pcb_at id; if negb (t_mode p =? TCP_PCB_MODE_SOCKET) then mret None else mret (Some id)
  end.

(** The search for a source port from [p] on, in host order as the code has it;
    after the last port the loop ends without success but [local.port] is set. *)
Fixpoint tcp_assign_port (n : nat) (id : nat) (p a : Z) (foreign : ip_endpoint) : TM Z :=
  o ← tcp_pcb_select (EP a (u16 p)) (Some foreign);
  match o with
  | None => pcb_upd id (λ q, t_set_local (EP (ep_addr (t_local q)) (u16 p)) q) ;; mret (u16 p)
  | Some _ => match n with O => mret (u16 p) | S n => tcp_assign_port n id (p + 1) a foreign end
  end.
Definition tcp_source_ports : nat := Z.to_nat (TCP_SOURCE_PORT_MAX - TCP_SOURCE_PORT_MIN).

Definition tcp_connect (id : Z) (foreign : ip_endpoint) : TM (call (nat * Z) Z) :=
  o ← socket_pcb id;
  match o with
  | None => mret (Returns (-1))
  | Some id =>
      p ← pcb_at id;
      la ← (if ep_addr (t_local p) =? IP_ADDR_ANY then
              ifp ← up (ip_iface_for (ep_addr foreign));
              match ifp with None => mret None | Some ifp => a ← up (iface_unicast ifp); mret (Some a) end
            else mret (Some (ep_addr (t_local p))));
      match la with
      | None => mret (Returns (-1))
      | Some la =>
          port ← (if ep_port (t_local p) =? 0
                  then tcp_assign_port tcp_source_ports id TCP_SOURCE_PORT_MIN la foreign
                  else mret (ep_port (t_local p)));
          if port =? 0 then mret (Returns (-1)) else
          open_active id (EP la port) foreign
      end
  end.

Definition tcp_bind (id : Z) (local : ip_endpoint) : TM Z :=
  o ← socket_pcb id;
  match o with
  | None => mret (-1)
  | Some id =>
      exist ← tcp_pcb_select local None;
      match exist with Some _ => mret (-1) | None => pcb_upd id (t_set_local local) ;; mret 0 end
  end.

Definition tcp_listen (id backlog : Z) : TM Z :=
  o ← socket_pcb id;
  match o with
  | None => mret (-1)
  | Some id => pcb_upd id (t_set_state TCP_PCB_STATE_LISTEN) ;; mret 0
  end.

(** The result: the new block and the peer; [None] stands for -1. *)
Definition accept_loop (id : nat) : TM (call nat (option (nat * ip_endpoint))) :=
  p ← pcb_at id;
  '(q, o) ← qpop (t_backlog p);
  match o with
  | Some new => pcb_upd id (t_set_backlog q) ;; np ← pcb_at new; mret (Returns (Some (new, t_foreign np)))
  | None =>
      match sched_sleep_enter (t_ctx p) with
      | None => mret (Returns None)
      | Some c => pcb_upd id (t_set_ctx c) ;; mret (Sleeps id)
      end
  end.
Definition tcp_accept (id : Z) : TM (call nat (option (nat * ip_endpoint))) :=
  o ← socket_pcb id;
  match o with
  | None => mret (Returns None)
  | Some id => p ← pcb_at id; if negb (t_state p =? TCP_PCB_STATE_LISTEN) then mret (Returns None) else accept_loop id
  end.
Definition accept_wake (id : nat) : TM (call nat (option (nat * ip_endpoint))) :=
  p ← pcb_at id;
  let '(err, c) := sched_sleep_leave (t_ctx p) in
  pcb_upd id (t_set_ctx c) ;;
  if err =? -1 then mret (Returns None) else
  if t_state p =? TCP_PCB_STATE_CLOSED then tcp_pcb_release id ;; mret (Returns None) else accept_loop id.

(** The loop of [tcp_send] from [sent] bytes on; each turn sends at least one,
    so the fuel of [send_retry] is enough ([send_retry_fuel]). *)
Fixpoint send_loop (fuel : nat) (id : nat) (data : bytes) (mss sent : Z) : TM (call (nat * Z) Z) :=
  let len := Z.of_nat (length data) in
  if negb (sent <? len) then mret (Returns sent) else
  match fuel with
  | O => out_of_fuel
  | S fuel =>
      p ← pcb_at id;
      let cap := u32 (snd_wnd (t_snd p) - u32 (snd_nxt (t_snd p) - snd_una (t_snd p))) in
      if cap =? 0 then
        match sched_sleep_enter (t_ctx p) with
        | None => mret (Returns (if sent =? 0 then -1 else sent))
        | Some c => pcb_upd id (t_set_ctx c) ;; mret (Sleeps (id, sent))
        end
      else
        let slen := Z.min (Z.min mss (len - sent)) cap in
        d ← oget (sub_bytes data sent slen);
        r ← tcp_output id (Z.lor TCP_FLG_ACK TCP_FLG_PSH) d;
        if r =? -1 then
          pcb_upd id (t_set_state TCP_PCB_STATE_CLOSED) ;; tcp_pcb_release id ;; mret (Returns (-1))
        else
          pcb_upd id (add_nxt slen) ;; send_loop fuel id data mss (sent + slen)
  end.
(** From the label [RETRY]. *)
Definition send_retry (id : nat) (data : bytes) (sent : Z) : TM (call (nat * Z) Z) :=
  p ← pcb_at id;
  if in_states (t_state p) [TCP_PCB_STATE_ESTABLISHED; TCP_PCB_STATE_CLOSE_WAIT] then
    ifp ← up (ip_iface_for (ep_addr (t_foreign p)));
    match ifp with
    | None => mret (Returns (-1))
    | Some ifp =>
        m ← up (iface_mtu ifp);
        send_loop (length data) id data (u64 (m - (IP_HDR_SIZE_MIN + TCP_HDR_SIZE))) sent
    end
  else mret (Returns (-1)).
Definition tcp_send (id : Z) (data : bytes) : TM (call (nat * Z) Z) :=
  o ← tcp_pcb_get id;
  match o with None => mret (Returns (-1)) | Some id => send_retry id data 0 end.
Definition send_wake (id : nat) (data : bytes) (sent : Z) : TM (call (nat * Z) Z) :=
  p ← pcb_at id;
  let '(err, c) := sched_sleep_leave (t_ctx p) in
  pcb_upd id (t_set_ctx c) ;;
  if err =? -1 then mret (Returns (if sent =? 0 then -1 else sent)) else send_retry id data sent.

(** What is copied to the caller; [None] stands for -1. *)
Definition receive_copy (id : nat) (size remain : Z) : TM (call nat (option bytes)) :=
  p ← pcb_at id;
  let len := Z.min size remain in
  let d := buf_read (t_buf p) len in
  let rest := buf_read (drop (Z.to_nat len) (t_buf p)) (remain - len) in
  buf ← oget (buf_write (t_buf p) 0 rest);
  pcb_upd id (t_set_buf buf) ;;
  pcb_upd id (set_rcv_wnd (u16 (rcv_wnd (t_rcv p) + len))) ;;
  mret (Returns (Some d)).
(** From the label [RETRY]. *)
Definition receive_retry (id : nat) (size : Z) : TM (call nat (option bytes)) :=
  p ← pcb_at id;
  let remain := TCP_RCV_BUF_SIZE - rcv_wnd (t_rcv p) in
  if t_state p =? TCP_PCB_STATE_ESTABLISHED then
    if remain =? 0 then
      match sched_sleep_enter (t_ctx p) with
      | None => mret (Returns None)
      | Some c => pcb_upd id (t_set_ctx c) ;; mret (Sleeps id)
      end
    else receive_copy id size remain
  else if t_state p =? TCP_PCB_STATE_CLOSE_WAIT then
    if remain =? 0 then mret (Returns (Some [])) else receive_copy id size remain
  else mret (Returns None).
Definition tcp_receive (id size : Z) : TM (call nat (option bytes)) :=
  o ← tcp_pcb_get id;
  match o with None => mret (Returns None) | Some id => receive_retry id size end.
Definition receive_wake (id : nat) (size : Z) : TM (call nat (option bytes)) :=
  p ← pcb_at id;
  let '(err, c) := sched_sleep_leave (t_ctx p) in
  pcb_upd id (t_set_ctx c) ;;
  if err =? -1 then mret (Returns None) else receive_retry id size.
End tcp.

Definition tcp_init {H E F} `{SysIf E} `{DevOps E} `{Inside (net H * E) F} (input timer events : H) : M (ip H * F) Z :=
  r ← ip_protocol_register IP_PROTOCOL_TCP input;
  if r =? -1 then mret (-1) else
  r ← ipnet (net_timer_register (TV 0 100000) timer);
  if r =? -1 then mret (-1) else
  ipnet (net_event_subscribe events 0) ;; mret 0.
