(* ===== verification/TcpMsg.v ===== *)
(** * TCP segments on the wire: what [tcp_output_segment] sends and [tcp_input] reads *)
From S2P Require Import Prelude NetUtil NetSys NetDev NetAddr Ip Transport Tcp.

Definition tcp_pre (src dst seq ack flg wnd : Z) : bytes :=
  le_bytes 2 src ++ le_bytes 2 dst ++ le_bytes 4 (hton32 seq) ++ le_bytes 4 (hton32 ack) ++
  [0x50; flg] ++ le_bytes 2 (hton16 wnd).
(** The segment [tcp_output_segment] sends. *)
Definition tcp_msg (seq ack flg wnd : Z) (data : bytes) (local foreign : ip_endpoint) : bytes :=
  let len := TCP_HDR_SIZE + Z.of_nat (length data) in
  let psum := default 0 (pseudo_sum (ep_addr local) (ep_addr foreign) IP_PROTOCOL_TCP len) in
  let h sum := tcp_hdr (ep_port local) (ep_port foreign) (hton32 seq) (hton32 ack) flg (hton16 wnd) sum in
  h (default 0 (cksum16 (h 0 ++ data) len psum)) ++ data.
(** The sequence numbers a segment takes. *)
Definition seg_len (flg : Z) (len : Z) : Z :=
  let l := if TCP_FLG_ISSET flg TCP_FLG_SYN then u16 (len + 1) else len in
  if TCP_FLG_ISSET flg TCP_FLG_FIN then u16 (l + 1) else l.

Lemma tcp_msg_cksum seq ack flg wnd data local foreign :
  is_byte flg → Forall is_byte data → Z.of_nat (length data) <= 65515 →
  let len := TCP_HDR_SIZE + Z.of_nat (length data) in
  let h sum := tcp_hdr (ep_port local) (ep_port foreign) (hton32 seq) (hton32 ack) flg (hton16 wnd) sum in
  ∃ psum sum, pseudo_sum (ep_addr local) (ep_addr foreign) IP_PROTOCOL_TCP len = Some psum ∧
    cksum16 (h 0 ++ data) len psum = Some sum ∧
    blit (h 0 ++ data) 16 (le_bytes 2 sum) = Some (tcp_msg seq ack flg wnd data local foreign) ∧
    tcp_msg seq ack flg wnd data local foreign =
      tcp_pre (ep_port local) (ep_port foreign) seq ack flg wnd ++ le_bytes 2 sum ++ le_bytes 2 0 ++ data ∧
    ∀ junk, cksum16 (tcp_msg seq ack flg wnd data local foreign ++ junk) len psum = Some 0.
Proof.
  intros Hf Hd Hl len h.
  destruct (pseudo_sum_ok (ep_addr local) (ep_addr foreign) IP_PROTOCOL_TCP len) as (psum & E1 & Hps); [done|].
  set (pre := tcp_pre (ep_port local) (ep_port foreign) seq ack flg wnd).
  assert (length pre = 16%nat) as Hpre by done.
  destruct (message_cksum pre (le_bytes 2 0 ++ data) psum) as (sum & S1 & _ & S2 & S3).
  - subst pre. unfold tcp_pre. repeat (apply Forall_app; split); auto with xv6.
    constructor; [split; [discriminate|reflexivity]|]. by constructor.
  - apply Forall_app; auto with xv6.
  - by rewrite Hpre.
  - rewrite Hpre, length_app. cbn. lia.
  - done.
  - assert (Z.of_nat (length pre) + 2 + Z.of_nat (length (le_bytes 2 0 ++ data)) = len) as Hlen
      by (rewrite Hpre, length_app; subst len; unfold TCP_HDR_SIZE; cbn; lia).
    rewrite Hlen in *. rewrite Hpre in *. change (Z.of_nat 16) with 16 in *.
    change (pre ++ le_bytes 2 0 ++ le_bytes 2 0 ++ data) with (h 0 ++ data) in *.
    exists psum, sum. split; [done|]. split; [done|].
    assert (tcp_msg seq ack flg wnd data local foreign = pre ++ le_bytes 2 sum ++ le_bytes 2 0 ++ data) as ->.
    { unfold tcp_msg. fold len. rewrite E1. change (default 0 (Some psum)) with psum. fold (h 0). rewrite S1. done. }
    split_and!; done.
Qed.

Lemma tcp_fields src dst seq ack flg wnd rest :
  in_range 16 src → in_range 16 dst → in_range 32 seq → in_range 32 ack →
  let m := tcp_pre src dst seq ack flg wnd ++ rest in
  load16 0 m = Some src ∧ load16 2 m = Some dst ∧ load32 4 m = Some (hton32 seq) ∧ load32 8 m = Some (hton32 ack) ∧
  load8 12 m = Some 0x50 ∧ load8 13 m = Some flg ∧ load16 14 m = Some (hton16 wnd).
Proof.
  intros Hs Hd Hq Ha m.
  assert (Hw : ∀ (k : nat) off a c v, m = a ++ le_bytes k v ++ c → off = Z.of_nat (length a) → in_range (8 * Z.of_nat k) v →
    load k off m = Some v).
  { intros k off a c v E1 E2 Hv. unfold load. rewrite (sub_bytes_at m a (le_bytes k v) c) by (done || by rewrite length_le_bytes).
    rewrite le_val_bytes. f_equal. by apply wrap_small. }
  assert (Hb : ∀ v off a c, m = a ++ [v] ++ c → off = Z.of_nat (length a) → load8 off m = Some v).
  { intros v off a c E1 E2. unfold load. rewrite (sub_bytes_at m a [v] c) by done. cbn [le_val]. f_equal. lia. }
  split_and!.
  - by eapply (Hw 2%nat 0 [] (drop 2 m)).
  - by eapply (Hw 2%nat 2 (le_bytes 2 src) (drop 4 m)).
  - eapply (Hw 4%nat 4 (take 4 m) (drop 8 m)); [done|done|by apply hton32_range].
  - eapply (Hw 4%nat 8 (take 8 m) (drop 12 m)); [done|done|by apply hton32_range].
  - by eapply (Hb 0x50 12 (take 12 m) (drop 13 m)).
  - by eapply (Hb flg 13 (take 13 m) (drop 14 m)).
  - eapply (Hw 2%nat 14 (take 14 m) rest); [done|done|apply hton16_range].
Qed.

Section segments.
Context {F : Type} `{IpWire F}.
Implicit Types (l : list tcp_pcb) (f : F).

(** Sending: one message, no page kept. *)
Lemma output_segment_run seq ack flg wnd data local foreign l f :
  is_byte flg → Forall is_byte data → Z.of_nat (length data) <= 4076 → pages f ≠ 0%nat →
  ∃ f', tcp_output_segment seq ack flg wnd data local foreign (l, f) = Ret (Z.of_nat (length data), (l, f')) ∧
    pages f' = pages f ∧
    outbox f' = outbox f ++ [(IP_PROTOCOL_TCP, tcp_msg seq ack flg wnd data local foreign, ep_addr local, ep_addr foreign)].
Proof.
  intros Hf Hd Hl Hpg. destruct (alloc_wire TCP_PAYLOAD_BUF l f ltac:(done) Hpg) as (f1 & E1 & P1 & O1).
  unfold tcp_output_segment. rewrite (bind_Ret _ _ _ _ _ E1). cbn [negb]. cbv zeta.
  set (h := λ sum, tcp_hdr (ep_port local) (ep_port foreign) (hton32 seq) (hton32 ack) flg (hton16 wnd) sum).
  destruct (page_message (h 0) data) as (b1 & b2 & B1 & B2 & B3).
  { change (length (h 0)) with 20%nat. unfold PGSIZE. lia. }
  change (Z.of_nat (length (h 0))) with TCP_HDR_SIZE in *. fold (h 0). rewrite B1. erewrite bind_Ret by done.
  rewrite B2. erewrite bind_Ret by done.
  set (len := TCP_HDR_SIZE + Z.of_nat (length data)) in *.
  assert (u16 len = len) as -> by (apply wrap_small; subst len; unfold in_range, TCP_HDR_SIZE; lia).
  destruct (tcp_msg_cksum seq ack flg wnd data local foreign Hf Hd ltac:(lia)) as (psum & sum & S1 & S2 & S3 & _).
  fold len in S1, S2. fold (h 0) in S2, S3.
  rewrite S1. erewrite bind_Ret by done. rewrite B3. erewrite bind_Ret by done.
  rewrite S2. erewrite bind_Ret by done. rewrite S3. erewrite bind_Ret by done.
  set (m := tcp_msg seq ack flg wnd data local foreign).
  destruct (send_wire IP_PROTOCOL_TCP m (ep_addr local) (ep_addr foreign) l f1) as (f2 & E2 & P2 & O2).
  rewrite (bind_Ret _ _ _ _ _ E2). destruct (Z.eqb_spec (Z.of_nat (length m)) (-1)); [lia|].
  destruct (free_wire l f2) as (f3 & E3 & P3 & O3). rewrite (bind_Ret _ _ _ _ _ E3).
  exists f3. split; [done|]. split; [lia|]. by rewrite O3, O2, O1.
Qed.

(** Receiving the message, whatever follows it in the buffer. *)
Lemma tcp_input_run seq ack flg wnd data junk local foreign ifp bc l f :
  is_byte flg → Forall is_byte data → Z.of_nat (length data) <= 4076 →
  in_range 16 (ep_port local) → in_range 16 (ep_port foreign) → in_range 32 seq → in_range 32 ack → in_range 16 wnd →
  iface_broadcast ifp f = Ret (bc, f) →
  ep_addr local ≠ IP_ADDR_BROADCAST → ep_addr foreign ≠ IP_ADDR_BROADCAST → ep_addr local ≠ bc → ep_addr foreign ≠ bc →
  tcp_input (tcp_msg seq ack flg wnd data local foreign ++ junk) (TCP_HDR_SIZE + Z.of_nat (length data))
      (ep_addr local) (ep_addr foreign) ifp (l, f) =
    tcp_segment_arrives (Seg seq ack (seg_len flg (Z.of_nat (length data))) wnd) flg (data ++ junk) (Z.of_nat (length data))
      foreign local (l, f).
Proof.
  intros Hf Hd Hl Hp1 Hp2 Hseq Hack Hwnd Hbc N1 N2 N3 N4. set (len := TCP_HDR_SIZE + Z.of_nat (length data)).
  destruct (tcp_msg_cksum seq ack flg wnd data local foreign Hf Hd ltac:(lia)) as (psum & sum & S1 & _ & _ & S4 & S5).
  fold len in S1, S5.
  destruct (tcp_fields (ep_port local) (ep_port foreign) seq ack flg wnd (le_bytes 2 sum ++ le_bytes 2 0 ++ data ++ junk) Hp1 Hp2 Hseq Hack)
    as (F1 & F2 & F3 & F4 & F5 & F6 & F7).
  assert (tcp_msg seq ack flg wnd data local foreign ++ junk =
    tcp_pre (ep_port local) (ep_port foreign) seq ack flg wnd ++ le_bytes 2 sum ++ le_bytes 2 0 ++ data ++ junk) as Em
    by (rewrite S4; by rewrite <- !app_assoc).
  unfold tcp_input. destruct (Z.ltb_spec len TCP_HDR_SIZE); [unfold len in *; lia|].
  rewrite S1. erewrite bind_Ret by done. rewrite S5. erewrite bind_Ret by done. change (negb (0 =? 0)) with false. cbv iota.
  rewrite (bind_Ret _ _ _ _ _ (up_Ret _ l _ _ _ Hbc)).
  rewrite !(proj2 (Z.eqb_neq _ _)) by done. cbn [orb]. rewrite Em.
  rewrite F1. erewrite bind_Ret by done. rewrite F2. erewrite bind_Ret by done. rewrite F3. erewrite bind_Ret by done.
  rewrite F4. erewrite bind_Ret by done. rewrite F5. erewrite bind_Ret by done. rewrite F6. erewrite bind_Ret by done.
  rewrite F7. erewrite bind_Ret by done. cbv zeta. change (Z.shiftl (Z.shiftr 0x50 4) 2) with 20.
  assert (len - 20 = Z.of_nat (length data)) as -> by (subst len; unfold TCP_HDR_SIZE; lia).
  rewrite (wrap_small 16 (Z.of_nat _)), (wrap_small 64) by (unfold in_range; lia).
  unfold ntoh32, ntoh16. fold (hton32 (hton32 seq)). fold (hton32 (hton32 ack)). fold (hton16 (hton16 wnd)).
  rewrite !hton32_involutive, hton16_involutive by done.
  change (drop (Z.to_nat 20) (tcp_pre (ep_port local) (ep_port foreign) seq ack flg wnd ++ le_bytes 2 sum ++ le_bytes 2 0 ++ data ++ junk))
    with (data ++ junk).
  by destruct local, foreign.
Qed.
End segments.
