(* ===== verification/TcpOpen.v ===== *)
(** * Opening a TCP connection: the three-way handshake *)
From S2P Require Import Prelude NetUtil NetSys NetDev NetAddr Ip Transport Tcp TcpMsg.

(** A block at a known place of the table. *)
Section at_place.
Context {P F : Type}.
Lemma pcb_at_ins id l (f : F) (p : P) : (id < length l)%nat → pcb_at id (<[id := p]> l, f) = Ret (p, (<[id := p]> l, f)).
Proof. intros. by apply pcb_at_Ret, list_lookup_insert_eq. Qed.
Lemma pcb_upd_ins id l (f : F) (p : P) g : (id < length l)%nat → pcb_upd id g (<[id := p]> l, f) = Ret ((), (<[id := g p]> l, f)).
Proof. intros. rewrite (pcb_upd_Ret _ _ _ p) by (by apply list_lookup_insert_eq). by rewrite list_insert_insert_eq. Qed.
End at_place.

(** [tstep] runs the next access to the block in focus. *)
Ltac tstep :=
  first [ erewrite bind_Ret by (by apply pcb_at_ins) | erewrite bind_Ret by (by apply pcb_upd_ins)
        | rewrite pcb_upd_ins by done ]; cbv beta iota.

(** The fields of a block after some assignments. *)
Ltac tcbn := cbn [t_set_state t_set_mode t_set_local t_set_foreign t_set_snd t_set_iss t_set_rcv t_set_irs t_set_buf
    t_set_ctx t_set_queue t_set_parent t_set_backlog set_una set_window add_nxt set_rcv_nxt set_rcv_wnd
    t_state t_mode t_local t_foreign t_snd iss t_rcv irs t_buf t_ctx t_queue t_parent t_backlog snd_nxt
    snd_una snd_wnd wl1 wl2 rcv_nxt rcv_wnd sg_seq sg_ack sg_len sg_wnd ep_addr ep_port tcp_pcb_zero].
Tactic Notation "tcbn" "in" "*" := cbn [t_set_state t_set_mode t_set_local t_set_foreign t_set_snd t_set_iss t_set_rcv t_set_irs t_set_buf
    t_set_ctx t_set_queue t_set_parent t_set_backlog set_una set_window add_nxt set_rcv_nxt set_rcv_wnd
    t_state t_mode t_local t_foreign t_snd iss t_rcv irs t_buf t_ctx t_queue t_parent t_backlog snd_nxt
    snd_una snd_wnd wl1 wl2 rcv_nxt rcv_wnd sg_seq sg_ack sg_len sg_wnd ep_addr ep_port tcp_pcb_zero] in *.

(** The block is bound to this connection. *)
Definition exact (local foreign : ip_endpoint) (p : tcp_pcb) : Prop :=
  (ep_addr (t_local p) = IP_ADDR_ANY ∨ ep_addr (t_local p) = ep_addr local) ∧ ep_port (t_local p) = ep_port local ∧
  t_foreign p = foreign.

Lemma select_exact local foreign l : ∀ k listen n p,
  l !! n = Some p → exact local foreign p → (∀ j q, l !! j = Some q → exact local foreign q → j = n) →
  select_loop local (Some foreign) l k listen = Some (k + n)%nat.
Proof.
  induction l as [|q l IH]; intros k listen n p Hn Hp Hu; [done|]. cbn [select_loop]. destruct n as [|n].
  - injection Hn as ->. destruct Hp as (Ha & Hport & Hf). rewrite Hport, Hf, !Z.eqb_refl, andb_true_r. cbn [andb].
    replace ((ep_addr (t_local p) =? IP_ADDR_ANY) || _) with true by lia. f_equal. lia.
  - assert (¬ exact local foreign q) as Hq by (intros E; by specialize (Hu 0%nat q eq_refl E)).
    assert (∀ j r, l !! j = Some r → exact local foreign r → j = n) as Hu'
      by (intros j r Hj Hr; by specialize (Hu (S j) r Hj Hr); simplify_eq).
    replace (k + S n)%nat with (S k + n)%nat by lia.
    destruct (_ && _) eqn:Hm; [|by eapply IH]. destruct (_ && _) eqn:Hm2 in |- *; [|by eapply IH].
    exfalso. apply Hq. split; [lia|]. split; [lia|]. destruct (t_foreign q), foreign. cbn in Hm2. f_equal; lia.
Qed.

(** A search that ends at a block of another connection met no block of this one. *)
Lemma select_no_exact local foreign l : ∀ k listen n p,
  select_loop local (Some foreign) l k listen = Some (k + n)%nat → l !! n = Some p → t_foreign p ≠ foreign →
  ∀ j q, l !! j = Some q → ¬ exact local foreign q.
Proof.
  assert (Hge : ∀ l k listen r, select_loop local (Some foreign) l k listen = Some r → (k <= r)%nat ∨ listen = Some r).
  { clear l. induction l as [|q l IH]; intros k listen r; cbn [select_loop]; [by right|].
    destruct (_ && _); [destruct (_ && _) in |- *; [intros [= <-]; left; lia|]|].
    - intros [?|E]%IH; [left; lia|]. destruct (_ && _) in E; [injection E as <-; left; lia|by right].
    - intros [?|E]%IH; [left; lia|by right]. }
  (* any exact block stops the search at itself *)
  assert (Hst : ∀ l k listen j q, l !! j = Some q → exact local foreign q →
    ∃ i p, select_loop local (Some foreign) l k listen = Some (k + i)%nat ∧ l !! i = Some p ∧ t_foreign p = foreign).
  { clear l. induction l as [|q0 l IH]; intros k listen j q Hj Hq; [done|]. cbn [select_loop].
    assert (Hrec : ∀ listen, (∃ j, l !! j = Some q) → ∃ i p,
      select_loop local (Some foreign) l (S k) listen = Some (k + i)%nat ∧ (q0 :: l) !! i = Some p ∧ t_foreign p = foreign).
    { intros li [j' Hj']. destruct (IH (S k) li j' q Hj' Hq) as (i & p & E1 & E2 & E3).
      exists (S i), p. split_and!; [rewrite E1; f_equal; lia|done|done]. }
    destruct (_ && _) eqn:Hm; [destruct (_ && _) eqn:Hm2 in |- *|].
    - exists 0%nat, q0. split_and!; [f_equal; lia|done|]. destruct (t_foreign q0), foreign. cbn in Hm2. f_equal; lia.
    - destruct j as [|j]; [|by apply Hrec; eauto]. injection Hj as ->. destruct Hq as (_ & _ & E). rewrite E in Hm2. lia.
    - destruct j as [|j]; [|by apply Hrec; eauto]. injection Hj as ->. destruct Hq as (? & ? & _). lia. }
  intros k listen n p Hs Hn Hp j q Hj Hq. destruct (Hst l k listen j q Hj Hq) as (i & p' & E1 & E2 & E3).
  rewrite E1 in Hs. injection Hs as Hs. assert (i = n) as -> by lia. congruence.
Qed.

Section calls.
Context {F : Type} `{IpWire F}.
Implicit Types (l : list tcp_pcb) (f : F).

(** [tcp_output]: the segment is sent; one that takes sequence numbers is also
    queued, at the price of two pages. *)
Lemma tcp_output_run id flg data l f p :
  (id < length l)%nat → is_byte flg → Forall is_byte data → Z.of_nat (length data) <= 4000 → (3 <= pages f)%nat →
  let seq := if TCP_FLG_ISSET flg TCP_FLG_SYN then iss p else snd_nxt (t_snd p) in
  let queued := TCP_FLG_ISSET flg (Z.lor TCP_FLG_SYN TCP_FLG_FIN) || negb (length data =? 0)%nat in
  ∃ f' t, tcp_output id flg data (<[id := p]> l, f) =
      Ret (Z.of_nat (length data),
        (<[id := if queued then t_set_queue (t_queue p ++ [TEntry t t TCP_DEFAULT_RTO seq flg data]) p else p]> l, f')) ∧
    pages f = (pages f' + (if queued then 2 else 0))%nat ∧
    outbox f' = outbox f ++ [(IP_PROTOCOL_TCP,
      tcp_msg seq (rcv_nxt (t_rcv p)) flg (rcv_wnd (t_rcv p)) data (t_local p) (t_foreign p),
      ep_addr (t_local p), ep_addr (t_foreign p))].
Proof.
  intros Hid Hf Hd Hl Hpg seq queued. unfold tcp_output. tstep. fold seq. fold queued. destruct queued.
  - destruct (alloc_wire (56 + Z.of_nat (length data)) (<[id := p]> l) f ltac:(unfold PGSIZE; lia) ltac:(lia)) as (f1 & E1 & P1 & O1).
    destruct (time_up (<[id := p]> l) f1) as [t E2].
    destruct (alloc_wire 16 (<[id := p]> l) f1 ltac:(done) ltac:(lia)) as (f2 & E3 & P2 & O2).
    set (p' := t_set_queue (t_queue p ++ [TEntry t t TCP_DEFAULT_RTO seq flg data]) p).
    erewrite bind_Ret.
    2: { unfold tcp_retransmit_queue_add. erewrite bind_Ret.
      2: { rewrite (bind_Ret _ _ _ _ _ E1). cbn [negb]. rewrite (bind_Ret _ _ _ _ _ E2). tstep.
        erewrite bind_Ret by (unfold qpush; rewrite (bind_Ret _ _ _ _ _ E3); reflexivity). cbv beta iota. cbn [negb]. tstep. reflexivity. }
      reflexivity. }
    destruct (output_segment_run seq (rcv_nxt (t_rcv p)) flg (rcv_wnd (t_rcv p)) data (t_local p) (t_foreign p)
      (<[id := p']> l) f2 Hf Hd ltac:(lia) ltac:(lia)) as (f3 & E4 & P3 & O3).
    exists f3, t. split_and!; [exact E4|lia|congruence].
  - erewrite bind_Ret by done.
    destruct (output_segment_run seq (rcv_nxt (t_rcv p)) flg (rcv_wnd (t_rcv p)) data (t_local p) (t_foreign p)
      (<[id := p]> l) f Hf Hd ltac:(lia) ltac:(lia)) as (f3 & E4 & P3 & O3).
    exists f3, (TV 0 0). split_and!; [exact E4|lia|congruence].
Qed.

Lemma cleanup_run q una l f : (∀ e, e ∈ q → te_seq e < una) →
  ∃ f', cleanup_loop q una (l, f) = Ret ([], (l, f')) ∧ pages f' = (pages f + 2 * length q)%nat ∧ outbox f' = outbox f.
Proof.
  revert f. induction q as [|e q IH]; intros f Hq; cbn [cleanup_loop].
  { exists f. split_and!; [done|cbn; lia|done]. }
  destruct (Z.leb_spec una (te_seq e)); [specialize (Hq e ltac:(left)); lia|].
  destruct (free_wire l f) as (f1 & E1 & P1 & O1). rewrite (bind_Ret _ _ _ _ _ E1).
  destruct (free_wire l f1) as (f2 & E2 & P2 & O2). rewrite (bind_Ret _ _ _ _ _ E2).
  destruct (IH f2) as (f3 & E3 & P3 & O3); [intros e' He'; apply Hq; by right|].
  exists f3. split_and!; [done|cbn; lia|congruence].
Qed.

(** The client's block after [tcp_connect]. *)
Definition cl_syn (p : tcp_pcb) (local foreign : ip_endpoint) (r : Z) (t : timeval) : tcp_pcb :=
  TPcb TCP_PCB_STATE_SYN_SENT (t_mode p) local foreign (Snd (r + 1) r (snd_wnd (t_snd p)) (wl1 (t_snd p)) (wl2 (t_snd p))) r
    (Rcv (rcv_nxt (t_rcv p)) TCP_RCV_BUF_SIZE) (irs p) (t_buf p) (Sched false (wc (t_ctx p) + 1))
    [TEntry t t TCP_DEFAULT_RTO r TCP_FLG_SYN []] (t_parent p) (t_backlog p).

Lemma open_run c l f p local foreign :
  (c < length l)%nat → t_queue p = [] → interrupted (t_ctx p) = false → (3 <= pages f)%nat →
  ∃ r t f', 0 <= r < 0x7fffffff ∧
    open_active c local foreign (<[c := p]> l, f) = Ret (Sleeps (c, TCP_PCB_STATE_SYN_SENT), (<[c := cl_syn p local foreign r t]> l, f')) ∧
    pages f = (pages f' + 2)%nat ∧
    outbox f' = outbox f ++ [(IP_PROTOCOL_TCP, tcp_msg r (rcv_nxt (t_rcv p)) TCP_FLG_SYN TCP_RCV_BUF_SIZE [] local foreign,
      ep_addr local, ep_addr foreign)].
Proof.
  intros Hc Hq Hi Hpg. unfold open_active. do 3 tstep.
  match goal with |- context [(<[c := ?q]> l, f)] => set (p3 := q) end.
  destruct (rand_wire (<[c := p3]> l) f) as (r & f1 & E1 & Hr & P1 & O1). rewrite (bind_Ret _ _ _ _ _ E1). tstep.
  rewrite (wrap_small 32 r) by (unfold in_range; lia).
  destruct (tcp_output_run c TCP_FLG_SYN [] l f1 (t_set_iss r p3) Hc ltac:(done) ltac:(constructor) ltac:(done) ltac:(lia))
    as (f2 & t & E2 & P2 & O2).
  change (TCP_FLG_ISSET TCP_FLG_SYN TCP_FLG_SYN) with true in *.
  change (TCP_FLG_ISSET TCP_FLG_SYN (Z.lor TCP_FLG_SYN TCP_FLG_FIN)) with true in *. cbn [orb] in *.
  rewrite (bind_Ret _ _ _ _ _ E2). change (Z.of_nat (length []) =? -1) with false. cbv iota. do 2 tstep.
  unfold open_sleep. tstep. subst p3. tcbn.
  unfold sched_sleep_enter. rewrite Hi. tstep. exists r, t, f2. split_and!; [lia|lia| |lia|].
  - unfold cl_syn. tcbn. rewrite Hq.
    rewrite (wrap_small 32 (r + 1)) by (unfold in_range; lia). reflexivity.
  - rewrite O2, O1. reflexivity.
Qed.

(** The server's new block after the SYN. *)
Definition srv_syn (parent : nat) (local foreign : ip_endpoint) (seq r : Z) (t : timeval) : tcp_pcb :=
  TPcb TCP_PCB_STATE_SYN_RECEIVED TCP_PCB_MODE_SOCKET local foreign (Snd (r + 1) r 0 0 0) r
    (Rcv (seq + 1) TCP_RCV_BUF_SIZE) seq [] sched_ctx_init
    [TEntry t t TCP_DEFAULT_RTO r (Z.lor TCP_FLG_SYN TCP_FLG_ACK) []] (Some parent) [].

Lemma listen_run par n l f pl local foreign seg data :
  select_loop local (Some foreign) l 0 None = Some par → l !! par = Some pl →
  t_state pl = TCP_PCB_STATE_LISTEN → t_mode pl = TCP_PCB_MODE_SOCKET →
  list_find (λ p, t_state p = TCP_PCB_STATE_FREE) l = Some (n, tcp_pcb_zero) → (3 <= pages f)%nat →
  0 <= sg_seq seg < 0x7fffffff →
  ∃ r t f', 0 <= r < 0x7fffffff ∧
    tcp_segment_arrives seg TCP_FLG_SYN data 0 local foreign (l, f) =
      Ret ((), (<[n := srv_syn par local foreign (sg_seq seg) r t]> l, f')) ∧
    pages f = (pages f' + 2)%nat ∧
    outbox f' = outbox f ++ [(IP_PROTOCOL_TCP,
      tcp_msg r (sg_seq seg + 1) (Z.lor TCP_FLG_SYN TCP_FLG_ACK) TCP_RCV_BUF_SIZE [] local foreign, ep_addr local, ep_addr foreign)].
Proof.
  intros Hsel Hpar Hst Hmode Hfree Hpg Hseq. unfold tcp_segment_arrives, tcp_pcb_select. erewrite bind_Ret by done.
  cbn [fst]. rewrite Hsel. rewrite (bind_Ret _ _ _ _ _ (pcb_at_Ret _ _ _ _ Hpar)). rewrite Hst.
  change (TCP_PCB_STATE_LISTEN =? TCP_PCB_STATE_CLOSED) with false. cbn [Z.eqb Pos.eqb TCP_PCB_STATE_LISTEN].
  unfold arrives_listen. change (TCP_FLG_ISSET TCP_FLG_SYN TCP_FLG_RST) with false.
  change (TCP_FLG_ISSET TCP_FLG_SYN TCP_FLG_ACK) with false. change (TCP_FLG_ISSET TCP_FLG_SYN TCP_FLG_SYN) with true. cbv iota.
  rewrite (bind_Ret _ _ _ _ _ (pcb_at_Ret _ _ _ _ Hpar)). rewrite Hmode. change (TCP_PCB_MODE_SOCKET =? TCP_PCB_MODE_SOCKET) with true. cbv iota.
  pose proof Hfree as Hf. apply list_find_Some in Hf as (Hn & _ & _). pose proof (lookup_lt_Some _ _ _ Hn) as Hlt.
  assert (tcp_pcb_alloc (l, f) = Ret (Some n, (<[n := t_set_state TCP_PCB_STATE_CLOSED tcp_pcb_zero]> l, f))) as Ea.
  { unfold tcp_pcb_alloc. erewrite bind_Ret by done. cbn [fst]. rewrite Hfree. by rewrite (bind_Ret _ _ _ _ _ (pcb_upd_Ret _ _ _ _ _ Hn)). }
  erewrite bind_Ret; [|rewrite (bind_Ret _ _ _ _ _ Ea); do 2 tstep; reflexivity]. cbv beta iota. do 4 tstep.
  match goal with |- context [(<[n := ?q]> l, f)] => set (p3 := q) end.
  destruct (rand_wire (<[n := p3]> l) f) as (r & f1 & E1 & Hr & P1 & O1). rewrite (bind_Ret _ _ _ _ _ E1). tstep.
  rewrite (wrap_small 32 r) by (unfold in_range; lia).
  destruct (tcp_output_run n (Z.lor TCP_FLG_SYN TCP_FLG_ACK) [] l f1 (t_set_iss r p3) Hlt ltac:(done) ltac:(constructor) ltac:(done) ltac:(lia))
    as (f2 & t & E2 & P2 & O2).
  change (TCP_FLG_ISSET (Z.lor TCP_FLG_SYN TCP_FLG_ACK) TCP_FLG_SYN) with true in *.
  change (TCP_FLG_ISSET (Z.lor TCP_FLG_SYN TCP_FLG_ACK) (Z.lor TCP_FLG_SYN TCP_FLG_FIN)) with true in *. cbn [orb] in *.
  rewrite (bind_Ret _ _ _ _ _ E2). do 2 tstep. exists r, t, f2. split_and!; [lia|lia| |lia|].
  - do 4 f_equal. subst p3. cbn. unfold srv_syn. rewrite !(wrap_small 32) by (unfold in_range; lia). reflexivity.
  - rewrite O2, O1. subst p3. cbn. rewrite (wrap_small 32) by (unfold in_range; lia). reflexivity.
Qed.

(** The client's block after the SYN of the server. *)
Definition cl_est (p : tcp_pcb) (local foreign : ip_endpoint) (r s wnd : Z) : tcp_pcb :=
  TPcb TCP_PCB_STATE_ESTABLISHED (t_mode p) local foreign (Snd (r + 1) (r + 1) wnd s (r + 1)) r
    (Rcv (s + 1) TCP_RCV_BUF_SIZE) s (t_buf p) (Sched false (wc (t_ctx p) + 1)) [] (t_parent p) (t_backlog p).

Lemma cleanup_all id l f p una :
  (id < length l)%nat → snd_una (t_snd p) = una → (∀ e, e ∈ t_queue p → te_seq e < una) →
  ∃ f', tcp_retransmit_queue_cleanup id (<[id := p]> l, f) = Ret ((), (<[id := t_set_queue [] p]> l, f')) ∧
    pages f' = (pages f + 2 * length (t_queue p))%nat ∧ outbox f' = outbox f.
Proof.
  intros Hid Hu Hq. unfold tcp_retransmit_queue_cleanup. tstep. rewrite Hu.
  destruct (cleanup_run (t_queue p) una (<[id := p]> l) f Hq) as (f' & E1 & P1 & O1).
  exists f'. rewrite (bind_Ret _ _ _ _ _ E1). by rewrite pcb_upd_ins.
Qed.

(** The selected block is the only one of the connection. *)
Definition alone (id : nat) (l : list tcp_pcb) (local foreign : ip_endpoint) : Prop :=
  ∀ j q, j ≠ id → l !! j = Some q → ¬ exact local foreign q.

Lemma arrives_at id l f p seg flags data len local foreign :
  (id < length l)%nat → exact local foreign p → alone id l local foreign →
  tcp_segment_arrives seg flags data len local foreign (<[id := p]> l, f) =
    (if t_state p =? TCP_PCB_STATE_CLOSED then tcp_reset seg flags local foreign else
     if t_state p =? TCP_PCB_STATE_LISTEN then arrives_listen id seg flags local foreign else
     if t_state p =? TCP_PCB_STATE_SYN_SENT then arrives_syn_sent id seg flags local foreign else
     if negb (seq_acceptable p seg) then
       if negb (TCP_FLG_ISSET flags TCP_FLG_RST) then tcp_output id TCP_FLG_ACK [] ;; mret () else mret ()
     else if negb (TCP_FLG_ISSET flags TCP_FLG_ACK) then mret () else
     go ← arrives_ack id seg local foreign;
     if negb go then mret () else
     arrives_text id seg data len ;;
     arrives_fin id seg flags) (<[id := p]> l, f).
Proof.
  intros Hid Hex Hal. unfold tcp_segment_arrives, tcp_pcb_select. erewrite bind_Ret by done. cbn [fst].
  rewrite (select_exact local foreign (<[id := p]> l) 0 None id p).
  - cbn [Nat.add]. by tstep.
  - by apply list_lookup_insert_eq.
  - done.
  - intros j q Hj Hq. destruct (decide (j = id)) as [|Hne]; [done|]. rewrite list_lookup_insert_ne in Hj by done.
    by destruct (Hal j q Hne Hj).
Qed.

Lemma synack_run c l f p local foreign r s t wnd data :
  (c < length l)%nat → alone c l local foreign → 0 <= r < 0x7fffffff → 0 <= s < 0x7fffffff → (3 <= pages f)%nat →
  ∃ f', tcp_segment_arrives (Seg s (r + 1) 1 wnd) (Z.lor TCP_FLG_SYN TCP_FLG_ACK) data 0 local foreign
      (<[c := cl_syn p local foreign r t]> l, f) = Ret ((), (<[c := cl_est p local foreign r s wnd]> l, f')) ∧
    pages f' = (pages f + 2)%nat ∧
    outbox f' = outbox f ++ [(IP_PROTOCOL_TCP, tcp_msg (r + 1) (s + 1) TCP_FLG_ACK TCP_RCV_BUF_SIZE [] local foreign,
      ep_addr local, ep_addr foreign)].
Proof.
  intros Hc Hal Hr Hs Hpg. rewrite arrives_at; [|done|split; [by right|done]|done].
  change (t_state (cl_syn p local foreign r t)) with 3. cbn [Z.eqb Pos.eqb TCP_PCB_STATE_CLOSED TCP_PCB_STATE_LISTEN TCP_PCB_STATE_SYN_SENT].
  unfold arrives_syn_sent. tstep. set (p1 := cl_syn p local foreign r t). cbv zeta.
  change (TCP_FLG_ISSET (Z.lor TCP_FLG_SYN TCP_FLG_ACK) TCP_FLG_ACK) with true.
  change (TCP_FLG_ISSET (Z.lor TCP_FLG_SYN TCP_FLG_ACK) TCP_FLG_SYN) with true. subst p1. unfold cl_syn. tcbn. cbn [andb].
  destruct (Z.leb_spec (r + 1) r); [lia|]. rewrite Z.ltb_irrefl. cbn [orb]. destruct (Z.leb_spec r (r + 1)); [|lia].
  rewrite Z.leb_refl. cbn [andb]. do 2 tstep. tcbn.
  match goal with |- context [<[c := ?q]> l] => set (p2 := q) end.
  destruct (cleanup_all c l f (set_una (r + 1) p2) (r + 1) Hc eq_refl) as (f1 & E1 & P1 & O1).
  { intros e He. subst p2. tcbn in *. apply list_elem_of_singleton in He as ->. cbn. lia. }
  erewrite bind_Ret by (tstep; exact E1). tstep. subst p2. tcbn. destruct (Z.ltb_spec r (r + 1)); [|lia]. tstep. tcbn.
  match goal with |- context [<[c := ?q]> l] => set (p3 := q) end.
  destruct (tcp_output_run c TCP_FLG_ACK [] l f1 p3 Hc ltac:(done) ltac:(constructor) ltac:(done) ltac:(lia))
    as (f2 & t' & E2 & P2 & O2).
  change (TCP_FLG_ISSET TCP_FLG_ACK TCP_FLG_SYN) with false in *.
  change (TCP_FLG_ISSET TCP_FLG_ACK (Z.lor TCP_FLG_SYN TCP_FLG_FIN) || negb (length [] =? 0)%nat) with false in *.
  rewrite (bind_Ret _ _ _ _ _ E2). tstep. exists f2. subst p3. tcbn in *. unfold cl_est.
  rewrite (wrap_small 32 (s + 1)) in * by (unfold in_range; lia). split_and!; [done|cbn in P1; lia|by rewrite O2, O1].
Qed.

(** The acknowledgement of everything sent, by a new segment. *)
Lemma ack_data_run id l f p seg :
  (id < length l)%nat → snd_una (t_snd p) < sg_ack seg → sg_ack seg <= snd_nxt (t_snd p) → t_state p ≠ TCP_PCB_STATE_FIN_WAIT1 →
  wl1 (t_snd p) < sg_seq seg → (∀ e, e ∈ t_queue p → te_seq e < sg_ack seg) →
  ∃ f', arrives_ack_data id seg (<[id := p]> l, f) =
      Ret (true, (<[id := set_window seg (t_set_queue [] (set_una (sg_ack seg) p))]> l, f')) ∧
    pages f' = (pages f + 2 * length (t_queue p))%nat ∧ outbox f' = outbox f.
Proof.
  intros Hid Hu Hn Hst Hw Hq. unfold arrives_ack_data. tstep. cbv zeta.
  destruct (Z.ltb_spec (snd_una (t_snd p)) (sg_ack seg)); [|lia]. destruct (Z.leb_spec (sg_ack seg) (snd_nxt (t_snd p))); [|lia].
  destruct (Z.ltb_spec (wl1 (t_snd p)) (sg_seq seg)); [|lia]. cbn [andb orb].
  destruct (cleanup_all id l f (set_una (sg_ack seg) p) (sg_ack seg) Hid eq_refl Hq) as (f1 & E1 & P1 & O1).
  exists f1. split; [|done].
  erewrite bind_Ret; [|tstep; rewrite (bind_Ret _ _ _ _ _ E1); tstep; reflexivity]. cbn [negb].
  destruct (Z.eqb_spec (t_state p) TCP_PCB_STATE_FIN_WAIT1); [done|]. cbn [andb]. by erewrite bind_Ret by done.
Qed.

(** The server's block after the acknowledgement of its SYN. *)
Definition srv_est (parent : nat) (local foreign : ip_endpoint) (seq r wnd : Z) : tcp_pcb :=
  TPcb TCP_PCB_STATE_ESTABLISHED TCP_PCB_MODE_SOCKET local foreign (Snd (r + 1) (r + 1) wnd (seq + 1) (r + 1)) r
    (Rcv (seq + 1) TCP_RCV_BUF_SIZE) seq [] sched_ctx_init [] (Some parent) [].

Lemma ack_run par n l f pl local foreign seq r t wnd data :
  (n < length l)%nat → n ≠ par → l !! par = Some pl → alone n l local foreign →
  0 <= seq < 0x7fffffff → 0 <= r < 0x7fffffff → pages f ≠ 0%nat →
  ∃ f', tcp_segment_arrives (Seg (seq + 1) (r + 1) 0 wnd) TCP_FLG_ACK data 0 local foreign
      (<[n := srv_syn par local foreign seq r t]> l, f) =
      Ret ((), (<[n := srv_est par local foreign seq r wnd]> (<[par := t_set_backlog (t_backlog pl ++ [n]) pl]> l), f')) ∧
    pages f' = S (pages f) ∧ outbox f' = outbox f.
Proof.
  intros Hn Hne Hpar Hal Hseq Hr Hpg. rewrite arrives_at; [|done|split; [by right|done]|done].
  change (t_state (srv_syn par local foreign seq r t)) with 4.
  cbn [Z.eqb Pos.eqb TCP_PCB_STATE_CLOSED TCP_PCB_STATE_LISTEN TCP_PCB_STATE_SYN_SENT].
  assert (seq_acceptable (srv_syn par local foreign seq r t) (Seg (seq + 1) (r + 1) 0 wnd) = true) as ->.
  { unfold seq_acceptable, srv_syn. tcbn. change (in_states _ _) with true. cbv iota. change (0 =? 0) with true. cbv iota.
    change (TCP_RCV_BUF_SIZE =? 0) with false. cbv iota. rewrite Z.leb_refl. cbn [andb].
    rewrite wrap_small by (unfold in_range, TCP_RCV_BUF_SIZE; lia). unfold TCP_RCV_BUF_SIZE. lia. }
  change (TCP_FLG_ISSET TCP_FLG_ACK TCP_FLG_ACK) with true. cbn [negb]. unfold arrives_ack.
  set (p1 := srv_syn par local foreign seq r t). set (pl' := t_set_backlog (t_backlog pl ++ [n]) pl).
  assert ((n < length (<[par := pl']> l))%nat) as Hn' by by rewrite length_insert.
  destruct (alloc_wire 16 (<[n := t_set_state TCP_PCB_STATE_ESTABLISHED p1]> l) f ltac:(done) Hpg) as (f1 & E1 & P1 & O1).
  destruct (ack_data_run n (<[par := pl']> l) f1 (t_set_state TCP_PCB_STATE_ESTABLISHED p1) (Seg (seq + 1) (r + 1) 0 wnd))
    as (f2 & E2 & P2 & O2); try done; try (subst p1; unfold srv_syn; tcbn; lia).
  { subst p1. unfold srv_syn. tcbn. intros e He%list_elem_of_singleton. subst e. cbn. lia. }
  exists f2. split; [|subst p1; cbn in P2; split; [lia|congruence]].
  erewrite bind_Ret.
  2: { tstep. subst p1. unfold srv_syn. tcbn. change (TCP_PCB_STATE_SYN_RECEIVED =? TCP_PCB_STATE_SYN_RECEIVED) with true. cbv iota.
    destruct (Z.leb_spec r (r + 1)); [|lia]. rewrite Z.leb_refl. cbn [andb].
    match goal with |- context [<[n := ?q]> l] => change q with (srv_syn par local foreign seq r t) end.
    tstep. erewrite bind_Ret.
    2: { erewrite bind_Ret by (apply pcb_at_Ret; rewrite list_lookup_insert_ne by done; exact Hpar).
      erewrite bind_Ret by (unfold qpush; rewrite (bind_Ret _ _ _ _ _ E1); reflexivity). cbv beta iota.
      erewrite pcb_upd_Ret by (rewrite list_lookup_insert_ne by done; exact Hpar). rewrite list_insert_insert_ne by done. reflexivity. }
    exact E2. }
  cbn [negb]. unfold arrives_text. erewrite bind_Ret.
  2: { tstep. change (negb (0 =? 0)) with false. rewrite andb_false_r. reflexivity. }
  cbv beta. unfold arrives_fin. change (TCP_FLG_ISSET TCP_FLG_ACK TCP_FLG_FIN) with false. cbv iota. reflexivity.
Qed.

(** Two ends of an open connection with nothing under way. *)
Definition connected (p q : tcp_pcb) : Prop :=
  t_state p = TCP_PCB_STATE_ESTABLISHED ∧ t_state q = TCP_PCB_STATE_ESTABLISHED ∧
  t_local p = t_foreign q ∧ t_foreign p = t_local q ∧ t_queue p = [] ∧ t_queue q = [] ∧
  snd_una (t_snd p) = snd_nxt (t_snd p) ∧ snd_nxt (t_snd p) = rcv_nxt (t_rcv q) ∧ snd_wnd (t_snd p) = rcv_wnd (t_rcv q) ∧
  snd_una (t_snd q) = snd_nxt (t_snd q) ∧ snd_nxt (t_snd q) = rcv_nxt (t_rcv p) ∧ snd_wnd (t_snd q) = rcv_wnd (t_rcv p).

Lemma open_wake_run c l f p :
  (c < length l)%nat → t_state p = TCP_PCB_STATE_ESTABLISHED → interrupted (t_ctx p) = false →
  open_wake c TCP_PCB_STATE_SYN_SENT (<[c := p]> l, f) =
    Ret (Returns (Z.of_nat c), (<[c := t_set_ctx (Sched false (wc (t_ctx p) - 1)) p]> l, f)).
Proof.
  intros Hc Hst Hi. unfold open_wake. tstep. unfold sched_sleep_leave. cbn [interrupted wc]. rewrite Hi. cbv beta iota.
  tstep. change (0 =? -1) with false. cbv iota. by rewrite Hst.
Qed.

Lemma tcp_accept_run par l f pl new p q :
  length l = 16%nat → l !! par = Some pl → t_state pl = TCP_PCB_STATE_LISTEN → t_mode pl = TCP_PCB_MODE_SOCKET →
  t_backlog pl = new :: q → l !! new = Some p → new ≠ par →
  ∃ f', tcp_accept (Z.of_nat par) (l, f) = Ret (Returns (Some (new, t_foreign p)), (<[par := t_set_backlog q pl]> l, f')) ∧
    pages f' = S (pages f).
Proof.
  intros Hl Hpar Hst Hm Hb Hnew Hne. pose proof (lookup_lt_Some _ _ _ Hpar) as Hlt. rewrite Hl in Hlt.
  assert (socket_pcb (Z.of_nat par) (l, f) = Ret (Some par, (l, f))) as Es.
  { unfold socket_pcb, tcp_pcb_get. destruct (Z.ltb_spec (Z.of_nat par) 0); [lia|].
    destruct (Z.leb_spec TCP_PCB_SIZE (Z.of_nat par)); [unfold TCP_PCB_SIZE in *; lia|]. cbn [orb]. rewrite Nat2Z.id.
    erewrite bind_Ret by (rewrite (bind_Ret _ _ _ _ _ (pcb_at_Ret _ _ _ _ Hpar)); by rewrite Hst). cbv iota.
    rewrite (bind_Ret _ _ _ _ _ (pcb_at_Ret _ _ _ _ Hpar)). by rewrite Hm. }
  destruct (free_wire l f) as (f1 & E1 & P1 & _). exists f1. split; [|done].
  unfold tcp_accept. rewrite (bind_Ret _ _ _ _ _ Es). cbv iota. rewrite (bind_Ret _ _ _ _ _ (pcb_at_Ret _ _ _ _ Hpar)), Hst.
  change (negb (TCP_PCB_STATE_LISTEN =? TCP_PCB_STATE_LISTEN)) with false. cbv iota. unfold accept_loop.
  rewrite (bind_Ret _ _ _ _ _ (pcb_at_Ret _ _ _ _ Hpar)), Hb. cbn [qpop].
  erewrite bind_Ret by (rewrite (bind_Ret _ _ _ _ _ E1); reflexivity). cbv beta iota.
  rewrite (bind_Ret _ _ _ _ _ (pcb_upd_Ret _ _ _ _ _ Hpar)).
  by erewrite bind_Ret by (apply pcb_at_Ret; rewrite list_lookup_insert_ne by done; exact Hnew).
Qed.

(** C26: The three-way handshake: a client that opens a connection and a server
    that listens exchange three segments, each what the other's call put on the
    wire; then the client's call wakes up with the connection, [tcp_accept]
    returns it on the server, and the two blocks agree on addresses, sequence
    numbers and windows, with nothing left to acknowledge or retransmit; each side
    has given back every page it took. The client's block has an empty queue and no
    other block of its table has its endpoints; the server's block listens with an
    empty backlog and finds a free block. *)
Theorem tcp_handshake local foreign c p lc fc bc ifc par pl n ls fs bs ifs_ j1 j2 j3 :
  in_range 16 (ep_port local) → in_range 16 (ep_port foreign) →
  ep_addr local ≠ IP_ADDR_BROADCAST → ep_addr foreign ≠ IP_ADDR_BROADCAST →
  (∀ f, iface_broadcast ifc f = Ret (bc, f)) → (∀ f, iface_broadcast ifs_ f = Ret (bs, f)) →
  ep_addr local ≠ bc → ep_addr foreign ≠ bc → ep_addr local ≠ bs → ep_addr foreign ≠ bs →
  lc !! c = Some p → t_queue p = [] → interrupted (t_ctx p) = false → t_rcv p = Rcv 0 0 →
  alone c lc local foreign → (5 <= pages fc)%nat →
  length ls = 16%nat → select_loop foreign (Some local) ls 0 None = Some par → ls !! par = Some pl →
  t_state pl = TCP_PCB_STATE_LISTEN → t_mode pl = TCP_PCB_MODE_SOCKET → t_foreign pl ≠ local → t_backlog pl = [] →
  list_find (λ p, t_state p = TCP_PCB_STATE_FREE) ls = Some (n, tcp_pcb_zero) → (3 <= pages fs)%nat →
  let la := ep_addr local in let fa := ep_addr foreign in
  ∃ m1 lc1 fc1 m2 ls1 fs1 m3 lc2 fc2 ls2 fs2,
    open_active c local foreign (lc, fc) = Ret (Sleeps (c, TCP_PCB_STATE_SYN_SENT), (lc1, fc1)) ∧
      outbox fc1 = outbox fc ++ [(IP_PROTOCOL_TCP, m1, la, fa)] ∧
    tcp_input (m1 ++ j1) 20 la fa ifs_ (ls, fs) = Ret ((), (ls1, fs1)) ∧
      outbox fs1 = outbox fs ++ [(IP_PROTOCOL_TCP, m2, fa, la)] ∧
    tcp_input (m2 ++ j2) 20 fa la ifc (lc1, fc1) = Ret ((), (lc2, fc2)) ∧
      outbox fc2 = outbox fc1 ++ [(IP_PROTOCOL_TCP, m3, la, fa)] ∧
    tcp_input (m3 ++ j3) 20 la fa ifs_ (ls1, fs1) = Ret ((), (ls2, fs2)) ∧ outbox fs2 = outbox fs1 ∧
    (∃ l3, open_wake c TCP_PCB_STATE_SYN_SENT (lc2, fc2) = Ret (Returns (Z.of_nat c), (l3, fc2))) ∧ pages fc2 = pages fc ∧
    (∃ l3 fs3, tcp_accept (Z.of_nat par) (ls2, fs2) = Ret (Returns (Some (n, local)), (l3, fs3)) ∧ pages fs3 = pages fs) ∧
    ∃ pc ps, lc2 !! c = Some pc ∧ ls2 !! n = Some ps ∧ connected pc ps.
Proof.
  intros Hp1 Hp2 N1 N2 Hbc Hbs N3 N4 N5 N6 Hc Hq Hi Hrcv Hal Hpc Hls Hsel Hpar Hst Hmode Hfor Hbl Hfree Hps la fa.
  pose proof (lookup_lt_Some _ _ _ Hc) as Hclt.
  destruct (open_run c lc fc p local foreign Hclt Hq Hi ltac:(lia)) as (r & tc & fc1 & Hr & E1 & P1 & O1).
  rewrite list_insert_id in E1 by done. rewrite Hrcv in O1. cbn [rcv_nxt] in O1.
  destruct (listen_run par n ls fs pl foreign local (Seg r 0 1 TCP_RCV_BUF_SIZE) j1 Hsel Hpar Hst Hmode Hfree Hps Hr)
    as (s & ts & fs1 & Hs & E2 & P2 & O2). cbn [sg_seq] in *.
  destruct (synack_run c lc fc1 p local foreign r s tc TCP_RCV_BUF_SIZE j2 Hclt Hal Hr Hs ltac:(lia)) as (fc2 & E3 & P3 & O3).
  apply list_find_Some in Hfree as (Hn & Hz & _). pose proof (lookup_lt_Some _ _ _ Hn) as Hnlt.
  assert (n ≠ par) as Hne by (intros ->; rewrite Hpar in Hn; injection Hn as ->; discriminate Hst).
  assert (alone n ls foreign local) as Hals by (intros j q _ Hj; by eapply (select_no_exact foreign local ls 0 None par pl)).
  destruct (ack_run par n ls fs1 pl foreign local r s ts TCP_RCV_BUF_SIZE j3 Hnlt Hne Hpar Hals Hr Hs ltac:(lia)) as (fs2 & E4 & P4 & O4).
  assert (∀ r, 0 <= r < 0x7fffffff → in_range 32 r ∧ in_range 32 (r + 1)) as Hrange by (intros; unfold in_range; lia).
  destruct (Hrange r Hr) as [R1 R2]. destruct (Hrange s Hs) as [R3 R4].
  assert (in_range 32 0 ∧ in_range 16 TCP_RCV_BUF_SIZE) as [R5 R6] by (split; split; (discriminate || reflexivity)).
  pose proof (λ a b flg, tcp_input_run a b flg TCP_RCV_BUF_SIZE [] j1 local foreign ifs_ bs ls fs) as I1.
  pose proof (λ a b flg l f, tcp_input_run a b flg TCP_RCV_BUF_SIZE [] j2 foreign local ifc bc l f) as I2.
  pose proof (λ a b flg l f, tcp_input_run a b flg TCP_RCV_BUF_SIZE [] j3 local foreign ifs_ bs l f) as I3.
  assert (is_byte TCP_FLG_SYN ∧ is_byte TCP_FLG_ACK ∧ is_byte (Z.lor TCP_FLG_SYN TCP_FLG_ACK)) as (B1 & B2 & B3)
    by (split_and!; split; (discriminate || reflexivity)).
  do 11 eexists. split; [exact E1|]. split; [exact O1|].
  split; [etrans; [apply I1; (done || (cbn; lia))|exact E2]|]. split; [exact O2|].
  split; [etrans; [apply I2; (done || (cbn; lia))|exact E3]|]. split; [exact O3|].
  split; [etrans; [apply I3; (done || (cbn; lia))|exact E4]|]. split; [exact O4|].
  split; [eexists; by apply open_wake_run|]. split; [lia|]. split.
  - set (pl' := t_set_backlog (t_backlog pl ++ [n]) pl).
    destruct (tcp_accept_run par (<[n := srv_est par foreign local r s TCP_RCV_BUF_SIZE]> (<[par := pl']> ls)) fs2 pl' n
      (srv_est par foreign local r s TCP_RCV_BUF_SIZE) []) as (f3 & E5 & P5).
    + by rewrite !length_insert.
    + rewrite list_lookup_insert_ne, list_lookup_insert_eq by (done || by eapply lookup_lt_Some). done.
    + done.
    + done.
    + subst pl'. cbn. by rewrite Hbl.
    + apply list_lookup_insert_eq. by rewrite length_insert.
    + done.
    + do 2 eexists. split; [exact E5|]. lia.
  - do 2 eexists. split; [by apply list_lookup_insert_eq|].
    split; [apply list_lookup_insert_eq; by rewrite length_insert|]. done.
Qed.
End calls.

(** A client whose block 0 was opened by [tcp_open], a server whose block 2
    listens on port 80. *)
Definition cl_ep : ip_endpoint := EP 0x0100000a 49152.
Definition srv_ep : ip_endpoint := EP 0x0200000a (hton16 80).
Definition cl_block : tcp_pcb := t_set_mode TCP_PCB_MODE_SOCKET (t_set_state TCP_PCB_STATE_CLOSED tcp_pcb_zero).
Definition srv_block : tcp_pcb :=
  t_set_state TCP_PCB_STATE_LISTEN (t_set_local (EP 0 (hton16 80)) (t_set_mode TCP_PCB_MODE_SOCKET tcp_pcb_zero)).
Definition cl_table : list tcp_pcb := <[0%nat := cl_block]> tcp_boot.
Definition srv_table : list tcp_pcb := <[2%nat := srv_block]> tcp_boot.
Definition wire_boot : wire := ([], Sys 8 (TV 100 0) 1 0).

Lemma cl_alone : alone 0 cl_table cl_ep srv_ep.
Proof.
  intros j q Hj Hq (_ & Hport & _). unfold cl_table in Hq. rewrite list_lookup_insert_ne in Hq by done.
  apply lookup_replicate in Hq as [-> _]. discriminate Hport.
Qed.

Lemma tcp_handshake_witness :
  ∃ m1 l1 f1, open_active (F := wire) 0 cl_ep srv_ep (cl_table, wire_boot) = Ret (Sleeps (0%nat, TCP_PCB_STATE_SYN_SENT), (l1, f1)) ∧
    outbox f1 = [(IP_PROTOCOL_TCP, m1, 0x0100000a, 0x0200000a)] ∧
  ∃ m2 l2 f2, tcp_input m1 20 0x0100000a 0x0200000a 50 (srv_table, wire_boot) = Ret ((), (l2, f2)) ∧
    outbox (F := wire) f2 = [(IP_PROTOCOL_TCP, m2, 0x0200000a, 0x0100000a)].
Proof.
  edestruct (tcp_handshake (F := wire) cl_ep srv_ep 0 cl_block cl_table wire_boot 0xff00000a 50 2 srv_block 0 srv_table wire_boot
    0xff00000a 50 [] [] []) as (m1 & l1 & f1 & m2 & l2 & f2 & m3 & l3 & f3 & l4 & f4 & E1 & O1 & E2 & O2 & _).
  1-2: split; (discriminate || reflexivity).
  1-2: discriminate.
  1-2: reflexivity.
  1-4: discriminate.
  1-4: reflexivity.
  1: apply cl_alone.
  1: cbn; lia.
  1-5: reflexivity.
  1: discriminate.
  1: reflexivity.
  1: vm_compute; reflexivity.
  1: cbn; lia.
  rewrite app_nil_r in E2. exists m1, l1, f1. split; [exact E1|]. split; [exact O1|]. exists m2, l2, f2. split; [exact E2|exact O2].
Defined.
