(* ===== verification/TcpData.v ===== *)
(** * Data over TCP: the receive side of a connection *)
From S2P Require Import Prelude NetUtil NetSys NetDev NetAddr Ip Transport Tcp TcpMsg TcpOpen.

(** The block in focus after an assignment. *)
Ltac mfocus :=
  repeat match goal with
  | H : <[?i := _]> _ !! ?i = Some ?p |- _ =>
      rewrite list_lookup_insert_eq in H by (rewrite ?length_insert; first [done | by eapply lookup_lt_Some]);
      apply (inj Some) in H; subst p
  | H1 : ?l !! ?i = Some ?p, H2 : ?l !! ?i = Some ?q |- _ =>
      is_var q; assert (q = p) as E by congruence; clear H2; subst q
  end; rewrite ?list_insert_insert_eq.

(** ** The receive buffer *)

Definition buf_at (b : bytes) (k : nat) : Z := default 0 (b !! k).

Lemma lookup_buf_pad n b k : buf_pad n b !! k = if decide (k < Nat.max n (length b))%nat then Some (buf_at b k) else None.
Proof.
  unfold buf_pad, buf_at. destruct (decide (k < length b)%nat) as [Hk|Hk].
  - rewrite lookup_app_l by done. rewrite decide_True by lia. destruct (lookup_lt_is_Some_2 _ _ Hk) as [x Hx]. by rewrite Hx.
  - rewrite lookup_app_r by lia. rewrite (lookup_ge_None_2 b k) by lia. case_decide.
    + by rewrite lookup_replicate_2 by lia.
    + apply lookup_ge_None_2. rewrite length_replicate. lia.
Qed.
Lemma length_buf_pad n b : length (buf_pad n b) = Nat.max n (length b).
Proof. unfold buf_pad. rewrite length_app, length_replicate. lia. Qed.

Lemma lookup_buf_read b n k : buf_read b n !! k = if decide (k < Z.to_nat n)%nat then Some (buf_at b k) else None.
Proof.
  unfold buf_read. case_decide.
  - rewrite lookup_take_lt, lookup_buf_pad by done. by rewrite decide_True by lia.
  - by rewrite lookup_take_ge by lia.
Qed.
Lemma length_buf_read b n : length (buf_read b n) = Z.to_nat n.
Proof. unfold buf_read. rewrite length_take, length_buf_pad. lia. Qed.

Lemma buf_write_spec b off data :
  0 <= off → off + Z.of_nat (length data) <= TCP_RCV_BUF_SIZE →
  ∃ b', buf_write b off data = Some b' ∧
    ∀ k, buf_at b' k = if decide (off <= Z.of_nat k < off + Z.of_nat (length data)) then buf_at data (k - Z.to_nat off) else buf_at b k.
Proof.
  intros H1 H2. unfold buf_write. replace (_ && _) with true by lia.
  destruct (blit_is_Some (buf_pad (Z.to_nat off + length data) b) off data) as [b' Hb]; [done|rewrite length_buf_pad; lia|].
  exists b'. split; [done|]. intros k. unfold buf_at. rewrite (lookup_blit _ _ _ _ k Hb). case_decide; [done|].
  rewrite lookup_buf_pad. case_decide; [done|]. cbn. unfold buf_at. by rewrite lookup_ge_None_2 by lia.
Qed.
Lemma buf_write_overrun b off data : TCP_RCV_BUF_SIZE < off + Z.of_nat (length data) → buf_write b off data = None.
Proof. intros. unfold buf_write. by replace (_ && _) with false by lia. Qed.

(** Appending behind [off] bytes, and removing [n] bytes from the front. *)
Lemma buf_append b off data :
  0 <= off → off + Z.of_nat (length data) <= TCP_RCV_BUF_SIZE →
  ∃ b', buf_write b off data = Some b' ∧ buf_read b' (off + Z.of_nat (length data)) = buf_read b off ++ data.
Proof.
  intros H1 H2. destruct (buf_write_spec b off data H1 H2) as (b' & E1 & Hat). exists b'. split; [done|].
  apply list_eq. intros k. rewrite lookup_buf_read, Hat. destruct (decide (k < Z.to_nat off)%nat).
  - rewrite lookup_app_l, lookup_buf_read by (by rewrite length_buf_read). repeat case_decide; (done || lia).
  - rewrite lookup_app_r, length_buf_read by (by rewrite length_buf_read; lia). case_decide.
    + rewrite decide_True by lia. unfold buf_at. destruct (lookup_lt_is_Some_2 data (k - Z.to_nat off)) as [x Hx]; [lia|]. by rewrite Hx.
    + symmetry. apply lookup_ge_None_2. lia.
Qed.
Lemma buf_shift b n m :
  0 <= n → 0 <= m → n + m <= TCP_RCV_BUF_SIZE →
  ∃ b', buf_write b 0 (buf_read (drop (Z.to_nat n) b) m) = Some b' ∧ buf_read b (n + m) = buf_read b n ++ buf_read b' m.
Proof.
  intros H1 H2 H3. set (rest := buf_read (drop (Z.to_nat n) b) m).
  assert (length rest = Z.to_nat m) as Hr by apply length_buf_read.
  destruct (buf_write_spec b 0 rest) as (b' & E1 & Hat); [lia|lia|]. exists b'. split; [done|].
  apply list_eq. intros k. rewrite lookup_buf_read. destruct (decide (k < Z.to_nat n)%nat).
  - rewrite lookup_app_l, lookup_buf_read by (by rewrite length_buf_read). by rewrite !decide_True by lia.
  - rewrite lookup_app_r, length_buf_read, lookup_buf_read, Hat by (rewrite length_buf_read; lia). destruct (decide (k < Z.to_nat (n + m))%nat).
    + rewrite !decide_True by lia. f_equal. change (Z.to_nat 0) with 0%nat. rewrite Nat.sub_0_r. unfold buf_at at 2. subst rest.
      rewrite lookup_buf_read, decide_True by lia. cbn. unfold buf_at. rewrite lookup_drop. do 2 f_equal. lia.
    + by rewrite decide_False by lia.
Qed.

(** What is received and not yet read. *)
Definition remain (p : tcp_pcb) : Z := TCP_RCV_BUF_SIZE - rcv_wnd (t_rcv p).
Definition pending (p : tcp_pcb) : bytes := buf_read (t_buf p) (remain p).
Definition rx (p : tcp_pcb) := (t_state p, t_buf p, t_rcv p).
Definition rxs (l : list tcp_pcb) := rx <$> l.

Lemma rxs_insert id l p p' : l !! id = Some p → rx p' = rx p → rxs (<[id := p']> l) = rxs l.
Proof. intros Hid Hr. unfold rxs. rewrite list_fmap_insert, Hr. apply list_insert_id. by rewrite list_lookup_fmap, Hid. Qed.
Lemma rxs_lookup l l' id p : rxs l' = rxs l → l !! id = Some p → ∃ p', l' !! id = Some p' ∧ rx p' = rx p.
Proof.
  intros Hr Hid. assert (rxs l' !! id = Some (rx p)) as E by (rewrite Hr; unfold rxs; by rewrite list_lookup_fmap, Hid).
  unfold rxs in E. rewrite list_lookup_fmap in E. apply fmap_Some in E as (p' & ? & ?). eauto.
Qed.

(** A block but for its retransmission queue. *)
Definition core (p : tcp_pcb) : tcp_pcb := t_set_queue [] p.
Definition cores (l : list tcp_pcb) := core <$> l.
Lemma cores_insert id l p q : l !! id = Some p → cores (<[id := t_set_queue q p]> l) = cores l.
Proof. intros Hid. unfold cores. rewrite list_fmap_insert. apply list_insert_id. by rewrite list_lookup_fmap, Hid. Qed.
Lemma cores_lookup l l' id p : cores l' = cores l → l !! id = Some p → ∃ p', l' !! id = Some p' ∧ core p' = core p.
Proof.
  intros Hr Hid. assert (cores l' !! id = Some (core p)) as E by (rewrite Hr; unfold cores; by rewrite list_lookup_fmap, Hid).
  unfold cores in E. rewrite list_lookup_fmap in E. apply fmap_Some in E as (p' & ? & ?). eauto.
Qed.
Lemma cores_fmap {A} (g : tcp_pcb → A) l l' : (∀ p, g (core p) = g p) → cores l' = cores l → g <$> l' = g <$> l.
Proof.
  intros Hg E. apply (f_equal (fmap g)) in E. unfold cores in E. rewrite <- !list_fmap_compose in E.
  rewrite <- (list_fmap_ext (g ∘ core) g l), <- (list_fmap_ext (g ∘ core) g l'); [done|intros; apply Hg..].
Qed.
Lemma cores_rxs l l' : cores l' = cores l → rxs l' = rxs l.
Proof. by apply cores_fmap. Qed.

Section receive.
Context {F : Type} `{SysIf F} `{IpService F}.
Implicit Types (l : list tcp_pcb) (f : F).

Lemma output_segment_keeps seq ack flg wnd data local foreign l f :
  may (tcp_output_segment seq ack flg wnd data local foreign) (l, f) (λ _ s, s.1 = l).
Proof. unfold tcp_output_segment. do 3 mstep; [by mstep|]. do 14 mstep; by do 3 mstep. Qed.

(** Sending touches the retransmission queue only. *)
Lemma output_core id flg data l f : may (tcp_output id flg data) (l, f) (λ _ s, cores s.1 = cores l).
Proof.
  unfold tcp_output. do 3 mstep.
  apply may_mono with (P := λ _ s, cores s.1 = cores l).
  - mstep; [|by mstep]. mstep. apply may_mono with (P := λ _ s, cores s.1 = cores l); [|by intros ? ? ?; mstep].
    unfold tcp_retransmit_queue_add. do 3 mstep; [by mstep|]. do 5 mstep. mstep.
    + cbn [negb]. do 3 mstep. by apply cores_insert.
    + cbn [negb]. by do 3 mstep.
  - intros [] [l1 f1] Hl. cbn [fst] in Hl. eapply may_mono; [apply output_segment_keeps|]. intros r s ->. done.
Qed.
Lemma output_rx id flg data l f : may (tcp_output id flg data) (l, f) (λ _ s, rxs s.1 = rxs l).
Proof. eapply may_mono; [apply output_core|]. intros r s. apply cores_rxs. Qed.

Lemma cleanup_loop_keeps q una l f : may (cleanup_loop q una) (l, f) (λ _ s, s.1 = l).
Proof. revert f. induction q as [|e q IH]; intros f; cbn [cleanup_loop]; [by mstep|]. mstep; [by mstep|]. do 4 mstep. apply IH. Qed.
Lemma cleanup_core id l f : may (tcp_retransmit_queue_cleanup id) (l, f) (λ _ s, cores s.1 = cores l).
Proof.
  unfold tcp_retransmit_queue_cleanup. do 3 mstep. eapply may_mono; [apply cleanup_loop_keeps|].
  intros q [l1 f1] E. cbn [fst] in E. subst l1. cbv beta. mstep. by apply cores_insert.
Qed.
Lemma cleanup_rx id l f : may (tcp_retransmit_queue_cleanup id) (l, f) (λ _ s, rxs s.1 = rxs l).
Proof. eapply may_mono; [apply cleanup_core|]. intros r s. apply cores_rxs. Qed.

(** The ACK field of an acceptable acknowledgement leaves the receive sides alone. *)
Lemma ack_data_rx id seg l f p :
  l !! id = Some p → t_state p ≠ TCP_PCB_STATE_FIN_WAIT1 → sg_ack seg <= snd_nxt (t_snd p) →
  may (arrives_ack_data id seg) (l, f) (λ go s, go = true ∧ rxs s.1 = rxs l).
Proof.
  intros Hid Hst Hack. unfold arrives_ack_data. do 2 mstep. assert (pcb = p) as -> by congruence. cbv zeta. mstep.
  apply may_mono with (P := λ go s, go = true ∧ rxs s.1 = rxs l).
  - mstep.
    + do 3 mstep. assert (pcb = p) as -> by congruence. eapply may_mono; [apply cleanup_rx|]. intros [] [l1 f1] E. cbn [fst] in E.
      rewrite (rxs_insert id l p) in E by done. cbv beta. mstep. mstep.
      * do 2 mstep. split; [done|]. rewrite <- E. by apply rxs_insert with (p := pcb).
      * by do 2 mstep.
    + mstep; [by mstep|]. mstep; [lia|by mstep].
  - intros go [l1 f1] [-> E]. cbn [fst] in E. cbn [negb]. mstep. mstep; [lia|]. by do 2 mstep.
Qed.

Lemma text_rx id seg d junk l f p :
  l !! id = Some p → in_states (t_state p) [TCP_PCB_STATE_ESTABLISHED; TCP_PCB_STATE_FIN_WAIT1; TCP_PCB_STATE_FIN_WAIT2] = true →
  0 <= remain p → Z.of_nat (length d) <= rcv_wnd (t_rcv p) <= TCP_RCV_BUF_SIZE →
  may (arrives_text id seg (d ++ junk) (Z.of_nat (length d))) (l, f) (λ _ s,
    ∃ p', s.1 !! id = Some p' ∧ pending p' = pending p ++ d ∧ t_state p' = t_state p ∧
      rcv_wnd (t_rcv p') = rcv_wnd (t_rcv p) - Z.of_nat (length d) ∧
      rcv_nxt (t_rcv p') = if decide (d = []) then rcv_nxt (t_rcv p) else u32 (sg_seq seg + sg_len seg)).
Proof.
  intros Hid Hst Hrem Hlen. pose proof (lookup_lt_Some _ _ _ Hid) as Hlt. unfold arrives_text. do 2 mstep.
  assert (pcb = p) as -> by congruence. rewrite Hst. cbn [andb]. mstep.
  - rewrite (sub_bytes_at (d ++ junk) [] d junk) by done. do 2 mstep. injection Ha0 as <-.
    destruct (buf_append (t_buf p) (remain p) d) as (b' & E1 & E2); [done|unfold remain in *; lia|].
    fold (remain p). rewrite E1. do 2 mstep. injection Ha0 as <-. do 4 mstep. mfocus. do 2 mstep. mfocus.
    mstep.
    eapply may_mono; [apply output_rx|]. intros r [l1 f1] E. cbv beta. mstep. cbn [fst] in *.
    destruct (rxs_lookup _ _ id _ E (list_lookup_insert_eq _ _ _ Hlt)) as (p' & Hp' & [= R1 R2 R3]).
    exists p'. split; [done|]. unfold pending, remain. rewrite R1, R2, R3. cbn.
    rewrite wrap_small by (unfold in_range, TCP_RCV_BUF_SIZE in *; lia). split_and!; [|done|lia|].
    2: { rewrite decide_False; [done|]. intros ->. cbn in Ha. done. }
    fold (remain p). rewrite <- E2. f_equal. unfold remain. lia.
  - mstep. assert (d = []) as -> by (destruct d; [done|cbn in Ha; lia]). exists p. cbn [length]. rewrite app_nil_r. split_and!; try done. lia.
Qed.

(** A segment that begins where the last one ended and fits the window. *)
Definition in_order (p : tcp_pcb) (seg : tcp_segment_info) (flags : Z) (d : bytes) : Prop :=
  sg_seq seg = rcv_nxt (t_rcv p) ∧ sg_len seg = Z.of_nat (length d) ∧ Z.of_nat (length d) <= rcv_wnd (t_rcv p) ∧
  sg_ack seg <= snd_nxt (t_snd p) ∧ TCP_FLG_ISSET flags TCP_FLG_ACK = true ∧ TCP_FLG_ISSET flags TCP_FLG_FIN = false.

Lemma in_order_acceptable p seg flags d :
  in_order p seg flags d → 0 <= rcv_nxt (t_rcv p) → 0 <= rcv_wnd (t_rcv p) →
  rcv_nxt (t_rcv p) + rcv_wnd (t_rcv p) < 2 ^ 32 → seq_acceptable p seg = true.
Proof.
  intros (H1 & H2 & H3 & _) H4 H5 H6. unfold seq_acceptable. rewrite H1, H2.
  rewrite (wrap_small 32 (_ + rcv_wnd _)) by (unfold in_range; lia). destruct (in_states _ _); [|done].
  destruct (Z.eqb_spec (Z.of_nat (length d)) 0), (Z.eqb_spec (rcv_wnd (t_rcv p)) 0); lia.
Qed.

Lemma segment_rx id seg flags d junk local foreign l f p :
  select_loop local (Some foreign) l 0 None = Some id → l !! id = Some p → t_state p = TCP_PCB_STATE_ESTABLISHED →
  in_order p seg flags d → 0 <= rcv_nxt (t_rcv p) → 0 <= rcv_wnd (t_rcv p) <= TCP_RCV_BUF_SIZE →
  rcv_nxt (t_rcv p) + rcv_wnd (t_rcv p) < 2 ^ 32 →
  may (tcp_segment_arrives seg flags (d ++ junk) (Z.of_nat (length d)) local foreign) (l, f) (λ _ s,
    ∃ p', s.1 !! id = Some p' ∧ pending p' = pending p ++ d ∧ t_state p' = t_state p ∧
      rcv_wnd (t_rcv p') = rcv_wnd (t_rcv p) - Z.of_nat (length d) ∧
      rcv_nxt (t_rcv p') = if decide (d = []) then rcv_nxt (t_rcv p) else u32 (sg_seq seg + sg_len seg)).
Proof.
  intros Hsel Hid Hst Hio Hn Hw Hwrap. pose proof (in_order_acceptable _ _ _ _ Hio Hn ltac:(lia) Hwrap) as Hacc.
  destruct Hio as (H1 & H2 & H3 & Hack & Hfa & Hff). unfold tcp_segment_arrives, tcp_pcb_select. do 2 mstep. rewrite Hsel.
  do 2 mstep. assert (pcb = p) as -> by congruence. rewrite Hst.
  cbn [Z.eqb Pos.eqb TCP_PCB_STATE_ESTABLISHED TCP_PCB_STATE_CLOSED TCP_PCB_STATE_LISTEN TCP_PCB_STATE_SYN_SENT].
  rewrite Hacc, Hfa. cbn [negb]. mstep.
  apply may_mono with (P := λ go s, go = true ∧ rxs s.1 = rxs l).
  { unfold arrives_ack. do 2 mstep. assert (pcb = p) as -> by congruence. rewrite Hst. cbn [Z.eqb Pos.eqb TCP_PCB_STATE_ESTABLISHED TCP_PCB_STATE_SYN_RECEIVED].
    change (in_states _ _) with true. cbv iota. eapply ack_data_rx; [done|by rewrite Hst|done]. }
  intros go [l1 f1] [-> E]. cbn [fst negb] in *. destruct (rxs_lookup _ _ _ _ E Hid) as (p1 & Hp1 & [= R1 R2 R3]).
  mstep. eapply may_mono.
  { apply (text_rx id seg d junk l1 f1 p1 Hp1); [by rewrite R1, Hst| |rewrite R3; lia]. unfold remain. rewrite R3. lia. }
  intros [] [l2 f2] (p2 & Hp2 & E1 & E2 & E3 & E4). unfold arrives_fin. rewrite Hff. mstep. cbn [fst] in *. exists p2.
  split; [done|]. unfold pending, remain in E1 |- *. rewrite R2, R3 in E1. rewrite E1, E2, E3, E4, R1, R3. done.
Qed.

Lemma receive_rx id size l f :
  0 <= size → (∀ p, l !! id = Some p → 0 <= rcv_wnd (t_rcv p) <= TCP_RCV_BUF_SIZE) →
  may (tcp_receive (Z.of_nat id) size) (l, f) (λ r s, ∀ d, r = Returns (Some d) →
    ∃ p p', l !! id = Some p ∧ s.1 !! id = Some p' ∧ pending p = d ++ pending p' ∧ t_state p' = t_state p ∧
      rcv_wnd (t_rcv p') = rcv_wnd (t_rcv p) + Z.of_nat (length d) ∧ rcv_nxt (t_rcv p') = rcv_nxt (t_rcv p)).
Proof.
  intros Hs Hw. unfold tcp_receive, tcp_pcb_get. mstep. mstep; [by mstep|]. rewrite Nat2Z.id. do 3 mstep; [by mstep|]. mstep.
  unfold receive_retry. do 2 mstep. mfocus. specialize (Hw _ Hpcb). cbv zeta. fold (remain pcb).
  pose proof (lookup_lt_Some _ _ _ Hpcb) as Hlt.
  assert (Hcopy : 0 <= remain pcb → may (receive_copy id size (remain pcb)) (l, f) (λ r s, ∀ d, r = Returns (Some d) →
    ∃ p p', l !! id = Some p ∧ s.1 !! id = Some p' ∧ pending p = d ++ pending p' ∧ t_state p' = t_state p ∧
      rcv_wnd (t_rcv p') = rcv_wnd (t_rcv p) + Z.of_nat (length d) ∧ rcv_nxt (t_rcv p') = rcv_nxt (t_rcv p))).
  { intros Hr. unfold receive_copy. do 2 mstep. mfocus. cbv zeta. mstep.
    set (n := Z.min size (remain pcb)).
    destruct (buf_shift (t_buf pcb) n (remain pcb - n)) as (b' & E1 & E2); [lia|lia|unfold remain; lia|].
    rewrite E1. mstep. match goal with E : Some b' = Some _ |- _ => injection E as <- end. do 4 mstep. mfocus. mstep. mfocus.
    intros d [= <-]. exists pcb. eexists. split; [done|]. split; [by apply list_lookup_insert_eq|].
    rewrite wrap_small by (unfold in_range, remain, TCP_RCV_BUF_SIZE in *; lia). rewrite length_buf_read.
    split_and!; [|done|cbn; lia|done]. unfold pending. cbn [t_buf t_set_buf set_rcv_wnd t_set_rcv].
    assert (remain (set_rcv_wnd (rcv_wnd (t_rcv pcb) + n) (t_set_buf b' pcb)) = remain pcb - n) as -> by (unfold remain; cbn; lia).
    rewrite <- E2. f_equal. lia. }
  mstep.
  - mstep; [|by apply Hcopy; unfold remain; lia]. mstep; [by do 3 mstep|by mstep].
  - mstep; [|by mstep]. mstep; [|by apply Hcopy; unfold remain; lia]. mstep. intros d [= <-]. exists pcb, pcb.
    split_and!; try done. cbn. lia.
Qed.
End receive.

(** ** The byte stream *)

Section stream.
Context {F : Type} `{SysIf F} `{IpService F}.

(** The life of block [id] from its establishment: the bytes of the segments that
    arrived in order, and the bytes the calls of [tcp_receive] returned.
    [st_other] is any other step that leaves the receive side alone, as sending
    does ([output_rx]). *)
Inductive stream (id : nat) : list tcp_pcb → bytes → bytes → Prop :=
  | st_open l p : l !! id = Some p → t_state p = TCP_PCB_STATE_ESTABLISHED →
      0 <= rcv_nxt (t_rcv p) → rcv_wnd (t_rcv p) = TCP_RCV_BUF_SIZE → stream id l [] []
  | st_segment l (f : F) sent got seg flags d junk local foreign p r l' (f' : F) :
      stream id l sent got →
      select_loop local (Some foreign) l 0 None = Some id → l !! id = Some p → t_state p = TCP_PCB_STATE_ESTABLISHED →
      in_order p seg flags d → rcv_nxt (t_rcv p) + TCP_RCV_BUF_SIZE < 2 ^ 32 →
      tcp_segment_arrives seg flags (d ++ junk) (Z.of_nat (length d)) local foreign (l, f) = Ret (r, (l', f')) →
      stream id l' (sent ++ d) got
  | st_receive l (f : F) sent got size d l' (f' : F) :
      stream id l sent got → 0 <= size → tcp_receive (Z.of_nat id) size (l, f) = Ret (Returns (Some d), (l', f')) →
      stream id l' sent (got ++ d)
  | st_other l sent got l' : stream id l sent got → rxs l' = rxs l → stream id l' sent got.

Lemma stream_inv id l sent got : stream id l sent got →
  ∃ p, l !! id = Some p ∧ sent = got ++ pending p ∧ 0 <= rcv_nxt (t_rcv p) ∧ 0 <= rcv_wnd (t_rcv p) <= TCP_RCV_BUF_SIZE.
Proof.
  induction 1 as [l p Hid Hst Hn Hw|l f sent got seg flags d junk local foreign p r l' f' _ IH Hsel Hid Hst Hio Hwrap Hr
    |l f sent got size d l' f' _ IH Hs Hr|l sent got l' _ IH Hrx].
  - exists p. split; [done|]. split; [|rewrite Hw; unfold TCP_RCV_BUF_SIZE; lia]. unfold pending, remain. by rewrite Hw, Z.sub_diag.
  - destruct IH as (p0 & Hp0 & -> & Hn & Hw). assert (p0 = p) as -> by congruence.
    pose proof (segment_rx id seg flags d junk local foreign l f p Hsel Hid Hst Hio Hn Hw ltac:(lia)) as Hm.
    rewrite may_Ret in Hm. destruct (Hm _ _ Hr) as (p' & H1 & H2 & H3 & H4 & H5). exists p'. split; [done|].
    destruct Hio as (_ & _ & Hl & _). rewrite H2, app_assoc. split_and!; [done| |lia|lia].
    rewrite H5. case_decide; [done|]. apply wrap_range. lia.
  - destruct IH as (p & Hp & -> & Hn & Hw).
    pose proof (receive_rx id size l f Hs) as Hm. rewrite may_Ret in Hm.
    destruct (Hm ltac:(intros p' Hp'; by simplify_eq) _ _ Hr d eq_refl) as (q & p' & Q1 & Q2 & Q3 & _ & Q4 & Q5). assert (q = p) as -> by congruence.
    exists p'. split; [done|]. assert (length (pending p) = Z.to_nat (remain p)) as Hlen by apply length_buf_read.
    rewrite Q3, length_app in Hlen. rewrite Q3, app_assoc. unfold remain in Hlen. split_and!; [done|lia|lia|lia].
  - destruct IH as (p & Hp & -> & Hn & Hw). destruct (rxs_lookup _ _ _ _ Hrx Hp) as (p' & Hp' & [= R1 R2 R3]).
    exists p'. unfold pending, remain. by rewrite R2, R3.
Qed.

(** C25: TCP delivers a byte stream, for segments that arrive in order, each where
    the one before it ended, without FIN, within the window, and as long as the
    sequence numbers do not wrap ([rcv_nxt + 65535 < 2^32]): of the bytes that
    arrived [tcp_receive] has returned a prefix and the receive buffer holds the
    rest, however arrivals and reads interleave; the window is the room left. *)
Theorem tcp_stream_fifo id l sent got : stream id l sent got →
  ∃ p rest, l !! id = Some p ∧ sent = got ++ rest ∧ buf_read (t_buf p) (Z.of_nat (length rest)) = rest ∧
    rcv_wnd (t_rcv p) = TCP_RCV_BUF_SIZE - Z.of_nat (length rest).
Proof.
  intros (p & H1 & H2 & _ & H3)%stream_inv. exists p, (pending p). split; [done|]. split; [done|].
  assert (Z.of_nat (length (pending p)) = remain p) as -> by (unfold pending; rewrite length_buf_read; unfold remain; lia).
  split; [done|]. unfold remain. lia.
Qed.
End stream.

(** ** What goes wrong *)

Section text.
Context {F : Type} `{IpWire F}.
Implicit Types (l : list tcp_pcb) (f : F).

(** An acceptable segment with nothing new to acknowledge reaches the text. *)
Lemma segment_enters_text id l f p seg flags data len local foreign :
  (id < length l)%nat → exact local foreign p → alone id l local foreign → t_state p = TCP_PCB_STATE_ESTABLISHED →
  seq_acceptable p seg = true → TCP_FLG_ISSET flags TCP_FLG_ACK = true →
  sg_ack seg = snd_una (t_snd p) → snd_una (t_snd p) <= snd_nxt (t_snd p) →
  tcp_segment_arrives seg flags data len local foreign (<[id := p]> l, f) =
    (arrives_text id seg data len ;; arrives_fin id seg flags) (<[id := p]> l, f).
Proof.
  intros Hid Hex Hal Hst Hacc Hfa Hack Hle. rewrite arrives_at by done. rewrite Hst, Hacc, Hfa.
  cbn [negb Z.eqb Pos.eqb TCP_PCB_STATE_ESTABLISHED TCP_PCB_STATE_CLOSED TCP_PCB_STATE_LISTEN TCP_PCB_STATE_SYN_SENT].
  erewrite bind_Ret.
  2: { unfold arrives_ack. tstep. rewrite Hst. cbn [Z.eqb Pos.eqb TCP_PCB_STATE_ESTABLISHED TCP_PCB_STATE_SYN_RECEIVED].
    change (in_states _ _) with true. cbv iota. unfold arrives_ack_data. tstep. cbv zeta. rewrite Hack, Z.ltb_irrefl. cbn [andb].
    destruct (Z.ltb_spec (snd_nxt (t_snd p)) (snd_una (t_snd p))); [lia|]. erewrite bind_Ret by done. cbn [negb].
    rewrite Hst. change (TCP_PCB_STATE_ESTABLISHED =? TCP_PCB_STATE_FIN_WAIT1) with false. cbn [andb].
    erewrite bind_Ret by done. reflexivity. }
  reflexivity.
Qed.

(** C39: A segment longer than the window overruns the receive buffer: the check
    of the sequence number is content with the first byte in the window, and the
    text is copied behind the end of the buffer. *)
Theorem tcp_text_overruns id l f p seg flags d local foreign :
  (id < length l)%nat → exact local foreign p → alone id l local foreign → t_state p = TCP_PCB_STATE_ESTABLISHED →
  sg_seq seg = rcv_nxt (t_rcv p) → sg_len seg = Z.of_nat (length d) → TCP_FLG_ISSET flags TCP_FLG_ACK = true →
  sg_ack seg = snd_una (t_snd p) → snd_una (t_snd p) <= snd_nxt (t_snd p) →
  0 <= rcv_nxt (t_rcv p) → rcv_nxt (t_rcv p) + rcv_wnd (t_rcv p) < 2 ^ 32 →
  0 < rcv_wnd (t_rcv p) → TCP_RCV_BUF_SIZE < remain p + Z.of_nat (length d) →
  tcp_segment_arrives seg flags d (Z.of_nat (length d)) local foreign (<[id := p]> l, f) = Fault.
Proof.
  intros Hid Hex Hal Hst Hseq Hlen Hfa Hack Hle Hn Hw Hpos Hover. unfold remain in Hover. rewrite segment_enters_text; try done.
  2: { unfold seq_acceptable. rewrite Hst, Hseq, Hlen. change (in_states _ _) with true. cbv iota.
    rewrite (wrap_small 32 (_ + rcv_wnd _)) by (unfold in_range; lia).
    destruct (Z.eqb_spec (Z.of_nat (length d)) 0); [lia|]. destruct (Z.eqb_spec (rcv_wnd (t_rcv p)) 0); [lia|].
    apply orb_true_iff. left. lia. }
  unfold arrives_text. assert (∀ A B (m : M (list tcp_pcb * F) A) (k : A → M (list tcp_pcb * F) B) s, m s = Fault → (m ≫= k) s = Fault) as Hf
    by (intros A B m k s E; unfold mbind, M_bind; by rewrite E).
  apply Hf. tstep. rewrite Hst. change (in_states _ _) with true. destruct (Z.eqb_spec (Z.of_nat (length d)) 0); [lia|]. cbn [negb andb].
  assert (sub_bytes d 0 (Z.of_nat (length d)) = Some d) as -> by (apply (sub_bytes_at d [] d []); [by rewrite app_nil_r|done|done]).
  erewrite bind_Ret by done. rewrite buf_write_overrun by lia. done.
Qed.

(** A segment that begins before the expected byte is delivered whole, the
    bytes already received included: with a retransmission that carries new data
    the reader gets bytes twice. *)
Theorem tcp_overlap_duplicates id l f p seg flags d junk k local foreign :
  (id < length l)%nat → exact local foreign p → alone id l local foreign → t_state p = TCP_PCB_STATE_ESTABLISHED →
  0 < k < Z.of_nat (length d) → sg_seq seg = rcv_nxt (t_rcv p) - k → k <= rcv_nxt (t_rcv p) →
  sg_len seg = Z.of_nat (length d) → TCP_FLG_ISSET flags TCP_FLG_ACK = true → TCP_FLG_ISSET flags TCP_FLG_FIN = false →
  sg_ack seg = snd_una (t_snd p) → snd_una (t_snd p) <= snd_nxt (t_snd p) →
  rcv_nxt (t_rcv p) + rcv_wnd (t_rcv p) < 2 ^ 32 →
  Z.of_nat (length d) <= rcv_wnd (t_rcv p) <= TCP_RCV_BUF_SIZE → (3 <= pages f)%nat →
  run (tcp_segment_arrives seg flags (d ++ junk) (Z.of_nat (length d)) local foreign) (<[id := p]> l, f) (λ _ s,
    ∃ p', s.1 !! id = Some p' ∧ pending p' = pending p ++ d ∧
      rcv_nxt (t_rcv p') = rcv_nxt (t_rcv p) + (Z.of_nat (length d) - k)).
Proof.
  intros Hid Hex Hal Hst Hk Hseq Hkn Hlen Hfa Hff Hack Hle Hwrap Hw Hpg. apply run_Ret.
  assert (tcp_segment_arrives seg flags (d ++ junk) (Z.of_nat (length d)) local foreign (<[id := p]> l, f) =
    (arrives_text id seg (d ++ junk) (Z.of_nat (length d)) ;; arrives_fin id seg flags) (<[id := p]> l, f)) as ->.
  { apply segment_enters_text; try done. unfold seq_acceptable. rewrite Hst, Hseq, Hlen. change (in_states _ _) with true. cbv iota.
    destruct (Z.eqb_spec (Z.of_nat (length d)) 0); [lia|]. destruct (Z.eqb_spec (rcv_wnd (t_rcv p)) 0); [lia|].
    rewrite (wrap_small 32 (_ + rcv_wnd _)), (wrap_small 32 (_ + Z.of_nat _)), (wrap_small 32 (_ - 1)) by (unfold in_range; lia).
    apply orb_true_iff. right. lia. }
  assert (run (arrives_text id seg (d ++ junk) (Z.of_nat (length d))) (<[id := p]> l, f) (λ _ _, True)) as Hrun.
  { unfold arrives_text. apply run_Ret. tstep. rewrite Hst. change (in_states _ _) with true.
    destruct (Z.eqb_spec (Z.of_nat (length d)) 0); [lia|]. cbn [negb andb].
    rewrite (sub_bytes_at (d ++ junk) [] d junk) by done. erewrite bind_Ret by done.
    destruct (buf_write_spec (t_buf p) (TCP_RCV_BUF_SIZE - rcv_wnd (t_rcv p)) d) as (b' & E1 & _); [lia|lia|].
    rewrite E1. erewrite bind_Ret by done. do 3 tstep.
    match goal with |- context [<[id := ?q]> l] => destruct (tcp_output_run id TCP_FLG_ACK [] l f q Hid ltac:(done) ltac:(constructor) ltac:(done) Hpg)
      as (f2 & t & E2 & _) end.
    rewrite (bind_Ret _ _ _ _ _ E2). do 2 eexists. done. }
  pose proof (text_rx id seg d junk (<[id := p]> l) f p (list_lookup_insert_eq _ _ _ Hid)) as Hm.
  assert (Hpost := run_and_may _ _ _ _ Hrun (Hm ltac:(by rewrite Hst) ltac:(unfold remain; lia) ltac:(lia))).
  apply run_Ret in Hpost as ([] & [l1 f1] & E1 & _ & p' & Hp' & P1 & _ & _ & P2).
  rewrite (bind_Ret _ _ _ _ _ E1). unfold arrives_fin. rewrite Hff. do 2 eexists. split; [done|]. exists p'. split; [done|]. split; [done|].
  rewrite P2, Hseq, Hlen, decide_False by (intros ->; cbn in Hk; lia). rewrite wrap_small by (unfold in_range; lia). lia.
Qed.
End text.

(** The server of the handshake, established; it has received [1; 2]. *)
Definition est_block : tcp_pcb :=
  TPcb TCP_PCB_STATE_ESTABLISHED TCP_PCB_MODE_SOCKET srv_ep cl_ep (Snd 501 501 65535 101 501) 500
    (Rcv 103 65533) 100 [1; 2] sched_ctx_init [] None [].
Definition new_block : tcp_pcb :=
  TPcb TCP_PCB_STATE_ESTABLISHED TCP_PCB_MODE_SOCKET srv_ep cl_ep (Snd 501 501 65535 101 501) 500
    (Rcv 101 65535) 100 [] sched_ctx_init [] None [].

Lemma tcp_stream_fifo_witness :
  ∃ l', stream (F := wire) 0 l' [1; 2] [1] ∧ ∃ p rest, l' !! 0%nat = Some p ∧ [1; 2] = [1] ++ rest ∧
    rcv_wnd (t_rcv p) = TCP_RCV_BUF_SIZE - Z.of_nat (length rest).
Proof.
  assert (∃ l', stream (F := wire) 0 l' [1; 2] [1]) as [l' Hs].
  { eexists. eapply (st_receive 0 _ wire_boot [1; 2] [] 1 [1] _ wire_boot); [|lia|].
    - eapply (st_segment 0 _ wire_boot [] [] (Seg 101 501 2 100) 16 [1; 2] [] srv_ep cl_ep new_block () (<[0%nat := est_block]> tcp_boot)).
      + apply (st_open 0 (<[0%nat := new_block]> tcp_boot) new_block); [reflexivity..|discriminate|reflexivity].
      + reflexivity.
      + reflexivity.
      + reflexivity.
      + repeat split; discriminate.
      + reflexivity.
      + vm_compute. reflexivity.
    - vm_compute. reflexivity. }
  exists l'. split; [exact Hs|]. destruct (tcp_stream_fifo 0 l' [1; 2] [1] Hs) as (p & rest & H1 & H2 & _ & H3).
  exists p, rest. auto.
Defined.

Lemma est_alone : alone 0 tcp_boot srv_ep cl_ep.
Proof. intros j q _ [-> _]%lookup_replicate (_ & Hport & _). discriminate Hport. Qed.

Lemma tcp_text_overruns_witness :
  tcp_segment_arrives (F := wire) (Seg 103 501 3 100) 16 [3; 4; 5] 3 srv_ep cl_ep
    (<[0%nat := t_set_rcv (Rcv 103 1) est_block]> tcp_boot, wire_boot) = Fault.
Proof.
  apply (tcp_text_overruns (F := wire) 0 tcp_boot wire_boot (t_set_rcv (Rcv 103 1) est_block) (Seg 103 501 3 100) 16 [3; 4; 5] srv_ep cl_ep);
    [vm_compute; lia|split; [by right|split; reflexivity]|apply est_alone|reflexivity..|discriminate|discriminate|reflexivity|reflexivity|reflexivity].
Defined.

Lemma tcp_overlap_duplicates_witness :
  run (tcp_segment_arrives (F := wire) (Seg 101 501 3 100) 16 [1; 2; 3] 3 srv_ep cl_ep) (<[0%nat := est_block]> tcp_boot, wire_boot)
    (λ _ s, ∃ p', s.1 !! 0%nat = Some p' ∧ pending p' = [1; 2] ++ [1; 2; 3] ∧ rcv_nxt (t_rcv p') = 104).
Proof.
  apply (tcp_overlap_duplicates (F := wire) 0 tcp_boot wire_boot est_block (Seg 101 501 3 100) 16 [1; 2; 3] [] 2 srv_ep cl_ep);
    [vm_compute; lia|split; [by right|split; reflexivity]|apply est_alone|reflexivity|split; reflexivity|reflexivity|discriminate|reflexivity..
    |discriminate|reflexivity|split; discriminate|cbn; lia].
Defined.
