(* ===== verification/TcpState.v ===== *)
(** * TCP connections: the state diagram, termination of the calls, the send window *)
From S2P Require Import Prelude NetUtil NetSys NetDev NetAddr Arp Ip Transport NetFuel Tcp TcpMsg TcpOpen TcpData.

(** ** The state diagram *)

(** The arrows of the diagram that segments take, in one step. *)
Definition moves : list (Z * Z) :=
  [ (TCP_PCB_STATE_FREE, TCP_PCB_STATE_SYN_RECEIVED); (TCP_PCB_STATE_LISTEN, TCP_PCB_STATE_SYN_RECEIVED);
    (TCP_PCB_STATE_SYN_SENT, TCP_PCB_STATE_ESTABLISHED); (TCP_PCB_STATE_SYN_SENT, TCP_PCB_STATE_SYN_RECEIVED);
    (TCP_PCB_STATE_SYN_RECEIVED, TCP_PCB_STATE_ESTABLISHED); (TCP_PCB_STATE_SYN_RECEIVED, TCP_PCB_STATE_CLOSE_WAIT);
    (TCP_PCB_STATE_ESTABLISHED, TCP_PCB_STATE_CLOSE_WAIT);
    (TCP_PCB_STATE_FIN_WAIT1, TCP_PCB_STATE_FIN_WAIT2); (TCP_PCB_STATE_FIN_WAIT1, TCP_PCB_STATE_CLOSING);
    (TCP_PCB_STATE_FIN_WAIT1, TCP_PCB_STATE_TIME_WAIT); (TCP_PCB_STATE_FIN_WAIT2, TCP_PCB_STATE_TIME_WAIT);
    (TCP_PCB_STATE_LAST_ACK, TCP_PCB_STATE_CLOSED); (TCP_PCB_STATE_LAST_ACK, TCP_PCB_STATE_FREE) ].

Definition sts (l : list tcp_pcb) : list Z := t_state <$> l.
Lemma cores_sts l l' : cores l' = cores l → sts l' = sts l.
Proof. by apply cores_fmap. Qed.
Lemma sts_lookup l id p : l !! id = Some p → sts l !! id = Some (t_state p).
Proof. intros E. unfold sts. by rewrite list_lookup_fmap, E. Qed.
Lemma sts_insert id l p : sts (<[id := p]> l) = <[id := t_state p]> (sts l).
Proof. apply list_fmap_insert. Qed.
Lemma sts_keep id l p p' : l !! id = Some p → t_state p' = t_state p → sts (<[id := p']> l) = sts l.
Proof. intros Hid E. rewrite sts_insert, E. apply list_insert_id. by apply sts_lookup. Qed.
(** A block in a state, the states of the others apart. *)
Lemma sts_at l id s x p : sts l = <[id := x]> s → (id < length s)%nat → l !! id = Some p → t_state p = x.
Proof. intros E Hid Hp. apply sts_lookup in Hp. rewrite E, list_lookup_insert_eq in Hp by done. congruence. Qed.

(** In a state of which it is known which it is. *)
Ltac states :=
  unfold in_states, TCP_PCB_STATE_FREE, TCP_PCB_STATE_CLOSED, TCP_PCB_STATE_LISTEN, TCP_PCB_STATE_SYN_SENT,
    TCP_PCB_STATE_SYN_RECEIVED, TCP_PCB_STATE_ESTABLISHED, TCP_PCB_STATE_FIN_WAIT1, TCP_PCB_STATE_FIN_WAIT2,
    TCP_PCB_STATE_CLOSING, TCP_PCB_STATE_TIME_WAIT, TCP_PCB_STATE_CLOSE_WAIT, TCP_PCB_STATE_LAST_ACK in *;
  cbn [existsb] in *; lia.

Section diagram.
Context {F : Type} `{SysIf F} `{IpService F}.
Implicit Types (l : list tcp_pcb) (f : F).

Lemma output_sts id flg data l f : may (tcp_output id flg data) (l, f) (λ _ s, sts s.1 = sts l).
Proof. eapply may_mono; [apply output_core|]. intros r s. apply cores_sts. Qed.
Lemma cleanup_sts id l f : may (tcp_retransmit_queue_cleanup id) (l, f) (λ _ s, sts s.1 = sts l).
Proof. eapply may_mono; [apply cleanup_core|]. intros r s. apply cores_sts. Qed.

(** A move of block [id] from state [a] to [b]. *)
Definition moved (id : nat) (b : Z) l l' : Prop := sts l' = <[id := b]> (sts l).
Lemma moved_refl id l p : l !! id = Some p → moved id (t_state p) l l.
Proof. intros E. unfold moved. symmetry. by apply list_insert_id, sts_lookup. Qed.
Lemma moved_sts id l p l' : l !! id = Some p → sts l' = sts l → moved id (t_state p) l l'.
Proof. intros E E'. unfold moved. rewrite E'. by apply moved_refl. Qed.

(** The fifth check: at most the acknowledgement of the SYN or of the FIN moves
    the block. *)
Lemma ack_data_moves id seg l f p :
  l !! id = Some p → may (arrives_ack_data id seg) (l, f) (λ go s, ∃ b, moved id b l s.1 ∧
    (b = t_state p ∨ go = true ∧ t_state p = TCP_PCB_STATE_FIN_WAIT1 ∧ b = TCP_PCB_STATE_FIN_WAIT2)).
Proof.
  intros Hid. unfold arrives_ack_data. do 2 mstep. mfocus. cbv zeta. mstep.
  apply may_mono with (P := λ _ s, sts s.1 = sts l).
  - mstep.
    + do 3 mstep. eapply may_mono; [apply cleanup_sts|]. intros [] [l1 f1] E. cbn [fst] in E. rewrite (sts_keep id l pcb) in E by done.
      cbv beta. mstep. mstep.
      * do 2 mstep. cbn [fst]. rewrite <- E. by apply sts_keep with (p := pcb0).
      * by do 2 mstep.
    + mstep; [by mstep|]. mstep; [|by mstep]. mstep. eapply may_mono; [apply output_sts|]. intros r s E. by mstep.
  - intros go [l1 f1] E. cbn [fst] in E. cbv beta. mstep; [mstep; eexists; split; [by apply moved_sts|by left]|].
    destruct go; [|done]. mstep. mstep; do 2 mstep.
    + cbn [fst]. eexists. split; [unfold moved; rewrite sts_insert, E; reflexivity|]. right. split; [done|]. split; [states|done].
    + eexists. split; [by apply moved_sts|by left].
Qed.
Lemma release_solo_moves id l f p :
  l !! id = Some p → t_backlog p = [] → may (tcp_pcb_release id) (l, f) (λ _ s, ∃ b, moved id b l s.1 ∧
    (b = t_state p ∨ b = TCP_PCB_STATE_FREE)).
Proof.
  intros Hid Hb. unfold tcp_pcb_release. do 2 mstep. rewrite (Nat.add_comm (2 * backlogs l)). cbn [Nat.add].
  generalize (2 * backlogs l)%nat. intros n. cbn [release release_backlog]. do 2 mstep. mfocus. mstep.
  - mstep. eexists. split; [by apply moved_refl|by left].
  - mstep. apply may_frees. intros f1. do 5 mstep.
    mfocus. cbn [t_backlog t_set_queue]. rewrite Hb. mstep. cbn [qpop].
    apply may_ret. cbv beta iota. do 2 mstep. mfocus. cbn [fst]. eexists. split; [unfold moved; by rewrite sts_insert|by right].
Qed.

(** What a step makes of the states: nothing, or one block moves along an arrow. *)
Definition one_move l l' : Prop :=
  sts l' = sts l ∨ ∃ id a b, sts l !! id = Some a ∧ moved id b l l' ∧ (a, b) ∈ moves.
Lemma one_move_intro id l l' p b :
  l !! id = Some p → moved id b l l' → b = t_state p ∨ (t_state p, b) ∈ moves → one_move l l'.
Proof.
  intros Hid Hm [->|Hin].
  - left. unfold moved in Hm. rewrite Hm. by apply list_insert_id, sts_lookup.
  - right. exists id, (t_state p), b. split; [by apply sts_lookup|done].
Qed.

Lemma reset_moves seg flags local foreign l f : may (tcp_reset seg flags local foreign) (l, f) (λ _ s, one_move l s.1).
Proof.
  unfold tcp_reset. mstep; [mstep; by left|]. mstep; mstep; (eapply may_mono; [apply output_segment_keeps|]);
    intros r [l1 f1] E; cbn [fst] in E; subst l1; cbv beta; mstep; by left.
Qed.

Lemma listen_moves id seg flags local foreign l f p :
  l !! id = Some p → t_state p = TCP_PCB_STATE_LISTEN →
  may (arrives_listen id seg flags local foreign) (l, f) (λ _ s, one_move l s.1).
Proof.
  intros Hid Hst. unfold arrives_listen. mstep; [mstep; by left|]. mstep.
  { mstep. eapply may_mono; [apply output_segment_keeps|]. intros r [l1 f1] E. cbn [fst] in E. subst l1. cbv beta. mstep. by left. }
  mstep; [|mstep; by left]. do 2 mstep. mfocus. mstep.
  (* the block that takes the connection, and its state before *)
  apply may_mono with (P := λ o s, match o with
    | None => s.1 = l
    | Some n => ∃ q b, l !! n = Some q ∧ moved n b l s.1 ∧ (t_state q = TCP_PCB_STATE_FREE ∨ t_state q = TCP_PCB_STATE_LISTEN)
    end).
  { mstep; [|mstep; eexists _, _; split; [done|]; split; [by apply moved_refl|by right]].
    mstep. unfold tcp_pcb_alloc. do 2 mstep. mstep; [|by do 2 mstep]. destruct p0 as [n q]. match goal with E : list_find _ _ = Some _ |- _ => apply list_find_Some in E as (Hn & Hfree & _) end.
    do 6 mstep. mfocus.
    mstep. mfocus. mstep. cbn [fst]. eexists _, _. split; [done|]. split; [unfold moved; by rewrite sts_insert|by left]. }
  intros o [l1 f1] Ho. cbn [fst] in Ho. destruct o as [n|]; [|mstep; subst l1; by left].
  destruct Ho as (q & b & Hq & Hm & Hqst). pose proof (lookup_lt_Some _ _ _ Hq) as Hlt.
  do 8 mstep. mfocus. do 4 mstep. mfocus. mstep.
  eapply may_mono; [apply output_sts|]. intros r [l2 f2] E. cbn [fst] in E. cbv beta.
  assert (sts l2 = sts l1) as E2 by (rewrite E; by apply sts_keep with (p := pcb)). clear E.
  do 3 mstep. mfocus. apply (one_move_intro n l _ q TCP_PCB_STATE_SYN_RECEIVED); [done| |].
  - cbn [fst]. unfold moved in *. rewrite sts_insert, E2, Hm, list_insert_insert_eq. done.
  - right. destruct Hqst as [->| ->]; unfold moves; in_list.
Qed.

Lemma syn_sent_moves id seg flags local foreign l f p :
  l !! id = Some p → t_state p = TCP_PCB_STATE_SYN_SENT →
  may (arrives_syn_sent id seg flags local foreign) (l, f) (λ _ s, one_move l s.1).
Proof.
  intros Hid Hst. unfold arrives_syn_sent. do 2 mstep. mfocus. cbv zeta. mstep.
  { mstep. eapply may_mono; [apply output_segment_keeps|]. intros r [l1 f1] E. cbn [fst] in E. subst l1. cbv beta. mstep. by left. }
  mstep; [|mstep; by left]. do 4 mstep. mfocus.
  mstep. apply may_mono with (P := λ _ s, sts s.1 = sts l).
  { mstep.
    - do 2 mstep. mfocus. eapply may_mono; [apply cleanup_sts|]. intros [] s E. rewrite E. by eapply sts_keep.
    - mstep. by eapply sts_keep. }
  intros [] [l1 f1] E. cbn [fst] in E. do 2 mstep. mstep.
  - do 3 mstep. mfocus. eapply may_mono; [apply output_sts|]. intros r [l2 f2] E2. cbn [fst] in E2. cbv beta. mstep.
    apply (one_move_intro id l _ p TCP_PCB_STATE_ESTABLISHED); [done| |right; rewrite Hst; unfold moves; in_list].
    cbn [fst]. unfold moved. rewrite (sts_keep id l2 _ _ ltac:(eassumption)) by done. by rewrite E2, sts_insert, E.
  - do 3 mstep. mfocus. eapply may_mono; [apply output_sts|]. intros r [l2 f2] E2. cbn [fst] in E2. cbv beta. mstep.
    apply (one_move_intro id l _ p TCP_PCB_STATE_SYN_RECEIVED); [done| |right; rewrite Hst; unfold moves; in_list].
    cbn [fst]. unfold moved. by rewrite E2, sts_insert, E.
Qed.

(** From the ACK field on; when processing goes on, what the state can be. *)
Definition acked (a b : Z) : Prop :=
  b = a ∨ a = TCP_PCB_STATE_SYN_RECEIVED ∧ b = TCP_PCB_STATE_ESTABLISHED ∨ a = TCP_PCB_STATE_FIN_WAIT1 ∧ b = TCP_PCB_STATE_FIN_WAIT2.

Lemma ack_moves id seg local foreign l f p :
  l !! id = Some p → (t_state p = TCP_PCB_STATE_LAST_ACK → t_backlog p = []) →
  may (arrives_ack id seg local foreign) (l, f) (λ go s, ∃ b, moved id b l s.1 ∧
    if (go : bool) then acked (t_state p) b else b = t_state p ∨ (t_state p, b) ∈ moves).
Proof.
  intros Hid Hbl. pose proof (lookup_lt_Some _ _ _ Hid) as Hlt. unfold arrives_ack. do 2 mstep. mfocus. mstep.
  - mstep.
    + do 2 mstep. mfocus. set (p1 := t_set_state TCP_PCB_STATE_ESTABLISHED p). mstep.
      apply may_mono with (P := λ _ s, sts s.1 = sts (<[id := p1]> l)).
      { mstep; [|by mstep]. do 2 mstep. mstep. apply may_qpush; intros f'; cbv beta iota; mstep; by eapply sts_keep. }
      intros [] [l1 f1] E. cbn [fst] in E. rewrite sts_insert in E. cbv beta.
      assert (∃ p2, l1 !! id = Some p2 ∧ t_state p2 = TCP_PCB_STATE_ESTABLISHED) as (p2 & Hp2 & Hst2).
      { assert (sts l1 !! id = Some TCP_PCB_STATE_ESTABLISHED) as E1.
        { rewrite E. apply list_lookup_insert_eq. unfold sts. by rewrite length_fmap. }
        unfold sts in E1. rewrite list_lookup_fmap in E1. apply fmap_Some in E1 as (p2 & ? & ?). eauto. }
      eapply may_mono; [apply (ack_data_moves id seg l1 f1 p2 Hp2)|]. intros go [l2 f2] (b & Hm & Hb). cbn [fst] in *.
      rewrite Hst2 in Hb. assert (b = TCP_PCB_STATE_ESTABLISHED) as -> by (destruct Hb as [?|(_ & ? & _)]; [done|states]).
      exists TCP_PCB_STATE_ESTABLISHED. split; [unfold moved in *; by rewrite Hm, E, list_insert_insert_eq|].
      assert (t_state p = TCP_PCB_STATE_SYN_RECEIVED) as -> by states. destruct go; [right; by left|right; unfold moves; in_list].
    + mstep. eapply may_mono; [apply output_segment_keeps|]. intros r [l1 f1] E. cbn [fst] in E. subst l1. cbv beta. mstep.
      eexists. split; [by apply moved_refl|by left].
  - mstep.
    + eapply may_mono; [by apply ack_data_moves|]. intros go s (b & Hm & Hb). exists b. split; [done|].
      destruct Hb as [->|(-> & Hst & ->)]; [destruct go; by left|]. right; by right.
    + mstep; [|mstep; eexists; split; [by apply moved_refl|by left]].
      assert (t_state p = TCP_PCB_STATE_LAST_ACK) as Hst by states. rewrite Hst. mstep.
      apply may_mono with (P := λ _ s, ∃ b, moved id b l s.1 ∧ (b = TCP_PCB_STATE_LAST_ACK ∨ (TCP_PCB_STATE_LAST_ACK, b) ∈ moves)).
      * mstep; [|mstep; exists TCP_PCB_STATE_LAST_ACK; split; [rewrite <- Hst; by apply moved_refl|by left]]. do 2 mstep. mfocus.
        eapply may_mono; [apply (release_solo_moves id _ _ (t_set_state TCP_PCB_STATE_CLOSED p))|].
        { by apply list_lookup_insert_eq. } { by apply Hbl. }
        intros [] s (b & Hm & Hb). exists b. split; [unfold moved in *; by rewrite Hm, sts_insert, list_insert_insert_eq|].
        right. destruct Hb as [->| ->]; unfold moves; in_list.
      * intros [] s (b & Hm & Hb). mstep. by exists b.
Qed.

Lemma text_sts id seg data len l f : may (arrives_text id seg data len) (l, f) (λ _ s, sts s.1 = sts l).
Proof.
  unfold arrives_text. do 2 mstep. mstep; [|by mstep]. do 10 mstep. mfocus. mstep.
  eapply may_mono; [apply output_sts|]. intros r [l1 f1] E. cbn [fst] in E. cbv beta. mstep. cbn [fst]. rewrite E. by eapply sts_keep.
Qed.

Lemma fin_moves id seg flags l f p :
  l !! id = Some p → may (arrives_fin id seg flags) (l, f) (λ _ s, ∃ b, moved id b l s.1 ∧
    (b = t_state p ∨
     (t_state p = TCP_PCB_STATE_SYN_RECEIVED ∨ t_state p = TCP_PCB_STATE_ESTABLISHED) ∧ b = TCP_PCB_STATE_CLOSE_WAIT ∨
     t_state p = TCP_PCB_STATE_FIN_WAIT1 ∧ (b = TCP_PCB_STATE_TIME_WAIT ∨ b = TCP_PCB_STATE_CLOSING) ∨
     t_state p = TCP_PCB_STATE_FIN_WAIT2 ∧ b = TCP_PCB_STATE_TIME_WAIT)).
Proof.
  intros Hid. unfold arrives_fin. mstep; [|mstep; eexists; split; [by apply moved_refl|by left]]. do 2 mstep. mfocus.
  mstep; [mstep; eexists; split; [by apply moved_refl|by left]|]. do 2 mstep. mstep.
  eapply may_mono; [apply output_sts|]. intros r [l1 f1] E. cbn [fst] in E. cbv beta.
  rewrite (sts_keep id l pcb _ Hpcb) in E by done.
  assert (Hupd : ∀ b, may (pcb_upd id (t_set_state b)) (l1, f1) (λ _ s, moved id b l s.1)).
  { intros b. mstep. cbn [fst]. unfold moved. by rewrite sts_insert, E. }
  mstep.
  { eapply may_mono; [apply Hupd|]. intros [] s Hm. eexists. split; [exact Hm|]. right; left. split; [states|done]. }
  mstep.
  { mstep; (eapply may_mono; [apply Hupd|]); intros [] s Hm; eexists; (split; [exact Hm|]); right; right; left; (split; [states|auto]). }
  mstep; [|mstep; exists (t_state p); split; [by apply moved_sts|by left]].
  eapply may_mono; [apply Hupd|]. intros [] s Hm. eexists. split; [exact Hm|]. right; right; right. split; [states|done].
Qed.

(** C27: A segment moves at most one block, and along an arrow of the state
    diagram of RFC 793; so no segment ever takes a block out of CLOSING,
    TIME-WAIT, CLOSE-WAIT or CLOSED, or frees one but in LAST-ACK. *)
Theorem tcp_state_diagram seg flags data len local foreign l f r l' f' :
  (∀ q, q ∈ l → t_state q = TCP_PCB_STATE_LAST_ACK → t_backlog q = []) →
  tcp_segment_arrives seg flags data len local foreign (l, f) = Ret (r, (l', f')) →
  sts l' = sts l ∨ ∃ id a b, sts l !! id = Some a ∧ sts l' = <[id := b]> (sts l) ∧ (a, b) ∈ moves.
Proof.
  intros Hbl Hr. enough (may (tcp_segment_arrives seg flags data len local foreign) (l, f) (λ _ s, one_move l s.1)) as Hm
    by (rewrite may_Ret in Hm; exact (Hm _ _ Hr)).
  clear Hr. unfold tcp_segment_arrives, tcp_pcb_select. do 2 mstep. mstep; [|apply reset_moves].
  do 2 mstep. mstep; [apply reset_moves|]. mstep; [eapply listen_moves; [done|states]|].
  mstep; [eapply syn_sent_moves; [done|states]|]. mstep.
  { mstep; [|mstep; by left]. mstep. eapply may_mono; [apply output_sts|]. intros x s E. mstep. by left. }
  mstep; [mstep; by left|]. mstep. eapply may_mono; [apply ack_moves; [done|]|].
  { intros Hst. apply Hbl; [by eapply list_elem_of_lookup_2|done]. }
  intros go [l1 f1] (b & Hm & Hb). cbn [fst] in Hm. cbv beta. destruct go; cbn [negb]; [|mstep; by eapply one_move_intro].
  mstep. eapply may_mono; [apply text_sts|]. intros [] [l2 f2] E. cbn [fst] in E. cbv beta.
  assert (∃ p2, l2 !! n = Some p2 ∧ t_state p2 = b) as (p2 & Hp2 & Hst2).
  { assert (sts l2 !! n = Some b) as E1.
    { rewrite E, Hm. apply list_lookup_insert_eq. unfold sts. rewrite length_fmap. by eapply lookup_lt_Some. }
    unfold sts in E1. rewrite list_lookup_fmap in E1. apply fmap_Some in E1 as (p2 & ? & ?). eauto. }
  eapply may_mono; [by apply (fin_moves n seg flags l2 f2 p2)|]. intros [] [l3 f3] (c & Hc & Hcb). cbn [fst] in *.
  apply (one_move_intro n l l3 pcb c); [done| |].
  - unfold moved in *. by rewrite Hc, E, Hm, list_insert_insert_eq.
  - rewrite Hst2 in Hcb. unfold acked in Hb. unfold moves.
    destruct Hb as [->|[[-> ->]|[-> ->] ]];
      destruct Hcb as [->|[[[?|?] ->]|[[? [->| ->] ]|[? ->] ]]]; try states; try (by left); right;
      repeat match goal with E : t_state pcb = _ |- _ => rewrite E; clear E end; in_list.
Qed.
End diagram.

(** ** The calls end *)

Section fuelled.
Context {F : Type} `{SysLaws F} `{IpService F} `{!IpFuel F}.
Abbreviation TM := (M (list tcp_pcb * F)).

#[local] Instance fuelled_at id : Fuelled (pcb_at id : TM tcp_pcb).
Proof. unfold pcb_at. apply _. Qed.
#[local] Instance fuelled_upd id g : Fuelled (pcb_upd id g : TM ()).
Proof. unfold pcb_upd. apply _. Qed.
#[local] Instance fuelled_output_segment seq ack flg wnd data local foreign :
  Fuelled (tcp_output_segment seq ack flg wnd data local foreign : TM Z).
Proof using All. unfold tcp_output_segment. apply _. Qed.
#[local] Instance fuelled_tcp_output id flg data : Fuelled (tcp_output id flg data : TM Z).
Proof using All. unfold tcp_output, tcp_retransmit_queue_add. apply _. Qed.

Implicit Types (l : list tcp_pcb) (f : F).

(** The backlogs never get longer in a release. *)
Lemma backlogs_insert l id p p' : l !! id = Some p → (backlogs (<[id := p']> l) + length (t_backlog p) = backlogs l + length (t_backlog p'))%nat.
Proof.
  unfold backlogs. revert id. induction l as [|q l IH]; intros [|id] Hid; [done|done| |].
  - injection Hid as ->. change (<[0%nat := p']> (p :: l)) with (p' :: l). cbn [sum_list_with]. lia.
  - change (<[S id := p']> (q :: l)) with (q :: <[id := p']> l). cbn [sum_list_with]. specialize (IH id Hid). lia.
Qed.

Lemma release_shrinks n : ∀ id l f,
  may (release n id) (l, f) (λ _ s, (backlogs s.1 <= backlogs l)%nat) ∧
  may (release_backlog n id) (l, f) (λ _ s, (backlogs s.1 <= backlogs l)%nat).
Proof.
  induction n as [|n IH]; intros id l f; [done|]. cbn [release release_backlog]. split.
  - do 2 mstep. mstep; [by mstep|]. mstep. apply may_frees. intros f1. do 2 mstep. mfocus. mstep.
    eapply may_mono; [apply IH|]. intros [] [l1 f2] E. cbn [fst] in E. cbv beta. mstep. cbn [fst].
    pose proof (backlogs_insert l id _ (t_set_queue [] pcb) Hpcb) as E1. cbn in E1.
    pose proof (backlogs_insert l1 id _ tcp_pcb_zero Hpcb0) as E2. cbn in E2. lia.
  - do 3 mstep. apply may_qpop; [intros _; cbv beta iota; by mstep|]. intros est q f1 Eq. cbv beta iota. do 2 mstep. mfocus. mstep.
    pose proof (backlogs_insert l id _ (t_set_backlog q pcb) Hpcb) as E1. rewrite Eq in E1. cbn in E1.
    eapply may_mono; [apply IH|]. intros [] [l1 f2] E. cbn [fst] in E. cbv beta.
    eapply may_mono; [apply IH|]. intros [] s E'. cbn [fst] in *. lia.
Qed.

Lemma bind_fuelled {S A B} (m : M S A) (k : A → M S B) s :
  m s ≠ OutOfFuel → may m s (λ a s', k a s' ≠ OutOfFuel) → (m ≫= k) s ≠ OutOfFuel.
Proof. unfold may, mbind, M_bind. by destruct (m s) as [[a s']| | | |]. Qed.

Lemma release_fuel n : ∀ id l f,
  ((2 * backlogs l + 2 <= n)%nat → release n id (l, f) ≠ OutOfFuel) ∧
  ((2 * backlogs l + 1 <= n)%nat → release_backlog n id (l, f) ≠ OutOfFuel).
Proof.
  induction n as [|n IH]; intros id l f; [lia|]. split; intros Hn; cbn [release release_backlog].
  - apply bind_fuelled; [apply fuelled_at|]. mstep. destruct (_ =? -1); [done|].
    apply bind_fuelled; [apply fuelled_mapM; apply _|]. apply may_frees. intros f1.
    apply bind_fuelled; [apply fuelled_upd|]. mstep. mfocus.
    pose proof (backlogs_insert l id _ (t_set_queue [] pcb) Hpcb) as E1. cbn in E1.
    apply bind_fuelled; [apply IH; lia|]. apply may_Ret. intros [] s _. apply fuelled_upd.
  - apply bind_fuelled; [apply fuelled_at|]. mstep. apply bind_fuelled; [apply fuelled_qpop|].
    apply may_qpop; [done|]. intros est q f1 Eq. cbv beta iota. apply bind_fuelled; [apply fuelled_upd|]. mstep. mfocus.
    pose proof (backlogs_insert l id _ (t_set_backlog q pcb) Hpcb) as E1. rewrite Eq in E1. cbn in E1.
    apply bind_fuelled; [apply IH; lia|]. eapply may_mono; [apply release_shrinks|]. intros [] [l1 f2] E. cbn [fst] in E. apply IH. lia.
Qed.

#[local] Instance fuelled_release id : Fuelled (tcp_pcb_release id : TM ()).
Proof. intros [l f]. unfold tcp_pcb_release. erewrite bind_Ret by done. by apply release_fuel. Qed.

Lemma send_loop_fuel n id data mss : ∀ sent,
  1 <= mss → (length data - Z.to_nat sent <= n)%nat → 0 <= sent → Fuelled (send_loop n id data mss sent : TM (call (nat * Z) Z)).
Proof.
  induction n as [|n IH]; intros sent Hm Hn Hs; cbn [send_loop].
  { destruct (Z.ltb_spec sent (Z.of_nat (length data))); [lia|apply _]. }
  destruct (Z.ltb_spec sent (Z.of_nat (length data))); cbn [negb]; [|apply _].
  apply fuelled_bind; [apply _|]. intros p. cbv zeta.
  pose proof (wrap_range 32 (snd_wnd (t_snd p) - u32 (snd_nxt (t_snd p) - snd_una (t_snd p))) ltac:(lia)) as Hr. unfold in_range in Hr.
  set (cap := u32 (snd_wnd _ - _)) in *. destruct (Z.eqb_spec cap 0); [apply _|].
  apply fuelled_bind; [apply _|]. intros d. apply fuelled_bind; [apply _|]. intros r. apply fuelled_if; [apply _|].
  apply fuelled_bind; [apply _|]. intros _. apply IH; lia.
Qed.

(** The interfaces that [ip_route_get_iface] gives have room for the two headers
    and a byte. *)
Definition mtu_above_headers (f : F) : Prop :=
  ∀ dst ifp f1 m f2, ip_iface_for dst f = Ret (Some ifp, f1) → iface_mtu ifp f1 = Ret (m, f2) →
    IP_HDR_SIZE_MIN + TCP_HDR_SIZE < m < 65536.

Lemma send_retry_fuel k data sent l f : mtu_above_headers f → 0 <= sent → send_retry k data sent (l, f) ≠ OutOfFuel.
Proof using All.
  intros Hmtu Hs. unfold send_retry. apply bind_fuelled; [apply fuelled_at|]. mstep. destruct (in_states _ _); [|done].
  apply bind_fuelled; [apply fuelled_up, _|]. apply may_Ret. intros o s (f1 & E1 & ->)%up_Ret_inv. destruct o as [ifp|]; [|done].
  apply bind_fuelled; [apply fuelled_up, _|]. apply may_Ret. intros m s (f2 & E2 & ->)%up_Ret_inv. cbn [fst snd] in *.
  pose proof (Hmtu _ _ _ _ _ E1 E2) as Hm. apply send_loop_fuel; [|lia|done].
  unfold IP_HDR_SIZE_MIN, TCP_HDR_SIZE in *. rewrite wrap_small by (unfold in_range; lia). lia.
Qed.

(** C38: The calls end, over any lower layers whose own routines end ([IpFuel], as
    those of the modelled IP, ARP and device layers do): closing a connection and
    releasing a block, with the blocks of its backlog in turn; and sending, from the
    start and after each wake-up, in segments of at least one byte each, provided the
    MTU of the interface exceeds the 40 bytes of the two headers (and is below 65536).
    They never run out of the fuel the model gives their loops, whatever they find. *)
Theorem tcp_calls_terminate id b k data sent l f : mtu_above_headers f → 0 <= sent →
  tcp_send id data (l, f) ≠ OutOfFuel ∧ send_wake k data sent (l, f) ≠ OutOfFuel ∧
  tcp_close id (l, f) ≠ OutOfFuel ∧ tcp_pcb_release b (l, f) ≠ OutOfFuel.
Proof using All.
  intros Hmtu Hs. assert (Fuelled (tcp_pcb_get id : TM (option nat))) as Hget by (unfold tcp_pcb_get; apply _).
  split_and!; [| |by apply (fuelled_bind _ _ Hget _)|apply fuelled_release].
  - unfold tcp_send. apply bind_fuelled; [apply Hget|]. unfold tcp_pcb_get. destruct (_ || _); [by mstep|]. mstep. mstep.
    destruct (t_state _ =? _); mstep; [done|]. by apply send_retry_fuel.
  - unfold send_wake. apply bind_fuelled; [apply fuelled_at|]. mstep. destruct (sched_sleep_leave _) as [err c].
    apply bind_fuelled; [apply fuelled_upd|]. mstep. destruct (err =? -1); [done|]. by apply send_retry_fuel.
Qed.
End fuelled.

(** ** The send window *)

Definition in_flight (p : tcp_pcb) : Z := u32 (snd_nxt (t_snd p) - snd_una (t_snd p)).
Definition window_ok (p : tcp_pcb) : Prop := in_flight p <= snd_wnd (t_snd p) < 65536.

Section window.
Context {F : Type} `{SysIf F} `{IpService F}.
Implicit Types (l : list tcp_pcb) (f : F).

(** A release zeroes blocks or leaves their send side alone. *)
Definition snd_kept l l' : Prop := ∀ j p', l' !! j = Some p' →
  t_snd p' = Snd 0 0 0 0 0 ∨ ∃ p, l !! j = Some p ∧ t_snd p' = t_snd p.
Lemma snd_kept_refl l : snd_kept l l.
Proof. intros j p' Hj. eauto. Qed.
Lemma snd_kept_trans l1 l2 l3 : snd_kept l1 l2 → snd_kept l2 l3 → snd_kept l1 l3.
Proof. intros H1 H2 j p' [?|(p & Hp & ->)]%H2; [by left|by apply H1]. Qed.
Lemma snd_kept_insert l id p p' : l !! id = Some p → t_snd p' = t_snd p ∨ t_snd p' = Snd 0 0 0 0 0 → snd_kept l (<[id := p']> l).
Proof.
  intros Hid Hp j q. destruct (decide (j = id)) as [->|Hne].
  - rewrite list_lookup_insert_eq by (by eapply lookup_lt_Some). intros [= <-]. destruct Hp; [right; eauto|by left].
  - rewrite list_lookup_insert_ne by done. eauto.
Qed.

Lemma release_snd n : ∀ id l f,
  may (release n id) (l, f) (λ _ s, snd_kept l s.1) ∧ may (release_backlog n id) (l, f) (λ _ s, snd_kept l s.1).
Proof.
  induction n as [|n IH]; intros id l f; [done|]. cbn [release release_backlog]. split.
  - do 2 mstep. mstep; [mstep; apply snd_kept_refl|]. mstep. apply may_frees. intros f1. do 2 mstep. mfocus. mstep.
    eapply may_mono; [apply IH|]. intros [] [l1 f2] E. cbn [fst] in E. cbv beta. mstep. cbn [fst].
    eapply snd_kept_trans; [eapply snd_kept_trans; [|exact E]|]; eapply snd_kept_insert; eauto.
  - do 3 mstep. apply may_qpop; [intros _; cbv beta iota; mstep; apply snd_kept_refl|]. intros est q f1 Eq. cbv beta iota. do 2 mstep. mfocus. mstep.
    eapply may_mono; [apply IH|]. intros [] [l1 f2] E. cbn [fst] in E. cbv beta.
    eapply may_mono; [apply IH|]. intros [] s E'. cbn [fst] in *.
    eapply snd_kept_trans; [eapply snd_kept_trans; [|exact E]|exact E']. eapply snd_kept_insert; eauto.
Qed.

Lemma send_loop_window n id data mss : ∀ sent l f,
  0 <= mss → (∀ p, l !! id = Some p → window_ok p) →
  may (send_loop n id data mss sent) (l, f) (λ _ s, ∀ p, s.1 !! id = Some p → window_ok p).
Proof.
  induction n as [|n IH]; intros sent l f Hm Hw; cbn [send_loop]; (mstep; [by mstep|]); [done|].
  do 2 mstep. pose proof (Hw _ Hpcb) as [Hw1 Hw2]. cbv zeta. fold (in_flight pcb).
  pose proof (wrap_range 32 (snd_nxt (t_snd pcb) - snd_una (t_snd pcb)) ltac:(lia)) as Hr. fold (in_flight pcb) in Hr. unfold in_range in Hr.
  rewrite (wrap_small 32 (snd_wnd _ - _)) by (unfold in_range; lia). set (cap := snd_wnd (t_snd pcb) - in_flight pcb) in *.
  pose proof (lookup_lt_Some _ _ _ Hpcb) as Hlt. mstep.
  - mstep; [|by mstep]. do 3 mstep. mfocus. cbn [fst]. intros p. rewrite list_lookup_insert_eq by done. intros [= <-]. done.
  - do 3 mstep. eapply may_mono; [apply output_core|]. intros r [l1 f1] E. cbn [fst] in E. cbv beta.
    destruct (cores_lookup _ _ _ _ E Hpcb) as (p1 & Hp1 & Ep1). apply (f_equal t_snd) in Ep1. cbn in Ep1.
    assert (∀ q, l1 !! id = Some q → t_snd q = t_snd pcb) as Hsnd by (intros q Hq; congruence). clear Ep1.
    pose proof (lookup_lt_Some _ _ _ Hp1) as Hlt1. mstep.
    + do 3 mstep. mfocus. unfold tcp_pcb_release. mstep. mstep. eapply may_mono; [apply release_snd|].
      intros [] [l2 f2] Hk. cbn [fst] in Hk. mstep. cbn [fst]. intros p2 [Hz|(q & Hq & Eq)]%Hk.
      * unfold window_ok, in_flight. rewrite Hz. cbn. split; [vm_compute; discriminate|lia].
      * rewrite list_lookup_insert_eq in Hq by done. injection Hq as <-. unfold window_ok, in_flight. rewrite Eq.
        cbn [t_snd t_set_state]. rewrite (Hsnd _ ltac:(eassumption)). fold (in_flight pcb). lia.
    + do 2 mstep. mfocus. apply IH; [done|]. intros p. rewrite list_lookup_insert_eq by done. intros [= <-].
      unfold window_ok, in_flight, add_nxt. cbn [t_snd t_set_snd snd_nxt snd_una snd_wnd]. rewrite !(Hsnd _ ltac:(eassumption)), wrap_sub_l.
      set (slen := Z.min _ cap). assert (0 <= slen <= cap).
      { apply length_sub_bytes in Ha1. lia. }
      replace (snd_nxt (t_snd pcb) + slen - snd_una (t_snd pcb)) with (snd_nxt (t_snd pcb) - snd_una (t_snd pcb) + slen) by lia.
      rewrite <- wrap_add_l. fold (in_flight pcb). rewrite wrap_small by (unfold in_range; lia). lia.
Qed.

(** [tcp_send] respects the peer's window: what is sent and not acknowledged
    stays within it, if it was. (When the peer has shrunk its window below what
    is in flight, [cap] wraps around and the call sends on: [cap_wraps].) *)
Theorem tcp_send_window id data l f r l' f' p' :
  (∀ ifp f m f', iface_mtu ifp f = Ret (m, f') → 40 <= m < 65536) → (∀ p, l !! id = Some p → window_ok p) →
  tcp_send (Z.of_nat id) data (l, f) = Ret (r, (l', f')) → l' !! id = Some p' → window_ok p'.
Proof.
  intros Hmtu Hw Hr Hp'. enough (may (tcp_send (Z.of_nat id) data) (l, f) (λ _ s, ∀ p, s.1 !! id = Some p → window_ok p)) as Hm
    by (rewrite may_Ret in Hm; by apply (Hm _ _ Hr)).
  clear Hr Hp'. unfold tcp_send, tcp_pcb_get. mstep. mstep; [by mstep|].
  rewrite Nat2Z.id. mstep. mstep.
  mstep; [by mstep|].
  mstep.
  unfold send_retry. do 2 mstep.
  mfocus. mstep; [|by mstep].
  do 2 mstep. mstep; [|by mstep].
  mstep.
  apply may_Ret. intros m s (f1 & E1 & ->)%up_Ret_inv. apply Hmtu in E1. cbn [fst]. apply send_loop_window; [|done].
  unfold IP_HDR_SIZE_MIN, TCP_HDR_SIZE. rewrite wrap_small by (unfold in_range; lia). lia.
Qed.

Lemma cap_wraps p : 0 <= snd_wnd (t_snd p) < in_flight p → in_flight p < 2 ^ 31 →
  2 ^ 31 <= u32 (snd_wnd (t_snd p) - in_flight p).
Proof.
  intros H1 H2. unfold wrap. replace (snd_wnd (t_snd p) - in_flight p) with (2 ^ 32 + snd_wnd (t_snd p) - in_flight p + (-1) * 2 ^ 32) by lia.
  rewrite Z_mod_plus_full, Z.mod_small; lia.
Qed.
End window.

(** ** Closing a block that was never connected *)

Section leak.
Context {F : Type} `{SysIf F} `{IpService F}.

(** A socket that is opened and closed, [n] times; the result of the last [tcp_close]. *)
Fixpoint open_close (n : nat) : M (list tcp_pcb * F) Z :=
  match n with
  | O => mret 0
  | S n => open_close n ;; id ← tcp_open; tcp_close id
  end.

(** [tcp_close] refuses a socket that was opened and neither connected nor
    listening, and leaves it in use: after [TCP_PCB_SIZE] programs did no more than
    [tcp_open] and [tcp_close], no connection can be opened any more, and no
    [tcp_close] helps. *)
Theorem tcp_close_leaks (f : F) : ∃ l,
  open_close (Z.to_nat TCP_PCB_SIZE) (tcp_boot, f) = Ret (-1, (l, f)) ∧
  tcp_open (l, f) = Ret (-1, (l, f)) ∧ ∀ id, tcp_close id (l, f) = Ret (-1, (l, f)).
Proof.
  exists (replicate 16 cl_block). split; [reflexivity|]. split; [reflexivity|]. intros id. unfold tcp_close, tcp_pcb_get.
  destruct (Z.ltb_spec id 0), (Z.leb_spec TCP_PCB_SIZE id); try reflexivity. cbn [orb].
  assert (replicate 16 cl_block !! Z.to_nat id = Some cl_block) as E1 by (apply lookup_replicate_2; unfold TCP_PCB_SIZE in *; lia).
  pose proof (pcb_at_Ret _ _ f _ E1) as E2.
  erewrite bind_Ret; [|rewrite (bind_Ret _ _ _ _ _ E2); reflexivity]. cbv iota. by rewrite (bind_Ret _ _ _ _ _ E2).
Qed.
End leak.

(** A FIN on an established connection; the calls on it and on the table at boot. *)
Lemma tcp_state_diagram_witness :
  ∃ r l' f', tcp_segment_arrives (F := wire) (Seg 103 501 1 100) 17 [] 0 srv_ep cl_ep (<[0%nat := est_block]> tcp_boot, wire_boot) =
      Ret (r, (l', f')) ∧
  (sts l' = sts (<[0%nat := est_block]> tcp_boot) ∨
   ∃ id a b, sts (<[0%nat := est_block]> tcp_boot) !! id = Some a ∧ sts l' = <[id := b]> (sts (<[0%nat := est_block]> tcp_boot)) ∧ (a, b) ∈ moves).
Proof.
  do 3 eexists. split; [vm_compute; reflexivity|].
  eapply (tcp_state_diagram (F := wire) (Seg 103 501 1 100) 17 [] 0 srv_ep cl_ep (<[0%nat := est_block]> tcp_boot) wire_boot).
  - intros q Hq. change (<[0%nat := est_block]> tcp_boot) with (est_block :: replicate 15 tcp_pcb_zero) in Hq.
    apply elem_of_cons in Hq as [->|Hq]; [reflexivity|]. apply elem_of_replicate in Hq as [-> _]. reflexivity.
  - vm_compute. reflexivity.
Defined.

(** The modelled stack below TCP, with the driver and the network of [Ip]. *)
Section stack.
#[local] Instance stack_driver : DevOps sys :=
  { op_open _ := None; op_close _ := None; op_transmit _ _ _ _ _ := mret 0 }.
#[local] Instance stack_driver_fuel : DevFuel sys.
Proof. intros dev d type data dst. cbn. apply _. Qed.
Definition stack : Type := ip nat * (caches * (net nat * sys)).
Definition stack_boot : stack := (lan_ip, (caches_boot, lan_net 1)).

Lemma tcp_calls_terminate_witness :
  mtu_above_headers (F := stack) stack_boot ∧
  tcp_send (F := stack) 0 [1; 2; 3] (<[0%nat := est_block]> tcp_boot, stack_boot) ≠ OutOfFuel.
Proof.
  assert (mtu_above_headers (F := stack) stack_boot) as Hmtu.
  { intros dst ifp f1 m f2 E1 E2. cbn in E1. injection E1 as _ <-.
    apply (ip_service_mtu _ _ _ _ (λ m, 40 < m < 65536)) in E2; [exact E2|]. repeat constructor; reflexivity. }
  split; [exact Hmtu|].
  destruct (tcp_calls_terminate (F := stack) 0 0%nat 0%nat [1; 2; 3] 0 (<[0%nat := est_block]> tcp_boot) stack_boot Hmtu ltac:(lia)) as [Hs _].
  exact Hs.
Defined.
End stack.

(** A window of four bytes, of which two are in flight: the call sends two and sleeps. *)
Lemma tcp_send_window_witness :
  ∃ l' f' p', tcp_send (F := wire) 0 [1; 2; 3] (<[0%nat := t_set_snd (Snd 503 501 4 101 501) est_block]> tcp_boot, wire_boot) =
    Ret (Sleeps (0%nat, 2), (l', f')) ∧ l' !! 0%nat = Some p' ∧ window_ok p'.
Proof.
  do 3 eexists. split; [vm_compute; reflexivity|]. split; [reflexivity|].
  eapply (tcp_send_window (F := wire) 0 [1; 2; 3] (<[0%nat := t_set_snd (Snd 503 501 4 101 501) est_block]> tcp_boot) wire_boot).
  - intros ifp f m f' [= <- <-]. split; [discriminate|reflexivity].
  - intros p [= <-]. split; [vm_compute; discriminate|reflexivity].
  - vm_compute. reflexivity.
  - reflexivity.
Defined.
