(* ===== verification/Vm.v ===== *)
(** * Virtual memory: [kernel/vm.c]

    Sv39 page tables live in the byte memory of [Kalloc]: a page table entry is
    the little-endian word at its address, and every table is a page of
    [kalloc]. [defs.h] defines [LAB_COW] and [LAB_MMAP], [config.h] (for the
    CV1800B) [THEAD_PTE]; the code under these macros is part of the program. A
    TLB is not modelled: the fences leave no trace.

    The loops run over page addresses, with the number of pages as their fuel.
    The routines on memory areas of processes ([sys_mmap], [sys_munmap]) need
    the process and file layers and are not modelled here. *)
From S2P Require Import Prelude KString Kalloc.

(** ** Page table entries *)

Definition PGROUNDDOWN (a : Z) : Z := Z.land a (u64 (Z.lnot (PGSIZE - 1))).
Definition PTE_V : Z := 0x1.
Definition PTE_R : Z := 0x2.
Definition PTE_W : Z := 0x4.
Definition PTE_X : Z := 0x8.
Definition PTE_U : Z := 0x10.
Definition PTE_A : Z := 0x40.
Definition PTE_D : Z := 0x80.
Definition PTE_COW : Z := 0x100.
(** Bits 59 to 63, the T-Head memory attributes. *)
Definition PTE_HIGH : Z := Z.shiftl 0x1f 59.
Definition PTE_THEAD_DEVICE : Z := Z.lor (Z.shiftl 1 63) (Z.shiftl 1 60).
Definition PTE_THEAD_NORMAL : Z := Z.lor (Z.lor (Z.shiftl 1 62) (Z.shiftl 1 61)) (Z.shiftl 1 60).
Definition PTE_DEVICE : Z := Z.lor (Z.lor PTE_R PTE_W) PTE_THEAD_DEVICE.
Definition PTE_EXEC : Z := Z.lor (Z.lor PTE_R PTE_X) PTE_THEAD_NORMAL.
Definition PTE_RO : Z := Z.lor PTE_R PTE_THEAD_NORMAL.
Definition PTE_NORMAL : Z := Z.lor PTE_RO PTE_W.

Definition PA2PTE (pa : Z) : Z := u64 (Z.shiftl (Z.shiftr pa 12) 10).
Definition PTE2PA (pte : Z) : Z := u64 (Z.shiftl (Z.shiftr (Z.ldiff pte PTE_HIGH) 10) 12).
Definition PTE_FLAGS (pte : Z) : Z := Z.land pte (Z.lor 0x3ff PTE_HIGH).
Definition PX (level va : Z) : Z := Z.land (Z.shiftr va (12 + 9 * level)) 0x1ff.
Definition MAXVA : Z := Z.shiftl 1 38.
Definition TRAMPOLINE : Z := MAXVA - PGSIZE.
Definition TRAPFRAME : Z := TRAMPOLINE - PGSIZE.

Definition isset (x flag : Z) : bool := negb (Z.land x flag =? 0).

Section vm.
Context (_end : Z).
Abbreviation KM := (M kmem_t).

Definition pte_read (pte : Z) : KM Z := in_phys (load64 pte).
Definition pte_write (pte v : Z) : KM () := in_phys (store64 pte v).

(** ** Walking and mapping *)

Fixpoint walk_loop (level : nat) (pagetable va : Z) (alloc : bool) : KM Z :=
  match level with
  | O => mret (pagetable + 8 * PX 0 va)
  | S l =>
      let pte := pagetable + 8 * PX (Z.of_nat level) va in
      v ← pte_read pte;
      if isset v PTE_V then walk_loop l (PTE2PA v) va alloc else
      if negb alloc then mret 0 else
      pagetable ← kalloc _end;
      if pagetable =? 0 then mret 0 else
      in_phys (memset pagetable 0 (Z.to_nat PGSIZE)) ;;
      pte_write pte (Z.lor (PA2PTE pagetable) PTE_V) ;;
      walk_loop l pagetable va alloc
  end.
Definition walk (pagetable va : Z) (alloc : bool) : KM Z :=
  if MAXVA <=? va then panic "walk" else walk_loop 2 pagetable va alloc.

Definition walkaddr (pagetable va : Z) : KM Z :=
  if MAXVA <=? va then mret 0 else
  pte ← walk pagetable va false;
  if pte =? 0 then mret 0 else
  v ← pte_read pte;
  if negb (isset v PTE_V) then mret 0 else
  if negb (isset v PTE_U) then mret 0 else mret (PTE2PA v).

Definition mk_pte (pa perm : Z) : Z := Z.lor (Z.lor (Z.lor (Z.lor (PA2PTE pa) perm) PTE_V) PTE_A) PTE_D.
Fixpoint map_loop (fuel : nat) (pagetable a last pa perm : Z) : KM Z :=
  match fuel with
  | O => out_of_fuel
  | S fuel =>
      pte ← walk pagetable a true;
      if pte =? 0 then mret (-1) else
      v ← pte_read pte;
      if isset v PTE_V then panic "mappages: remap" else
      pte_write pte (mk_pte pa perm) ;;
      if a =? last then mret 0 else
      map_loop fuel pagetable (u64 (a + PGSIZE)) last (u64 (pa + PGSIZE)) perm
  end.
Definition mappages (pagetable va size pa perm : Z) : KM Z :=
  if size =? 0 then panic "mappages: size" else
  map_loop (Z.to_nat (size / PGSIZE) + 2) pagetable (PGROUNDDOWN va) (PGROUNDDOWN (u64 (va + size - 1))) pa perm.

Definition kvmmap (kpgtbl va pa sz perm : Z) : KM () :=
  r ← mappages kpgtbl va sz pa perm;
  if negb (r =? 0) then panic "kvmmap" else mret ().

Fixpoint unmap_loop (fuel : nat) (pagetable a end_ : Z) (do_free : bool) : KM () :=
  if negb (a <? end_) then mret () else
  match fuel with
  | O => out_of_fuel
  | S fuel =>
      pte ← walk pagetable a false;
      if pte =? 0 then panic "uvmunmap: walk" else
      v ← pte_read pte;
      if negb (isset v PTE_V) then panic "uvmunmap: not mapped" else
      if Z.land (PTE_FLAGS v) 0x3ff =? PTE_V then panic "uvmunmap: not a leaf" else
      (if do_free then kfree _end (PTE2PA v) else mret ()) ;;
      pte_write pte 0 ;;
      unmap_loop fuel pagetable (u64 (a + PGSIZE)) end_ do_free
  end.
Definition uvmunmap (pagetable va npages : Z) (do_free : bool) : KM () :=
  if negb (va mod PGSIZE =? 0) then panic "uvmunmap: not aligned" else
  unmap_loop (Z.to_nat npages) pagetable va (u64 (va + u64 (npages * PGSIZE))) do_free.

(** ** User memory *)

Definition uvmcreate : KM Z :=
  pagetable ← kalloc _end;
  if pagetable =? 0 then mret 0 else
  in_phys (memset pagetable 0 (Z.to_nat PGSIZE)) ;; mret pagetable.

Definition uvmfirst (pagetable src sz : Z) : KM () :=
  if PGSIZE <=? sz then panic "uvmfirst: more than a page" else
  mem ← kalloc _end;
  in_phys (memset mem 0 (Z.to_nat PGSIZE)) ;;
  mappages pagetable 0 PGSIZE mem (Z.lor (Z.lor PTE_NORMAL PTE_X) PTE_U) ;;
  in_phys (memmove mem src (Z.to_nat sz)) ;; mret ().

Definition uvmdealloc (pagetable oldsz newsz : Z) : KM Z :=
  if oldsz <=? newsz then mret oldsz else
  (if PGROUNDUP newsz <? PGROUNDUP oldsz then
     let npages := s32 ((PGROUNDUP oldsz - PGROUNDUP newsz) / PGSIZE) in
     uvmunmap pagetable (PGROUNDUP newsz) (u64 npages) true
   else mret ()) ;;
  mret newsz.

Fixpoint alloc_loop (fuel : nat) (pagetable a oldsz newsz xperm : Z) : KM Z :=
  if negb (a <? newsz) then mret newsz else
  match fuel with
  | O => out_of_fuel
  | S fuel =>
      mem ← kalloc _end;
      if mem =? 0 then uvmdealloc pagetable a oldsz ;; mret 0 else
      in_phys (memset mem 0 (Z.to_nat PGSIZE)) ;;
      r ← mappages pagetable a PGSIZE mem (Z.lor (Z.lor PTE_RO PTE_U) xperm);
      if negb (r =? 0) then kfree _end mem ;; uvmdealloc pagetable a oldsz ;; mret 0 else
      alloc_loop fuel pagetable (u64 (a + PGSIZE)) oldsz newsz xperm
  end.
Definition uvmalloc (pagetable oldsz newsz xperm : Z) : KM Z :=
  if newsz <? oldsz then mret oldsz else
  let oldsz := PGROUNDUP oldsz in
  alloc_loop (Z.to_nat ((newsz - oldsz) / PGSIZE) + 1) pagetable oldsz oldsz newsz xperm.

(** The recursion of [freewalk] has the depth of a page table. *)
Fixpoint freewalk (levels : nat) (pagetable : Z) : KM () :=
  match levels with
  | O => out_of_fuel
  | S levels =>
      mapM_ (λ i : nat,
        let e := pagetable + 8 * Z.of_nat i in
        pte ← pte_read e;
        if isset pte PTE_V && negb (isset pte (Z.lor (Z.lor PTE_R PTE_W) PTE_X))
        then freewalk levels (PTE2PA pte) ;; pte_write e 0
        else mret ()) (seq 0 512) ;;
      kfree _end pagetable
  end.

Definition uvmfree (pagetable sz : Z) : KM () :=
  (if 0 <? sz then uvmunmap pagetable 0 (PGROUNDUP sz / PGSIZE) true else mret ()) ;;
  freewalk 3 pagetable.

(** [uvmcopy] shares every page: writable ones become copy-on-write in both tables. *)
Definition cow_mark (pte v : Z) : KM () :=
  if isset v PTE_W then pte_write pte (Z.ldiff v PTE_W) ;; v ← pte_read pte; pte_write pte (Z.lor v PTE_COW) else mret ().
Fixpoint copy_loop (fuel : nat) (old new i sz : Z) : KM Z :=
  if negb (i <? sz) then mret 0 else
  match fuel with
  | O => out_of_fuel
  | S fuel =>
      pte ← walk old i false;
      if pte =? 0 then panic "uvmcopy: pte should exist" else
      v ← pte_read pte;
      if negb (isset v PTE_V) then panic "uvmcopy: page not present" else
      cow_mark pte v ;;
      v ← pte_read pte;
      r ← mappages new i PGSIZE (PTE2PA v) (PTE_FLAGS v);
      if negb (r =? 0) then uvmunmap new 0 (i / PGSIZE) true ;; mret (-1) else
      page_share _end (PTE2PA v) ;;
      copy_loop fuel old new (u64 (i + PGSIZE)) sz
  end.
Definition uvmcopy (old new sz : Z) : KM Z := copy_loop (Z.to_nat (sz / PGSIZE) + 1) old new 0 sz.

Definition uvmclear (pagetable va : Z) : KM () :=
  pte ← walk pagetable va false;
  if pte =? 0 then panic "uvmclear" else
  v ← pte_read pte; pte_write pte (Z.ldiff v PTE_U).

(** ** Copying between kernel and user memory *)

Definition cow_panic : string := "Failed to allocate physical page for COW" +:+ String (Ascii.ascii_of_nat 10) EmptyString.
(** The page is given a copy of its own; the result is its address. *)
Definition cow_copy (pte v : Z) : KM Z :=
  mem ← kalloc _end;
  if mem =? 0 then panic cow_panic else
  in_phys (memmove mem (PTE2PA v) (Z.to_nat PGSIZE)) ;;
  pte_write pte (Z.lor (Z.lor (PA2PTE mem) (PTE_FLAGS v)) PTE_W) ;;
  v' ← pte_read pte;
  pte_write pte (Z.ldiff v' PTE_COW) ;;
  kfree _end (PTE2PA v) ;;
  mret mem.

(** Every turn copies a byte at least. *)
Fixpoint copyout_loop (fuel : nat) (pagetable dstva src len : Z) : KM Z :=
  if negb (0 <? len) then mret 0 else
  match fuel with
  | O => out_of_fuel
  | S fuel =>
      let va0 := PGROUNDDOWN dstva in
      if MAXVA <=? va0 then mret (-1) else
      pte ← walk pagetable va0 false;
      if pte =? 0 then mret (-1) else
      v ← pte_read pte;
      if negb (isset v PTE_V) || negb (isset v PTE_U) then mret (-1) else
      pa0 ← (if isset v PTE_COW then p ← cow_copy pte v; mret (Some p)
             else if negb (isset v PTE_W) then mret None else mret (Some (PTE2PA v)));
      match pa0 with
      | None => mret (-1)
      | Some pa0 =>
          let n := Z.min (PGSIZE - (dstva - va0)) len in
          in_phys (memmove (pa0 + (dstva - va0)) src (Z.to_nat n)) ;;
          copyout_loop fuel pagetable (va0 + PGSIZE) (src + n) (len - n)
      end
  end.
Definition copyout (pagetable dstva src len : Z) : KM Z := copyout_loop (Z.to_nat len) pagetable dstva src len.

Fixpoint copyin_loop (fuel : nat) (pagetable dst srcva len : Z) : KM Z :=
  if negb (0 <? len) then mret 0 else
  match fuel with
  | O => out_of_fuel
  | S fuel =>
      let va0 := PGROUNDDOWN srcva in
      pa0 ← walkaddr pagetable va0;
      if pa0 =? 0 then mret (-1) else
      let n := Z.min (PGSIZE - (srcva - va0)) len in
      in_phys (memmove dst (pa0 + (srcva - va0)) (Z.to_nat n)) ;;
      copyin_loop fuel pagetable (dst + n) (va0 + PGSIZE) (len - n)
  end.
Definition copyin (pagetable dst srcva len : Z) : KM Z := copyin_loop (Z.to_nat len) pagetable dst srcva len.

(** The inner loop of [copyinstr] over the [n] bytes of a page: whether it met
    the NUL. *)
Fixpoint str_loop (n : nat) (dst p : Z) : KM bool :=
  match n with
  | O => mret false
  | S n =>
      b ← in_phys (load8 p);
      in_phys (store8 dst b) ;;
      if b =? 0 then mret true else str_loop n (dst + 1) (p + 1)
  end.
Fixpoint copyinstr_loop (fuel : nat) (pagetable dst srcva max : Z) : KM Z :=
  if negb (0 <? max) then mret (-1) else
  match fuel with
  | O => out_of_fuel
  | S fuel =>
      let va0 := PGROUNDDOWN srcva in
      pa0 ← walkaddr pagetable va0;
      if pa0 =? 0 then mret (-1) else
      let n := Z.min (PGSIZE - (srcva - va0)) max in
      got_null ← str_loop (Z.to_nat n) dst (pa0 + (srcva - va0));
      if (got_null : bool) then mret 0 else copyinstr_loop fuel pagetable (dst + n) (va0 + PGSIZE) (max - n)
  end.
Definition copyinstr (pagetable dst srcva max : Z) : KM Z := copyinstr_loop (Z.to_nat max) pagetable dst srcva max.
End vm.
