(* ===== verification/VmTable.v ===== *)
(** * Page tables as maps

    A page table stands for two maps: the tables it is made of, by level and
    position ([tables]), and the entries of its lowest level, by virtual page
    number. [rep] says what the memory of the tables holds; [walk] and the
    routines on top of it are proved to look up, insert and delete in these maps. *)
From S2P Require Import Prelude KString Kalloc Vm.

(** ** Bits of page table entries *)

Lemma isset_bit v k : 0 <= k → isset v (2 ^ k) = Z.testbit v k.
Proof.
  intros Hk. unfold isset. destruct (Z.testbit v k) eqn:E.
  - destruct (Z.eqb_spec (Z.land v (2 ^ k)) 0) as [E0|]; [|done]. exfalso.
    assert (Z.testbit (Z.land v (2 ^ k)) k = true) as E1 by (rewrite Z.land_spec, E, Z.pow2_bits_true by lia; done).
    by rewrite E0, Z.bits_0 in E1.
  - replace (Z.land v (2 ^ k)) with 0; [done|]. symmetry. apply Z.bits_inj'. intros i Hi.
    rewrite Z.land_spec, Z.bits_0, Z.pow2_bits_eqb by lia. destruct (Z.eqb_spec k i) as [->|]; [by rewrite E|apply andb_false_r].
Qed.

Lemma PTE_HIGH_testbit j : 0 <= j → Z.testbit PTE_HIGH j = (59 <=? j) && (j <? 64).
Proof.
  intros Hj. unfold PTE_HIGH. rewrite Z.shiftl_spec by done. change 0x1f with (Z.ones 5).
  destruct (Z.leb_spec 59 j); cbn [andb].
  - rewrite Z.testbit_ones by lia. destruct (Z.ltb_spec j 64); lia.
  - by rewrite Z.testbit_neg_r by lia.
Qed.
Lemma PA2PTE_testbit pa j : 0 <= j → Z.testbit (PA2PTE pa) j = (10 <=? j) && (j <? 64) && Z.testbit pa (j + 2).
Proof.
  intros Hj. unfold PA2PTE. rewrite wrap_testbit, Z.shiftl_spec by lia. case_bool_decide.
  - destruct (Z.leb_spec 10 j); cbn [andb].
    + rewrite Z.shiftr_spec by lia. destruct (Z.ltb_spec j 64); [|lia]. by replace (j - 10 + 12) with (j + 2) by lia.
    + by rewrite Z.testbit_neg_r by lia.
  - destruct (Z.ltb_spec j 64); [lia|]. by rewrite andb_false_r.
Qed.
Lemma PTE2PA_testbit e i : 0 <= i → Z.testbit (PTE2PA e) i = (12 <=? i) && (i <? 61) && Z.testbit e (i - 2).
Proof.
  intros Hi. unfold PTE2PA. rewrite wrap_testbit, Z.shiftl_spec by lia. destruct (Z.leb_spec 12 i); cbn [andb].
  - rewrite Z.shiftr_spec, Z.ldiff_spec, PTE_HIGH_testbit by lia. replace (i - 12 + 10) with (i - 2) by lia.
    destruct (Z.ltb_spec i 61).
    + rewrite bool_decide_true by lia. destruct (Z.leb_spec 59 (i - 2)); [lia|]. apply andb_true_r.
    + case_bool_decide; [|done]. destruct (Z.leb_spec 59 (i - 2)), (Z.ltb_spec (i - 2) 64); try lia; done.
  - rewrite (Z.testbit_neg_r _ (i - 12)) by lia. apply andb_false_r.
Qed.
Lemma PTE_FLAGS_testbit e j : 0 <= j → Z.testbit (PTE_FLAGS e) j = ((j <? 10) || ((59 <=? j) && (j <? 64))) && Z.testbit e j.
Proof.
  intros Hj. unfold PTE_FLAGS. rewrite Z.land_spec, Z.lor_spec, PTE_HIGH_testbit by done. change 0x3ff with (Z.ones 10).
  rewrite Z.testbit_ones by lia. rewrite andb_comm. f_equal. f_equal. lia.
Qed.

(** The flags of an entry are bits below 10; [flag_bits] evaluates them on
    constants, [pte_bits] proves an equality of entries or addresses bit by bit. *)
Definition perm_ok (perm : Z) : Prop := PTE_FLAGS perm = perm.
Definition aligned (pa : Z) : Prop := pa mod PGSIZE = 0 ∧ 0 <= pa < 2 ^ 56.

Lemma aligned_testbit pa i : aligned pa → 0 <= i → (i < 12 ∨ 56 <= i) → Z.testbit pa i = false.
Proof.
  intros [Ha Hr] Hi [Hlt|Hge].
  - rewrite <- (Z.mod_pow2_bits_low pa 12 i) by lia. change (2 ^ 12) with PGSIZE. by rewrite Ha, Z.bits_0.
  - rewrite <- (Z.mod_small pa (2 ^ 56)) by done. by apply Z.mod_pow2_bits_high.
Qed.
Lemma perm_testbit perm j : perm_ok perm → 0 <= j → (10 <= j < 59 ∨ 64 <= j) → Z.testbit perm j = false.
Proof.
  intros Hp Hj Hr. rewrite <- Hp, PTE_FLAGS_testbit by done.
  destruct (Z.ltb_spec j 10), (Z.leb_spec 59 j), (Z.ltb_spec j 64); (lia || done).
Qed.
Lemma perm_flags e : perm_ok (PTE_FLAGS e).
Proof.
  apply Z.bits_inj'. intros j Hj. rewrite !PTE_FLAGS_testbit by done. by destruct (_ || _).
Qed.

Lemma flag_testbit k j : 0 <= k → 0 <= j → Z.testbit (2 ^ k) j = (j =? k).
Proof. intros. rewrite Z.pow2_bits_eqb by done. apply Z.eqb_sym. Qed.

Lemma mk_pte_testbit pa perm j : 0 <= j → Z.testbit (mk_pte pa perm) j =
  Z.testbit (PA2PTE pa) j || Z.testbit perm j || (j =? 0) || (j =? 6) || (j =? 7).
Proof.
  intros Hj. unfold mk_pte. rewrite !Z.lor_spec. change PTE_V with (2 ^ 0). change PTE_A with (2 ^ 6). change PTE_D with (2 ^ 7).
  by rewrite !flag_testbit by lia.
Qed.

Lemma PTE2PA_mk pa perm : aligned pa → perm_ok perm → PTE2PA (mk_pte pa perm) = pa.
Proof.
  intros Ha Hp. apply Z.bits_inj'. intros i Hi. rewrite PTE2PA_testbit by done.
  destruct (Z.leb_spec 12 i); [|by rewrite (aligned_testbit pa) by (done || lia)].
  destruct (Z.ltb_spec i 61); [|by rewrite (aligned_testbit pa) by (done || lia)]. cbn [andb].
  rewrite mk_pte_testbit, PA2PTE_testbit, (perm_testbit perm) by (first [exact Hp|lia]). replace (i - 2 + 2) with i by lia.
  destruct (Z.leb_spec 10 (i - 2)), (Z.ltb_spec (i - 2) 64), (Z.eqb_spec (i - 2) 0), (Z.eqb_spec (i - 2) 6), (Z.eqb_spec (i - 2) 7); try lia.
Qed.

Lemma bits_range e : (∀ j, 64 <= j → Z.testbit e j = false) → in_range 64 e.
Proof.
  intros He. assert (wrap 64 e = e) as <-; [|by apply wrap_range].
  apply Z.bits_inj'. intros j Hj. rewrite wrap_testbit by lia. case_bool_decide; [done|]. by rewrite He by lia.
Qed.
Lemma range_testbit e j : in_range 64 e → 64 <= j → Z.testbit e j = false.
Proof. intros He Hj. rewrite <- (wrap_small 64 e He), wrap_testbit by lia. by rewrite bool_decide_false by lia. Qed.

Lemma PTE2PA_ext e e' : (∀ j, 10 <= j < 59 → Z.testbit e j = Z.testbit e' j) → PTE2PA e = PTE2PA e'.
Proof.
  intros He. apply Z.bits_inj'. intros i Hi. rewrite !PTE2PA_testbit by done.
  destruct (Z.leb_spec 12 i), (Z.ltb_spec i 61); try done. cbn [andb]. apply He. lia.
Qed.

(** The entry of a table, and a leaf's page after [uvmcopy] and [cow_copy]. *)
Definition ptr_pte (q : Z) : Z := Z.lor (PA2PTE q) PTE_V.
Lemma ptr_pte_testbit q j : 0 <= j → Z.testbit (ptr_pte q) j = Z.testbit (PA2PTE q) j || (j =? 0).
Proof. intros Hj. unfold ptr_pte. rewrite Z.lor_spec. change PTE_V with (2 ^ 0). by rewrite flag_testbit by lia. Qed.
Lemma ptr_pte_range q : in_range 64 (ptr_pte q).
Proof.
  apply bits_range. intros j Hj. rewrite ptr_pte_testbit, PA2PTE_testbit by lia.
  destruct (Z.ltb_spec j 64), (Z.eqb_spec j 0); lia.
Qed.
Lemma ptr_pte_valid q : isset (ptr_pte q) PTE_V = true.
Proof. change PTE_V with (2 ^ 0). rewrite isset_bit, ptr_pte_testbit by lia. apply orb_true_r. Qed.
Lemma PTE2PA_ptr q : aligned q → PTE2PA (ptr_pte q) = q.
Proof.
  intros Ha. transitivity (PTE2PA (mk_pte q 0)); [|by apply PTE2PA_mk].
  apply PTE2PA_ext. intros j Hj. rewrite ptr_pte_testbit, mk_pte_testbit, Z.bits_0 by lia.
  destruct (Z.eqb_spec j 0), (Z.eqb_spec j 6), (Z.eqb_spec j 7); lia.
Qed.

Lemma mk_pte_range pa perm : perm_ok perm → in_range 64 (mk_pte pa perm).
Proof.
  intros Hp. apply bits_range. intros j Hj. rewrite mk_pte_testbit, PA2PTE_testbit, (perm_testbit perm) by (done || lia).
  destruct (Z.ltb_spec j 64), (Z.eqb_spec j 0), (Z.eqb_spec j 6), (Z.eqb_spec j 7); lia.
Qed.
(** A flag of a new entry, below bit 10. *)
Lemma mk_pte_flag pa perm j : aligned pa → 0 <= j < 10 →
  Z.testbit (mk_pte pa perm) j = Z.testbit perm j || (j =? 0) || (j =? 6) || (j =? 7).
Proof.
  intros Ha Hj. rewrite mk_pte_testbit, PA2PTE_testbit by lia. destruct (Z.leb_spec 10 j); [lia|]. done.
Qed.

Lemma cow_pte_testbit v j : 0 <= j →
  Z.testbit (Z.lor (Z.ldiff v PTE_W) PTE_COW) j = Z.testbit v j && negb (j =? 2) || (j =? 8).
Proof.
  intros Hj. rewrite Z.lor_spec, Z.ldiff_spec. change PTE_W with (2 ^ 2). change PTE_COW with (2 ^ 8). by rewrite !flag_testbit by lia.
Qed.
Lemma own_pte_testbit q v j : 0 <= j →
  Z.testbit (Z.ldiff (Z.lor (Z.lor (PA2PTE q) (PTE_FLAGS v)) PTE_W) PTE_COW) j =
  (Z.testbit (PA2PTE q) j || Z.testbit (PTE_FLAGS v) j || (j =? 2)) && negb (j =? 8).
Proof.
  intros Hj. rewrite Z.ldiff_spec, !Z.lor_spec. change PTE_W with (2 ^ 2). change PTE_COW with (2 ^ 8). by rewrite !flag_testbit by lia.
Qed.

(** Whether a leaf maps a page: one of [R], [W], [X] is set. *)
Lemma rwx_bits e : isset e (Z.lor (Z.lor PTE_R PTE_W) PTE_X) = Z.testbit e 1 || Z.testbit e 2 || Z.testbit e 3.
Proof.
  unfold isset. destruct (Z.eqb_spec (Z.land e (Z.lor (Z.lor PTE_R PTE_W) PTE_X)) 0) as [E|E]; cbn [negb].
  - assert (∀ j, 0 <= j → Z.testbit (Z.lor (Z.lor PTE_R PTE_W) PTE_X) j = true → Z.testbit e j = false) as Hj.
    { intros j Hj Hb. assert (Z.testbit (Z.land e (Z.lor (Z.lor PTE_R PTE_W) PTE_X)) j = false) as Hc by (rewrite E; apply Z.bits_0).
      by rewrite Z.land_spec, Hb, andb_true_r in Hc. }
    by rewrite !Hj by done.
  - destruct (Z.testbit e 1) eqn:H1; [done|]. destruct (Z.testbit e 2) eqn:H2; [done|]. destruct (Z.testbit e 3) eqn:H3; [done|].
    exfalso. apply E, Z.bits_inj'. intros j Hj. rewrite Z.land_spec, Z.bits_0.
    change PTE_R with (2 ^ 1). change PTE_W with (2 ^ 2). change PTE_X with (2 ^ 3). rewrite !Z.lor_spec, !flag_testbit by lia.
    destruct (Z.eqb_spec j 1), (Z.eqb_spec j 2), (Z.eqb_spec j 3); subst; rewrite ?H1, ?H2, ?H3, ?andb_false_r; done.
Qed.

(** ** Tables *)

Abbreviation tables := (gmap (nat * Z) Z).
Abbreviation leaves := (gmap Z Z).
Definition tabs (T : tables) : list Z := (map_to_list T).*2.

Lemma tabs_elem T p : p ∈ tabs T ↔ ∃ k, T !! k = Some p.
Proof.
  unfold tabs. rewrite list_elem_of_fmap. split.
  - intros ([k q] & -> & Hk%elem_of_map_to_list). by exists k.
  - intros [k Hk%elem_of_map_to_list]. by exists (k, p).
Qed.
Lemma tabs_insert T k p : T !! k = None → tabs (<[k := p]> T) ≡ₚ p :: tabs T.
Proof. intros Hk. unfold tabs. by rewrite map_to_list_insert. Qed.

Definition word_at (m : mem) (p v : Z) : Prop := in_range 64 v ∧ bytes_at m p (le_bytes 8 v).
(** The word of entry [x] of a table of level [lv]; [x] counts the entries of
    all tables of the level. *)
Definition entry (T : tables) (L : leaves) (lv : nat) (x : Z) : Z :=
  match lv with
  | O => default 0 (L !! x)
  | S l => match T !! (l, x) with Some q => ptr_pte q | None => 0 end
  end.
Definition in_page (p a : Z) : Prop := p <= a < p + PGSIZE.

Section tables.
Context (_end : Z) (Hend : KERNBASE <= _end <= PHYSTOP).

Record rep (m : mem) (root : Z) (T : tables) (L : leaves) : Prop := {
  rep_root : T !! (2%nat, 0) = Some root;
  rep_page : ∀ k p, T !! k = Some p → page _end p;
  rep_inj : ∀ k k' p, T !! k = Some p → T !! k' = Some p → k = k';
  rep_up : ∀ lv x p, T !! (lv, x) = Some p → lv = 2%nat ∧ x = 0 ∨ (lv < 2)%nat ∧ is_Some (T !! (S lv, x / 512));
  rep_leaf : ∀ v e, L !! v = Some e → in_range 64 e ∧ Z.testbit e 0 = true ∧ is_Some (T !! (0%nat, v / 512));
  rep_entry : ∀ lv x p i, T !! (lv, x) = Some p → 0 <= i < 512 → word_at m (p + 8 * i) (entry T L lv (x * 512 + i));
}.

Lemma page_aligned p : page _end p → aligned p.
Proof using Hend. intros [Hm Hr]. split; [done|]. unfold PHYSTOP, KERNBASE in *. lia. Qed.
Lemma page_pos p : page _end p → p ≠ 0.
Proof using Hend. intros [_ Hr]. unfold KERNBASE in *. lia. Qed.

Lemma word_at_written m m' p v d b :
  d + Z.of_nat (length b) <= p ∨ p + 8 <= d → written m m' d b → word_at m p v → word_at m' p v.
Proof using. intros Hd Hw [Hr Hb]. split; [done|]. eapply bytes_at_written; [|done|done]. rewrite length_le_bytes. lia. Qed.

(** Two entries are the same or do not overlap. *)
Lemma entries_disjoint m root T L k k' p p' i j :
  rep m root T L → T !! k = Some p → T !! k' = Some p' → 0 <= i < 512 → 0 <= j < 512 →
  k = k' ∧ i = j ∨ p + 8 * i + 8 <= p' + 8 * j ∨ p' + 8 * j + 8 <= p + 8 * i.
Proof using Hend.
  intros Hr Hk Hk' Hi Hj. destruct (decide (p = p')) as [<-|Hne].
  - assert (k = k') as -> by (by eapply rep_inj). destruct (decide (i = j)); [by left|]. right. lia.
  - right. destruct (page_disjoint _end p p') as [?|?]; [by eapply rep_page..|done| |]; unfold PGSIZE in *; lia.
Qed.

(** What is outside the tables does not matter. *)
Lemma rep_frame m m' root T L :
  (∀ p a, p ∈ tabs T → in_page p a → m' !! a = m !! a) → rep m root T L → rep m' root T L.
Proof using.
  intros Hf []. constructor; try done. intros lv x p i Hp Hi. destruct (rep_entry0 lv x p i Hp Hi) as [Hr Hb].
  split; [done|]. intros k b Hk. rewrite (Hf p); [by apply Hb|apply tabs_elem; eauto|].
  apply lookup_lt_Some in Hk. rewrite length_le_bytes in Hk. unfold in_page, PGSIZE. lia.
Qed.

(** Writing an entry of the lowest level. *)
Lemma rep_set_leaf m m' root T L v p e :
  rep m root T L → T !! (0%nat, v / 512) = Some p → in_range 64 e → e = 0 ∨ Z.testbit e 0 = true →
  written m m' (p + 8 * (v mod 512)) (le_bytes 8 e) →
  rep m' root T (if decide (e = 0) then delete v L else <[v := e]> L).
Proof using Hend.
  intros Hr Hp He Hv Hw. assert (0 <= v mod 512 < 512) as Hvm by (apply Z.mod_pos_bound; lia).
  assert (∀ x, default 0 ((if decide (e = 0) then delete v L else <[v := e]> L) !! x) =
    if decide (x = v) then e else default 0 (L !! x)) as HL.
  { intros x. do 2 case_decide; subst; by rewrite ?lookup_delete_eq, ?lookup_insert_eq, ?lookup_delete_ne, ?lookup_insert_ne by done. }
  constructor; try apply Hr.
  - intros x e' Hx. case_decide as E0.
    + apply lookup_delete_Some in Hx as [_ Hx]. by eapply rep_leaf.
    + apply lookup_insert_Some in Hx as [[<- <-]|[_ Hx]]; [|by eapply rep_leaf]. split_and!; [done|by destruct Hv|eauto].
  - intros lv x q i Hq Hi. pose proof (rep_entry _ _ _ _ Hr lv x q i Hq Hi) as Hwd.
    destruct (entries_disjoint m root T L (0%nat, v / 512) (lv, x) p q (v mod 512) i Hr Hp Hq Hvm Hi) as [[Hk <-]|Hd].
    + injection Hk as <- <-. rewrite Hp in Hq. injection Hq as <-. cbn [entry].
      rewrite HL. rewrite decide_True by (rewrite (Z.div_mod v 512) at 3 by lia; lia).
      split; [done|by eapply written_bytes_at].
    + assert (entry T (if decide (e = 0) then delete v L else <[v:=e]> L) lv (x * 512 + i) = entry T L lv (x * 512 + i)) as ->.
      { destruct lv as [|lv]; [|done]. cbn [entry]. rewrite HL. rewrite decide_False; [done|]. intros Hx.
        assert (v / 512 = x ∧ v mod 512 = i) as [E1 E2] by dlia. rewrite <- E1 in Hq. rewrite Hp in Hq. injection Hq as <-. lia. }
      eapply word_at_written; [|done|done]. rewrite length_le_bytes. lia.
Qed.

(** Hanging a new, zeroed table into an empty entry. *)
Lemma rep_new_table m m1 m2 root T L lv x p q :
  rep m root T L → T !! (S lv, x / 512) = Some p → (lv < 2)%nat → T !! (lv, x) = None → page _end q → q ∉ tabs T →
  written m m1 q (replicate (Z.to_nat PGSIZE) 0) → written m1 m2 (p + 8 * (x mod 512)) (le_bytes 8 (ptr_pte q)) →
  rep m2 root (<[(lv, x) := q]> T) L.
Proof using Hend.
  intros Hr Hp Hlv Hnone Hq Hnew Hw1 Hw2. assert (0 <= x mod 512 < 512) as Hxm by (apply Z.mod_pos_bound; lia).
  assert (∀ k q', T !! k = Some q' → q ≠ q') as Hne by (intros k q' Hk ->; apply Hnew, tabs_elem; eauto).
  assert (∀ k q', T !! k = Some q' → q + PGSIZE <= q' ∨ q' + PGSIZE <= q) as Hdis.
  { intros k q' Hk. destruct (page_disjoint _end q q'); [done|by eapply rep_page|by eapply Hne|auto|auto]. }
  constructor.
  - rewrite lookup_insert_ne by (intros [= -> ->]; lia). apply Hr.
  - intros k q' [[_ <-]|[_ Hk]]%lookup_insert_Some; [done|by eapply rep_page].
  - intros k k' q' [[<- <-]|[Hk1 Hk]]%lookup_insert_Some [[<- E]|[Hk1' Hk']]%lookup_insert_Some.
    + done.
    + by apply Hne in Hk'.
    + subst q'. by apply Hne in Hk.
    + by eapply rep_inj.
  - intros lv' x' q' [[[= <- <-] <-]|[_ Hk]]%lookup_insert_Some.
    + right. split; [done|]. rewrite lookup_insert_ne by (intros [=]; lia). eauto.
    + destruct (rep_up _ _ _ _ Hr _ _ _ Hk) as [|[Hl [r Hup]]]; [by left|right]. split; [done|].
      rewrite lookup_insert_is_Some. destruct (decide ((lv, x) = (S lv', x' / 512))); [by left|right; eauto].
  - intros v e Hv. destruct (rep_leaf _ _ _ _ Hr v e Hv) as (H1 & H2 & H3). split_and!; [done..|].
    rewrite lookup_insert_is_Some. destruct (decide ((lv, x) = (0%nat, v / 512))); [by left|right; eauto].
  - intros lv' x' q' i [[[= <- <-] <-]|[Hk1 Hk]]%lookup_insert_Some Hi.
    + (* an entry of the new table *)
      assert (entry (<[(lv, x):=q]> T) L lv (x * 512 + i) = 0) as ->.
      { destruct lv as [|lv]; cbn [entry].
        - destruct (L !! _) as [e|] eqn:E; [|done]. destruct (rep_leaf _ _ _ _ Hr _ _ E) as (_ & _ & [r Ht]).
          replace ((x * 512 + i) / 512) with x in Ht by dlia. congruence.
        - rewrite lookup_insert_ne by (intros [=]; lia). destruct (T !! (lv, _)) as [r|] eqn:E; [|done].
          destruct (rep_up _ _ _ _ Hr _ _ _ E) as [[-> _]|[_ [r' Hup]]]; [lia|].
          replace ((x * 512 + i) / 512) with x in Hup by dlia. congruence. }
      destruct (Hdis _ _ Hp) as [Hd|Hd].
      all: eapply word_at_written; [|exact Hw2|]; [rewrite length_le_bytes; unfold PGSIZE in *; lia|].
      all: split; [done|]; intros k b Hb; rewrite Hw1, length_replicate, decide_True
        by (apply lookup_lt_Some in Hb; rewrite length_le_bytes in Hb; unfold PGSIZE; lia).
      all: rewrite lookup_replicate_2 by (apply lookup_lt_Some in Hb; rewrite length_le_bytes in Hb; unfold PGSIZE; lia).
      all: change (le_bytes 8 0) with (replicate 8 0) in Hb; by apply lookup_replicate in Hb as [-> _].
    + pose proof (rep_entry _ _ _ _ Hr lv' x' q' i Hk Hi) as Hwd.
      assert (word_at m1 (q' + 8 * i) (entry T L lv' (x' * 512 + i))) as Hwd1.
      { eapply word_at_written; [|exact Hw1|exact Hwd]. rewrite length_replicate. destruct (Hdis _ _ Hk); unfold PGSIZE in *; lia. }
      destruct (entries_disjoint m root T L (S lv, x / 512) (lv', x') p q' (x mod 512) i Hr Hp Hk Hxm Hi) as [[E <-]|Hd].
      * injection E as <- <-. rewrite Hp in Hk. injection Hk as <-. cbn [entry].
        replace (x / 512 * 512 + x mod 512) with x by dlia. rewrite lookup_insert_eq.
        split; [apply ptr_pte_range|by eapply written_bytes_at].
      * assert (entry (<[(lv, x):=q]> T) L lv' (x' * 512 + i) = entry T L lv' (x' * 512 + i)) as ->.
        { destruct lv' as [|lv']; [done|]. cbn [entry]. rewrite lookup_insert_ne; [done|]. intros [= -> Hx].
          assert (x / 512 = x' ∧ x mod 512 = i) as [E1 E2] by dlia. rewrite <- E1 in Hk. rewrite Hp in Hk. injection Hk as <-. lia. }
        eapply word_at_written; [|exact Hw2|exact Hwd1]. rewrite length_le_bytes. lia.
Qed.

(** ** Walking *)

(** The page number of an address, and its prefix: the position of the table of
    level [lv] that serves it. *)
Definition vpn (va : Z) : Z := va / PGSIZE.
Fixpoint pre (lv : nat) (v : Z) : Z := match lv with O => v / 512 | S l => pre l v / 512 end.

Lemma PX_spec lv va : PX (Z.of_nat lv) va = match lv with O => vpn va mod 512 | S l => pre l (vpn va) mod 512 end.
Proof using.
  assert (∀ l, pre l (vpn va) = va / 2 ^ (12 + 9 * (Z.of_nat l + 1))) as Hpre.
  { unfold vpn. change PGSIZE with (2 ^ 12). induction l as [|l IH]; cbn [pre]; [change 512 with (2 ^ 9)|rewrite IH; change 512 with (2 ^ 9)];
      rewrite Z.div_div, <- Z.pow_add_r by lia; do 2 f_equal; lia. }
  unfold PX. change 0x1ff with (Z.ones 9). rewrite Z.land_ones, Z.shiftr_div_pow2 by lia. change (2 ^ 9) with 512.
  destruct lv as [|l]; [done|]. rewrite Hpre. do 3 f_equal. lia.
Qed.
Lemma pre_top va : 0 <= va < MAXVA → pre 2 (vpn va) = 0.
Proof using. intros Hva. cbn [pre]. unfold vpn, PGSIZE. change MAXVA with (2 ^ 38) in Hva. rewrite !Z.div_div by lia. apply Z.div_small. lia. Qed.

Lemma pte_read_run s p v : word_at (phys s) p v → pte_read p s = Ret (v, s).
Proof using. intros [Hr Hb]. unfold pte_read. erewrite in_phys_run by (by apply load64_run). by destruct s. Qed.
Lemma pte_write_run s p v : mapped (phys s) p 8 →
  ∃ m', pte_write p v s = Ret ((), set_phys (λ _, m') s) ∧ written (phys s) m' p (le_bytes 8 v).
Proof using. intros Hm. destruct (store64_run _ _ v Hm) as (m' & E & W). exists m'. split; [|done]. by apply in_phys_run. Qed.

Lemma word_mapped m p v : word_at m p v → mapped m p 8.
Proof using. intros [_ Hb]. by apply bytes_at_mapped in Hb. Qed.

(** Where the entry of page [v] is. *)
Definition slot (T : tables) (v : Z) : Z :=
  match T !! (0%nat, v / 512) with Some q => q + 8 * (v mod 512) | None => 0 end.

(** The tables above a table are there. *)
Lemma table_up m root T L v : rep m root T L → is_Some (T !! (0%nat, v / 512)) → ∀ k, (k <= 2)%nat → is_Some (T !! (k, pre k v)).
Proof using.
  intros Hr [q Hq] k. induction k as [|k IHk]; intros Hk; [eauto|]. destruct IHk as [r Hr']; [lia|].
  destruct (rep_up _ _ _ _ Hr _ _ _ Hr') as [[-> _]|[_ Hup]]; [lia|done].
Qed.

Lemma walk_loop_lookup m root T L s va lv : ∀ p,
  rep m root T L → phys s = m → (lv <= 2)%nat → T !! (lv, pre lv (vpn va)) = Some p →
  walk_loop _end lv p va false s = Ret (slot T (vpn va), s).
Proof using Hend.
  induction lv as [|lv IH]; intros p Hr <- Hlv Hp; cbn [walk_loop].
  { change 0 with (Z.of_nat 0) at 1. rewrite PX_spec. unfold slot. cbn [pre] in Hp. by rewrite Hp. }
  rewrite PX_spec. set (x := pre lv (vpn va)).
  assert (0 <= x mod 512 < 512) as Hx by (apply Z.mod_pos_bound; lia).
  pose proof (rep_entry _ _ _ _ Hr _ _ _ _ Hp Hx) as Hw. cbn [entry pre] in Hw. fold x in Hw.
  replace (x / 512 * 512 + x mod 512) with x in Hw by dlia.
  rewrite (bind_Ret _ _ _ _ _ (pte_read_run _ _ _ Hw)). destruct (T !! (lv, x)) as [q|] eqn:E.
  - rewrite ptr_pte_valid, PTE2PA_ptr by (eapply page_aligned, rep_page; eauto). apply IH; [done|done|lia|done].
  - cbn. unfold slot. destruct (T !! (0%nat, vpn va / 512)) as [q|] eqn:E0; [|done]. exfalso.
    destruct (table_up _ _ _ _ _ Hr ltac:(eauto) lv ltac:(lia)) as [? ?]. subst x. congruence.
Qed.

Lemma walk_lookup s root T L va :
  rep (phys s) root T L → 0 <= va < MAXVA → walk _end root va false s = Ret (slot T (vpn va), s).
Proof using Hend.
  intros Hr Hva. unfold walk. destruct (Z.leb_spec MAXVA va); [lia|].
  eapply walk_loop_lookup; [done|done|lia|]. rewrite pre_top by done. apply Hr.
Qed.

(** A leaf's word. *)
Lemma slot_word s root T L v q :
  rep (phys s) root T L → T !! (0%nat, v / 512) = Some q → slot T v ≠ 0 ∧ word_at (phys s) (slot T v) (default 0 (L !! v)).
Proof using Hend.
  intros Hr Hq. unfold slot. rewrite Hq. assert (0 <= v mod 512 < 512) as Hv by (apply Z.mod_pos_bound; lia). split.
  - pose proof (rep_page _ _ _ _ Hr _ _ Hq) as [_ Hp]. unfold KERNBASE in *. lia.
  - pose proof (rep_entry _ _ _ _ Hr _ _ _ _ Hq Hv) as Hw. cbn [entry] in Hw. by replace (v / 512 * 512 + v mod 512) with v in Hw by dlia.
Qed.

(** What [walk] finds at an address: no leaf, or the leaf of its page. *)
Lemma walk_leaf s root T L va :
  rep (phys s) root T L → 0 <= va < MAXVA → walk _end root va false s = Ret (slot T (vpn va), s) ∧
  match L !! vpn va with
  | Some e => slot T (vpn va) ≠ 0 ∧ pte_read (slot T (vpn va)) s = Ret (e, s) ∧ Z.testbit e 0 = true
  | None => slot T (vpn va) = 0 ∨ slot T (vpn va) ≠ 0 ∧ pte_read (slot T (vpn va)) s = Ret (0, s)
  end.
Proof using Hend.
  intros Hr Hva. split; [by eapply walk_lookup|]. destruct (T !! (0%nat, vpn va / 512)) as [q|] eqn:Hq.
  - destruct (slot_word _ _ _ _ _ _ Hr Hq) as [Hnz Hw%pte_read_run]. destruct (L !! vpn va) as [e|] eqn:He.
    + split_and!; [done..|]. by destruct (rep_leaf _ _ _ _ Hr _ _ He) as (_ & ? & _).
    + right. by split.
  - destruct (L !! vpn va) as [e|] eqn:He; [|left; unfold slot; by rewrite Hq].
    destruct (rep_leaf _ _ _ _ Hr _ _ He) as (_ & _ & [? ?]). congruence.
Qed.

(** A page table in use, beside the other references [R] the kernel holds. *)
Record tables_ok (s : kmem_t) (R : list Z) (root : Z) (T : tables) (L : leaves) : Prop := {
  tk_inv : ∃ l, client_inv _end s (tabs T ++ R) l;
  tk_rep : rep (phys s) root T L;
  tk_disj : ∀ p, p ∈ tabs T → p ∉ R;
}.
(** Between [s] and [s'] only the pages [ps] were written. *)
Definition untouched (ps : list Z) (s s' : kmem_t) : Prop :=
  ∀ a, (∀ p, p ∈ ps → ¬ in_page p a) → phys s' !! a = phys s !! a.
Lemma untouched_refl ps s : untouched ps s s.
Proof using. by intros a _. Qed.
Lemma untouched_trans ps s1 s2 s3 : untouched ps s1 s2 → untouched ps s2 s3 → untouched ps s1 s3.
Proof using. intros H1 H2 a Ha. by rewrite H2, H1. Qed.
Lemma untouched_sub ps ps' s s' : ps ⊆ ps' → untouched ps s s' → untouched ps' s s'.
Proof using. intros Hs Hu a Ha. apply Hu. intros p Hp. by apply Ha, Hs. Qed.
Lemma untouched_join ps ps' s1 s2 s3 : untouched ps' s1 s2 → untouched ps s2 s3 → untouched (ps ++ ps') s1 s3.
Proof using.
  intros H1 H2. eapply untouched_trans; [eapply untouched_sub; [|exact H1]|eapply untouched_sub; [|exact H2]];
    intros p Hp; apply elem_of_app; auto.
Qed.
Lemma tabs_mono T T' : T ⊆ T' → tabs T ⊆ tabs T'.
Proof using. intros Hs p [k Hk]%tabs_elem. apply tabs_elem. exists k. by eapply lookup_weaken. Qed.
Lemma untouched_written ps s m' d b p : p ∈ ps → p <= d → d + Z.of_nat (length b) <= p + PGSIZE →
  written (phys s) m' d b → untouched ps s (set_phys (λ _, m') s).
Proof using.
  intros Hp H1 H2 Hw a Ha. cbn. rewrite Hw. rewrite decide_False; [done|]. intros Hd. apply (Ha p Hp). unfold in_page. lia.
Qed.

(** Writing in a page in use keeps the allocator's promise. *)
Lemma client_inv_phys s o l p d b m' :
  client_inv _end s o l → 0 < held o p → p <= d → d + Z.of_nat (length b) <= p + PGSIZE → written (phys s) m' d b →
  client_inv _end (set_phys (λ _, m') s) o l.
Proof using Hend.
  intros [Hi Hp Hg Hr] Hh H1 H2 Hw. constructor; [|done..].
  apply (inv_phys _end s l p d b); [by apply Hg| |done|done|done|done]. rewrite Hp by (by apply Hg). lia.
Qed.
Lemma client_inv_perm s o o' l : o ≡ₚ o' → client_inv _end s o l → client_inv _end s o' l.
Proof using.
  intros Hp [H1 H2 H3 H4]. constructor; [done|..]; intros pa; rewrite <- (held_perm o o' pa Hp); auto.
Qed.

(** Memory is short: the machine has no more than [k] pages beside those of [o]. *)
Definition tight (o : list Z) (k : nat) : Prop := ∀ ps, NoDup ps → Forall (page _end) ps → (length ps <= length o + k)%nat.
Lemma client_tight s o l : client_inv _end s o l → head l = None → tight o 0.
Proof using.
  intros Hi Hl ps Hn Hp. rewrite Nat.add_0_r. apply submseteq_length, NoDup_submseteq; [done|]. intros p Hps.
  rewrite Forall_forall in Hp. destruct l; [|done]. pose proof (ci_part _ _ _ _ Hi p (Hp p Hps)) as Hpart.
  destruct (decide (p ∈ o)) as [|Hno]; [done|]. exfalso. assert (held o p = 0) as H0.
  { assert (¬ 0 < held o p) as Hh by (by intros ?%held_pos). unfold held in *. lia. }
  apply Hpart in H0. by apply elem_of_nil in H0.
Qed.
Lemma tight_le o o' k k' : tight o k → (length o + k <= length o' + k')%nat → tight o' k'.
Proof using. intros Ht Hl ps Hn Hp. specialize (Ht ps Hn Hp). lia. Qed.
Lemma kalloc_tight s o l s' : client_inv _end s o l → kalloc _end s = Ret (0, s') → tight o 0.
Proof using Hend.
  intros Hi E. eapply client_tight; [exact Hi|]. destruct (kalloc_spec _end Hend s l (ci_inv _ _ _ _ Hi)) as (s1 & E1 & _ & _).
  rewrite E in E1. injection E1 as Hz _. destruct l as [|p l]; [done|]. cbn in Hz.
  pose proof (Forall_inv (inv_page _ _ _ (ci_inv _ _ _ _ Hi))) as Hp. by apply page_pos in Hp.
Qed.

(** One step of the walk that makes a table. *)
Lemma make_table s R root T L lv x p :
  tables_ok s R root T L → T !! (S lv, x / 512) = Some p → (lv < 2)%nat → T !! (lv, x) = None →
  ∃ q s1, kalloc _end s = Ret (q, s1) ∧
    (q = 0 ∧ s1 = s ∧ tight (tabs T ++ R) 0 ∨ q ≠ 0 ∧ ∃ s2 s3, in_phys (memset q 0 (Z.to_nat PGSIZE)) s1 = Ret (q, s2) ∧
      pte_write (p + 8 * (x mod 512)) (ptr_pte q) s2 = Ret ((), s3) ∧
      tables_ok s3 R root (<[(lv, x) := q]> T) L ∧ untouched (tabs (<[(lv, x) := q]> T)) s s3).
Proof using Hend.
  intros [[l Hi] Hr Hd] Hp Hlv Hnone. assert (0 <= x mod 512 < 512) as Hxm by (apply Z.mod_pos_bound; lia).
  destruct (kalloc_spec _end Hend s l (ci_inv _ _ _ _ Hi)) as (s1 & E1 & _ & Hl).
  exists (default 0 (head l)), s1. split; [done|].
  destruct (client_inv_alloc _end Hend _ _ _ _ _ Hi E1) as [[Hq ->]|[Hq Hi1]].
  { left. split_and!; [done..|]. rewrite Hq in E1. by eapply kalloc_tight. }
  right. split; [done|].
  destruct l as [|q l]; [done|]. cbn [head from_option tail id] in *. destruct Hl as (_ & _ & W1).
  assert (held (tabs T ++ R) q = 0) as Hh0.
  { apply (ci_part _ _ _ _ Hi); [|left]. eapply Forall_inv, (inv_page _ _ _ (ci_inv _ _ _ _ Hi)). }
  assert (page _end q) as Hpq by (apply (ci_page _ _ _ _ Hi1); rewrite held_cons, decide_True by done; lia).
  assert (q ∉ tabs T ++ R) as Hqn by (rewrite held_pos; lia). apply not_elem_of_app in Hqn as [HqT HqR].
  destruct (memset_page _end s1 _ q 0 (ci_inv _ _ _ _ Hi1) Hpq) as (m2 & E2 & W2). set (s2 := set_phys (λ _, m2) s1).
  assert (client_inv _end s2 (q :: tabs T ++ R) l) as Hi2.
  { eapply (client_inv_phys _ _ _ q); [done| | | |exact W2]; [|lia|rewrite length_replicate; unfold PGSIZE; lia]. rewrite held_cons, decide_True by done. lia. }
  assert (written (phys s) m2 q (replicate (Z.to_nat PGSIZE) 0)) as W12.
  { pose proof (written_over _ _ _ _ _ _ W1 W2 ltac:(by rewrite !length_replicate)) as W. rewrite drop_ge, app_nil_r in W by (by rewrite !length_replicate).
    exact W. }
  pose proof (rep_entry _ _ _ _ Hr _ _ _ _ Hp Hxm) as Hw%word_mapped.
  assert (p ∈ tabs T) as HpT by (apply tabs_elem; eauto).
  destruct (pte_write_run s2 (p + 8 * (x mod 512)) (ptr_pte q)) as (m3 & E3 & W3).
  { eapply mapped_written; [exact W12|exact Hw]. }
  exists s2. eexists. split; [done|]. split; [exact E3|]. assert (tabs (<[(lv, x):=q]> T) ≡ₚ q :: tabs T) as Htabs by (by apply tabs_insert).
  split; [constructor|].
  - exists l. apply (client_inv_perm _ (q :: tabs T ++ R)).
    { rewrite Htabs. done. }
    eapply (client_inv_phys _ _ _ p); [exact Hi2| | | |exact W3]; [|lia|rewrite length_le_bytes; unfold PGSIZE; lia].
    apply held_pos. right. apply elem_of_app. by left.
  - eapply rep_new_table; [exact Hr|exact Hp|done..|exact W12|exact W3].
  - intros p'. rewrite Htabs, elem_of_cons. intros [->|Hp']; [done|by apply Hd].
  - intros a Ha. cbn. rewrite W3, length_le_bytes, decide_False.
    + cbn. rewrite W12, length_replicate, decide_False; [done|]. intros Hin. apply (Ha q); [rewrite Htabs; left|].
      unfold in_page, PGSIZE in *. lia.
    + intros Hin. apply (Ha p); [rewrite Htabs; by right|]. unfold in_page, PGSIZE in *. lia.
Qed.

(** [walk] with [alloc]: the tables on the way are there afterwards, unless the
    memory ran out; no leaf changes. *)
Lemma walk_loop_alloc va lv : ∀ s R root T L p,
  tables_ok s R root T L → (lv <= 2)%nat → T !! (lv, pre lv (vpn va)) = Some p →
  ∃ r s' T', walk_loop _end lv p va true s = Ret (r, s') ∧ tables_ok s' R root T' L ∧ T ⊆ T' ∧ untouched (tabs T') s s' ∧
    (length (tabs T') <= length (tabs T) + lv)%nat ∧
    (r = 0 ∧ T !! (0%nat, vpn va / 512) = None ∧ tight (tabs T' ++ R) 0 ∨ is_Some (T' !! (0%nat, vpn va / 512)) ∧ r = slot T' (vpn va)).
Proof using Hend.
  induction lv as [|lv IH]; intros s R root T L p Hok Hlv Hp; cbn [walk_loop].
  { exists (slot T (vpn va)), s, T. change 0 with (Z.of_nat 0) at 1. rewrite PX_spec. cbn [pre] in Hp.
    split; [unfold slot; by rewrite Hp|]. split_and!; [done|done|apply untouched_refl|lia|right; eauto]. }
  rewrite PX_spec. set (x := pre lv (vpn va)).
  assert (0 <= x mod 512 < 512) as Hx by (apply Z.mod_pos_bound; lia).
  pose proof (rep_entry _ _ _ _ (tk_rep _ _ _ _ _ Hok) _ _ _ _ Hp Hx) as Hw. cbn [entry pre] in Hw, Hp. fold x in Hw, Hp.
  replace (x / 512 * 512 + x mod 512) with x in Hw by dlia.
  rewrite (bind_Ret _ _ _ _ _ (pte_read_run _ _ _ Hw)). destruct (T !! (lv, x)) as [q|] eqn:E.
  { rewrite ptr_pte_valid, PTE2PA_ptr by (eapply page_aligned, rep_page; [apply Hok|eauto]). destruct (IH s R root T L q Hok ltac:(lia) E) as (r & s' & T' & ? & ? & ? & ? & Hsz & ?). exists r, s', T'. split_and!; (done || lia). }
  change (isset 0 PTE_V) with false. cbn [negb].
  destruct (make_table s R root T L lv x p Hok Hp ltac:(lia) E) as (q & s1 & E1 & H). rewrite (bind_Ret _ _ _ _ _ E1).
  destruct H as [(-> & -> & Htight)|(Hq & s2 & s3 & E2 & E3 & Hok3 & Hu)].
  { exists 0, s, T. split_and!; [done|done|done|apply untouched_refl|lia|left]. split; [done|]. split; [|done].
    destruct (T !! (0%nat, vpn va / 512)) eqn:E0; [|done].
    destruct (table_up _ _ _ _ _ (tk_rep _ _ _ _ _ Hok) ltac:(eauto) lv ltac:(lia)) as [? ?]. subst x. congruence. }
  destruct (Z.eqb_spec q 0); [done|]. rewrite (bind_Ret _ _ _ _ _ E2), (bind_Ret _ _ _ _ _ E3).
  destruct (IH s3 R root _ L q Hok3 ltac:(lia) ltac:(by apply lookup_insert_eq)) as (r & s' & T' & E4 & Hok' & Hsub & Hu' & Hsz & Hres).
  assert (length (tabs (<[(lv, x):=q]> T)) = S (length (tabs T))) as Hlen by (by rewrite (tabs_insert _ _ _ E)).
  exists r, s', T'. split_and!; [done|done| | |lia|].
  - etrans; [by apply insert_subseteq|exact Hsub].
  - eapply untouched_trans; [|exact Hu']. eapply untouched_sub; [by apply tabs_mono|exact Hu].
  - destruct Hres as [(-> & Hn & Ht)|?]; [left|by right]. split_and!; [done| |done]. by apply lookup_insert_None in Hn as [? _].
Qed.
Lemma walk_alloc s R root T L va :
  tables_ok s R root T L → 0 <= va < MAXVA →
  ∃ r s' T', walk _end root va true s = Ret (r, s') ∧ tables_ok s' R root T' L ∧ T ⊆ T' ∧ untouched (tabs T') s s' ∧
    (length (tabs T') <= length (tabs T) + 2)%nat ∧
    (r = 0 ∧ T !! (0%nat, vpn va / 512) = None ∧ tight (tabs T' ++ R) 0 ∨ is_Some (T' !! (0%nat, vpn va / 512)) ∧ r = slot T' (vpn va)).
Proof using Hend.
  intros Hok Hva. unfold walk. destruct (Z.leb_spec MAXVA va); [lia|].
  eapply walk_loop_alloc; [done|lia|]. rewrite pre_top by done. apply Hok.
Qed.

Lemma tables_ok_perm s R R' root T L : R ≡ₚ R' → tables_ok s R root T L → tables_ok s R' root T L.
Proof using.
  intros Hp [[l Hi] Hr Hd]. constructor; [exists l|done|].
  - eapply client_inv_perm; [|exact Hi]. by rewrite Hp.
  - intros p Hpt. rewrite <- Hp. by apply Hd.
Qed.

(** ** Writing leaves *)

Definition set_leaf (v e : Z) (L : leaves) : leaves := if decide (e = 0) then delete v L else <[v := e]> L.

Lemma write_leaf s R root T L v e :
  tables_ok s R root T L → is_Some (T !! (0%nat, v / 512)) → in_range 64 e → e = 0 ∨ Z.testbit e 0 = true →
  ∃ s', pte_write (slot T v) e s = Ret ((), s') ∧ tables_ok s' R root T (set_leaf v e L) ∧ untouched (tabs T) s s'.
Proof using Hend.
  intros [[l Hi] Hr Hd] [q Hq] He Hv. destruct (slot_word _ _ _ _ _ _ Hr Hq) as [_ Hw%word_mapped].
  destruct (pte_write_run s (slot T v) e Hw) as (m' & E & W). eexists. split; [exact E|].
  assert (0 <= v mod 512 < 512) as Hvm by (apply Z.mod_pos_bound; lia).
  assert (slot T v = q + 8 * (v mod 512)) as Eslot by (unfold slot; by rewrite Hq). rewrite Eslot in W.
  assert (q ∈ tabs T) as HqT by (apply tabs_elem; eauto). split; [constructor|].
  - exists l. eapply (client_inv_phys _ _ _ q); [exact Hi| | | |exact W]; [|lia|rewrite length_le_bytes; unfold PGSIZE; lia].
    apply held_pos, elem_of_app. by left.
  - by eapply rep_set_leaf.
  - done.
  - eapply untouched_written; [exact HqT| | |exact W]; [lia|rewrite length_le_bytes; unfold PGSIZE; lia].
Qed.

Lemma PGROUNDDOWN_spec a : in_range 64 a → PGROUNDDOWN a = vpn a * PGSIZE.
Proof using.
  intros Ha. unfold PGROUNDDOWN, vpn. rewrite <- (wrap_small 64 a) at 1 by done. rewrite !wrap_land by lia.
  rewrite <- Z.land_assoc, (Z.land_comm (Z.ones 64)), <- Z.land_assoc, Z.land_diag.
  rewrite (Z.land_comm _ (Z.ones 64)), Z.land_assoc, <- wrap_land, wrap_small by (done || lia).
  change (Z.lnot (PGSIZE - 1)) with (Z.lnot (Z.ones 12)). rewrite <- Z.ldiff_land.
  rewrite Z.ldiff_ones_r, Z.shiftl_mul_pow2, Z.shiftr_div_pow2 by lia. done.
Qed.
Lemma vpn_mul v : vpn (v * PGSIZE) = v.
Proof using. unfold vpn, PGSIZE. apply Z.div_mul. lia. Qed.

(** ** [mappages] *)

(** The leaves after [n] pages from [v] on were mapped to those from [pa] on. *)
Fixpoint map_range (n : nat) (v pa perm : Z) (L : leaves) : leaves :=
  match n with
  | O => L
  | S n => map_range n (v + 1) (pa + PGSIZE) perm (<[v := mk_pte pa perm]> L)
  end.

Lemma lookup_map_range n : ∀ v pa perm L w, map_range n v pa perm L !! w =
  if decide (v <= w < v + Z.of_nat n) then Some (mk_pte (pa + (w - v) * PGSIZE) perm) else L !! w.
Proof using.
  induction n as [|n IH]; intros v pa perm L w; cbn [map_range].
  { by rewrite decide_False by lia. }
  rewrite IH. destruct (decide (w = v)) as [->|Hne].
  - rewrite decide_False, decide_True by lia. rewrite lookup_insert_eq. do 2 f_equal. lia.
  - rewrite lookup_insert_ne by done. repeat case_decide; try lia; [|done]. do 2 f_equal. lia.
Qed.

Definition maxvpn : Z := MAXVA / PGSIZE.
Lemma vpn_range v : 0 <= v < maxvpn → 0 <= v * PGSIZE < MAXVA.
Proof using. change maxvpn with (2 ^ 26). change MAXVA with (2 ^ 38). unfold PGSIZE. lia. Qed.

Lemma map_loop_spec perm root n : ∀ fuel s R T L v pa,
  tables_ok s R root T L → perm_ok perm → 0 <= v → v + Z.of_nat n < maxvpn → (n < fuel)%nat →
  aligned pa → aligned (pa + Z.of_nat n * PGSIZE) → (∀ w, v <= w <= v + Z.of_nat n → L !! w = None) →
  ∃ r s' T' k, map_loop _end fuel root (v * PGSIZE) ((v + Z.of_nat n) * PGSIZE) pa perm s = Ret (r, s') ∧
    tables_ok s' R root T' (map_range k v pa perm L) ∧ T ⊆ T' ∧ untouched (tabs T') s s' ∧
    (length (tabs T') <= length (tabs T) + 2 * S n)%nat ∧
    (r = 0 ∧ k = S n ∨ r = -1 ∧ (k <= n)%nat ∧ tight (tabs T' ++ R) 0).
Proof using Hend.
  induction n as [|n IH]; intros [|fuel] s R T L v pa Hok Hperm Hv Hmax Hfuel Hpa Hpa' Hfree; try lia; cbn [map_loop].
  all: pose proof (vpn_range v ltac:(lia)) as Hva.
  all: destruct (walk_alloc s R root T L (v * PGSIZE) Hok Hva) as (r & s1 & T1 & E1 & Hok1 & Hsub1 & Hu1 & Hsz1 & Hr1);
    rewrite (bind_Ret _ _ _ _ _ E1), vpn_mul in *.
  all: destruct Hr1 as [(-> & _ & Htight)|[[q Hq] ->]]; [by exists (-1), s1, T1, 0%nat; split_and!; [done..|lia|right; split_and!; [done|lia|done]]|].
  all: destruct (slot_word _ _ _ _ _ _ (tk_rep _ _ _ _ _ Hok1) Hq) as [Hne Hw]; destruct (Z.eqb_spec (slot T1 v) 0); [done|].
  all: rewrite (bind_Ret _ _ _ _ _ (pte_read_run _ _ _ Hw)), (Hfree v) by lia; cbn [default id from_option];
    change (isset 0 PTE_V) with false; cbv iota.
  all: assert (Z.testbit (mk_pte pa perm) 0 = true) as Hbit by (rewrite mk_pte_testbit by lia; by rewrite !orb_true_r).
  all: destruct (write_leaf s1 R root T1 L v (mk_pte pa perm) Hok1 ltac:(eauto) ltac:(by apply mk_pte_range) ltac:(by right))
    as (s2 & E2 & Hok2 & Hu2); rewrite (bind_Ret _ _ _ _ _ E2); unfold set_leaf in Hok2;
    rewrite decide_False in Hok2 by (intros E0; by rewrite E0, Z.bits_0 in Hbit).
  - rewrite Z.add_0_r, Z.eqb_refl. exists 0, s2, T1, 1%nat. split_and!; [done|done|done|by eapply untouched_trans|lia|by left].
  - destruct (Z.eqb_spec (v * PGSIZE) ((v + Z.of_nat (S n)) * PGSIZE)); [unfold PGSIZE in *; lia|].
    rewrite (wrap_small 64 (v * PGSIZE + PGSIZE)) by (unfold in_range; change MAXVA with (2 ^ 38) in Hva; unfold PGSIZE in *; lia).
    replace (v * PGSIZE + PGSIZE) with ((v + 1) * PGSIZE) by (unfold PGSIZE; lia).
    replace (v + Z.of_nat (S n)) with (v + 1 + Z.of_nat n) by lia.
    destruct Hpa as [Hpa0 Hpa1], Hpa' as [Hpa2 Hpa3].
    rewrite (wrap_small 64 (pa + PGSIZE)) by (unfold in_range, PGSIZE in *; lia).
    destruct (IH fuel s2 R T1 (<[v:=mk_pte pa perm]> L) (v + 1) (pa + PGSIZE)) as (r & s' & T' & k & E3 & Hok3 & Hsub3 & Hu3 & Hsz3 & Hres).
    { done. } { done. } { lia. } { lia. } { lia. }
    { split; [unfold PGSIZE in *; dlia|unfold PGSIZE in *; lia]. }
    { replace (pa + PGSIZE + Z.of_nat n * PGSIZE) with (pa + Z.of_nat (S n) * PGSIZE) by (unfold PGSIZE; lia). done. }
    { intros w Hw'. rewrite lookup_insert_ne by lia. apply Hfree. lia. }
    exists r, s', T', (S k). split_and!; [done|done|by etrans| |lia|].
    + eapply untouched_trans; [|exact Hu3]. eapply untouched_sub; [by apply tabs_mono|]. by eapply untouched_trans.
    + destruct Hres as [[-> ->]|(-> & ? & ?)]; [by left|right; split_and!; [done|lia|done]].
Qed.

(** Mapping a range of free pages maps all of them or, when memory for the
    tables runs out, a first part. *)
Lemma mappages_spec s R root T L va size pa perm :
  tables_ok s R root T L → perm_ok perm → 0 <= va → 0 < size → va + size <= MAXVA → aligned pa → pa + size + PGSIZE <= 2 ^ 56 →
  let v := vpn va in let n := vpn (va + size - 1) - v + 1 in
  (∀ w, v <= w < v + n → L !! w = None) →
  ∃ r s' T' k, mappages _end root va size pa perm s = Ret (r, s') ∧
    tables_ok s' R root T' (map_range k v pa perm L) ∧ T ⊆ T' ∧ untouched (tabs T') s s' ∧
    Z.of_nat (length (tabs T')) <= Z.of_nat (length (tabs T)) + 2 * n ∧
    (r = 0 ∧ Z.of_nat k = n ∨ r = -1 ∧ Z.of_nat k < n ∧ tight (tabs T' ++ R) 0).
Proof using Hend.
  intros Hok Hperm Hva Hsz Hmax Hpa Hpmax v n Hfree. unfold mappages. destruct (Z.eqb_spec size 0); [lia|].
  assert (0 <= v /\ vpn (va + size - 1) < maxvpn /\ v <= vpn (va + size - 1) ∧ n <= size / PGSIZE + 2) as (H1 & H2 & H3 & H4).
  { subst v n. change maxvpn with (2 ^ 26). change MAXVA with (2 ^ 38) in Hmax. unfold vpn, PGSIZE. dlia. }
  change MAXVA with (2 ^ 38) in Hmax.
  rewrite (wrap_small 64 (va + size - 1)), !PGROUNDDOWN_spec by (unfold in_range; lia). fold v.
  replace (vpn (va + size - 1)) with (v + Z.of_nat (Z.to_nat (n - 1))) by lia.
  destruct (map_loop_spec perm root (Z.to_nat (n - 1)) (Z.to_nat (size / PGSIZE) + 2) s R T L v pa) as (r & s' & T' & k & E & Hok' & Hs & Hu & Hsz' & Hres);
    try done; [lia|lia| | |].
  - destruct Hpa as [Hpa0 Hpa1]. assert (0 <= size / PGSIZE) by (apply Z.div_pos; unfold PGSIZE; lia). split; [unfold PGSIZE in *; dlia|].
    assert (Z.of_nat (Z.to_nat (n - 1)) * PGSIZE < size + PGSIZE); [|unfold PGSIZE in *; lia].
    rewrite Z2Nat.id by lia. subst n v. unfold vpn, PGSIZE in *. dlia.
  - intros w Hw. apply Hfree. lia.
  - exists r, s', T', k. split_and!; [done..|lia|]. destruct Hres as [[-> ->]|(-> & ? & ?)]; [left; split; [done|lia]|right; split_and!; [done|lia|done]].
Qed.

(** A page that is mapped is not mapped again: the kernel stops. *)
Lemma map_loop_remap s R root T L v e fuel last pa perm :
  tables_ok s R root T L → 0 <= v < maxvpn → L !! v = Some e →
  map_loop _end (S fuel) root (v * PGSIZE) last pa perm s = Panic "mappages: remap".
Proof using Hend.
  intros Hok Hv He. destruct (rep_leaf _ _ _ _ (tk_rep _ _ _ _ _ Hok) v e He) as (_ & Hbit & [q Hq]). cbn [map_loop].
  destruct (walk_alloc s R root T L (v * PGSIZE) Hok (vpn_range v Hv)) as (r & s1 & T1 & E1 & Hok1 & Hsub1 & _ & _ & Hr1).
  rewrite (bind_Ret _ _ _ _ _ E1), vpn_mul in *. destruct Hr1 as [(_ & Hn & _)|[[q1 Hq1] ->]]; [congruence|].
  destruct (slot_word _ _ _ _ _ _ (tk_rep _ _ _ _ _ Hok1) Hq1) as [Hne Hw]. destruct (Z.eqb_spec (slot T1 v) 0); [done|].
  rewrite (bind_Ret _ _ _ _ _ (pte_read_run _ _ _ Hw)), He. cbn [default id from_option]. change PTE_V with (2 ^ 0).
  by rewrite isset_bit, Hbit by lia.
Qed.
End tables.
