(* ===== verification/VmSpace.v ===== *)
(** * Address spaces

    Several page tables in one physical memory. [vm_inv] is what the kernel
    relies on: the counters of [kalloc] count tables, user mappings and the
    kernel's other pages; every table belongs to one space; a page that a space
    may write is mapped nowhere else. [vm_close] is the proof obligation of an
    operation on one space: it then leaves the memory of all others alone. *)
From S2P Require Import Prelude KString Kalloc Vm VmTable.

(** The pages below the trapframe are the user's; the kernel maps trapframe and
    trampoline above without counting them. *)
Definition UVPN : Z := vpn TRAPFRAME.
Definition user_part (L : leaves) : leaves := filter (λ '(v, _), v < UVPN) L.
Definition frames (L : leaves) : list Z := PTE2PA <$> (map_to_list (user_part L)).*2.

Record space := Space { sp_root : Z; sp_T : tables; sp_L : leaves }.
#[export] Instance space_eq_dec : EqDecision space.
Proof. solve_decision. Defined.
Definition srefs (sp : space) : list Z := tabs (sp_T sp) ++ frames (sp_L sp).
Definition all_refs (A : list space) : list Z := mjoin (srefs <$> A).

(** The byte a user program finds at [va]. *)
Definition uload (m : mem) (L : leaves) (va : Z) : option Z :=
  match L !! vpn va with
  | Some e => if Z.testbit e 4 then m !! (PTE2PA e + va mod PGSIZE) else None
  | None => None
  end.

Definition leaf_ok (o E : list Z) (v e : Z) : Prop :=
  0 <= v < maxvpn ∧
  (v < UVPN → (Z.testbit e 1 = true) ∧ (PTE2PA e ∉ E) ∧
     (Z.testbit e 2 = true → Z.testbit e 8 = false ∧ held o (PTE2PA e) = 1)) ∧
  (UVPN <= v → Z.testbit e 4 = false).

(** ** Counting *)

Lemma held_app o1 o2 pa : held (o1 ++ o2) pa = held o1 pa + held o2 pa.
Proof. unfold held. rewrite count_occ_app. lia. Qed.
Lemma held_nonneg o pa : 0 <= held o pa.
Proof. unfold held. lia. Qed.
Lemma held_zero o pa : pa ∉ o ↔ held o pa = 0.
Proof. rewrite held_pos. pose proof (held_nonneg o pa). lia. Qed.
#[export] Hint Resolve held_nonneg : xv6.

(** ** Frames *)

Lemma frames_elem L f : f ∈ frames L ↔ ∃ v e, L !! v = Some e ∧ v < UVPN ∧ f = PTE2PA e.
Proof.
  unfold frames, user_part. rewrite list_elem_of_fmap. setoid_rewrite list_elem_of_fmap. split.
  - intros (e & -> & [v e'] & -> & Hk%elem_of_map_to_list). apply map_lookup_filter_Some in Hk as [Hk Hv]. by exists v, e'.
  - intros (v & e & Hv & Hu & ->). exists e. split; [done|]. exists (v, e). split; [done|]. apply elem_of_map_to_list.
    by apply map_lookup_filter_Some.
Qed.
Lemma frames_insert L v e : L !! v = None → v < UVPN → frames (<[v := e]> L) ≡ₚ PTE2PA e :: frames L.
Proof.
  intros Hv Hu. unfold frames, user_part. rewrite map_filter_insert_True by done.
  rewrite map_to_list_insert by (apply map_lookup_filter_None; by left). done.
Qed.
Lemma frames_insert_kernel L v e : L !! v = None → UVPN <= v → frames (<[v := e]> L) = frames L.
Proof.
  intros Hv Hu. unfold frames, user_part. rewrite map_filter_insert_False by lia. by rewrite delete_id.
Qed.
Lemma frames_delete L v e : L !! v = Some e → v < UVPN → frames L ≡ₚ PTE2PA e :: frames (delete v L).
Proof.
  intros Hv Hu. rewrite <- (insert_delete_id L v e) at 1 by done. apply frames_insert; [apply lookup_delete_eq|done].
Qed.
Lemma frames_update L v e e' : L !! v = Some e → v < UVPN → frames (<[v := e']> L) ≡ₚ PTE2PA e' :: frames (delete v L).
Proof.
  intros Hv Hu. rewrite <- insert_delete_eq. apply frames_insert; [apply lookup_delete_eq|done].
Qed.

Section spaces.
Context (_end : Z) (Hend : KERNBASE <= _end <= PHYSTOP).

Record vm_inv (s : kmem_t) (A : list space) (E : list Z) : Prop := {
  vi_inv : ∃ l, client_inv _end s (all_refs A ++ E) l;
  vi_rep : ∀ sp, sp ∈ A → rep _end (phys s) (sp_root sp) (sp_T sp) (sp_L sp);
  vi_tabs : ∀ sp p, sp ∈ A → p ∈ tabs (sp_T sp) → held (all_refs A ++ E) p = 1;
  vi_leaf : ∀ sp v e, sp ∈ A → sp_L sp !! v = Some e → leaf_ok (all_refs A ++ E) E v e;
  vi_bytes : ∀ sp f a b, sp ∈ A → f ∈ frames (sp_L sp) → in_page f a → phys s !! a = Some b → is_byte b;
  vi_small : Z.of_nat (length E) <= 2 ^ 30;
}.

Lemma all_refs_cons sp B : all_refs (sp :: B) = srefs sp ++ all_refs B.
Proof using. done. Qed.
Lemma all_refs_perm A A' : A ≡ₚ A' → all_refs A ≡ₚ all_refs A'.
Proof using. intros Hp. unfold all_refs. induction Hp; cbn; [done|by f_equiv| |by etrans]. rewrite !app_assoc. f_equiv. apply Permutation_app_comm. Qed.

Lemma leaf_ok_perm o o' E v e : o ≡ₚ o' → leaf_ok o E v e → leaf_ok o' E v e.
Proof using. intros Hp (H1 & H2 & H3). split; [done|]. split; [|done]. by rewrite <- (held_perm o o' _ Hp). Qed.

Lemma vm_inv_perm s A A' E : A ≡ₚ A' → vm_inv s A E → vm_inv s A' E.
Proof using.
  intros Hp [[l H1] H2 H3 H4 H5 H6]. assert (all_refs A ++ E ≡ₚ all_refs A' ++ E) as Ho by (f_equiv; by apply all_refs_perm).
  constructor; [exists l; by eapply client_inv_perm|..|done].
  - intros sp Hsp. apply H2. by rewrite Hp.
  - intros sp p Hsp. rewrite <- (held_perm _ _ p Ho). apply H3. by rewrite Hp.
  - intros sp v e Hsp Hv. eapply leaf_ok_perm; [exact Ho|]. eapply H4; [|done]. by rewrite Hp.
  - intros sp f a b Hsp. eapply H5. by rewrite Hp.
Qed.

(** What the kernel holds beside the space in focus. *)
Definition others (B : list space) (E : list Z) : list Z := all_refs B ++ E.
Lemma refs_focus sp B E : all_refs (sp :: B) ++ E = tabs (sp_T sp) ++ frames (sp_L sp) ++ others B E.
Proof using. rewrite all_refs_cons. unfold srefs, others. by rewrite <- !app_assoc. Qed.

Lemma vm_open s sp B E : vm_inv s (sp :: B) E →
  tables_ok _end s (frames (sp_L sp) ++ others B E) (sp_root sp) (sp_T sp) (sp_L sp).
Proof using.
  intros [[l H1] H2 H3 H4 H5 H6]. constructor.
  - exists l. by rewrite <- refs_focus.
  - apply H2. left.
  - intros p Hp. specialize (H3 sp p ltac:(left) Hp). rewrite refs_focus, held_app in H3. apply held_pos in Hp.
    apply held_zero. pose proof (held_nonneg (frames (sp_L sp) ++ others B E) p). lia.
Qed.

Lemma others_elem sp B E p : sp ∈ B → p ∈ srefs sp → p ∈ others B E.
Proof using.
  intros Hsp Hp. unfold others, all_refs. apply elem_of_app. left. apply list_elem_of_join. exists (srefs sp).
  split; [done|]. by apply list_elem_of_fmap_2.
Qed.

Lemma held_tabs m root T L p : rep _end m root T L → p ∈ tabs T → held (tabs T) p = 1.
Proof using.
  intros Hr Hp. assert (NoDup (tabs T)) as Hnd.
  { unfold tabs. apply NoDup_fmap_2_strong; [|apply NoDup_map_to_list].
    intros [k q] [k' q'] Hk%elem_of_map_to_list Hk'%elem_of_map_to_list E1. cbn in E1. subst q'.
    f_equal. eapply rep_inj; [exact Hr|exact Hk|exact Hk']. }
  unfold held. apply NoDup_ListNoDup in Hnd. rewrite (NoDup_count_occ Z.eq_dec) in Hnd. apply list_elem_of_In in Hp.
  rewrite (count_occ_In Z.eq_dec) in Hp. specialize (Hnd p). lia.
Qed.

Lemma srefs_all A E sp f : sp ∈ A → f ∈ srefs sp → f ∈ all_refs A ++ E.
Proof using. intros Hsp Hf. apply elem_of_app. left. apply list_elem_of_join. exists (srefs sp). split; [done|by apply list_elem_of_fmap_2]. Qed.

(** Two references to a page, in one space or in two. *)
Lemma held_two B sp so pa : sp ∈ B → so ∈ B → pa ∈ srefs sp → pa ∈ srefs so → (sp = so → 2 <= held (srefs sp) pa) →
  2 <= held (all_refs B) pa.
Proof using.
  intros Hsp Hso H1 H2 Heq. apply elem_of_Permutation in Hsp as [B1 HB1]. rewrite (held_perm _ _ pa (all_refs_perm _ _ HB1)), all_refs_cons, held_app.
  pose proof (held_nonneg (all_refs B1) pa). destruct (decide (sp = so)) as [<-|Hne]; [specialize (Heq eq_refl); lia|].
  rewrite HB1 in Hso. apply elem_of_cons in Hso as [?|Hso]; [done|]. apply elem_of_Permutation in Hso as [B2 HB2].
  rewrite (held_perm _ _ pa (all_refs_perm _ _ HB2)), all_refs_cons, held_app. pose proof (held_nonneg (all_refs B2) pa).
  apply held_pos in H1, H2. lia.
Qed.

(** Pages the kernel refers to are pages. *)
Lemma vm_page s A E p : vm_inv s A E → p ∈ all_refs A ++ E → page _end p.
Proof using. intros [[l H1] _ _ _ _ _] Hp. eapply ci_page; [exact H1|]. by apply held_pos. Qed.

(** An address that is in no page but those of the others and of the kernel: what
    an operation on the space in focus leaves alone. *)
Definition outside (B : list space) (E : list Z) (a : Z) : Prop := ∀ p, page _end p → in_page p a → p ∈ others B E.

Lemma in_page_eq p q a : page _end p → page _end q → in_page p a → in_page q a → p = q.
Proof using.
  intros Hp Hq Ha Ha'. destruct (decide (p = q)) as [|Hne]; [done|]. unfold in_page in *.
  destruct (page_disjoint _end p q Hp Hq Hne); lia.
Qed.
Lemma outside_page s A B E p a : vm_inv s A E → p ∈ all_refs A ++ E → p ∈ others B E → in_page p a → outside B E a.
Proof using. intros Hi Hp Hpo Ha q Hq Hqa. by rewrite (in_page_eq q p a) by (done || by eapply vm_page). Qed.
Lemma others_refs sp B E p : p ∈ others B E → p ∈ all_refs (sp :: B) ++ E.
Proof using. intros Hp. rewrite refs_focus, !elem_of_app. auto. Qed.

Lemma outside_mono sp B E a : outside B E a → outside (sp :: B) E a.
Proof using. intros Ha p Hp Hpa. specialize (Ha p Hp Hpa). unfold others in *. rewrite all_refs_cons, <- app_assoc. apply elem_of_app. by right. Qed.

(** A page that read-only mappings of other spaces may share. *)
Definition shareable (B : list space) (E : list Z) (f : Z) : Prop :=
  (f ∉ E) ∧ ∀ sp, sp ∈ B → (f ∉ tabs (sp_T sp)) ∧
    ∀ v e, sp_L sp !! v = Some e → v < UVPN → f = PTE2PA e → Z.testbit e 2 = false.

(** An operation on one space keeps the invariant and the others' memory. *)
Lemma vm_close s s' sp B E T' L' dirty :
  vm_inv s (sp :: B) E →
  tables_ok _end s' (frames L' ++ others B E) (sp_root sp) T' L' →
  untouched (tabs T' ++ dirty) s s' →
  (∀ p, p ∈ dirty → page _end p ∧ p ∉ others B E) →
  (∀ f, f ∈ others B E → held (frames L') f <= held (frames (sp_L sp)) f ∨ shareable B E f) →
  (∀ v e, L' !! v = Some e → leaf_ok (tabs T' ++ frames L' ++ others B E) E v e) →
  (∀ f a b, f ∈ frames L' → in_page f a → phys s' !! a = Some b → is_byte b) →
  vm_inv s' (Space (sp_root sp) T' L' :: B) E ∧ ∀ a, outside B E a → phys s' !! a = phys s !! a.
Proof using.
  intros Hi Hok Hu Hd Hshare Hleaf Hbytes.
  assert (∀ a, outside B E a → phys s' !! a = phys s !! a) as Hout.
  { intros a Ha. apply Hu. intros p [Hp|Hp]%elem_of_app Hpa.
    - pose proof Hp as [k Hk]%tabs_elem. eapply (tk_disj _ _ _ _ _ _ Hok p Hp). apply elem_of_app. right.
      apply Ha; [|done]. eapply rep_page; [apply Hok|exact Hk].
    - destruct (Hd p Hp) as [Hpp Hn]. by apply Hn, Ha. }
  assert (∀ a p, p ∈ others B E → in_page p a → phys s' !! a = phys s !! a) as Hsame.
  { intros a p Hp Ha. eapply Hout, outside_page; [exact Hi|by apply others_refs|done|done]. }
  split; [|exact Hout]. pose proof Hi as [[l H1] H2 H3 H4 H5 H6].
  destruct (tk_inv _ _ _ _ _ _ Hok) as [l' Hi'].
  assert (∀ f, f ∈ others B E → held (tabs T') f = 0) as HT0.
  { intros f Hf. apply held_zero. intros Hf'. eapply (tk_disj _ _ _ _ _ _ Hok f Hf'). apply elem_of_app. by right. }
  constructor; rewrite ?refs_focus; cbn [sp_T sp_L sp_root].
  - by exists l'.
  - intros sp' [->|Hsp']%elem_of_cons; [apply Hok|]. eapply rep_frame; [|apply H2; by right].
    intros p a Hp Ha. apply (Hsame a p); [|done]. eapply others_elem; [exact Hsp'|]. unfold srefs. apply elem_of_app. by left.
  - intros sp' p [->|Hsp']%elem_of_cons Hp; cbn [sp_T] in *.
    + pose proof (tk_disj _ _ _ _ _ _ Hok p Hp) as Hn. rewrite held_app. apply held_zero in Hn as ->. rewrite Z.add_0_r.
      eapply held_tabs; [apply Hok|done].
    + assert (p ∈ others B E) as Hpo by (eapply others_elem; [exact Hsp'|]; unfold srefs; apply elem_of_app; by left).
      specialize (H3 sp' p ltac:(by right) Hp). rewrite refs_focus, !held_app in H3. rewrite !held_app, HT0 by done.
      pose proof (held_nonneg (tabs (sp_T sp)) p). pose proof (held_nonneg (frames L') p).
      destruct (Hshare p Hpo) as [?|[_ Hs]]; [apply held_pos in Hpo; lia|]. by destruct (Hs sp' Hsp') as [? _].
  - intros sp' v e [->|Hsp']%elem_of_cons Hv; cbn [sp_L] in *; [by apply Hleaf|].
    destruct (H4 sp' v e ltac:(by right) Hv) as (L1 & L2 & L3). split; [done|]. split; [|done]. intros Hvu.
    destruct (L2 Hvu) as (L4 & L5 & L6). split; [done|]. split; [done|]. intros Hw. destruct (L6 Hw) as [L7 L8]. split; [done|].
    assert (PTE2PA e ∈ others B E) as Hfo.
    { eapply others_elem; [exact Hsp'|]. unfold srefs. apply elem_of_app. right. apply frames_elem. eauto. }
    rewrite refs_focus, !held_app in L8. rewrite !held_app, HT0 by done.
    pose proof (held_nonneg (tabs (sp_T sp)) (PTE2PA e)). pose proof (held_nonneg (frames L') (PTE2PA e)).
    destruct (Hshare _ Hfo) as [?|[_ Hs]]; [apply held_pos in Hfo; lia|]. destruct (Hs sp' Hsp') as [_ Hs'].
    by rewrite (Hs' v e Hv Hvu eq_refl) in Hw.
  - intros sp' f a b [->|Hsp']%elem_of_cons Hf Ha Hb; cbn [sp_L] in *; [by eapply Hbytes|].
    rewrite (Hsame a f) in Hb; [|by eapply others_elem; [exact Hsp'|]; unfold srefs; apply elem_of_app; right|done].
    eapply H5; [by right|exact Hf|exact Ha|exact Hb].
  - done.
Qed.

(** Nor does it change a page of the space in focus that it neither writes nor
    makes a table. *)
Lemma frame_same s s' sp B E R' T' L' root dirty g a :
  vm_inv s (sp :: B) E → tables_ok _end s' R' root T' L' → untouched (tabs T' ++ dirty) s s' →
  (∀ p, p ∈ dirty → page _end p ∧ p ≠ g) → g ∈ frames (sp_L sp) → g ∈ R' → in_page g a → phys s' !! a = phys s !! a.
Proof using.
  intros Hi Hok Hall Hdirty Hg HgR Ha.
  assert (page _end g) as Hpg by (eapply vm_page; [exact Hi|]; rewrite refs_focus, !elem_of_app; auto).
  apply Hall. intros p [Hp|Hp]%elem_of_app Hpa.
  - pose proof Hp as [k Hk]%tabs_elem. apply (tk_disj _ _ _ _ _ _ Hok p Hp).
    rewrite (in_page_eq p g a); [done|eapply rep_page; [apply Hok|exact Hk]|done..].
  - destruct (Hdirty p Hp) as [Hpp Hne]. apply Hne. by apply (in_page_eq p g a).
Qed.

Lemma untouched_apart s s' R root T L q a :
  tables_ok _end s' R root T L → page _end q → q ∉ tabs T → untouched (tabs T) s s' → in_page q a → phys s' !! a = phys s !! a.
Proof using.
  intros Hok Hq HqT Hu Ha. apply Hu. intros p Hp Hpa. pose proof Hp as [k Hk]%tabs_elem. apply HqT.
  rewrite (in_page_eq q p a); [done|done|eapply rep_page; [apply Hok|exact Hk]|done..].
Qed.

(** What the other spaces read does not change then. *)
Lemma others_uload s s' A B E sp' va :
  vm_inv s A E → sp' ∈ A → sp' ∈ B → (∀ a, outside B E a → phys s' !! a = phys s !! a) →
  uload (phys s') (sp_L sp') va = uload (phys s) (sp_L sp') va.
Proof using.
  intros Hi HspA HspB Hsame. unfold uload. destruct (sp_L sp' !! vpn va) as [e|] eqn:Hv; [|done].
  destruct (Z.testbit e 4) eqn:Hu; [|done]. destruct (vi_leaf _ _ _ Hi sp' _ e HspA Hv) as (_ & _ & L3).
  destruct (Z_lt_le_dec (vpn va) UVPN) as [Hvu|Hvu]; [|by rewrite L3 in Hu].
  assert (PTE2PA e ∈ srefs sp') as Hf by (unfold srefs; apply elem_of_app; right; apply frames_elem; eauto).
  apply Hsame. eapply outside_page; [exact Hi|by eapply srefs_all|by eapply others_elem|].
  unfold in_page, PGSIZE. pose proof (Z.mod_pos_bound va 4096). lia.
Qed.

(** ** The counters do not overflow

    Tables are distinct pages of the machine, and every mapping is one of the 512
    entries of a table. *)
Lemma NoDup_length_le {A} `{EqDecision A} (l1 l2 : list A) : NoDup l1 → l1 ⊆ l2 → (length l1 <= length l2)%nat.
Proof using. intros Hn Hs. by apply submseteq_length, NoDup_submseteq. Qed.

Lemma pages_few l : NoDup l → (∀ p, p ∈ l → page _end p) → Z.of_nat (length l) <= 15360.
Proof using Hend.
  intros Hn Hp. rewrite <- (length_fmap (λ p, p / PGSIZE) l).
  transitivity (Z.of_nat (length (seqZ (KERNBASE / PGSIZE) 15360))); [|rewrite length_seqZ; done]. apply inj_le, NoDup_length_le.
  - apply NoDup_fmap_2_strong; [|done]. intros p q Hpl Hql E1. apply Hp in Hpl as [Hpm _]. apply Hp in Hql as [Hqm _]. unfold PGSIZE in *. dlia.
  - intros x (p & -> & Hpl)%list_elem_of_fmap. apply Hp in Hpl as [Hpm Hpr]. apply elem_of_seqZ. unfold PHYSTOP, KERNBASE, PGSIZE in *. dlia.
Qed.

Lemma frames_few m root T L : rep _end m root T L → Z.of_nat (length (frames L)) <= 512 * Z.of_nat (length (tabs T)).
Proof using.
  intros Hr. unfold frames, tabs. rewrite !length_fmap.
  transitivity (Z.of_nat (length (map_to_list T ≫= (λ kv, seqZ (kv.1.2 * 512) 512)))).
  - rewrite <- (length_fmap fst (map_to_list (user_part L))). apply inj_le, NoDup_length_le; [apply NoDup_fst_map_to_list|].
    intros v ([v' e] & -> & Hv%elem_of_map_to_list)%list_elem_of_fmap. apply map_lookup_filter_Some in Hv as [Hv _].
    destruct (rep_leaf _ _ _ _ _ Hr v' e Hv) as (_ & _ & [q Hq]). apply list_elem_of_bind. exists ((0%nat, v' / 512), q).
    split; [|by apply elem_of_map_to_list]. apply elem_of_seqZ. cbn. dlia.
  - induction (map_to_list T) as [|kv l IH]; [done|]. rewrite bind_cons, length_app, length_seqZ. cbn [length]. lia.
Qed.

Definition all_tabs (A : list space) : list Z := mjoin ((tabs ∘ sp_T) <$> A).
Lemma all_tabs_refs A : all_tabs A ⊆+ all_refs A.
Proof using.
  induction A as [|sp A IH]; [done|]. rewrite all_refs_cons. unfold srefs.
  change (all_tabs (sp :: A)) with (tabs (sp_T sp) ++ all_tabs A). rewrite <- app_assoc. apply submseteq_skips_l.
  etrans; [exact IH|]. by apply submseteq_inserts_l.
Qed.
Lemma held_submseteq l l' p : l ⊆+ l' → held l p <= held l' p.
Proof using. intros [k Hk]%submseteq_Permutation. rewrite (held_perm _ _ p Hk), held_app. pose proof (held_nonneg k p). lia. Qed.

Lemma held_few s A E p : vm_inv s A E → held (all_refs A ++ E) p < 2 ^ 31 - 1.
Proof using Hend.
  intros Hi. rewrite held_app. pose proof (held_le E p). pose proof (vi_small _ _ _ Hi).
  pose proof (held_le (all_refs A) p).
  assert (Z.of_nat (length (all_refs A)) <= 513 * Z.of_nat (length (all_tabs A))) as Hfew.
  { pose proof (vi_rep _ _ _ Hi) as Hr. clear -Hr. induction A as [|sp A IH]; [done|].
    change (all_tabs (sp :: A)) with (tabs (sp_T sp) ++ all_tabs A). rewrite all_refs_cons. unfold srefs. rewrite !length_app.
    pose proof (frames_few _ _ _ _ (Hr sp ltac:(left))). specialize (IH ltac:(intros; apply Hr; by right)). lia. }
  assert (Z.of_nat (length (all_tabs A)) <= 15360); [|lia].
  assert (∀ q, q ∈ all_tabs A → held (all_refs A ++ E) q = 1 ∧ page _end q) as Hq.
  { intros q (l & Hql & Hl)%list_elem_of_join. apply list_elem_of_fmap in Hl as (sp & -> & Hsp). cbn in Hql.
    split; [by eapply vi_tabs|]. apply tabs_elem in Hql as [k Hk]. eapply rep_page; [by eapply vi_rep|exact Hk]. }
  apply pages_few; [|intros q Hqt; by apply Hq].
  apply NoDup_ListNoDup, (NoDup_count_occ Z.eq_dec). intros q. destruct (decide (q ∈ all_tabs A)) as [Hqt|Hqt].
  - pose proof (held_submseteq _ _ q (all_tabs_refs A)). destruct (Hq q Hqt) as [Hq1 _]. rewrite held_app in Hq1.
    pose proof (held_nonneg E q). unfold held in *. lia.
  - apply held_zero in Hqt. unfold held in Hqt. lia.
Qed.

(** ** Steps of the operations *)

Lemma untouched_rep s s' R root T L ps :
  tables_ok _end s R root T L → untouched ps s s' → (∀ p, p ∈ ps → page _end p ∧ p ∉ tabs T) → rep _end (phys s') root T L.
Proof using.
  intros Hok Hu Hps. eapply rep_frame; [|apply Hok]. intros p a Hp Ha. apply Hu. intros q Hq Hqa.
  destruct (Hps q Hq) as [Hqp Hqn]. apply Hqn. rewrite (in_page_eq q p a); try done.
  apply tabs_elem in Hp as [k Hk]. eapply rep_page; [apply Hok|exact Hk].
Qed.

(** [kalloc]. *)
Lemma take_page s R root T L :
  tables_ok _end s R root T L →
  kalloc _end s = Ret (0, s) ∧ tight _end (tabs T ++ R) 0 ∨ ∃ q s', kalloc _end s = Ret (q, s') ∧ q ≠ 0 ∧ page _end q ∧ (q ∉ tabs T ++ R) ∧
    tables_ok _end s' (q :: R) root T L ∧ untouched [q] s s'.
Proof using Hend.
  intros Hok. destruct (tk_inv _ _ _ _ _ _ Hok) as [l Hi].
  destruct (kalloc_spec _end Hend s l (ci_inv _ _ _ _ Hi)) as (s1 & E1 & _ & Hl).
  destruct (client_inv_alloc _end Hend _ _ _ _ _ Hi E1) as [[Hq ->]|[Hq Hi1]].
  { left. rewrite Hq in E1. split; [done|]. by eapply (kalloc_tight _end Hend). }
  right.
  destruct l as [|q l]; [done|]. cbn [head from_option tail id] in *. destruct Hl as (_ & _ & W1).
  assert (page _end q) as Hpq by (eapply Forall_inv, (inv_page _ _ _ (ci_inv _ _ _ _ Hi))).
  assert (q ∉ tabs T ++ R) as Hqn by (apply held_zero, (ci_part _ _ _ _ Hi); [done|left]).
  assert (untouched [q] s s1) as Hu.
  { intros a Ha. rewrite W1, decide_False; [done|]. rewrite length_replicate. intros Hin. apply (Ha q); [left|]. unfold in_page, PGSIZE in *. lia. }
  exists q, s1. split_and!; try done. pose proof Hqn as [HqT HqR]%not_elem_of_app. constructor.
  - exists l. eapply client_inv_perm; [|exact Hi1]. by rewrite Permutation_middle.
  - eapply untouched_rep; [exact Hok|exact Hu|]. by intros p ->%list_elem_of_singleton.
  - intros p Hp [->|Hp']%elem_of_cons; [done|]. by eapply (tk_disj _ _ _ _ _ _ Hok).
Qed.

(** [kfree] of a page one of whose references is dropped. *)
Lemma drop_page s R R' root T L pa :
  tables_ok _end s R root T L → R ≡ₚ pa :: R' → held (tabs T ++ R) pa < 2 ^ 31 →
  ∃ s', kfree _end pa s = Ret ((), s') ∧ tables_ok _end s' R' root T L ∧ untouched [pa] s s' ∧ (pa ∈ R' → phys s' = phys s).
Proof using Hend.
  intros Hok HR Hlt. destruct (tk_inv _ _ _ _ _ _ Hok) as [l Hi].
  assert (pa ∈ R) as HpaR by (rewrite HR; left).
  assert (0 < held (tabs T ++ R) pa) as Hpos by (apply held_pos, elem_of_app; by right).
  pose proof (ci_page _ _ _ _ Hi pa Hpos) as Hpp. pose proof (ci_refs _ _ _ _ Hi pa Hpos) as Href.
  assert (pa ∉ l) as Hnl by (rewrite (ci_part _ _ _ _ Hi) by done; lia).
  assert (pa ∉ tabs T) as HnT by (intros Hp; by eapply (tk_disj _ _ _ _ _ _ Hok)).
  destruct (kfree_spec _end Hend s l pa (ci_inv _ _ _ _ Hi) Hpp Hnl) as (s' & E1 & _ & _ & Hs'); [rewrite Href; lia|].
  assert (tabs T ++ R ≡ₚ pa :: tabs T ++ R') as Hperm by (rewrite HR; by rewrite Permutation_middle).
  destruct (client_inv_free _end Hend s (tabs T ++ R) l s' pa _ Hi Hperm Hlt E1) as [l' Hi'].
  assert (untouched [pa] s s') as Hu.
  { rewrite Href in Hs'. case_decide; [destruct Hs' as (_ & Ep & _); intros a _; by rewrite Ep|]. destruct Hs' as [_ W].
    intros a Ha. rewrite W, decide_False; [done|]. rewrite length_app, length_le_bytes, length_replicate. intros Hin.
    apply (Ha pa); [left|]. unfold in_page, PGSIZE in *. lia. }
  exists s'. split_and!; [done| |done|].
  - constructor; [by exists l'| |].
    + eapply untouched_rep; [exact Hok|exact Hu|]. by intros p ->%list_elem_of_singleton.
    + intros p Hp Hp'. eapply (tk_disj _ _ _ _ _ _ Hok p Hp). rewrite HR. by right.
  - intros Hin. assert (1 < held (tabs T ++ R) pa) as Hgt.
    { rewrite (held_perm _ _ pa Hperm), held_cons, decide_True, held_app by done. apply held_pos in Hin. pose proof (held_nonneg (tabs T) pa). lia. }
    rewrite Href, decide_True in Hs' by done. by destruct Hs' as (_ & -> & _).
Qed.

(** A write in a page that is not a table. *)
Lemma write_page s R root T L q d b m' :
  tables_ok _end s R root T L → q ∈ R → q <= d → d + Z.of_nat (length b) <= q + PGSIZE → written (phys s) m' d b →
  tables_ok _end (set_phys (λ _, m') s) R root T L ∧ untouched [q] s (set_phys (λ _, m') s).
Proof using Hend.
  intros Hok Hq H1 H2 W. destruct (tk_inv _ _ _ _ _ _ Hok) as [l Hi].
  assert (held (tabs T ++ R) q > 0) as Hpos by (apply Z.lt_gt, held_pos, elem_of_app; by right).
  assert (untouched [q] s (set_phys (λ _, m') s)) as Hu by (eapply untouched_written; [left|exact H1|exact H2|exact W]).
  split; [|done]. constructor; [|eapply untouched_rep; [exact Hok|exact Hu|]|apply Hok].
  - exists l. eapply (client_inv_phys _ Hend _ _ _ q); [exact Hi|lia|exact H1|exact H2|exact W].
  - intros p ->%list_elem_of_singleton. split; [apply (ci_page _ _ _ _ Hi); lia|]. intros Hp. by eapply (tk_disj _ _ _ _ _ _ Hok).
Qed.

(** Another reference to a page in use. *)
Lemma share_page s R root T L pa :
  tables_ok _end s R root T L → pa ∈ R → held (tabs T ++ R) pa < 2 ^ 31 - 1 →
  ∃ s', page_share _end pa s = Ret ((), s') ∧ tables_ok _end s' (pa :: R) root T L ∧ phys s' = phys s.
Proof using Hend.
  intros Hok Hin Hlt. destruct (tk_inv _ _ _ _ _ _ Hok) as [l Hi].
  assert (pa ∈ tabs T ++ R) as Hin' by (apply elem_of_app; by right).
  pose proof (ci_page _ _ _ _ Hi pa (proj1 (held_pos _ _) Hin')) as Hpp. pose proof (inv_len _ _ _ (ci_inv _ _ _ _ Hi)) as Hlen.
  assert (∃ s', page_share _end pa s = Ret ((), s') ∧ phys s' = phys s) as (s' & E1 & Ep).
  { unfold page_share. rewrite (bind_Ret _ _ _ _ _ (pgcount_get_run _end Hend s pa Hpp Hlen)).
    eexists. split; [by apply pgcount_set_run|done]. }
  pose proof (client_inv_share _end Hend s _ l s' pa Hi Hin' Hlt E1) as Hi'. exists s'. split_and!; [done| |done]. constructor.
  - exists l. eapply client_inv_perm; [|exact Hi']. by rewrite Permutation_middle.
  - rewrite Ep. apply Hok.
  - intros p Hp [->|Hp']%elem_of_cons; by eapply (tk_disj _ _ _ _ _ _ Hok).
Qed.

(** The contents of a page in use. *)
Lemma page_contents s A E sp f : vm_inv s A E → sp ∈ A → f ∈ frames (sp_L sp) →
  ∃ b, length b = Z.to_nat PGSIZE ∧ bytes_at (phys s) f b ∧ Forall is_byte b.
Proof using.
  intros Hi Hsp Hf. pose proof Hi as [[l Hc] _ _ _ _ _].
  assert (f ∈ all_refs A ++ E) as Hfo.
  { apply elem_of_app. left. apply list_elem_of_join. exists (srefs sp). split; [unfold srefs; apply elem_of_app; by right|by apply list_elem_of_fmap_2]. }
  pose proof (inv_mapped _ _ _ (ci_inv _ _ _ _ Hc) f (vm_page _ _ _ _ Hi Hfo)) as Hm.
  exists ((λ k : nat, default 0 (phys s !! (f + Z.of_nat k))) <$> seq 0 (Z.to_nat PGSIZE)).
  assert (∀ k b, ((λ k : nat, default 0 (phys s !! (f + Z.of_nat k))) <$> seq 0 (Z.to_nat PGSIZE)) !! k = Some b →
    (k < Z.to_nat PGSIZE)%nat ∧ phys s !! (f + Z.of_nat k) = Some b) as Hat.
  { intros k b Hk. rewrite list_lookup_fmap in Hk. apply fmap_Some in Hk as (i & Hi' & ->).
    apply lookup_seq in Hi' as [-> Hlt]. split; [done|]. cbn. destruct (Hm k Hlt) as [c Hc']. by rewrite Hc'. }
  split_and!.
  - by rewrite length_fmap, length_seq.
  - intros k b Hk. by apply Hat.
  - apply Forall_lookup. intros k b [Hlt Hk]%Hat. eapply (vi_bytes _ _ _ Hi); [exact Hsp|exact Hf| |exact Hk].
    unfold in_page, PGSIZE in *. lia.
Qed.
End spaces.
