(* ===== verification/VmCopy.v ===== *)
(** * Copying between kernel and user memory: [copyout], [copyin]

    [copyout] into a space changes the bytes its program reads there, and no byte
    any other program or the kernel reads: pages shared copy-on-write are given
    a copy first. *)
From S2P Require Import Prelude KString Kalloc Vm VmTable VmSpace.

Section copy.
Context (_end : Z) (Hend : KERNBASE <= _end <= PHYSTOP).
Implicit Types (s : kmem_t) (L : leaves) (B : list space).

(** Where a user program may write, once copy-on-write is resolved. *)
Definition user_writable L (va : Z) : Prop :=
  ∃ e, L !! vpn va = Some e ∧ Z.testbit e 4 = true ∧ (Z.testbit e 2 = true ∨ Z.testbit e 8 = true).

Definition cow_page L (va : Z) : Prop := ∃ e, L !! vpn va = Some e ∧ Z.testbit e 8 = true.
Lemma user_writable_dec L va : user_writable L va ∨ ¬ user_writable L va.
Proof using.
  unfold user_writable. destruct (L !! vpn va) as [e|]; [|right; by intros (? & ? & _)].
  destruct (Z.testbit e 4) eqn:H4; [|right; intros (? & ? & ? & _); congruence].
  destruct (Z.testbit e 2) eqn:H2; [left; eauto|]. destruct (Z.testbit e 8) eqn:H8; [left; eauto|].
  right. intros (? & ? & _ & [?|?]); congruence.
Qed.

Lemma vpn_off va : va = vpn va * PGSIZE + va mod PGSIZE.
Proof using. unfold vpn, PGSIZE. dlia. Qed.
Lemma mod_page va : 0 <= va mod PGSIZE < PGSIZE.
Proof using. apply Z.mod_pos_bound. done. Qed.

(** A user leaf of the space in focus. *)
Lemma user_leaf s sp B E v e : vm_inv _end s (sp :: B) E → sp_L sp !! v = Some e → Z.testbit e 4 = true →
  0 <= v < UVPN ∧ v < maxvpn ∧ PTE2PA e ∈ frames (sp_L sp) ∧ page _end (PTE2PA e).
Proof using.
  intros Hi Hv Hu. destruct (vi_leaf _ _ _ _ Hi sp v e ltac:(left) Hv) as (L1 & L2 & L3).
  assert (v < UVPN) as Hvu by (destruct (Z_lt_le_dec v UVPN); [done|by rewrite L3 in Hu]).
  assert (PTE2PA e ∈ frames (sp_L sp)) as Hf by (apply frames_elem; eauto). split_and!; [lia|done|lia|done|].
  eapply vm_page; [exact Hi|]. rewrite refs_focus, !elem_of_app. auto.
Qed.
(** What the user reads depends on the frames only. *)
Lemma uload_same s m' sp B E va : vm_inv _end s (sp :: B) E →
  (∀ g a, g ∈ frames (sp_L sp) → in_page g a → m' !! a = phys s !! a) → uload m' (sp_L sp) va = uload (phys s) (sp_L sp) va.
Proof using.
  intros Hi Hs. unfold uload. destruct (sp_L sp !! vpn va) as [e|] eqn:He; [|done]. destruct (Z.testbit e 4) eqn:Hu; [|done].
  destruct (user_leaf _ _ _ _ _ _ Hi He Hu) as (_ & _ & Hf & _). apply (Hs (PTE2PA e)); [done|]. pose proof (mod_page va). unfold in_page. lia.
Qed.
(** The page of a leaf the user may write is mapped nowhere else. *)
Lemma owned_frame s sp B E v e : vm_inv _end s (sp :: B) E → sp_L sp !! v = Some e → v < UVPN →
  held (tabs (sp_T sp) ++ frames (sp_L sp) ++ others B E) (PTE2PA e) = 1 →
  (PTE2PA e ∉ tabs (sp_T sp)) ∧ (PTE2PA e ∉ frames (delete v (sp_L sp))) ∧ (PTE2PA e ∉ others B E).
Proof using.
  intros Hi Hv Hu Hh. rewrite !held_app, (held_perm _ _ _ (frames_delete _ _ _ Hv Hu)), held_cons, decide_True in Hh by done.
  rewrite !held_zero. pose proof (held_nonneg (tabs (sp_T sp)) (PTE2PA e)). pose proof (held_nonneg (frames (delete v (sp_L sp))) (PTE2PA e)).
  pose proof (held_nonneg (others B E) (PTE2PA e)). lia.
Qed.
Lemma frames_other L v v' e' : L !! v' = Some e' → v' ≠ v → v' < UVPN → PTE2PA e' ∈ frames (delete v L).
Proof using. intros Hv' Hne Hu. apply frames_elem. exists v', e'. by rewrite lookup_delete_ne by done. Qed.

(** Writing through a leaf the user may write. *)
Lemma user_write s sp B E v e off src data :
  vm_inv _end s (sp :: B) E → sp_L sp !! v = Some e → Z.testbit e 4 = true → Z.testbit e 2 = true →
  bytes_at (phys s) src data → Forall is_byte data → 0 <= off → off + Z.of_nat (length data) <= PGSIZE →
  ∃ s', in_phys (memmove (PTE2PA e + off) src (length data)) s = Ret (PTE2PA e + off, s') ∧ vm_inv _end s' (sp :: B) E ∧
    (∀ a, outside _end B E a → phys s' !! a = phys s !! a) ∧
    ∀ va, uload (phys s') (sp_L sp) va =
      if decide (v * PGSIZE + off <= va < v * PGSIZE + off + Z.of_nat (length data))
      then data !! Z.to_nat (va - (v * PGSIZE + off)) else uload (phys s) (sp_L sp) va.
Proof using Hend.
  intros Hi Hv Hu Hw Hsrc Hbytes Hoff Hlen. destruct (user_leaf _ _ _ _ _ _ Hi Hv Hu) as (Hvr & Hvm & Hf & Hpg).
  destruct (vi_leaf _ _ _ _ Hi sp v e ltac:(left) Hv) as (_ & L2 & _). destruct (L2 ltac:(lia)) as (_ & _ & L6).
  destruct (L6 Hw) as [_ Hh]. rewrite refs_focus in Hh. destruct (owned_frame _ _ _ _ _ _ Hi Hv ltac:(lia) Hh) as (HnT & HnF & HnO).
  pose proof (vm_open _ _ _ _ _ Hi) as Hok. destruct (tk_inv _ _ _ _ _ _ Hok) as [l Hc].
  pose proof (inv_mapped _ _ _ (ci_inv _ _ _ _ Hc) _ Hpg) as Hm.
  destruct (memmove_run (phys s) (PTE2PA e + off) src data Hbytes Hsrc) as (m' & E1 & W).
  { intros k Hk. destruct (Hm (Z.to_nat off + k)%nat) as [b Hb]; [unfold PGSIZE in *; lia|]. exists b. rewrite <- Hb. f_equal. lia. }
  set (s' := set_phys (λ _, m') s).
  destruct (write_page _end Hend s _ _ _ _ (PTE2PA e) (PTE2PA e + off) data m' Hok ltac:(apply elem_of_app; by left) ltac:(lia) ltac:(lia) W) as [Hok' Hunt].
  assert (∀ f a, f ∈ frames (sp_L sp) → f ≠ PTE2PA e → in_page f a → m' !! a = phys s !! a) as Hother.
  { intros f a Hf' Hne Ha. apply Hunt. intros p ->%list_elem_of_singleton Hpa. apply Hne. eapply (in_page_eq _end); try done.
    eapply vm_page; [exact Hi|]. rewrite refs_focus, !elem_of_app. auto. }
  destruct (vm_close _end s s' sp B E (sp_T sp) (sp_L sp) [PTE2PA e] Hi Hok') as [Hi' Hout].
  - eapply untouched_sub; [|exact Hunt]. intros p Hp. apply elem_of_app. by right.
  - by intros p ->%list_elem_of_singleton.
  - intros f _. left. done.
  - intros w e' Hw'. rewrite <- refs_focus. eapply vi_leaf; [exact Hi|left|exact Hw'].
  - intros f a b Hf' Ha Hb. destruct (decide (f = PTE2PA e)) as [->|Hne].
    + cbn in Hb. rewrite W in Hb. case_decide.
      * rewrite Forall_lookup in Hbytes. by eapply Hbytes.
      * eapply vi_bytes; [exact Hi|left|exact Hf|exact Ha|exact Hb].
    + cbn in Hb. rewrite (Hother f a) in Hb by done. eapply vi_bytes; [exact Hi|left|exact Hf'|exact Ha|exact Hb].
  - exists s'. split; [by apply in_phys_run|]. split; [by destruct sp|]. split; [done|].
    intros va. unfold uload. cbn [phys]. pose proof (mod_page va) as Hmod. pose proof (vpn_off va) as Hva.
    destruct (decide (vpn va = v)) as [Hvv|Hvv].
    + rewrite Hvv, Hv, Hu. change (phys s') with m'. rewrite W. rewrite Hvv in Hva.
      repeat case_decide; try lia; [|done]. f_equal. lia.
    + rewrite decide_False by (unfold PGSIZE in *; lia).
      destruct (sp_L sp !! vpn va) as [e'|] eqn:Hv'; [|done]. destruct (Z.testbit e' 4) eqn:Hu'; [|done].
      destruct (user_leaf _ _ _ _ _ _ Hi Hv' Hu') as (Hvr' & _ & Hf' & _).
      apply (Hother (PTE2PA e')); [done| |unfold in_page; lia].
      intros E2. apply HnF. rewrite <- E2. by eapply frames_other; [exact Hv'| |lia].
Qed.

(** ** A private copy of a shared page *)

Definition cow_pte1 (q e : Z) : Z := Z.lor (Z.lor (PA2PTE q) (PTE_FLAGS e)) PTE_W.
Definition cow_pte (q e : Z) : Z := Z.ldiff (cow_pte1 q e) PTE_COW.

Lemma cow_pte1_testbit q e j : 0 <= j → Z.testbit (cow_pte1 q e) j = Z.testbit (PA2PTE q) j || Z.testbit (PTE_FLAGS e) j || (j =? 2).
Proof using. intros Hj. unfold cow_pte1. rewrite !Z.lor_spec. change PTE_W with (2 ^ 2). by rewrite flag_testbit by lia. Qed.
Lemma cow_pte1_range q e : in_range 64 (cow_pte1 q e).
Proof using.
  apply bits_range. intros j Hj. rewrite cow_pte1_testbit, PA2PTE_testbit, PTE_FLAGS_testbit by lia.
  destruct (Z.ltb_spec j 64), (Z.ltb_spec j 10), (Z.eqb_spec j 2); lia.
Qed.
Lemma cow_pte_range q e : in_range 64 (cow_pte q e).
Proof using.
  apply bits_range. intros j Hj. unfold cow_pte. rewrite Z.ldiff_spec.
  by rewrite (range_testbit _ _ (cow_pte1_range q e) Hj).
Qed.
Lemma cow_pte_flag q e j : 0 <= j < 10 → aligned q → Z.testbit (cow_pte q e) j = (Z.testbit e j || (j =? 2)) && negb (j =? 8).
Proof using.
  intros Hj Hq. unfold cow_pte, cow_pte1. rewrite own_pte_testbit, PA2PTE_testbit, PTE_FLAGS_testbit by lia.
  destruct (Z.leb_spec 10 j), (Z.ltb_spec j 10); lia.
Qed.
Lemma PTE2PA_cow_pte q e : aligned q → PTE2PA (cow_pte q e) = q.
Proof using.
  intros Hq. rewrite <- (PTE2PA_ptr q Hq) at 2. apply PTE2PA_ext. intros j Hj. unfold cow_pte, cow_pte1.
  rewrite own_pte_testbit, ptr_pte_testbit, PTE_FLAGS_testbit by lia.
  destruct (Z.ltb_spec j 10), (Z.leb_spec 59 j), (Z.eqb_spec j 2), (Z.eqb_spec j 8), (Z.eqb_spec j 0); lia.
Qed.

Lemma cow_pte_nonzero q e : aligned q → cow_pte1 q e ≠ 0 ∧ cow_pte q e ≠ 0.
Proof using.
  intros Hq. assert (∀ x, Z.testbit x 2 = true → x ≠ 0) as Hnz by (intros x Hx ->; by rewrite Z.bits_0 in Hx).
  split; apply Hnz; [rewrite cow_pte1_testbit by lia; apply orb_true_r|].
  rewrite cow_pte_flag by (done || lia). by rewrite orb_true_r.
Qed.

(** The page of leaf [v] moves to a new page [q] with the same contents, and the
    references to the old page go down by one; it is overwritten only if that
    was the last one. *)
Lemma cow_copy_run s R R' root T L v e c :
  tables_ok _end s R root T L → L !! v = Some e → R ≡ₚ PTE2PA e :: R' → page _end (PTE2PA e) →
  held (tabs T ++ R) (PTE2PA e) < 2 ^ 31 - 1 → length c = Z.to_nat PGSIZE → bytes_at (phys s) (PTE2PA e) c → Forall is_byte c →
  kalloc _end s = Ret (0, s) ∧ tight _end (tabs T ++ R) 0 ∨
  ∃ q s', cow_copy _end (slot T v) e s = Ret (q, s') ∧ page _end q ∧ (q ∉ tabs T ++ R) ∧
    tables_ok _end s' (q :: R') root T (<[v := cow_pte q e]> L) ∧
    untouched (tabs T ++ if decide (PTE2PA e ∈ R') then [q] else [q; PTE2PA e]) s s' ∧
    ∀ k, (k < Z.to_nat PGSIZE)%nat → phys s' !! (q + Z.of_nat k) = c !! k.
Proof using Hend.
  intros Hok Hv HR Hpf Hheld Hclen Hc Hcb. set (f := PTE2PA e) in *.
  destruct (rep_leaf _ _ _ _ _ (tk_rep _ _ _ _ _ _ Hok) v e Hv) as (_ & Hvalid & Htab).
  unfold cow_copy. destruct (take_page _end Hend _ _ _ _ _ Hok) as [[E1 Ht]|(q & s1 & E1 & Hq & Hpq & Hqn & Hok1 & Hu1)]; [by left|].
  right. rewrite (bind_Ret _ _ _ _ _ E1). destruct (Z.eqb_spec q 0); [done|].
  pose proof Hqn as [HqT HqR]%not_elem_of_app. assert (q ≠ f) as Hqf by (intros ->; apply HqR; rewrite HR; left).
  assert (aligned q) as Hqa by (by apply (page_aligned _end)).
  (* the copy *)
  assert (bytes_at (phys s1) f c) as Hc1.
  { intros k b Hk. rewrite Hu1; [by apply Hc|]. intros p ->%list_elem_of_singleton Ha. apply Hqf.
    apply lookup_lt_Some in Hk. eapply (in_page_eq _end); [done|done|exact Ha|]. unfold in_page, PGSIZE in *. lia. }
  destruct (tk_inv _ _ _ _ _ _ Hok1) as [l1 Hc1'].
  destruct (memmove_run (phys s1) q f c Hcb Hc1) as (m2 & E2 & W2); [rewrite Hclen; by apply (inv_mapped _ _ _ (ci_inv _ _ _ _ Hc1'))|].
  rewrite Hclen in E2. rewrite (bind_Ret _ _ _ _ _ (in_phys_run _ _ _ _ E2)). set (s2 := set_phys (λ _, m2) s1).
  destruct (write_page _end Hend s1 _ _ _ _ q q c m2 Hok1 ltac:(left) ltac:(lia) ltac:(rewrite Hclen; unfold PGSIZE; lia) W2) as [Hok2 Hu2].
  (* the entry *)
  destruct (write_leaf _end Hend s2 _ root T L v (cow_pte1 q e) Hok2 Htab (cow_pte1_range q e)) as (s3 & E3 & Hok3 & Hu3).
  { right. rewrite cow_pte1_testbit, PTE_FLAGS_testbit by lia. rewrite Hvalid. by rewrite !orb_true_r. }
  fold (cow_pte1 q e). rewrite (bind_Ret _ _ _ _ _ E3). destruct Htab as [t Ht].
  destruct (cow_pte_nonzero q e Hqa) as [Hnz1 Hnz2]. unfold set_leaf in Hok3. rewrite decide_False in Hok3 by done.
  destruct (slot_word _end Hend _ _ _ _ _ _ (tk_rep _ _ _ _ _ _ Hok3) Ht) as [_ Hw3]. rewrite lookup_insert_eq in Hw3. cbn [default id from_option] in Hw3.
  rewrite (bind_Ret _ _ _ _ _ (pte_read_run _ _ _ Hw3)). fold (cow_pte q e).
  destruct (write_leaf _end Hend s3 _ root T _ v (cow_pte q e) Hok3 ltac:(eauto) (cow_pte_range q e)) as (s4 & E4 & Hok4 & Hu4).
  { right. rewrite cow_pte_flag by (done || lia). by rewrite Hvalid. }
  rewrite (bind_Ret _ _ _ _ _ E4). unfold set_leaf in Hok4. rewrite decide_False, insert_insert_eq in Hok4 by done.
  (* the old page *)
  destruct (drop_page _end Hend s4 _ (q :: R') root T _ f Hok4) as (s5 & E5 & Hok5 & Hu5 & Hkeep).
  { rewrite HR. apply perm_swap. }
  { rewrite held_app, held_cons, decide_False by done. rewrite held_app in Hheld. lia. }
  rewrite (bind_Ret _ _ _ _ _ E5). exists q, s5. split_and!; [done..| |].
  - set (dirty := if decide (f ∈ R') then [q] else [q; f]).
    assert (untouched (tabs T ++ dirty) s4 s5) as Hu5'.
    { subst dirty. case_decide as Hd; [intros a _; by rewrite Hkeep by (by right)|].
      eapply untouched_sub; [|exact Hu5]. intros p ->%list_elem_of_singleton. rewrite elem_of_app. right. right. left. }
    assert (q ∈ dirty) as Hqd by (subst dirty; case_decide; left).
    eapply untouched_trans; [|exact Hu5']. apply (untouched_sub (tabs T ++ [q])).
    { intros p [Hp|Hp]%elem_of_app; apply elem_of_app; [by left|]. apply list_elem_of_singleton in Hp as ->. by right. }
    eapply untouched_join; [|eapply untouched_trans; [exact Hu3|exact Hu4]]. by eapply untouched_trans.
  - intros k Hk. assert (in_page q (q + Z.of_nat k)) as Hin by (unfold in_page, PGSIZE in *; lia).
    rewrite Hu5, Hu4, Hu3; [cbn; rewrite W2, decide_True by (unfold PGSIZE in *; lia); f_equal; lia|..].
    1-2: intros p Hp Hpa; pose proof Hp as [k' Hk']%tabs_elem; apply HqT; rewrite (in_page_eq _end q p (q + Z.of_nat k)); try done;
      eapply rep_page; [apply Hok|exact Hk'].
    intros p ->%list_elem_of_singleton Hpa. apply Hqf. by apply (in_page_eq _end q f (q + Z.of_nat k)).
Qed.

(** The new leaf and the old ones are fit for the invariant. *)
Lemma cow_leaf_ok s sp B E v e q :
  vm_inv _end s (sp :: B) E → sp_L sp !! v = Some e → v < UVPN → page _end q → (q ∉ tabs (sp_T sp) ++ frames (sp_L sp) ++ others B E) →
  ∀ w e', <[v := cow_pte q e]> (sp_L sp) !! w = Some e' →
    leaf_ok (tabs (sp_T sp) ++ frames (<[v := cow_pte q e]> (sp_L sp)) ++ others B E) E w e'.
Proof using Hend.
  intros Hi Hv Hvu Hpq Hqn w e' Hw. assert (aligned q) as Hqa by (by apply (page_aligned _end)).
  destruct sp as [root T L]. cbn [sp_T sp_L] in *. set (Fd := frames (delete v L)).
  assert (frames L ≡ₚ PTE2PA e :: Fd) as Hfd by (by apply frames_delete).
  assert (frames (<[v:=cow_pte q e]> L) ≡ₚ q :: Fd) as Hfr by (rewrite (frames_update L v e) by done; by rewrite PTE2PA_cow_pte).
  rewrite !not_elem_of_app, Hfd, not_elem_of_cons in Hqn. destruct Hqn as (HqT & [Hqf HqF] & HqO).
  apply lookup_insert_Some in Hw as [[<- <-]|[Hne Hw]].
  - destruct (vi_leaf _ _ _ _ Hi _ v e ltac:(left) Hv) as (L1 & _ & L3). split; [done|]. split; [|lia]. intros _.
    rewrite PTE2PA_cow_pte by done. split_and!.
    + destruct (vi_leaf _ _ _ _ Hi _ v e ltac:(left) Hv) as (_ & L2 & _). destruct (L2 Hvu) as [L4 _].
      rewrite cow_pte_flag by (done || lia). by rewrite L4.
    + intros HqE. apply HqO. unfold others. apply elem_of_app. by right.
    + intros _. split; [rewrite cow_pte_flag by (done || lia); by rewrite andb_false_r|].
      apply held_zero in HqT, HqO, HqF. rewrite !held_app, (held_perm _ _ q Hfr), held_cons, decide_True by done. lia.
  - destruct (vi_leaf _ _ _ _ Hi _ w e' ltac:(left) Hw) as (L1 & L2 & L3). split; [done|]. split; [|done]. intros Hwu.
    destruct (L2 Hwu) as (L4 & L5 & L6). split; [done|]. split; [done|]. intros Hwr. destruct (L6 Hwr) as [L7 L8]. split; [done|].
    assert (PTE2PA e' ∈ Fd) as Hg by (eapply frames_other; [exact Hw|done|done]).
    rewrite refs_focus in L8. cbn [sp_T sp_L] in L8. rewrite !held_app, (held_perm _ _ _ Hfd), held_cons in L8.
    rewrite !held_app, (held_perm _ _ _ Hfr), held_cons, decide_False by (by intros ->).
    apply held_pos in Hg. pose proof (held_nonneg (tabs T) (PTE2PA e')). pose proof (held_nonneg (others B E) (PTE2PA e')).
    case_decide; lia.
Qed.

Lemma cow_copy_spec s sp B E v e :
  vm_inv _end s (sp :: B) E → sp_L sp !! v = Some e → v < UVPN →
  kalloc _end s = Ret (0, s) ∧ tight _end (all_refs (sp :: B) ++ E) 0 ∨
  ∃ q s', cow_copy _end (slot (sp_T sp) v) e s = Ret (q, s') ∧ page _end q ∧
    vm_inv _end s' (Space (sp_root sp) (sp_T sp) (<[v := cow_pte q e]> (sp_L sp)) :: B) E ∧
    (∀ a, outside _end B E a → phys s' !! a = phys s !! a) ∧
    ∀ va, uload (phys s') (<[v := cow_pte q e]> (sp_L sp)) va = uload (phys s) (sp_L sp) va.
Proof using Hend.
  intros Hi Hv Hvu. pose proof (vm_open _ _ _ _ _ Hi) as Hok. pose proof (cow_leaf_ok s sp B E v e) as Hleaf.
  destruct sp as [root T L]. cbn [sp_root sp_T sp_L] in *. set (f := PTE2PA e). set (Fd := frames (delete v L)).
  assert (frames L ≡ₚ f :: Fd) as Hfd by (by apply frames_delete).
  assert (f ∈ frames L) as Hf by (rewrite Hfd; left).
  assert (page _end f) as Hpf by (eapply vm_page; [exact Hi|]; rewrite refs_focus, !elem_of_app; auto).
  destruct (page_contents _end s _ E (Space root T L) f Hi ltac:(left) Hf) as (c & Hclen & Hc & Hcb).
  pose proof (held_few _end Hend s _ E f Hi) as Hfew. rewrite refs_focus in Hfew. cbn [sp_T sp_L] in Hfew.
  destruct (cow_copy_run s _ (Fd ++ others B E) root T L v e c Hok Hv ltac:(by rewrite Hfd) Hpf Hfew Hclen Hc Hcb)
    as [?|(q & s5 & E5 & Hpq & Hqn & Hok5 & Hall & Hcont)]; [left; by rewrite refs_focus|right].
  exists q, s5. split; [done|]. split; [done|]. assert (aligned q) as Hqa by (by apply (page_aligned _end)).
  pose proof Hqn as Hqn'. rewrite !not_elem_of_app, Hfd, not_elem_of_cons in Hqn'. destruct Hqn' as (HqT & [Hqf HqF] & HqO).
  assert (frames (<[v:=cow_pte q e]> L) ≡ₚ q :: Fd) as Hfr by (rewrite (frames_update L v e) by done; by rewrite PTE2PA_cow_pte).
  assert (tables_ok _end s5 (frames (<[v:=cow_pte q e]> L) ++ others B E) root T (<[v:=cow_pte q e]> L)) as Hok6.
  { eapply tables_ok_perm; [|exact Hok5]. by rewrite Hfr. }
  set (dirty := if decide (PTE2PA e ∈ Fd ++ others B E) then [q] else [q; PTE2PA e]) in *.
  assert (Hdirty : ∀ p, p ∈ dirty → page _end p ∧ (p ∉ Fd ++ others B E)).
  { intros p Hp. rewrite not_elem_of_app. subst dirty. case_decide as Hd; fold f in Hd, Hp.
    - by apply list_elem_of_singleton in Hp as ->.
    - rewrite elem_of_app in Hd. apply elem_of_cons in Hp as [->|Hp]; [done|]. apply list_elem_of_singleton in Hp as ->. tauto. }
  assert (Hsame : ∀ g a, g ∈ Fd → in_page g a → phys s5 !! a = phys s !! a).
  { intros g a Hg Ha. eapply frame_same; [exact Hi|exact Hok5|exact Hall| |cbn; rewrite Hfd; by right|right; apply elem_of_app; by left|exact Ha].
    intros p Hp. destruct (Hdirty p Hp) as [Hpp Hn]. split; [done|]. intros ->. apply Hn, elem_of_app. by left. }
  destruct (vm_close _end s s5 (Space root T L) B E T (<[v:=cow_pte q e]> L) dirty Hi Hok6 Hall) as [Hi' Hout].
  - intros p Hp. destruct (Hdirty p Hp) as [Hpp Hn]. split; [done|]. intros Hp'. apply Hn, elem_of_app. by right.
  - intros f' Hf'. left. cbn [sp_L]. rewrite (held_perm _ _ f' Hfr), (held_perm _ _ f' Hfd), !held_cons.
    rewrite (decide_False (P := q = f')) by (intros ->; done). case_decide; lia.
  - by apply (Hleaf q Hi).
  - intros g a b Hg Ha Hb. rewrite Hfr in Hg. apply elem_of_cons in Hg as [->|Hg].
    + replace a with (q + Z.of_nat (Z.to_nat (a - q))) in Hb by (unfold in_page in Ha; lia).
      rewrite Hcont in Hb by (unfold in_page, PGSIZE in *; lia). rewrite Forall_lookup in Hcb. by eapply Hcb.
    + rewrite (Hsame g a Hg Ha) in Hb. eapply vi_bytes; [exact Hi|left| |exact Ha|exact Hb]. cbn. rewrite Hfd. by right.
  - split; [exact Hi'|]. split; [done|]. intros va. unfold uload. pose proof (mod_page va) as Hmod.
    destruct (decide (vpn va = v)) as [Hvv|Hvv].
    + rewrite Hvv, lookup_insert_eq, Hv, PTE2PA_cow_pte, cow_pte_flag by (done || lia). rewrite orb_false_r, andb_true_r.
      destruct (Z.testbit e 4); [|done]. replace (va mod PGSIZE) with (Z.of_nat (Z.to_nat (va mod PGSIZE))) by lia.
      rewrite Hcont by (unfold PGSIZE in *; lia). destruct (lookup_lt_is_Some_2 c (Z.to_nat (va mod PGSIZE))) as [b Hb]; [unfold PGSIZE in *; lia|].
      rewrite Hb. symmetry. by apply Hc.
    + rewrite lookup_insert_ne by done. destruct (L !! vpn va) as [e'|] eqn:Hv'; [|done]. destruct (Z.testbit e' 4) eqn:Hu'; [|done].
      destruct (user_leaf _ _ _ _ _ _ Hi Hv' Hu') as (Hvr' & _ & _ & _).
      apply (Hsame (PTE2PA e')); [eapply frames_other; [exact Hv'|done|lia]|unfold in_page; lia].
Qed.
(** ** [copyout] *)

(** The page [copyout] writes to, for a leaf the user may write. *)
Lemma own_page s sp B E v e :
  vm_inv _end s (sp :: B) E → sp_L sp !! v = Some e → Z.testbit e 4 = true → (Z.testbit e 2 = true ∨ Z.testbit e 8 = true) →
  let pa0 := if isset e PTE_COW then p ← cow_copy _end (slot (sp_T sp) v) e; mret (Some p)
             else if negb (isset e PTE_W) then mret None else mret (Some (PTE2PA e)) in
  pa0 s = Panic cow_panic ∧ Z.testbit e 8 = true ∧ tight _end (all_refs (sp :: B) ++ E) 0 ∨
  ∃ e' s', let L' := <[v := e']> (sp_L sp) in
    pa0 s = Ret (Some (PTE2PA e'), s') ∧ vm_inv _end s' (Space (sp_root sp) (sp_T sp) L' :: B) E ∧
    (∀ a, outside _end B E a → phys s' !! a = phys s !! a) ∧ Z.testbit e' 4 = true ∧ Z.testbit e' 2 = true ∧ Z.testbit e' 8 = false ∧
    ∀ va, uload (phys s') L' va = uload (phys s) (sp_L sp) va.
Proof using Hend.
  intros Hi Hv Hu Hw. destruct (user_leaf _ _ _ _ _ _ Hi Hv Hu) as (Hvr & _ & _ & _). cbv zeta.
  change PTE_COW with (2 ^ 8). change PTE_W with (2 ^ 2). rewrite !isset_bit by lia. destruct (Z.testbit e 8) eqn:H8.
  - destruct (cow_copy_spec s sp B E v e Hi Hv ltac:(lia)) as [[Em Ht]|(q & s' & Em & Hpq & Hi' & Hout & Hload)].
    { left. unfold cow_copy. rewrite (bind_Panic _ _ _ cow_panic); [done|]. by rewrite (bind_Ret _ _ _ _ _ Em). }
    right. exists (cow_pte q e), s'. assert (aligned q) as Hqa by (by apply (page_aligned _end)).
    rewrite (bind_Ret _ _ _ _ _ Em), PTE2PA_cow_pte, !cow_pte_flag, Hu by (done || lia). split_and!; try done.
    all: by rewrite ?orb_true_r, ?andb_false_r.
  - destruct Hw as [Hw|?]; [|done]. right. exists e, s. rewrite Hw. cbn [negb]. rewrite insert_id by done. destruct sp. by split_and!.
Qed.

Lemma user_writable_insert L v e e' va :
  L !! v = Some e → Z.testbit e 4 = true → (Z.testbit e 2 = true ∨ Z.testbit e 8 = true) →
  Z.testbit e' 4 = true → Z.testbit e' 2 = true → user_writable (<[v := e']> L) va ↔ user_writable L va.
Proof using.
  intros Hv H1 H2 H3 H4. unfold user_writable. destruct (decide (vpn va = v)) as [->|Hne].
  - rewrite lookup_insert_eq, Hv. split; intros _; [exists e|exists e']; auto.
  - by rewrite lookup_insert_ne by done.
Qed.

(** The failing ends of a turn of [copyout]. *)
Lemma copyout_stuck fuel s R root T L dstva src len :
  tables_ok _end s R root T L → in_range 64 dstva → 0 < len → ¬ user_writable L dstva →
  copyout_loop _end (S fuel) root dstva src len s = Ret (-1, s).
Proof using Hend.
  intros Hok Hd Hlen Hnw. cbn [copyout_loop]. destruct (Z.ltb_spec 0 len); [|lia]. cbn [negb].
  rewrite PGROUNDDOWN_spec by done. destruct (Z.leb_spec MAXVA (vpn dstva * PGSIZE)); [done|].
  destruct (walk_leaf _end Hend s root T L (vpn dstva * PGSIZE) (tk_rep _ _ _ _ _ _ Hok)) as [E1 Hcase].
  { unfold vpn, PGSIZE, in_range in *. dlia. }
  rewrite (bind_Ret _ _ _ _ _ E1), vpn_mul in *. destruct (L !! vpn dstva) as [e|] eqn:He.
  - destruct Hcase as (Hnz & E2 & Hv). destruct (Z.eqb_spec (slot T (vpn dstva)) 0); [done|]. rewrite (bind_Ret _ _ _ _ _ E2).
    change PTE_V with (2 ^ 0). change PTE_U with (2 ^ 4). change PTE_COW with (2 ^ 8). change PTE_W with (2 ^ 2). rewrite !isset_bit, Hv by lia. cbn [negb orb].
    destruct (Z.testbit e 4) eqn:H4; [|done]. cbn [negb]. destruct (Z.testbit e 8) eqn:H8; [exfalso; apply Hnw; exists e; auto|].
    destruct (Z.testbit e 2) eqn:H2; [exfalso; apply Hnw; exists e; auto|]. done.
  - destruct Hcase as [->|[Hnz E2]]; [done|]. destruct (Z.eqb_spec (slot T (vpn dstva)) 0); [done|]. by rewrite (bind_Ret _ _ _ _ _ E2).
Qed.

(** A turn of the loop at an address the user may write. *)
Definition chunk (dstva len : Z) : Z := Z.min (PGSIZE - dstva mod PGSIZE) len.

Lemma copyout_turn fuel s sp B E dstva src data :
  vm_inv _end s (sp :: B) E → in_range 64 dstva → bytes_at (phys s) src data → Forall is_byte data → data ≠ [] →
  (∀ k, (k < length data)%nat → outside _end B E (src + Z.of_nat k)) → user_writable (sp_L sp) dstva →
  let len := Z.of_nat (length data) in let n := chunk dstva len in
  let out := copyout_loop _end (S fuel) (sp_root sp) dstva src len s in
  out = Panic cow_panic ∧ cow_page (sp_L sp) dstva ∧ tight _end (all_refs (sp :: B) ++ E) 0 ∨
  ∃ s' L', length (frames L') = length (frames (sp_L sp)) ∧ out = copyout_loop _end fuel (sp_root sp) (vpn dstva * PGSIZE + PGSIZE) (src + n) (len - n) s' ∧ vpn dstva < maxvpn ∧
    vm_inv _end s' (Space (sp_root sp) (sp_T sp) L' :: B) E ∧ (∀ a, outside _end B E a → phys s' !! a = phys s !! a) ∧
    (∀ va, uload (phys s') L' va = if decide (dstva <= va < dstva + n) then data !! Z.to_nat (va - dstva) else uload (phys s) (sp_L sp) va) ∧
    (∀ va, user_writable L' va ↔ user_writable (sp_L sp) va) ∧ (∀ va, cow_page L' va → cow_page (sp_L sp) va) ∧
    (∀ w, is_Some (L' !! w) ↔ is_Some (sp_L sp !! w)).
Proof using Hend.
  intros Hi Hd Hsrc Hb Hne Hout (e & He & H4 & Hw) len n. cbv zeta.
  assert (0 < len) as Hlen by (subst len; destruct data; [done|cbn; lia]).
  pose proof (vm_open _ _ _ _ _ Hi) as Hok. set (v := vpn dstva) in *.
  destruct (user_leaf _ _ _ _ _ _ Hi He H4) as (Hvr & Hvm & _ & _).
  pose proof (vpn_range v ltac:(lia)) as Hva. pose proof (mod_page dstva) as Hmod. pose proof (vpn_off dstva) as Hoff. fold v in Hoff.
  cbn [copyout_loop]. destruct (Z.ltb_spec 0 len); [|lia]. cbn [negb].
  rewrite PGROUNDDOWN_spec by done. fold v. destruct (Z.leb_spec MAXVA (v * PGSIZE)); [lia|].
  destruct (walk_leaf _end Hend s (sp_root sp) (sp_T sp) (sp_L sp) (v * PGSIZE) (tk_rep _ _ _ _ _ _ Hok) Hva) as [E1 Hcase].
  rewrite (bind_Ret _ _ _ _ _ E1). rewrite vpn_mul in *. rewrite He in Hcase. destruct Hcase as (Hnz & E2 & Hv0).
  destruct (Z.eqb_spec (slot (sp_T sp) v) 0); [done|]. rewrite (bind_Ret _ _ _ _ _ E2).
  assert (negb (isset e PTE_V) || negb (isset e PTE_U) = false) as ->.
  { change PTE_V with (2 ^ 0). change PTE_U with (2 ^ 4). by rewrite !isset_bit, Hv0, H4 by lia. }
  destruct (own_page s sp B E v e Hi He H4 Hw) as [(Em & H8 & Ht)|(e' & s1 & E3 & Hi1 & Hout1 & H4' & H2' & H8' & Hl1)];
    [left; split_and!; [by rewrite (bind_Panic _ _ _ _ Em)|by exists e|done]|right].
  rewrite (bind_Ret _ _ _ _ _ E3). set (L1 := <[v := e']> (sp_L sp)) in *.
  replace (dstva - v * PGSIZE) with (dstva mod PGSIZE) in * by lia. fold (chunk dstva len). fold n.
  assert (0 < n <= len ∧ dstva mod PGSIZE + n <= PGSIZE) as Hn by (subst n; unfold chunk; lia).
  assert (length (take (Z.to_nat n) data) = Z.to_nat n) as Htake by (rewrite length_take; lia).
  assert (bytes_at (phys s1) src (take (Z.to_nat n) data)) as Hsrc1.
  { intros k b Hk. apply lookup_take_Some in Hk as [Hk _]. rewrite Hout1; [by apply Hsrc|]. apply Hout. by apply lookup_lt_Some in Hk. }
  destruct (user_write s1 (Space (sp_root sp) (sp_T sp) L1) B E v e' (dstva mod PGSIZE) src (take (Z.to_nat n) data) Hi1
    ltac:(apply lookup_insert_eq) H4' H2' Hsrc1 ltac:(by apply Forall_take) ltac:(lia) ltac:(lia)) as (s2 & E4 & Hi2 & Hout2 & Hl2).
  rewrite Htake in *. rewrite (bind_Ret _ _ _ _ _ E4). exists s2, L1. split_and!; [|done|done|done| | | | |].
  - subst L1. rewrite (frames_update _ v e), (frames_delete (sp_L sp) v e) by (done || lia). done.
  - intros a Ha. by rewrite Hout2, Hout1.
  - intros va. rewrite Hl2, Hl1. rewrite <- Hoff, Z2Nat.id by lia. case_decide; [|done]. apply lookup_take_lt. lia.
  - intros va. by eapply user_writable_insert.
  - intros va (x & Hx & H8x). apply lookup_insert_Some in Hx as [[_ <-]|[_ Hx]]; [congruence|by exists x].
  - intros w. subst L1. rewrite lookup_insert_is_Some'. split; [intros [<-|?]; [eauto|done]|by right].
Qed.

(** The bytes are copied in order, up to the first page the user may not write. *)
Lemma copyout_loop_spec fuel : ∀ s sp B E dstva src data,
  vm_inv _end s (sp :: B) E → in_range 64 dstva → bytes_at (phys s) src data → Forall is_byte data →
  (∀ k, (k < length data)%nat → outside _end B E (src + Z.of_nat k)) → (length data <= fuel)%nat →
  let out := copyout_loop _end fuel (sp_root sp) dstva src (Z.of_nat (length data)) s in
  out = Panic cow_panic ∧ (∃ k, 0 <= k < Z.of_nat (length data) ∧ cow_page (sp_L sp) (dstva + k)) ∧ tight _end (all_refs (sp :: B) ++ E) 0 ∨
  ∃ r s' L' n, out = Ret (r, s') ∧ vm_inv _end s' (Space (sp_root sp) (sp_T sp) L' :: B) E ∧
    (∀ a, outside _end B E a → phys s' !! a = phys s !! a) ∧
    (∀ va, uload (phys s') L' va = if decide (dstva <= va < dstva + Z.of_nat n) then data !! Z.to_nat (va - dstva) else uload (phys s) (sp_L sp) va) ∧
    (r = 0 ∧ n = length data ∨ r = -1 ∧ (n < length data)%nat ∧ ¬ user_writable (sp_L sp) (dstva + Z.of_nat n)) ∧
    (∀ w, is_Some (L' !! w) ↔ is_Some (sp_L sp !! w)).
Proof using Hend.
  induction fuel as [|fuel IH]; intros s sp B E dstva src data Hi Hd Hsrc Hb Hout Hfuel; cbv zeta.
  all: destruct (decide (data = [])) as [->|Hne]; [right; exists 0, s, (sp_L sp), 0%nat; split_and!; [done|by destruct sp|done| |by left|done]; intros va; rewrite decide_False by lia; done|].
  { destruct data; [done|cbn in Hfuel; lia]. }
  destruct (user_writable_dec (sp_L sp) dstva) as [Hw|Hw].
  2: { right. exists (-1), s, (sp_L sp), 0%nat. rewrite Z.add_0_r. assert (0 < length data)%nat by (destruct data; [done|cbn; lia]).
    split_and!; [eapply copyout_stuck; [by eapply vm_open|done|lia|done]|by destruct sp|done|intros va; by rewrite decide_False by lia|by right|done]. }
  destruct (copyout_turn fuel s sp B E dstva src data Hi Hd Hsrc Hb Hne Hout Hw) as [(Em & Hc & Ht)|(s1 & L1 & Hf1 & -> & Hv & Hi1 & Hout1 & Hl1 & Hw1 & Hc1 & Hk1)].
  { left. split_and!; [done| |done]. exists 0. rewrite Z.add_0_r. split; [|done]. destruct data; [done|cbn; lia]. }
  set (n := chunk dstva (Z.of_nat (length data))) in *. pose proof (mod_page dstva) as Hmod. pose proof (vpn_off dstva) as Hoff.
  assert (0 < n <= Z.of_nat (length data) ∧ (n = Z.of_nat (length data) ∨ vpn dstva * PGSIZE + PGSIZE = dstva + n)) as [Hn Hnext].
  { assert (0 < Z.of_nat (length data)) by (destruct data; [done|cbn; lia]). subst n. unfold chunk. lia. }
  set (rest := drop (Z.to_nat n) data). assert (Z.of_nat (length rest) = Z.of_nat (length data) - n) as Hrest by (subst rest; rewrite length_drop; lia).
  rewrite <- Hrest.
  destruct (IH s1 (Space (sp_root sp) (sp_T sp) L1) B E (vpn dstva * PGSIZE + PGSIZE) (src + n) rest) as [(Em & (k & Hk & Hc) & Ht)|H]; [done| | | | | | |].
  { unfold in_range in *. change maxvpn with (2 ^ 26) in Hv. unfold PGSIZE in *. lia. }
  { intros k b Hk. subst rest. rewrite lookup_drop in Hk. replace (src + n + Z.of_nat k) with (src + Z.of_nat (Z.to_nat n + k)) by lia.
    rewrite Hout1; [by apply Hsrc|]. apply Hout. by apply lookup_lt_Some in Hk. }
  { by apply Forall_drop. }
  { intros k Hk. replace (src + n + Z.of_nat k) with (src + Z.of_nat (Z.to_nat n + k)) by lia. apply Hout. lia. }
  { lia. }
  { left. split_and!; [done| |eapply tight_le; [exact Ht|rewrite !refs_focus; cbn [sp_T sp_L]; rewrite !length_app; lia]].
    destruct Hnext as [Hnext|Hnext]; [lia|]. exists (n + k). split; [lia|].
    apply Hc1. cbn [sp_L] in Hc. by replace (dstva + (n + k)) with (vpn dstva * PGSIZE + PGSIZE + k) by lia. }
  right. destruct H as (r & s3 & L3 & k & E5 & Hi3 & Hout3 & Hl3 & Hres & Hk3). cbn [sp_root sp_T sp_L] in *.
  exists r, s3, L3, (Z.to_nat n + k)%nat. split_and!; [done|done| | | |intros w; by rewrite Hk3].
  - intros a Ha. by rewrite Hout3, Hout1.
  - intros va. rewrite Hl3, Hl1. subst rest. rewrite lookup_drop. destruct Hnext as [Hnext|Hnext].
    + assert (k = 0%nat) as -> by lia. rewrite decide_False by lia. by replace (Z.of_nat (Z.to_nat n + 0)) with n by lia.
    + rewrite Hnext. repeat case_decide; try lia; try done. f_equal. lia.
  - destruct Hres as [[-> ->]|(-> & Hk & Hnw)]; [left; lia|right]. destruct Hnext as [Hnext|Hnext]; [lia|].
    split_and!; [done|lia|]. rewrite <- Hw1. by replace (dstva + Z.of_nat (Z.to_nat n + k)) with (vpn dstva * PGSIZE + PGSIZE + Z.of_nat k) by lia.
Qed.
End copy.
