(* ===== verification/VmRead.v ===== *)
(** * Reading user memory: [walkaddr], [copyin], [copyinstr]

    The destination is in a page of the kernel's ([E]). Both routines are
    compared with what the user program reads itself ([uload]). *)
From S2P Require Import Prelude KString Kalloc Vm VmTable VmSpace VmCopy.

Section read.
Context (_end : Z) (Hend : KERNBASE <= _end <= PHYSTOP).
Implicit Types (s : kmem_t) (L : leaves) (A B : list space).

Lemma user_frame s A E sp v e : vm_inv _end s A E → sp ∈ A → sp_L sp !! v = Some e → Z.testbit e 4 = true → PTE2PA e ∈ srefs sp.
Proof using.
  intros Hi Hsp He H4. destruct (vi_leaf _ _ _ _ Hi sp _ e Hsp He) as (L1 & _ & L3). unfold srefs. apply elem_of_app. right.
  apply frames_elem. exists v, e. split_and!; [done| |done]. destruct (Z_lt_le_dec v UVPN); [done|]. by rewrite L3 in H4.
Qed.

(** Nothing a user program can reach is in the kernel's pages. *)
Lemma kernel_frames s A E sp f p : vm_inv _end s A E → sp ∈ A → f ∈ srefs sp → p ∈ E → f ≠ p.
Proof using.
  intros Hi Hsp Hf Hp ->. apply elem_of_app in Hf as [Hf|Hf].
  - pose proof (vi_tabs _ _ _ _ Hi sp p Hsp Hf) as Hh. rewrite held_app in Hh. apply held_pos in Hp.
    assert (0 < held (all_refs A) p); [|lia]. apply held_pos, list_elem_of_join. exists (srefs sp).
    split; [unfold srefs; apply elem_of_app; by left|by apply list_elem_of_fmap_2].
  - apply frames_elem in Hf as (v & e & Hv & Hvu & ->). destruct (vi_leaf _ _ _ _ Hi sp v e Hsp Hv) as (_ & L2 & _).
    destruct (L2 Hvu) as (_ & HE & _). done.
Qed.

Lemma kernel_write s A E p d b m' :
  vm_inv _end s A E → p ∈ E → p <= d → d + Z.of_nat (length b) <= p + PGSIZE → written (phys s) m' d b →
  vm_inv _end (set_phys (λ _, m') s) A E ∧ ∀ sp va, sp ∈ A → uload m' (sp_L sp) va = uload (phys s) (sp_L sp) va.
Proof using Hend.
  intros Hi Hp H1 H2 W. assert (p ∈ all_refs A ++ E) as Hpo by (apply elem_of_app; by right).
  assert (∀ sp f a, sp ∈ A → f ∈ srefs sp → in_page f a → m' !! a = phys s !! a) as Hsame.
  { intros sp f a Hsp Hf Ha. rewrite W, decide_False; [done|]. intros Hin. apply (kernel_frames s A E sp f p Hi Hsp Hf Hp).
    apply (in_page_eq _end f p a); [by eapply vm_page, srefs_all|by eapply vm_page|done|]. unfold in_page. lia. }
  pose proof Hi as [[l Hc] Hr Ht Hl Hb Hs]. split; [constructor; try done|].
  - exists l. eapply (client_inv_phys _end Hend); [exact Hc|by apply held_pos|exact H1|exact H2|exact W].
  - intros sp Hsp. eapply rep_frame; [|by apply Hr]. intros f a Hf Ha. eapply Hsame; [exact Hsp| |exact Ha].
    unfold srefs. apply elem_of_app. by left.
  - intros sp f a x Hsp Hf Ha Hx. cbn in Hx. rewrite (Hsame sp f a) in Hx; [by eapply Hb|done|unfold srefs; apply elem_of_app; by right|done].
  - intros sp va Hsp. unfold uload. destruct (sp_L sp !! vpn va) as [e|] eqn:He; [|done]. destruct (Z.testbit e 4) eqn:H4; [|done].
    apply (Hsame sp (PTE2PA e)); [done|by eapply user_frame|]. pose proof (mod_page va). unfold in_page. lia.
Qed.

(** [walkaddr] finds the page of a user address. *)
Definition user_page L (va : Z) : Z := match L !! vpn va with Some e => if Z.testbit e 4 then PTE2PA e else 0 | None => 0 end.

Lemma walkaddr_run s A E sp va : vm_inv _end s A E → sp ∈ A → in_range 64 va →
  walkaddr _end (sp_root sp) va s = Ret (user_page (sp_L sp) va, s).
Proof using Hend.
  intros Hi Hsp Hva. unfold walkaddr, user_page. destruct (Z.leb_spec MAXVA va) as [Hge|Hlt].
  { destruct (sp_L sp !! vpn va) as [e|] eqn:He; [|done]. destruct (vi_leaf _ _ _ _ Hi sp _ e Hsp He) as (Hr & _ & _).
    exfalso. change maxvpn with (2 ^ 26) in Hr. change MAXVA with (2 ^ 38) in Hge. unfold vpn, PGSIZE in *. dlia. }
  destruct (walk_leaf _end Hend s (sp_root sp) (sp_T sp) (sp_L sp) va (vi_rep _ _ _ _ Hi sp Hsp)) as [E1 Hcase]; [unfold in_range in Hva; lia|].
  rewrite (bind_Ret _ _ _ _ _ E1). destruct (sp_L sp !! vpn va) as [e|].
  - destruct Hcase as (Hnz & E2 & H0). destruct (Z.eqb_spec (slot (sp_T sp) (vpn va)) 0); [done|]. rewrite (bind_Ret _ _ _ _ _ E2).
    change PTE_V with (2 ^ 0). change PTE_U with (2 ^ 4). rewrite !isset_bit, H0 by lia. by destruct (Z.testbit e 4).
  - destruct Hcase as [->|[Hnz E2]]; [done|]. destruct (Z.eqb_spec (slot (sp_T sp) (vpn va)) 0); [done|]. by rewrite (bind_Ret _ _ _ _ _ E2).
Qed.

(** The bytes of a user page. *)
Lemma user_page_load s A E sp va k : vm_inv _end s A E → sp ∈ A → 0 <= k → va mod PGSIZE + k < PGSIZE → user_page (sp_L sp) va ≠ 0 →
  ∃ b, uload (phys s) (sp_L sp) (va + k) = Some b ∧ phys s !! (user_page (sp_L sp) va + (va mod PGSIZE) + k) = Some b ∧ is_byte b.
Proof using.
  unfold user_page, uload. intros Hi Hsp Hk Hoff Hnz. pose proof (mod_page va) as Hmod.
  assert (vpn (va + k) = vpn va ∧ (va + k) mod PGSIZE = va mod PGSIZE + k) as [-> ->] by (unfold vpn, PGSIZE in *; dlia).
  destruct (sp_L sp !! vpn va) as [e|] eqn:He; [|done]. destruct (Z.testbit e 4) eqn:H4; [|done].
  destruct (vi_leaf _ _ _ _ Hi sp _ e Hsp He) as (L1 & _ & L3).
  assert (vpn va < UVPN) as Hvu by (destruct (Z_lt_le_dec (vpn va) UVPN); [done|by rewrite L3 in H4]).
  assert (PTE2PA e ∈ frames (sp_L sp)) as Hf by (apply frames_elem; eauto).
  destruct (page_contents _ _ _ _ _ _ Hi Hsp Hf) as (c & Hlen & Hc & Hcb).
  destruct (lookup_lt_is_Some_2 c (Z.to_nat (va mod PGSIZE + k))) as [b Hb]; [rewrite Hlen; unfold PGSIZE in *; lia|].
  pose proof (Hc _ _ Hb) as Hm. rewrite Z2Nat.id in Hm by lia. exists b. rewrite <- Z.add_assoc, Hm. split_and!; [done..|].
  rewrite Forall_lookup in Hcb. by eapply Hcb.
Qed.
Lemma user_page_zero s A E sp va : vm_inv _end s A E → sp ∈ A → user_page (sp_L sp) va = 0 → uload (phys s) (sp_L sp) va = None.
Proof using Hend.
  unfold user_page, uload. intros Hi Hsp Hz. destruct (sp_L sp !! vpn va) as [e|] eqn:He; [|done]. destruct (Z.testbit e 4) eqn:H4; [|done].
  exfalso. revert Hz. apply (page_pos _end Hend). eapply vm_page, srefs_all; [exact Hi|exact Hsp|by eapply user_frame].
Qed.

Lemma user_page_range s A E sp va : vm_inv _end s A E → sp ∈ A → user_page (sp_L sp) va ≠ 0 → in_range 64 (vpn va * PGSIZE + PGSIZE).
Proof using.
  unfold user_page. intros Hi Hsp Hnz. destruct (sp_L sp !! vpn va) as [e|] eqn:He; [|done].
  destruct (vi_leaf _ _ _ _ Hi sp _ e Hsp He) as (Hr & _). change maxvpn with (2 ^ 26) in Hr. unfold in_range, PGSIZE. lia.
Qed.

(** What is left of a user page from [va] on, and a range of a kernel page. *)
Lemma user_chunk s A E sp va n : vm_inv _end s A E → sp ∈ A → 0 <= n → va mod PGSIZE + n <= PGSIZE → user_page (sp_L sp) va ≠ 0 →
  ∃ c, Z.of_nat (length c) = n ∧ bytes_at (phys s) (user_page (sp_L sp) va + va mod PGSIZE) c ∧ Forall is_byte c ∧
    ∀ k x, c !! k = Some x → uload (phys s) (sp_L sp) (va + Z.of_nat k) = Some x.
Proof using.
  intros Hi Hsp Hn Hoff Hnz. exists ((λ k : nat, default 0 (uload (phys s) (sp_L sp) (va + Z.of_nat k))) <$> seq 0 (Z.to_nat n)).
  assert (∀ k x, ((λ k : nat, default 0 (uload (phys s) (sp_L sp) (va + Z.of_nat k))) <$> seq 0 (Z.to_nat n)) !! k = Some x →
    uload (phys s) (sp_L sp) (va + Z.of_nat k) = Some x ∧
    phys s !! (user_page (sp_L sp) va + va mod PGSIZE + Z.of_nat k) = Some x ∧ is_byte x) as Hc.
  { intros k x Hk. rewrite list_lookup_fmap in Hk. apply fmap_Some in Hk as (j & Hj & ->). apply lookup_seq in Hj as [-> Hj]. cbn [Nat.add].
    destruct (user_page_load s A E sp va (Z.of_nat k) Hi Hsp) as (b & Eb & Em & Hb); [lia|lia|done|]. rewrite Eb. by split_and!. }
  split_and!; [rewrite length_fmap, length_seq; lia|intros k x Hk; by apply Hc|apply Forall_lookup; intros k x Hk; by eapply Hc|].
  intros k x Hk. by apply Hc.
Qed.
Lemma kernel_mapped s A E p dst n : vm_inv _end s A E → p ∈ E → p <= dst → dst + Z.of_nat n <= p + PGSIZE → mapped (phys s) dst n.
Proof using.
  intros Hi Hp H1 H2 k Hk. assert (p ∈ all_refs A ++ E) as Hpo by (apply elem_of_app; by right).
  destruct (vi_inv _ _ _ _ Hi) as [l Hc]. pose proof (inv_mapped _ _ _ (ci_inv _ _ _ _ Hc) p (vm_page _ _ _ _ _ Hi Hpo)) as Hm.
  destruct (Hm (Z.to_nat (dst - p) + k)%nat) as [b Hb]; [unfold PGSIZE in *; lia|]. exists b. rewrite <- Hb. f_equal. lia.
Qed.

Lemma user_page_apart s A E sp va p : vm_inv _end s A E → sp ∈ A → p ∈ E → user_page (sp_L sp) va ≠ 0 →
  user_page (sp_L sp) va + PGSIZE <= p ∨ p + PGSIZE <= user_page (sp_L sp) va.
Proof using.
  unfold user_page. intros Hi Hsp Hp Hnz. destruct (sp_L sp !! vpn va) as [e|] eqn:He; [|done]. destruct (Z.testbit e 4) eqn:H4; [|done].
  pose proof (user_frame _ _ _ _ _ _ Hi Hsp He H4) as Hf.
  apply (page_disjoint _end); [|eapply vm_page; [exact Hi|apply elem_of_app; by right]|by eapply kernel_frames].
  eapply vm_page; [exact Hi|by eapply (srefs_all A E sp)].
Qed.

(** ** [copyin] *)

Lemma copyin_loop_spec A E p sp fuel : ∀ s dst srcva len,
  vm_inv _end s A E → sp ∈ A → p ∈ E → in_range 64 srcva → 0 <= len → p <= dst → dst + len <= p + PGSIZE → len <= Z.of_nat fuel →
  ∃ r s' b, copyin_loop _end fuel (sp_root sp) dst srcva len s = Ret (r, s') ∧ vm_inv _end s' A E ∧
    written (phys s) (phys s') dst b ∧ Z.of_nat (length b) <= len ∧
    (∀ k x, b !! k = Some x → uload (phys s) (sp_L sp) (srcva + Z.of_nat k) = Some x) ∧
    (∀ sp' va, sp' ∈ A → uload (phys s') (sp_L sp') va = uload (phys s) (sp_L sp') va) ∧
    (r = 0 ∧ Z.of_nat (length b) = len ∨
     r = -1 ∧ Z.of_nat (length b) < len ∧ uload (phys s) (sp_L sp) (srcva + Z.of_nat (length b)) = None).
Proof using Hend.
  induction fuel as [|fuel IH]; intros s dst srcva len Hi Hsp Hp Hva Hlen H1 H2 Hfuel; cbn [copyin_loop].
  all: destruct (Z.ltb_spec 0 len) as [Hpos|Hzero]; cbn [negb]; [|exists 0, s, []; split_and!; try done; [apply written_nil|cbn; left; lia]].
  { lia. }
  pose proof (mod_page srcva) as Hmod. pose proof (vpn_off srcva) as Hoff. rewrite PGROUNDDOWN_spec by done.
  assert (in_range 64 (vpn srcva * PGSIZE)) as Hva0 by (unfold in_range in *; unfold vpn, PGSIZE in *; dlia).
  rewrite (bind_Ret _ _ _ _ _ (walkaddr_run s A E sp _ Hi Hsp Hva0)).
  assert (user_page (sp_L sp) (vpn srcva * PGSIZE) = user_page (sp_L sp) srcva) as -> by (unfold user_page; by rewrite vpn_mul).
  destruct (Z.eqb_spec (user_page (sp_L sp) srcva) 0) as [Hz|Hnz].
  { exists (-1), s, []. split_and!; try done; [apply written_nil|]. right. cbn. rewrite Z.add_0_r. split_and!; [done|lia|].
    by eapply user_page_zero. }
  replace (srcva - vpn srcva * PGSIZE) with (srcva mod PGSIZE) by lia. set (n := Z.min (PGSIZE - srcva mod PGSIZE) len).
  destruct (user_chunk s A E sp srcva n Hi Hsp) as (c & Hcl & Hc & Hcb & Hload); [lia..|done|].
  destruct (memmove_run _ dst _ c Hcb Hc) as (m' & E1 & W); [eapply kernel_mapped; [exact Hi|exact Hp|lia..]|].
  replace (length c) with (Z.to_nat n) in E1 by lia. rewrite (bind_Ret _ _ _ _ _ (in_phys_run _ _ _ _ E1)).
  destruct (kernel_write s A E p dst c m' Hi Hp H1 ltac:(lia) W) as [Hi' Hsame].
  destruct (decide (n = len)) as [Hn|Hn].
  { replace (len - n) with 0 by lia. exists 0, (set_phys (λ _, m') s), c. split_and!; try done; [by destruct fuel|lia|left; lia]. }
  destruct (IH (set_phys (λ _, m') s) (dst + n) (vpn srcva * PGSIZE + PGSIZE) (len - n) Hi' Hsp Hp) as (r & s' & b & E2 & Hi2 & W2 & Hl2 & Hb & Hsame2 & Hres);
    [by eapply user_page_range|lia..|].
  assert (vpn srcva * PGSIZE + PGSIZE = srcva + n) as Hnext by lia. rewrite Hnext in *.
  exists r, s', (c ++ b). split_and!; [done|done| | | | |].
  - eapply written_app; [exact W|]. by rewrite Hcl.
  - rewrite length_app. lia.
  - intros k x [Hk|[Hge Hk]]%lookup_app_Some; [by apply Hload|]. apply Hb in Hk. rewrite Hsame in Hk by done. rewrite <- Hk. f_equal. lia.
  - intros sp' va Hsp'. by rewrite Hsame2, Hsame.
  - rewrite length_app. destruct Hres as [[-> ?]|(-> & ? & Hu)]; [left; lia|right]. split_and!; [done|lia|]. rewrite Hsame in Hu by done. rewrite <- Hu. f_equal. lia.
Qed.

(** ** [copyinstr]

    The string at [va] as the user program reads it, if it ends within [max] bytes. *)
Fixpoint ustring (ld : Z → option Z) (va : Z) (max : nat) : option bytes :=
  match max with
  | O => None
  | S max => b ← ld va; if b =? 0 then Some [] else cons b <$> ustring ld (va + 1) max
  end.
Fixpoint upto0 (l : bytes) : bytes :=
  match l with [] => [] | b :: l => if b =? 0 then [0] else b :: upto0 l end.

Lemma ustring_ext ld ld' max : ∀ va, (∀ a, ld a = ld' a) → ustring ld va max = ustring ld' va max.
Proof using. induction max as [|max IH]; intros va Hl; cbn [ustring]; [done|]. rewrite Hl. destruct (ld' va); cbn; [|done]. by rewrite (IH _ Hl). Qed.
Lemma ustring_nil ld va max : ld va = Some 0 → ustring ld va (S max) = Some [].
Proof using. intros H. cbn. by rewrite H. Qed.
Lemma length_upto0 c : (length (upto0 c) <= length c)%nat.
Proof using. induction c as [|b c IH]; cbn; [lia|]. destruct (b =? 0); cbn; lia. Qed.
Lemma upto0_none c : 0 ∉ c → upto0 c = c.
Proof using.
  induction c as [|b c IH]; intros Hc; [done|]. apply not_elem_of_cons in Hc as [Hb Hc]. cbn. destruct (Z.eqb_spec b 0); [lia|]. by rewrite IH.
Qed.
(** A part of the string that was read. *)
Lemma ustring_chunk ld c : ∀ va max, (∀ k x, c !! k = Some x → ld (va + Z.of_nat k) = Some x) → (length c <= max)%nat →
  if decide (0 ∈ c) then ∃ l, ustring ld va max = Some l ∧ upto0 c = l ++ [0]
  else ustring ld va max = app c <$> ustring ld (va + Z.of_nat (length c)) (max - length c).
Proof using.
  induction c as [|b c IH]; intros va max Hl Hlen; [rewrite decide_False by (intros H; inversion H); cbn; rewrite Z.add_0_r, Nat.sub_0_r; by destruct (ustring _ _ _)|].
  destruct max as [|max]; [cbn in Hlen; lia|]. cbn [ustring upto0 length] in *. pose proof (Hl 0%nat b eq_refl) as H0. rewrite Z.add_0_r in H0.
  rewrite H0. cbn. destruct (Z.eqb_spec b 0) as [->|Hb]; [rewrite decide_True by left; by exists []|].
  specialize (IH (va + 1) max). assert (∀ k x, c !! k = Some x → ld (va + 1 + Z.of_nat k) = Some x) as Hl'.
  { intros k x Hk. rewrite <- (Hl (S k) x) by done. f_equal. lia. }
  specialize (IH Hl' ltac:(lia)). destruct (decide (0 ∈ c)) as [Hz|Hz].
  - rewrite decide_True by (by right). destruct IH as (l & -> & ->). by exists (b :: l).
  - rewrite decide_False by (apply not_elem_of_cons; split; [lia|done]). rewrite IH. replace (va + 1 + Z.of_nat (length c)) with (va + Z.of_nat (S (length c))) by lia.
    cbn. by rewrite <- option_fmap_compose.
Qed.

Lemma str_loop_run c : ∀ s dst p, bytes_at (phys s) p c → Forall is_byte c → mapped (phys s) dst (length c) →
  (dst + Z.of_nat (length c) <= p ∨ p + Z.of_nat (length c) <= dst) →
  ∃ m', str_loop (length c) dst p s = Ret (bool_decide (0 ∈ c), set_phys (λ _, m') s) ∧ written (phys s) m' dst (upto0 c).
Proof using Hend.
  induction c as [|b c IH]; intros s dst p Hc Hb Hm Hd; cbn [length str_loop upto0].
  { exists (phys s). rewrite bool_decide_false by (intros H; inversion H). split; [by destruct s|apply written_nil]. }
  apply bytes_at_cons in Hc as [Hp Hc]. apply Forall_cons in Hb as [Hb Hcb]. apply mapped_S in Hm as [Hd0 Hm].
  assert (in_phys (load8 p) s = Ret (b, s)) as E0 by (rewrite (in_phys_run _ _ _ _ (load8_run _ _ _ Hp)); by destruct s).
  rewrite (bind_Ret _ _ _ _ _ E0).
  rewrite (bind_Ret _ _ _ _ _ (in_phys_run _ _ _ _ (store8_run _ _ b Hd0))). rewrite (wrap_small 8 b) by done. destruct (Z.eqb_spec b 0) as [->|Hnz].
  { rewrite bool_decide_true by left. eexists. split; [done|]. apply written_cons, written_nil. }
  destruct (IH (set_phys (λ _, <[dst := b]> (phys s)) s) (dst + 1) (p + 1)) as (m' & E1 & W).
  { cbn. apply bytes_at_insert; [cbn in Hd; lia|exact Hc]. }
  { done. }
  { by apply mapped_insert. }
  { cbn in Hd. lia. }
  exists m'. split; [|by apply written_cons]. etrans; [exact E1|]. do 2 f_equal. apply bool_decide_ext. rewrite elem_of_cons. intuition lia.
Qed.

Lemma copyinstr_loop_spec A E p sp fuel : ∀ s dst srcva max,
  vm_inv _end s A E → sp ∈ A → p ∈ E → in_range 64 srcva → p <= dst → dst + Z.of_nat max <= p + PGSIZE → (max <= fuel)%nat →
  ∃ r s' b, copyinstr_loop _end fuel (sp_root sp) dst srcva (Z.of_nat max) s = Ret (r, s') ∧ vm_inv _end s' A E ∧
    written (phys s) (phys s') dst b ∧ (length b <= max)%nat ∧
    (∀ sp' va, sp' ∈ A → uload (phys s') (sp_L sp') va = uload (phys s) (sp_L sp') va) ∧
    match ustring (uload (phys s) (sp_L sp)) srcva max with Some l => r = 0 ∧ b = l ++ [0] | None => r = -1 end.
Proof using Hend.
  induction fuel as [|fuel IH]; intros s dst srcva max Hi Hsp Hp Hva H1 H2 Hfuel; cbn [copyinstr_loop].
  all: destruct (Z.ltb_spec 0 (Z.of_nat max)) as [Hpos|Hzero]; cbn [negb];
    [|exists (-1), s, []; replace max with 0%nat by lia; split_and!; try done; apply written_nil].
  { lia. }
  pose proof (mod_page srcva) as Hmod. pose proof (vpn_off srcva) as Hoff. rewrite PGROUNDDOWN_spec by done.
  assert (in_range 64 (vpn srcva * PGSIZE)) as Hva0 by (unfold in_range in *; unfold vpn, PGSIZE in *; dlia).
  rewrite (bind_Ret _ _ _ _ _ (walkaddr_run s A E sp _ Hi Hsp Hva0)).
  assert (user_page (sp_L sp) (vpn srcva * PGSIZE) = user_page (sp_L sp) srcva) as -> by (unfold user_page; by rewrite vpn_mul).
  destruct (Z.eqb_spec (user_page (sp_L sp) srcva) 0) as [Hz|Hnz].
  { exists (-1), s, []. split_and!; try done; [apply written_nil|cbn; lia|]. destruct max; [done|]. cbn [ustring].
    by rewrite (user_page_zero s A E) by done. }
  replace (srcva - vpn srcva * PGSIZE) with (srcva mod PGSIZE) by lia. set (n := Z.min (PGSIZE - srcva mod PGSIZE) (Z.of_nat max)).
  destruct (user_chunk s A E sp srcva n Hi Hsp) as (c & Hcl & Hc & Hcb & Hload); [lia..|done|].
  pose proof (user_page_apart s A E sp srcva p Hi Hsp Hp Hnz) as Hapart.
  destruct (str_loop_run c s dst _ Hc Hcb) as (m' & E1 & W); [eapply kernel_mapped; [exact Hi|exact Hp|lia..]|lia|].
  replace (length c) with (Z.to_nat n) in E1 by lia. rewrite (bind_Ret _ _ _ _ _ E1). pose proof (length_upto0 c) as Hup.
  destruct (kernel_write s A E p dst (upto0 c) m' Hi Hp H1 ltac:(lia) W) as [Hi' Hsame].
  pose proof (ustring_chunk (uload (phys s) (sp_L sp)) c srcva max Hload ltac:(lia)) as Hstr. destruct (decide (0 ∈ c)) as [Hz|Hz].
  { rewrite bool_decide_true by done. destruct Hstr as (l & -> & Eu). exists 0, (set_phys (λ _, m') s), (upto0 c). split_and!; try done; lia. }
  rewrite bool_decide_false by done. rewrite upto0_none in W by done. rewrite Hcl in Hstr. rewrite Hstr. destruct (decide (n = Z.of_nat max)) as [Hn|Hn].
  { exists (-1), (set_phys (λ _, m') s), c. replace (Z.of_nat max - n) with 0 by lia. replace (max - length c)%nat with 0%nat by lia.
    split_and!; try done; [by destruct fuel|lia]. }
  replace (Z.of_nat max - n) with (Z.of_nat (max - length c)) by lia. assert (vpn srcva * PGSIZE + PGSIZE = srcva + n) as Hnext by lia.
  destruct (IH (set_phys (λ _, m') s) (dst + n) (vpn srcva * PGSIZE + PGSIZE) (max - length c)%nat Hi' Hsp Hp)
    as (r & s' & b & E2 & Hi2 & W2 & Hl2 & Hsame2 & Hres); [by eapply user_page_range|lia..|]. rewrite Hnext in *.
  rewrite (ustring_ext _ (uload (phys s) (sp_L sp))) in Hres by (intros a; by apply Hsame).
  exists r, s', (c ++ b). split_and!; [done|done| | | |].
  - eapply written_app; [exact W|]. by rewrite Hcl.
  - rewrite length_app. lia.
  - intros sp' va Hsp'. by rewrite Hsame2, Hsame.
  - destruct (ustring _ _ (max - length c)) as [l|]; cbn; [|done]. destruct Hres as [-> ->]. by rewrite app_assoc.
Qed.
End read.
