(* ===== verification/VmUser.v ===== *)
(** * Growing and shrinking an address space: [uvmcreate], [uvmunmap],
    [uvmalloc], [uvmdealloc]

    A space that grows gets zeroed pages of its own, and one that shrinks gives
    pages back that nobody else maps; when memory runs out everything allocated
    so far is returned. *)
From S2P Require Import Prelude KString Kalloc Vm VmTable VmSpace VmCopy.

Section user.
Context (_end : Z) (Hend : KERNBASE <= _end <= PHYSTOP).
Implicit Types (s : kmem_t) (L : leaves) (B : list space).

(** ** [uvmunmap] *)

(** Without one of its leaves a space is still fit for the invariant. *)
Lemma leaf_ok_delete s sp B E v e w e' :
  vm_inv _end s (sp :: B) E → sp_L sp !! v = Some e → v < UVPN → delete v (sp_L sp) !! w = Some e' →
  leaf_ok (tabs (sp_T sp) ++ frames (delete v (sp_L sp)) ++ others B E) E w e'.
Proof using.
  intros Hi Hv Hvu [Hne Hw]%lookup_delete_Some. destruct (vi_leaf _ _ _ _ Hi sp w e' ltac:(left) Hw) as (L1 & L2 & L3).
  split; [done|]. split; [|done]. intros Hwu. destruct (L2 Hwu) as (L4 & L5 & L6). split; [done|]. split; [done|].
  intros Hb. destruct (L6 Hb) as [L7 L8]. split; [done|]. rewrite refs_focus, !held_app, (held_perm _ _ _ (frames_delete _ _ _ Hv Hvu)), held_cons in L8.
  assert (PTE2PA e' ∈ frames (delete v (sp_L sp))) as Hf by (apply frames_elem; exists w, e'; by rewrite lookup_delete_ne by done).
  rewrite !held_app. apply held_pos in Hf. pose proof (held_nonneg (tabs (sp_T sp)) (PTE2PA e')). pose proof (held_nonneg (others B E) (PTE2PA e')).
  case_decide; lia.
Qed.

(** One page is unmapped and given back. *)
Lemma unmap_step s sp B E v e :
  vm_inv _end s (sp :: B) E → sp_L sp !! v = Some e → v < UVPN →
  ∃ s1 s2, kfree _end (PTE2PA e) s = Ret ((), s1) ∧ pte_write (slot (sp_T sp) v) 0 s1 = Ret ((), s2) ∧
    vm_inv _end s2 (Space (sp_root sp) (sp_T sp) (delete v (sp_L sp)) :: B) E ∧ (∀ a, outside _end B E a → phys s2 !! a = phys s !! a) ∧
    ∀ va, uload (phys s2) (delete v (sp_L sp)) va = if decide (vpn va = v) then None else uload (phys s) (sp_L sp) va.
Proof using Hend.
  intros Hi Hv Hvu. pose proof (vm_open _ _ _ _ _ Hi) as Hok. pose proof (leaf_ok_delete s sp B E v e) as Hleaf.
  pose proof (held_few _end Hend s _ E (PTE2PA e) Hi) as Hfew. rewrite refs_focus in Hfew.
  destruct sp as [root T L]. cbn [sp_root sp_T sp_L] in *. set (f := PTE2PA e) in *. set (Fd := frames (delete v L)) in *.
  assert (frames L ≡ₚ f :: Fd) as Hfd by (by apply frames_delete).
  destruct (drop_page _end Hend s _ (Fd ++ others B E) root T L f Hok) as (s1 & E1 & Hok1 & Hu1 & Hkeep); [by rewrite Hfd|lia|].
  destruct (rep_leaf _ _ _ _ _ (tk_rep _ _ _ _ _ _ Hok1) v e Hv) as (_ & _ & Htab).
  destruct (write_leaf _end Hend s1 _ root T L v 0 Hok1 Htab ltac:(done) ltac:(by left)) as (s2 & E2 & Hok2 & Hu2).
  exists s1, s2. split; [done|]. split; [done|]. unfold set_leaf in Hok2. rewrite decide_True in Hok2 by done.
  assert (page _end f) as Hpf by (eapply vm_page; [exact Hi|]; rewrite refs_focus; cbn [sp_L]; rewrite Hfd, !elem_of_app; right; left; left).
  set (dirty := if decide (f ∈ Fd ++ others B E) then [] else [f]).
  assert (Hdirty : ∀ p, p ∈ dirty → page _end p ∧ (p ∉ Fd ++ others B E)).
  { intros p Hp. subst dirty. case_decide as Hd; [by apply elem_of_nil in Hp|]. by apply list_elem_of_singleton in Hp as ->. }
  assert (Hall : untouched (tabs T ++ dirty) s s2).
  { eapply untouched_trans; [|eapply untouched_sub; [|exact Hu2]; intros p Hp; apply elem_of_app; by left].
    subst dirty. case_decide as Hd; [intros a _; by rewrite Hkeep|]. eapply untouched_sub; [|exact Hu1]. intros p Hp. apply elem_of_app. by right. }
  assert (Hsame : ∀ g a, g ∈ Fd → in_page g a → phys s2 !! a = phys s !! a).
  { intros g a Hg Ha. eapply frame_same; [exact Hi|exact Hok2|exact Hall| |cbn; rewrite Hfd; by right|apply elem_of_app; by left|exact Ha].
    intros p Hp. destruct (Hdirty p Hp) as [Hpp Hn]. split; [done|]. intros ->. apply Hn, elem_of_app. by left. }
  destruct (vm_close _end s s2 (Space root T L) B E T (delete v L) dirty Hi Hok2 Hall) as [Hi' Hout].
  - intros p Hp. destruct (Hdirty p Hp) as [Hpp Hn]. split; [done|]. intros Hp'. apply Hn, elem_of_app. by right.
  - intros f' Hf'. left. cbn [sp_L]. rewrite (held_perm _ _ f' Hfd), held_cons. fold Fd. case_decide; lia.
  - intros w e' Hw. by apply (Hleaf w e').
  - intros g a b Hg Ha Hb. rewrite (Hsame g a Hg Ha) in Hb. eapply vi_bytes; [exact Hi|left| |exact Ha|exact Hb]. cbn. rewrite Hfd. by right.
  - split; [exact Hi'|]. split; [done|]. intros va. unfold uload. pose proof (mod_page va) as Hmod. case_decide as Hvv.
    + by rewrite Hvv, lookup_delete_eq.
    + rewrite lookup_delete_ne by done. destruct (L !! vpn va) as [e'|] eqn:Hv'; [|done]. destruct (Z.testbit e' 4) eqn:Hu'; [|done].
      destruct (user_leaf _ _ _ _ _ _ _ Hi Hv' Hu') as (Hvr' & _ & _ & _).
      apply (Hsame (PTE2PA e')); [eapply frames_other; [exact Hv'|done|lia]|unfold in_page; lia].
Qed.

(** The leaves of [n] pages from [v] on are deleted. *)
Fixpoint unmap_range (n : nat) (v : Z) L : leaves := match n with O => L | S n => unmap_range n (v + 1) (delete v L) end.
Lemma lookup_unmap_range n : ∀ v L w, unmap_range n v L !! w = if decide (v <= w < v + Z.of_nat n) then None else L !! w.
Proof using.
  induction n as [|n IH]; intros v L w; cbn [unmap_range]; [by rewrite decide_False by lia|]. rewrite IH.
  destruct (decide (w = v)) as [->|Hne].
  - rewrite decide_False, decide_True by lia. apply lookup_delete_eq.
  - rewrite lookup_delete_ne by done. repeat case_decide; (lia || done).
Qed.

Lemma leaf_flags e : Z.testbit e 1 = true → Z.land (PTE_FLAGS e) 0x3ff ≠ PTE_V.
Proof using.
  intros He E. assert (isset e (Z.lor (Z.lor PTE_R PTE_W) PTE_X) = true) as He' by (rewrite rwx_bits; by rewrite He).
  assert (isset (Z.land (PTE_FLAGS e) 0x3ff) (Z.lor (Z.lor PTE_R PTE_W) PTE_X) = true) as Hb; [|by rewrite E in Hb].
  revert He'. unfold isset, PTE_FLAGS. rewrite <- !Z.land_assoc. intros <-. do 3 f_equal.
Qed.

Lemma unmap_loop_spec n : ∀ fuel s sp B E v,
  vm_inv _end s (sp :: B) E → 0 <= v → v + Z.of_nat n <= UVPN → (n <= fuel)%nat →
  (∀ w, v <= w < v + Z.of_nat n → is_Some (sp_L sp !! w)) →
  ∃ s', unmap_loop _end fuel (sp_root sp) (v * PGSIZE) ((v + Z.of_nat n) * PGSIZE) true s = Ret ((), s') ∧
    vm_inv _end s' (Space (sp_root sp) (sp_T sp) (unmap_range n v (sp_L sp)) :: B) E ∧
    (∀ a, outside _end B E a → phys s' !! a = phys s !! a) ∧
    ∀ va, uload (phys s') (unmap_range n v (sp_L sp)) va =
      if decide (v <= vpn va < v + Z.of_nat n) then None else uload (phys s) (sp_L sp) va.
Proof using Hend.
  induction n as [|n IH]; intros fuel s sp B E v Hi Hv Hmax Hfuel Hall.
  { exists s. split_and!; [destruct fuel; cbn [unmap_loop]; by rewrite Z.add_0_r, Z.ltb_irrefl|by destruct sp|done|].
    intros va. by rewrite decide_False by lia. }
  destruct fuel as [|fuel]; [lia|]. cbn [unmap_loop].
  destruct (Z.ltb_spec (v * PGSIZE) ((v + Z.of_nat (S n)) * PGSIZE)); [|unfold PGSIZE in *; lia]. cbn [negb].
  destruct (Hall v ltac:(lia)) as [e He]. destruct (vi_leaf _ _ _ _ Hi sp v e ltac:(left) He) as (Hvr & L2 & _).
  destruct (L2 ltac:(lia)) as (Hrwx & _). pose proof (vpn_range v Hvr) as Hva.
  destruct (walk_leaf _end Hend s (sp_root sp) (sp_T sp) (sp_L sp) (v * PGSIZE) (vi_rep _ _ _ _ Hi sp ltac:(left)) Hva) as [E1 Hcase].
  rewrite (bind_Ret _ _ _ _ _ E1). rewrite vpn_mul in *. rewrite He in Hcase. destruct Hcase as (Hnz & E2 & Hv0).
  destruct (Z.eqb_spec (slot (sp_T sp) v) 0); [done|]. rewrite (bind_Ret _ _ _ _ _ E2).
  change (isset e PTE_V) with (isset e (2 ^ 0)). rewrite isset_bit, Hv0 by lia. cbn [negb].
  destruct (Z.eqb_spec (Z.land (PTE_FLAGS e) 0x3ff) PTE_V) as [E0|_]; [by apply leaf_flags in Hrwx|].
  destruct (unmap_step s sp B E v e Hi He ltac:(lia)) as (s1 & s2 & E3 & E4 & Hi2 & Hout2 & Hl2).
  rewrite (bind_Ret _ _ _ _ _ E3), (bind_Ret _ _ _ _ _ E4).
  rewrite (wrap_small 64 (v * PGSIZE + PGSIZE)) by (unfold in_range; change MAXVA with (2 ^ 38) in Hva; unfold PGSIZE in *; lia).
  destruct (IH fuel s2 _ B E (v + 1) Hi2) as (s' & E5 & Hi' & Hout' & Hl'); [lia..| |].
  { intros w Hw. cbn [sp_L]. rewrite lookup_delete_ne by lia. apply Hall. lia. }
  cbn [sp_root sp_T sp_L] in *. exists s'. split_and!; [|exact Hi'| |].
  - rewrite <- E5. f_equal; unfold PGSIZE; lia.
  - intros a Ha. by rewrite Hout', Hout2.
  - intros va. cbn [unmap_range]. rewrite Hl', Hl2. repeat case_decide; (lia || done).
Qed.

Lemma uvmunmap_spec s sp B E v n :
  vm_inv _end s (sp :: B) E → 0 <= v → 0 <= n → v + n <= UVPN → (∀ w, v <= w < v + n → is_Some (sp_L sp !! w)) →
  ∃ s', uvmunmap _end (sp_root sp) (v * PGSIZE) n true s = Ret ((), s') ∧
    vm_inv _end s' (Space (sp_root sp) (sp_T sp) (unmap_range (Z.to_nat n) v (sp_L sp)) :: B) E ∧
    (∀ a, outside _end B E a → phys s' !! a = phys s !! a) ∧
    ∀ va, uload (phys s') (unmap_range (Z.to_nat n) v (sp_L sp)) va =
      if decide (v <= vpn va < v + n) then None else uload (phys s) (sp_L sp) va.
Proof using Hend.
  intros Hi Hv Hn Hmax Hall. unfold uvmunmap. assert (v * PGSIZE mod PGSIZE = 0) as -> by (apply Z.mod_mul; done). cbn [negb Z.eqb].
  assert (UVPN <= 2 ^ 26) by (vm_compute; discriminate).
  rewrite (wrap_small 64 (n * PGSIZE)), (wrap_small 64) by (unfold in_range, PGSIZE; lia).
  destruct (unmap_loop_spec (Z.to_nat n) (Z.to_nat n) s sp B E v Hi Hv) as (s' & E1 & Hi' & Hout & Hl); [lia..|intros w Hw; apply Hall; lia|].
  rewrite Z2Nat.id in * by lia. exists s'. split_and!; try done. rewrite <- E1. f_equal. unfold PGSIZE. lia.
Qed.

(** ** [uvmdealloc] *)

(** The number of pages of the first [sz] bytes. *)
Definition pages (sz : Z) : Z := (sz + PGSIZE - 1) / PGSIZE.
Lemma PGROUNDUP_pages sz : 0 <= sz <= MAXVA → PGROUNDUP sz = pages sz * PGSIZE.
Proof using. change MAXVA with (2 ^ 38). intros H. apply PGROUNDUP_spec; unfold PGSIZE; lia. Qed.
(** Memory up to [sz] is mapped. *)
Definition filled L (sz : Z) : Prop := ∀ v, 0 <= v < pages sz → is_Some (L !! v).

Lemma pages_mono a b : a <= b → pages a <= pages b.
Proof using. intros. unfold pages, PGSIZE. dlia. Qed.

Lemma uvmdealloc_spec s sp B E oldsz newsz :
  vm_inv _end s (sp :: B) E → 0 <= newsz → 0 <= oldsz <= TRAPFRAME →
  (∀ v, pages newsz <= v < pages oldsz → is_Some (sp_L sp !! v)) →
  ∃ s' L', uvmdealloc _end (sp_root sp) oldsz newsz s = Ret (Z.min oldsz newsz, s') ∧
    vm_inv _end s' (Space (sp_root sp) (sp_T sp) L' :: B) E ∧ (∀ a, outside _end B E a → phys s' !! a = phys s !! a) ∧
    (∀ v, L' !! v = if decide (pages newsz <= v < pages oldsz) then None else sp_L sp !! v) ∧
    ∀ va, uload (phys s') L' va = if decide (pages newsz <= vpn va < pages oldsz) then None else uload (phys s) (sp_L sp) va.
Proof using Hend.
  intros Hi Hn Ho Hf. unfold uvmdealloc. assert (TRAPFRAME < MAXVA ∧ TRAPFRAME = UVPN * PGSIZE) as [Ht Hu] by (vm_compute; auto).
  destruct (Z.leb_spec oldsz newsz) as [Hle|Hlt].
  { pose proof (pages_mono _ _ Hle). exists s, (sp_L sp). rewrite Z.min_l by done. split_and!; [done|by destruct sp|done|..];
      intros; by rewrite decide_False by lia. }
  rewrite !PGROUNDUP_pages, Z.min_r by lia. pose proof (pages_mono newsz oldsz ltac:(lia)) as Hm.
  assert (0 <= pages newsz ∧ pages oldsz <= UVPN) as [Hp0 Hp1] by (unfold pages, PGSIZE in *; dlia).
  destruct (Z.ltb_spec (pages newsz * PGSIZE) (pages oldsz * PGSIZE)) as [Hlt'|Hge].
  2: { exists s, (sp_L sp). split_and!; [done|by destruct sp|done|..]; intros; rewrite decide_False by (unfold PGSIZE in *; lia); done. }
  assert ((pages oldsz * PGSIZE - pages newsz * PGSIZE) / PGSIZE = pages oldsz - pages newsz) as ->
    by (rewrite <- Z.mul_sub_distr_r; apply Z.div_mul; done).
  assert (UVPN < 2 ^ 26) by (vm_compute; done).
  assert (u64 (s32 (pages oldsz - pages newsz)) = pages oldsz - pages newsz) as -> by (rewrite (swrap_small 32), wrap_small by (unfold in_range; lia); done).
  destruct (uvmunmap_spec s sp B E (pages newsz) (pages oldsz - pages newsz) Hi) as (s' & E1 & Hi' & Hout & Hl); [lia..|intros w Hw; apply Hf; lia|].
  rewrite (bind_Ret _ _ _ _ _ E1). eexists s', _. split_and!; [done|exact Hi'|done|..].
  - intros v. rewrite lookup_unmap_range. by replace (pages newsz + Z.of_nat (Z.to_nat (pages oldsz - pages newsz))) with (pages oldsz) by lia.
  - intros va. rewrite Hl. by replace (pages newsz + (pages oldsz - pages newsz)) with (pages oldsz) by lia.
Qed.

(** ** [uvmalloc] *)

(** A zeroed page of the kernel's. *)
Lemma zeroed_page s R root T L :
  tables_ok _end s R root T L →
  kalloc _end s = Ret (0, s) ∧ tight _end (tabs T ++ R) 0 ∨ ∃ q s1 s2, kalloc _end s = Ret (q, s1) ∧ in_phys (memset q 0 (Z.to_nat PGSIZE)) s1 = Ret (q, s2) ∧
    q ≠ 0 ∧ page _end q ∧ (q ∉ tabs T ++ R) ∧ tables_ok _end s2 (q :: R) root T L ∧ untouched [q] s s2 ∧
    ∀ a, in_page q a → phys s2 !! a = Some 0.
Proof using Hend.
  intros Hok. destruct (take_page _end Hend _ _ _ _ _ Hok) as [[E1 Ht]|(q & s1 & E1 & Hq & Hpq & Hqn & Hok1 & Hu1)]; [by left|right].
  destruct (tk_inv _ _ _ _ _ _ Hok1) as [l1 Hc]. destruct (memset_page _end s1 _ q 0 (ci_inv _ _ _ _ Hc) Hpq) as (m2 & E2 & W).
  destruct (write_page _end Hend s1 _ _ _ _ q q (replicate (Z.to_nat PGSIZE) 0) m2 Hok1 ltac:(left) ltac:(lia) ltac:(rewrite length_replicate; unfold PGSIZE; lia) W) as [Hok2 Hu2].
  exists q, s1, (set_phys (λ _, m2) s1). split_and!; try done; [by eapply untouched_trans|].
  intros a Ha. cbn. unfold in_page, PGSIZE in *. rewrite W, length_replicate, decide_True by lia. apply lookup_replicate_2. lia.
Qed.

(** What a page mapped for the user may be allowed: to be written and executed. *)
Definition user_perm (xperm : Z) : Prop := ∀ j, 0 <= j → Z.testbit xperm j = true → j = 2 ∨ j = 3.
Definition user_pte (q xperm : Z) : Z := mk_pte q (Z.lor (Z.lor PTE_RO PTE_U) xperm).

Lemma user_flags_testbit xperm j : 0 <= j → Z.testbit (Z.lor (Z.lor PTE_RO PTE_U) xperm) j =
  (j =? 1) || (60 <=? j) && (j <=? 62) || (j =? 4) || Z.testbit xperm j.
Proof using.
  intros Hj. unfold PTE_RO, PTE_THEAD_NORMAL. rewrite !Z.lor_spec, !Z.shiftl_1_l. change PTE_R with (2 ^ 1). change PTE_U with (2 ^ 4).
  rewrite !flag_testbit by lia. destruct (Z.eqb_spec j 1), (Z.eqb_spec j 60), (Z.eqb_spec j 61), (Z.eqb_spec j 62), (Z.leb_spec 60 j), (Z.leb_spec j 62); try lia; done.
Qed.
Lemma user_flags_ok xperm : user_perm xperm → perm_ok (Z.lor (Z.lor PTE_RO PTE_U) xperm).
Proof using.
  intros Hx. apply Z.bits_inj'. intros j Hj. rewrite PTE_FLAGS_testbit, !user_flags_testbit by done.
  destruct (Z.testbit xperm j) eqn:Ex; [apply Hx in Ex as [-> | ->]; done|].
  destruct (Z.eqb_spec j 1), (Z.eqb_spec j 4), (Z.leb_spec 60 j), (Z.leb_spec j 62), (Z.ltb_spec j 10), (Z.leb_spec 59 j), (Z.ltb_spec j 64); lia.
Qed.
Lemma user_pte_flags q xperm : aligned q → user_perm xperm →
  PTE2PA (user_pte q xperm) = q ∧ Z.testbit (user_pte q xperm) 4 = true ∧ Z.testbit (user_pte q xperm) 8 = false ∧
  Z.testbit (user_pte q xperm) 2 = Z.testbit xperm 2 ∧ Z.testbit (user_pte q xperm) 1 = true.
Proof using.
  intros Hq Hx. pose proof (user_flags_ok _ Hx). unfold user_pte. split; [by apply PTE2PA_mk|].
  assert (∀ j, 0 <= j < 10 → Z.testbit (mk_pte q (Z.lor (Z.lor PTE_RO PTE_U) xperm)) j = (j =? 1) || (j =? 4) || Z.testbit xperm j || (j =? 0) || (j =? 6) || (j =? 7)) as Hb.
  { intros j Hj. rewrite mk_pte_flag, user_flags_testbit by (done || lia). destruct (Z.leb_spec 60 j); [lia|]. by rewrite orb_false_r. }
  rewrite !Hb by lia. split_and!; [done| |by destruct (Z.testbit xperm 2)|done].
  destruct (Z.testbit xperm 8) eqn:E8; [apply Hx in E8; lia|done].
Qed.

(** New tables do not change what the leaves are fit for. *)
Lemma vm_leaf_tabs s sp B E T' w e' :
  vm_inv _end s (sp :: B) E → (∀ p, p ∈ tabs T' → p ∉ frames (sp_L sp)) → sp_L sp !! w = Some e' →
  leaf_ok (tabs T' ++ frames (sp_L sp) ++ others B E) E w e'.
Proof using.
  intros Hi HT Hw. destruct (vi_leaf _ _ _ _ Hi _ w e' ltac:(left) Hw) as (L1 & L2 & L3). split; [done|]. split; [|done]. intros Hwu.
  destruct (L2 Hwu) as (L4 & L5 & L6). split; [done|]. split; [done|]. intros Hwr. destruct (L6 Hwr) as [L7 L8]. split; [done|].
  assert (PTE2PA e' ∈ frames (sp_L sp)) as Hf by (apply frames_elem; eauto). rewrite refs_focus, !held_app in L8. rewrite !held_app.
  assert (held (tabs T') (PTE2PA e') = 0) as -> by (apply held_zero; intros Hp; by eapply HT). apply held_pos in Hf.
  pose proof (held_nonneg (tabs (sp_T sp)) (PTE2PA e')). pose proof (held_nonneg (others B E) (PTE2PA e')). lia.
Qed.

(** The space once [q] is mapped at a free page [v]. *)
Lemma grow_leaf_ok s sp B E T' v q xperm w e' :
  let L' := <[v := user_pte q xperm]> (sp_L sp) in
  vm_inv _end s (sp :: B) E → sp_L sp !! v = None → 0 <= v < UVPN → aligned q → user_perm xperm →
  (q ∉ tabs T' ++ frames (sp_L sp) ++ others B E) → (∀ p, p ∈ tabs T' → p ∉ frames (sp_L sp)) → L' !! w = Some e' →
  leaf_ok (tabs T' ++ frames L' ++ others B E) E w e'.
Proof using.
  cbv zeta. intros Hi Hv Hvu Hqa Hx Hqn HT Hw. destruct (user_pte_flags q xperm Hqa Hx) as (F1 & F2 & F3 & F4 & F5).
  pose proof (frames_insert _ _ (user_pte q xperm) Hv ltac:(lia)) as Hfr. rewrite F1 in Hfr. assert (UVPN < maxvpn) by (vm_compute; done).
  pose proof Hqn as Hqn'. rewrite !not_elem_of_app in Hqn'. destruct Hqn' as (HqT & HqF & HqO).
  apply lookup_insert_Some in Hw as [[<- <-]|[Hne Hw]].
  - split; [lia|]. split; [|lia]. intros _. rewrite F1. split_and!; [done|intros HqE; apply HqO; unfold others; apply elem_of_app; by right|].
    intros _. split; [done|]. apply held_zero in HqT, HqO, HqF. rewrite !held_app, (held_perm _ _ q Hfr), held_cons, decide_True by done. lia.
  - destruct (vi_leaf _ _ _ _ Hi _ w e' ltac:(left) Hw) as (L1 & L2 & L3). split; [done|]. split; [|done]. intros Hwu.
    destruct (vm_leaf_tabs s sp B E T' w e' Hi HT Hw) as (_ & L2' & _). destruct (L2' Hwu) as (L4 & L5 & L6). split_and!; [done..|].
    intros Hwr. destruct (L6 Hwr) as [L7 L8]. split; [done|]. assert (PTE2PA e' ∈ frames (sp_L sp)) as Hf by (apply frames_elem; eauto).
    rewrite !held_app in L8. rewrite !held_app, (held_perm _ _ _ Hfr), held_cons, decide_False by (by intros ->). lia.
Qed.

Lemma grow_map s1 s sp B E v q xperm :
  vm_inv _end s1 (sp :: B) E → sp_L sp !! v = None → 0 <= v < UVPN → aligned q → user_perm xperm → page _end q →
  (q ∉ tabs (sp_T sp) ++ frames (sp_L sp) ++ others B E) →
  tables_ok _end s (q :: frames (sp_L sp) ++ others B E) (sp_root sp) (sp_T sp) (sp_L sp) → untouched [q] s1 s →
  (∀ a, in_page q a → phys s !! a = Some 0) →
  ∃ r s' T', mappages _end (sp_root sp) (v * PGSIZE) PGSIZE q (Z.lor (Z.lor PTE_RO PTE_U) xperm) s = Ret (r, s') ∧
    (length (tabs T') <= length (tabs (sp_T sp)) + 2)%nat ∧
    (r = 0 ∧ (let L' := <[v := user_pte q xperm]> (sp_L sp) in
       vm_inv _end s' (Space (sp_root sp) T' L' :: B) E ∧ (∀ a, outside _end B E a → phys s' !! a = phys s1 !! a) ∧
       ∀ va, uload (phys s') L' va = if decide (vpn va = v) then Some 0 else uload (phys s1) (sp_L sp) va) ∨
     r = -1 ∧ tight _end (all_refs (sp :: B) ++ E) 3 ∧ ∃ s2, kfree _end q s' = Ret ((), s2) ∧ vm_inv _end s2 (Space (sp_root sp) T' (sp_L sp) :: B) E ∧
       (∀ a, outside _end B E a → phys s2 !! a = phys s1 !! a) ∧ ∀ va, uload (phys s2) (sp_L sp) va = uload (phys s1) (sp_L sp) va).
Proof using Hend.
  intros Hi Hv Hvu Hqa Hx Hpq Hqn Hok Hu Hzero. assert (UVPN < maxvpn ∧ UVPN * PGSIZE < MAXVA) as [Hmx Hmx'] by (vm_compute; auto).
  assert (vpn (v * PGSIZE + PGSIZE - 1) = v) as Hlast by (unfold vpn, PGSIZE; dlia).
  destruct (mappages_spec _end Hend s _ _ _ _ (v * PGSIZE) PGSIZE q _ Hok (user_flags_ok _ Hx)) as (r & s' & T' & k & E1 & Hok' & Hsub & Hu' & Hsz & Hres).
  { unfold PGSIZE. lia. } { done. } { unfold PGSIZE in *. lia. } { done. } { destruct Hpq as [_ Hr]. unfold PHYSTOP, KERNBASE, PGSIZE in *. lia. }
  { rewrite vpn_mul, Hlast. intros w Hw. by replace w with v by lia. }
  rewrite vpn_mul, Hlast in *. exists r, s', T'. split; [done|]. split; [lia|].
  assert (∀ p, p ∈ tabs T' → p ∉ frames (sp_L sp)) as HT.
  { intros p Hp Hf. apply (tk_disj _ _ _ _ _ _ Hok' p Hp). right. apply elem_of_app. by left. }
  assert (q ∉ tabs T') as HqT' by (intros Hp; apply (tk_disj _ _ _ _ _ _ Hok' q Hp); left).
  pose proof Hqn as Hqn'. rewrite !not_elem_of_app in Hqn'. destruct Hqn' as (HqT & HqF & HqO).
  assert (untouched (tabs T' ++ [q]) s1 s') as Hall by (by eapply untouched_join).
  assert (∀ p, p ∈ [q] → page _end p ∧ (p ∉ others B E)) as Hd by (by intros p ->%list_elem_of_singleton).
  assert (Hsame : ∀ g a, g ∈ frames (sp_L sp) → in_page g a → phys s' !! a = phys s1 !! a).
  { intros g a Hg Ha. eapply frame_same; [exact Hi|exact Hok'|exact Hall| |exact Hg|right; apply elem_of_app; by left|exact Ha].
    intros p ->%list_elem_of_singleton. split; [done|by intros ->]. }
  assert (∀ a, in_page q a → phys s' !! a = Some 0) as Hq0.
  { intros a Ha. rewrite <- (Hzero a Ha). by eapply untouched_apart. }
  destruct Hres as [[-> Hk]|(-> & Hk & Ht)]; [left|right]; (split; [done|]).
  - replace k with 1%nat in Hok' by lia. cbn [map_range] in Hok'. fold (user_pte q xperm) in Hok'.
    destruct (user_pte_flags q xperm Hqa Hx) as (F1 & F2 & F3 & F4 & F5).
    pose proof (frames_insert _ _ (user_pte q xperm) Hv ltac:(lia)) as Hfr. rewrite F1 in Hfr.
    destruct (vm_close _end s1 s' sp B E T' (<[v := user_pte q xperm]> (sp_L sp)) [q] Hi) as [Hi' Hout]; [|exact Hall|exact Hd|..].
    + eapply tables_ok_perm; [|exact Hok']. by rewrite Hfr.
    + intros f Hf. left. rewrite (held_perm _ _ f Hfr), held_cons, decide_False by (by intros ->). lia.
    + intros w e' Hw. eapply grow_leaf_ok; try done. by rewrite !not_elem_of_app.
    + intros g a b Hg Ha Hb. rewrite Hfr in Hg. apply elem_of_cons in Hg as [->|Hg].
      * rewrite (Hq0 a Ha) in Hb. by injection Hb as <-.
      * rewrite (Hsame g a Hg Ha) in Hb. eapply vi_bytes; [exact Hi|left|exact Hg|exact Ha|exact Hb].
    + cbv zeta. split; [exact Hi'|]. split; [done|]. intros va. unfold uload. pose proof (mod_page va) as Hmod. case_decide as Hvv.
      * rewrite Hvv, lookup_insert_eq, F1, F2. apply Hq0. unfold in_page. lia.
      * rewrite lookup_insert_ne by done. by apply (uload_same _ _ _ _ _ _ va Hi).
  - split; [eapply tight_le; [exact Ht|rewrite refs_focus, !length_app; cbn [length]; rewrite !length_app; lia]|].
    replace k with 0%nat in Hok' by lia. cbn [map_range] in Hok'.
    destruct (drop_page _end Hend s' _ (frames (sp_L sp) ++ others B E) _ _ _ q Hok') as (s2 & E2 & Hok2 & Hu2 & _); [done| |].
    { apply held_zero in HqT', HqF, HqO. rewrite !held_app, held_cons, decide_True, held_app by done. lia. }
    assert (untouched (tabs T' ++ [q]) s1 s2) as Hall2.
    { eapply untouched_trans; [exact Hall|]. eapply untouched_sub; [|exact Hu2]. intros p Hp. apply elem_of_app. by right. }
    exists s2. split; [done|].
    assert (Hsame2 : ∀ g a, g ∈ frames (sp_L sp) → in_page g a → phys s2 !! a = phys s1 !! a).
    { intros g a Hg Ha. eapply frame_same; [exact Hi|exact Hok2|exact Hall2| |exact Hg|apply elem_of_app; by left|exact Ha].
      intros p ->%list_elem_of_singleton. split; [done|by intros ->]. }
    destruct (vm_close _end s1 s2 sp B E T' (sp_L sp) [q] Hi Hok2 Hall2 Hd) as [Hi' Hout].
    + by left.
    + intros w e' Hw. by eapply vm_leaf_tabs.
    + intros g a b Hg Ha Hb. rewrite (Hsame2 g a Hg Ha) in Hb. eapply vi_bytes; [exact Hi|left|exact Hg|exact Ha|exact Hb].
    + split; [done|]. split; [done|]. intros va. by eapply uload_same.
Qed.

Lemma pages_mul v : pages (v * PGSIZE) = v.
Proof using. unfold pages, PGSIZE. dlia. Qed.

(** What the loop has added is taken back when it fails. *)
Lemma grow_undo s sp B E v0 v :
  vm_inv _end s (sp :: B) E → 0 <= v0 <= v → v <= UVPN → (∀ w, v0 <= w < v → is_Some (sp_L sp !! w)) →
  ∃ r s' L', uvmdealloc _end (sp_root sp) (v * PGSIZE) (v0 * PGSIZE) s = Ret (r, s') ∧
    vm_inv _end s' (Space (sp_root sp) (sp_T sp) L' :: B) E ∧ (∀ a, outside _end B E a → phys s' !! a = phys s !! a) ∧
    (∀ w, L' !! w = if decide (v0 <= w < v) then None else sp_L sp !! w) ∧
    ∀ va, uload (phys s') L' va = if decide (v0 <= vpn va < v) then None else uload (phys s) (sp_L sp) va.
Proof using Hend.
  intros Hi Hv Hmax Hall. assert (TRAPFRAME = UVPN * PGSIZE) as Ht by (vm_compute; done).
  destruct (uvmdealloc_spec s sp B E (v * PGSIZE) (v0 * PGSIZE) Hi) as (s' & L' & E1 & H); [unfold PGSIZE in *; lia..| |].
  { rewrite !pages_mul. done. }
  rewrite !pages_mul in H. by eexists _, s', L'.
Qed.

Lemma alloc_loop_spec xperm newsz n : user_perm xperm → 0 <= newsz <= TRAPFRAME → ∀ fuel s sp B E v0 v,
  vm_inv _end s (sp :: B) E → 0 <= v0 <= v → v + Z.of_nat n = Z.max v (pages newsz) → (n <= fuel)%nat → v <= UVPN →
  (∀ w, v0 <= w < v → is_Some (sp_L sp !! w)) → (∀ w, v <= w < pages newsz → sp_L sp !! w = None) →
  ∃ r s' T' L', alloc_loop _end fuel (sp_root sp) (v * PGSIZE) (v0 * PGSIZE) newsz xperm s = Ret (r, s') ∧
    vm_inv _end s' (Space (sp_root sp) T' L' :: B) E ∧ (∀ a, outside _end B E a → phys s' !! a = phys s !! a) ∧
    (r = newsz ∧ (∀ w, if decide (v <= w < pages newsz) then ∃ q, L' !! w = Some (user_pte q xperm) ∧ page _end q else L' !! w = sp_L sp !! w) ∧
       (∀ va, uload (phys s') L' va = if decide (v <= vpn va < pages newsz) then Some 0 else uload (phys s) (sp_L sp) va) ∨
     r = 0 ∧ v < pages newsz ∧ tight _end (all_refs (sp :: B) ++ E) (3 * n) ∧ (∀ w, L' !! w = if decide (v0 <= w < v) then None else sp_L sp !! w) ∧
       ∀ va, uload (phys s') L' va = if decide (v0 <= vpn va < v) then None else uload (phys s) (sp_L sp) va).
Proof using Hend.
  intros Hx Hnew. assert (TRAPFRAME = UVPN * PGSIZE ∧ UVPN < maxvpn) as [Htf Hmx] by (vm_compute; auto).
  assert (∀ v, v * PGSIZE < newsz ↔ v < pages newsz) as Hlt by (intros v; unfold pages, PGSIZE; dlia).
  assert (pages newsz <= UVPN) as Hpn by (unfold pages, PGSIZE in *; dlia).
  induction n as [|n IH]; intros fuel s sp B E v0 v Hi Hv Hn Hfuel Hvm Hsome Hnone.
  { exists newsz, s, (sp_T sp), (sp_L sp). split_and!; [|by destruct sp|done|].
    - destruct fuel; cbn [alloc_loop]; (destruct (Z.ltb_spec (v * PGSIZE) newsz) as [Hc|_]; [apply Hlt in Hc; lia|done]).
    - left. split; [done|]. split; intros; by rewrite decide_False by lia. }
  destruct fuel as [|fuel]; [lia|]. cbn [alloc_loop]. destruct (Z.ltb_spec (v * PGSIZE) newsz) as [Hc|Hc]; [|apply Z.nlt_ge in Hc; rewrite Hlt in Hc; lia].
  cbn [negb]. pose proof (vm_open _ _ _ _ _ Hi) as Hok.
  assert (Hfail : ∀ s1 T1, vm_inv _end s1 (Space (sp_root sp) T1 (sp_L sp) :: B) E → (∀ a, outside _end B E a → phys s1 !! a = phys s !! a) →
    (∀ va, uload (phys s1) (sp_L sp) va = uload (phys s) (sp_L sp) va) →
    ∃ r s' T' L', (uvmdealloc _end (sp_root sp) (v * PGSIZE) (v0 * PGSIZE) ;; mret 0) s1 = Ret (r, s') ∧
      vm_inv _end s' (Space (sp_root sp) T' L' :: B) E ∧ (∀ a, outside _end B E a → phys s' !! a = phys s !! a) ∧ r = 0 ∧
      (∀ w, L' !! w = if decide (v0 <= w < v) then None else sp_L sp !! w) ∧
      ∀ va, uload (phys s') L' va = if decide (v0 <= vpn va < v) then None else uload (phys s) (sp_L sp) va).
  { intros s1 T1 Hi1 Hout1 Hl1. destruct (grow_undo s1 _ B E v0 v Hi1) as (r & s' & L' & E1 & Hi' & Hout & HL & Hl); [lia|lia|done|].
    rewrite (bind_Ret _ _ _ _ _ E1). cbn [sp_root sp_T sp_L] in *. exists 0, s', T1, L'. split_and!; try done.
    - intros a Ha. by rewrite Hout, Hout1.
    - intros va. by rewrite Hl, Hl1. }
  destruct (zeroed_page s _ _ _ _ Hok) as [[E1 Ht]|(q & s1 & s2 & E1 & E2 & Hq & Hpq & Hqn & Hok2 & Hu2 & Hz)]; rewrite (bind_Ret _ _ _ _ _ E1).
  { cbn [Z.eqb]. destruct (Hfail s (sp_T sp)) as (r & s' & T' & L' & E2 & Hi' & Hout & Hr & HL & Hl); [by destruct sp|done|done|].
    exists r, s', T', L'. split_and!; try done. right. split_and!; try done; [lia|]. eapply tight_le; [exact Ht|]. rewrite refs_focus. lia. }
  destruct (Z.eqb_spec q 0); [done|]. rewrite (bind_Ret _ _ _ _ _ E2).
  destruct (grow_map s s2 sp B E v q xperm Hi) as (r & s3 & T3 & E3 & Hsz3 & Hcase); try done; [apply Hnone; lia|lia|by apply (page_aligned _end)|].
  rewrite (bind_Ret _ _ _ _ _ E3). destruct Hcase as [[-> (Hi3 & Hout3 & Hl3)]|(-> & Ht & s4 & E4 & Hi4 & Hout4 & Hl4)]; cbn [negb Z.eqb].
  2: { rewrite (bind_Ret _ _ _ _ _ E4). destruct (Hfail s4 T3) as (r & s' & T' & L' & E5 & Hi' & Hout & Hr & HL & Hl); try done.
    exists r, s', T', L'. split_and!; try done. right. split_and!; try done; [lia|]. eapply tight_le; [exact Ht|lia]. }
  rewrite (wrap_small 64 (v * PGSIZE + PGSIZE)) by (unfold in_range, PGSIZE; change maxvpn with (2 ^ 26) in Hmx; lia).
  replace (v * PGSIZE + PGSIZE) with ((v + 1) * PGSIZE) by (unfold PGSIZE; lia).
  destruct (IH fuel s3 _ B E v0 (v + 1) Hi3) as (r & s' & T' & L' & E5 & Hi' & Hout & Hres); cbn [sp_L] in *; [lia..| | |].
  { intros w Hw. rewrite lookup_insert_is_Some. destruct (decide (v = w)); [by left|right; split; [done|]; apply Hsome; lia]. }
  { intros w Hw. rewrite lookup_insert_ne by lia. apply Hnone. lia. }
  exists r, s', T', L'. split_and!; [done|done|intros a Ha; by rewrite Hout, Hout3|].
  destruct Hres as [(-> & HL & Hl)|(-> & Hv' & Ht & HL & Hl)]; [left|right].
  - split; [done|]. split.
    + intros w. specialize (HL w). destruct (decide (w = v)) as [->|Hne].
      * rewrite decide_True by lia. rewrite decide_False, lookup_insert_eq in HL by lia. eauto.
      * rewrite lookup_insert_ne in HL by done. repeat case_decide; (lia || done).
    + intros va. rewrite Hl, Hl3. repeat case_decide; (lia || done).
  - split_and!; [done|lia| | |].
    + eapply tight_le; [exact Ht|]. rewrite !refs_focus. cbn [sp_T sp_L]. rewrite !length_app.
      pose proof (Permutation_length (frames_insert (sp_L sp) v (user_pte q xperm) (Hnone v ltac:(lia)) ltac:(lia))) as Hlf. cbn [length] in Hlf. lia.
    + intros w. rewrite HL. destruct (decide (w = v)) as [->|Hne].
      * rewrite decide_True, decide_False by lia. rewrite Hnone; [done|lia].
      * rewrite lookup_insert_ne by done. repeat case_decide; (lia || done).
    + intros va. rewrite Hl, Hl3. repeat case_decide; try lia; try done. unfold uload. rewrite Hnone; [done|lia].
Qed.

Lemma uvmalloc_spec s sp B E oldsz newsz xperm :
  vm_inv _end s (sp :: B) E → user_perm xperm → 0 <= oldsz → oldsz <= newsz <= TRAPFRAME →
  (∀ w, pages oldsz <= w < pages newsz → sp_L sp !! w = None) →
  ∃ r s' T' L', uvmalloc _end (sp_root sp) oldsz newsz xperm s = Ret (r, s') ∧
    vm_inv _end s' (Space (sp_root sp) T' L' :: B) E ∧ (∀ a, outside _end B E a → phys s' !! a = phys s !! a) ∧
    (r = newsz ∧ (∀ w, if decide (pages oldsz <= w < pages newsz) then ∃ q, L' !! w = Some (user_pte q xperm) ∧ page _end q else L' !! w = sp_L sp !! w) ∧
       (∀ va, uload (phys s') L' va = if decide (pages oldsz <= vpn va < pages newsz) then Some 0 else uload (phys s) (sp_L sp) va) ∨
     r = 0 ∧ tight _end (all_refs (sp :: B) ++ E) (3 * Z.to_nat (pages newsz - pages oldsz)) ∧ L' = sp_L sp ∧ ∀ va, uload (phys s') L' va = uload (phys s) (sp_L sp) va).
Proof using Hend.
  intros Hi Hx Ho Hn Hnone. unfold uvmalloc. assert (TRAPFRAME = UVPN * PGSIZE ∧ UVPN < maxvpn ∧ TRAPFRAME < MAXVA) as (Htf & Hmx & Hma) by (vm_compute; auto).
  destruct (Z.ltb_spec newsz oldsz); [lia|]. rewrite PGROUNDUP_pages by lia. pose proof (pages_mono oldsz newsz ltac:(lia)) as Hm.
  assert (0 <= pages oldsz ∧ pages newsz <= UVPN ∧ Z.of_nat (Z.to_nat (pages newsz - pages oldsz)) <= (newsz - pages oldsz * PGSIZE) / PGSIZE + 1) as (Hp0 & Hp1 & Hf)
    by (unfold pages, PGSIZE in *; dlia).
  destruct (alloc_loop_spec xperm newsz (Z.to_nat (pages newsz - pages oldsz)) Hx ltac:(lia) (Z.to_nat ((newsz - pages oldsz * PGSIZE) / PGSIZE) + 1)
    s sp B E (pages oldsz) (pages oldsz) Hi) as (r & s' & T' & L' & E1 & Hi' & Hout & Hres); [lia|lia|lia|lia|intros; lia|done|].
  exists r, s', T', L'. split_and!; try done. destruct Hres as [?|(-> & Hv' & Ht & HL & Hl)]; [by left|right].
  split_and!; try done.
  - apply map_eq. intros w. rewrite HL. by rewrite decide_False by lia.
  - intros va. rewrite Hl. by rewrite decide_False by lia.
Qed.
End user.
