(* ===== verification/VmFork.v ===== *)
(** * Copying an address space: [uvmcopy]

    The child maps the parent's pages; a page that could be written becomes
    copy-on-write in both. Child and parent read what the parent read before,
    and when the tables do not fit in memory the child is left empty. *)
From S2P Require Import Prelude KString Kalloc Vm VmTable VmSpace VmCopy VmUser.

Section fork.
Context (_end : Z) (Hend : KERNBASE <= _end <= PHYSTOP).
Implicit Types (s : kmem_t) (L : leaves) (B : list space).

(** ** The entries *)

Definition share_pte (e : Z) : Z := if Z.testbit e 2 then Z.lor (Z.ldiff e PTE_W) PTE_COW else e.

Lemma share_pte_testbit e j : 0 <= j → Z.testbit (share_pte e) j =
  if decide (j = 2) then false else if decide (j = 8) then Z.testbit e 8 || Z.testbit e 2 else Z.testbit e j.
Proof using.
  intros Hj. unfold share_pte. destruct (Z.testbit e 2) eqn:H2.
  - rewrite cow_pte_testbit by done. destruct (Z.eqb_spec j 2), (Z.eqb_spec j 8); repeat case_decide; subst; try lia;
      rewrite ?andb_false_r, ?orb_true_r, ?andb_true_r, ?orb_false_r; done.
  - repeat case_decide; subst; rewrite ?orb_false_r; done.
Qed.
Lemma share_pte_writable e : Z.testbit (share_pte e) 4 = true ∧ (Z.testbit (share_pte e) 2 = true ∨ Z.testbit (share_pte e) 8 = true) ↔
  Z.testbit e 4 = true ∧ (Z.testbit e 2 = true ∨ Z.testbit e 8 = true).
Proof using.
  clear Hend _end. rewrite !share_pte_testbit by lia. repeat (rewrite decide_True by lia || rewrite decide_False by lia). generalize (Z.testbit e 4) (Z.testbit e 2) (Z.testbit e 8). intros [] [] []; cbn; intuition congruence.
Qed.
Lemma PTE2PA_share e : PTE2PA (share_pte e) = PTE2PA e.
Proof using. apply PTE2PA_ext. intros j Hj. rewrite share_pte_testbit by lia. repeat case_decide; (lia || done). Qed.
Lemma share_pte_range e : in_range 64 e → in_range 64 (share_pte e).
Proof using.
  intros He. apply bits_range. intros j Hj. rewrite share_pte_testbit by lia. repeat case_decide; try lia. by apply range_testbit.
Qed.
(** ** The parent's side *)

Lemma frames_share L v e : L !! v = Some e → v < UVPN → frames (<[v := share_pte e]> L) ≡ₚ frames L.
Proof using. intros Hv Hvu. rewrite (frames_update L v e), (frames_delete L v e) by done. by rewrite PTE2PA_share. Qed.

Lemma share_leaf_ok s so B E v e w e' :
  vm_inv _end s (so :: B) E → sp_L so !! v = Some e → v < UVPN → <[v := share_pte e]> (sp_L so) !! w = Some e' →
  leaf_ok (tabs (sp_T so) ++ frames (<[v := share_pte e]> (sp_L so)) ++ others B E) E w e'.
Proof using.
  intros Hi Hv Hvu Hw. pose proof (frames_share _ _ _ Hv Hvu) as Hfr.
  assert (∀ x y, sp_L so !! x = Some y → leaf_ok (tabs (sp_T so) ++ frames (<[v := share_pte e]> (sp_L so)) ++ others B E) E x y) as Hold.
  { intros x y Hx. eapply leaf_ok_perm; [|eapply (vi_leaf _ _ _ _ Hi); [left|exact Hx]]. rewrite refs_focus. by rewrite Hfr. }
  apply lookup_insert_Some in Hw as [[<- <-]|[Hne Hw]]; [|by apply Hold]. destruct (Hold v e Hv) as (L1 & L2 & L3).
  destruct (L2 Hvu) as (L4 & L5 & L6). split; [done|]. split; [|lia]. intros _. rewrite PTE2PA_share, !share_pte_testbit by lia. by split_and!.
Qed.

(** A writable entry becomes copy-on-write. *)
Lemma mark_run s R root T L v e :
  tables_ok _end s R root T L → L !! v = Some e →
  ∃ s', cow_mark (slot T v) e s = Ret ((), s') ∧ pte_read (slot T v) s' = Ret (share_pte e, s') ∧
    tables_ok _end s' R root T (<[v := share_pte e]> L) ∧ untouched (tabs T) s s'.
Proof using Hend.
  intros Hok Hv. destruct (rep_leaf _ _ _ _ _ (tk_rep _ _ _ _ _ _ Hok) v e Hv) as (Hr & Hv0 & Htab).
  unfold cow_mark. change (isset e PTE_W) with (isset e (2 ^ 2)). rewrite isset_bit by lia.
  assert (∀ x, Z.testbit x 0 = true → x ≠ 0) as Hnz by (intros x Hx ->; by rewrite Z.bits_0 in Hx).
  assert (∀ s' L' x, tables_ok _end s' R root T L' → L' !! v = Some x → pte_read (slot T v) s' = Ret (x, s')) as Hread.
  { intros s' L' x Hok' Hx. destruct Htab as [t Ht]. destruct (slot_word _end Hend _ _ _ _ _ _ (tk_rep _ _ _ _ _ _ Hok') Ht) as [_ Hw%pte_read_run]. by rewrite Hx in Hw. }
  assert (Z.testbit (share_pte e) 0 = true) as Hs0 by (by rewrite share_pte_testbit by lia).
  destruct (Z.testbit e 2) eqn:H2.
  - assert (Z.testbit (Z.ldiff e PTE_W) 0 = true) as Hd0 by (by rewrite Z.ldiff_spec, Hv0).
    assert (in_range 64 (Z.ldiff e PTE_W)) as Hdr.
    { apply bits_range. intros j Hj. by rewrite Z.ldiff_spec, (range_testbit e) by done. }
    destruct (write_leaf _end Hend s R root T L v _ Hok Htab Hdr ltac:(by right)) as (s1 & E1 & Hok1 & Hu1).
    unfold set_leaf in Hok1. rewrite decide_False in Hok1 by (by apply Hnz).
    rewrite (bind_Ret _ _ _ _ _ E1), (bind_Ret _ _ _ _ _ (Hread _ _ _ Hok1 (lookup_insert_eq _ _ _))).
    assert (Z.lor (Z.ldiff e PTE_W) PTE_COW = share_pte e) as -> by (unfold share_pte; by rewrite H2).
    destruct (write_leaf _end Hend s1 R root T _ v _ Hok1 Htab (share_pte_range e Hr) ltac:(by right)) as (s2 & E2 & Hok2 & Hu2).
    unfold set_leaf in Hok2. rewrite decide_False, insert_insert_eq in Hok2 by (by apply Hnz).
    exists s2. split_and!; [done|eapply Hread; [exact Hok2|apply lookup_insert_eq]|done|by eapply untouched_trans].
  - assert (share_pte e = e) as -> by (unfold share_pte; by rewrite H2). exists s. rewrite insert_id by done.
    split_and!; [done|by eapply Hread|done|apply untouched_refl].
Qed.

Lemma mark_spec s so B E v e :
  vm_inv _end s (so :: B) E → sp_L so !! v = Some e → v < UVPN →
  ∃ s', cow_mark (slot (sp_T so) v) e s = Ret ((), s') ∧ pte_read (slot (sp_T so) v) s' = Ret (share_pte e, s') ∧
    vm_inv _end s' (Space (sp_root so) (sp_T so) (<[v := share_pte e]> (sp_L so)) :: B) E ∧
    (∀ a, outside _end B E a → phys s' !! a = phys s !! a) ∧
    ∀ va, uload (phys s') (<[v := share_pte e]> (sp_L so)) va = uload (phys s) (sp_L so) va.
Proof using Hend.
  intros Hi Hv Hvu. pose proof (vm_open _ _ _ _ _ Hi) as Hok. pose proof (frames_share _ _ _ Hv Hvu) as Hfr.
  destruct (mark_run s _ _ _ _ v e Hok Hv) as (s' & E1 & E2 & Hok' & Hu). exists s'. split; [done|]. split; [done|].
  assert (untouched (tabs (sp_T so) ++ []) s s') as Hall by (by rewrite app_nil_r).
  assert (Hsame : ∀ g a, g ∈ frames (sp_L so) → in_page g a → phys s' !! a = phys s !! a).
  { intros g a Hg Ha. eapply frame_same; [exact Hi|exact Hok'|exact Hall|by intros p Hp%elem_of_nil|exact Hg|apply elem_of_app; by left|exact Ha]. }
  destruct (vm_close _end s s' so B E (sp_T so) (<[v := share_pte e]> (sp_L so)) [] Hi) as [Hi' Hout]; [|exact Hall|..].
  - eapply tables_ok_perm; [|exact Hok']. by rewrite Hfr.
  - by intros p Hp%elem_of_nil.
  - intros f _. left. by rewrite (held_perm _ _ f Hfr).
  - intros w e' Hw. by eapply share_leaf_ok.
  - intros g a b Hg Ha Hb. rewrite Hfr in Hg. rewrite (Hsame g a Hg Ha) in Hb. eapply vi_bytes; [exact Hi|left|exact Hg|exact Ha|exact Hb].
  - split; [done|]. split; [done|]. intros va. rewrite <- (uload_same _end s _ so B E va Hi Hsame). unfold uload.
    destruct (decide (vpn va = v)) as [->|Hne]; [|by rewrite lookup_insert_ne by done].
    rewrite lookup_insert_eq, Hv, PTE2PA_share, share_pte_testbit by lia. by repeat case_decide.
Qed.

(** ** The child's side *)

(** A mapping of the parent's page, which nobody may write. *)
Definition ro_pte (e : Z) : Z := mk_pte (PTE2PA e) (PTE_FLAGS e).
Lemma ro_pte_low e j : aligned (PTE2PA e) → 0 <= j < 10 → Z.testbit (ro_pte e) j = Z.testbit e j || (j =? 0) || (j =? 6) || (j =? 7).
Proof using.
  intros Ha Hj. unfold ro_pte. rewrite mk_pte_flag, PTE_FLAGS_testbit by (done || lia). destruct (Z.ltb_spec j 10); [done|lia].
Qed.
Lemma PTE2PA_ro e : aligned (PTE2PA e) → PTE2PA (ro_pte e) = PTE2PA e.
Proof using. intros Ha. unfold ro_pte. rewrite PTE2PA_mk; [done|exact Ha|apply perm_flags]. Qed.

(** A page mapped read-only in one space is shareable. *)
Lemma ro_shareable s so sn B E v e :
  vm_inv _end s (sn :: B) E → so ∈ B → sp_L so !! v = Some e → v < UVPN → Z.testbit e 2 = false → shareable B E (PTE2PA e).
Proof using.
  intros Hi Hso Hv Hvu Hw. destruct (vi_leaf _ _ _ _ Hi so v e ltac:(by right) Hv) as (_ & L2 & _). destruct (L2 Hvu) as (_ & L5 & _).
  assert (PTE2PA e ∈ frames (sp_L so)) as Hf by (apply frames_elem; eauto).
  assert (PTE2PA e ∈ srefs so) as Hfs by (unfold srefs; apply elem_of_app; by right).
  assert (∀ h, 2 <= held (all_refs B) (PTE2PA e) → held (all_refs (sn :: B) ++ E) (PTE2PA e) = h → 2 <= h) as Hge.
  { intros h H2 <-. rewrite all_refs_cons, !held_app. pose proof (held_nonneg (srefs sn) (PTE2PA e)). pose proof (held_nonneg E (PTE2PA e)). lia. }
  split; [done|]. intros sp Hsp. split.
  - intros Ht. apply (Hge 1); [|by apply (vi_tabs _ _ _ _ Hi sp); [right|]|done].
    apply (held_two B sp so); [done..|unfold srefs; apply elem_of_app; by left|done|]. intros ->. unfold srefs. rewrite held_app.
    apply held_pos in Ht, Hf. lia.
  - intros w x Hx Hwu Heq. destruct (Z.testbit x 2) eqn:Hx2; [|done]. exfalso.
    destruct (vi_leaf _ _ _ _ Hi sp w x ltac:(by right) Hx) as (_ & M2 & _). destruct (M2 Hwu) as (_ & _ & M6). destruct (M6 Hx2) as [_ M8].
    rewrite <- Heq in M8. apply (Hge 1); [|done|done]. assert (PTE2PA e ∈ frames (sp_L sp)) as Hfx by (rewrite Heq; apply frames_elem; eauto).
    apply (held_two B sp so); [done..|unfold srefs; apply elem_of_app; by right|done|]. intros ->. unfold srefs. rewrite held_app.
    assert (w ≠ v) as Hne by (intros ->; congruence).
    rewrite (held_perm _ _ _ (frames_delete _ _ _ Hv Hvu)), held_cons, decide_True by done.
    assert (PTE2PA e ∈ frames (delete v (sp_L so))) as Hd by (rewrite Heq; by eapply frames_other). apply held_pos in Hd.
    pose proof (held_nonneg (tabs (sp_T so)) (PTE2PA e)). lia.
Qed.

(** The child's leaves once it maps a shared page. *)
Lemma shared_leaf_ok s sn B E T' v e w e' :
  vm_inv _end s (sn :: B) E → (∀ p, p ∈ tabs T' → p ∉ frames (sp_L sn)) → PTE2PA e ∈ others B E → aligned (PTE2PA e) → sp_L sn !! v = None →
  leaf_ok (all_refs (sn :: B) ++ E) E v e → v < UVPN → Z.testbit e 2 = false → <[v := ro_pte e]> (sp_L sn) !! w = Some e' →
  leaf_ok (tabs T' ++ frames (<[v := ro_pte e]> (sp_L sn)) ++ others B E) E w e'.
Proof using.
  intros Hi HT Hpo Ha Hv (L1 & L2 & L3) Hvu Hw He. pose proof (frames_insert _ _ (ro_pte e) Hv Hvu) as Hfr. rewrite PTE2PA_ro in Hfr by done.
  apply lookup_insert_Some in He as [[<- <-]|[Hne He]].
  - split; [done|]. split; [|lia]. intros _. rewrite PTE2PA_ro, !ro_pte_low, Hw by (done || lia). destruct (L2 Hvu) as (L4 & L5 & _). by rewrite L4.
  - destruct (vm_leaf_tabs _ s sn B E T' w e' Hi HT He) as (M1 & M2 & M3). split; [done|]. split; [|done]. intros Hwu. destruct (M2 Hwu) as (M4 & M5 & M6).
    split_and!; [done..|]. intros Hwr. destruct (M6 Hwr) as [M7 M8]. split; [done|].
    assert (PTE2PA e' ∈ frames (sp_L sn)) as Hf by (apply frames_elem; eauto).
    destruct (decide (PTE2PA e = PTE2PA e')) as [Heq|Hneq].
    { exfalso. rewrite <- Heq in *. apply held_pos in Hpo, Hf. rewrite !held_app in M8. pose proof (held_nonneg (tabs T') (PTE2PA e)). lia. }
    rewrite !held_app in M8. rewrite !held_app, (held_perm _ _ _ Hfr), held_cons, decide_False by done. lia.
Qed.

Lemma share_map s so sn B E v e :
  vm_inv _end s (sn :: B) E → so ∈ B → sp_L so !! v = Some e → 0 <= v < UVPN → Z.testbit e 2 = false → sp_L sn !! v = None →
  ∃ r s' T', mappages _end (sp_root sn) (v * PGSIZE) PGSIZE (PTE2PA e) (PTE_FLAGS e) s = Ret (r, s') ∧
    (length (tabs T') <= length (tabs (sp_T sn)) + 2)%nat ∧
    (r = 0 ∧ (∃ s2, page_share _end (PTE2PA e) s' = Ret ((), s2) ∧
       let L' := <[v := ro_pte e]> (sp_L sn) in
       vm_inv _end s2 (Space (sp_root sn) T' L' :: B) E ∧ (∀ a, outside _end B E a → phys s2 !! a = phys s !! a) ∧
       ∀ va, uload (phys s2) L' va = if decide (vpn va = v) then uload (phys s) (sp_L so) va else uload (phys s) (sp_L sn) va) ∨
     r = -1 ∧ tight _end (all_refs (sn :: B) ++ E) 2 ∧ vm_inv _end s' (Space (sp_root sn) T' (sp_L sn) :: B) E ∧ (∀ a, outside _end B E a → phys s' !! a = phys s !! a) ∧
       ∀ va, uload (phys s') (sp_L sn) va = uload (phys s) (sp_L sn) va).
Proof using Hend.
  intros Hi Hso Hv Hvu Hw Hn. pose proof (vm_open _ _ _ _ _ Hi) as Hok. set (pa := PTE2PA e).
  assert (UVPN < maxvpn ∧ UVPN * PGSIZE < MAXVA) as [Hmx Hmx'] by (vm_compute; auto).
  assert (vpn (v * PGSIZE + PGSIZE - 1) = v) as Hlast by (unfold vpn, PGSIZE; dlia).
  assert (pa ∈ frames (sp_L so)) as Hpf by (apply frames_elem; exists v, e; split_and!; [done|lia|done]).
  assert (pa ∈ srefs so) as Hps by (unfold srefs; apply elem_of_app; by right).
  pose proof (others_elem so B E pa Hso Hps) as Hpo. pose proof (vi_leaf _ _ _ _ Hi so v e ltac:(by right) Hv) as Hle.
  assert (page _end pa) as Hpg by (eapply vm_page, others_refs; [exact Hi|exact Hpo]). pose proof (page_aligned _end Hend pa Hpg) as Ha.
  destruct (mappages_spec _end Hend s _ _ _ _ (v * PGSIZE) PGSIZE pa (PTE_FLAGS e) Hok (perm_flags e)) as (r & s' & T' & k & E1 & Hok' & Hsub & Hu & Hsz & Hres).
  { unfold PGSIZE. lia. } { done. } { unfold PGSIZE in *. lia. } { done. } { destruct Hpg as [_ Hr]. unfold PHYSTOP, KERNBASE, PGSIZE in *. lia. }
  { rewrite vpn_mul, Hlast. intros w Hw'. by replace w with v by lia. }
  rewrite vpn_mul, Hlast in *. exists r, s', T'. split; [done|]. split; [lia|].
  assert (∀ p, p ∈ tabs T' → p ∉ frames (sp_L sn)) as HT.
  { intros p Hp Hf. apply (tk_disj _ _ _ _ _ _ Hok' p Hp). apply elem_of_app. by left. }
  assert (untouched (tabs T' ++ []) s s') as Hall by (by rewrite app_nil_r).
  assert (∀ p, p ∈ [] → page _end p ∧ (p ∉ others B E)) as Hd by (by intros p Hp%elem_of_nil).
  assert (Hsame : ∀ g a, g ∈ frames (sp_L sn) → in_page g a → phys s' !! a = phys s !! a).
  { intros g a Hg Hga. eapply frame_same; [exact Hi|exact Hok'|exact Hall|by intros p Hp%elem_of_nil|exact Hg|apply elem_of_app; by left|exact Hga]. }
  destruct Hres as [[-> Hk]|(-> & Hk & Ht)]; [left|right]; (split; [done|]).
  - replace k with 1%nat in Hok' by lia. cbn [map_range] in Hok'. fold (ro_pte e) in Hok'.
    assert (pa ∈ frames (sp_L sn) ++ others B E) as HpR by (apply elem_of_app; by right).
    destruct (share_page _end Hend s' _ _ _ _ pa Hok' HpR) as (s2 & E2 & Hok2 & Ep).
    { pose proof (held_few _end Hend s _ E pa Hi) as Hfew. rewrite refs_focus, !held_app in Hfew. rewrite !held_app.
      assert (pa ∉ tabs T') as HpT by (intros Hp; by apply (tk_disj _ _ _ _ _ _ Hok' pa Hp)). apply held_zero in HpT.
      pose proof (held_nonneg (tabs (sp_T sn)) pa). lia. }
    assert (Hsame_pa : ∀ a, in_page pa a → phys s2 !! a = phys s !! a).
    { intros a Hpa. rewrite Ep. eapply untouched_apart; [exact Hok'|exact Hpg| |exact Hu|exact Hpa]. intros Hp. by apply (tk_disj _ _ _ _ _ _ Hok' pa Hp). }
    exists s2. split; [done|]. pose proof (frames_insert _ _ (ro_pte e) Hn ltac:(lia)) as Hfr. rewrite PTE2PA_ro in Hfr by done. fold pa in Hfr.
    assert (untouched (tabs T' ++ []) s s2) as Hall2 by (intros a Hna; rewrite Ep; by apply Hall).
    destruct (vm_close _end s s2 sn B E T' (<[v := ro_pte e]> (sp_L sn)) [] Hi) as [Hi' Hout]; [|exact Hall2|exact Hd|..].
    + eapply tables_ok_perm; [|exact Hok2]. by rewrite Hfr.
    + intros f Hf. destruct (decide (f = pa)) as [->|Hfp]; [right; eapply ro_shareable; [exact Hi|done|exact Hv|lia|done]|left].
      rewrite (held_perm _ _ f Hfr), held_cons, decide_False by done. lia.
    + intros w e' Hw'. eapply (shared_leaf_ok s); [exact Hi|exact HT|exact Hpo|exact Ha|exact Hn|exact Hle|lia|exact Hw|exact Hw'].
    + intros g a b Hg Hga Hb. rewrite Hfr in Hg. apply elem_of_cons in Hg as [->|Hg].
      * rewrite (Hsame_pa a Hga) in Hb. eapply vi_bytes; [exact Hi|right; exact Hso|exact Hpf|exact Hga|exact Hb].
      * rewrite Ep, (Hsame g a Hg Hga) in Hb. eapply vi_bytes; [exact Hi|left|exact Hg|exact Hga|exact Hb].
    + cbv zeta. split; [done|]. split; [done|]. intros va. case_decide as Hvv.
      * unfold uload. rewrite Hvv, lookup_insert_eq, Hv, PTE2PA_ro, ro_pte_low by (done || lia). rewrite !orb_false_r. destruct (Z.testbit e 4); [|done].
        apply Hsame_pa. pose proof (mod_page va). unfold in_page. fold pa. lia.
      * rewrite <- (uload_same _end s (phys s2) sn B E va Hi) by (intros g a Hg Hga; rewrite Ep; by apply (Hsame g)). unfold uload. by rewrite lookup_insert_ne by done.
  - split; [eapply tight_le; [exact Ht|rewrite refs_focus, !length_app; lia]|].
    replace k with 0%nat in Hok' by lia. cbn [map_range] in Hok'.
    destruct (vm_close _end s s' sn B E T' (sp_L sn) [] Hi Hok' Hall Hd) as [Hi' Hout].
    + by left.
    + intros w e' Hw'. by eapply vm_leaf_tabs.
    + intros g a b Hg Hga Hb. rewrite (Hsame g a Hg Hga) in Hb. eapply vi_bytes; [exact Hi|left|exact Hg|exact Hga|exact Hb].
    + split; [done|]. split; [done|]. intros va. by eapply uload_same.
Qed.

(** ** The loop *)

(** One turn: the parent's page is marked and mapped in the child. *)
Lemma copy_turn fuel s so sn B E v e sz :
  vm_inv _end s (so :: sn :: B) E → sp_L so !! v = Some e → 0 <= v < UVPN → v * PGSIZE < sz → sp_L sn !! v = None →
  let L' := <[v := share_pte e]> (sp_L so) in let so' := Space (sp_root so) (sp_T so) L' in
  (∃ s1 T', tight _end (all_refs (so :: sn :: B) ++ E) 2 ∧ vm_inv _end s1 (so' :: Space (sp_root sn) T' (sp_L sn) :: B) E ∧ (∀ a, outside _end B E a → phys s1 !! a = phys s !! a) ∧
      (∀ va, uload (phys s1) L' va = uload (phys s) (sp_L so) va) ∧
      copy_loop _end (S fuel) (sp_root so) (sp_root sn) (v * PGSIZE) sz s = (uvmunmap _end (sp_root sn) 0 (v * PGSIZE / PGSIZE) true ;; mret (-1)) s1) ∨
  ∃ s1 T' L1, L1 = <[v := ro_pte (share_pte e)]> (sp_L sn) ∧ (length (tabs T') <= length (tabs (sp_T sn)) + 2)%nat ∧
      vm_inv _end s1 (so' :: Space (sp_root sn) T' L1 :: B) E ∧ (∀ a, outside _end B E a → phys s1 !! a = phys s !! a) ∧
      (∀ va, uload (phys s1) L' va = uload (phys s) (sp_L so) va) ∧
      (∀ va, uload (phys s1) L1 va = if decide (vpn va = v) then uload (phys s) (sp_L so) va else uload (phys s) (sp_L sn) va) ∧
      copy_loop _end (S fuel) (sp_root so) (sp_root sn) (v * PGSIZE) sz s = copy_loop _end fuel (sp_root so) (sp_root sn) ((v + 1) * PGSIZE) sz s1.
Proof using Hend.
  intros Hi Hv Hvu Hsz Hn L' so'. assert (UVPN < maxvpn) as Hmx by (vm_compute; auto). pose proof (vpn_range v ltac:(lia)) as Hva.
  destruct (mark_spec s so (sn :: B) E v e Hi Hv ltac:(lia)) as (s1 & E1 & E2 & Hi1 & Hout1 & Hl1). fold L' in Hi1, Hl1. fold so' in Hi1.
  assert (vm_inv _end s1 (sn :: so' :: B) E) as Hi1' by (eapply vm_inv_perm; [apply perm_swap|exact Hi1]).
  assert (∀ va, uload (phys s1) (sp_L sn) va = uload (phys s) (sp_L sn) va) as Hn1.
  { intros va. eapply (others_uload _end s s1 (so :: sn :: B) (sn :: B)); [exact Hi|right; left|left|done]. }
  assert (Z.testbit (share_pte e) 2 = false) as Hw by (by rewrite share_pte_testbit by lia).
  assert (sp_L so' !! v = Some (share_pte e)) as Hv' by apply lookup_insert_eq.
  assert (so' ∈ so' :: B) as Hso' by left.
  destruct (share_map s1 so' sn (so' :: B) E v (share_pte e) Hi1' Hso' Hv' Hvu Hw Hn) as (r & s2 & T' & E3 & Hsz2 & Hcase).
  destruct (walk_leaf _end Hend s (sp_root so) (sp_T so) (sp_L so) (v * PGSIZE) (vi_rep _ _ _ _ Hi so ltac:(left)) Hva) as [E4 Hleaf].
  rewrite vpn_mul, Hv in *. destruct Hleaf as (Hnz & E5 & Hv0). cbn [copy_loop].
  destruct (Z.ltb_spec (v * PGSIZE) sz); [|lia]. cbn [negb]. rewrite (bind_Ret _ _ _ _ _ E4). destruct (Z.eqb_spec (slot (sp_T so) v) 0); [done|].
  rewrite (bind_Ret _ _ _ _ _ E5). change (isset e PTE_V) with (isset e (2 ^ 0)). rewrite isset_bit, Hv0 by lia. cbn [negb].
  rewrite (bind_Ret _ _ _ _ _ E1), (bind_Ret _ _ _ _ _ E2), (bind_Ret _ _ _ _ _ E3).
  assert (∀ a, outside _end B E a → phys s1 !! a = phys s !! a) as Hout1' by (intros a Ha; by apply Hout1, outside_mono).
  destruct Hcase as [[-> (s3 & E6 & Hi3 & Hout3 & Hl3)]|(-> & Ht & Hi3 & Hout3 & Hl3)]; [right|left].
  - exists s3, T', (<[v := ro_pte (share_pte e)]> (sp_L sn)). split_and!; [done|done|eapply vm_inv_perm; [apply perm_swap|exact Hi3]|..].
    + intros a Ha. by rewrite Hout3, Hout1' by (done || by apply outside_mono).
    + intros va. rewrite <- Hl1. eapply (others_uload _end s1 s3 (sn :: so' :: B) (so' :: B) E so'); [exact Hi1'|right; left|left|done].
    + intros va. rewrite Hl3. cbn [sp_L so']. by rewrite Hl1, Hn1.
    + cbn [negb Z.eqb]. rewrite (bind_Ret _ _ _ _ _ E6).
      rewrite (wrap_small 64 (v * PGSIZE + PGSIZE)) by (unfold in_range, PGSIZE; change maxvpn with (2 ^ 26) in Hmx; lia).
      f_equal. unfold PGSIZE. lia.
  - exists s2, T'. split_and!; [|eapply vm_inv_perm; [apply perm_swap|exact Hi3]|..].
    + eapply tight_le; [exact Ht|]. rewrite !all_refs_cons, !length_app. unfold srefs. cbn [sp_T sp_L so']. rewrite !length_app.
      pose proof (Permutation_length (frames_share (sp_L so) v e Hv ltac:(lia))). subst L'. lia.
    + intros a Ha. by rewrite Hout3, Hout1' by (done || by apply outside_mono).
    + intros va. rewrite <- Hl1. eapply (others_uload _end s1 s2 (sn :: so' :: B) (so' :: B) E so'); [exact Hi1'|right; left|left|done].
    + done.
Qed.

Lemma copy_loop_spec sz n : pages sz <= UVPN → ∀ fuel s so sn B E v,
  vm_inv _end s (so :: sn :: B) E → 0 <= v → v + Z.of_nat n = pages sz → (n <= fuel)%nat →
  (∀ w, v <= w < pages sz → is_Some (sp_L so !! w)) → (∀ w, v <= w < pages sz → sp_L sn !! w = None) →
  (∀ w, 0 <= w < v → is_Some (sp_L sn !! w)) →
  ∃ r s' Lo Tn Ln k, copy_loop _end fuel (sp_root so) (sp_root sn) (v * PGSIZE) sz s = Ret (r, s') ∧
    vm_inv _end s' (Space (sp_root so) (sp_T so) Lo :: Space (sp_root sn) Tn Ln :: B) E ∧
    (∀ a, outside _end B E a → phys s' !! a = phys s !! a) ∧ (∀ va, uload (phys s') Lo va = uload (phys s) (sp_L so) va) ∧
    v <= k <= pages sz ∧ (∀ w, Lo !! w = if decide (v <= w < k) then share_pte <$> sp_L so !! w else sp_L so !! w) ∧
    (r = 0 ∧ k = pages sz ∧ (∀ w, Ln !! w = if decide (v <= w < pages sz) then ro_pte ∘ share_pte <$> sp_L so !! w else sp_L sn !! w) ∧
       (∀ va, uload (phys s') Ln va = if decide (v <= vpn va < pages sz) then uload (phys s) (sp_L so) va else uload (phys s) (sp_L sn) va) ∨
     r = -1 ∧ tight _end (all_refs (so :: sn :: B) ++ E) (3 * n) ∧ ∀ w, Ln !! w = if decide (0 <= w < pages sz) then None else sp_L sn !! w).
Proof using Hend.
  intros Hm. assert (∀ v, v * PGSIZE < sz ↔ v < pages sz) as Hlt by (intros v; unfold pages, PGSIZE; dlia).
  induction n as [|n IH]; intros fuel s so sn B E v Hi Hv Hn Hfuel Hsome Hnone Hmapped.
  { exists 0, s, (sp_L so), (sp_T sn), (sp_L sn), v. split_and!; try done; try lia; [|by destruct so, sn|intros w; by rewrite decide_False by lia|].
    - destruct fuel; cbn [copy_loop]; (destruct (Z.ltb_spec (v * PGSIZE) sz) as [Hc|_]; [apply Hlt in Hc; lia|done]).
    - left. split_and!; [done|lia|..]; intros; by rewrite decide_False by lia. }
  destruct fuel as [|fuel]; [lia|]. destruct (Hsome v ltac:(lia)) as [e He].
  destruct (copy_turn fuel s so sn B E v e sz Hi He ltac:(lia) ltac:(apply Hlt; lia) ltac:(apply Hnone; lia))
    as [(s1 & T' & Ht & Hi1 & Hout1 & Hl1 & ->)|(s1 & T' & L1 & HL1 & Hsz1 & Hi1 & Hout1 & Hl1 & Hc1 & ->)].
  - assert (v * PGSIZE / PGSIZE = v) as -> by (apply Z.div_mul; done).
    destruct (uvmunmap_spec _end Hend s1 (Space (sp_root sn) T' (sp_L sn)) (Space (sp_root so) (sp_T so) (<[v:=share_pte e]> (sp_L so)) :: B) E 0 v)
      as (s' & E2 & Hi' & Hout & Hl); [eapply vm_inv_perm; [apply perm_swap|exact Hi1]|lia..|intros w Hw; apply Hmapped; lia|].
    cbn [sp_root sp_T sp_L] in *. rewrite Z.mul_0_l in E2. rewrite (bind_Ret _ _ _ _ _ E2).
    eexists (-1), s', _, _, _, (v + 1). split_and!; [done|eapply vm_inv_perm; [apply perm_swap|exact Hi']|..]; [| |lia|lia| |right; split; [done|]; split; [eapply tight_le; [exact Ht|lia]|]].
    + intros a Ha. by rewrite Hout, Hout1 by (done || by apply outside_mono).
    + intros va. rewrite <- Hl1. refine (others_uload _end s1 s' _ _ E (Space (sp_root so) (sp_T so) (<[v:=share_pte e]> (sp_L so))) va Hi1 _ _ Hout); left.
    + intros w. destruct (decide (w = v)) as [->|Hne]; [by rewrite lookup_insert_eq, decide_True, He by lia|].
      rewrite lookup_insert_ne by done. by rewrite decide_False by lia.
    + intros w. rewrite lookup_unmap_range. repeat case_decide; try lia; try done. apply Hnone. lia.
  - subst L1. destruct (IH fuel s1 _ _ B E (v + 1) Hi1) as (r & s' & Lo & Tn & Ln & k & E2 & Hi' & Hout & Hlo & Hk & HLo & Hres); cbn [sp_root sp_T sp_L] in *; [lia..| | | |].
    { intros w Hw. rewrite lookup_insert_ne by lia. apply Hsome. lia. }
    { intros w Hw. rewrite lookup_insert_ne by lia. apply Hnone. lia. }
    { intros w Hw. rewrite lookup_insert_is_Some. destruct (decide (v = w)); [by left|right; split; [done|]; apply Hmapped; lia]. }
    exists r, s', Lo, Tn, Ln, k. split_and!; [done|done|intros a Ha; by rewrite Hout, Hout1|intros va; by rewrite Hlo, Hl1|lia|lia| |].
    + intros w. rewrite HLo. destruct (decide (w = v)) as [->|Hne]; [rewrite decide_False, decide_True, lookup_insert_eq, He by lia; done|].
      rewrite lookup_insert_ne by done. repeat case_decide; (lia || done).
    + destruct Hres as [(-> & -> & HLn & Hln)|(-> & Ht & HLn)]; [left|right]; (split; [done|]).
      * split_and!; [done|..].
        -- intros w. rewrite HLn. destruct (decide (w = v)) as [->|Hne]; [rewrite decide_False, decide_True, lookup_insert_eq, He by lia; done|].
           rewrite !lookup_insert_ne by done. repeat case_decide; (lia || done).
        -- intros va. rewrite Hln, Hl1, Hc1. repeat case_decide; (lia || done).
      * split.
        { eapply tight_le; [exact Ht|]. rewrite !all_refs_cons, !length_app. unfold srefs. cbn [sp_T sp_L]. rewrite !length_app.
          pose proof (Permutation_length (frames_share (sp_L so) v e He ltac:(lia))).
          pose proof (Permutation_length (frames_insert (sp_L sn) v (ro_pte (share_pte e)) (Hnone v ltac:(lia)) ltac:(lia))) as Hlf. cbn [length] in Hlf. lia. }
        intros w. rewrite HLn. case_decide; [done|]. by rewrite lookup_insert_ne by lia.
Qed.
End fork.
