(* ===== verification/VmFree.v ===== *)
(** * The kernel's own mappings, and the end of an address space

    Trampoline and trapframe are mapped above the user's pages and not counted
    ([kmap_spec], [kunmap_spec]). [freewalk] gives every table of a space back
    ([uvmfree_spec]); the kernel then holds what it held beside the space. *)
From S2P Require Import Prelude KString Kalloc Vm VmTable VmSpace VmCopy VmRead VmUser VmFork.

Section kernel.
Context (_end : Z) (Hend : KERNBASE <= _end <= PHYSTOP).
Implicit Types (s : kmem_t) (L : leaves) (B : list space).

(** ** Mappings of the kernel's *)

(** A step that changes tables and kernel mappings only. *)
Lemma tables_close s s' sp B E T' L' :
  vm_inv _end s (sp :: B) E → tables_ok _end s' (frames (sp_L sp) ++ others B E) (sp_root sp) T' L' → untouched (tabs T') s s' →
  (∀ v, v < UVPN → L' !! v = sp_L sp !! v) → (∀ v e, L' !! v = Some e → UVPN <= v → v < maxvpn ∧ Z.testbit e 4 = false) →
  vm_inv _end s' (Space (sp_root sp) T' L' :: B) E ∧ (∀ a, outside _end B E a → phys s' !! a = phys s !! a) ∧
  ∀ va, uload (phys s') L' va = uload (phys s) (sp_L sp) va.
Proof using.
  intros Hi Hok Hu Hlow Hhigh.
  assert (user_part L' = user_part (sp_L sp)) as Hpart.
  { apply map_eq. intros v. apply option_eq. intros e. unfold user_part. rewrite !map_lookup_filter_Some. split; intros [H1 H2]; (split; [|done]); by rewrite Hlow in * . }
  assert (frames L' = frames (sp_L sp)) as Hfr by (unfold frames; by rewrite Hpart).
  assert (untouched (tabs T' ++ []) s s') as Hall by (by rewrite app_nil_r).
  assert (Hsame : ∀ g a, g ∈ frames (sp_L sp) → in_page g a → phys s' !! a = phys s !! a).
  { intros g a Hg Ha. eapply frame_same; [exact Hi|exact Hok|exact Hall|by intros p Hp%elem_of_nil|exact Hg|apply elem_of_app; by left|exact Ha]. }
  assert (∀ p, p ∈ tabs T' → p ∉ frames (sp_L sp)) as HT.
  { intros p Hp Hf. apply (tk_disj _ _ _ _ _ _ Hok p Hp). apply elem_of_app. by left. }
  destruct (vm_close _end s s' sp B E T' L' [] Hi) as [Hi' Hout]; [by rewrite Hfr|exact Hall|by intros p Hp%elem_of_nil|intros f _; left; by rewrite Hfr| | |].
  - intros v e Hv. rewrite Hfr. destruct (Z_lt_le_dec v UVPN) as [Hvu|Hvu]; [rewrite Hlow in Hv by done; by eapply vm_leaf_tabs|].
    destruct (Hhigh v e Hv Hvu) as [Hm H4]. assert (0 <= UVPN) by (vm_compute; discriminate). split; [lia|]. split; [lia|done].
  - intros f a b Hf Ha Hb. rewrite Hfr in Hf. rewrite (Hsame f a Hf Ha) in Hb. eapply vi_bytes; [exact Hi|left|exact Hf|exact Ha|exact Hb].
  - split; [done|]. split; [done|]. intros va. destruct (Z_lt_le_dec (vpn va) UVPN) as [Hvu|Hvu].
    + rewrite <- (uload_same _end s (phys s') sp B E va Hi Hsame). unfold uload. by rewrite Hlow.
    + unfold uload. destruct (L' !! vpn va) as [e|] eqn:He.
      * destruct (Hhigh _ e He Hvu) as [_ ->]. destruct (sp_L sp !! vpn va) as [e'|] eqn:He'; [|done].
        destruct (vi_leaf _ _ _ _ Hi sp _ e' ltac:(left) He') as (_ & _ & L3). by rewrite L3.
      * destruct (sp_L sp !! vpn va) as [e'|] eqn:He'; [|done]. destruct (vi_leaf _ _ _ _ Hi sp _ e' ltac:(left) He') as (_ & _ & L3). by rewrite L3.
Qed.

Lemma high_leaf s sp B E v e : vm_inv _end s (sp :: B) E → sp_L sp !! v = Some e → UVPN <= v → v < maxvpn ∧ Z.testbit e 4 = false.
Proof using. intros Hi Hv Hvu. destruct (vi_leaf _ _ _ _ Hi sp v e ltac:(left) Hv) as (L1 & _ & L3). split; [lia|by apply L3]. Qed.

Lemma kmap_spec s sp B E v pa perm :
  vm_inv _end s (sp :: B) E → UVPN <= v < maxvpn → sp_L sp !! v = None → perm_ok perm → Z.testbit perm 4 = false →
  aligned pa → pa + 2 * PGSIZE <= 2 ^ 56 →
  ∃ r s' T' L', mappages _end (sp_root sp) (v * PGSIZE) PGSIZE pa perm s = Ret (r, s') ∧ (length (tabs T') <= length (tabs (sp_T sp)) + 2)%nat ∧
    vm_inv _end s' (Space (sp_root sp) T' L' :: B) E ∧ (∀ a, outside _end B E a → phys s' !! a = phys s !! a) ∧
    (∀ va, uload (phys s') L' va = uload (phys s) (sp_L sp) va) ∧
    (r = 0 ∧ L' = <[v := mk_pte pa perm]> (sp_L sp) ∨ r = -1 ∧ L' = sp_L sp ∧ tight _end (all_refs (sp :: B) ++ E) 2).
Proof using Hend.
  intros Hi Hv Hn Hperm H4 Ha Hpa. pose proof (vm_open _ _ _ _ _ Hi) as Hok.
  assert (maxvpn * PGSIZE = MAXVA ∧ 0 <= UVPN) as [Hmx Hu0] by (vm_compute; split; [done|discriminate]).
  assert (vpn (v * PGSIZE + PGSIZE - 1) = v) as Hlast by (unfold vpn, PGSIZE; dlia).
  destruct (mappages_spec _end Hend s _ _ _ _ (v * PGSIZE) PGSIZE pa perm Hok Hperm) as (r & s' & T' & k & E1 & Hok' & Hsub & Hu & Hsz & Hres).
  { unfold PGSIZE. lia. } { done. } { unfold PGSIZE in *. lia. } { done. } { unfold PGSIZE in *. lia. }
  { rewrite vpn_mul, Hlast. intros w Hw'. by replace w with v by lia. }
  rewrite vpn_mul, Hlast in *. exists r, s', T'. destruct Hres as [[-> Hk]|(-> & Hk & Ht)].
  - replace k with 1%nat in Hok' by lia. cbn [map_range] in Hok'. exists (<[v := mk_pte pa perm]> (sp_L sp)). split; [done|]. split; [lia|].
    destruct (tables_close s s' sp B E T' _ Hi Hok' Hu) as (Hi' & Hout & Hl).
    + intros w Hw. by rewrite lookup_insert_ne by lia.
    + intros w e [[<- <-]|[_ He]]%lookup_insert_Some Hw; [|by eapply high_leaf]. split; [lia|]. rewrite mk_pte_flag, H4 by (done || lia). done.
    + split_and!; try done. by left.
  - replace k with 0%nat in Hok' by lia. cbn [map_range] in Hok'. exists (sp_L sp). split; [done|]. split; [lia|].
    destruct (tables_close s s' sp B E T' _ Hi Hok' Hu) as (Hi' & Hout & Hl); [done|intros w e; by eapply high_leaf|]. split_and!; try done.
    right. split_and!; [done..|]. eapply tight_le; [exact Ht|]. rewrite refs_focus, !length_app. lia.
Qed.

Lemma kunmap_spec s sp B E v e :
  vm_inv _end s (sp :: B) E → UVPN <= v → sp_L sp !! v = Some e → Z.testbit e 1 = true →
  ∃ s', uvmunmap _end (sp_root sp) (v * PGSIZE) 1 false s = Ret ((), s') ∧
    vm_inv _end s' (Space (sp_root sp) (sp_T sp) (delete v (sp_L sp)) :: B) E ∧ (∀ a, outside _end B E a → phys s' !! a = phys s !! a) ∧
    ∀ va, uload (phys s') (delete v (sp_L sp)) va = uload (phys s) (sp_L sp) va.
Proof using Hend.
  intros Hi Hvu Hv H1. pose proof (vm_open _ _ _ _ _ Hi) as Hok. destruct (high_leaf _ _ _ _ _ _ Hi Hv Hvu) as [Hm _].
  assert (maxvpn = 2 ^ 26 ∧ 0 <= UVPN) as [Hmx Hu0] by (vm_compute; split; [done|discriminate]). pose proof (vpn_range v ltac:(lia)) as Hva.
  change MAXVA with (2 ^ 38) in Hva.
  unfold uvmunmap. assert (v * PGSIZE mod PGSIZE = 0) as -> by (apply Z.mod_mul; done). cbn [negb Z.eqb]. change (Z.to_nat 1) with 1%nat. cbn [unmap_loop].
  rewrite (wrap_small 64 (1 * PGSIZE)), (wrap_small 64 (v * PGSIZE + 1 * PGSIZE)) by (unfold in_range, PGSIZE in *; lia).
  destruct (Z.ltb_spec (v * PGSIZE) (v * PGSIZE + 1 * PGSIZE)); [|unfold PGSIZE in *; lia]. cbn [negb].
  destruct (walk_leaf _end Hend s (sp_root sp) (sp_T sp) (sp_L sp) (v * PGSIZE) (tk_rep _ _ _ _ _ _ Hok) Hva) as [E1 Hcase].
  rewrite (bind_Ret _ _ _ _ _ E1). rewrite vpn_mul in *. rewrite Hv in Hcase. destruct Hcase as (Hnz & E2 & Hv0).
  destruct (Z.eqb_spec (slot (sp_T sp) v) 0); [done|]. rewrite (bind_Ret _ _ _ _ _ E2).
  change (isset e PTE_V) with (isset e (2 ^ 0)). rewrite isset_bit, Hv0 by lia. cbn [negb].
  destruct (Z.eqb_spec (Z.land (PTE_FLAGS e) 0x3ff) PTE_V) as [E0|_]; [by apply leaf_flags in H1|].
  destruct (rep_leaf _ _ _ _ _ (tk_rep _ _ _ _ _ _ Hok) v e Hv) as (_ & _ & Htab).
  destruct (write_leaf _end Hend s _ _ _ _ v 0 Hok Htab ltac:(done) ltac:(by left)) as (s2 & E3 & Hok2 & Hu2).
  unfold set_leaf in Hok2. rewrite decide_True in Hok2 by done.
  rewrite (bind_Ret (mret ()) _ s () s) by done. rewrite (bind_Ret _ _ _ _ _ E3).
  rewrite (wrap_small 64 (v * PGSIZE + PGSIZE)) by (unfold in_range, PGSIZE in *; lia).
  destruct (Z.ltb_spec (v * PGSIZE + PGSIZE) (v * PGSIZE + 1 * PGSIZE)); [unfold PGSIZE in *; lia|]. cbn [negb].
  exists s2. split; [done|]. apply (tables_close s s2 sp B E (sp_T sp) _ Hi Hok2 Hu2).
  - intros w Hw. by rewrite lookup_delete_ne by lia.
  - intros w x [_ Hx]%lookup_delete_Some Hw. by eapply high_leaf.
Qed.

(** ** [freewalk]

    While the tables below an entry are given back, the entry still points to
    them: [ex] holds the positions whose entry may be stale. *)
Record wrep (m : mem) (T : tables) (ex : list (nat * Z)) : Prop := {
  wr_page : ∀ k p, T !! k = Some p → page _end p;
  wr_inj : ∀ k k' p, T !! k = Some p → T !! k' = Some p → k = k';
  wr_up : ∀ lv x p, T !! (lv, x) = Some p → lv = 2%nat ∧ x = 0 ∨ (lv < 2)%nat ∧ is_Some (T !! (S lv, x / 512));
  wr_leaf : ∀ x p i, T !! (0%nat, x) = Some p → 0 <= i < 512 → word_at m (p + 8 * i) 0;
  wr_entry : ∀ lv x p i, T !! (S lv, x) = Some p → 0 <= i < 512 → (lv, x * 512 + i) ∉ ex →
    word_at m (p + 8 * i) (entry T ∅ (S lv) (x * 512 + i));
}.
Record wok (s : kmem_t) (R : list Z) (T : tables) (ex : list (nat * Z)) : Prop := {
  wk_inv : ∃ l, client_inv _end s (tabs T ++ R) l;
  wk_rep : wrep (phys s) T ex;
  wk_disj : ∀ p, p ∈ tabs T → p ∉ R;
}.

(** The positions below [(lv, x)], itself included. *)
Definition under (lv : nat) (x : Z) (k : nat * Z) : Prop := (k.1 <= lv)%nat ∧ k.2 / 512 ^ Z.of_nat (lv - k.1) = x.
#[local] Instance under_dec lv x k : Decision (under lv x k).
Proof using. unfold under. apply _. Defined.

Lemma under_child l x k : under (S l) x k ↔ k = (S l, x) ∨ ∃ i, 0 <= i < 512 ∧ under l (x * 512 + i) k.
Proof using.
  destruct k as [k y]. unfold under. cbn [fst snd]. split.
  - intros [Hk Hy]. destruct (decide (k = S l)) as [->|Hne].
    + left. rewrite Nat.sub_diag, Z.div_1_r in Hy. by subst.
    + right. replace (Z.of_nat (S l - k)) with (Z.of_nat (l - k) + 1) in Hy by lia. rewrite Z.pow_add_r, Z.pow_1_r, <- Z.div_div in Hy by lia.
      exists ((y / 512 ^ Z.of_nat (l - k)) mod 512). split; [apply Z.mod_pos_bound; lia|]. split; [lia|]. rewrite <- Hy. dlia.
  - intros [[= -> ->]|(i & Hi & Hk & Hy)]; [rewrite Nat.sub_diag, Z.div_1_r; lia|]. split; [lia|].
    replace (Z.of_nat (S l - k)) with (Z.of_nat (l - k) + 1) by lia. rewrite Z.pow_add_r, Z.pow_1_r, <- Z.div_div by lia. rewrite Hy. dlia.
Qed.

(** Below an absent table there is none. *)
Lemma absent_under m T ex lv : ∀ x k, wrep m T ex → (lv < 2)%nat → T !! (lv, x) = None → under lv x k → T !! k = None.
Proof using.
  induction lv as [|lv IH]; intros x [k y] Hr Hlv Hn Hu.
  - destruct Hu as [Hk Hy]. cbn [fst snd] in *. assert (k = 0%nat) as -> by lia. rewrite Z.div_1_r in Hy. by subst.
  - apply under_child in Hu as [->|(i & Hi & Hu)]; [done|]. apply (IH (x * 512 + i)); [done|lia| |done].
    destruct (T !! (lv, x * 512 + i)) as [q|] eqn:Hq; [|done]. destruct (wr_up _ _ _ Hr _ _ _ Hq) as [[-> _]|[_ [r Hr']]]; [lia|].
    replace ((x * 512 + i) / 512) with x in Hr' by dlia. congruence.
Qed.

(** The entry of a table. *)
Lemma wentry_read s R T ex lv x p i :
  wok s R T ex → T !! (S lv, x) = Some p → 0 <= i < 512 → (lv, x * 512 + i) ∉ ex →
  pte_read (p + 8 * i) s = Ret (match T !! (lv, x * 512 + i) with Some q => ptr_pte q | None => 0 end, s).
Proof using. intros [_ Hr _] Hp Hi He. apply pte_read_run. exact (wr_entry _ _ _ Hr lv x p i Hp Hi He). Qed.

Lemma wpages_apart m T ex k k' p p' : wrep m T ex → T !! k = Some p → T !! k' = Some p' → k ≠ k' → p + PGSIZE <= p' ∨ p' + PGSIZE <= p.
Proof using.
  intros Hr Hk Hk' Hne. destruct (page_disjoint _end p p') as [?|?]; [by eapply wr_page..| |by left|by right].
  intros ->. apply Hne. by eapply wr_inj.
Qed.

(** Clearing the stale entry. *)
Lemma wclear s R T ex lv x p i :
  wok s R T ((lv, x * 512 + i) :: ex) → T !! (S lv, x) = Some p → 0 <= i < 512 → T !! (lv, x * 512 + i) = None →
  ∃ s', pte_write (p + 8 * i) 0 s = Ret ((), s') ∧ wok s' R T ex ∧ untouched (tabs T) s s'.
Proof using Hend.
  intros [[l Hc] Hr Hd] Hp Hi Hn. assert (p ∈ tabs T) as HpT by (apply tabs_elem; eauto). pose proof (wr_page _ _ _ Hr _ _ Hp) as Hpg.
  assert (mapped (phys s) (p + 8 * i) 8) as Hm.
  { intros k Hk. destruct (inv_mapped _ _ _ (ci_inv _ _ _ _ Hc) p Hpg (Z.to_nat (8 * i) + k)%nat) as [b Hb]; [unfold PGSIZE; lia|]. exists b. rewrite <- Hb. f_equal. lia. }
  destruct (pte_write_run s (p + 8 * i) 0 Hm) as (m' & E1 & W). exists (set_phys (λ _, m') s). split; [done|].
  assert (length (le_bytes 8 0) = 8%nat) as Hlen by done. split; [constructor|].
  - exists l. eapply (client_inv_phys _end Hend _ _ _ p); [exact Hc| | | |exact W]; [apply held_pos, elem_of_app; by left|lia|unfold PGSIZE; lia].
  - constructor; try apply Hr.
    + intros y q j Hq Hj. eapply word_at_written; [|exact W|by eapply wr_leaf].
      destruct (wpages_apart _ _ _ _ _ _ _ Hr Hp Hq) as [?|?]; [done|unfold PGSIZE in *; lia..].
    + intros lv' y q j Hq Hj He. destruct (decide ((lv', y * 512 + j) = (lv, x * 512 + i))) as [Heq|Hne].
      * injection Heq as -> Heq. assert (y = x ∧ j = i) as [-> ->] by lia. rewrite Hp in Hq. injection Hq as <-. cbn [entry]. rewrite Hn.
        split; [done|]. by eapply written_bytes_at.
      * eapply word_at_written; [|exact W|apply (wr_entry _ _ _ Hr); [done|done|by apply not_elem_of_cons]]. rewrite Hlen.
        destruct (decide ((lv', y) = (lv, x))) as [[= -> ->]|Hne2].
        -- rewrite Hp in Hq. injection Hq as <-. assert (i ≠ j) by (intros ->; by apply Hne). lia.
        -- destruct (wpages_apart _ _ _ _ _ _ _ Hr Hp Hq) as [?|?]; [congruence|unfold PGSIZE in *; lia..].
  - done.
  - eapply untouched_written; [exact HpT| | |exact W]; [lia|rewrite Hlen; unfold PGSIZE; lia].
Qed.

(** Giving a table back whose own tables are gone. *)
Lemma wdrop s R T ex lv x p :
  wok s R T ex → T !! (lv, x) = Some p → (∀ k, under lv x k → k ≠ (lv, x) → T !! k = None) →
  ∃ s', kfree _end p s = Ret ((), s') ∧ wok s' R (delete (lv, x) T) ((lv, x) :: ex) ∧ untouched (tabs T) s s'.
Proof using Hend.
  intros [[l Hc] Hr Hd] Hp Hnone. assert (p ∈ tabs T) as HpT by (apply tabs_elem; eauto). pose proof (wr_page _ _ _ Hr _ _ Hp) as Hpg.
  assert (tabs T ≡ₚ p :: tabs (delete (lv, x) T)) as Hperm.
  { rewrite <- (insert_delete_id T (lv, x) p) at 1 by done. apply tabs_insert, lookup_delete_eq. }
  assert (p ∉ tabs (delete (lv, x) T)) as Hpn.
  { intros [k [Hne Hk]%lookup_delete_Some]%tabs_elem. apply Hne. by eapply wr_inj. }
  assert (held (tabs T ++ R) p = 1) as Hheld.
  { rewrite held_app, (held_perm _ _ p Hperm), held_cons, decide_True by done. apply held_zero in Hpn as ->. specialize (Hd p HpT). apply held_zero in Hd as ->. done. }
  assert (p ∉ l) as Hnl by (rewrite (ci_part _ _ _ _ Hc) by done; lia). pose proof (ci_refs _ _ _ _ Hc p ltac:(lia)) as Href.
  destruct (kfree_spec _end Hend s l p (ci_inv _ _ _ _ Hc) Hpg Hnl) as (s' & E1 & _ & _ & Hs'); [lia|]. rewrite Href, Hheld, decide_False in Hs' by lia. destruct Hs' as [_ W].
  destruct (client_inv_free _end Hend s (tabs T ++ R) l s' p (tabs (delete (lv, x) T) ++ R) Hc) as [l' Hc']; [by rewrite Hperm|lia|done|].
  assert (∀ a, ¬ in_page p a → phys s' !! a = phys s !! a) as Hsame.
  { intros a Ha. rewrite W, decide_False; [done|]. rewrite length_app, length_le_bytes, length_replicate. unfold in_page, PGSIZE in *. lia. }
  assert (∀ k q i v, delete (lv, x) T !! k = Some q → 0 <= i < 512 → word_at (phys s) (q + 8 * i) v → word_at (phys s') (q + 8 * i) v) as Hword.
  { intros k q i v [Hne Hq]%lookup_delete_Some Hi [Hrg Hb]. split; [done|]. intros j b Hj. rewrite Hsame; [by apply Hb|]. apply lookup_lt_Some in Hj. rewrite length_le_bytes in Hj.
    unfold in_page. destruct (wpages_apart _ _ _ _ _ _ _ Hr Hp Hq) as [?|?]; [done|unfold PGSIZE in *; lia..]. }
  exists s'. split; [done|]. split; [constructor; [by exists l'| |]|].
  - constructor.
    + intros k q [_ Hq]%lookup_delete_Some. by eapply wr_page.
    + intros k k' q [_ Hq]%lookup_delete_Some [_ Hq']%lookup_delete_Some. by eapply wr_inj.
    + intros lv' y q [Hne Hq]%lookup_delete_Some. destruct (wr_up _ _ _ Hr _ _ _ Hq) as [?|[Hl [r Hr']]]; [by left|right]. split; [done|].
      destruct (decide ((lv, x) = (S lv', y / 512))) as [[= -> ->]|Hne2]; [|rewrite lookup_delete_ne by done; eauto].
      rewrite Hnone in Hq; [done| |by intros [=]; lia]. apply under_child. right. exists (y mod 512). split; [apply Z.mod_pos_bound; lia|].
      split; cbn; [lia|]. rewrite Nat.sub_diag, Z.div_1_r. dlia.
    + intros y q i Hq Hi. eapply Hword; [exact Hq|done|]. apply lookup_delete_Some in Hq as [_ Hq]. by eapply wr_leaf.
    + intros lv' y q i Hq Hi [Hne He]%not_elem_of_cons. eapply Hword; [exact Hq|done|]. apply lookup_delete_Some in Hq as [_ Hq].
      pose proof (wr_entry _ _ _ Hr _ _ _ _ Hq Hi He) as Hw. cbn [entry] in *. rewrite lookup_delete_ne by congruence. done.
  - intros q [k [_ Hk]%lookup_delete_Some]%tabs_elem. apply Hd, tabs_elem. eauto.
  - intros a Ha. apply Hsame. by apply Ha.
Qed.

(** [T'] is [T] without the positions [P]. *)
Definition pruned (P : nat * Z → Prop) (T T' : tables) : Prop :=
  T' ⊆ T ∧ ∀ k, (P k → T' !! k = None) ∧ (¬ P k → T' !! k = T !! k).

Lemma sub_none (T T' : tables) k : T' ⊆ T → T !! k = None → T' !! k = None.
Proof using. intros Hs Hn. destruct (T' !! k) as [q|] eqn:Hq; [|done]. by rewrite (lookup_weaken _ _ _ _ Hq Hs) in Hn. Qed.

(** A loop over the entries of a table, from a step that prunes one. *)
Lemma prune_row l x p R (F : nat → M kmem_t ()) :
  (∀ s T i, wok s R T [] → T !! (S l, x) = Some p → 0 <= Z.of_nat i < 512 →
     ∃ s' T', F i s = Ret ((), s') ∧ wok s' R T' [] ∧ pruned (under l (x * 512 + Z.of_nat i)) T T' ∧ untouched (tabs T) s s') →
  ∀ n j s T, wok s R T [] → T !! (S l, x) = Some p → (j + n <= 512)%nat →
  ∃ s' T', mapM_ F (seq j n) s = Ret ((), s') ∧ wok s' R T' [] ∧
    pruned (λ k, ∃ i, Z.of_nat j <= i < Z.of_nat (j + n) ∧ under l (x * 512 + i) k) T T' ∧ untouched (tabs T) s s'.
Proof using.
  intros HF. induction n as [|n IH]; intros j s T Hk Hp Hn; cbn [seq mapM_ foldr].
  { exists s, T. split; [done|]. split; [done|]. split; [|apply untouched_refl]. split; [done|]. intros k. split; [|done]. intros (i & Hi & _). lia. }
  destruct (HF s T j Hk Hp ltac:(lia)) as (s1 & T1 & E1 & Hk1 & [Hs1 Hp1] & Hu1).
  assert (T1 !! (S l, x) = Some p) as Hpl.
  { destruct (Hp1 (S l, x)) as [_ ->]; [done|]. unfold under. cbn. lia. }
  destruct (IH (S j) s1 T1 Hk1 Hpl ltac:(lia)) as (s2 & T2 & E2 & Hk2 & [Hs2 Hp2] & Hu2).
  exists s2, T2. split; [by rewrite (bind_Ret _ _ _ _ _ E1)|]. split; [done|]. split; [split; [by etrans|]|].
  - intros k. destruct (Hp1 k) as [A1 A2], (Hp2 k) as [B1 B2]. split.
    + intros (i & Hi & Hu). destruct (decide (i = Z.of_nat j)) as [->|Hne]; [eapply sub_none; [exact Hs2|by apply A1]|].
      apply B1. exists i. split; [lia|done].
    + intros Hu. rewrite B2 by (intros (i & Hi & Hi'); apply Hu; exists i; split; [lia|done]).
      apply A2. intros Hj. apply Hu. exists (Z.of_nat j). split; [lia|done].
  - eapply untouched_trans; [exact Hu1|]. eapply untouched_sub; [by apply tabs_mono|exact Hu2].
Qed.

Lemma ptr_pte_rwx q : isset (ptr_pte q) (Z.lor (Z.lor PTE_R PTE_W) PTE_X) = false.
Proof using. rewrite rwx_bits, !ptr_pte_testbit, !PA2PTE_testbit by lia. done. Qed.

(** [freewalk] gives back the table at a position and those below it. *)
Lemma freewalk_sub lv : ∀ x p s T R, (lv <= 2)%nat →
  wok s R T [] → T !! (lv, x) = Some p →
  ∃ s' T', freewalk _end (S lv) p s = Ret ((), s') ∧ wok s' R T' [(lv, x)] ∧ pruned (under lv x) T T' ∧ untouched (tabs T) s s'.
Proof using Hend.
  induction lv as [|lv IH]; intros x p s T R Hlv Hk Hp; cbn [freewalk].
  - assert (∀ n j, (j + n <= 512)%nat → mapM_ (λ i : nat, let e := p + 8 * Z.of_nat i in pte ← pte_read e;
      if isset pte PTE_V && negb (isset pte (Z.lor (Z.lor PTE_R PTE_W) PTE_X)) then (out_of_fuel : M kmem_t ()) ;; pte_write e 0 else mret ()) (seq j n) s = Ret ((), s)) as Hrow.
    { induction n as [|n IHn]; intros j Hj; cbn [seq mapM_ foldr]; [done|]. rewrite (bind_Ret _ _ s () s); [apply IHn; lia|]. cbn zeta.
      rewrite (bind_Ret _ _ s 0 s); [done|]. apply pte_read_run. eapply wr_leaf; [apply Hk|exact Hp|lia]. }
    rewrite (bind_Ret _ _ _ _ _ (Hrow 512%nat 0%nat ltac:(lia))).
    destruct (wdrop s R T [] 0 x p Hk Hp) as (s' & E1 & Hk' & Hu); [|].
    { intros [k y] [Hu1 Hu2] Hne. cbn in *. assert (k = 0%nat) as -> by lia. rewrite Z.div_1_r in Hu2. by subst. }
    exists s', (delete (0%nat, x) T). split; [done|]. split; [done|]. split; [|done]. split; [apply delete_subseteq|].
    intros [k y]. split.
    + intros [Hu1 Hu2]. cbn in *. assert (k = 0%nat) as -> by lia. rewrite Z.div_1_r in Hu2. subst. apply lookup_delete_eq.
    + intros Hu'. apply lookup_delete_ne. intros [= <- <-]. apply Hu'. split; cbn; [lia|]. apply Z.div_1_r.
  - destruct (prune_row lv x p R (λ i : nat, let e := p + 8 * Z.of_nat i in pte ← pte_read e;
      if isset pte PTE_V && negb (isset pte (Z.lor (Z.lor PTE_R PTE_W) PTE_X)) then freewalk _end (S lv) (PTE2PA pte) ;; pte_write e 0 else mret ()))
      with (n := 512%nat) (j := 0%nat) (s := s) (T := T) as (s1 & T1 & E1 & Hk1 & [Hs1 Hp1] & Hu1); [|done|done|lia|].
    + clear s T Hk Hp. intros s T i Hk Hp Hi. cbn zeta.
      rewrite (bind_Ret _ _ _ _ _ (wentry_read s R T [] lv x p (Z.of_nat i) Hk Hp Hi ltac:(apply not_elem_of_nil))).
      destruct (T !! (lv, x * 512 + Z.of_nat i)) as [q|] eqn:Hq.
      * assert (page _end q) as Hpg by (eapply wr_page; [apply Hk|exact Hq]). pose proof (page_aligned _end Hend q Hpg) as Ha.
        rewrite ptr_pte_valid, ptr_pte_rwx, PTE2PA_ptr by done. cbn [andb negb].
        destruct (IH _ q s T R ltac:(lia) Hk Hq) as (s1 & T1 & E1 & Hk1 & [Hs1 Hp1] & Hu1). rewrite (bind_Ret _ _ _ _ _ E1).
        destruct (wclear s1 R T1 [] lv x p (Z.of_nat i) Hk1) as (s2 & E2 & Hk2 & Hu2); [|done| |].
        { destruct (Hp1 (S lv, x)) as [_ ->]; [done|]. unfold under. cbn. lia. }
        { apply Hp1. split; cbn; [lia|]. by rewrite Nat.sub_diag, Z.div_1_r. }
        exists s2, T1. split; [done|]. split; [done|]. split; [done|].
        eapply untouched_trans; [exact Hu1|]. eapply untouched_sub; [by apply tabs_mono|exact Hu2].
      * exists s, T. split; [done|]. split; [done|]. split; [|apply untouched_refl]. split; [done|]. intros k. split; [|done].
        intros Hu. eapply absent_under; [apply Hk| |exact Hq|exact Hu]. lia.
    + rewrite (bind_Ret _ _ _ _ _ E1).
      assert (T1 !! (S lv, x) = Some p) as Hp'.
      { destruct (Hp1 (S lv, x)) as [_ ->]; [done|]. intros (i & _ & Hu & _). cbn in Hu. lia. }
      destruct (wdrop s1 R T1 [] (S lv) x p Hk1 Hp') as (s2 & E2 & Hk2 & Hu2); [|].
      { intros k [->|(i & Hi & Hu)]%under_child Hne; [done|]. apply Hp1. exists i. split; [lia|done]. }
      exists s2, (delete (S lv, x) T1). split; [done|]. split; [done|]. split; [split|].
      * etrans; [apply delete_subseteq|done].
      * intros k. split.
        -- intros [->|(i & Hi & Hu)]%under_child; [apply lookup_delete_eq|]. eapply sub_none; [apply delete_subseteq|]. apply Hp1. exists i. split; [lia|done].
        -- intros Hu. rewrite lookup_delete_ne by (intros <-; apply Hu, under_child; by left). apply Hp1.
           intros (i & Hi & Hi'). apply Hu, under_child. right. exists i. split; [lia|done].
      * eapply untouched_trans; [exact Hu1|]. eapply untouched_sub; [by apply tabs_mono|exact Hu2].
Qed.

(** ** [uvmfree] *)

(** A space without pages whose tables were given back. *)
Lemma drop_space s s' sp B E l :
  vm_inv _end s (sp :: B) E → frames (sp_L sp) = [] → client_inv _end s' (others B E) l →
  (∀ a, outside _end B E a → phys s' !! a = phys s !! a) → vm_inv _end s' B E.
Proof using.
  intros Hi Hf Hc Hout. pose proof (vm_open _ _ _ _ _ Hi) as Hok. rewrite Hf in Hok. pose proof Hi as [_ Hr Ht Hl Hb Hs].
  assert (∀ f, f ∈ others B E → held (all_refs (sp :: B) ++ E) f = held (all_refs B ++ E) f) as Hheld.
  { intros f Ho. rewrite refs_focus, Hf, held_app. assert (f ∉ tabs (sp_T sp)) as ->%held_zero; [|done].
    intros Hft. by apply (tk_disj _ _ _ _ _ _ Hok f Hft). }
  assert (∀ sp' f, sp' ∈ B → f ∈ srefs sp' → f ∈ others B E) as Hin by (intros; by eapply others_elem).
  assert (∀ f a, f ∈ others B E → in_page f a → phys s' !! a = phys s !! a) as Hsame.
  { intros f a Ho Ha. eapply Hout, outside_page; [exact Hi|by apply others_refs|exact Ho|exact Ha]. }
  assert (∀ sp', sp' ∈ B → sp' ∈ sp :: B) as Hcons by (intros; by right).
  constructor; [by exists l| | | | |done].
  - intros sp' Hsp. eapply rep_frame; [|by apply Hr, Hcons]. intros p a Hp Ha. eapply Hsame; [|exact Ha].
    apply (Hin sp'); [done|]. unfold srefs. apply elem_of_app. by left.
  - intros sp' p Hsp Hp. rewrite <- Hheld; [by apply (Ht sp'); [apply Hcons|]|]. apply (Hin sp'); [done|]. unfold srefs. apply elem_of_app. by left.
  - intros sp' v e Hsp Hv. destruct (Hl sp' v e (Hcons _ Hsp) Hv) as (L1 & L2 & L3). split; [done|]. split; [|done]. intros Hvu.
    destruct (L2 Hvu) as (L4 & L5 & L6). split_and!; [done..|]. intros Hw. rewrite <- Hheld; [by apply L6|].
    apply (Hin sp'); [done|]. unfold srefs. apply elem_of_app. right. apply frames_elem. eauto.
  - intros sp' f a b Hsp Hff Ha Hx. rewrite (Hsame f a) in Hx; [by eapply Hb; [apply Hcons| | |]| |done].
    apply (Hin sp'); [done|]. unfold srefs. apply elem_of_app. by right.
Qed.

Lemma freewalk_spec s sp B E :
  vm_inv _end s (sp :: B) E → sp_L sp = ∅ →
  ∃ s', freewalk _end 3 (sp_root sp) s = Ret ((), s') ∧ vm_inv _end s' B E ∧ ∀ a, outside _end B E a → phys s' !! a = phys s !! a.
Proof using Hend.
  intros Hi HL. pose proof (vm_open _ _ _ _ _ Hi) as Hok.
  assert (frames (sp_L sp) = []) as Hf by (rewrite HL; unfold frames, user_part; by rewrite map_filter_empty, map_to_list_empty).
  rewrite Hf, HL in Hok. cbn [app] in Hok. destruct Hok as [Hc Hr Hd].
  assert (wok s (others B E) (sp_T sp) []) as Hk.
  { constructor; [done| |done]. constructor; try apply Hr.
    intros lv x p i Hp Hix _. apply (rep_entry _ _ _ _ _ Hr _ _ _ _ Hp Hix). }
  destruct (freewalk_sub 2 0 (sp_root sp) s (sp_T sp) (others B E) ltac:(lia) Hk (rep_root _ _ _ _ _ Hr)) as (s' & T' & E1 & Hk' & [Hs Hp] & Hu).
  assert (∀ a, outside _end B E a → phys s' !! a = phys s !! a) as Hout.
  { intros a Ha. apply Hu. intros p Hp' Hpa. pose proof Hp' as [k Hk2]%tabs_elem. apply (Hd p Hp'), Ha; [|done]. eapply rep_page; [exact Hr|exact Hk2]. }
  exists s'. split; [done|]. split; [|done]. destruct (wk_inv _ _ _ _ Hk') as [l Hc']. eapply drop_space; [exact Hi|exact Hf| |exact Hout].
  assert (T' = ∅) as ->; [|exact Hc'].
  apply map_eq. intros k. rewrite lookup_empty. destruct (T' !! k) as [q|] eqn:Hq; [|done]. pose proof (lookup_weaken _ _ _ _ Hq Hs) as Hq0.
  assert (under 2 0 k) as Hund; [|by rewrite (proj1 (Hp k) Hund) in Hq].
  destruct k as [lv x]. assert (∀ n lv x q, (lv + n = 2)%nat → sp_T sp !! (lv, x) = Some q → under 2 0 (lv, x)) as Hall.
  { clear -Hr. induction n as [|n IH]; intros lv x q Hn Hq.
    - destruct (rep_up _ _ _ _ _ Hr _ _ _ Hq) as [[-> ->]|[? _]]; [by split|lia].
    - destruct (rep_up _ _ _ _ _ Hr _ _ _ Hq) as [[-> ->]|[Hlt [r Hr']]]; [by split|].
      destruct (IH (S lv) _ _ ltac:(lia) Hr') as [_ Hx]. split; cbn in *; [lia|]. replace (Z.of_nat (2 - lv)) with (1 + Z.of_nat (2 - S lv)) by lia.
      rewrite Z.pow_add_r, <- Z.div_div by lia. exact Hx. }
  assert (lv <= 2)%nat as Hlv by (destruct (rep_up _ _ _ _ _ Hr _ _ _ Hq0) as [[-> _]|[? _]]; lia).
  eapply (Hall (2 - lv)%nat); [lia|exact Hq0].
Qed.

Lemma uvmfree_spec s sp B E sz :
  vm_inv _end s (sp :: B) E → 0 <= sz <= TRAPFRAME → (∀ v, is_Some (sp_L sp !! v) ↔ 0 <= v < pages sz) →
  ∃ s', uvmfree _end (sp_root sp) sz s = Ret ((), s') ∧ vm_inv _end s' B E ∧ ∀ a, outside _end B E a → phys s' !! a = phys s !! a.
Proof using Hend.
  intros Hi Hsz HL. assert (TRAPFRAME < MAXVA ∧ TRAPFRAME = UVPN * PGSIZE) as [Ht Hu] by (vm_compute; auto).
  assert (0 <= pages sz <= UVPN) as Hp by (unfold pages, PGSIZE in *; dlia). unfold uvmfree.
  destruct (Z.ltb_spec 0 sz) as [Hpos|Hz].
  - rewrite PGROUNDUP_pages, Z.div_mul by lia.
    destruct (uvmunmap_spec _end Hend s sp B E 0 (pages sz) Hi) as (s1 & E1 & Hi1 & Hout1 & _); [lia..|intros w Hw; apply HL; lia|].
    rewrite (bind_Ret _ _ _ _ _ E1).
    destruct (freewalk_spec s1 _ B E Hi1) as (s2 & E2 & Hi2 & Hout2); cbn [sp_L sp_root] in *.
    + apply map_eq. intros v. rewrite lookup_unmap_range, lookup_empty. case_decide as Hd; [done|].
      destruct (sp_L sp !! v) as [e|] eqn:He; [|done]. assert (0 <= v < pages sz) by (apply HL; eauto). lia.
    + exists s2. split; [done|]. split; [done|]. intros a Ha. by rewrite Hout2, Hout1.
  - rewrite (bind_Ret (mret ()) _ s () s) by done. apply freewalk_spec; [done|]. assert (sz = 0) as -> by lia. apply map_eq. intros v. rewrite lookup_empty.
    destruct (sp_L sp !! v) as [e|] eqn:He; [|done]. assert (0 <= v < pages 0) by (apply HL; eauto). change (pages 0) with 0 in *. lia.
Qed.
End kernel.
