(* ===== verification/VmSafe.v ===== *)
(** * The address spaces of a running kernel

    How spaces and kernel pages come to be ([uvmcreate], [kalloc]), and the
    states a kernel reaches by any sequence of the operations of [vm.c] on its
    processes. [vm_reach] keeps [vm_inv]: whatever the processes do, each page is
    counted, no table is shared, and what one may write nobody else maps. *)
From S2P Require Import Prelude KString Kalloc Vm VmTable VmSpace VmCopy VmRead VmUser VmFork.

Section safe.
Context (_end : Z) (Hend : KERNBASE <= _end <= PHYSTOP).
Implicit Types (s : kmem_t) (L : leaves) (A B : list space) (E : list Z).

(** ** The kernel's own pages *)

(** The kernel takes or returns pages of its own. *)
Lemma kernel_step s s' A E E' l :
  vm_inv _end s A E → client_inv _end s' (all_refs A ++ E') l → (∀ p, p ∈ all_refs A → p ∉ E') →
  (∀ p a, p ∈ all_refs A → in_page p a → phys s' !! a = phys s !! a) → Z.of_nat (length E') <= 2 ^ 30 →
  vm_inv _end s' A E' ∧ ∀ sp va, sp ∈ A → uload (phys s') (sp_L sp) va = uload (phys s) (sp_L sp) va.
Proof using.
  intros Hi Hc Hdisj Hsame Hsmall. pose proof Hi as [_ Hr Ht Hl Hb _].
  assert (∀ sp f, sp ∈ A → f ∈ srefs sp → f ∈ all_refs A) as Hin.
  { intros sp f Hsp Hf. apply list_elem_of_join. exists (srefs sp). split; [done|by apply list_elem_of_fmap_2]. }
  assert (∀ sp f, sp ∈ A → f ∈ srefs sp → held (all_refs A ++ E') f = held (all_refs A ++ E) f) as Hheld.
  { intros sp f Hsp Hf. rewrite !held_app. pose proof (Hdisj f (Hin sp f Hsp Hf)) as ->%held_zero.
    assert (f ∉ E) as ->%held_zero; [|done]. intros HE. by eapply (kernel_frames _end s A E sp f f). }
  split; [constructor; try done|].
  - by exists l.
  - intros sp Hsp. eapply rep_frame; [|by apply Hr]. intros p a Hp Ha. apply (Hsame p); [|done]. apply (Hin sp); [done|].
    unfold srefs. apply elem_of_app. by left.
  - intros sp p Hsp Hp. rewrite (Hheld sp) by (done || (unfold srefs; apply elem_of_app; by left)). by apply Ht with sp.
  - intros sp v e Hsp Hv. destruct (Hl sp v e Hsp Hv) as (L1 & L2 & L3). split; [done|]. split; [|done]. intros Hvu.
    destruct (L2 Hvu) as (L4 & L5 & L6). assert (PTE2PA e ∈ srefs sp) as Hf by (unfold srefs; apply elem_of_app; right; apply frames_elem; eauto).
    split_and!; [done|by eapply Hdisj, Hin|]. intros Hw. rewrite (Hheld sp) by done. by apply L6.
  - intros sp f a b Hsp Hf Ha Hx. rewrite (Hsame f a) in Hx; [by eapply Hb|apply (Hin sp); [done|unfold srefs; apply elem_of_app; by right]|done].
  - intros sp va Hsp. unfold uload. destruct (sp_L sp !! vpn va) as [e|] eqn:He; [|done]. destruct (Z.testbit e 4) eqn:H4; [|done].
    apply (Hsame (PTE2PA e)); [by eapply Hin, user_frame|]. pose proof (mod_page va). unfold in_page. lia.
Qed.

Lemma kernel_alloc s A E :
  vm_inv _end s A E → Z.of_nat (length E) < 2 ^ 30 →
  kalloc _end s = Ret (0, s) ∧ tight _end (all_refs A ++ E) 0 ∨
  ∃ q s', kalloc _end s = Ret (q, s') ∧ q ≠ 0 ∧ page _end q ∧ (q ∉ all_refs A ++ E) ∧ vm_inv _end s' A (q :: E) ∧
    (∀ p a, p ∈ all_refs A ++ E → in_page p a → phys s' !! a = phys s !! a) ∧ (∀ a, in_page q a → phys s' !! a = Some 5) ∧
    ∀ sp va, sp ∈ A → uload (phys s') (sp_L sp) va = uload (phys s) (sp_L sp) va.
Proof using Hend.
  intros Hi Hsmall. destruct (vi_inv _ _ _ _ Hi) as [l Hc].
  destruct (kalloc_spec _end Hend s l (ci_inv _ _ _ _ Hc)) as (s1 & E1 & _ & Hl).
  destruct (client_inv_alloc _end Hend _ _ _ _ _ Hc E1) as [[Hq ->]|[Hq Hc1]].
  { left. rewrite Hq in E1. split; [done|]. by eapply (kalloc_tight _end Hend). }
  right. destruct l as [|q l]; [done|]. cbn [head from_option tail id] in *. destruct Hl as (_ & _ & W1).
  assert (page _end q) as Hpq by (eapply Forall_inv, (inv_page _ _ _ (ci_inv _ _ _ _ Hc))).
  assert (q ∉ all_refs A ++ E) as Hqn by (apply held_zero, (ci_part _ _ _ _ Hc); [done|left]).
  assert (∀ p a, p ∈ all_refs A ++ E → in_page p a → phys s1 !! a = phys s !! a) as Hsame.
  { intros p a Hp Ha. rewrite W1, length_replicate, decide_False; [done|]. intros Hin. apply Hqn.
    rewrite (in_page_eq _end q p a); [done|done|by eapply vm_page| |done]. unfold in_page, PGSIZE in *. lia. }
  destruct (kernel_step s s1 A E (q :: E) l Hi) as [Hi1 Hu1].
  - eapply client_inv_perm; [|exact Hc1]. by rewrite Permutation_middle.
  - intros p Hp. apply not_elem_of_cons. split.
    + intros ->. apply Hqn, elem_of_app. by left.
    + apply list_elem_of_join in Hp as (r & Hp & (sp & -> & Hsp)%list_elem_of_fmap). intros HE. by eapply (kernel_frames _end s A E sp p p).
  - intros p a Hp. apply Hsame. apply elem_of_app. by left.
  - cbn [length]. lia.
  - exists q, s1. split_and!; try done. intros a Ha. unfold in_page, PGSIZE in *. rewrite W1, length_replicate, decide_True by lia. apply lookup_replicate_2. lia.
Qed.

Lemma kernel_free s A E E' p :
  vm_inv _end s A E → E ≡ₚ p :: E' →
  ∃ s', kfree _end p s = Ret ((), s') ∧ vm_inv _end s' A E' ∧ (∀ sp va, sp ∈ A → uload (phys s') (sp_L sp) va = uload (phys s) (sp_L sp) va) ∧
    ∀ f a, f ∈ all_refs A ++ E' → in_page f a → phys s' !! a = phys s !! a.
Proof using Hend.
  intros Hi HE. destruct (vi_inv _ _ _ _ Hi) as [l Hc]. assert (p ∈ E) as HpE by (rewrite HE; left).
  assert (0 < held (all_refs A ++ E) p) as Hpos by (apply held_pos, elem_of_app; by right). pose proof (held_few _end Hend s A E p Hi) as Hfew.
  assert (p ∉ l) as Hnl by (rewrite (ci_part _ _ _ _ Hc) by (by apply (ci_page _ _ _ _ Hc)); lia).
  pose proof (ci_page _ _ _ _ Hc p Hpos) as Hpp. pose proof (ci_refs _ _ _ _ Hc p Hpos) as Href.
  destruct (kfree_spec _end Hend s l p (ci_inv _ _ _ _ Hc) Hpp Hnl) as (s' & E1 & _ & _ & Hs'); [lia|].
  assert (all_refs A ++ E ≡ₚ p :: all_refs A ++ E') as Hperm by (rewrite HE; by rewrite Permutation_middle).
  destruct (client_inv_free _end Hend s _ l s' p _ Hc Hperm ltac:(lia) E1) as [l' Hc']. exists s'. split; [done|].
  assert (∀ f a, f ∈ all_refs A ++ E' → in_page f a → phys s' !! a = phys s !! a) as Hkeep.
  { intros f a Hf Ha. case_decide as Hd; [destruct Hs' as (_ & -> & _); done|]. destruct Hs' as [_ W].
    rewrite W, decide_False; [done|]. rewrite length_app, length_le_bytes, length_replicate. intros Hin.
    assert (f = p) as ->.
    { apply (in_page_eq _end f p a); [|done|done|unfold in_page, PGSIZE in *; lia]. eapply vm_page; [exact Hi|].
      apply elem_of_app in Hf as [Hf|Hf]; apply elem_of_app; [by left|right; rewrite HE; by right]. }
    apply held_pos in Hf. rewrite (held_perm _ _ p Hperm), held_cons, decide_True in Href by done. lia. }
  destruct (kernel_step s s' A E E' l' Hi Hc') as [Hi' Hu'].
  - intros f Hf HfE. assert (f ∈ E) as Hf' by (rewrite HE; by right).
    apply list_elem_of_join in Hf as (r & Hf & (sp & -> & Hsp)%list_elem_of_fmap). by eapply (kernel_frames _end s A E sp f f).
  - intros f a Hf Ha. apply (Hkeep f); [|done]. apply elem_of_app. by left.
  - pose proof (vi_small _ _ _ _ Hi). pose proof (Permutation_length HE) as Hl. cbn in Hl. lia.
  - done.
Qed.

(** ** A new space *)

Lemma vm_boot bs s : boot _end bs → kinit _end bs = Ret ((), s) → vm_inv _end s [] [].
Proof using Hend.
  intros Hb E1. destruct (kinit_spec _end Hend bs Hb) as (s' & l & E2 & Hi & Hl). rewrite E1 in E2. injection E2 as <-.
  constructor; [|intros *; by intros ?%elem_of_nil..|by vm_compute]. exists l. constructor; [done| |done|done].
  intros pa Hpa. by rewrite Hl.
Qed.

Definition root_space (q : Z) : space := Space q {[(2%nat, 0) := q]} ∅.
Lemma zero_rep m q : page _end q → (∀ a, in_page q a → m !! a = Some 0) → rep _end m q {[(2%nat, 0) := q]} ∅.
Proof using.
  intros Hq Hz. constructor.
  - by apply lookup_singleton_eq.
  - intros k p [<- <-]%lookup_singleton_Some. done.
  - intros k k' p [<- _]%lookup_singleton_Some [<- _]%lookup_singleton_Some. done.
  - intros lv x p [[= <- <-] <-]%lookup_singleton_Some. by left.
  - intros v e He. by rewrite lookup_empty in He.
  - intros lv x p i [[= <- <-] <-]%lookup_singleton_Some Hi. cbn [entry]. rewrite lookup_singleton_ne by done. split; [done|].
    intros k b Hk. rewrite Hz.
    + change (le_bytes 8 0) with (replicate 8 0) in Hk. by apply lookup_replicate in Hk as [-> _].
    + apply lookup_lt_Some in Hk. rewrite length_le_bytes in Hk. unfold in_page, PGSIZE. lia.
Qed.

Lemma uvmcreate_spec s A E :
  vm_inv _end s A E → Z.of_nat (length E) < 2 ^ 30 →
  uvmcreate _end s = Ret (0, s) ∧ tight _end (all_refs A ++ E) 0 ∨
  ∃ q s', uvmcreate _end s = Ret (q, s') ∧ q ≠ 0 ∧ vm_inv _end s' (root_space q :: A) E ∧
    (∀ p a, p ∈ all_refs A ++ E → in_page p a → phys s' !! a = phys s !! a) ∧
    ∀ sp va, sp ∈ A → uload (phys s') (sp_L sp) va = uload (phys s) (sp_L sp) va.
Proof using Hend.
  intros Hi Hsmall. unfold uvmcreate.
  destruct (kernel_alloc s A E Hi Hsmall) as [[E1 Ht]|(q & s1 & E1 & Hq & Hpq & Hqn & Hi1 & Hkeep & _ & Hu1)]; rewrite (bind_Ret _ _ _ _ _ E1); [by left|right].
  destruct (Z.eqb_spec q 0); [done|]. destruct (vi_inv _ _ _ _ Hi1) as [l Hc].
  destruct (memset_page _end s1 _ q 0 (ci_inv _ _ _ _ Hc) Hpq) as (m2 & E2 & W). rewrite (bind_Ret _ _ _ _ _ E2).
  destruct (kernel_write _end Hend s1 A (q :: E) q q (replicate (Z.to_nat PGSIZE) 0) m2 Hi1) as [Hi2 Hu2]; [left|lia|rewrite length_replicate; unfold PGSIZE; lia|exact W|].
  set (s2 := set_phys (λ _, m2) s1) in *. exists q, s2. split; [done|]. split; [done|]. split.
  2: { split; [|intros sp va Hsp; by rewrite <- Hu1, <- Hu2]. intros p a Hp Ha. rewrite <- (Hkeep p a Hp Ha). cbn.
    rewrite W, length_replicate, decide_False; [done|]. intros Hin. apply Hqn. rewrite (in_page_eq _end q p a); [done|done| | |done].
    - exact (vm_page _end s A E p Hi Hp).
    - unfold in_page, PGSIZE in *. lia. }
  assert (all_refs (root_space q :: A) ++ E ≡ₚ all_refs A ++ q :: E) as Hperm.
  { rewrite all_refs_cons. unfold srefs, root_space, tabs, frames, user_part. cbn [sp_T sp_L]. rewrite map_filter_empty, map_to_list_empty, map_to_list_singleton.
    cbn. by rewrite Permutation_middle. }
  assert ((q ∉ all_refs A) ∧ (q ∉ E)) as [HqA HqE] by (by apply not_elem_of_app). destruct Hi2 as [[l2 Hc2] Hr2 Ht2 Hl2 Hb2 Hs2].
  constructor; [exists l2; by eapply client_inv_perm|..]; cbn [length] in *; try lia.
  - intros sp [->|Hsp]%elem_of_cons; [|by apply Hr2]. apply zero_rep; [done|]. intros a Ha. cbn in Ha |- *. unfold in_page, PGSIZE in *.
    rewrite W, length_replicate, decide_True by lia. apply lookup_replicate_2. lia.
  - intros sp p [->|Hsp]%elem_of_cons Hp; rewrite (held_perm _ _ p Hperm); [|by apply Ht2 with sp].
    apply tabs_elem in Hp as [k Hk]. cbn [root_space sp_T] in Hk. apply lookup_singleton_Some in Hk as [_ <-]. apply held_zero in HqA, HqE. rewrite held_app, held_cons, decide_True by done. lia.
  - intros sp v e [->|Hsp]%elem_of_cons Hv; [cbn in Hv; by rewrite lookup_empty in Hv|]. destruct (Hl2 sp v e Hsp Hv) as (L1 & L2 & L3).
    split; [done|]. split; [|done]. intros Hvu. destruct (L2 Hvu) as (L4 & L5 & L6). rewrite (held_perm _ _ _ Hperm). split_and!; [done| |done].
    intros HE. apply L5. by right.
  - intros sp f a b [->|Hsp]%elem_of_cons Hf Ha Hx; [|by eapply Hb2]. apply frames_elem in Hf as (v & e & He & _). cbn in He. by rewrite lookup_empty in He.
Qed.

(** ** The memory determines the maps *)

Lemma word_at_unique m p v v' : word_at m p v → word_at m p v' → v = v'.
Proof using.
  intros H1 H2. pose proof (pte_read_run (KMem m 0 []) p v H1) as E1. pose proof (pte_read_run (KMem m 0 []) p v' H2) as E2.
  rewrite E1 in E2. by injection E2.
Qed.

Lemma tables_sub m root T T' L L' : rep _end m root T L → rep _end m root T' L' →
  ∀ d lv x q, (lv + d = 2)%nat → T !! (lv, x) = Some q → T' !! (lv, x) = Some q.
Proof using Hend.
  intros H1 H2 d. induction d as [|d IH]; intros lv x q Hlv Hq.
  - assert (lv = 2%nat) as -> by lia. destruct (rep_up _ _ _ _ _ H1 _ _ _ Hq) as [[_ ->]|[? _]]; [|lia].
    rewrite (rep_root _ _ _ _ _ H1) in Hq. injection Hq as <-. apply (rep_root _ _ _ _ _ H2).
  - destruct (rep_up _ _ _ _ _ H1 _ _ _ Hq) as [[-> _]|[_ [p Hp]]]; [lia|]. pose proof (IH (S lv) (x / 512) p ltac:(lia) Hp) as Hp'.
    assert (0 <= x mod 512 < 512) as Hx by (apply Z.mod_pos_bound; lia).
    pose proof (rep_entry _ _ _ _ _ H1 _ _ _ _ Hp Hx) as W1. pose proof (rep_entry _ _ _ _ _ H2 _ _ _ _ Hp' Hx) as W2.
    pose proof (word_at_unique _ _ _ _ W1 W2) as E. replace (x / 512 * 512 + x mod 512) with x in E by dlia. cbn [entry] in E. rewrite Hq in E.
    destruct (T' !! (lv, x)) as [q'|] eqn:Hq'; [|pose proof (ptr_pte_valid q) as Hv; by rewrite E in Hv].
    f_equal. apply (f_equal PTE2PA) in E. rewrite !PTE2PA_ptr in E; [done|apply (page_aligned _end Hend); eapply rep_page; [exact H2|exact Hq']|apply (page_aligned _end Hend); eapply rep_page; [exact H1|exact Hq]..].
Qed.

Lemma leaves_sub m root T T' L L' v e : rep _end m root T L → rep _end m root T' L' → L !! v = Some e → L' !! v = Some e.
Proof using Hend.
  intros H1 H2 He. destruct (rep_leaf _ _ _ _ _ H1 v e He) as (_ & H0 & [p Hp]).
  pose proof (tables_sub _ _ _ _ _ _ H1 H2 2 0%nat _ _ eq_refl Hp) as Hp'. assert (0 <= v mod 512 < 512) as Hx by (apply Z.mod_pos_bound; lia).
  pose proof (word_at_unique _ _ _ _ (rep_entry _ _ _ _ _ H1 _ _ _ _ Hp Hx) (rep_entry _ _ _ _ _ H2 _ _ _ _ Hp' Hx)) as E.
  replace (v / 512 * 512 + v mod 512) with v in E by dlia. cbn [entry] in E. rewrite He in E. cbn in E.
  destruct (L' !! v) as [e'|]; cbn in E; [by subst|]. subst. by rewrite Z.bits_0 in H0.
Qed.

(** A page table stands for one map of tables and one of leaves. *)
Lemma rep_unique m root T T' L L' : rep _end m root T L → rep _end m root T' L' → T = T' ∧ L = L'.
Proof using Hend.
  intros H1 H2. split; apply map_eq.
  - assert (∀ T T' L L', rep _end m root T L → rep _end m root T' L' → ∀ k q, T !! k = Some q → T' !! k = Some q) as Hs.
    { intros U U' K K' R1 R2 [lv x] q Hq. destruct (rep_up _ _ _ _ _ R1 _ _ _ Hq) as [[-> _]|[Hl _]].
      - by eapply (tables_sub _ _ _ _ _ _ R1 R2 0).
      - eapply (tables_sub _ _ _ _ _ _ R1 R2 (2 - lv)); [lia|done]. }
    intros k. destruct (T !! k) as [q|] eqn:E1; [symmetry; exact (Hs _ _ _ _ H1 H2 _ _ E1)|]. destruct (T' !! k) as [q|] eqn:E2; [|done].
    rewrite (Hs _ _ _ _ H2 H1 _ _ E2) in E1. done.
  - intros v. destruct (L !! v) as [e|] eqn:E1; [symmetry; exact (leaves_sub _ _ _ _ _ _ _ _ H1 H2 E1)|]. destruct (L' !! v) as [e|] eqn:E2; [|done].
    rewrite (leaves_sub _ _ _ _ _ _ _ _ H2 H1 E2) in E1. done.
Qed.
End safe.
