(* ===== verification/VmProc.v ===== *)
(** * User memory under the kernel's operations

    The theorems on [vm.c] as a process sees it: what [copyout], [copyin],
    [copyinstr], [sbrk] and [fork] do to the memory of the process concerned and
    of all others, and the invariant of every state such operations reach. *)
From S2P Require Import Prelude KString Kalloc Vm VmTable VmSpace VmCopy VmRead VmUser VmFork VmFree VmSafe.

Section theorems.
Context (_end : Z) (Hend : KERNBASE <= _end <= PHYSTOP).
Implicit Types (s : kmem_t) (L : leaves) (A B : list space) (E : list Z).

(** The pages of a process of size [sz] are mapped, and no others below the
    trapframe. *)
Definition sized L (sz : Z) : Prop := 0 <= sz <= TRAPFRAME ∧ ∀ v, 0 <= v < UVPN → is_Some (L !! v) ↔ v < pages sz.

Lemma sized_pages L sz : sized L sz → 0 <= pages sz <= UVPN.
Proof using. assert (TRAPFRAME = UVPN * PGSIZE) as Ht by (vm_compute; done). intros [Hs _]. unfold pages, PGSIZE in *. dlia. Qed.
Lemma sized_none L sz w : sized L sz → pages sz <= w < UVPN → L !! w = None.
Proof using. intros Hs Hw. pose proof (sized_pages _ _ Hs). destruct Hs as [_ Hs]. specialize (Hs w ltac:(lia)). destruct (L !! w); [|done]. assert (w < pages sz) by (apply Hs; eauto). lia. Qed.
Lemma sized_some L sz w : sized L sz → 0 <= w < pages sz → is_Some (L !! w).
Proof using. intros Hs Hw. pose proof (sized_pages _ _ Hs). destruct Hs as [_ Hs]. apply Hs; lia. Qed.

(** C24: [copyout] puts the bytes where the program of that page table reads them,
    all of them or up to the first address the program may not write; a page
    shared copy-on-write is copied first, and only then can the kernel stop, when
    no page is left. Nothing any other program reads changes, nor memory outside. *)
Theorem copyout_correct s sp B E dstva src data :
  vm_inv _end s (sp :: B) E → in_range 64 dstva → bytes_at (phys s) src data → Forall is_byte data →
  (∀ k, (k < length data)%nat → outside _end B E (src + Z.of_nat k)) →
  let out := copyout _end (sp_root sp) dstva src (Z.of_nat (length data)) s in
  out = Panic cow_panic ∧ (∃ k, 0 <= k < Z.of_nat (length data) ∧ cow_page (sp_L sp) (dstva + k)) ∧ tight _end (all_refs (sp :: B) ++ E) 0 ∨
  ∃ r s' L' n, out = Ret (r, s') ∧ vm_inv _end s' (Space (sp_root sp) (sp_T sp) L' :: B) E ∧
    (r = 0 ∧ n = length data ∨ r = -1 ∧ (n < length data)%nat ∧ ¬ user_writable (sp_L sp) (dstva + Z.of_nat n)) ∧
    (∀ va, uload (phys s') L' va = if decide (dstva <= va < dstva + Z.of_nat n) then data !! Z.to_nat (va - dstva) else uload (phys s) (sp_L sp) va) ∧
    (∀ sp' va, sp' ∈ B → uload (phys s') (sp_L sp') va = uload (phys s) (sp_L sp') va) ∧
    ∀ a, outside _end B E a → phys s' !! a = phys s !! a.
Proof using Hend.
  intros Hi Hd Hsrc Hb Hout out.
  destruct (copyout_loop_spec _end Hend (Z.to_nat (Z.of_nat (length data))) s sp B E dstva src data Hi Hd Hsrc Hb Hout ltac:(lia))
    as [?|(r & s' & L' & n & E1 & Hi' & Hout' & Hl & Hr & _)]; [by left|right].
  exists r, s', L', n. split_and!; try done. intros sp' va Hsp'. by eapply (others_uload _end s s' (sp :: B) B); [|right| |].
Qed.

(** [copyin] brings the bytes the program reads at [srcva] to the kernel's
    buffer, all of them or up to the first address the program cannot read; it
    changes nothing else. *)
Theorem copyin_correct s A E sp p dst srcva len :
  vm_inv _end s A E → sp ∈ A → p ∈ E → in_range 64 srcva → 0 <= len → p <= dst → dst + len <= p + PGSIZE →
  ∃ r s' b, copyin _end (sp_root sp) dst srcva len s = Ret (r, s') ∧ vm_inv _end s' A E ∧
    (∀ a, phys s' !! a = if decide (dst <= a < dst + Z.of_nat (length b)) then b !! Z.to_nat (a - dst) else phys s !! a) ∧
    (∀ k x, b !! k = Some x → uload (phys s) (sp_L sp) (srcva + Z.of_nat k) = Some x) ∧
    (∀ sp' va, sp' ∈ A → uload (phys s') (sp_L sp') va = uload (phys s) (sp_L sp') va) ∧
    (r = 0 ∧ Z.of_nat (length b) = len ∨
     r = -1 ∧ Z.of_nat (length b) < len ∧ uload (phys s) (sp_L sp) (srcva + Z.of_nat (length b)) = None).
Proof using Hend.
  intros Hi Hsp Hp Hva Hlen H1 H2.
  destruct (copyin_loop_spec _end Hend A E p sp (Z.to_nat len) s dst srcva len Hi Hsp Hp Hva Hlen H1 H2 ltac:(lia))
    as (r & s' & b & E1 & Hi' & W & _ & Hb & Hsame & Hr).
  exists r, s', b. by split_and!.
Qed.

(** C33: [copyinstr] agrees with reading the string byte by byte as the program
    does: it returns 0 with the string and its NUL in the buffer if it ends within
    [max] bytes of readable memory, and -1 otherwise. *)
Theorem copyinstr_correct s A E sp p dst srcva max :
  vm_inv _end s A E → sp ∈ A → p ∈ E → in_range 64 srcva → p <= dst → dst + Z.of_nat max <= p + PGSIZE →
  ∃ r s', copyinstr _end (sp_root sp) dst srcva (Z.of_nat max) s = Ret (r, s') ∧ vm_inv _end s' A E ∧
    (∀ a, ¬ (dst <= a < dst + Z.of_nat max) → phys s' !! a = phys s !! a) ∧
    (∀ sp' va, sp' ∈ A → uload (phys s') (sp_L sp') va = uload (phys s) (sp_L sp') va) ∧
    match ustring (uload (phys s) (sp_L sp)) srcva max with
    | Some l => r = 0 ∧ bytes_at (phys s') dst (l ++ [0])
    | None => r = -1
    end.
Proof using Hend.
  intros Hi Hsp Hp Hva H1 H2.
  destruct (copyinstr_loop_spec _end Hend A E p sp (Z.to_nat (Z.of_nat max)) s dst srcva max Hi Hsp Hp Hva H1 H2 ltac:(lia))
    as (r & s' & b & E1 & Hi' & W & Hlen & Hsame & Hr).
  exists r, s'. split_and!; try done.
  - intros a Ha. rewrite W. by rewrite decide_False by lia.
  - destruct (ustring _ _ _); [|done]. destruct Hr as [-> ->]. split; [done|]. by eapply written_bytes_at.
Qed.

Lemma grow_spec s sp B E sz newsz xperm :
  vm_inv _end s (sp :: B) E → sized (sp_L sp) sz → user_perm xperm → sz <= newsz <= TRAPFRAME →
  ∃ r s' T' L', uvmalloc _end (sp_root sp) sz newsz xperm s = Ret (r, s') ∧
    vm_inv _end s' (Space (sp_root sp) T' L' :: B) E ∧
    (∀ a, outside _end B E a → phys s' !! a = phys s !! a) ∧
    (∀ sp' va, sp' ∈ B → uload (phys s') (sp_L sp') va = uload (phys s) (sp_L sp') va) ∧ (∀ v, UVPN <= v → L' !! v = sp_L sp !! v) ∧
    (r = newsz ∧ sized L' newsz ∧
       (∀ va, uload (phys s') L' va = if decide (pages sz <= vpn va < pages newsz) then Some 0 else uload (phys s) (sp_L sp) va) ∧
       (∀ va, pages sz <= vpn va < pages newsz → Z.testbit xperm 2 = true → user_writable L' va) ∧
       (∀ va, cow_page L' va → cow_page (sp_L sp) va) ∨
     r = 0 ∧ tight _end (all_refs (sp :: B) ++ E) (3 * Z.to_nat (pages newsz - pages sz)) ∧ L' = sp_L sp ∧
       ∀ va, uload (phys s') L' va = uload (phys s) (sp_L sp) va).
Proof using Hend.
  intros Hi Hs Hx Hn. assert (TRAPFRAME = UVPN * PGSIZE) as Htf by (vm_compute; done). assert (pages newsz <= UVPN) as Hpn by (unfold pages, PGSIZE in *; dlia).
  destruct (uvmalloc_spec _end Hend s sp B E sz newsz xperm Hi Hx ltac:(apply Hs) Hn) as (r & s' & T' & L' & E1 & Hi' & Hout & Hr).
  { intros w Hw. eapply sized_none; [exact Hs|lia]. }
  exists r, s', T', L'. split_and!; try done.
  { intros sp' va Hsp'. by eapply (others_uload _end s s' (sp :: B) B); [|right| |]. }
  { intros v Hv. destruct Hr as [(_ & HL & _)|(_ & _ & -> & _)]; [|done]. specialize (HL v). rewrite decide_False in HL by lia. done. }
  destruct Hr as [(-> & HL & Hl)|?]; [left|by right]. split_and!; [done| |done| |].
  - split; [destruct Hs as [? _]; lia|]. intros v Hv. specialize (HL v). pose proof (pages_mono sz newsz ltac:(lia)).
    case_decide as Hd; [destruct HL as (q & -> & _); split; [lia|eauto]|]. rewrite HL. destruct Hs as [_ Hs]. rewrite (Hs v Hv). lia.
  - intros va Hva Hw. specialize (HL (vpn va)). rewrite decide_True in HL by done. destruct HL as (q & HL & Hq).
    destruct (user_pte_flags q xperm (page_aligned _end Hend q Hq) Hx) as (_ & F4 & _ & F2 & _). exists (user_pte q xperm). rewrite F2. auto.
  - intros va (e & He & H8). specialize (HL (vpn va)). case_decide; [|rewrite HL in He; by exists e]. destruct HL as (q & HL & Hq).
    destruct (user_pte_flags q xperm (page_aligned _end Hend q Hq) Hx) as (_ & _ & F8 & _). rewrite HL in He. injection He as <-. congruence.
Qed.

(** Growing a process maps zeroed pages of its own at the new addresses and
    leaves the rest of its memory as it was; when memory runs out it returns 0 and
    the process is as before. Nobody else notices. *)
Theorem uvmalloc_correct s sp B E sz newsz xperm :
  vm_inv _end s (sp :: B) E → sized (sp_L sp) sz → user_perm xperm → sz <= newsz <= TRAPFRAME →
  ∃ r s' T' L', uvmalloc _end (sp_root sp) sz newsz xperm s = Ret (r, s') ∧
    vm_inv _end s' (Space (sp_root sp) T' L' :: B) E ∧
    (∀ a, outside _end B E a → phys s' !! a = phys s !! a) ∧
    (∀ sp' va, sp' ∈ B → uload (phys s') (sp_L sp') va = uload (phys s) (sp_L sp') va) ∧ (∀ v, UVPN <= v → L' !! v = sp_L sp !! v) ∧
    (r = newsz ∧ sized L' newsz ∧
       (∀ va, uload (phys s') L' va = if decide (pages sz <= vpn va < pages newsz) then Some 0 else uload (phys s) (sp_L sp) va) ∧
       (∀ va, pages sz <= vpn va < pages newsz → Z.testbit xperm 2 = true → user_writable L' va) ∧
       (∀ va, cow_page L' va → cow_page (sp_L sp) va) ∨
     r = 0 ∧ tight _end (all_refs (sp :: B) ++ E) (3 * Z.to_nat (pages newsz - pages sz)) ∧ L' = sp_L sp ∧
       ∀ va, uload (phys s') L' va = uload (phys s) (sp_L sp) va).
Proof using Hend. apply grow_spec. Qed.

Lemma shrink_spec s sp B E sz newsz :
  vm_inv _end s (sp :: B) E → sized (sp_L sp) sz → 0 <= newsz →
  ∃ s' L', uvmdealloc _end (sp_root sp) sz newsz s = Ret (Z.min sz newsz, s') ∧
    vm_inv _end s' (Space (sp_root sp) (sp_T sp) L' :: B) E ∧ sized L' (Z.min sz newsz) ∧
    (∀ sp' va, sp' ∈ B → uload (phys s') (sp_L sp') va = uload (phys s) (sp_L sp') va) ∧
    (∀ v, L' !! v = if decide (pages newsz <= v < pages sz) then None else sp_L sp !! v) ∧
    ∀ va, uload (phys s') L' va = if decide (pages newsz <= vpn va < pages sz) then None else uload (phys s) (sp_L sp) va.
Proof using Hend.
  intros Hi Hs Hn. pose proof (sized_pages _ _ Hs) as Hp. pose proof (proj1 Hs) as Hsz.
  destruct (uvmdealloc_spec _end Hend s sp B E sz newsz Hi Hn Hsz) as (s' & L' & E1 & Hi' & Hout & HL & Hl).
  { intros v Hv. eapply sized_some; [exact Hs|]. assert (0 <= pages newsz) by (unfold pages, PGSIZE; dlia). lia. }
  exists s', L'. split_and!; try done.
  - split; [lia|]. intros v Hv. rewrite HL. pose proof (proj2 Hs v Hv) as Hiff.
    destruct (Z.min_spec sz newsz) as [[Hlt ->]|[Hge ->]].
    + pose proof (pages_mono sz newsz ltac:(lia)). rewrite decide_False by lia. done.
    + pose proof (pages_mono newsz sz ltac:(lia)). case_decide; [split; [by intros [? ?]|lia]|]. rewrite Hiff. lia.
  - intros sp' va Hsp'. by eapply (others_uload _end s s' (sp :: B) B); [|right| |].
Qed.

(** ** [fork] *)

Lemma fork_spec s so sn B E sz :
  vm_inv _end s (so :: sn :: B) E → sized (sp_L so) sz → sized (sp_L sn) 0 →
  ∃ r s' Lo Tn Ln, uvmcopy _end (sp_root so) (sp_root sn) sz s = Ret (r, s') ∧
    vm_inv _end s' (Space (sp_root so) (sp_T so) Lo :: Space (sp_root sn) Tn Ln :: B) E ∧ sized Lo sz ∧ (∀ v, UVPN <= v → Lo !! v = sp_L so !! v ∧ Ln !! v = sp_L sn !! v) ∧ (∀ a, outside _end B E a → phys s' !! a = phys s !! a) ∧
    (∀ va, uload (phys s') Lo va = uload (phys s) (sp_L so) va) ∧
    (∀ sp' va, sp' ∈ B → uload (phys s') (sp_L sp') va = uload (phys s) (sp_L sp') va) ∧
    (r = 0 ∧ sized Ln sz ∧ (∀ va, vpn va < UVPN → uload (phys s') Ln va = uload (phys s) (sp_L so) va) ∧
       (∀ va, vpn va < UVPN → user_writable (sp_L so) va ↔ user_writable Ln va) ∧ (∀ va, user_writable (sp_L so) va ↔ user_writable Lo va) ∨
     r = -1 ∧ sized Ln 0 ∧ tight _end (all_refs (so :: sn :: B) ++ E) (3 * Z.to_nat (pages sz))).
Proof using Hend.
  intros Hi Hso Hsn. pose proof (sized_pages _ _ Hso) as Hp. assert (0 <= sz) as Hsz by apply Hso.
  assert (Z.of_nat (Z.to_nat (pages sz)) <= sz / PGSIZE + 1) as Hfuel by (unfold pages, PGSIZE in *; dlia).
  destruct (copy_loop_spec _end Hend sz (Z.to_nat (pages sz)) ltac:(lia) (Z.to_nat (sz / PGSIZE) + 1) s so sn B E 0 Hi)
    as (r & s' & Lo & Tn & Ln & k & E1 & Hi' & Hout & Hlo & Hk & HLo & Hr); [lia|lia|lia| | |lia|].
  { intros w Hw. eapply sized_some; [exact Hso|lia]. }
  { intros w Hw. eapply sized_none; [exact Hsn|]. change (pages 0) with 0. lia. }
  assert (∀ w, is_Some (Lo !! w) ↔ is_Some (sp_L so !! w)) as Hsome.
  { intros w. rewrite HLo. case_decide; [apply fmap_is_Some|done]. }
  exists r, s', Lo, Tn, Ln. split_and!; [done|done| | |done|done| |].
  - split; [apply Hso|]. intros v Hv. rewrite Hsome. by apply Hso.
  - intros v Hv. rewrite HLo, decide_False by lia. split; [done|].
    destruct Hr as [(_ & _ & HLn & _)|(_ & _ & HLn)]; rewrite HLn, decide_False by lia; done.
  - intros sp' va Hsp'. eapply (others_uload _end s s' (so :: sn :: B) B); [exact Hi|right; by right|done|done].
  - assert (Hnone : ∀ va, vpn va < UVPN → ¬ (0 <= vpn va < pages sz) → (sp_L so !! vpn va = None) ∧ (sp_L sn !! vpn va = None)).
    { intros va Hva Hd. destruct (Z_lt_le_dec (vpn va) 0) as [Hneg|Hpos].
      - split.
        + destruct (sp_L so !! vpn va) as [e|] eqn:He; [|done]. destruct (vi_leaf _ _ _ _ Hi so _ e ltac:(left) He) as [? _]. lia.
        + destruct (sp_L sn !! vpn va) as [e|] eqn:He; [|done]. destruct (vi_leaf _ _ _ _ Hi sn _ e ltac:(right; left) He) as [? _]. lia.
      - split; [apply (sized_none _ sz)|apply (sized_none _ 0); [done|change (pages 0) with 0]]; (done || lia). }
    assert (Hw' : ∀ va, user_writable (sp_L so) va ↔ user_writable Lo va).
    { intros va. unfold user_writable. rewrite HLo. case_decide; [|done]. destruct (sp_L so !! vpn va) as [e|]; cbn; [|done].
      split; intros (x & [= <-] & Hx); eexists; (split; [done|]); by apply share_pte_writable. }
    destruct Hr as [(-> & -> & HLn & Hln)|(-> & Ht & HLn)]; [left|right]; (split; [done|]).
    + split_and!.
      * split; [apply Hso|]. intros v Hv. rewrite HLn. pose proof (proj2 Hso v Hv) as Ho. case_decide; [by rewrite fmap_is_Some|].
        split; [|intros Hs; lia]. intros Hs. apply Hsn in Hs; [|done]. change (pages 0) with 0 in Hs. lia.
      * intros va Hva. rewrite Hln. case_decide as Hd; [done|]. unfold uload. by destruct (Hnone va Hva Hd) as [-> ->].
      * intros va Hva. rewrite Hw'. unfold user_writable. destruct (decide (0 <= vpn va < pages sz)) as [Hd|Hd].
        -- rewrite HLn, HLo, !decide_True by done. destruct (sp_L so !! vpn va) as [e|] eqn:He; cbn [fmap option_fmap option_map]; [|split; intros (? & ? & _); done].
           assert (aligned (PTE2PA (share_pte e))) as Ha.
           { rewrite PTE2PA_share. apply (page_aligned _end Hend). eapply vm_page; [exact Hi|]. eapply (srefs_all _ _ so); [left|].
             unfold srefs. apply elem_of_app. right. apply frames_elem. exists (vpn va), e. split_and!; [done|lia|done]. }
           unfold compose. split; intros (x & [= <-] & H1 & H2); eexists; (split; [done|]); revert H1 H2; rewrite !ro_pte_low, ?orb_false_r by (done || lia); auto.
        -- destruct (Hnone va Hva Hd) as [Hn1 Hn2]. rewrite HLn, HLo, !decide_False, Hn1, Hn2 by done. done.
      * done.
    + split; [|done]. split; [by vm_compute|]. intros v Hv. change (pages 0) with 0. rewrite HLn. case_decide; [split; [by intros [? ?]|lia]|].
      rewrite (sized_none _ 0 v Hsn) by (change (pages 0) with 0; lia). split; [by intros [? ?]|lia].
Qed.

(** C22: After [uvmcopy] the child reads what the parent read, the parent still
    reads it, each may write where the parent could (a first write makes a copy:
    [copyout_correct]); nobody else is concerned. When there is no memory for the
    child's tables it is left empty and all is as before. *)
Theorem uvmcopy_correct s so sn B E sz :
  vm_inv _end s (so :: sn :: B) E → sized (sp_L so) sz → sized (sp_L sn) 0 →
  ∃ r s' Lo Tn Ln, uvmcopy _end (sp_root so) (sp_root sn) sz s = Ret (r, s') ∧
    vm_inv _end s' (Space (sp_root so) (sp_T so) Lo :: Space (sp_root sn) Tn Ln :: B) E ∧
    (∀ va, uload (phys s') Lo va = uload (phys s) (sp_L so) va) ∧
    (∀ sp' va, sp' ∈ B → uload (phys s') (sp_L sp') va = uload (phys s) (sp_L sp') va) ∧
    (r = 0 ∧ sized Ln sz ∧ (∀ va, vpn va < UVPN → uload (phys s') Ln va = uload (phys s) (sp_L so) va) ∧
       (∀ va, vpn va < UVPN → user_writable (sp_L so) va ↔ user_writable Ln va) ∧ (∀ va, user_writable (sp_L so) va ↔ user_writable Lo va) ∨
     r = -1 ∧ sized Ln 0 ∧ tight _end (all_refs (so :: sn :: B) ++ E) (3 * Z.to_nat (pages sz))).
Proof using Hend.
  intros Hi Hso Hsn. destruct (fork_spec s so sn B E sz Hi Hso Hsn) as (r & s' & Lo & Tn & Ln & E1 & Hi' & _ & _ & _ & H). by exists r, s', Lo, Tn, Ln.
Qed.

(** ** [uvmfree] *)

(** The kernel's mappings are gone from the space. *)
Definition bare L : Prop := ∀ v, UVPN <= v → L !! v = None.

Lemma free_spec s sp B E sz :
  vm_inv _end s (sp :: B) E → sized (sp_L sp) sz → bare (sp_L sp) →
  ∃ s', uvmfree _end (sp_root sp) sz s = Ret ((), s') ∧ vm_inv _end s' B E ∧
    (∀ sp' va, sp' ∈ B → uload (phys s') (sp_L sp') va = uload (phys s) (sp_L sp') va) ∧
    ∀ a, outside _end B E a → phys s' !! a = phys s !! a.
Proof using Hend.
  intros Hi Hs Hb. pose proof (sized_pages _ _ Hs) as Hp.
  destruct (uvmfree_spec _end Hend s sp B E sz Hi (proj1 Hs)) as (s' & E1 & Hi' & Hout).
  { intros v. destruct (Z_lt_le_dec v 0) as [Hneg|Hpos]; [|destruct (Z_lt_le_dec v UVPN) as [Hvu|Hvu]].
    - split; [|lia]. intros [e He]. destruct (vi_leaf _ _ _ _ Hi sp v e ltac:(left) He) as [? _]. lia.
    - rewrite (proj2 Hs v) by lia. lia.
    - rewrite Hb by done. split; [by intros [? ?]|lia]. }
  exists s'. split_and!; try done. intros sp' va Hsp'. by eapply (others_uload _end s s' (sp :: B) B); [|right| |].
Qed.

(** [uvmfree] gives back every page of a process and every table: the kernel
    then counts the pages of the other processes and its own, which read as
    before, and nothing else. *)
Theorem uvmfree_correct s sp B E sz :
  vm_inv _end s (sp :: B) E → sized (sp_L sp) sz → bare (sp_L sp) →
  ∃ s', uvmfree _end (sp_root sp) sz s = Ret ((), s') ∧ vm_inv _end s' B E ∧
    (∀ sp' va, sp' ∈ B → uload (phys s') (sp_L sp') va = uload (phys s) (sp_L sp') va) ∧
    ∀ a, outside _end B E a → phys s' !! a = phys s !! a.
Proof using Hend. apply free_spec. Qed.

(** ** The reachable states *)

(** Processes with their sizes, the first of which runs; the kernel's pages. The
    tables and leaves after a step are those the memory holds. *)
Inductive vm_reach : kmem_t → list (space * Z) → list Z → Prop :=
  | reach_boot bs s : boot _end bs → kinit _end bs = Ret ((), s) → vm_reach s [] []
  | reach_switch s P P' E : vm_reach s P E → P ≡ₚ P' → vm_reach s P' E
  | reach_kalloc s P E q s' : vm_reach s P E → Z.of_nat (length E) < 2 ^ 30 → kalloc _end s = Ret (q, s') → q ≠ 0 → vm_reach s' P (q :: E)
  | reach_kfree s P E E' p s' : vm_reach s P E → E ≡ₚ p :: E' → kfree _end p s = Ret ((), s') → vm_reach s' P E'
  | reach_create s P E q s' : vm_reach s P E → Z.of_nat (length E) < 2 ^ 30 → uvmcreate _end s = Ret (q, s') → q ≠ 0 →
      vm_reach s' ((root_space q, 0) :: P) E
  | reach_grow s sp sz P E newsz xperm r s' T' L' : vm_reach s ((sp, sz) :: P) E → user_perm xperm → sz <= newsz <= TRAPFRAME →
      uvmalloc _end (sp_root sp) sz newsz xperm s = Ret (r, s') → rep _end (phys s') (sp_root sp) T' L' →
      vm_reach s' ((Space (sp_root sp) T' L', if r =? 0 then sz else newsz) :: P) E
  | reach_shrink s sp sz P E newsz r s' T' L' : vm_reach s ((sp, sz) :: P) E → 0 <= newsz →
      uvmdealloc _end (sp_root sp) sz newsz s = Ret (r, s') → rep _end (phys s') (sp_root sp) T' L' →
      vm_reach s' ((Space (sp_root sp) T' L', r) :: P) E
  | reach_fork s so sn sz P E r s' To Lo Tn Ln : vm_reach s ((so, sz) :: (sn, 0) :: P) E →
      uvmcopy _end (sp_root so) (sp_root sn) sz s = Ret (r, s') → rep _end (phys s') (sp_root so) To Lo → rep _end (phys s') (sp_root sn) Tn Ln →
      vm_reach s' ((Space (sp_root so) To Lo, sz) :: (Space (sp_root sn) Tn Ln, if r =? 0 then sz else 0) :: P) E
  | reach_kmap s sp sz P E v pa perm r s' T' L' : vm_reach s ((sp, sz) :: P) E → UVPN <= v < maxvpn → sp_L sp !! v = None →
      perm_ok perm → Z.testbit perm 4 = false → aligned pa → pa + 2 * PGSIZE <= 2 ^ 56 →
      mappages _end (sp_root sp) (v * PGSIZE) PGSIZE pa perm s = Ret (r, s') → rep _end (phys s') (sp_root sp) T' L' →
      vm_reach s' ((Space (sp_root sp) T' L', sz) :: P) E
  | reach_kunmap s sp sz P E v e s' T' L' : vm_reach s ((sp, sz) :: P) E → UVPN <= v → sp_L sp !! v = Some e → Z.testbit e 1 = true →
      uvmunmap _end (sp_root sp) (v * PGSIZE) 1 false s = Ret ((), s') → rep _end (phys s') (sp_root sp) T' L' →
      vm_reach s' ((Space (sp_root sp) T' L', sz) :: P) E
  | reach_free s sp sz P E s' : vm_reach s ((sp, sz) :: P) E → bare (sp_L sp) → uvmfree _end (sp_root sp) sz s = Ret ((), s') →
      vm_reach s' P E
  | reach_copyout s sp sz P E dstva src data r s' T' L' : vm_reach s ((sp, sz) :: P) E → in_range 64 dstva →
      bytes_at (phys s) src data → Forall is_byte data → (∀ k, (k < length data)%nat → outside _end P.*1 E (src + Z.of_nat k)) →
      copyout _end (sp_root sp) dstva src (Z.of_nat (length data)) s = Ret (r, s') → rep _end (phys s') (sp_root sp) T' L' →
      vm_reach s' ((Space (sp_root sp) T' L', sz) :: P) E
  | reach_copyin s sp sz P E p dst srcva len r s' : vm_reach s ((sp, sz) :: P) E → p ∈ E → in_range 64 srcva → 0 <= len →
      p <= dst → dst + len <= p + PGSIZE → copyin _end (sp_root sp) dst srcva len s = Ret (r, s') → vm_reach s' ((sp, sz) :: P) E
  | reach_copyinstr s sp sz P E p dst srcva max r s' : vm_reach s ((sp, sz) :: P) E → p ∈ E → in_range 64 srcva →
      p <= dst → dst + Z.of_nat max <= p + PGSIZE → copyinstr _end (sp_root sp) dst srcva (Z.of_nat max) s = Ret (r, s') →
      vm_reach s' ((sp, sz) :: P) E.

Definition reach_inv s (P : list (space * Z)) E : Prop := vm_inv _end s P.*1 E ∧ Forall (λ x, sized (sp_L x.1) x.2) P.

(** The running process after a step is the one the step's specification gives. *)
Lemma reach_focus s' root T L T' L' P E sz :
  vm_inv _end s' (Space root T L :: P.*1) E → sized L sz → Forall (λ x : space * Z, sized (sp_L x.1) x.2) P → rep _end (phys s') root T' L' →
  reach_inv s' ((Space root T' L', sz) :: P) E.
Proof using Hend.
  intros Hi Hs HP Hr. destruct (rep_unique _end Hend _ _ _ _ _ _ (vi_rep _ _ _ _ Hi (Space root T L) ltac:(left)) Hr) as [<- <-].
  split; [done|]. by constructor.
Qed.

Lemma reach_grow_inv s sp sz P E newsz xperm r s' T' L' :
  reach_inv s ((sp, sz) :: P) E → user_perm xperm → sz <= newsz <= TRAPFRAME →
  uvmalloc _end (sp_root sp) sz newsz xperm s = Ret (r, s') → rep _end (phys s') (sp_root sp) T' L' →
  reach_inv s' ((Space (sp_root sp) T' L', if r =? 0 then sz else newsz) :: P) E.
Proof using Hend.
  intros [Hi [Hs HP]%Forall_cons] Hx Hn E1 Hr. cbn [fst snd] in *.
  destruct (grow_spec s sp P.*1 E sz newsz xperm Hi Hs Hx Hn) as (r' & s1 & T1 & L1 & E2 & Hi1 & _ & _ & _ & Hcase).
  rewrite E1 in E2. injection E2 as <- <-. eapply reach_focus; [exact Hi1| |exact HP|exact Hr].
  destruct Hcase as [(-> & Hs1 & _)|(-> & _ & -> & _)]; [|done]. destruct (Z.eqb_spec newsz 0) as [->|]; [|done].
  by replace sz with 0 by (destruct Hs; lia).
Qed.

Lemma reach_fork_inv s so sn sz P E r s' To Lo Tn Ln :
  reach_inv s ((so, sz) :: (sn, 0) :: P) E →
  uvmcopy _end (sp_root so) (sp_root sn) sz s = Ret (r, s') → rep _end (phys s') (sp_root so) To Lo → rep _end (phys s') (sp_root sn) Tn Ln →
  reach_inv s' ((Space (sp_root so) To Lo, sz) :: (Space (sp_root sn) Tn Ln, if r =? 0 then sz else 0) :: P) E.
Proof using Hend.
  intros [Hi [Hso [Hsn HP]%Forall_cons]%Forall_cons] E1 Hro Hrn. cbn [fst snd] in *.
  destruct (fork_spec s so sn P.*1 E sz Hi Hso Hsn) as (r' & s1 & L1 & T2 & L2 & E2 & Hi1 & Hs1 & _ & _ & _ & _ & Hcase).
  rewrite E1 in E2. injection E2 as <- <-.
  destruct (rep_unique _end Hend _ _ _ _ _ _ (vi_rep _ _ _ _ Hi1 (Space (sp_root sn) T2 L2) ltac:(right; left)) Hrn) as [<- <-].
  destruct (rep_unique _end Hend _ _ _ _ _ _ (vi_rep _ _ _ _ Hi1 (Space (sp_root so) (sp_T so) L1) ltac:(left)) Hro) as [<- <-].
  split; [done|]. constructor; [done|constructor; [|done]]. cbn [fst snd].
  by destruct Hcase as [(-> & Hs2 & _)|(-> & Hs2 & _)].
Qed.

Lemma sized_high L L' sz : sized L sz → (∀ v, v < UVPN → L' !! v = L !! v) → sized L' sz.
Proof using. intros [Hs HL] Heq. split; [done|]. intros v Hv. rewrite Heq by lia. by apply HL. Qed.

Lemma reach_kmap_inv s sp sz P E v pa perm r s' T' L' :
  reach_inv s ((sp, sz) :: P) E → UVPN <= v < maxvpn → sp_L sp !! v = None →
  perm_ok perm → Z.testbit perm 4 = false → aligned pa → pa + 2 * PGSIZE <= 2 ^ 56 →
  mappages _end (sp_root sp) (v * PGSIZE) PGSIZE pa perm s = Ret (r, s') → rep _end (phys s') (sp_root sp) T' L' →
  reach_inv s' ((Space (sp_root sp) T' L', sz) :: P) E.
Proof using Hend.
  intros [Hi [Hs HP]%Forall_cons] Hv Hn Hperm H4 Ha Hpa E1 Hr. cbn [fst snd] in *.
  destruct (kmap_spec _end Hend s sp P.*1 E v pa perm Hi Hv Hn Hperm H4 Ha Hpa) as (r' & s1 & T1 & L1 & E2 & _ & Hi1 & _ & _ & Hcase).
  rewrite E1 in E2. injection E2 as <- <-. eapply reach_focus; [exact Hi1| |exact HP|exact Hr].
  destruct Hcase as [[_ ->]|(_ & -> & _)]; [|done]. eapply sized_high; [exact Hs|]. intros w Hw. by rewrite lookup_insert_ne by lia.
Qed.
Lemma reach_kunmap_inv s sp sz P E v e s' T' L' :
  reach_inv s ((sp, sz) :: P) E → UVPN <= v → sp_L sp !! v = Some e → Z.testbit e 1 = true →
  uvmunmap _end (sp_root sp) (v * PGSIZE) 1 false s = Ret ((), s') → rep _end (phys s') (sp_root sp) T' L' →
  reach_inv s' ((Space (sp_root sp) T' L', sz) :: P) E.
Proof using Hend.
  intros [Hi [Hs HP]%Forall_cons] Hv He H1 E1 Hr. cbn [fst snd] in *.
  destruct (kunmap_spec _end Hend s sp P.*1 E v e Hi Hv He H1) as (s1 & E2 & Hi1 & _). rewrite E1 in E2. injection E2 as <-.
  eapply reach_focus; [exact Hi1| |exact HP|exact Hr]. eapply sized_high; [exact Hs|]. intros w Hw. by rewrite lookup_delete_ne by lia.
Qed.

(** C10: In every state these operations reach, every counter counts the
    references to its page, no table is shared, a page that a process may write is
    mapped nowhere else, and a process maps the pages of its size and no others. *)
Theorem vm_reach_inv s P E : vm_reach s P E → reach_inv s P E.
Proof using Hend.
  induction 1 as [bs s Hb E1|s P P' E _ [Hi HP] Hp|s P E q s' _ [Hi HP] Hl E1 Hq|s P E E' p s' _ [Hi HP] Hp E1|s P E q s' _ [Hi HP] Hl E1 Hq
    |s sp sz P E newsz xperm r s' T' L' _ IH Hx Hn E1 Hr|s sp sz P E newsz r s' T' L' _ IH Hn E1 Hr
    |s so sn sz P E r s' To Lo Tn Ln _ IH E1 Hro Hrn|s sp sz P E v pa perm r s' T' L' _ IH Hv Hn Hperm H4 Ha Hpa E1 Hr|s sp sz P E v e s' T' L' _ IH Hv He H1 E1 Hr
    |s sp sz P E s' _ [Hi HP] Hb E1|s sp sz P E dstva src data r s' T' L' _ IH Hd Hsrc Hb Hout E1 Hr
    |s sp sz P E p dst srcva len r s' _ [Hi HP] Hp Hva Hlen H1 H2 E1|s sp sz P E p dst srcva max r s' _ [Hi HP] Hp Hva H1 H2 E1].
  - split; [by eapply vm_boot|done].
  - split; [|by rewrite <- Hp]. eapply vm_inv_perm; [|exact Hi]. by rewrite Hp.
  - destruct (kernel_alloc _end Hend s _ E Hi Hl) as [[E2 _]|(q' & s1 & E2 & _ & _ & _ & Hi1 & _)]; rewrite E1 in E2; by simplify_eq.
  - destruct (kernel_free _end Hend s _ E E' p Hi Hp) as (s1 & E2 & Hi1 & _). rewrite E1 in E2. by simplify_eq.
  - destruct (uvmcreate_spec _end Hend s _ E Hi Hl) as [[E2 _]|(q' & s1 & E2 & _ & Hi1 & _)]; rewrite E1 in E2; simplify_eq.
    split; [done|]. constructor; [|done]. split; [by vm_compute|]. intros v Hv. cbn. rewrite lookup_empty. change (pages 0) with 0.
    split; [by intros [? ?]|lia].
  - by eapply reach_grow_inv.
  - destruct IH as [Hi [Hs HP]%Forall_cons]. destruct (shrink_spec s sp P.*1 E sz newsz Hi Hs Hn) as (s1 & L1 & E2 & Hi1 & Hs1 & _).
    rewrite E1 in E2. injection E2 as -> ->. by eapply reach_focus.
  - by eapply reach_fork_inv.
  - by eapply reach_kmap_inv.
  - by eapply reach_kunmap_inv.
  - apply Forall_cons in HP as [Hs HP]. destruct (free_spec s sp P.*1 E sz Hi Hs Hb) as (s1 & E2 & Hi1 & _). rewrite E1 in E2. by simplify_eq.
  - destruct IH as [Hi [Hs HP]%Forall_cons]. cbn [fst snd] in *.
    destruct (copyout_loop_spec _end Hend (Z.to_nat (Z.of_nat (length data))) s sp P.*1 E dstva src data Hi Hd Hsrc Hb Hout ltac:(lia))
      as [[E2 _]|(r' & s1 & L1 & n & E2 & Hi1 & _ & _ & _ & Hk)]; unfold copyout in E1; rewrite E1 in E2; simplify_eq.
    eapply reach_focus; [exact Hi1| |exact HP|exact Hr]. destruct Hs as [Hsz Hs]. split; [done|]. intros v Hv. by rewrite Hk, Hs.
  - destruct (copyin_loop_spec _end Hend _ E p sp (Z.to_nat len) s dst srcva len Hi ltac:(left) Hp Hva Hlen H1 H2 ltac:(lia)) as (r' & s1 & b & E2 & Hi1 & _).
    unfold copyin in E1. rewrite E1 in E2. by simplify_eq.
  - destruct (copyinstr_loop_spec _end Hend _ E p sp (Z.to_nat (Z.of_nat max)) s dst srcva max Hi ltac:(left) Hp Hva H1 H2 ltac:(lia)) as (r' & s1 & b & E2 & Hi1 & _).
    unfold copyinstr in E1. rewrite E1 in E2. by simplify_eq.
Qed.
End theorems.

(** ** A machine of sixteen pages *)

Definition demo_end : Z := PHYSTOP - 16 * PGSIZE.
Definition demo_boot : kmem_t :=
  KMem (list_to_map ((λ a, (a, 0)) <$> seqZ demo_end (16 * PGSIZE))) 0 (replicate (Z.to_nat NPGCOUNT) 0).

Lemma demo_range : KERNBASE <= demo_end <= PHYSTOP.
Proof. split; vm_compute; discriminate. Qed.

Lemma demo_boots : ∃ bs, boot demo_end bs.
Proof.
  exists demo_boot. split; [|split; reflexivity]. intros pa [Hm [H1 H2]] k Hk. cbn [phys demo_boot]. exists 0. apply elem_of_list_to_map_1.
  - rewrite <- list_fmap_compose. apply (NoDup_fmap_2 id), NoDup_seqZ.
  - apply list_elem_of_fmap. exists (pa + Z.of_nat k). split; [done|]. apply elem_of_seqZ.
    unfold demo_end, PGSIZE, PHYSTOP, KERNBASE in *. dlia.
Qed.

Lemma demo_roomy o k : tight demo_end o k → (16 <= length o + k)%nat.
Proof.
  intros Ht. change 16%nat with (length ((λ i, demo_end + i * PGSIZE) <$> seqZ 0 16)). apply Ht.
  - apply NoDup_fmap_2; [intros x y; unfold PGSIZE; lia|apply NoDup_seqZ].
  - apply Forall_fmap, Forall_forall. intros i Hi%elem_of_seqZ. unfold page, demo_end, PGSIZE, PHYSTOP, KERNBASE. cbn. split; [dlia|lia].
Qed.

Lemma user_perm_W : user_perm PTE_W.
Proof. intros j Hj Hb. change PTE_W with (2 ^ 2) in Hb. rewrite flag_testbit in Hb by lia. left. lia. Qed.

(** A process of two writable pages beside a new one, and a page of the kernel's
    filled with fives. *)
Lemma demo : ∃ s sp sn p, vm_reach demo_end s [(sp, 8192); (sn, 0)] [p] ∧ reach_inv demo_end s [(sp, 8192); (sn, 0)] [p] ∧
  user_writable (sp_L sp) 0 ∧ (∀ va, ¬ cow_page (sp_L sp) va) ∧ (∀ va, 0 <= va < 8192 → uload (phys s) (sp_L sp) va = Some 0) ∧
  (∀ a, in_page p a → phys s !! a = Some 5) ∧ bare (sp_L sp).
Proof.
  destruct demo_boots as [bs Hbs]. pose proof demo_range as Hend. destruct (kinit_spec demo_end Hend bs Hbs) as (s0 & _ & E0 & _).
  pose proof (vm_boot demo_end Hend bs s0 Hbs E0) as Hi0. pose proof (reach_boot demo_end bs s0 Hbs E0) as Hr0.
  destruct (kernel_alloc demo_end Hend s0 [] [] Hi0 ltac:(done)) as [[_ Ht]|(p & s1 & E1 & Hp & _ & _ & Hi1 & _ & H5 & _)]; [apply demo_roomy in Ht; cbn in Ht; lia|].
  pose proof (reach_kalloc demo_end _ _ _ _ _ Hr0 ltac:(done) E1 Hp) as Hr1.
  destruct (uvmcreate_spec demo_end Hend s1 [] [p] Hi1 ltac:(done)) as [[_ Ht]|(q & s2 & E2 & Hq & Hi2 & K2 & _)]; [apply demo_roomy in Ht; cbn in Ht; lia|].
  pose proof (reach_create demo_end _ _ _ _ _ Hr1 ltac:(done) E2 Hq) as Hr2.
  destruct (uvmcreate_spec demo_end Hend s2 _ [p] Hi2 ltac:(done)) as [[_ Ht]|(q' & s3 & E3 & Hq' & Hi3 & K3 & _)]; [apply demo_roomy in Ht; vm_compute in Ht; lia|].
  pose proof (reach_create demo_end _ _ _ _ _ Hr2 ltac:(done) E3 Hq') as Hr3.
  assert (∀ x, sized (sp_L (root_space x)) 0) as Hs0.
  { intros x. split; [by vm_compute|]. intros v Hv. cbn. rewrite lookup_empty. change (pages 0) with 0. split; [by intros [? ?]|lia]. }
  destruct (grow_spec demo_end Hend s3 _ _ _ 0 8192 PTE_W Hi3 (Hs0 q') user_perm_W) as (r & s4 & T & L & E4 & Hi4 & Hout & _ & Hb & Hcase); [by vm_compute|].
  destruct Hcase as [(-> & Hs & Hl & Hw & Hc)|(_ & Ht & _)]; [|apply demo_roomy in Ht; vm_compute in Ht; lia].
  exists s4, (Space q' T L), (root_space q), p. split_and!.
  - apply (reach_grow demo_end s3 (root_space q') 0 _ _ 8192 PTE_W 8192 s4 T L Hr3 user_perm_W); [by vm_compute|exact E4|].
    by apply (vi_rep _ _ _ _ Hi4 (Space q' T L)); left.
  - split; [exact Hi4|]. apply Forall_cons. split; [exact Hs|]. apply Forall_cons. split; [apply Hs0|by constructor].
  - apply Hw; [by vm_compute|done].
  - intros va (e & He & _)%Hc. cbn in He. by rewrite lookup_empty in He.
  - intros va Hva. cbn [sp_L]. rewrite Hl, decide_True; [done|]. change (pages 0) with 0. change (pages 8192) with 2. unfold vpn, PGSIZE. dlia.
  - intros a Ha. assert (∀ A, p ∈ all_refs A ++ [p]) as HpE by (intros A; apply elem_of_app; right; left).
    rewrite Hout, (K3 p a), (K2 p a); [by apply H5|apply HpE|exact Ha|apply HpE|exact Ha|].
    eapply outside_page; [exact Hi4|apply HpE| |exact Ha]. unfold others. apply HpE.
  - intros v Hv. cbn [sp_L]. rewrite Hb by done. done.
Qed.

Lemma vm_reach_inv_witness : ∃ s sp sn p, user_writable (sp_L sp) 0 ∧ reach_inv demo_end s [(sp, 8192); (sn, 0)] [p].
Proof.
  destruct demo as (s & sp & sn & p & Hr & _ & Hw & _). exists s, sp, sn, p. split; [done|].
  exact (vm_reach_inv demo_end demo_range s _ _ Hr).
Defined.

(** Sixteen bytes of the kernel's page are copied to the process's address 0. *)
Lemma copyout_correct_witness : ∃ s sp sn p s' L', copyout demo_end (sp_root sp) 0 p 16 s = Ret (0, s') ∧
  vm_inv demo_end s' [Space (sp_root sp) (sp_T sp) L'; sn] [p] ∧ ∀ va, 0 <= va < 16 → uload (phys s') L' va = Some 5.
Proof.
  destruct demo as (s & sp & sn & p & _ & [Hi _] & Hw & Hc & _ & H5 & _). exists s, sp, sn, p.
  assert (∀ k : nat, (k < 16)%nat → in_page p (p + Z.of_nat k)) as Hin by (unfold in_page, PGSIZE; lia).
  destruct (copyout_correct demo_end demo_range s sp [sn] [p] 0 p (replicate 16 5) Hi) as [(_ & (k & _ & Hk) & _)|(r & s' & L' & n & E1 & Hi' & Hr & Hl & _)].
  - done.
  - intros k b Hk. apply lookup_replicate in Hk as [-> Hk]. by apply H5, Hin.
  - by apply Forall_replicate.
  - intros k Hk. assert (p ∈ others [sn] [p]) as Hp by (unfold others; apply elem_of_app; right; left).
    eapply outside_page; [exact Hi|by apply (others_refs sp)|exact Hp|by apply Hin].
  - by apply Hc in Hk.
  - destruct Hr as [[-> ->]|(_ & Hn & Hnw)].
    + exists s', L'. split_and!; [exact E1|exact Hi'|]. intros va Hva. rewrite Hl, decide_True by (cbn; lia). apply lookup_replicate_2. lia.
    + exfalso. apply Hnw. destruct Hw as (e & He & Hbits). exists e. split; [|exact Hbits]. rewrite <- He. f_equal. unfold vpn, PGSIZE. cbn in Hn. dlia.
Defined.

(** Its first page is read into the kernel's. *)
Lemma copyin_correct_witness : ∃ s sp sn p s', copyin demo_end (sp_root sp) p 0 4096 s = Ret (0, s') ∧ vm_inv demo_end s' [sp; sn] [p] ∧
  ∀ a, in_page p a → phys s' !! a = Some 0.
Proof.
  destruct demo as (s & sp & sn & p & _ & [Hi _] & Hw & Hc & Hl & _). exists s, sp, sn, p.
  destruct (copyin_correct demo_end demo_range s _ [p] sp p p 0 4096 Hi ltac:(left) ltac:(left)) as (r & s' & b & E1 & Hi' & W & Hb & _ & Hr);
    [done|lia|lia|unfold PGSIZE; lia|].
  exists s'. destruct Hr as [[-> Hlen]|(_ & Hlen & Hn)]; [|by rewrite Hl in Hn by lia]. split; [exact E1|]. split; [exact Hi'|].
  intros a Ha. unfold in_page, PGSIZE in Ha. rewrite W, decide_True by lia. destruct (b !! Z.to_nat (a - p)) as [x|] eqn:Hx.
  - pose proof (Hb _ _ Hx) as Hx'. apply lookup_lt_Some in Hx. by rewrite Hl in Hx' by lia.
  - apply lookup_ge_None in Hx. lia.
Defined.

(** The empty string at address 0. *)
Lemma copyinstr_correct_witness : ∃ s sp sn p s', copyinstr demo_end (sp_root sp) p 0 128 s = Ret (0, s') ∧ vm_inv demo_end s' [sp; sn] [p] ∧ phys s' !! p = Some 0.
Proof.
  destruct demo as (s & sp & sn & p & _ & [Hi _] & Hw & Hc & Hl & _). exists s, sp, sn, p.
  destruct (copyinstr_correct demo_end demo_range s _ [p] sp p p 0 128 Hi ltac:(left) ltac:(left)) as (r & s' & E1 & Hi' & _ & _ & Hr);
    [done|lia|unfold PGSIZE; lia|].
  exists s'. rewrite (ustring_nil _ 0 127) in Hr by (apply Hl; lia). destruct Hr as [-> Hb]. split; [exact E1|]. split; [exact Hi'|].
  specialize (Hb 0%nat 0 eq_refl). by rewrite Z.add_0_r in Hb.
Defined.

(** The process grows by a page. *)
Lemma uvmalloc_correct_witness : ∃ s sp sn p r s' T' L', uvmalloc demo_end (sp_root sp) 8192 12288 PTE_W s = Ret (r, s') ∧
  vm_inv demo_end s' [Space (sp_root sp) T' L'; sn] [p] ∧ uload (phys s') L' 0 = Some 0.
Proof.
  destruct demo as (s & sp & sn & p & _ & [Hi HP] & Hw & Hc & Hl & _). exists s, sp, sn, p.
  apply Forall_cons in HP as [Hs HP]. apply Forall_cons in HP as [Hn _].
  destruct (uvmalloc_correct demo_end demo_range s sp [sn] [p] 8192 12288 PTE_W Hi Hs user_perm_W) as (r & s' & T' & L' & E1 & Hi' & _ & _ & _ & Hr); [by vm_compute|].
  exists r, s', T', L'. split; [exact E1|]. split; [exact Hi'|]. destruct Hr as [(_ & _ & Hl' & _)|(_ & _ & _ & Hl')]; rewrite Hl'; [|apply Hl; lia].
  rewrite decide_False; [apply Hl; lia|]. intros [H _]. by vm_compute in H.
Defined.

(** It forks. *)
Lemma uvmcopy_correct_witness : ∃ s sp sn p r s' Lo Tn Ln, uvmcopy demo_end (sp_root sp) (sp_root sn) 8192 s = Ret (r, s') ∧
  vm_inv demo_end s' [Space (sp_root sp) (sp_T sp) Lo; Space (sp_root sn) Tn Ln] [p] ∧ uload (phys s') Lo 0 = Some 0.
Proof.
  destruct demo as (s & sp & sn & p & _ & [Hi HP] & Hw & Hc & Hl & _). exists s, sp, sn, p.
  apply Forall_cons in HP as [Hs HP]. apply Forall_cons in HP as [Hn _].
  destruct (uvmcopy_correct demo_end demo_range s sp sn [] [p] 8192 Hi Hs Hn) as (r & s' & Lo & Tn & Ln & E1 & Hi' & Hlo & _).
  exists r, s', Lo, Tn, Ln. split; [exact E1|]. split; [exact Hi'|]. rewrite Hlo. apply Hl. lia.
Defined.

(** The two-page process goes. *)
Lemma uvmfree_correct_witness : ∃ s sp sn p s', uvmfree demo_end (sp_root sp) 8192 s = Ret ((), s') ∧ vm_inv demo_end s' [sn] [p].
Proof.
  destruct demo as (s & sp & sn & p & _ & [Hi HP] & _ & _ & _ & _ & Hb). exists s, sp, sn, p. apply Forall_cons in HP as [Hs _].
  destruct (uvmfree_correct demo_end demo_range s sp [sn] [p] 8192 Hi Hs Hb) as (s' & E1 & Hi' & _). by exists s'.
Defined.
