(* ===== verification/Spinlock.v ===== *)
(** * Spin locks: [kernel/spinlock.c]

    The functions as the processor of one hart runs them ([acquire], [release],
    [holding], [push_off], [pop_off]), and a machine of several harts that runs
    them one access to shared memory at a time ([step]): any hart may move between
    two accesses of another. [spinlock_safe] is what the kernel relies on. *)
From S2P Require Import Prelude.

(** ** The functions *)

(** The name of a lock is not modelled; [lcpu] is the hart whose [struct cpu] the
    lock points to. The nesting depth [noff] stays far below the range of [int]. *)
Record spinlock := Spinlock { locked : bool; lcpu : option nat }.
Record cpu := Cpu { noff : Z; intena : bool; sie : bool }.
Record smp := Smp { locks : nat → spinlock; cpus : nat → cpu }.

Section hart.
Context (h : nat).
Abbreviation SM := (M smp).

Definition set_lock (lk : nat) (l : spinlock) : SM () := modify (λ s, Smp (<[lk := l]> (locks s)) (cpus s)).
Definition set_cpu (c : cpu) : SM () := modify (λ s, Smp (locks s) (<[h := c]> (cpus s))).
Definition get_lock (lk : nat) : SM spinlock := gets (λ s, locks s lk).
Definition mycpu : SM cpu := gets (λ s, cpus s h).

Definition intr_get : SM bool := c ← mycpu; mret (sie c).
Definition intr_off : SM () := c ← mycpu; set_cpu (Cpu (noff c) (intena c) false).
Definition intr_on : SM () := c ← mycpu; set_cpu (Cpu (noff c) (intena c) true).

Definition push_off : SM () :=
  old ← intr_get;
  intr_off ;;
  c ← mycpu;
  (if noff c =? 0 then set_cpu (Cpu (noff c) old (sie c)) else mret ()) ;;
  c ← mycpu; set_cpu (Cpu (noff c + 1) (intena c) (sie c)).
Definition pop_off : SM () :=
  i ← intr_get;
  if i : bool then panic "pop_off - interruptible" else
  c ← mycpu;
  if noff c <? 1 then panic "pop_off" else
  set_cpu (Cpu (noff c - 1) (intena c) (sie c)) ;;
  c ← mycpu;
  if (noff c =? 0) && intena c then intr_on else mret ().

Definition initlock (lk : nat) : SM () := set_lock lk (Spinlock false None).
Definition read_locked (lk : nat) : SM bool := l ← get_lock lk; mret (locked l).
Definition read_cpu (lk : nat) : SM (option nat) := l ← get_lock lk; mret (lcpu l).
Definition holding (lk : nat) : SM bool :=
  l ← read_locked lk;
  if l : bool then c ← read_cpu lk; mret (bool_decide (c = Some h)) else mret false.

(** The atomic swap, and the stores around it. *)
Definition test_and_set (lk : nat) : SM bool := l ← get_lock lk; set_lock lk (Spinlock true (lcpu l)) ;; mret (locked l).
Definition lock_release (lk : nat) : SM () := l ← get_lock lk; set_lock lk (Spinlock false (lcpu l)).
Definition write_cpu (lk : nat) (c : option nat) : SM () := l ← get_lock lk; set_lock lk (Spinlock (locked l) c).

(** Alone, a hart that finds the lock taken spins for ever. *)
Definition acquire (lk : nat) : SM () :=
  push_off ;;
  r ← holding lk;
  if r : bool then panic "acquire" else
  old ← test_and_set lk;
  if old : bool then would_block else
  write_cpu lk (Some h).
Definition release (lk : nat) : SM () :=
  r ← holding lk;
  if negb r then panic "release" else
  write_cpu lk None ;;
  lock_release lk ;;
  pop_off.
End hart.

(** ** Several harts *)

(** Where a hart is: in its own code ([Idle]), between the accesses of [acquire]
    or [release] (named by the access that comes next), or stopped by [panic]. *)
Inductive pc : Type :=
  | Idle
  | ALocked (lk : nat) | ACpu (lk : nat) | ASwap (lk : nat) | AOwn (lk : nat)
  | RLocked (lk : nat) | RCpu (lk : nat) | RDisown (lk : nat) | RUnlock (lk : nat) | RPop (lk : nat)
  | Stopped (msg : string) (lk : nat).

(** What the code of a hart does next: calls, or the next access of the call it
    is in. [DoIntr] is [intr_on] and [intr_off] outside all locks. *)
Inductive act : Type := DoAcquire (lk : nat) | DoRelease (lk : nat) | DoPush | DoPop | DoIntr (on : bool) | Go.

(** The state of the harts, with what the program may rely on kept beside it:
    the locks a hart acquired and whose release has not passed its check, its own [push_off]s,
    and whether interrupts were on when it had none of either. *)
Record mach := Mach { hw : smp; at_ : nat → pc; held : nat → list nat; pushed : nat → nat; was : nat → bool }.

Definition on_hw {A} (c : M smp A) (h : nat) (lk : nat) (m : mach) (k : A → mach → mach) : option mach :=
  match c (hw m) with
  | Ret (a, s) => Some (k a (Mach s (at_ m) (held m) (pushed m) (was m)))
  | Panic msg => Some (Mach (hw m) (<[h := Stopped msg lk]> (at_ m)) (held m) (pushed m) (was m))
  | _ => None
  end.
Definition goto (h : nat) (p : pc) (m : mach) : mach := Mach (hw m) (<[h := p]> (at_ m)) (held m) (pushed m) (was m).
Definition set_held (h : nat) (l : list nat) (m : mach) : mach := Mach (hw m) (at_ m) (<[h := l]> (held m)) (pushed m) (was m).
Definition set_pushed (h n : nat) (m : mach) : mach := Mach (hw m) (at_ m) (held m) (<[h := n]> (pushed m)) (was m).
Definition set_was (h : nat) (b : bool) (m : mach) : mach := Mach (hw m) (at_ m) (held m) (pushed m) (<[h := b]> (was m)).

Definition quiet (h : nat) (m : mach) : bool := bool_decide (held m h = []) && bool_decide (pushed m h = 0%nat).

Definition step (h : nat) (a : act) (m : mach) : option mach :=
  match at_ m h, a with
  | Idle, DoAcquire lk => on_hw (push_off h) h lk m (λ _, goto h (ALocked lk))
  | Idle, DoRelease lk => Some (goto h (RLocked lk) m)
  | Idle, DoPush => on_hw (push_off h) h 0 m (λ _ m', goto h Idle (set_pushed h (S (pushed m h)) m'))
  | Idle, DoPop => if pushed m h is S n then on_hw (pop_off h) h 0 m (λ _ m', goto h Idle (set_pushed h n m')) else None
  | Idle, DoIntr on => if quiet h m then on_hw (if on then intr_on h else intr_off h) h 0 m (λ _, set_was h on) else None
  | ALocked lk, Go => on_hw (read_locked lk) h lk m (λ l, goto h (if l : bool then ACpu lk else ASwap lk))
  | ACpu lk, Go => on_hw (c ← read_cpu lk; if bool_decide (c = Some h) then panic "acquire" else mret ()) h lk m (λ _, goto h (ASwap lk))
  | ASwap lk, Go => on_hw (test_and_set lk) h lk m (λ old, goto h (if old : bool then ASwap lk else AOwn lk))
  | AOwn lk, Go => on_hw (write_cpu lk (Some h)) h lk m (λ _ m, goto h Idle (set_held h (lk :: held m h) m))
  | RLocked lk, Go => on_hw (l ← read_locked lk; if l : bool then mret () else panic "release") h lk m (λ _, goto h (RCpu lk))
  | RCpu lk, Go => on_hw (c ← read_cpu lk; if bool_decide (c = Some h) then mret () else panic "release") h lk m
      (λ _ m, goto h (RDisown lk) (set_held h (list_difference (held m h) [lk]) m))
  | RDisown lk, Go => on_hw (write_cpu lk None) h lk m (λ _, goto h (RUnlock lk))
  | RUnlock lk, Go => on_hw (lock_release lk) h lk m (λ _, goto h (RPop lk))
  | RPop lk, Go => on_hw (pop_off h) h lk m (λ _, goto h Idle)
  | _, _ => None
  end.

(** All locks free, no hart in a call; interrupts on or off. *)
Definition start (w : nat → bool) : mach :=
  Mach (Smp (λ _, Spinlock false None) (λ h, Cpu 0 false (w h))) (λ _, Idle) (λ _, []) (λ _, 0%nat) w.
Inductive reach : mach → Prop :=
  | reach_start w : reach (start w)
  | reach_step h a m m' : reach m → step h a m = Some m' → reach m'.

(** ** The invariant *)

(** The lock whose word a hart has set without having it, or not any more. *)
Definition passing (p : pc) : option nat :=
  match p with AOwn lk | RDisown lk | RUnlock lk => Some lk | _ => None end.
(** A call that has disabled interrupts on its own account. *)
Definition busy (p : pc) : nat :=
  match p with ALocked _ | ACpu _ | ASwap _ | AOwn _ | RDisown _ | RUnlock _ | RPop _ => 1
  | Stopped msg _ => if String.eqb msg "acquire" then 1 else 0 | _ => 0 end.
Definition depth (p : pc) (hs : list nat) (n : nat) : nat := length hs + n + busy p.

(** What holds of a hart. *)
Record hart_ok (c : cpu) (p : pc) (hs : list nat) (n : nat) (w : bool) : Prop := {
  ho_noff : noff c = Z.of_nat (depth p hs n);
  ho_sie : sie c = bool_decide (depth p hs n = 0%nat) && w;
  ho_intena : depth p hs n ≠ 0%nat → intena c = w;
  ho_nodup : NoDup hs;
  ho_passing : ∀ lk, passing p = Some lk → lk ∉ hs;
  ho_stopped : ∀ msg lk, p = Stopped msg lk → msg = "acquire" ∧ lk ∈ hs ∨ msg = "release" ∧ lk ∉ hs;
}.
(** What holds of a lock, with its owner. *)
Record lock_ok (l : spinlock) (o : option nat) (lk : nat) (m : mach) : Prop := {
  lo_owner : ∀ h, o = Some h ↔ lk ∈ held m h ∨ passing (at_ m h) = Some lk;
  lo_locked : locked l = bool_decide (is_Some o);
  lo_cpu : ∀ h, lcpu l = Some h ↔ lk ∈ held m h ∨ at_ m h = RDisown lk;
}.
Record minv (m : mach) : Prop := {
  mi_hart : ∀ h, hart_ok (cpus (hw m) h) (at_ m h) (held m h) (pushed m h) (was m h);
  mi_lock : ∀ lk, ∃ o, lock_ok (locks (hw m) lk) o lk m;
}.

(** What a lock sees of a hart. *)
Definition has (m : mach) (h lk : nat) : Prop := lk ∈ held m h ∨ passing (at_ m h) = Some lk.
Definition shows (m : mach) (h lk : nat) : Prop := lk ∈ held m h ∨ at_ m h = RDisown lk.

(** A step of hart [h] that touches the word of lock [lk] only. *)
Definition others_same (h lk : nat) (m m' : mach) : Prop :=
  (∀ h', h' ≠ h → cpus (hw m') h' = cpus (hw m) h' ∧ at_ m' h' = at_ m h' ∧ held m' h' = held m h' ∧ pushed m' h' = pushed m h' ∧ was m' h' = was m h') ∧
  (∀ lk', lk' ≠ lk → locks (hw m') lk' = locks (hw m) lk') ∧
  (∀ lk', lk' ≠ lk → (has m' h lk' ↔ has m h lk') ∧ (shows m' h lk' ↔ shows m h lk')).

Lemma lock_same h lk m m' o :
  others_same h lk m m' → (has m' h lk ↔ has m h lk) → (shows m' h lk ↔ shows m h lk) → ∀ lk',
  locks (hw m') lk' = locks (hw m) lk' → lock_ok (locks (hw m) lk') o lk' m → lock_ok (locks (hw m') lk') o lk' m'.
Proof.
  intros (Hh & Hl & Hs) H1 H2 lk' -> [Ho Hk Hc]. assert (∀ h', (has m' h' lk' ↔ has m h' lk') ∧ (shows m' h' lk' ↔ shows m h' lk')) as Heq.
  { intros h'. destruct (decide (h' = h)) as [->|Hne].
    - destruct (decide (lk' = lk)) as [->|Hnl]; [done|by apply Hs].
    - unfold has, shows. by destruct (Hh h' Hne) as (_ & -> & -> & _). }
  constructor; [|done|]; intros h'; destruct (Heq h') as [E1 E2]; unfold has, shows in *; [by rewrite E1|by rewrite E2].
Qed.

(** The obligation of a step: for its hart, and for its lock unless that stays
    as it was. *)
Lemma minv_step h lk m m' :
  minv m → others_same h lk m m' → hart_ok (cpus (hw m') h) (at_ m' h) (held m' h) (pushed m' h) (was m' h) →
  (∃ o, lock_ok (locks (hw m') lk) o lk m') → minv m'.
Proof.
  intros [Ih Il] Ho Hh Hlk. constructor.
  - intros h'. destruct (decide (h' = h)) as [->|Hne]; [done|]. destruct Ho as [Ho _]. by destruct (Ho h' Hne) as (-> & -> & -> & -> & ->).
  - intros lk'. destruct (decide (lk' = lk)) as [->|Hne]; [done|]. destruct (Il lk') as [o Hok]. exists o. destruct Ho as (Ho & Hl & Hs).
    specialize (Hl lk' Hne). destruct (Hs lk' Hne) as [S1 S2]. rewrite Hl. destruct Hok as [O1 O2 O3].
    constructor; [|done|]; intros h'; (destruct (decide (h' = h)) as [->|Hnh]; [unfold has, shows in *|destruct (Ho h' Hnh) as (_ & -> & -> & _)]).
    + by rewrite O1, S1.
    + apply O1.
    + by rewrite O3, S2.
    + apply O3.
Qed.
Lemma minv_keep h lk m m' :
  minv m → others_same h lk m m' → (has m' h lk ↔ has m h lk) → (shows m' h lk ↔ shows m h lk) → locks (hw m') lk = locks (hw m) lk →
  hart_ok (cpus (hw m') h) (at_ m' h) (held m' h) (pushed m' h) (was m' h) → minv m'.
Proof.
  intros Hm Ho H1 H2 Hl Hh. eapply minv_step; [done|exact Ho|done|]. destruct (mi_lock _ Hm lk) as [o Hok]. exists o.
  by eapply lock_same.
Qed.

(** [s'] differs from [s] in the cpu of [h] only, which is [c]. *)
Definition cpu_to (h : nat) (c : cpu) (s s' : smp) : Prop := locks s' = locks s ∧ cpus s' h = c ∧ ∀ h', h' ≠ h → cpus s' h' = cpus s h'.
Ltac fn_cases := repeat (rewrite fn_lookup_insert || rewrite fn_lookup_insert_ne by done).

Lemma push_off_run h s : let c := cpus s h in
  ∃ s', push_off h s = Ret ((), s') ∧ cpu_to h (Cpu (noff c + 1) (if noff c =? 0 then sie c else intena c) false) s s'.
Proof.
  intros c. unfold push_off, intr_get, intr_off, mycpu, set_cpu, gets, modify, mbind, M_bind, mret, M_ret. cbn. fn_cases. cbn. fold c.
  destruct (Z.eqb_spec (noff c) 0) as [E|E]; cbn; fn_cases; cbn; eexists; (split; [reflexivity|]); split_and!; cbn; try intros h' Hne; fn_cases; done.
Qed.

Lemma pop_off_run h s : let c := cpus s h in sie c = false → 1 <= noff c →
  ∃ s', pop_off h s = Ret ((), s') ∧ cpu_to h (Cpu (noff c - 1) (intena c) ((noff c =? 1) && intena c)) s s'.
Proof.
  intros c Hs Hn. unfold pop_off, intr_get, intr_on, mycpu, set_cpu, gets, modify, mbind, M_bind, mret, M_ret. cbn. subst c. rewrite Hs.
  destruct (Z.ltb_spec (noff (cpus s h)) 1); [lia|]. cbn. fn_cases. cbn. replace (noff (cpus s h) - 1 =? 0) with (noff (cpus s h) =? 1) by lia.
  destruct ((noff (cpus s h) =? 1) && intena (cpus s h)) eqn:E; cbn; fn_cases; cbn; eexists; (split; [reflexivity|]); split_and!; cbn; try intros h' Hne; fn_cases; rewrite ?Hs; done.
Qed.

(** Counting after a call of [push_off] or [pop_off]. *)
Lemma hart_push c p hs n w p' n' : hart_ok c p hs n w → depth p' hs n' = S (depth p hs n) → passing p' = None → (∀ msg lk, p' ≠ Stopped msg lk) →
  hart_ok (Cpu (noff c + 1) (if noff c =? 0 then sie c else intena c) false) p' hs n' w.
Proof.
  intros [H1 H2 H3 H4 _ _] Hd Hp Hs. constructor; cbn; rewrite ?Hd; [lia|done| |done|congruence|intros ? ? ->; by destruct (Hs msg lk)].
  intros _. rewrite H1. destruct (Z.eqb_spec (Z.of_nat (depth p hs n)) 0) as [E|E]; [|apply H3; lia]. rewrite H2. by rewrite bool_decide_true by lia.
Qed.
Lemma hart_pop c p hs n w p' n' : hart_ok c p hs n w → depth p hs n = S (depth p' hs n') → passing p' = None → (∀ msg lk, p' ≠ Stopped msg lk) →
  hart_ok (Cpu (noff c - 1) (intena c) ((noff c =? 1) && intena c)) p' hs n' w.
Proof.
  intros [H1 H2 H3 H4 _ _] Hd Hp Hs. rewrite Hd in *. specialize (H3 ltac:(done)). constructor; cbn; [lia| |done|done|congruence|intros ? ? ->; by destruct (Hs msg lk)].
  rewrite H1, H3. f_equal. destruct (Z.eqb_spec (Z.of_nat (S (depth p' hs n'))) 1); [rewrite bool_decide_true by lia|rewrite bool_decide_false by lia]; done.
Qed.
Lemma hart_goto c p hs n w p' hs' : hart_ok c p hs n w → depth p' hs' n = depth p hs n → NoDup hs' → (∀ lk, passing p' = Some lk → lk ∉ hs') →
  (∀ msg lk, p' = Stopped msg lk → msg = "acquire" ∧ lk ∈ hs' ∨ msg = "release" ∧ lk ∉ hs') → hart_ok c p' hs' n w.
Proof. intros [H1 H2 H3 H4 _ _] Hd Hn Hp Hs. by constructor; rewrite ?Hd. Qed.

(** ** Every step keeps the invariant *)

Ltac either := split_and?; (split; intros [?|Hx]; [by left| |by left|];
  first [by right|discriminate|match goal with H : ∀ _, _ ≠ RDisown _ |- _ => by destruct (H _ Hx) end]).
Ltac same_others :=
  split_and!; [intros h' Hne|intros lk' Hnl|intros lk' Hnl]; cbn; fn_cases; unfold has, shows in *; cbn; fn_cases;
  try match goal with H : at_ _ _ = _ |- _ => rewrite ?H end; cbn; try done.

Lemma step_push h m p' pd' s' :
  minv m → (∀ h', h' ≠ h → pd' h' = pushed m h') → at_ m h = Idle → cpu_to h (Cpu (noff (cpus (hw m) h) + 1) (if noff (cpus (hw m) h) =? 0 then sie (cpus (hw m) h) else intena (cpus (hw m) h)) false) (hw m) s' →
  passing p' = None → (∀ lk', p' ≠ RDisown lk') → (∀ msg lk', p' ≠ Stopped msg lk') →
  depth p' (held m h) (pd' h) = S (depth Idle (held m h) (pushed m h)) →
  minv (Mach s' (<[h := p']> (at_ m)) (held m) pd' (was m)).
Proof.
  intros Hm Hpd Hat (Hl & Hc & Ho) P1 P2 P3 Hd. pose proof (mi_hart _ Hm h) as Hh. rewrite Hat in Hh.
  apply (minv_keep h 0 m); [done| | | |cbn; by rewrite Hl|cbn; fn_cases].
  - same_others; rewrite ?Hl, ?Ho, ?Hpd, ?P1 by done; try done; either.
  - unfold has. cbn. fn_cases. by rewrite Hat, P1.
  - unfold shows. cbn. fn_cases. rewrite Hat. either.
  - rewrite Hc. by eapply hart_push.
Qed.

Lemma step_pop h m pd' s' :
  minv m → (∀ h', h' ≠ h → pd' h' = pushed m h') → passing (at_ m h) = None → (∀ lk', at_ m h ≠ RDisown lk') →
  cpu_to h (Cpu (noff (cpus (hw m) h) - 1) (intena (cpus (hw m) h)) ((noff (cpus (hw m) h) =? 1) && intena (cpus (hw m) h))) (hw m) s' →
  depth (at_ m h) (held m h) (pushed m h) = S (depth Idle (held m h) (pd' h)) →
  minv (Mach s' (<[h := Idle]> (at_ m)) (held m) pd' (was m)).
Proof.
  intros Hm Hpd P1 P2 (Hl & Hc & Ho) Hd. pose proof (mi_hart _ Hm h) as Hh.
  apply (minv_keep h 0 m); [done| | | |cbn; by rewrite Hl|cbn; fn_cases].
  - same_others; rewrite ?Hl, ?Ho, ?Hpd, ?P1 by done; try done; either.
  - unfold has. cbn. fn_cases. by rewrite P1.
  - unfold shows. cbn. fn_cases. either.
  - rewrite Hc. by eapply hart_pop.
Qed.

(** A step that only looks, and goes on or stops. *)
Lemma step_look h m p' :
  minv m → passing (at_ m h) = None → passing p' = None → (∀ lk', at_ m h ≠ RDisown lk') → busy p' = busy (at_ m h) →
  (∀ msg lk', p' = Stopped msg lk' → msg = "acquire" ∧ lk' ∈ held m h ∨ msg = "release" ∧ lk' ∉ held m h) →
  minv (goto h p' m).
Proof.
  intros Hm H1 H2 H3 H4 H5. pose proof (mi_hart _ Hm h) as Hh. assert (∀ lk', p' ≠ RDisown lk') as H6 by (by intros lk' ->).
  apply (minv_keep h 0 m); [done| | | |done|cbn; fn_cases].
  - same_others; rewrite ?H1, ?H2; try done; either.
  - unfold has. cbn. fn_cases. by rewrite H1, H2.
  - unfold shows. cbn. fn_cases. either.
  - eapply hart_goto; [exact Hh|by unfold depth; rewrite H4|apply Hh|by rewrite H2|done].
Qed.

(** A step that writes the word of the lock the hart is at. *)
Lemma step_write h lk m l p' hd' :
  minv m → (∀ h', h' ≠ h → hd' h' = held m h') → (busy p' + length (hd' h) = busy (at_ m h) + length (held m h))%nat → NoDup (hd' h) → (∀ lk', lk' ≠ lk → lk' ∈ hd' h ↔ lk' ∈ held m h) →
  (∀ lk', lk' ≠ lk → passing p' ≠ Some lk' ∧ passing (at_ m h) ≠ Some lk') → (passing p' = Some lk → lk ∉ hd' h) →
  (∀ msg lk', p' ≠ Stopped msg lk') →
  (∃ o, lock_ok l o lk (Mach (Smp (<[lk := l]> (locks (hw m))) (cpus (hw m))) (<[h := p']> (at_ m)) hd' (pushed m) (was m))) →
  minv (Mach (Smp (<[lk := l]> (locks (hw m))) (cpus (hw m))) (<[h := p']> (at_ m)) hd' (pushed m) (was m)).
Proof.
  intros Hm Hhd Hd Hn Hs Hp Hpl Hst Hl. pose proof (mi_hart _ Hm h) as Hh.
  apply (minv_step h lk m); [done| | |cbn; by fn_cases].
  - split_and!; [intros h' Hne|intros lk' Hnl|intros lk' Hnl]; cbn; fn_cases; [split_and!; (done || by apply Hhd)|done|]. destruct (Hp lk' Hnl) as [P1 P2].
    assert (∀ p, passing p ≠ Some lk' → p ≠ RDisown lk') as Hx by (intros p Hpp ->; by apply Hpp). pose proof (Hx _ P1). pose proof (Hx _ P2).
    unfold has, shows. cbn. fn_cases. rewrite Hs by done. tauto.
  - cbn. fn_cases. eapply hart_goto; [exact Hh|unfold depth; lia|done| |intros msg lk' Heq; by destruct (Hst msg lk')].
    intros lk' Hpass. destruct (decide (lk' = lk)) as [->|Hne]; [by apply Hpl|]. by destruct (Hp lk' Hne).
Qed.

(** What a lock sees of the other harts stays. *)
Lemma lock_change h lk m l p' hd' o o' : let m' := Mach (Smp (<[lk := l]> (locks (hw m))) (cpus (hw m))) (<[h := p']> (at_ m)) hd' (pushed m) (was m) in
  lock_ok (locks (hw m) lk) o lk m → (∀ h', h' ≠ h → hd' h' = held m h') → (∀ h', h' ≠ h → o = Some h' ↔ o' = Some h') → (o' = Some h ↔ lk ∈ hd' h ∨ passing p' = Some lk) →
  locked l = bool_decide (is_Some o') → (∀ h', h' ≠ h → lcpu l = Some h' ↔ lcpu (locks (hw m) lk) = Some h') → (lcpu l = Some h ↔ lk ∈ hd' h ∨ p' = RDisown lk) →
  lock_ok l o' lk m'.
Proof.
  intros m' [O1 O2 O3] Hhd H1 H2 H3 H4 H5. subst m'. constructor; [|done|]; intros h'; cbn; (destruct (decide (h' = h)) as [->|Hne]; fn_cases; [done|rewrite ?Hhd by done]).
  - rewrite <- H1 by done. apply O1.
  - rewrite H4 by done. apply O3.
Qed.


Lemma on_hw_cases {A} (c : M smp A) h lk m k m' : on_hw c h lk m k = Some m' →
  (∃ a s, c (hw m) = Ret (a, s) ∧ m' = k a (Mach s (at_ m) (held m) (pushed m) (was m))) ∨
  ∃ msg, c (hw m) = Panic msg ∧ m' = goto h (Stopped msg lk) m.
Proof. unfold on_hw. destruct (c (hw m)) as [[a s]|msg| | |]; intros [= <-]; eauto. Qed.

Lemma minv_start w : minv (start w).
Proof.
  constructor; [intros h; constructor; cbn; try done; constructor|].
  intros lk. exists None. constructor; cbn; [|done|]; intros h; (split; [done|]); by intros [?%elem_of_nil|?].
Qed.

(** The step of each access. *)
Lemma go_push h lk m p' pd' m' k :
  minv m → at_ m h = Idle → on_hw (push_off h) h lk m k = Some m' → (∀ s, k () (Mach s (at_ m) (held m) (pushed m) (was m)) = Mach s (<[h := p']> (at_ m)) (held m) pd' (was m)) →
  (∀ h', h' ≠ h → pd' h' = pushed m h') → passing p' = None → (∀ lk', p' ≠ RDisown lk') → (∀ msg lk', p' ≠ Stopped msg lk') →
  depth p' (held m h) (pd' h) = S (depth Idle (held m h) (pushed m h)) → minv m'.
Proof.
  intros Hm Hat Hs Hk Hpd P1 P2 P3 Hd. destruct (push_off_run h (hw m)) as (s' & E & Hc). unfold on_hw in Hs. rewrite E in Hs. injection Hs as <-.
  rewrite Hk. by apply step_push.
Qed.
Lemma go_pop h lk m pd' m' k :
  minv m → passing (at_ m h) = None → (∀ lk', at_ m h ≠ RDisown lk') → on_hw (pop_off h) h lk m k = Some m' →
  (∀ s, k () (Mach s (at_ m) (held m) (pushed m) (was m)) = Mach s (<[h := Idle]> (at_ m)) (held m) pd' (was m)) →
  (∀ h', h' ≠ h → pd' h' = pushed m h') → depth (at_ m h) (held m h) (pushed m h) = S (depth Idle (held m h) (pd' h)) → minv m'.
Proof.
  intros Hm P1 P2 Hs Hk Hpd Hd. pose proof (mi_hart _ Hm h) as [H1 H2 _ _ _ _]. rewrite Hd in *.
  destruct (pop_off_run h (hw m)) as (s' & E & Hc); [rewrite H2; done|lia|]. unfold on_hw in Hs. rewrite E in Hs. injection Hs as <-.
  rewrite Hk. by apply step_pop.
Qed.
Lemma go_swap h lk m m' : minv m → at_ m h = ASwap lk → step h Go m = Some m' → minv m'.
Proof.
  intros Hm Hat. destruct (mi_lock _ Hm lk) as [o Hl]. pose proof Hl as [O1 O2 O3]. unfold step, on_hw. rewrite Hat. cbn. intros [= <-].
  pose proof (mi_hart _ Hm h) as Hh. rewrite Hat in *.
  unfold goto, set_held; cbn [hw at_ held pushed was]. apply (step_write h lk m); try done; rewrite ?Hat; try (by destruct (locked _)); try apply (ho_nodup _ _ _ _ _ Hh).
  - intros lk' Hne. destruct (locked _); cbn; split; congruence.
  - destruct (locked (locks (hw m) lk)) eqn:El; cbn; [done|]. intros _ Hlk. assert (o = Some h) as -> by (apply O1; by left). done.
  - destruct (locked (locks (hw m) lk)) eqn:El.
    + exists o. apply (lock_change h lk m _ _ _ o o); try done; [rewrite O1, Hat|rewrite O3, Hat]; clear; intuition congruence.
    + destruct o as [h'|]; [done|]. exists (Some h). apply (lock_change h lk m _ _ _ None (Some h)); try done.
      * intros h' Hne. split; congruence.
      * split; [by right|done].
      * cbn. rewrite O3, Hat. clear; intuition congruence.
Qed.
Lemma go_own h lk m m' : minv m → at_ m h = AOwn lk → step h Go m = Some m' → minv m'.
Proof.
  intros Hm Hat. destruct (mi_lock _ Hm lk) as [o Hl]. pose proof Hl as [O1 O2 O3]. unfold step, on_hw. rewrite Hat. cbn. intros [= <-].
  pose proof (mi_hart _ Hm h) as Hh. rewrite Hat in *. pose proof (ho_passing _ _ _ _ _ Hh lk eq_refl) as Hn.
  assert (o = Some h) as -> by (apply O1; right; by rewrite Hat).
  unfold goto, set_held; cbn [hw at_ held pushed was]. apply (step_write h lk m); try done; rewrite ?Hat.
  - intros h' Hne. by fn_cases.
  - fn_cases. cbn. lia.
  - fn_cases. constructor; [done|apply Hh].
  - intros lk' Hne. fn_cases. rewrite elem_of_cons. clear -Hne; intuition congruence.
  - intros lk' Hne. cbn. split; congruence.
  - exists (Some h). apply (lock_change h lk m _ _ _ (Some h) (Some h)); try done; fn_cases; try (split; [intros _; left; left|done]).
    + intros h' Hne. by fn_cases.
    + intros h' Hne. cbn. rewrite O3. split; [congruence|]. intros Hx. apply O3 in Hx as Hx'. exfalso. assert (Some h = Some h') as [= ->]; [|done].
      apply O1. destruct Hx as [?|E]; [by left|right; by rewrite E].
Qed.
Lemma go_disown h lk m m' : minv m → at_ m h = RDisown lk → step h Go m = Some m' → minv m'.
Proof.
  intros Hm Hat. destruct (mi_lock _ Hm lk) as [o Hl]. pose proof Hl as [O1 O2 O3]. unfold step, on_hw. rewrite Hat. cbn. intros [= <-].
  pose proof (mi_hart _ Hm h) as Hh. rewrite Hat in *. pose proof (ho_passing _ _ _ _ _ Hh lk eq_refl) as Hn.
  assert (o = Some h) as -> by (apply O1; right; by rewrite Hat).
  unfold goto, set_held; cbn [hw at_ held pushed was]. apply (step_write h lk m); try done; rewrite ?Hat; try done; try apply (ho_nodup _ _ _ _ _ Hh).
  - intros lk' Hne. cbn. split; congruence.
  - exists (Some h). apply (lock_change h lk m _ _ _ (Some h) (Some h)); try done.
    + split; [by right|done].
    + intros h' Hne. cbn. split; [done|]. intros Hx%O3. exfalso. assert (Some h = Some h') as [= ->]; [|done].
      apply O1. destruct Hx as [?|E]; [by left|right; by rewrite E].
    + cbn. split; [done|]. by intros [?|?].
Qed.
Lemma go_unlock h lk m m' : minv m → at_ m h = RUnlock lk → step h Go m = Some m' → minv m'.
Proof.
  intros Hm Hat. destruct (mi_lock _ Hm lk) as [o Hl]. pose proof Hl as [O1 O2 O3]. unfold step, on_hw. rewrite Hat. cbn. intros [= <-].
  pose proof (mi_hart _ Hm h) as Hh. rewrite Hat in *. pose proof (ho_passing _ _ _ _ _ Hh lk eq_refl) as Hn.
  assert (o = Some h) as -> by (apply O1; right; by rewrite Hat).
  unfold goto, set_held; cbn [hw at_ held pushed was]. apply (step_write h lk m); try done; rewrite ?Hat; try done; try apply (ho_nodup _ _ _ _ _ Hh).
  - intros lk' Hne. cbn. split; congruence.
  - exists None. apply (lock_change h lk m _ _ _ (Some h) None); try done.
    + intros h' Hne. split; congruence.
    + split; [done|]. by intros [?|?].
    + cbn. rewrite O3, Hat. clear; intuition congruence.
Qed.

(** The accesses that only look. *)
Lemma mach_eta m : Mach (hw m) (at_ m) (held m) (pushed m) (was m) = m.
Proof. by destruct m. Qed.
Lemma go_look h lk m m' : minv m → (at_ m h = ALocked lk ∨ at_ m h = ACpu lk ∨ at_ m h = RLocked lk) → step h Go m = Some m' → minv m'.
Proof.
  intros Hm Hat Hs. destruct (mi_lock _ Hm lk) as [o [O1 O2 O3]].
  assert (∃ p', m' = goto h p' m ∧ passing p' = None ∧ busy p' = busy (at_ m h) ∧
    ∀ msg lk', p' = Stopped msg lk' → msg = "acquire" ∧ lk' ∈ held m h ∨ msg = "release" ∧ lk' ∉ held m h) as (p' & -> & P1 & P2 & P3).
  { unfold step, on_hw in Hs. destruct Hat as [Hat|[Hat|Hat]]; rewrite Hat in *.
    - cbn in Hs. injection Hs as <-. rewrite mach_eta. eexists. split; [done|]. by destruct (locked _).
    - rewrite (bind_Ret (read_cpu lk) _ (hw m) (lcpu (locks (hw m) lk)) (hw m)) in Hs by done.
      destruct (bool_decide_reflect (lcpu (locks (hw m) lk) = Some h)) as [Hc|Hc]; cbn in Hs; injection Hs as <-; rewrite ?mach_eta; eexists; (split; [done|]); [|by split_and!].
      split; [done|]. split; [done|]. intros msg lk' [= <- <-]. left. apply O3 in Hc as [?|?]; [done|congruence].
    - rewrite (bind_Ret (read_locked lk) _ (hw m) (locked (locks (hw m) lk)) (hw m)) in Hs by done.
      destruct (locked (locks (hw m) lk)) eqn:El; cbn in Hs; injection Hs as <-; rewrite ?mach_eta; eexists; (split; [done|]); [by split_and!|].
      split; [done|]. split; [done|]. intros msg lk' [= <- <-]. right. split; [done|]. intros Hlk. assert (o = Some h) as -> by (apply O1; by left). done. }
  apply step_look; try done; destruct Hat as [->|[->| ->]]; done.
Qed.
Lemma go_check h lk m m' : minv m → at_ m h = RCpu lk → step h Go m = Some m' → minv m'.
Proof.
  intros Hm Hat Hs. destruct (mi_lock _ Hm lk) as [o Hl]. pose proof Hl as [O1 O2 O3]. pose proof (mi_hart _ Hm h) as Hh. unfold step, on_hw in Hs. rewrite Hat in *.
  rewrite (bind_Ret (read_cpu lk) _ (hw m) (lcpu (locks (hw m) lk)) (hw m)) in Hs by done.
  destruct (bool_decide_reflect (lcpu (locks (hw m) lk) = Some h)) as [Hc|Hc]; cbn in Hs; injection Hs as <-; rewrite ?mach_eta.
  2: { apply step_look; rewrite ?Hat; try done. intros msg lk' [= <- <-]. right. split; [done|]. intros Hlk. apply Hc, O3. by left. }
  assert (lk ∈ held m h) as Hlk by (apply O3 in Hc as [?|?]; [done|congruence]). pose proof (ho_nodup _ _ _ _ _ Hh) as Hnd.
  assert (∀ lk', lk' ∈ list_difference (held m h) [lk] ↔ lk' ∈ held m h ∧ lk' ≠ lk) as Hin by (intros lk'; by rewrite list_elem_of_difference, list_elem_of_singleton).
  assert (length (held m h) = S (length (list_difference (held m h) [lk]))) as Hlen.
  { rewrite <- (length_cons lk). apply Permutation_length, NoDup_Permutation; [done| |].
    - constructor; [rewrite Hin; tauto|by apply NoDup_list_difference].
    - intros lk'. rewrite elem_of_cons, Hin. destruct (decide (lk' = lk)) as [->|?]; tauto. }
  apply (minv_keep h lk m); unfold goto, set_held; cbn [hw at_ held pushed was]; [done| | | |done|fn_cases].
  - split_and!; [intros h' Hne|intros lk' Hnl|intros lk' Hnl]; cbn; fn_cases; [done..|]. unfold has, shows. cbn. fn_cases. rewrite Hin, Hat. cbn.
    clear -Hnl; intuition congruence.
  - unfold has. cbn. fn_cases. rewrite Hin. intuition congruence.
  - unfold shows. cbn. fn_cases. rewrite Hin. intuition congruence.
  - eapply hart_goto; [exact Hh|unfold depth; cbn; lia|by apply NoDup_list_difference| |done]. intros lk' [= <-]. rewrite Hin. tauto.
Qed.

Lemma go_intr h on m : minv m → at_ m h = Idle → quiet h m = true → ∀ s, cpu_to h (Cpu (noff (cpus (hw m) h)) (intena (cpus (hw m) h)) on) (hw m) s →
  minv (Mach s (at_ m) (held m) (pushed m) (<[h := on]> (was m))).
Proof.
  intros Hm Hat [H1%bool_decide_eq_true H2%bool_decide_eq_true]%andb_true_iff s (Hl & Hc & Ho). pose proof (mi_hart _ Hm h) as [A1 A2 A3 A4 A5 A6].
  apply (minv_keep h 0 m); try done; [|cbn; by rewrite Hl|].
  - split_and!; [intros h' Hne|intros lk' Hnl|done]; cbn; fn_cases; rewrite ?Hl, ?Ho by done; done.
  - cbn. rewrite Hc. fn_cases. rewrite Hat, H1, H2 in *. constructor; cbn in *; done.
Qed.

(** The machine keeps the invariant. *)
Lemma minv_reach m : reach m → minv m.
Proof.
  induction 1 as [w|h a m m' _ Hm Hs]; [apply minv_start|].
  destruct (at_ m h) as [|lk|lk|lk|lk|lk|lk|lk|lk|lk|msg lk] eqn:Hat; destruct a as [lk'|lk'| | |on|];
    try (by unfold step in Hs; rewrite Hat in Hs).
  - unfold step in Hs. rewrite Hat in Hs. eapply (go_push h lk' m (ALocked lk') (pushed m)); try done. unfold depth. cbn. lia.
  - unfold step in Hs. rewrite Hat in Hs. injection Hs as <-. apply step_look; by rewrite ?Hat.
  - unfold step in Hs. rewrite Hat in Hs. eapply (go_push h 0 m Idle (<[h := S (pushed m h)]> (pushed m))); try done.
    + intros h' Hne. by fn_cases.
    + fn_cases. unfold depth. cbn. lia.
  - unfold step in Hs. rewrite Hat in Hs. destruct (pushed m h) as [|n] eqn:Hn; [done|].
    eapply (go_pop h 0 m (<[h := n]> (pushed m))); rewrite ?Hat; try done.
    + intros h' Hne. by fn_cases.
    + fn_cases. unfold depth. cbn. lia.
  - unfold step in Hs. rewrite Hat in Hs. destruct (quiet h m) eqn:Hq; [|done]. destruct on; cbn in Hs; injection Hs as <-; apply (go_intr h _ m); try done;
      (split; [done|]); (split; [cbn; by fn_cases|intros h' Hne; cbn; by fn_cases]).
  - by eapply go_look; [|left|].
  - by eapply go_look; [|right; left|].
  - by eapply go_swap.
  - by eapply go_own.
  - by eapply go_look; [|right; right|].
  - by eapply go_check.
  - by eapply go_disown.
  - by eapply go_unlock.
  - unfold step in Hs. rewrite Hat in Hs. eapply (go_pop h lk m (pushed m)); rewrite ?Hat; try done. unfold depth. cbn. lia.
Qed.

(** C15: However the harts' accesses to a lock interleave, at most one hart has it;
    a hart runs with interrupts off while it has a lock, and with interrupts as
    they were when it has none and undid its [push_off]s; and [acquire] and
    [release] panic only for a hart that has the lock already, or has it not. *)
Theorem spinlock_safe m : reach m →
  (∀ lk h h', lk ∈ held m h → lk ∈ held m h' → h = h') ∧
  (∀ h lk, lk ∈ held m h → sie (cpus (hw m) h) = false) ∧
  (∀ h, at_ m h = Idle → held m h = [] → pushed m h = 0%nat → sie (cpus (hw m) h) = was m h ∧ noff (cpus (hw m) h) = 0) ∧
  ∀ h msg lk, at_ m h = Stopped msg lk → msg = "acquire" ∧ lk ∈ held m h ∨ msg = "release" ∧ lk ∉ held m h.
Proof.
  intros [Ih Il]%minv_reach. split_and!.
  - intros lk h h' H1 H2. destruct (Il lk) as [o [O1 _ _]]. assert (o = Some h) as -> by (apply O1; by left). assert (Some h = Some h') as [=] by (apply O1; by left). done.
  - intros h lk Hlk. rewrite (ho_sie _ _ _ _ _ (Ih h)). unfold depth. destruct (held m h) as [|lk' l]; [by apply elem_of_nil in Hlk|]. by rewrite bool_decide_false by (cbn; lia).
  - intros h H1 H2 H3. destruct (Ih h) as [A1 A2 _ _ _ _]. rewrite H1, H2, H3 in *. rewrite A1, A2. done.
  - intros h msg lk Hs. by apply (ho_stopped _ _ _ _ _ (Ih h)).
Qed.

(** ** Calls in one go *)

(** A sequence of steps, by hart. *)
Fixpoint exec (l : list (nat * act)) (m : mach) : option mach :=
  match l with
  | [] => Some m
  | (h, a) :: l => match step h a m with Some m' => exec l m' | None => None end
  end.
Lemma reach_exec l : ∀ m m', reach m → exec l m = Some m' → reach m'.
Proof.
  induction l as [|[h a] l IH]; intros m m' Hr; cbn [exec]; [by intros [= <-]|]. destruct (step h a m) as [m1|] eqn:E; [|done].
  intros He. eapply IH; [|exact He]. by eapply reach_step.
Qed.

Lemma exec_cons h a l m m' : step h a m = Some m' → exec ((h, a) :: l) m = exec l m'.
Proof. cbn [exec]. by intros ->. Qed.

Lemma read_locked_run lk s : read_locked lk s = Ret (locked (locks s lk), s).
Proof. done. Qed.
Lemma read_cpu_run lk s : read_cpu lk s = Ret (lcpu (locks s lk), s).
Proof. done. Qed.
Lemma holding_run h lk s : holding h lk s = Ret (locked (locks s lk) && bool_decide (lcpu (locks s lk) = Some h), s).
Proof. unfold holding. rewrite (bind_Ret _ _ _ _ _ (read_locked_run lk s)). by destruct (locked (locks s lk)). Qed.
Lemma write_cpu_run lk c s : write_cpu lk c s = Ret ((), Smp (<[lk := Spinlock (locked (locks s lk)) c]> (locks s)) (cpus s)).
Proof. done. Qed.
Lemma lock_release_run lk s : lock_release lk s = Ret ((), Smp (<[lk := Spinlock false (lcpu (locks s lk))]> (locks s)) (cpus s)).
Proof. done. Qed.
Lemma test_and_set_run lk s :
  test_and_set lk s = Ret (locked (locks s lk), Smp (<[lk := Spinlock true (lcpu (locks s lk))]> (locks s)) (cpus s)).
Proof. done. Qed.

(** The steps with the lock free, and with the lock of the hart. *)
Lemma step_free h lk m : locked (locks (hw m) lk) = false →
  (at_ m h = ALocked lk → step h Go m = Some (goto h (ASwap lk) m)) ∧
  (at_ m h = ASwap lk → ∃ s, step h Go m = Some (goto h (AOwn lk) (Mach s (at_ m) (held m) (pushed m) (was m))) ∧ test_and_set lk (hw m) = Ret (false, s)).
Proof.
  intros Hl. split; intros Hat; unfold step, on_hw; rewrite Hat.
  - rewrite (read_locked_run lk (hw m)), Hl. cbn. by rewrite mach_eta.
  - rewrite (test_and_set_run lk (hw m)), Hl. by eexists.
Qed.
Lemma step_mine h lk m : locks (hw m) lk = Spinlock true (Some h) →
  (at_ m h = RLocked lk → step h Go m = Some (goto h (RCpu lk) m)) ∧
  (at_ m h = RCpu lk → step h Go m = Some (goto h (RDisown lk) (set_held h (list_difference (held m h) [lk]) m))).
Proof.
  intros Hl. split; intros Hat; unfold step; rewrite Hat; unfold on_hw.
  - rewrite (bind_Ret (read_locked lk) _ (hw m) true (hw m)) by (by rewrite read_locked_run, Hl). cbn. by rewrite mach_eta.
  - rewrite (bind_Ret (read_cpu lk) _ (hw m) (Some h) (hw m)) by (by rewrite read_cpu_run, Hl). rewrite bool_decide_true by done. cbn. by rewrite mach_eta.
Qed.

(** Uninterrupted, the accesses of [acquire] on a free lock and those of
    [release] on a lock the hart has are the functions: the call returns in the
    state the function yields, with the lock acquired or given up. *)
Theorem lock_calls m h lk : reach m → at_ m h = Idle →
  (locked (locks (hw m) lk) = false → ∃ m', exec [(h, DoAcquire lk); (h, Go); (h, Go); (h, Go)] m = Some m' ∧
     acquire h lk (hw m) = Ret ((), hw m') ∧ at_ m' h = Idle ∧ held m' h = lk :: held m h) ∧
  (lk ∈ held m h → ∃ m', exec [(h, DoRelease lk); (h, Go); (h, Go); (h, Go); (h, Go); (h, Go)] m = Some m' ∧
     release h lk (hw m) = Ret ((), hw m') ∧ at_ m' h = Idle ∧ (lk ∉ held m' h) ∧ locked (locks (hw m') lk) = false).
Proof.
  intros Hr Hat. apply minv_reach in Hr as Hm. destruct (mi_lock _ Hm lk) as [o [O1 O2 O3]]. pose proof (mi_hart _ Hm h) as [H1 H2 H3 H4 _ _]. split.
  - intros Hl. destruct (push_off_run h (hw m)) as (s' & E & Hls & _).
    assert (locked (locks s' lk) = false) as Hl' by (by rewrite Hls).
    rewrite (exec_cons h _ _ m (goto h (ALocked lk) (Mach s' (at_ m) (held m) (pushed m) (was m)))) by (unfold step, on_hw; by rewrite Hat, E).
    destruct (step_free h lk (goto h (ALocked lk) (Mach s' (at_ m) (held m) (pushed m) (was m))) Hl') as [E1 _].
    rewrite (exec_cons _ _ _ _ _ (E1 ltac:(cbn; by fn_cases))).
    destruct (step_free h lk (goto h (ASwap lk) (goto h (ALocked lk) (Mach s' (at_ m) (held m) (pushed m) (was m)))) Hl') as [_ E2].
    destruct (E2 ltac:(cbn; by fn_cases)) as (s2 & E3 & E4). rewrite (exec_cons _ _ _ _ _ E3). cbn [exec].
    unfold step. cbn [at_ goto]. fn_cases. unfold on_hw. cbn. eexists. split; [done|]. split; [|split; cbn; by fn_cases].
    unfold acquire. rewrite (bind_Ret _ _ _ _ _ E). rewrite (bind_Ret (holding h lk) _ s' false s') by (by rewrite holding_run, Hl').
    by rewrite (bind_Ret _ _ _ _ _ E4).
  - intros Hlk. assert (o = Some h) as -> by (apply O1; by left).
    assert (locks (hw m) lk = Spinlock true (Some h)) as Hl by (destruct (locks (hw m) lk) as [b c]; cbn in *; f_equal; [done|apply O3; by left]).
    rewrite (exec_cons h _ _ m (goto h (RLocked lk) m)) by (unfold step; by rewrite Hat).
    destruct (step_mine h lk (goto h (RLocked lk) m) Hl) as [E1 _]. rewrite (exec_cons _ _ _ _ _ (E1 ltac:(cbn; by fn_cases))).
    destruct (step_mine h lk (goto h (RCpu lk) (goto h (RLocked lk) m)) Hl) as [_ E2]. rewrite (exec_cons _ _ _ _ _ (E2 ltac:(cbn; by fn_cases))).
    set (m2 := goto h (RDisown lk) _). assert (hw m2 = hw m) as Hhw by done. assert (at_ m2 h = RDisown lk) as Hat2 by (cbn; by fn_cases).
    assert (held m2 h = list_difference (held m h) [lk]) as Hh2 by (cbn; by fn_cases).
    assert (pushed m2 = pushed m ∧ was m2 = was m) as [Hp2 Hw2] by done. clearbody m2.
    set (s3 := Smp (<[lk := Spinlock true None]> (locks (hw m))) (cpus (hw m))).
    assert (write_cpu lk None (hw m) = Ret ((), s3)) as E3 by (by rewrite write_cpu_run, Hl).
    set (s4 := Smp (<[lk := Spinlock false None]> (locks s3)) (cpus s3)).
    assert (lock_release lk s3 = Ret ((), s4)) as E4 by (rewrite lock_release_run; unfold s4, s3; cbn; by fn_cases).
    rewrite (exec_cons h _ _ m2 (goto h (RUnlock lk) (Mach s3 (at_ m2) (held m2) (pushed m2) (was m2)))) by (unfold step, on_hw; by rewrite Hat2, Hhw, E3).
    rewrite (exec_cons h _ _ _ (goto h (RPop lk) (Mach s4 (<[h := RUnlock lk]> (at_ m2)) (held m2) (pushed m2) (was m2)))) by (unfold step, on_hw; cbn [at_ goto hw]; fn_cases; by rewrite E4).
    assert (depth Idle (held m h) (pushed m h) ≠ 0)%nat as Hd by (unfold depth; destruct (held m h); [by apply elem_of_nil in Hlk|cbn; lia]).
    rewrite Hat in *. destruct (pop_off_run h s4) as (s' & E & Hls & _); [cbn; rewrite H2; by rewrite bool_decide_false|cbn; lia|].
    cbn [exec]. unfold step. cbn [at_ goto]. fn_cases. unfold on_hw. cbn [hw goto]. rewrite E. eexists. split; [done|]. split_and!; cbn; fn_cases.
    + unfold release. rewrite (bind_Ret (holding h lk) _ (hw m) true (hw m)) by (rewrite holding_run, Hl; cbn; by rewrite bool_decide_true).
      cbn [negb]. by rewrite (bind_Ret _ _ _ _ _ E3), (bind_Ret _ _ _ _ _ E4).
    + done.
    + rewrite Hh2, list_elem_of_difference, list_elem_of_singleton. tauto.
    + rewrite Hls. cbn. by fn_cases.
Qed.

(** ** Two harts and a lock *)

Definition contend : list (nat * act) :=
  [(0%nat, DoAcquire 7); (1%nat, DoAcquire 7); (0%nat, Go); (1%nat, Go); (0%nat, Go); (1%nat, Go); (0%nat, Go); (1%nat, Go)].
Definition contended : mach := default (start (λ _, true)) (exec contend (start (λ _, true))).
Lemma contended_reach : reach contended.
Proof.
  eapply (reach_exec contend); [apply (reach_start (λ _, true))|]. unfold contended.
  destruct (exec contend (start (λ _, true))) as [m|] eqn:E; [done|]. by vm_compute in E.
Qed.

(** Hart 0 has the lock, hart 1 spins, both with interrupts off. *)
Lemma spinlock_safe_witness : at_ contended 1 = ASwap 7 ∧ held contended 0 = [7%nat] ∧ sie (cpus (hw contended) 0) = false ∧ (7%nat ∉ held contended 1).
Proof.
  destruct (spinlock_safe contended contended_reach) as (H1 & H2 & _). assert (held contended 0 = [7%nat]) as Hh by (by vm_compute).
  split; [by vm_compute|]. split; [done|]. split; [apply (H2 0%nat 7%nat); rewrite Hh; left|].
  intros H7. assert (0 = 1)%nat; [|done]. apply (H1 7%nat); [rewrite Hh; left|done].
Defined.
Lemma lock_calls_witness : ∃ m, release 0 7 (hw contended) = Ret ((), m).
Proof.
  assert (held contended 0 = [7%nat]) as Hh by (by vm_compute). assert (at_ contended 0 = Idle) as Hat by (by vm_compute).
  destruct (lock_calls contended 0 7 contended_reach Hat) as [_ H]. destruct H as (m' & _ & E & _); [rewrite Hh; left|]. exists (hw m'). exact E.
Defined.
