(* ===== verification/File.v ===== *)
(** * The file table: [kernel/file.c]

    A file is an entry of [ftable] with a count of the references to it. What it
    stands for (a pipe, an inode, a device, a socket) belongs to other components,
    which provide the operations of [Objects]; [S5File] joins the table with the file
    system. Locks are not modelled here: every function is one critical section of
    [ftable.lock], or holds the inode's lock. *)
From S2P Require Import Prelude.

Definition NFILE : nat := 100.
Definition NDEV : Z := 10.
Definition BSIZE : Z := 1024.
Definition MAXOPBLOCKS : Z := 10.

Inductive fdtype : Type := FD_NONE | FD_PIPE | FD_INODE | FD_DEVICE | FD_SOCKET.
#[export] Instance fdtype_eq_dec : EqDecision fdtype.
Proof. solve_decision. Defined.

(** The pointers are names of the objects. *)
Record file := File {
  ftype : fdtype; ref : Z; readable : bool; writable : bool;
  fpipe : nat; ip : nat; fsocket : nat; off : Z; major : Z }.
#[export] Instance file_inhabited : Inhabited file := populate (File FD_NONE 0 false false 0 0 0 0 0).

Record stat := Stat { st_dev : Z; st_ino : Z; st_type : Z; st_nlink : Z; st_size : Z }.

(** The other components, as [file.c] calls them; addresses are the user's.
    [dev_read] and its companions are the entries of [devsw]. *)
Class Objects (W : Type) := {
  pipeclose : nat → bool → M W ();
  piperead : nat → Z → Z → M W Z;
  pipewrite : nat → Z → Z → M W Z;
  socket_close : nat → M W ();
  begin_op : M W ();
  end_op : M W ();
  iput : nat → M W ();
  ilock : nat → M W ();
  iunlock : nat → M W ();
  stati : nat → M W stat;
  copyout_stat : Z → stat → M W Z;
  readi : nat → Z → Z → Z → M W Z;
  writei : nat → Z → Z → Z → M W Z;
  dev_read : Z → option (Z → Z → M W Z);
  dev_write : Z → option (Z → Z → M W Z);
  dev_ioctl : Z → option (Z → Z → M W Z);
}.

Record files (W : Type) := Files { ftable : list file; objs : W }.
Arguments Files {W}.
Arguments ftable {W}.
Arguments objs {W}.

Section file.
Context {W : Type} `{HO : Objects W}.
Abbreviation FM := (M (files W)).

Definition in_objs {A} (m : M W A) : FM A := λ s,
  match m (objs s) with
  | Ret (a, w) => Ret (a, Files (ftable s) w)
  | Panic msg => Panic msg | Fault => Fault | Block => Block | OutOfFuel => OutOfFuel
  end.
Definition get_file (i : nat) : FM file := t ← gets ftable; oget (t !! i).
Definition set_file (i : nat) (f : file) : FM () := modify (λ s, Files (<[i := f]> (ftable s)) (objs s)).

Definition set_ref (r : Z) (f : file) : file :=
  File (ftype f) r (readable f) (writable f) (fpipe f) (ip f) (fsocket f) (off f) (major f).
Definition set_type (t : fdtype) (f : file) : file :=
  File t (ref f) (readable f) (writable f) (fpipe f) (ip f) (fsocket f) (off f) (major f).
Definition set_off (o : Z) (f : file) : file :=
  File (ftype f) (ref f) (readable f) (writable f) (fpipe f) (ip f) (fsocket f) o (major f).

(** ** References *)

(** The result is the index of the file, none for a null pointer. *)
Definition filealloc : FM (option nat) :=
  t ← gets ftable;
  match list_find (λ f, ref f = 0) t with
  | Some (i, f) => set_file i (set_ref 1 f) ;; mret (Some i)
  | None => mret None
  end.

Definition filedup (i : nat) : FM nat :=
  f ← get_file i;
  if ref f <? 1 then panic "filedup" else
  set_file i (set_ref (s32 (ref f + 1)) f) ;; mret i.

Definition fileclose (i : nat) : FM () :=
  f ← get_file i;
  if ref f <? 1 then panic "fileclose" else
  let f := set_ref (s32 (ref f - 1)) f in
  set_file i f ;;
  if 0 <? ref f then mret () else
  let ff := f in
  set_file i (set_type FD_NONE (set_ref 0 f)) ;;
  match ftype ff with
  | FD_PIPE => in_objs (pipeclose (fpipe ff) (writable ff))
  | FD_INODE | FD_DEVICE => in_objs begin_op ;; in_objs (iput (ip ff)) ;; in_objs end_op
  | FD_SOCKET => in_objs (socket_close (fsocket ff))
  | FD_NONE => mret ()
  end.

(** ** Input and output *)

Definition filestat (i : nat) (addr : Z) : FM Z :=
  f ← get_file i;
  match ftype f with
  | FD_INODE | FD_DEVICE =>
      in_objs (ilock (ip f)) ;;
      st ← in_objs (stati (ip f));
      in_objs (iunlock (ip f)) ;;
      r ← in_objs (copyout_stat addr st);
      if r <? 0 then mret (-1) else mret 0
  | _ => mret (-1)
  end.

Definition device {A} (tab : Z → option A) (m : Z) : option A := if (m <? 0) || (NDEV <=? m) then None else tab m.

Definition fileread (i : nat) (addr n : Z) : FM Z :=
  f ← get_file i;
  if negb (readable f) then mret (-1) else
  match ftype f with
  | FD_PIPE => in_objs (piperead (fpipe f) addr n)
  | FD_DEVICE => if device dev_read (major f) is Some rd then in_objs (rd addr n) else mret (-1)
  | FD_INODE =>
      in_objs (ilock (ip f)) ;;
      r ← in_objs (readi (ip f) addr (off f) (u32 n));
      (if 0 <? r then f ← get_file i; set_file i (set_off (u32 (off f + r)) f) else mret ()) ;;
      in_objs (iunlock (ip f)) ;;
      mret r
  | _ => panic "fileread"
  end.

(** The bytes one transaction may write: three blocks. *)
Definition max_write : Z := ((MAXOPBLOCKS - 1 - 1 - 2) / 2) * BSIZE.
(** One transaction: the result of [writei]. *)
Definition write_piece (fi : nat) (a n1 : Z) : FM Z :=
  f ← get_file fi;
  in_objs begin_op ;;
  in_objs (ilock (ip f)) ;;
  r ← in_objs (writei (ip f) a (off f) n1);
  (if 0 <? r then f ← get_file fi; set_file fi (set_off (u32 (off f + r)) f) else mret ()) ;;
  in_objs (iunlock (ip f)) ;;
  in_objs end_op ;;
  mret r.
(** The bytes written by whole pieces when the loop ends; every turn writes some. *)
Fixpoint write_loop (fuel : nat) (fi : nat) (addr n i : Z) : FM Z :=
  if negb (i <? n) then mret i else
  match fuel with
  | O => out_of_fuel
  | S fuel =>
      let n1 := if max_write <? n - i then max_write else n - i in
      r ← write_piece fi (u64 (addr + i)) n1;
      if negb (r =? n1) then mret i else write_loop fuel fi addr n (i + r)
  end.

Definition filewrite (i : nat) (addr n : Z) : FM Z :=
  f ← get_file i;
  if negb (writable f) then mret (-1) else
  match ftype f with
  | FD_PIPE => in_objs (pipewrite (fpipe f) addr n)
  | FD_DEVICE => if device dev_write (major f) is Some wr then in_objs (wr addr n) else mret (-1)
  | FD_INODE => k ← write_loop (Z.to_nat n) i addr n 0; mret (if k =? n then n else -1)
  | _ => panic "filewrite"
  end.

Definition fileioctl (i : nat) (request argp : Z) : FM Z :=
  f ← get_file i;
  match ftype f with
  | FD_DEVICE => if device dev_ioctl (major f) is Some io then in_objs (io request argp) else mret (-1)
  | _ => mret (-1)
  end.

(** ** Reference counts *)

Definition refs (o : list nat) (i : nat) : Z := Z.of_nat (count_occ Nat.eq_dec o i).
Lemma refs_cons i o j : refs (i :: o) j = (if decide (i = j) then 1 else 0) + refs o j.
Proof. unfold refs. cbn [count_occ]. destruct (Nat.eq_dec i j), (decide (i = j)); (done || lia). Qed.
Lemma refs_perm o o' i : o ≡ₚ o' → refs o i = refs o' i.
Proof. intros Hp. unfold refs. f_equal. by apply Permutation_count_occ. Qed.
Lemma refs_pos o i : 0 < refs o i ↔ i ∈ o.
Proof. unfold refs. rewrite list_elem_of_In, (count_occ_In Nat.eq_dec). lia. Qed.
Lemma refs_range o i : 0 <= refs o i <= Z.of_nat (length o).
Proof. unfold refs. pose proof (count_occ_bound Nat.eq_dec i o). lia. Qed.

Record table_ok (s : files W) (o : list nat) : Prop := {
  to_length : length (ftable s) = NFILE;
  to_refs : ∀ i f, ftable s !! i = Some f → ref f = refs o i;
  to_range : ∀ i, i ∈ o → (i < NFILE)%nat;
  to_small : Z.of_nat (length o) < 2 ^ 31;
}.

Lemma table_perm s o o' : o ≡ₚ o' → table_ok s o → table_ok s o'.
Proof.
  intros Hp [Hl Hr Ho Hs]. constructor; [done| | |by rewrite <- Hp].
  - intros i f Hf. rewrite <- (refs_perm o o' i Hp). by apply Hr.
  - intros i Hi. apply Ho. by rewrite Hp.
Qed.
Lemma get_file_run s i f : ftable s !! i = Some f → get_file i s = Ret (f, s).
Proof. intros Hf. unfold get_file. rewrite (bind_Ret _ _ s (ftable s) s) by done. by rewrite Hf. Qed.
Lemma table_get s o i : table_ok s o → i ∈ o → ∃ f, ftable s !! i = Some f ∧ ref f = refs o i ∧ 1 <= ref f < 2 ^ 31.
Proof.
  intros [Hl Hr Ho Hs] Hi. destruct (lookup_lt_is_Some_2 (ftable s) i) as [f Hf]; [rewrite Hl; by apply Ho|]. exists f.
  rewrite (Hr _ _ Hf). pose proof (refs_range o i). apply refs_pos in Hi. split; [done|]. lia.
Qed.
(** An entry and the references to it change together. *)
Lemma table_set s o o' i f w : table_ok s o → is_Some (ftable s !! i) → ref f = refs o' i → (∀ j, j ≠ i → refs o' j = refs o j) → Z.of_nat (length o') < 2 ^ 31 →
  table_ok (Files (<[i := f]> (ftable s)) w) o'.
Proof.
  intros [Hl Hr Ho _] Hi Hf Hs Hsm. apply lookup_lt_is_Some_1 in Hi as Hlt. constructor; [|intros j g|intros j Hj|done]; cbn.
  - by rewrite length_insert.
  - intros [(<- & <- & _)|[Hne Hg]]%list_lookup_insert_Some; [done|]. rewrite Hs by done. by apply Hr.
  - destruct (decide (j = i)) as [->|Hne]; [by rewrite <- Hl|]. apply Ho, refs_pos. rewrite <- Hs by done. by apply refs_pos.
Qed.

Lemma filealloc_spec s o : table_ok s o → Z.of_nat (length o) < 2 ^ 31 - 1 →
  (∃ i s', filealloc s = Ret (Some i, s') ∧ (i ∉ o) ∧ objs s' = objs s ∧ table_ok s' (i :: o)) ∨
  filealloc s = Ret (None, s) ∧ ∀ i, (i < NFILE)%nat → i ∈ o.
Proof.
  intros Hok Hsm. unfold filealloc. rewrite (bind_Ret _ _ s (ftable s) s) by done. destruct (list_find (λ f, ref f = 0) (ftable s)) as [[i f]|] eqn:E.
  - left. apply list_find_Some in E as (Hf & H0 & _). pose proof (to_refs _ _ Hok _ _ Hf) as Hr.
    exists i. eexists. split; [done|]. split; [intros Hi%refs_pos; lia|]. split; [done|].
    apply (table_set s o); [done|eauto|cbn; rewrite refs_cons, decide_True by done; lia| |cbn; lia]. intros j Hj. by rewrite refs_cons, decide_False.
  - right. split; [done|]. intros i Hi. apply list_find_None in E. rewrite Forall_lookup in E.
    destruct (lookup_lt_is_Some_2 (ftable s) i) as [f Hf]; [by rewrite (to_length _ _ Hok)|]. specialize (E _ _ Hf).
    apply refs_pos. rewrite <- (to_refs _ _ Hok _ _ Hf). pose proof (to_refs _ _ Hok _ _ Hf) as Hr. pose proof (refs_range o i). cbn in E. lia.
Qed.

Lemma filedup_spec s o i : table_ok s o → i ∈ o → Z.of_nat (length o) < 2 ^ 31 - 1 →
  ∃ s', filedup i s = Ret (i, s') ∧ objs s' = objs s ∧ table_ok s' (i :: o).
Proof.
  intros Hok Hi Hsm. destruct (table_get _ _ _ Hok Hi) as (f & Hf & Hr & Hrange). unfold filedup. rewrite (bind_Ret _ _ _ _ _ (get_file_run _ _ _ Hf)).
  destruct (Z.ltb_spec (ref f) 1); [lia|]. eexists. split; [done|]. split; [done|]. pose proof (refs_range o i).
  apply (table_set s o); [done|eauto|cbn; rewrite refs_cons, decide_True, (swrap_small 32) by (done || unfold in_range; lia); lia| |cbn; lia].
  intros j Hj. by rewrite refs_cons, decide_False.
Qed.

(** What the last reference to a file does to its object. *)
Definition close_object (f : file) : M W () :=
  match ftype f with
  | FD_PIPE => pipeclose (fpipe f) (writable f)
  | FD_INODE | FD_DEVICE => begin_op ;; iput (ip f) ;; end_op
  | FD_SOCKET => socket_close (fsocket f)
  | FD_NONE => mret ()
  end.
Lemma in_objs_seq (m1 m2 m3 : M W ()) s : (in_objs m1 ;; in_objs m2 ;; in_objs m3) s = in_objs (m1 ;; m2 ;; m3) s.
Proof.
  unfold in_objs, mbind, M_bind. cbn. destruct (m1 (objs s)) as [[[] w1]| | | |]; cbn; try done. destruct (m2 w1) as [[[] w2]| | | |]; cbn; done.
Qed.

Lemma fileclose_spec s o o' i f : table_ok s o → o ≡ₚ i :: o' → ftable s !! i = Some f →
  ∃ t, table_ok (Files t (objs s)) o' ∧ (∀ j, j ≠ i → t !! j = ftable s !! j) ∧
    fileclose i s = if decide (i ∈ o') then Ret ((), Files t (objs s)) else in_objs (close_object f) (Files t (objs s)).
Proof.
  intros Hok Hp Hf. assert (i ∈ o) as Hi by (rewrite Hp; left). destruct (table_get _ _ _ Hok Hi) as (f' & Hf' & Hr & Hrange).
  rewrite Hf in Hf'. injection Hf' as <-. assert (refs o i = 1 + refs o' i) as Hro by (rewrite (refs_perm _ _ _ Hp), refs_cons, decide_True by done; done).
  assert (∀ j, j ≠ i → refs o' j = refs o j) as Hoth by (intros j Hj; rewrite (refs_perm o _ _ Hp), refs_cons, decide_False by done; lia).
  apply Permutation_length in Hp as Hlen. cbn in Hlen. pose proof (to_small _ _ Hok).
  unfold fileclose. rewrite (bind_Ret _ _ _ _ _ (get_file_run _ _ _ Hf)). destruct (Z.ltb_spec (ref f) 1); [lia|]. cbn [ref set_ref].
  rewrite (swrap_small 32) by (unfold in_range; lia). destruct (decide (i ∈ o')) as [Hin|Hin].
  - apply refs_pos in Hin. destruct (Z.ltb_spec 0 (ref f - 1)); [|lia]. eexists. split; [|split; [|done]].
    + apply (table_set s o); [done|eauto|cbn; lia|done|lia].
    + intros j Hj. by rewrite list_lookup_insert_ne.
  - assert (refs o' i = 0) as Hz by (rewrite <- refs_pos in Hin; pose proof (refs_range o' i); lia). destruct (Z.ltb_spec 0 (ref f - 1)); [lia|].
    exists (<[i := set_type FD_NONE (set_ref 0 (set_ref (ref f - 1) f))]> (<[i := set_ref (ref f - 1) f]> (ftable s))). split; [|split].
    + rewrite list_insert_insert_eq. apply (table_set s o); [done|eauto|cbn; lia|done|lia].
    + intros j Hj. by rewrite !list_lookup_insert_ne.
    + unfold close_object. cbn [ftype set_ref]. destruct (ftype f); try done; cbn [fpipe ip fsocket writable set_ref]; apply in_objs_seq.
Qed.

(** The table under any use of its references: opening, duplicating, closing, and
    the system calls that fill in an entry they have a reference to. *)
Inductive users : files W → list nat → Prop :=
  | users_boot w : users (Files (replicate NFILE inhabitant) w) []
  | users_alloc s o i s' : users s o → Z.of_nat (length o) < 2 ^ 31 - 1 → filealloc s = Ret (Some i, s') → users s' (i :: o)
  | users_dup s o i r s' : users s o → i ∈ o → Z.of_nat (length o) < 2 ^ 31 - 1 → filedup i s = Ret (r, s') → users s' (i :: o)
  | users_close s o i o' s' : users s o → o ≡ₚ i :: o' → fileclose i s = Ret ((), s') → users s' o'
  | users_fill s o i f f' : users s o → i ∈ o → ftable s !! i = Some f → ref f' = ref f → users (Files (<[i := f']> (ftable s)) (objs s)) o
  | users_objs s o w : users s o → users (Files (ftable s) w) o.

Lemma users_ok s o : users s o → table_ok s o.
Proof.
  induction 1 as [w|s o i s' _ Hok Hsm E|s o i r s' _ Hok Hi Hsm E|s o i o' s' _ Hok Hp E|s o i f f' _ Hok Hi Hf Hr|s o w _ Hok].
  - constructor; cbn [ftable]; [by rewrite length_replicate| |by intros i Hi%elem_of_nil|done]. by intros i f [-> _]%lookup_replicate.
  - destruct (filealloc_spec s o Hok Hsm) as [(j & s1 & E1 & _ & _ & Hok')|[E1 _]]; rewrite E in E1; [|done]. by injection E1 as <- <-.
  - destruct (filedup_spec s o i Hok Hi Hsm) as (s1 & E1 & _ & Hok'). rewrite E in E1. by injection E1 as _ <-.
  - destruct (table_get s o i Hok) as (f & Hf & _); [rewrite Hp; left|].
    destruct (fileclose_spec s o o' i f Hok Hp Hf) as (t & Hok' & _ & E1). rewrite E in E1. case_decide; [by injection E1 as ->|].
    unfold in_objs in E1. destruct (close_object f _) as [[[] w]| | | |]; [|done..]. injection E1 as ->. by destruct Hok'.
  - eapply table_set; [exact Hok|eauto| |done|apply Hok]. rewrite Hr. by apply (to_refs _ _ Hok).
  - by destruct Hok.
Qed.

(** C28: However files are opened, duplicated and closed, every count is the number
    of references to its file; a file in use is never handed out again, and none
    is only when all are in use; closing touches the object of a file exactly when
    the last reference goes. *)
Theorem file_references s o : users s o →
  (∀ i f, ftable s !! i = Some f → ref f = refs o i) ∧
  (Z.of_nat (length o) < 2 ^ 31 - 1 → ∃ r s', filealloc s = Ret (r, s') ∧ objs s' = objs s ∧
     match r with Some i => (i ∉ o) ∧ table_ok s' (i :: o) | None => s' = s ∧ ∀ i, (i < NFILE)%nat → i ∈ o end) ∧
  ∀ i f o', o ≡ₚ i :: o' → ftable s !! i = Some f →
    ∃ t, table_ok (Files t (objs s)) o' ∧ (∀ j, j ≠ i → t !! j = ftable s !! j) ∧
      fileclose i s = if decide (i ∈ o') then Ret ((), Files t (objs s)) else in_objs (close_object f) (Files t (objs s)).
Proof.
  intros Hok%users_ok. split_and!; [apply Hok| |intros i f o' Hp Hf; by apply (fileclose_spec s o)].
  intros Hsm. destruct (filealloc_spec s o Hok Hsm) as [(i & s' & E & Hi & Ho & Hok')|[E Hall]]; [by exists (Some i), s'|by exists None, s].
Qed.

(** ** Writing an inode in pieces *)

(** [l] with the bytes [d] at [o]. *)
Definition overwrite (l : list Z) (o : Z) (d : list Z) : list Z := take (Z.to_nat o) l ++ d ++ drop (Z.to_nat o + length d) l.
Lemma overwrite_nil l o : overwrite l o [] = l.
Proof. unfold overwrite. cbn. by rewrite Nat.add_0_r, take_drop. Qed.
Lemma overwrite_app l o d d' : 0 <= o <= Z.of_nat (length l) → overwrite (overwrite l o d) (o + Z.of_nat (length d)) d' = overwrite l o (d ++ d').
Proof.
  intros Ho. unfold overwrite. assert (length (take (Z.to_nat o) l ++ d) = Z.to_nat (o + Z.of_nat (length d))) as Hl by (rewrite length_app, length_take_le; lia).
  rewrite (app_assoc (take (Z.to_nat o) l) d). rewrite take_app_length' by done.
  rewrite drop_app_ge by lia. rewrite Hl, drop_drop, length_app, <- !app_assoc. do 4 f_equal. lia.
Qed.

Lemma overwrite_length l o d : 0 <= o <= Z.of_nat (length l) → Z.of_nat (length (overwrite l o d)) = Z.max (Z.of_nat (length l)) (o + Z.of_nat (length d)).
Proof. intros Ho. unfold overwrite. rewrite !length_app, length_drop, length_take. lia. Qed.

(** A transaction that writes all its bytes. *)
Lemma in_objs_Ret {A} (m : M W A) s x w : m (objs s) = Ret (x, w) → in_objs m s = Ret (x, Files (ftable s) w).
Proof. intros E. unfold in_objs. by rewrite E. Qed.
Lemma write_piece_run t w w1 w2 w3 w4 w5 fi f a n : t !! fi = Some f → 0 < n → 0 <= off f → off f + n < 2 ^ 32 →
  begin_op w = Ret ((), w1) → ilock (ip f) w1 = Ret ((), w2) → writei (ip f) a (off f) n w2 = Ret (n, w3) →
  iunlock (ip f) w3 = Ret ((), w4) → end_op w4 = Ret ((), w5) →
  write_piece fi a n (Files t w) = Ret (n, Files (<[fi := set_off (off f + n) f]> t) w5).
Proof.
  intros Hf Hn Ho Hmax E1 E2 E3 E4 E5. unfold write_piece. rewrite (bind_Ret _ _ _ f (Files t w)) by (by apply get_file_run).
  rewrite (bind_Ret _ _ _ _ _ (in_objs_Ret _ (Files t w) _ _ E1)), (bind_Ret _ _ _ _ _ (in_objs_Ret _ (Files t w1) _ _ E2)), (bind_Ret _ _ _ _ _ (in_objs_Ret _ (Files t w2) _ _ E3)).
  rewrite (proj2 (Z.ltb_lt 0 n)) by done. cbn [ftable]. rewrite (bind_Ret _ _ _ () (Files (<[fi := set_off (off f + n) f]> t) w3)).
  - rewrite (bind_Ret _ _ _ _ _ (in_objs_Ret _ (Files _ w3) _ _ E4)). by rewrite (bind_Ret _ _ _ _ _ (in_objs_Ret _ (Files _ w4) _ _ E5)).
  - rewrite (bind_Ret _ _ _ f (Files t w3)) by (by apply get_file_run). cbn. by rewrite (wrap_small 32) by (unfold in_range; lia).
Qed.
End file.

(** ** A run *)

Section demo.
(** Files of no kind. *)
Definition no_objects {W} : Objects W := {|
  pipeclose _ _ := mret (); piperead _ _ _ := mret (-1); pipewrite _ _ _ := mret (-1); socket_close _ := mret ();
  begin_op := mret (); end_op := mret (); iput _ := mret (); ilock _ := mret (); iunlock _ := mret ();
  stati _ := mret (Stat 0 0 0 0 0); copyout_stat _ _ := mret 0; readi _ _ _ _ := mret 0; writei _ _ _ _ := mret (-1);
  dev_read _ := None; dev_write _ := None; dev_ioctl _ := None |}.
#[local] Existing Instance no_objects.

(** Two references to the first file, one of which is closed. *)
Lemma file_references_witness : ∃ s : files (), users s [0%nat] ∧ ∀ f, ftable s !! 0%nat = Some f → ref f = 1.
Proof.
  set (s0 := Files (replicate NFILE inhabitant) () : files ()). assert (users s0 []) as H0 by apply users_boot.
  destruct (filealloc s0) as [[[i|] s1]| | | |] eqn:E1; try (vm_compute in E1; congruence).
  assert (i = 0%nat) as -> by (vm_compute in E1; congruence). pose proof (users_alloc _ _ _ _ H0 ltac:(done) E1) as H1.
  exists s1. split; [done|]. intros f Hf. destruct (file_references s1 [0%nat] H1) as [H _]. rewrite (H 0%nat f Hf). done.
Defined.
End demo.
