(* ===== verification/Proc.v ===== *)
(** * Processes: [kernel/proc.c]

    The process table with the calls of [kalloc.c], [vm.c] and [file.c] it makes.
    Every function is the code between the first [acquire] and the last [release]
    of a lock, run by the process of slot [me]: what other harts can do in between
    is the subject of [Sleep]. Addresses of the kernel's own code and data are
    parameters; the registers of a context switch are fields of [context]. *)
From S2P Require Import Prelude KString Kalloc Vm File.

Definition NPROC : nat := 64.
Definition NOFILE : nat := 16.
Definition MMAP_PAGES : nat := 100.
Definition KSTACK (p : Z) : Z := TRAMPOLINE - (p + 1) * 2 * PGSIZE.

Inductive procstate : Type := UNUSED | USED | SLEEPING | RUNNABLE | RUNNING | ZOMBIE.
#[export] Instance procstate_eq_dec : EqDecision procstate.
Proof. solve_decision. Defined.

(** [cx_s] are the twelve callee-saved registers. *)
Record context := Context { cx_ra : Z; cx_sp : Z; cx_s : list Z }.

Record vm_area := VmArea {
  vm_valid : Z; start_ad : Z; end_ad : Z; orig_start_ad : Z; vm_len : Z; vm_prot : Z; vm_flags : Z; forked : Z;
  vm_file : option nat; vm_fd : Z }.
Definition vma0 : vm_area := VmArea 0 0 0 0 0 0 0 0 None 0.

(** Pointers to processes are slots of the table, none for null; those to files
    and inodes are names. *)
Record proc := Proc {
  state : procstate; chan : Z; killed_ : Z; xstate : Z; pid : Z; parent : option nat;
  kstack : Z; sz : Z; pagetable : Z; trapframe : Z; context_ : context;
  ofile : list (option nat); cwd : option nat; name : list Z; vma : list vm_area; cur_max : Z }.
#[export] Instance proc_inhabited : Inhabited proc :=
  populate (Proc UNUSED 0 0 0 0 None 0 0 0 0 (Context 0 0 (replicate 12 0)) (replicate NOFILE None) None (replicate 16 0) (replicate MMAP_PAGES vma0) 0).

Definition set_state (x : procstate) (p : proc) : proc :=
  Proc x (chan p) (killed_ p) (xstate p) (pid p) (parent p) (kstack p) (sz p) (pagetable p) (trapframe p) (context_ p) (ofile p) (cwd p) (name p) (vma p) (cur_max p).
Definition set_chan (x : Z) (p : proc) : proc :=
  Proc (state p) x (killed_ p) (xstate p) (pid p) (parent p) (kstack p) (sz p) (pagetable p) (trapframe p) (context_ p) (ofile p) (cwd p) (name p) (vma p) (cur_max p).
Definition set_killed (x : Z) (p : proc) : proc :=
  Proc (state p) (chan p) x (xstate p) (pid p) (parent p) (kstack p) (sz p) (pagetable p) (trapframe p) (context_ p) (ofile p) (cwd p) (name p) (vma p) (cur_max p).
Definition set_xstate (x : Z) (p : proc) : proc :=
  Proc (state p) (chan p) (killed_ p) x (pid p) (parent p) (kstack p) (sz p) (pagetable p) (trapframe p) (context_ p) (ofile p) (cwd p) (name p) (vma p) (cur_max p).
Definition set_pid (x : Z) (p : proc) : proc :=
  Proc (state p) (chan p) (killed_ p) (xstate p) x (parent p) (kstack p) (sz p) (pagetable p) (trapframe p) (context_ p) (ofile p) (cwd p) (name p) (vma p) (cur_max p).
Definition set_parent (x : option nat) (p : proc) : proc :=
  Proc (state p) (chan p) (killed_ p) (xstate p) (pid p) x (kstack p) (sz p) (pagetable p) (trapframe p) (context_ p) (ofile p) (cwd p) (name p) (vma p) (cur_max p).
Definition set_kstack (x : Z) (p : proc) : proc :=
  Proc (state p) (chan p) (killed_ p) (xstate p) (pid p) (parent p) x (sz p) (pagetable p) (trapframe p) (context_ p) (ofile p) (cwd p) (name p) (vma p) (cur_max p).
Definition set_sz (x : Z) (p : proc) : proc :=
  Proc (state p) (chan p) (killed_ p) (xstate p) (pid p) (parent p) (kstack p) x (pagetable p) (trapframe p) (context_ p) (ofile p) (cwd p) (name p) (vma p) (cur_max p).
Definition set_pagetable (x : Z) (p : proc) : proc :=
  Proc (state p) (chan p) (killed_ p) (xstate p) (pid p) (parent p) (kstack p) (sz p) x (trapframe p) (context_ p) (ofile p) (cwd p) (name p) (vma p) (cur_max p).
Definition set_trapframe (x : Z) (p : proc) : proc :=
  Proc (state p) (chan p) (killed_ p) (xstate p) (pid p) (parent p) (kstack p) (sz p) (pagetable p) x (context_ p) (ofile p) (cwd p) (name p) (vma p) (cur_max p).
Definition set_context (x : context) (p : proc) : proc :=
  Proc (state p) (chan p) (killed_ p) (xstate p) (pid p) (parent p) (kstack p) (sz p) (pagetable p) (trapframe p) x (ofile p) (cwd p) (name p) (vma p) (cur_max p).
Definition set_ofile (x : list (option nat)) (p : proc) : proc :=
  Proc (state p) (chan p) (killed_ p) (xstate p) (pid p) (parent p) (kstack p) (sz p) (pagetable p) (trapframe p) (context_ p) x (cwd p) (name p) (vma p) (cur_max p).
Definition set_cwd (x : option nat) (p : proc) : proc :=
  Proc (state p) (chan p) (killed_ p) (xstate p) (pid p) (parent p) (kstack p) (sz p) (pagetable p) (trapframe p) (context_ p) (ofile p) x (name p) (vma p) (cur_max p).
Definition set_name (x : list Z) (p : proc) : proc :=
  Proc (state p) (chan p) (killed_ p) (xstate p) (pid p) (parent p) (kstack p) (sz p) (pagetable p) (trapframe p) (context_ p) (ofile p) (cwd p) x (vma p) (cur_max p).
Definition set_vma (x : list vm_area) (p : proc) : proc :=
  Proc (state p) (chan p) (killed_ p) (xstate p) (pid p) (parent p) (kstack p) (sz p) (pagetable p) (trapframe p) (context_ p) (ofile p) (cwd p) (name p) x (cur_max p).
Definition set_cur_max (x : Z) (p : proc) : proc :=
  Proc (state p) (chan p) (killed_ p) (xstate p) (pid p) (parent p) (kstack p) (sz p) (pagetable p) (trapframe p) (context_ p) (ofile p) (cwd p) (name p) (vma p) x.

Record kst (W : Type) := Kst { km : kmem_t; ptable : list proc; nextpid : Z; initproc : option nat; fs : files W }.
Arguments Kst {W}.
Arguments km {W}.
Arguments ptable {W}.
Arguments nextpid {W}.
Arguments initproc {W}.
Arguments fs {W}.

Section proc.
Context {W : Type} `{HO : Objects W} (idup : nat → M W ()).
(** The end of the kernel, the trampoline page, [forkret], and where the table is. *)
Context (_end trampoline forkret : Z) (proc_addr xstate_addr : nat → Z).
Abbreviation PM := (M (kst W)).

Definition in_km {A} (m : M kmem_t A) : PM A := λ s,
  outcome_bind (m (km s)) (λ '(a, k), Ret (a, Kst k (ptable s) (nextpid s) (initproc s) (fs s))).
Definition in_fs {A} (m : M (files W) A) : PM A := λ s,
  outcome_bind (m (fs s)) (λ '(a, f), Ret (a, Kst (km s) (ptable s) (nextpid s) (initproc s) f)).
Definition get_proc (i : nat) : PM proc := t ← gets ptable; oget (t !! i).
Definition upd_table (f : list proc → list proc) : PM () := modify (λ s, Kst (km s) (f (ptable s)) (nextpid s) (initproc s) (fs s)).
Definition upd_proc (i : nat) (f : proc → proc) : PM () := upd_table (alter f i).

(** ** Tables for user memory *)

Definition proc_pagetable (tf : Z) : M kmem_t Z :=
  pagetable ← uvmcreate _end;
  if pagetable =? 0 then mret 0 else
  r ← mappages _end pagetable TRAMPOLINE PGSIZE trampoline PTE_EXEC;
  if r <? 0 then uvmfree _end pagetable 0 ;; mret 0 else
  r ← mappages _end pagetable TRAPFRAME PGSIZE tf PTE_NORMAL;
  if r <? 0 then uvmunmap _end pagetable TRAMPOLINE 1 false ;; uvmfree _end pagetable 0 ;; mret 0 else
  mret pagetable.

Definition proc_freepagetable (pagetable sz : Z) : M kmem_t () :=
  uvmunmap _end pagetable TRAMPOLINE 1 false ;;
  uvmunmap _end pagetable TRAPFRAME 1 false ;;
  uvmfree _end pagetable sz.

(** ** Slots *)

Definition procinit : PM () :=
  upd_table (imap (λ i p, set_kstack (KSTACK (Z.of_nat i)) (set_state UNUSED p))).
Definition proc_mapstacks (kpgtbl : Z) : PM () :=
  mapM_ (λ i : nat,
    pa ← in_km (kalloc _end);
    if pa =? 0 then panic "kalloc" else
    in_km (kvmmap _end kpgtbl (KSTACK (Z.of_nat i)) pa PGSIZE PTE_NORMAL)) (seq 0 NPROC).

Definition allocpid : PM Z := λ s, Ret (nextpid s, Kst (km s) (ptable s) (s32 (nextpid s + 1)) (initproc s) (fs s)).

Definition freeproc (i : nat) : PM () :=
  p ← get_proc i;
  (if negb (trapframe p =? 0) then in_km (kfree _end (trapframe p)) else mret ()) ;;
  upd_proc i (set_trapframe 0) ;;
  (if negb (pagetable p =? 0) then in_km (proc_freepagetable (pagetable p) (sz p)) else mret ()) ;;
  upd_proc i (set_pagetable 0) ;;
  upd_proc i (set_sz 0) ;;
  upd_proc i (set_pid 0) ;;
  upd_proc i (set_parent None) ;;
  upd_proc i (λ p, set_name (<[0%nat := 0]> (name p)) p) ;;
  upd_proc i (set_chan 0) ;;
  upd_proc i (set_killed 0) ;;
  upd_proc i (set_xstate 0) ;;
  upd_proc i (set_state UNUSED).

Definition allocproc : PM (option nat) :=
  t ← gets ptable;
  match list_find (λ p, state p = UNUSED) t with
  | None => mret None
  | Some (i, _) =>
      pid ← allocpid;
      upd_proc i (set_pid pid) ;;
      upd_proc i (set_state USED) ;;
      tf ← in_km (kalloc _end);
      upd_proc i (set_trapframe tf) ;;
      if tf =? 0 then freeproc i ;; mret None else
      pt ← in_km (proc_pagetable tf);
      upd_proc i (set_pagetable pt) ;;
      if pt =? 0 then freeproc i ;; mret None else
      upd_proc i (λ p, set_context (Context forkret (kstack p + PGSIZE) (replicate 12 0)) p) ;;
      upd_proc i (set_vma (replicate MMAP_PAGES vma0)) ;;
      upd_proc i (set_cur_max (TRAMPOLINE - 10 * PGSIZE)) ;;
      mret (Some i)
  end.

(** ** A running process *)

Section me.
Context (me : nat).

Definition growproc (n : Z) : PM Z :=
  p ← get_proc me;
  if 0 <? n then
    r ← in_km (uvmalloc _end (pagetable p) (sz p) (u64 (sz p + n)) PTE_W);
    if r =? 0 then mret (-1) else upd_proc me (set_sz r) ;; mret 0
  else if n <? 0 then
    r ← in_km (uvmdealloc _end (pagetable p) (sz p) (u64 (sz p + n)));
    upd_proc me (set_sz r) ;; mret 0
  else upd_proc me (set_sz (sz p)) ;; mret 0.

Definition copy_vma (src : vm_area) : vm_area :=
  VmArea 1 (start_ad src) (end_ad src) (orig_start_ad src) (vm_len src) (vm_prot src) (vm_flags src) 1 (vm_file src) (vm_fd src).
(** [safestrcpy] on the arrays of two processes: it writes a NUL behind the one it
    copies. *)
Definition safestr (dst src : list Z) (n : nat) : list Z :=
  match list_find (λ c, c = 0) (take (n - 1) src) with
  | Some (k, _) => take k src ++ 0 :: 0 :: drop (k + 2) dst
  | None => take (n - 1) src ++ 0 :: drop n dst
  end.

Definition fork_files (np : nat) : PM () :=
  mapM_ (λ i : nat,
    p ← get_proc me;
    if mjoin (ofile p !! i) is Some f then
      f ← in_fs (filedup f); upd_proc np (λ q, set_ofile (<[i := Some f]> (ofile q)) q)
    else mret ()) (seq 0 NOFILE).
Definition fork_vma (np : nat) : PM () :=
  mapM_ (λ i : nat,
    p ← get_proc me;
    src ← oget (vma p !! i);
    if negb (vm_valid src =? 1) then mret () else
    q ← get_proc np;
    match list_find (λ v, vm_valid v = 0) (vma q) with
    | None => mret ()
    | Some (j, _) =>
        upd_proc np (λ q, set_vma (<[j := copy_vma src]> (vma q)) q) ;;
        f ← oget (vm_file src); in_fs (filedup f) ;; mret ()
    end) (seq 0 MMAP_PAGES).

Definition fork : PM Z :=
  p ← get_proc me;
  o ← allocproc;
  match o with
  | None => mret (-1)
  | Some np =>
      q ← get_proc np;
      r ← in_km (uvmcopy _end (pagetable p) (pagetable q) (sz p));
      if r <? 0 then freeproc np ;; mret (-1) else
      upd_proc np (set_sz (sz p)) ;;
      in_km (in_phys (memmove (trapframe q) (trapframe p) 288)) ;;
      in_km (in_phys (store64 (trapframe q + 112) 0)) ;;
      fork_files np ;;
      cwd' ← oget (cwd p);
      in_fs (in_objs (idup cwd')) ;;
      upd_proc np (set_cwd (Some cwd')) ;;
      fork_vma np ;;
      upd_proc np (λ q, set_name (safestr (name q) (name p) 16) q) ;;
      q ← get_proc np;
      upd_proc np (set_parent (Some me)) ;;
      upd_proc np (set_state RUNNABLE) ;;
      mret (pid q)
  end.

(** ** Sleeping and waking *)

(** The slot of a process as a channel; null for none. *)
Definition procp (o : option nat) : Z := from_option proc_addr 0 o.

(** A slot when somebody calls [wakeup]. *)
Definition wake (ch : Z) (p : proc) : proc :=
  if bool_decide (state p = SLEEPING) && (chan p =? ch) then set_state RUNNABLE p else p.
Definition wakeup (ch : Z) : PM () := upd_table (imap (λ i p, if decide (i = me) then p else wake ch p)).

(** [sleep] up to the switch to the scheduler, and after it. *)
Definition sleep_begin (ch : Z) : PM () := upd_proc me (set_chan ch) ;; upd_proc me (set_state SLEEPING).
Definition sleep_end : PM () := upd_proc me (set_chan 0).
(** [yield] up to the switch. *)
Definition yield_begin : PM () := upd_proc me (set_state RUNNABLE).

(** [sched], with what it checks of the hart: whether it holds the process's
    lock, its nesting depth, and whether interrupts are on. *)
Definition sched (holding : bool) (noff : Z) (intr : bool) : PM () :=
  p ← get_proc me;
  if negb holding then panic "sched p->lock" else
  if negb (noff =? 1) then panic "sched locks" else
  if bool_decide (state p = RUNNING) then panic "sched running" else
  if intr then panic "sched interruptible" else mret ().

(** A turn of the loop of [scheduler] at a slot: whether the process runs now. *)
Definition schedule (i : nat) : PM bool :=
  p ← get_proc i;
  if bool_decide (state p = RUNNABLE) then upd_proc i (set_state RUNNING) ;; mret true else mret false.

(** A slot that [kill] finds. *)
Definition hit (p : proc) : proc :=
  let p := set_killed 1 p in if bool_decide (state p = SLEEPING) then set_state RUNNABLE p else p.
Definition kill (n : Z) : PM Z :=
  t ← gets ptable;
  match list_find (λ p, pid p = n) t with
  | Some (i, _) => upd_proc i hit ;; mret 0
  | None => mret (-1)
  end.
Definition setkilled (i : nat) : PM () := upd_proc i (set_killed 1).
Definition killed (i : nat) : PM Z := p ← get_proc i; mret (killed_ p).

(** ** The end of a process *)

(** The loop over addresses counts with an [int]; it reads through a null pointer
    where a page has no table. *)
Fixpoint free_vma_loop (fuel : nat) (pagetable i end_ : Z) : M kmem_t () :=
  if end_ <? u64 i then mret () else
  match fuel with
  | O => out_of_fuel
  | S fuel =>
      pte ← walk _end pagetable (u64 i) false;
      if pte =? 0 then fault else free_vma_loop fuel pagetable (s32 (i + PGSIZE)) end_
  end.
Definition free_all_vma (pagetable start end_ : Z) : M kmem_t () :=
  free_vma_loop (Z.to_nat ((end_ - u64 (s32 start)) / PGSIZE + 2)) pagetable (s32 start) end_.

Definition reparent : PM () :=
  mapM_ (λ i : nat,
    q ← get_proc i;
    if decide (parent q = Some me) then
      ip ← gets initproc;
      upd_proc i (set_parent ip) ;;
      wakeup (procp ip)
    else mret ()) (seq 0 NPROC).

Definition exit_files : PM () :=
  mapM_ (λ fd : nat,
    p ← get_proc me;
    if mjoin (ofile p !! fd) is Some f then
      in_fs (fileclose f) ;; upd_proc me (λ p, set_ofile (<[fd := None]> (ofile p)) p)
    else mret ()) (seq 0 NOFILE).
Definition clear_valid (v : vm_area) : vm_area :=
  VmArea 0 (start_ad v) (end_ad v) (orig_start_ad v) (vm_len v) (vm_prot v) (vm_flags v) (forked v) (vm_file v) (vm_fd v).
Definition exit_vma : PM () :=
  mapM_ (λ i : nat,
    p ← get_proc me;
    v ← oget (vma p !! i);
    if vm_valid v =? 0 then mret () else
    upd_proc me (λ p, set_vma (<[i := clear_valid v]> (vma p)) p) ;;
    in_km (free_all_vma (pagetable p) (start_ad v) (end_ad v))) (seq 0 MMAP_PAGES).

(** [exit] up to the switch. *)
Definition exit (status : Z) : PM () :=
  ip ← gets initproc;
  if decide (ip = Some me) then panic "init exiting" else
  exit_files ;;
  exit_vma ;;
  p ← get_proc me;
  cwd' ← oget (cwd p);
  in_fs (in_objs begin_op) ;; in_fs (in_objs (iput cwd')) ;; in_fs (in_objs end_op) ;;
  upd_proc me (set_cwd None) ;;
  reparent ;;
  p ← get_proc me;
  wakeup (procp (parent p)) ;;
  upd_proc me (set_xstate status) ;;
  upd_proc me (set_state ZOMBIE).

(** The scan of [wait] from a slot on: the value to return, or whether the process
    has children. The status is copied from the slot, which is in memory at
    [xstate_addr]. *)
Fixpoint wait_scan (addr : Z) (slots : list nat) (havekids : bool) : PM (Z + bool) :=
  match slots with
  | [] => mret (inr havekids)
  | i :: slots =>
      q ← get_proc i;
      if negb (bool_decide (parent q = Some me)) then wait_scan addr slots havekids else
      if negb (bool_decide (state q = ZOMBIE)) then wait_scan addr slots true else
      p ← get_proc me;
      in_km (in_phys (store_bytes (xstate_addr i) (le_bytes 4 (u32 (xstate q))))) ;;
      r ← (if addr =? 0 then mret 0 else in_km (copyout _end (pagetable p) addr (xstate_addr i) 4));
      if r <? 0 then mret (inl (-1)) else
      freeproc i ;; mret (inl (pid q))
  end.
(** [wait] up to its return, or up to the switch in [sleep] (none); when it wakes it
    starts over. *)
Definition wait (addr : Z) : PM (option Z) :=
  r ← wait_scan addr (seq 0 NPROC) false;
  match r with
  | inl r => mret (Some r)
  | inr havekids =>
      k ← (if havekids : bool then killed me else mret 0);
      if negb havekids || negb (k =? 0) then mret (Some (-1)) else
      sleep_begin (procp (Some me)) ;; mret None
  end.

(** ** Copying to the user or to the kernel *)

Definition either_copyout (user_dst : bool) (dst src len : Z) : PM Z :=
  p ← get_proc me;
  if user_dst then in_km (copyout _end (pagetable p) dst src len)
  else in_km (in_phys (memmove dst src (Z.to_nat len))) ;; mret 0.
Definition either_copyin (dst : Z) (user_src : bool) (src len : Z) : PM Z :=
  p ← get_proc me;
  if user_src then in_km (copyin _end (pagetable p) dst src len)
  else in_km (in_phys (memmove dst src (Z.to_nat len))) ;; mret 0.
End me.
End proc.
