(* ===== verification/ProcVm.v ===== *)
(** * The memory of a process: [proc_pagetable], [proc_freepagetable]

    What creating and freeing a process does to the pages of the kernel: a new
    process has a table with trampoline and trapframe and nothing else; freeing
    one gives every page of it back. *)
From S2P Require Import Prelude KString Kalloc Vm VmTable VmSpace VmCopy VmRead VmUser VmFork VmFree VmSafe VmProc File Proc.

Section procvm.
Context (_end trampoline : Z) (Hend : KERNBASE <= _end <= PHYSTOP).
(** The trampoline is a page of the kernel's code. *)
Context (Htr : aligned trampoline ∧ trampoline + 2 * PGSIZE <= 2 ^ 56).
Implicit Types (s : kmem_t) (L : leaves) (B : list space) (E : list Z).

(** The mappings every process has, for its trapframe. *)
Definition kernel_leaves (tf : Z) : leaves := <[vpn TRAPFRAME := mk_pte tf PTE_NORMAL]> {[vpn TRAMPOLINE := mk_pte trampoline PTE_EXEC]}.
Definition kernel_high (tf : Z) L : Prop := ∀ v, UVPN <= v → L !! v = kernel_leaves tf !! v.

Lemma kernel_leaves_bare tf : ∀ v, v < UVPN → kernel_leaves tf !! v = None.
Proof using. intros v Hv. unfold kernel_leaves. assert (vpn TRAPFRAME = UVPN ∧ vpn TRAMPOLINE = UVPN + 1) as [-> ->] by (by vm_compute). by rewrite lookup_insert_ne, lookup_singleton_ne by lia. Qed.
Lemma kernel_sized tf : sized (kernel_leaves tf) 0.
Proof using. split; [by vm_compute|]. intros v Hv. rewrite kernel_leaves_bare by lia. change (pages 0) with 0. split; [by intros [? ?]|lia]. Qed.

Lemma kernel_frames0 tf : frames (kernel_leaves tf) = [].
Proof using.
  unfold kernel_leaves. assert (vpn TRAPFRAME = UVPN ∧ vpn TRAMPOLINE = UVPN + 1) as [-> ->] by (by vm_compute).
  rewrite frames_insert_kernel by (try lia; apply lookup_singleton_ne; lia). rewrite <- insert_empty, frames_insert_kernel by (done || lia).
  unfold frames, user_part. by rewrite map_filter_empty, map_to_list_empty.
Qed.

Lemma kernel_perms : perm_ok PTE_EXEC ∧ Z.testbit PTE_EXEC 4 = false ∧ Z.testbit PTE_EXEC 1 = true ∧
  perm_ok PTE_NORMAL ∧ Z.testbit PTE_NORMAL 4 = false ∧ Z.testbit PTE_NORMAL 1 = true.
Proof using. by vm_compute. Qed.
Lemma kernel_vpns : TRAMPOLINE = (UVPN + 1) * PGSIZE ∧ TRAPFRAME = UVPN * PGSIZE ∧ UVPN + 1 < maxvpn ∧ 0 <= UVPN.
Proof using. by vm_compute. Qed.

Lemma root_space_leaves q : sp_L (root_space q) = ∅.
Proof using. done. Qed.

(** What the others hold is not touched. *)
Definition keeps B E s s' : Prop :=
  (∀ p a, p ∈ all_refs B ++ E → in_page p a → phys s' !! a = phys s !! a) ∧ ∀ sp va, sp ∈ B → uload (phys s') (sp_L sp) va = uload (phys s) (sp_L sp) va.
Lemma keeps_trans B E s1 s2 s3 : keeps B E s1 s2 → keeps B E s2 s3 → keeps B E s1 s3.
Proof using. intros [A1 A2] [B1 B2]. split; intros; [rewrite (B1 p), (A1 p)|rewrite B2, A2]; done. Qed.
Lemma outside_keeps sp B E s s' : vm_inv _end s (sp :: B) E → (∀ a, outside _end B E a → phys s' !! a = phys s !! a) → keeps B E s s'.
Proof using.
  intros Hi Hout. split.
  - intros p a Hp Ha. apply Hout. eapply outside_page; [exact Hi|by apply others_refs|exact Hp|exact Ha].
  - intros sp' va Hsp'. by eapply (others_uload _end s s' (sp :: B) B); [|right| |].
Qed.

Lemma map_kernel s sp B E v pa perm :
  vm_inv _end s (sp :: B) E → UVPN <= v < maxvpn → sp_L sp !! v = None → perm_ok perm → Z.testbit perm 4 = false → aligned pa → pa + 2 * PGSIZE <= 2 ^ 56 →
  ∃ r s' T', mappages _end (sp_root sp) (v * PGSIZE) PGSIZE pa perm s = Ret (r, s') ∧ keeps B E s s' ∧
    (r = 0 ∧ vm_inv _end s' (Space (sp_root sp) T' (<[v := mk_pte pa perm]> (sp_L sp)) :: B) E ∨
     r = -1 ∧ vm_inv _end s' (Space (sp_root sp) T' (sp_L sp) :: B) E ∧ tight _end (all_refs (sp :: B) ++ E) 2) ∧ (length (tabs T') <= length (tabs (sp_T sp)) + 2)%nat.
Proof using Hend.
  intros Hi Hv Hn Hp H4 Ha Hpa. destruct (kmap_spec _end Hend s sp B E v pa perm Hi Hv Hn Hp H4 Ha Hpa) as (r & s' & T' & L' & E1 & Hlen & Hi' & Hout & _ & Hr).
  exists r, s', T'. split; [done|]. split; [by eapply outside_keeps|]. split; [|done]. destruct Hr as [[-> ->]|(-> & -> & Ht)]; [left|right]; done.
Qed.

Lemma free_tables s sp B E sz : vm_inv _end s (sp :: B) E → sized (sp_L sp) sz → bare (sp_L sp) →
  ∃ s', uvmfree _end (sp_root sp) sz s = Ret ((), s') ∧ vm_inv _end s' B E ∧ keeps B E s s'.
Proof using Hend.
  intros Hi Hs Hb. destruct (free_spec _end Hend s sp B E sz Hi Hs Hb) as (s' & E1 & Hi' & _ & Hout). exists s'. split; [done|]. split; [done|]. by eapply outside_keeps.
Qed.

Lemma empty_sized : sized ∅ 0.
Proof using. split; [by vm_compute|]. intros v Hv. rewrite lookup_empty. change (pages 0) with 0. split; [by intros [? ?]|lia]. Qed.

Lemma page_room p : page _end p → aligned p ∧ p + 2 * PGSIZE <= 2 ^ 56.
Proof using Hend. intros Hp. split; [by apply (page_aligned _end Hend)|]. destruct Hp as [_ Hr]. unfold PHYSTOP, KERNBASE, PGSIZE in *. lia. Qed.

Lemma unmap_kernel s sp B E v e : vm_inv _end s (sp :: B) E → UVPN <= v → sp_L sp !! v = Some e → Z.testbit e 1 = true →
  ∃ s', uvmunmap _end (sp_root sp) (v * PGSIZE) 1 false s = Ret ((), s') ∧ vm_inv _end s' (Space (sp_root sp) (sp_T sp) (delete v (sp_L sp)) :: B) E ∧ keeps B E s s'.
Proof using Hend.
  intros Hi Hv He H1. destruct (kunmap_spec _end Hend s sp B E v e Hi Hv He H1) as (s' & E1 & Hi' & Hout & _). exists s'. split; [done|]. split; [done|]. by eapply outside_keeps.
Qed.

Lemma proc_pagetable_spec s B E tf :
  vm_inv _end s B E → tf ∈ E → Z.of_nat (length E) < 2 ^ 30 →
  ∃ r s', proc_pagetable _end trampoline tf s = Ret (r, s') ∧ keeps B E s s' ∧
    (r = 0 ∧ vm_inv _end s' B E ∧ tight _end (all_refs B ++ E) 5 ∨
     r ≠ 0 ∧ ∃ T, vm_inv _end s' (Space r T (kernel_leaves tf) :: B) E ∧ (length (tabs T) <= 5)%nat).
Proof using Hend Htr.
  intros Hi Htf Hsm. destruct kernel_perms as (P1 & P2 & P3 & P4 & P5 & P6), kernel_vpns as (K1 & K2 & K3 & K4). unfold proc_pagetable.
  assert (page _end tf) as Hpg by (eapply vm_page; [exact Hi|apply elem_of_app; by right]). destruct (page_room tf Hpg) as [Ha1 Ha2].
  assert (frames ∅ = []) as Hempty by (unfold frames, user_part; by rewrite map_filter_empty, map_to_list_empty).
  destruct (uvmcreate_spec _end Hend s B E Hi Hsm) as [[E1 Ht]|(q & s1 & E1 & Hq & Hi1 & K5 & K6)]; rewrite (bind_Ret _ _ _ _ _ E1).
  { exists 0, s. split; [done|]. split; [by split|left]. split_and!; [done..|]. eapply tight_le; [exact Ht|lia]. }
  assert (length (tabs (sp_T (root_space q))) = 1%nat) as Hl1 by (unfold tabs; cbn [root_space sp_T]; by rewrite map_to_list_singleton).
  destruct (Z.eqb_spec q 0); [done|]. assert (keeps B E s s1) as Hk1 by done. rewrite K1, K2.
  destruct (map_kernel s1 (root_space q) B E (UVPN + 1) trampoline PTE_EXEC Hi1) as (r2 & s2 & T2 & E2 & Hk2 & Hc2 & Hl2); [lia|done|done|done|apply Htr..|]. cbn [sp_root root_space] in E2.
  rewrite (bind_Ret _ _ _ _ _ E2). destruct Hc2 as [[-> Hi2]|(-> & Hi2 & Ht2)]; cbn [Z.ltb Z.compare]; cbn [sp_root sp_L root_space] in Hi2.
  2: { destruct (free_tables s2 _ B E 0 Hi2 empty_sized) as (s3 & E3 & Hi3 & Hk3); [by intros ?|]. cbn [sp_root] in E3. rewrite (bind_Ret _ _ _ _ _ E3).
    exists 0, s3. split; [done|]. split; [by eapply keeps_trans, keeps_trans|left]. split_and!; [done..|]. eapply tight_le; [exact Ht2|].
    rewrite refs_focus. change (sp_L (root_space q)) with (∅ : leaves). rewrite Hempty, !length_app, Hl1. unfold others. rewrite length_app. cbn [length]. lia. }
  destruct (map_kernel s2 _ B E UVPN tf PTE_NORMAL Hi2) as (r3 & s3 & T3 & E3 & Hk3 & Hc3 & Hl3); cbn [sp_L sp_root sp_T] in *; [lia|by rewrite lookup_insert_ne by lia|done..|].
  rewrite (bind_Ret _ _ _ _ _ E3). destruct Hc3 as [[-> Hi3]|(-> & Hi3 & Ht3)]; cbn [Z.ltb Z.compare].
  - exists q, s3. split; [done|]. split; [by eapply keeps_trans, keeps_trans|]. right. split; [done|]. exists T3.
    unfold kernel_leaves. assert (vpn TRAPFRAME = UVPN ∧ vpn TRAMPOLINE = UVPN + 1) as [-> ->] by (by vm_compute). split; [exact Hi3|lia].
  - destruct (unmap_kernel s3 _ B E (UVPN + 1) (mk_pte trampoline PTE_EXEC) Hi3) as (s4 & E4 & Hi4 & Hk4); cbn [sp_L sp_root sp_T] in *; [lia|by rewrite lookup_insert_eq| |].
    { rewrite mk_pte_flag by (apply Htr || lia). by rewrite P3. }
    rewrite (bind_Ret _ _ _ _ _ E4). assert (delete (UVPN + 1) (<[UVPN + 1 := mk_pte trampoline PTE_EXEC]> (∅ : leaves)) = ∅) as Hd by (by rewrite delete_insert_id).
    rewrite Hd in Hi4. destruct (free_tables s4 _ B E 0 Hi4 empty_sized) as (s5 & E5 & Hi5 & Hk5); [by intros ?|]. cbn [sp_root] in E5. rewrite (bind_Ret _ _ _ _ _ E5).
    exists 0, s5. split; [done|]. split; [by do 4 (eapply keeps_trans; [eassumption|])|left]. split_and!; [done..|]. eapply tight_le; [exact Ht3|].
    rewrite refs_focus. cbn [sp_T sp_L]. rewrite frames_insert_kernel by (done || lia). rewrite Hempty, !length_app. unfold others. rewrite length_app. cbn [length]. lia.
Qed.

Lemma proc_freepagetable_spec s sp B E tf sz :
  vm_inv _end s (sp :: B) E → sized (sp_L sp) sz → kernel_high tf (sp_L sp) → aligned tf →
  ∃ s', proc_freepagetable _end (sp_root sp) sz s = Ret ((), s') ∧ vm_inv _end s' B E ∧ keeps B E s s'.
Proof using Hend Htr.
  intros Hi Hs Hk Ha. destruct kernel_perms as (P1 & P2 & P3 & P4 & P5 & P6), kernel_vpns as (K1 & K2 & K3 & K4).
  assert (vpn TRAPFRAME = UVPN ∧ vpn TRAMPOLINE = UVPN + 1) as [V1 V2] by (by vm_compute). unfold kernel_high, kernel_leaves in Hk. rewrite V1, V2 in Hk.
  unfold proc_freepagetable. rewrite K1, K2.
  destruct (unmap_kernel s sp B E (UVPN + 1) (mk_pte trampoline PTE_EXEC) Hi) as (s1 & E1 & Hi1 & Hk1); [lia|by rewrite Hk, lookup_insert_ne, lookup_singleton_eq by lia| |].
  { rewrite mk_pte_flag by (apply Htr || lia). by rewrite P3. }
  rewrite (bind_Ret _ _ _ _ _ E1).
  destruct (unmap_kernel s1 _ B E UVPN (mk_pte tf PTE_NORMAL) Hi1) as (s2 & E2 & Hi2 & Hk2); cbn [sp_L sp_root sp_T] in *; [lia|by rewrite lookup_delete_ne, Hk, lookup_insert_eq by lia| |].
  { rewrite mk_pte_flag by (done || lia). by rewrite P6. }
  rewrite (bind_Ret _ _ _ _ _ E2).
  destruct (free_tables s2 _ B E sz Hi2) as (s3 & E3 & Hi3 & Hk3); cbn [sp_L sp_root] in *.
  - apply (sized_high (sp_L sp)); [done|]. intros v Hv. by rewrite !lookup_delete_ne by lia.
  - intros v Hv. destruct (decide (v = UVPN)) as [->|]; [by rewrite lookup_delete_eq|]. rewrite lookup_delete_ne by done.
    destruct (decide (v = UVPN + 1)) as [->|]; [by rewrite lookup_delete_eq|]. rewrite lookup_delete_ne, Hk, lookup_insert_ne, lookup_singleton_ne by lia. done.
  - exists s3. split; [done|]. split; [done|]. by eapply keeps_trans, keeps_trans.
Qed.
End procvm.
