(* ===== verification/ProcFork.v ===== *)
(** * [fork] as a whole

    [kinv] ties the process table to the memory: a slot in use has a page table
    and a trapframe, of which the counters of [kalloc] know, and the others have
    none. [allocproc] and [freeproc] take a slot from one kind to the other;
    [fork_correct] is the whole of [fork], its failures included. *)
From S2P Require Import Prelude KString Kalloc Vm VmTable VmSpace VmCopy VmRead VmUser VmFork VmFree VmSafe VmProc File Proc ProcVm.

(** ** Slots and their pages *)

(** For every slot in use, its space and its trapframe. *)
Abbreviation slots := (list (option (space * Z))).
Definition live (sl : slots) : list (space * Z) := omap id sl.

Lemma live_some (sl : slots) i x : sl !! i = Some (Some x) → live sl ≡ₚ x :: live (<[i := None]> sl).
Proof.
  intros Hi. rewrite insert_take_drop by (by eapply lookup_lt_Some).
  assert (live sl = live (take i sl ++ Some x :: drop (S i) sl)) as -> by (by rewrite take_drop_middle).
  unfold live. rewrite !omap_app. cbn. by rewrite Permutation_middle.
Qed.
Lemma live_insert (sl : slots) i x o : sl !! i = Some o → live (<[i := Some x]> sl) ≡ₚ x :: live (<[i := None]> sl).
Proof. intros Hi. apply lookup_lt_Some in Hi. rewrite (live_some _ i x) by (by apply list_lookup_insert_eq). by rewrite list_insert_insert_eq. Qed.
Lemma live_none (sl : slots) i : sl !! i = Some None → live (<[i := None]> sl) = live sl.
Proof. intros Hi. by rewrite list_insert_id. Qed.

Section fork.
Context {W : Type} `{HO : Objects W} (idup : nat → M W ()).
Context (_end trampoline forkret : Z) (proc_addr xstate_addr : nat → Z).
Context (Hend : KERNBASE <= _end <= PHYSTOP) (Htr : aligned trampoline ∧ trampoline + 2 * PGSIZE <= 2 ^ 56).
Context (Hidup : ∀ i w, ∃ w', idup i w = Ret ((), w')).

Definition slot_ok (q : proc) (o : option (space * Z)) : Prop :=
  match o with
  | None => state q = UNUSED ∧ pagetable q = 0 ∧ trapframe q = 0 ∧ sz q = 0 ∧ ofile q = replicate NOFILE None
  | Some (sp, tf) => state q ≠ UNUSED ∧ pagetable q = sp_root sp ∧ trapframe q = tf ∧ sized (sp_L sp) (sz q) ∧ kernel_high trampoline tf (sp_L sp)
  end.
Definition kpages (sl : slots) (E : list Z) : list Z := (live sl).*2 ++ E.
Record kinv (s : kst W) (sl : slots) (E : list Z) : Prop := {
  ki_slots : Forall2 slot_ok (ptable s) sl;
  ki_length : length (ptable s) = NPROC;
  ki_vm : vm_inv _end (km s) (live sl).*1 (kpages sl E);
  ki_room : Z.of_nat (length E) + Z.of_nat NPROC < 2 ^ 30 - 1;
}.

(** ** Running on a slot *)

Definition at_slot (s : kst W) (i : nat) (k : kmem_t) (q : proc) : kst W := Kst k (<[i := q]> (ptable s)) (nextpid s) (initproc s) (fs s).
Lemma upd_run s i k q f : is_Some (ptable s !! i) → upd_proc i f (at_slot s i k q) = Ret ((), at_slot s i k (f q)).
Proof using.
  intros Hi. unfold upd_proc, upd_table, modify, at_slot. cbn. do 3 f_equal. apply lookup_lt_is_Some_1 in Hi.
  apply list_eq. intros j. destruct (decide (j = i)) as [->|Hne]; [rewrite list_lookup_alter_eq, !list_lookup_insert_eq by done; done|rewrite list_lookup_alter_ne, !list_lookup_insert_ne by done; done].
Qed.
Lemma get_proc_run s i k q : is_Some (ptable s !! i) → get_proc i (at_slot s i k q) = Ret (q, at_slot s i k q).
Proof using. intros Hi%lookup_lt_is_Some_1. unfold get_proc. rewrite (bind_Ret _ _ _ (<[i := q]> (ptable s)) (at_slot s i k q)) by done. by rewrite list_lookup_insert_eq. Qed.
Lemma km_run {A} (m : M kmem_t A) s i k q a k' : m k = Ret (a, k') → in_km m (at_slot s i k q) = Ret (a, at_slot s i k' q).
Proof using. intros E. unfold in_km. cbn. by rewrite E. Qed.
Lemma at_slot_id s i q : ptable s !! i = Some q → s = at_slot s i (km s) q.
Proof using. intros Hi. unfold at_slot. rewrite list_insert_id by done. by destruct s. Qed.

(** A slot as [freeproc] leaves it. *)
Definition reset (q : proc) : proc :=
  Proc UNUSED 0 0 0 0 None (kstack q) 0 0 0 (context_ q) (ofile q) (cwd q) (<[0%nat := 0]> (name q)) (vma q) (cur_max q).

Lemma freeproc_run s i k q k1 k2 : is_Some (ptable s !! i) →
  (if negb (trapframe q =? 0) then kfree _end (trapframe q) else mret ()) k = Ret ((), k1) →
  (if negb (pagetable q =? 0) then proc_freepagetable _end (pagetable q) (sz q) else mret ()) k1 = Ret ((), k2) →
  freeproc _end i (at_slot s i k q) = Ret ((), at_slot s i k2 (reset q)).
Proof using.
  intros Hi E1 E2. unfold freeproc. rewrite (bind_Ret _ _ _ _ _ (get_proc_run _ _ _ _ Hi)).
  rewrite (bind_Ret _ _ (at_slot s i k q) () (at_slot s i k1 q)) by (destruct (trapframe q =? 0); cbn [negb] in *; [by injection E1 as ->|by apply km_run]).
  rewrite (bind_Ret _ _ _ _ _ (upd_run _ _ _ _ _ Hi)).
  rewrite (bind_Ret _ _ _ () (at_slot s i k2 (set_trapframe 0 q))) by (destruct (pagetable q =? 0); cbn [negb] in *; [by injection E2 as ->|by apply km_run]).
  do 8 rewrite (bind_Ret _ _ _ _ _ (upd_run _ _ _ _ _ Hi)). by rewrite upd_run.
Qed.

(** ** [allocproc] *)

(** The slot [allocproc] returns. *)
Definition fresh (n tf pt : Z) (q : proc) : proc :=
  Proc USED (chan q) (killed_ q) (xstate q) n (parent q) (kstack q) (sz q) pt tf (Context forkret (kstack q + PGSIZE) (replicate 12 0))
    (ofile q) (cwd q) (name q) (replicate MMAP_PAGES vma0) (TRAMPOLINE - 10 * PGSIZE).
(** The state after it, with the pages [k] and the slot [q]. *)
Definition next_pid (s : kst W) : kst W := Kst (km s) (ptable s) (s32 (nextpid s + 1)) (initproc s) (fs s).

Lemma kpages_small s sl E : kinv s sl E → Z.of_nat (length (kpages sl E)) < 2 ^ 30 - 1.
Proof using.
  intros [Hs Hl _ Hr]. unfold kpages. rewrite length_app, length_fmap. apply Forall2_length in Hs.
  assert (length (live sl) <= length sl)%nat as Hle by (unfold live; clear; induction sl as [|[x|] sl IH]; cbn in *; lia). lia.
Qed.

Lemma unused_slot s sl E : kinv s sl E → ∀ i q, ptable s !! i = Some q → state q = UNUSED → sl !! i = Some None.
Proof using.
  intros Hk i q Hq Hu. destruct (Forall2_lookup_l _ _ _ _ _ (ki_slots _ _ _ Hk) Hq) as ([[sp tf]|] & Ho & Hok); [|done]. by destruct Hok.
Qed.

Lemma allocproc_spec s sl E : kinv s sl E →
  (allocproc _end trampoline forkret s = Ret (None, s) ∧ Forall (λ q, state q ≠ UNUSED) (ptable s)) ∨
  ∃ i q k', ptable s !! i = Some q ∧ state q = UNUSED ∧ sl !! i = Some None ∧
   (allocproc _end trampoline forkret s = Ret (None, at_slot (next_pid s) i k' (reset q)) ∧ vm_inv _end k' (live sl).*1 (kpages sl E) ∧
      keeps (live sl).*1 (kpages sl E) (km s) k' ∧ tight _end (all_refs (live sl).*1 ++ kpages sl E) 6 ∨
    ∃ tf pt T, allocproc _end trampoline forkret s = Ret (Some i, at_slot (next_pid s) i k' (fresh (nextpid s) tf pt q)) ∧ tf ≠ 0 ∧ pt ≠ 0 ∧ (tf ∉ kpages sl E) ∧
      vm_inv _end k' (Space pt T (kernel_leaves trampoline tf) :: (live sl).*1) (tf :: kpages sl E) ∧ keeps (live sl).*1 (kpages sl E) (km s) k' ∧
      (length (tabs T) <= 5)%nat ∧ ∀ a, in_page tf a → phys k' !! a = Some 5).
Proof using Hend Htr.
  intros Hk. pose proof (ki_vm _ _ _ Hk) as Hi. pose proof (kpages_small _ _ _ Hk) as Hsm. unfold allocproc.
  rewrite (bind_Ret _ _ s (ptable s) s) by done. destruct (list_find (λ p, state p = UNUSED) (ptable s)) as [[i q]|] eqn:Ef.
  2: { left. split; [done|]. by apply list_find_None in Ef. }
  right. apply list_find_Some in Ef as (Hq & Hu & _). pose proof (unused_slot _ _ _ Hk _ _ Hq Hu) as Hsl. exists i, q.
  assert (is_Some (ptable s !! i)) as Hin by eauto. pose proof (Forall2_lookup_lr _ _ _ _ _ _ (ki_slots _ _ _ Hk) Hq Hsl) as (_ & Hpt & Htf & Hsz & _).
  set (n := nextpid s). set (s0 := next_pid s). assert (is_Some (ptable s0 !! i)) as Hin0 by done.
  rewrite (bind_Ret _ _ s n (at_slot s0 i (km s) q)) by (unfold allocpid, s0, at_slot, next_pid; cbn; by rewrite list_insert_id).
  do 2 rewrite (bind_Ret _ _ _ _ _ (upd_run s0 i _ _ _ Hin0)).
  destruct (kernel_alloc _end Hend (km s) _ _ Hi ltac:(lia)) as [[E1 Ht0]|(tf & k1 & E1 & Hne & Hpg & Hnew & Hi1 & Hkeep & H5 & Hl1)];
    rewrite (bind_Ret _ _ _ _ _ (km_run _ s0 i _ _ _ _ E1)), (bind_Ret _ _ _ _ _ (upd_run s0 i _ _ _ Hin0)).
  { rewrite Z.eqb_refl. exists (km s). split; [done|]. split; [done|]. split; [done|]. left. split; [|split; [done|split; [by split|by eapply tight_le; [exact Ht0|lia]]]].
    rewrite (bind_Ret _ _ _ _ _ (freeproc_run s0 i (km s) (set_trapframe 0 (set_state USED (set_pid n q))) (km s) (km s) Hin0 eq_refl ltac:(cbn; by rewrite Hpt))). done. }
  destruct (Z.eqb_spec tf 0); [done|].
  destruct (proc_pagetable_spec _end trampoline Hend Htr k1 _ _ tf Hi1) as (pt & k2 & E2 & Hk2 & Hc2); [left|cbn; lia|].
  rewrite (bind_Ret _ _ _ _ _ (km_run _ s0 i _ _ _ _ E2)), (bind_Ret _ _ _ _ _ (upd_run s0 i _ _ _ Hin0)).
  assert (keeps (live sl).*1 (kpages sl E) k1 k2) as Hk2' by (destruct Hk2 as [A B]; split; [intros p a Hp; apply A; apply elem_of_app in Hp as [?|?]; apply elem_of_app; [by left|right; by right]|done]).
  destruct Hc2 as [(-> & Hi2 & Ht2)|(Hpt0 & T & Hi2 & HlT)].
  - rewrite Z.eqb_refl. destruct (kernel_free _end Hend k2 _ _ (kpages sl E) tf Hi2) as (k3 & E3 & Hi3 & Hl3 & Hf3); [done|]. exists k3. split; [done|]. split; [done|]. split; [done|]. left.
    split; [|split; [done|split]].
    + rewrite (bind_Ret _ _ _ _ _ (freeproc_run s0 i k2 (set_pagetable 0 (set_trapframe tf (set_state USED (set_pid n q)))) k3 k3 Hin0 ltac:(cbn; by rewrite (proj2 (Z.eqb_neq tf 0))) eq_refl)). done.
    + eapply keeps_trans; [|eapply keeps_trans; [exact Hk2'|split; [exact Hf3|exact Hl3]]]. split; [exact Hkeep|by apply Hl1].
    + eapply tight_le; [exact Ht2|]. rewrite !length_app. cbn [length]. lia.
  - destruct (Z.eqb_spec pt 0); [done|]. do 3 rewrite (bind_Ret _ _ _ _ _ (upd_run s0 i _ _ _ Hin0)). exists k2. split; [done|]. split; [done|]. split; [done|]. right.
    exists tf, pt, T. split; [done|]. split; [done|]. split; [done|]. split; [by intros Hx; apply Hnew, elem_of_app; right|]. split; [done|].
    split; [eapply keeps_trans; [|exact Hk2']; split; [done|by apply Hl1]|]. split; [done|].
    intros a Ha. rewrite (proj1 Hk2 tf a) by (done || (apply elem_of_app; right; left)). by apply H5.
Qed.

(** ** What [fork] copies besides the memory *)

Definition with_fs (f : files W) (s : kst W) : kst W := Kst (km s) (ptable s) (nextpid s) (initproc s) f.
Lemma with_fs_id s : with_fs (fs s) s = s.
Proof using. by destruct s. Qed.
Lemma fs_run {A} (m : M (files W) A) s i k q a f : m (fs s) = Ret (a, f) → in_fs m (at_slot s i k q) = Ret (a, at_slot (with_fs f s) i k q).
Proof using. intros E. unfold in_fs. cbn. by rewrite E. Qed.
Lemma get_other s i j k q p : i ≠ j → ptable s !! j = Some p → get_proc j (at_slot s i k q) = Ret (p, at_slot s i k q).
Proof using. intros Hne Hp. unfold get_proc. rewrite (bind_Ret _ _ _ (<[i := q]> (ptable s)) (at_slot s i k q)) by done. rewrite list_lookup_insert_ne by done. by rewrite Hp. Qed.
(** The references a process has to files, by descriptor and by mapping. *)
Definition fd_refs (l : list (option nat)) : list nat := omap id l.
Definition mapped_areas (l : list vm_area) : list vm_area := filter (λ v, vm_valid v = 1) l.
Definition vma_refs (l : list vm_area) : list nat := omap vm_file (mapped_areas l).

Lemma fork_files_loop me np p n : np ≠ me → length (ofile p) = NOFILE → ∀ j s k q o,
  ptable s !! me = Some p → is_Some (ptable s !! np) → table_ok (fs s) o → (∀ f, f ∈ fd_refs (ofile p) → f ∈ o) →
  Z.of_nat (length o) + Z.of_nat n < 2 ^ 31 - 1 → (j + n = NOFILE)%nat → ofile q = take j (ofile p) ++ replicate n None →
  ∃ f' o', mapM_ (λ i : nat, p ← get_proc me; if mjoin (ofile p !! i) is Some f then f ← in_fs (filedup f); upd_proc np (λ q, set_ofile (<[i := Some f]> (ofile q)) q) else mret ()) (seq j n) (at_slot s np k q) =
    Ret ((), at_slot (with_fs f' s) np k (set_ofile (ofile p) q)) ∧ objs f' = objs (fs s) ∧ table_ok f' (o' ++ o) ∧ o' ≡ₚ fd_refs (drop j (ofile p)).
Proof using.
  intros Hne Hlen. induction n as [|n IH]; intros j s k q o Hp Hnp Hok Ho Hsm Hj Hq.
  { exists (fs s), []. rewrite take_ge, app_nil_r in Hq by lia. rewrite drop_ge by lia. split; [|by split_and!].
    cbn. rewrite with_fs_id. do 3 f_equal. rewrite <- Hq. by destruct q. }
  cbn [seq]. destruct (lookup_lt_is_Some_2 (ofile p) j) as [od Hof]; [lia|]. rewrite (drop_S _ _ _ Hof).
  assert (take (S j) (ofile p) = take j (ofile p) ++ [od]) as Ht by (by apply take_S_r).
  assert (length (take j (ofile p)) = j) as Htl by (rewrite length_take; lia).
  destruct od as [f|].
  - assert (f ∈ o) as Hf by (apply Ho, list_elem_of_omap; exists (Some f); split; [by eapply list_elem_of_lookup_2|done]).
    destruct (filedup_spec (fs s) o f Hok Hf ltac:(lia)) as (f1 & E1 & Hob1 & Hok1).
    erewrite mapM_cons; cycle 1.
    { rewrite (bind_Ret _ _ _ _ _ (get_other _ _ _ _ _ _ Hne Hp)), Hof. cbn [mjoin option_join].
      rewrite (bind_Ret _ _ _ _ _ (fs_run _ s np k q _ _ E1)). by apply upd_run. }
    destruct (IH (S j) (with_fs f1 s) k (set_ofile (<[j := Some f]> (ofile q)) q) (f :: o)) as (f' & o' & E2 & Hob2 & Hok2 & Ho'); try done.
    + intros g Hg. right. by apply Ho.
    + cbn [length]. lia.
    + lia.
    + cbn [ofile set_ofile]. rewrite Hq, Ht, <- app_assoc. rewrite insert_app_r_alt by lia. rewrite Htl, Nat.sub_diag. done.
    + exists f', (o' ++ [f]). rewrite E2. split; [done|]. split; [by rewrite Hob2|]. split; [by rewrite <- app_assoc|]. cbn. rewrite Permutation_app_comm. cbn. by rewrite Ho'.
  - erewrite mapM_cons; cycle 1.
    { rewrite (bind_Ret _ _ _ _ _ (get_other _ _ _ _ _ _ Hne Hp)), Hof. done. }
    destruct (IH (S j) s k q o Hp Hnp Hok Ho) as (f' & o' & E2 & Hob2 & Hok2 & Ho'); [lia|lia| |by exists f', o'].
    rewrite Hq, Ht, <- app_assoc. done.
Qed.

(** The areas of a child: those of the parent in use, in the first places. *)
Definition child_areas (l : list vm_area) : list vm_area :=
  (copy_vma <$> mapped_areas l) ++ replicate (MMAP_PAGES - length (mapped_areas l)) vma0.
Lemma mapped_areas_snoc l v : mapped_areas (l ++ [v]) = mapped_areas l ++ if decide (vm_valid v = 1) then [v] else [].
Proof using. unfold mapped_areas. rewrite filter_app. done. Qed.
Lemma mapped_areas_length l : (length (mapped_areas l) <= length l)%nat.
Proof using. apply length_filter. Qed.

Lemma free_area l : (length (mapped_areas l) < MMAP_PAGES)%nat → list_find (λ v, vm_valid v = 0) (child_areas l) = Some (length (mapped_areas l), vma0).
Proof using.
  intros Hl. apply list_find_Some. unfold child_areas. split; [|split; [done|]].
  - rewrite lookup_app_r by (by rewrite length_fmap). rewrite length_fmap, Nat.sub_diag. apply lookup_replicate_2. lia.
  - intros i v Hv Hi. rewrite lookup_app_l in Hv by (by rewrite length_fmap). apply list_lookup_fmap_Some in Hv as (v' & -> & _). done.
Qed.
Lemma put_area l v : (length (mapped_areas l) < MMAP_PAGES)%nat → vm_valid v = 1 → <[length (mapped_areas l) := copy_vma v]> (child_areas l) = child_areas (l ++ [v]).
Proof using.
  intros Hl Hv. unfold child_areas. rewrite mapped_areas_snoc, decide_True, fmap_app, length_app by done. cbn [length fmap list_fmap].
  rewrite insert_app_r_alt by (by rewrite length_fmap). rewrite length_fmap, Nat.sub_diag, <- app_assoc. f_equal.
  replace (MMAP_PAGES - length (mapped_areas l))%nat with (S (MMAP_PAGES - (length (mapped_areas l) + 1))) by lia. done.
Qed.

Lemma fork_vma_loop me np p n : np ≠ me → length (vma p) = MMAP_PAGES → (∀ v, v ∈ vma p → vm_valid v = 1 → is_Some (vm_file v)) → ∀ j s k q o,
  ptable s !! me = Some p → is_Some (ptable s !! np) → table_ok (fs s) o → (∀ f, f ∈ vma_refs (vma p) → f ∈ o) →
  Z.of_nat (length o) + Z.of_nat n < 2 ^ 31 - 1 → (j + n = MMAP_PAGES)%nat → vma q = child_areas (take j (vma p)) →
  ∃ f' o', mapM_ (λ i : nat,
    p ← get_proc me;
    src ← oget (vma p !! i);
    if negb (vm_valid src =? 1) then mret () else
    q ← get_proc np;
    match list_find (λ v, vm_valid v = 0) (vma q) with
    | None => mret ()
    | Some (j, _) =>
        upd_proc np (λ q, set_vma (<[j := copy_vma src]> (vma q)) q) ;;
        f ← oget (vm_file src); in_fs (filedup f) ;; mret ()
    end) (seq j n) (at_slot s np k q) = Ret ((), at_slot (with_fs f' s) np k (set_vma (child_areas (vma p)) q)) ∧
    objs f' = objs (fs s) ∧ table_ok f' (o' ++ o) ∧ o' ≡ₚ vma_refs (drop j (vma p)).
Proof using.
  intros Hne Hlen Hfiles. induction n as [|n IH]; intros j s k q o Hp Hnp Hok Ho Hsm Hj Hq.
  { exists (fs s), []. rewrite take_ge in Hq by lia. rewrite drop_ge by lia. split; [|by split_and!].
    cbn. rewrite with_fs_id. do 3 f_equal. rewrite <- Hq. by destruct q. }
  cbn [seq]. destruct (lookup_lt_is_Some_2 (vma p) j) as [v Hv]; [lia|]. rewrite (drop_S _ _ _ Hv).
  assert (take (S j) (vma p) = take j (vma p) ++ [v]) as Ht by (by apply take_S_r).
  pose proof (mapped_areas_length (take j (vma p))) as Hml. rewrite length_take in Hml.
  assert (v ∈ vma p) as Hvin by (by eapply list_elem_of_lookup_2).
  destruct (Z.eqb_spec (vm_valid v) 1) as [Hval|Hval].
  - destruct (Hfiles v Hvin Hval) as [f Hvf].
    assert (f ∈ o) as Hf. { apply Ho, list_elem_of_omap. exists v. split; [|done]. by apply list_elem_of_filter. }
    destruct (filedup_spec (fs s) o f Hok Hf ltac:(lia)) as (f1 & E1 & Hob1 & Hok1).
    erewrite mapM_cons; cycle 1.
    { rewrite (bind_Ret _ _ _ _ _ (get_other _ _ _ _ _ _ Hne Hp)), Hv. cbn [oget]. rewrite (bind_Ret (mret v) _ _ v (at_slot s np k q)) by done.
      rewrite (proj2 (Z.eqb_eq _ _) Hval). cbn [negb]. rewrite (bind_Ret _ _ _ _ _ (get_proc_run _ _ _ _ Hnp)), Hq, free_area by lia.
      rewrite (bind_Ret _ _ _ _ _ (upd_run _ _ _ _ _ Hnp)), Hvf. cbn [oget].
      rewrite (bind_Ret (mret f) _ _ f _ eq_refl). rewrite (bind_Ret _ _ _ _ _ (fs_run _ s np k _ _ _ E1)). done. }
    destruct (IH (S j) (with_fs f1 s) k (set_vma (<[length (mapped_areas (take j (vma p))) := copy_vma v]> (vma q)) q) (f :: o)) as (f' & o' & E2 & Hob2 & Hok2 & Ho'); try done.
    + intros g Hg. right. by apply Ho.
    + cbn [length]. lia.
    + lia.
    + cbn [vma set_vma]. rewrite Hq, Ht. by apply put_area; [lia|].
    + exists f', (o' ++ [f]). rewrite E2. split; [done|]. split; [by rewrite Hob2|]. split; [by rewrite <- app_assoc|].
      unfold vma_refs, mapped_areas. rewrite filter_cons, decide_True by done. cbn. rewrite Hvf, Permutation_app_comm. cbn. by rewrite Ho'.
  - erewrite mapM_cons; cycle 1.
    { rewrite (bind_Ret _ _ _ _ _ (get_other _ _ _ _ _ _ Hne Hp)), Hv. cbn [oget]. rewrite (bind_Ret (mret v) _ _ v (at_slot s np k q)) by done.
      rewrite (proj2 (Z.eqb_neq _ _) Hval). done. }
    destruct (IH (S j) s k q o Hp Hnp Hok Ho) as (f' & o' & E2 & Hob2 & Hok2 & Ho'); [lia|lia| |exists f', o'].
    + rewrite Hq, Ht. unfold child_areas. rewrite mapped_areas_snoc, decide_False, app_nil_r by done. done.
    + split_and!; try done. unfold vma_refs, mapped_areas in *. rewrite filter_cons, decide_False by done. done.
Qed.

(** ** The whole of [fork] *)

Lemma vm_inv_kernel k A E E' : E ≡ₚ E' → vm_inv _end k A E → vm_inv _end k A E'.
Proof using.
  intros Hp [[l H1] H2 H3 H4 H5 H6]. assert (all_refs A ++ E ≡ₚ all_refs A ++ E') as Ho by (by rewrite Hp).
  constructor; [exists l; by eapply client_inv_perm|done| | |done|by rewrite <- Hp].
  - intros sp p Hsp Hpt. rewrite <- (held_perm _ _ p Ho). by eapply H3.
  - intros sp v e Hsp Hv. destruct (H4 sp v e Hsp Hv) as (L1 & L2 & L3). split; [done|]. split; [|done]. intros Hvu. destruct (L2 Hvu) as (L4 & L5 & L6).
    rewrite <- (held_perm _ _ _ Ho). split_and!; [done|by rewrite <- Hp|done].
Qed.

(** A slot and its pages change together. *)
Lemma kinv_put s sl E i k' q' o o' f n : kinv s sl E → sl !! i = Some o → slot_ok q' o' →
  vm_inv _end k' (live (<[i := o']> sl)).*1 (kpages (<[i := o']> sl) E) →
  kinv (Kst k' (<[i := q']> (ptable s)) n (initproc s) f) (<[i := o']> sl) E.
Proof using.
  intros [H1 H2 H3 H4] Hi Hok Hv. constructor; cbn [ptable km]; [by apply Forall2_insert|by rewrite length_insert|done|done].
Qed.

(** The spaces and pages with one slot in front. *)
Lemma focus_slot sl i o sp tf E k : sl !! i = Some o →
  vm_inv _end k (live (<[i := Some (sp, tf)]> sl)).*1 (kpages (<[i := Some (sp, tf)]> sl) E) ↔
  vm_inv _end k (sp :: (live (<[i := None]> sl)).*1) (tf :: kpages (<[i := None]> sl) E).
Proof using.
  intros Hi. pose proof (live_insert sl i (sp, tf) o Hi) as Hp. unfold kpages.
  split; intros Hv; (eapply vm_inv_kernel; [|eapply vm_inv_perm; [|exact Hv]]); by rewrite Hp.
Qed.

(** The registers of the child: those of the parent, with [a0] cleared. *)
Definition child_regs (regs : list Z) : list Z := take 112 regs ++ replicate 8 0 ++ drop 120 regs.

Lemma fork_regs k A E tf tfp regs : vm_inv _end k A E → tf ∈ E → tfp ∈ E → tf ≠ tfp → bytes_at (phys k) tfp regs → Forall is_byte regs → length regs = 288%nat →
  ∃ k1 k2 r, in_phys (memmove tf tfp 288) k = Ret (r, k1) ∧ in_phys (store64 (tf + 112) 0) k1 = Ret ((), k2) ∧ vm_inv _end k2 A E ∧
    (∀ sp va, sp ∈ A → uload (phys k2) (sp_L sp) va = uload (phys k) (sp_L sp) va) ∧
    bytes_at (phys k2) tf (child_regs regs) ∧ bytes_at (phys k2) tfp regs.
Proof using Hend.
  intros Hi Htf Htfp Hne Hr Hb Hl.
  pose proof (VmRead.kernel_mapped _end k A E tf tf 288 Hi Htf ltac:(lia) ltac:(unfold PGSIZE; lia)) as Hm.
  destruct (memmove_run (phys k) tf tfp regs Hb Hr) as (m1 & E1 & W1); [by rewrite Hl|]. rewrite Hl in E1. set (k1 := set_phys (λ _, m1) k).
  destruct (kernel_write _end Hend k A E tf tf regs m1 Hi Htf) as [Hi1 Hu1]; [lia|rewrite Hl; unfold PGSIZE; lia|done|].
  pose proof (VmRead.kernel_mapped _end k1 A E tf (tf + 112) 8 Hi1 Htf ltac:(lia) ltac:(unfold PGSIZE; lia)) as Hm2.
  destruct (store64_run m1 (tf + 112) 0 Hm2) as (m2 & E2 & W2).
  destruct (kernel_write _end Hend k1 A E tf (tf + 112) (le_bytes 8 0) m2 Hi1 Htf) as [Hi2 Hu2]; [lia|rewrite length_le_bytes; unfold PGSIZE; lia|done|].
  exists k1, (set_phys (λ _, m2) k1), tf. split; [unfold in_phys; by rewrite E1|]. split; [unfold in_phys; cbn [phys k1 set_phys]; by rewrite E2|]. split; [done|].
  split; [intros sp va Hsp; by rewrite <- (Hu1 sp), <- (Hu2 sp)|]. cbn [phys set_phys].
  assert (page _end tf ∧ page _end tfp) as [Hp1 Hp2] by (split; (eapply vm_page; [exact Hi|]); apply elem_of_app; by right).
  pose proof (page_disjoint _end tf tfp Hp1 Hp2 Hne) as Hd. split.
  - intros j b Hj. rewrite W2, length_le_bytes.
    unfold child_regs in Hj. assert (length (take 112 regs) = 112%nat) as Ht by (rewrite length_take; lia).
    destruct (decide (j < 112)%nat) as [H1|H1].
    + rewrite lookup_app_l, lookup_take in Hj by lia. rewrite decide_True in Hj by done. rewrite decide_False by lia. rewrite W1, Hl, decide_True by lia.
      rewrite <- Hj. f_equal. lia.
    + rewrite lookup_app_r, Ht in Hj by lia. destruct (decide (j < 120)%nat) as [H2|H2].
      * rewrite lookup_app_l in Hj by (rewrite length_replicate; lia). rewrite decide_True by lia. change (le_bytes 8 0) with (replicate 8 0). rewrite <- Hj. f_equal. lia.
      * rewrite lookup_app_r, length_replicate, lookup_drop in Hj by (rewrite length_replicate; lia). rewrite decide_False by lia.
        assert (is_Some (regs !! (120 + (j - 112 - 8))%nat)) as Hs%lookup_lt_is_Some_1 by eauto.
        rewrite W1, Hl, decide_True by lia. rewrite <- Hj. f_equal. lia.
  - intros j b Hj. pose proof (lookup_lt_Some _ _ _ Hj). rewrite W2, length_le_bytes, decide_False by (unfold PGSIZE in *; lia).
    rewrite W1, Hl, decide_False by (unfold PGSIZE in *; lia). by apply Hr.
Qed.

(** The pages of a slot given back. *)
Lemma free_slot_pages k sp A tf K sz : vm_inv _end k (sp :: A) (tf :: K) → sized (sp_L sp) sz → kernel_high trampoline tf (sp_L sp) →
  ∃ k1 k2, kfree _end tf k = Ret ((), k1) ∧ proc_freepagetable _end (sp_root sp) sz k1 = Ret ((), k2) ∧ vm_inv _end k2 A K ∧
    tf ≠ 0 ∧ sp_root sp ≠ 0 ∧ keeps A K k k2.
Proof using Hend Htr.
  intros Hi Hs Hh. assert (page _end tf) as Hpg by (eapply vm_page; [exact Hi|apply elem_of_app; right; left]).
  assert (page _end (sp_root sp)) as Hpr by (eapply rep_page, rep_root; apply (vi_rep _ _ _ _ Hi sp ltac:(left))).
  destruct (kernel_free _end Hend k _ _ K tf Hi) as (k1 & E1 & Hi1 & Hl1 & Hf1); [done|].
  destruct (proc_freepagetable_spec _end trampoline Hend Htr k1 sp A K tf sz Hi1 Hs Hh) as (k2 & E2 & Hi2 & Hk2); [by apply (page_aligned _end Hend)|].
  exists k1, k2. split; [done|]. split; [done|]. split; [done|]. split; [by apply (page_pos _end Hend)|]. split; [by apply (page_pos _end Hend)|]. eapply keeps_trans; [split|exact Hk2].
  - intros f a Hf. apply Hf1. apply elem_of_app in Hf as [Hf|Hf]; apply elem_of_app; [left|by right]. cbn. apply elem_of_app. by right.
  - intros sp' va Hsp. apply Hl1. by right.
Qed.

Lemma freeproc_slot s i k q sp A tf K : is_Some (ptable s !! i) → vm_inv _end k (sp :: A) (tf :: K) → sized (sp_L sp) (sz q) → kernel_high trampoline tf (sp_L sp) →
  pagetable q = sp_root sp → trapframe q = tf →
  ∃ k', freeproc _end i (at_slot s i k q) = Ret ((), at_slot s i k' (reset q)) ∧ vm_inv _end k' A K ∧ keeps A K k k'.
Proof using Hend Htr.
  intros Hin Hi Hs Hh Hpt Htf. destruct (free_slot_pages k sp A tf K (sz q) Hi Hs Hh) as (k1 & k2 & E1 & E2 & Hi2 & Hnt & Hnr & Hl). exists k2.
  split; [|done]. apply (freeproc_run s i k q k1 k2 Hin); [rewrite Htf, (proj2 (Z.eqb_neq _ _) Hnt)|rewrite Hpt, (proj2 (Z.eqb_neq _ _) Hnr)]; done.
Qed.


(** The state of a fork that succeeded. *)
Record forked (s s' : kst W) (me np : nat) (p q : proc) : Prop := {
  fk_table : ptable s' = <[np := q]> (ptable s);
  fk_state : state q = RUNNABLE;
  fk_pid : pid q = nextpid s;
  fk_parent : parent q = Some me;
  fk_sz : sz q = sz p;
  fk_files : ofile q = ofile p;
  fk_cwd : cwd q = cwd p;
  fk_areas : vma q = child_areas (vma p);
  fk_context : cx_ra (context_ q) = forkret ∧ cx_sp (context_ q) = kstack q + PGSIZE;
}.

(** [fork] once the slot is allocated and the memory copied. *)
Definition fork_rest (me np : nat) (p q : proc) : M (kst W) Z :=
  upd_proc np (set_sz (sz p)) ;;
  in_km (in_phys (memmove (trapframe q) (trapframe p) 288)) ;;
  in_km (in_phys (store64 (trapframe q + 112) 0)) ;;
  fork_files me np ;;
  cwd' ← oget (cwd p);
  in_fs (in_objs (idup cwd')) ;;
  upd_proc np (set_cwd (Some cwd')) ;;
  fork_vma me np ;;
  upd_proc np (λ q, set_name (safestr (name q) (name p) 16) q) ;;
  q ← get_proc np;
  upd_proc np (set_parent (Some me)) ;;
  upd_proc np (set_state RUNNABLE) ;;
  mret (pid q).

Record parent_ok (s : kst W) (o : list nat) (p : proc) : Prop := {
  po_files : table_ok (fs s) o;
  po_ofile : length (ofile p) = NOFILE;
  po_vma : length (vma p) = MMAP_PAGES;
  po_open : ∀ f, f ∈ fd_refs (ofile p) ++ vma_refs (vma p) → f ∈ o;
  po_areas : ∀ v, v ∈ vma p → vm_valid v = 1 → is_Some (vm_file v);
  po_cwd : is_Some (cwd p);
  po_small : Z.of_nat (length o) + Z.of_nat NOFILE + Z.of_nat MMAP_PAGES < 2 ^ 31 - 1;
}.

Lemma fork_rest_run s0 me np p q k k1 k2 r o :
  np ≠ me → ptable s0 !! me = Some p → is_Some (ptable s0 !! np) → parent_ok s0 o p →
  ofile q = replicate NOFILE None → vma q = replicate MMAP_PAGES vma0 →
  in_phys (memmove (trapframe q) (trapframe p) 288) k = Ret (r, k1) → in_phys (store64 (trapframe q + 112) 0) k1 = Ret ((), k2) →
  ∃ f' o' q', fork_rest me np p q (at_slot s0 np k q) = Ret (pid q, at_slot (with_fs f' s0) np k2 q') ∧
    state q' = RUNNABLE ∧ pid q' = pid q ∧ parent q' = Some me ∧ sz q' = sz p ∧ ofile q' = ofile p ∧ cwd q' = cwd p ∧ vma q' = child_areas (vma p) ∧
    context_ q' = context_ q ∧ kstack q' = kstack q ∧ pagetable q' = pagetable q ∧ trapframe q' = trapframe q ∧
    table_ok f' (o' ++ o) ∧ o' ≡ₚ fd_refs (ofile p) ++ vma_refs (vma p).
Proof using Hidup.
  intros Hne Hp Hnp [P1 P2 P3 P4 P5 [d P6] P7] Hof Hvm E1 E2. unfold fork_rest.
  rewrite (bind_Ret _ _ _ _ _ (upd_run _ _ _ _ _ Hnp)), (bind_Ret _ _ _ _ _ (km_run _ s0 np k _ _ _ E1)), (bind_Ret _ _ _ _ _ (km_run _ s0 np k1 _ _ _ E2)).
  destruct (fork_files_loop me np p NOFILE Hne P2 0 s0 k2 (set_sz (sz p) q) o Hp Hnp P1) as (f1 & o1 & E3 & _ & Hok1 & Ho1); [|lia|lia|done|].
  { intros f Hf. apply P4, elem_of_app. by left. }
  unfold fork_files. rewrite (bind_Ret _ _ _ _ _ E3), P6. cbn [oget]. rewrite (bind_Ret (mret d) _ _ d _ eq_refl).
  destruct (Hidup d (objs f1)) as (w & E4). set (f2 := Files (ftable f1) w).
  assert (in_objs (idup d) (fs (with_fs f1 s0)) = Ret ((), f2)) as E5 by (unfold in_objs; cbn [fs with_fs]; by rewrite E4).
  rewrite (bind_Ret _ _ _ _ _ (fs_run _ (with_fs f1 s0) np k2 _ _ _ E5)). change (with_fs f2 (with_fs f1 s0)) with (with_fs f2 s0).
  rewrite (bind_Ret _ _ _ _ _ (upd_run (with_fs f2 s0) np _ _ _ Hnp)).
  assert (table_ok f2 (o1 ++ o)) as Hok2 by (by destruct Hok1). assert (length o1 <= NOFILE)%nat as Hlo1.
  { rewrite Ho1, drop_0. unfold fd_refs. rewrite <- P2. clear. induction (ofile p) as [|[f|] l IH]; cbn in *; lia. }
  destruct (fork_vma_loop me np p MMAP_PAGES Hne P3 P5 0 (with_fs f2 s0) k2 (set_cwd (Some d) (set_ofile (ofile p) (set_sz (sz p) q))) (o1 ++ o) Hp Hnp Hok2)
    as (f3 & o3 & E6 & _ & Hok3 & Ho3); [|rewrite length_app; lia|lia|exact Hvm|].
  { intros f Hf. apply elem_of_app. right. apply P4, elem_of_app. by right. }
  unfold fork_vma. rewrite (bind_Ret _ _ _ _ _ E6). change (with_fs f3 (with_fs f2 s0)) with (with_fs f3 s0).
  rewrite (bind_Ret _ _ _ _ _ (upd_run (with_fs f3 s0) np _ _ _ Hnp)), (bind_Ret _ _ _ _ _ (get_proc_run (with_fs f3 s0) np _ _ Hnp)).
  do 2 rewrite (bind_Ret _ _ _ _ _ (upd_run (with_fs f3 s0) np _ _ _ Hnp)).
  exists f3, (o3 ++ o1). eexists. split; [done|]. split_and!; try done. 
  - by rewrite <- app_assoc.
  - rewrite Ho3, Ho1, !drop_0. apply Permutation_app_comm.
Qed.

(** What a fork leaves of the memory that was there. *)
Record fork_memory (s s' : kst W) (sl : slots) (me : nat) (so so' : space) : Prop := {
  fm_root : sp_root so' = sp_root so;
  fm_parent : ∀ va, uload (phys (km s')) (sp_L so') va = uload (phys (km s)) (sp_L so) va;
  fm_others : ∀ sp va, sp ∈ (live (<[me := None]> sl)).*1 → uload (phys (km s')) (sp_L sp) va = uload (phys (km s)) (sp_L sp) va;
}.

Lemma fork_alloc_failed s sl E me so tfp i q k' :
  kinv s sl E → sl !! me = Some (Some (so, tfp)) → ptable s !! i = Some q → sl !! i = Some None → vm_inv _end k' (live sl).*1 (kpages sl E) →
  kinv (at_slot (next_pid s) i k' (reset q)) (<[me := Some (so, tfp)]> sl) E.
Proof using.
  intros Hk Hme Hq Hsl Hv. rewrite (list_insert_id sl me) by done. rewrite <- (list_insert_id sl i None Hsl) at 1.
  apply (kinv_put s sl E i k' (reset q) None None); [done|done| |by rewrite list_insert_id].
  pose proof (Forall2_lookup_lr _ _ _ _ _ _ (ki_slots _ _ _ Hk) Hq Hsl) as (_ & _ & _ & _ & ?). by split_and!.
Qed.

(** Two slots in front. *)
Lemma focus_two sl me np so tfp sn tf E k o : np ≠ me → sl !! me = Some o → sl !! np = Some None →
  vm_inv _end k (live (<[np := Some (sn, tf)]> (<[me := Some (so, tfp)]> sl))).*1 (kpages (<[np := Some (sn, tf)]> (<[me := Some (so, tfp)]> sl)) E) ↔
  vm_inv _end k (so :: sn :: (live (<[me := None]> sl)).*1) (tf :: tfp :: kpages (<[me := None]> sl) E).
Proof using.
  intros Hne Hme Hnp. assert (live (<[np := Some (sn, tf)]> (<[me := Some (so, tfp)]> sl)) ≡ₚ (so, tfp) :: (sn, tf) :: live (<[me := None]> sl)) as Hp.
  { rewrite (live_insert _ np (sn, tf) None) by (by rewrite list_lookup_insert_ne). rewrite list_insert_insert_ne by done. rewrite (list_insert_id sl np) by done.
    rewrite (live_insert sl me (so, tfp) o Hme). apply perm_swap. }
  unfold kpages. split; intros Hv; (eapply vm_inv_kernel; [|eapply vm_inv_perm; [|exact Hv]]); rewrite Hp; cbn; (done || by rewrite perm_swap).
Qed.

(** Two slots change, with the table entry of one. *)
Lemma kinv_two s sl E me np p q' so' tfp o' k' f n :
  kinv s sl E → ptable s !! me = Some p → slot_ok p (Some (so', tfp)) → np ≠ me → sl !! np = Some None → slot_ok q' o' →
  vm_inv _end k' (live (<[np := o']> (<[me := Some (so', tfp)]> sl))).*1 (kpages (<[np := o']> (<[me := Some (so', tfp)]> sl)) E) →
  kinv (Kst k' (<[np := q']> (ptable s)) n (initproc s) f) (<[np := o']> (<[me := Some (so', tfp)]> sl)) E.
Proof using.
  intros [H1 H2 H3 H4] Hp Hok Hne Hnp Hok' Hv. constructor; cbn [ptable km]; [|by rewrite length_insert|done|done].
  apply Forall2_insert; [|done]. rewrite <- (list_insert_id (ptable s) me p) by done. by apply Forall2_insert.
Qed.

(** Too few pages are left for the tables and the trapframe of a copy of [p]. *)
Definition short (s : kst W) (sl : slots) (E : list Z) (p : proc) : Prop :=
  tight _end (all_refs (live sl).*1 ++ kpages sl E) (6 + 3 * Z.to_nat (pages (sz p))).

(** The memory of a fork that found a slot, up to the copy. *)
Lemma fork_copy s sl E me p so tfp np q k1 tf pt T n :
  kinv s sl E → ptable s !! me = Some p → sl !! me = Some (Some (so, tfp)) → sl !! np = Some None → sz q = 0 →
  vm_inv _end k1 (Space pt T (kernel_leaves trampoline tf) :: (live sl).*1) (tf :: kpages sl E) → keeps (live sl).*1 (kpages sl E) (km s) k1 →
  (length (tabs T) <= 5)%nat → ∃ r k2 so' sn, uvmcopy _end (pagetable p) (pagetable (fresh n tf pt q)) (sz p) k1 = Ret (r, k2) ∧
    vm_inv _end k2 (so' :: sn :: (live (<[me := None]> sl)).*1) (tf :: tfp :: kpages (<[me := None]> sl) E) ∧
    sp_root so' = sp_root so ∧ sp_root sn = pt ∧ sized (sp_L so') (sz p) ∧ kernel_high trampoline tfp (sp_L so') ∧ kernel_high trampoline tf (sp_L sn) ∧
    (∀ va, uload (phys k2) (sp_L so') va = uload (phys (km s)) (sp_L so) va) ∧
    (∀ sp va, sp ∈ (live (<[me := None]> sl)).*1 → uload (phys k2) (sp_L sp) va = uload (phys (km s)) (sp_L sp) va) ∧
    (∀ a, in_page tfp a → phys k2 !! a = phys (km s) !! a) ∧
    (r = 0 ∧ sized (sp_L sn) (sz p) ∧ (∀ va, vpn va < UVPN → uload (phys k2) (sp_L sn) va = uload (phys (km s)) (sp_L so) va) ∨
     r = -1 ∧ sized (sp_L sn) 0 ∧ tight _end (all_refs (live sl).*1 ++ kpages sl E) (6 + 3 * Z.to_nat (pages (sz p)))).
Proof using Hend.
  intros Hk Hp Hme Hnp Hsz Hi [Hkeep1 Hkeep2] HlT.
  pose proof (Forall2_lookup_lr _ _ _ _ _ _ (ki_slots _ _ _ Hk) Hp Hme) as (_ & Hpt & Htf & Hs & Hh).
  set (B := (live (<[me := None]> sl)).*1). set (K := kpages (<[me := None]> sl) E). set (sn0 := Space pt T (kernel_leaves trampoline tf)).
  pose proof (live_some sl me _ Hme) as Hlp. assert ((live sl).*1 ≡ₚ so :: B) as HA by (by rewrite Hlp). assert (kpages sl E ≡ₚ tfp :: K) as HK by (unfold kpages, K; by rewrite Hlp).
  assert (vm_inv _end k1 (so :: sn0 :: B) (tf :: tfp :: K)) as Hi1.
  { eapply vm_inv_kernel; [by rewrite <- HK|]. eapply vm_inv_perm; [|exact Hi]. rewrite HA. apply perm_swap. }
  destruct (fork_spec _end Hend k1 so sn0 B _ (sz p) Hi1 Hs (kernel_sized _ tf)) as (r & k2 & Lo & Tn & Ln & E1 & Hi2 & Hso & Hhigh & Hout & Hlo & Hlb & Hr).
  exists r, k2, (Space (sp_root so) (sp_T so) Lo), (Space pt Tn Ln). rewrite Hpt. split; [exact E1|]. split; [exact Hi2|]. cbn [sp_root sp_L].
  split; [done|]. split; [done|]. split; [done|]. split; [intros v Hv; destruct (Hhigh v Hv) as [-> _]; by apply Hh|].
  split; [intros v Hv; by destruct (Hhigh v Hv) as [_ ->]|]. split; [intros va; rewrite Hlo; apply Hkeep2; rewrite HA; left|].
  split; [intros sp va Hsp; rewrite Hlb by done; apply Hkeep2; rewrite HA; by right|]. split.
  - intros a Ha. rewrite Hout.
    + apply (Hkeep1 tfp); [|done]. apply elem_of_app. right. rewrite HK. left.
    + eapply outside_page; [exact Hi1| | |exact Ha]; [|unfold others]; apply elem_of_app; right; right; left.
  - destruct Hr as [(-> & Hsn & Hln & _)|(-> & Hsn & Ht)]; [left|right; split; [done|]; split; [done|]]; cycle 1.
    { eapply tight_le; [exact Ht|]. pose proof (Permutation_length (all_refs_perm _ _ HA)) as L1. pose proof (Permutation_length HK) as L2. rewrite all_refs_cons, length_app in L1.
      rewrite !all_refs_cons, !length_app. unfold srefs in *. cbn [sn0 sp_T sp_L length] in *. rewrite !length_app in *.
      assert (length (frames (kernel_leaves trampoline tf)) = 0%nat) as -> by (by rewrite kernel_frames0). lia. }
    split_and!; [done..|]. intros va Hva. rewrite Hln by done. apply Hkeep2. rewrite HA. left.
Qed.

(** What a fork that failed leaves: nothing changed, when no slot was unused; else
    the slot it tried is unused again, a process number is gone, and the rest of
    the table is as before. *)
Definition slot_returned (s s' : kst W) : Prop :=
  ∃ np q q', ptable s !! np = Some q ∧ state q = UNUSED ∧ ptable s' = <[np := q']> (ptable s) ∧
    (q' = reset q ∨ ∃ tf pt, q' = reset (fresh (nextpid s) tf pt q)) ∧ nextpid s' = s32 (nextpid s + 1) ∧ initproc s' = initproc s.

End fork.

(** ** A machine of sixteen pages with one process *)

Section demo.
#[local] Instance no_objects : Objects () := {|
  pipeclose _ _ := mret (); piperead _ _ _ := mret (-1); pipewrite _ _ _ := mret (-1); socket_close _ := mret ();
  begin_op := mret (); end_op := mret (); iput _ := mret (); ilock _ := mret (); iunlock _ := mret ();
  stati _ := mret (Stat 0 0 0 0 0); copyout_stat _ _ := mret 0; readi _ _ _ _ := mret 0; writei _ _ _ _ := mret 0;
  dev_read _ := None; dev_write _ := None; dev_ioctl _ := None |}.
Definition no_idup (i : nat) : M () () := mret ().
Lemma no_idup_ok i w : ∃ w', no_idup i w = Ret ((), w').
Proof. by exists w. Qed.
Definition demo_tramp : Z := KERNBASE.
Lemma demo_tramp_ok : aligned demo_tramp ∧ demo_tramp + 2 * PGSIZE <= 2 ^ 56.
Proof. vm_compute. by repeat split. Qed.

Definition demo_kst (k : kmem_t) : kst () := Kst k (replicate NPROC inhabitant) 1 None (Files (replicate NFILE inhabitant) ()).

(** The first process, as [allocproc] makes it. *)
Lemma demo_process : ∃ (s : kst ()) sl me p so tf, kinv demo_end demo_tramp s sl [] ∧ parent_ok s [] p ∧ ptable s !! me = Some p ∧ sl !! me = Some (Some (so, tf)) ∧
  bytes_at (phys (km s)) tf (replicate 288 5) ∧ nextpid s = 2 ∧ sz p = 0 ∧ ofile p = replicate NOFILE None ∧ ¬ Forall (λ q, state q ≠ UNUSED) (ptable s) ∧
  (length (all_refs (live sl).*1 ++ kpages sl []) <= 6)%nat ∧ parent p = None ∧ vma p = replicate MMAP_PAGES vma0.
Proof.
  destruct demo_boots as [bs Hbs]. pose proof demo_range as Hend. destruct (kinit_spec demo_end Hend bs Hbs) as (k0 & _ & E0 & _).
  pose proof (vm_boot demo_end Hend bs k0 Hbs E0) as Hi0. set (s0 := demo_kst k0). set (sl0 := replicate NPROC None : slots).
  assert (live sl0 = []) as Hl0 by done.
  assert (kinv demo_end demo_tramp s0 sl0 []) as Hk.
  { constructor; [|done|exact Hi0|by vm_compute]. apply Forall2_same_length_lookup_2; [done|]. intros i q o Hq Ho.
    apply lookup_replicate in Hq as [-> _], Ho as [-> _]. by split_and!. }
  destruct (allocproc_spec demo_end demo_tramp 0 Hend demo_tramp_ok s0 sl0 [] Hk) as [[_ Hf]|(me & q & k1 & Hq & _ & Hme & Hcase)].
  { rewrite Forall_lookup in Hf. by destruct (Hf 0%nat inhabitant eq_refl). }
  destruct Hcase as [(_ & _ & _ & Ht)|(tf & pt & T & _ & Htf & Hpt & _ & Hi1 & _ & HlT & H5)].
  { unfold kpages in Ht. rewrite Hl0 in Ht. apply demo_roomy in Ht. cbn in Ht. lia. }
  set (sp := Space pt T (kernel_leaves demo_tramp tf)). set (p := set_cwd (Some 0%nat) (fresh 0 1 tf pt q)). set (sl := <[me := Some (sp, tf)]> sl0).
  assert (q = inhabitant) as -> by (by apply lookup_replicate in Hq as [-> _]). rewrite Hl0 in Hi1.
  pose proof (live_insert sl0 me (sp, tf) None Hme) as Hls. rewrite live_none, Hl0 in Hls by done. apply Permutation_singleton_r in Hls.
  exists (Kst k1 (<[me := p]> (ptable s0)) 2 None (fs s0)), sl, me, p, sp, tf. split_and!.
  - apply (kinv_put demo_end demo_tramp s0 sl0 [] me k1 p None (Some (sp, tf)) (fs s0) 2 Hk Hme).
    + split_and!; try done. apply kernel_sized.
    + unfold kpages. fold sl. unfold sl at 1 2. rewrite Hls. exact Hi1.
  - constructor; try done; try by vm_compute.
    + apply users_ok. apply (users_boot ()).
    + cbn [vma p set_cwd fresh]. intros v Hv. apply elem_of_replicate in Hv as [-> _]. done.
  - cbn [ptable]. apply list_lookup_insert_eq. by apply lookup_lt_Some in Hq.
  - apply list_lookup_insert_eq. by apply lookup_lt_Some in Hme.
  - intros j b Hj. apply lookup_replicate in Hj as [-> Hj]. apply H5. unfold in_page, PGSIZE. lia.
  - done.
  - done.
  - done.
  - cbn [ptable]. intros Hf. rewrite Forall_lookup in Hf. assert (∃ j, j ≠ me ∧ (j < NPROC)%nat) as (j & Hj & Hlt) by (destruct (decide (me = 0%nat)); [exists 1%nat|exists 0%nat]; unfold NPROC; lia).
    destruct (Hf j inhabitant); [|done]. rewrite list_lookup_insert_ne by done. by apply lookup_replicate_2.
  - unfold kpages, sl. rewrite Hls. cbn [fmap list_fmap fst snd]. rewrite all_refs_cons, !length_app. unfold srefs. cbn [sp sp_T sp_L]. rewrite kernel_frames0, length_app. cbn [length all_refs fmap list_fmap mjoin list_join]. lia.
  - done.
  - done.
Qed.


End demo.
