(* ===== verification/Sleep.v ===== *)
(** * Sleeping, waiting and exiting on several harts: [kernel/proc.c]

    [Proc] has the functions as one hart runs them alone. Here every process steps
    from lock operation to lock operation, interleaved with all the others in any
    order: [wait], [exit] with [reparent] and [wakeup], [kill], [fork], [sleep] and
    [wakeup] of other code, preemption and the scheduler. A section that holds one
    [p->lock] and takes no other lock is one step, which waits until that lock is
    free ([Spinlock.spinlock_safe] is why); a lock that is held across steps has an
    owner in the state: [wait_lock], and the [p->lock]s of a process that goes to
    sleep, exits, wakes up, or is being made. *)
From S2P Require Import Prelude KString Kalloc Vm File Proc ProcFork.

(** Where the kernel thread of a process is. The names of the points of [wait] begin
    with [W], those of [exit] with [E], those of [fork] with [F]. *)
Inductive point : Type :=
  | Run                                  (* in user mode, or other kernel code *)
  | Slept | SleptWake                    (* [sleep] of other code; scheduled again, p->lock held *)
  | WAcq                                 (* wants wait_lock *)
  | WScan (i : nat) (havekids : bool)    (* wait_lock held, at slot i *)
  | WKilled                              (* about to ask killed(p) *)
  | WSleep1 | WSleep2 | WSleep3          (* sleep: acquire p->lock; release wait_lock; SLEEPING *)
  | WAsleep | WWake                      (* switched away; scheduled again, p->lock held *)
  | EAcq                                 (* wants wait_lock *)
  | EOrph (i : nat)                      (* reparent at slot i *)
  | EOrphWake (i j : nat)                (* wakeup(initproc) at slot j, for the child of slot i *)
  | EWake (j : nat)                      (* wakeup(p->parent) at slot j *)
  | ELock | EZombie | ERel | ESched      (* acquire p->lock; ZOMBIE; release wait_lock; switch away *)
  | Dead                                 (* no thread *)
  | KillAt (n : Z) (i : nat)             (* kill(n) at slot i *)
  | WakeAt (ch : Z) (j : nat)            (* wakeup(ch) of other code, at slot j *)
  | FAt (i : nat)                        (* allocproc at slot i *)
  | FHave (i : nat)                      (* the new slot's lock held *)
  | FParent (i : nat) | FRun (i : nat).  (* np->parent; RUNNABLE *)

(** What a thread does next. [Fail] is the other outcome of a call that can fail:
    [copyout] in [wait], memory in [fork]. *)
Inductive act : Type := Go | Fail | DoWait | DoExit (status : Z) | DoKill (n : Z) | DoFork | DoSleep (ch : Z) | DoWake (ch : Z) | DoYield | Sched.

Record sys := Sys { tab : nat → proc; wl : option nat; pl : nat → option nat; pcs : nat → point; npid : Z }.

Section sleep.
(** [initproc], and where the table's entries are. *)
Context (init : nat) (addr : nat → Z).

Definition go (h : nat) (p : point) (m : sys) : sys := Sys (tab m) (wl m) (pl m) (<[h := p]> (pcs m)) (npid m).
Definition upd (i : nat) (f : proc → proc) (m : sys) : sys := Sys (<[i := f (tab m i)]> (tab m)) (wl m) (pl m) (pcs m) (npid m).
Definition set_wl (o : option nat) (m : sys) : sys := Sys (tab m) o (pl m) (pcs m) (npid m).
Definition set_pl (i : nat) (o : option nat) (m : sys) : sys := Sys (tab m) (wl m) (<[i := o]> (pl m)) (pcs m) (npid m).
Definition next_pid (m : sys) : sys := Sys (tab m) (wl m) (pl m) (pcs m) (s32 (npid m + 1)).
(** A step that needs the lock of slot [i], or [wait_lock]. *)
Definition with_pl (i : nat) (m : sys) (m' : sys) : option sys := if pl m i is None then Some m' else None.
Definition with_wl (m : sys) (m' : sys) : option sys := if wl m is None then Some m' else None.

(** Points at which the timer may take the hart away: no lock is held. *)
Definition preemptible (p : point) : bool :=
  match p with Run | WAcq | EAcq | KillAt _ _ | WakeAt _ _ | FAt _ | FParent _ | FRun _ => true | _ => false end.
(** Points of a process that has called [sched] and waits to run again; the lock is
    held when it does. *)
Definition resume (p : point) : point := match p with Slept => SleptWake | WAsleep => WWake | p => p end.
Definition keep_lock (h : nat) (p : point) (m : sys) : sys := match p with Slept | WAsleep => set_pl h (Some h) m | _ => m end.
(** A thread runs on a hart while its process is RUNNING, and on until it has
    switched away. *)
Definition on_hart (h : nat) (m : sys) : bool :=
  bool_decide (state (tab m h) = RUNNING) || match pcs m h with ERel | ESched => true | _ => false end.

Definition wait_step (h : nat) (a : act) (m : sys) : option sys :=
  match pcs m h, a with
  | WAcq, Go => with_wl m (go h (WScan 0 false) (set_wl (Some h) m))
  | WScan i havekids, _ =>
      if decide (i < NPROC)%nat then
        if decide (parent (tab m i) = Some h) then
          if decide (state (tab m i) = ZOMBIE) then
            match a with
            | Go => with_pl i m (go h Run (set_wl None (upd i reset m)))
            | Fail => with_pl i m (go h Run (set_wl None m))
            | _ => None
            end
          else if a is Go then with_pl i m (go h (WScan (S i) true) m) else None
        else if a is Go then Some (go h (WScan (S i) havekids) m) else None
      else if a is Go then Some (if havekids then go h WKilled m else go h Run (set_wl None m)) else None
  | WKilled, Go => with_pl h m (if killed_ (tab m h) =? 0 then go h WSleep1 m else go h Run (set_wl None m))
  | WSleep1, Go => with_pl h m (go h WSleep2 (set_pl h (Some h) m))
  | WSleep2, Go => Some (go h WSleep3 (set_wl None m))
  | WSleep3, Go => Some (go h WAsleep (set_pl h None (upd h (λ p, set_state SLEEPING (set_chan (addr h) p)) m)))
  | WWake, Go => Some (go h WAcq (set_pl h None (upd h (set_chan 0) m)))
  | _, _ => None
  end.

Definition exit_step (h : nat) (a : act) (m : sys) : option sys :=
  match pcs m h, a with
  | EAcq, Go => with_wl m (go h (EOrph 0) (set_wl (Some h) m))
  | EOrph i, Go =>
      if decide (i < NPROC)%nat then
        if decide (parent (tab m i) = Some h) then Some (go h (EOrphWake i 0) (upd i (set_parent (Some init)) m))
        else Some (go h (EOrph (S i)) m)
      else Some (go h (EWake 0) m)
  | EOrphWake i j, Go =>
      if decide (j < NPROC)%nat then
        if decide (j = h) then Some (go h (EOrphWake i (S j)) m)
        else with_pl j m (go h (EOrphWake i (S j)) (upd j (wake (addr init)) m))
      else Some (go h (EOrph (S i)) m)
  | EWake j, Go =>
      if decide (j < NPROC)%nat then
        if decide (j = h) then Some (go h (EWake (S j)) m)
        else with_pl j m (go h (EWake (S j)) (upd j (wake (procp addr (parent (tab m h)))) m))
      else Some (go h ELock m)
  | ELock, Go => with_pl h m (go h EZombie (set_pl h (Some h) m))
  | EZombie, DoExit status => Some (go h ERel (upd h (λ p, set_state ZOMBIE (set_xstate status p)) m))
  | ERel, Go => Some (go h ESched (set_wl None m))
  | ESched, Go => Some (go h Dead (set_pl h None m))
  | _, _ => None
  end.

Definition fork_step (h : nat) (a : act) (m : sys) : option sys :=
  match pcs m h, a with
  | FAt i, Go =>
      if decide (i < NPROC)%nat then
        if decide (state (tab m i) = UNUSED) then
          with_pl i m (go h (FHave i) (set_pl i (Some h) (next_pid (upd i (λ p, set_state USED (set_pid (npid m) p)) m))))
        else with_pl i m (go h (FAt (S i)) m)
      else Some (go h Run m)
  | FHave i, Go => Some (go h (FParent i) (set_pl i None m))
  | FHave i, Fail => Some (go h Run (set_pl i None (upd i reset m)))
  | FParent i, Go => with_wl m (go h (FRun i) (upd i (set_parent (Some h)) m))
  | FRun i, Go => with_pl i m (go h Run (go i Run (upd i (set_state RUNNABLE) m)))
  | _, _ => None
  end.

Definition other_step (h : nat) (a : act) (m : sys) : option sys :=
  match pcs m h, a with
  | Run, DoWait => Some (go h WAcq m)
  | Run, DoExit _ => if decide (h = init) then None else Some (go h EAcq m)
  | Run, DoKill n => Some (go h (KillAt n 0) m)
  | Run, DoFork => Some (go h (FAt 0) m)
  | Run, DoWake ch => Some (go h (WakeAt ch 0) m)
  | Run, DoSleep ch => with_pl h m (go h Slept (upd h (λ p, set_state SLEEPING (set_chan ch p)) m))
  | SleptWake, Go => Some (go h Run (set_pl h None (upd h (set_chan 0) m)))
  | KillAt n i, Go =>
      if decide (i < NPROC)%nat then
        with_pl i m (if pid (tab m i) =? n then go h Run (upd i hit m) else go h (KillAt n (S i)) m)
      else Some (go h Run m)
  | WakeAt ch j, Go =>
      if decide (j < NPROC)%nat then
        if decide (j = h) then Some (go h (WakeAt ch (S j)) m) else with_pl j m (go h (WakeAt ch (S j)) (upd j (wake ch) m))
      else Some (go h Run m)
  | _, _ => None
  end.

(** A step of process [h], or of a scheduler that finds it. *)
Definition step (h : nat) (a : act) (m : sys) : option sys :=
  match a with
  | Sched =>
      if bool_decide (state (tab m h) = RUNNABLE)
      then with_pl h m (go h (resume (pcs m h)) (keep_lock h (pcs m h) (upd h (set_state RUNNING) m)))
      else None
  | DoYield =>
      if on_hart h m && preemptible (pcs m h) then with_pl h m (upd h (set_state RUNNABLE) m) else None
  | _ =>
      if on_hart h m then
        match pcs m h with
        | WAcq | WScan _ _ | WKilled | WSleep1 | WSleep2 | WSleep3 | WWake => wait_step h a m
        | EAcq | EOrph _ | EOrphWake _ _ | EWake _ | ELock | EZombie | ERel | ESched => exit_step h a m
        | FAt _ | FHave _ | FParent _ | FRun _ => fork_step h a m
        | _ => other_step h a m
        end
      else None
  end.

(** The first process runs, all other slots are unused. *)
Definition start : sys :=
  Sys (<[init := set_pid 1 (set_state RUNNING inhabitant)]> (λ _, inhabitant)) None (λ _, None) (<[init := Run]> (λ _, Dead)) 2.
Inductive reach : sys → Prop :=
  | reach_start : reach start
  | reach_step h a m m' : reach m → step h a m = Some m' → reach m'.
Fixpoint exec (l : list (nat * act)) (m : sys) : option sys :=
  match l with [] => Some m | (h, a) :: l => m ← step h a m; exec l m end.
Lemma reach_execs l : ∀ m m', reach m → exec l m = Some m' → reach m'.
Proof.
  induction l as [|[h a] l IH]; intros m m' Hm He; cbn in He; [by injection He as <-|].
  apply bind_Some in He as (m1 & E1 & E2). eapply IH; [|exact E2]. by eapply reach_step.
Qed.

(** ** The invariant *)

(** Who holds [wait_lock], which [p->lock] is held across steps, which slot is
    being made. *)
Definition hasw (p : point) : bool :=
  match p with WScan _ _ | WKilled | WSleep1 | WSleep2 | EOrph _ | EOrphWake _ _ | EWake _ | ELock | EZombie | ERel => true | _ => false end.
Definition hasp (h : nat) (p : point) : option nat :=
  match p with WSleep2 | WSleep3 | WWake | SleptWake | EZombie | ERel | ESched => Some h | FHave i => Some i | _ => None end.
Definition making (p : point) : option nat := match p with FHave i | FParent i | FRun i => Some i | _ => None end.
Definition made_parent (h : nat) (p : point) : option nat := match p with FRun _ => Some h | _ => None end.
(** The state of a process at a point. *)
Definition fits (a : Z) (p : point) (q : proc) : Prop :=
  match p with
  | Run | WAcq | EAcq | KillAt _ _ | WakeAt _ _ | FAt _ | FParent _ | FRun _ => state q = RUNNING ∨ state q = RUNNABLE
  | Slept => state q = SLEEPING ∨ state q = RUNNABLE
  | WAsleep => chan q = a ∧ (state q = SLEEPING ∨ state q = RUNNABLE)
  | ERel | ESched => state q = ZOMBIE
  | Dead => state q = UNUSED ∨ state q = USED ∨ state q = ZOMBIE
  | _ => state q = RUNNING
  end.
(** A process that exits, or has, has given away the child of slot [i]. *)
Definition gone (p : point) (i : nat) : bool :=
  match p with
  | EOrph k | EOrphWake k _ => bool_decide (i < k)%nat || match p with EOrphWake k _ => bool_decide (i = k) | _ => false end
  | EWake _ | ELock | EZombie | ERel | ESched | Dead => true
  | _ => false
  end.
Definition exiting (p : point) : bool :=
  match p with EAcq | EOrph _ | EOrphWake _ _ | EWake _ | ELock | EZombie | ERel | ESched | Dead => true | _ => false end.
(** A process in [wait] that has seen that the child of slot [i] is not dead. *)
Definition seen (p : point) (i : nat) : bool :=
  match p with WScan k _ => bool_decide (i < k)%nat | WKilled | WSleep1 | WSleep2 => true | _ => false end.
(** It has given [wait_lock] up, and nothing but a [wakeup] will let it look again. *)
Definition asleep (p : point) (q : proc) : Prop := p = WSleep3 ∨ p = WAsleep ∧ state q = SLEEPING.
(** An exiting process past the slot [p] of its parent. *)
Definition told (c : point) (p : nat) : bool := match c with EWake j => bool_decide (p < j)%nat | ELock | EZombie => true | _ => false end.
(** A process that gave a child to [init] and has not yet told it. *)
Definition telling (m : sys) : Prop := ∃ h k j, pcs m h = EOrphWake k j ∧ (j <= init)%nat.

Record sinv (m : sys) : Prop := {
  si_fits : ∀ i, fits (addr i) (pcs m i) (tab m i);
  si_wl : ∀ h, wl m = Some h ↔ hasw (pcs m h) = true;
  si_pl : ∀ i h, pl m i = Some h ↔ hasp h (pcs m h) = Some i;
  si_making : ∀ h n, making (pcs m h) = Some n → (n < NPROC)%nat ∧ state (tab m n) = USED ∧ pcs m n = Dead ∧ parent (tab m n) = made_parent h (pcs m h);
  si_makers : ∀ h h' n, making (pcs m h) = Some n → making (pcs m h') = Some n → h = h';
  si_parent : ∀ i q, parent (tab m i) = Some q → (i < NPROC)%nat ∧ i ≠ q ∧ gone (pcs m q) i = false;
  si_unused : ∀ i, state (tab m i) = UNUSED → parent (tab m i) = None;
  si_slot : ∀ i, pcs m i ≠ Dead → (i < NPROC)%nat;
  si_init : exiting (pcs m init) = false ∧ parent (tab m init) = None;
  si_seen : ∀ p i, seen (pcs m p) i = true → parent (tab m i) = Some p → state (tab m i) ≠ ZOMBIE;
  si_asleep : ∀ p i, asleep (pcs m p) (tab m p) → parent (tab m i) = Some p → state (tab m i) = ZOMBIE → p = init ∧ telling m;
  si_told : ∀ p i, told (pcs m i) p = true → parent (tab m i) = Some p → ¬ asleep (pcs m p) (tab m p);
}.

#[local] Ltac cases := repeat match goal with
  | |- context [<[?x := _]> _ ?y] => destruct (decide (y = x)) as [->|?]; [rewrite !fn_lookup_insert|rewrite !(fn_lookup_insert_ne _ x y) by congruence]; try done
  end.

Lemma start_inv : (init < NPROC)%nat → sinv start.
Proof using.
  intros Hinit. constructor; unfold start; cbn [tab wl pl pcs].
  - intros i. cases; cbn; auto.
  - intros h. cases; cbn; split; congruence.
  - intros i h. cases; cbn; split; congruence.
  - intros h n. cases; done.
  - intros h h' n. cases; done.
  - intros i q. cases; discriminate.
  - intros i. cases; done.
  - intros i. cases; done.
  - by rewrite !fn_lookup_insert.
  - intros p i. cases; done.
  - intros p i. cases; unfold asleep; intuition discriminate.
  - intros p i. cases; done.
Qed.

(** *** Steps that leave parents alone *)

Definition wl_moves (h : nat) (p p' : point) (w w' : option nat) : Prop :=
  hasw p' = hasw p ∧ w' = w ∨ w = None ∧ hasw p' = true ∧ w' = Some h ∨ hasw p = true ∧ hasw p' = false ∧ w' = None.
Definition pl_moves (h : nat) (p p' : point) (l l' : nat → option nat) : Prop :=
  hasp h p' = hasp h p ∧ l' = l ∨ (∃ i, hasp h p = None ∧ hasp h p' = Some i ∧ l i = None ∧ l' = <[i := Some h]> l) ∨
  ∃ i, hasp h p = Some i ∧ hasp h p' = None ∧ l' = <[i := None]> l.

Lemma keep_wl h m c w : sinv m → (∀ x, x ≠ h → c x = pcs m x) → wl_moves h (pcs m h) (c h) (wl m) w →
  ∀ x, w = Some x ↔ hasw (c x) = true.
Proof using.
  intros I Hp Hw x. pose proof (si_wl _ I) as W. destruct (decide (x = h)) as [->|Hx]; [|rewrite Hp by done].
  - destruct Hw as [(-> & ->)|[(_ & -> & ->)|(_ & -> & ->)]]; [apply W|done|done].
  - destruct Hw as [(_ & ->)|[(H & _ & ->)|(H & _ & ->)]]; [apply W|rewrite <- W|rewrite <- W; apply W in H]; rewrite H; split; congruence.
Qed.
Lemma keep_pl h m c l : sinv m → (∀ x, x ≠ h → c x = pcs m x) → pl_moves h (pcs m h) (c h) (pl m) l →
  ∀ i x, l i = Some x ↔ hasp x (c x) = Some i.
Proof using.
  intros I Hp Hw i x. pose proof (si_pl _ I) as W. destruct (decide (x = h)) as [->|Hx]; [|rewrite Hp by done].
  - destruct Hw as [(-> & ->)|[(j & H & -> & Hj & ->)|(j & H & -> & ->)]]; [apply W| |]; cases; (split; [|congruence]); try done; rewrite W, H; congruence.
  - destruct Hw as [(_ & ->)|[(j & H & _ & Hj & ->)|(j & H & _ & ->)]]; [apply W| |]; cases; try apply W; rewrite <- W; [rewrite Hj|apply W in H; rewrite H]; split; congruence.
Qed.

Definition lasting (s : procstate) : bool := bool_decide (s = UNUSED) || bool_decide (s = USED) || bool_decide (s = ZOMBIE).
Lemma keep h j m m' : sinv m → let p := pcs m h in let p' := pcs m' h in
  (∀ x, x ≠ h → pcs m' x = pcs m x) → (∀ x, x ≠ j → tab m' x = tab m x) →
  wl_moves h p p' (wl m) (wl m') → pl_moves h p p' (pl m) (pl m') →
  parent (tab m' j) = parent (tab m j) → (state (tab m' j) = state (tab m j) ∨ lasting (state (tab m' j)) = false ∧ lasting (state (tab m j)) = false) →
  fits (addr h) p' (tab m' h) → (j ≠ h → fits (addr j) (pcs m j) (tab m' j)) →
  making p' = making p → made_parent h p' = made_parent h p → p ≠ Dead →
  (∀ i, gone p' i = true → gone p i = true ∨ parent (tab m i) ≠ Some h) → (exiting p' = true → exiting p = true ∨ h ≠ init) →
  (∀ i, seen p' i = true → seen p i = true ∨ parent (tab m i) ≠ Some h ∨ state (tab m i) ≠ ZOMBIE) →
  (asleep p' (tab m' h) → asleep p (tab m h) ∨ p = WSleep2) → (j ≠ h → asleep (pcs m j) (tab m' j) → asleep (pcs m j) (tab m j)) →
  (telling m → telling m' ∨ ¬ asleep (pcs m' init) (tab m' init)) →
  (∀ x, told p' x = true → told p x = true ∨ (parent (tab m h) = Some x → ¬ asleep (pcs m' x) (tab m' x))) → sinv m'.
Proof using.
  intros I; cbn zeta; intros Hpc Htab Hwl Hpl Hpar Hst Hf Hfj Hmk Hmp Hnd Hg He Hseen Has Hasj Htell Htold.
  assert (∀ x, parent (tab m' x) = parent (tab m x)) as Hpar' by (intros x; destruct (decide (x = j)) as [->|]; [done|by rewrite Htab]).
  assert (∀ x s, lasting s = true → state (tab m' x) = s ↔ state (tab m x) = s) as Hst'.
  { intros x s Hs. destruct (decide (x = j)) as [->|]; [|by rewrite Htab]. destruct Hst as [->|[H1 H2]]; [done|]. split; intros <-; congruence. }
  assert (∀ x, asleep (pcs m' x) (tab m' x) → x = h ∧ pcs m h = WSleep2 ∨ asleep (pcs m x) (tab m x)) as Has'.
  { intros x. destruct (decide (x = h)) as [->|Hx]; [intros [?|?]%Has; auto|]. rewrite Hpc by done.
    destruct (decide (x = j)) as [->|Hxj]; [auto|]. rewrite Htab by done. auto. }
  destruct I as [I1 I2 I3 I4 I5 I6 I7 Is I8 I9 I10 I11]. assert (∀ x, making (pcs m' x) = making (pcs m x) ∧ made_parent x (pcs m' x) = made_parent x (pcs m x)) as Hmk'.
  { intros x. destruct (decide (x = h)) as [->|Hx]; [done|]. by rewrite Hpc. }
  constructor.
  - intros x. destruct (decide (x = h)) as [->|Hx]; [done|]. rewrite Hpc by done. destruct (decide (x = j)) as [->|Hxj]; [auto|]. by rewrite Htab.
  - by apply (keep_wl h m).
  - by apply (keep_pl h m).
  - intros x n. destruct (Hmk' x) as [-> ->]. intros H. destruct (I4 _ _ H) as (A0 & A1 & A2 & A3). rewrite Hst', Hpar' by done.
    split; [done|]. split; [done|]. split; [|done]. destruct (decide (n = h)) as [->|Hn]; [done|]. by rewrite Hpc.
  - intros x y n. destruct (Hmk' x) as [-> _], (Hmk' y) as [-> _]. apply I5.
  - intros i q. rewrite Hpar'. intros H. destruct (I6 _ _ H) as (A0 & A1 & A2). split; [done|]. split; [done|]. destruct (decide (q = h)) as [->|Hq]; [|by rewrite Hpc].
    destruct (gone (pcs m' h) i) eqn:E; [|done]. destruct (Hg i E) as [?|?]; congruence.
  - intros i. rewrite Hst', Hpar' by done. apply I7.
  - intros x. destruct (decide (x = h)) as [->|Hx]; [intros _; by apply Is|rewrite Hpc by done; apply Is].
  - rewrite Hpar'. destruct I8 as [I8 I8']. split; [|done]. destruct (decide (h = init)) as [->|Hq]; [|by rewrite Hpc by done]. destruct (exiting (pcs m' init)) eqn:E; [|done]. destruct (He eq_refl) as [?|?]; congruence.
  - intros x i. rewrite Hpar', Hst' by done. destruct (decide (x = h)) as [->|Hx]; [|rewrite Hpc by done; apply I9]. intros H. destruct (Hseen i H) as [?|[?|?]]; [by apply I9|done|done].
  - intros x i. rewrite Hpar', Hst' by done. intros Ha Hp Hz. assert (asleep (pcs m x) (tab m x)) as Ha'.
    { destruct (Has' x Ha) as [[-> Hs]|?]; [|done]. exfalso. apply (I9 h i); [|done..]. by rewrite Hs. }
    destruct (I10 x i) as [-> Ht]; [done..|]. split; [done|]. by destruct (Htell Ht).
  - intros x i. rewrite Hpar'. intros Ht Hp Ha. destruct (decide (i = h)) as [->|Hi].
    + destruct (Htold x Ht) as [Ht'|Hn]; [|by apply (Hn Hp)]. destruct (Has' x Ha) as [[-> _]|Ha']; [by destruct (I6 _ _ Hp) as (_ & ? & _)|by apply (I11 x h)].
    + rewrite Hpc in Ht by done. destruct (Has' x Ha) as [[-> Hs]|Ha']; [|by apply (I11 x i)].
      assert (Some i = Some h) as [=]; [|done]. rewrite <- (proj2 (I2 h)); [|by rewrite Hs]. symmetry. apply I2. by destruct (pcs m i).
Qed.

(** *** Every step *)

Lemma wl_free m h : sinv m → wl m = None → hasw (pcs m h) = false.
Proof. intros I Hw. destruct (hasw (pcs m h)) eqn:E; [|done]. apply (si_wl _ I) in E. congruence. Qed.
Lemma pl_free m i h : sinv m → pl m i = None → hasp h (pcs m h) ≠ Some i.
Proof. intros I Hp E. apply (si_pl _ I) in E. congruence. Qed.
Lemma hasw_one m h h' : sinv m → hasw (pcs m h) = true → hasw (pcs m h') = true → h = h'.
Proof. intros I H1%(si_wl _ I) H2%(si_wl _ I). congruence. Qed.
Lemma fits_wake a ch p q : fits a p q → fits a p (wake ch q).
Proof.
  unfold wake. destruct (bool_decide (state q = SLEEPING) && (chan q =? ch)) eqn:E; [|done]. apply andb_prop in E as [E%bool_decide_eq_true _].
  destruct p; cbn; rewrite ?E; intuition (done || auto).
Qed.
Lemma fits_hit a p q : fits a p q → fits a p (hit q).
Proof.
  unfold hit. cbn. case_bool_decide as E; [|done]. destruct p; cbn; rewrite ?E; intuition (done || auto).
Qed.
Lemma wake_state ch q : state (wake ch q) = state q ∨ lasting (state (wake ch q)) = false ∧ lasting (state q) = false.
Proof. unfold wake. case_bool_decide as E; [|by left]. cbn. destruct (chan q =? ch); [right|by left]. by rewrite E. Qed.
Lemma hit_state q : state (hit q) = state q ∨ lasting (state (hit q)) = false ∧ lasting (state q) = false.
Proof. unfold hit. cbn. case_bool_decide as E; [|by left]. right. cbn. by rewrite E. Qed.
Lemma asleep_wake ch p q : asleep p (wake ch q) → asleep p q.
Proof. unfold asleep, wake. destruct (bool_decide _ && _); [|done]. cbn. intuition congruence. Qed.
Lemma asleep_hit p q : asleep p (hit q) → asleep p q.
Proof. unfold asleep, hit. cbn. case_bool_decide; cbn; intuition congruence. Qed.
Lemma wake_parent ch q : parent (wake ch q) = parent q.
Proof. unfold wake. by destruct (bool_decide _ && _). Qed.
Lemma hit_parent q : parent (hit q) = parent q.
Proof. unfold hit. cbn. by case_bool_decide. Qed.
Lemma telling_keep h m m' : (∀ x, x ≠ h → pcs m' x = pcs m x) → (∀ k j, pcs m h ≠ EOrphWake k j) → telling m → telling m'.
Proof. intros Hpc Hn (x & k & j & Hx & Hj). exists x, k, j. split; [|done]. rewrite Hpc; [done|]. intros ->. by apply (Hn k j). Qed.

#[local] Ltac fn := repeat match goal with
  | |- context [<[?x := _]> _ ?x] => rewrite fn_lookup_insert
  | |- context [<[?x := _]> _ ?y] => rewrite (fn_lookup_insert_ne _ x y) by congruence
  end.
#[local] Ltac light := first [done|by left|by right|tauto|by intuition congruence|by eauto|
  by left; eauto|right; left; by eauto|right; right; by eauto|by unfold asleep in *; intuition congruence].
#[local] Ltac by_keep h j m Hp I := apply (keep h j m _ I); cbn [go upd set_wl set_pl next_pid tab wl pl pcs npid]; fn; rewrite ?Hp; cbn;
  try (intros; fn; light);
  try (intros; left; apply (telling_keep h m); [cbn; intros; by fn|intros; congruence|done]).

Lemma next_lt i k : bool_decide (i < S k)%nat = true → bool_decide (i < k)%nat = true ∨ i = k.
Proof. rewrite !bool_decide_eq_true. lia. Qed.
Lemma gone_exiting p i : exiting p = false → gone p i = false.
Proof. by destruct p. Qed.
Lemma zombie_dead m i : sinv m → state (tab m i) = ZOMBIE → pl m i = None → pcs m i = Dead.
Proof.
  intros I Hz Hl. pose proof (si_fits _ I i) as Hf. pose proof (pl_free _ i i I Hl) as Hp. destruct (pcs m i); cbn in *; try done; intuition congruence.
Qed.
Lemma unused_dead m i : sinv m → state (tab m i) = UNUSED → pcs m i = Dead.
Proof. intros I Hz. pose proof (si_fits _ I i) as Hf. destruct (pcs m i); cbn in *; try done; intuition congruence. Qed.
Lemma told_hasw p i : told p i = true → hasw p = true.
Proof. by destruct p. Qed.
Lemma seen_hasw p i : seen p i = true → hasw p = true.
Proof. by destruct p. Qed.

#[local] Ltac simp := cbn [go upd set_wl set_pl next_pid tab wl pl pcs npid].
Lemma reap_inv h i k m : sinv m → state (tab m h) = RUNNING → pcs m h = WScan i k → parent (tab m i) = Some h → state (tab m i) = ZOMBIE → pl m i = None →
  sinv (go h Run (set_wl None (upd i reset m))).
Proof.
  intros I Hr Hp Hpar Hz Hl. pose proof (zombie_dead m i I Hz Hl) as Hd. assert (i ≠ h) as Hih by congruence. pose proof I as [I1 I2 I3 I4 I5 I6 I7 Is I8 I9 I10 I11].
  constructor; simp.
  - intros x. cases; [by left|rewrite Hd; by left].
  - apply (keep_wl h m); [done|simp; intros; by fn|]. simp. fn. rewrite Hp. by right; right.
  - apply (keep_pl h m); [done|simp; intros; by fn|]. simp. fn. rewrite Hp. by left.
  - intros x n. destruct (decide (x = h)) as [->|]; fn; [done|]. intros H. destruct (I4 _ _ H) as (A0 & A1 & A2 & A3). assert (n ≠ h ∧ n ≠ i) as [? ?] by (split; congruence). by fn.
  - intros x y n. cases; [done..|apply I5].
  - intros x q. cases; intros H; first [discriminate|destruct (I6 _ _ H) as (A0 & A1 & A2); split_and!; done].
  - intros x. cases; done || apply I7.
  - intros x. cases; [intros _; apply Is; congruence|apply Is].
  - cases; by intuition.
  - intros p x. cases; done || apply I9.
  - intros p x. cases; try done; try (unfold asleep; by intuition congruence). intros Ha ? ?. destruct (I10 p x Ha) as [-> Ht]; [done..|]. split; [done|].
    by apply (telling_keep h m); [simp; intros; fn|intros; congruence|].
  - intros p x. cases; try done; try apply I11; intros ? ?; unfold asleep; intuition congruence.
Qed.
#[local] Ltac locks h m Hp := fn; rewrite Hp; first [by left|by right; left|by right; right|right; left; by eexists|right; right; by eexists].

Lemma zombie_inv h st m : sinv m → pcs m h = EZombie → sinv (go h ERel (upd h (λ p, set_state ZOMBIE (set_xstate st p)) m)).
Proof.
  intros I Hp. pose proof I as [I1 I2 I3 I4 I5 I6 I7 Is I8 I9 I10 I11]. constructor; simp.
  - intros x. by cases.
  - apply (keep_wl h m); [done|intros; by fn|locks h m Hp].
  - apply (keep_pl h m); [done|intros; by fn|locks h m Hp].
  - intros x n. destruct (decide (x = h)) as [->|]; fn; [done|]. intros H. destruct (I4 _ _ H) as (A0 & A1 & A2 & A3). assert (n ≠ h) by congruence. by fn.
  - intros x y n. cases; apply I5.
  - intros x q H. assert (parent (tab m x) = Some q) as H' by (revert H; by cases). destruct (I6 _ _ H') as (A0 & A1 & A2). split_and!; [done..|]. cases. by rewrite Hp in A2.
  - intros x. cases; apply I7.
  - intros x. cases; [intros _; apply Is; congruence|apply Is].
  - split; cases; try apply I8; cbn; destruct I8 as [I8 I8']; rewrite ?Hp in I8; done.
  - intros p x. destruct (decide (p = h)) as [->|]; fn; [done|]. cases; [|apply I9]. intros Hs _ _. assert (p = h); [|done].
    apply (hasw_one m); [done|by eapply seen_hasw|by rewrite Hp].
  - intros p x. destruct (decide (p = h)) as [->|]; fn; [by intros [?|[? _]]|]. intros Ha. destruct (decide (x = h)) as [->|]; fn.
    + intros Hpar _. exfalso. apply (I11 p h); [by rewrite Hp|done|done].
    + intros Hpar Hz. destruct (I10 p x Ha Hpar Hz) as [-> Ht]. split; [done|]. by apply (telling_keep h m); [simp; intros; fn|intros; congruence|].
  - intros p x. destruct (decide (x = h)) as [->|]; fn; [done|]. intros Ht Hpar. destruct (decide (p = h)) as [->|]; fn; [by intros [?|[? _]]|by apply (I11 p x)].
Qed.

Lemma orphan_inv h i m : (init < NPROC)%nat → sinv m → state (tab m h) = RUNNING → pcs m h = EOrph i → (i < NPROC)%nat → parent (tab m i) = Some h →
  sinv (go h (EOrphWake i 0) (upd i (set_parent (Some init)) m)).
Proof.
  intros Hin I Hr Hp Hi Hpar. destruct (si_parent _ I i h Hpar) as (_ & Hih & _). pose proof I as [I1 I2 I3 I4 I5 I6 I7 Is [I8 I8'] I9 I10 I11].
  assert (init ≠ h) as Hinh by (intros <-; by rewrite Hp in I8). assert (i ≠ init) as Hii by congruence.
  assert (∀ x, hasw (pcs m x) = true → x = h) as Hone by (intros x Hx; apply (hasw_one m); [done|done|by rewrite Hp]).
  constructor; simp.
  - intros x. cases. specialize (I1 i). by destruct (pcs m i).
  - apply (keep_wl h m); [done|intros; by fn|locks h m Hp].
  - apply (keep_pl h m); [done|intros; by fn|locks h m Hp].
  - intros x n. destruct (decide (x = h)) as [->|]; fn; [done|]. intros H. destruct (I4 _ _ H) as (A0 & A1 & A2 & A3). assert (n ≠ h) by congruence.
    assert (n ≠ i) by (intros ->; rewrite Hpar in A3; destruct (pcs m x); cbn in *; congruence). by fn.
  - intros x y n. cases; apply I5.
  - intros x q. destruct (decide (x = i)) as [->|]; fn.
    + intros [= <-]. split_and!; [done..|]. fn. by apply gone_exiting.
    + intros H. destruct (I6 _ _ H) as (A0 & A1 & A2). split_and!; [done..|]. cases. rewrite Hp in A2. cbn in *. rewrite orb_false_r in A2. by rewrite A2, bool_decide_false.
  - intros x. cases; [|apply I7]. cbn. intros Hu%I7. congruence.
  - intros x. cases; [intros _; apply Is; congruence|apply Is].
  - by fn.
  - intros p x. destruct (decide (p = h)) as [->|]; fn; [done|]. cases; [|apply I9]. intros Hs%seen_hasw%Hone. done.
  - intros p x. destruct (decide (p = h)) as [->|]; fn; [by intros [?|[? _]]|]. intros Ha. assert (telling (go h (EOrphWake i 0) (upd i (set_parent (Some init)) m))) as Ht.
    { exists h, i, 0%nat. simp. fn. split; [done|lia]. }
    destruct (decide (x = i)) as [->|]; fn; [intros [= <-]; done|]. intros Hpx Hz. split; [|done].
    assert (asleep (pcs m p) (tab m p)) as Ha' by (revert Ha; by cases). by eapply I10.
  - intros p x. destruct (decide (x = h)) as [->|]; fn; [done|]. intros Ht%told_hasw%Hone. done.
Qed.

Lemma take_inv h i n' m : sinv m → state (tab m h) = RUNNING → pcs m h = FAt i → (i < NPROC)%nat → state (tab m i) = UNUSED → pl m i = None →
  sinv (Sys (<[i := set_state USED (set_pid (npid m) (tab m i))]> (tab m)) (wl m) (<[i := Some h]> (pl m)) (<[h := FHave i]> (pcs m)) n').
Proof.
  intros I Hr Hp Hi Hz Hl. pose proof (unused_dead m i I Hz) as Hd. pose proof I as [I1 I2 I3 I4 I5 I6 I7 Is [I8 I8'] I9 I10 I11]. assert (i ≠ h) as Hih by congruence.
  assert (∀ x, parent (<[i:=set_state USED (set_pid (npid m) (tab m i))]> (tab m) x) = parent (tab m x)) as Hpar by (intros x; by cases).
  constructor; simp.
  - intros x. cases. rewrite Hd. cbn. auto.
  - apply (keep_wl h m); [done|intros; by fn|locks h m Hp].
  - apply (keep_pl h m); [done|intros; by fn|locks h m Hp].
  - intros x n. rewrite Hpar. destruct (decide (x = h)) as [->|]; fn.
    + intros [= <-]. fn. split_and!; [done..|]. by apply I7.
    + intros H. destruct (I4 _ _ H) as (A0 & A1 & A2 & A3). assert (n ≠ h ∧ n ≠ i) as [? ?] by (split; congruence). by fn.
  - intros x y n. destruct (decide (x = h)) as [->|], (decide (y = h)) as [->|]; fn; [done| | |apply I5].
    + intros [= <-] H. destruct (I4 _ _ H) as (A0 & A1 & A2 & A3). congruence.
    + intros H [= <-]. destruct (I4 _ _ H) as (A0 & A1 & A2 & A3). congruence.
  - intros x q. rewrite Hpar. intros H. destruct (I6 _ _ H) as (A0 & A1 & A2). split_and!; [done..|]. by cases.
  - intros x. rewrite Hpar. cases; apply I7.
  - intros x. cases; [intros _; apply Is; congruence|apply Is].
  - rewrite Hpar. split; [|done]. by cases.
  - intros p x. rewrite Hpar. destruct (decide (p = h)) as [->|]; fn; [done|]. cases; apply I9.
  - intros p x. rewrite Hpar. destruct (decide (p = h)) as [->|]; fn; [by intros [?|[? _]]|]. intros Ha Hpx. destruct (decide (x = i)) as [->|]; fn; [done|]. intros Hx.
    destruct (I10 p x) as [-> Ht]; [|done..|split; [done|by apply (telling_keep h m); [simp; intros; fn|intros; congruence|]]].
    destruct (decide (p = i)) as [->|]; [rewrite Hd in Ha; by destruct Ha as [?|[? _]]|]. revert Ha. by fn.
  - intros p x. rewrite Hpar. destruct (decide (x = h)) as [->|]; fn; [done|]. intros Ht Hpx. destruct (decide (p = h)) as [->|]; fn; [by intros [?|[? _]]|].
    destruct (decide (p = i)) as [->|]; fn; [rewrite Hd; by intros [?|[? _]]|by apply (I11 p x)].
Qed.
Lemma failed_inv h i m : sinv m → state (tab m h) = RUNNING → pcs m h = FHave i → sinv (go h Run (set_pl i None (upd i reset m))).
Proof.
  intros I Hr Hp. pose proof I as [I1 I2 I3 I4 I5 I6 I7 Is [I8 I8'] I9 I10 I11]. destruct (I4 h i) as (Hi & Hu & Hd & _); [by rewrite Hp|].
  assert (i ≠ h) as Hih by congruence. constructor; simp.
  - intros x. cases; [by left|]. rewrite Hd. by left.
  - apply (keep_wl h m); [done|intros; by fn|locks h m Hp].
  - apply (keep_pl h m); [done|intros; by fn|locks h m Hp].
  - intros x n. destruct (decide (x = h)) as [->|Hx]; fn; [done|]. intros H. destruct (I4 _ _ H) as (A0 & A1 & A2 & A3).
    assert (n ≠ h ∧ n ≠ i) as [? ?] by (split; [congruence|intros ->; apply Hx, (I5 x h i H); by rewrite Hp]). by fn.
  - intros x y n. cases; apply I5.
  - intros x q. cases; intros H; destruct (I6 _ _ H) as (A0 & A1 & A2); done.
  - intros x. cases; apply I7.
  - intros x. cases; [intros _; apply Is; congruence|apply Is].
  - split; by cases.
  - intros p x. destruct (decide (p = h)) as [->|]; fn; [done|]. cases; apply I9.
  - intros p x. destruct (decide (p = h)) as [->|]; fn; [by intros [?|[? _]]|]. intros Ha. destruct (decide (x = i)) as [->|]; fn; [done|]. intros Hpx Hx.
    destruct (I10 p x) as [-> Ht]; [|done..|split; [done|by apply (telling_keep h m); [simp; intros; fn|intros; congruence|]]].
    destruct (decide (p = i)) as [->|]; [rewrite Hd in Ha; by destruct Ha as [?|[? _]]|]. revert Ha. by fn.
  - intros p x. destruct (decide (x = h)) as [->|]; fn; [done|]. intros Ht. destruct (decide (x = i)) as [->|]; fn; [done|]. intros Hpx.
    destruct (decide (p = h)) as [->|]; fn; [by intros [?|[? _]]|]. destruct (decide (p = i)) as [->|]; fn; [rewrite Hd; by intros [?|[? _]]|by apply (I11 p x)].
Qed.

Lemma parent_inv h i m : sinv m → pcs m h = FParent i → wl m = None → sinv (go h (FRun i) (upd i (set_parent (Some h)) m)).
Proof.
  intros I Hp Hw. pose proof I as [I1 I2 I3 I4 I5 I6 I7 Is [I8 I8'] I9 I10 I11]. destruct (I4 h i) as (Hi & Hu & Hd & Hn); [by rewrite Hp|]. rewrite Hp in Hn. cbn in Hn.
  assert (i ≠ h) as Hih by congruence. assert (∀ x, state (<[i:=set_parent (Some h) (tab m i)]> (tab m) x) = state (tab m x)) as Hst by (intros x; by cases).
  assert (∀ x, (<[i:=set_parent (Some h) (tab m i)]> (tab m)) x = tab m x ∨ x = i) as Htab by (intros x; cases; auto).
  constructor; simp.
  - intros x. specialize (I1 x). destruct (Htab x) as [-> | ->]; fn; [|by rewrite Hd in *]. destruct (decide (x = h)) as [->|?]; fn; [|done]. by rewrite Hp in I1.
  - apply (keep_wl h m); [done|intros; by fn|locks h m Hp].
  - apply (keep_pl h m); [done|intros; by fn|locks h m Hp].
  - intros x n. rewrite Hst. destruct (decide (x = h)) as [->|Hx]; fn.
    + intros [= <-]. by fn.
    + intros H. destruct (I4 _ _ H) as (A0 & A1 & A2 & A3). assert (n ≠ h ∧ n ≠ i) as [? ?] by (split; [congruence|intros ->; apply Hx, (I5 x h i H); by rewrite Hp]). by fn.
  - intros x y n. assert (∀ z, making (<[h:=FRun i]> (pcs m) z) = making (pcs m z)) as -> by (intros z; cases; by rewrite Hp).
    assert (∀ z, making (<[h:=FRun i]> (pcs m) z) = making (pcs m z)) as -> by (intros z; cases; by rewrite Hp). apply I5.
  - intros x q. destruct (decide (x = i)) as [->|]; fn; [intros [= <-]; by fn|]. intros H. destruct (I6 _ _ H) as (A0 & A1 & A2). split_and!; [done..|]. by cases.
  - intros x. rewrite Hst. destruct (decide (x = i)) as [->|]; fn; [congruence|apply I7].
  - intros x. cases; [intros _; apply Is; congruence|apply Is].
  - assert (init ≠ i) by (intros <-; by rewrite Hd in I8). split; cases; by rewrite ?I8. 
  - intros p x. rewrite Hst. destruct (decide (p = h)) as [->|]; fn; [done|]. destruct (decide (x = i)) as [->|]; fn; [congruence|apply I9].
  - intros p x. rewrite Hst. destruct (decide (p = h)) as [->|]; fn; [by intros [?|[? _]]|]. destruct (decide (x = i)) as [->|]; fn; [congruence|]. intros Ha Hpx Hx.
    destruct (I10 p x) as [-> Ht]; [|done..|split; [done|by apply (telling_keep h m); [simp; intros; fn|intros; congruence|]]].
    revert Ha. unfold asleep. by rewrite Hst.
  - intros p x. destruct (decide (x = h)) as [->|]; fn; [done|]. intros Ht. destruct (decide (x = i)) as [->|]; fn; [by rewrite Hd in Ht|]. intros Hpx.
    destruct (decide (p = h)) as [->|]; fn; [by intros [?|[? _]]|]. unfold asleep. rewrite Hst. by apply (I11 p x).
Qed.

Lemma runnable_inv h i m : sinv m → state (tab m h) = RUNNING → pcs m h = FRun i → sinv (go h Run (go i Run (upd i (set_state RUNNABLE) m))).
Proof.
  intros I Hr Hp. pose proof I as [I1 I2 I3 I4 I5 I6 I7 Is [I8 I8'] I9 I10 I11]. destruct (I4 h i) as (Hi & Hu & Hd & Hn); [by rewrite Hp|].
  assert (i ≠ h) as Hih by congruence. assert (∀ x, parent (<[i:=set_state RUNNABLE (tab m i)]> (tab m) x) = parent (tab m x)) as Hpar by (intros x; by cases).
  assert (∀ x, ¬ asleep Run x) as Has by (by intros x [?|[? _]]).
  constructor; simp.
  - intros x. cases; cbn; auto.
  - intros x. rewrite I2. cases; by rewrite ?Hp, ?Hd.
  - intros x y. rewrite I3. cases; by rewrite ?Hp, ?Hd.
  - intros x n. rewrite Hpar. destruct (decide (x = h)) as [->|Hx]; fn; [done|]. destruct (decide (x = i)) as [->|]; fn; [done|].
    intros H. destruct (I4 _ _ H) as (A0 & A1 & A2 & A3). assert (n ≠ h ∧ n ≠ i) as [? ?] by (split; [congruence|intros ->; apply Hx, (I5 x h i H); by rewrite Hp]). by fn.
  - intros x y n. cases; apply I5.
  - intros x q. rewrite Hpar. intros H. destruct (I6 _ _ H) as (A0 & A1 & A2). split_and!; [done..|]. by cases.
  - intros x. rewrite Hpar. cases; apply I7.
  - intros x. cases; intros H; apply Is; congruence.
  - rewrite Hpar. split; [|done]. by cases.
  - intros p x. rewrite Hpar. destruct (decide (p = h)) as [->|]; fn; [done|]. destruct (decide (p = i)) as [->|]; fn; [done|]. cases; apply I9.
  - intros p x. rewrite Hpar. destruct (decide (p = h)) as [->|]; fn; [by intros ?%Has|]. destruct (decide (p = i)) as [->|]; fn; [by intros ?%Has|].
    intros Ha Hpx. destruct (decide (x = i)) as [->|]; fn; [done|]. intros Hx. destruct (I10 p x Ha Hpx Hx) as (-> & y & k & j & Hy & Hj). split; [done|].
    exists y, k, j. split; [|done]. simp. rewrite !fn_lookup_insert_ne by (intros <-; congruence). done.
  - intros p x. rewrite Hpar. destruct (decide (x = h)) as [->|]; fn; [done|]. destruct (decide (x = i)) as [->|]; fn; [done|]. intros Ht Hpx.
    destruct (decide (p = h)) as [->|]; fn; [apply Has|]. destruct (decide (p = i)) as [->|]; fn; [apply Has|]. by apply (I11 p x).
Qed.

Context (Hinit : (init < NPROC)%nat).

#[local] Ltac acts a := destruct a; try done.
#[local] Ltac free i m := destruct (pl m i) eqn:Hl; [done|].

Lemma past_all m h i x : sinv m → ¬ (i < NPROC)%nat → bool_decide (x < i)%nat = true ∨ parent (tab m x) ≠ Some h.
Proof.
  intros I Hi. rewrite bool_decide_eq_true. destruct (decide (x < i)%nat); [by left|right]. intros Hx. destruct (si_parent _ I x h Hx) as [? _]. lia.
Qed.

Lemma wait_inv h a m m' : sinv m → state (tab m h) = RUNNING → wait_step h a m = Some m' → sinv m'.
Proof.
  intros I Hon. unfold wait_step, with_pl, with_wl. pose proof (si_fits _ I h) as Hf. destruct (pcs m h) eqn:Hp; try done; cbn in Hf.
  - acts a. destruct (wl m) eqn:Hw; [done|]. intros [= <-]. by_keep h h m Hp I.
  - case_decide as Hi; [case_decide as Hpar; [case_decide as Hz|]|].
    + acts a; free i m; intros [= <-]; [by eapply reap_inv|]. by_keep h h m Hp I.
    + acts a; free i m; intros [= <-]. by_keep h h m Hp I. intros x [?| ->]%next_lt; auto.
    + acts a; intros [= <-]. by_keep h h m Hp I. intros x [?| ->]%next_lt; auto.
    + acts a; intros [= <-]. destruct havekids; by_keep h h m Hp I. intros x _. destruct (past_all m h i x I Hi); auto.
  - acts a. free h m. intros [= <-]. case_match; by_keep h h m Hp I.
  - acts a. free h m. intros [= <-]. by_keep h h m Hp I.
  - acts a. intros [= <-]. by_keep h h m Hp I.
  - acts a. intros [= <-]. by_keep h h m Hp I. right. by rewrite Hon.
  - acts a. intros [= <-]. by_keep h h m Hp I.
Qed.

Lemma woken_up m j : sinv m → pl m j = None → ¬ asleep (pcs m j) (wake (addr j) (tab m j)).
Proof.
  intros I Hl [Hp|[Hp Hs]].
  - apply (pl_free m j j I Hl). by rewrite Hp.
  - pose proof (si_fits _ I j) as Hf. rewrite Hp in Hf. destruct Hf as [Hc _]. revert Hs. unfold wake. rewrite Hc, Z.eqb_refl, andb_true_r. by case_bool_decide.
Qed.
Lemma telling_me m h i j : sinv m → pcs m h = EOrphWake i j → telling m → (j <= init)%nat.
Proof.
  intros I Hp (x & k & l & Hx & Hj). assert (x = h) as -> by (apply (hasw_one m); [done|by rewrite Hx|by rewrite Hp]). congruence.
Qed.
Lemma tells h i j m' : pcs m' h = EOrphWake i j → (j <= init)%nat → telling m'.
Proof. intros Hp Hj. by exists h, i, j. Qed.
#[local] Hint Resolve wake_parent wake_state fits_wake asleep_wake hit_parent hit_state fits_hit asleep_hit si_fits : core.

Lemma exit_inv h a m m' : sinv m → on_hart h m = true → exit_step h a m = Some m' → sinv m'.
Proof.
  intros I Hon. assert (exiting (pcs m h) = true → h ≠ init) as Hne by (intros He ->; destruct (si_init _ I); congruence).
  unfold exit_step, with_pl, with_wl. pose proof (si_fits _ I h) as Hf. unfold on_hart in Hon. destruct (pcs m h) eqn:Hp; try done; cbn in Hf, Hon; rewrite ?orb_false_r, ?bool_decide_eq_true in Hon.
  - acts a. destruct (wl m) eqn:Hw; [done|]. intros [= <-]. by_keep h h m Hp I. 
  - acts a. case_decide as Hi; [case_decide as Hpar|]; intros [= <-].
    + by apply orphan_inv.
    + by_keep h h m Hp I. intros x. rewrite !orb_false_r. intros [?| ->]%next_lt; auto.
    + by_keep h h m Hp I. intros x _. rewrite orb_false_r. by apply past_all.
  - acts a. case_decide as Hi; [case_decide as Hpar|]; try free j m; intros [= <-].
    + by_keep h h m Hp I. intros Ht%(telling_me m h i j I Hp). left. apply (tells h i (S j)); [simp; by fn|]. assert (j ≠ init) by (intros ->; by apply Hne). lia.
    + by_keep h j m Hp I. intros Ht%(telling_me m h i j I Hp). destruct (decide (j = init)) as [->|]; [right|left].
      * fn. by apply woken_up.
      * apply (tells h i (S j)); [simp; by fn|lia].
    + by_keep h h m Hp I; [|intros Ht%(telling_me m h i j I Hp); lia].
      intros x. rewrite orb_false_r. intros [->| ->]%next_lt; [by left|left]. by rewrite (bool_decide_true (i = i)), orb_true_r.
  - acts a. case_decide as Hi; [case_decide as Hpar|]; try free j m; intros [= <-].
    + by_keep h h m Hp I. intros x [?| ->]%next_lt; [by left|right]. intros Hx. by destruct (si_parent _ I h j Hx) as (_ & ? & _).
    + by_keep h j m Hp I. intros x [?| ->]%next_lt; [by left|right]. intros ->. fn. by apply woken_up.
    + by_keep h h m Hp I. intros x _. rewrite bool_decide_eq_true. destruct (decide (x < j)%nat); [by left|right]. intros Hx.
      destruct (si_parent _ I h x Hx) as (_ & _ & Hg). assert (x < NPROC)%nat; [|lia]. apply (si_slot _ I). intros Hd. by rewrite Hd in Hg.
  - acts a. free h m. intros [= <-]. by_keep h h m Hp I.
  - acts a. intros [= <-]. by apply zombie_inv.
  - acts a. intros [= <-]. by_keep h h m Hp I. 
  - acts a. intros [= <-]. by_keep h h m Hp I. 
Qed.

Lemma fork_inv h a m m' : sinv m → state (tab m h) = RUNNING → fork_step h a m = Some m' → sinv m'.
Proof.
  intros I Hon. unfold fork_step, with_pl, with_wl. pose proof (si_fits _ I h) as Hf. destruct (pcs m h) eqn:Hp; try done; cbn in Hf.
  - acts a. case_decide as Hi; [case_decide as Hu; free i m|]; intros [= <-].
    + by apply (take_inv h i (s32 (npid m + 1)) m).
    + by_keep h h m Hp I.
    + by_keep h h m Hp I.
  - acts a; intros [= <-].
    + by_keep h h m Hp I.
    + by apply failed_inv.
  - acts a. destruct (wl m) eqn:Hw; [done|]. intros [= <-]. by apply parent_inv.
  - acts a. free i m. intros [= <-]. by apply runnable_inv.
Qed.

Lemma other_inv h a m m' : sinv m → state (tab m h) = RUNNING → other_step h a m = Some m' → sinv m'.
Proof.
  intros I Hon. unfold other_step, with_pl, with_wl. pose proof (si_fits _ I h) as Hf. destruct (pcs m h) eqn:Hp; try done; cbn in Hf.
  - acts a; try case_decide; try free h m; intros [= <-]; by_keep h h m Hp I. right. by rewrite Hon.
  - acts a. intros [= <-]. by_keep h h m Hp I.
  - acts a. case_decide as Hi; [free i m; case_match|]; intros [= <-].
    + by_keep h i m Hp I. cases. left. unfold hit. cbn. by rewrite bool_decide_false by congruence.
    + by_keep h h m Hp I. 
    + by_keep h h m Hp I. 
  - acts a. case_decide as Hi; [case_decide as Hj; try free j m|]; intros [= <-].
    + by_keep h h m Hp I.
    + by_keep h j m Hp I.
    + by_keep h h m Hp I.
Qed.

Lemma step_inv h a m m' : sinv m → step h a m = Some m' → sinv m'.
Proof.
  intros I. unfold step, with_pl. 
  destruct a; try (destruct (on_hart h m) eqn:Hon; [|done]; destruct (pcs m h) eqn:Hp; intros; (by eapply exit_inv) || (assert (state (tab m h) = RUNNING) by (unfold on_hart in Hon; rewrite Hp, orb_false_r, bool_decide_eq_true in Hon; done); first [by eapply wait_inv|by eapply fork_inv|by eapply other_inv])).
  - destruct (on_hart h m) eqn:Hon; [|done]. unfold on_hart in Hon. destruct (pcs m h) eqn:Hp; try done; rewrite orb_false_r, bool_decide_eq_true in Hon; cbn [andb preemptible]; free h m; intros [= <-].
    all: by_keep h h m Hp I; right; by rewrite Hon.
  - case_bool_decide as Hr; [|done]. free h m. pose proof (si_fits _ I h) as Hf. destruct (pcs m h) eqn:Hp; cbn in Hf; try (exfalso; intuition congruence); intros [= <-]. 
    all: by_keep h h m Hp I; right; by rewrite Hr.
Qed.
Lemma reach_inv m : reach m → sinv m.
Proof. induction 1; [by apply start_inv|by eapply step_inv]. Qed.

(** C11: Whatever the interleaving: a process that sleeps in [wait] has no dead child,
    unless that child was just given to [init] and [init] is still to be woken;
    the parent of a process is alive; a dead child whose lock [wait] can take has
    switched away for good, so that its stack can be given up; and the locks have
    one holder each. *)
Theorem wait_exit_safe m : reach m →
  (∀ p i, pcs m p = WAsleep → state (tab m p) = SLEEPING → parent (tab m i) = Some p → state (tab m i) = ZOMBIE → p = init ∧ telling m) ∧
  (∀ p i, parent (tab m i) = Some p → i ≠ p ∧ state (tab m p) ∈ [RUNNING; RUNNABLE; SLEEPING]) ∧
  (∀ i, state (tab m i) = ZOMBIE → pl m i = None → pcs m i = Dead) ∧
  ∀ h h', hasw (pcs m h) = true → hasw (pcs m h') = true → h = h'.
Proof.
  intros I%reach_inv. split_and!.
  - intros p i Hp Hs. apply (si_asleep _ I). by right.
  - intros p i Hpar. destruct (si_parent _ I i p Hpar) as (_ & Hne & Hg). split; [done|]. pose proof (si_fits _ I p) as Hf. rewrite !elem_of_cons.
    destruct (pcs m p); cbn in Hf, Hg; try done; intuition auto.
  - intros i. by apply zombie_dead.
  - intros h h'. by apply hasw_one.
Qed.
End sleep.

(** ** Runs of two processes *)

Section demo.
Definition demo_addr (i : nat) : Z := 1 + Z.of_nat i.
Abbreviation run := (exec 0 demo_addr).
(** The process of slot 0 makes a child in slot 1. *)
Definition forks : list (nat * act) := (0%nat, DoFork) :: replicate 5 (0%nat, Go).
Definition waits : list (nat * act) := (0%nat, DoWait) :: replicate 67 (0%nat, Go).
Definition shows (l : list (nat * act)) (P : sys → bool) : Prop := match run l (start 0) with Some m => P m = true | None => False end.
Lemma shows_run l P : shows l P → ∃ m, run l (start 0) = Some m ∧ reach 0 demo_addr m ∧ P m = true.
Proof.
  unfold shows. destruct (run l (start 0)) as [m|] eqn:E; [|done]. intros HP. exists m. split; [done|]. split; [|done]. eapply reach_execs; [apply reach_start|exact E].
Qed.

(** [kill] takes any slot whose [pid] it finds, an unused one too: after [kill(0)]
    the next process that is made is born killed, though nobody killed it. *)
Theorem kill_marks_unused : ∃ m, run ((0%nat, DoKill 0) :: replicate 2 (0%nat, Go) ++ forks) (start 0) = Some m ∧
  state (tab m 1%nat) = RUNNABLE ∧ pid (tab m 1%nat) = 2 ∧ killed_ (tab m 1%nat) = 1.
Proof.
  destruct (shows_run ((0%nat, DoKill 0) :: replicate 2 (0%nat, Go) ++ forks)
    (λ m, bool_decide (state (tab m 1%nat) = RUNNABLE) && (pid (tab m 1%nat) =? 2) && (killed_ (tab m 1%nat) =? 1))) as (m & E & _ & HP); [by vm_compute|].
  exists m. split; [done|]. rewrite !andb_true_iff, bool_decide_eq_true, !Z.eqb_eq in HP. tauto.
Qed.

(** [wait] asks [killed] before it takes [p->lock] to sleep: a [kill] in between
    returns 0, and its victim goes to sleep all the same. *)
Theorem kill_misses_wait : ∃ m, run (forks ++ waits ++ [(1%nat, Sched); (1%nat, DoKill 1); (1%nat, Go)] ++ replicate 3 (0%nat, Go)) (start 0) = Some m ∧
  pcs m 0%nat = WAsleep ∧ state (tab m 0%nat) = SLEEPING ∧ killed_ (tab m 0%nat) = 1 ∧ pcs m 1%nat = Run.
Proof.
  destruct (shows_run (forks ++ waits ++ [(1%nat, Sched); (1%nat, DoKill 1); (1%nat, Go)] ++ replicate 3 (0%nat, Go))
    (λ m, match pcs m 0%nat, pcs m 1%nat with WAsleep, Run => true | _, _ => false end && bool_decide (state (tab m 0%nat) = SLEEPING) && (killed_ (tab m 0%nat) =? 1)))
    as (m & E & _ & HP); [by vm_compute|].
  exists m. split; [done|]. rewrite !andb_true_iff, bool_decide_eq_true, !Z.eqb_eq in HP. destruct HP as [[HP ?] ?]. destruct (pcs m 0%nat), (pcs m 1%nat); done.
Qed.

(** The parent sleeps, its child runs. *)
Lemma wait_exit_safe_witness : ∃ m, pcs m 0%nat = WAsleep ∧ state (tab m 0%nat) = SLEEPING ∧ parent (tab m 1%nat) = Some 0%nat ∧
  (state (tab m 1%nat) = ZOMBIE → telling 0 m) ∧ state (tab m 0%nat) ∈ [RUNNING; RUNNABLE; SLEEPING].
Proof.
  destruct (shows_run (forks ++ waits ++ replicate 3 (0%nat, Go) ++ [(1%nat, Sched)])
    (λ m, match pcs m 0%nat with WAsleep => true | _ => false end && bool_decide (state (tab m 0%nat) = SLEEPING) && bool_decide (parent (tab m 1%nat) = Some 0%nat)))
    as (m & E & Hr & HP); [by vm_compute|].
  rewrite !andb_true_iff, !bool_decide_eq_true in HP. destruct HP as [[HP Hs] Hpar]. exists m. assert (pcs m 0%nat = WAsleep) as Hp by (by destruct (pcs m 0%nat)).
  destruct (wait_exit_safe 0 demo_addr ltac:(unfold NPROC; lia) m Hr) as (H1 & H2 & _ & _).
  split_and!; [done..|intros Hz; by destruct (H1 0%nat 1%nat Hp Hs Hpar Hz)|by destruct (H2 0%nat 1%nat Hpar)].
Defined.
End demo.
