(* ===== verification/ProcExit.v ===== *)
(** * [exit] as a whole

    [exit_correct]: what a process leaves behind when it exits, for its files, its
    children, those that wait, and its memory, which stays until its parent calls
    [freeproc] ([ProcFork.freeproc_correct]). *)
From S2P Require Import Prelude KString Kalloc Vm VmTable VmSpace VmCopy VmRead VmUser VmFork VmFree VmSafe VmProc File Proc ProcVm ProcFork.

Section exit.
Context {W : Type} `{HO : Objects W}.
Context (_end trampoline : Z) (proc_addr : nat → Z).
Implicit Types (s : kst W) (t : list proc) (q p : proc) (ip : option nat).
Abbreviation procp := (procp proc_addr).

(** ** Closing the files *)

Context (Hclose : ∀ f w, ∃ w', close_object f w = Ret ((), w')).

Lemma close_file (fl : files W) o o' i : table_ok fl o → o ≡ₚ i :: o' → ∃ fl', fileclose i fl = Ret ((), fl') ∧ table_ok fl' o'.
Proof using Hclose.
  intros Hok Hp. destruct (table_get fl o i Hok) as (f & Hf & _); [rewrite Hp; left|].
  destruct (fileclose_spec fl o o' i f Hok Hp Hf) as (t & Hok' & _ & ->). case_decide; [by eexists|].
  destruct (Hclose f (objs fl)) as [w' Hw]. exists (Files t w'). unfold in_objs. cbn. rewrite Hw. split; [done|]. by destruct Hok'.
Qed.

Lemma exit_files_loop me s k n : is_Some (ptable s !! me) → ∀ j f q l o rest,
  table_ok f o → o ≡ₚ fd_refs (drop j l) ++ rest → length l = NOFILE → (j + n = NOFILE)%nat → ofile q = replicate j None ++ drop j l →
  ∃ f', mapM_ (λ fd : nat, p ← get_proc me; if mjoin (ofile p !! fd) is Some f then in_fs (fileclose f) ;; upd_proc me (λ p, set_ofile (<[fd := None]> (ofile p)) p) else mret ()) (seq j n)
    (at_slot (with_fs f s) me k q) = Ret ((), at_slot (with_fs f' s) me k (set_ofile (replicate NOFILE None) q)) ∧ table_ok f' rest.
Proof using Hclose.
  intros Hme. induction n as [|n IH]; intros j f q l o rest Hok Ho Hl Hj Hq; cbn [seq].
  - rewrite drop_ge in Ho, Hq by lia. cbn in Ho. exists f. split; [|by apply (table_perm f o)]. rewrite app_nil_r in Hq.
    replace j with NOFILE in Hq by lia. rewrite <- Hq. by destruct q.
  - destruct (lookup_lt_is_Some_2 l j) as [od Hod]; [lia|]. rewrite (drop_S _ _ _ Hod) in Ho, Hq.
    assert (is_Some (ptable (with_fs f s) !! me)) as Hme' by done.
    assert (ofile q !! j = Some od) as Hqj by (rewrite Hq, lookup_app_r, length_replicate, Nat.sub_diag by (rewrite length_replicate; lia); done).
    destruct od as [i|].
    + cbn in Ho. destruct (close_file f o (fd_refs (drop (S j) l) ++ rest) i Hok Ho) as (f1 & E1 & Hok1).
      destruct (IH (S j) f1 (set_ofile (<[j := None]> (ofile q)) q) l _ rest Hok1 ltac:(done) Hl ltac:(lia)) as (f' & E2 & Hok2).
      { cbn [ofile set_ofile]. rewrite Hq, insert_app_r_alt by (rewrite length_replicate; lia). rewrite length_replicate, Nat.sub_diag.
        by rewrite replicate_S_end, <- app_assoc. }
      exists f'. split; [|done]. erewrite mapM_cons; [exact E2|]. rewrite (bind_Ret _ _ _ _ _ (get_proc_run _ _ _ _ Hme')), Hqj. cbn [mjoin option_join].
      rewrite (bind_Ret _ _ _ _ _ (fs_run (fileclose i) (with_fs f s) me k q _ _ E1)). exact (upd_run (with_fs f1 s) me k q (λ p, set_ofile (<[j := None]> (ofile p)) p) Hme).
    + destruct (IH (S j) f q l _ rest Hok Ho Hl ltac:(lia)) as (f' & E2 & Hok2); [by rewrite Hq, replicate_S_end, <- app_assoc|].
      exists f'. split; [|done]. erewrite mapM_cons; [exact E2|]. by rewrite (bind_Ret _ _ _ _ _ (get_proc_run _ _ _ _ Hme')), Hqj.
Qed.

(** ** Areas *)

(** An area of [mmap]: it lies in the last 2 GB below [MAXVA], which [mmap] fills
    from the top. *)
Definition high_area (v : vm_area) : Prop := MAXVA - 2 ^ 31 <= start_ad v < MAXVA ∧ end_ad v <= MAXVA.

(** The [int] with the address of such an area is negative, and the loop that
    should give its pages back never begins. *)
Lemma free_all_vma_none pt v k : high_area v → free_all_vma _end pt (start_ad v) (end_ad v) k = Ret ((), k).
Proof using.
  intros [Hs He]. unfold free_all_vma. change MAXVA with (2 ^ 38) in *.
  assert (s32 (start_ad v) = start_ad v - 2 ^ 38) as Hi.
  { unfold swrap. change (2 ^ (32 - 1)) with (2 ^ 31). rewrite <- (Z.mod_unique (start_ad v + 2 ^ 31) (2 ^ 32) 64 (start_ad v + 2 ^ 31 - 2 ^ 38)); lia. }
  assert (u64 (s32 (start_ad v)) = start_ad v - 2 ^ 38 + 2 ^ 64) as Hu by (rewrite Hi; unfold wrap; symmetry; apply Z.mod_unique with (-1); lia).
  generalize (Z.to_nat ((end_ad v - u64 (s32 (start_ad v))) / PGSIZE + 2)). intros [|fuel]; cbn [free_vma_loop]; rewrite Hu; (destruct (Z.ltb_spec (end_ad v) (start_ad v - 2 ^ 38 + 2 ^ 64)); [done|lia]).
Qed.

Definition cleared (l : list vm_area) : list vm_area := (λ v, if vm_valid v =? 0 then v else clear_valid v) <$> l.
Lemma exit_vma_loop me s k n : is_Some (ptable s !! me) → ∀ j q l, (∀ v, v ∈ l → vm_valid v ≠ 0 → high_area v) →
  length l = MMAP_PAGES → (j + n = MMAP_PAGES)%nat → vma q = cleared (take j l) ++ drop j l →
  mapM_ (λ i : nat, p ← get_proc me; v ← oget (vma p !! i); if vm_valid v =? 0 then mret () else
    upd_proc me (λ p, set_vma (<[i := clear_valid v]> (vma p)) p) ;; in_km (free_all_vma _end (pagetable p) (start_ad v) (end_ad v))) (seq j n) (at_slot s me k q) =
  Ret ((), at_slot s me k (set_vma (cleared l) q)).
Proof using.
  intros Hme. induction n as [|n IH]; intros j q l Hh Hl Hj Hq; cbn [seq].
  - rewrite take_ge, drop_ge, app_nil_r in Hq by lia. rewrite <- Hq. by destruct q.
  - destruct (lookup_lt_is_Some_2 l j) as [v Hv]; [lia|]. rewrite (drop_S _ _ _ Hv) in Hq.
    assert (length (cleared (take j l)) = j) as Hlj by (unfold cleared; rewrite length_fmap, length_take; lia).
    assert (vma q !! j = Some v) as Hqj by (rewrite Hq, lookup_app_r, Hlj, Nat.sub_diag by lia; done).
    assert (cleared (take (S j) l) = cleared (take j l) ++ [if vm_valid v =? 0 then v else clear_valid v]) as Ht by (unfold cleared; by rewrite (take_S_r _ _ _ Hv), fmap_app).
    erewrite mapM_cons; cycle 1.
    { rewrite (bind_Ret _ _ _ _ _ (get_proc_run _ _ _ _ Hme)), Hqj. cbn [oget]. rewrite (bind_Ret (mret v) _ _ v _ eq_refl). instantiate (1 := at_slot s me k (set_vma (cleared (take (S j) l) ++ drop (S j) l) q)).
      destruct (Z.eqb_spec (vm_valid v) 0) as [E|E].
      - rewrite Ht, <- app_assoc. cbn. rewrite <- Hq. by destruct q.
      - rewrite (bind_Ret _ _ _ _ _ (upd_run _ _ _ _ _ Hme)). rewrite (km_run _ s me k _ () k).
        + rewrite Hq, insert_app_r_alt, Hlj, Nat.sub_diag, Ht, <- app_assoc by lia. done.
        + apply free_all_vma_none, Hh; [by eapply list_elem_of_lookup_2|done]. }
    rewrite (IH (S j) (set_vma (cleared (take (S j) l) ++ drop (S j) l) q) l Hh Hl ltac:(lia) eq_refl). done.
Qed.

(** ** Children *)

Section children.
Context (me : nat) (ip : option nat).

Definition adopt q := if decide (parent q = Some me) then set_parent ip q else q.
Definition has_child t : bool := existsb (λ q, bool_decide (parent q = Some me)) t.
(** [wakeup] does not look at the slot of its caller. *)
Definition rouse (ch : Z) (i : nat) q : proc := if decide (i = me) then q else wake ch q.
(** The table when [reparent] has passed the slots before [j]. *)
Definition upto j t : list proc :=
  imap (λ i q, let q := if decide (i < j)%nat then adopt q else q in if has_child (take j t) then rouse (procp ip) i q else q) t.

Lemma rouse_idem ch i q : rouse ch i (rouse ch i q) = rouse ch i q.
Proof using.
  unfold rouse. case_decide; [done|]. unfold wake at 2. destruct (bool_decide (state q = SLEEPING) && (chan q =? ch)) eqn:E; [|done]. unfold wake. by rewrite E.
Qed.
Lemma rouse_parent ch i q o : rouse ch i (set_parent o q) = set_parent o (rouse ch i q).
Proof using. unfold rouse, wake. case_decide; [done|]. cbn. by case_match. Qed.
Lemma parent_rouse ch i q : parent (rouse ch i q) = parent q.
Proof using. unfold rouse, wake. case_decide; [done|]. by case_match. Qed.
Lemma upto_lookup j t i : upto j t !! i = (λ q, let q := if decide (i < j)%nat then adopt q else q in if has_child (take j t) then rouse (procp ip) i q else q) <$> t !! i.
Proof using. apply list_lookup_imap. Qed.
Lemma has_child_step j t q : t !! j = Some q → has_child (take (S j) t) = has_child (take j t) || bool_decide (parent q = Some me).
Proof using. intros Hq. unfold has_child. rewrite (take_S_r _ _ _ Hq), existsb_app. cbn. by rewrite orb_false_r. Qed.

Lemma upto_skip j t q : t !! j = Some q → parent q ≠ Some me → upto (S j) t = upto j t.
Proof using.
  intros Hq Hn. apply list_eq. intros i. rewrite !upto_lookup, (has_child_step _ _ _ Hq), bool_decide_false, orb_false_r by done. destruct (t !! i) as [q'|] eqn:Hi; [|done]. cbn.
  destruct (decide (i = j)) as [->|]; [|destruct (decide (i < j)%nat), (decide (i < S j)%nat); done || lia]. rewrite decide_True, (decide_False (P := (j < j)%nat)) by lia.
  replace q' with q by congruence. unfold adopt. by rewrite decide_False.
Qed.
Lemma upto_child j t q q' : t !! j = Some q → parent q = Some me → upto j t !! j = Some q' →
  imap (rouse (procp ip)) (<[j := set_parent ip q']> (upto j t)) = upto (S j) t.
Proof using.
  intros Hq Hn Hq'. apply list_eq. intros i. rewrite list_lookup_imap, upto_lookup, (has_child_step _ _ _ Hq), bool_decide_true, orb_true_r by done.
  pose proof (lookup_lt_Some _ _ _ Hq') as Hlt. destruct (decide (i = j)) as [->|].
  - rewrite list_lookup_insert_eq by done. rewrite upto_lookup, Hq in Hq'. cbn in Hq'. rewrite decide_False in Hq' by lia. injection Hq' as <-. rewrite Hq. cbn.
    rewrite decide_True by lia. unfold adopt. rewrite decide_True by done. f_equal. rewrite rouse_parent. case_match; [by rewrite rouse_idem, rouse_parent|by rewrite rouse_parent].
  - rewrite list_lookup_insert_ne, upto_lookup by done. destruct (t !! i) as [x|]; [|done]. cbn. f_equal.
    assert ((if decide (i < j)%nat then adopt x else x) = if decide (i < S j)%nat then adopt x else x) as -> by (destruct (decide (i < j)%nat), (decide (i < S j)%nat); done || lia).
    case_match; [apply rouse_idem|done].
Qed.

Definition with_table t s : kst W := Kst (km s) t (nextpid s) (initproc s) (fs s).
Lemma wakeup_run ch t s : wakeup me ch (with_table t s) = Ret ((), with_table (imap (rouse ch) t) s).
Proof using. done. Qed.

Lemma reparent_loop n : ∀ j t s, initproc s = ip → (j + n = length t)%nat →
  mapM_ (λ i : nat, q ← get_proc i; if decide (parent q = Some me) then ip ← gets initproc; upd_proc i (set_parent ip) ;; wakeup me (procp ip) else mret ()) (seq j n) (with_table (upto j t) s) =
  Ret ((), with_table (upto (length t) t) s).
Proof using.
  induction n as [|n IH]; intros j t s Hip Hj; cbn [seq]; [by replace j with (length t) by lia|].
  destruct (lookup_lt_is_Some_2 t j) as [q Hq]; [lia|]. destruct (lookup_lt_is_Some_2 (upto j t) j) as [q' Hq']; [unfold upto; rewrite length_imap; lia|].
  assert (parent q' = parent q) as Hpar. { rewrite upto_lookup, Hq in Hq'. cbn in Hq'. rewrite decide_False in Hq' by lia. injection Hq' as <-. case_match; [apply parent_rouse|done]. }
  assert (∀ u x, u !! j = Some x → get_proc j (with_table u s) = Ret (x, with_table u s)) as Hget.
  { intros u x Hx. unfold get_proc. rewrite (bind_Ret _ _ _ u (with_table u s)) by done. by rewrite Hx. }
  destruct (decide (parent q = Some me)) as [Hm|Hm].
  - rewrite (mapM_cons _ _ _ _ (with_table (upto (S j) t) s)); [apply IH; [done|lia]|].
    rewrite (bind_Ret _ _ _ _ _ (Hget _ _ Hq')), decide_True by congruence. rewrite (bind_Ret _ _ _ ip (with_table (upto j t) s)) by (by rewrite <- Hip).
    rewrite (bind_Ret _ _ _ () (with_table (<[j := set_parent ip q']> (upto j t)) s)) by (by rewrite <- (alter_insert _ _ _ _ Hq')).
    rewrite wakeup_run. by rewrite (upto_child j t q q').
  - rewrite (mapM_cons _ _ _ _ (with_table (upto (S j) t) s)); [apply IH; [done|lia]|].
    rewrite (bind_Ret _ _ _ _ _ (Hget _ _ Hq')), decide_False by congruence. by rewrite (upto_skip j t q).
Qed.

(** ** The whole of [exit] *)

(** The slot of the process when it has exited. *)
Definition zombie (status : Z) p : proc :=
  set_state ZOMBIE (set_xstate status (set_cwd None (set_vma (cleared (vma p)) (set_ofile (replicate NOFILE None) p)))).
(** The other slots: children of the process are [init]'s, and whoever waits for a
    child, [init] if it got one and the parent, does not sleep any more. *)
Definition left_behind p (t : list proc) i q : proc :=
  let q' := if has_child t then rouse (procp ip) i (adopt q) else adopt q in rouse (procp (parent p)) i q'.

Lemma upto_0 t : upto 0 t = t.
Proof using. apply list_eq. intros i. rewrite upto_lookup. destruct (t !! i); [|done]. cbn. by rewrite decide_False by lia. Qed.
Lemma has_child_insert t p p' : t !! me = Some p → parent p' = parent p → has_child (<[me := p']> t) = has_child t.
Proof using.
  intros Hp He. assert (∀ u, has_child u = existsb (λ o, bool_decide (o = Some me)) (parent <$> u)) as Hc.
  { unfold has_child. induction u as [|q u IH]; [done|]. cbn. by rewrite IH. }
  rewrite !Hc, list_fmap_insert, He, list_insert_id; [done|]. by rewrite list_lookup_fmap, Hp.
Qed.

Lemma rouse_slot ch i q x : slot_ok trampoline q x → slot_ok trampoline (rouse ch i q) x.
Proof using.
  unfold rouse, wake. case_decide; [done|]. case_match eqn:E; [|done]. apply andb_prop in E as [E%bool_decide_eq_true _]. destruct x as [[sp tf]|]; cbn; [|intros [Hu _]; congruence].
  intros (_ & Hx). by split.
Qed.
Lemma left_behind_slot p t i q x : slot_ok trampoline q x → slot_ok trampoline (left_behind p t i q) x.
Proof using.
  intros H. assert (slot_ok trampoline (adopt q) x) by (unfold adopt; case_decide; [by destruct x as [[sp tf]|]|done]).
  unfold left_behind. apply rouse_slot. by case_match; [apply rouse_slot|].
Qed.
End children.

Context (Hbegin : ∀ w, ∃ w', begin_op w = Ret ((), w')) (Hiput : ∀ i w, ∃ w', iput i w = Ret ((), w')) (Hendop : ∀ w, ∃ w', end_op w = Ret ((), w')).

Lemma objs_run (m : M W ()) s i k q f : (∀ w, ∃ w', m w = Ret ((), w')) → ∃ f', in_fs (in_objs m) (at_slot (with_fs f s) i k q) = Ret ((), at_slot (with_fs f' s) i k q) ∧ ftable f' = ftable f.
Proof using.
  intros Hm. destruct (Hm (objs f)) as [w' Hw]. exists (Files (ftable f) w'). split; [|done]. unfold in_fs, in_objs. cbn. by rewrite Hw.
Qed.

(** C34: A process that exits has closed its files, one reference for each; its
    children are [init]'s, [init] and the parent do not sleep in [wait] any more;
    its slot is a zombie with the exit status, and its memory is still its own
    until the slot is freed. The references its areas of [mmap] hold are among
    those of [rest]: nobody gives them up. *)
Theorem exit_correct s sl E o rest me i0 p x status :
  kinv _end trampoline s sl E → ptable s !! me = Some p → sl !! me = Some (Some x) → initproc s = Some i0 → i0 ≠ me → parent p ≠ Some me →
  table_ok (fs s) o → o ≡ₚ fd_refs (ofile p) ++ rest → length (ofile p) = NOFILE → length (vma p) = MMAP_PAGES →
  (∀ v, v ∈ vma p → vm_valid v ≠ 0 → high_area v) → is_Some (cwd p) →
  ∃ s', Proc.exit _end proc_addr me status s = Ret ((), s') ∧ kinv _end trampoline s' sl E ∧ km s' = km s ∧ table_ok (fs s') rest ∧
    initproc s' = initproc s ∧ nextpid s' = nextpid s ∧
    ptable s' = imap (λ i q, if decide (i = me) then zombie status p else left_behind me (Some i0) p (ptable s) i q) (ptable s).
Proof using Hclose Hbegin Hiput Hendop.
  intros Hk Hp Hsl Hip Hne Hpar Hok Ho Hlf Hlv Hhigh [c Hc]. assert (is_Some (ptable s !! me)) as Hme by eauto.
  unfold Proc.exit. rewrite (bind_Ret _ _ s (Some i0) s) by (by rewrite <- Hip). rewrite decide_False by congruence.
  destruct (exit_files_loop me s (km s) NOFILE Hme 0 (fs s) p (ofile p) o rest Hok Ho Hlf eq_refl eq_refl) as (f1 & E1 & Hok1). rewrite with_fs_id, <- (at_slot_id s me p Hp) in E1.
  unfold exit_files. rewrite (bind_Ret _ _ _ _ _ E1).
  assert (is_Some (ptable (with_fs f1 s) !! me)) as Hme1 by done.
  unfold exit_vma. rewrite (bind_Ret _ _ _ _ _ (exit_vma_loop me (with_fs f1 s) (km s) MMAP_PAGES Hme1 0 (set_ofile (replicate NOFILE None) p) (vma p) Hhigh Hlv eq_refl eq_refl)).
  set (p2 := set_vma _ _). rewrite (bind_Ret _ _ _ _ _ (get_proc_run _ _ _ _ Hme1)). change (cwd p2) with (cwd p). rewrite Hc. cbn [oget]. rewrite (bind_Ret (mret c) _ _ c _ eq_refl).
  destruct (objs_run begin_op s me (km s) p2 f1 Hbegin) as (f2 & E2 & T2). rewrite (bind_Ret _ _ _ _ _ E2).
  destruct (objs_run (iput c) s me (km s) p2 f2 (Hiput c)) as (f3 & E3 & T3). rewrite (bind_Ret _ _ _ _ _ E3).
  destruct (objs_run end_op s me (km s) p2 f3 Hendop) as (f4 & E4 & T4). rewrite (bind_Ret _ _ _ _ _ E4).
  rewrite (bind_Ret _ _ _ _ _ (upd_run (with_fs f4 s) me _ _ _ Hme)). set (p3 := set_cwd None p2). set (t := <[me := p3]> (ptable s)).
  assert (length t = NPROC) as Hlt by (unfold t; rewrite length_insert; apply Hk).
  change (at_slot (with_fs f4 s) me (km s) p3) with (with_table t (with_fs f4 s)).
  pose proof (reparent_loop me (Some i0) NPROC 0 t (with_fs f4 s) Hip ltac:(lia)) as E5. rewrite upto_0 in E5. unfold reparent. rewrite (bind_Ret _ _ _ _ _ E5).
  set (t2 := upto me (Some i0) (length t) t).
  assert (t2 !! me = Some p3) as Ht2.
  { unfold t2. rewrite upto_lookup. assert (t !! me = Some p3) as -> by (apply list_lookup_insert_eq; by apply lookup_lt_is_Some_1).
    cbn. pose proof (lookup_lt_Some _ _ _ Hp). rewrite decide_True by (unfold t; by rewrite length_insert). unfold adopt, rouse. rewrite (decide_False (P := parent p3 = Some me)), (decide_True (P := me = me)) by done. by case_match. }
  rewrite (bind_Ret (get_proc me) _ _ p3 (with_table t2 (with_fs f4 s))) by (unfold get_proc; rewrite (bind_Ret _ _ _ t2 (with_table t2 (with_fs f4 s))) by done; by rewrite Ht2).
  rewrite (bind_Ret _ _ _ _ _ (wakeup_run me _ t2 _)). change (parent p3) with (parent p). set (t3 := imap (rouse me (procp (parent p))) t2).
  assert (is_Some (t3 !! me)) as Hme3 by (unfold t3; rewrite list_lookup_imap, Ht2; by eexists).
  set (s3 := with_table t3 (with_fs f4 s)). assert (s3 = at_slot s3 me (km s) p3) as Hs3.
  { pose proof (at_slot_id s3 me p3) as Hx3. change (km s3) with (km s) in Hx3. apply Hx3. unfold s3, t3. cbn. rewrite list_lookup_imap, Ht2. cbn. unfold rouse. by rewrite decide_True. }
  rewrite (bind_Ret _ _ _ () (at_slot s3 me (km s) (set_xstate status p3))) by (rewrite <- (upd_run s3 me (km s) p3 (set_xstate status) Hme3); by rewrite <- Hs3). rewrite (upd_run s3 me _ _ _ Hme3).
  eexists. split; [done|]. cbn [km fs initproc nextpid ptable at_slot].
  assert (<[me := set_state ZOMBIE (set_xstate status p3)]> t3 = imap (λ i q, if decide (i = me) then zombie status p else left_behind me (Some i0) p (ptable s) i q) (ptable s)) as Hfin.
  { apply list_eq. intros i. rewrite list_lookup_imap. destruct (decide (i = me)) as [->|Hi].
    - rewrite list_lookup_insert_eq by (by apply lookup_lt_is_Some_1). by rewrite Hp.
    - rewrite list_lookup_insert_ne by done. unfold t3, t2. rewrite list_lookup_imap, upto_lookup. unfold t. rewrite list_lookup_insert_ne by done.
      destruct (ptable s !! i) as [q|] eqn:Hq; [|done]. cbn. f_equal. apply lookup_lt_Some in Hq. unfold left_behind. rewrite decide_True by (rewrite length_insert; done).
      rewrite take_ge by done. by rewrite (has_child_insert me (ptable s) p p3 Hp). }
  assert (table_ok f4 rest) as Hok4 by (destruct Hok1 as [A1 A2 A3 A4]; assert (ftable f4 = ftable f1) as Hf4 by congruence; constructor; rewrite ?Hf4; done).
  split; [|split_and!; done]. constructor; cbn [ptable km at_slot]; change (ptable s3) with t3; [|rewrite length_insert; unfold t3, t2, upto; rewrite !length_imap; done|apply Hk|apply Hk].
  rewrite Hfin. apply Forall2_same_length_lookup_2; [rewrite length_imap; by apply (Forall2_length _ _ _ (ki_slots _ _ _ _ _ Hk))|].
  intros i q y Hq Hy. rewrite list_lookup_imap in Hq. destruct (ptable s !! i) as [q0|] eqn:Hq0; [|done]. injection Hq as <-.
  pose proof (Forall2_lookup_lr _ _ _ _ _ _ (ki_slots _ _ _ _ _ Hk) Hq0 Hy) as Hso. cbn. case_decide as Hi; [subst i|by apply left_behind_slot].
  rewrite Hsl in Hy. injection Hy as <-. assert (q0 = p) as -> by congruence. destruct x as [sp tf]. destruct Hso as (_ & Hso). by split.
Qed.
End exit.

(** ** The process of the demo exits *)

Section demo.
#[local] Existing Instance no_objects.
Lemma exit_correct_witness : ∃ (s : kst ()) me s', Proc.exit demo_end (λ i, Z.of_nat i) me 7 s = Ret ((), s') ∧
  (∃ q, ptable s' !! me = Some q ∧ state q = ZOMBIE ∧ xstate q = 7) ∧ table_ok (fs s') [].
Proof.
  destruct demo_process as (s & sl & me & p & so & tf & Hk & Hpar & Hp & Hme & _ & _ & _ & Hof & _ & _ & Hnone & Hvma).
  set (i0 := if decide (me = 0%nat) then 1%nat else 0%nat). set (s0 := Kst (km s) (ptable s) (nextpid s) (Some i0) (fs s)). exists s0, me.
  assert (∀ w : (), ∃ w', (mret () : M () ()) w = Ret ((), w')) as Hret by (intros w; by exists w).
  destruct (exit_correct demo_end demo_tramp (λ i, Z.of_nat i)) with (s := s0) (sl := sl) (E := @nil Z) (o := @nil nat) (rest := @nil nat) (me := me) (i0 := i0) (p := p) (x := (so, tf)) (status := 7)
    as (s' & E1 & _ & _ & Hfs & _ & _ & Ht); try done.
  - intros f w. exists w. unfold close_object. by destruct (ftype f), w.
  - by destruct Hk.
  - unfold i0. case_decide; congruence.
  - congruence.
  - apply Hpar.
  - by rewrite Hof.
  - by rewrite Hof.
  - by rewrite Hvma.
  - intros v. rewrite Hvma. by intros [-> _]%elem_of_replicate.
  - apply Hpar.
  - exists s'. split; [done|]. split; [|done]. exists (zombie 7 p). rewrite Ht, list_lookup_imap. change (ptable s0) with (ptable s). rewrite Hp. cbn. by rewrite decide_True.
Defined.
End demo.
