(* ===== verification/PageFault.v ===== *)
(** * Page faults: [handle_pagefault] of [kernel/trap.c]

    A store to a page shared copy-on-write gives the process a copy of its own and
    nobody reads anything else than before ([pagefault_correct]); every other fault
    outside the areas of [mmap] kills the process. Without memory for the copy the
    handler unmaps every page below the address and lets the process go on. *)
From S2P Require Import Prelude KString Kalloc Vm VmTable VmSpace VmCopy VmUser VmFork VmSafe VmProc Proc.

Definition PROT_WRITE : Z := Z.shiftl 1 2.

Section code.
Context (_end : Z).
(** [mmap_read] of [vm.c]: the file system reads a page of the file into memory. *)
Context (mmap_read : option nat → Z → Z → Z → M kmem_t Z).
Abbreviation KM := (M kmem_t).

Fixpoint check_mmap_vma (vmas : list vm_area) (va : Z) : option vm_area :=
  match vmas with
  | [] => None
  | vm :: vmas => if (vm_valid vm =? 1) && (start_ad vm <=? va) && (va <? end_ad vm) then Some vm else check_mmap_vma vmas va
  end.

(** The result, and whether the process has been killed. *)
Definition handle_mmap_pagefault (pagetable va : Z) (vm : vm_area) (s_cause : Z) : KM (Z * bool) :=
  if (s_cause =? 15) && negb (isset (vm_prot vm) PROT_WRITE) then mret (-1, true) else
  let fault_addr_head := PGROUNDDOWN va in
  pte ← walk _end pagetable fault_addr_head false;
  mapped ← (if pte =? 0 then mret false else v ← pte_read pte; mret (isset v PTE_V));
  if mapped : bool then mret (0, false) else
  pa ← kalloc _end;
  if pa =? 0 then panic "kalloc" else
  in_phys (memset pa 0 (Z.to_nat PGSIZE)) ;;
  mmap_read (vm_file vm) pa (s32 (fault_addr_head - start_ad vm)) PGSIZE ;;
  r ← mappages _end pagetable fault_addr_head PGSIZE pa (Z.lor (vm_prot vm) PTE_U);
  if negb (r =? 0) then kfree _end pa ;; mret (-1, true) else mret (0, false).

Definition handle_pagefault (pagetable : Z) (vmas : list vm_area) (va s_cause : Z) : KM (Z * bool) :=
  if MAXVA <=? va then mret (-1, true) else
  match check_mmap_vma vmas va with
  | Some vm => '(_, killed) ← handle_mmap_pagefault pagetable va vm s_cause; mret (0, killed)
  | None =>
      if s_cause =? 13 then mret (-1, true) else
      let va := PGROUNDDOWN va in
      pte ← walk _end pagetable va false;
      if pte =? 0 then mret (-1, true) else
      v ← pte_read pte;
      let killed := negb (isset v PTE_V) in
      let pa := PTE2PA v in
      if negb (isset v PTE_COW) then mret (-1, true) else
      mem ← kalloc _end;
      if mem =? 0 then uvmunmap _end pagetable 0 (va / PGSIZE) true ;; mret (-1, killed) else
      in_phys (memmove mem pa (Z.to_nat PGSIZE)) ;;
      (if isset (PTE_FLAGS v) PTE_COW
       then pte_write pte (Z.lor (Z.lor (PA2PTE mem) (PTE_FLAGS v)) PTE_W) ;; v' ← pte_read pte; pte_write pte (Z.ldiff v' PTE_COW)
       else mret ()) ;;
      kfree _end pa ;; mret (0, killed)
  end.
End code.

Section faults.
Context (_end : Z) (Hend : KERNBASE <= _end <= PHYSTOP) (mmap_read : option nat → Z → Z → Z → M kmem_t Z).
Implicit Types (s : kmem_t) (L : leaves) (B : list space).
Local Abbreviation handle := (handle_pagefault _end mmap_read).

(** The kernel's own pages of a space are not copy-on-write. *)
Definition high_plain L : Prop := ∀ v e, UVPN <= v → L !! v = Some e → Z.testbit e 8 = false.

(** Once there is a page, the handler does what [copyout] does. *)
Lemma cow_copy_tail pte v s q s' (k : bool) : isset v PTE_COW = true → cow_copy _end pte v s = Ret (q, s') →
  ∃ mem s1, kalloc _end s = Ret (mem, s1) ∧ mem ≠ 0 ∧
    (in_phys (memmove mem (PTE2PA v) (Z.to_nat PGSIZE)) ;;
     (if isset (PTE_FLAGS v) PTE_COW
      then pte_write pte (Z.lor (Z.lor (PA2PTE mem) (PTE_FLAGS v)) PTE_W) ;; v' ← pte_read pte; pte_write pte (Z.ldiff v' PTE_COW)
      else mret ()) ;;
     kfree _end (PTE2PA v) ;; mret (0, k)) s1 = Ret ((0, k), s').
Proof using.
  intros Hv E. unfold cow_copy in E. apply bind_Ret_inv in E as (mem & s1 & E1 & E). exists mem, s1. split; [done|]. destruct (Z.eqb_spec mem 0); [done|]. split; [done|].
  apply bind_Ret_inv in E as (r2 & s2 & E2 & E). apply bind_Ret_inv in E as ([] & s3 & E3 & E). apply bind_Ret_inv in E as (v' & s4 & E4 & E). apply bind_Ret_inv in E as ([] & s5 & E5 & E).
  apply bind_Ret_inv in E as ([] & s6 & E6 & E). injection E as -> ->.
  assert (isset (PTE_FLAGS v) PTE_COW = true) as ->.
  { change PTE_COW with (2 ^ 8) in *. rewrite isset_bit in Hv |- * by lia. rewrite PTE_FLAGS_testbit, Hv by lia. done. }
  rewrite (bind_Ret _ _ _ _ _ E2). rewrite (bind_Ret _ _ s2 () s5); [by rewrite (bind_Ret _ _ _ _ _ E6)|]. by rewrite (bind_Ret _ _ _ _ _ E3), (bind_Ret _ _ _ _ _ E4).
Qed.

(** C23: A page fault outside the areas of [mmap]: unless it is a store to a page shared
    copy-on-write below [MAXVA], the process is killed and nothing changes. If it is,
    the process gets its own copy, which it may write from now on, and every process
    reads what it read; or there is no memory, and then every page of the process
    below the address is gone although it is not killed. *)
Theorem pagefault_correct s sp B E vmas va cause :
  vm_inv _end s (sp :: B) E → in_range 64 va → check_mmap_vma vmas va = None → high_plain (sp_L sp) →
  let out := handle (sp_root sp) vmas va cause s in
  (MAXVA <= va ∨ cause = 13 ∨ ¬ cow_page (sp_L sp) va → out = Ret ((-1, true), s)) ∧
  (va < MAXVA → cause ≠ 13 → cow_page (sp_L sp) va →
    (∃ s' e e', let L' := <[vpn va := e']> (sp_L sp) in out = Ret ((0, false), s') ∧ vm_inv _end s' (Space (sp_root sp) (sp_T sp) L' :: B) E ∧
       sp_L sp !! vpn va = Some e ∧ Z.testbit e' 8 = false ∧ Z.testbit e' 2 = true ∧ Z.testbit e' 4 = Z.testbit e 4 ∧
       (∀ a, uload (phys s') L' a = uload (phys s) (sp_L sp) a) ∧
       (∀ sp' a, sp' ∈ B → uload (phys s') (sp_L sp') a = uload (phys s) (sp_L sp') a)) ∨
    tight _end (all_refs (sp :: B) ++ E) 0 ∧
    ((∀ w, 0 <= w < vpn va → is_Some (sp_L sp !! w)) → ∃ s' L', out = Ret ((-1, false), s') ∧ vm_inv _end s' (Space (sp_root sp) (sp_T sp) L' :: B) E ∧
       (∀ a, uload (phys s') L' a = if decide (0 <= vpn a < vpn va) then None else uload (phys s) (sp_L sp) a) ∧
       (∀ sp' a, sp' ∈ B → uload (phys s') (sp_L sp') a = uload (phys s) (sp_L sp') a))).
Proof using Hend.
  intros Hi Hva Hno Hhigh out. unfold out, handle_pagefault. clear out. destruct (Z.leb_spec MAXVA va) as [Hm|Hm]; [split; [done|lia]|]. rewrite Hno.
  destruct (Z.eqb_spec cause 13) as [Hc|Hc]; [split; [done|by intros]|]. rewrite PGROUNDDOWN_spec by done.
  pose proof (vm_open _ _ _ _ _ Hi) as Hok. destruct (walk_leaf _end Hend s (sp_root sp) (sp_T sp) (sp_L sp) (vpn va * PGSIZE) (tk_rep _ _ _ _ _ _ Hok)) as [E1 Hcase].
  { unfold vpn, PGSIZE, in_range in *. dlia. }
  rewrite (bind_Ret _ _ _ _ _ E1), vpn_mul in *. unfold cow_page. destruct (sp_L sp !! vpn va) as [e|] eqn:He.
  2:{ split; [|by intros _ _ (? & ? & _)]. intros _. destruct Hcase as [->|[Hnz E2]]; [done|]. destruct (Z.eqb_spec (slot (sp_T sp) (vpn va)) 0); [done|]. by rewrite (bind_Ret _ _ _ _ _ E2). }
  destruct Hcase as (Hnz & E2 & Hv). destruct (Z.eqb_spec (slot (sp_T sp) (vpn va)) 0); [done|]. rewrite (bind_Ret _ _ _ _ _ E2).
  assert (isset e PTE_V = true) as -> by (change PTE_V with (2 ^ 0); by rewrite isset_bit). cbn [negb].
  destruct (isset e PTE_COW) eqn:Hcow; pose proof Hcow as H8; change PTE_COW with (2 ^ 8) in H8; rewrite isset_bit in H8 by lia; cbn [negb].
  2:{ split; [done|]. intros _ _ (? & [= <-] & ?). congruence. }
  split; [intros [?|[?|Hn]]; [lia|done|]; exfalso; apply Hn; by exists e|]. intros _ _ _.
  assert (vpn va < UVPN) as Hlow by (destruct (Z_lt_le_dec (vpn va) UVPN) as [|Hge]; [done|]; specialize (Hhigh _ _ Hge He); congruence).
  assert (0 <= vpn va) as Hpos by (unfold vpn, PGSIZE, in_range in *; dlia).
  destruct (cow_copy_spec _end Hend s sp B E (vpn va) e Hi He Hlow) as [[E3 Ht]|(q & s' & E3 & Hpq & Hi' & Hout & Hl)].
  - right. split; [done|]. intros Hall. rewrite (bind_Ret _ _ _ _ _ E3). change (0 =? 0) with true. cbn iota. rewrite Z.div_mul by done.
    destruct (uvmunmap_spec _end Hend s sp B E 0 (vpn va) Hi) as (s' & E4 & Hi' & Hout & Hl); [done|done|lia|intros w Hw; apply Hall; lia|]. change (0 * PGSIZE) with 0 in E4.
    exists s', (unmap_range (Z.to_nat (vpn va)) 0 (sp_L sp)). split; [by rewrite (bind_Ret _ _ _ _ _ E4)|]. split; [done|]. split; [intros a; rewrite Hl; by rewrite Z.add_0_l|].
    intros sp' a Hsp'. by eapply (others_uload _end s s' (sp :: B) B); [|right| |].
  - left. destruct (cow_copy_tail _ _ _ _ _ false Hcow E3) as (mem & s1 & Ek & Hmem & Et). assert (aligned q) as Hqa by (by apply (page_aligned _end)).
    exists s', e, (cow_pte q e). cbv zeta. split; [rewrite (bind_Ret _ _ _ _ _ Ek); destruct (Z.eqb_spec mem 0); [done|exact Et]|]. split; [done|]. split; [done|]. rewrite !cow_pte_flag by (done || lia).
    split; [by rewrite andb_false_r|]. split; [by rewrite orb_true_r|]. split; [by rewrite orb_false_r, andb_true_r|]. split; [done|].
    intros sp' a Hsp'. by eapply (others_uload _end s s' (sp :: B) B); [|right| |].
Qed.
End faults.

(** A process of one writable page forks; then it stores to the page. *)
Lemma demo_forked : ∃ s sp sn, vm_inv demo_end s [sp; sn] [] ∧ cow_page (sp_L sp) 0 ∧ high_plain (sp_L sp).
Proof.
  pose proof demo_range as Hend. destruct demo_boots as [bs Hbs]. destruct (kinit_spec demo_end Hend bs Hbs) as (s0 & _ & E0 & _). pose proof (vm_boot demo_end Hend bs s0 Hbs E0) as Hi0.
  destruct (uvmcreate_spec demo_end Hend s0 [] [] Hi0 ltac:(done)) as [[_ Ht]|(q & s1 & _ & Hq & Hi1 & _)]; [apply demo_roomy in Ht; cbn in Ht; lia|].
  destruct (uvmcreate_spec demo_end Hend s1 _ [] Hi1 ltac:(done)) as [[_ Ht]|(q' & s2 & _ & Hq' & Hi2 & _)]; [apply demo_roomy in Ht; vm_compute in Ht; lia|].
  pose proof (vm_open _ _ _ _ _ Hi2) as Hok.
  destruct (zeroed_page demo_end Hend s2 _ _ _ _ Hok) as [[_ Ht]|(p & s3 & s4 & _ & _ & _ & Hpp & Hpn & Hok4 & Hu & Hz)]; [apply demo_roomy in Ht; vm_compute in Ht; lia|].
  destruct (grow_map demo_end Hend s2 s4 (root_space q') [root_space q] [] 0 p PTE_W Hi2) as (r & s5 & T & _ & HT & Hcase); try done; [by apply (page_aligned demo_end)|exact user_perm_W|].
  destruct Hcase as [[-> (Hi5 & _)]|(_ & Ht & _)]; [|apply demo_roomy in Ht; vm_compute in Ht; lia]. set (L := <[0 := user_pte p PTE_W]> (sp_L (root_space q'))) in *.
  assert (∀ w, w ≠ 0 → L !! w = None) as Hone by (intros w Hw; unfold L; by rewrite lookup_insert_ne).
  destruct (copy_loop_spec demo_end Hend 4096 1 ltac:(by vm_compute) 2 s5 (Space q' T L) (root_space q) [] [] 0 Hi5) as (r & s6 & Lo & Tn & Ln & k & _ & Hi6 & _ & _ & Hk & HLo & Hr); try done; [lia|..].
  { intros w Hw. change (pages 4096) with 1 in Hw. replace w with 0 by lia. eexists. apply lookup_insert_eq. }
  { intros w Hw. lia. }
  assert (k = 1) as ->.
  { destruct Hr as [(_ & -> & _)|(_ & Ht & _)]; [done|]. exfalso. apply demo_roomy in Ht. unfold all_refs, srefs in Ht. cbn [fmap list_fmap mjoin list_join sp_T sp_L] in Ht. rewrite !length_app in Ht.
    pose proof (Permutation_length (frames_insert (sp_L (root_space q')) 0 (user_pte p PTE_W) eq_refl ltac:(by vm_compute))) as Hl. fold L in Hl. rewrite Hl in Ht.
    assert (∀ x, length (tabs (sp_T (root_space x))) = 1%nat ∧ length (frames (sp_L (root_space x))) = 0%nat) as Hx by (intros x; by vm_compute).
    destruct (Hx q) as [H1 H2], (Hx q') as [H3 H4]. rewrite H1, H2 in Ht. cbn [length] in Ht. rewrite H4 in Ht. rewrite H3 in HT. change (Z.to_nat 1) with 1%nat in Ht. cbn [length] in Ht. lia. }
  exists s6, (Space q' T Lo), (Space q Tn Ln). split; [exact Hi6|]. cbn [sp_L]. split.
  - exists (share_pte (user_pte p PTE_W)). change (vpn 0) with 0. rewrite HLo, decide_True by lia. split; [cbn [sp_L]; unfold L; by rewrite lookup_insert_eq|].
    rewrite share_pte_testbit by lia. destruct (user_pte_flags p PTE_W ltac:(by apply (page_aligned demo_end)) user_perm_W) as (_ & _ & _ & -> & _). change (Z.testbit PTE_W 2) with true. rewrite decide_False, decide_True, orb_true_r by lia. done.
  - intros w e Hw He. assert (0 < UVPN) as Hu0 by by vm_compute. rewrite HLo, decide_False, Hone in He by lia. done.
Qed.
Lemma pagefault_correct_witness : ∃ s sp sn r s' L', cow_page (sp_L sp) 0 ∧ handle_pagefault demo_end (λ _ _ _ _, mret 0) (sp_root sp) (replicate 100 vma0) 0 15 s = Ret ((r, false), s') ∧
  vm_inv demo_end s' [Space (sp_root sp) (sp_T sp) L'; sn] [] ∧ uload (phys s') L' 0 = uload (phys s) (sp_L sp) 0.
Proof.
  destruct demo_forked as (s & sp & sn & Hi & Hc & Hh). exists s, sp, sn.
  destruct (pagefault_correct demo_end demo_range (λ _ _ _ _, mret 0) s sp [sn] [] (replicate 100 vma0) 0 15 Hi ltac:(done) eq_refl Hh) as [_ H].
  destruct (H ltac:(done) ltac:(done) Hc) as [(s' & e & e' & E & Hi' & _ & _ & _ & _ & Hl & _)|(_ & Hoom)].
  - exists 0, s', (<[vpn 0 := e']> (sp_L sp)). by split_and!.
  - destruct (Hoom ltac:(change (vpn 0) with 0; intros w Hw; lia)) as (s' & L' & E & Hi' & Hl & _). exists (-1), s', L'. split_and!; [done|done|done|]. by rewrite Hl.
Defined.
