(* ===== verification/Trans.v ===== *)
(** * What a file system may rely on: blocks inside a transaction

    [kernel/s5.c] reads a block with [bread], changes the bytes of its buffer,
    hands it to [log_write] and gives it up with [brelse]. [Trans] names these
    operations for one device, between [begin_op] and [end_op]; [TransSpec] is what
    the buffer cache ([Bio]) and the log ([Log]) promise about them: a buffer shows
    its block and is its holder's alone, a changed buffer must be logged before it
    is given up, and the blocks logged by one operation are limited. *)
From S2P Require Import Prelude BlockCache.

Record tstate (B : Type) := TState {
  t_held : gmap Z B;       (* the buffers held, by block *)
  t_view : Z → block;      (* the blocks as their buffers show them *)
  t_dirty : gset Z;        (* changed *)
  t_logged : gset Z;       (* logged by this operation *)
}.
Arguments TState {B}. Arguments t_held {B}. Arguments t_view {B}. Arguments t_dirty {B}. Arguments t_logged {B}.

Section tstate.
Context {B : Type}.
Implicit Types t : tstate B.
Definition ts_hold (n : Z) (b : B) t : tstate B := TState (<[n := b]> (t_held t)) (t_view t) (t_dirty t) (t_logged t).
Definition ts_store (n : Z) (d : block) t : tstate B := TState (t_held t) (<[n := d]> (t_view t)) ({[n]} ∪ t_dirty t) (t_logged t).
Definition ts_log (n : Z) t : tstate B := TState (t_held t) (t_view t) (t_dirty t) ({[n]} ∪ t_logged t).
Definition ts_release (n : Z) t : tstate B := TState (delete n (t_held t)) (t_view t) (t_dirty t) (t_logged t).
End tstate.

Class Trans (W B : Type) := {
  t_bread : Z → M W B;
  t_data : B → M W block;
  t_store : B → block → M W ();
  t_log : B → M W ();
  t_brelse : B → M W ();
}.

(** [t_quota] blocks may be logged, [t_room] buffers be in use, on a device of
    [t_size] blocks; those below [t_low] are the log's. *)
Class TransSpec (W B : Type) `{Trans W B} := {
  t_quota : nat;
  t_room : nat;
  t_size : Z;
  t_low : Z;
  t_rep : W → tstate B → Prop;
  t_rep_block w t n : t_rep w t → 0 <= n < t_size → Z.of_nat (length (t_view t n)) = BSIZE;
  t_bread_ok w t n : t_rep w t → 0 <= n < t_size → t_held t !! n = None → (size (t_logged t) + size (t_held t) < t_room)%nat →
    ∃ b w', t_bread n w = Ret (b, w') ∧ t_rep w' (ts_hold n b t);
  t_data_ok w t n b : t_rep w t → t_held t !! n = Some b → t_data b w = Ret (t_view t n, w);
  t_store_ok w t n b d : t_rep w t → t_held t !! n = Some b → Z.of_nat (length d) = BSIZE →
    ∃ w', t_store b d w = Ret ((), w') ∧ t_rep w' (ts_store n d t);
  t_log_ok w t n b : t_rep w t → t_held t !! n = Some b → t_low <= n → n ∈ t_logged t ∨ (size (t_logged t) < t_quota)%nat →
    ∃ w', t_log b w = Ret ((), w') ∧ t_rep w' (ts_log n t);
  t_brelse_ok w t n b : t_rep w t → t_held t !! n = Some b → (n ∈ t_dirty t → n ∈ t_logged t) →
    ∃ w', t_brelse b w = Ret ((), w') ∧ t_rep w' (ts_release n t);
}.
