(* ===== verification/TransLog.v ===== *)
(** * Transactions on the log

    The blocks of the log's transaction, as a file system uses them: [Trans] over
    [kernel/log.c] and any block cache. A buffer comes with its block number
    ([b->blockno]). The log, alone in a transaction, keeps what [TransSpec] asks
    for ([log_trans_spec]). *)
From S2P Require Import Prelude BlockCache Log Trans.

Section log_trans.
Context {C B : Type} `{BlockCacheSpec C B} (st : Z) (D : Z → block) (h : list (Z * block)).

#[global] Instance log_trans : Trans (lsys C) (B * Z) := {
  t_bread n := b ← in_cache (bc_read n); mret (b, n);
  t_data b := in_cache (bc_data b.1);
  t_store b d := in_cache (bc_store b.1 d);
  t_log b := log_write b.1 b.2;
  t_brelse b := in_cache (bc_release b.1);
}.

(** The only operation of its transaction has logged the blocks [bs]; the disk is
    still [D], after the writes [h]. *)
Record log_rep (s : lsys C) (t : tstate (B * Z)) (a : astate B) (bs : list Z) : Prop := {
  lr_cache : bc_rep (cache s) a;
  lr_lists : lists (lg s) bs;
  lr_placed : placed (start (lg s)) bs;
  lr_start : start (lg s) = st;
  lr_one : outstanding (lg s) = 1 ∧ committing (lg s) = false;
  lr_size : size (lg s) = LOGSIZE;
  lr_most : (length bs <= 28)%nat;
  lr_view : ∀ n, a_view a n = t_view t n;
  lr_held : ∀ n, a_held a n = fst <$> t_held t !! n;
  lr_block : ∀ n b, t_held t !! n = Some b → b.2 = n ∧ 0 <= n < FSSIZE;
  lr_refs : ∀ n, 0 <= n < FSSIZE → a_refs a n = (if t_held t !! n then 1 else 0) + (if decide (n ∈ bs) then 1 else 0);
  lr_avail : a_avail a + Z.of_nat (base.size (dom (t_held t) ∪ list_to_set bs : gset Z)) = 30;
  lr_logged : t_logged t = list_to_set bs;
  lr_disk : ∀ n, a_disk a n = D n;
  lr_hist : a_hist a = h;
  lr_clean : ∀ n, 0 <= n < FSSIZE → n ∉ t_dirty t → n ∉ bs → a_view a n = D n;
}.

Lemma bs_dev bs n : placed st bs → n ∈ bs → 0 <= n < FSSIZE.
Proof. intros Hp Hn. destruct Hp as [_ _ Ho _]. rewrite Forall_forall in Ho. by destruct (Ho n Hn). Qed.
Lemma size_bs (bs : list Z) : NoDup bs → base.size (list_to_set bs : gset Z) = length bs.
Proof. intros. by apply size_list_to_set. Qed.

Lemma log_bread s t n : (∃ a bs, log_rep s t a bs) → 0 <= n < FSSIZE → t_held t !! n = None → (base.size (t_logged t) + base.size (t_held t) < 30)%nat →
  ∃ b s', t_bread n s = Ret (b, s') ∧ ∃ a bs, log_rep s' (ts_hold n b t) a bs.
Proof.
  intros (a & bs & []) Hn Hh Hsz. assert (a_held a n = None) as Hha by (by rewrite lr_held0, Hh). pose proof (lr_refs0 n Hn) as Hr. rewrite Hh in Hr.
  assert (base.size (dom (t_held t) ∪ list_to_set bs : gset Z) < 30)%nat as Hu.
  { rewrite lr_logged0 in Hsz. rewrite size_union_alt, size_dom. assert (base.size ((list_to_set bs : gset Z) ∖ dom (t_held t)) <= base.size (list_to_set bs : gset Z))%nat by (apply subseteq_size; set_solver). lia. }
  destruct (bc_read_ok (cache s) a n) as (b & c & E & Hc); try done.
  { unfold a_room. case_decide; [left; lia|right; split; [lia|]]. lia. }
  exists (b, n), (LSys (lg s) c). split; [cbn; by rewrite (bind_Ret _ _ _ _ _ (in_cache_run _ s _ _ E))|]. exists (a_read n b a), bs. constructor; try done; cbn.
  - intros m. rewrite fn_insert_at. destruct (decide (m = n)) as [->|]; [by rewrite lookup_insert_eq|]. by rewrite lookup_insert_ne.
  - intros m b' Hm. destruct (decide (m = n)) as [->|]; [rewrite lookup_insert_eq in Hm; by injection Hm as <-|]. rewrite lookup_insert_ne in Hm by done. by apply lr_block0.
  - intros m Hm. rewrite fn_insert_at. destruct (decide (m = n)) as [->|]; [rewrite lookup_insert_eq, Hr; lia|]. rewrite lookup_insert_ne by done. by apply lr_refs0.
  - rewrite dom_insert_L. rewrite Hr. case_decide as Hb.
    + cbn [Z.eqb Z.add]. assert ({[n]} ∪ dom (t_held t) ∪ list_to_set bs = dom (t_held t) ∪ list_to_set bs :> gset Z) as ->; [|done]. apply set_eq. intros x. rewrite !elem_of_union, elem_of_singleton, elem_of_list_to_set. naive_solver.
    + cbn [Z.eqb Z.add]. rewrite <- union_assoc_L, size_union, size_singleton; [simpl; lia|]. apply disjoint_singleton_l. rewrite elem_of_union, elem_of_list_to_set. intros [Hd|]; [|done]. apply elem_of_dom in Hd as [? ?]. congruence.
Qed.

Lemma log_store s t n b d : (∃ a bs, log_rep s t a bs) → t_held t !! n = Some b → Z.of_nat (length d) = BSIZE →
  ∃ s', t_store b d s = Ret ((), s') ∧ ∃ a bs, log_rep s' (ts_store n d t) a bs.
Proof.
  intros (a & bs & []) Hb Hd. destruct (lr_block0 n b Hb) as [<- Hn]. destruct (bc_store_ok (cache s) a b.2 b.1 d) as (c & E & Hc); [done|by rewrite lr_held0, Hb|done|].
  exists (LSys (lg s) c). split; [by apply (in_cache_run _ s)|]. exists (a_store b.2 d a), bs. constructor; try done; cbn.
  - intros m. rewrite !fn_insert_at. by case_decide.
  - intros m Hm Hnd Hnb. rewrite fn_insert_at, decide_False by set_solver. apply lr_clean0; set_solver.
Qed.

Lemma log_write_geometry b n s s' : log_write b n s = Ret ((), s') → start (lg s') = start (lg s) ∧ size (lg s') = size (lg s) ∧ committing (lg s') = committing (lg s).
Proof.
  intros E. assert (Keeps (λ s : lsys C, (start (lg s), size (lg s), committing (lg s))) (log_write b n)) as Hk.
  { assert (∀ A (m : M C A), Keeps (λ s : lsys C, (start (lg s), size (lg s), committing (lg s))) (in_cache m)) by (intros A m s0 x s1 E0; unfold in_cache in E0; destruct (m (cache s0)) as [[? ?]| | | |]; by inversion E0).
    assert (∀ k i, Keeps (λ s : lsys C, (start (lg s), size (lg s), committing (lg s))) (absorb k i n)) by (induction k; intros; cbn [absorb]; apply _).
    unfold log_write, set_block_at, block_at, upd_log. apply _. }
  specialize (Hk _ _ _ E). by injection Hk as ? ? ?.
Qed.
Lemma log_log s t n b : (∃ a bs, log_rep s t a bs) → t_held t !! n = Some b → st + LOGSIZE <= n → n ∈ t_logged t ∨ (base.size (t_logged t) < 28)%nat →
  ∃ s', t_log b s = Ret ((), s') ∧ ∃ a bs, log_rep s' (ts_log n t) a bs.
Proof.
  intros (a & bs & []) Hb Hlow Hq. destruct (lr_block0 n b Hb) as [<- Hn]. pose proof (lr_refs0 _ Hn) as Hr. rewrite Hb in Hr.
  destruct (log_write_correct s a bs b.1 b.2) as (l & c & E & Hl & Hp & Ho & Hc); try done.
  - split; [done|]. rewrite lr_start0. by right.
  - by rewrite lr_held0, Hb.
  - case_decide; lia.
  - lia.
  - rewrite lr_size0. unfold LOGSIZE, MAXOPBLOCKS. lia.
  - by rewrite lr_size0.
  - assert (start l = start (lg s) ∧ size l = size (lg s) ∧ committing l = committing (lg s)) as (Es & Ez & Ecm).
    { apply (log_write_geometry b.1 b.2 s (LSys l c) E). }
    exists (LSys l c). split; [done|].
    exists (if decide (b.2 ∈ bs) then a else a_pin b.2 a), (if decide (b.2 ∈ bs) then bs else bs ++ [b.2]). constructor; cbn; try done; try congruence; try (by case_decide); try lia.
    + case_decide; [done|]. destruct Hq as [Hq|Hq]; rewrite lr_logged0 in Hq; [by rewrite elem_of_list_to_set in Hq|]. rewrite size_bs in Hq by apply lr_placed0. rewrite length_app. cbn. lia.
    + intros m Hm. case_decide as Hin; cbn; [by apply lr_refs0|]. rewrite fn_insert_at. destruct (decide (m = b.2)) as [->|Hne].
      * rewrite Hr, Hb, !decide_True by in_list. lia.
      * rewrite lr_refs0 by done. f_equal. destruct (decide (m ∈ bs)); [by rewrite decide_True by in_list|]. rewrite decide_False by in_list. done.
    + case_decide as Hin; [done|]. cbn. rewrite <- lr_avail0. do 3 f_equal. rewrite list_to_set_app_L. cbn.
      assert (b.2 ∈ dom (t_held t)) by (apply elem_of_dom; eauto). clear -H1. set_solver.
    + rewrite lr_logged0. case_decide as Hin; [rewrite subseteq_union_1_L; [done|]; apply singleton_subseteq_l; by rewrite elem_of_list_to_set|].
      rewrite list_to_set_app_L. cbn. clear. set_solver.
    + intros m Hm Hd. case_decide; [by apply lr_clean0|]. intros Hnin. apply lr_clean0; [done|done|in_list].
Qed.

Lemma log_brelse s t n b : (∃ a bs, log_rep s t a bs) → t_held t !! n = Some b → (n ∈ t_dirty t → n ∈ t_logged t) →
  ∃ s', t_brelse b s = Ret ((), s') ∧ ∃ a bs, log_rep s' (ts_release n t) a bs.
Proof.
  intros (a & bs & []) Hb Hd. destruct (lr_block0 n b Hb) as [<- Hn]. pose proof (lr_refs0 _ Hn) as Hr. rewrite Hb in Hr.
  destruct (bc_release_ok (cache s) a b.2 b.1) as (c & E & Hc); [done|by rewrite lr_held0, Hb| |].
  { intros Hr1. case_decide as Hin; [lia|]. rewrite lr_disk0. apply lr_clean0; [done| |done]. intros Hdd. apply Hd in Hdd. rewrite lr_logged0, elem_of_list_to_set in Hdd. done. }
  exists (LSys (lg s) c). split; [by apply (in_cache_run _ s)|]. exists (a_release b.2 a), bs. constructor; try done; cbn.
  - intros m. rewrite fn_insert_at. destruct (decide (m = b.2)) as [->|]; [by rewrite lookup_delete_eq|]. by rewrite lookup_delete_ne.
  - intros m b' Hm. apply lr_block0. by apply lookup_delete_Some in Hm as [_ ?].
  - intros m Hm. rewrite fn_insert_at. destruct (decide (m = b.2)) as [->|]; [rewrite lookup_delete_eq, Hr; lia|]. rewrite lookup_delete_ne by done. by apply lr_refs0.
  - rewrite dom_delete_L, Hr. assert (b.2 ∈ dom (t_held t)) as Hdom by (apply elem_of_dom; eauto). case_decide as Hin; cbn [Z.eqb Z.add Pos.add Pos.eqb].
    + assert (dom (t_held t) ∖ {[b.2]} ∪ list_to_set bs = dom (t_held t) ∪ list_to_set bs :> gset Z) as ->; [|done].
      assert (b.2 ∈ (list_to_set bs : gset Z)) as Hs by (by rewrite elem_of_list_to_set). apply set_eq. intros x. destruct (decide (x = b.2)) as [->|]; set_solver.
    + assert (dom (t_held t) ∪ list_to_set bs = {[b.2]} ∪ (dom (t_held t) ∖ {[b.2]} ∪ list_to_set bs) :> gset Z) as Eu.
      { apply set_eq. intros x. destruct (decide (x = b.2)) as [->|]; set_solver. }
      rewrite Eu, size_union, size_singleton in lr_avail0; [simpl; lia|]. apply disjoint_singleton_l. rewrite elem_of_union, elem_of_list_to_set. set_solver.
Qed.

Definition log_holds (s : lsys C) (t : tstate (B * Z)) : Prop := ∃ a bs, log_rep s t a bs.
Lemma log_block s t n : log_holds s t → 0 <= n < FSSIZE → Z.of_nat (length (t_view t n)) = BSIZE.
Proof. intros (a & bs & []) Hn. rewrite <- lr_view0. by eapply bc_rep_block. Qed.
Lemma log_data s t n b : log_holds s t → t_held t !! n = Some b → t_data b s = Ret (t_view t n, s).
Proof.
  intros (a & bs & []) Hb. destruct (lr_block0 n b Hb) as [<- _]. cbn. rewrite (in_cache_run _ s (t_view t b.2) (cache s)); [by destruct s|].
  rewrite <- lr_view0. eapply bc_data_ok; [done|]. by rewrite lr_held0, Hb.
Qed.
Lemma log_log' s t n b : log_holds s t → t_held t !! n = Some b → st + LOGSIZE <= n → n ∈ t_logged t ∨ (base.size (t_logged t) < 20)%nat →
  ∃ s', t_log b s = Ret ((), s') ∧ log_holds s' (ts_log n t).
Proof. intros Hr Hb Hl Hq. eapply log_log; try done. destruct Hq; [by left|right; lia]. Qed.

(** The log keeps the contract: 20 blocks at most, of the 28 it has room for, so that
    buffers remain for those held. *)
#[global] Instance log_trans_spec : TransSpec (lsys C) (B * Z) := {
  t_quota := 20; t_room := 30; t_size := FSSIZE; t_low := st + LOGSIZE; t_rep := log_holds;
  t_rep_block := log_block; t_bread_ok := log_bread; t_data_ok := log_data; t_store_ok := log_store; t_log_ok := log_log'; t_brelse_ok := log_brelse;
}.

(** ** The end of the operation *)

Lemma log_rep_committable s t a bs : log_rep s t a bs → t_held t = ∅ → header_blocks (D st) = Some [] → committable s a bs.
Proof.
  intros [] Hh Hd. rewrite Hh in *. assert (∀ m, a_held a m = None) as Hq by (intros m; by rewrite lr_held0, lookup_empty). constructor; try done.
  - apply Forall_forall. intros b Hb. rewrite lr_refs0 by (apply (bs_dev bs b); [by rewrite <- lr_start0|done]). rewrite lookup_empty, decide_True by done. lia.
  - intros m Hm. destruct lr_placed0 as [Hst _ Ho _]. rewrite lr_refs0 by lia. rewrite lookup_empty, decide_False; [done|]. intros Hin. rewrite Forall_forall in Ho. destruct (Ho m Hin). lia.
  - rewrite dom_empty_L, union_empty_l_L, size_bs in lr_avail0 by apply lr_placed0. lia.
  - rewrite lr_start0, lr_disk0. done.
Qed.

(** No operation runs: the cache holds what the disk does, every buffer is free. *)
Record at_rest (st : Z) (a : astate B) (s : lsys C) : Prop := {
  ar_rep : bc_rep (cache s) a;
  ar_lists : lists (lg s) [];
  ar_placed : placed st [];
  ar_start : start (lg s) = st;
  ar_idle : outstanding (lg s) = 0 ∧ committing (lg s) = false;
  ar_size : size (lg s) = LOGSIZE;
  ar_held : ∀ n, a_held a n = None;
  ar_refs : ∀ n, 0 <= n < FSSIZE → a_refs a n = 0;
  ar_avail : a_avail a = 30;
  ar_head : header_blocks (a_disk a st) = Some [];
}.
Lemma lists_set_outstanding o l bs : lists l bs → lists (set_outstanding o l) bs.
Proof. intros []. by constructor. Qed.

(** [end_op] makes what the operation did durable, all of it or nothing: whatever
    write of the commit the machine dies at, recovery leaves the old disk or the
    blocks as the operation saw them. *)
Lemma end_op_run s t : log_holds s t → t_held t = ∅ → t_logged t ≠ ∅ → t_dirty t ⊆ t_logged t → header_blocks (D st) = Some [] →
  ∃ s' a' w, end_op s = Ret ((), s') ∧ at_rest st a' s' ∧ a_hist a' = h ++ w ∧ (∀ m, a_disk a' m = after D w m) ∧ (∀ m, outside st m → a_disk a' m = t_view t m) ∧
    ∀ k (c0 : C) a0 l0, fresh c0 a0 (after D (take k w)) → start l0 = st → Z.of_nat (length (lh_block l0)) = LOGSIZE →
    ∃ s1 a1, recover_from_log (LSys l0 c0) = Ret ((), s1) ∧ bc_rep (cache s1) a1 ∧
      ((∀ m, outside st m → a_disk a1 m = D m) ∨ ∀ m, outside st m → a_disk a1 m = t_view t m).
Proof.
  intros (a & bs & Hr) Hh Hne Hd Hhd. pose proof (log_rep_committable s t a bs Hr Hh Hhd) as Hc. destruct Hr.
  destruct (crash_atomic s a bs Hc) as (s' & a' & w & E & Ha' & (d1 & d2 & -> & Hd2) & Hw & Elg & Hcrash); [intros ->; by apply Hne|by destruct lr_one0|by destruct lr_one0|].
  destruct (a_committed_facts (start (lg s)) bs d1 d2 a lr_placed0) as (R1 & R2 & R3 & [w' [R4 R4']] & R5 & R6). rewrite lr_start0 in *.
  assert (w' = w) as -> by (rewrite R4 in Hw; by apply app_inv_head in Hw). set (a' := a_committed st bs d1 d2 a) in *.
  assert (∀ m, 0 <= m < FSSIZE → m ∉ bs → a_view a m = D m) as Hcl.
  { intros m Hm Hb. apply lr_clean0; [done| |done]. intros Hdm. apply Hd in Hdm. rewrite lr_logged0, elem_of_list_to_set in Hdm. done. }
  assert (∀ m, a_held a m = None) as Hno by (intros m; by rewrite lr_held0, Hh, lookup_empty).
  exists s', a', w. split; [done|]. split; [|split; [by rewrite <- lr_hist0|split; [|split]]].
  - destruct lr_one0 as [Ho Hcm]. constructor; rewrite ?Elg; try done.
    + by apply (lists_set_n _ bs), lists_set_outstanding.
    + destruct lr_placed0 as [[? ?] _ _ _]. by apply placed_nil.
    + intros m. by rewrite R2.
    + intros m Hm. rewrite R1, lr_refs0, Hh, lookup_empty by done. case_decide; lia.
    + rewrite R3.
      * rewrite Hh, dom_empty_L, union_empty_l_L, size_bs in lr_avail0 by apply lr_placed0. lia.
      * apply Forall_forall. intros b Hb. rewrite lr_refs0, Hh, lookup_empty, decide_True by (done || by apply (bs_dev bs b)). done.
    + by rewrite R6.
  - intros m. rewrite R4'. by apply after_ext.
  - intros m Hm. rewrite R5 by done. rewrite <- lr_view0. case_decide; [done|]. rewrite lr_disk0. symmetry. apply Hcl; [apply Hm|done].
  - intros k c0 a0 l0 Hf Hs Hl. destruct (Hcrash k c0 a0 l0) as (s1 & a1 & E1 & Ha1 & Hm & _); [|congruence|done|].
    { destruct Hf as [F1 F2 F3 F4 F5 F6]. constructor; try done. intros m Hmr. rewrite F5 by done. by apply after_ext. }
    exists s1, a1. split; [done|]. split; [done|]. case_decide as Hk; [left|right]; intros m Hmo; rewrite Hm by done; [done|].
    unfold committed. rewrite <- lr_view0. case_decide; [done|]. rewrite lr_disk0. symmetry. apply Hcl; [apply Hmo|done].
Qed.
End log_trans.

(** The next operation begins where the last one ended. *)
Lemma begin_op_run {C B : Type} `{BlockCacheSpec C B} st (a : astate B) (s : lsys C) : at_rest st a s →
  ∃ s', begin_op s = Ret (OpStarted, s') ∧ log_holds st (a_disk a) (a_hist a) s' (TState ∅ (a_view a) ∅ ∅).
Proof.
  intros []. destruct ar_idle0 as [Ho Hc]. exists (LSys (set_outstanding 1 (lg s)) (cache s)). split.
  - unfold begin_op. rewrite (bind_Ret _ _ s (lg s) s) by done. rewrite Hc, (ls_n _ _ ar_lists0), Ho. change (LOGSIZE <? Z.of_nat (length []) + (0 + 1) * MAXOPBLOCKS) with false. cbn. unfold upd_log, modify, mbind, M_bind. cbn. by rewrite Ho.
  - exists a, []. constructor; try done; cbn; try lia.
    + by apply lists_set_outstanding.
    + by rewrite ar_start0.
    + rewrite ar_avail0. done.
    + intros n Hn _ _. eapply bc_rep_clean; eauto.
Qed.
