(* ===== verification/S5.v ===== *)
(** * The xv6 file system: [kernel/s5.c]

    Blocks come from [Trans], bytes of user or kernel memory from [UserMem]. An
    inode in memory points to an entry of [pool] with the addresses of its blocks.
    One device is modelled, with the superblock [sb]; the table of inodes belongs
    to [kernel/vfs.c]. *)
From S2P Require Import Prelude BlockCache Trans.

Definition NDIRECT : Z := 12.
Definition NINDIRECT : Z := BSIZE / 4.
Definition MAXFILE : Z := NDIRECT + NINDIRECT.
Definition T_DIR : Z := 1.
Definition T_FILE : Z := 2.
Definition T_DEVICE : Z := 3.
Definition DIRSIZ : Z := 14.
Definition DIRENT : Z := 16.
Definition DINODE : Z := 64.
Definition IPB : Z := BSIZE / DINODE.
Definition BPB : Z := BSIZE * 8.

Record s5_superblock := S5Sb { s5_size : Z; nblocks : Z; ninodes : Z; nlog : Z; logstart : Z; inodestart : Z; bmapstart : Z }.
Definition IBLOCK (i : Z) (sb : s5_superblock) : Z := u32 (i / IPB + inodestart sb).
Definition BBLOCK (b : Z) (sb : s5_superblock) : Z := u32 (b / BPB + bmapstart sb).

(** An inode in memory, and the entry of the pool with its addresses. *)
Record inode := Inode { inum : Z; i_ref : Z; i_busy : bool; i_valid : bool; i_private : nat;
  i_type : Z; i_major : Z; i_minor : Z; nlink : Z; i_size : Z }.
Record s5_inode := S5Inode { s5_used : bool; addrs : list Z }.

(** Copying to and from memory: the flag is whether the address is a user's.
    [copyin] yields the bytes it copied, all of them if it returns 0. *)
Class UserMem (U : Type) := {
  either_copyout : bool → Z → bytes → M U Z;
  either_copyin : bool → Z → Z → M U (Z * bytes);
}.

Record s5 (W U : Type) := S5 { tr : W; um : U; itable : list inode; pool : list s5_inode }.
Arguments S5 {W U}. Arguments tr {W U}. Arguments um {W U}. Arguments itable {W U}. Arguments pool {W U}.

Section s5.
Context {W B U : Type} `{HT : Trans W B} `{HU : UserMem U} (sb : s5_superblock).
Abbreviation FS := (M (s5 W U)).

Definition in_tr {A} (m : M W A) : FS A := λ s, outcome_bind (m (tr s)) (λ '(a, w), Ret (a, S5 w (um s) (itable s) (pool s))).
Definition in_um {A} (m : M U A) : FS A := λ s, outcome_bind (m (um s)) (λ '(a, u), Ret (a, S5 (tr s) u (itable s) (pool s))).
Definition get_inode (i : nat) : FS inode := t ← gets itable; oget (t !! i).
Definition upd_inode (i : nat) (f : inode → inode) : FS () := modify (λ s, S5 (tr s) (um s) (alter f i (itable s)) (pool s)).
Definition get_addrs (ip : inode) : FS (list Z) := p ← gets pool; e ← oget (p !! i_private ip); mret (addrs e).
Definition set_addr (ip : inode) (k : nat) (a : Z) : FS () :=
  modify (λ s, S5 (tr s) (um s) (itable s) (alter (λ e, S5Inode (s5_used e) (<[k := a]> (addrs e))) (i_private ip) (pool s))).
Definition set_addrs (ip : inode) (l : list Z) : FS () :=
  modify (λ s, S5 (tr s) (um s) (itable s) (alter (λ e, S5Inode (s5_used e) l) (i_private ip) (pool s))).
Definition set_size (z : Z) (ip : inode) : inode :=
  Inode (inum ip) (i_ref ip) (i_busy ip) (i_valid ip) (i_private ip) (i_type ip) (i_major ip) (i_minor ip) (nlink ip) z.
Definition set_busy (b : bool) (ip : inode) : inode :=
  Inode (inum ip) (i_ref ip) b (i_valid ip) (i_private ip) (i_type ip) (i_major ip) (i_minor ip) (nlink ip) (i_size ip).

(** An integer of 4 bytes of a block. *)
Definition word_of (d : block) (off : Z) : option Z := le_val <$> sub_bytes d off 4.
Definition put_word (d : block) (off v : Z) : option block := blit d off (le_bytes 4 v).

(** ** Free blocks *)

Definition s5_bzero (bno : Z) : M W () :=
  bp ← t_bread bno;
  t_store bp (replicate (Z.to_nat BSIZE) 0) ;;
  t_log bp ;; t_brelse bp.

(** The inner loop, from bit [bi] of a block whose first bit is that of block [b];
    the bit found, if any. *)
Fixpoint find_bit (n : nat) (d : block) (b bi : Z) : M W (option Z) :=
  match n with
  | O => mret None
  | S n =>
      if negb (b + bi <? s5_size sb) then mret None else
      x ← oget (d !! Z.to_nat (bi / 8));
      if Z.land x (Z.shiftl 1 (bi mod 8)) =? 0 then mret (Some bi) else find_bit n d b (bi + 1)
  end.
Fixpoint balloc_loop (fuel : nat) (b : Z) : M W Z :=
  if negb (b <? s5_size sb) then panic "balloc: out of blocks" else
  match fuel with
  | O => out_of_fuel
  | S fuel =>
      bp ← t_bread (BBLOCK b sb);
      d ← t_data bp;
      r ← find_bit (Z.to_nat BPB) d b 0;
      match r with
      | Some bi =>
          x ← oget (d !! Z.to_nat (bi / 8));
          t_store bp (<[Z.to_nat (bi / 8) := Z.lor x (Z.shiftl 1 (bi mod 8))]> d) ;;
          t_log bp ;; t_brelse bp ;;
          s5_bzero (b + bi) ;;
          mret (b + bi)
      | None => t_brelse bp ;; balloc_loop fuel (b + BPB)
      end
  end.
Definition s5_balloc : M W Z := balloc_loop (Z.to_nat (s5_size sb)) 0.

Definition s5_bfree (b : Z) : M W () :=
  bp ← t_bread (BBLOCK b sb);
  let bi := b mod BPB in
  d ← t_data bp;
  x ← oget (d !! Z.to_nat (bi / 8));
  if Z.land x (Z.shiftl 1 (bi mod 8)) =? 0 then panic "freeing free block" else
  t_store bp (<[Z.to_nat (bi / 8) := Z.ldiff x (Z.shiftl 1 (bi mod 8))]> d) ;;
  t_log bp ;; t_brelse bp.

(** ** Inodes on disk *)

Definition dinode_off (ip : inode) : Z := DINODE * (inum ip mod IPB).
Definition dinode_bytes (ip : inode) (l : list Z) : bytes :=
  le_bytes 2 (i_type ip) ++ le_bytes 2 (i_major ip) ++ le_bytes 2 (i_minor ip) ++ le_bytes 2 (nlink ip) ++ le_bytes 4 (i_size ip) ++ mjoin (le_bytes 4 <$> l).

Definition s5_iupdate (i : nat) : FS () :=
  ip ← get_inode i;
  l ← get_addrs ip;
  bp ← in_tr (t_bread (IBLOCK (inum ip) sb));
  d ← in_tr (t_data bp);
  d ← oget (blit d (dinode_off ip) (dinode_bytes ip l));
  in_tr (t_store bp d) ;; in_tr (t_log bp) ;; in_tr (t_brelse bp).

(** The fields of an inode from its bytes. *)
Definition field (d : bytes) (off n : Z) : FS Z := l ← oget (sub_bytes d off n); mret (le_val l).
Definition from_dinode (d : bytes) (off : Z) (ip : inode) : FS inode :=
  ty ← field d off 2; ma ← field d (off + 2) 2; mi ← field d (off + 4) 2; nl ← field d (off + 6) 2; sz ← field d (off + 8) 4;
  mret (Inode (inum ip) (i_ref ip) (i_busy ip) true (i_private ip) (swrap 16 ty) (swrap 16 ma) (swrap 16 mi) (swrap 16 nl) sz).
Fixpoint words (n : nat) (d : bytes) (off : Z) : FS (list Z) :=
  match n with O => mret [] | S n => a ← field d off 4; l ← words n d (off + 4); mret (a :: l) end.

(** A process that finds the inode busy sleeps. *)
Definition s5_ilock (i : nat) : FS () :=
  ip ← get_inode i;
  if i_ref ip <? 1 then panic "ilock" else
  if i_busy ip then would_block else
  upd_inode i (set_busy true) ;;
  if i_valid ip then mret () else
  if s32 (IBLOCK (inum ip) sb) <=? 0 then panic "s5_ilock: IBLOCK <= 0" else
  bp ← in_tr (t_bread (IBLOCK (inum ip) sb));
  d ← in_tr (t_data bp);
  ip ← get_inode i;
  ip' ← from_dinode d (dinode_off ip) ip;
  l ← words 13 d (dinode_off ip + 12);
  upd_inode i (λ _, ip') ;; set_addrs ip l ;;
  in_tr (t_brelse bp) ;;
  if i_type ip' =? 0 then panic "ilock: no type" else mret ().

(** ** The blocks of a file *)

(** Entry [bn] of the indirect block [addr]. *)
Definition bmap_entry (addr bn : Z) : M W Z :=
  bp ← t_bread addr;
  d ← t_data bp;
  addr ← oget (word_of d (4 * bn));
  addr ← (if addr =? 0 then
      a ← s5_balloc;
      d ← t_data bp;
      d ← oget (put_word d (4 * bn) a);
      t_store bp d ;; t_log bp ;; mret a
    else mret addr);
  t_brelse bp ;; mret addr.
Definition s5_bmap (i : nat) (bn : Z) : FS Z :=
  ip ← get_inode i;
  if bn <? NDIRECT then
    l ← get_addrs ip;
    addr ← oget (l !! Z.to_nat bn);
    if negb (addr =? 0) then mret addr else
    addr ← in_tr s5_balloc;
    if addr =? 0 then mret 0 else
    set_addr ip (Z.to_nat bn) addr ;; mret addr
  else
  let bn := bn - NDIRECT in
  if bn <? NINDIRECT then
    l ← get_addrs ip;
    addr ← oget (l !! Z.to_nat NDIRECT);
    addr ← (if addr =? 0 then a ← in_tr s5_balloc; set_addr ip (Z.to_nat NDIRECT) a ;; mret a else mret addr);
    in_tr (bmap_entry addr bn)
  else panic "bmap: out of range".

(** The indirect block [a], if there is one, with the blocks it names. *)
Definition itrunc_indirect (ip : inode) (a : Z) : FS () :=
  if a =? 0 then mret () else
    bp ← in_tr (t_bread a);
    mapM_ (λ j : nat,
      d ← in_tr (t_data bp);
      x ← oget (word_of d (4 * Z.of_nat j));
      if x =? 0 then mret () else in_tr (s5_bfree x)) (seq 0 (Z.to_nat NINDIRECT)) ;;
    in_tr (t_brelse bp) ;;
    in_tr (s5_bfree a) ;;
    set_addr ip (Z.to_nat NDIRECT) 0.
Definition s5_itrunc (i : nat) : FS () :=
  ip ← get_inode i;
  mapM_ (λ k : nat,
    l ← get_addrs ip;
    a ← oget (l !! k);
    if a =? 0 then mret () else in_tr (s5_bfree a) ;; set_addr ip k 0) (seq 0 (Z.to_nat NDIRECT)) ;;
  l ← get_addrs ip;
  a ← oget (l !! Z.to_nat NDIRECT);
  itrunc_indirect ip a ;;
  upd_inode i (set_size 0) ;;
  s5_iupdate i.

(** ** Reading and writing *)

(** The loops end with the bytes done; a copy that fails ends the one of [readi]
    with the [uint] for -1. *)
Fixpoint readi_loop (fuel : nat) (i : nat) (user : bool) (dst off n tot : Z) : FS Z :=
  if negb (tot <? n) then mret tot else
  match fuel with
  | O => out_of_fuel
  | S fuel =>
      addr ← s5_bmap i (off / BSIZE);
      if addr =? 0 then mret tot else
      bp ← in_tr (t_bread addr);
      let m := Z.min (u32 (n - tot)) (u32 (BSIZE - off mod BSIZE)) in
      d ← in_tr (t_data bp);
      d ← oget (sub_bytes d (off mod BSIZE) m);
      r ← in_um (either_copyout user dst d);
      in_tr (t_brelse bp) ;;
      if r =? -1 then mret (u32 (-1)) else
      readi_loop fuel i user (u64 (dst + m)) (u32 (off + m)) n (u32 (tot + m))
  end.
Definition s5_readi (i : nat) (user : bool) (dst off n : Z) : FS Z :=
  ip ← get_inode i;
  if (i_size ip <? off) || (u32 (off + n) <? off) then mret 0 else
  let n := if i_size ip <? u32 (off + n) then u32 (i_size ip - off) else n in
  r ← readi_loop (Z.to_nat n) i user dst off n 0;
  mret (s32 r).

(** The result is the bytes done and the offset behind them. *)
Fixpoint writei_loop (fuel : nat) (i : nat) (user : bool) (src off n tot : Z) : FS (Z * Z) :=
  if negb (tot <? n) then mret (tot, off) else
  match fuel with
  | O => out_of_fuel
  | S fuel =>
      addr ← s5_bmap i (off / BSIZE);
      if addr =? 0 then mret (tot, off) else
      bp ← in_tr (t_bread addr);
      let m := Z.min (u32 (n - tot)) (u32 (BSIZE - off mod BSIZE)) in
      '(r, x) ← in_um (either_copyin user src m);
      d ← in_tr (t_data bp);
      d ← oget (blit d (off mod BSIZE) x);
      in_tr (t_store bp d) ;;
      if r =? -1 then in_tr (t_brelse bp) ;; mret (tot, off) else
      in_tr (t_log bp) ;; in_tr (t_brelse bp) ;;
      writei_loop fuel i user (u64 (src + m)) (u32 (off + m)) n (u32 (tot + m))
  end.
Definition s5_writei (i : nat) (user : bool) (src off n : Z) : FS Z :=
  ip ← get_inode i;
  if (i_size ip <? off) || (u32 (off + n) <? off) then mret (-1) else
  if MAXFILE * BSIZE <? u32 (off + n) then mret (-1) else
  '(tot, off) ← writei_loop (Z.to_nat n) i user src off n 0;
  ip ← get_inode i;
  (if i_size ip <? off then upd_inode i (set_size off) else mret ()) ;;
  s5_iupdate i ;;
  mret (s32 tot).
End s5.
