(* ===== verification/S5Bits.v ===== *)
(** * The free map of [kernel/s5.c]

    A bit of the free map says that a block is in use: [balloc] takes the first
    block whose bit is clear, sets the bit and zeroes the block ([balloc_spec]),
    [bfree] clears it ([bfree_spec]). [TR] is the state of a transaction as the
    file system sees it: what the blocks hold, which buffers it has, what it has
    logged. *)
From S2P Require Import Prelude BlockCache Trans S5.

Section transaction.
Context {W B : Type} `{HT : Trans W B} `{HS : !TransSpec W B}.
Implicit Types (w : W) (v : Z → block) (h : gmap Z B) (L : gset Z).

Definition TR w v h L : Prop := ∃ t, t_rep w t ∧ t_view t = v ∧ t_held t = h ∧ t_logged t = L ∧ t_dirty t ⊆ L.
Definition roomy h L (k : nat) : Prop := (size L + size h + k <= t_room)%nat.
Definition may_log L (X : gset Z) : Prop := (size (X ∪ L) <= t_quota)%nat.

Lemma TR_length w v h L n : TR w v h L → 0 <= n < t_size → Z.of_nat (length (v n)) = BSIZE.
Proof using. intros (t & Ht & <- & _) Hn. by eapply t_rep_block. Qed.
Lemma TR_bread w v h L n : TR w v h L → 0 <= n < t_size → h !! n = None → roomy h L 1 →
  ∃ b w', t_bread n w = Ret (b, w') ∧ TR w' v (<[n := b]> h) L.
Proof using.
  intros (t & Ht & <- & <- & <- & Hd) Hn Hh Hr. destruct (t_bread_ok w t n Ht Hn Hh) as (b & w' & E & Ht'); [unfold roomy in Hr; lia|].
  exists b, w'. split; [done|]. by exists (ts_hold n b t).
Qed.
Lemma TR_data w v h L n b : TR w v h L → h !! n = Some b → t_data b w = Ret (v n, w).
Proof using. intros (t & Ht & <- & <- & <- & Hd) Hn. by eapply t_data_ok. Qed.
Lemma TR_put w v h L n b d : TR w v h L → h !! n = Some b → Z.of_nat (length d) = BSIZE → t_low <= n → may_log L {[n]} →
  ∃ w1 w2, t_store b d w = Ret ((), w1) ∧ t_log b w1 = Ret ((), w2) ∧ TR w2 (<[n := d]> v) h ({[n]} ∪ L).
Proof using.
  intros (t & Ht & <- & <- & <- & Hd) Hn Hl Hlow Hq. destruct (t_store_ok w t n b d Ht Hn Hl) as (w1 & E1 & Ht1).
  destruct (t_log_ok w1 _ n b Ht1 Hn Hlow) as (w2 & E2 & Ht2).
  { cbn. destruct (decide (n ∈ t_logged t)) as [|Hnl]; [by left|right]. unfold may_log in Hq. rewrite size_union in Hq by set_solver. rewrite size_singleton in Hq. lia. }
  exists w1, w2. split; [done|]. split; [done|]. eexists. split; [exact Ht2|]. cbn. split_and!; try done. set_solver.
Qed.
Lemma TR_brelse w v h L n b : TR w v (<[n := b]> h) L → h !! n = None → ∃ w', t_brelse b w = Ret ((), w') ∧ TR w' v h L.
Proof using.
  intros (t & Ht & <- & Hh & <- & Hd) Hn. destruct (t_brelse_ok w t n b Ht) as (w' & E & Ht'); [rewrite Hh; apply lookup_insert_eq|set_solver|].
  exists w'. split; [done|]. exists (ts_release n t). cbn. split_and!; try done. rewrite Hh. by apply delete_insert_id.
Qed.
Lemma may_log_in L X Y : Y ⊆ X → may_log L X → may_log L Y.
Proof using. intros Hs Hm. unfold may_log in *. etrans; [|exact Hm]. apply subseteq_size. set_solver. Qed.
Lemma may_log_more L X Y : may_log L (X ∪ Y) → may_log (X ∪ L) Y.
Proof using. unfold may_log. intros Hm. etrans; [|exact Hm]. apply subseteq_size. set_solver. Qed.
Lemma roomy_le h L k k' : (k' <= k)%nat → roomy h L k → roomy h L k'.
Proof using. unfold roomy. lia. Qed.
Lemma roomy_hold h L k n b : roomy h L (S k) → roomy (<[n := b]> h) L k.
Proof using. unfold roomy. intros Hr. destruct (decide (is_Some (h !! n))); [rewrite map_size_insert_Some by done; lia|]. rewrite map_size_insert_None by (by apply eq_None_not_Some). lia. Qed.
Lemma roomy_log h L k n : roomy h L (S k) → roomy h ({[n]} ∪ L) k.
Proof using. unfold roomy. intros Hr. assert (size ({[n]} ∪ L) <= S (size L))%nat; [|lia]. rewrite size_union_alt, size_singleton. assert (size (L ∖ {[n]}) <= size L)%nat by (apply subseteq_size; set_solver). lia. Qed.
End transaction.

(** ** The superblock and the free map *)

Record sb_ok (low size : Z) (sb : s5_superblock) : Prop := {
  so_size : 0 < s5_size sb <= size;
  so_dev : size < 2 ^ 31;
  so_start : 0 < low <= inodestart sb;
  so_inodes : 0 < ninodes sb;
  so_bmap : inodestart sb + (ninodes sb - 1) / IPB < bmapstart sb;
  so_data : bmapstart sb + (s5_size sb - 1) / BPB + 1 <= s5_size sb;
}.

Section bits.
Context {W B : Type} `{HT : Trans W B} `{HS : !TransSpec W B} (sb : s5_superblock) (Hsb : sb_ok t_low t_size sb).
Implicit Types (w : W) (v : Z → block) (h : gmap Z B) (L : gset Z) (d : block).

(** The first block that files may use. *)
Definition data_start : Z := bmapstart sb + (s5_size sb - 1) / BPB + 1.
Definition in_dev (b : Z) : Prop := 0 <= b < s5_size sb.
Definition in_data (b : Z) : Prop := data_start <= b < s5_size sb.
Definition bit v (b : Z) : bool := Z.testbit (nth (Z.to_nat (b mod BPB / 8)) (v (BBLOCK b sb)) 0) (b mod 8).
Definition zero_block : block := replicate (Z.to_nat BSIZE) 0.

Lemma data_start_pos : 0 < bmapstart sb < data_start ∧ t_low <= inodestart sb < bmapstart sb.
Proof using Hsb.
  destruct Hsb. unfold data_start. assert (0 <= (ninodes sb - 1) / IPB) by (apply Z.div_pos; [lia|done]). assert (0 <= (s5_size sb - 1) / BPB) by (apply Z.div_pos; [lia|done]). lia.
Qed.
Lemma BBLOCK_val b : in_dev b → BBLOCK b sb = b / BPB + bmapstart sb ∧ bmapstart sb <= BBLOCK b sb < data_start ∧ BBLOCK b sb < t_size.
Proof using Hsb.
  intros Hb. unfold in_dev in *. destruct Hsb. pose proof data_start_pos. assert (b / BPB <= (s5_size sb - 1) / BPB) by (apply Z.div_le_mono; [done|lia]). assert (0 <= b / BPB) by (apply Z.div_pos; [lia|done]).
  unfold data_start in *. unfold BBLOCK. rewrite wrap_small by (unfold in_range; lia). lia.
Qed.
Lemma BBLOCK_not_data b x : in_dev b → in_data x → BBLOCK b sb ≠ x.
Proof using Hsb. intros Hb [Hx _]. pose proof (BBLOCK_val b Hb). lia. Qed.
Lemma dev_range b : in_dev b → 0 <= b < t_size.
Proof using Hsb. unfold in_dev. destruct Hsb. lia. Qed.

Lemma land_bit x k : 0 <= k → (Z.land x (Z.shiftl 1 k) =? 0) = negb (Z.testbit x k).
Proof using.
  intros Hk. rewrite Z.shiftl_1_l. destruct (Z.testbit x k) eqn:E; cbn.
  - apply Z.eqb_neq. intros Hz. assert (Z.testbit (Z.land x (2 ^ k)) k = true) as Ht; [|rewrite Hz, Z.bits_0 in Ht; done].
    by rewrite Z.land_spec, E, Z.pow2_bits_true.
  - apply Z.eqb_eq. apply Z.bits_inj'. intros j Hj. rewrite Z.land_spec, Z.bits_0, Z.pow2_bits_eqb by done. destruct (Z.eqb_spec k j) as [<-|]; [by rewrite E|by rewrite andb_false_r].
Qed.

Lemma bit_byte v b : in_dev b → Z.of_nat (length (v (BBLOCK b sb))) = BSIZE → ∃ x, v (BBLOCK b sb) !! Z.to_nat (b mod BPB / 8) = Some x ∧ bit v b = Z.testbit x (b mod 8).
Proof using.
  intros Hb Hl. destruct (lookup_lt_is_Some_2 (v (BBLOCK b sb)) (Z.to_nat (b mod BPB / 8))) as [x Hx].
  { unfold BPB, BSIZE in *. change (1024 * 8) with 8192. assert (0 <= b mod 8192 / 8 < 1024) by dlia. lia. }
  exists x. split; [done|]. unfold bit. by rewrite (nth_lookup_Some _ _ _ _ Hx).
Qed.

(** Changing the byte with the bit of [b]. *)
Lemma bit_update v b y x' : in_dev b → in_dev y → Z.of_nat (length (v (BBLOCK b sb))) = BSIZE →
  bit (<[BBLOCK b sb := <[Z.to_nat (b mod BPB / 8) := x']> (v (BBLOCK b sb))]> v) y = if decide (y / 8 = b / 8) then Z.testbit x' (y mod 8) else bit v y.
Proof using Hsb.
  intros Hb Hy Hl. destruct (BBLOCK_val b Hb) as [Eb _], (BBLOCK_val y Hy) as [Ey _]. unfold in_dev in *. unfold bit. rewrite fn_insert_at.
  assert (0 <= b mod BPB / 8 < 1024 ∧ 0 <= y mod BPB / 8 < 1024) as [Rb Ry] by (unfold BPB, BSIZE; change (1024 * 8) with 8192; split; dlia).
  assert (y / 8 = b / 8 ↔ BBLOCK y sb = BBLOCK b sb ∧ y mod BPB / 8 = b mod BPB / 8) as Hiff.
  { rewrite Eb, Ey. unfold BPB, BSIZE. change (1024 * 8) with 8192. split; [intros; split; dlia|intros [? ?]; dlia]. }
  destruct (decide (BBLOCK y sb = BBLOCK b sb)) as [Hc|Hc].
  - destruct (decide (y mod BPB / 8 = b mod BPB / 8)) as [Hj|Hj].
    + rewrite decide_True by tauto. rewrite Hj. rewrite (nth_lookup_Some _ _ _ x'); [done|]. apply list_lookup_insert_eq. unfold BSIZE in Hl. lia.
    + rewrite decide_False by tauto. rewrite Hc. f_equal. rewrite !nth_lookup. rewrite list_lookup_insert_ne by lia. done.
  - rewrite decide_False by tauto. done.
Qed.

(** ** Searching *)

Definition dbit d (j : Z) : bool := Z.testbit (nth (Z.to_nat (j / 8)) d 0) (j mod 8).
Lemma dbit_bit v b j : b mod BPB = 0 → in_dev (b + j) → 0 <= j < BPB → 0 <= b → BBLOCK (b + j) sb = BBLOCK b sb ∧ bit v (b + j) = dbit (v (BBLOCK b sb)) j.
Proof using.
  intros Hb Hj Hr Hb0. assert ((b + j) / BPB = b / BPB ∧ (b + j) mod BPB = j) as [E1 E2] by (unfold BPB, BSIZE in *; change (1024 * 8) with 8192 in *; split; dlia).
  assert (BBLOCK (b + j) sb = BBLOCK b sb) as E by (unfold BBLOCK; by rewrite E1). split; [done|]. unfold bit, dbit. rewrite E, E2. f_equal.
  unfold BPB, BSIZE in *; change (1024 * 8) with 8192 in *; dlia.
Qed.

Lemma find_bit_spec d b w : Z.of_nat (length d) = BSIZE → ∀ n bi, 0 <= bi → bi + Z.of_nat n <= BPB →
  (∃ j, find_bit sb n d b bi w = Ret (Some j, w) ∧ bi <= j < BPB ∧ b + j < s5_size sb ∧ dbit d j = false ∧ ∀ i, bi <= i < j → dbit d i = true) ∨
  find_bit sb n d b bi w = Ret (None, w) ∧ ∀ j, bi <= j < bi + Z.of_nat n → b + j < s5_size sb → dbit d j = true.
Proof using.
  intros Hl. induction n as [|n IH]; intros bi H0 Hn; cbn [find_bit]; [right; split; [done|lia]|].
  destruct (Z.ltb_spec (b + bi) (s5_size sb)) as [Hlt|Hge]; cbn [negb]; [|right; split; [done|lia]].
  destruct (lookup_lt_is_Some_2 d (Z.to_nat (bi / 8))) as [x Hx].
  { unfold BPB, BSIZE in *. change (1024 * 8) with 8192 in *. assert (0 <= bi / 8 < 1024) by dlia. lia. }
  rewrite Hx. cbn [oget]. rewrite (bind_Ret (mret x) _ w x w) by done. rewrite land_bit by (apply Z.mod_pos_bound; lia).
  assert (dbit d bi = Z.testbit x (bi mod 8)) as Hd by (unfold dbit; by rewrite (nth_lookup_Some _ _ _ _ Hx)). rewrite <- Hd.
  destruct (dbit d bi) eqn:Eb; cbn [negb].
  - destruct (IH (bi + 1)) as [(j & E & Hj & Hs & Hc & Hf)|[E Hf]]; [lia|lia| |].
    + left. exists j. split; [done|]. split; [lia|]. split; [done|]. split; [done|]. intros i Hi. destruct (decide (i = bi)) as [->|]; [done|]. apply Hf. lia.
    + right. split; [done|]. intros j Hj Hs. destruct (decide (j = bi)) as [->|]; [done|]. apply Hf; lia.
  - left. exists bi. split; [done|]. unfold BPB in *. split; [lia|]. split; [done|]. split; [done|]. lia.
Qed.

(** ** Allocating and freeing *)

Definition blk_bytes v : Prop := ∀ n, 0 <= n < t_size → Forall is_byte (v n).
(** The blocks before the data are marked. *)
Definition meta_used v : Prop := ∀ b, 0 <= b < data_start → bit v b = true.
(** The free map is not in use, nor is any free block. *)
Definition unheld v h : Prop := ∀ b, in_dev b → h !! BBLOCK b sb = None ∧ (bit v b = false → h !! b = None).

Record taken v (b : Z) v' : Prop := {
  ta_bit : ∀ y, in_dev y → bit v' y = bool_decide (y = b) || bit v y;
  ta_zero : v' b = zero_block;
  ta_same : ∀ n, n ≠ b → n ≠ BBLOCK b sb → v' n = v n;
  ta_bytes : blk_bytes v → blk_bytes v';
}.
Record given v (b : Z) v' : Prop := {
  gi_bit : ∀ y, in_dev y → bit v' y = negb (bool_decide (y = b)) && bit v y;
  gi_same : ∀ n, n ≠ BBLOCK b sb → v' n = v n;
  gi_bytes : blk_bytes v → blk_bytes v';
}.

Lemma zero_length : Z.of_nat (length zero_block) = BSIZE.
Proof using. unfold zero_block. rewrite length_replicate. done. Qed.
Lemma byte_update d j x : Forall is_byte d → is_byte x → Forall is_byte (<[j := x]> d).
Proof using. intros Hd Hx. by apply Forall_insert. Qed.
Lemma same_byte y b : y / 8 = b / 8 → (y mod 8 = b mod 8 ↔ y = b).
Proof using. intros. split; [dlia|by intros ->]. Qed.
Lemma is_byte_testbit x : is_byte x ↔ 0 <= x ∧ ∀ i, 8 <= i → Z.testbit x i = false.
Proof using.
  split.
  - intros Hx. split; [unfold in_range in Hx; lia|]. intros i Hi. by apply byte_testbit_high.
  - intros [H0 Hh]. unfold in_range. split; [done|]. destruct (decide (x = 0)) as [->|]; [done|]. change (2 ^ 8) with (2 ^ Z.of_nat 8). apply Z.log2_lt_pow2; [lia|].
    destruct (Z_lt_le_dec (Z.log2 x) 8) as [|Hge]; [done|]. specialize (Hh (Z.log2 x) Hge). by rewrite Z.bit_log2 in Hh by lia.
Qed.

Lemma bzero_run w v h L b : TR w v h L → 0 <= b < t_size → t_low <= b → h !! b = None → roomy h L 1 → may_log L {[b]} →
  ∃ w', s5_bzero b w = Ret ((), w') ∧ TR w' (<[b := zero_block]> v) h ({[b]} ∪ L).
Proof using.
  intros Ht Hb Hlow Hh Hr Hm. destruct (TR_bread w v h L b Ht Hb Hh Hr) as (bp & w1 & E1 & Ht1). unfold s5_bzero. rewrite (bind_Ret _ _ _ _ _ E1).
  destruct (TR_put w1 v _ L b bp zero_block Ht1) as (w2 & w3 & E2 & E3 & Ht3); [apply lookup_insert_eq|apply zero_length|done|done|].
  rewrite (bind_Ret _ _ _ _ _ E2), (bind_Ret _ _ _ _ _ E3). destruct (TR_brelse w3 _ h _ b bp Ht3 Hh) as (w4 & E4 & Ht4). by exists w4.
Qed.

(** One bit changed. *)
Lemma set_bit_run w v h L b bp f : TR w v (<[BBLOCK b sb := bp]> h) L → in_dev b → h !! BBLOCK b sb = None → may_log L {[BBLOCK b sb]} →
  ∃ x w1 w2 w3, v (BBLOCK b sb) !! Z.to_nat (b mod BPB / 8) = Some x ∧ bit v b = Z.testbit x (b mod 8) ∧
    let v' := <[BBLOCK b sb := <[Z.to_nat (b mod BPB / 8) := f x]> (v (BBLOCK b sb))]> v in
    t_store bp (<[Z.to_nat (b mod BPB / 8) := f x]> (v (BBLOCK b sb))) w = Ret ((), w1) ∧ t_log bp w1 = Ret ((), w2) ∧ t_brelse bp w2 = Ret ((), w3) ∧
    TR w3 v' h ({[BBLOCK b sb]} ∪ L) ∧ ∀ y, in_dev y → bit v' y = if decide (y / 8 = b / 8) then Z.testbit (f x) (y mod 8) else bit v y.
Proof using Hsb.
  intros Ht Hb Hh Hm. destruct (BBLOCK_val b Hb) as (_ & Hbb & Hbt). pose proof data_start_pos.
  assert (Z.of_nat (length (v (BBLOCK b sb))) = BSIZE) as Hl by (eapply TR_length; [exact Ht|lia]).
  destruct (bit_byte v b Hb Hl) as (x & Hx & Hbx). exists x.
  destruct (TR_put w v _ L (BBLOCK b sb) bp (<[Z.to_nat (b mod BPB / 8) := f x]> (v (BBLOCK b sb))) Ht) as (w1 & w2 & E1 & E2 & Ht2); [apply lookup_insert_eq|by rewrite length_insert|lia|done|].
  destruct (TR_brelse w2 _ h _ _ bp Ht2 Hh) as (w3 & E3 & Ht3). exists w1, w2, w3. split; [done|]. split; [done|]. cbn zeta. split_and!; try done. intros y Hy. by apply bit_update.
Qed.

Lemma set_byte x k : is_byte x → 0 <= k < 8 → is_byte (Z.lor x (Z.shiftl 1 k)) ∧ is_byte (Z.ldiff x (Z.shiftl 1 k)).
Proof using.
  rewrite !is_byte_testbit, Z.shiftl_1_l. intros [H0 Hh] Hk. split; (split; [|intros i Hi]).
  - apply Z.lor_nonneg. split; [done|]. apply Z.pow_nonneg. lia.
  - rewrite Z.lor_spec, Hh, Z.pow2_bits_eqb by lia. by destruct (Z.eqb_spec k i); [lia|].
  - apply Z.ldiff_nonneg. by left.
  - by rewrite Z.ldiff_spec, Hh.
Qed.
Lemma bytes_insert v n d : blk_bytes v → Forall is_byte d → blk_bytes (<[n := d]> v).
Proof using. intros Hv Hd m Hm. rewrite fn_insert_at. case_decide; [done|by apply Hv]. Qed.
Lemma byte_at v b x : blk_bytes v → in_dev b → v (BBLOCK b sb) !! Z.to_nat (b mod BPB / 8) = Some x → is_byte x.
Proof using Hsb.
  intros Hv Hb Hx. destruct (BBLOCK_val b Hb) as (_ & Hbb & Hbt). pose proof data_start_pos. eapply Forall_lookup_1; [|exact Hx]. apply Hv. lia.
Qed.

Lemma bit_eq_byte v b z y : v (BBLOCK b sb) !! Z.to_nat (b mod BPB / 8) = Some y → z / 8 = b / 8 → bit v z = Z.testbit y (z mod 8).
Proof using.
  intros Hy Hz. assert (BBLOCK z sb = BBLOCK b sb ∧ z mod BPB / 8 = b mod BPB / 8) as [Q1 Q2].
  { unfold BBLOCK, BPB, BSIZE in *. change (1024 * 8) with 8192 in *. split; [f_equal; f_equal|]; dlia. }
  unfold bit. by rewrite Q1, Q2, (nth_lookup_Some _ _ _ _ Hy).
Qed.
(** The bit of [x] set and the block zeroed. *)
Lemma take_run w v h L x bp : TR w v (<[BBLOCK x sb := bp]> h) L → in_data x → unheld v h → bit v x = false → roomy h L 4 → may_log L {[x; BBLOCK x sb]} →
  ∃ y w2 w3 w4 w5 v', v (BBLOCK x sb) !! Z.to_nat (x mod BPB / 8) = Some y ∧
    t_store bp (<[Z.to_nat (x mod BPB / 8) := Z.lor y (Z.shiftl 1 (x mod 8))]> (v (BBLOCK x sb))) w = Ret ((), w2) ∧ t_log bp w2 = Ret ((), w3) ∧
    t_brelse bp w3 = Ret ((), w4) ∧ s5_bzero x w4 = Ret ((), w5) ∧ TR w5 v' h ({[x; BBLOCK x sb]} ∪ L) ∧ taken v x v'.
Proof using Hsb.
  intros Ht Hdx Hh Hbx Hr Hm. assert (in_dev x) as Hx by (pose proof data_start_pos; destruct Hdx; split; lia). destruct (BBLOCK_val x Hx) as (_ & Hbb & Hbt). pose proof data_start_pos as [Hpos _]. destruct (Hh x Hx) as [Hhb Hhx].
  destruct (set_bit_run w v h L x bp (λ y, Z.lor y (Z.shiftl 1 (x mod 8))) Ht Hx Hhb) as (y & w2 & w3 & w4 & Hy & Hby & E2 & E3 & E4 & Ht4 & Hbits); [eapply may_log_in; [|exact Hm]; clear; set_solver|].
  cbn beta in *. set (v1 := <[BBLOCK x sb := _]> v) in *. destruct (dev_range x Hx).
  destruct (bzero_run w4 v1 h _ x Ht4) as (w5 & E5 & Ht5); [lia|pose proof data_start_pos; destruct Hdx; lia|by apply Hhx|by apply roomy_log, (roomy_le _ _ 4); [lia|]|apply may_log_more; eapply may_log_in; [|exact Hm]; clear; set_solver|].
  exists y, w2, w3, w4, w5, (<[x := zero_block]> v1). split_and!; try done.
  { assert ({[x; BBLOCK x sb]} ∪ L = {[x]} ∪ ({[BBLOCK x sb]} ∪ L)) as -> by (clear; set_solver). done. }
  pose proof (Z.mod_pos_bound x 8 ltac:(lia)) as Hm8. constructor.
  - intros z Hz. assert (bit (<[x := zero_block]> v1) z = bit v1 z) as ->.
    { unfold bit. rewrite fn_insert_at, decide_False; [done|]. by apply BBLOCK_not_data. }
    rewrite Hbits by done. case_decide as Hc8; [|rewrite bool_decide_false; [done|]; by intros ->].
    rewrite Z.lor_spec, Z.shiftl_1_l, Z.pow2_bits_eqb by lia. rewrite (bit_eq_byte v x z y) by done.
    rewrite orb_comm. f_equal. pose proof (same_byte z x Hc8). destruct (Z.eqb_spec (x mod 8) (z mod 8)), (bool_decide_reflect (z = x)); try done; exfalso; [by naive_solver lia|]; subst z; done.
  - by rewrite fn_lookup_insert.
  - intros n Hn1 Hn2. rewrite fn_lookup_insert_ne by congruence. unfold v1. by rewrite fn_lookup_insert_ne by congruence.
  - intros Hv. apply bytes_insert; [|unfold zero_block; by apply Forall_replicate]. apply bytes_insert; [done|]. apply byte_update; [apply Hv; lia|].
    apply set_byte; [by eapply byte_at|done].
Qed.

Lemma balloc_loop_run fuel : ∀ b w v h L, TR w v h L → 0 <= b → b mod BPB = 0 → s5_size sb - b <= Z.of_nat fuel * BPB → meta_used v → unheld v h → roomy h L 4 →
  (∀ x, in_data x → may_log L {[x; BBLOCK x sb]}) → (∀ x, 0 <= x < b → in_dev x → bit v x = true) →
  balloc_loop sb fuel b w = Panic "balloc: out of blocks" ∧ (∀ x, in_dev x → bit v x = true) ∨
  ∃ x w' v', balloc_loop sb fuel b w = Ret (x, w') ∧ in_data x ∧ bit v x = false ∧ TR w' v' h ({[x; BBLOCK x sb]} ∪ L) ∧ taken v x v'.
Proof using Hsb.
  induction fuel as [|fuel IH]; intros b w v h L Ht H0 Hmod Hf Hmeta Hh Hr Hm Hset; cbn [balloc_loop];
    (destruct (Z.ltb_spec b (s5_size sb)) as [Hlt|Hge]; cbn [negb]; [|left; split; [done|]; intros x [? ?]; apply Hset; [lia|by split]]).
  { lia. }
  assert (in_dev b) as Hb by (split; lia). destruct (BBLOCK_val b Hb) as (_ & Hbb & Hbt). pose proof data_start_pos as [Hpos _]. destruct (Hh b Hb) as [Hhb _].
  destruct (TR_bread w v h L (BBLOCK b sb) Ht) as (bp & w1 & E1 & Ht1); [lia|done|by eapply roomy_le; [|exact Hr]; lia|]. rewrite (bind_Ret _ _ _ _ _ E1).
  rewrite (bind_Ret _ _ _ _ _ (TR_data w1 v _ L _ bp Ht1 (lookup_insert_eq _ _ _))).
  assert (Z.of_nat (length (v (BBLOCK b sb))) = BSIZE) as Hl by (eapply TR_length; [exact Ht|lia]).
  destruct (find_bit_spec (v (BBLOCK b sb)) b w1 Hl (Z.to_nat BPB) 0) as [(j & E & Hj & Hs & Hc & _)|[E Hall]]; [lia|done| |]; rewrite (bind_Ret _ _ _ _ _ E).
  - set (x := b + j). assert (in_dev x) as Hx by (unfold x; split; lia). destruct (dbit_bit v b j Hmod Hx ltac:(lia) H0) as [EB Eb]. fold x in EB, Eb.
    assert (bit v x = false) as Hbx by congruence. assert (in_data x) as Hdx. { split; [|apply Hx]. destruct (Z_lt_le_dec x data_start) as [Hlt'|]; [|lia]. rewrite Hmeta in Hbx; [done|]. destruct Hx. lia. }
    assert (j = x mod BPB) as Hjx by (unfold x, BPB, BSIZE in *; change (1024 * 8) with 8192 in *; dlia).
    assert (j mod 8 = x mod 8) as Hj8 by (unfold x, BPB, BSIZE in *; change (1024 * 8) with 8192 in *; dlia).
    rewrite <- EB in Ht1. destruct (take_run w1 v h L x bp Ht1 Hdx Hh Hbx Hr (Hm x Hdx)) as (y & w2 & w3 & w4 & w5 & v' & Hy & E2 & E3 & E4 & E5 & Ht5 & Htk).
    rewrite Hj8, Hjx, <- EB, Hy. cbn [oget]. rewrite (bind_Ret (mret y) _ _ y _ eq_refl), (bind_Ret _ _ _ _ _ E2), (bind_Ret _ _ _ _ _ E3), (bind_Ret _ _ _ _ _ E4).
    rewrite (bind_Ret _ _ _ _ _ E5). right. by exists x, w5, v'.
  - destruct (TR_brelse w1 v h L _ bp Ht1 Hhb) as (w2 & E2 & Ht2). rewrite (bind_Ret _ _ _ _ _ E2).
    apply (IH (b + BPB) w2 v h L Ht2); try done; [unfold BPB, BSIZE; lia|by rewrite Z.add_mod, Hmod, Z.mod_same by done|lia|].
    intros x Hx Hxd. destruct (Z_lt_le_dec x b) as [|Hxb]; [by apply Hset; [lia|]|].
    assert (b + (x - b) = x) as Hxe by lia. rewrite <- Hxe in Hxd. rewrite <- Hxe.
    destruct (dbit_bit v b (x - b)) as [_ ->]; [done|done|lia|done|]. apply Hall; [lia|destruct Hxd; lia].
Qed.

Lemma balloc_spec w v h L : TR w v h L → meta_used v → unheld v h → roomy h L 4 → (∀ x, in_data x → may_log L {[x; BBLOCK x sb]}) →
  s5_balloc sb w = Panic "balloc: out of blocks" ∧ (∀ x, in_dev x → bit v x = true) ∨
  ∃ x w' v', s5_balloc sb w = Ret (x, w') ∧ in_data x ∧ bit v x = false ∧ TR w' v' h ({[x; BBLOCK x sb]} ∪ L) ∧ taken v x v'.
Proof using Hsb. intros. apply balloc_loop_run; try done; [|lia]. destruct Hsb. unfold BPB, BSIZE. lia. Qed.

Lemma bfree_spec w v h L b : TR w v h L → in_dev b → h !! BBLOCK b sb = None → roomy h L 1 → may_log L {[BBLOCK b sb]} →
  if bit v b then ∃ w' v', s5_bfree sb b w = Ret ((), w') ∧ TR w' v' h ({[BBLOCK b sb]} ∪ L) ∧ given v b v'
  else s5_bfree sb b w = Panic "freeing free block".
Proof using Hsb.
  intros Ht Hb Hh Hr Hm. destruct (BBLOCK_val b Hb) as (_ & Hbb & Hbt). pose proof data_start_pos as [Hpos _].
  destruct (TR_bread w v h L (BBLOCK b sb) Ht) as (bp & w1 & E1 & Ht1); [lia|done|done|].
  destruct (set_bit_run w1 v h L b bp (λ y, Z.ldiff y (Z.shiftl 1 (b mod 8))) Ht1 Hb Hh Hm) as (y & w2 & w3 & w4 & Hy & Hby & E2 & E3 & E4 & Ht4 & Hbits).
  unfold s5_bfree. rewrite (bind_Ret _ _ _ _ _ E1), (bind_Ret _ _ _ _ _ (TR_data w1 v _ L _ bp Ht1 (lookup_insert_eq _ _ _))), Hy. cbn [oget].
  assert (b mod BPB mod 8 = b mod 8) as -> by (unfold BPB, BSIZE; change (1024 * 8) with 8192; dlia).
  rewrite (bind_Ret (mret y) _ _ y _ eq_refl), land_bit, Hby by (apply Z.mod_pos_bound; lia). destruct (Z.testbit y (b mod 8)) eqn:Ebit; cbn [negb]; [|done].
  rewrite (bind_Ret _ _ _ _ _ E2), (bind_Ret _ _ _ _ _ E3). eexists w4, _. split; [exact E4|]. split; [exact Ht4|].
  pose proof (Z.mod_pos_bound b 8 ltac:(lia)) as Hm8. constructor.
  - intros z Hz. rewrite Hbits by done. case_decide as Hc8; [|rewrite bool_decide_false; [done|]; by intros ->].
    rewrite Z.ldiff_spec, Z.shiftl_1_l, Z.pow2_bits_eqb by lia. rewrite (bit_eq_byte v b z y) by done.
    rewrite andb_comm. f_equal. pose proof (same_byte z b Hc8). destruct (Z.eqb_spec (b mod 8) (z mod 8)), (bool_decide_reflect (z = b)); try done; exfalso; [by naive_solver lia|]; subst z; done.
  - intros n Hn. by rewrite fn_lookup_insert_ne by congruence.
  - intros Hv. apply bytes_insert; [done|]. apply byte_update; [apply Hv; lia|]. apply set_byte; [by eapply byte_at|done].
Qed.
End bits.
