(* ===== verification/S5Map.v ===== *)
(** * The blocks of a file: [bmap] of [kernel/s5.c]

    [blk_of] is the block that holds block [bn] of a file, 0 if there is none;
    [wf] says that a file has its blocks for itself and that they are marked.
    [bmap] returns the block of a number and gives the file a free, zeroed block
    when there is none, whatever else the disk holds stays ([ext]). *)
From S2P Require Import Prelude BlockCache Trans S5 S5Bits.

(** ** Runs on the whole state *)

Section state.
Context {W B U : Type} `{HT : Trans W B}.
Implicit Types s : s5 W U.
Definition with_tr s (w : W) : s5 W U := S5 w (um s) (itable s) (pool s).
Definition with_addrs s (ip : inode) (l : list Z) : s5 W U :=
  S5 (tr s) (um s) (itable s) (alter (λ e, S5Inode (s5_used e) l) (i_private ip) (pool s)).
(** Inode [i] of the table is [ip], with the addresses [l]. *)
Definition has s (i : nat) (ip : inode) (l : list Z) : Prop := itable s !! i = Some ip ∧ ∃ u, pool s !! i_private ip = Some (S5Inode u l).

Lemma in_tr_Ret {A} (m : M W A) s a w : m (tr s) = Ret (a, w) → in_tr m s = Ret (a, with_tr s w).
Proof using. intros E. unfold in_tr. by rewrite E. Qed.
Lemma get_inode_run s i ip l : has s i ip l → get_inode i s = Ret (ip, s).
Proof using. intros [Hi _]. unfold get_inode. rewrite (bind_Ret _ _ _ (itable s) s) by done. by rewrite Hi. Qed.
Lemma get_addrs_run s i ip l : has s i ip l → get_addrs ip s = Ret (l, s).
Proof using. intros (_ & u & Hp). unfold get_addrs. rewrite (bind_Ret _ _ _ (pool s) s) by done. by rewrite Hp. Qed.
Lemma set_addr_run s i ip l k a : has s i ip l → set_addr ip k a s = Ret ((), with_addrs s ip (<[k := a]> l)).
Proof using. intros (_ & u & Hp). unfold set_addr, modify, with_addrs. do 3 f_equal. by rewrite !(alter_insert _ _ _ _ Hp). Qed.
Lemma with_addrs_has s i ip l l' : has s i ip l → has (with_addrs s ip l') i ip l'.
Proof using. intros (Hi & u & Hp). split; [done|]. exists u. cbn. by rewrite list_lookup_alter_eq, Hp. Qed.
Lemma with_addrs_same s i ip l : has s i ip l → with_addrs s ip l = s.
Proof using. intros (_ & u & Hp). destruct s as [w um t p]. unfold with_addrs. cbn in *. f_equal. rewrite (alter_insert _ _ _ _ Hp). by apply list_insert_id. Qed.
Lemma with_addrs_twice s i ip l l1 l2 : has s i ip l → with_addrs (with_addrs s ip l1) ip l2 = with_addrs s ip l2.
Proof using.
  intros (_ & u & Hp). unfold with_addrs. cbn. f_equal. rewrite !(alter_insert _ _ _ _ Hp). rewrite (alter_insert _ _ (S5Inode u l1)); [|apply list_lookup_insert_eq; by eapply lookup_lt_Some].
  apply list_insert_insert_eq.
Qed.
Lemma with_tr_has s i ip l w : has s i ip l → has (with_tr s w) i ip l.
Proof using. done. Qed.
Lemma with_tr_addrs s w ip l : with_tr (with_addrs s ip l) w = with_addrs (with_tr s w) ip l.
Proof using. done. Qed.
End state.

(** ** Entries of an indirect block *)

Definition entry (d : block) (j : Z) : Z := default 0 (word_of d (4 * j)).

Lemma entry_word d j : Z.of_nat (length d) = BSIZE → 0 <= j < NINDIRECT → word_of d (4 * j) = Some (entry d j).
Proof.
  intros Hd Hj. unfold entry, word_of. change NINDIRECT with 256 in Hj. unfold BSIZE in Hd. destruct (sub_bytes_is_Some d (4 * j) 4) as [x ->]; [lia..|done].
Qed.
Lemma le_val_zero n : le_val (replicate n 0) = 0.
Proof. induction n as [|n IH]; cbn [replicate le_val]; [done|]. by rewrite IH. Qed.
Lemma entry_zero j : entry zero_block j = 0.
Proof.
  unfold entry, word_of, sub_bytes, zero_block. destruct (_ && _); [|done]. cbn [fmap option_fmap option_map default from_option].
  rewrite drop_replicate, take_replicate. apply le_val_zero.
Qed.
Lemma entry_put d j a : Z.of_nat (length d) = BSIZE → 0 <= j < NINDIRECT → in_range 32 a →
  ∃ d', put_word d (4 * j) a = Some d' ∧ length d' = length d ∧ (Forall is_byte d → Forall is_byte d') ∧ ∀ j', 0 <= j' < NINDIRECT → entry d' j' = if decide (j' = j) then a else entry d j'.
Proof.
  intros Hd Hj Ha. unfold put_word. change NINDIRECT with 256 in *. unfold BSIZE in Hd. destruct (blit_is_Some d (4 * j) (le_bytes 4 a)) as [d' E]; [lia|rewrite length_le_bytes; lia|].
  exists d'. split; [done|]. split; [by eapply length_blit|]. split; [intros; eapply blit_bytes; [done|apply le_bytes_byte|done]|].
  intros j' Hj'. unfold entry, word_of. case_decide as Hc.
  - subst j'. pose proof (sub_bytes_blit _ _ _ _ E) as Hs. rewrite length_le_bytes in Hs. change (Z.of_nat 4) with 4 in Hs. rewrite Hs. cbn. 
    pose proof (le_val_bytes 4 a) as Hv. cbn [le_bytes le_val] in Hv. rewrite Hv. apply Z.mod_small. exact Ha.
  - rewrite (sub_bytes_blit_other _ _ _ _ _ _ E); [done|]. rewrite length_le_bytes. lia.
Qed.

(** ** Where a file has its blocks *)

Section map.
Context {W B U : Type} `{HT : Trans W B} `{HS : !TransSpec W B} (sb : s5_superblock) (Hsb : sb_ok t_low t_size sb) (Hone : s5_size sb <= BPB).
Implicit Types (w : W) (s : s5 W U) (v : Z → block) (h : gmap Z B) (L X : gset Z) (l : list Z).
Local Abbreviation bit := (bit sb).
Local Abbreviation in_data := (in_data sb).

Definition ind l : Z := nth (Z.to_nat NDIRECT) l 0.
Definition blk_of v l (bn : Z) : Z :=
  if bn <? NDIRECT then nth (Z.to_nat bn) l 0 else if ind l =? 0 then 0 else entry (v (ind l)) (bn - NDIRECT).
Definition in_file (bn : Z) : Prop := 0 <= bn < MAXFILE.
(** Block [b] belongs to the file. *)
Definition uses v l (b : Z) : Prop := b ≠ 0 ∧ (b = ind l ∨ ∃ bn, in_file bn ∧ blk_of v l bn = b).

Record wf v l : Prop := {
  wf_len : length l = 13%nat;
  wf_used : ∀ b, uses v l b → in_data b ∧ bit v b = true;
  wf_ind : ∀ bn, in_file bn → blk_of v l bn ≠ 0 → blk_of v l bn ≠ ind l;
  wf_inj : ∀ bn bn', in_file bn → in_file bn' → blk_of v l bn = blk_of v l bn' → blk_of v l bn ≠ 0 → bn = bn';
}.

(** The file may have grown; nothing else that is in use has changed. *)
Record ext v l v' l' : Prop := {
  ex_wf : wf v' l';
  ex_bit : ∀ y, in_dev sb y → bit v y = true → bit v' y = true;
  ex_same : ∀ n, in_data n → bit v n = true → n ≠ ind l → v' n = v n;
  ex_meta : ∀ n, ¬ in_data n → n ≠ bmapstart sb → v' n = v n;
  ex_keep : ∀ bn, in_file bn → blk_of v l bn ≠ 0 → blk_of v' l' bn = blk_of v l bn;
  ex_ind : ind l ≠ 0 → ind l' = ind l;
  ex_new : ∀ b, uses v' l' b → uses v l b ∨ bit v b = false;
  ex_bytes : blk_bytes v → blk_bytes v';
}.

Lemma one_map b : in_dev sb b → BBLOCK b sb = bmapstart sb.
Proof using Hsb Hone. intros Hb. destruct (BBLOCK_val sb Hsb b Hb) as [-> _]. unfold in_dev in Hb. rewrite Z.div_small by lia. lia. Qed.
Lemma data_low b : in_data b → t_low <= b.
Proof using Hsb. intros [H1 H2]. pose proof (data_start_pos sb Hsb). lia. Qed.
Lemma data_dev b : in_data b → in_dev sb b ∧ b ≠ 0 ∧ b ≠ bmapstart sb ∧ in_range 32 b.
Proof using Hsb. intros [H1 H2]. pose proof (data_start_pos sb Hsb). destruct Hsb. unfold in_dev, in_range. lia. Qed.
Lemma uses_blk v l bn : in_file bn → blk_of v l bn ≠ 0 → uses v l (blk_of v l bn).
Proof using. intros. split; [done|]. right. eauto. Qed.
Lemma uses_ind v l : ind l ≠ 0 → uses v l (ind l).
Proof using. intros. split; [done|]. by left. Qed.
Hint Resolve uses_blk uses_ind : xv6.

(** The addresses depend on the indirect block only. *)
Lemma blk_of_same v v' l bn : (ind l ≠ 0 → v' (ind l) = v (ind l)) → blk_of v' l bn = blk_of v l bn.
Proof using. intros Hv. unfold blk_of. destruct (bn <? NDIRECT); [done|]. destruct (Z.eqb_spec (ind l) 0); [done|]. by rewrite Hv. Qed.
Lemma uses_same v v' l b : (ind l ≠ 0 → v' (ind l) = v (ind l)) → uses v' l b ↔ uses v l b.
Proof using. intros Hv. unfold uses. by setoid_rewrite (blk_of_same v v' l _ Hv). Qed.
Lemma wf_same v v' l : (ind l ≠ 0 → v' (ind l) = v (ind l)) → (∀ b, in_data b → bit v b = true → bit v' b = true) → wf v l → wf v' l.
Proof using.
  intros Hv Hb [H1 H2 H3 H4]. constructor; try setoid_rewrite (blk_of_same v v' l _ Hv); try done. intros b [? ?]%(uses_same v v' l b Hv)%H2. auto.
Qed.

(** A block more: for number [bn], or for the indirect block. *)
Lemma blk_of_direct v l k x bn : length l = 13%nat → (k < 12)%nat → in_file bn → blk_of v (<[k := x]> l) bn = if decide (bn = Z.of_nat k) then x else blk_of v l bn.
Proof using.
  intros Hl Hk Hb. unfold blk_of, in_file in *. assert (ind (<[k := x]> l) = ind l) as ->.
  { unfold ind. change (Z.to_nat NDIRECT) with 12%nat. rewrite !nth_lookup, list_lookup_insert_ne by lia. done. }
  change NDIRECT with 12. destruct (Z.ltb_spec bn 12); case_decide as Hc; try done; try lia.
  - rewrite Hc, Nat2Z.id, nth_lookup, list_lookup_insert_eq by lia. done.
  - rewrite !nth_lookup, list_lookup_insert_ne by lia. done.
Qed.
Lemma ind_direct l k x : (k < 12)%nat → ind (<[k := x]> l) = ind l.
Proof using. intros Hk. unfold ind. change (Z.to_nat NDIRECT) with 12%nat. rewrite !nth_lookup, list_lookup_insert_ne by lia. done. Qed.
Lemma ind_set l x : length l = 13%nat → ind (<[12%nat := x]> l) = x.
Proof using. intros Hl. unfold ind. change (Z.to_nat NDIRECT) with 12%nat. rewrite nth_lookup, list_lookup_insert_eq by lia. done. Qed.
Lemma blk_of_ind v l x bn : length l = 13%nat → ind l = 0 → in_file bn → v x = zero_block → blk_of v (<[12%nat := x]> l) bn = blk_of v l bn.
Proof using.
  intros Hl Hi Hb Hv. unfold blk_of. rewrite ind_set, Hi, Hv by done. cbn. destruct (Z.ltb_spec bn NDIRECT).
  - change NDIRECT with 12 in *. unfold in_file in Hb. rewrite !nth_lookup, list_lookup_insert_ne by lia. done.
  - rewrite entry_zero. by destruct (x =? 0).
Qed.

(** The block [x] was free and is the file's now, for [bn]. *)
Lemma ext_blk v l v' l' bn x : wf v l → length l' = 13%nat → in_data x → bit v x = false → (∀ y, in_dev sb y → bit v' y = bool_decide (y = x) || bit v y) →
  (∀ n, n ≠ x → n ≠ bmapstart sb → (ind l ≠ 0 → n ≠ ind l) → v' n = v n) → (blk_bytes v → blk_bytes v') →
  ind l' = ind l → blk_of v l bn = 0 → (∀ bn', in_file bn' → blk_of v' l' bn' = if decide (bn' = bn) then x else blk_of v l bn') → ext v l v' l'.
Proof using Hsb.
  intros [H1 H2 H3 H4] Hl Hx Hf Hbit Hsame Hbytes Hi Hbn Hall. destruct (data_dev x Hx) as (Hdx & Hx0 & _).
  assert (bit v' x = true) as Hfx by (rewrite Hbit by done; by rewrite bool_decide_true).
  assert (∀ y, in_dev sb y → bit v y = true → bit v' y = true) as Hmono by (intros y Hy Hb; by rewrite Hbit, Hb, orb_true_r).
  assert (∀ b, uses v' l' b → uses v l b ∨ b = x) as Huses.
  { intros b [Hb0 [-> | (bn' & Hbn' & E)]]; [left; rewrite Hi in *; by apply uses_ind|]. rewrite Hall in E by done. case_decide; [by right|]. left. subst b. by apply uses_blk. }
  assert (∀ bn', in_file bn' → blk_of v l bn' ≠ x) as Hnx.
  { intros bn' Hb' E. destruct (H2 x) as [_ ?]; [|congruence]. split; [done|]. right. by exists bn'. }
  constructor; try done.
  - constructor; try done.
    + intros b [Hu | ->]%Huses; [|done]. destruct (H2 b Hu) as [Hd Hb]. split; [done|]. apply Hmono; [by apply data_dev|done].
    + intros bn' Hb'. rewrite Hall, Hi by done. case_decide; [|by apply H3]. intros _ ->. destruct (H2 (ind l)) as [_ ?]; [by apply uses_ind|congruence].
    + intros b1 b2 Hb1 Hb2. rewrite !Hall by done. repeat case_decide; subst; try done; [intros E; by destruct (Hnx b2 Hb2)|intros E; by destruct (Hnx b1 Hb1)|by apply H4].
  - intros n Hn Hb Hni. apply Hsame; [congruence|by apply data_dev|done].
  - intros n Hn Hnb. apply Hsame; [by intros ->|done|]. intros Hi0 ->. by apply Hn, H2, uses_ind.
  - intros b Hb Hb0. rewrite Hall by done. case_decide; [by subst|done].
  - intros b [Hu | ->]%Huses; [by left|by right].
Qed.
(** The same for the indirect block. *)
Lemma ext_ind v l v' l' x : wf v l → length l' = 13%nat → in_data x → bit v x = false → (∀ y, in_dev sb y → bit v' y = bool_decide (y = x) || bit v y) →
  (∀ n, n ≠ x → n ≠ bmapstart sb → v' n = v n) → (blk_bytes v → blk_bytes v') →
  ind l = 0 → ind l' = x → (∀ bn', in_file bn' → blk_of v' l' bn' = blk_of v l bn') → ext v l v' l'.
Proof using Hsb.
  intros [H1 H2 H3 H4] Hl Hx Hf Hbit Hsame Hbytes Hi Hi' Hall. destruct (data_dev x Hx) as (Hdx & Hx0 & _).
  assert (bit v' x = true) as Hfx by (rewrite Hbit by done; by rewrite bool_decide_true).
  assert (∀ y, in_dev sb y → bit v y = true → bit v' y = true) as Hmono by (intros y Hy Hb; by rewrite Hbit, Hb, orb_true_r).
  assert (∀ b, uses v' l' b → uses v l b ∨ b = x) as Huses.
  { intros b [Hb0 [-> | (bn' & Hbn' & E)]]; [by right|]. rewrite Hall in E by done. left. subst b. by apply uses_blk. }
  constructor; try done.
  - constructor; try done.
    + intros b [Hu | ->]%Huses; [|done]. destruct (H2 b Hu) as [Hd Hb]. split; [done|]. apply Hmono; [by apply data_dev|done].
    + intros bn' Hb'. rewrite Hall, Hi' by done. intros Hn E. destruct (H2 (blk_of v l bn')) as [_ ?]; [by apply uses_blk|congruence].
    + intros b1 b2 Hb1 Hb2. rewrite !Hall by done. by apply H4.
  - intros n Hn Hb Hni. apply Hsame; [congruence|by apply data_dev].
  - intros n Hn Hnb. apply Hsame; [by intros ->|done].
  - intros b Hb Hb0. by rewrite Hall.
  - intros b [Hu | ->]%Huses; [by left|by right].
Qed.
Lemma ext_refl v l : wf v l → ext v l v l.
Proof using. intros. constructor; auto. Qed.
Lemma ext_trans v1 l1 v2 l2 v3 l3 : wf v1 l1 → ext v1 l1 v2 l2 → ext v2 l2 v3 l3 → ext v1 l1 v3 l3.
Proof using Hsb.
  intros Hw1 [A1 A2 A3 A4 A5 A6 A7 A8] [B1 B2 B3 B4 B5 B6 B7 B8]. constructor; auto.
  - intros n Hn Hb Hi. destruct (data_dev n Hn) as (Hd & Hn0 & _). rewrite B3; auto. intros ->. destruct (A7 (ind l2)) as [[_ [E|(bn & Hbn & E)]]|?]; [by apply uses_ind|congruence| |congruence].
    destruct (wf_ind _ _ A1 bn Hbn); rewrite A5; congruence.
  - intros n Hn Hm. by rewrite B4, A4.
  - intros bn Hbn Hb. rewrite B5, A5; auto. by rewrite A5.
  - intros Hi. rewrite B6, A6; auto. by rewrite A6.
  - intros b Hb3. destruct (data_dev b) as [Hd _]; [by apply (wf_used _ _ B1)|]. destruct (B7 b Hb3) as [Hu|Hb]; [by apply A7|]. right.
    destruct (bit v1 b) eqn:E; [|done]. by rewrite (A2 b Hd E) in Hb.
Qed.

(** ** Room for an operation *)

Definition free_set v : gset Z := filter (λ b, bit v b = false) (list_to_set (seqZ 0 (s5_size sb))).
Definition nfree v : nat := size (free_set v).
(** [k] more blocks may be written, each of which may be new, and an indirect block
    with them; [X] are blocks that the operation writes later. *)
Definition extra l : nat := if ind l =? 0 then 1%nat else 0%nat.
Definition logging l L X : gset Z := {[bmapstart sb]} ∪ (if ind l =? 0 then ∅ else {[ind l]}) ∪ X ∪ L.
Definition fits v l L X (k : nat) : Prop := (size (logging l L X) + extra l + k <= t_quota)%nat ∧ (extra l + k <= nfree v)%nat.

Lemma elem_of_free v b : b ∈ free_set v ↔ in_dev sb b ∧ bit v b = false.
Proof using. unfold free_set, in_dev. rewrite elem_of_filter, elem_of_list_to_set, elem_of_seqZ. split; intros; intuition lia. Qed.
Lemma nfree_taken v x v' : in_dev sb x → bit v x = false → (∀ y, in_dev sb y → bit v' y = bool_decide (y = x) || bit v y) → nfree v = S (nfree v').
Proof using.
  intros Hx Hb Hbit. unfold nfree. assert (free_set v = {[x]} ∪ free_set v') as ->.
  { apply set_eq. intros y. rewrite elem_of_union, elem_of_singleton, !elem_of_free. split.
    - intros [Hy E]. destruct (decide (y = x)); [by left|right]. split; [done|]. by rewrite Hbit, bool_decide_false.
    - intros [-> | [Hy E]]; [done|]. split; [done|]. rewrite Hbit in E by done. by apply orb_false_iff in E as [_ ?]. }
  rewrite size_union, size_singleton; [done|]. apply disjoint_singleton_l. rewrite elem_of_free. intros [_ E]. rewrite Hbit, bool_decide_true in E by done. done.
Qed.

Lemma balloc_fit w v h L : TR w v h L → meta_used sb v → unheld sb v h → roomy h L 4 → (size ({[bmapstart sb]} ∪ L) < t_quota)%nat → (0 < nfree v)%nat →
  ∃ x w' v', s5_balloc sb w = Ret (x, w') ∧ in_data x ∧ bit v x = false ∧ TR w' v' h ({[x; bmapstart sb]} ∪ L) ∧ taken sb v x v'.
Proof using Hsb Hone.
  intros Ht Hm Hh Hr Hq Hf. destruct (balloc_spec sb Hsb w v h L Ht Hm Hh Hr) as [[_ Hall] | (x & w' & v' & E & Hx & Hb & Ht' & Htk)].
  - intros x Hx. rewrite one_map by (by apply data_dev). unfold may_log. assert ({[x; bmapstart sb]} ∪ L = {[x]} ∪ ({[bmapstart sb]} ∪ L)) as -> by (clear; set_solver).
    rewrite size_union_alt, size_singleton. assert (size (({[bmapstart sb]} ∪ L) ∖ {[x]}) <= size ({[bmapstart sb]} ∪ L))%nat; [|lia]. apply subseteq_size. clear; set_solver.
  - exfalso. destruct (set_choose_L (free_set v)) as [y [Hy E]%elem_of_free]; [|by rewrite Hall in E]. intros E. unfold nfree in Hf. rewrite E, size_empty in Hf. lia.
  - rewrite one_map in Ht' by (by apply data_dev). by exists x, w', v'.
Qed.
Lemma taken_same v x v' n : taken sb v x v' → in_data x → n ≠ x → n ≠ bmapstart sb → v' n = v n.
Proof using Hsb Hone. intros Ht Hx. rewrite <- (one_map x) by (by apply data_dev). apply Ht. Qed.
Lemma meta_used_mono v v' : meta_used sb v → (∀ y, in_dev sb y → bit v y = true → bit v' y = true) → meta_used sb v'.
Proof using Hsb. intros Hm Hb b Hr. apply Hb; [|by apply Hm]. pose proof (data_start_pos sb Hsb). destruct Hsb. unfold in_dev, data_start in *. lia. Qed.
Lemma unheld_empty v : unheld sb v (∅ : gmap Z B).
Proof using. intros b _. split; [done|]. done. Qed.
Lemma unheld_one v n (b : B) : in_data n → bit v n = true → unheld sb v ({[n := b]} : gmap Z B).
Proof using Hsb.
  intros Hn Hb y Hy. split.
  - apply lookup_singleton_ne. intros E. by destruct (BBLOCK_not_data sb Hsb y n Hy Hn).
  - intros Hf. apply lookup_singleton_ne. congruence.
Qed.

(** Room for [k] blocks, when [r] free blocks are to be left for later. *)
Context (r : nat).
Definition fits_res v l L X (k : nat) : Prop := (size (logging l L X) + extra l + k <= t_quota)%nat ∧ (extra l + k + r <= nfree v)%nat.

Lemma fits_log v l L X k : fits_res v l L X k → (size ({[bmapstart sb]} ∪ L) + extra l + k <= t_quota)%nat.
Proof using. intros [Hq _]. assert (size ({[bmapstart sb]} ∪ L) <= size (logging l L X))%nat; [|lia]. apply subseteq_size. unfold logging. clear; set_solver. Qed.
Lemma fits_room v l L X k : (t_quota + 6 <= t_room)%nat → fits_res v l L X k → roomy (∅ : gmap Z B) L 6.
Proof using. intros Hr Hf%fits_log. unfold roomy. rewrite map_size_empty. assert (size L <= size ({[bmapstart sb]} ∪ L))%nat by (apply subseteq_size; clear; set_solver). lia. Qed.
Lemma fits_may v l L X k a : fits_res v l ({[a]} ∪ L) X k → may_log L {[a]}.
Proof using. intros Hf%fits_log. unfold may_log. assert (size ({[a]} ∪ L) <= size ({[bmapstart sb]} ∪ ({[a]} ∪ L)))%nat by (apply subseteq_size; clear; set_solver). lia. Qed.
Lemma size_more (Y Z : gset Z) a : Y ⊆ {[a]} ∪ Z → (size Y <= S (size Z))%nat.
Proof using. intros Hs. etrans; [by apply subseteq_size|]. rewrite size_union_alt, size_singleton. assert (size (Z ∖ {[a]}) <= size Z)%nat; [|lia]. apply subseteq_size. clear; set_solver. Qed.
(** A block taken, for a number of the file or for the indirect block. *)
Lemma fits_taken v l L X k x v' l' L' : fits_res v l L X (S k) → in_data x → bit v x = false → (∀ y, in_dev sb y → bit v' y = bool_decide (y = x) || bit v y) →
  L' ⊆ {[x; bmapstart sb]} ∪ (if ind l =? 0 then ∅ else {[ind l]}) ∪ L → ind l' = ind l → fits_res v' l' ({[x]} ∪ L') X k.
Proof using Hsb.
  intros [Hq Hf] Hx Hb Hbit HL Hi. rewrite (nfree_taken v x v') in Hf by (try done; by apply data_dev). unfold fits_res, extra, logging in *. rewrite Hi in *. split; [|lia].
  assert (size ({[bmapstart sb]} ∪ (if (ind l =? 0)%Z then ∅ else {[ind l]}) ∪ X ∪ ({[x]} ∪ L')) <= S (size ({[bmapstart sb]} ∪ (if (ind l =? 0)%Z then ∅ else {[ind l]}) ∪ X ∪ L)))%nat; [|lia].
  apply (size_more _ _ x). revert HL. clear. destruct (ind l =? 0); set_solver.
Qed.
Lemma fits_ind v l L X k x v' l' L' : fits_res v l L X k → ind l = 0 → in_data x → bit v x = false → (∀ y, in_dev sb y → bit v' y = bool_decide (y = x) || bit v y) →
  L' ⊆ {[x; bmapstart sb]} ∪ L → ind l' = x → fits_res v' l' L' X k.
Proof using Hsb.
  intros [Hq Hf] Hi Hx Hb Hbit HL Hi'. rewrite (nfree_taken v x v') in Hf by (try done; by apply data_dev). destruct (data_dev x Hx) as (_ & Hx0 & _).
  unfold fits_res, extra, logging in *. rewrite Hi', Hi in *. destruct (Z.eqb_spec x 0); [done|]. cbn in *. split; [|lia].
  assert (size ({[bmapstart sb]} ∪ {[x]} ∪ X ∪ L') <= S (size ({[bmapstart sb]} ∪ ∅ ∪ X ∪ L)))%nat; [|lia]. apply (size_more _ _ x). revert HL. clear. set_solver.
Qed.

(** ** [bmap] *)

Lemma blk_of_entry v l bn : in_file bn → NDIRECT <= bn → ind l ≠ 0 → blk_of v l bn = entry (v (ind l)) (bn - NDIRECT).
Proof using. intros Hb Hn Hi. unfold blk_of. by rewrite (proj2 (Z.ltb_ge _ _)), (proj2 (Z.eqb_neq _ _)). Qed.

Lemma entry_found w v L l bn : TR w v (∅ : gmap Z B) L → wf v l → in_file bn → NDIRECT <= bn → blk_of v l bn ≠ 0 → roomy (∅ : gmap Z B) L 1 →
  ∃ w', bmap_entry sb (ind l) (bn - NDIRECT) w = Ret (blk_of v l bn, w') ∧ TR w' v (∅ : gmap Z B) L.
Proof using Hsb.
  intros Ht Hw Hb Hn Hnz Hr. assert (ind l ≠ 0) as Hi. { intros Hi. apply Hnz. unfold blk_of. rewrite (proj2 (Z.ltb_ge _ _)) by done. by rewrite Hi. }
  destruct (wf_used _ _ Hw (ind l)) as [Hid _]; [by apply uses_ind|]. pose proof (dev_range sb Hsb _ (proj1 (data_dev _ Hid))) as Hit.
  destruct (TR_bread w v ∅ L (ind l) Ht Hit) as (bp & w1 & E1 & Ht1); [done|done|]. unfold bmap_entry. rewrite (bind_Ret _ _ _ _ _ E1), (bind_Ret _ _ _ _ _ (TR_data w1 v _ L _ bp Ht1 (lookup_insert_eq _ _ _))).
  rewrite entry_word by (try (by eapply TR_length); unfold in_file, MAXFILE in Hb; lia). rewrite blk_of_entry in * by done. cbn [oget].
  rewrite (bind_Ret (mret _) _ _ _ _ eq_refl), (proj2 (Z.eqb_neq _ _)) by done. rewrite (bind_Ret (mret _) _ _ _ _ eq_refl).
  destruct (TR_brelse w1 v ∅ L _ bp Ht1) as (w2 & E2 & Ht2); [done|]. rewrite (bind_Ret _ _ _ _ _ E2). by exists w2.
Qed.

(** Block [bn] of the file is the new block [a]. *)
Record grown v l v' l' (bn a : Z) : Prop := {
  gr_ext : ext v l v' l';
  gr_blk : blk_of v' l' bn = a;
  gr_data : in_data a;
  gr_new : bit v a = false;
  gr_zero : v' a = zero_block;
  gr_other : ∀ bn', in_file bn' → bn' ≠ bn → blk_of v' l' bn' = blk_of v l bn';
}.

Lemma entry_new w v L X l bn k : TR w v (∅ : gmap Z B) L → wf v l → in_file bn → NDIRECT <= bn → ind l ≠ 0 → blk_of v l bn = 0 → meta_used sb v →
  fits_res v l L X (S k) → (t_quota + 6 <= t_room)%nat →
  ∃ a w' v' L', bmap_entry sb (ind l) (bn - NDIRECT) w = Ret (a, w') ∧ TR w' v' (∅ : gmap Z B) L' ∧ grown v l v' l bn a ∧ fits_res v' l ({[a]} ∪ L') X k.
Proof using Hsb Hone.
  intros Ht Hw Hb Hn Hi Hz Hm Hf Hroom. pose proof (fits_room _ _ _ _ _ Hroom Hf) as Hr. destruct (wf_used _ _ Hw (ind l)) as [Hid Hib]; [by apply uses_ind|].
  pose proof (dev_range sb Hsb _ (proj1 (data_dev _ Hid))) as Hit. destruct (data_dev _ Hid) as (_ & _ & Him & _).
  assert (0 <= bn - NDIRECT < NINDIRECT) as Hbn by (unfold in_file, MAXFILE in Hb; lia).
  destruct (TR_bread w v ∅ L (ind l) Ht Hit) as (bp & w1 & E1 & Ht1); [done|by eapply roomy_le; [|exact Hr]; lia|]. rewrite insert_empty in Ht1.
  assert (({[ind l := bp]} : gmap Z B) !! ind l = Some bp) as Hl1 by apply lookup_singleton_eq.
  unfold bmap_entry. rewrite (bind_Ret _ _ _ _ _ E1), (bind_Ret _ _ _ _ _ (TR_data w1 v _ L _ bp Ht1 Hl1)).
  rewrite entry_word by (try (by eapply TR_length); done). rewrite blk_of_entry in Hz by done. rewrite Hz. cbn [oget]. rewrite (bind_Ret (mret _) _ _ _ _ eq_refl). cbn [Z.eqb].
  pose proof (fits_log _ _ _ _ _ Hf) as Hlog.
  destruct (balloc_fit w1 v _ L Ht1 Hm (unheld_one v _ bp Hid Hib)) as (a & w2 & v2 & E2 & Ha & Hab & Ht2 & Htk); [by apply roomy_hold, roomy_le with 6%nat; [lia|]|lia|destruct Hf; lia|].
  destruct (data_dev _ Ha) as (Had & Ha0 & _ & Har). assert (ind l ≠ a) as Hia by congruence.
  assert (v2 (ind l) = v (ind l)) as Hvi by (by apply (taken_same v a)).
  destruct (entry_put (v2 (ind l)) (bn - NDIRECT) a) as (d & Ed & Hdl & Hdb & Hde); [by eapply TR_length|done|done|].
  assert (grown v l (<[ind l := d]> v2) l bn a) as Hg.
  { destruct Htk as [T1 T2 T3 T4]. assert (∀ bn', in_file bn' → blk_of (<[ind l := d]> v2) l bn' = if decide (bn' = bn) then a else blk_of v l bn') as Hall.
    { intros bn' Hb'. unfold blk_of. destruct (Z.ltb_spec bn' NDIRECT); [rewrite decide_False by lia; done|]. rewrite (proj2 (Z.eqb_neq _ _)), fn_lookup_insert by done.
      rewrite Hde, Hvi by (unfold in_file, MAXFILE in Hb'; lia). destruct (decide (bn' = bn)); [by rewrite decide_True by lia|by rewrite decide_False by lia]. }
    assert (∀ y, in_dev sb y → bit (<[ind l := d]> v2) y = bool_decide (y = a) || bit v y) as Hbit.
    { intros y Hy. rewrite <- T1 by done. unfold S5Bits.bit. rewrite fn_insert_at, decide_False; [done|]. by apply BBLOCK_not_data. }
    constructor; try done.
    - apply (ext_blk v l _ l bn a); try done.
      + by destruct Hw.
      + intros n Hn1 Hn2 Hn3. rewrite fn_lookup_insert_ne by auto using not_eq_sym. by apply (taken_same v a).
      + intros Hv. apply bytes_insert; [by apply T4|]. apply Hdb, T4; done.
      + by rewrite blk_of_entry.
    - by rewrite Hall, decide_True by done.
    - by rewrite fn_lookup_insert_ne.
    - intros bn' Hb' Hne. by rewrite Hall, decide_False by done. }
  assert (fits_res (<[ind l := d]> v2) l ({[a]} ∪ ({[ind l]} ∪ ({[a; bmapstart sb]} ∪ L))) X k) as Hf'.
  { apply (fits_taken v l L X k a); try done.
    - intros y Hy. rewrite <- (ta_bit _ _ _ _ Htk) by done. unfold S5Bits.bit. rewrite fn_insert_at, decide_False; [done|]. by apply BBLOCK_not_data.
    - rewrite (proj2 (Z.eqb_neq _ _)) by done. clear. set_solver. }
  destruct (TR_put w2 v2 _ _ (ind l) bp d Ht2 Hl1) as (w3 & w4 & E3 & E4 & Ht4); [rewrite Hdl; by eapply TR_length|by apply data_low|..].
  { pose proof (fits_may _ _ _ _ _ _ Hf') as Hq. unfold may_log in *. etrans; [|exact Hq]. apply subseteq_size. clear. set_solver. }
  rewrite bind_assoc, (bind_Ret _ _ _ _ _ E2), bind_assoc, (bind_Ret _ _ _ _ _ (TR_data w2 v2 _ _ _ bp Ht2 Hl1)), Ed. cbn [oget].
  rewrite bind_assoc, (bind_Ret (mret d) _ _ _ _ eq_refl), bind_assoc, (bind_Ret _ _ _ _ _ E3), bind_assoc, (bind_Ret _ _ _ _ _ E4), (bind_Ret (mret a) _ _ _ _ eq_refl).
  destruct (TR_brelse w4 _ ∅ _ _ bp Ht4) as (w5 & E5 & Ht5); [done|]. rewrite (bind_Ret _ _ _ _ _ E5).
  by exists a, w5, (<[ind l := d]> v2), ({[ind l]} ∪ ({[a; bmapstart sb]} ∪ L)).
Qed.

Lemma bmap_found s i ip l v L bn : TR (tr s) v (∅ : gmap Z B) L → has s i ip l → wf v l → in_file bn → blk_of v l bn ≠ 0 → roomy (∅ : gmap Z B) L 1 →
  ∃ w', s5_bmap sb i bn s = Ret (blk_of v l bn, with_tr s w') ∧ TR w' v (∅ : gmap Z B) L.
Proof using Hsb.
  intros Ht Hs Hw Hb Hnz Hr. pose proof (wf_len _ _ Hw) as Hl. unfold s5_bmap. rewrite (bind_Ret _ _ _ _ _ (get_inode_run s i ip l Hs)). unfold in_file in Hb. destruct (Z.ltb_spec bn NDIRECT).
  - rewrite (bind_Ret _ _ _ _ _ (get_addrs_run s i ip l Hs)). destruct (lookup_lt_is_Some_2 l (Z.to_nat bn)) as [a Ha]; [change NDIRECT with 12 in *; lia|].
    assert (blk_of v l bn = a) as E by (unfold blk_of; rewrite (proj2 (Z.ltb_lt _ _)) by done; by apply nth_lookup_Some). rewrite E in *. rewrite Ha. cbn [oget].
    rewrite (bind_Ret (mret a) _ _ a s eq_refl), (proj2 (Z.eqb_neq _ _)) by done. exists (tr s). split; [by destruct s|done].
  - rewrite (proj2 (Z.ltb_lt _ _)) by (unfold MAXFILE in Hb; lia). rewrite (bind_Ret _ _ _ _ _ (get_addrs_run s i ip l Hs)).
    assert (ind l ≠ 0) as Hi. { intros Hi. apply Hnz. unfold blk_of. rewrite (proj2 (Z.ltb_ge _ _)) by done. by rewrite Hi. }
    destruct (lookup_lt_is_Some_2 l (Z.to_nat NDIRECT)) as [a Ha]; [change (Z.to_nat NDIRECT) with 12%nat; lia|]. assert (ind l = a) as E by (by apply nth_lookup_Some). rewrite Ha. cbn [oget].
    rewrite (bind_Ret (mret a) _ _ a s eq_refl), (proj2 (Z.eqb_neq _ _)), (bind_Ret (mret a) _ _ a s eq_refl) by congruence.
    destruct (entry_found (tr s) v L l bn Ht Hw Hb ltac:(lia) Hnz Hr) as (w' & E1 & Ht'). rewrite E in E1. exists w'. split; [by apply in_tr_Ret|done].
Qed.

Lemma grown_trans v l v1 l1 v' l' bn a : wf v l → ext v l v1 l1 → (∀ bn', in_file bn' → blk_of v1 l1 bn' = blk_of v l bn') → grown v1 l1 v' l' bn a → grown v l v' l' bn a.
Proof using Hsb.
  intros Hw He Hsame [G1 G2 G3 G4 G5 G6]. constructor; try done.
  - by eapply ext_trans.
  - destruct (bit v a) eqn:E; [|done]. rewrite (ex_bit _ _ _ _ He a) in G4; [done|by apply data_dev|done].
  - intros bn' Hb Hne. by rewrite G6, Hsame.
Qed.
(** A block for a direct number, and the indirect block. *)
Lemma take_direct v l x v' k : wf v l → taken sb v x v' → in_data x → bit v x = false → (k < 12)%nat → blk_of v l (Z.of_nat k) = 0 → grown v l v' (<[k := x]> l) (Z.of_nat k) x.
Proof using Hsb Hone.
  intros Hw Htk Hx Hb Hk Hz. pose proof (wf_len _ _ Hw) as Hl. assert (ind l ≠ 0 → v' (ind l) = v (ind l)) as Hvi.
  { intros Hi. destruct (wf_used _ _ Hw (ind l)) as [Hid Hib]; [by apply uses_ind|]. apply (taken_same v x); try done; [congruence|by apply data_dev]. }
  assert (∀ bn, in_file bn → blk_of v' (<[k := x]> l) bn = if decide (bn = Z.of_nat k) then x else blk_of v l bn) as Hall.
  { intros bn Hbn. rewrite blk_of_direct by done. case_decide; [done|]. by apply blk_of_same. }
  constructor; try done.
  - apply (ext_blk v l _ _ (Z.of_nat k) x); try done; [by rewrite length_insert|apply Htk| |apply Htk|by apply ind_direct]. intros n Hn1 Hn2 _. by apply (taken_same v x).
  - rewrite Hall, decide_True by (try done; unfold in_file; change MAXFILE with 268; lia). done.
  - apply Htk.
  - intros bn Hbn Hne. by rewrite Hall, decide_False.
Qed.
Lemma take_ind v l x v' : wf v l → taken sb v x v' → in_data x → bit v x = false → ind l = 0 →
  ext v l v' (<[12%nat := x]> l) ∧ ∀ bn, in_file bn → blk_of v' (<[12%nat := x]> l) bn = blk_of v l bn.
Proof using Hsb Hone.
  intros Hw Htk Hx Hb Hi. pose proof (wf_len _ _ Hw) as Hl. assert (∀ bn, in_file bn → blk_of v' (<[12%nat := x]> l) bn = blk_of v l bn) as Hall.
  { intros bn Hbn. rewrite blk_of_ind by (try done; apply Htk). apply blk_of_same. congruence. }
  split; [|done]. apply (ext_ind v l _ _ x); try done; [by rewrite length_insert|apply Htk| |apply Htk|by apply ind_set]. intros n Hn1 Hn2. by apply (taken_same v x).
Qed.

Lemma bmap_new s i ip l v L X bn k : TR (tr s) v (∅ : gmap Z B) L → has s i ip l → wf v l → in_file bn → blk_of v l bn = 0 → meta_used sb v →
  fits_res v l L X (S k) → (t_quota + 6 <= t_room)%nat →
  ∃ a w' v' l' L', s5_bmap sb i bn s = Ret (a, with_tr (with_addrs s ip l') w') ∧ TR w' v' (∅ : gmap Z B) L' ∧ grown v l v' l' bn a ∧ fits_res v' l' ({[a]} ∪ L') X k.
Proof using Hsb Hone.
  intros Ht Hs Hw Hb Hz Hm Hf Hroom. pose proof (wf_len _ _ Hw) as Hl. pose proof (fits_room _ _ _ _ _ Hroom Hf) as Hr. pose proof (fits_log _ _ _ _ _ Hf) as Hlog.
  unfold s5_bmap. rewrite (bind_Ret _ _ _ _ _ (get_inode_run s i ip l Hs)). unfold in_file in Hb.
  assert ((0 < nfree v)%nat) as Hnf by (destruct Hf; lia).
  destruct (balloc_fit (tr s) v ∅ L Ht Hm (unheld_empty v)) as (x & w1 & v1 & E1 & Hx & Hxb & Ht1 & Htk); [by apply roomy_le with 6%nat; [lia|]|lia|done|].
  destruct (data_dev x Hx) as (_ & Hx0 & _). pose proof (in_tr_Ret (s5_balloc sb) s x w1 E1) as E1'.
  destruct (Z.ltb_spec bn NDIRECT).
  - rewrite (bind_Ret _ _ _ _ _ (get_addrs_run s i ip l Hs)). destruct (lookup_lt_is_Some_2 l (Z.to_nat bn)) as [a Ha]; [change NDIRECT with 12 in *; lia|].
    assert (blk_of v l bn = a) as E by (unfold blk_of; rewrite (proj2 (Z.ltb_lt _ _)) by done; by apply nth_lookup_Some). rewrite Ha. cbn [oget].
    rewrite (bind_Ret (mret a) _ _ a s eq_refl), (proj2 (Z.eqb_eq _ _)) by congruence. cbn [negb]. rewrite (bind_Ret _ _ _ _ _ E1'), (proj2 (Z.eqb_neq _ _)) by done.
    rewrite (bind_Ret _ _ _ _ _ (set_addr_run _ i ip l _ x (with_tr_has s i ip l w1 Hs))).
    exists x, w1, v1, (<[Z.to_nat bn := x]> l), ({[x; bmapstart sb]} ∪ L). split; [done|]. split; [done|]. split.
    + replace bn with (Z.of_nat (Z.to_nat bn)) at 2 by lia. apply take_direct; try done; [change NDIRECT with 12 in *; lia|by rewrite Z2Nat.id by lia].
    + apply (fits_taken v l L X k x); try done; [apply Htk|clear; destruct (ind l =? 0); set_solver|apply ind_direct; change NDIRECT with 12 in *; lia].
  - rewrite (proj2 (Z.ltb_lt _ _)) by (unfold MAXFILE in Hb; lia). rewrite (bind_Ret _ _ _ _ _ (get_addrs_run s i ip l Hs)).
    destruct (lookup_lt_is_Some_2 l (Z.to_nat NDIRECT)) as [a Ha]; [change (Z.to_nat NDIRECT) with 12%nat; lia|]. assert (ind l = a) as E by (by apply nth_lookup_Some). rewrite Ha. cbn [oget].
    rewrite (bind_Ret (mret a) _ _ a s eq_refl). destruct (Z.eqb_spec a 0) as [Ha0|Ha0].
    + destruct (take_ind v l x v1 Hw Htk Hx Hxb ltac:(congruence)) as [He Hall].
      rewrite bind_assoc, (bind_Ret _ _ _ _ _ E1'), bind_assoc, (bind_Ret _ _ _ _ _ (set_addr_run _ i ip l _ x (with_tr_has s i ip l w1 Hs))), (bind_Ret (mret x) _ _ x _ eq_refl).
      change (Z.to_nat NDIRECT) with 12%nat. set (l1 := <[12%nat := x]> l) in *. assert (ind l1 = x) as Hi1 by (by apply ind_set).
      destruct (entry_new w1 v1 _ X l1 bn k Ht1 (ex_wf _ _ _ _ He)) as (b & w2 & v2 & L2 & E2 & Ht2 & Hg & Hf2); [done|done|congruence|by rewrite Hall|eapply meta_used_mono; [exact Hm|apply He]|by apply (fits_ind v l L X (S k) x); try done; [congruence|apply Htk]|done|].
      rewrite Hi1 in E2. exists b, w2, v2, l1, L2. split; [exact (in_tr_Ret _ (with_addrs (with_tr s w1) ip l1) _ _ E2)|]. split; [done|]. split; [|done]. by eapply grown_trans.
    + rewrite (bind_Ret (mret a) _ _ a s eq_refl).
      destruct (entry_new (tr s) v L X l bn k Ht Hw) as (b & w2 & v2 & L2 & E2 & Ht2 & Hg & Hf2); [done|done|congruence|done|done|done|done|]. rewrite E in E2.
      exists b, w2, v2, l, L2. split; [rewrite (with_addrs_same s i ip l Hs); exact (in_tr_Ret _ s _ _ E2)|done].
Qed.
End map.
