(* ===== verification/S5Io.v ===== *)
(** * Reading and writing a file: [readi], [writei], [iupdate] of [kernel/s5.c]

    [fbyte] is the byte at an offset of a file. [readi] copies out the bytes of the
    file ([readi_correct]); [writei] changes those it is given, extends the file,
    writes the inode, and leaves every other file alone ([writei_correct]). *)
From S2P Require Import Prelude BlockCache Trans S5 S5Bits S5Map.

(** What the file system relies on of [either_copyout] and [either_copyin]. *)
Class UserMemSpec (U : Type) `{UserMem U} := {
  u_out : U → bool → Z → bytes → U → Prop;   (* the bytes were stored there *)
  u_out_nil u user a : u_out u user a [] u;
  u_out_app u u1 u2 user a d1 d2 : u_out u user a d1 u1 → u_out u1 user (u64 (a + Z.of_nat (length d1))) d2 u2 → u_out u user a (d1 ++ d2) u2;
  u_open : U → bool → Z → Z → Prop;          (* so many bytes may be stored there *)
  copyout_ok u user a d : ∃ r u', either_copyout user a d u = Ret (r, u') ∧ (r = 0 ∧ u_out u user a d u' ∨ r = -1) ∧
    ∀ k, 0 <= k → u_open u user a (Z.of_nat (length d) + k) → r = 0 ∧ u_open u' user (u64 (a + Z.of_nat (length d))) k;
  u_bytes : U → bool → Z → bytes → Prop;     (* the bytes are there *)
  u_bytes_take u user a d (m : nat) : u_bytes u user a d → u_bytes u user a (take m d);
  copyin_ok u user a d (m : nat) : u_bytes u user a d → (m <= length d)%nat →
    either_copyin user a (Z.of_nat m) u = Ret ((0, take m d), u) ∧ u_bytes u user (u64 (a + Z.of_nat m)) (drop m d);
}.

(** ** Contents *)

Section contents.
Implicit Types (v : Z → block) (l : list Z).
Definition fbyte v l (o : Z) : Z := nth (Z.to_nat (o mod BSIZE)) (v (blk_of v l (o / BSIZE))) 0.
Definition contents v l (off n : Z) : bytes := fbyte v l <$> seqZ off n.
(** A file of [size] bytes has the blocks it needs. *)
Definition dense v l (size : Z) : Prop := 0 <= size <= MAXFILE * BSIZE ∧ ∀ bn, 0 <= bn → bn * BSIZE < size → blk_of v l bn ≠ 0.

(** A chunk inside a block. *)
Lemma contents_chunk v l off m : 0 <= off → 0 <= m → off mod BSIZE + m <= BSIZE → Z.of_nat (length (v (blk_of v l (off / BSIZE)))) = BSIZE →
  sub_bytes (v (blk_of v l (off / BSIZE))) (off mod BSIZE) m = Some (contents v l off m).
Proof using.
  intros H0 Hm Hb Hl. pose proof (Z.mod_pos_bound off BSIZE ltac:(done)) as Hr. destruct (sub_bytes_is_Some (v (blk_of v l (off / BSIZE))) (off mod BSIZE) m) as [d Hd]; [lia..|].
  rewrite Hd. f_equal. apply list_eq. intros j. unfold contents. rewrite list_lookup_fmap. destruct (decide (Z.of_nat j < m)) as [Hj|Hj].
  - rewrite (lookup_sub_bytes _ _ _ _ _ Hd Hj), lookup_seqZ_lt by lia. cbn [fmap option_fmap option_map]. unfold fbyte.
    assert ((off + Z.of_nat j) / BSIZE = off / BSIZE ∧ (off + Z.of_nat j) mod BSIZE = off mod BSIZE + Z.of_nat j) as [-> ->] by (unfold BSIZE in *; split; dlia).
    rewrite Z2Nat.inj_add, Nat2Z.id by lia. destruct (lookup_lt_is_Some_2 (v (blk_of v l (off / BSIZE))) (Z.to_nat (off mod BSIZE) + j)) as [x Hx]; [lia|]. by rewrite (nth_lookup_Some _ _ _ _ Hx).
  - rewrite lookup_seqZ_ge by lia. apply lookup_ge_None_2. apply length_sub_bytes in Hd. lia.
Qed.

End contents.

Section io.
Context {W B U : Type} `{HT : Trans W B} `{HU : UserMem U} `{HS : !TransSpec W B} `{HUS : !UserMemSpec U}.
Context (sb : s5_superblock) (Hsb : sb_ok t_low t_size sb) (Hone : s5_size sb <= BPB).
Implicit Types (w : W) (s : s5 W U) (v : Z → block) (h : gmap Z B) (L X : gset Z) (l : list Z).
Local Abbreviation bit := (bit sb).
Local Abbreviation in_data := (in_data sb).
Local Abbreviation wf := (wf sb).
Local Abbreviation none := (∅ : gmap Z B).

(** The state but for memory and disk. *)
Definition kept s s' (ip : inode) l : Prop := itable s' = itable s ∧ pool s' = pool (with_addrs s ip l).

Lemma fits_res_0 v l L X k : fits sb v l L X k ↔ fits_res sb 0 v l L X k.
Proof using. unfold fits, fits_res. by rewrite Nat.add_0_r. Qed.
Lemma in_um_Ret {A} (m : M U A) s a u : m (um s) = Ret (a, u) → in_um m s = Ret (a, S5 (tr s) u (itable s) (pool s)).
Proof using. intros E. unfold in_um. by rewrite E. Qed.

Lemma readi_loop_spec i user ip l v L n : wf v l → in_range 32 n → roomy none L 1 → ∀ fuel s dst off tot, TR (tr s) v none L → has s i ip l →
  0 <= off → 0 <= tot <= n → n - tot <= Z.of_nat fuel → off + (n - tot) <= MAXFILE * BSIZE → (∀ bn, off / BSIZE <= bn → bn * BSIZE < off + (n - tot) → blk_of v l bn ≠ 0) →
  ∃ r s', readi_loop sb fuel i user dst off n tot s = Ret (r, s') ∧ TR (tr s') v none L ∧ itable s' = itable s ∧ pool s' = pool s ∧
    (r = n ∧ u_out (um s) user dst (contents v l off (n - tot)) (um s') ∨ r = u32 (-1)) ∧ (u_open (um s) user dst (n - tot) → r = n).
Proof using Hsb HUS.
  intros Hw Hn Hr. induction fuel as [|fuel IH]; intros s dst off tot Ht Hs H0 Htot Hf Hmax Hb; cbn [readi_loop];
    (destruct (Z.ltb_spec tot n) as [Hlt|Hge]; cbn [negb]; [|exists tot, s; split_and!; try done; [|lia]; left; split; [lia|]; replace (n - tot) with 0 by lia; apply u_out_nil]).
  { lia. }
  set (bn := off / BSIZE) in *. assert (in_file bn) as Hbn by (unfold in_file, bn, BSIZE in *; change (MAXFILE * 1024) with (268 * 1024) in *; change MAXFILE with 268; dlia).
  assert (bn * BSIZE <= off) as Hbo by (unfold bn, BSIZE; dlia). assert (blk_of v l bn ≠ 0) as Hnz by (apply Hb; lia).
  destruct (bmap_found sb Hsb s i ip l v L bn Ht Hs Hw Hbn Hnz Hr) as (w1 & E1 & Ht1). rewrite (bind_Ret _ _ _ _ _ E1), (proj2 (Z.eqb_neq _ _)) by done.
  destruct (wf_used _ _ _ Hw (blk_of v l bn)) as [Hbd _]; [by apply uses_blk|]. pose proof (dev_range sb Hsb _ (proj1 (data_dev sb Hsb _ Hbd))) as Hdev.
  destruct (TR_bread w1 v none L (blk_of v l bn) Ht1 Hdev) as (bp & w2 & E2 & Ht2); [done|done|]. rewrite (bind_Ret _ _ _ _ _ (in_tr_Ret _ (with_tr s w1) _ _ E2)).
  pose proof (TR_data w2 v _ L _ bp Ht2 (lookup_insert_eq _ _ _)) as E3. rewrite (bind_Ret _ _ _ _ _ (in_tr_Ret _ (with_tr s w2) _ _ E3)).
  assert (u32 (n - tot) = n - tot) as -> by (apply wrap_small; unfold in_range in *; lia). pose proof (Z.mod_pos_bound off BSIZE ltac:(done)) as Hmod.
  assert (u32 (BSIZE - off mod BSIZE) = BSIZE - off mod BSIZE) as -> by (apply wrap_small; unfold in_range, BSIZE in *; lia).
  set (m := Z.min (n - tot) (BSIZE - off mod BSIZE)). assert (0 < m) as Hm by lia.
  pose proof (contents_chunk v l off m) as Ec. fold bn in Ec. rewrite Ec by (try lia; by eapply TR_length). cbn [oget]. rewrite (bind_Ret (mret _) _ _ _ _ eq_refl).
  destruct (copyout_ok (um s) user dst (contents v l off m)) as (r & u & E4 & Hout & Hopen).
  rewrite (bind_Ret _ _ _ _ _ (in_um_Ret _ (with_tr s w2) _ _ E4)).
  destruct (TR_brelse w2 v none L _ bp Ht2) as (w3 & E5 & Ht3); [done|]. rewrite (bind_Ret _ _ _ _ _ (in_tr_Ret _ (S5 w2 u (itable s) (pool s)) _ _ E5)).
  assert (Z.of_nat (length (contents v l off m)) = m) as Hlen by (unfold contents; rewrite length_fmap, length_seqZ; lia). rewrite Hlen in Hopen.
  specialize (Hopen (n - tot - m) ltac:(lia)). replace (m + (n - tot - m)) with (n - tot) in Hopen by lia.
  destruct Hout as [[-> Hout] | ->]; cbn [Z.eqb].
  - assert (u32 (off + m) = off + m ∧ u32 (tot + m) = tot + m) as [-> ->] by (change (MAXFILE * BSIZE) with 274432 in *; split; apply wrap_small; unfold in_range in *; lia).
    destruct (IH (S5 w3 u (itable s) (pool s)) (u64 (dst + m)) (off + m) (tot + m)) as (r & s' & E & Ht' & Hi' & Hp' & Hr' & Ho'); try done; try lia.
    { replace (off + m + (n - (tot + m))) with (off + (n - tot)) by lia. intros b Hb1 Hb2. apply Hb; [|done]. unfold bn. etrans; [|exact Hb1]. apply Z.div_le_mono; [done|lia]. }
    exists r, s'. split_and!; try done; [|intros Ho; apply Ho'; cbn; replace (n - (tot + m)) with (n - tot - m) by lia; by apply Hopen]. destruct Hr' as [[-> Hr'] | ->]; [left; split; [done|]|by right].
    assert (contents v l off (n - tot) = contents v l off m ++ contents v l (off + m) (n - (tot + m))) as ->.
    { unfold contents. rewrite <- fmap_app, <- seqZ_app by lia. do 2 f_equal. lia. }
    eapply u_out_app; [exact Hout|]. by rewrite Hlen.
  - eexists _, _. split; [done|]. split_and!; try done; [by right|]. by intros [? _]%Hopen.
Qed.

(** The number of bytes a call may read. *)
Definition readable (size off n : Z) : Z := if (size <? off) || (u32 (off + n) <? off) then 0 else Z.min n (size - off).

Lemma readi_spec s i ip l v L user dst off n : TR (tr s) v none L → has s i ip l → wf v l → dense v l (i_size ip) → in_range 32 off → in_range 32 n → roomy none L 1 →
  let m := readable (i_size ip) off n in
  ∃ r s', s5_readi sb i user dst off n s = Ret (r, s') ∧ TR (tr s') v none L ∧ itable s' = itable s ∧ pool s' = pool s ∧
    (r = m ∧ u_out (um s) user dst (contents v l off m) (um s') ∨ r = -1) ∧ (u_open (um s) user dst m → r = m).
Proof using Hsb HUS.
  intros Ht Hs Hw [Hsz Hd] Ho Hn Hr m. unfold s5_readi. rewrite (bind_Ret _ _ _ _ _ (get_inode_run s i ip l Hs)). unfold m, readable. change (MAXFILE * BSIZE) with 274432 in *.
  destruct (Z.ltb_spec (i_size ip) off); cbn [orb]; [exists 0, s; split_and!; try done; left; split; [done|apply u_out_nil]|].
  destruct (Z.ltb_spec (u32 (off + n)) off) as [|Hnw]; [exists 0, s; split_and!; try done; left; split; [done|apply u_out_nil]|]. unfold in_range in *.
  assert (off + n < 2 ^ 32) as Hlt. { destruct (Z_lt_le_dec (off + n) (2 ^ 32)) as [|Hge]; [done|]. unfold wrap in Hnw. revert Hnw Hge Ho Hn. clear. dlia. }
  assert (u32 (off + n) = off + n) as -> by (apply wrap_small; unfold in_range; lia). assert (u32 (i_size ip - off) = i_size ip - off) as -> by (apply wrap_small; unfold in_range; lia).
  assert ((if i_size ip <? off + n then i_size ip - off else n) = Z.min n (i_size ip - off)) as -> by (destruct (Z.ltb_spec (i_size ip) (off + n)); lia).
  set (k := Z.min n (i_size ip - off)). destruct (readi_loop_spec i user ip l v L k Hw ltac:(unfold in_range; lia) Hr (Z.to_nat k) s dst off 0) as (r & s' & E & Ht' & Hi & Hp & Hr' & Hopen); try done; try lia.
  { change (MAXFILE * BSIZE) with 274432. lia. }
  { intros bn H1 H2. apply Hd; [|lia]. etrans; [|exact H1]. by apply Z.div_pos; [lia|]. }
  rewrite (bind_Ret _ _ _ _ _ E). rewrite Z.sub_0_r in *. exists (s32 r), s'. split_and!; try done.
  - destruct Hr' as [[-> Hr'] | ->]; [left; split; [apply swrap_small; lia|done]|by right].
  - intros Hop%Hopen. rewrite Hop. apply swrap_small; lia.
Qed.
(** C4: [s5_readi] returns the number of bytes between the offset and the end of the
    file, at most those asked for, and has copied out exactly these bytes of the
    file; -1 if a copy fails, which it does not where memory is open. The disk and
    the inode stay, no buffer is kept. *)
Theorem readi_correct s i ip l v L user dst off n : TR (tr s) v none L → has s i ip l → wf v l → dense v l (i_size ip) → in_range 32 off → in_range 32 n → roomy none L 1 →
  let m := readable (i_size ip) off n in
  ∃ r s', s5_readi sb i user dst off n s = Ret (r, s') ∧ TR (tr s') v none L ∧ itable s' = itable s ∧ pool s' = pool s ∧
    (r = m ∧ u_out (um s) user dst (contents v l off m) (um s') ∨ r = -1) ∧ (u_open (um s) user dst m → r = m).
Proof using Hsb HUS. apply readi_spec. Qed.

(** ** Writing *)

(** The free blocks to be left for later. *)
Section writing.
Context (r : nat).

(** What a write may do to the disk: the file keeps its blocks and may get new ones;
    blocks in use that are not the file's stay, as do all blocks that are no data,
    but for the free map. *)
Record edit v l v' l' : Prop := {
  ed_wf : wf v' l';
  ed_bit : ∀ y, in_dev sb y → bit v y = true → bit v' y = true;
  ed_same : ∀ n, in_data n → bit v n = true → ¬ uses v l n → v' n = v n;
  ed_meta : ∀ n, ¬ in_data n → n ≠ bmapstart sb → v' n = v n;
  ed_keep : ∀ bn, in_file bn → blk_of v l bn ≠ 0 → blk_of v' l' bn = blk_of v l bn;
  ed_new : ∀ b, uses v' l' b → uses v l b ∨ bit v b = false;
}.
Lemma edit_ext v l v' l' : ext sb v l v' l' → edit v l v' l'.
Proof using Hsb.
  intros [E1 E2 E3 E4 E5 E6 E7 E8]. constructor; try done. intros n Hn Hb Hu. apply E3; try done. intros ->. apply Hu, uses_ind. by apply (data_dev sb Hsb (ind l)).
Qed.
Lemma edit_trans v1 l1 v2 l2 v3 l3 : edit v1 l1 v2 l2 → edit v2 l2 v3 l3 → edit v1 l1 v3 l3.
Proof using Hsb.
  intros [A1 A2 A3 A4 A5 A6] [B1 B2 B3 B4 B5 B6]. constructor; auto.
  - intros n Hn Hb Hu. destruct (data_dev sb Hsb n Hn) as (Hd & Hn0 & _). rewrite B3; auto. intros [?|?]%A6; [done|congruence].
  - intros n Hn Hm. by rewrite B4, A4.
  - intros bn Hbn Hb. rewrite B5, A5; auto. by rewrite A5.
  - intros b Hb3. destruct (data_dev sb Hsb b) as [Hd _]; [by apply (wf_used _ _ _ B1)|]. destruct (B6 b Hb3) as [Hu|Hb]; [by apply A6|]. right.
    destruct (bit v1 b) eqn:E; [|done]. by rewrite (A2 b Hd E) in Hb.
Qed.

(** The bytes of a block of the file. *)
Lemma store_edit v l bn d : wf v l → in_file bn → blk_of v l bn ≠ 0 → edit v l (<[blk_of v l bn := d]> v) l ∧
  (∀ bn', in_file bn' → blk_of (<[blk_of v l bn := d]> v) l bn' = blk_of v l bn') ∧ ∀ y, in_dev sb y → bit (<[blk_of v l bn := d]> v) y = bit v y.
Proof using Hsb.
  intros Hw Hb Hnz. set (a := blk_of v l bn) in *. destruct (wf_used _ _ _ Hw a) as [Ha Hab]; [by apply uses_blk|].
  assert (∀ y, in_dev sb y → bit (<[a := d]> v) y = bit v y) as Hbit. { intros y Hy. unfold S5Bits.bit. rewrite fn_insert_at, decide_False; [done|]. by apply BBLOCK_not_data. }
  assert (ind l ≠ 0 → (<[a := d]> v) (ind l) = v (ind l)) as Hi. { intros _. apply fn_lookup_insert_ne. exact (wf_ind _ _ _ Hw bn Hb Hnz). }
  split; [|split; [|done]]; [|intros; by apply blk_of_same]. constructor.
  - apply (wf_same sb v); try done. intros b Hd. by rewrite Hbit by (by apply data_dev).
  - intros y Hy. by rewrite Hbit.
  - intros n Hn Hu1 Hu. apply fn_lookup_insert_ne. intros <-. by apply Hu, uses_blk.
  - intros n Hn _. apply fn_lookup_insert_ne. by intros <-.
  - intros bn' Hb' _. by apply blk_of_same.
  - intros b Hu. left. by apply (uses_same v (<[a := d]> v)).
Qed.
Lemma fbyte_ext v l v' l' o : wf v l → ext sb v l v' l' → 0 <= o < MAXFILE * BSIZE → blk_of v l (o / BSIZE) ≠ 0 → fbyte v' l' o = fbyte v l o.
Proof using.
  intros Hw He Ho Hnz. assert (in_file (o / BSIZE)) as Hb by (unfold in_file; change MAXFILE with 268 in *; unfold BSIZE in *; dlia). unfold fbyte.
  rewrite (ex_keep _ _ _ _ _ He) by done. destruct (wf_used _ _ _ Hw (blk_of v l (o / BSIZE))) as [Hd Hu]; [by apply uses_blk|]. rewrite (ex_same _ _ _ _ _ He); try done. by apply (wf_ind _ _ _ Hw).
Qed.
(** [bmap] for a file that may be extended. *)
Lemma bmap_any s i ip l v L X bn k : TR (tr s) v none L → has s i ip l → wf v l → in_file bn → meta_used sb v → fits_res sb r v l L X (S k) → (t_quota + 6 <= t_room)%nat →
  ∃ w' v' l' L', s5_bmap sb i bn s = Ret (blk_of v' l' bn, with_tr (with_addrs s ip l') w') ∧ TR w' v' none L' ∧ ext sb v l v' l' ∧ blk_of v' l' bn ≠ 0 ∧
    fits_res sb r v' l' ({[blk_of v' l' bn]} ∪ L') X k.
Proof using Hsb Hone.
  intros Ht Hs Hw Hb Hm Hf Hroom. destruct (decide (blk_of v l bn = 0)) as [Hz|Hz].
  - destruct (bmap_new sb Hsb Hone r s i ip l v L X bn k) as (a & w' & v' & l' & L' & E & Ht' & Hg & Hf'); try done. exists w', v', l', L'. rewrite (gr_blk _ _ _ _ _ _ _ Hg).
    split_and!; try done; [apply Hg|]. by destruct (data_dev sb Hsb a (gr_data _ _ _ _ _ _ _ Hg)) as (_ & ? & _).
  - destruct (bmap_found sb Hsb s i ip l v L bn Ht Hs Hw Hb Hz) as (w' & E & Ht'); [eapply roomy_le; [|by eapply fits_room]; lia|].
    exists w', v, l, L. rewrite (with_addrs_same s i ip l Hs). split_and!; try done; [by apply ext_refl|]. destruct Hf as [Hq Hn]. split; [|lia].
    assert (size (logging sb l ({[blk_of v l bn]} ∪ L) X) <= S (size (logging sb l L X)))%nat; [|lia]. apply (size_more _ _ (blk_of v l bn)). unfold logging. clear. destruct (ind l =? 0); set_solver.
Qed.

(** The bytes [d] have been written at [off]. *)
Record written v l v' l' (off : Z) (d : bytes) : Prop := {
  wr_edit : edit v l v' l';
  wr_have : ∀ o, off <= o < off + Z.of_nat (length d) → blk_of v' l' (o / BSIZE) ≠ 0;
  wr_new : ∀ o, off <= o < off + Z.of_nat (length d) → fbyte v' l' o = nth (Z.to_nat (o - off)) d 0;
  wr_old : ∀ o, 0 <= o < MAXFILE * BSIZE → blk_of v l (o / BSIZE) ≠ 0 → o < off ∨ off + Z.of_nat (length d) <= o → fbyte v' l' o = fbyte v l o;
}.
Lemma in_file_div o : 0 <= o < MAXFILE * BSIZE → in_file (o / BSIZE).
Proof using. unfold in_file. change MAXFILE with 268. unfold BSIZE. dlia. Qed.
Lemma write_nothing v l off : wf v l → written v l v l off [].
Proof using Hsb. intros Hw. constructor; cbn [length]; try lia; try done. by apply edit_ext, ext_refl. Qed.
Lemma written_trans v1 l1 v2 l2 v3 l3 off d1 d2 : 0 <= off → off + Z.of_nat (length (d1 ++ d2)) <= MAXFILE * BSIZE →
  written v1 l1 v2 l2 off d1 → written v2 l2 v3 l3 (off + Z.of_nat (length d1)) d2 → written v1 l1 v3 l3 off (d1 ++ d2).
Proof using Hsb.
  intros H0 Hmax [A1 A2 A3 A4] [B1 B2 B3 B4]. rewrite length_app in *. constructor; try rewrite length_app.
  - by eapply edit_trans.
  - intros o Ho. destruct (Z_lt_le_dec o (off + Z.of_nat (length d1))) as [Hlt|]; [|apply B2; lia]. rewrite (ed_keep _ _ _ _ B1); [apply A2; lia|apply in_file_div; lia|apply A2; lia].
  - intros o Ho. destruct (Z_lt_le_dec o (off + Z.of_nat (length d1))) as [Hlt|].
    + rewrite B4 by (try (apply A2; lia); lia). rewrite A3, app_nth1 by lia. done.
    + rewrite B3, app_nth2 by lia. f_equal. lia.
  - intros o Ho Hb Hr. rewrite B4, A4; try done; try lia. rewrite (ed_keep _ _ _ _ A1); [done|by apply in_file_div|done].
Qed.

(** One turn of the loop: bytes inside one block. *)
Lemma chunk_written v l v1 l1 off x d : wf v l → ext sb v l v1 l1 → 0 <= off → off + Z.of_nat (length x) <= MAXFILE * BSIZE → off mod BSIZE + Z.of_nat (length x) <= BSIZE → (0 < length x)%nat →
  let a := blk_of v1 l1 (off / BSIZE) in a ≠ 0 → Z.of_nat (length (v1 a)) = BSIZE → blit (v1 a) (off mod BSIZE) x = Some d → written v l (<[a := d]> v1) l1 off x.
Proof using Hsb.
  intros Hw He H0 Hmax Hch Hx a Ha Hl Hd. assert (in_file (off / BSIZE)) as Hb by (apply in_file_div; lia). pose proof (ex_wf _ _ _ _ _ He) as Hw1.
  destruct (store_edit v1 l1 _ d Hw1 Hb Ha) as (Hed & Hblk & _). fold a in Hed, Hblk. pose proof (Z.mod_pos_bound off BSIZE ltac:(done)) as Hmod.
  assert (∀ o, 0 <= o < MAXFILE * BSIZE → fbyte (<[a := d]> v1) l1 o = if decide (o / BSIZE = off / BSIZE) then nth (Z.to_nat (o mod BSIZE)) d 0 else fbyte v1 l1 o) as Hbyte.
  { intros o Ho. unfold fbyte. rewrite Hblk by (by apply in_file_div). case_decide as Hc; [rewrite Hc; fold a; by rewrite fn_lookup_insert|].
    rewrite fn_lookup_insert_ne; [done|]. intros E. destruct Hc. symmetry. apply (wf_inj _ _ _ Hw1); try done. by apply in_file_div. }
  assert (∀ o, off <= o < off + Z.of_nat (length x) → o / BSIZE = off / BSIZE ∧ o mod BSIZE = off mod BSIZE + (o - off)) as Hin.
  { intros o Ho. unfold BSIZE in *. revert Ho Hch Hmod. clear. split; dlia. }
  constructor.
  - eapply edit_trans; [by apply edit_ext|done].
  - intros o Ho. destruct (Hin o Ho) as [-> _]. by rewrite Hblk.
  - intros o Ho. destruct (Hin o Ho) as [E1 E2]. rewrite Hbyte, decide_True by (done || lia). rewrite E2, !nth_lookup, (lookup_blit _ _ _ _ _ Hd), decide_True by lia. do 3 f_equal. lia.
  - intros o Ho Hnz Hout. rewrite Hbyte by done. rewrite <- (fbyte_ext v l v1 l1 o) by done. case_decide as Hc; [|done]. unfold fbyte. rewrite Hc. fold a.
    rewrite !nth_lookup, (lookup_blit _ _ _ _ _ Hd), decide_False; [done|]. pose proof (Z.mod_pos_bound o BSIZE ltac:(done)). unfold BSIZE in *. revert Hc Hout H. clear. dlia.
Qed.

(** The number of blocks that [n] bytes at [off] touch. *)
Definition touched (off n : Z) : nat := if n <=? 0 then 0%nat else Z.to_nat ((off + n - 1) / BSIZE - off / BSIZE + 1).

Lemma fits_le v l L X k k' : (k' <= k)%nat → fits_res sb r v l L X k → fits_res sb r v l L X k'.
Proof using. intros Hk [H1 H2]. split; lia. Qed.
Lemma fits_later v l L X k : fits_res sb r v l L X k → may_log L X.
Proof using. intros [Hq _]. unfold may_log. assert (size (X ∪ L) <= size (logging sb l L X))%nat; [|lia]. apply subseteq_size. unfold logging. clear. set_solver. Qed.
Lemma touched_step off n m : 0 <= off → m = Z.min n (BSIZE - off mod BSIZE) → 0 < n → (touched off n = S (touched (off + m) (n - m)))%nat.
Proof using.
  intros H0 Hm Hn. unfold touched. rewrite (proj2 (Z.leb_gt n 0)) by done. pose proof (Z.div_mod off BSIZE ltac:(done)). pose proof (Z.mod_pos_bound off BSIZE ltac:(done)).
  destruct (Z.leb_spec (n - m) 0).
  - rewrite <- (Z.div_unique (off + n - 1) BSIZE (off / BSIZE) (off + n - 1 - BSIZE * (off / BSIZE))) by lia. replace (off / BSIZE - off / BSIZE + 1) with 1 by lia. done.
  - assert (m = BSIZE - off mod BSIZE) as Em by lia. rewrite <- (Z.div_unique (off + m) BSIZE (off / BSIZE + 1) 0) by (unfold BSIZE in *; lia).
    replace (off + m + (n - m) - 1) with (off + n - 1) by lia. assert (off / BSIZE + 1 <= (off + n - 1) / BSIZE); [|lia]. apply Z.div_le_lower_bound; unfold BSIZE in *; lia.
Qed.

Lemma fits_bits v v' l L X k : (∀ y, in_dev sb y → bit v' y = bit v y) → fits_res sb r v l L X k → fits_res sb r v' l L X k.
Proof using.
  intros Hb [H1 H2]. split; [done|]. assert (nfree sb v' = nfree sb v) as ->; [|done]. unfold nfree. f_equal. apply set_eq. intros y. rewrite !elem_of_free.
  split; intros [? E]; (split; [done|]); [by rewrite Hb in E|by rewrite Hb].
Qed.
Lemma roomy_sub (L L' : gset Z) k : L ⊆ L' → roomy none L' k → roomy none L k.
Proof using. intros Hs%subseteq_size. unfold roomy. lia. Qed.
Lemma writei_loop_spec i user ip X n : in_range 32 n → (t_quota + 6 <= t_room)%nat → ∀ fuel s src off tot v l L d, TR (tr s) v none L → has s i ip l → wf v l → meta_used sb v →
  u_bytes (um s) user src d → 0 <= off → 0 <= tot → Z.of_nat (length d) = n - tot → n - tot <= Z.of_nat fuel → off + (n - tot) <= MAXFILE * BSIZE → fits_res sb r v l L X (touched off (n - tot)) →
  ∃ w' v' l' L', writei_loop sb fuel i user src off n tot s = Ret ((n, off + (n - tot)), with_tr (with_addrs s ip l') w') ∧ TR w' v' none L' ∧ written v l v' l' off d ∧ fits_res sb r v' l' L' X 0.
Proof using Hsb Hone HUS.
  intros Hn Hroom. induction fuel as [|fuel IH]; intros s src off tot v l L d Ht Hs Hw Hm Hsrc H0 Htot Hlen Hf Hmax Hfit; cbn [writei_loop];
    (destruct (Z.ltb_spec tot n) as [Hlt|Hge]; cbn [negb]; [|exists (tr s), v, l, L; rewrite (with_addrs_same s i ip l Hs); replace (n - tot) with 0 by lia; destruct d; [|cbn in Hlen; lia];
      split; [replace tot with n by (cbn in Hlen; lia); rewrite Z.add_0_r; by destruct s|split; [done|split; [by apply write_nothing|by eapply fits_le; [|exact Hfit]; lia]]]]).
  { lia. }
  set (bn := off / BSIZE) in *. assert (in_file bn) as Hbn by (apply in_file_div; lia). pose proof (Z.mod_pos_bound off BSIZE ltac:(done)) as Hmod.
  set (m := Z.min (n - tot) (BSIZE - off mod BSIZE)). assert (0 < m) as Hm0 by lia. rewrite (touched_step off (n - tot) m) in Hfit by (done || lia).
  destruct (bmap_any s i ip l v L X bn _ Ht Hs Hw Hbn Hm Hfit Hroom) as (w1 & v1 & l1 & L1 & E1 & Ht1 & He & Hnz & Hfit1). set (a := blk_of v1 l1 bn) in *.
  rewrite (bind_Ret _ _ _ _ _ E1), (proj2 (Z.eqb_neq _ _)) by done. destruct (wf_used _ _ _ (ex_wf _ _ _ _ _ He) a) as [Hbd Hab]; [by apply uses_blk|]. pose proof (dev_range sb Hsb _ (proj1 (data_dev sb Hsb _ Hbd))) as Hdev.
  set (s1 := with_tr (with_addrs s ip l1) w1).
  destruct (TR_bread w1 v1 none L1 a Ht1 Hdev) as (bp & w2 & E2 & Ht2); [done|eapply roomy_le, roomy_sub, (fits_room _ _ _ _ _ _ _ Hroom Hfit1); [lia|clear; set_solver]|].
  rewrite (bind_Ret _ _ _ _ _ (in_tr_Ret _ s1 _ _ E2)).
  assert (u32 (n - tot) = n - tot) as -> by (apply wrap_small; unfold in_range in *; lia).
  assert (u32 (BSIZE - off mod BSIZE) = BSIZE - off mod BSIZE) as -> by (apply wrap_small; unfold in_range, BSIZE in *; lia). fold m.
  destruct (copyin_ok (um s) user src d (Z.to_nat m) Hsrc) as [E3 Hsrc']; [lia|]. rewrite Z2Nat.id in E3, Hsrc' by lia.
  rewrite (bind_Ret _ _ _ _ _ (in_um_Ret _ (with_tr s1 w2) _ _ E3)). set (x := take (Z.to_nat m) d) in *. assert (Z.of_nat (length x) = m) as Hx by (unfold x; rewrite length_take; lia).
  pose proof (TR_data w2 v1 _ _ _ bp Ht2 (lookup_insert_eq _ _ _)) as E4. rewrite (bind_Ret _ _ _ _ _ (in_tr_Ret _ (with_tr s1 w2) _ _ E4)).
  assert (Z.of_nat (length (v1 a)) = BSIZE) as Hla by (by eapply TR_length).
  destruct (blit_is_Some (v1 a) (off mod BSIZE) x) as [d1 Ed1]; [lia|lia|]. rewrite Ed1. cbn [oget]. rewrite (bind_Ret (mret d1) _ _ _ _ eq_refl).
  destruct (TR_put w2 v1 _ L1 a bp d1 Ht2) as (w3 & w4 & E5 & E6 & Ht4); [apply lookup_insert_eq|by rewrite (length_blit _ _ _ _ Ed1)|by eapply data_low|by eapply fits_may|].
  rewrite (bind_Ret _ _ _ _ _ (in_tr_Ret _ (with_tr s1 w2) _ _ E5)). cbn [Z.eqb]. rewrite (bind_Ret _ _ _ _ _ (in_tr_Ret _ (with_tr s1 w3) _ _ E6)).
  destruct (TR_brelse w4 _ none _ _ bp Ht4) as (w5 & E7 & Ht5); [done|]. rewrite (bind_Ret _ _ _ _ _ (in_tr_Ret _ (with_tr s1 w4) _ _ E7)).
  assert (u32 (off + m) = off + m ∧ u32 (tot + m) = tot + m) as [-> ->] by (change (MAXFILE * BSIZE) with 274432 in *; split; apply wrap_small; unfold in_range in *; lia).
  assert (written v l (<[a := d1]> v1) l1 off x) as Hwr by (apply (chunk_written v l v1 l1 off x d1); done || lia).
  destruct (store_edit v1 l1 bn d1 (ex_wf _ _ _ _ _ He) Hbn Hnz) as (Hed & _ & Hbits). fold a in Hed, Hbits.
  destruct (IH (with_tr s1 w5) (u64 (src + m)) (off + m) (tot + m) (<[a := d1]> v1) l1 ({[a]} ∪ L1) (drop (Z.to_nat m) d)) as (w' & v' & l' & L' & E & Ht' & Hwr' & Hfit'); try done; try lia.
  { by apply (with_addrs_has s i ip l). }
  { apply Hed. }
  { eapply meta_used_mono; [done|exact Hm|]. intros y Hy Hyb. rewrite Hbits by done. by apply (ex_bit _ _ _ _ _ He). }
  { rewrite length_drop. lia. }
  { replace (n - (tot + m)) with (n - tot - m) by lia. by eapply fits_bits. }
  replace (off + m + (n - (tot + m))) with (off + (n - tot)) in E by lia. exists w', v', l', L'. split.
  { etrans; [exact E|]. do 2 f_equal. unfold s1. rewrite !with_tr_addrs. by apply (with_addrs_twice (with_tr s w') i ip l). }
  split; [done|]. split; [|done]. rewrite <- (take_drop (Z.to_nat m) d). fold x. eapply written_trans; [done|unfold x; rewrite take_drop; lia|exact Hwr|by rewrite Hx].
Qed.

(** ** Inodes on disk *)

Definition inode_on_disk v (j : Z) : option bytes := sub_bytes (v (IBLOCK j sb)) (DINODE * (j mod IPB)) DINODE.
Definition an_inode (j : Z) : Prop := 0 <= j < ninodes sb.

Lemma IBLOCK_val j : an_inode j → IBLOCK j sb = j / IPB + inodestart sb ∧ 0 <= j / IPB <= (ninodes sb - 1) / IPB.
Proof using Hsb.
  intros Hj. unfold an_inode in Hj. pose proof (data_start_pos sb Hsb). assert (0 <= j / IPB <= (ninodes sb - 1) / IPB) as Hq by (split; [apply Z.div_pos; [lia|done]|apply Z.div_le_mono; [done|lia]]).
  split; [|done]. unfold IBLOCK. apply wrap_small. destruct Hsb. unfold in_range, data_start in *. lia.
Qed.
Lemma IBLOCK_range j : an_inode j → 0 < IBLOCK j sb < bmapstart sb ∧ 0 <= IBLOCK j sb < t_size ∧ ¬ in_data (IBLOCK j sb) ∧ ∀ y, in_dev sb y → BBLOCK y sb ≠ IBLOCK j sb.
Proof using Hsb.
  intros Hj. pose proof (data_start_pos sb Hsb). destruct (IBLOCK_val j Hj) as [-> Hq].
  assert (0 < j / IPB + inodestart sb < bmapstart sb) as Hr by (destruct Hsb; lia). split; [done|]. split; [destruct Hsb; unfold data_start in *; lia|]. split; [unfold S5Bits.in_data; lia|].
  intros y Hy. pose proof (BBLOCK_val sb Hsb y Hy). lia.
Qed.
Lemma dinode_length ip l : length l = 13%nat → Z.of_nat (length (dinode_bytes ip l)) = DINODE.
Proof using. intros Hl. do 13 (destruct l as [|? l]; [done|]). destruct l; [|done]. done. Qed.
Lemma words_byte l : Forall is_byte (mjoin (le_bytes 4 <$> l)).
Proof using. induction l as [|a l IH]; [constructor|]. cbn [fmap list_fmap mjoin]. apply Forall_app. split; [apply le_bytes_byte|done]. Qed.
Lemma dinode_slot j : 0 <= DINODE * (j mod IPB) ∧ DINODE * (j mod IPB) + DINODE <= BSIZE.
Proof using. pose proof (Z.mod_pos_bound j IPB ltac:(done)) as H. change IPB with 16 in *. unfold DINODE, BSIZE. lia. Qed.

Lemma iupdate_run s i ip l v L : TR (tr s) v none L → has s i ip l → length l = 13%nat → an_inode (inum ip) → roomy none L 1 → may_log L {[IBLOCK (inum ip) sb]} →
  ∃ w' d, s5_iupdate sb i s = Ret ((), with_tr s w') ∧ let v' := <[IBLOCK (inum ip) sb := d]> v in TR w' v' none ({[IBLOCK (inum ip) sb]} ∪ L) ∧
    (∀ j, an_inode j → inode_on_disk v' j = if decide (j = inum ip) then Some (dinode_bytes ip l) else inode_on_disk v j) ∧ (blk_bytes v → blk_bytes v').
Proof using Hsb.
  intros Ht Hs Hl Hj Hr Hm. destruct (IBLOCK_range _ Hj) as (_ & Hdev & _ & _). destruct (TR_bread (tr s) v none L _ Ht Hdev) as (bp & w1 & E1 & Ht1); [done|done|].
  unfold s5_iupdate. rewrite (bind_Ret _ _ _ _ _ (get_inode_run s i ip l Hs)), (bind_Ret _ _ _ _ _ (get_addrs_run s i ip l Hs)), (bind_Ret _ _ _ _ _ (in_tr_Ret _ s _ _ E1)).
  rewrite (bind_Ret _ _ _ _ _ (in_tr_Ret _ (with_tr s w1) _ _ (TR_data w1 v _ _ _ bp Ht1 (lookup_insert_eq _ _ _)))).
  assert (Z.of_nat (length (v (IBLOCK (inum ip) sb))) = BSIZE) as Hlb by (by eapply TR_length). pose proof (dinode_length ip l Hl) as Hdl. pose proof (dinode_slot (inum ip)) as Hslot.
  destruct (blit_is_Some (v (IBLOCK (inum ip) sb)) (dinode_off ip) (dinode_bytes ip l)) as [d Ed]; [unfold dinode_off; lia|unfold dinode_off; lia|]. rewrite Ed. cbn [oget]. rewrite (bind_Ret (mret d) _ _ _ _ eq_refl).
  destruct (TR_put w1 v _ L (IBLOCK (inum ip) sb) bp d Ht1) as (w2 & w3 & E2 & E3 & Ht3); [apply lookup_insert_eq|by rewrite (length_blit _ _ _ _ Ed)|pose proof (data_start_pos sb Hsb); destruct (IBLOCK_val _ Hj) as [-> ?]; lia|done|].
  rewrite (bind_Ret _ _ _ _ _ (in_tr_Ret _ (with_tr s w1) _ _ E2)), (bind_Ret _ _ _ _ _ (in_tr_Ret _ (with_tr s w2) _ _ E3)).
  destruct (TR_brelse w3 _ none _ _ bp Ht3) as (w4 & E4 & Ht4); [done|]. exists w4, d. split; [exact (in_tr_Ret _ (with_tr s w3) _ _ E4)|]. split; [done|]. split.
  - intros j Hjj. unfold inode_on_disk. rewrite fn_insert_at. case_decide as Hc; case_decide as Hjn.
    + subst j. pose proof (sub_bytes_blit _ _ _ _ Ed) as Eb. rewrite Hdl in Eb. exact Eb.
    + rewrite Hc. apply (sub_bytes_blit_other _ _ _ _ _ _ Ed). rewrite Hdl. unfold dinode_off. unfold an_inode in *.
      assert (j / IPB = inum ip / IPB) as Hq.
      { destruct (IBLOCK_val j Hjj) as [E1' _], (IBLOCK_val _ Hj) as [E2' _]. lia. }
      pose proof (Z.div_mod j IPB ltac:(done)). pose proof (Z.div_mod (inum ip) IPB ltac:(done)). rewrite Hq in *. unfold DINODE. lia.
    + by subst j.
    + done.
  - intros Hv. apply bytes_insert; [done|]. eapply blit_bytes; [by apply Hv| |exact Ed]. unfold dinode_bytes. rewrite !Forall_app. split_and!; try apply le_bytes_byte.
    apply words_byte.
Qed.

(** The blocks of a file are all its contents depend on. *)
Lemma contents_same v v' l size : (∀ b, uses v l b → v' b = v b) → dense v l size → dense v' l size ∧ contents v' l 0 size = contents v l 0 size.
Proof using.
  intros Hv [Hs Hd]. assert (ind l ≠ 0 → v' (ind l) = v (ind l)) as Hi by (intros; by apply Hv, uses_ind). split; [split; [done|]; intros bn H1 H2; rewrite (blk_of_same v v' l bn Hi); by apply Hd|].
  unfold contents. apply list_fmap_ext. intros k o Ho. apply list_elem_of_lookup_2, elem_of_seqZ in Ho. unfold fbyte. rewrite (blk_of_same v v' l _ Hi), Hv; [done|].
  apply uses_blk; [apply in_file_div; lia|]. apply Hd; [by apply Z.div_pos; [lia|]|]. unfold BSIZE. dlia.
Qed.
(** Writing an inode block leaves the files alone. *)
Lemma inode_block_store v l j d : an_inode j → wf v l → let v' := <[IBLOCK j sb := d]> v in
  wf v' l ∧ (∀ b, uses v' l b ↔ uses v l b) ∧ (∀ y, in_dev sb y → bit v' y = bit v y) ∧ ∀ size, dense v l size → dense v' l size ∧ contents v' l 0 size = contents v l 0 size.
Proof using Hsb.
  intros Hj Hw v'. destruct (IBLOCK_range j Hj) as (_ & _ & Hnd & Hbb). assert (∀ b, in_data b → v' b = v b) as Hv' by (intros b Hb; apply fn_lookup_insert_ne; by intros <-).
  assert (∀ y, in_dev sb y → bit v' y = bit v y) as Hbit by (intros y Hy; unfold S5Bits.bit, v'; rewrite fn_lookup_insert_ne; [done|]; apply not_eq_sym; by apply Hbb).
  assert (ind l ≠ 0 → v' (ind l) = v (ind l)) as Hi by (intros; by apply Hv', (wf_used _ _ _ Hw), uses_ind). split; [|split; [|split; [done|]]].
  - apply (wf_same sb v); try done. intros b Hb. by rewrite Hbit by (by apply data_dev).
  - intros b. by apply uses_same.
  - intros size. apply contents_same. intros b Hu. by apply Hv', (wf_used _ _ _ Hw).
Qed.

(** ** The theorem *)

(** Another file, that shares no block with this one. *)
Definition apart v l lo : Prop := wf v lo ∧ ∀ b, uses v lo b → ¬ uses v l b.

Lemma apart_edit v l v' l' lo : edit v l v' l' → apart v l lo → apart v' l' lo ∧ ∀ size, dense v lo size → dense v' lo size ∧ contents v' lo 0 size = contents v lo 0 size.
Proof using Hsb.
  intros [E1 E2 E3 E4 E5 E6] [Hw Ha]. assert (∀ b, uses v lo b → v' b = v b) as Hsame by (intros b Hu; destruct (wf_used _ _ _ Hw b Hu); apply E3; auto).
  assert (ind lo ≠ 0 → v' (ind lo) = v (ind lo)) as Hi by (intros; by apply Hsame, uses_ind). split; [split|].
  - apply (wf_same sb v); try done. intros b Hd. apply E2. by apply data_dev.
  - intros b Hu Hu'. apply (uses_same v v' lo b Hi) in Hu. apply E6 in Hu' as [Hu'|Hf]; [by eapply Ha|]. destruct (wf_used _ _ _ Hw b Hu). congruence.
  - intros size. by apply contents_same.
Qed.
(** The contents of a file of which some bytes were written. *)
Lemma contents_written v l v' l' off d size : dense v l size → 0 <= off <= size → off + Z.of_nat (length d) <= MAXFILE * BSIZE → written v l v' l' off d → let n := Z.of_nat (length d) in
  dense v' l' (Z.max size (off + n)) ∧ contents v' l' 0 (Z.max size (off + n)) = contents v l 0 off ++ d ++ contents v l (off + n) (size - (off + n)).
Proof using.
  intros [Hs Hd] Ho Hmax [He Hh Hn Hold] n. assert (∀ o, 0 <= o < size → blk_of v l (o / BSIZE) ≠ 0) as Hb.
  { intros o Hr. apply Hd; [by apply Z.div_pos; [lia|]|]. unfold BSIZE. dlia. } split.
  - split; [lia|]. intros bn H1 H2. destruct (Z_lt_le_dec (bn * BSIZE) size) as [Hlt|Hge]; [rewrite (ed_keep _ _ _ _ He); [by apply Hd| |by apply Hd]; unfold in_file; unfold BSIZE in *; lia|].
    rewrite <- (Z.div_mul bn BSIZE) by done. apply Hh. lia.
  - assert (contents v' l' 0 (Z.max size (off + n)) = contents v' l' 0 off ++ contents v' l' off n ++ contents v' l' (off + n) (Z.max size (off + n) - (off + n))) as ->.
    { unfold contents. rewrite <- !fmap_app, <- seqZ_app by lia. change off with (0 + off) at 3. rewrite <- seqZ_app by lia. do 2 f_equal. lia. }
    assert (∀ a k, 0 <= a → a + k <= size → a + k <= off ∨ off + n <= a → contents v' l' a k = contents v l a k) as Hout.
    { intros a k H1 H2 H3. unfold contents. apply list_fmap_ext. intros j o Hj. apply list_elem_of_lookup_2, elem_of_seqZ in Hj. apply Hold; [lia|apply Hb; lia|lia]. }
    rewrite Hout by lia. f_equal. f_equal.
    + apply list_eq. intros j. unfold contents. rewrite list_lookup_fmap. destruct (decide (j < length d)%nat) as [Hj|Hj].
      * rewrite lookup_seqZ_lt by lia. cbn [fmap option_fmap option_map]. rewrite Hn by lia. replace (off + Z.of_nat j - off) with (Z.of_nat j) by lia. rewrite Nat2Z.id.
        destruct (lookup_lt_is_Some_2 d j Hj) as [x Hx]. by rewrite (nth_lookup_Some _ _ _ _ Hx).
      * rewrite lookup_seqZ_ge, lookup_ge_None_2 by lia. done.
    + destruct (Z_lt_le_dec size (off + n)); [unfold contents; by rewrite !seqZ_nil by lia|]. rewrite Z.max_l by lia. apply Hout; lia.
Qed.

Lemma writei_spec s i ip l v L user src off d : TR (tr s) v none L → has s i ip l → wf v l → dense v l (i_size ip) → meta_used sb v → an_inode (inum ip) →
  u_bytes (um s) user src d → 0 <= off <= i_size ip → off + Z.of_nat (length d) <= MAXFILE * BSIZE →
  fits_res sb r v l L {[IBLOCK (inum ip) sb]} (touched off (Z.of_nat (length d))) → (t_quota + 6 <= t_room)%nat →
  let n := Z.of_nat (length d) in let size := Z.max (i_size ip) (off + n) in let ip' := set_size size ip in
  ∃ w' v' l' L', s5_writei sb i user src off n s = Ret (n, S5 w' (um s) (<[i := ip']> (itable s)) (pool (with_addrs s ip l'))) ∧ TR w' v' none L' ∧
    wf v' l' ∧ dense v' l' size ∧ contents v' l' 0 size = contents v l 0 off ++ d ++ contents v l (off + n) (i_size ip - (off + n)) ∧
    (∀ j, an_inode j → inode_on_disk v' j = if decide (j = inum ip) then Some (dinode_bytes ip' l') else inode_on_disk v j) ∧
    (∀ lo, apart v l lo → apart v' l' lo ∧ ∀ z, dense v lo z → dense v' lo z ∧ contents v' lo 0 z = contents v lo 0 z) ∧
    (∀ y, in_dev sb y → bit v y = true → bit v' y = true) ∧ IBLOCK (inum ip) sb ∈ L' ∧ (extra l' + r <= nfree sb v')%nat.
Proof using Hsb Hone HUS.
  intros Ht Hs Hw Hdn Hm Hj Hsrc Ho Hmax Hfit Hroom n size ip'. pose proof (proj1 Hdn) as Hsz.
  change (MAXFILE * BSIZE) with 274432 in *. assert (0 <= n) as Hn0 by lia.
  unfold s5_writei. rewrite (bind_Ret _ _ _ _ _ (get_inode_run s i ip l Hs)). assert (u32 (off + n) = off + n) as -> by (apply wrap_small; unfold in_range; lia).
  rewrite (proj2 (Z.ltb_ge _ _)), (proj2 (Z.ltb_ge (off + n) off)) by lia. cbn [orb]. rewrite (proj2 (Z.ltb_ge (MAXFILE * BSIZE) _)) by (change (MAXFILE * BSIZE) with 274432; lia).
  destruct (writei_loop_spec i user ip {[IBLOCK (inum ip) sb]} n) with (fuel := Z.to_nat n) (s := s) (src := src) (off := off) (tot := 0) (v := v) (l := l) (L := L) (d := d)
    as (w1 & v1 & l1 & L1 & E1 & Ht1 & Hwr & Hfit1); try done; try lia; [unfold in_range; lia|change (MAXFILE * BSIZE) with 274432; lia|by rewrite Z.sub_0_r|]. rewrite Z.sub_0_r in E1.
  rewrite (bind_Ret _ _ _ _ _ E1). cbn beta iota. pose proof (with_addrs_has s i ip l l1 Hs : has (with_tr (with_addrs s ip l1) w1) i ip l1) as Hs1. rewrite (bind_Ret _ _ _ _ _ (get_inode_run _ i ip l1 Hs1)).
  set (s2 := S5 w1 (um s) (<[i := ip']> (itable s)) (pool (with_addrs s ip l1))).
  assert ((if i_size ip <? off + n then upd_inode i (set_size (off + n)) else mret ()) (with_tr (with_addrs s ip l1) w1) = Ret ((), s2)) as E2.
  { destruct Hs as [Hi _]. unfold s2, ip', size. destruct (Z.ltb_spec (i_size ip) (off + n)).
    - unfold upd_inode, modify. cbn. rewrite (alter_insert _ _ _ _ Hi). rewrite Z.max_r by lia. done.
    - rewrite Z.max_l, list_insert_id by (try lia; rewrite Hi; by destruct ip). done. }
  rewrite (bind_Ret _ _ _ _ _ E2). assert (has s2 i ip' l1) as Hs2.
  { destruct Hs1 as [Hi [u Hp]]. split; [|by exists u]. apply list_lookup_insert_eq. by eapply lookup_lt_Some, Hs. }
  destruct (contents_written v l v1 l1 off d (i_size ip) Hdn Ho Hmax Hwr) as [Hdn1 Hc1]. fold n in Hdn1, Hc1. fold size in Hdn1, Hc1. pose proof (ed_wf _ _ _ _ (wr_edit _ _ _ _ _ _ Hwr)) as Hw1.
  destruct (iupdate_run s2 i ip' l1 v1 L1 Ht1 Hs2) as (w2 & d2 & E3 & Ht2 & Hdisk & _); [by destruct Hw1|done|eapply roomy_le, fits_room; [|exact Hroom|exact Hfit1]; lia|by eapply fits_later|].
  rewrite (bind_Ret _ _ _ _ _ E3). cbn zeta in Hdisk, Ht2. change (inum ip') with (inum ip) in *. set (v2 := <[IBLOCK (inum ip) sb := d2]> v1) in *.
  exists w2, v2, l1, ({[IBLOCK (inum ip) sb]} ∪ L1). destruct (inode_block_store v1 l1 (inum ip) d2 Hj Hw1) as (Hw2 & Hu2 & Hb2 & Hc2). destruct (Hc2 _ Hdn1) as [Hdn2 Hc2'].
  assert (∀ y, in_dev sb y → bit v y = true → bit v2 y = true) as Hbit by (intros y Hy Hyb; rewrite Hb2 by done; by apply (ed_bit _ _ _ _ (wr_edit _ _ _ _ _ _ Hwr))).
  split; [|split_and!]; try done.
  - unfold mret, M_ret. do 2 f_equal. apply swrap_small; lia.
  - etrans; [exact Hc2'|done].
  - intros j Hjj. rewrite Hdisk by done. case_decide; [done|]. unfold inode_on_disk. destruct (IBLOCK_range j Hjj) as (Hr & _ & Hnd & _). rewrite (ed_meta _ _ _ _ (wr_edit _ _ _ _ _ _ Hwr)); [done|done|lia].
  - intros lo Hlo. destruct (apart_edit _ _ _ _ lo (wr_edit _ _ _ _ _ _ Hwr) Hlo) as [Hap Hcz]. destruct (inode_block_store v1 lo (inum ip) d2 Hj (proj1 Hap)) as (Hwo & Huo & _ & Hco). split.
    + split; [done|]. intros b Hub Hub'. apply (proj2 Hap b); [by apply Huo|by apply Hu2].
    + intros z Hz. destruct (Hcz z Hz) as [Hz1 E4]. destruct (Hco z Hz1) as [Hz2 E5]. split; [done|]. by etrans; [exact E5|].
  - clear. set_solver.
  - apply (fits_bits v1 v2) in Hfit1 as [_ Hfree]; [|exact Hb2]. lia.
Qed.
End writing.

(** C3: in a transaction with room for the blocks touched, [s5_writei] writes all the
    bytes: the file has the old contents with the new bytes at their offset, and is
    longer if they end behind it; its inode on disk says so, and no other inode on
    disk, no other file and no block marked in use changes. *)
Theorem writei_correct s i ip l v L user src off d : TR (tr s) v none L → has s i ip l → wf v l → dense v l (i_size ip) → meta_used sb v → an_inode (inum ip) →
  u_bytes (um s) user src d → 0 <= off <= i_size ip → off + Z.of_nat (length d) <= MAXFILE * BSIZE →
  fits sb v l L {[IBLOCK (inum ip) sb]} (touched off (Z.of_nat (length d))) → (t_quota + 6 <= t_room)%nat →
  let n := Z.of_nat (length d) in let size := Z.max (i_size ip) (off + n) in let ip' := set_size size ip in
  ∃ w' v' l' L', s5_writei sb i user src off n s = Ret (n, S5 w' (um s) (<[i := ip']> (itable s)) (pool (with_addrs s ip l'))) ∧ TR w' v' none L' ∧
    wf v' l' ∧ dense v' l' size ∧ contents v' l' 0 size = contents v l 0 off ++ d ++ contents v l (off + n) (i_size ip - (off + n)) ∧
    (∀ j, an_inode j → inode_on_disk v' j = if decide (j = inum ip) then Some (dinode_bytes ip' l') else inode_on_disk v j) ∧
    (∀ lo, apart v l lo → apart v' l' lo ∧ ∀ z, dense v lo z → dense v' lo z ∧ contents v' lo 0 z = contents v lo 0 z) ∧
    (∀ y, in_dev sb y → bit v y = true → bit v' y = true) ∧ IBLOCK (inum ip) sb ∈ L'.
Proof using Hsb Hone HUS.
  intros Ht Hs Hw Hdn Hm Hj Hsrc Ho Hmax Hf%fits_res_0 Hroom n size ip'.
  destruct (writei_spec 0 s i ip l v L user src off d Ht Hs Hw Hdn Hm Hj Hsrc Ho Hmax Hf Hroom) as (w' & v' & l' & L' & E & H1 & H2 & H3 & H4 & H5 & H6 & H7 & H8 & _). by exists w', v', l', L'.
Qed.
End io.
