(* ===== verification/S5Log.v ===== *)
(** * Files on the log

    The file system of [S5] over the log of [Log]: a write to a file that ends with
    [end_op] happens entirely or not at all, wherever the machine stops
    ([file_write_atomic]). [demo] is a machine with the disk that mkfs makes and a
    file on it, for the concrete runs of this and the other theorems. *)
From S2P Require Import Prelude BlockCache Bio Log LogBio Trans TransLog S5 S5Bits S5Map S5Io.

Section atomic.
Context {C B U : Type} `{BlockCacheSpec C B} `{HU : UserMem U} `{HUS : !UserMemSpec U} (st : Z) (D : Z → block) (h : list (Z * block)).
Local Instance on_log : TransSpec (lsys C) (B * Z) := log_trans_spec st D h.
Context (sb : s5_superblock) (Hsb : sb_ok t_low t_size sb) (Hone : s5_size sb <= BPB).

(** An operation begins on the disk [D], after the writes [h]. *)
Definition begun (w : lsys C) : Prop := log_holds st D h w (TState ∅ D ∅ ∅).
(** The inode [ip] and its file are on the disk [d]; [c] is what the file holds. *)
Definition stored (d : Z → block) (ip : inode) (l : list Z) (c : bytes) : Prop :=
  inode_on_disk sb d (inum ip) = Some (dinode_bytes ip l) ∧ contents d l 0 (i_size ip) = c.

Lemma in_data_outside b : in_data sb b → 0 <= st → outside st b.
Proof using Hsb.
  intros Hb Hst. pose proof (data_low sb Hsb b Hb) as Hl. cbn in Hl. destruct (data_dev sb Hsb b Hb) as (Hd & _). pose proof (dev_range sb Hsb b Hd) as Hr. split; [exact Hr|by right].
Qed.
Lemma stored_same v d ip l c : 0 <= st → an_inode sb (inum ip) → wf sb v l → dense v l (i_size ip) → (∀ m, outside st m → d m = v m) → stored v ip l c → stored d ip l c.
Proof using Hsb.
  intros Hst Hj Hw Hd Hout [H1 H2]. split.
  - unfold inode_on_disk in *. rewrite Hout; [done|]. destruct (IBLOCK_range sb Hsb _ Hj) as (_ & Hr & _). split; [exact Hr|]. right. destruct (IBLOCK_val sb Hsb _ Hj) as [-> ?].
    pose proof (data_start_pos sb Hsb) as [_ Hlow]. cbn in Hlow. lia.
  - destruct (contents_same v d l (i_size ip)) as [_ ->]; [|done..]. intros b Hu. apply Hout, in_data_outside; [|done]. by apply (wf_used _ _ _ Hw).
Qed.

(** C2: a write that is an operation of its own, [s5_writei] and then [end_op], is
    atomic: whatever write of the commit ([ws], which the disk's history ends with)
    the machine dies at, after recovery the
    inode and the contents on the disk are both the old ones or both the new ones;
    every other file has its contents. *)
Theorem file_write_atomic (s : s5 (lsys C) U) i ip l user src off d : 0 <= st → begun (tr s) → has s i ip l → wf sb D l → meta_used sb D → an_inode sb (inum ip) →
  dense D l (i_size ip) → inode_on_disk sb D (inum ip) = Some (dinode_bytes ip l) → header_blocks (D st) = Some [] →
  u_bytes (um s) user src d → 0 <= off <= i_size ip → off + Z.of_nat (length d) <= MAXFILE * BSIZE → fits sb D l ∅ {[IBLOCK (inum ip) sb]} (touched off (Z.of_nat (length d))) →
  let n := Z.of_nat (length d) in let ip' := set_size (Z.max (i_size ip) (off + n)) ip in
  let old := contents D l 0 (i_size ip) in let new := contents D l 0 off ++ d ++ contents D l (off + n) (i_size ip - (off + n)) in
  ∃ s1 w2 a2 ws l', s5_writei sb i user src off n s = Ret (n, s1) ∧ end_op (tr s1) = Ret ((), w2) ∧ bc_rep (cache w2) a2 ∧ a_hist a2 = h ++ ws ∧
    ∀ k (c0 : C) a0 g0, fresh c0 a0 (after D (take k ws)) → start g0 = st → Z.of_nat (length (lh_block g0)) = LOGSIZE →
      ∃ w3 a1, recover_from_log (LSys g0 c0) = Ret ((), w3) ∧ bc_rep (cache w3) a1 ∧
        (stored (a_disk a1) ip l old ∨ stored (a_disk a1) ip' l' new) ∧
        ∀ lo z, apart sb D l lo → dense D lo z → contents (a_disk a1) lo 0 z = contents D lo 0 z.
Proof using Hsb Hone HUS.
  intros Hst Hb Hs Hw Hm Hj Hd Hi Hh Hsrc Ho Hmax Hf n ip' old new. assert (TR (tr s) D ∅ ∅) as Ht by (exists (TState ∅ D ∅ ∅); done).
  destruct (writei_spec sb Hsb Hone 0 s i ip l D ∅ user src off d) as (w' & v' & l' & L' & E & (t & Hrep & Hv & Hhd & HL & Hdirty) & Hw' & Hd' & Hc' & Hi' & Hlo & _ & Hin & _); try done; [by apply fits_res_0|cbn; lia|]. fold n in E, Hd', Hc', Hi'. fold new in Hc'.
  destruct (end_op_run st D h w' t Hrep Hhd) as (w2 & a2 & ws & E2 & Hrest & Hhist & _ & _ & Hcrash); [set_solver|by rewrite HL|done|].
  eexists _, w2, a2, ws, l'. split; [exact E|]. split; [exact E2|]. split; [apply Hrest|]. split; [exact Hhist|]. intros k c0 a0 g0 Hfr Hg Hl. destruct (Hcrash k c0 a0 g0 Hfr Hg Hl) as (w3 & a1 & E3 & Ha1 & Hres).
  exists w3, a1. split; [done|]. split; [done|]. rewrite Hv in Hres. split.
  - destruct Hres as [Hres|Hres]; [left; by apply (stored_same D)|right]. apply (stored_same v'); try done. split; [|done]. rewrite Hi' by done. by rewrite decide_True.
  - intros lo z Hap Hz. destruct (Hlo lo Hap) as [[Hwo _] Hcz]. destruct (Hcz z Hz) as [Hz' Ec]. destruct Hres as [Hres|Hres].
    + apply contents_same; [|done]. intros b Hu. apply Hres, in_data_outside; [|done]. by apply (wf_used _ _ _ (proj1 Hap)).
    + rewrite <- Ec. apply contents_same; [|done]. intros b Hu. apply Hres, in_data_outside; [|done]. by apply (wf_used _ _ _ Hwo).
Qed.
End atomic.

(** ** A machine *)

(** Memory as a function from addresses, every address in use. *)
Fixpoint store (a : Z) (d : bytes) (u : Z → Z) : Z → Z :=
  match d with [] => u | x :: d => store (u64 (a + 1)) d (<[u64 a := x]> u) end.
#[global] Instance plain_mem : UserMem (Z → Z) := {
  either_copyout _ a d u := Ret (0, store a d u);
  either_copyin _ a n u := Ret ((0, (λ k, u (u64 (a + k))) <$> seqZ 0 n), u);
}.
Lemma store_app d1 : ∀ a d2 u, store a (d1 ++ d2) u = store (u64 (a + Z.of_nat (length d1))) d2 (store a d1 u).
Proof.
  assert (∀ d a u, store (u64 a) d u = store a d u) as Hw by (intros [|x d] a u; cbn [store]; [done|]; by autorewrite with word).
  induction d1 as [|x d1 IH]; intros a d2 u; cbn [store app length].
  - by rewrite Z.add_0_r, Hw.
  - rewrite IH. f_equal. autorewrite with word. f_equal. lia.
Qed.
Definition plain_bytes (u : Z → Z) (user : bool) (a : Z) (d : bytes) : Prop := ∀ k : nat, (k < length d)%nat → d !! k = Some (u (u64 (a + Z.of_nat k))).
Lemma plain_app (u u1 u2 : Z → Z) (user : bool) a d1 d2 : u1 = store a d1 u → u2 = store (u64 (a + Z.of_nat (length d1))) d2 u1 → u2 = store a (d1 ++ d2) u.
Proof. intros -> ->. by rewrite store_app. Qed.
Lemma plain_out (u : Z → Z) (user : bool) a d : ∃ r u', either_copyout user a d u = Ret (r, u') ∧ (r = 0 ∧ u' = store a d u ∨ r = -1) ∧
  ∀ k : Z, 0 <= k → True → r = 0 ∧ True.
Proof. exists 0, (store a d u). split; [done|]. split; [by left|]. done. Qed.
Lemma plain_take (u : Z → Z) user a d (m : nat) : plain_bytes u user a d → plain_bytes u user a (take m d).
Proof. intros Hd k Hk. rewrite length_take in Hk. rewrite lookup_take_lt by lia. apply Hd. lia. Qed.
Lemma plain_in u user a d (m : nat) : plain_bytes u user a d → (m <= length d)%nat →
  either_copyin user a (Z.of_nat m) u = Ret ((0, take m d), u) ∧ plain_bytes u user (u64 (a + Z.of_nat m)) (drop m d).
Proof.
  intros Hd Hm. split.
  - cbn. do 3 f_equal. apply list_eq. intros k. rewrite list_lookup_fmap. destruct (decide (k < m)%nat).
    + rewrite lookup_seqZ_lt by lia. rewrite lookup_take_lt by lia. rewrite Hd by lia. done.
    + rewrite lookup_seqZ_ge by lia. rewrite lookup_take_ge by lia. done.
  - intros k Hk. rewrite length_drop in Hk. rewrite lookup_drop, Hd by lia. do 2 f_equal. autorewrite with word. f_equal. lia.
Qed.
#[global] Instance plain_mem_spec : UserMemSpec (Z → Z) := {
  u_out u user a d u' := u' = store a d u; u_open _ _ _ _ := True; u_bytes := plain_bytes;
  u_out_nil u user a := eq_refl; u_out_app := plain_app; copyout_ok := plain_out; copyin_ok := plain_in; u_bytes_take := plain_take;
}.

(** The geometry of mkfs.c, and inode 5, a file of 10 bytes in block 46. *)
Definition demo_sb : s5_superblock := S5Sb 1500 1454 200 30 2 32 45.
Definition demo_ip : inode := Inode 5 1 true true 0 T_FILE 0 0 1 10.
Definition demo_l : list Z := 46 :: replicate 12 0.
Definition demo_map : block := [255; 255; 255; 255; 255; 127] ++ replicate 1018 0.
Definition demo_inodes : block := replicate 320 0 ++ dinode_bytes demo_ip demo_l ++ replicate 640 0.
Definition demo_disk : list block := replicate 32 zero_block ++ [demo_inodes] ++ replicate 12 zero_block ++ [demo_map] ++ replicate 1454 zero_block.
Definition demo (n : Z) : block := default [] (demo_disk !! Z.to_nat n).
Definition demo_log : log_t := Log 2 LOGSIZE 1 false ROOTDEV 0 (replicate (Z.to_nat LOGSIZE) 0).

Lemma demo_sb_ok : sb_ok 32 FSSIZE demo_sb.
Proof. constructor; cbn; unfold FSSIZE; try lia; done. Qed.
Lemma demo_blk bn : in_file bn → blk_of demo demo_l bn = if decide (bn = 0) then 46 else 0.
Proof.
  intros Hb. unfold in_file in Hb. unfold blk_of. change NDIRECT with 12. destruct (Z.ltb_spec bn 12); [|rewrite decide_False by lia; done].
  case_decide as Hc; [by subst|]. unfold demo_l. replace (Z.to_nat bn) with (S (Z.to_nat (bn - 1))) by lia. cbn [nth]. rewrite nth_lookup.
  destruct (replicate 12 0 !! Z.to_nat (bn - 1)) eqn:E; [|done]. by apply lookup_replicate in E as [-> _].
Qed.
Lemma demo_uses b : uses demo demo_l b → b = 46.
Proof. intros [H0 [->|(bn & Hb & E)]]; [done|]. rewrite demo_blk in E by done. case_decide; congruence. Qed.
Lemma demo_wf : wf demo_sb demo demo_l.
Proof.
  constructor.
  - done.
  - intros b ->%demo_uses. split; [split; done|]. reflexivity.
  - intros bn Hb. rewrite demo_blk by done. by case_decide.
  - intros bn bn' Hb Hb'. rewrite !demo_blk by done. by repeat case_decide; subst.
Qed.
Lemma demo_dense : dense demo demo_l (i_size demo_ip).
Proof. split; [done|]. intros bn H1 H2. unfold BSIZE in H2. cbn in H2. replace bn with 0 by lia. done. Qed.
Lemma demo_meta : meta_used demo_sb demo.
Proof.
  assert (forallb (bit demo_sb demo) (seqZ 0 46) = true) as Hall by reflexivity. intros b Hb. change (data_start demo_sb) with 46 in Hb.
  rewrite forallb_forall in Hall. apply Hall. apply list_elem_of_In, elem_of_seqZ. lia.
Qed.
#[local] Existing Instance cache1.
#[local] Existing Instance cache1_spec.
Lemma demo_boot : ∃ c : bsys (), bc_rep c (AState (λ _, 0) (λ _, None) demo demo 30 []).
Proof.
  destruct (bio_boot 1 (BSys (replicate (S NBUF) buf0) demo_disk () []) buf0 demo_disk) as (s & _ & Hs); try reflexivity; [|exists s; exact Hs].
  repeat (apply Forall_app; split); try (by apply Forall_replicate); by constructor.
Qed.
Lemma demo_begun c : bc_rep c (AState (λ _, 0) (λ _, None) demo demo 30 []) → begun 2 demo [] (LSys demo_log c).
Proof.
  intros Hc. eexists _, []. constructor; try done.
  - by apply placed_nil.
  - cbn. lia.
Qed.

(** The file in memory, and "abcd" at address 64. *)
Definition demo_mem : Z → Z := store 64 [97; 98; 99; 100] (λ _, 0).
Definition demo_s (c : bsys ()) : s5 (lsys (bsys ())) (Z → Z) := S5 (LSys demo_log c) demo_mem [demo_ip] [S5Inode true demo_l].
Lemma demo_has c : has (demo_s c) 0 demo_ip demo_l.
Proof. split; [done|]. by exists true. Qed.
Lemma demo_bytes : plain_bytes demo_mem false 64 [97; 98; 99; 100].
Proof. intros [|[|[|[|k]]]] Hk; try reflexivity. cbn in Hk. lia. Qed.
Lemma demo_fits (k : nat) : (k <= 10)%nat → fits (HS := log_trans_spec 2 demo []) demo_sb demo demo_l ∅ {[IBLOCK 5 demo_sb]} k.
Proof.
  intros Hk. split.
  - change (extra demo_l) with 1%nat. assert (base.size (logging demo_sb demo_l ∅ {[IBLOCK 5 demo_sb]}) = 2)%nat as ->; [reflexivity|cbn; lia].
  - change (extra demo_l) with 1%nat. unfold nfree. assert (base.size (list_to_set (seqZ 100 11) : gset Z) <= base.size (free_set demo_sb demo))%nat as Hs; [|rewrite size_list_to_set in Hs by apply NoDup_seqZ; rewrite length_seqZ in Hs; lia].
    apply subseteq_size. intros b Hb%elem_of_list_to_set. apply elem_of_free. assert (forallb (λ b, negb (bit demo_sb demo b)) (seqZ 100 11) = true) as Hall by reflexivity.
    rewrite forallb_forall in Hall. specialize (Hall b (proj1 (list_elem_of_In _ _) Hb)). apply elem_of_seqZ in Hb. split; [unfold in_dev; cbn; lia|]. by apply negb_true_iff.
Qed.

Lemma file_write_atomic_witness : ∃ (c : bsys ()) s1 w2, begun 2 demo [] (tr (demo_s c)) ∧
  s5_writei demo_sb 0 false 64 8 4 (demo_s c) = Ret (4, s1) ∧ end_op (tr s1) = Ret ((), w2).
Proof.
  destruct demo_boot as [c Hc]. pose proof (demo_begun c Hc) as Hb.
  destruct (file_write_atomic 2 demo [] demo_sb demo_sb_ok ltac:(done) (demo_s c) 0 demo_ip demo_l false 64 8 [97; 98; 99; 100]) as (s1 & w2 & _ & _ & _ & E1 & E2 & _);
    [done|exact Hb|apply demo_has|exact demo_wf|exact demo_meta|done|exact demo_dense|reflexivity|reflexivity|exact demo_bytes|done|done|apply demo_fits, Nat.leb_le; reflexivity|].
  exists c, s1, w2. split; [exact Hb|]. split; [exact E1|exact E2].
Defined.

Lemma writei_correct_witness : ∃ (c : bsys ()) s1 v' l', s5_writei demo_sb 0 false 64 8 4 (demo_s c) = Ret (4, s1) ∧ contents v' l' 0 12 = [0; 0; 0; 0; 0; 0; 0; 0; 97; 98; 99; 100].
Proof.
  destruct demo_boot as [c Hc]. pose proof (demo_begun c Hc) as Hb.
  destruct (writei_correct (HS := log_trans_spec 2 demo []) demo_sb demo_sb_ok ltac:(done) (demo_s c) 0 demo_ip demo_l demo ∅ false 64 8 [97; 98; 99; 100]) as (w' & v' & l' & L' & E & _ & _ & _ & Ec & _);
    [by exists (TState ∅ demo ∅ ∅)|apply demo_has|exact demo_wf|exact demo_dense|exact demo_meta|done|exact demo_bytes|done|done|apply demo_fits, Nat.leb_le; reflexivity|cbn; lia|].
  eexists c, _, v', l'. split; [exact E|]. etrans; [exact Ec|]. reflexivity.
Defined.

Lemma readi_correct_witness : ∃ (c : bsys ()) s1, s5_readi demo_sb 0 false 64 6 100 (demo_s c) = Ret (4, s1) ∧ um s1 = store 64 [0; 0; 0; 0] demo_mem.
Proof.
  destruct demo_boot as [c Hc]. pose proof (demo_begun c Hc) as Hb.
  destruct (readi_correct (HS := log_trans_spec 2 demo []) demo_sb demo_sb_ok (demo_s c) 0 demo_ip demo_l demo ∅ false 64 6 100) as (r & s1 & E & _ & _ & _ & Hr & Hopen);
    [by exists (TState ∅ demo ∅ ∅)|apply demo_has|exact demo_wf|exact demo_dense|done|done|unfold roomy; rewrite size_empty, map_size_empty; cbn; lia|].
  change (readable (i_size demo_ip) 6 100) with 4 in *. rewrite (Hopen I) in *. exists c, s1. split; [exact E|]. destruct Hr as [[_ Hr]|Hr]; [exact Hr|done].
Defined.
