(* ===== verification/S5Inode.v ===== *)
(** * Inodes: [ilock] and [itrunc] of [kernel/s5.c]

    [ilock] finds what [iupdate] wrote ([ilock_correct]); [itrunc] gives back every
    block of a file and no other ([itrunc_correct]). *)
From S2P Require Import Prelude BlockCache Bio Log LogBio Trans TransLog S5 S5Bits S5Map S5Io S5Log.

(** ** Fields of an inode on disk *)

Lemma sub_bytes_sub d o n x a m : sub_bytes d o n = Some x → 0 <= a → 0 <= m → a + m <= n → sub_bytes d (o + a) m = sub_bytes x a m.
Proof.
  intros Hx Ha Hm Hn. pose proof (length_sub_bytes _ _ _ _ Hx) as Hl. revert Hx. unfold sub_bytes. destruct (_ && _) eqn:E; intros [= <-].
  replace (_ && _) with true by lia. replace (_ && _) with true by (symmetry; rewrite !andb_true_iff, !Z.leb_le; rewrite length_take, length_drop in *; lia).
  f_equal. apply list_eq. intros k. destruct (decide (k < Z.to_nat m)%nat); [|by rewrite !lookup_take_ge by lia].
  rewrite !lookup_take_lt, !lookup_drop, lookup_take_lt, lookup_drop by lia. f_equal. lia.
Qed.

(** The fields have their widths. *)
Record inode_ok (ip : inode) (l : list Z) : Prop := {
  io_short : Forall (λ x, - 2 ^ 15 <= x < 2 ^ 15) [i_type ip; i_major ip; i_minor ip; nlink ip];
  io_size : in_range 32 (i_size ip);
  io_addrs : Forall (in_range 32) l;
  io_len : length l = 13%nat;
}.
Lemma le_short x : - 2 ^ 15 <= x < 2 ^ 15 → swrap 16 (le_val (le_bytes 2 x)) = x.
Proof. intros Hx. rewrite le_val_bytes. change (8 * Z.of_nat 2) with 16. change (x mod 2 ^ 16) with (wrap 16 x). rewrite swrap_wrap. by apply swrap_small. Qed.
Lemma le_uint x : in_range 32 x → le_val (le_bytes 4 x) = x.
Proof. intros Hx. rewrite le_val_bytes. by apply Z.mod_small. Qed.

Section inode.
Context {W B U : Type} `{HT : Trans W B} `{HS : !TransSpec W B} (sb : s5_superblock) (Hsb : sb_ok t_low t_size sb) (Hone : s5_size sb <= BPB).
Implicit Types (w : W) (s : s5 W U) (v : Z → block) (h : gmap Z B) (L X : gset Z) (l : list Z).
Local Abbreviation bit := (bit sb).
Local Abbreviation in_data := (in_data sb).
Local Abbreviation wf := (wf sb).
Local Abbreviation none := (∅ : gmap Z B).

Lemma field_run s d o x a (pre y post : bytes) : sub_bytes d o DINODE = Some x → x = pre ++ y ++ post → a = Z.of_nat (length pre) →
  field d (o + a) (Z.of_nat (length y)) s = Ret (le_val y, s).
Proof using.
  intros Hx E Ha. unfold field. pose proof (length_sub_bytes _ _ _ _ Hx) as Hl. rewrite (sub_bytes_sub _ _ _ _ _ _ Hx) by (rewrite E, !length_app in Hl; lia). by rewrite (sub_bytes_at x pre y post a (Z.of_nat (length y)) E Ha eq_refl).
Qed.
Lemma words_run s d o x post : ∀ l pre, sub_bytes d o DINODE = Some x → x = pre ++ mjoin (le_bytes 4 <$> l) ++ post → Forall (in_range 32) l →
  words (length l) d (o + Z.of_nat (length pre)) s = Ret (l, s).
Proof using.
  induction l as [|a l IH]; intros pre Hx E Hl; [done|]. apply Forall_cons in Hl as [Ha Hl]. cbn [length words].
  rewrite (bind_Ret _ _ s (le_val (le_bytes 4 a)) s) by (apply (field_run s d o x _ pre (le_bytes 4 a) (mjoin (le_bytes 4 <$> l) ++ post) Hx); [by rewrite E; cbn; rewrite <- ?app_assoc|done]).
  rewrite (bind_Ret _ _ s l s); [by rewrite le_uint|]. rewrite <- (IH (pre ++ le_bytes 4 a) Hx); [|by rewrite E; cbn; rewrite <- ?app_assoc|done].
  rewrite length_app, length_le_bytes. f_equal. lia.
Qed.
Definition loaded (ip ip0 : inode) : inode := Inode (inum ip) (i_ref ip) (i_busy ip) true (i_private ip) (i_type ip0) (i_major ip0) (i_minor ip0) (nlink ip0) (i_size ip0).
Lemma from_dinode_run s d o ip ip0 l : sub_bytes d o DINODE = Some (dinode_bytes ip0 l) → inode_ok ip0 l → from_dinode d o ip s = Ret (loaded ip ip0, s).
Proof using.
  intros Hx [Hsh Hsz _ _]. repeat (apply Forall_cons in Hsh as [? Hsh]). unfold from_dinode.
  assert (∀ pre (y post : bytes) a, dinode_bytes ip0 l = pre ++ y ++ post → a = Z.of_nat (length pre) → field d (o + a) (Z.of_nat (length y)) s = Ret (le_val y, s)) as F by (intros; by eapply field_run).
  rewrite (bind_Ret _ _ s (le_val (le_bytes 2 (i_type ip0))) s) by (rewrite <- (Z.add_0_r o); by eapply (F [] (le_bytes 2 (i_type ip0)))).
  rewrite (bind_Ret _ _ s (le_val (le_bytes 2 (i_major ip0))) s) by (by eapply (F (le_bytes 2 (i_type ip0)) (le_bytes 2 (i_major ip0)))).
  rewrite (bind_Ret _ _ s (le_val (le_bytes 2 (i_minor ip0))) s) by (by eapply (F (le_bytes 2 (i_type ip0) ++ le_bytes 2 (i_major ip0)) (le_bytes 2 (i_minor ip0)))).
  rewrite (bind_Ret _ _ s (le_val (le_bytes 2 (nlink ip0))) s) by (by eapply (F (le_bytes 2 (i_type ip0) ++ le_bytes 2 (i_major ip0) ++ le_bytes 2 (i_minor ip0)) (le_bytes 2 (nlink ip0)))).
  rewrite (bind_Ret _ _ s (le_val (le_bytes 4 (i_size ip0))) s) by (by eapply (F (le_bytes 2 (i_type ip0) ++ le_bytes 2 (i_major ip0) ++ le_bytes 2 (i_minor ip0) ++ le_bytes 2 (nlink ip0)) (le_bytes 4 (i_size ip0)))).
  by rewrite !le_short, le_uint.
Qed.

Lemma ilock_spec s i ip lm v L ip0 l : TR (tr s) v none L → has s i ip lm → an_inode sb (inum ip) → roomy none L 1 → inode_ok ip0 l →
  inode_on_disk sb v (inum ip) = Some (dinode_bytes ip0 l) →
  (i_ref ip < 1 → s5_ilock sb i s = Panic "ilock") ∧
  (1 <= i_ref ip → i_busy ip = true → s5_ilock sb i s = Block) ∧
  (1 <= i_ref ip → i_busy ip = false → i_valid ip = true → s5_ilock sb i s = Ret ((), S5 (tr s) (um s) (<[i := set_busy true ip]> (itable s)) (pool s))) ∧
  (1 <= i_ref ip → i_busy ip = false → i_valid ip = false → if i_type ip0 =? 0 then s5_ilock sb i s = Panic "ilock: no type" else
     ∃ w', s5_ilock sb i s = Ret ((), S5 w' (um s) (<[i := loaded (set_busy true ip) ip0]> (itable s)) (pool (with_addrs s ip l))) ∧ TR w' v none L).
Proof using Hsb.
  intros Ht Hs Hj Hr Hok Hd. pose proof Hs as [Hi [u Hp]]. unfold s5_ilock. rewrite (bind_Ret _ _ _ _ _ (get_inode_run s i ip lm Hs)). split; [|split; [|split]].
  - intros Hlt. by rewrite (proj2 (Z.ltb_lt _ _)).
  - intros Hge ->. by rewrite (proj2 (Z.ltb_ge _ _)).
  - intros Hge -> Hv. rewrite (proj2 (Z.ltb_ge _ _)) by done. unfold upd_inode. rewrite (bind_Ret (modify _) _ _ () _ eq_refl), Hv. cbn. by rewrite (alter_insert _ _ _ _ Hi).
  - intros Hge -> Hv. rewrite (proj2 (Z.ltb_ge _ _)) by done. unfold upd_inode. rewrite (bind_Ret (modify _) _ _ () _ eq_refl), Hv. rewrite (alter_insert _ _ _ _ Hi).
    destruct (IBLOCK_range sb Hsb _ Hj) as (Hpos & Hdev & _). assert (s32 (IBLOCK (inum ip) sb) = IBLOCK (inum ip) sb) as -> by (apply swrap_small; [done|destruct Hsb; lia]).
    rewrite (proj2 (Z.leb_gt _ _)) by lia. destruct (TR_bread (tr s) v none L _ Ht Hdev) as (bp & w1 & E1 & Ht1); [done|done|].
    set (s1 := S5 (tr s) (um s) (<[i := set_busy true ip]> (itable s)) (pool s)). assert (has s1 i (set_busy true ip) lm) as Hs1.
    { split; [|by exists u]. apply list_lookup_insert_eq. by eapply lookup_lt_Some. }
    rewrite (bind_Ret _ _ _ _ _ (in_tr_Ret _ s1 _ _ E1)), (bind_Ret _ _ _ _ _ (in_tr_Ret _ (with_tr s1 w1) _ _ (TR_data w1 v _ _ _ bp Ht1 (lookup_insert_eq _ _ _)))).
    rewrite (bind_Ret _ _ _ _ _ (get_inode_run (with_tr s1 w1) i _ _ Hs1)). unfold inode_on_disk in Hd. unfold dinode_off. cbn [inum set_busy].
    rewrite (bind_Ret _ _ _ _ _ (from_dinode_run (with_tr s1 w1) _ _ (set_busy true ip) ip0 l Hd Hok)). destruct Hok as [_ _ Ha Hl].
    pose proof (words_run (with_tr s1 w1) _ _ _ [] l (le_bytes 2 (i_type ip0) ++ le_bytes 2 (i_major ip0) ++ le_bytes 2 (i_minor ip0) ++ le_bytes 2 (nlink ip0) ++ le_bytes 4 (i_size ip0)) Hd) as Ew.
    rewrite Hl in Ew. rewrite (bind_Ret (words 13 _ _) _ _ _ _ (Ew ltac:(by rewrite app_nil_r) Ha)).
    unfold set_addrs. rewrite (bind_Ret (modify _) _ _ () _ eq_refl), (bind_Ret (modify _) _ _ () _ eq_refl).
    destruct (TR_brelse w1 v none L _ bp Ht1) as (w2 & E2 & Ht2); [done|]. erewrite bind_Ret by (apply in_tr_Ret; exact E2). cbn [i_type loaded].
    destruct (i_type ip0 =? 0); [done|]. exists w2. split; [|done]. unfold mret, M_ret, with_tr, with_addrs, s1. cbn. do 3 f_equal.
    rewrite (alter_insert _ _ (set_busy true ip)) by (apply list_lookup_insert_eq; by eapply lookup_lt_Some). by rewrite list_insert_insert_eq.
Qed.

(** C9: [s5_ilock] panics without a reference, waits for the holder of a locked
    inode, and otherwise locks it; an inode that is not valid gets the fields and
    addresses that were last written to the disk ([s5_iupdate] writes
    [dinode_bytes]), and one whose type is 0 there is refused. *)
Theorem ilock_correct s i ip lm v L ip0 l : TR (tr s) v none L → has s i ip lm → an_inode sb (inum ip) → roomy none L 1 → inode_ok ip0 l →
  inode_on_disk sb v (inum ip) = Some (dinode_bytes ip0 l) →
  (i_ref ip < 1 → s5_ilock sb i s = Panic "ilock") ∧
  (1 <= i_ref ip → i_busy ip = true → s5_ilock sb i s = Block) ∧
  (1 <= i_ref ip → i_busy ip = false → i_valid ip = true → s5_ilock sb i s = Ret ((), S5 (tr s) (um s) (<[i := set_busy true ip]> (itable s)) (pool s))) ∧
  (1 <= i_ref ip → i_busy ip = false → i_valid ip = false → if i_type ip0 =? 0 then s5_ilock sb i s = Panic "ilock: no type" else
     ∃ w', s5_ilock sb i s = Ret ((), S5 w' (um s) (<[i := loaded (set_busy true ip) ip0]> (itable s)) (pool (with_addrs s ip l))) ∧ TR w' v none L).
Proof using Hsb. apply ilock_spec. Qed.

(** ** Truncating *)

(** The blocks [F] are given back. *)
Record cleared v (F : list Z) v' : Prop := {
  cl_bit : ∀ y, in_dev sb y → bit v' y = negb (bool_decide (y ≠ 0 ∧ y ∈ F)) && bit v y;
  cl_same : ∀ n, n ≠ bmapstart sb → v' n = v n;
  cl_bytes : blk_bytes v → blk_bytes v';
}.
Lemma cleared_nil v : cleared v [] v.
Proof using. constructor; try done. intros y _. rewrite bool_decide_false; [done|]. intros [_ ?%elem_of_nil]. done. Qed.
Lemma cleared_app v F v1 G v' : cleared v F v1 → cleared v1 G v' → cleared v (F ++ G) v'.
Proof using.
  intros [A1 A2 A3] [B1 B2 B3]. constructor; auto; [|intros n Hn; by rewrite B2, A2]. intros y Hy. rewrite B1, A1, andb_assoc, <- negb_orb by done. do 2 f_equal.
  apply eq_true_iff_eq. rewrite orb_true_iff, !bool_decide_eq_true. in_list.
Qed.
Lemma cleared_one v x v' : in_data x → given sb v x v' → cleared v [x] v'.
Proof using Hsb Hone.
  intros Hx [G1 G2 G3]. destruct (data_dev sb Hsb x Hx) as (Hd & Hx0 & _). constructor; try done.
  - intros y Hy. rewrite G1 by done. do 2 f_equal. apply bool_decide_ext. rewrite list_elem_of_singleton. naive_solver.
  - intros n Hn. apply G2. by rewrite (one_map sb Hsb Hone).
Qed.
Lemma cleared_zero v : cleared v [0] v.
Proof using. constructor; try done. intros y _. rewrite bool_decide_false; [done|]. rewrite list_elem_of_singleton. tauto. Qed.

(** Blocks that can be given back one after the other. *)
Record freeable v (F : list Z) : Prop := {
  fb_data : ∀ x, x ∈ F → x ≠ 0 → in_data x ∧ bit v x = true;
  fb_once : ∀ j j', (j < length F)%nat → (j' < length F)%nat → F !! j = F !! j' → F !! j ≠ Some 0 → j = j';
}.
Lemma freeable_app v F G v' : freeable v (F ++ G) → cleared v F v' → freeable v' G.
Proof using Hsb.
  intros [H1 H2] [C1 _ _]. assert (∀ j, (j < length G)%nat → (F ++ G) !! (length F + j)%nat = G !! j) as Happ by (intros j _; rewrite lookup_app_r by lia; f_equal; lia). constructor.
  - intros y Hy H0. destruct (H1 y) as [Hd Hb]; [in_list|done|]. split; [done|]. rewrite C1, Hb by (by apply data_dev). rewrite bool_decide_false; [done|]. intros [_ Hf].
    apply list_elem_of_lookup in Hy as [j Hj]. apply list_elem_of_lookup in Hf as [j' Hj']. pose proof (lookup_lt_Some _ _ _ Hj). pose proof (lookup_lt_Some _ _ _ Hj').
    assert (j' = length F + j)%nat as Hbad; [|lia]. apply H2; rewrite ?length_app; [lia|lia| |]; rewrite ?Happ, lookup_app_l by lia; congruence.
  - intros j j' Hj Hj' E Hn. assert (length F + j = length F + j')%nat; [|lia]. apply H2; rewrite ?length_app, ?Happ by lia; try done; lia.
Qed.
Lemma freeable_l v F G : freeable v (F ++ G) → freeable v F.
Proof using.
  intros [H1 H2]. constructor; [intros x Hx; apply H1; in_list|]. intros j j' Hj Hj' E Hn. apply H2; rewrite ?length_app, ?lookup_app_l by lia; try done; lia.
Qed.

(** A loop whose turn [j] gives back the block [F !! j], unless it is 0. *)
Lemma free_loop {T} (body : nat → M T ()) (R : (Z → block) → nat → T → Prop) : ∀ F j0 v q,
  (∀ j x v q, F !! (j - j0)%nat = Some x → (j0 <= j)%nat → R v j q → (x ≠ 0 → in_data x ∧ bit v x = true) → ∃ q' v', body j q = Ret ((), q') ∧ R v' (S j) q' ∧ cleared v [x] v') →
  freeable v F → R v j0 q → ∃ q' v', mapM_ body (seq j0 (length F)) q = Ret ((), q') ∧ R v' (j0 + length F)%nat q' ∧ cleared v F v'.
Proof using Hsb.
  induction F as [|x F IH]; intros j0 v q Hbody Hfb HR; cbn [length seq].
  { exists q, v. rewrite Nat.add_0_r. split; [done|]. split; [done|apply cleared_nil]. }
  destruct (Hbody j0 x v q) as (q1 & v1 & E1 & HR1 & Hc1); [by rewrite Nat.sub_diag|lia|done|apply (fb_data _ _ Hfb); by left|].
  destruct (IH (S j0) v1 q1) as (q' & v' & E & HR' & Hc); [|by eapply (freeable_app v [x])|done|].
  - intros j y v2 q2 Hy Hj. apply Hbody; [|lia]. replace (j - j0)%nat with (S (j - S j0)) by lia. done.
  - exists q', v'. rewrite (mapM_cons _ _ _ _ _ E1). split; [done|]. replace (j0 + S (length F))%nat with (S j0 + length F)%nat by lia. split; [done|]. by eapply (cleared_app v [x]).
Qed.

(** [bfree] of such a block. *)
Lemma bfree_run w v h L x : TR w v h L → in_data x → bit v x = true → h !! bmapstart sb = None → roomy h L 1 → may_log L {[bmapstart sb]} →
  ∃ w' v', s5_bfree sb x w = Ret ((), w') ∧ TR w' v' h ({[bmapstart sb]} ∪ L) ∧ cleared v [x] v'.
Proof using Hsb Hone.
  intros Ht Hx Hb Hh Hr Hm. destruct (data_dev sb Hsb x Hx) as (Hd & _). pose proof (one_map sb Hsb Hone x Hd) as E. pose proof (bfree_spec sb Hsb w v h L x Ht Hd) as H. rewrite E, Hb in H.
  destruct (H Hh Hr Hm) as (w' & v' & E1 & Ht' & Hg). exists w', v'. split; [done|]. split; [done|]. by apply cleared_one.
Qed.

(** The blocks of a file, by number, and its indirect block. *)
Definition numbered v l (j n : nat) : list Z := (λ k : nat, blk_of v l (Z.of_nat k)) <$> seq j n.
Definition file_blocks v l : list Z := (numbered v l 0 12 ++ numbered v l 12 256) ++ [ind l].
Lemma elem_numbered v l j n x : x ∈ numbered v l j n ↔ ∃ bn, Z.of_nat j <= bn < Z.of_nat (j + n) ∧ x = blk_of v l bn.
Proof using.
  unfold numbered. rewrite list_elem_of_fmap. setoid_rewrite elem_of_seq. split; [intros (k & -> & ?); exists (Z.of_nat k); split; [lia|done]|].
  intros (bn & Hb & ->). exists (Z.to_nat bn). rewrite Z2Nat.id by lia. split; [done|lia].
Qed.
Lemma elem_file_blocks v l x : x ≠ 0 → x ∈ file_blocks v l ↔ uses v l x.
Proof using.
  intros Hx. unfold file_blocks, uses, in_file. rewrite !elem_of_app, !elem_numbered, list_elem_of_singleton. change MAXFILE with 268. split.
  - intros [[(bn & Hb & ->)|(bn & Hb & ->)]| ->]; (split; [done|]); [right; exists bn; split; [lia|done]..|by left].
  - intros [_ [->|(bn & Hb & <-)]]; [by right|]. left. destruct (Z_lt_le_dec bn 12); [left|right]; exists bn; (split; [lia|done]).
Qed.
Lemma freeable_file v l : wf v l → freeable v (file_blocks v l).
Proof using.
  intros Hw. constructor; [intros x Hx H0; by apply (wf_used _ _ _ Hw), elem_file_blocks|].
  assert (length (file_blocks v l) = 269%nat) as Hlen by (unfold file_blocks, numbered; by rewrite !length_app, !length_fmap, !length_seq).
  assert (∀ j, (j < 268)%nat → file_blocks v l !! j = Some (blk_of v l (Z.of_nat j))) as Hat.
  { intros j Hj. unfold file_blocks, numbered. rewrite <- fmap_app, <- seq_app. rewrite lookup_app_l by (by rewrite length_fmap, length_seq). rewrite list_lookup_fmap, lookup_seq_lt by lia. done. }
  assert (file_blocks v l !! 268%nat = Some (ind l)) as Hind by (unfold file_blocks; rewrite lookup_app_r; unfold numbered; rewrite length_app, !length_fmap, !length_seq; done || lia).
  rewrite Hlen. intros j j' Hj Hj' E Hn. assert (∀ k, (k < 268)%nat → in_file (Z.of_nat k)) as Hr by (intros; unfold in_file; change MAXFILE with 268; lia).
  destruct (decide (j = 268%nat)) as [->|], (decide (j' = 268%nat)) as [->|]; try done; rewrite ?Hind in *; rewrite ?Hat in * by lia.
  - exfalso. injection E as E. apply (wf_ind _ _ _ Hw (Z.of_nat j')); [apply Hr; lia|congruence|done].
  - exfalso. injection E as E. apply (wf_ind _ _ _ Hw (Z.of_nat j)); [apply Hr; lia|congruence|done].
  - assert (Z.of_nat j = Z.of_nat j'); [|lia]. apply (wf_inj _ _ _ Hw); [apply Hr; lia|apply Hr; lia|congruence|congruence].
Qed.

(** What truncating logs. *)
Definition logs L L' : Prop := L' = L ∨ L' = {[bmapstart sb]} ∪ L.
Lemma logs_step L L' : logs L L' → logs L ({[bmapstart sb]} ∪ L').
Proof using. intros [-> | ->]; right; [done|]. clear. set_solver. Qed.
Lemma logs_room h L L' k : logs L L' → roomy h L (S k) → roomy h L' k.
Proof using. intros [-> | ->] Hr; [by eapply roomy_le; [|exact Hr]; lia|]. by apply roomy_log. Qed.
Lemma logs_may L L' X : logs L L' → may_log L ({[bmapstart sb]} ∪ X) → may_log L' X.
Proof using. intros [-> | ->] Hm; [eapply may_log_in; [|exact Hm]; clear; set_solver|]. by apply may_log_more. Qed.

(** The direct blocks: the first [k] addresses are cleared. *)
Definition direct_done s ip l L (k : nat) (v : Z → block) s' : Prop :=
  ∃ w L', s' = with_tr (with_addrs s ip (replicate k 0 ++ drop k l)) w ∧ TR w v none L' ∧ logs L L'.
Lemma direct_turn s i ip l L v k x s' : has s i ip l → length l = 13%nat → (k < 12)%nat → l !! k = Some x → direct_done s ip l L k v s' → (x ≠ 0 → in_data x ∧ bit v x = true) →
  roomy none L 2 → may_log L {[bmapstart sb]} →
  ∃ s2 v', (l ← get_addrs ip; a ← oget (l !! k); if a =? 0 then mret () else in_tr (s5_bfree sb a) ;; set_addr ip k 0) s' = Ret ((), s2) ∧ direct_done s ip l L (S k) v' s2 ∧ cleared v [x] v'.
Proof using Hsb Hone.
  intros Hs Hl Hk Hx (w & L' & -> & Ht & HL) Hd Hr Hm. set (lk := replicate k 0 ++ drop k l). pose proof (with_addrs_has s i ip l lk Hs : has (with_tr (with_addrs s ip lk) w) i ip lk) as Hsk.
  assert (lk !! k = Some x) as Hlk by (unfold lk; rewrite lookup_app_r; rewrite length_replicate; [|lia]; by rewrite Nat.sub_diag, lookup_drop, Nat.add_0_r).
  assert (<[k := 0]> lk = replicate (S k) 0 ++ drop (S k) l) as Eins.
  { unfold lk. rewrite (drop_S l x k Hx). rewrite insert_app_r_alt by (by rewrite length_replicate). rewrite length_replicate, Nat.sub_diag. cbn [insert list_insert]. rewrite replicate_S_end, <- app_assoc. done. }
  rewrite (bind_Ret _ _ _ _ _ (get_addrs_run _ i ip lk Hsk)), Hlk. cbn [oget]. rewrite (bind_Ret (mret x) _ _ x _ eq_refl). destruct (Z.eqb_spec x 0) as [->|Hx0].
  - eexists _, v. split; [done|]. split; [|apply cleared_zero]. exists w, L'. split; [|done]. rewrite <- Eins, list_insert_id by done. done.
  - destruct (Hd Hx0) as [Hxd Hxb]. destruct (bfree_run w v none L' x Ht Hxd Hxb) as (w2 & v' & E2 & Ht2 & Hc); [done|by eapply logs_room|eapply logs_may; [done|]; by rewrite union_idemp_L|].
    rewrite (bind_Ret _ _ _ _ _ (in_tr_Ret _ (with_tr (with_addrs s ip lk) w) _ _ E2)). rewrite (set_addr_run (with_tr (with_tr (with_addrs s ip lk) w) w2) i ip lk k 0 Hsk).
    eexists _, v'. split; [done|]. split; [|done]. exists w2, ({[bmapstart sb]} ∪ L'). split; [|split; [done|by apply logs_step]].
    rewrite Eins. rewrite with_tr_addrs. by apply (with_addrs_twice (with_tr s w2) i ip l).
Qed.
(** The entries of the indirect block, whose buffer is held. *)
Definition entries_done s a (bp : B) (d : block) L (k : nat) (v : Z → block) s' : Prop :=
  ∃ w L', s' = with_tr s w ∧ TR w v {[a := bp]} L' ∧ logs L L' ∧ v a = d.
Lemma entry_turn s a bp d L v j s' : in_data a → Z.of_nat (length d) = BSIZE → (j < 256)%nat → entries_done s a bp d L j v s' → (entry d (Z.of_nat j) ≠ 0 → in_data (entry d (Z.of_nat j)) ∧ bit v (entry d (Z.of_nat j)) = true) →
  roomy ({[a := bp]} : gmap Z B) L 2 → may_log L {[bmapstart sb]} →
  ∃ s2 v', (d ← in_tr (t_data bp); x ← oget (word_of d (4 * Z.of_nat j)); if x =? 0 then mret () else in_tr (s5_bfree sb x)) s' = Ret ((), s2) ∧ entries_done s a bp d L (S j) v' s2 ∧ cleared v [entry d (Z.of_nat j)] v'.
Proof using Hsb Hone.
  intros Ha Hl Hj (w & L' & -> & Ht & HL & Hv) Hd Hr Hm. destruct (data_dev sb Hsb a Ha) as (_ & _ & Ham & _).
  rewrite (bind_Ret _ _ _ _ _ (in_tr_Ret _ (with_tr s w) _ _ (TR_data w v _ _ a bp Ht (lookup_singleton_eq _ _)))). rewrite Hv.
  rewrite entry_word by (try done; change NINDIRECT with 256; lia). cbn [oget]. rewrite (bind_Ret (mret _) _ _ _ _ eq_refl). destruct (Z.eqb_spec (entry d (Z.of_nat j)) 0) as [E0|E0].
  - eexists _, v. split; [done|]. split; [by exists w, L'|]. rewrite E0. apply cleared_zero.
  - destruct (Hd E0) as [Hxd Hxb]. destruct (bfree_run w v _ L' _ Ht Hxd Hxb) as (w2 & v' & E2 & Ht2 & Hc); [by apply lookup_singleton_ne|by eapply logs_room|eapply logs_may; [done|]; by rewrite union_idemp_L|].
    eexists _, v'. split; [exact (in_tr_Ret _ (with_tr s w) _ _ E2)|]. split; [|done]. exists w2, ({[bmapstart sb]} ∪ L'). split; [done|]. split; [done|]. split; [by apply logs_step|].
    by rewrite (cl_same _ _ _ Hc).
Qed.

Lemma direct_blocks v l : length l = 13%nat → numbered v l 0 12 = take 12 l ∧ l !! 12%nat = Some (ind l).
Proof using.
  intros Hl. do 13 (destruct l as [|? l]; [done|]). destruct l; [|done]. split; reflexivity.
Qed.
Lemma entry_blocks v l : ind l ≠ 0 → numbered v l 12 256 = (λ j : nat, entry (v (ind l)) (Z.of_nat j)) <$> seq 0 256.
Proof using.
  intros Hi. unfold numbered. change (seq 12 256) with (seq (12 + 0) 256). rewrite <- fmap_add_seq, <- list_fmap_compose. apply list_fmap_ext. intros j x Hx. apply lookup_seq in Hx as [-> Hj]. cbn [compose].
  rewrite blk_of_entry by (try done; unfold in_file; change MAXFILE with 268; change NDIRECT with 12; lia). f_equal. change NDIRECT with 12. lia.
Qed.
Lemma zero_blocks v l : ind l = 0 → Forall (.= 0) (numbered v l 12 256 ++ [ind l]).
Proof using.
  intros Hi. apply Forall_app. split; [|by constructor]. apply Forall_forall. intros x (bn & Hb & ->)%elem_numbered. unfold blk_of. rewrite (proj2 (Z.ltb_ge _ _)) by (change NDIRECT with 12; lia). by rewrite Hi.
Qed.
Lemma cleared_zeros v F G v' : Forall (.= 0) G → cleared v F v' → cleared v (F ++ G) v'.
Proof using.
  intros HG [C1 C2 C3]. constructor; try done. intros y Hy. rewrite C1 by done. do 2 f_equal. apply bool_decide_ext. rewrite Forall_forall in HG. rewrite elem_of_app. naive_solver.
Qed.
Lemma apart_cleared v l v' lo : wf v l → cleared v (file_blocks v l) v' → apart sb v l lo → wf v' lo ∧ ∀ z, dense v lo z → dense v' lo z ∧ contents v' lo 0 z = contents v lo 0 z.
Proof using Hsb.
  intros Hw [C1 C2 _] [Hwo Ha]. assert (∀ b, uses v lo b → v' b = v b) as Hv by (intros b Hu; apply C2; by destruct (data_dev sb Hsb b) as (_ & _ & ? & _); [apply (wf_used _ _ _ Hwo)|]).
  split; [|intros z; by apply contents_same]. assert (ind lo ≠ 0 → v' (ind lo) = v (ind lo)) as Hi by (intros; by apply Hv, uses_ind). constructor.
  - by destruct Hwo.
  - intros b Hu. apply (uses_same v v' lo b Hi) in Hu. destruct (wf_used _ _ _ Hwo b Hu) as [Hd Hb]. split; [done|]. rewrite C1, Hb by (by apply data_dev). rewrite bool_decide_false; [done|]. intros [H0 Hf]. apply elem_file_blocks in Hf; [|done]. by apply (Ha b).
  - intros bn Hbn. rewrite (blk_of_same v v' lo bn Hi). by apply (wf_ind _ _ _ Hwo).
  - intros bn bn' Hb Hb'. rewrite !(blk_of_same v v' lo _ Hi). by apply (wf_inj _ _ _ Hwo).
Qed.

(** The loops of [itrunc]. *)
Lemma direct_loop s i ip l v L : TR (tr s) v none L → has s i ip l → wf v l → roomy none L 2 → may_log L {[bmapstart sb]} →
  ∃ s2 v2, mapM_ (λ k : nat, l ← get_addrs ip; a ← oget (l !! k); if a =? 0 then mret () else in_tr (s5_bfree sb a) ;; set_addr ip k 0) (seq 0 (Z.to_nat NDIRECT)) s = Ret ((), s2) ∧
    direct_done s ip l L 12 v2 s2 ∧ cleared v (numbered v l 0 12) v2.
Proof using Hsb Hone.
  intros Ht Hs Hw Hr Hm. destruct (direct_blocks v l (wf_len _ _ _ Hw)) as [E1 _].
  destruct (free_loop (λ k : nat, l ← get_addrs ip; a ← oget (l !! k); if a =? 0 then mret () else in_tr (s5_bfree sb a) ;; set_addr ip k 0) (λ v k s', direct_done s ip l L k v s') (numbered v l 0 12) 0 v s) as (s2 & v2 & E & HR & Hc).
  - intros j x v1 s1 Hx _ HR Hd. rewrite Nat.sub_0_r, E1 in Hx. apply lookup_take_Some in Hx as [Hx Hj]. apply (direct_turn s i ip l L v1 j x s1); try done. by destruct Hw.
  - pose proof (freeable_file v l Hw) as Hf. unfold file_blocks in Hf. by apply freeable_l, freeable_l in Hf.
  - exists (tr s), L. split; [|split; [done|by left]]. change (replicate 0 0 ++ drop 0 l) with l. rewrite (with_addrs_same s i ip l Hs). by destruct s.
  - exists s2, v2. assert (length (numbered v l 0 12) = 12%nat) as Hlen by done. rewrite Hlen in *. done.
Qed.
Lemma entry_loop s a bp d v L : TR (tr s) v {[a := bp]} L → in_data a → v a = d → Z.of_nat (length d) = BSIZE → freeable v ((λ j : nat, entry d (Z.of_nat j)) <$> seq 0 256) →
  roomy ({[a := bp]} : gmap Z B) L 2 → may_log L {[bmapstart sb]} →
  ∃ s2 v2, mapM_ (λ j : nat, d ← in_tr (t_data bp); x ← oget (word_of d (4 * Z.of_nat j)); if x =? 0 then mret () else in_tr (s5_bfree sb x)) (seq 0 (Z.to_nat NINDIRECT)) s = Ret ((), s2) ∧
    entries_done s a bp d L 256 v2 s2 ∧ cleared v ((λ j : nat, entry d (Z.of_nat j)) <$> seq 0 256) v2.
Proof using Hsb Hone.
  intros Ht Ha Hv Hl Hf Hr Hm. set (F := (λ j : nat, entry d (Z.of_nat j)) <$> seq 0 256) in *. assert (length F = 256%nat) as Hlen by (unfold F; by rewrite length_fmap, length_seq).
  destruct (free_loop (λ j : nat, d ← in_tr (t_data bp); x ← oget (word_of d (4 * Z.of_nat j)); if x =? 0 then mret () else in_tr (s5_bfree sb x)) (λ v k s', entries_done s a bp d L k v s') F 0 v s) as (s2 & v2 & E & HR & Hc).
  - intros j x v1 s1 Hx _ HR Hd. rewrite Nat.sub_0_r in Hx. unfold F in Hx. rewrite list_lookup_fmap in Hx. destruct (seq 0 256 !! j) as [y|] eqn:Ey; [|done]. apply lookup_seq in Ey as [-> Hj]. injection Hx as <-.
    by apply (entry_turn s a bp d L v1 j s1).
  - done.
  - exists (tr s), L. split; [by destruct s|]. split; [done|]. split; [by left|done].
  - exists s2, v2. rewrite Hlen in *. done.
Qed.

(** The part for the indirect block [a]. *)
Lemma indirect_run s i ip l1 v a L L1 : TR (tr s) v none L1 → logs L L1 → has s i ip l1 → a ≠ 0 → freeable v (((λ j : nat, entry (v a) (Z.of_nat j)) <$> seq 0 256) ++ [a]) → roomy none L 4 → may_log L {[bmapstart sb]} →
  ∃ w' v' L', itrunc_indirect sb ip a s = Ret ((), with_tr (with_addrs s ip (<[12%nat := 0]> l1)) w') ∧ TR w' v' none L' ∧ logs L L' ∧ cleared v (((λ j : nat, entry (v a) (Z.of_nat j)) <$> seq 0 256) ++ [a]) v'.
Proof using Hsb Hone.
  intros Ht HL Hs Ha0 Hf Hr Hm. destruct (fb_data _ _ Hf a) as [Ha Hab]; [in_list|done|]. pose proof (dev_range sb Hsb _ (proj1 (data_dev sb Hsb _ Ha))) as Hdev. destruct (data_dev sb Hsb a Ha) as (_ & _ & Ham & _).
  unfold itrunc_indirect. rewrite (proj2 (Z.eqb_neq _ _)) by done.
  destruct (TR_bread (tr s) v none L1 a Ht Hdev) as (bp & w1 & E1 & Ht1); [done|eapply logs_room; [done|]; by eapply roomy_le; [|exact Hr]; lia|]. rewrite insert_empty in Ht1. rewrite (bind_Ret _ _ _ _ _ (in_tr_Ret _ s _ _ E1)).
  destruct (entry_loop (with_tr s w1) a bp (v a) v L1 Ht1 Ha eq_refl) as (s2 & v2 & E2 & (w2 & L2 & -> & Ht2 & HL2 & Hv2) & Hc2); [by eapply TR_length|by eapply freeable_l| |eapply logs_may; [done|]; by rewrite union_idemp_L|].
  { eapply logs_room; [done|]. apply (roomy_hold none L 3 a bp), (roomy_le _ _ 4); [lia|done]. }
  rewrite (bind_Ret _ _ _ _ _ E2). destruct (TR_brelse w2 v2 none L2 a bp) as (w3 & E3 & Ht3); [by rewrite insert_empty|done|]. rewrite (bind_Ret _ _ _ _ _ (in_tr_Ret _ (with_tr s w2) _ _ E3)).
  assert (logs L L2) as HLL by (destruct HL as [-> | ->]; [done|]; destruct HL2 as [-> | ->]; right; [done|]; clear; set_solver).
  destruct (bfree_run w3 v2 none L2 a Ht3 Ha) as (w4 & v4 & E4 & Ht4 & Hc4).
  { apply (freeable_app _ _ _ v2) in Hf; [|done]. apply (fb_data _ _ Hf); [by left|done]. }
  { done. }
  { eapply logs_room; [done|]. by eapply roomy_le; [|exact Hr]; lia. }
  { eapply logs_may; [done|]. by rewrite union_idemp_L. }
  rewrite (bind_Ret _ _ _ _ _ (in_tr_Ret _ (with_tr s w3) _ _ E4)). exists w4, v4, ({[bmapstart sb]} ∪ L2). split; [exact (set_addr_run (with_tr s w4) i ip l1 12 0 Hs)|].
  split; [done|]. split; [by apply logs_step|]. by eapply cleared_app.
Qed.

(** C8: [s5_itrunc] leaves an empty file, without blocks, in memory and on disk, and
    gives back exactly the blocks the file used; other files and inodes stay. *)
Theorem itrunc_correct s i ip l v L : TR (tr s) v none L → has s i ip l → wf v l → an_inode sb (inum ip) → roomy none L 5 → may_log L {[bmapstart sb; IBLOCK (inum ip) sb]} →
  let ip' := set_size 0 ip in let l' := replicate 13 0 in
  ∃ w' v' L', s5_itrunc sb i s = Ret ((), S5 w' (um s) (<[i := ip']> (itable s)) (pool (with_addrs s ip l'))) ∧ TR w' v' none L' ∧
    (∀ y, in_dev sb y → bit v' y = true ↔ bit v y = true ∧ ¬ uses v l y) ∧
    (∀ j, an_inode sb j → inode_on_disk sb v' j = if decide (j = inum ip) then Some (dinode_bytes ip' l') else inode_on_disk sb v j) ∧
    ∀ lo, apart sb v l lo → wf v' lo ∧ ∀ z, dense v lo z → dense v' lo z ∧ contents v' lo 0 z = contents v lo 0 z.
Proof using Hsb Hone.
  intros Ht Hs Hw Hj Hr Hm ip' l'. pose proof (wf_len _ _ _ Hw) as Hl. destruct (direct_blocks v l Hl) as [_ Hl12]. assert (may_log L {[bmapstart sb]}) as Hm1 by (eapply may_log_in; [|exact Hm]; clear; set_solver).
  destruct (direct_loop s i ip l v L Ht Hs Hw (roomy_le _ _ 5 2 ltac:(lia) Hr) Hm1) as (s1 & v1 & E1 & (w1 & L1 & -> & Ht1 & HL1) & Hc1). set (l1 := replicate 12 0 ++ drop 12 l) in *.
  set (s1 := with_tr (with_addrs s ip l1) w1) in *. pose proof (with_addrs_has s i ip l l1 Hs : has s1 i ip l1) as Hs1.
  assert (l1 !! 12%nat = Some (ind l)) as Hl1 by (unfold l1; rewrite lookup_app_r by done; rewrite lookup_drop; exact Hl12).
  assert (∃ w3 v3 L3, itrunc_indirect sb ip (ind l) s1 = Ret ((), with_tr (with_addrs s ip l') w3) ∧ TR w3 v3 none L3 ∧ logs L L3 ∧ cleared v (file_blocks v l) v3) as (w3 & v3 & L3 & E3 & Ht3 & HL3 & Hc3).
  { unfold file_blocks. rewrite <- app_assoc. assert (drop 12 l = [ind l]) as Ed by (by rewrite (drop_S l _ _ Hl12), (proj2 (drop_nil_iff _ _)); [|lia] || rewrite (drop_S l _ _ Hl12), drop_ge by lia). destruct (Z.eqb_spec (ind l) 0) as [Ei|Ei].
    - exists w1, v1, L1. unfold itrunc_indirect. rewrite Ei. split; [|split; [done|split; [done|rewrite <- Ei; by apply cleared_zeros; [apply zero_blocks|]]]].
      unfold s1, l1. rewrite Ed, Ei. done.
    - rewrite entry_blocks by done. destruct (wf_used _ _ _ Hw (ind l)) as [Hid Hib]; [by apply uses_ind|]. destruct (data_dev sb Hsb _ Hid) as (_ & _ & Him & _). rewrite <- (cl_same _ _ _ Hc1 _ Him).
      destruct (indirect_run s1 i ip l1 v1 (ind l) L L1 Ht1 HL1 Hs1 Ei) as (w3 & v3 & L3 & E3 & Ht3 & HL3 & Hc3).
      + rewrite (cl_same _ _ _ Hc1 _ Him), <- (entry_blocks v l) by done. eapply freeable_app; [|exact Hc1]. rewrite app_assoc. by apply freeable_file.
      + by eapply roomy_le; [|exact Hr]; lia.
      + done.
      + exists w3, v3, L3. split; [|split; [done|split; [done|by eapply cleared_app]]]. rewrite E3. unfold s1. do 2 f_equal. rewrite !with_tr_addrs. rewrite (with_addrs_twice (with_tr s w3) i ip l) by done.
        f_equal. unfold l1. by rewrite Ed. }
  unfold s5_itrunc. rewrite (bind_Ret _ _ _ _ _ (get_inode_run s i ip l Hs)), (bind_Ret _ _ _ _ _ E1), (bind_Ret _ _ _ _ _ (get_addrs_run s1 i ip l1 Hs1)).
  change (Z.to_nat NDIRECT) with 12%nat. rewrite Hl1. cbn [oget]. rewrite (bind_Ret (mret _) _ _ _ _ eq_refl), (bind_Ret _ _ _ _ _ E3).
  unfold upd_inode. rewrite (bind_Ret (modify _) _ _ () _ eq_refl). cbn [tr um itable pool with_tr with_addrs]. rewrite (alter_insert _ _ _ _ (proj1 Hs)). fold ip'.
  set (s3 := S5 w3 (um s) (<[i := ip']> (itable s)) (pool (with_addrs s ip l'))). assert (has s3 i ip' l') as Hs3.
  { destruct Hs as (Hi & u & Hp). split; [apply list_lookup_insert_eq; by eapply lookup_lt_Some|]. exists u. cbn. by rewrite list_lookup_alter_eq, Hp. }
  destruct (iupdate_run sb Hsb s3 i ip' l' v3 L3 Ht3 Hs3) as (w4 & d & E4 & Ht4 & Hdisk & _); [done|done|eapply logs_room; [done|]; by eapply roomy_le; [|exact Hr]; lia|by eapply logs_may|].
  cbn zeta in Ht4, Hdisk. change (inum ip') with (inum ip) in *. eexists w4, _, _. split; [exact E4|]. split; [exact Ht4|].
  destruct (IBLOCK_range sb Hsb _ Hj) as (Hpos & _ & Hnd & Hbb). split; [|split].
  - intros y Hy. assert (bit (<[IBLOCK (inum ip) sb := d]> v3) y = bit v3 y) as -> by (unfold S5Bits.bit; rewrite fn_lookup_insert_ne; [done|]; apply not_eq_sym; by apply Hbb).
    rewrite (cl_bit _ _ _ Hc3) by done. rewrite andb_true_iff, negb_true_iff, bool_decide_eq_false. split.
    + intros [Hn Hb]. split; [done|]. intros Hu. apply Hn. split; [apply Hu|]. apply elem_file_blocks; [apply Hu|done].
    + intros [Hb Hu]. split; [|done]. intros [H0 Hin]. by apply elem_file_blocks in Hin.
  - intros j Hjj. rewrite Hdisk by done. case_decide; [done|]. unfold inode_on_disk. destruct (IBLOCK_range sb Hsb j Hjj) as (Hpj & _). rewrite (cl_same _ _ _ Hc3); [done|lia].
  - intros lo Hlo. destruct (apart_cleared v l v3 lo Hw Hc3 Hlo) as [Hwo Hz]. destruct (inode_block_store sb Hsb v3 lo (inum ip) d Hj Hwo) as (Hwo' & _ & _ & Hco). split; [done|].
    intros z Hd. destruct (Hz z Hd) as [Hd3 E5]. destruct (Hco z Hd3) as [Hd4 E6]. split; [done|]. by etrans; [exact E6|].
Qed.
End inode.

(** ** On the machine of [S5Log] *)

#[local] Existing Instance cache1.
#[local] Existing Instance cache1_spec.

Definition demo_new : inode := Inode 5 1 false false 0 0 0 0 0 0.
Lemma ilock_correct_witness : ∃ (c : bsys ()) w', s5_ilock demo_sb 0 (S5 (LSys demo_log c) demo_mem [demo_new] [S5Inode true (replicate 13 0)]) =
  Ret ((), S5 w' demo_mem [loaded (set_busy true demo_new) demo_ip] [S5Inode true demo_l]).
Proof.
  destruct demo_boot as [c Hc]. pose proof (demo_begun c Hc) as Hb.
  destruct (ilock_correct (HS := log_trans_spec 2 demo []) demo_sb demo_sb_ok (S5 (LSys demo_log c) demo_mem [demo_new] [S5Inode true (replicate 13 0)]) 0 demo_new (replicate 13 0) demo ∅ demo_ip demo_l) as (_ & _ & _ & H).
  - by exists (TState ∅ demo ∅ ∅).
  - split; [done|]. by exists true.
  - done.
  - unfold roomy. rewrite size_empty, map_size_empty. cbn. lia.
  - constructor; try done; repeat constructor; done.
  - reflexivity.
  - destruct (H ltac:(done) eq_refl eq_refl) as (w' & E & _). exists c, w'. exact E.
Defined.

Lemma itrunc_correct_witness : ∃ (c : bsys ()) w' v', s5_itrunc demo_sb 0 (demo_s c) = Ret ((), S5 w' demo_mem [set_size 0 demo_ip] [S5Inode true (replicate 13 0)]) ∧ bit demo_sb v' 46 = false.
Proof.
  destruct demo_boot as [c Hc]. pose proof (demo_begun c Hc) as Hb.
  destruct (itrunc_correct (HS := log_trans_spec 2 demo []) demo_sb demo_sb_ok ltac:(done) (demo_s c) 0 demo_ip demo_l demo ∅) as (w' & v' & L' & E & _ & Hbit & _).
  - by exists (TState ∅ demo ∅ ∅).
  - apply demo_has.
  - exact demo_wf.
  - done.
  - unfold roomy. rewrite size_empty, map_size_empty. cbn. lia.
  - apply Nat.leb_le. reflexivity.
  - exists c, w', v'. split; [exact E|]. apply not_true_is_false. rewrite (Hbit 46) by done. intros [_ Hu]. apply Hu. split; [done|]. right. by exists 0.
Defined.
