(* ===== verification/S5Dir.v ===== *)
(** * Directories and new inodes: [dirlookup], [dirlink], [unlink], [isdirempty]
      and [ialloc] of [kernel/s5.c] and [kernel/vfs.c]

    A directory is a file of 16-byte entries, an inode number (0 for a free entry)
    and a name of at most 14 characters. [dir_map] is the map from names to numbers
    that the entries stand for; [dirlookup_correct], [dirlink_correct] and
    [unlink_correct] say that the operations are lookup, insertion and deletion of
    that map. *)
From S2P Require Import Prelude BlockCache Bio Log LogBio Trans TransLog S5 S5Bits S5Map S5Io S5Log S5Inode.

(** ** The code *)

(** A string in memory is the list of its characters; behind them is a NUL. *)
Fixpoint strncmp_l (n : nat) (p q : bytes) : Z :=
  match n with
  | O => 0
  | S n => let a := hd 0 p in let b := hd 0 q in if negb (a =? 0) && (a =? b) then strncmp_l n (tl p) (tl q) else a - b
  end.
Definition s5_namecmp (p q : bytes) : Z := strncmp_l (Z.to_nat DIRSIZ) p q.
(** [strncpy] pads with NULs. *)
Fixpoint strncpy_l (n : nat) (t : bytes) : bytes :=
  match n with
  | O => []
  | S n => if hd 0 t =? 0 then replicate (S n) 0 else hd 0 t :: strncpy_l n (tl t)
  end.

(** The fields of the [struct dirent] in a local variable. *)
Definition de_inum (d : bytes) : Z := le_val (take 2 d).
Definition de_name (d : bytes) : bytes := drop 2 d.

Section code.
Context {W B U : Type} `{HT : Trans W B} `{HU : UserMem U} (sb : s5_superblock).
Abbreviation FS := (M (s5 W U)).
(** The address of the local variable [de], and the use of [itable] that is
    [kernel/vfs.c]'s. *)
Context (de : Z) (iget : Z → FS nat) (iput : nat → FS ()).

Definition load_de : FS bytes := '(_, d) ← in_um (either_copyin false de DIRENT); mret d.
Definition store_de (d : bytes) : FS () := in_um (either_copyout false de d) ;; mret ().
(** Entry at [off] into [de]. *)
Definition read_entry (dp : nat) (off : Z) (msg : string) : FS bytes :=
  r ← s5_readi sb dp false de off DIRENT;
  if negb (r =? DIRENT) then panic msg else load_de.

Fixpoint dirlookup_loop (fuel : nat) (dp : nat) (name : bytes) (off : Z) : FS (option (Z * Z)) :=
  ip ← get_inode dp;
  if negb (off <? i_size ip) then mret None else
  match fuel with
  | O => out_of_fuel
  | S fuel =>
      d ← read_entry dp off "dirlink read";
      if de_inum d =? 0 then dirlookup_loop fuel dp name (u32 (off + DIRENT))
      else if s5_namecmp name (de_name d) =? 0 then mret (Some (de_inum d, off))
      else dirlookup_loop fuel dp name (u32 (off + DIRENT))
  end.
(** The inode and the offset of its entry. *)
Definition s5_dirlookup (dp : nat) (name : bytes) : FS (option (nat * Z)) :=
  ip ← get_inode dp;
  if (i_type ip =? T_FILE) || (i_type ip =? T_DEVICE) then panic "dirlookup not DIR" else
  r ← dirlookup_loop (Z.to_nat (i_size ip)) dp name 0;
  match r with Some (inum, off) => i ← iget inum; mret (Some (i, off)) | None => mret None end.

Fixpoint find_free (fuel : nat) (dp : nat) (off : Z) : FS Z :=
  ip ← get_inode dp;
  if negb (u32 off <? i_size ip) then mret off else
  match fuel with
  | O => out_of_fuel
  | S fuel =>
      d ← read_entry dp (u32 off) "dirlink read";
      if de_inum d =? 0 then mret off else find_free fuel dp (s32 (off + DIRENT))
  end.
Definition generic_dirlink (dp : nat) (name : bytes) (inum : Z) : FS Z :=
  r ← s5_dirlookup dp name;
  match r with
  | Some (i, _) => iput i ;; mret (-1)
  | None =>
      ip ← get_inode dp;
      off ← find_free (Z.to_nat (i_size ip)) dp 0;
      store_de (le_bytes 2 inum ++ strncpy_l (Z.to_nat DIRSIZ) name) ;;
      r ← s5_writei sb dp false de (u32 off) DIRENT;
      if negb (r =? DIRENT) then panic "dirlink" else mret 0
  end.
Definition s5_unlink (dp : nat) (off : Z) : FS Z :=
  store_de (replicate (Z.to_nat DIRENT) 0) ;;
  r ← s5_writei sb dp false de off DIRENT;
  if negb (r =? DIRENT) then mret (-1) else mret 0.
Fixpoint isdirempty_loop (fuel : nat) (dp : nat) (off : Z) : FS Z :=
  ip ← get_inode dp;
  if negb (u32 off <? i_size ip) then mret 1 else
  match fuel with
  | O => out_of_fuel
  | S fuel =>
      d ← read_entry dp (u32 off) "isdirempty: readi";
      if negb (de_inum d =? 0) then mret 0 else isdirempty_loop fuel dp (s32 (off + DIRENT))
  end.
Definition s5_isdirempty (dp : nat) : FS Z :=
  ip ← get_inode dp; isdirempty_loop (Z.to_nat (i_size ip)) dp (2 * DIRENT).

(** The first inode on disk whose type is 0. *)
Fixpoint ialloc_loop (fuel : nat) (inum type : Z) : FS Z :=
  if negb (inum <? ninodes sb) then panic "ialloc: no inodes" else
  match fuel with
  | O => out_of_fuel
  | S fuel =>
      bp ← in_tr (t_bread (IBLOCK inum sb));
      d ← in_tr (t_data bp);
      let dip := DINODE * (inum mod IPB) in
      t ← field d dip 2;
      if t =? 0 then
        d ← oget (blit d dip (le_bytes 2 type ++ replicate 62 0));
        in_tr (t_store bp d) ;; in_tr (t_log bp) ;; in_tr (t_brelse bp) ;; mret inum
      else in_tr (t_brelse bp) ;; ialloc_loop fuel (inum + 1) type
  end.
Definition s5_ialloc (type : Z) : FS nat := inum ← ialloc_loop (Z.to_nat (ninodes sb)) 1 type; iget inum.
End code.

(** ** Directories as maps *)

(** The characters of a name before its end. *)
Fixpoint cname (n : nat) (l : bytes) : bytes :=
  match n with O => [] | S n => if hd 0 l =? 0 then [] else hd 0 l :: cname n (tl l) end.
Definition name_of (l : bytes) : bytes := cname (Z.to_nat DIRSIZ) l.
Definition chunk (c : bytes) (k : nat) : bytes := take 16 (drop (16 * k) c).
Definition dirents (c : bytes) : list (Z * bytes) := (λ k, (de_inum (chunk c k), de_name (chunk c k))) <$> seq 0 (length c / 16).
(** The first entry with a name counts. *)
Definition dir_map (es : list (Z * bytes)) : gmap bytes Z := foldr (λ e m, if e.1 =? 0 then m else <[name_of e.2 := e.1]> m) ∅ es.
(** No name twice. *)
Definition names (es : list (Z * bytes)) : list bytes := (λ e, name_of e.2) <$> filter (λ e, e.1 ≠ 0) es.

Lemma strncmp_name n : ∀ p q, Forall is_byte p → Forall is_byte q → strncmp_l n p q = 0 ↔ cname n p = cname n q.
Proof.
  induction n as [|n IH]; intros p q Hp Hq; cbn [strncmp_l cname]; [done|].
  assert (Forall is_byte (tl p) ∧ Forall is_byte (tl q)) as [Hp' Hq'] by (split; [destruct Hp|destruct Hq]; by try constructor).
  destruct (Z.eqb_spec (hd 0 p) 0) as [Ep|Ep], (Z.eqb_spec (hd 0 q) 0) as [Eq|Eq]; cbn [negb andb].
  - rewrite Ep, Eq. done.
  - split; [lia|done].
  - rewrite (proj2 (Z.eqb_neq _ _)) by congruence. split; [lia|done].
  - destruct (Z.eqb_spec (hd 0 p) (hd 0 q)) as [E|E].
    + rewrite IH by done. rewrite E. split; [by intros ->|by intros [=]].
    + split; [lia|by intros [=]].
Qed.
Lemma cname_strncpy n : ∀ t, cname n (strncpy_l n t) = cname n t.
Proof.
  induction n as [|n IH]; intros t; cbn [cname strncpy_l]; [done|]. destruct (Z.eqb_spec (hd 0 t) 0) as [E|E]; cbn; [done|].
  rewrite (proj2 (Z.eqb_neq _ _) E). by rewrite IH.
Qed.
Lemma length_strncpy n : ∀ t, length (strncpy_l n t) = n.
Proof. induction n as [|n IH]; intros t; cbn [strncpy_l]; [done|]. destruct (hd 0 t =? 0); [by rewrite length_replicate|]. cbn. by rewrite IH. Qed.

Lemma dir_map_cons e es n : dir_map (e :: es) !! n = if decide (e.1 ≠ 0 ∧ name_of e.2 = n) then Some e.1 else dir_map es !! n.
Proof.
  cbn [dir_map foldr]. destruct (Z.eqb_spec e.1 0) as [E|E]; [by rewrite decide_False by tauto|].
  destruct (decide (name_of e.2 = n)) as [<-|Hn]; [by rewrite lookup_insert_eq, decide_True by done|by rewrite lookup_insert_ne, decide_False by (done || tauto)].
Qed.
Lemma dir_map_None es n : dir_map es !! n = None ↔ n ∉ names es.
Proof.
  induction es as [|e es IH]; [split; [intros _; apply not_elem_of_nil|done]|]. rewrite dir_map_cons. unfold names in *. rewrite filter_cons.
  destruct (decide (e.1 ≠ 0)) as [H0|H0].
  - rewrite fmap_cons, not_elem_of_cons, <- IH. destruct (decide (e.1 ≠ 0 ∧ name_of e.2 = n)) as [[_ ->]|H]; [split; [done|by intros [? _]]|]. split; [intros ?; split; [|done]; intros ->; by apply H|by intros [_ ?]].
  - rewrite decide_False by tauto. exact IH.
Qed.
(** Where a used entry is overwritten by another, or a free one taken. *)
Lemma dir_map_insert es k e0 inum nm : es !! k = Some e0 → e0.1 = 0 → inum ≠ 0 → dir_map es !! name_of nm = None → dir_map (<[k := (inum, nm)]> es) = <[name_of nm := inum]> (dir_map es).
Proof.
  intros Hk H0 Hi Hn. apply map_eq. intros n. revert k Hk Hn. induction es as [|e es IH]; intros [|k] Hk Hn; [done..| |]; cbn in Hk.
  - injection Hk as ->. change (<[0%nat := (inum, nm)]> (e0 :: es)) with ((inum, nm) :: es). rewrite dir_map_cons. rewrite dir_map_cons, decide_False in Hn by tauto. cbn [fst snd].
    destruct (decide (name_of nm = n)) as [<-|Hne]; [by rewrite decide_True, lookup_insert_eq by done|]. rewrite decide_False, lookup_insert_ne, dir_map_cons, decide_False by (done || tauto). done.
  - change (<[S k := (inum, nm)]> (e :: es)) with (e :: <[k := (inum, nm)]> es). rewrite dir_map_cons in Hn. rewrite dir_map_cons. destruct (decide (e.1 ≠ 0 ∧ name_of e.2 = name_of nm)) as [|Hd]; [done|].
    destruct (decide (name_of nm = n)) as [<-|Hne].
    + rewrite decide_False, lookup_insert_eq by done. rewrite IH by done. apply lookup_insert_eq.
    + rewrite lookup_insert_ne, dir_map_cons by done. destruct (decide (e.1 ≠ 0 ∧ name_of e.2 = n)); [done|]. rewrite IH by done. by rewrite lookup_insert_ne.
Qed.
Lemma dir_map_app es inum nm : inum ≠ 0 → dir_map es !! name_of nm = None → dir_map (es ++ [(inum, nm)]) = <[name_of nm := inum]> (dir_map es).
Proof.
  intros Hi Hn. apply map_eq. intros n. induction es as [|e es IH].
  - change (dir_map ([] ++ [(inum, nm)])) with (dir_map [(inum, nm)]). rewrite dir_map_cons. cbn [fst snd]. destruct (decide (name_of nm = n)) as [<-|Hne]; [by rewrite decide_True, lookup_insert_eq by done|by rewrite decide_False, lookup_insert_ne by (done || tauto)].
  - change ((e :: es) ++ [(inum, nm)]) with (e :: es ++ [(inum, nm)]). rewrite dir_map_cons in Hn. rewrite dir_map_cons. destruct (decide (e.1 ≠ 0 ∧ name_of e.2 = name_of nm)) as [|Hd]; [done|].
    destruct (decide (name_of nm = n)) as [<-|Hne]; [rewrite decide_False, lookup_insert_eq by done; rewrite IH by done; apply lookup_insert_eq|].
    rewrite lookup_insert_ne, dir_map_cons by done. destruct (decide (e.1 ≠ 0 ∧ name_of e.2 = n)); [done|]. rewrite IH by done. by rewrite lookup_insert_ne.
Qed.
Lemma dir_map_delete es k e : es !! k = Some e → e.1 ≠ 0 → NoDup (names es) → ∀ z, z.1 = 0 → dir_map (<[k := z]> es) = delete (name_of e.2) (dir_map es).
Proof.
  intros Hk He Hnd z Hz. apply map_eq. intros n. revert k Hk Hnd. induction es as [|e0 es IH]; intros [|k] Hk Hnd; [done..| |]; cbn in Hk.
  - injection Hk as ->. change (<[0%nat := z]> (e :: es)) with (z :: es). rewrite dir_map_cons, decide_False by tauto. unfold names in Hnd. rewrite filter_cons, decide_True, fmap_cons in Hnd by done. apply NoDup_cons in Hnd as [Hni _].
    destruct (decide (name_of e.2 = n)) as [<-|Hne]; [rewrite lookup_delete_eq; by apply dir_map_None|]. by rewrite lookup_delete_ne, dir_map_cons, decide_False by (done || tauto).
  - change (<[S k := z]> (e0 :: es)) with (e0 :: <[k := z]> es). unfold names in Hnd. rewrite filter_cons in Hnd. rewrite dir_map_cons.
    assert (NoDup (names es)) as Hnd' by (destruct (decide (e0.1 ≠ 0)); [rewrite fmap_cons in Hnd; by apply NoDup_cons in Hnd as [_ ?]|exact Hnd]). specialize (IH k Hk Hnd').
    destruct (decide (name_of e.2 = n)) as [<-|Hne].
    + rewrite lookup_delete_eq in *. rewrite decide_False; [exact IH|]. intros [H0 En]. rewrite decide_True, fmap_cons in Hnd by done. apply NoDup_cons in Hnd as [Hni _]. apply Hni. rewrite En.
      apply list_elem_of_fmap. exists e. split; [done|]. apply list_elem_of_filter. split; [done|]. by eapply list_elem_of_lookup_2.
    + rewrite lookup_delete_ne, dir_map_cons by done. destruct (decide (e0.1 ≠ 0 ∧ name_of e0.2 = n)); [done|]. rewrite IH. by rewrite lookup_delete_ne.
Qed.

(** ** Entries and bytes *)

Lemma length_dirents c : length (dirents c) = (length c / 16)%nat.
Proof. unfold dirents. by rewrite length_fmap, length_seq. Qed.
Lemma lookup_dirents c k : (k < length c / 16)%nat → dirents c !! k = Some (de_inum (chunk c k), de_name (chunk c k)).
Proof. intros Hk. unfold dirents. rewrite list_lookup_fmap, lookup_seq_lt by done. done. Qed.
(** Writing entry [k], the one behind the last included. *)
Lemma dirents_write c k d : length d = 16%nat → (length c mod 16 = 0)%nat → (k <= length c / 16)%nat →
  dirents (take (16 * k) c ++ d ++ drop (16 * k + 16) c) =
  if decide (k < length c / 16)%nat then <[k := (de_inum d, de_name d)]> (dirents c) else dirents c ++ [(de_inum d, de_name d)].
Proof.
  intros Hd Hm Hk. set (c' := take (16 * k) c ++ d ++ drop (16 * k + 16) c). set (n := (length c / 16)%nat) in *.
  assert (length c = 16 * n)%nat as Hc by (pose proof (Nat.div_mod (length c) 16 ltac:(done)); lia).
  assert (length c' = 16 * (if decide (k < n)%nat then n else S n))%nat as Hc'.
  { unfold c'. rewrite !length_app, length_take, length_drop, Hd. destruct (decide (k < n)%nat); lia. }
  assert ((length c' / 16)%nat = if decide (k < n)%nat then n else S n) as En by (rewrite Hc', Nat.mul_comm; by apply Nat.div_mul).
  assert (∀ j, chunk c' j = if decide (j = k) then d else chunk c j) as Hch.
  { intros j. apply list_eq. intros i. unfold chunk. destruct (decide (i < 16)%nat) as [Hi|Hi]; [|rewrite lookup_take_ge by lia; symmetry; destruct (decide (j = k)); [apply lookup_ge_None_2; lia|by rewrite lookup_take_ge by lia]].
    rewrite lookup_take_lt, lookup_drop by lia. unfold c'. destruct (decide (j = k)) as [->|Hj].
    - rewrite lookup_app_r, length_take by (rewrite length_take; lia). rewrite lookup_app_l by lia. f_equal. lia.
    - rewrite lookup_take_lt, lookup_drop by lia. destruct (decide (j < k)%nat).
      + rewrite lookup_app_l by (rewrite length_take; lia). by rewrite lookup_take_lt by lia.
      + rewrite lookup_app_r, length_take by (rewrite length_take; lia). rewrite lookup_app_r by lia. rewrite lookup_drop, Hd. f_equal. lia. }
  apply list_eq. intros j. destruct (decide (j < (if decide (k < n)%nat then n else S n))%nat) as [Hj|Hj].
  - rewrite lookup_dirents by lia. rewrite Hch. destruct (decide (k < n)%nat) as [Hkn|Hkn].
    + destruct (decide (j = k)) as [->|Hjk]; [by rewrite list_lookup_insert_eq by (rewrite length_dirents; lia)|]. by rewrite list_lookup_insert_ne, lookup_dirents by (done || lia).
    + destruct (decide (j = k)) as [->|Hjk]; [rewrite lookup_app_r, length_dirents by (rewrite length_dirents; lia); by replace (k - length c / 16)%nat with 0%nat by lia|].
      rewrite lookup_app_l by (rewrite length_dirents; lia). by rewrite lookup_dirents by lia.
  - rewrite (lookup_ge_None_2 (dirents c')) by (rewrite length_dirents; lia). symmetry. apply lookup_ge_None_2.
    revert Hj. destruct (decide (k < n)%nat); rewrite ?length_insert, ?length_app, length_dirents; fold n; cbn [length]; lia.
Qed.
Lemma contents_part v l size a m : 0 <= a → 0 <= m → a + m <= size → contents v l a m = take (Z.to_nat m) (drop (Z.to_nat a) (contents v l 0 size)).
Proof.
  intros Ha Hm Hs. apply list_eq. intros k. unfold contents. rewrite list_lookup_fmap. destruct (decide (Z.of_nat k < m)).
  - rewrite lookup_take_lt, lookup_drop, list_lookup_fmap, !lookup_seqZ_lt by lia. cbn. f_equal. f_equal. lia.
  - rewrite lookup_take_ge, lookup_seqZ_ge by lia. done.
Qed.
Lemma length_contents v l a m : 0 <= m → Z.of_nat (length (contents v l a m)) = m.
Proof. intros Hm. unfold contents. rewrite length_fmap, length_seqZ. lia. Qed.

(** ** Reading entries *)

(** The kernel's own variables: storing there succeeds, and the bytes are there. *)
Class KernelMem (U : Type) `{UserMemSpec U} := {
  kernel_open u a n : u_open u false a n;
  kernel_load u a d u' : Z.of_nat (length d) < 2 ^ 64 → u_out u false a d u' → u_bytes u' false a d;
}.

Section dir.
Context {W B U : Type} `{HT : Trans W B} `{HU : UserMem U} `{HS : !TransSpec W B} `{HUS : !UserMemSpec U} `{HK : !KernelMem U}.
Context (sb : s5_superblock) (Hsb : sb_ok t_low t_size sb) (Hone : s5_size sb <= BPB) (de : Z).
Implicit Types (w : W) (s : s5 W U) (v : Z → block) (L X : gset Z) (l : list Z).
Local Abbreviation none := (∅ : gmap Z B).

(** A directory in memory: its file has whole entries. *)
Record is_dir s (dp : nat) (ip : inode) (l : list Z) v L (c : bytes) : Prop := {
  dr_tr : TR (tr s) v none L;
  dr_has : has s dp ip l;
  dr_wf : wf sb v l;
  dr_dense : dense v l (i_size ip);
  dr_type : i_type ip ≠ T_FILE ∧ i_type ip ≠ T_DEVICE;
  dr_contents : c = contents v l 0 (i_size ip);
  dr_whole : i_size ip mod DIRENT = 0;
  dr_bytes : Forall is_byte c;
  dr_names : NoDup (names (dirents c));
}.
(** The state but for the local variable and the transaction. *)
Definition same_files s s' : Prop := itable s' = itable s ∧ pool s' = pool s.
Lemma is_dir_same s s' dp ip l v L c : same_files s s' → TR (tr s') v none L → is_dir s dp ip l v L c → is_dir s' dp ip l v L c.
Proof using. intros [E1 E2] Ht []. split; try done. destruct dr_has0 as [Hi Hp]. split; [by rewrite E1|by rewrite E2]. Qed.

Lemma dir_length s dp ip l v L c : is_dir s dp ip l v L c → Z.of_nat (length c) = i_size ip ∧ 0 <= i_size ip <= 274432 ∧ (length c mod 16 = 0)%nat ∧ i_size ip = 16 * Z.of_nat (length c / 16).
Proof using.
  intros []. destruct dr_dense0 as [Hs _]. change (MAXFILE * BSIZE) with 274432 in Hs. assert (Z.of_nat (length c) = i_size ip) as Hl by (rewrite dr_contents0; apply length_contents; lia).
  assert (length c mod 16 = 0)%nat as Hm by (apply Nat2Z.inj; rewrite Nat2Z.inj_mod, Hl; exact dr_whole0). split; [done|]. split; [done|]. split; [done|].
  pose proof (Nat.div_mod (length c) 16 ltac:(done)). lia.
Qed.
Lemma read_entry_run s dp ip l v L c k msg : is_dir s dp ip l v L c → roomy none L 1 → (k < length c / 16)%nat →
  ∃ s', read_entry sb de dp (16 * Z.of_nat k) msg s = Ret (chunk c k, s') ∧ same_files s s' ∧ TR (tr s') v none L.
Proof using Hsb HK.
  intros Hd Hroom Hk. destruct (dir_length _ _ _ _ _ _ _ Hd) as (Hl & Hs & Hm & Es). pose proof Hd as [].
  destruct (readi_spec sb Hsb s dp ip l v L false de (16 * Z.of_nat k) DIRENT) as (r & s1 & E & Ht1 & Hi & Hp & Hr & Ho); try done; [unfold in_range; lia|].
  assert (readable (i_size ip) (16 * Z.of_nat k) DIRENT = 16) as Em.
  { unfold readable, DIRENT. rewrite (proj2 (Z.ltb_ge _ _)) by lia. rewrite wrap_small by (unfold in_range; lia). rewrite (proj2 (Z.ltb_ge _ _)) by lia. cbn. lia. }
  rewrite Em in *. rewrite (Ho (kernel_open _ _ _)) in *. destruct Hr as [[_ Hr]|Hr]; [|done].
  assert (contents v l (16 * Z.of_nat k) 16 = chunk c k) as Ec by (rewrite (contents_part v l (i_size ip)), dr_contents0 by lia; unfold chunk; f_equal; f_equal; lia).
  rewrite Ec in Hr. assert (length (chunk c k) = 16%nat) as Hlc by (unfold chunk; rewrite length_take, length_drop; lia).
  apply kernel_load in Hr; [|rewrite Hlc; done]. destruct (copyin_ok (um s1) false de (chunk c k) 16 Hr) as [E2 _]; [lia|].
  exists s1. split; [|done]. unfold read_entry. rewrite (bind_Ret _ _ _ _ _ E). change (16 =? DIRENT) with true. cbn [negb]. unfold load_de.
  change (Z.of_nat 16) with DIRENT in E2. rewrite (bind_Ret _ _ _ _ _ (in_um_Ret _ _ _ _ E2)). rewrite take_ge by lia. by destruct s1.
Qed.

Lemma chunk_byte c k : Forall is_byte c → Forall is_byte (chunk c k).
Proof using. intros Hc. unfold chunk. by apply Forall_take, Forall_drop. Qed.
(** The entry found is the first with the name. *)
Definition found (es : list (Z * bytes)) (name : bytes) (k : nat) : option (Z * Z) :=
  match list_find (λ e : Z * bytes, e.1 ≠ 0 ∧ name_of e.2 = name_of name) (drop k es) with Some (j, e) => Some (e.1, 16 * Z.of_nat (k + j)) | None => None end.
Lemma dirlookup_loop_run name : Forall is_byte name → ∀ fuel s dp ip l v L c k, is_dir s dp ip l v L c → roomy none L 1 → (k <= length c / 16)%nat → (length c / 16 - k <= fuel)%nat →
  ∃ s', dirlookup_loop sb de fuel dp name (16 * Z.of_nat k) s = Ret (found (dirents c) name k, s') ∧ same_files s s' ∧ TR (tr s') v none L.
Proof using Hsb HK.
  intros Hn. induction fuel as [|fuel IH]; intros s dp ip l v L c k Hd Hroom Hk Hf; destruct (dir_length _ _ _ _ _ _ _ Hd) as (Hl & Hs & Hm & Es); cbn [dirlookup_loop];
    rewrite (bind_Ret _ _ _ _ _ (get_inode_run s dp ip l (dr_has _ _ _ _ _ _ _ Hd))).
  - rewrite (proj2 (Z.ltb_ge _ _)) by lia. exists s. split; [|split; [done|by destruct Hd]]. unfold found. by rewrite drop_ge by (rewrite length_dirents; lia).
  - destruct (decide (k < length c / 16)%nat) as [Hlt|Hge]; [|rewrite (proj2 (Z.ltb_ge _ _)) by lia; exists s; split; [|split; [done|by destruct Hd]]; unfold found; by rewrite drop_ge by (rewrite length_dirents; lia)].
    rewrite (proj2 (Z.ltb_lt _ _)) by lia. cbn [negb]. destruct (read_entry_run s dp ip l v L c k "dirlink read" Hd Hroom Hlt) as (s1 & E1 & Hsame & Ht1). rewrite (bind_Ret _ _ _ _ _ E1).
    assert (drop k (dirents c) = (de_inum (chunk c k), de_name (chunk c k)) :: drop (S k) (dirents c)) as Edr by (by apply drop_S, lookup_dirents).
    destruct (IH s1 dp ip l v L c (S k)) as (s2 & E2 & [H1 H2] & Ht2); [by eapply is_dir_same|done|lia|lia|]. destruct Hsame as [Hs1 Hs2].
    assert (u32 (16 * Z.of_nat k + DIRENT) = 16 * Z.of_nat (S k)) as -> by (unfold DIRENT; rewrite wrap_small by (unfold in_range; lia); lia).
    pose proof (strncmp_name (Z.to_nat DIRSIZ) name (de_name (chunk c k)) Hn ltac:(apply Forall_drop, chunk_byte; apply Hd)) as Hcmp. change (strncmp_l _ _ _) with (s5_namecmp name (de_name (chunk c k))) in Hcmp.
    assert (∀ P, ¬ P ∨ de_inum (chunk c k) = 0 → (P ↔ name_of name = name_of (de_name (chunk c k))) → found (dirents c) name k = found (dirents c) name (S k)) as Hskip.
    { intros P Hno HP. unfold found. rewrite Edr. cbn [list_find]. rewrite decide_False by (cbn [fst snd]; intros [? ?]; destruct Hno as [Hno|?]; [apply Hno, HP; congruence|done]).
      destruct (list_find _ (drop (S k) (dirents c))) as [[j e]|]; [|done]. cbn. do 2 f_equal. lia. }
    destruct (Z.eqb_spec (de_inum (chunk c k)) 0) as [E0|E0].
    { exists s2. rewrite E2, (Hskip (name_of name = name_of (de_name (chunk c k)))) by tauto. split; [done|]. split; [split; congruence|done]. }
    destruct (Z.eqb_spec (s5_namecmp name (de_name (chunk c k))) 0) as [Ec|Ec].
    + exists s1. split; [|done]. unfold found. rewrite Edr. cbn [list_find]. rewrite decide_True by (cbn [fst snd]; split; [done|symmetry; by apply Hcmp]). cbn. by rewrite Nat.add_0_r.
    + exists s2. rewrite E2, (Hskip (name_of name = name_of (de_name (chunk c k)))) by tauto. split; [done|]. split; [split; congruence|done].
Qed.
Lemma found_map es name : ∀ k, fst <$> found es name k = dir_map (drop k es) !! name_of name.
Proof using.
  intros k. unfold found. assert (∀ (l : list (Z * bytes)) (j : nat), fst <$> (match list_find (λ e : Z * bytes, e.1 ≠ 0 ∧ name_of e.2 = name_of name) l with Some (i, e) => Some (e.1, 16 * Z.of_nat (j + i)) | None => None end) = dir_map l !! name_of name) as H; [|apply H].
  induction l as [|e l IH]; intros j; [done|]. rewrite dir_map_cons. cbn [list_find]. destruct (decide (e.1 ≠ 0 ∧ name_of e.2 = name_of name)); [done|].
  rewrite <- (IH j). by destruct (list_find _ l) as [[i e']|].
Qed.
Lemma found_entry es name inum off : found es name 0 = Some (inum, off) → ∃ k nm, off = 16 * Z.of_nat k ∧ es !! k = Some (inum, nm) ∧ inum ≠ 0 ∧ name_of nm = name_of name.
Proof using.
  unfold found. rewrite drop_0. destruct (list_find _ es) as [[j [i nm]]|] eqn:E; [|done]. intros [= <- <-]. apply list_find_Some in E as (Hj & [H1 H2] & _). by exists j, nm.
Qed.

(** [dirlookup] of a name gives the entry that the directory's map has for it,
    with its place, and asks [iget] for that inode; without one it returns 0. The
    directory and every file stay. *)
Lemma dirlookup_correct (iget : Z → M (s5 W U) nat) s dp ip l v L c name : is_dir s dp ip l v L c → roomy none L 1 → Forall is_byte name →
  ∃ s', same_files s s' ∧ TR (tr s') v none L ∧
    match dir_map (dirents c) !! name_of name with
    | None => s5_dirlookup sb de iget dp name s = Ret (None, s')
    | Some inum => ∃ k nm, dirents c !! k = Some (inum, nm) ∧ inum ≠ 0 ∧ name_of nm = name_of name ∧
        s5_dirlookup sb de iget dp name s = (i ← iget inum; mret (Some (i, 16 * Z.of_nat k))) s'
    end.
Proof using Hsb HK.
  intros Hd Hroom Hn. destruct (dir_length _ _ _ _ _ _ _ Hd) as (Hl & Hs & Hm & Es).
  destruct (dirlookup_loop_run name Hn (Z.to_nat (i_size ip)) s dp ip l v L c 0 Hd Hroom) as (s' & E & Hsame & Ht'); [lia|lia|]. exists s'. split; [done|]. split; [done|].
  unfold s5_dirlookup. rewrite (bind_Ret _ _ _ _ _ (get_inode_run s dp ip l (dr_has _ _ _ _ _ _ _ Hd))). destruct (dr_type _ _ _ _ _ _ _ Hd) as [Hf1 Hf2].
  rewrite (proj2 (Z.eqb_neq _ _) Hf1), (proj2 (Z.eqb_neq _ _) Hf2). cbn [orb]. change (16 * Z.of_nat 0) with 0 in E. rewrite (bind_Ret _ _ _ _ _ E).
  pose proof (found_map (dirents c) name 0) as Hfm. rewrite drop_0 in Hfm. rewrite <- Hfm. destruct (found (dirents c) name 0) as [[inum off]|] eqn:Ef; [|done].
  apply found_entry in Ef as (k & nm & -> & Hk & Hi & Hnm). cbn. by exists k, nm.
Qed.

(** ** Adding and removing entries *)

Lemma find_free_run : ∀ fuel s dp ip l v L c k, is_dir s dp ip l v L c → roomy none L 1 → (k <= length c / 16)%nat → (length c / 16 - k <= fuel)%nat →
  ∃ s' j, find_free sb de fuel dp (16 * Z.of_nat k) s = Ret (16 * Z.of_nat j, s') ∧ same_files s s' ∧ TR (tr s') v none L ∧ (j <= length c / 16)%nat ∧
    ((j < length c / 16)%nat → ∃ e, dirents c !! j = Some e ∧ e.1 = 0).
Proof using Hsb HK.
  induction fuel as [|fuel IH]; intros s dp ip l v L c k Hd Hroom Hk Hf; destruct (dir_length _ _ _ _ _ _ _ Hd) as (Hl & Hs & Hm & Es); cbn [find_free];
    rewrite (bind_Ret _ _ _ _ _ (get_inode_run s dp ip l (dr_has _ _ _ _ _ _ _ Hd))), wrap_small by (unfold in_range; lia).
  - rewrite (proj2 (Z.ltb_ge _ _)) by lia. exists s, k. split_and!; try done; [by destruct Hd|lia].
  - destruct (decide (k < length c / 16)%nat) as [Hlt|Hge]; [|rewrite (proj2 (Z.ltb_ge _ _)) by lia; exists s, k; split_and!; try done; by destruct Hd].
    rewrite (proj2 (Z.ltb_lt _ _)) by lia. cbn [negb]. destruct (read_entry_run s dp ip l v L c k "dirlink read" Hd Hroom Hlt) as (s1 & E1 & Hsame & Ht1). rewrite (bind_Ret _ _ _ _ _ E1).
    destruct (Z.eqb_spec (de_inum (chunk c k)) 0) as [E0|E0].
    { exists s1, k. split_and!; try done. intros _. eexists. split; [by apply lookup_dirents|done]. }
    destruct (IH s1 dp ip l v L c (S k)) as (s2 & j & E2 & [H1 H2] & Ht2 & Hj); [by eapply is_dir_same|done|lia|lia|]. destruct Hsame as [Hs1 Hs2].
    assert (s32 (16 * Z.of_nat k + DIRENT) = 16 * Z.of_nat (S k)) as -> by (unfold DIRENT; rewrite swrap_small by lia; lia).
    exists s2, j. split; [done|]. split; [split; congruence|done].
Qed.
Lemma store_de_run s d : Z.of_nat (length d) < 2 ^ 64 → ∃ u, store_de de d s = Ret ((), S5 (tr s) u (itable s) (pool s)) ∧ u_bytes u false de d.
Proof using HK.
  intros Hd. destruct (copyout_ok (um s) false de d) as (r & u & E & Hout & Ho). destruct (Ho 0 ltac:(done) (kernel_open _ _ _)) as [-> _]. destruct Hout as [[_ Hout]|?]; [|done].
  exists u. split; [|by eapply kernel_load]. unfold store_de. by rewrite (bind_Ret _ _ _ _ _ (in_um_Ret _ _ _ _ E)).
Qed.

(** An entry of the directory was written: its entries are [es] now, on disk too;
    every other inode and file stays. *)
Definition dir_written (dp : nat) (ip : inode) l v (es : list (Z * bytes)) s' : Prop :=
  ∃ ip' l' v' L' c', is_dir s' dp ip' l' v' L' c' ∧ dirents c' = es ∧ i_size ip <= i_size ip' ∧
    inode_on_disk sb v' (inum ip) = Some (dinode_bytes ip' l') ∧ (∀ j, an_inode sb j → j ≠ inum ip → inode_on_disk sb v' j = inode_on_disk sb v j) ∧
    ∀ lo z, apart sb v l lo → dense v lo z → apart sb v' l' lo ∧ contents v' lo 0 z = contents v lo 0 z.
(** What the directory and the transaction must have for a write of an entry. *)
Record dir_room (ip : inode) l v L : Prop := {
  rm_meta : meta_used sb v;
  rm_inode : an_inode sb (inum ip);
  rm_fits : fits sb v l L {[IBLOCK (inum ip) sb]} 1;
  rm_room : (t_quota + 6 <= t_room)%nat;
}.
Lemma write_entry_run s dp ip l v L c k d : is_dir s dp ip l v L c → dir_room ip l v L → u_bytes (um s) false de d → length d = 16%nat → Forall is_byte d →
  (k <= length c / 16)%nat → 16 * Z.of_nat k + 16 <= MAXFILE * BSIZE →
  let es := if decide (k < length c / 16)%nat then <[k := (de_inum d, de_name d)]> (dirents c) else dirents c ++ [(de_inum d, de_name d)] in NoDup (names es) →
  ∃ s', s5_writei sb dp false de (16 * Z.of_nat k) DIRENT s = Ret (DIRENT, s') ∧ dir_written dp ip l v es s'.
Proof using Hsb Hone.
  intros Hd Hr Hu Hlen Hby Hk Hmax es Hnd. destruct (dir_length _ _ _ _ _ _ _ Hd) as (Hl & Hs & Hm & Es). pose proof Hd as []. destruct Hr.
  destruct (writei_spec sb Hsb Hone 0 s dp ip l v L false de (16 * Z.of_nat k) d) as (w' & v' & l' & L' & E & Ht' & Hw' & Hd' & Hc' & Hi' & Hlo & _); try done; try lia; rewrite ?Hlen; try done.
  { apply fits_res_0. assert (touched (16 * Z.of_nat k) (Z.of_nat 16) = 1%nat) as ->; [|done]. unfold touched. rewrite (proj2 (Z.leb_gt _ _)) by lia.
    assert ((16 * Z.of_nat k + Z.of_nat 16 - 1) / BSIZE = 16 * Z.of_nat k / BSIZE) as ->; [|replace (_ - _ + 1) with 1 by lia; done]. unfold BSIZE. dlia. }
  rewrite Hlen in E, Hc', Hd', Hi'. change (Z.of_nat 16) with DIRENT in E, Hc', Hd', Hi'. eexists. split; [exact E|]. set (size := Z.max (i_size ip) (16 * Z.of_nat k + DIRENT)) in *.
  assert (contents v' l' 0 size = take (16 * k) c ++ d ++ drop (16 * k + 16) c) as Ec.
  { rewrite Hc'. f_equal; [|f_equal].
    - rewrite (contents_part v l (i_size ip)), drop_0, dr_contents0 by lia. f_equal. lia.
    - destruct (decide (k < length c / 16)%nat).
      + rewrite (contents_part v l (i_size ip)), <- dr_contents0 by (unfold DIRENT; lia). rewrite take_ge by (rewrite length_drop; unfold DIRENT in *; lia). f_equal. unfold DIRENT. lia.
      + rewrite drop_ge by lia. unfold contents. by rewrite seqZ_nil by (unfold DIRENT; lia). }
  assert (dirents (contents v' l' 0 size) = es) as Ees by (rewrite Ec; by apply dirents_write).
  exists (set_size size ip), l', v', L', (contents v' l' 0 size). split; [|split; [done|split; [cbn; lia|split; [rewrite Hi' by done; by rewrite decide_True|split]]]].
  - split; try done; cbn [tr itable pool i_size set_size].
    + destruct dr_has0 as [Hit [b Hp]]. split; [apply list_lookup_insert_eq; by eapply lookup_lt_Some|]. exists b. cbn. unfold with_addrs. cbn. rewrite list_lookup_alter_eq, Hp. done.
    + unfold size, DIRENT. destruct (Z.max_spec (i_size ip) (16 * Z.of_nat k + 16)) as [[_ ->]|[_ ->]]; [dlia|done].
    + rewrite Ec, !Forall_app. split_and!; [by apply Forall_take|done|by apply Forall_drop].
    + by rewrite Ees.
  - intros j Hj Hne. rewrite Hi' by done. by rewrite decide_False.
  - intros lo z Hap Hz. destruct (Hlo lo Hap) as [Hap' Hc]. split; [done|]. by apply Hc.
Qed.

Lemma names_insert es k e0 inum nm : es !! k = Some e0 → e0.1 = 0 → inum ≠ 0 → names (<[k := (inum, nm)]> es) ≡ₚ name_of nm :: names es.
Proof using.
  intros Hk H0 Hi. rewrite <- (take_drop_middle es k e0 Hk) at 2. rewrite insert_take_drop by (by eapply lookup_lt_Some). unfold names. rewrite !filter_app, !filter_cons, !fmap_app.
  rewrite decide_True by done. rewrite decide_False by tauto. rewrite fmap_cons. cbn [snd]. by rewrite Permutation_middle.
Qed.
Lemma names_app es inum nm : inum ≠ 0 → names (es ++ [(inum, nm)]) ≡ₚ name_of nm :: names es.
Proof using. intros Hi. unfold names. rewrite filter_app, filter_cons, decide_True, filter_nil, fmap_app by done. cbn. by rewrite Permutation_app_comm. Qed.
Lemma names_delete es k z : (k < length es)%nat → z.1 = 0 → NoDup (names es) → NoDup (names (<[k := z]> es)).
Proof using.
  intros Hk Hz. destruct (lookup_lt_is_Some_2 es k Hk) as [e He]. rewrite <- (take_drop_middle es k e He) at 1. rewrite insert_take_drop by done. unfold names. rewrite !filter_app, !filter_cons, !fmap_app.
  rewrite (decide_False (P := z.1 ≠ 0)) by tauto. destruct (decide (e.1 ≠ 0)); [|done]. rewrite fmap_cons. rewrite !NoDup_app. setoid_rewrite elem_of_cons. intros (H1 & H2 & [_ H3]%NoDup_cons). split_and!; try done.
  intros x Hx Hx'. apply (H2 x Hx). by right.
Qed.
(** The new entry as [dirlink] fills it in. *)
Lemma new_dirent inum name (d := le_bytes 2 inum ++ strncpy_l (Z.to_nat DIRSIZ) name) : 0 < inum < 2 ^ 16 → Forall is_byte name →
  length d = 16%nat ∧ Forall is_byte d ∧ de_inum d = inum ∧ name_of (de_name d) = name_of name.
Proof using.
  intros Hi Hn. subst d. split_and!.
  - by rewrite length_app, length_le_bytes, length_strncpy.
  - apply Forall_app. split; [apply le_bytes_byte|]. clear Hi. revert name Hn. induction (Z.to_nat DIRSIZ) as [|n IH]; intros name Hn; cbn [strncpy_l]; [constructor|].
    destruct (hd 0 name =? 0); [by apply Forall_replicate|]. constructor; [destruct Hn; done|]. apply IH. destruct Hn; [constructor|done].
  - unfold de_inum. rewrite take_app_le by (rewrite length_le_bytes; lia). rewrite take_ge by (rewrite length_le_bytes; lia). rewrite le_val_bytes. apply Z.mod_small. change (8 * Z.of_nat 2) with 16. lia.
  - unfold de_name, name_of. rewrite drop_app_ge by (rewrite length_le_bytes; lia). rewrite length_le_bytes, drop_0. apply cname_strncpy.
Qed.

(** C7: [dirlink] adds the name to the directory's map, in memory and on disk, if the
    map does not have it; otherwise it puts the inode found back and returns -1
    without a write. All other files and inodes stay. *)
Theorem dirlink_correct (iget : Z → M (s5 W U) nat) (iput : nat → M (s5 W U) ()) s dp ip l v L c name inum : is_dir s dp ip l v L c → dir_room ip l v L →
  Forall is_byte name → 0 < inum < 2 ^ 16 → i_size ip + DIRENT <= MAXFILE * BSIZE →
  match dir_map (dirents c) !! name_of name with
  | Some i => ∃ s', same_files s s' ∧ TR (tr s') v none L ∧ generic_dirlink sb de iget iput dp name inum s = (j ← iget i; iput j ;; mret (-1)) s'
  | None => ∃ s' es, generic_dirlink sb de iget iput dp name inum s = Ret (0, s') ∧ dir_written dp ip l v es s' ∧
      dir_map es = <[name_of name := inum]> (dir_map (dirents c))
  end.
Proof using Hsb Hone HK.
  intros Hd Hr Hn Hi Hmax. destruct (dir_length _ _ _ _ _ _ _ Hd) as (Hl & Hs & Hm & Es). assert (roomy none L 1) as Hroom.
  { destruct Hr. eapply roomy_le, (fits_room sb 0 v l L _ _ rm_room0 (proj1 (fits_res_0 sb v l L _ _) rm_fits0)). lia. }
  destruct (dirlookup_correct iget s dp ip l v L c name Hd Hroom Hn) as (s1 & Hsame & Ht1 & Hlk). unfold generic_dirlink. change (MAXFILE * BSIZE) with 274432 in Hmax.
  destruct (dir_map (dirents c) !! name_of name) as [i|] eqn:Ed.
  { destruct Hlk as (k & nm & _ & _ & _ & E). exists s1. split; [done|]. split; [done|]. unfold mbind, M_bind in *. rewrite E. by destruct (iget i s1) as [[j s2]| | | |]. }
  rewrite (bind_Ret _ _ _ _ _ Hlk). assert (is_dir s1 dp ip l v L c) as Hd1 by (by eapply is_dir_same). rewrite (bind_Ret _ _ _ _ _ (get_inode_run s1 dp ip l (dr_has _ _ _ _ _ _ _ Hd1))).
  destruct (find_free_run (Z.to_nat (i_size ip)) s1 dp ip l v L c 0 Hd1 Hroom) as (s2 & k & E2 & Hsame2 & Ht2 & Hk & Hfree); [lia|lia|]. change (16 * Z.of_nat 0) with 0 in E2. rewrite (bind_Ret _ _ _ _ _ E2).
  destruct (new_dirent inum name Hi Hn) as (Hdl & Hdb & Hdi & Hdn). set (d := le_bytes 2 inum ++ strncpy_l (Z.to_nat DIRSIZ) name) in *.
  destruct (store_de_run s2 d) as (u & E3 & Hu); [rewrite Hdl; done|]. rewrite (bind_Ret _ _ _ _ _ E3). set (s3 := S5 (tr s2) u (itable s2) (pool s2)).
  assert (is_dir s3 dp ip l v L c) as Hd3 by (eapply is_dir_same; [|exact Ht2|exact Hd1]; done). rewrite wrap_small by (unfold in_range; lia).
  assert (name_of name ∉ names (dirents c)) as Hni by (by apply dir_map_None). rewrite <- Hdn in Hni, Ed.
  destruct (write_entry_run s3 dp ip l v L c k d Hd3 Hr Hu Hdl Hdb Hk) as (s4 & E4 & Hw); [change (MAXFILE * BSIZE) with 274432; unfold DIRENT in *; lia| |].
  - rewrite Hdi. pose proof (dr_names _ _ _ _ _ _ _ Hd) as Hnd. destruct (decide (k < length c / 16)%nat) as [Hlt|Hge].
    + destruct (Hfree Hlt) as (e0 & He & H0). rewrite (names_insert _ _ _ _ _ He H0) by lia. by constructor.
    + rewrite names_app by lia. by constructor.
  - rewrite Hdi in Hw. eexists s4, _. split; [by rewrite (bind_Ret _ _ _ _ _ E4)|]. split; [exact Hw|]. rewrite <- Hdn. destruct (decide (k < length c / 16)%nat) as [Hlt|Hge].
    + destruct (Hfree Hlt) as (e0 & He & H0). apply (dir_map_insert _ _ e0); done || lia.
    + apply dir_map_app; done || lia.
Qed.

(** [s5_unlink] at the place of an entry takes its name, and no other, out of the
    directory's map. *)
Lemma unlink_correct s dp ip l v L c k inum nm : is_dir s dp ip l v L c → dir_room ip l v L → dirents c !! k = Some (inum, nm) → inum ≠ 0 →
  ∃ s' es, s5_unlink sb de dp (16 * Z.of_nat k) s = Ret (0, s') ∧ dir_written dp ip l v es s' ∧ dir_map es = delete (name_of nm) (dir_map (dirents c)).
Proof using Hsb Hone HK.
  intros Hd Hr Hk Hi. destruct (dir_length _ _ _ _ _ _ _ Hd) as (Hl & Hs & Hm & Es). pose proof (lookup_lt_Some _ _ _ Hk) as Hlt. rewrite length_dirents in Hlt.
  destruct (store_de_run s (replicate (Z.to_nat DIRENT) 0)) as (u & E1 & Hu); [done|]. unfold s5_unlink. rewrite (bind_Ret _ _ _ _ _ E1). set (s1 := S5 (tr s) u (itable s) (pool s)).
  assert (is_dir s1 dp ip l v L c) as Hd1 by (eapply is_dir_same; [| |exact Hd]; [done|by destruct Hd]).
  destruct (write_entry_run s1 dp ip l v L c k (replicate (Z.to_nat DIRENT) 0) Hd1 Hr Hu) as (s2 & E2 & Hw); [done|by repeat constructor|lia|change (MAXFILE * BSIZE) with 274432; lia| |].
  - rewrite decide_True by done. apply names_delete; [by rewrite length_dirents|done|by destruct Hd].
  - rewrite decide_True in Hw by done. eexists s2, _. split; [by rewrite (bind_Ret _ _ _ _ _ E2)|]. split; [exact Hw|].
    apply (dir_map_delete _ k (inum, nm)); [done..|by destruct Hd|done].
Qed.

Lemma isdirempty_loop_run : ∀ fuel s dp ip l v L c k, is_dir s dp ip l v L c → roomy none L 1 → (k <= length c / 16)%nat → (length c / 16 - k <= fuel)%nat →
  ∃ s', isdirempty_loop sb de fuel dp (16 * Z.of_nat k) s = Ret (if decide (Forall (λ e, e.1 = 0) (drop k (dirents c))) then 1 else 0, s') ∧ same_files s s' ∧ TR (tr s') v none L.
Proof using Hsb HK.
  induction fuel as [|fuel IH]; intros s dp ip l v L c k Hd Hroom Hk Hf; destruct (dir_length _ _ _ _ _ _ _ Hd) as (Hl & Hs & Hm & Es); cbn [isdirempty_loop];
    rewrite (bind_Ret _ _ _ _ _ (get_inode_run s dp ip l (dr_has _ _ _ _ _ _ _ Hd))), wrap_small by (unfold in_range; lia).
  - rewrite (proj2 (Z.ltb_ge _ _)) by lia. exists s. split; [|split; [done|by destruct Hd]]. by rewrite drop_ge by (rewrite length_dirents; lia).
  - destruct (decide (k < length c / 16)%nat) as [Hlt|Hge]; [|rewrite (proj2 (Z.ltb_ge _ _)) by lia; exists s; split; [|split; [done|by destruct Hd]]; by rewrite drop_ge by (rewrite length_dirents; lia)].
    rewrite (proj2 (Z.ltb_lt _ _)) by lia. cbn [negb]. destruct (read_entry_run s dp ip l v L c k "isdirempty: readi" Hd Hroom Hlt) as (s1 & E1 & Hsame & Ht1). rewrite (bind_Ret _ _ _ _ _ E1).
    assert (drop k (dirents c) = (de_inum (chunk c k), de_name (chunk c k)) :: drop (S k) (dirents c)) as -> by (by apply drop_S, lookup_dirents).
    destruct (Z.eqb_spec (de_inum (chunk c k)) 0) as [E0|E0]; cbn [negb].
    + destruct (IH s1 dp ip l v L c (S k)) as (s2 & E2 & [H1 H2] & Ht2); [by eapply is_dir_same|done|lia|lia|]. destruct Hsame as [Hs1 Hs2].
      assert (s32 (16 * Z.of_nat k + DIRENT) = 16 * Z.of_nat (S k)) as -> by (unfold DIRENT; rewrite swrap_small by lia; lia). exists s2. rewrite E2. split; [|split; [split; congruence|done]].
      destruct (decide (Forall _ (drop (S k) (dirents c)))) as [HF|HF]; [by rewrite decide_True by (by constructor)|rewrite decide_False; [done|]]. by intros [_ ?]%Forall_cons.
    + exists s1. split; [|done]. rewrite decide_False; [done|]. by intros [? _]%Forall_cons.
Qed.
Theorem isdirempty_correct s dp ip l v L c : is_dir s dp ip l v L c → roomy none L 1 → (2 <= length c / 16)%nat →
  ∃ s', s5_isdirempty sb de dp s = Ret (if decide (Forall (λ e, e.1 = 0) (drop 2 (dirents c))) then 1 else 0, s') ∧ same_files s s' ∧ TR (tr s') v none L.
Proof using Hsb HK.
  intros Hd Hroom H2. destruct (dir_length _ _ _ _ _ _ _ Hd) as (Hl & Hs & Hm & Es). unfold s5_isdirempty. rewrite (bind_Ret _ _ _ _ _ (get_inode_run s dp ip l (dr_has _ _ _ _ _ _ _ Hd))).
  destruct (isdirempty_loop_run (Z.to_nat (i_size ip)) s dp ip l v L c 2 Hd Hroom) as (s' & E & H); [lia|lia|]. exists s'. split; [exact E|exact H].
Qed.

(** ** New inodes *)

(** The type of inode [j] on disk. *)
Definition disk_type v (j : Z) : Z := match inode_on_disk sb v j with Some x => le_val (take 2 x) | None => 0 end.
Lemma type_field s v j x : inode_on_disk sb v j = Some x → field (v (IBLOCK j sb)) (DINODE * (j mod IPB)) 2 s = Ret (disk_type v j, s).
Proof using.
  intros Hx. unfold disk_type. rewrite Hx. unfold field. unfold inode_on_disk in Hx. rewrite <- (Z.add_0_r (DINODE * _)).
  rewrite (sub_bytes_sub _ _ _ _ _ _ Hx) by (unfold DINODE; lia). pose proof (length_sub_bytes _ _ _ _ Hx) as Hl. unfold DINODE in Hl.
  rewrite (sub_bytes_at x [] (take 2 x) (drop 2 x)); [done|symmetry; apply take_drop|done|by rewrite length_take; lia].
Qed.
Lemma an_inode_disk s v h L j : TR (tr s) v h L → an_inode sb j → ∃ x, inode_on_disk sb v j = Some x ∧ Z.of_nat (length x) = DINODE.
Proof using Hsb.
  intros Ht Hj. destruct (IBLOCK_range sb Hsb j Hj) as (_ & Hdev & _). pose proof (TR_length _ _ _ _ _ Ht Hdev) as Hlen. pose proof (dinode_slot j) as Hslot.
  destruct (sub_bytes_is_Some (v (IBLOCK j sb)) (DINODE * (j mod IPB)) DINODE) as [x Hx]; [lia|done|lia|]. exists x. split; [done|]. by eapply length_sub_bytes.
Qed.
Definition fresh_dinode (type : Z) : bytes := le_bytes 2 type ++ replicate 62 0.
Lemma ialloc_loop_run type i : an_inode sb i → (t_quota + 6 <= t_room)%nat → ∀ fuel s v L inum, TR (tr s) v none L → roomy none L 1 → may_log L {[IBLOCK i sb]} → 1 <= inum <= i →
  (∀ j, inum <= j < i → disk_type v j ≠ 0) → disk_type v i = 0 → i - inum < Z.of_nat fuel →
  ∃ w' v', ialloc_loop sb fuel inum type s = Ret (i, with_tr s w') ∧ TR w' v' none ({[IBLOCK i sb]} ∪ L) ∧
    (∀ j, an_inode sb j → inode_on_disk sb v' j = if decide (j = i) then Some (fresh_dinode type) else inode_on_disk sb v j) ∧
    ∀ lo, wf sb v lo → wf sb v' lo ∧ ∀ z, dense v lo z → contents v' lo 0 z = contents v lo 0 z.
Proof using Hsb.
  intros Hi Hroom. induction fuel as [|fuel IH]; intros s v L inum Ht Hr Hm Hin Hused Hfree Hf; [lia|]. cbn [ialloc_loop].
  assert (an_inode sb inum) as Hj by (unfold an_inode in *; lia). rewrite (proj2 (Z.ltb_lt _ _)) by apply Hj. cbn [negb].
  destruct (IBLOCK_range sb Hsb _ Hj) as (_ & Hdev & _ & _). destruct (TR_bread (tr s) v none L _ Ht Hdev) as (bp & w1 & E1 & Ht1); [done|done|].
  rewrite (bind_Ret _ _ _ _ _ (in_tr_Ret _ s _ _ E1)), (bind_Ret _ _ _ _ _ (in_tr_Ret _ (with_tr s w1) _ _ (TR_data w1 v _ _ _ bp Ht1 (lookup_insert_eq _ _ _)))).
  destruct (an_inode_disk s v none L inum Ht Hj) as (x & Hx & Hxl). rewrite (bind_Ret _ _ _ _ _ (type_field (with_tr s w1) v inum x Hx)).
  destruct (Z.eqb_spec (disk_type v inum) 0) as [E0|E0].
  - assert (inum = i) as -> by (destruct (decide (inum = i)); [done|]; exfalso; apply (Hused inum); [lia|done]).
    assert (Z.of_nat (length (v (IBLOCK i sb))) = BSIZE) as Hlb by (by eapply TR_length). pose proof (dinode_slot i) as Hslot.
    destruct (blit_is_Some (v (IBLOCK i sb)) (DINODE * (i mod IPB)) (fresh_dinode type)) as [d Ed]; [lia|cbn; unfold DINODE in *; lia|]. fold (fresh_dinode type). rewrite Ed. cbn [oget]. rewrite (bind_Ret (mret d) _ _ _ _ eq_refl).
    destruct (TR_put w1 v _ L (IBLOCK i sb) bp d Ht1) as (w2 & w3 & E2 & E3 & Ht3); [apply lookup_insert_eq|by rewrite (length_blit _ _ _ _ Ed)|pose proof (data_start_pos sb Hsb); destruct (IBLOCK_val sb Hsb _ Hj) as [-> ?]; lia|done|].
    rewrite (bind_Ret _ _ _ _ _ (in_tr_Ret _ (with_tr s w1) _ _ E2)), (bind_Ret _ _ _ _ _ (in_tr_Ret _ (with_tr s w2) _ _ E3)).
    destruct (TR_brelse w3 _ none _ _ bp Ht3) as (w4 & E4 & Ht4); [done|]. rewrite (bind_Ret _ _ _ _ _ (in_tr_Ret _ (with_tr s w3) _ _ E4)). eexists w4, _. split; [done|]. split; [exact Ht4|]. split.
    + intros j Hjj. unfold inode_on_disk. rewrite fn_insert_at. case_decide as Hc; case_decide as Hjn; [subst j; exact (sub_bytes_blit _ _ _ _ Ed)| |by subst j|done].
      rewrite Hc. apply (sub_bytes_blit_other _ _ _ _ _ _ Ed). change (Z.of_nat (length (fresh_dinode type))) with DINODE. unfold an_inode in *.
      assert (j / IPB = i / IPB) as Hq by (destruct (IBLOCK_val sb Hsb j Hjj) as [E1' _], (IBLOCK_val sb Hsb _ Hj) as [E2' _]; lia).
      pose proof (Z.div_mod j IPB ltac:(done)). pose proof (Z.div_mod i IPB ltac:(done)). rewrite Hq in *. unfold DINODE. lia.
    + intros lo Hw. destruct (inode_block_store sb Hsb v lo i d Hj Hw) as (Hw' & _ & _ & Hc). split; [done|]. intros z Hz. by apply Hc.
  - destruct (TR_brelse w1 v none L _ bp Ht1) as (w2 & E2 & Ht2); [done|]. rewrite (bind_Ret _ _ _ _ _ (in_tr_Ret _ (with_tr s w1) _ _ E2)).
    destruct (IH (with_tr s w2) v L (inum + 1) Ht2 Hr Hm) as (w' & v' & E & H); [|intros; apply Hused; lia|done|lia|].
    { destruct (decide (inum = i)) as [->|]; [congruence|lia]. }
    exists w', v'. split; [exact E|exact H].
Qed.

(** [s5_ialloc] takes the first inode whose type on disk is 0, writes it there
    with the new type and nothing else set, and asks [iget] for it; no other inode
    and no file changes. *)
Lemma ialloc_correct (iget : Z → M (s5 W U) nat) type i s v L : an_inode sb i → 1 <= i → (t_quota + 6 <= t_room)%nat → TR (tr s) v none L → roomy none L 1 → may_log L {[IBLOCK i sb]} →
  (∀ j, 1 <= j < i → disk_type v j ≠ 0) → disk_type v i = 0 →
  ∃ w' v', s5_ialloc sb iget type s = iget i (with_tr s w') ∧ TR w' v' none ({[IBLOCK i sb]} ∪ L) ∧
    (∀ j, an_inode sb j → inode_on_disk sb v' j = if decide (j = i) then Some (fresh_dinode type) else inode_on_disk sb v j) ∧
    ∀ lo, wf sb v lo → wf sb v' lo ∧ ∀ z, dense v lo z → contents v' lo 0 z = contents v lo 0 z.
Proof using Hsb.
  intros Hi H1 Hroom Ht Hr Hm Hused Hfree. destruct (ialloc_loop_run type i Hi Hroom (Z.to_nat (ninodes sb)) s v L 1 Ht Hr Hm) as (w' & v' & E & H); [lia|done|done|unfold an_inode in Hi; lia|].
  exists w', v'. split; [|done]. unfold s5_ialloc. by rewrite (bind_Ret _ _ _ _ _ E).
Qed.
End dir.

(** ** On the machine of [S5Log] *)

#[local] Existing Instance cache1.
#[local] Existing Instance cache1_spec.

Lemma store_other d : ∀ a u x, (∀ k, (k < length d)%nat → u64 (a + Z.of_nat k) ≠ x) → store a d u x = u x.
Proof.
  induction d as [|y d IH]; intros a u x Hx; cbn [store]; [done|]. rewrite IH.
  - apply fn_lookup_insert_ne. specialize (Hx 0%nat ltac:(cbn; lia)). by rewrite Z.add_0_r in Hx.
  - intros k Hk. rewrite wrap_add_l. replace (a + 1 + Z.of_nat k) with (a + Z.of_nat (S k)) by lia. apply Hx. cbn. lia.
Qed.
Lemma store_plain d : ∀ a u, Z.of_nat (length d) < 2 ^ 64 → plain_bytes (store a d u) false a d.
Proof.
  induction d as [|y d IH]; intros a u Hl k Hk; cbn [length] in *; [lia|]. cbn [store]. destruct k as [|k].
  - rewrite Z.add_0_r, store_other; [by rewrite fn_lookup_insert|]. intros j Hj. rewrite wrap_add_l. unfold wrap. dlia.
  - change ((y :: d) !! S k) with (d !! k). rewrite (IH (u64 (a + 1)) (<[u64 a := y]> u) ltac:(lia) k ltac:(lia)). f_equal. f_equal. rewrite wrap_add_l. f_equal. lia.
Qed.
#[global] Instance plain_kernel : KernelMem (Z → Z).
Proof. split; [done|]. intros u a d u' Hl ->. by apply store_plain. Qed.

(** A directory with two free entries. *)
Definition demo_dp : inode := Inode 5 1 true true 0 T_DIR 0 0 1 32.
Definition demo_dir (c : bsys ()) : s5 (lsys (bsys ())) (Z → Z) := S5 (LSys demo_log c) demo_mem [demo_dp] [S5Inode true demo_l].
Definition demo_iget (inum : Z) : M (s5 (lsys (bsys ())) (Z → Z)) nat := mret 9%nat.
Lemma demo_is_dir c : bc_rep c (AState (λ _, 0) (λ _, None) demo demo 30 []) → is_dir (HS := log_trans_spec 2 demo []) demo_sb (demo_dir c) 0 demo_dp demo_l demo ∅ (replicate 32 0).
Proof.
  intros Hc. split; try done.
  - exists (TState ∅ demo ∅ ∅). split_and!; try done. by apply demo_begun.
  - split; [done|]. by exists true.
  - exact demo_wf.
  - split; [done|]. intros bn H1 H2. unfold BSIZE in H2. cbn in H2. replace bn with 0 by lia. done.
  - by repeat constructor.
  - constructor.
Qed.
Lemma demo_dir_room : dir_room (HS := log_trans_spec 2 demo []) demo_sb demo_dp demo_l demo ∅.
Proof. split; [exact demo_meta|done|apply demo_fits; lia|cbn; lia]. Qed.
Lemma dirlink_correct_witness : ∃ (c : bsys ()) s' es, generic_dirlink demo_sb 1000 demo_iget (λ _, mret ()) 0 [97; 98] 7 (demo_dir c) = Ret (0, s') ∧
  dir_map es = {[[97; 98] := 7]} ∧ itable s' ≠ [].
Proof.
  destruct demo_boot as [c Hc].
  pose proof (dirlink_correct (HS := log_trans_spec 2 demo []) demo_sb demo_sb_ok ltac:(done) 1000 demo_iget (λ _, mret ()) (demo_dir c) 0 demo_dp demo_l demo ∅ (replicate 32 0) [97; 98] 7
    (demo_is_dir c Hc) demo_dir_room ltac:(by repeat constructor) ltac:(lia) ltac:(done)) as H.
  change (dir_map (dirents (replicate 32 0))) with (∅ : gmap bytes Z) in H. rewrite lookup_empty in H. destruct H as (s' & es & E & Hw & Em). exists c, s', es.
  split; [exact E|]. split; [exact Em|]. destruct Hw as (ip' & l' & v' & L' & c' & Hd & _). pose proof (dr_has _ _ _ _ _ _ _ _ Hd) as [Hi _]. intros E'. by rewrite E' in Hi.
Defined.
