(* ===== verification/Grep.v ===== *)
(** * [user/grep.c]: the matcher of Kernighan and Pike, and the line buffer

    A C string is the list of its characters, without the NUL. The reference is the
    language of a pattern: [parse] reads a pattern as a list of items, [lang] says
    which strings they stand for. [match_correct] says that [match] finds a match
    exactly where there is one; [grep_correct] that [grep] prints the lines that
    match, however the input is cut by [read]. *)
From S2P Require Import Prelude.

Definition star : Z := 42.
Definition dot : Z := 46.
Definition hat : Z := 94.
Definition dollar : Z := 36.
Definition newline : Z := 10.

(** ** The code *)

(** [matchstar] for a rest of the pattern given by its matcher. *)
Fixpoint matchstar (c : Z) (here : list Z → bool) (text : list Z) : bool :=
  if here text then true else
  match text with
  | [] => false
  | t :: text => if (t =? c) || (c =? dot) then matchstar c here text else false
  end.
Fixpoint matchhere (re text : list Z) : bool :=
  match re with
  | [] => true
  | c :: re1 =>
      match re1 with
      | x :: re2 =>
          if x =? star then matchstar c (matchhere re2) text else
          match text with [] => false | t :: text => if (c =? dot) || (c =? t) then matchhere re1 text else false end
      | [] =>
          if c =? dollar then match text with [] => true | _ => false end else
          match text with [] => false | t :: text => if (c =? dot) || (c =? t) then matchhere re1 text else false end
      end
  end.
Fixpoint match_any (re text : list Z) : bool :=
  if matchhere re text then true else match text with [] => false | _ :: text => match_any re text end.
Definition match_ (re text : list Z) : bool :=
  match re with c :: re' => if c =? hat then matchhere re' text else match_any re text | [] => match_any re text end.

(** The buffer: [strchr] finds the newline unless a NUL comes first. *)
Definition BUFSIZE : nat := 1024.
Fixpoint find_line (p : list Z) : option (list Z * list Z) :=
  match p with
  | [] => None
  | c :: p =>
      if c =? newline then Some ([], p) else if c =? 0 then None else
      match find_line p with Some (l, q) => Some (c :: l, q) | None => None end
  end.
(** The lines of the buffer: the output, and what is left for the next turn. *)
Fixpoint grep_lines (fuel : nat) (pattern p : list Z) : list Z * list Z :=
  match fuel with
  | O => ([], p)
  | S fuel =>
      match find_line p with
      | None => ([], p)
      | Some (l, q) =>
          let '(out, rest) := grep_lines fuel pattern q in
          ((if match_ pattern l then l ++ [newline] else []) ++ out, rest)
      end
  end.
(** [input] is what [read] has to give, [cut] how much of it each call returns,
    at least a byte and at most what is asked for; [buf] is the buffer's contents. *)
Fixpoint grep (cut : nat → nat → nat) (fuel : nat) (pattern buf input : list Z) : option (list Z) :=
  let room := (BUFSIZE - length buf - 1)%nat in
  let n := (cut (length input) room `min` room `min` length input)%nat in
  if decide (n = 0%nat) then Some [] else
  match fuel with
  | O => None
  | S fuel =>
      let buf := buf ++ take n input in
      let '(out, rest) := grep_lines (length buf) pattern buf in
      (λ o, out ++ o) <$> grep cut fuel pattern rest (drop n input)
  end.

(** ** The language of a pattern *)

Inductive item := One (c : Z) | Many (c : Z).
Definition fits_char (c t : Z) : Prop := c = dot ∨ c = t.
Fixpoint lang (its : list item) (w : list Z) : Prop :=
  match its with
  | [] => w = []
  | One c :: its => ∃ t w', w = t :: w' ∧ fits_char c t ∧ lang its w'
  | Many c :: its => ∃ u w', w = u ++ w' ∧ Forall (fits_char c) u ∧ lang its w'
  end.
(** The items of a pattern, and whether it ends in [$]. *)
Fixpoint parse (re : list Z) : list item * bool :=
  match re with
  | [] => ([], false)
  | c :: re1 =>
      match re1 with
      | x :: re2 => if x =? star then let '(its, e) := parse re2 in (Many c :: its, e) else let '(its, e) := parse re1 in (One c :: its, e)
      | [] => if c =? dollar then ([], true) else ([One c], false)
      end
  end.
(** The pattern matches the beginning of the text. *)
Definition here_spec (re text : list Z) : Prop :=
  ∃ w rest, text = w ++ rest ∧ lang (parse re).1 w ∧ ((parse re).2 = true → rest = []).

(** ** Proofs *)

(** Two characters of the pattern at a time. *)
Lemma pattern_ind (P : list Z → Prop) : P [] → (∀ c re, P re → (∀ x re2, re = x :: re2 → P re2) → P (c :: re)) → ∀ re, P re.
Proof.
  intros H0 H1 re. assert (∀ n re, (length re <= n)%nat → P re) as H; [|by apply (H (length re))].
  induction n as [|n IH]; intros [|c re'] Hl; cbn in Hl; try done; [lia|]. apply H1; [apply IH; lia|]. intros x re2 ->. apply IH. cbn in Hl. lia.
Qed.
Lemma fits_char_bool c t : (c =? dot) || (c =? t) = true ↔ fits_char c t.
Proof. unfold fits_char. rewrite orb_true_iff, !Z.eqb_eq. done. Qed.
Lemma fits_char_star c t : (t =? c) || (c =? dot) = true ↔ fits_char c t.
Proof. unfold fits_char. rewrite orb_true_iff, !Z.eqb_eq. intuition congruence. Qed.

Lemma matchstar_spec c here text : matchstar c here text = true ↔ ∃ u rest, text = u ++ rest ∧ Forall (fits_char c) u ∧ here rest = true.
Proof.
  induction text as [|t text IH]; cbn [matchstar].
  - destruct (here []) eqn:E; split; try done; [by exists [], []|]. intros (u & rest & Hu & _ & Hr). symmetry in Hu. apply app_nil in Hu as [-> ->]. congruence.
  - destruct (here (t :: text)) eqn:E; [split; [intros _; by exists [], (t :: text)|done]|].
    destruct ((t =? c) || (c =? dot)) eqn:Ef.
    + rewrite IH. apply fits_char_star in Ef. split.
      * intros (u & rest & -> & Hu & Hr). exists (t :: u), rest. split; [done|]. split; [by constructor|done].
      * intros ([|t' u] & rest & Hu & HF & Hr); [cbn in Hu; subst; congruence|]. injection Hu as -> ->. apply Forall_cons in HF as [_ HF]. by exists u, rest.
    + split; [done|]. intros ([|t' u] & rest & Hu & HF & Hr); [cbn in Hu; subst; congruence|]. injection Hu as -> ->. apply Forall_cons in HF as [Hf _].
      apply fits_char_star in Hf. congruence.
Qed.

(** One character of the pattern against one of the text. *)
Lemma here_one (its : list item) (e : bool) c (here : list Z → bool) text :
  (∀ text, here text = true ↔ ∃ w rest, text = w ++ rest ∧ lang its w ∧ (e = true → rest = [])) →
  match text with [] => false | t :: text => if (c =? dot) || (c =? t) then here text else false end = true ↔
  ∃ w rest, text = w ++ rest ∧ lang (One c :: its) w ∧ (e = true → rest = []).
Proof.
  intros IH. split.
  - destruct text as [|t text]; [done|]. destruct ((c =? dot) || (c =? t)) eqn:E; [|done]. intros (w & rest & -> & Hl & He)%IH. apply fits_char_bool in E.
    exists (t :: w), rest. split; [done|]. split; [|done]. by exists t, w.
  - intros (w & rest & -> & (t & w' & -> & Hf & Hl) & He). cbn. rewrite (proj2 (fits_char_bool c t) Hf). apply IH. by exists w', rest.
Qed.

Lemma matchhere_spec re : ∀ text, matchhere re text = true ↔ here_spec re text.
Proof.
  unfold here_spec. induction re as [|c re IH1 IH2] using pattern_ind; intros text.
  { split; [intros _; by exists [], text|done]. }
  destruct re as [|x re2].
  - cbn [matchhere parse]. destruct (Z.eqb_spec c dollar) as [->|Hc].
    + cbn. split; [destruct text; [intros _; by exists [], []|done]|]. intros (w & rest & -> & -> & He). by rewrite He.
    + apply (here_one [] false c (matchhere [])). intros text'. cbn. split; [intros _; by exists [], text'|done].
  - specialize (IH2 x re2 eq_refl). change (matchhere (c :: x :: re2) text) with (if x =? star then matchstar c (matchhere re2) text else
      match text with [] => false | t :: text => if (c =? dot) || (c =? t) then matchhere (x :: re2) text else false end).
    change (parse (c :: x :: re2)) with (if x =? star then let '(its, e) := parse re2 in (Many c :: its, e) else let '(its, e) := parse (x :: re2) in (One c :: its, e)).
    destruct (x =? star).
    + destruct (parse re2) as [its e]. cbn [fst snd] in *. rewrite matchstar_spec. split.
      * intros (u & rest & -> & Hu & (w & rest' & -> & Hl & He)%IH2). exists (u ++ w), rest'. rewrite <- app_assoc. split; [done|]. split; [|done]. by exists u, w.
      * intros (w & rest & -> & (u & w' & -> & Hu & Hl) & He). exists u, (w' ++ rest). rewrite <- app_assoc. split; [done|]. split; [done|]. apply IH2. by exists w', rest.
    + destruct (parse (x :: re2)) as [its e]. cbn [fst snd] in *. by apply here_one.
Qed.

Lemma match_any_spec re text : match_any re text = true ↔ ∃ a b, text = a ++ b ∧ here_spec re b.
Proof.
  induction text as [|t text IH]; cbn [match_any].
  - destruct (matchhere re []) eqn:E; split; try done.
    + intros _. exists [], []. split; [done|]. by apply matchhere_spec.
    + intros (a & b & Hab & Hh). symmetry in Hab. apply app_nil in Hab as [-> ->]. apply matchhere_spec in Hh. congruence.
  - destruct (matchhere re (t :: text)) eqn:E; [split; [intros _; exists [], (t :: text); split; [done|]; by apply matchhere_spec|done]|].
    rewrite IH. split.
    + intros (a & b & -> & Hh). by exists (t :: a), b.
    + intros ([|t' a] & b & Hab & Hh); [cbn in Hab; subst b; apply matchhere_spec in Hh; congruence|]. injection Hab as -> ->. by exists a, b.
Qed.

(** C20: [match] finds a match exactly where there is one: a part of the text that is
    in the language of the pattern, at the beginning if the pattern starts with
    [^], up to the end if it ends with [$]. *)
Theorem match_correct re text : match_ re text = true ↔
  ∃ a w rest, text = a ++ w ++ rest ∧
    match re with
    | c :: re' => if c =? hat then a = [] ∧ lang (parse re').1 w ∧ ((parse re').2 = true → rest = []) else lang (parse re).1 w ∧ ((parse re).2 = true → rest = [])
    | [] => lang (parse re).1 w ∧ ((parse re).2 = true → rest = [])
    end.
Proof.
  assert (match_any re text = true ↔ ∃ a w rest, text = a ++ w ++ rest ∧ lang (parse re).1 w ∧ ((parse re).2 = true → rest = [])) as Hany.
  { rewrite match_any_spec. unfold here_spec. split; [intros (a & b & -> & w & rest & -> & H); by exists a, w, rest|]. intros (a & w & rest & -> & H). exists a, (w ++ rest). split; [done|]. by exists w, rest. }
  unfold match_. destruct re as [|c re']; [done|]. destruct (c =? hat); [|done]. rewrite matchhere_spec. unfold here_spec. split.
  - intros (w & rest & -> & H). by exists [], w, rest.
  - intros (a & w & rest & -> & -> & H). by exists w, rest.
Qed.

(** ** Lines *)

(** The lines of a text, and what follows the last newline. *)
Fixpoint lines (p : list Z) : list (list Z) * list Z :=
  match p with
  | [] => ([], [])
  | c :: p =>
      let '(ls, r) := lines p in
      if c =? newline then ([] :: ls, r) else match ls with [] => ([], c :: r) | l :: ls => ((c :: l) :: ls, r) end
  end.
Definition printed (pattern : list Z) (ls : list (list Z)) : list Z := mjoin ((λ l, if match_ pattern l then l ++ [newline] else []) <$> ls).
Definition join_line (b : list Z) (x : list (list Z) * list Z) : list (list Z) * list Z := match x.1 with [] => ([], b ++ x.2) | l :: ls => ((b ++ l) :: ls, x.2) end.

Lemma lines_open b q : (lines b).1 = [] → lines (b ++ q) = join_line b (lines q).
Proof.
  revert q. induction b as [|c b IH]; intros q Hb; cbn [app lines] in *; [unfold join_line; destruct (lines q) as [[|l ls] r]; done|].
  destruct (lines b) as [ls r] eqn:E. cbn [fst] in *. destruct (c =? newline); [done|]. destruct ls as [|l ls]; [|done]. rewrite IH by done. unfold join_line. destruct (lines q) as [[|l ls] r']; done.
Qed.
Lemma lines_rest p : (lines (lines p).2).1 = [] ∧ ((lines p).1 = [] → (lines p).2 = p).
Proof.
  induction p as [|c p [IH1 IH2]]; [done|]. cbn [lines]. destruct (lines p) as [ls r]. cbn [fst snd] in *. destruct (c =? newline) eqn:Ec; [done|]. destruct ls as [|l ls]; [|done].
  rewrite (IH2 eq_refl) in *. cbn [fst snd lines]. destruct (lines p) as [ls' r']. cbn [fst] in *. subst ls'. rewrite Ec. done.
Qed.
Lemma lines_app p q : lines (p ++ q) = let '(ls, r) := lines p in let '(ls', r') := lines (r ++ q) in (ls ++ ls', r').
Proof.
  induction p as [|c p IH]; cbn [app lines]; [by destruct (lines q)|]. rewrite IH. pose proof (lines_rest p) as [H1 H2]. destruct (lines p) as [ls r]. cbn [fst snd] in *.
  destruct (lines (r ++ q)) as [ls' r'] eqn:E. destruct (c =? newline) eqn:Ec; [by rewrite E|]. destruct ls as [|l ls]; cbn [app]; [|by rewrite E].
  cbn [app lines]. rewrite E, Ec. by destruct ls'.
Qed.

Lemma find_line_spec p : Forall (.≠ 0) p → find_line p = match (lines p).1 with [] => None | l :: ls => Some (l, drop (S (length l)) p) end ∧
  ∀ l ls, (lines p).1 = l :: ls → lines (drop (S (length l)) p) = (ls, (lines p).2) ∧ (length (drop (S (length l)) p) < length p)%nat.
Proof.
  induction 1 as [|c p Hc _ [IH1 IH2]]; [done|]. cbn [find_line lines]. destruct (lines p) as [ls r] eqn:E. cbn [fst snd] in *. destruct (c =? newline).
  - split; [done|]. intros l ls' [= <- <-]. change (drop (S (length (@nil Z))) (c :: p)) with p. rewrite E. split; [done|cbn; lia].
  - rewrite (proj2 (Z.eqb_neq _ _)) by done. rewrite IH1. destruct ls as [|l ls]; [done|]. split; [done|]. intros l' ls' [= <- <-]. destruct (IH2 l ls eq_refl) as [E2 Hlen]. cbn [length drop fst snd] in *. split; [done|lia].
Qed.
Lemma grep_lines_spec pattern : ∀ fuel p, Forall (.≠ 0) p → (length p <= fuel)%nat → grep_lines fuel pattern p = (printed pattern (lines p).1, (lines p).2).
Proof.
  induction fuel as [|fuel IH]; intros p Hp Hf; [destruct p; [done|cbn in Hf; lia]|]. cbn [grep_lines]. destruct (find_line_spec p Hp) as [-> Hn]. pose proof (lines_rest p) as [_ Hr].
  destruct (lines p) as [ls r]. cbn [fst snd] in *. destruct ls as [|l ls]; [by rewrite Hr|]. destruct (Hn l ls eq_refl) as [E Hlen]. rewrite IH; [|by apply Forall_drop|lia]. rewrite E. done.
Qed.

Lemma lines_nonul p : Forall (.≠ 0) p → Forall (.≠ 0) (lines p).2.
Proof.
  induction 1 as [|c p Hc _ IH]; [done|]. cbn [lines]. destruct (lines p) as [[|l ls] r]; cbn [snd] in *; destruct (c =? newline); cbn; try done. by constructor.
Qed.
(** Lines that fit the buffer. *)
Definition short (x : list (list Z) * list Z) : Prop := Forall (λ l, (length l < BUFSIZE - 1)%nat) x.1 ∧ (length x.2 < BUFSIZE - 1)%nat.

Lemma grep_loop cut pattern : (∀ n room, (0 < n)%nat → (0 < room)%nat → (0 < cut n room)%nat) → ∀ fuel input buf, (length input <= fuel)%nat → (lines buf).1 = [] → Forall (.≠ 0) (buf ++ input) → short (lines (buf ++ input)) →
  grep cut fuel pattern buf input = Some (printed pattern (lines (buf ++ input)).1).
Proof.
  intros Hcut. induction fuel as [fuel IH] using lt_wf_ind; intros input buf Hf Hb Hnul Hs. assert (length buf < BUFSIZE - 1)%nat as Hroom.
  { rewrite lines_open in Hs by done. unfold short, join_line in Hs. destruct (lines input) as [[|l ls] r]; cbn [fst snd] in Hs; destruct Hs as [Hs1 Hs2]; [rewrite length_app in Hs2; lia|].
    apply Forall_cons in Hs1 as [Hs1 _]. rewrite length_app in Hs1. lia. }
  set (n := (cut (length input) (BUFSIZE - length buf - 1) `min` (BUFSIZE - length buf - 1) `min` length input)%nat).
  destruct (decide (input = [])) as [->|Hne]; [rewrite app_nil_r; assert (n = 0%nat) as Hn by (unfold n; cbn; lia); rewrite Hb; destruct fuel; cbn [grep]; fold n; by rewrite decide_True|].
  assert (0 < length input)%nat as Hlen by (destruct input; [done|cbn; lia]). pose proof (Hcut (length input) (BUFSIZE - length buf - 1)%nat Hlen ltac:(lia)) as Hc.
  assert (0 < n <= length input)%nat as Hn by (unfold n; lia). destruct fuel as [|fuel]; [lia|]. cbn [grep]. fold n. rewrite decide_False by lia.
  assert (buf ++ input = (buf ++ take n input) ++ drop n input) as Esplit by (by rewrite <- app_assoc, take_drop). rewrite Esplit in Hnul, Hs |- *. apply Forall_app in Hnul as [Hnul1 Hnul2]. set (buf' := buf ++ take n input) in *.
  rewrite grep_lines_spec by done. rewrite lines_app in Hs |- *. pose proof (lines_rest buf') as [Hr _]. pose proof (lines_nonul buf' Hnul1) as Hrn. destruct (lines buf') as [ls r]. cbn [fst snd] in *.
  rewrite (IH fuel); [|lia|rewrite length_drop; lia|done|by apply Forall_app|].
  - destruct (lines (r ++ drop n input)) as [ls' r']. cbn. f_equal. unfold printed. by rewrite fmap_app, join_app.
  - destruct (lines (r ++ drop n input)) as [ls' r']. destruct Hs as [Hs1 Hs2]. cbn [fst snd] in *. apply Forall_app in Hs1 as [_ Hs1]. by split.
Qed.

(** C21: If the input holds no NUL byte and every line fits the buffer, [grep]
    prints the lines of its input that match, in order, however [read] cuts the
    input; what follows the last newline is not looked at. *)
Theorem grep_correct cut pattern input : (∀ n room, (0 < n)%nat → (0 < room)%nat → (0 < cut n room)%nat) → Forall (.≠ 0) input → short (lines input) →
  grep cut (length input) pattern [] input = Some (printed pattern (lines input).1).
Proof. intros. by apply grep_loop. Qed.

Lemma grep_correct_witness : grep (λ n room, 3%nat) 9 [97; star; 98] [] [98; 10; 97; 97; 98; 10; 99; 10; 98] = Some [98; 10; 97; 97; 98; 10].
Proof.
  apply (grep_correct (λ n room, 3%nat) [97; star; 98] [98; 10; 97; 97; 98; 10; 99; 10; 98]); [intros; lia|repeat constructor; done|].
  split; [repeat constructor; cbn; lia|cbn; lia].
Defined.
