(* ===== verification/Console.v ===== *)
(** * The console: [kernel/console.c]

    The ring of 128 characters with its indices [r], [w] and [e], the echo on the
    UART, the readers asleep. A stretch of [consoleread] runs under [cons.lock] until
    it returns or sleeps, as in [Pipe], whose view of a process's memory is used.
    The reference is a line editor on lists ([intr_spec], [read_spec]): committed
    input, and the line being edited. [console_refines] says that the code is that
    editor whatever the sequence of interrupts and reads, and that a reader sleeps
    only when no input is committed. *)
From S2P Require Import Prelude Pipe.

Definition BACKSPACE : Z := 256.
Definition ctrl (x : Z) : Z := x - 64.
Definition INPUT_BUF_SIZE : Z := 128.
Definition LF : Z := 10.
Definition CR : Z := 13.
Definition EOF : Z := ctrl 68.

(** ** The code *)

Section code.
Context {U : Type} `{UserMem U}.

Record cons_t := Cons { c_buf : list Z; c_r : Z; c_w : Z; c_e : Z }.
Record csys := CSys { cons_ : cons_t; uart : list Z; readers : list Z; cu : U }.
Definition set_cons (f : cons_t → cons_t) : M csys () := modify (λ s, CSys (f (cons_ s)) (uart s) (readers s) (cu s)).
(** [uartputc_sync], and the characters of [uartputc] *)
Definition put_uart (c : Z) : M csys () := modify (λ s, CSys (cons_ s) (uart s ++ [u8 c]) (readers s) (cu s)).
Definition wake_readers : M csys () := modify (λ s, CSys (cons_ s) (uart s) [] (cu s)).

Definition consputc (c : Z) : M csys () :=
  if c =? BACKSPACE then put_uart 8 ;; put_uart 32 ;; put_uart 8
  else (if c =? LF then put_uart CR else mret ()) ;; put_uart c.
Definition char_at (i : Z) : M csys Z := c ← gets cons_; oget (c_buf c !! Z.to_nat (i mod INPUT_BUF_SIZE)).
Definition set_e (e : Z) (c : cons_t) : cons_t := Cons (c_buf c) (c_r c) (c_w c) e.
Definition set_r (r : Z) (c : cons_t) : cons_t := Cons (c_buf c) r (c_w c) (c_e c).

(** Control-u; the fuel is the number of characters being edited. *)
Fixpoint kill_line (fuel : nat) : M csys () :=
  c ← gets cons_;
  if c_e c =? c_w c then mret () else
  x ← char_at (u32 (c_e c - 1));
  if x =? LF then mret () else
  match fuel with
  | O => out_of_fuel
  | S fuel => set_cons (set_e (u32 (c_e c - 1))) ;; consputc BACKSPACE ;; kill_line fuel
  end.
(** [ch] is a character of the UART. Control-p runs [procdump], whose printing is
    not modelled. *)
Definition consoleintr (ch : Z) : M csys () :=
  c ← gets cons_;
  if ch =? ctrl 80 then mret ()
  else if ch =? ctrl 85 then kill_line (Z.to_nat INPUT_BUF_SIZE)
  else if (ch =? ctrl 72) || (ch =? 127) then
    if c_e c =? c_w c then mret () else
    set_cons (set_e (u32 (c_e c - 1))) ;; consputc BACKSPACE
  else if negb (ch =? 0) && (u32 (c_e c - c_r c) <? INPUT_BUF_SIZE) then
    let ch := if ch =? CR then LF else ch in
    consputc ch ;;
    set_cons (λ c, Cons (<[Z.to_nat (c_e c mod INPUT_BUF_SIZE) := u8 ch]> (c_buf c)) (c_r c) (c_w c) (u32 (c_e c + 1))) ;;
    c ← gets cons_;
    if (ch =? LF) || (ch =? EOF) || (u32 (c_e c - c_r c) =? INPUT_BUF_SIZE)
    then set_cons (λ c, Cons (c_buf c) (c_r c) (c_e c) (c_e c)) ;; wake_readers else mret ()
  else mret ().

(** [todo] is [n], what is still wanted; [dst] moves with it. A reader that sleeps
    goes on with the same [todo] and [dst]. *)
Inductive cwait := CDone (r : Z) | CSleeping (todo : nat) (dst : Z).
Fixpoint read_loop (pid : Z) (killed : nat → bool) (target dst : Z) (todo : nat) : M csys cwait :=
  match todo with
  | O => mret (CDone (s32 target))
  | S todo' =>
      c ← gets cons_;
      if c_r c =? c_w c then
        if killed todo then mret (CDone (-1))
        else modify (λ s, CSys (cons_ s) (uart s) (pid :: readers s) (cu s)) ;; mret (CSleeping todo dst)
      else
      x ← char_at (c_r c);
      set_cons (set_r (u32 (c_r c + 1))) ;;
      let got := s32 (target - Z.of_nat todo) in
      if x =? EOF then (if Z.of_nat todo <? target then set_cons (λ c, set_r (u32 (c_r c - 1)) c) else mret ()) ;; mret (CDone got)
      else
      u ← gets cu;
      match copyout1 u (u64 dst) x with
      | None => mret (CDone got)
      | Some u' =>
          modify (λ s, CSys (cons_ s) (uart s) (readers s) u') ;;
          if x =? LF then mret (CDone (s32 (target - Z.of_nat todo'))) else read_loop pid killed target (dst + 1) todo'
      end
  end.
Definition consoleread (pid : Z) (killed : nat → bool) (dst n : Z) : M csys cwait :=
  if 0 <? n then read_loop pid killed (u32 n) dst (Z.to_nat n) else mret (CDone (s32 (u32 n - n))).
Fixpoint write_chars (src i : Z) (todo : nat) : M csys Z :=
  match todo with
  | O => mret i
  | S todo =>
      u ← gets cu;
      match copyin1 u (u64 (src + i)) with
      | None => mret i
      | Some c => (if c =? LF then put_uart CR else mret ()) ;; put_uart c ;; write_chars src (i + 1) todo
      end
  end.
Definition consolewrite (src n : Z) : M csys Z := write_chars src 0 (Z.to_nat n).

(** ** The line editor *)

Record aconsole := ACons { ready : list Z; edit : list Z; echo : list Z; waiting_ : list Z; amem : U }.
Definition echo_of (c : Z) : list Z := if c =? BACKSPACE then [8; 32; 8] else if c =? LF then [CR; LF] else [c].
Definition rubout (n : nat) : list Z := mjoin (replicate n (echo_of BACKSPACE)).
Definition intr_spec (ch : Z) (a : aconsole) : aconsole :=
  let '(ACons q ed out ws u) := a in
  if ch =? ctrl 80 then a
  else if ch =? ctrl 85 then ACons q [] (out ++ rubout (length ed)) ws u
  else if (ch =? ctrl 72) || (ch =? 127) then ACons q (take (length ed - 1) ed) (out ++ rubout (length ed `min` 1)) ws u
  else if (ch =? 0) || bool_decide (128 <= length q + length ed)%nat then a
  else
    let ch := if ch =? CR then LF else ch in
    let ed := ed ++ [ch] in
    if (ch =? LF) || (ch =? EOF) || bool_decide (length q + length ed = 128)%nat then ACons (q ++ ed) [] (out ++ echo_of ch) [] u
    else ACons q ed (out ++ echo_of ch) ws u.
Fixpoint read_spec (pid : Z) (killed : nat → bool) (target dst : Z) (todo : nat) (a : aconsole) : cwait * aconsole :=
  let '(ACons q ed out ws u) := a in
  match todo with
  | O => (CDone target, a)
  | S todo' =>
      match q with
      | [] => if killed todo then (CDone (-1), a) else (CSleeping todo dst, ACons [] ed out (pid :: ws) u)
      | x :: q' =>
          if x =? EOF then (CDone (target - Z.of_nat todo), ACons (if Z.of_nat todo <? target then q else q') ed out ws u) else
          match copyout1 u (u64 dst) x with
          | None => (CDone (target - Z.of_nat todo), ACons q' ed out ws u)
          | Some u' => if x =? LF then (CDone (target - Z.of_nat todo'), ACons q' ed out ws u')
                       else read_spec pid killed target (dst + 1) todo' (ACons q' ed out ws u')
          end
      end
  end.
End code.
Arguments csys U : clear implicits. Arguments aconsole U : clear implicits.

(** ** The representation *)

(** What happens to the console: an interrupt with a character, or a stretch of a
    reader, from the start of its call or from a wake-up. *)
Inductive event := Key (ch : Z) | Read (pid : Z) (killed : nat → bool) (target dst : Z) (todo : nat).
Definition event_ok (ev : event) : Prop :=
  match ev with Key ch => is_byte ch | Read _ _ target _ todo => Z.of_nat todo <= target < 2 ^ 31 end.

Section runs.
Context {U : Type} `{UserMem U}.

Fixpoint run_console (evs : list event) : M (csys U) (list cwait) :=
  match evs with
  | [] => mret []
  | Key ch :: evs => consoleintr ch ;; run_console evs
  | Read pid killed target dst todo :: evs => r ← read_loop pid killed target dst todo; rs ← run_console evs; mret (r :: rs)
  end.
Fixpoint run_editor (evs : list event) (a : aconsole U) : list cwait * aconsole U :=
  match evs with
  | [] => ([], a)
  | Key ch :: evs => run_editor evs (intr_spec ch a)
  | Read pid killed target dst todo :: evs =>
      let '(r, a) := read_spec pid killed target dst todo a in
      let '(rs, a) := run_editor evs a in (r :: rs, a)
  end.
Definition console0 (u : U) : csys U := CSys (Cons (replicate 128 0) 0 0 0) [] [] u.
Definition editor0 (u : U) : aconsole U := ACons [] [] [] [] u.

(** The 128 cells of the ring hold the committed input, then the line being edited,
    which has no character that commits it. *)
Record cons_rep (c : cons_t) (q ed : list Z) : Prop := {
  cr_len : length (c_buf c) = 128%nat;
  cr_r : in_range 32 (c_r c);
  cr_w : c_w c = u32 (c_r c + Z.of_nat (length q));
  cr_e : c_e c = u32 (c_r c + Z.of_nat (length (q ++ ed)));
  cr_size : (length (q ++ ed) <= 128)%nat;
  cr_byte : Forall is_byte (q ++ ed);
  cr_edit : Forall (λ x, x ≠ LF ∧ x ≠ EOF) ed;
  cr_data : ∀ k b, (q ++ ed) !! k = Some b → c_buf c !! Z.to_nat ((c_r c + Z.of_nat k) mod INPUT_BUF_SIZE) = Some b;
}.
Record csys_rep (s : csys U) (a : aconsole U) : Prop := {
  cs_cons : cons_rep (cons_ s) (ready a) (edit a);
  cs_echo : uart s = echo a;
  cs_wait : readers s = waiting_ a;
  cs_mem : cu s = amem a;
}.
(** A reader sleeps only when no input is committed. *)
Definition no_lost_line (a : aconsole U) : Prop := waiting_ a ≠ [] → ready a = [].
End runs.

(** ** The ring *)

Lemma u32_mod_ring z : u32 z mod INPUT_BUF_SIZE = z mod INPUT_BUF_SIZE.
Proof. unfold wrap, INPUT_BUF_SIZE. apply Z.mod_mod_divide. by exists (2 ^ 25). Qed.
Lemma ring_inj n i j : 0 <= i < 128 → 0 <= j < 128 → (n + i) mod INPUT_BUF_SIZE = (n + j) mod INPUT_BUF_SIZE → i = j.
Proof. unfold INPUT_BUF_SIZE. dlia. Qed.
Lemma u32_gap r a b : 0 <= a < 2 ^ 31 → 0 <= b < 2 ^ 31 → u32 (u32 (r + a) - u32 (r + b)) = u32 (a - b).
Proof. intros. unfold wrap. dlia. Qed.
Lemma u32_eq_inj r a b : 0 <= a < 2 ^ 31 → 0 <= b < 2 ^ 31 → u32 (r + a) = u32 (r + b) → a = b.
Proof. intros ??. unfold wrap. dlia. Qed.

Section ring.
Implicit Types (c : cons_t) (q ed : list Z).

Lemma rep_committed c q ed : cons_rep c q ed → (c_r c = c_w c ↔ q = []).
Proof.
  intros []. rewrite cr_w0. rewrite length_app in *. split.
  - intros E. destruct q; [done|]. rewrite <- (wrap_small 32 (c_r c)) in E at 1 by done. rewrite <- (Z.add_0_r (c_r c)) in E at 1.
    apply u32_eq_inj in E; cbn [length] in *; lia.
  - intros ->. cbn. by rewrite Z.add_0_r, wrap_small.
Qed.
Lemma rep_editing c q ed : cons_rep c q ed → (c_e c = c_w c ↔ ed = []).
Proof.
  intros []. rewrite cr_w0, cr_e0. rewrite length_app in *. split.
  - intros E. apply u32_eq_inj in E; [|lia..]. destruct ed; [done|]. cbn [length] in *; lia.
  - intros ->. cbn. by rewrite Nat.add_0_r.
Qed.
Lemma rep_held c q ed : cons_rep c q ed → u32 (c_e c - c_r c) = Z.of_nat (length q + length ed).
Proof.
  intros []. rewrite cr_e0. rewrite length_app in *. rewrite <- (wrap_small 32 (c_r c)) at 2 by done. rewrite <- (Z.add_0_r (c_r c)) at 2.
  rewrite u32_gap, Z.sub_0_r by lia. apply wrap_small. unfold in_range. lia.
Qed.
Lemma rep_last c q ed x : cons_rep c q (ed ++ [x]) → u32 (c_e c - 1) = u32 (c_r c + Z.of_nat (length (q ++ ed))) ∧ c_buf c !! Z.to_nat (u32 (c_e c - 1) mod INPUT_BUF_SIZE) = Some x.
Proof.
  intros []. assert (u32 (c_e c - 1) = u32 (c_r c + Z.of_nat (length (q ++ ed)))) as E.
  { rewrite cr_e0, !length_app. cbn [length]. unfold wrap. dlia. }
  split; [done|]. rewrite E, u32_mod_ring. apply cr_data0. by rewrite app_assoc, lookup_app_r, Nat.sub_diag by lia.
Qed.
Lemma rep_back c q ed x : cons_rep c q (ed ++ [x]) → cons_rep (set_e (u32 (c_e c - 1)) c) q ed.
Proof.
  intros Hr. pose proof (rep_last _ _ _ _ Hr) as [E _]. destruct Hr. split; cbn [c_buf c_r c_w c_e set_e]; try done.
  - rewrite app_assoc, length_app in cr_size0. lia.
  - rewrite app_assoc in cr_byte0. by apply Forall_app in cr_byte0 as [? _].
  - by apply Forall_app in cr_edit0 as [? _].
  - intros k b Hk. apply cr_data0. rewrite app_assoc. by apply lookup_app_l_Some.
Qed.
Lemma rep_kill c q ed : cons_rep c q ed → cons_rep (set_e (c_w c) c) q [].
Proof.
  intros []. split; cbn [c_buf c_r c_w c_e set_e]; rewrite ?app_nil_r; try done.
  - rewrite length_app in cr_size0. lia.
  - by apply Forall_app in cr_byte0 as [? _].
  - intros k b Hk. apply cr_data0. by apply lookup_app_l_Some.
Qed.
Lemma rep_commit c q ed : cons_rep c q ed → cons_rep (Cons (c_buf c) (c_r c) (c_e c) (c_e c)) (q ++ ed) [].
Proof. intros []. by split; cbn [c_buf c_r c_w c_e]; rewrite ?app_nil_r. Qed.
(** A character stored at [e]: of the line, or the last one of input committed at once. *)
Lemma rep_store c q ed x : cons_rep c q ed → (length q + length ed < 128)%nat → is_byte x →
  let c' := Cons (<[Z.to_nat (c_e c mod INPUT_BUF_SIZE) := x]> (c_buf c)) (c_r c) (c_w c) (u32 (c_e c + 1)) in
  (x ≠ LF ∧ x ≠ EOF → cons_rep c' q (ed ++ [x])) ∧ cons_rep (Cons (c_buf c') (c_r c') (c_e c') (c_e c')) (q ++ ed ++ [x]) [].
Proof.
  intros [] Hl Hx c'.
  assert (c_e c' = u32 (c_r c' + Z.of_nat (length (q ++ ed ++ [x])))) as Ee.
  { subst c'. cbn. rewrite cr_e0, wrap_add_l. f_equal. rewrite !length_app. cbn [length]. lia. }
  assert (∀ k b, (q ++ ed ++ [x]) !! k = Some b → c_buf c' !! Z.to_nat ((c_r c' + Z.of_nat k) mod INPUT_BUF_SIZE) = Some b) as Hd.
  { intros k b Hk. pose proof (lookup_lt_Some _ _ _ Hk) as Hlt. subst c'. cbn. rewrite app_assoc in Hk, Hlt. rewrite !length_app in Hlt. cbn [length] in Hlt.
    rewrite length_app in *. rewrite cr_e0, u32_mod_ring.
    pose proof (Z.mod_pos_bound (c_r c + Z.of_nat k) INPUT_BUF_SIZE eq_refl). pose proof (Z.mod_pos_bound (c_r c + Z.of_nat (length q + length ed)) INPUT_BUF_SIZE eq_refl).
    unfold INPUT_BUF_SIZE in *. destruct (decide (k = length q + length ed)%nat) as [->|Hne].
    - rewrite list_lookup_insert_eq by lia. rewrite lookup_app_r, length_app, Nat.sub_diag in Hk by (rewrite length_app; lia). done.
    - rewrite list_lookup_insert_ne.
      + apply cr_data0. rewrite lookup_app_l in Hk by (rewrite length_app; lia). done.
      + intros E. apply Hne, Nat2Z.inj. apply (ring_inj (c_r c)); [lia..|]. unfold INPUT_BUF_SIZE. lia. }
  assert (length (c_buf c') = 128%nat) as Hlen by (subst c'; cbn; by rewrite length_insert).
  assert ((length (q ++ ed ++ [x]) <= 128)%nat) as Hsz by (rewrite !length_app; cbn [length]; lia).
  assert (Forall is_byte (q ++ ed ++ [x])) as Hby by (rewrite app_assoc; apply Forall_app; split; [done|by constructor]).
  split; [intros Hne|]; split; rewrite ?app_nil_r; try done. apply Forall_app. split; [done|]. by constructor.
Qed.
Lemma rep_take c x q ed : cons_rep c (x :: q) ed →
  c_buf c !! Z.to_nat (c_r c mod INPUT_BUF_SIZE) = Some x ∧ is_byte x ∧ cons_rep (set_r (u32 (c_r c + 1)) c) q ed ∧
  set_r (u32 (u32 (c_r c + 1) - 1)) (set_r (u32 (c_r c + 1)) c) = c.
Proof.
  intros []. split_and!.
  - pose proof (cr_data0 O x eq_refl) as Hd. by rewrite Z.add_0_r in Hd.
  - by apply Forall_cons in cr_byte0 as [? _].
  - split; cbn [c_buf c_r c_w c_e set_r]; try done.
    + by apply wrap_range.
    + rewrite cr_w0, wrap_add_l. f_equal. cbn [length]. lia.
    + rewrite cr_e0, wrap_add_l. f_equal. cbn [length app]. lia.
    + cbn [length app] in cr_size0. lia.
    + by apply Forall_cons in cr_byte0 as [_ ?].
    + intros k b Hk. rewrite <- (cr_data0 (S k) b Hk). f_equal. f_equal.
      rewrite <- Zplus_mod_idemp_l, u32_mod_ring, Zplus_mod_idemp_l. f_equal. lia.
  - assert (u32 (u32 (c_r c + 1) - 1) = c_r c) as E by (unfold wrap, in_range in *; dlia).
    rewrite E. by destruct c.
Qed.
End ring.

(** ** The interrupt handler *)

Section intr.
Context {U : Type} `{UserMemLaws U}.
Implicit Types (s : csys U) (a : aconsole U).

Lemma put_uart_run c s : put_uart c s = Ret ((), CSys (cons_ s) (uart s ++ [u8 c]) (readers s) (cu s)).
Proof. done. Qed.
Lemma consputc_run c s : is_byte c ∨ c = BACKSPACE → consputc c s = Ret ((), CSys (cons_ s) (uart s ++ echo_of c) (readers s) (cu s)).
Proof.
  intros Hc. unfold consputc, echo_of. destruct (Z.eqb_spec c BACKSPACE) as [->|Hne].
  - erewrite bind_Ret by apply put_uart_run. erewrite bind_Ret by apply put_uart_run. rewrite put_uart_run. cbn. by rewrite <- !app_assoc.
  - destruct Hc as [Hc|?]; [|done]. assert (u8 c = c) as E by (by apply wrap_small). destruct (Z.eqb_spec c LF) as [->|].
    + erewrite bind_Ret by apply put_uart_run. rewrite put_uart_run. cbn. by rewrite <- app_assoc.
    + erewrite bind_Ret by done. by rewrite put_uart_run, E.
Qed.
Lemma char_at_run i x s : c_buf (cons_ s) !! Z.to_nat (i mod INPUT_BUF_SIZE) = Some x → char_at i s = Ret (x, s).
Proof. intros E. unfold char_at. erewrite bind_Ret by done. by rewrite E. Qed.

Lemma rubout_S n : rubout (S n) = echo_of BACKSPACE ++ rubout n.
Proof. done. Qed.
Lemma kill_line_run q : ∀ n ed s fuel, length ed = n → (n <= fuel)%nat → cons_rep (cons_ s) q ed →
  ∃ c, kill_line fuel s = Ret ((), CSys c (uart s ++ rubout n) (readers s) (cu s)) ∧ cons_rep c q [].
Proof.
  induction n as [|n IH]; intros ed s fuel Hn Hf Hr.
  - apply nil_length_inv in Hn as ->. exists (cons_ s). split; [|done].
    destruct fuel; cbn [kill_line]; erewrite bind_Ret by done; rewrite (proj2 (Z.eqb_eq _ _) (proj2 (rep_editing _ _ _ Hr) eq_refl)); cbn; rewrite app_nil_r; by destruct s.
  - destruct fuel as [|fuel]; [lia|]. destruct ed as [|x ed _] using rev_ind; [done|]. rewrite length_app, Nat.add_1_r in Hn. injection Hn as Hn.
    cbn [kill_line]. erewrite bind_Ret by done. rewrite (proj2 (Z.eqb_neq _ _)) by (intros E%(rep_editing _ _ _ Hr); by destruct ed).
    erewrite bind_Ret by (apply char_at_run; by apply (rep_last _ _ _ _ Hr)).
    assert (x ≠ LF) as Hx by (pose proof (cr_edit _ _ _ Hr) as [_ [[? _] _]%Forall_cons]%Forall_app; done).
    rewrite (proj2 (Z.eqb_neq _ _) Hx). erewrite bind_Ret by done. erewrite bind_Ret by (apply consputc_run; by right).
    destruct (IH ed (CSys (set_e (u32 (c_e (cons_ s) - 1)) (cons_ s)) (uart s ++ echo_of BACKSPACE) (readers s) (cu s)) fuel) as (c & E & Hc);
      [done|lia|by apply (rep_back _ _ _ _ Hr)|].
    exists c. split; [|done]. etransitivity; [exact E|]. cbn. by rewrite <- app_assoc.
Qed.

Ltac fields := split; cbn [cons_ uart readers cu ready edit echo waiting_ amem].
Lemma consoleintr_sim ch s a : is_byte ch → csys_rep s a → ∃ s', consoleintr ch s = Ret ((), s') ∧ csys_rep s' (intr_spec ch a).
Proof.
  intros Hch Hr. destruct a as [q ed out ws u]. pose proof Hr as [Hc Hu Hw Hm]. cbn [ready edit echo waiting_ amem] in *.
  unfold consoleintr, intr_spec. erewrite bind_Ret by done. destruct (Z.eqb_spec ch (ctrl 80)) as [_|_]; [by eexists|].
  destruct (Z.eqb_spec ch (ctrl 85)) as [_|_].
  { edestruct (kill_line_run q (length ed) ed s) as (c & E & Hc'); [done| |done|].
    - pose proof (cr_size _ _ _ Hc) as Hs. rewrite length_app in Hs. change (Z.to_nat INPUT_BUF_SIZE) with 128%nat. instantiate (1 := 128%nat). lia.
    - eexists. split; [exact E|]. fields; congruence || done. }
  destruct ((ch =? ctrl 72) || (ch =? 127)).
  { destruct ed as [|x ed _] using rev_ind.
    - rewrite (proj2 (Z.eqb_eq _ _) (proj2 (rep_editing _ _ _ Hc) eq_refl)). eexists. split; [done|]. cbn. rewrite app_nil_r. by destruct Hr.
    - rewrite (proj2 (Z.eqb_neq _ _)) by (intros E%(rep_editing _ _ _ Hc); by destruct ed). erewrite bind_Ret by done. rewrite consputc_run by (by right).
      eexists. split; [done|]. rewrite length_app. cbn [length]. rewrite Nat.add_sub, take_app_length, Nat.min_r by lia.
      fields; [by apply (rep_back _ _ _ _ Hc)|cbn; by rewrite Hu|done..]. }
  rewrite (rep_held _ _ _ Hc). destruct (Z.eqb_spec ch 0) as [_|_]; [by eexists|]. cbn [negb andb orb].
  destruct (bool_decide_reflect (128 <= length q + length ed)%nat) as [Hf|Hf]; [rewrite (proj2 (Z.ltb_ge _ _)) by (unfold INPUT_BUF_SIZE; lia); by eexists|].
  rewrite (proj2 (Z.ltb_lt _ _)) by (unfold INPUT_BUF_SIZE; lia). set (x := if ch =? CR then LF else ch).
  assert (is_byte x) as Hx by (subst x; by destruct (ch =? CR)).
  erewrite bind_Ret by (apply consputc_run; by left). erewrite bind_Ret by done. erewrite bind_Ret by done. cbn [set_cons cons_ uart readers cu].
  assert (u8 x = x) as Ex by (by apply wrap_small). rewrite Ex. apply Nat.nle_gt in Hf. destruct (rep_store _ _ _ x Hc Hf Hx) as [Hed Hq].
  cbn [c_e c_r c_w c_buf] in *. pose proof (rep_held _ _ _ Hq) as Eh. cbn [c_e c_r] in Eh. rewrite Eh, !length_app. cbn [length]. rewrite !Nat.add_0_r.
  replace (Z.of_nat (length q + (length ed + 1)) =? INPUT_BUF_SIZE) with (bool_decide (length q + (length ed + 1) = 128)%nat)
    by (apply eq_true_iff_eq; rewrite bool_decide_eq_true, Z.eqb_eq; unfold INPUT_BUF_SIZE; lia).
  destruct ((x =? LF) || (x =? EOF) || _) eqn:Ec; (eexists; split; [done|]); fields; try congruence; try done; try (by rewrite Hu).
  apply Hed. apply orb_false_iff in Ec as [[?%Z.eqb_neq ?%Z.eqb_neq]%orb_false_iff _]. done.
Qed.

(** ** The reader *)

Lemma read_loop_sim pid killed target todo : ∀ dst s a, Z.of_nat todo <= target < 2 ^ 31 → csys_rep s a →
  ∃ s', read_loop pid killed target dst todo s = Ret ((read_spec pid killed target dst todo a).1, s') ∧
    csys_rep s' (read_spec pid killed target dst todo a).2.
Proof.
  induction todo as [|todo IH]; intros dst s a Ht Hr; destruct a as [q ed out ws u]; cbn [read_loop read_spec].
  { exists s. rewrite swrap_small by lia. done. }
  pose proof Hr as [Hc Hu Hw Hm]. cbn [ready edit echo waiting_ amem] in *. erewrite bind_Ret by done.
  destruct q as [|x q].
  { rewrite (proj2 (Z.eqb_eq _ _) (proj2 (rep_committed _ _ _ Hc) eq_refl)). destruct (killed (S todo)); (eexists; split; [done|]); [done|].
    fields; cbn; congruence || done. }
  destruct (rep_take _ _ _ _ Hc) as (Hx & Hb & Ht' & Hback). rewrite (proj2 (Z.eqb_neq _ _)) by (by intros E%(rep_committed _ _ _ Hc)).
  erewrite bind_Ret by (by apply char_at_run). erewrite bind_Ret by done.
  rewrite !swrap_small by lia. destruct (x =? EOF).
  { destruct (Z.of_nat (S todo) <? target); (eexists; split; [done|]); fields; try done.
    change (cons_rep (set_r (u32 (u32 (c_r (cons_ s) + 1) - 1)) (set_r (u32 (c_r (cons_ s) + 1)) (cons_ s))) (x :: q) ed). by rewrite Hback. }
  erewrite bind_Ret by done. cbn [set_cons cu]. rewrite Hm.
  destruct (copyout1 u (u64 dst) x) as [u'|]; [|eexists; split; [done|]; by fields].
  erewrite bind_Ret by done. destruct (x =? LF); [eexists; split; [done|]; by fields|].
  apply IH; [lia|]. by fields.
Qed.

(** ** What the editor promises *)

Lemma intr_no_lost ch a : no_lost_line a → no_lost_line (intr_spec ch a).
Proof. destruct a as [q ed out ws u]. unfold no_lost_line, intr_spec. intros Hn. cbn in Hn. by repeat case_match. Qed.
Lemma read_no_lost pid killed target todo : ∀ dst a, no_lost_line a → no_lost_line (read_spec pid killed target dst todo a).2.
Proof.
  unfold no_lost_line. induction todo as [|todo IH]; intros dst [q ed out ws u] Hn; cbn [read_spec]; [done|].
  destruct q as [|x q]; [by destruct (killed (S todo))|]. cbn [ready waiting_] in Hn.
  assert (ws = []) as -> by (destruct ws; [done|]; by discriminate Hn).
  destruct (x =? EOF); [done|]. destruct (copyout1 u (u64 dst) x); [|done]. destruct (x =? LF); [done|]. by apply IH.
Qed.

Lemma console0_rep (u : U) : csys_rep (console0 u) (editor0 u).
Proof. split; [|done..]. split; cbn; try done. lia. Qed.

(** C18: Whatever the characters typed and however the reads come in between, the
    ring of [console.c] with its three wrapping indices is the line editor on
    lists: the same results of the reads, the same echo on the UART, the same
    bytes in the readers' memory; and no reader is left asleep while committed
    input waits. *)
Theorem console_refines (u : U) (evs : list event) :
  Forall event_ok evs →
  let '(rs, a) := run_editor evs (editor0 u) in
  ∃ s, run_console evs (console0 u) = Ret (rs, s) ∧ csys_rep s a ∧ no_lost_line a.
Proof.
  assert (csys_rep (console0 u) (editor0 u) ∧ no_lost_line (editor0 u)) as Hinv by (split; [apply console0_rep|done]).
  revert Hinv. generalize (console0 u) as s, (editor0 u) as a. induction evs as [|ev evs IH]; intros s a [Hr Hn] Hok; [by exists s|].
  apply Forall_cons in Hok as [Hev Hok]. destruct ev as [ch|pid killed target dst todo]; cbn [run_console run_editor].
  - destruct (consoleintr_sim ch s a Hev Hr) as (s1 & E & Hr1). specialize (IH s1 _ (conj Hr1 (intr_no_lost ch a Hn)) Hok).
    destruct (run_editor evs _) as [rs a']. destruct IH as (s' & E' & HP). exists s'. split; [|done]. by erewrite bind_Ret.
  - destruct (read_loop_sim pid killed target todo dst s a Hev Hr) as (s1 & E & Hr1). pose proof (read_no_lost pid killed target todo dst a Hn) as Hn1.
    destruct (read_spec pid killed target dst todo a) as [r a1]. cbn [fst snd] in *. specialize (IH s1 a1 (conj Hr1 Hn1) Hok).
    destruct (run_editor evs a1) as [rs a']. destruct IH as (s' & E' & HP). exists s'. split; [|done]. erewrite bind_Ret by exact E. by erewrite bind_Ret.
Qed.
End intr.

(** ** A line typed with a mistake, read while it is typed *)

Definition demo_keys : list event :=
  [Read 7 (λ _, false) 4 100 4; Key 104; Key 120; Key 8; Key 105; Key CR; Read 7 (λ _, false) 4 100 4; Key 97; Key 21; Key EOF; Read 7 (λ _, false) 4 100 4].
Definition demo_mem : gmap Z Z := list_to_map [(100, 0); (101, 0); (102, 0); (103, 0)].

Lemma console_refines_witness :
  Forall event_ok demo_keys ∧
  let '(rs, a) := run_editor demo_keys (editor0 demo_mem) in
  rs = [CSleeping 4 100; CDone 3; CDone 0] ∧ copyin1 (amem a) 100 = Some 104 ∧ copyin1 (amem a) 101 = Some 105 ∧ copyin1 (amem a) 102 = Some LF ∧
  ∃ s, run_console demo_keys (console0 demo_mem) = Ret (rs, s) ∧ csys_rep s a ∧ no_lost_line a.
Proof.
  assert (Forall event_ok demo_keys) as Hok by (repeat (constructor; [cbv; by intuition congruence|]); constructor).
  split; [exact Hok|]. pose proof (console_refines demo_mem demo_keys Hok) as Hc.
  vm_compute (run_editor demo_keys (editor0 demo_mem)) in Hc |- *. cbn [amem] in *.
  split; [reflexivity|]. split; [vm_compute; reflexivity|]. split; [vm_compute; reflexivity|]. split; [vm_compute; reflexivity|exact Hc].
Defined.
