(* ===== verification/Umalloc.v ===== *)
(** * The allocator of user programs: [user/umalloc.c]

    Kernighan and Ritchie's free list in the bytes of the process. A header is 16
    bytes: the pointer at offset 0, the size in units of 16 bytes at offset 8. An
    access outside the heap and the static header [base] is a page fault ([Fault]).
    [sbrk] is the kernel's ([sys_sbrk] over [growproc]), which the model takes as
    far as its result goes: whether it has the memory is the parameter [grant].

    [umalloc_safe] says what a program relies on, whatever the sequence of its
    calls and whatever it writes to the blocks it holds: the blocks it holds are
    apart, inside the heap, large enough, and keep what is written to them; the
    free list is in order of address without neighbours; nothing is lost; and the
    searches of [malloc] and [free] end. *)
From S2P Require Import Prelude.

(** ** Bytes *)

Definition ubytes := Z → Z.
Fixpoint ld (n : nat) (m : ubytes) (a : Z) : Z := match n with O => 0 | S n => u8 (m a) + 256 * ld n m (a + 1) end.
Fixpoint st (n : nat) (m : ubytes) (a v : Z) : ubytes :=
  match n with O => m | S n => st n (λ x, if x =? a then v mod 256 else m x) (a + 1) (v / 256) end.

Lemma ld_ext n m m' : ∀ a, (∀ x, a <= x < a + Z.of_nat n → m x = m' x) → ld n m a = ld n m' a.
Proof.
  induction n as [|n IH]; intros a Hm; cbn [ld]; [done|]. rewrite Hm by lia. f_equal. f_equal. apply IH. intros x Hx. apply Hm. lia.
Qed.
Lemma st_other n : ∀ m a v x, ¬ a <= x < a + Z.of_nat n → st n m a v x = m x.
Proof.
  induction n as [|n IH]; intros m a v x Hx; cbn [st]; [done|]. rewrite IH by lia. by rewrite (proj2 (Z.eqb_neq _ _)) by lia.
Qed.
Lemma ld_st_same n : ∀ m a v, 0 <= v < 2 ^ (8 * Z.of_nat n) → ld n (st n m a v) a = v.
Proof.
  induction n as [|n IH]; intros m a v Hv; cbn [ld st]; [change (2 ^ (8 * Z.of_nat 0)) with 1 in Hv; lia|].
  rewrite st_other, Z.eqb_refl by lia. unfold wrap. change (2 ^ 8) with 256. rewrite Z.mod_mod by done. rewrite IH; [pose proof (Z.div_mod v 256 ltac:(done)); lia|].
  replace (8 * Z.of_nat (S n)) with (8 * Z.of_nat n + 8) in Hv by lia. rewrite Z.pow_add_r in Hv by lia.
  split; [apply Z.div_pos; lia|]. apply Z.div_lt_upper_bound; lia.
Qed.
Lemma ld_st_other n k m a b v : a + Z.of_nat n <= b ∨ b + Z.of_nat k <= a → ld n (st k m b v) a = ld n m a.
Proof. intros Ho. apply ld_ext. intros x Hx. apply st_other. lia. Qed.
Lemma ld_range n m : ∀ a, 0 <= ld n m a < 2 ^ (8 * Z.of_nat n).
Proof.
  induction n as [|n IH]; intros a; cbn [ld]; [done|]. replace (8 * Z.of_nat (S n)) with (8 * Z.of_nat n + 8) by lia. rewrite Z.pow_add_r by lia.
  pose proof (wrap_range 8 (m a) ltac:(done)) as Hu. unfold in_range in Hu. specialize (IH (a + 1)). lia.
Qed.
#[global] Arguments ld : simpl never.
#[global] Arguments st : simpl never.

(** ** The code *)

Section code.
(** The address of [base], where the heap starts, and whether the kernel lets a
    process of this size grow by so much. *)
Context (base heap0 : Z) (grant : Z → Z → bool).

Record ust := Ust { um : ubytes; brk : Z; freep : Z }.
Definition mapped (s : ust) (a n : Z) : bool :=
  (base <=? a) && (a + n <=? base + 16) || (heap0 <=? a) && (a + n <=? brk s).
Definition load (n : nat) (a : Z) : M ust Z := λ s, if mapped s a (Z.of_nat n) then Ret (ld n (um s) a, s) else Fault.
Definition store (n : nat) (a v : Z) : M ust () := λ s, if mapped s a (Z.of_nat n) then Ret ((), Ust (st n (um s) a v) (brk s) (freep s)) else Fault.
Definition ptr (p : Z) : M ust Z := load 8 p.
Definition size (p : Z) : M ust Z := load 4 (p + 8).
Definition set_ptr (p v : Z) : M ust () := store 8 p v.
Definition set_size (p v : Z) : M ust () := store 4 (p + 8) (u32 v).
Definition set_freep (p : Z) : M ust () := modify (λ s, Ust (um s) (brk s) p).

(** [sbrk] with a 32-bit signed argument; -1 is the failure. *)
Definition sbrk (n : Z) : M ust Z :=
  b ← gets brk;
  if 0 <? n then
    if grant b n then modify (λ s, Ust (um s) (b + n) (freep s)) ;; mret b else mret (-1)
  else modify (λ s, Ust (um s) (if b + n <? 0 then b else b + n) (freep s)) ;; mret b.

(** The loop of [free]: the place of the block in the list. *)
Fixpoint find_place (fuel : nat) (p bp : Z) : M ust Z :=
  match fuel with
  | O => out_of_fuel
  | S fuel =>
      nx ← ptr p;
      if (p <? bp) && (bp <? nx) then mret p
      else if (nx <=? p) && ((p <? bp) || (bp <? nx)) then mret p
      else find_place fuel nx bp
  end.
(** Block [x] gets [y] as its successor, or swallows it when it follows directly:
    [free] does this with [bp] and [p->s.ptr], then with [p] and [bp]. *)
Definition join (x y : Z) : M ust () :=
  xs ← size x;
  if x + 16 * xs =? y
  then ys ← size y; set_size x (xs + ys) ;; yn ← ptr y; set_ptr x yn
  else set_ptr x y.
Definition free (fuel : nat) (ap : Z) : M ust () :=
  let bp := ap - 16 in
  fp ← gets freep;
  p ← find_place fuel fp bp;
  nx ← ptr p; join bp nx ;;
  join p bp ;;
  set_freep p.
(** [nu * sizeof(Header)] is a 64-bit number that becomes an [int]. *)
Definition morecore (fuel : nat) (nu : Z) : M ust Z :=
  let nu := if nu <? 4096 then 4096 else nu in
  p ← sbrk (s32 (nu * 16));
  if p =? -1 then mret 0
  else set_size p nu ;; free fuel (p + 16) ;; gets freep.
Fixpoint malloc_loop (fuel ffuel : nat) (nunits prevp p : Z) : M ust Z :=
  match fuel with
  | O => out_of_fuel
  | S fuel =>
      ps ← size p;
      if nunits <=? ps then
        r ← (if ps =? nunits then nx ← ptr p; set_ptr prevp nx ;; mret p
             else set_size p (ps - nunits) ;; ps' ← size p; let p := p + 16 * ps' in set_size p nunits ;; mret p);
        set_freep prevp ;; mret (r + 16)
      else
        fp ← gets freep;
        o ← (if p =? fp then q ← morecore ffuel nunits; mret (if q =? 0 then None else Some q) else mret (Some p));
        match o with None => mret 0 | Some p => nx ← ptr p; malloc_loop fuel ffuel nunits p nx end
  end.
Definition nunits_of (nbytes : Z) : Z := u32 ((nbytes + 15) / 16 + 1).
Definition malloc (fuel ffuel : nat) (nbytes : Z) : M ust Z :=
  fp ← gets freep;
  (if fp =? 0 then set_ptr base base ;; set_freep base ;; set_size base 0 else mret ()) ;;
  prevp ← gets freep;
  p ← ptr prevp;
  malloc_loop fuel ffuel (nunits_of nbytes) prevp p.
End code.

(** ** Lists of blocks *)

(** A block is its address and its size in units; [seg l e]: the blocks of [l] have
    their headers in memory, each pointing to the next and the last to [e]. *)
Abbreviation block := (Z * Z)%type.
Definition end_of (b : block) : Z := b.1 + 16 * b.2.
Definition first (l : list block) (e : Z) : Z := match l with [] => e | b :: _ => b.1 end.
Fixpoint seg (m : ubytes) (l : list block) (e : Z) : Prop :=
  match l with [] => True | b :: l => ld 8 m b.1 = first l e ∧ ld 4 m (b.1 + 8) = b.2 ∧ seg m l e end.
Definition apart (b c : block) : Prop := end_of b <= c.1 ∨ end_of c <= b.1.
Fixpoint all_apart (l : list block) : Prop := match l with [] => True | b :: l => Forall (apart b) l ∧ all_apart l end.
(** In order of address, with a gap after each. *)
Fixpoint ordered (l : list block) : Prop := match l with [] => True | b :: l => Forall (λ c, end_of b < c.1) l ∧ ordered l end.
Definition units (l : list block) : Z := foldr (λ b n, b.2 + n) 0 l.

(** [F] is the free list without [base], [L] the blocks the program holds; a byte of
    [held] belongs to the program. *)
Definition held (L : list block) (x : Z) : Prop := ∃ b, b ∈ L ∧ b.1 + 16 <= x < end_of b.

Section inv.
Context (base heap0 : Z).
Record alloc_inv (s : ust) (F L : list block) : Prop := {
  ai_ring : seg (um s) ((base, 0) :: F) base;
  ai_freep : freep s ∈ base :: F.*1;
  ai_order : ordered ((base, 0) :: F);
  ai_in : Forall (λ b, 1 <= b.2 ∧ heap0 <= b.1 ∧ end_of b <= brk s) (F ++ L);
  ai_apart : all_apart L;
  ai_cross : ∀ b c, b ∈ F → c ∈ L → apart b c;
  ai_size : ∀ b, b ∈ L → ld 4 (um s) (b.1 + 8) = b.2;
  ai_brk : 0 < base ∧ base + 16 <= heap0 <= brk s ∧ brk s <= 2 ^ 36;
}.
(** Before the first call the list is not there. *)
Definition allocator (s : ust) (F L : list block) : Prop :=
  alloc_inv s F L ∨ freep s = 0 ∧ F = [] ∧ L = [] ∧ 0 < base ∧ base + 16 <= heap0 <= brk s ∧ brk s <= 2 ^ 36.
(** What a call leaves alone: the bytes of the program. *)
Definition keeps (L : list block) (s s' : ust) : Prop := ∀ x, held L x → um s' x = um s x.
End inv.

Section blocks.
Implicit Types (l : list block) (b c : block).

Lemma apart_sym b c : apart b c → apart c b.
Proof. unfold apart. tauto. Qed.
Lemma first_app l1 l2 e : first (l1 ++ l2) e = first l1 (first l2 e).
Proof. by destruct l1. Qed.
Lemma seg_app m l1 l2 e : seg m (l1 ++ l2) e ↔ seg m l1 (first l2 e) ∧ seg m l2 e.
Proof. induction l1 as [|b l1 IH]; cbn; [tauto|]. rewrite first_app, IH. tauto. Qed.
Lemma seg_ext m m' l e : (∀ b x, b ∈ l → b.1 <= x < b.1 + 12 → m' x = m x) → seg m l e → seg m' l e.
Proof.
  revert e. induction l as [|b l IH]; intros e Hx; cbn; [done|]. intros (H1 & H2 & H3). split_and!.
  - rewrite <- H1. apply ld_ext. intros x ?. apply (Hx b); [by left|lia].
  - rewrite <- H2. apply ld_ext. intros x ?. apply (Hx b); [by left|lia].
  - apply IH; [|done]. intros c x Hc. apply Hx. by right.
Qed.
Lemma seg_elem m l1 b l2 e : seg m (l1 ++ b :: l2) e → ld 8 m b.1 = first l2 e ∧ ld 4 m (b.1 + 8) = b.2.
Proof. intros (_ & H1 & H2 & _)%seg_app. done. Qed.
(** A ring, seen from another block. *)
Lemma seg_rotate m l1 l2 : l1 ≠ [] → l2 ≠ [] → seg m (l1 ++ l2) (first l1 0) → seg m (l2 ++ l1) (first l2 0).
Proof.
  intros H1 H2 [Hs1 Hs2]%seg_app. apply seg_app. destruct l1 as [|b1 l1], l2 as [|b2 l2]; done.
Qed.
Lemma ordered_app l1 l2 : ordered (l1 ++ l2) ↔ ordered l1 ∧ ordered l2 ∧ ∀ b c, b ∈ l1 → c ∈ l2 → end_of b < c.1.
Proof.
  induction l1 as [|b l1 IH]; cbn; [split; [intros ?; split_and!; [done..|by intros ?? ?%elem_of_nil]|tauto]|].
  rewrite Forall_app, IH, !Forall_forall. setoid_rewrite elem_of_cons. split.
  - intros ((H1 & H2) & H3 & H4 & H5). split_and!; try done. intros b' c [->|Hb] Hc; [by apply H2|by apply H5].
  - intros ((H1 & H2) & H3 & H4). split_and!; try done; intros; apply H4; auto.
Qed.
Lemma all_apart_app l1 l2 : all_apart (l1 ++ l2) ↔ all_apart l1 ∧ all_apart l2 ∧ ∀ b c, b ∈ l1 → c ∈ l2 → apart b c.
Proof.
  induction l1 as [|b l1 IH]; cbn; [split; [intros ?; split_and!; [done..|by intros ?? ?%elem_of_nil]|tauto]|].
  rewrite Forall_app, IH, !Forall_forall. setoid_rewrite elem_of_cons. split.
  - intros ((H1 & H2) & H3 & H4 & H5). split_and!; try done. intros b' c [->|Hb] Hc; [by apply H2|by apply H5].
  - intros ((H1 & H2) & H3 & H4). split_and!; try done; intros; apply H4; auto.
Qed.
Lemma units_cons b l : units (b :: l) = b.2 + units l.
Proof. done. Qed.
Lemma units_app l1 l2 : units (l1 ++ l2) = units l1 + units l2.
Proof. unfold units. induction l1 as [|b l1 IH]; cbn; lia. Qed.
(** Where a new block goes: after the blocks below it. *)
Lemma ordered_split bp l b0 : ordered (b0 :: l) → (∀ b, b ∈ l → b.1 ≠ bp ∧ 0 <= b.2) → b0.1 < bp →
  ∃ l1 b l2, b0 :: l = l1 ++ b :: l2 ∧ b.1 < bp ∧ Forall (λ c, bp < c.1) l2.
Proof.
  revert b0. induction l as [|c l IH]; intros b0 Ho Hne Hf; [by exists [], b0, []|].
  destruct Ho as [Ho1 Ho2]. destruct (Hne c ltac:(by left)) as [Hc0 Hc1]. destruct (decide (c.1 < bp)) as [Hc|Hc].
  - destruct (IH c) as (l1 & b' & l2 & -> & Hb & Hl); [done|intros; apply Hne; by right|done|]. by exists (b0 :: l1), b', l2.
  - exists [], b0, (c :: l). split; [done|]. split; [done|]. destruct Ho2 as [Ho2 _]. constructor; [lia|].
    eapply Forall_impl; [exact Ho2|]. unfold end_of. cbn. intros d Hd. lia.
Qed.
End blocks.

(** ** Running the primitives *)

Section runs.
Context (base heap0 : Z) (grant : Z → Z → bool).
Implicit Types (s : ust) (F L l : list block) (b c : block).
#[local] Notation mapped := (mapped base heap0).
#[local] Notation ptr := (ptr base heap0).
#[local] Notation size := (size base heap0).
#[local] Notation set_ptr := (set_ptr base heap0).
#[local] Notation set_size := (set_size base heap0).
#[local] Notation join := (join base heap0).
#[local] Notation find_place := (find_place base heap0).

(** The header at [a] is accessible. *)
Definition header (s : ust) (a : Z) : Prop := a = base ∨ heap0 <= a ∧ a + 16 <= brk s.
Lemma header_mapped s a x n : header s a → a <= x → 0 <= n → x + n <= a + 16 → mapped s x n = true.
Proof. unfold header, Umalloc.mapped. intros Hh ???. apply orb_true_iff. rewrite !andb_true_iff, !Z.leb_le. destruct Hh; [left|right]; lia. Qed.
Lemma ptr_run s a v : header s a → ld 8 (um s) a = v → ptr a s = Ret (v, s).
Proof. intros Hh <-. unfold Umalloc.ptr, load. by rewrite (header_mapped s a) by (done || lia). Qed.
Lemma size_run s a v : header s a → ld 4 (um s) (a + 8) = v → size a s = Ret (v, s).
Proof. intros Hh <-. unfold Umalloc.size, load. by rewrite (header_mapped s a) by (done || lia). Qed.
Lemma set_ptr_run s a v : header s a → set_ptr a v s = Ret ((), Ust (st 8 (um s) a v) (brk s) (freep s)).
Proof. intros Hh. unfold Umalloc.set_ptr, store. by rewrite (header_mapped s a) by (done || lia). Qed.
Lemma set_size_run s a v : header s a → 0 <= v < 2 ^ 32 → set_size a v s = Ret ((), Ust (st 4 (um s) (a + 8) v) (brk s) (freep s)).
Proof. intros Hh Hv. unfold Umalloc.set_size, store. by rewrite (header_mapped s a), wrap_small by (done || lia). Qed.

(** ** Joining blocks *)

Definition join_l (b : block) (l : list block) : list block :=
  match l with c :: l' => if end_of b =? c.1 then (b.1, b.2 + c.2) :: l' else b :: l | [] => [b] end.

Lemma join_seg s b l e :
  seg (um s) l e → ld 4 (um s) (b.1 + 8) = b.2 → header s b.1 → (∀ c, c ∈ l → header s c.1 ∧ b.1 + 16 <= c.1 < 2 ^ 64 ∧ 0 <= b.2 + c.2 < 2 ^ 32) →
  (l = [] → end_of b ≠ e) → 0 <= b.1 ∧ 0 <= e < 2 ^ 64 →
  ∃ m, join b.1 (first l e) s = Ret ((), Ust m (brk s) (freep s)) ∧ seg m (join_l b l) e ∧ ∀ x, ¬ b.1 <= x < b.1 + 12 → m x = um s x.
Proof.
  intros Hs Hb Hh Hl He Hr. unfold Umalloc.join. erewrite bind_Ret by (by apply size_run). change (b.1 + 16 * b.2) with (end_of b).
  destruct (decide (end_of b = first l e)) as [E|E].
  - rewrite (proj2 (Z.eqb_eq _ _) E). destruct l as [|c l]; [by destruct (He eq_refl)|]. cbn [first] in *. destruct (Hl c ltac:(by left)) as (Hc & Hbc & Hsz).
    destruct Hs as (Hp & Hn & Hs). erewrite bind_Ret by (by apply size_run). erewrite bind_Ret by (apply set_size_run; [done|lia]).
    erewrite bind_Ret; [|apply ptr_run; [done|cbn [um]; rewrite ld_st_other by lia; exact Hp]]. rewrite set_ptr_run by done. cbn [um brk freep].
    eexists. split; [done|]. unfold join_l. rewrite (proj2 (Z.eqb_eq _ _) E). split.
    + cbn [seg fst snd]. split_and!.
      * apply ld_st_same. destruct l as [|d l]; [exact (proj2 Hr)|]. cbn. pose proof (Hl d ltac:(right; by left)). change (8 * Z.of_nat 8) with 64. lia.
      * rewrite ld_st_other by lia. apply ld_st_same. change (8 * Z.of_nat 4) with 32. lia.
      * eapply seg_ext; [|exact Hs]. intros d x Hd Hx. pose proof (Hl d ltac:(by right)). by rewrite !st_other by lia.
    + intros x Hx. by rewrite !st_other by lia.
  - rewrite (proj2 (Z.eqb_neq _ _) E), set_ptr_run by done. eexists. split; [done|]. split.
    + assert (join_l b l = b :: l) as -> by (destruct l; [done|]; cbn [first] in E; cbn [join_l]; by rewrite (proj2 (Z.eqb_neq _ _) E)). cbn [seg]. split_and!.
      * apply ld_st_same. destruct l as [|d l]; [exact (proj2 Hr)|]. cbn. pose proof (Hl d ltac:(by left)). change (8 * Z.of_nat 8) with 64. lia.
      * rewrite ld_st_other by lia. done.
      * eapply seg_ext; [|exact Hs]. intros d x Hd Hx. pose proof (Hl d Hd). by rewrite !st_other by lia.
    + intros x Hx. by rewrite !st_other by lia.
Qed.

Lemma join_l_units b l : units (join_l b l) = b.2 + units l.
Proof. destruct l as [|c l]; cbn; [done|]. destruct (end_of b =? c.1); cbn; lia. Qed.
Lemma join_l_first b l e : first (join_l b l) e = b.1.
Proof. destruct l as [|c l]; cbn; [done|]. by destruct (end_of b =? c.1). Qed.
(** The blocks of the new list lie between the old ones. *)
Lemma join_l_in b l d : d ∈ join_l b l → d ∈ l ∨ d = b ∨ ∃ c, c ∈ l ∧ d.1 = b.1 ∧ d.2 = b.2 + c.2 ∧ end_of b = c.1 ∧ end_of d = end_of c.
Proof.
  destruct l as [|c l]; cbn; [intros ->%list_elem_of_singleton; auto|]. destruct (Z.eqb_spec (end_of b) c.1) as [E|E].
  - intros [->|Hd]%elem_of_cons; [|left; by right]. right. right. exists c. split_and!; [by left|done..|]. unfold end_of in *. cbn. lia.
  - intros [->|Hd]%elem_of_cons; auto.
Qed.
Lemma join_l_ordered b l : ordered l → (∀ c, c ∈ l → end_of b <= c.1 ∧ 1 <= c.2) → ordered (join_l b l).
Proof.
  destruct l as [|c l]; cbn; [done|]. intros [H1 H2] Hb. rewrite Forall_forall in H1. destruct (Z.eqb_spec (end_of b) c.1) as [E|E]; cbn; rewrite Forall_forall.
  - split; [|done]. intros d Hd. specialize (H1 d Hd). unfold end_of in *. cbn. lia.
  - rewrite Forall_forall. split; [|done]. pose proof (Hb c ltac:(by left)). intros d [->|Hd]%elem_of_cons; [lia|]. specialize (H1 d Hd). unfold end_of in *. lia.
Qed.
Lemma join_l_apart b l d : (∀ c, c ∈ l → apart c d) → apart b d → 1 <= d.2 → (∀ c, c ∈ l → 0 <= c.2) → ∀ c, c ∈ join_l b l → apart c d.
Proof.
  intros Hl Hb Hd Hn c [Hc|[->|(c' & Hc' & E1 & E2 & E3 & E4)]]%join_l_in; [by apply Hl|done|].
  pose proof (Hl c' Hc') as Ha. pose proof (Hn c' Hc'). unfold apart, end_of in *. lia.
Qed.

(** ** The place of a block *)

(** The test of the loop of [free]. *)
Definition good (bp p nx : Z) : bool := (p <? bp) && (bp <? nx) || (nx <=? p) && ((p <? bp) || (bp <? nx)).
Lemma find_place_spec s bp : ∀ l fuel e,
  seg (um s) l e → (∀ c, c ∈ l → header s c.1) → (∃ b, b ∈ l ∧ good bp b.1 (ld 8 (um s) b.1) = true) → (length l <= fuel)%nat →
  ∃ b, b ∈ l ∧ good bp b.1 (ld 8 (um s) b.1) = true ∧ find_place fuel (first l e) bp s = Ret (b.1, s).
Proof.
  induction l as [|c l IH]; intros fuel e Hs Hh (b & Hb & Hg) Hf; [by apply elem_of_nil in Hb|].
  destruct fuel as [|fuel]; [cbn in Hf; lia|]. destruct Hs as (H1 & _ & Hs). cbn [find_place first]. erewrite bind_Ret by (apply ptr_run; [apply Hh; by left|exact H1]).
  destruct (good bp c.1 (ld 8 (um s) c.1)) eqn:Eg.
  - exists c. split; [by left|]. split; [done|]. unfold good in Eg. rewrite H1 in Eg. destruct ((c.1 <? bp) && (bp <? first l e)); [done|]. cbn in Eg. by rewrite Eg.
  - apply elem_of_cons in Hb as [->|Hb]; [congruence|]. destruct (IH fuel e Hs) as (b' & Hb' & Hg' & E); [intros; apply Hh; by right|eauto|cbn in Hf; lia|].
    exists b'. split; [by right|]. split; [done|]. unfold good in Eg. rewrite H1 in Eg. apply orb_false_iff in Eg as [-> ->]. done.
Qed.

(** From any block of the ring. *)
Lemma ring_from s ns f : seg (um s) ns (first ns 0) → f ∈ ns.*1 → ∃ l, seg (um s) l f ∧ first l f = f ∧ l ≡ₚ ns.
Proof.
  intros Hs ([a n] & -> & (l1 & l2 & ->)%list_elem_of_split)%list_elem_of_fmap. exists (((a, n) :: l2) ++ l1). split; [|split; [done|apply Permutation_app_comm]].
  destruct l1 as [|b l1]; [by rewrite app_nil_r|]. by apply (seg_rotate (um s) (b :: l1) ((a, n) :: l2)).
Qed.

Section free.
Context s F L (Hinv : alloc_inv base heap0 s F L).
#[local] Notation nodes := ((base, 0) :: F).

Lemma node_in b : b ∈ nodes → b = (base, 0) ∨ 1 <= b.2 ∧ heap0 <= b.1 ∧ end_of b <= brk s.
Proof. intros [->|Hb]%elem_of_cons; [by left|right]. pose proof (ai_in _ _ _ _ _ Hinv) as Hf. rewrite Forall_forall in Hf. apply Hf, elem_of_app. by left. Qed.
Lemma held_in b : b ∈ L → 1 <= b.2 ∧ heap0 <= b.1 ∧ end_of b <= brk s.
Proof. intros Hb. pose proof (ai_in _ _ _ _ _ Hinv) as Hf. rewrite Forall_forall in Hf. apply Hf, elem_of_app. by right. Qed.
Lemma node_header b : b ∈ nodes → header s b.1.
Proof. intros [->|(? & ? & ?)]%node_in; [by left|right]. unfold end_of in *. lia. Qed.
Lemma node_size b : b ∈ nodes → 0 <= b.2 ∧ base <= b.1 ∧ end_of b <= 2 ^ 36.
Proof. pose proof (ai_brk _ _ _ _ _ Hinv). intros [->|(? & ? & ?)]%node_in; unfold end_of in *; cbn; lia. Qed.

Lemma place_found b fuel : b ∈ L → (length F < fuel)%nat →
  ∃ N1 p N2, nodes = N1 ++ p :: N2 ∧ p.1 < b.1 ∧ Forall (λ c, b.1 < c.1) N2 ∧ find_place fuel (freep s) b.1 s = Ret (p.1, s).
Proof.
  intros Hb Hf. pose proof (ai_order _ _ _ _ _ Hinv) as Ho. pose proof (ai_brk _ _ _ _ _ Hinv) as Hbrk. pose proof (held_in b Hb) as Hbin. pose proof (ai_ring _ _ _ _ _ Hinv) as Hs.
  destruct (ring_from s nodes (freep s)) as (l & Hl & Hlf & Hp); [exact Hs|exact (ai_freep _ _ _ _ _ Hinv)|].
  destruct (find_place_spec s b.1 l fuel (freep s)) as (p & Hpl & Hg & E); [done|intros c Hc; apply node_header; by rewrite <- Hp|..].
  - destruct (ordered_split b.1 F (base, 0)) as (N1 & p & N2 & EN & Hpb & HN); [done| |cbn; lia|].
    { intros c Hc. pose proof (ai_cross _ _ _ _ _ Hinv c b Hc Hb) as Ha. pose proof (node_in c ltac:(by right)) as [->|Hc']; unfold apart, end_of in *; cbn in *; lia. }
    exists p. split; [apply (elem_of_Permutation_proper _ _ _ Hp); rewrite EN; apply elem_of_app; right; by left|]. rewrite EN in Hs. destruct (seg_elem _ _ _ _ _ Hs) as [-> _].
    pose proof (node_size p ltac:(rewrite EN; apply elem_of_app; right; by left)). unfold good.
    destruct N2 as [|c N2]; cbn [first]; [apply orb_true_iff; right; rewrite andb_true_iff, orb_true_iff, Z.leb_le, !Z.ltb_lt; lia|].
    apply Forall_cons in HN as [HN _]. apply orb_true_iff; left. rewrite andb_true_iff, !Z.ltb_lt. lia.
  - rewrite Hp. cbn. lia.
  - rewrite Hlf in E. rewrite Hp in Hpl. pose proof (node_size p Hpl) as Hps. apply list_elem_of_split in Hpl as (N1 & N2 & EN). exists N1, p, N2. split; [done|].
    rewrite EN in Hs. destruct (seg_elem _ _ _ _ _ Hs) as [E1 _]. rewrite E1 in Hg. rewrite EN in Ho. apply ordered_app in Ho as (_ & [Ho1 Ho2] & _). unfold good in Hg.
    destruct N2 as [|c N2]; cbn [first] in Hg; [split; [lia|done]|]. apply Forall_cons in Ho1 as [Ho1 _]. destruct Ho2 as [Ho2 _]. unfold end_of in *.
    assert (p.1 < b.1 < c.1) as Hpc by lia. split; [lia|]. split; [|done]. constructor; [lia|].
    eapply Forall_impl; [exact Ho2|]. cbn. intros d Hd. pose proof (node_size c) as Hcn. rewrite EN in Hcn. specialize (Hcn ltac:(apply elem_of_app; right; right; by left)). lia.
Qed.
End free.

Definition in_heap (s : ust) (b : block) : Prop := 1 <= b.2 ∧ heap0 <= b.1 ∧ end_of b <= brk s.
Lemma join_l_heap s b l : in_heap s b → (∀ c, c ∈ l → in_heap s c) → ∀ d, d ∈ join_l b l → in_heap s d.
Proof.
  intros Hb Hl d [Hd|[->|(c & Hc & E1 & E2 & E3 & E4)]]%join_l_in; [by apply Hl|done|].
  pose proof (Hl c Hc). unfold in_heap, end_of in *. lia.
Qed.
Lemma join_l_big b l : (∀ c, c ∈ l → 0 <= c.2) → ∃ c, c ∈ join_l b l ∧ b.2 <= c.2.
Proof.
  intros Hl. destruct l as [|c l]; cbn; [exists b; split; [by left|lia]|]. pose proof (Hl c ltac:(by left)).
  destruct (end_of b =? c.1); [exists (b.1, b.2 + c.2)|exists b]; (split; [by left|cbn; lia]).
Qed.
Lemma join_l_keeps_big b l n : 0 <= b.2 → (∃ c, c ∈ l ∧ n <= c.2) → ∃ c, c ∈ join_l b l ∧ n <= c.2.
Proof.
  intros Hb (c & Hc & Hn). destruct l as [|d l]; [by apply elem_of_nil in Hc|]. cbn. destruct (end_of b =? d.1).
  - apply elem_of_cons in Hc as [->|Hc]; [exists (b.1, b.2 + d.2); split; [by left|cbn; lia]|exists c; split; [by right|done]].
  - exists c. split; [by right|done].
Qed.
Lemma join_l_length b l : (length (join_l b l) <= S (length l))%nat.
Proof. destruct l as [|c l]; cbn; [lia|]. destruct (end_of b =? c.1); cbn; lia. Qed.
Lemma join_l_below b l c : (∀ d, d ∈ b :: l → end_of c < d.1) → ∀ d, d ∈ join_l b l → end_of c < d.1.
Proof.
  intros Hl d [Hd|[->|(c' & Hc & E1 & _)]]%join_l_in; [apply Hl; by right|apply Hl; by left|]. rewrite E1. apply Hl. by left.
Qed.

(** What the new free list is: [F] with [b] put in. *)
Record inserted (s : ust) (F : list block) (b : block) (L : list block) (p : Z) (F' : list block) : Prop := {
  in_hp : ∀ d, d ∈ F' → in_heap s d;
  in_ord : ordered ((base, 0) :: F');
  in_apart : ∀ d c, d ∈ F' → c ∈ L → apart d c;
  in_p : p ∈ base :: F'.*1;
  in_units : units F' = units F + b.2;
  in_big : ∃ c, c ∈ F' ∧ b.2 <= c.2;
  in_length : (length F' <= S (length F))%nat;
}.
Lemma insert_nodes s F b L N1 p N2 :
  alloc_inv base heap0 s F (b :: L) → (base, 0) :: F = N1 ++ p :: N2 → p.1 < b.1 → Forall (λ c, b.1 < c.1) N2 →
  ∃ F', N1 ++ join_l p (join_l b N2) = (base, 0) :: F' ∧ inserted s F b L p.1 F'.
Proof.
  intros Hinv EN Hp HN. pose proof (ai_brk _ _ _ _ _ Hinv) as Hbrk. pose proof (held_in _ _ _ Hinv b ltac:(by left)) as Hb. rewrite Forall_forall in HN.
  pose proof (ai_apart _ _ _ _ _ Hinv) as [HbL HL]. rewrite Forall_forall in HbL. pose proof (ai_order _ _ _ _ _ Hinv) as Ho.
  assert (∀ c, c ∈ F → in_heap s c) as HF.
  { intros c Hc. pose proof (ai_in _ _ _ _ _ Hinv) as Hf. rewrite Forall_forall in Hf. apply Hf, elem_of_app. by left. }
  assert (∀ c, c ∈ N2 → c ∈ F) as HN2.
  { intros c Hc. destruct N1 as [|? N1]; injection EN as ??; subst; [done|]. apply elem_of_app. right. by right. }
  assert (∀ c, c ∈ N2 → end_of b <= c.1 ∧ 1 <= c.2) as HbN.
  { intros c Hc. pose proof (ai_cross _ _ _ _ _ Hinv c b (HN2 c Hc) ltac:(by left)) as Ha. pose proof (HF c (HN2 c Hc)) as Hh. pose proof (HN c Hc). unfold apart, in_heap, end_of in *. lia. }
  assert (ordered (join_l b N2)) as HO2.
  { apply join_l_ordered; [|exact HbN]. rewrite EN in Ho. apply ordered_app in Ho as (_ & [_ ?] & _). done. }
  assert (∀ d, d ∈ join_l b N2 → in_heap s d) as HH2 by (apply join_l_heap; [exact Hb|intros; by apply HF, HN2]).
  assert (∀ c, c ∈ L → ∀ d, d ∈ join_l b N2 → apart d c) as HA2.
  { intros c Hc. pose proof (held_in _ _ _ Hinv c ltac:(by right)). apply join_l_apart; [intros; apply (ai_cross _ _ _ _ _ Hinv); [by apply HN2|by right]|by apply HbL|lia|].
    intros d Hd. pose proof (HbN d Hd). lia. }
  destruct (join_l_big b N2) as (c2 & Hc2 & Hbig); [intros c Hc; pose proof (HbN c Hc); lia|].
  destruct N1 as [|x N1]; injection EN as Ex EF.
  - subst p. exists (join_l b N2). destruct (join_l b N2) as [|d J] eqn:EJ; [by apply elem_of_nil in Hc2|].
    pose proof (HH2 d ltac:(by left)) as Hd. assert (end_of (base, 0) =? d.1 = false) as E by (apply Z.eqb_neq; unfold end_of, in_heap in *; cbn; lia).
    split; [cbn [app join_l]; by rewrite E|]. rewrite <- EJ in *. subst N2. split; try done.
    + split; [|done]. apply Forall_forall. intros d' Hd'. specialize (HH2 d' Hd'). unfold in_heap, end_of in *. cbn. lia.
    + intros d' c Hd' Hc. by apply HA2.
    + by left.
    + rewrite join_l_units. lia.
    + by exists c2.
    + apply join_l_length.
  - subst x. exists (N1 ++ join_l p (join_l b N2)). split; [done|]. assert (in_heap s p) as Hpp by (apply HF; rewrite EF; apply elem_of_app; right; by left).
    rewrite EF in Ho. destruct Ho as [Ho0 (Ho1 & [Ho2 _] & Ho3)%ordered_app]. rewrite Forall_forall in Ho2.
    assert (∀ d, d ∈ join_l p (join_l b N2) → in_heap s d) as HH3 by (by apply join_l_heap).
    assert (∀ d, d ∈ N1 ++ join_l p (join_l b N2) → in_heap s d) as HH4.
    { intros d [Hd|Hd]%elem_of_app; [apply HF; rewrite EF; apply elem_of_app; by left|by apply HH3]. }
    assert (∀ d, d ∈ join_l b N2 → b.1 <= d.1) as Hbd.
    { intros d [Hd|[->|(? & ? & -> & _)]]%join_l_in; [specialize (HN d Hd)|..]; lia. }
    assert (end_of p <= b.1) as Hpb.
    { pose proof (ai_cross _ _ _ _ _ Hinv p b ltac:(rewrite EF; apply elem_of_app; right; by left) ltac:(by left)) as Ha. unfold apart, in_heap, end_of in *. lia. }
    split; try done.
    + split; [apply Forall_forall; intros d Hd; specialize (HH4 d Hd); unfold in_heap, end_of in *; cbn; lia|]. apply ordered_app. split; [done|]. split.
      * apply join_l_ordered; [done|]. intros c Hc. specialize (Hbd c Hc). specialize (HH2 c Hc). unfold in_heap in HH2. lia.
      * intros c d Hc. apply join_l_below. intros d' [->|Hd']%elem_of_cons; [apply Ho3; [done|by left]|].
        specialize (Ho3 c p Hc ltac:(by left)). specialize (Hbd d' Hd'). lia.
    + intros d c [Hd|Hd]%elem_of_app Hc; [apply (ai_cross _ _ _ _ _ Hinv); [rewrite EF; apply elem_of_app; by left|by right]|].
      revert d Hd. pose proof (held_in _ _ _ Hinv c ltac:(by right)). apply join_l_apart; [by apply HA2| |lia|intros d Hd; specialize (HH2 d Hd); unfold in_heap in HH2; lia].
      apply (ai_cross _ _ _ _ _ Hinv); [rewrite EF; apply elem_of_app; right; by left|by right].
    + right. apply list_elem_of_fmap. destruct (join_l p (join_l b N2)) as [|d J] eqn:EJ; [by destruct (join_l b N2) as [|? ?]; cbn in EJ; [|destruct (end_of p =? _)]|].
      exists d. split; [|apply elem_of_app; right; by left]. pose proof (join_l_first p (join_l b N2) 0) as Ef. by rewrite EJ in Ef.
    + rewrite EF, !units_app, !join_l_units, units_cons. lia.
    + destruct (join_l_keeps_big p (join_l b N2) b.2) as (c & Hc & Hn); [unfold in_heap in Hpp; lia|by exists c2|]. exists c. split; [apply elem_of_app; by right|done].
    + rewrite EF, !length_app. cbn. pose proof (join_l_length p (join_l b N2)). pose proof (join_l_length b N2). lia.
Qed.

(** ** [free] *)

(** The bytes of [base] and of the blocks of a list; a call changes no other. *)
Definition free_byte (F : list block) (x : Z) : Prop := base <= x < base + 16 ∨ ∃ c, c ∈ F ∧ c.1 <= x < end_of c.
Definition same_outside (F : list block) (s s' : ust) : Prop := ∀ x, ¬ free_byte F x → um s' x = um s x.

Lemma free_run fuel s F b L : alloc_inv base heap0 s F (b :: L) → (length F < fuel)%nat →
  ∃ s' F', free base heap0 fuel (b.1 + 16) s = Ret ((), s') ∧ alloc_inv base heap0 s' F' L ∧ freep s' ∈ base :: F'.*1 ∧ inserted s F b L (freep s') F' ∧
    brk s' = brk s ∧ same_outside (b :: F) s s'.
Proof.
  intros Hinv Hf. destruct (place_found s F (b :: L) Hinv b fuel) as (N1 & p & N2 & EN & Hp & HN & E); [by left|done|].
  destruct (insert_nodes s F b L N1 p N2 Hinv EN Hp HN) as (F' & EF & Hins). pose proof (ai_brk _ _ _ _ _ Hinv) as Hbrk.
  pose proof (held_in _ _ _ Hinv b ltac:(by left)) as Hb. rewrite Forall_forall in HN. pose proof (ai_apart _ _ _ _ _ Hinv) as [HbL HL]. rewrite Forall_forall in HbL.
  pose proof (ai_ring _ _ _ _ _ Hinv) as Hs. rewrite EN in Hs. destruct (seg_elem _ _ _ _ _ Hs) as [Hp1 Hp2]. apply seg_app in Hs as [Hs1 (_ & _ & Hs2)].
  assert (∀ c, c ∈ N1 ++ p :: N2 → c ∈ (base, 0) :: F) as Hin by (by rewrite EN). pose proof (node_header _ _ _ Hinv) as Hh. pose proof (node_size _ _ _ Hinv) as Hsz.
  pose proof (ai_order _ _ _ _ _ Hinv) as Ho. rewrite EN in Ho. apply ordered_app in Ho as (Ho1 & [Ho2 _] & Ho3). rewrite Forall_forall in Ho2.
  assert (p ∈ (base, 0) :: F) as Hpn by (apply Hin, elem_of_app; right; by left).
  assert (∀ c, c ∈ N2 → c ∈ (base, 0) :: F) as HN2 by (intros c Hc; apply Hin, elem_of_app; right; by right).
  assert (∀ c, c ∈ N2 → in_heap s c ∧ end_of b <= c.1) as HN2h.
  { intros c Hc. pose proof (HN c Hc). destruct (node_in _ _ _ Hinv c (HN2 c Hc)) as [->|Hch]; [cbn in *; lia|]. split; [done|].
    pose proof (HN2 c Hc) as [->|Hcf]%elem_of_cons; [cbn in *; lia|]. pose proof (ai_cross _ _ _ _ _ Hinv c b Hcf ltac:(by left)) as Ha. unfold apart, end_of in *. lia. }
  assert (in_heap s b) as Hbh by done. assert (p.1 + 16 <= b.1 ∧ end_of p <= b.1) as Hpb.
  { destruct (node_in _ _ _ Hinv p Hpn) as [->|Hph]; [unfold in_heap, end_of in *; cbn; lia|].
    pose proof Hpn as [->|Hpf]%elem_of_cons; [unfold in_heap, end_of in *; cbn; lia|]. pose proof (ai_cross _ _ _ _ _ Hinv p b Hpf ltac:(by left)) as Ha. unfold apart, end_of in *. lia. }
  destruct (join_seg s b N2 base) as (m1 & E1 & Hm1 & Hx1); [done|apply (ai_size _ _ _ _ _ Hinv); by left|right; unfold in_heap, end_of in *; lia|..].
  { intros c Hc. destruct (HN2h c Hc) as [Hch ?]. split; [by apply Hh, HN2|]. unfold in_heap, end_of in *. lia. }
  { intros ->. unfold in_heap, end_of in *. lia. }
  { unfold in_heap, end_of in *. lia. }
  set (s1 := Ust m1 (brk s) (freep s)). pose proof (join_l_heap s b N2 Hbh (λ c Hc, proj1 (HN2h c Hc))) as HJ.
  assert (∀ c, c ∈ join_l b N2 → p.1 + 16 <= c.1 ∧ end_of p <= c.1) as HpJ.
  { intros c [Hc|[->|(? & ? & -> & _)]]%join_l_in; [destruct (HN2h c Hc)|..]; unfold in_heap, end_of in *; lia. }
  destruct (join_seg s1 p (join_l b N2) base) as (m2 & E2 & Hm2 & Hx2); [done|..].
  { cbn. rewrite <- Hp2. apply ld_ext. intros x Hx. apply Hx1. lia. }
  { by apply Hh. }
  { intros c Hc. pose proof (HJ c Hc) as Hch. pose proof (HpJ c Hc). pose proof (Hsz p Hpn). split; [right; change (brk s1) with (brk s); unfold in_heap, end_of in *; lia|]. unfold in_heap, end_of in *. lia. }
  { intros EJ. destruct N2 as [|? N2]; cbn in EJ; [done|destruct (end_of b =? _); done]. }
  { pose proof (Hsz p Hpn). lia. }
  rewrite join_l_first in E2. exists (Ust m2 (brk s) p.1), F'. split.
  { unfold free. replace (b.1 + 16 - 16) with b.1 by lia. erewrite bind_Ret by done. erewrite bind_Ret by exact E. erewrite bind_Ret by (apply ptr_run; [by apply Hh|exact Hp1]).
    erewrite bind_Ret by exact E1. by erewrite bind_Ret by exact E2. }
  assert (∀ x, ¬ b.1 <= x < b.1 + 12 → ¬ p.1 <= x < p.1 + 12 → m2 x = um s x) as Hx by (intros x ? ?; rewrite Hx2, Hx1; done).
  destruct Hins as [Hhp Hord Hap Hip Hun Hbig Hlen]. split_and!; try done.
  - split; cbn [um brk freep]; try done.
    + rewrite <- EF. apply seg_app. split; [|done]. rewrite join_l_first. eapply seg_ext; [|exact Hs1].
      intros c x Hc Hcx. pose proof (Ho3 c p Hc ltac:(by left)) as Hcp. pose proof (Hsz c (Hin c ltac:(apply elem_of_app; by left))).
      assert (c.1 + 16 <= p.1) as Hc16.
      { pose proof (Hin c ltac:(apply elem_of_app; by left)) as Hcn. destruct (node_in _ _ _ Hinv c Hcn) as [->|Hch]; [|unfold end_of in *; lia].
        destruct (node_in _ _ _ Hinv p Hpn) as [->|Hph]; unfold end_of in *; cbn in *; lia. }
      apply Hx; lia.
    + apply Forall_app. split; apply Forall_forall; [done|]. intros c Hc. apply (held_in _ _ _ Hinv). by right.
    + intros c Hc. rewrite <- (ai_size _ _ _ _ _ Hinv c) by (by right). apply ld_ext. intros x Hcx.
      pose proof (HbL c Hc) as Ha. pose proof (held_in _ _ _ Hinv c ltac:(by right)) as Hch. apply Hx; [unfold apart, in_heap, end_of in *; lia|].
      apply elem_of_cons in Hpn as [->|Hpf]; [cbn; lia|]. pose proof (ai_cross _ _ _ _ _ Hinv p c Hpf ltac:(by right)). pose proof (Hsz p ltac:(by right)).
      destruct (node_in _ _ _ Hinv p ltac:(by right)) as [->|Hph]; [cbn; lia|]. unfold apart, in_heap, end_of in *. lia.
  - intros x Hxn. cbn. pose proof (Hsz p Hpn). apply Hx.
    + intros ?. apply Hxn. right. exists b. split; [by left|]. unfold in_heap, end_of in *. lia.
    + intros ?. apply Hxn. apply elem_of_cons in Hpn as [->|Hpf]; [left; cbn in *; lia|right]. exists p. split; [by right|].
      pose proof (ai_in _ _ _ _ _ Hinv) as Hf'. rewrite Forall_forall in Hf'. specialize (Hf' p ltac:(apply elem_of_app; by left)). unfold end_of. lia.
Qed.

(** ** [malloc] *)

Lemma ordered_addr ns b c : ordered ns → (∀ d, d ∈ ns → 0 <= d.2) → b ∈ ns → c ∈ ns → b.1 = c.1 → b = c.
Proof.
  induction ns as [|d ns IH]; intros Ho Hn Hb Hc E; [by apply elem_of_nil in Hb|]. destruct Ho as [Hd Ho]. rewrite Forall_forall in Hd.
  pose proof (Hn d ltac:(by left)). assert (∀ d, d ∈ ns → 0 <= d.2) as Hn' by (intros; apply Hn; by right).
  apply elem_of_cons in Hb as [->|Hb], Hc as [->|Hc]; [done|specialize (Hd c Hc)|specialize (Hd b Hb)|by apply IH]; unfold end_of in *; lia.
Qed.
Lemma ordered_NoDup ns : ordered ns → (∀ d, d ∈ ns → 0 <= d.2) → NoDup ns.*1.
Proof.
  induction ns as [|d ns IH]; intros Ho Hn; [constructor|]. destruct Ho as [Hd Ho]. rewrite Forall_forall in Hd. cbn. constructor.
  - intros (c & E & Hc)%list_elem_of_fmap. specialize (Hd c Hc). pose proof (Hn d ltac:(by left)). unfold end_of in *. lia.
  - apply IH; [done|]. intros; apply Hn; by right.
Qed.

#[local] Notation malloc_loop := (malloc_loop base heap0 grant).
#[local] Notation morecore := (morecore base heap0 grant).
(** The branch of the loop that has found its block. *)
Definition take_block (nunits prevp p ps : Z) : M ust Z :=
  r ← (if ps =? nunits then nx ← ptr p; set_ptr prevp nx ;; mret p
       else set_size p (ps - nunits) ;; ps' ← size p; let p := p + 16 * ps' in set_size p nunits ;; mret p);
  set_freep prevp ;; mret (r + 16).
Definition after_morecore (fuel ffuel : nat) (nunits : Z) : M ust Z :=
  o ← (q ← morecore ffuel nunits; mret (if q =? 0 then None else Some q));
  match o with None => mret 0 | Some p => nx ← ptr p; malloc_loop fuel ffuel nunits p nx end.
Lemma malloc_walk ffuel nunits s f e : f.1 = freep s → ∀ l c fuel,
  seg (um s) (c :: l ++ [f]) e → (∀ b, b ∈ l ++ [f] → header s b.1) → (∀ b, b ∈ l → b.1 ≠ freep s) → (length l < fuel)%nat →
  (∃ j1 q b j2, c :: l ++ [f] = j1 ++ q :: b :: j2 ∧ nunits <= b.2 ∧
     malloc_loop fuel ffuel nunits c.1 (first (l ++ [f]) e) s = take_block nunits q.1 b.1 b.2 s) ∨
  (∀ b, b ∈ l ++ [f] → b.2 < nunits) ∧ ∃ fuel', (fuel <= S fuel' + length l)%nat ∧
     malloc_loop fuel ffuel nunits c.1 (first (l ++ [f]) e) s = after_morecore fuel' ffuel nunits s.
Proof.
  intros Hf. induction l as [|b l IH]; intros c fuel Hs Hh Hne Hfu; (destruct fuel as [|fuel]; [cbn in Hfu; lia|]).
  - destruct Hs as (_ & _ & (_ & H2 & _)). cbn [app first Umalloc.malloc_loop]. erewrite bind_Ret by (apply size_run; [apply Hh; by left|exact H2]).
    destruct (Z.leb_spec nunits f.2).
    + left. exists [], c, f, []. by split_and!.
    + right. split; [intros b [->|Hb]%elem_of_cons; [done|by apply elem_of_nil in Hb]|]. exists fuel. split; [cbn; lia|]. erewrite bind_Ret by done.
      by rewrite Hf, Z.eqb_refl.
  - destruct Hs as (H0 & H1 & Hs). pose proof Hs as (Hb1 & Hb2 & _). cbn [app first Umalloc.malloc_loop]. erewrite bind_Ret by (apply size_run; [apply Hh; by left|exact Hb2]).
    destruct (Z.leb_spec nunits b.2).
    + left. exists [], c, b, (l ++ [f]). by split_and!.
    + erewrite bind_Ret by done. assert (b.1 ≠ freep s) as Hbf by (apply Hne; by left). rewrite (proj2 (Z.eqb_neq _ _) Hbf). erewrite bind_Ret by done.
      assert (header s b.1) as Hbh by (apply Hh; by left). cbn match beta. erewrite bind_Ret by (apply ptr_run; [exact Hbh|exact Hb1]).
      destruct (IH b fuel) as [(j1 & q & b' & j2 & E & Hn & EE)|(Hall & fuel' & Hf' & EE)]; [done|intros; apply Hh; by right|intros; apply Hne; by right|cbn in Hfu; lia|..].
      * left. exists (c :: j1), q, b', j2. split_and!; [cbn; by rewrite <- E|done|exact EE].
      * right. split; [intros d [->|Hd]%elem_of_cons; [done|by apply Hall]|]. exists fuel'. split; [cbn; lia|exact EE].
Qed.

Lemma ordered_lt ns c d : ordered ns → (∀ b, b ∈ ns → 0 <= b.2) → c ∈ ns → d ∈ ns → c.1 < d.1 → end_of c < d.1.
Proof.
  induction ns as [|b ns IH]; intros Ho Hn Hc Hd Hlt; [by apply elem_of_nil in Hc|]. destruct Ho as [Hb Ho]. rewrite Forall_forall in Hb.
  pose proof (Hn b ltac:(by left)). assert (∀ d, d ∈ ns → 0 <= d.2) as Hn' by (intros; apply Hn; by right).
  apply elem_of_cons in Hc as [->|Hc], Hd as [->|Hd]; [lia|by apply Hb|specialize (Hb c Hc); unfold end_of in *; lia|by apply IH].
Qed.

Section malloc.
Context s F L (Hinv : alloc_inv base heap0 s F L).
#[local] Notation nodes := ((base, 0) :: F).

Lemma node_nonneg b : b ∈ nodes → 0 <= b.2.
Proof. intros Hb. by apply (node_size _ _ _ Hinv). Qed.
Lemma header_gap c d : c ∈ nodes → d ∈ nodes → c.1 < d.1 → c.1 + 16 <= d.1 ∧ end_of c < d.1.
Proof.
  intros Hc Hd Hlt. pose proof (ordered_lt nodes c d (ai_order _ _ _ _ _ Hinv) node_nonneg Hc Hd Hlt). pose proof (ai_brk _ _ _ _ _ Hinv).
  destruct (node_in _ _ _ Hinv c Hc) as [->|Hch], (node_in _ _ _ Hinv d Hd) as [->|Hdh]; unfold end_of in *; cbn in *; lia.
Qed.
Lemma held_not_free c x : c ∈ L → c.1 <= x < end_of c → ¬ free_byte F x.
Proof.
  intros Hc Hx [Hb|(d & Hd & Hdx)]; pose proof (held_in _ _ _ Hinv c Hc) as Hch.
  - pose proof (ai_brk _ _ _ _ _ Hinv). lia.
  - pose proof (ai_cross _ _ _ _ _ Hinv d c Hd Hc) as Ha. unfold apart in Ha. lia.
Qed.
Lemma node_free b x : b ∈ nodes → b.1 <= x < b.1 + 16 → free_byte F x.
Proof. intros [->|Hb]%elem_of_cons Hx; [by left|right]. exists b. split; [done|]. destruct (node_in _ _ _ Hinv b ltac:(by right)) as [->|?]; [|unfold end_of; lia].
  pose proof (ai_in _ _ _ _ _ Hinv) as Hf. rewrite Forall_forall in Hf. specialize (Hf _ ltac:(apply elem_of_app; by left)). cbn in Hf. lia. Qed.

(** The ring from the block after [freep] round to it. *)
Lemma walk_ring : ∃ l f, f.1 = freep s ∧ f :: l ≡ₚ nodes ∧ seg (um s) (f :: l ++ [f]) (first (l ++ [f]) 0) ∧ ∀ b, b ∈ l → b.1 ≠ freep s.
Proof.
  destruct (ring_from s nodes (freep s)) as (l0 & Hl & Hlf & Hp); [exact (ai_ring _ _ _ _ _ Hinv)|exact (ai_freep _ _ _ _ _ Hinv)|].
  destruct l0 as [|f l]; [by apply Permutation_nil_l in Hp|]. cbn in Hlf. exists l, f. split; [done|]. split; [done|]. split.
  - destruct Hl as (H1 & H2 & H3). cbn [seg]. rewrite first_app. cbn [first]. split_and!; [by rewrite H1, Hlf|done|]. apply seg_app. cbn. split; [by rewrite <- Hlf in H3|].
    split_and!; [|done..]. rewrite H1, first_app. cbn. by rewrite Hlf.
  - pose proof (ordered_NoDup nodes (ai_order _ _ _ _ _ Hinv) node_nonneg) as Hnd.
    assert (NoDup (f :: l).*1) as [Hnf _]%NoDup_cons by (by rewrite Hp). intros b Hb E. apply Hnf. rewrite Hlf, <- E. by apply list_elem_of_fmap_2.
Qed.

(** A block and its predecessor, in order of address. *)
Lemma pred_split q b : q ∈ nodes → b ∈ nodes → ld 8 (um s) q.1 = b.1 → 1 <= b.2 →
  ∃ Q1 N2 P, nodes = Q1 ++ q :: b :: N2 ∧ (base, 0) :: P = Q1 ++ [q] ∧ F = P ++ b :: N2.
Proof.
  intros (Q1 & Q2 & EQ)%list_elem_of_split Hb Hq Hb1. pose proof (ai_ring _ _ _ _ _ Hinv) as Hs. rewrite EQ in Hs. destruct (seg_elem _ _ _ _ _ Hs) as [Hq1 _].
  pose proof (ai_brk _ _ _ _ _ Hinv) as Hbrk. assert (b.1 ≠ base) as Hbb by (destruct (node_in _ _ _ Hinv b Hb) as [->|Hbh]; cbn in *; lia).
  destruct Q2 as [|c N2]; cbn in Hq1; [congruence|]. assert (c = b) as ->.
  { apply (ordered_addr nodes); [exact (ai_order _ _ _ _ _ Hinv)|apply node_nonneg|rewrite EQ; apply elem_of_app; right; right; by left|done|congruence]. }
  destruct Q1 as [|x Q1]; injection EQ as <- EF; [exists [], N2, []; by rewrite EF|].
  exists ((base, 0) :: Q1), N2, (Q1 ++ [q]). split_and!; [by rewrite EF|done|by rewrite <- app_assoc].
Qed.

Lemma cut_inv q b Q1 N2 P F' m a n :
  nodes = Q1 ++ q :: b :: N2 → (base, 0) :: P = Q1 ++ [q] → F = P ++ b :: N2 → in_heap s b →
  F' = P ++ (if n =? b.2 then [] else [(b.1, b.2 - n)]) ++ N2 → a = b.1 + 16 * (b.2 - n) → 1 <= n <= b.2 →
  seg m ((base, 0) :: F') base → ld 4 m (a + 8) = n → (∀ x, ¬ free_byte F x → m x = um s x) →
  alloc_inv base heap0 (Ust m (brk s) q.1) F' ((a, n) :: L).
Proof.
  intros EN EP EF Hb EF' -> Hn Hseg Hsz Hm. pose proof (ai_order _ _ _ _ _ Hinv) as Ho. pose proof (ai_brk _ _ _ _ _ Hinv) as Hbrk.
  assert (nodes = (base, 0) :: P ++ b :: N2) as EN' by (by rewrite EF). rewrite EN' in Ho. change ((base, 0) :: P ++ b :: N2) with (((base, 0) :: P) ++ b :: N2) in Ho.
  apply ordered_app in Ho as (Ho1 & [Ho2 Ho3] & Ho4). rewrite Forall_forall in Ho2. set (bl := if n =? b.2 then [] else [(b.1, b.2 - n)]) in *.
  assert (∀ d, d ∈ bl → d = (b.1, b.2 - n) ∧ n < b.2) as Hbl.
  { subst bl. destruct (Z.eqb_spec n b.2); intros d Hd; [by apply elem_of_nil in Hd|]. apply list_elem_of_singleton in Hd. split; [done|lia]. }
  assert (∀ d, d ∈ F' → (d ∈ P ∨ d ∈ N2) ∧ d ∈ F ∨ d ∈ bl) as HF'.
  { rewrite EF', EF. intros d. rewrite !elem_of_app, elem_of_cons. tauto. }
  assert (b ∈ F) as HbF by (rewrite EF; apply elem_of_app; right; by left).
  pose proof (ai_in _ _ _ _ _ Hinv) as Hin. rewrite Forall_app, !Forall_forall in Hin. destruct Hin as [HinF HinL].
  split; cbn [um brk freep]; try done.
  - assert (q ∈ (base, 0) :: P) as Hq by (rewrite EP; apply elem_of_app; right; by left). apply elem_of_cons in Hq as [->|Hq]; [by left|right].
    apply list_elem_of_fmap_2. rewrite EF'. apply elem_of_app. by left.
  - rewrite EF'. change ((base, 0) :: P ++ bl ++ N2) with (((base, 0) :: P) ++ bl ++ N2). apply ordered_app. split; [done|]. split.
    + apply ordered_app. split; [subst bl; by destruct (n =? b.2)|]. split; [done|]. intros d c [-> ?]%Hbl Hc. specialize (Ho2 c Hc). unfold end_of in *. cbn. lia.
    + intros d c Hd [[-> ?]%Hbl|Hc]%elem_of_app; [apply (Ho4 d b Hd); by left|apply (Ho4 d c Hd); by right].
  - apply Forall_app. split; [|constructor; [unfold in_heap, end_of in *; cbn; lia|by apply Forall_forall]]. apply Forall_forall.
    intros d [[_ Hd]|[-> ?]%Hbl]%HF'; [by apply HinF|]. unfold in_heap, end_of in *. cbn. lia.
  - split; [|exact (ai_apart _ _ _ _ _ Hinv)]. apply Forall_forall. intros c Hc. pose proof (ai_cross _ _ _ _ _ Hinv b c HbF Hc) as Ha. pose proof (HinL c Hc).
    unfold apart, end_of in *. cbn. lia.
  - intros d c [[Hd HdF]|[-> ?]%Hbl]%HF' [->|Hc]%elem_of_cons.
    + destruct Hd as [Hd|Hd]; [specialize (Ho4 d b ltac:(by right) ltac:(by left))|specialize (Ho2 d Hd)]; unfold apart, end_of in *; cbn; lia.
    + by apply (ai_cross _ _ _ _ _ Hinv).
    + unfold apart, end_of. cbn. lia.
    + pose proof (ai_cross _ _ _ _ _ Hinv b c HbF Hc) as Ha. pose proof (HinL c Hc). unfold apart, end_of in *. cbn. lia.
  - intros c [->|Hc]%elem_of_cons; [exact Hsz|]. rewrite <- (ai_size _ _ _ _ _ Hinv c Hc). apply ld_ext. intros x Hx. apply Hm.
    apply (held_not_free c); [done|]. pose proof (HinL c Hc). unfold end_of. lia.
Qed.

Lemma cut_run q b n : q ∈ nodes → b ∈ nodes → ld 8 (um s) q.1 = b.1 → 1 <= n <= b.2 →
  ∃ r s' F', take_block n q.1 b.1 b.2 s = Ret (r, s') ∧ alloc_inv base heap0 s' F' ((r - 16, n) :: L) ∧ same_outside F s s' ∧
    brk s' = brk s ∧ units F' + n = units F ∧ (length F' <= length F)%nat ∧ 16 < r.
Proof.
  intros Hq Hb Hqb Hn. destruct (pred_split q b Hq Hb Hqb ltac:(lia)) as (Q1 & N2 & P & EN & EP & EF). pose proof (ai_brk _ _ _ _ _ Hinv) as Hbrk.
  assert (in_heap s b) as Hbh by (destruct (node_in _ _ _ Hinv b Hb) as [->|?]; [cbn in *; lia|done]).
  pose proof (node_header _ _ _ Hinv) as Hh. pose proof (ai_ring _ _ _ _ _ Hinv) as Hs. rewrite EN in Hs. pose proof Hs as [HsQ (Hq1 & Hq2 & Hb1 & Hb2 & HsN)]%seg_app.
  pose proof (ai_order _ _ _ _ _ Hinv) as Ho. rewrite EN in Ho. apply ordered_app in Ho as (_ & [Hoq [Hob _]] & HoQ). rewrite Forall_forall in Hoq, Hob.
  assert (∀ c, c ∈ Q1 ++ q :: b :: N2 → c ∈ nodes) as Hin by (by rewrite EN).
  assert (∀ c, c ∈ Q1 → c.1 + 16 <= q.1) as HQ.
  { intros c Hc. assert (c ∈ nodes) as Hcn by (apply Hin, elem_of_app; by left). apply header_gap; [done..|]. pose proof (HoQ c q Hc ltac:(by left)). pose proof (node_nonneg c Hcn). unfold end_of in *. lia. }
  assert (q.1 + 16 <= b.1) as Hqb16.
  { apply header_gap; [done..|]. pose proof (Hoq b ltac:(by left)). pose proof (node_nonneg q Hq). unfold end_of in *. lia. }
  assert (∀ c, c ∈ N2 → end_of b < c.1) as HN2 by done.
  assert (b.1 + 16 <= end_of b) as Hb16 by (unfold end_of; lia).
  unfold take_block. destruct (Z.eqb_spec b.2 n) as [E|E].
  - erewrite bind_Ret; [|erewrite bind_Ret by (apply ptr_run; [by apply Hh|exact Hb1]); erewrite bind_Ret by (apply set_ptr_run; by apply Hh); done].
    erewrite bind_Ret by done. eexists _, _, (P ++ N2). split; [done|]. cbn [um brk freep]. replace (b.1 + 16 - 16) with b.1 by lia.
    assert (∀ x, ¬ free_byte F x → st 8 (um s) q.1 (first N2 base) x = um s x) as Hm.
    { intros x Hx. apply st_other. intros ?. apply Hx, (node_free q); [done|lia]. }
    split_and!; try done.
    + eapply (cut_inv q b Q1 N2 P _ _ b.1 n); [done..|by rewrite (proj2 (Z.eqb_eq n b.2))|lia|lia| |by rewrite ld_st_other, Hb2 by lia|exact Hm].
      change ((base, 0) :: P ++ N2) with (((base, 0) :: P) ++ N2). rewrite EP, <- app_assoc. apply seg_app. cbn [app first seg]. split_and!.
      * eapply seg_ext; [|exact HsQ]. intros c x Hc Hx. apply st_other. pose proof (HQ c Hc). lia.
      * apply ld_st_same. destruct N2 as [|c N2]; cbn; [change (8 * Z.of_nat 8) with 64; lia|]. pose proof (node_size _ _ _ Hinv c ltac:(apply Hin, elem_of_app; right; right; right; by left)).
        unfold end_of in *. change (8 * Z.of_nat 8) with 64. lia.
      * by rewrite ld_st_other by lia.
      * eapply seg_ext; [|exact HsN]. intros c x Hc Hx. apply st_other. pose proof (HN2 c Hc). lia.
    + rewrite EF, !units_app, units_cons. lia.
    + rewrite EF, !length_app. cbn. lia.
    + unfold in_heap in Hbh. lia.
  - set (a := b.1 + 16 * (b.2 - n)). assert (in_heap s (b.1, b.2)) as Hbh' by done.
    assert (0 <= n < 2 ^ 32 ∧ 0 <= b.2 - n < 2 ^ 32) as Hrange by (unfold in_heap, end_of in *; lia).
    assert (header s a) as Ha by (right; unfold in_heap, end_of in *; lia).
    erewrite bind_Ret; [|erewrite bind_Ret by (apply set_size_run; [by apply Hh|lia]);
      erewrite bind_Ret by (apply size_run; [by apply Hh|cbn [um]; apply ld_st_same; change (8 * Z.of_nat 4) with 32; lia]);
      cbn beta zeta; erewrite bind_Ret by (apply set_size_run; [exact Ha|lia]); done].
    erewrite bind_Ret by done. cbn [um brk freep]. eexists _, _, (P ++ (b.1, b.2 - n) :: N2). split; [done|]. cbn [um brk freep]. replace (b.1 + 16 * (b.2 - n) + 16 - 16) with a by lia.
    assert (∀ x, ¬ free_byte F x → st 4 (st 4 (um s) (b.1 + 8) (b.2 - n)) (a + 8) n x = um s x) as Hm.
    { intros x Hx. assert (¬ b.1 <= x < end_of b) as Hxb.
      { intros ?. apply Hx. right. exists b. split; [rewrite EF; apply elem_of_app; right; by left|done]. }
      unfold end_of in *. subst a. rewrite !st_other by lia. done. }
    split_and!; try done.
    + eapply (cut_inv q b Q1 N2 P _ _ a n); [done..|by rewrite (proj2 (Z.eqb_neq n b.2)) by lia|done|lia| |apply ld_st_same; change (8 * Z.of_nat 4) with 32; lia|exact Hm].
      change ((base, 0) :: P ++ (b.1, b.2 - n) :: N2) with (((base, 0) :: P) ++ (b.1, b.2 - n) :: N2). rewrite EP, <- app_assoc. apply seg_app. cbn [app first seg fst snd].
      unfold end_of in *. subst a. split_and!.
      * eapply seg_ext; [|exact HsQ]. intros c x Hc Hx. pose proof (HQ c Hc). by rewrite !st_other by lia.
      * by rewrite !ld_st_other by lia.
      * by rewrite !ld_st_other by lia.
      * by rewrite !ld_st_other by lia.
      * rewrite ld_st_other by lia. apply ld_st_same. change (8 * Z.of_nat 4) with 32. lia.
      * eapply seg_ext; [|exact HsN]. intros c x Hc Hx. pose proof (HN2 c Hc). by rewrite !st_other by lia.
    + rewrite EF, !units_app, !units_cons. cbn [snd]. lia.
    + rewrite EF, !length_app. cbn. lia.
    + subst a. unfold in_heap in Hbh. lia.
Qed.
End malloc.

(** ** More memory *)

Definition units_got (nu : Z) : Z := if nu <? 4096 then 4096 else nu.
Definition grant_ok : Prop := ∀ k n, grant k n = true → k + n <= 2 ^ 36.
Lemma sbrk_run s n : 0 < n → sbrk grant n s = if grant (brk s) n then Ret (brk s, Ust (um s) (brk s + n) (freep s)) else Ret (-1, s).
Proof. intros Hn. unfold sbrk. erewrite bind_Ret by done. rewrite (proj2 (Z.ltb_lt _ _) Hn). by destruct (grant (brk s) n). Qed.
Lemma morecore_run ffuel s F L nu : grant_ok → alloc_inv base heap0 s F L → 1 <= nu < 2 ^ 27 → (length F < ffuel)%nat →
  grant (brk s) (16 * units_got nu) = false ∧ morecore ffuel nu s = Ret (0, s) ∨
  ∃ s' F', morecore ffuel nu s = Ret (freep s', s') ∧ alloc_inv base heap0 s' F' L ∧ freep s' ≠ 0 ∧ brk s' = brk s + 16 * units_got nu ∧
    (∀ x, x < brk s → ¬ free_byte F x → um s' x = um s x) ∧ units F' = units F + units_got nu ∧ (∃ c, c ∈ F' ∧ nu <= c.2) ∧ (length F' <= S (length F))%nat.
Proof.
  intros Hg Hinv Hnu Hf. pose proof (ai_brk _ _ _ _ _ Hinv) as Hbrk. set (mu := units_got nu). assert (4096 <= mu < 2 ^ 27 ∧ nu <= mu) as Hmu by (subst mu; unfold units_got; destruct (Z.ltb_spec nu 4096); lia).
  unfold Umalloc.morecore. fold (units_got nu). fold mu. rewrite swrap_small, (Z.mul_comm mu) by lia.
  pose proof (sbrk_run s (16 * mu) ltac:(lia)) as Eb0. destruct (grant (brk s) (16 * mu)) eqn:Eg; [right|left; split; [done|by erewrite bind_Ret by exact Eb0]]. pose proof (Hg _ _ Eg).
  set (s1 := Ust (st 4 (um s) (brk s + 8) mu) (brk s + 16 * mu) (freep s)). set (b := (brk s, mu)).
  pose proof (ai_in _ _ _ _ _ Hinv) as Hin. rewrite Forall_forall in Hin.
  assert (∀ x, x < brk s → um s1 x = um s x) as Hx1 by (intros x ?; apply st_other; lia).
  assert (alloc_inv base heap0 s1 F (b :: L)) as Hinv1.
  { split; cbn [um brk freep s1].
    - eapply seg_ext; [|exact (ai_ring _ _ _ _ _ Hinv)]. intros c x Hc Hcx. apply Hx1. apply elem_of_cons in Hc as [->|Hc]; [cbn in *; lia|].
      specialize (Hin c ltac:(apply elem_of_app; by left)). unfold end_of in *. lia.
    - exact (ai_freep _ _ _ _ _ Hinv).
    - exact (ai_order _ _ _ _ _ Hinv).
    - apply Forall_forall. intros c [Hc|[->|Hc]%elem_of_cons]%elem_of_app; [specialize (Hin c ltac:(apply elem_of_app; by left))| |specialize (Hin c ltac:(apply elem_of_app; by right))];
        unfold end_of in *; subst s1 b; cbn [fst snd brk] in *; lia.
    - split; [|exact (ai_apart _ _ _ _ _ Hinv)]. apply Forall_forall. intros c Hc. specialize (Hin c ltac:(apply elem_of_app; by right)). right. cbn. lia.
    - intros c d Hc [->|Hd]%elem_of_cons; [|by apply (ai_cross _ _ _ _ _ Hinv)]. specialize (Hin c ltac:(apply elem_of_app; by left)). left. cbn. lia.
    - intros c [->|Hc]%elem_of_cons; [apply ld_st_same; cbn; change (2 ^ _) with (2 ^ 32); lia|]. rewrite <- (ai_size _ _ _ _ _ Hinv c Hc).
      specialize (Hin c ltac:(apply elem_of_app; by right)). unfold end_of in *. apply ld_ext. intros x Hcx. apply Hx1. lia.
    - subst s1. cbn. lia. }
  destruct (free_run ffuel s1 F b L Hinv1 Hf) as (s' & F' & E & Hinv' & Hfp & Hins & Eb & Hout).
  exists s', F'. split.
  { erewrite bind_Ret by exact Eb0. rewrite (proj2 (Z.eqb_neq _ _)) by lia.
    erewrite bind_Ret by (apply set_size_run; [right; cbn; lia|lia]). by erewrite bind_Ret by exact E. }
  destruct Hins as [_ _ _ _ Hun (c & Hc & Hcb) Hlen]. split_and!; try done.
  - apply elem_of_cons in Hfp as [->|(d & -> & Hd)%list_elem_of_fmap]; [lia|]. pose proof (ai_in _ _ _ _ _ Hinv') as Hin'. rewrite Forall_forall in Hin'.
    specialize (Hin' d ltac:(apply elem_of_app; by left)). lia.
  - intros x Hxb Hx. rewrite <- Hx1 by done. apply Hout. intros [?|(d & [->|Hd]%elem_of_cons & ?)]; [by apply Hx; left|cbn in *; lia|]. apply Hx. right. by exists d.
  - exists c. split; [done|]. subst b. cbn in Hcb. lia.
Qed.

(** ** [malloc] *)

(** What a call of [malloc] that starts with the list [F] does. *)
Definition malloc_post (n : Z) (s : ust) (F L : list block) (r : Z) (s' : ust) : Prop :=
  keeps L s s' ∧
  ∃ F', r = 0 ∧ alloc_inv base heap0 s' F' L ∧ brk s' = brk s ∧ units F' = units F ∧ (∀ c, c ∈ F → c.2 < n) ∧ grant (brk s) (16 * units_got n) = false ∨
    16 < r ∧ alloc_inv base heap0 s' F' ((r - 16, n) :: L) ∧
      (brk s' = brk s ∧ units F' + n = units F ∨ (∀ c, c ∈ F → c.2 < n) ∧ brk s' = brk s + 16 * units_got n ∧ units F' + n = units F + units_got n).

Lemma keeps_outside s s' F L : alloc_inv base heap0 s F L → same_outside F s s' → keeps L s s'.
Proof. intros Hinv Ho x (c & Hc & Hx). apply Ho. apply (held_not_free s F L Hinv c); [done|lia]. Qed.

(** From a node of the ring round to [freep]. *)
Lemma loop_run s F L ffuel fuel n : alloc_inv base heap0 s F L → (length F < fuel)%nat → 1 <= n →
  ∃ p, ptr (freep s) s = Ret (p, s) ∧
    ((∃ r s' F', malloc_loop fuel ffuel n (freep s) p s = Ret (r, s') ∧ alloc_inv base heap0 s' F' ((r - 16, n) :: L) ∧ same_outside F s s' ∧
        brk s' = brk s ∧ units F' + n = units F ∧ 16 < r) ∨
     (∀ c, c ∈ F → c.2 < n) ∧ ∃ fuel', (fuel <= S fuel' + length F)%nat ∧ malloc_loop fuel ffuel n (freep s) p s = after_morecore fuel' ffuel n s).
Proof.
  intros Hinv Hf Hn. destruct (walk_ring s F L Hinv) as (l & f & Hlf & Hp & Hs & Hne).
  assert (∀ b, b ∈ f :: l ++ [f] → b ∈ (base, 0) :: F) as Hin.
  { intros b Hb. apply (elem_of_Permutation_proper _ _ _ Hp). apply elem_of_cons in Hb as [->|[Hb| ->%list_elem_of_singleton]%elem_of_app]; [by left|by right|by left]. }
  pose proof (Permutation_length Hp) as Hlen. cbn in Hlen. exists (first (l ++ [f]) 0). split.
  { rewrite <- Hlf. apply ptr_run; [apply (node_header _ _ _ Hinv), Hin; by left|]. destruct Hs as [-> _]. by destruct l. }
  rewrite <- Hlf. assert (first (l ++ [f]) (first (l ++ [f]) 0) = first (l ++ [f]) 0) as Ef by (by destruct l).
  destruct (malloc_walk ffuel n s f (first (l ++ [f]) 0) Hlf l f fuel Hs) as [(j1 & q & b & j2 & E & Hnb & EE)|(Hall & fuel' & Hf' & EE)].
  - intros b Hb. apply (node_header _ _ _ Hinv), Hin. by right.
  - done.
  - lia.
  - left. rewrite E in Hs, Hin. pose proof Hs as [_ (Hq1 & _ & Hs')]%seg_app.
    destruct (cut_run s F L Hinv q b n) as (r & s' & F' & Er & Hinv' & Ho & Hb & Hu & Hl & Hr); [apply Hin, elem_of_app; right; by left|apply Hin, elem_of_app; right; right; by left|done|lia|].
    exists r, s', F'. split; [by rewrite <- Ef, EE|done].
  - right. split; [|exists fuel'; split; [lia|by rewrite <- Ef]]. intros c Hc. apply Hall. assert (c ∈ f :: l) as Hcl by (apply (elem_of_Permutation_proper _ _ _ Hp); by right).
    apply elem_of_app. apply elem_of_cons in Hcl as [->|Hcl]; [right; by left|by left].
Qed.

Lemma malloc_inv_run fuel ffuel s F L nbytes (n := nunits_of nbytes) :
  grant_ok → alloc_inv base heap0 s F L → 0 <= nbytes <= 2 ^ 31 - 48 → (2 * length F + 4 <= fuel)%nat → (length F < ffuel)%nat →
  ∃ r s', (p ← ptr (freep s); malloc_loop fuel ffuel n (freep s) p) s = Ret (r, s') ∧ malloc_post n s F L r s'.
Proof.
  intros Hg Hinv Hnb Hf Hff. assert (n = (nbytes + 15) / 16 + 1) as En by (apply wrap_small; unfold in_range; dlia). assert (1 <= n < 2 ^ 27) as Hn by (rewrite En; dlia).
  pose proof (ai_brk _ _ _ _ _ Hinv) as Hbrk.
  destruct (loop_run s F L ffuel fuel n Hinv ltac:(lia) ltac:(lia)) as (p & Ep & [(r & s' & F' & E & Hinv' & Ho & Hb & Hu & Hr)|(Hsm & fuel' & Hf' & E)]).
  { exists r, s'. split; [by erewrite bind_Ret by exact Ep|]. split; [by eapply keeps_outside|]. exists F'. right. split_and!; [done..|by left]. }
  destruct (morecore_run ffuel s F L n Hg Hinv Hn Hff) as [[Eg Em]|(s1 & F1 & Em & Hinv1 & Hfp & Eb & Ho1 & Hu1 & (c & Hc & Hcn) & Hl1)].
  - exists 0, s. split; [|split; [done|exists F; by left]]. erewrite bind_Ret by exact Ep. rewrite E. unfold after_morecore. erewrite bind_Ret by (by erewrite bind_Ret by exact Em). done.
  - destruct (loop_run s1 F1 L ffuel fuel' n Hinv1 ltac:(lia) ltac:(lia)) as (p1 & Ep1 & [(r & s' & F' & E1 & Hinv' & Ho & Hb & Hu & Hr)|(Hsm1 & _)]); [|specialize (Hsm1 c Hc); lia].
    exists r, s'. split.
    + erewrite bind_Ret by exact Ep. rewrite E. unfold after_morecore. erewrite bind_Ret by (by erewrite bind_Ret by exact Em). rewrite (proj2 (Z.eqb_neq _ _) Hfp). cbn match. by erewrite bind_Ret by exact Ep1.
    + assert (brk s <= brk s1) as Hgrow by (rewrite Eb; unfold units_got; destruct (n <? 4096); lia).
      split; [|exists F'; right; split_and!; [done..|right; split_and!; [done|lia|lia]]].
      intros x Hx. rewrite (keeps_outside s1 s' F1 L Hinv1 Ho x Hx). destruct Hx as (d & Hd & Hx). pose proof (held_in _ _ _ Hinv d Hd).
      apply Ho1; [lia|]. apply (held_not_free s F L Hinv d); [done|lia].
Qed.

(** The first call makes the ring of [base] alone. *)
Lemma malloc_run fuel ffuel s F L nbytes : grant_ok → allocator base heap0 s F L → 0 <= nbytes <= 2 ^ 31 - 48 → (2 * length F + 4 <= fuel)%nat → (length F < ffuel)%nat →
  ∃ r s', malloc base heap0 grant fuel ffuel nbytes s = Ret (r, s') ∧ malloc_post (nunits_of nbytes) s F L r s'.
Proof.
  intros Hg [Hinv|(E0 & -> & -> & Hbrk)] Hn Hf Hff; unfold malloc; erewrite bind_Ret by done.
  - pose proof (ai_brk _ _ _ _ _ Hinv) as Hbrk. assert (freep s ≠ 0) as Hfp.
    { pose proof (ai_freep _ _ _ _ _ Hinv) as [->|(d & -> & Hd)%list_elem_of_fmap]%elem_of_cons; [lia|]. pose proof (ai_in _ _ _ _ _ Hinv) as Hin.
      rewrite Forall_forall in Hin. specialize (Hin d ltac:(apply elem_of_app; by left)). lia. }
    rewrite (proj2 (Z.eqb_neq _ _) Hfp). erewrite bind_Ret by done. erewrite bind_Ret by done. by apply malloc_inv_run.
  - rewrite (proj2 (Z.eqb_eq _ _) E0). set (s0 := Ust (st 4 (st 8 (um s) base base) (base + 8) 0) (brk s) base).
    assert (alloc_inv base heap0 s0 [] []) as Hinv0.
    { split; cbn [um brk freep s0]; try done; [|by left|by intros ??? ?%elem_of_nil|by intros ? ?%elem_of_nil].
      cbn [seg first fst snd]. split_and!; [|by apply ld_st_same|done]. rewrite ld_st_other by lia. apply ld_st_same. change (8 * Z.of_nat 8) with 64. lia. }
    destruct (malloc_inv_run fuel ffuel s0 [] [] nbytes Hg Hinv0 Hn Hf Hff) as (r & s' & E & _ & HF'). exists r, s'. split.
    + erewrite bind_Ret; [|erewrite bind_Ret by (apply set_ptr_run; by left); erewrite bind_Ret by done; apply set_size_run; [by left|done]].
      erewrite bind_Ret by done. exact E.
    + split; [|exact HF']. by intros x (d & ?%elem_of_nil & _).
Qed.

(** ** A program and its blocks *)

(** What the program holds: the address [malloc] gave and the bytes it asked for. *)
Definition blocks (H : list (Z * Z)) : list block := map (λ h, (h.1 - 16, nunits_of h.2)) H.
Definition payload (H : list (Z * Z)) (x : Z) : Prop := ∃ r n, (r, n) ∈ H ∧ r <= x < r + n.
(** The heap has fewer blocks than bytes. *)
Definition umalloc (nbytes : Z) : M ust Z := λ s, malloc base heap0 grant (Z.to_nat (brk s)) (Z.to_nat (brk s)) nbytes s.
Definition ufree (ap : Z) : M ust () := λ s, free base heap0 (Z.to_nat (brk s)) ap s.
Inductive client : ust → list (Z * Z) → Prop :=
  | client_start s : freep s = 0 → brk s = heap0 → client s []
  | client_malloc s H n r s' : client s H → 0 <= n <= 2 ^ 31 - 48 → umalloc n s = Ret (r, s') → client s' (if r =? 0 then H else (r, n) :: H)
  | client_free s H1 r n H2 s' : client s (H1 ++ (r, n) :: H2) → ufree r s = Ret ((), s') → client s' (H1 ++ H2)
  | client_write s H r n m : client s H → (r, n) ∈ H → (∀ x, ¬ r <= x < r + n → m x = um s x) → client (Ust m (brk s) (freep s)) H.

Definition client_inv (s : ust) (H : list (Z * Z)) : Prop :=
  ∃ F, allocator base heap0 s F (blocks H) ∧ 16 * (units F + units (blocks H)) = brk s - heap0 ∧ Forall (λ h, 0 <= h.2 <= 2 ^ 31 - 48) H.

Lemma nunits_val n : 0 <= n <= 2 ^ 31 - 48 → nunits_of n = (n + 15) / 16 + 1 ∧ n + 16 <= 16 * nunits_of n ∧ 1 <= nunits_of n.
Proof. intros Hn. assert (nunits_of n = (n + 15) / 16 + 1) as E by (apply wrap_small; unfold in_range; dlia). rewrite E. split; [done|]. dlia. Qed.
Lemma all_apart_perm L L' : L ≡ₚ L' → all_apart L → all_apart L'.
Proof.
  induction 1 as [|b L L' Hp IH|b c L|L L1 L2 _ IH1 _ IH2]; cbn; [done| | |by auto].
  - intros [Hb HL]. split; [by rewrite <- Hp|by apply IH].
  - intros [[Hcb Hc]%Forall_cons [Hb HL]]. split; [constructor; [by apply apart_sym|done]|done].
Qed.
Lemma all_apart_lookup L : ∀ i j b c, all_apart L → L !! i = Some b → L !! j = Some c → i ≠ j → apart b c.
Proof.
  induction L as [|d L IH]; intros i j b c Ha Hi Hj Hne; [done|]. destruct Ha as [Hd Ha]. rewrite Forall_forall in Hd.
  destruct i as [|i], j as [|j]; cbn in Hi, Hj; simplify_eq.
  - apply Hd. by eapply list_elem_of_lookup_2.
  - apply apart_sym, Hd. by eapply list_elem_of_lookup_2.
  - eapply (IH i j); [done..|congruence].
Qed.
Lemma alloc_inv_perm s F L L' : L ≡ₚ L' → alloc_inv base heap0 s F L → alloc_inv base heap0 s F L'.
Proof.
  intros Hp [? ? ? ? ? ? ? ?]. split; try done.
  - by rewrite <- Hp.
  - by eapply all_apart_perm.
  - intros b c Hb Hc. apply ai_cross0; [done|]. by rewrite Hp.
  - intros b Hb. apply ai_size0. by rewrite Hp.
Qed.
Lemma write_inv s F L m : (∀ x, ¬ held L x → m x = um s x) → alloc_inv base heap0 s F L → alloc_inv base heap0 (Ust m (brk s) (freep s)) F L.
Proof.
  intros Hm Hinv. assert (∀ x, free_byte F x → m x = um s x) as Hfree.
  { intros x Hx. apply Hm. intros (c & Hc & Hcx). revert Hx. apply (held_not_free s F L Hinv c); [done|lia]. }
  pose proof Hinv as [? ? ? ? ? ? ? ?]. split; try done; cbn [um brk freep].
  - eapply seg_ext; [|exact ai_ring0]. intros c x Hc Hx. apply Hfree. apply (node_free s F L Hinv c); [done|lia].
  - intros b Hb. rewrite <- (ai_size0 b Hb). apply ld_ext. intros x Hx. apply Hm. intros (c & Hc & Hcx).
    apply list_elem_of_lookup in Hb as [i Hi], Hc as [j Hj]. pose proof (ai_apart0) as Ha. destruct (decide (i = j)) as [->|Hne]; [rewrite Hi in Hj; injection Hj as ->; lia|].
    assert (apart b c) as Hbc by (by eapply all_apart_lookup).
    rewrite Forall_forall in ai_in0. pose proof (ai_in0 b ltac:(apply elem_of_app; right; by eapply list_elem_of_lookup_2)).
    pose proof (ai_in0 c ltac:(apply elem_of_app; right; by eapply list_elem_of_lookup_2)). unfold apart, end_of in *. lia.
Qed.
Lemma blocks_app H1 H2 : blocks (H1 ++ H2) = blocks H1 ++ blocks H2.
Proof. apply map_app. Qed.
Lemma payload_held H x : Forall (λ h, 0 <= h.2 <= 2 ^ 31 - 48) H → payload H x → held (blocks H) x.
Proof.
  intros Hok (r & n & Hin & Hx). rewrite Forall_forall in Hok. pose proof (nunits_val n (Hok _ Hin)) as (_ & Hn & _). exists (r - 16, nunits_of n).
  split; [apply list_elem_of_fmap; by exists (r, n)|]. unfold end_of. cbn. lia.
Qed.
Lemma units_length l : (∀ b, b ∈ l → 1 <= b.2) → Z.of_nat (length l) <= units l.
Proof.
  induction l as [|b l IH]; intros Hl; [done|]. rewrite units_cons. cbn [length]. pose proof (Hl b ltac:(by left)).
  pose proof (IH ltac:(intros; apply Hl; by right)). lia.
Qed.

Section client.
Context (Hbase : 0 < base ∧ base + 16 <= heap0 <= 2 ^ 36) (Hgrant : grant_ok).

Lemma allocator_units s F L : allocator base heap0 s F L → Z.of_nat (length F) <= units F ∧ 0 <= units L.
Proof.
  intros [Hinv|(_ & -> & -> & _)]; [|done]. pose proof (ai_in _ _ _ _ _ Hinv) as Hin. rewrite Forall_forall in Hin.
  split; [apply units_length; intros b Hb; apply Hin, elem_of_app; by left|].
  pose proof (units_length L ltac:(intros b Hb; apply Hin, elem_of_app; by right)). lia.
Qed.
Lemma client_fuel s H F : allocator base heap0 s F (blocks H) → 16 * (units F + units (blocks H)) = brk s - heap0 →
  (2 * length F + 4 <= Z.to_nat (brk s))%nat.
Proof. intros Hal Hu. pose proof (allocator_units _ _ _ Hal). lia. Qed.

Lemma umalloc_run s H n : client_inv s H → 0 <= n <= 2 ^ 31 - 48 →
  ∃ r s', umalloc n s = Ret (r, s') ∧ client_inv s' (if r =? 0 then H else (r, n) :: H) ∧ keeps (blocks H) s s' ∧ (r = 0 → ∃ k, grant (brk s) (16 * k) = false).
Proof.
  intros (F & Hal & Hu & Hok) Hn. pose proof (client_fuel _ _ _ Hal Hu).
  destruct (malloc_run (Z.to_nat (brk s)) (Z.to_nat (brk s)) s F (blocks H) n Hgrant Hal Hn) as (r & s' & E & Hk & F' & HF'); [lia..|].
  exists r, s'. split; [exact E|]. destruct HF' as [(-> & Hinv' & Eb & Eu & _ & Eg)|(Hr & Hinv' & Hu')].
  - rewrite Z.eqb_refl. split; [exists F'; split_and!; [by left|lia|done]|]. split; [done|]. intros _. by eexists.
  - rewrite (proj2 (Z.eqb_neq _ _)) by lia. split; [|split; [done|lia]]. exists F'. split; [by left|]. split; [|by constructor].
    change (blocks ((r, n) :: H)) with ((r - 16, nunits_of n) :: blocks H). rewrite units_cons. cbn [snd]. lia.
Qed.
Lemma ufree_run s H1 r n H2 : client_inv s (H1 ++ (r, n) :: H2) →
  ∃ s', ufree r s = Ret ((), s') ∧ client_inv s' (H1 ++ H2) ∧ keeps (blocks (H1 ++ H2)) s s' ∧ brk s' = brk s.
Proof.
  intros (F & Hal & Hu & Hok). pose proof (client_fuel _ _ _ Hal Hu) as Hf. rewrite blocks_app in Hal, Hu. change (blocks ((r, n) :: H2)) with ((r - 16, nunits_of n) :: blocks H2) in Hal, Hu.
  destruct Hal as [Hinv|(_ & _ & EL & _)]; [|by apply app_nil in EL as [_ EL]]. rewrite units_app, units_cons in Hu. cbn [snd] in Hu.
  apply (alloc_inv_perm s F _ ((r - 16, nunits_of n) :: blocks H1 ++ blocks H2)) in Hinv; [|by rewrite Permutation_middle].
  destruct (free_run (Z.to_nat (brk s)) s F (r - 16, nunits_of n) (blocks H1 ++ blocks H2) Hinv ltac:(lia)) as (s' & F' & E & Hinv' & _ & Hins & Eb & Ho).
  cbn [fst] in E. replace (r - 16 + 16) with r in E by lia. exists s'. split; [exact E|]. rewrite <- blocks_app in Hinv', Hinv. destruct Hins as [_ _ _ _ Hun _ _].
  split_and!; [|..|done].
  - exists F'. split; [by left|]. rewrite blocks_app, units_app, Eb, Hun. cbn [snd]. split; [lia|]. apply Forall_app in Hok as [? [_ ?]%Forall_cons]. by apply Forall_app.
  - intros x (c & Hc & Hx). apply Ho. pose proof (ai_apart _ _ _ _ _ Hinv) as [Ha _]. rewrite Forall_forall in Ha. specialize (Ha c Hc).
    intros [Hb|(d & [->|Hd]%elem_of_cons & Hdx)].
    + revert Hx. pose proof (held_not_free s F _ Hinv c x ltac:(by right)) as Hnf. intros Hx. apply Hnf; [lia|by left].
    + unfold apart, end_of in *. cbn in *. lia.
    + pose proof (held_not_free s F _ Hinv c x ltac:(by right)) as Hnf. apply Hnf; [lia|]. right. by exists d.
Qed.

Lemma client_ok s H : client s H → client_inv s H.
Proof.
  induction 1 as [s Hf Hb|s H n r s' _ IH Hn E|s H1 r n H2 s' _ IH E|s H r n m _ IH Hin Hm].
  - exists []. split; [right; split_and!; try done; lia|]. split; [cbn; lia|done].
  - destruct (umalloc_run s H n IH Hn) as (r' & s1 & E1 & ? & _). rewrite E in E1. by injection E1 as <- <-.
  - destruct (ufree_run s H1 r n H2 IH) as (s1 & E1 & ? & _). rewrite E in E1. by injection E1 as <-.
  - destruct IH as (F & [Hinv|(_ & _ & EL & _)] & Hu & Hok); [|destruct H; [by apply elem_of_nil in Hin|done]].
    exists F. split; [left|done]. apply write_inv; [|done]. intros x Hx. apply Hm. intros ?. apply Hx. apply payload_held; [done|]. by exists r, n.
Qed.

(** C17: For a program whose requests are of at most [2^31 - 48] bytes (above that
    the argument of [sbrk] wraps), in a heap that the kernel lets
    grow up to [2^36] only: whatever it does with [malloc] and [free], and whatever it
    writes into the blocks it holds, its blocks lie in the heap with their whole size and
    do not overlap, not even with the headers between them; the heap is its blocks
    and the free ones, so nothing leaks; [malloc] ends, and fails only when the
    kernel refuses memory; [free] ends; and neither touches a byte of a block the
    program keeps. *)
Theorem umalloc_safe (s : ust) (H : list (Z * Z)) : client s H →
  (∀ r n, (r, n) ∈ H → heap0 + 16 <= r ∧ r + n <= brk s) ∧
  (∀ i j r n r' n', H !! i = Some (r, n) → H !! j = Some (r', n') → i ≠ j → r + n <= r' - 16 ∨ r' + n' <= r - 16) ∧
  (∃ F, allocator base heap0 s F (blocks H) ∧ 16 * (units F + units (blocks H)) = brk s - heap0) ∧
  (∀ n, 0 <= n <= 2 ^ 31 - 48 → ∃ r s', umalloc n s = Ret (r, s') ∧ (r = 0 → ∃ k, grant (brk s) (16 * k) = false) ∧ ∀ x, payload H x → um s' x = um s x) ∧
  (∀ H1 r n H2, H = H1 ++ (r, n) :: H2 → ∃ s', ufree r s = Ret ((), s') ∧ ∀ x, payload (H1 ++ H2) x → um s' x = um s x).
Proof.
  intros Hcl. pose proof (client_ok s H Hcl) as Hci. pose proof Hci as (F & Hal & Hu & Hok).
  assert (∀ r n, (r, n) ∈ H → (r - 16, nunits_of n) ∈ blocks H ∧ n + 16 <= 16 * nunits_of n) as Hbl.
  { intros r n Hin. split; [apply list_elem_of_fmap; by exists (r, n)|]. rewrite Forall_forall in Hok. by apply nunits_val, (Hok _ Hin). }
  assert (∀ r n, (r, n) ∈ H → alloc_inv base heap0 s F (blocks H)) as Hinv.
  { intros r n Hin. destruct Hal as [Hinv|(_ & _ & EL & _)]; [done|]. destruct H; [by apply elem_of_nil in Hin|done]. }
  split_and!.
  - intros r n Hin. destruct (Hbl r n Hin) as [Hb Hn]. pose proof (held_in _ _ _ (Hinv r n Hin) _ Hb). unfold end_of in *. cbn in *. lia.
  - intros i j r n r' n' Hi Hj Hne. pose proof (list_elem_of_lookup_2 _ _ _ Hi) as Hin. pose proof (list_elem_of_lookup_2 _ _ _ Hj) as Hin'.
    destruct (Hbl r n Hin) as [_ Hn], (Hbl r' n' Hin') as [_ Hn']. pose proof (ai_apart _ _ _ _ _ (Hinv r n Hin)) as Ha.
    assert (apart (r - 16, nunits_of n) (r' - 16, nunits_of n')) as Hap.
    { eapply (all_apart_lookup (blocks H) i j); [done|..|done]; unfold blocks; by rewrite list_lookup_fmap, ?Hi, ?Hj. }
    unfold apart, end_of in Hap. cbn in Hap. lia.
  - by exists F.
  - intros n Hn. destruct (umalloc_run s H n Hci Hn) as (r & s' & E & _ & Hk & Hr). exists r, s'. split_and!; [done..|]. intros x Hx. by apply Hk, payload_held.
  - intros H1 r n H2 ->. destruct (ufree_run s H1 r n H2 Hci) as (s' & E & (_ & _ & _ & Hok') & Hk & _). exists s'. split; [done|]. intros x Hx. by apply Hk, payload_held.
Qed.
End client.
End runs.

(** ** Examples *)

Definition demo_grant (b n : Z) : bool := b + n <=? 2 ^ 20.
Definition heap_start : ust := Ust (λ _, 0) 4096 0.
Definition after {A} (o : outcome (A * ust)) : ust := match o with Ret (_, s) => s | _ => heap_start end.
Definition demo_malloc : Z → M ust Z := umalloc 64 4096 demo_grant.
Definition demo_s1 : ust := after (demo_malloc 100 heap_start).
Definition demo_s2 : ust := Ust (λ x, if x =? 69520 then 7 else um demo_s1 x) (brk demo_s1) (freep demo_s1).
Definition demo_s3 : ust := after (demo_malloc 50 demo_s2).
Definition demo_s4 : ust := after (ufree 64 4096 69520 demo_s3).

Definition res {A} (o : outcome (A * ust)) : option (A * Z * Z) := match o with Ret (r, s) => Some (r, brk s, freep s) | _ => None end.

(** Two blocks, a write into the first, and the first given back. *)
Lemma demo_client : client 64 4096 demo_grant demo_s4 [(69440, 50)].
Proof.
  assert (client 64 4096 demo_grant demo_s1 [(69520, 100)]) as H1.
  { apply (client_malloc 64 4096 demo_grant heap_start [] 100 69520 demo_s1); [by constructor|lia|]. vm_compute. reflexivity. }
  assert (client 64 4096 demo_grant demo_s2 [(69520, 100)]) as H2.
  { apply (client_write 64 4096 demo_grant demo_s1 _ 69520 100); [done|by left|]. intros x Hx. by rewrite (proj2 (Z.eqb_neq x 69520)) by lia. }
  assert (client 64 4096 demo_grant demo_s3 [(69440, 50); (69520, 100)]) as H3.
  { apply (client_malloc 64 4096 demo_grant demo_s2 _ 50 69440 demo_s3 H2); [lia|]. vm_compute. reflexivity. }
  apply (client_free 64 4096 demo_grant demo_s3 [(69440, 50)] 69520 100 [] demo_s4 H3). vm_compute. reflexivity.
Qed.
Lemma umalloc_safe_witness : client 64 4096 demo_grant demo_s4 [(69440, 50)] ∧
  ∃ r s', demo_malloc 1000 demo_s4 = Ret (r, s') ∧ ∀ x, payload [(69440, 50)] x → um s' x = um demo_s4 x.
Proof.
  split; [exact demo_client|].
  destruct (umalloc_safe 64 4096 demo_grant ltac:(lia) ltac:(intros b n Hb; apply Z.leb_le in Hb; lia) demo_s4 _ demo_client) as (_ & _ & _ & Hm & _).
  destruct (Hm 1000 ltac:(lia)) as (r & s' & E & _ & Hk). exists r, s'. split; [exact E|exact Hk].
Defined.

(** Why [umalloc_safe] bounds the requests: [sbrk] takes an [int]. On an empty heap,
    a request of [2^32 - 1] bytes makes [morecore] ask for 16 bytes, and [malloc]
    returns the end of the heap as if 4 gigabytes were there; for [2^31] the number
    is negative, and the header is stored outside the heap. *)
Theorem malloc_wraps :
  res (malloc 64 4096 demo_grant 9 9 (2 ^ 32 - 1) heap_start) = Some (4096 + 16, 4096 + 16, 64) ∧
  malloc 64 4096 demo_grant 9 9 (2 ^ 31) heap_start = Fault.
Proof. split; vm_compute; reflexivity. Qed.
