(* ===== verification/Sh.v ===== *)
(** * [user/sh.c]: the parser of the shell

    The parser reads a line in place: tokens are pairs of offsets into the buffer,
    and the tree of commands is made of nodes in memory that point to each other;
    [parseexec] goes on writing into its node while redirections are wrapped around
    it, and [nulterminate] at last cuts the line up into strings. The reference is
    a grammar over the tokens of the line ([g_line]); [parsecmd_correct] says that the
    parser returns exactly the trees of the grammar, with the words as strings,
    and panics on every other line. Running the commands is not modelled. *)
From S2P Require Import Prelude.

(** ** The code *)

Definition MAXARGS : nat := 10.
Definition O_RDONLY : Z := 0.
Definition O_WRONLY : Z := 1.
Definition O_CREATE : Z := 512.
Definition O_TRUNC : Z := 1024.
Definition whitespace : bytes := [32; 9; 13; 10; 11].
Definition symbols : bytes := [60; 124; 62; 38; 59; 40; 41].
Definition langle : Z := 60.
Definition rangle : Z := 62.
Definition bar : Z := 124.
Definition amp : Z := 38.
Definition semi : Z := 59.
Definition lpar : Z := 40.
Definition rpar : Z := 41.
Definition plus : Z := 43.
Definition word_tok : Z := 97.

(** The nodes; a pointer to a command is its place among the nodes, a pointer into
    the line an offset. *)
Inductive node :=
  | EXEC (argv : list (option (nat * nat)))
  | REDIR (cmd file efile : nat) (mode fd : Z)
  | PIPE (left right : nat)
  | LIST (left right : nat)
  | BACK (cmd : nat).
(** The line with its NUL, and what [malloc] has given out of [room] nodes. *)
Record sh := Sh { line : bytes; nodes : list node; room : nat }.
Definition set_nodes (l : list node) (s : sh) : sh := Sh (line s) l (room s).
Definition set_line (l : bytes) (s : sh) : sh := Sh l (nodes s) (room s).

Definition strchr (set : bytes) (c : Z) : bool := existsb (Z.eqb c) set.
Definition chr (s : nat) : M sh Z := l ← gets line; oget (l !! s).
(** The result of [malloc] is used unchecked. *)
Definition new (n : node) : M sh nat :=
  l ← gets nodes; r ← gets room;
  if negb (bool_decide (length l < r)%nat) then fault else modify (set_nodes (l ++ [n])) ;; mret (length l).
Definition execcmd : M sh nat := new (EXEC (replicate MAXARGS None)).
Definition redircmd (sub file efile : nat) (mode fd : Z) : M sh nat := new (REDIR sub file efile mode fd).
Definition pipecmd (left right : nat) : M sh nat := new (PIPE left right).
Definition listcmd (left right : nat) : M sh nat := new (LIST left right).
Definition backcmd (sub : nat) : M sh nat := new (BACK sub).
(** [argv[i]] and [eargv[i]]. *)
Definition set_arg (p i : nat) (a : option (nat * nat)) : M sh () :=
  l ← gets nodes;
  match l !! p with
  | Some (EXEC argv) => if bool_decide (i < MAXARGS)%nat then modify (set_nodes (<[p := EXEC (<[i := a]> argv)]> l)) else fault
  | _ => fault
  end.

Section parse.
Context (es : nat).

Fixpoint skip (fuel : nat) (p : Z → bool) (s : nat) : M sh nat :=
  if negb (bool_decide (s < es)%nat) then mret s else
  c ← chr s;
  if negb (p c) then mret s else
  match fuel with O => out_of_fuel | S fuel => skip fuel p (S s) end.
Definition skip_white (s : nat) : M sh nat := skip es (strchr whitespace) s.
Definition in_word (c : Z) : bool := negb (strchr whitespace c) && negb (strchr symbols c).

(** What it returns, [*q], [*eq] and [*ps]. *)
Definition gettoken (s : nat) : M sh (Z * nat * nat * nat) :=
  q ← skip_white s;
  c ← chr q;
  '(ret, eq) ←
    (if c =? 0 then mret (c, q)
     else if (c =? bar) || (c =? lpar) || (c =? rpar) || (c =? semi) || (c =? amp) || (c =? langle) then mret (c, S q)
     else if c =? rangle then d ← chr (S q); if d =? rangle then mret (plus, S (S q)) else mret (c, S q)
     else eq ← skip es in_word q; mret (word_tok, eq));
  s ← skip_white eq;
  mret (ret, q, eq, s).
Definition peek (s : nat) (toks : bytes) : M sh (bool * nat) :=
  s ← skip_white s; c ← chr s; mret (negb (c =? 0) && strchr toks c, s).

(** The functions return the command and [*ps]. *)
Fixpoint parseredirs (fuel : nat) (cmd s : nat) : M sh (nat * nat) :=
  '(b, s) ← peek s [langle; rangle];
  if negb (b : bool) then mret (cmd, s) else
  match fuel with
  | O => out_of_fuel
  | S fuel =>
      '(tok, _, _, s) ← gettoken s;
      '(a, q, eq, s) ← gettoken s;
      if negb (a =? word_tok) then panic "missing file for redirection" else
      cmd ← (if tok =? langle then redircmd cmd q eq O_RDONLY 0
             else if tok =? rangle then redircmd cmd q eq (Z.lor (Z.lor O_WRONLY O_CREATE) O_TRUNC) 1
             else if tok =? plus then redircmd cmd q eq (Z.lor O_WRONLY O_CREATE) 1
             else mret cmd);
      parseredirs fuel cmd s
  end.
Fixpoint parseargs (fuel : nat) (cmd ret argc s : nat) : M sh (nat * nat * nat) :=
  '(b, s) ← peek s [bar; rpar; amp; semi];
  if b : bool then mret (ret, argc, s) else
  match fuel with
  | O => out_of_fuel
  | S fuel =>
      '(tok, q, eq, s) ← gettoken s;
      if tok =? 0 then mret (ret, argc, s) else
      if negb (tok =? word_tok) then panic "syntax" else
      set_arg cmd argc (Some (q, eq)) ;;
      if bool_decide (MAXARGS <= S argc)%nat then panic "too many args" else
      '(ret, s) ← parseredirs es ret s;
      parseargs fuel cmd ret (S argc) s
  end.
Fixpoint parsebacks (fuel : nat) (cmd s : nat) : M sh (nat * nat) :=
  '(b, s) ← peek s [amp];
  if negb (b : bool) then mret (cmd, s) else
  match fuel with
  | O => out_of_fuel
  | S fuel => '(_, _, _, s) ← gettoken s; cmd ← backcmd cmd; parsebacks fuel cmd s
  end.
Fixpoint parseline (fuel : nat) (s : nat) : M sh (nat * nat) :=
  match fuel with
  | O => out_of_fuel
  | S fuel =>
      '(cmd, s) ← parsepipe fuel s;
      '(cmd, s) ← parsebacks es cmd s;
      '(b, s) ← peek s [semi];
      if b : bool then
        '(_, _, _, s) ← gettoken s;
        '(r, s) ← parseline fuel s;
        cmd ← listcmd cmd r;
        mret (cmd, s)
      else mret (cmd, s)
  end
with parsepipe (fuel : nat) (s : nat) : M sh (nat * nat) :=
  match fuel with
  | O => out_of_fuel
  | S fuel =>
      '(cmd, s) ← parseexec fuel s;
      '(b, s) ← peek s [bar];
      if b : bool then
        '(_, _, _, s) ← gettoken s;
        '(r, s) ← parsepipe fuel s;
        cmd ← pipecmd cmd r;
        mret (cmd, s)
      else mret (cmd, s)
  end
with parseexec (fuel : nat) (s : nat) : M sh (nat * nat) :=
  match fuel with
  | O => out_of_fuel
  | S fuel =>
      '(b, s) ← peek s [lpar];
      if b : bool then parseblock fuel s else
      cmd ← execcmd;
      '(ret, s) ← parseredirs es cmd s;
      '(ret, argc, s) ← parseargs (S es) cmd ret 0 s;
      set_arg cmd argc None ;;
      mret (ret, s)
  end
with parseblock (fuel : nat) (s : nat) : M sh (nat * nat) :=
  match fuel with
  | O => out_of_fuel
  | S fuel =>
      '(b, s) ← peek s [lpar];
      if negb (b : bool) then panic "parseblock" else
      '(_, _, _, s) ← gettoken s;
      '(cmd, s) ← parseline fuel s;
      '(b, s) ← peek s [rpar];
      if negb (b : bool) then panic "syntax - missing )" else
      '(_, _, _, s) ← gettoken s;
      parseredirs es cmd s
  end.
End parse.

Definition cut (eq : nat) : M sh () := l ← gets line; if bool_decide (eq < length l)%nat then modify (set_line (<[eq := 0]> l)) else fault.
Fixpoint cut_args (argv : list (option (nat * nat))) : M sh () :=
  match argv with
  | Some (_, eq) :: argv => cut eq ;; cut_args argv
  | None :: _ => mret ()
  | [] => fault
  end.
Fixpoint nulterminate (fuel : nat) (p : nat) : M sh () :=
  match fuel with
  | O => out_of_fuel
  | S fuel =>
      l ← gets nodes;
      n ← oget (l !! p);
      match n with
      | EXEC argv => cut_args argv
      | REDIR c _ efile _ _ => nulterminate fuel c ;; cut efile
      | PIPE l r | LIST l r => nulterminate fuel l ;; nulterminate fuel r
      | BACK c => nulterminate fuel c
      end
  end.

(** The line is in the buffer; [strlen] finds its end. *)
Fixpoint strlen (l : bytes) : nat := match l with c :: l => if c =? 0 then 0%nat else S (strlen l) | [] => 0%nat end.
Definition parsecmd : M sh nat :=
  l ← gets line;
  let es := strlen l in
  '(cmd, s) ← parseline es (4 * es + 4) 0;
  '(_, s) ← peek es s [];
  if negb (bool_decide (s = es)) then panic "syntax" else
  l ← gets nodes;
  nulterminate (length l) cmd ;;
  mret cmd.

(** ** Tokens *)

(** Symbols are one character but for [>>]. *)
Inductive tok := TWord (w : bytes) | TSym (c : Z) | TApp.
Fixpoint span (p : Z → bool) (l : bytes) : nat := match l with c :: l => if p c then S (span p l) else 0%nat | [] => 0%nat end.
Definition strip (l : bytes) : bytes := drop (span (strchr whitespace) l) l.
Definition next (l : bytes) : option (tok * bytes) :=
  match l with
  | [] => None
  | c :: r =>
      if c =? rangle then match r with d :: r' => if d =? rangle then Some (TApp, r') else Some (TSym rangle, r) | [] => Some (TSym rangle, r) end
      else if strchr symbols c then Some (TSym c, r)
      else let n := span in_word l in Some (TWord (take n l), drop n l)
  end.
Fixpoint lex_ (fuel : nat) (l : bytes) : list tok :=
  match fuel with O => [] | S fuel => match next (strip l) with None => [] | Some (t, l) => t :: lex_ fuel l end end.
Definition lex (l : bytes) : list tok := lex_ (length l) l.

Lemma span_le p l : (span p l <= length l)%nat.
Proof. induction l as [|c l IH]; [done|]. cbn. destruct (p c); cbn; lia. Qed.
Lemma span_forall p l : Forall (λ c, p c = true) (take (span p l) l).
Proof. induction l as [|c l IH]; [done|]. cbn. destruct (p c) eqn:E; [|done]. cbn. by constructor. Qed.
Lemma span_stop p l : match drop (span p l) l with c :: _ => p c = false | [] => True end.
Proof. induction l as [|c l IH]; [done|]. cbn. destruct (p c) eqn:E; [done|]. cbn. done. Qed.
Lemma span_word_pos c l : strchr whitespace c = false → strchr symbols c = false → (0 < span in_word (c :: l))%nat.
Proof. intros H1 H2. cbn. unfold in_word at 1. rewrite H1, H2. cbn. lia. Qed.
Lemma strip_white l : match strip l with c :: _ => strchr whitespace c = false | [] => True end.
Proof. apply span_stop. Qed.
Lemma strip_length l : (length (strip l) <= length l)%nat.
Proof. unfold strip. rewrite length_drop. lia. Qed.
Lemma strip_strip l : strip (strip l) = strip l.
Proof. pose proof (strip_white l) as H. destruct (strip l) as [|c r]; [done|]. unfold strip. cbn [span]. by rewrite H. Qed.
Lemma next_length l t r : match l with c :: _ => strchr whitespace c = false | [] => True end → next l = Some (t, r) → (length r < length l)%nat.
Proof.
  intros Hw. destruct l as [|c l]; [done|]. cbn [next]. destruct (c =? rangle).
  - destruct l as [|d l]; [intros [= <- <-]; cbn; lia|]. destruct (d =? rangle); intros [= <- <-]; cbn; lia.
  - destruct (strchr symbols c) eqn:Es; [intros [= <- <-]; cbn; lia|]. pose proof (span_word_pos c l Hw Es) as Hp. revert Hp. generalize (span in_word (c :: l)). intros n Hp [= <- <-]. rewrite length_drop. cbn [length]. lia.
Qed.
Lemma lex_fuel : ∀ f l, (length l <= f)%nat → lex_ f l = lex l.
Proof.
  assert (∀ f g l, (length l <= f)%nat → (length l <= g)%nat → lex_ f l = lex_ g l) as Hfg; [|intros; by apply Hfg].
  induction f as [|f IH]; intros g l Hf Hg; [destruct l; [|cbn in Hf; lia]; by destruct g|].
  pose proof (strip_length l) as Hs. pose proof (next_length (strip l)) as Hn. cbn [lex_]. destruct g as [|g]; [destruct l; [done|cbn in Hg; lia]|].
  cbn [lex_]. destruct (next (strip l)) as [[t r]|]; [|done]. f_equal. specialize (Hn t r (strip_white l) eq_refl). apply IH; lia.
Qed.
Lemma lex_next l : lex l = match next (strip l) with None => [] | Some (t, r) => t :: lex r end.
Proof.
  unfold lex at 1. pose proof (strip_length l) as Hs. pose proof (next_length (strip l)) as Hn. destruct l as [|c l]; [done|]. cbn [length lex_].
  destruct (next (strip (c :: l))) as [[t r]|]; [|done]. specialize (Hn t r (strip_white _) eq_refl). f_equal. apply lex_fuel. cbn [length] in Hs. lia.
Qed.
Lemma lex_strip l : lex (strip l) = lex l.
Proof. by rewrite (lex_next (strip l)), strip_strip, <- lex_next. Qed.
Lemma lex_length l : (length (lex l) <= length l)%nat.
Proof.
  unfold lex. assert (∀ f l, (length (lex_ f l) <= f)%nat) as H; [|apply H]. clear l. induction f as [|f IH]; intros l; [done|]. cbn.
  destruct (next (strip l)) as [[t r]|]; cbn; [|lia]. specialize (IH r). lia.
Qed.

Lemma lex_good l : Forall (λ k, match k with TSym c => strchr symbols c = true | _ => True end) (lex l).
Proof.
  unfold lex. generalize (length l). intros f. revert l. induction f as [|f IH]; intros l; cbn [lex_]; [done|]. destruct (strip l) as [|c r]; [done|]. cbn [next].
  destruct (Z.eqb_spec c rangle) as [->|]; [destruct r as [|d r]; [by constructor|]; destruct (d =? rangle); by constructor|].
  destruct (strchr symbols c) eqn:E; by constructor.
Qed.

(** The code of a token in [gettoken]. *)
Definition code (ts : list tok) : Z := match ts with [] => 0 | TWord _ :: _ => word_tok | TSym c :: _ => c | TApp :: _ => plus end.
(** Whether [peek] sees one of the symbols [toks]. *)
Definition sees (toks : bytes) (ts : list tok) : bool :=
  match ts with TSym c :: _ => strchr toks c | TApp :: _ => strchr toks rangle | _ => false end.

(** ** The tree, and a parser of tokens *)

Inductive cmd := CExec (argv : list bytes) | CRedir (c : cmd) (file : bytes) (mode fd : Z) | CPipe (l r : cmd) | CList (l r : cmd) | CBack (c : cmd).
Abbreviation redir := (bytes * Z * Z)%type.
Definition wrap_redirs (rs : list redir) (c : cmd) : cmd := foldl (λ c '(w, m, f), CRedir c w m f) c rs.
Definition redir_op (k : tok) : option (Z * Z) :=
  match k with
  | TWord _ => None
  | TSym c => if c =? langle then Some (O_RDONLY, 0) else if c =? rangle then Some (Z.lor (Z.lor O_WRONLY O_CREATE) O_TRUNC, 1) else None
  | TApp => Some (Z.lor O_WRONLY O_CREATE, 1)
  end.

#[local] Instance outcome_mret : MRet outcome := @Ret.
#[local] Instance outcome_mbind : MBind outcome := λ A B f o, outcome_bind o f.
Lemma obind_Ret {A B} (a : A) (f : A → outcome B) : (Ret a ≫= f) = f a.
Proof. done. Qed.
Fixpoint r_redirs (ts : list tok) : outcome (list redir * list tok) :=
  match ts with
  | [] => Ret ([], [])
  | k :: ts1 =>
      match redir_op k with
      | None => Ret ([], ts)
      | Some (m, f) => match ts1 with TWord w :: ts2 => '(rs, ts) ← r_redirs ts2; Ret ((w, m, f) :: rs, ts) | _ => Panic "missing file for redirection" end
      end
  end.
Fixpoint r_args (fuel n : nat) (ts : list tok) : outcome (list bytes * list redir * list tok) :=
  if sees [bar; rpar; amp; semi] ts then Ret ([], [], ts) else
  match fuel with
  | O => OutOfFuel
  | S fuel =>
      match ts with
      | [] => Ret ([], [], [])
      | TWord w :: ts =>
          if bool_decide (MAXARGS <= S n)%nat then Panic "too many args" else
          '(rs, ts) ← r_redirs ts;
          '(ws, rs', ts) ← r_args fuel (S n) ts;
          Ret (w :: ws, rs ++ rs', ts)
      | _ => Panic "syntax"
      end
  end.
Fixpoint r_backs (c : cmd) (ts : list tok) : cmd * list tok :=
  match ts with k :: ts' => if sees [amp] ts then r_backs (CBack c) ts' else (c, ts) | [] => (c, ts) end.
Fixpoint r_line (n fuel : nat) (ts : list tok) : outcome (cmd * list tok) :=
  match fuel with
  | O => OutOfFuel
  | S fuel =>
      '(c, ts) ← r_pipe n fuel ts;
      let '(c, ts) := r_backs c ts in
      if sees [semi] ts then '(c', ts) ← r_line n fuel (tl ts); Ret (CList c c', ts) else Ret (c, ts)
  end
with r_pipe (n fuel : nat) (ts : list tok) : outcome (cmd * list tok) :=
  match fuel with
  | O => OutOfFuel
  | S fuel =>
      '(c, ts) ← r_exec n fuel ts;
      if sees [bar] ts then '(c', ts) ← r_pipe n fuel (tl ts); Ret (CPipe c c', ts) else Ret (c, ts)
  end
with r_exec (n fuel : nat) (ts : list tok) : outcome (cmd * list tok) :=
  match fuel with
  | O => OutOfFuel
  | S fuel =>
      if sees [lpar] ts then r_block n fuel ts else
      '(rs, ts) ← r_redirs ts;
      '(ws, rs', ts) ← r_args (S n) 0 ts;
      Ret (wrap_redirs (rs ++ rs') (CExec ws), ts)
  end
with r_block (n fuel : nat) (ts : list tok) : outcome (cmd * list tok) :=
  match fuel with
  | O => OutOfFuel
  | S fuel =>
      '(c, ts) ← r_line n fuel (tl ts);
      if sees [rpar] ts then '(rs, ts) ← r_redirs (tl ts); Ret (wrap_redirs rs c, ts) else Panic "syntax - missing )"
  end.

(** ** Trees in memory *)

Section rep.
Context (str : nat → nat → bytes → Prop).
Definition args_are (argv : list (option (nat * nat))) (ws : list bytes) : Prop :=
  ∃ qs, argv = (Some <$> qs) ++ replicate (MAXARGS - length qs) None ∧ (length qs < MAXARGS)%nat ∧ Forall2 (λ q w, str q.1 q.2 w) qs ws.
Inductive rep (h : list node) : nat → cmd → Prop :=
  | rep_exec p argv ws : h !! p = Some (EXEC argv) → args_are argv ws → rep h p (CExec ws)
  | rep_redir p sub q eq m f c w : h !! p = Some (REDIR sub q eq m f) → (sub < p)%nat → rep h sub c → str q eq w → rep h p (CRedir c w m f)
  | rep_pipe p l r c c' : h !! p = Some (PIPE l r) → (l < p)%nat → (r < p)%nat → rep h l c → rep h r c' → rep h p (CPipe c c')
  | rep_list p l r c c' : h !! p = Some (LIST l r) → (l < p)%nat → (r < p)%nat → rep h l c → rep h r c' → rep h p (CList c c')
  | rep_back p sub c : h !! p = Some (BACK sub) → (sub < p)%nat → rep h sub c → rep h p (CBack c).
(** [p] is [e] with the redirections around it. *)
Inductive chain (h : list node) (e : nat) : list redir → nat → Prop :=
  | chain_nil : chain h e [] e
  | chain_snoc rs p p' q eq w m f : chain h e rs p → h !! p' = Some (REDIR p q eq m f) → (p < p')%nat → str q eq w → chain h e (rs ++ [(w, m, f)]) p'.

Lemma rep_mono h h' p c : (∀ i x, h !! i = Some x → h' !! i = Some x) → rep h p c → rep h' p c.
Proof. intros He. induction 1; [eapply rep_exec|eapply rep_redir|eapply rep_pipe|eapply rep_list|eapply rep_back]; eauto. Qed.
Lemma chain_ge h e rs p : chain h e rs p → (e <= p)%nat.
Proof. induction 1; lia. Qed.
Lemma chain_mono h h' e rs p : (∀ i x, i ≠ e → h !! i = Some x → h' !! i = Some x) → chain h e rs p → chain h' e rs p.
Proof. intros He. induction 1 as [|rs p p' q eq w m f Hc IH Hp Hlt Hs]; [constructor|]. econstructor; [done|apply He; [apply chain_ge in Hc; lia|done]|done|done]. Qed.
Lemma chain_rep h e rs p c : chain h e rs p → rep h e c → rep h p (wrap_redirs rs c).
Proof. intros Hc He. induction Hc as [|rs p p' q eq w m f Hc IH Hp Hlt Hs]; [done|]. unfold wrap_redirs. rewrite foldl_app. by eapply rep_redir. Qed.
Lemma chain_app h e rs p rs' p' : chain h e rs p → chain h p rs' p' → chain h e (rs ++ rs') p'.
Proof. intros Hc Hc'. induction Hc' as [|rs' p1 p' q eq w m f _ IH Hp Hlt Hs]; [by rewrite app_nil_r|]. rewrite app_assoc. by econstructor. Qed.
End rep.
Lemma rep_str (str str' : nat → nat → bytes → Prop) h p c : (∀ q eq w, str q eq w → str' q eq w) → rep str h p c → rep str' h p c.
Proof.
  intros Hs. induction 1; [eapply rep_exec|eapply rep_redir|eapply rep_pipe|eapply rep_list|eapply rep_back]; eauto. destruct H0 as (qs & E & Hl & Hf). exists qs. split_and!; [done..|].
  eapply Forall2_impl; [exact Hf|]. auto.
Qed.

Section line.
Context (t tail : bytes) (R : nat) (Hnz : Forall (λ c, c ≠ 0) t).
Local Abbreviation es := (length t).
Local Abbreviation L := (t ++ 0 :: tail).
Implicit Types (h : list node) (s : nat) (ts : list tok).

(** A word of the line: the character behind it is a symbol, white space or the end. *)
Definition boundary (i : nat) : Prop := (i <= es)%nat ∧ ∀ c, t !! i = Some c → in_word c = false.
Definition isword (q eq : nat) (w : bytes) : Prop := (q <= eq)%nat ∧ boundary eq ∧ take (eq - q) (drop q t) = w ∧ Forall (λ c, in_word c = true) w.

Lemma drop_head s c r : drop s t = c :: r → t !! s = Some c ∧ c ≠ 0 ∧ drop (S s) t = r ∧ (s < es)%nat.
Proof using Hnz.
  intros E. assert (t !! s = Some c) as Hc by (rewrite <- (Nat.add_0_r s), <- lookup_drop, E; done). split; [done|]. rewrite (drop_S _ _ _ Hc) in E. injection E as E.
  rewrite Forall_lookup in Hnz. split; [by eapply Hnz|]. split; [done|]. by eapply lookup_lt_Some.
Qed.
Lemma chr_run s h : (s <= es)%nat → chr s (Sh L h R) = Ret (hd 0 (drop s t), Sh L h R).
Proof using.
  intros Hs. unfold chr. rewrite (bind_Ret (gets line) _ (Sh L h R) L (Sh L h R) eq_refl). destruct (decide (s = es)) as [->|Hne].
  - rewrite drop_all, lookup_app_r by lia. by rewrite Nat.sub_diag.
  - destruct (lookup_lt_is_Some_2 t s ltac:(lia)) as [c Hc]. rewrite lookup_app_l by lia. rewrite Hc. by rewrite (drop_S _ _ _ Hc).
Qed.
Lemma skip_run p h : ∀ fuel s, (s <= es)%nat → (es - s <= fuel)%nat → skip es fuel p s (Sh L h R) = Ret ((s + span p (drop s t))%nat, Sh L h R).
Proof using.
  induction fuel as [|fuel IH]; intros s Hs Hf; cbn [skip].
  - rewrite bool_decide_false by lia. rewrite drop_ge by lia. cbn. by rewrite Nat.add_0_r.
  - case_bool_decide as Hlt; [|rewrite drop_ge by lia; cbn; by rewrite Nat.add_0_r]. cbn [negb]. rewrite (bind_Ret _ _ _ _ _ (chr_run s h Hs)).
    destruct (lookup_lt_is_Some_2 t s Hlt) as [c Hc]. rewrite (drop_S _ _ _ Hc). cbn [hd span]. destruct (p c); cbn [negb]; [|by rewrite Nat.add_0_r].
    rewrite IH by lia. do 2 f_equal. lia.
Qed.
Lemma skip_white_run s h : (s <= es)%nat → ∃ s', skip_white es s (Sh L h R) = Ret (s', Sh L h R) ∧ (s <= s' <= es)%nat ∧ drop s' t = strip (drop s t).
Proof using.
  intros Hs. unfold skip_white. rewrite (skip_run _ h es s Hs ltac:(lia)). eexists. split; [done|]. pose proof (span_le (strchr whitespace) (drop s t)) as Hl. rewrite length_drop in Hl.
  split; [lia|]. unfold strip. by rewrite drop_drop.
Qed.
Lemma peek_run s h toks : (s <= es)%nat → forallb (strchr symbols) toks = true → ∃ s',
  peek es s toks (Sh L h R) = Ret ((sees toks (lex (drop s t)), s'), Sh L h R) ∧ (s' <= es)%nat ∧ lex (drop s' t) = lex (drop s t) ∧ (lex (drop s t) = [] → s' = es).
Proof using Hnz.
  intros Hs Hall. assert (∀ c, strchr toks c = true → strchr symbols c = true) as Htoks.
  { intros c (x & Hx & ->%Z.eqb_eq)%existsb_exists. rewrite forallb_forall in Hall. by apply Hall. }
  destruct (skip_white_run s h Hs) as (s' & E & Hs' & Hd). exists s'. unfold peek. rewrite (bind_Ret _ _ _ _ _ E), (bind_Ret _ _ _ _ _ (chr_run s' h ltac:(lia))).
  pose proof (lex_next (drop s t)) as Hl. rewrite <- Hd in Hl. split; [|split; [lia|split]].
  - unfold mret, M_ret. do 3 f_equal. rewrite Hl. destruct (drop s' t) as [|c r] eqn:Er; [done|]. cbn [hd next].
    destruct (drop_head s' c r Er) as (_ & Hc & _).
    rewrite (proj2 (Z.eqb_neq c 0) Hc). cbn [negb andb]. destruct (Z.eqb_spec c rangle) as [->|Hg].
    + destruct r as [|d r]; [done|]. by destruct (d =? rangle).
    + destruct (strchr symbols c) eqn:Esym; [done|]. cbn. destruct (strchr toks c) eqn:Et; [|done]. apply Htoks in Et. congruence.
  - rewrite Hl, (lex_next (drop s' t)), Hd, strip_strip. done.
  - rewrite Hl. destruct (drop s' t) as [|c r] eqn:Er; [|].
    + intros _. apply (f_equal length) in Er. rewrite length_drop in Er. cbn in Er. lia.
    + cbn [next]. destruct (c =? rangle); [destruct r as [|d r]; [done|by destruct (d =? rangle)]|]. by destruct (strchr symbols c).
Qed.
Lemma gettoken_run s h : (s <= es)%nat → ∃ q eq s', gettoken es s (Sh L h R) = Ret ((code (lex (drop s t)), q, eq, s'), Sh L h R) ∧ (s' <= es)%nat ∧
  lex (drop s' t) = tl (lex (drop s t)) ∧ ∀ w, head (lex (drop s t)) = Some (TWord w) → isword q eq w.
Proof using Hnz.
  intros Hs. destruct (skip_white_run s h Hs) as (q & E & Hq & Hd). unfold gettoken. rewrite (bind_Ret _ _ _ _ _ E), (bind_Ret _ _ _ _ _ (chr_run q h ltac:(lia))).
  pose proof (lex_next (drop s t)) as Hl. rewrite <- Hd in Hl.
  set (X := if hd 0 (drop q t) =? 0 then _ else _).
  assert (∃ eq, X (Sh L h R) = Ret ((code (lex (drop s t)), eq), Sh L h R) ∧ (eq <= es)%nat ∧ lex (drop eq t) = tl (lex (drop s t)) ∧ ∀ w, head (lex (drop s t)) = Some (TWord w) → isword q eq w) as (eq & EX & Heq & Hlex & Hw).
  { unfold X. rewrite Hl. destruct (drop q t) as [|c r] eqn:Er; [exists q; rewrite Er; split_and!; try done; lia|].
    destruct (drop_head q c r Er) as (_ & Hc & Hdr & Hlt). cbn [hd next]. rewrite (proj2 (Z.eqb_neq c 0) Hc). destruct (Z.eqb_spec c rangle) as [->|Hg].
    { cbn [bar lpar rpar semi amp langle rangle Z.eqb Pos.eqb orb]. rewrite (bind_Ret _ _ _ _ _ (chr_run (S q) h ltac:(lia))), Hdr. destruct r as [|d r]; [exists (S q); rewrite Hdr; split_and!; try done; lia|].
      destruct (drop_head (S q) d r Hdr) as (_ & _ & Hdr' & Hlt'). cbn [hd]. destruct (d =? rangle); [exists (S (S q)); rewrite Hdr'|exists (S q); rewrite Hdr]; split_and!; try done; lia. }
    assert (strchr symbols c = (c =? 60) || ((c =? 124) || ((c =? 62) || ((c =? 38) || ((c =? 59) || ((c =? 40) || ((c =? 41) || false))))))) as Esym by done. destruct (strchr symbols c) eqn:Es.
    - assert ((c =? bar) || (c =? lpar) || (c =? rpar) || (c =? semi) || (c =? amp) || (c =? langle) = true) as -> by (unfold bar, lpar, rpar, semi, amp, langle, rangle in *; lia).
      exists (S q). rewrite Hdr. split_and!; try done; lia.
    - assert ((c =? bar) || (c =? lpar) || (c =? rpar) || (c =? semi) || (c =? amp) || (c =? langle) = false) as -> by (unfold bar, lpar, rpar, semi, amp, langle, rangle in *; lia).
      rewrite <- Er. pose proof (span_le in_word (drop q t)) as Hsp. rewrite length_drop in Hsp. rewrite (bind_Ret _ _ _ _ _ (skip_run in_word h es q ltac:(lia) ltac:(lia))). eexists. split; [done|].
      split; [lia|]. cbn [tl head]. split; [by rewrite drop_drop|]. intros w [= <-]. split; [lia|]. split; [split; [lia|]|].
      + intros x Hx. pose proof (span_stop in_word (drop q t)) as Hst. rewrite drop_drop, (drop_S _ _ _ Hx) in Hst. done.
      + split; [f_equal; lia|]. apply span_forall. }
  destruct (skip_white_run eq h Heq) as (s' & E' & Hs' & Hd'). rewrite (bind_Ret _ _ _ _ _ EX), (bind_Ret _ _ _ _ _ E'). exists q, eq, s'. split; [done|]. split; [lia|]. split; [|done]. by rewrite Hd', lex_strip.
Qed.

(** ** The parser and the parser of tokens *)

Definition ext h h' : Prop := ∀ i x, h !! i = Some x → h' !! i = Some x.
(** From [s] with [ts] ahead to [s'] with [ts'], with two nodes at most for a token and
    [k] more. *)
Record moved h ts (k : nat) s' h' ts' : Prop := {
  mv_le : (s' <= es)%nat;
  mv_lex : lex (drop s' t) = ts';
  mv_room : (length h' + 2 * length ts' <= length h + 2 * length ts + k)%nat;
  mv_ext : ext h h';
}.
Lemma moved_here h ts s' : (s' <= es)%nat → lex (drop s' t) = ts → moved h ts 0 s' h ts.
Proof using. intros H1 H2. split; [done|done|lia|by intros i x]. Qed.
Lemma ext_new h n : ext h (h ++ [n]).
Proof using. intros i x. apply lookup_app_l_Some. Qed.
Lemma new_run h n : (length h < R)%nat → new n (Sh L h R) = Ret (length h, Sh L (h ++ [n]) R).
Proof using. intros Hr. unfold new. rewrite (bind_Ret (gets nodes) _ (Sh L h R) h (Sh L h R) eq_refl), (bind_Ret (gets room) _ (Sh L h R) R (Sh L h R) eq_refl). by rewrite bool_decide_true. Qed.
Lemma sees_redir ts : sees [langle; rangle] ts = match ts with k :: _ => bool_decide (is_Some (redir_op k)) | [] => false end.
Proof using.
  destruct ts as [|[w|c|] ts]; cbn [sees]; [done|by rewrite bool_decide_false by (by intros [? ?])| |by rewrite bool_decide_true by eauto].
  cbn [redir_op]. cbn. destruct (c =? langle); [done|]. by destruct (c =? rangle).
Qed.

Lemma redirs_sim : ∀ fuel ts s h cmd, (s <= es)%nat → lex (drop s t) = ts → (length ts <= fuel)%nat → (length h + 2 * length ts <= R)%nat → (cmd < length h)%nat →
  match r_redirs ts with
  | Ret (rs, ts') => ∃ p s' h', parseredirs es fuel cmd s (Sh L h R) = Ret ((p, s'), Sh L h' R) ∧ moved h ts 0 s' h' ts' ∧ chain isword h' cmd rs p ∧ (p < length h')%nat
  | Panic m => parseredirs es fuel cmd s (Sh L h R) = Panic m
  | _ => False
  end.
Proof using Hnz.
  induction fuel as [|fuel IH]; intros ts s h cmd Hs Hts Hf HR Hcmd;
    (destruct (peek_run s h [langle; rangle] Hs eq_refl) as (s1 & E1 & Hs1 & Hl1 & _); rewrite Hts in *; rewrite sees_redir in E1; cbn [parseredirs]; rewrite (bind_Ret _ _ _ _ _ E1)).
  { destruct ts as [|k ts]; [|cbn in Hf; lia]. cbn. exists cmd, s1, h. split_and!; try done; [by apply moved_here|constructor]. }
  destruct ts as [|k ts]; [cbn; exists cmd, s1, h; split_and!; try done; [by apply moved_here|constructor]|]. cbn [r_redirs].
  destruct (redir_op k) as [[m f]|] eqn:Ek; [|rewrite bool_decide_false by (by intros [? ?]); exists cmd, s1, h; split_and!; try done; [by apply moved_here|constructor]].
  rewrite bool_decide_true by eauto. cbn [negb]. destruct (gettoken_run s1 h Hs1) as (q1 & e1 & s2 & E2 & Hs2 & Hl2 & _). rewrite (bind_Ret _ _ _ _ _ E2). rewrite Hl1 in *. cbn [tl code] in *.
  destruct (gettoken_run s2 h Hs2) as (q & eq & s3 & E3 & Hs3 & Hl3 & Hw). rewrite (bind_Ret _ _ _ _ _ E3). rewrite Hl2 in *.
  destruct ts as [|[w|c|] ts]; [done| | |done].
  2:{ cbn [code]. destruct (Z.eqb_spec c word_tok) as [->|]; [|done]. pose proof (lex_good (drop s2 t)) as Hg. rewrite Hl2 in Hg. by apply Forall_cons in Hg as [? _]. }
  cbn [code tl] in *. change (word_tok =? word_tok) with true. cbn [negb].
  assert ((if match k with TWord _ => word_tok | TSym c => c | TApp => plus end =? langle then redircmd cmd q eq O_RDONLY 0 else if match k with TWord _ => word_tok | TSym c => c | TApp => plus end =? rangle then redircmd cmd q eq (Z.lor (Z.lor O_WRONLY O_CREATE) O_TRUNC) 1
    else if match k with TWord _ => word_tok | TSym c => c | TApp => plus end =? plus then redircmd cmd q eq (Z.lor O_WRONLY O_CREATE) 1 else mret cmd) = redircmd cmd q eq m f) as ->.
  { destruct k as [|c|]; cbn in Ek; [done| |by injection Ek as <- <-]. destruct (c =? langle); [by injection Ek as <- <-|]. destruct (c =? rangle); [by injection Ek as <- <-|done]. }
  unfold redircmd. rewrite (bind_Ret _ _ _ _ _ (new_run h _ ltac:(cbn in HR; lia))). specialize (IH ts s3 (h ++ [REDIR cmd q eq m f]) (length h) Hs3 Hl3 ltac:(cbn in Hf; lia)). rewrite length_app in IH. specialize (IH ltac:(cbn in HR |- *; lia) ltac:(cbn; lia)).
  destruct (r_redirs ts) as [[rs ts']|m'| | |]; [|done..]. destruct IH as (p & s' & h' & E & [M1 M2 M3 M4] & Hc & Hp). exists p, s', h'. split; [exact E|].
  assert (h' !! length h = Some (REDIR cmd q eq m f)) as Hh by (apply M4; rewrite lookup_app_r by lia; by rewrite Nat.sub_diag).
  split; [split; [done|done|rewrite length_app in M3; cbn in M3 |- *; lia|intros i x Hx; apply M4; by apply lookup_app_l_Some]|]. split; [|done].
  apply (chain_app _ _ _ [(w, m, f)] (length h)); [|done]. eapply (chain_snoc _ _ _ [] cmd); [constructor|exact Hh|done|by apply Hw].
Qed.

Lemma lex_es s : (length (lex (drop s t)) <= es)%nat.
Proof using. pose proof (lex_length (drop s t)) as H. rewrite length_drop in H. lia. Qed.
Lemma set_arg_run h e i argv a : h !! e = Some (EXEC argv) → (i < MAXARGS)%nat → set_arg e i a (Sh L h R) = Ret ((), Sh L (<[e := EXEC (<[i := a]> argv)]> h) R).
Proof using. intros He Hi. unfold set_arg. rewrite (bind_Ret (gets nodes) _ (Sh L h R) h (Sh L h R) eq_refl), He. by rewrite bool_decide_true. Qed.
Definition argv_of (qs : list (nat * nat)) : list (option (nat * nat)) := (Some <$> qs) ++ replicate (MAXARGS - length qs) None.
Lemma argv_snoc qs q : (length qs < MAXARGS)%nat → <[length qs := Some q]> (argv_of qs) = argv_of (qs ++ [q]).
Proof using.
  intros Hl. unfold argv_of. replace (length qs) with (length (Some <$> qs) + 0)%nat at 1 by (rewrite length_fmap; lia). rewrite insert_app_r, length_app, fmap_app, <- app_assoc. f_equal. cbn [length fmap list_fmap].
  replace (MAXARGS - length qs)%nat with (S (MAXARGS - (length qs + 1))) by lia. done.
Qed.
Lemma argv_end qs : (length qs < MAXARGS)%nat → <[length qs := None]> (argv_of qs) = argv_of qs.
Proof using. intros Hl. apply list_insert_id. unfold argv_of. rewrite lookup_app_r by (rewrite length_fmap; lia). rewrite length_fmap, Nat.sub_diag. apply lookup_replicate. split; [done|lia]. Qed.

Lemma args_sim e : ∀ fuel ts s h ret rs0 qs, (s <= es)%nat → lex (drop s t) = ts → (length h + 2 * length ts <= R)%nat → (length qs < MAXARGS)%nat →
  h !! e = Some (EXEC (argv_of qs)) → chain isword h e rs0 ret → (ret < length h)%nat →
  match r_args fuel (length qs) ts with
  | Ret (ws, rs, ts') => ∃ p qs' s' h', parseargs es fuel e ret (length qs) s (Sh L h R) = Ret ((p, length (qs ++ qs'), s'), Sh L h' R) ∧
      (s' <= es)%nat ∧ lex (drop s' t) = ts' ∧ (length h' + 2 * length ts' <= length h + 2 * length ts)%nat ∧ (∀ i x, i ≠ e → h !! i = Some x → h' !! i = Some x) ∧
      h' !! e = Some (EXEC (argv_of (qs ++ qs'))) ∧ (length (qs ++ qs') < MAXARGS)%nat ∧ Forall2 (λ q w, isword q.1 q.2 w) qs' ws ∧ chain isword h' e (rs0 ++ rs) p ∧ (p < length h')%nat
  | Panic m => parseargs es fuel e ret (length qs) s (Sh L h R) = Panic m
  | OutOfFuel => True
  | _ => False
  end.
Proof using Hnz.
  induction fuel as [|fuel IH]; intros ts s h ret rs0 qs Hs Hts HR Hq He Hc Hret;
    (destruct (peek_run s h [bar; rpar; amp; semi] Hs eq_refl) as (s1 & E1 & Hs1 & Hl1 & _); rewrite Hts in *; cbn [parseargs r_args]; rewrite (bind_Ret _ _ _ _ _ E1)).
  - destruct (sees _ ts); [|done]. exists ret, [], s1, h. rewrite !app_nil_r. split_and!; (done || lia).
  - destruct (sees _ ts); [exists ret, [], s1, h; rewrite !app_nil_r; split_and!; (done || lia)|].
    destruct (gettoken_run s1 h Hs1) as (q & eq & s2 & E2 & Hs2 & Hl2 & Hw). rewrite (bind_Ret _ _ _ _ _ E2). rewrite Hl1 in *.
    pose proof (lex_good (drop s t)) as Hg. rewrite Hts in Hg.
    destruct ts as [|[w|c|] ts]; cbn [code tl] in *; [exists ret, [], s2, h; rewrite !app_nil_r; split_and!; (done || lia)| | |done].
    2:{ apply Forall_cons in Hg as [Hg _]. destruct (Z.eqb_spec c 0) as [->|]; [done|]. destruct (Z.eqb_spec c word_tok) as [->|]; [done|]. done. }
    change (word_tok =? 0) with false. change (word_tok =? word_tok) with true. cbn [negb].
    rewrite (bind_Ret _ _ _ _ _ (set_arg_run h e _ _ (Some (q, eq)) He Hq)), (argv_snoc qs (q, eq) Hq).
    set (h1 := <[e := EXEC (argv_of (qs ++ [(q, eq)]))]> h). case_bool_decide as Hmax; [done|].
    assert (length h1 = length h) as Elen by apply length_insert.
    assert (∀ i x, i ≠ e → h !! i = Some x → h1 !! i = Some x) as H1 by (intros i x Hi Hx; unfold h1; by rewrite list_lookup_insert_ne).
    pose proof (redirs_sim es ts s2 h1 ret Hs2 Hl2 ltac:(rewrite <- Hl2; apply lex_es) ltac:(rewrite Elen; cbn in HR; lia) ltac:(by rewrite Elen)) as Hr.
    destruct (r_redirs ts) as [[rs ts1]|m| | |]; [|by rewrite (bind_Panic _ _ _ _ Hr)|done..]. destruct Hr as (p & s3 & h2 & E3 & [M1 M2 M3 M4] & Hc2 & Hp). rewrite (bind_Ret _ _ _ _ _ E3).
    assert (h2 !! e = Some (EXEC (argv_of (qs ++ [(q, eq)])))) as He2 by (apply M4; apply list_lookup_insert_eq; by eapply lookup_lt_Some).
    assert (chain isword h2 e (rs0 ++ rs) p) as Hch by (eapply chain_app; [eapply chain_mono; [|exact Hc]; intros i x Hi Hx; by apply M4, H1|done]).
    specialize (IH ts1 s3 h2 p (rs0 ++ rs) (qs ++ [(q, eq)]) M1 M2). cbn [length] in HR.
    assert (S (length qs) = length (qs ++ [(q, eq)])) as Eq by (rewrite length_app; cbn; lia). rewrite Eq.
    specialize (IH ltac:(lia) ltac:(lia) He2 Hch Hp). rewrite obind_Ret.
    destruct (r_args fuel _ ts1) as [[[ws rs'] ts']|m| | |]; [|done..]. destruct IH as (p' & qs' & s' & h' & E & B1 & B2 & B3 & B4 & B5 & B6 & B7 & B8 & B9). rewrite obind_Ret.
    exists p', ((q, eq) :: qs'), s', h'. rewrite <- (app_assoc qs) in *. rewrite <- (app_assoc rs0) in *. cbn [app] in *. split_and!; try done; [cbn [length]; lia|intros i x Hi Hx; apply B4; [done|]; by apply M4, H1|].
    constructor; [by apply Hw|done].
Qed.

Lemma rep_lt str h p c : rep str h p c → (p < length h)%nat.
Proof using. destruct 1; by eapply lookup_lt_Some. Qed.
Lemma last_new h n : (h ++ [n]) !! length h = Some n.
Proof using. rewrite lookup_app_r by lia. by rewrite Nat.sub_diag. Qed.
Lemma sees_cons toks ts : sees toks ts = true → length ts = S (length (tl ts)).
Proof using. by destruct ts. Qed.
Lemma moved_trans h1 ts1 k1 s2 h2 ts2 k2 s3 h3 ts3 k : moved h1 ts1 k1 s2 h2 ts2 → moved h2 ts2 k2 s3 h3 ts3 → (k1 + k2 <= k)%nat → moved h1 ts1 k s3 h3 ts3.
Proof using. intros [A1 A2 A3 A4] [B1 B2 B3 B4] Hk. split; [done|done|lia|]. intros i x Hx. by apply B4, A4. Qed.
(** A new node uses up what a token left. *)
Lemma moved_new h ts k s' h' ts' n : moved h ts k s' h' ts' → moved h ts (S k) s' (h' ++ [n]) ts'.
Proof using. intros [A1 A2 A3 A4]. split; [done|done|rewrite length_app; cbn; lia|]. intros i x Hx. by apply ext_new, A4. Qed.

Lemma backs_sim : ∀ fuel ts s h p c, (s <= es)%nat → lex (drop s t) = ts → (length ts <= fuel)%nat → (length h + 2 * length ts <= R)%nat → rep isword h p c →
  ∃ p' s' h', parsebacks es fuel p s (Sh L h R) = Ret ((p', s'), Sh L h' R) ∧ moved h ts 0 s' h' (r_backs c ts).2 ∧ rep isword h' p' (r_backs c ts).1.
Proof using Hnz.
  induction fuel as [|fuel IH]; intros ts s h p c Hs Hts Hf HR Hp;
    (destruct (peek_run s h [amp] Hs eq_refl) as (s1 & E1 & Hs1 & Hl1 & _); rewrite Hts in *; cbn [parsebacks]; rewrite (bind_Ret _ _ _ _ _ E1)).
  { destruct ts; [|cbn in Hf; lia]. exists p, s1, h. split; [done|]. split; [by apply moved_here|done]. }
  destruct ts as [|k ts]; [exists p, s1, h; split; [done|]; split; [by apply moved_here|done]|]. cbn [r_backs].
  destruct (sees [amp] (k :: ts)) eqn:Es; cbn [negb]; [|exists p, s1, h; split; [done|]; split; [by apply moved_here|done]].
  destruct (gettoken_run s1 h Hs1) as (q1 & e1 & s2 & E2 & Hs2 & Hl2 & _). rewrite (bind_Ret _ _ _ _ _ E2). rewrite Hl1 in *. cbn [tl length] in *.
  unfold backcmd. rewrite (bind_Ret _ _ _ _ _ (new_run h _ ltac:(lia))).
  destruct (IH ts s2 (h ++ [BACK p]) (length h) (CBack c) Hs2 Hl2 ltac:(lia) ltac:(rewrite length_app; cbn; lia)) as (p' & s' & h' & E & Hm & Hr).
  { eapply rep_back; [apply last_new|by eapply rep_lt|]. eapply rep_mono; [|exact Hp]. apply ext_new. }
  exists p', s', h'. split; [exact E|]. split; [|done]. destruct Hm as [M1 M2 M3 M4]. split; [done|done|rewrite length_app in M3; cbn [length] in *; lia|]. intros i x Hx. by apply M4, ext_new.
Qed.

(** The code does what the parser of tokens does. *)
Definition sim (guard : list tok → bool) (code : nat → M sh (nat * nat)) (ref : list tok → outcome (cmd * list tok)) : Prop :=
  ∀ s h ts, (s <= es)%nat → lex (drop s t) = ts → guard ts = true → (length h + 2 * length ts + 1 <= R)%nat →
  match ref ts with
  | Ret (c, ts') => ∃ p s' h', code s (Sh L h R) = Ret ((p, s'), Sh L h' R) ∧ moved h ts 1 s' h' ts' ∧ rep isword h' p c
  | Panic m => code s (Sh L h R) = Panic m
  | OutOfFuel => True
  | _ => False
  end.
Local Abbreviation always := (λ _ : list tok, true).
(** [cmd op rest], for [;] and [|]. *)
Lemma sim_op toks code ref mk CMk NMk s1 h1 ts1 p1 c1 h ts : forallb (strchr symbols) toks = true → sim always code ref →
  (∀ l r h, (length h < R)%nat → mk l r (Sh L h R) = Ret (length h, Sh L (h ++ [NMk l r]) R)) →
  (∀ h p l r c c', h !! p = Some (NMk l r) → (l < p)%nat → (r < p)%nat → rep isword h l c → rep isword h r c' → rep isword h p (CMk c c')) →
  moved h ts 1 s1 h1 ts1 → rep isword h1 p1 c1 → (length h + 2 * length ts + 1 <= R)%nat →
  match (if sees toks ts1 then '(c', ts') ← ref (tl ts1); Ret (CMk c1 c', ts') else Ret (c1, ts1)) with
  | Ret (c, ts') => ∃ p s' h', ('(b, s) ← peek es s1 toks; if b : bool then '(_, _, _, s) ← gettoken es s; '(r, s) ← code s; cmd ← mk p1 r; mret (cmd, s) else mret (p1, s)) (Sh L h1 R) = Ret ((p, s'), Sh L h' R) ∧
      moved h ts 1 s' h' ts' ∧ rep isword h' p c
  | Panic m => ('(b, s) ← peek es s1 toks; if b : bool then '(_, _, _, s) ← gettoken es s; '(r, s) ← code s; cmd ← mk p1 r; mret (cmd, s) else mret (p1, s)) (Sh L h1 R) = Panic m
  | OutOfFuel => True
  | _ => False
  end.
Proof using Hnz.
  intros Htoks Hsim Hmk Hrep Hm Hp HR. pose proof Hm as [M1 M2 M3 M4]. destruct (peek_run s1 h1 toks M1 Htoks) as (s2 & E2 & Hs2 & Hl2 & _). rewrite M2 in *. rewrite (bind_Ret _ _ _ _ _ E2).
  destruct (sees toks ts1) eqn:Es.
  2:{ exists p1, s2, h1. split; [done|]. split; [|done]. split; [done|done|lia|done]. }
  apply sees_cons in Es. destruct (gettoken_run s2 h1 Hs2) as (q & eq & s3 & E3 & Hs3 & Hl3 & _). rewrite (bind_Ret _ _ _ _ _ E3). rewrite Hl2 in *.
  specialize (Hsim s3 h1 (tl ts1) Hs3 Hl3 eq_refl ltac:(lia)). destruct (ref (tl ts1)) as [[c' ts']|m| | |]; [|by rewrite (bind_Panic _ _ _ _ Hsim)|done..].
  destruct Hsim as (r & s4 & h4 & E4 & [N1 N2 N3 N4] & Hr). rewrite obind_Ret, (bind_Ret _ _ _ _ _ E4). pose proof (rep_lt _ _ _ _ Hr) as Hrl. assert (rep isword h4 p1 c1) as Hp4 by (by eapply rep_mono).
  pose proof (rep_lt _ _ _ _ Hp4) as Hpl. rewrite (bind_Ret _ _ _ _ _ (Hmk p1 r h4 ltac:(lia))). exists (length h4), s4, (h4 ++ [NMk p1 r]). split; [done|]. split.
  - split; [done|done|rewrite length_app; cbn; lia|]. intros i x Hx. by apply ext_new, N4, M4.
  - eapply Hrep; [apply last_new|done|done|eapply rep_mono; [apply ext_new|done]..].
Qed.
Lemma parse_sim : ∀ fuel, sim always (parseline es fuel) (r_line es fuel) ∧ sim always (parsepipe es fuel) (r_pipe es fuel) ∧
  sim always (parseexec es fuel) (r_exec es fuel) ∧ sim (sees [lpar]) (parseblock es fuel) (r_block es fuel).
Proof using Hnz.
  induction fuel as [|fuel (IHl & IHp & IHe & IHb)]; [by split_and!|]. split_and!; intros s h ts Hs Hts Hg HR.
  - cbn [parseline r_line]. specialize (IHp s h ts Hs Hts eq_refl HR). destruct (r_pipe es fuel ts) as [[c ts1]|m| | |]; [|by rewrite (bind_Panic _ _ _ _ IHp)|done..].
    destruct IHp as (p & s1 & h1 & E1 & Hm1 & Hp). rewrite obind_Ret, (bind_Ret _ _ _ _ _ E1). pose proof Hm1 as [M1 M2 M3 M4].
    destruct (backs_sim es ts1 s1 h1 p c M1 M2 ltac:(rewrite <- M2; apply lex_es) ltac:(lia) Hp) as (p2 & s2 & h2 & E2 & Hm2 & Hp2). rewrite (bind_Ret _ _ _ _ _ E2).
    destruct (r_backs c ts1) as [c2 ts2]. cbn [fst snd] in *. apply (sim_op [semi] (parseline es fuel) (r_line es fuel) listcmd CList LIST s2 h2 ts2 p2 c2 h ts); try done.
    + intros. by apply new_run.
    + intros. by eapply rep_list.
    + by eapply moved_trans.
  - cbn [parsepipe r_pipe]. specialize (IHe s h ts Hs Hts eq_refl HR). destruct (r_exec es fuel ts) as [[c ts1]|m| | |]; [|by rewrite (bind_Panic _ _ _ _ IHe)|done..].
    destruct IHe as (p & s1 & h1 & E1 & Hm1 & Hp). rewrite obind_Ret, (bind_Ret _ _ _ _ _ E1).
    apply (sim_op [bar] (parsepipe es fuel) (r_pipe es fuel) pipecmd CPipe PIPE s1 h1 ts1 p c h ts); try done.
    + intros. by apply new_run.
    + intros. by eapply rep_pipe.
  - cbn [parseexec r_exec]. destruct (peek_run s h [lpar] Hs eq_refl) as (s1 & E1 & Hs1 & Hl1 & _). rewrite Hts in *. rewrite (bind_Ret _ _ _ _ _ E1).
    destruct (sees [lpar] ts) eqn:El; [by apply IHb|]. unfold execcmd. rewrite (bind_Ret _ _ _ _ _ (new_run h _ ltac:(lia))). set (h1 := h ++ [EXEC (replicate MAXARGS None)]).
    assert (length h1 = S (length h)) as Eh1 by (unfold h1; rewrite length_app; cbn; lia).
    pose proof (redirs_sim es ts s1 h1 (length h) Hs1 Hl1 ltac:(rewrite <- Hl1; apply lex_es) ltac:(lia) ltac:(lia)) as Hr.
    destruct (r_redirs ts) as [[rs ts1]|m| | |]; [|by rewrite (bind_Panic _ _ _ _ Hr)|done..]. destruct Hr as (p & s2 & h2 & E2 & [M1 M2 M3 M4] & Hc & Hp). rewrite obind_Ret, (bind_Ret _ _ _ _ _ E2).
    pose proof (args_sim (length h) (S es) ts1 s2 h2 p rs [] M1 M2 ltac:(lia) ltac:(cbn; unfold MAXARGS; lia) ltac:(apply M4, last_new) Hc Hp) as Ha. cbn [length] in Ha.
    destruct (r_args (S es) 0 ts1) as [[[ws rs'] ts']|m| | |]; [|by rewrite (bind_Panic _ _ _ _ Ha)|done..]. destruct Ha as (p' & qs & s3 & h3 & E3 & B1 & B2 & B3 & B4 & B5 & B6 & B7 & B8 & B9).
    rewrite obind_Ret, (bind_Ret _ _ _ _ _ E3). cbn [app] in *. rewrite (bind_Ret _ _ _ _ _ (set_arg_run h3 (length h) _ _ None B5 B6)), (argv_end _ B6), list_insert_id by done.
    exists p', s3, h3. split; [done|]. split.
    + split; [done|done|lia|]. intros i x Hx. apply B4; [|by apply M4, ext_new]. apply lookup_lt_Some in Hx. lia.
    + eapply chain_rep; [exact B8|]. eapply rep_exec; [exact B5|]. exists qs. done.
  - cbn [parseblock r_block]. destruct (peek_run s h [lpar] Hs eq_refl) as (s1 & E1 & Hs1 & Hl1 & _). rewrite Hts in *. rewrite (bind_Ret _ _ _ _ _ E1), Hg. cbn [negb].
    destruct (gettoken_run s1 h Hs1) as (q1 & e1 & s2 & E2 & Hs2 & Hl2 & _). rewrite (bind_Ret _ _ _ _ _ E2). rewrite Hl1 in *. apply sees_cons in Hg.
    specialize (IHl s2 h (tl ts) Hs2 Hl2 eq_refl ltac:(lia)). destruct (r_line es fuel (tl ts)) as [[c ts1]|m| | |]; [|by rewrite (bind_Panic _ _ _ _ IHl)|done..].
    destruct IHl as (p & s3 & h3 & E3 & [M1 M2 M3 M4] & Hp). rewrite obind_Ret, (bind_Ret _ _ _ _ _ E3).
    destruct (peek_run s3 h3 [rpar] M1 eq_refl) as (s4 & E4 & Hs4 & Hl4 & _). rewrite M2 in *. rewrite (bind_Ret _ _ _ _ _ E4). destruct (sees [rpar] ts1) eqn:Er; [|done]. cbn [negb].
    destruct (gettoken_run s4 h3 Hs4) as (q5 & e5 & s5 & E5 & Hs5 & Hl5 & _). rewrite (bind_Ret _ _ _ _ _ E5). rewrite Hl4 in *. apply sees_cons in Er. pose proof (rep_lt _ _ _ _ Hp) as Hpl.
    pose proof (redirs_sim es (tl ts1) s5 h3 p Hs5 Hl5 ltac:(rewrite <- Hl5; apply lex_es) ltac:(lia) Hpl) as Hr.
    destruct (r_redirs (tl ts1)) as [[rs ts']|m| | |]; [|done..]. destruct Hr as (p' & s6 & h6 & E6 & [N1 N2 N3 N4] & Hc & Hp'). rewrite obind_Ret. exists p', s6, h6. split; [done|]. split.
    + split; [done|done|lia|]. intros i x Hx. by apply N4, M4.
    + eapply chain_rep; [done|]. by eapply rep_mono.
Qed.

(** ** Cutting the line up *)

Definition cut_line (l : bytes) : Prop := length l = length L ∧ ∀ i x, l !! i = Some x → L !! i = Some x ∨ x = 0 ∧ boundary i.
Definition kept (l l' : bytes) : Prop := ∀ i, l !! i = Some 0 → l' !! i = Some 0.
Definition ends (l : bytes) (q eq : nat) (w : bytes) : Prop := isword q eq w ∧ l !! eq = Some 0.
Lemma ends_kept l l' h p c : kept l l' → rep (ends l) h p c → rep (ends l') h p c.
Proof using. intros Hk. apply rep_str. intros q eq w [H1 H2]. split; [done|by apply Hk]. Qed.
Lemma cut_line_run h l eq : cut_line l → boundary eq → cut eq (Sh l h R) = Ret ((), Sh (<[eq := 0]> l) h R) ∧ cut_line (<[eq := 0]> l) ∧ kept l (<[eq := 0]> l) ∧ <[eq := 0]> l !! eq = Some 0.
Proof using.
  intros [Hlen Hl] Hb. assert (eq < length l)%nat as Hlt by (rewrite Hlen, length_app; cbn; destruct Hb; lia). split_and!.
  - unfold cut. rewrite (bind_Ret (gets line) _ (Sh l h R) l (Sh l h R) eq_refl). by rewrite bool_decide_true.
  - split; [by rewrite length_insert|]. intros i x Hx. apply list_lookup_insert_Some in Hx as [(<- & <- & _)|[_ Hx]]; [by right|by apply Hl].
  - intros i Hi. destruct (decide (eq = i)) as [<-|]; [by apply list_lookup_insert_eq|by rewrite list_lookup_insert_ne].
  - by apply list_lookup_insert_eq.
Qed.
Lemma cut_args_run h k qs ws : Forall2 (λ q w, isword q.1 q.2 w) qs ws → ∀ l, cut_line l →
  ∃ l', cut_args ((Some <$> qs) ++ replicate (S k) None) (Sh l h R) = Ret ((), Sh l' h R) ∧ cut_line l' ∧ kept l l' ∧ Forall2 (λ q w, ends l' q.1 q.2 w) qs ws.
Proof using.
  induction 1 as [|[q eq] w qs ws Hw _ IH]; intros l Hl; [exists l; split_and!; [done|done|by intros i|constructor]|]. cbn [fmap list_fmap app cut_args]. pose proof Hw as (_ & Hb & _).
  destruct (cut_line_run h l eq Hl Hb) as (E1 & Hl1 & Hk1 & Heq). rewrite (bind_Ret _ _ _ _ _ E1). destruct (IH _ Hl1) as (l' & E & Hl' & Hk & Hf). exists l'. split; [exact E|]. split; [done|].
  split; [intros i Hi; by apply Hk, Hk1|]. constructor; [|done]. split; [done|by apply Hk].
Qed.
Lemma nulterminate_run h p c : rep isword h p c → ∀ fuel l, (p < fuel)%nat → cut_line l →
  ∃ l', nulterminate fuel p (Sh l h R) = Ret ((), Sh l' h R) ∧ cut_line l' ∧ kept l l' ∧ rep (ends l') h p c.
Proof using.
  assert (∀ p1 p2 p c0 c1 c2 (C : ∀ l', rep (ends l') h p1 c1 → rep (ends l') h p2 c2 → rep (ends l') h p c0),
    (∀ fuel l, (p1 < fuel)%nat → cut_line l → ∃ l', nulterminate fuel p1 (Sh l h R) = Ret ((), Sh l' h R) ∧ cut_line l' ∧ kept l l' ∧ rep (ends l') h p1 c1) →
    (∀ fuel l, (p2 < fuel)%nat → cut_line l → ∃ l', nulterminate fuel p2 (Sh l h R) = Ret ((), Sh l' h R) ∧ cut_line l' ∧ kept l l' ∧ rep (ends l') h p2 c2) →
    ∀ fuel l, (p1 < fuel)%nat → (p2 < fuel)%nat → cut_line l → ∃ l', (nulterminate fuel p1 ;; nulterminate fuel p2) (Sh l h R) = Ret ((), Sh l' h R) ∧ cut_line l' ∧ kept l l' ∧ rep (ends l') h p c0) as Htwo.
  { intros p1 p2 p0 c0 c1 c2 C H1 H2 fuel l F1 F2 Hl. destruct (H1 fuel l F1 Hl) as (l1 & E1 & Hl1 & Hk1 & R1). destruct (H2 fuel l1 F2 Hl1) as (l2 & E2 & Hl2 & Hk2 & R2).
    exists l2. rewrite (bind_Ret _ _ _ _ _ E1). split; [done|]. split; [done|]. split; [intros i Hi; by apply Hk2, Hk1|]. apply C; [by eapply ends_kept|done]. }
  induction 1 as [p argv ws Hp (qs & -> & Hlt & Hf)|p sub q eq m f c w Hp Hlt _ IH Hw|p a b c c' Hp Ha Hb _ IHa _ IHb|p a b c c' Hp Ha Hb _ IHa _ IHb|p sub c Hp Hlt _ IH];
    intros fuel l Hfuel Hl; (destruct fuel as [|fuel]; [lia|]); cbn [nulterminate]; rewrite (bind_Ret (gets nodes) _ (Sh l h R) h (Sh l h R) eq_refl), Hp, (bind_Ret (oget (Some _)) _ (Sh l h R) _ (Sh l h R) eq_refl).
  - destruct (MAXARGS - length qs)%nat as [|k] eqn:Ek; [lia|]. destruct (cut_args_run h k qs ws Hf l Hl) as (l' & E & Hl' & Hk & Hf'). exists l'. split_and!; try done.
    eapply rep_exec; [exact Hp|]. exists qs. by rewrite Ek.
  - destruct (IH fuel l ltac:(lia) Hl) as (l1 & E1 & Hl1 & Hk1 & R1). rewrite (bind_Ret _ _ _ _ _ E1). pose proof Hw as (_ & Hb & _). destruct (cut_line_run h l1 eq Hl1 Hb) as (E2 & Hl2 & Hk2 & Heq).
    eexists. split; [exact E2|]. split; [done|]. split; [intros i Hi; by apply Hk2, Hk1|]. eapply rep_redir; [done|done|by eapply ends_kept|by split].
  - apply (Htwo a b p _ c c'); try done; [|lia..]. intros. by eapply rep_pipe.
  - apply (Htwo a b p _ c c'); try done; [|lia..]. intros. by eapply rep_list.
  - destruct (IH fuel l ltac:(lia) Hl) as (l1 & E1 & Hl1 & Hk1 & R1). exists l1. split_and!; try done. by eapply rep_back.
Qed.

(** The string at [q]. *)
Definition cstr (l : bytes) (q : nat) : bytes := take (strlen (drop q l)) (drop q l).
Lemma strlen_app w l : Forall (λ c, c ≠ 0) w → strlen (w ++ 0 :: l) = length w.
Proof using. induction 1 as [|c w Hc _ IH]; [done|]. cbn [app strlen length]. rewrite (proj2 (Z.eqb_neq c 0) Hc). by rewrite IH. Qed.
Lemma ends_cstr l q eq w : cut_line l → ends l q eq w → cstr l q = w.
Proof using Hnz.
  intros [Hlen Hl] [(Hq & [Heq Hb] & Hw & Hin) H0]. assert (take (eq - q) (drop q l) = w) as Ew.
  { rewrite <- Hw in Hin |- *. apply list_eq. intros k. destruct (decide (k < eq - q)%nat) as [Hk|]; [|by rewrite !lookup_take_ge by lia]. rewrite !lookup_take_lt, !lookup_drop by lia.
    destruct (lookup_lt_is_Some_2 t (q + k) ltac:(lia)) as [x Hx]. rewrite Hx. destruct (lookup_lt_is_Some_2 l (q + k) ltac:(rewrite Hlen, length_app; cbn; lia)) as [y Hy]. rewrite Hy.
    destruct (Hl _ _ Hy) as [Hy'|[-> [_ Hb']]]; [rewrite lookup_app_l in Hy' by lia; congruence|]. exfalso. apply Hb' in Hx as Hx'. rewrite Forall_lookup in Hin.
    rewrite (Hin k x) in Hx'; [done|]. by rewrite lookup_take_lt, lookup_drop by lia. }
  assert (Forall (λ c, c ≠ 0) w) as Hwz by (rewrite <- Hw; by apply Forall_take, Forall_drop).
  unfold cstr. rewrite <- (take_drop (eq - q) (drop q l)), Ew, drop_drop. replace (q + (eq - q))%nat with eq by lia. rewrite (drop_S _ _ _ H0), (strlen_app _ _ Hwz). by rewrite take_app_length.
Qed.
End line.

(** ** The grammar *)

Inductive g_redirs : list tok → list redir → Prop :=
  | gr_nil : g_redirs [] []
  | gr_cons k w m f us rs : redir_op k = Some (m, f) → g_redirs us rs → g_redirs (k :: TWord w :: us) ((w, m, f) :: rs).
Inductive g_args : list tok → list bytes → list redir → Prop :=
  | ga_nil : g_args [] [] []
  | ga_cons w us rs us' ws rs' : g_redirs us rs → g_args us' ws rs' → g_args (TWord w :: us ++ us') (w :: ws) (rs ++ rs').
Fixpoint backs (n : nat) (c : cmd) : cmd := match n with O => c | S n => backs n (CBack c) end.
Inductive g_line : list tok → cmd → Prop :=
  | gl_end us c n : g_pipe us c → g_line (us ++ replicate n (TSym amp)) (backs n c)
  | gl_semi us c n us' c' : g_pipe us c → g_line us' c' → g_line (us ++ replicate n (TSym amp) ++ TSym semi :: us') (CList (backs n c) c')
with g_pipe : list tok → cmd → Prop :=
  | gp_one us c : g_exec us c → g_pipe us c
  | gp_pipe us c us' c' : g_exec us c → g_pipe us' c' → g_pipe (us ++ TSym bar :: us') (CPipe c c')
with g_exec : list tok → cmd → Prop :=
  | ge_simple us0 rs0 us ws rs : g_redirs us0 rs0 → g_args us ws rs → (length ws < MAXARGS)%nat → g_exec (us0 ++ us) (wrap_redirs (rs0 ++ rs) (CExec ws))
  | ge_block us c us' rs : g_line us c → g_redirs us' rs → g_exec (TSym lpar :: us ++ TSym rpar :: us') (wrap_redirs rs c).

Scheme g_line_mut := Induction for g_line Sort Prop with g_pipe_mut := Induction for g_pipe Sort Prop with g_exec_mut := Induction for g_exec Sort Prop.

(** What may follow: the end, or one of some symbols. *)
Definition follows (toks : bytes) (ts : list tok) : Prop := ts = [] ∨ sees toks ts = true.
Lemma follows_sub toks toks' ts : forallb (strchr toks') toks = true → follows toks ts → follows toks' ts.
Proof.
  intros Hs [->|Hf]; [by left|]. right. rewrite forallb_forall in Hs. assert (∀ c, strchr toks c = true → strchr toks' c = true) as H by (intros c (x & Hx & ->%Z.eqb_eq)%existsb_exists; by apply Hs).
  destruct ts as [|[w|c|] ts]; cbn [sees] in *; try done; by apply H.
Qed.
Lemma follows_not toks toks' ts : forallb (λ c, negb (strchr toks' c)) toks = true → follows toks ts → sees toks' ts = false.
Proof.
  intros Hs [->|Hf]; [done|]. rewrite forallb_forall in Hs. assert (∀ c, strchr toks c = true → strchr toks' c = false) as H by (intros c (x & Hx & ->%Z.eqb_eq)%existsb_exists; apply negb_true_iff; by apply Hs).
  destruct ts as [|[w|c|] ts]; cbn [sees] in *; try done; by apply H.
Qed.
Lemma sees_one c ts : c ≠ rangle → sees [c] ts = true → ts = TSym c :: tl ts.
Proof.
  intros Hc. destruct ts as [|[w|d|] ts]; cbn [sees strchr existsb]; rewrite ?orb_false_r; [done|done|intros ->%Z.eqb_eq; done|intros E%Z.eqb_eq; congruence].
Qed.

Lemma r_redirs_sound : ∀ n ts, (length ts <= n)%nat → match r_redirs ts with Ret (rs, ts') => ∃ us, ts = us ++ ts' ∧ g_redirs us rs | Panic _ => True | _ => False end.
Proof.
  induction n as [|n IH]; intros ts Hn; [destruct ts; [|cbn in Hn; lia]; exists []; split; [done|constructor]|].
  destruct ts as [|k ts]; cbn [r_redirs]; [exists []; split; [done|constructor]|]. destruct (redir_op k) as [[m f]|] eqn:Ek; [|exists []; split; [done|constructor]].
  destruct ts as [|[w|c|] ts]; try done. specialize (IH ts ltac:(cbn in Hn; lia)). destruct (r_redirs ts) as [[rs ts']|m'| | |]; try done. rewrite obind_Ret.
  destruct IH as (us & -> & Hg). exists (k :: TWord w :: us). split; [done|by constructor].
Qed.
Lemma r_redirs_complete us rs rest : g_redirs us rs → sees [langle; rangle] rest = false → r_redirs (us ++ rest) = Ret (rs, rest).
Proof.
  intros Hg Hr. induction Hg as [|k w m f us rs Hk _ IH].
  - cbn [app]. destruct rest as [|k rest]; [done|]. rewrite sees_redir in Hr. cbn [r_redirs]. destruct (redir_op k); [|done]. by rewrite bool_decide_true in Hr by eauto.
  - cbn [app r_redirs]. by rewrite Hk, IH, obind_Ret.
Qed.
Lemma r_args_sound : ∀ fuel n ts, (n < MAXARGS)%nat → match r_args fuel n ts with
  | Ret (ws, rs, ts') => ∃ us, ts = us ++ ts' ∧ g_args us ws rs ∧ (n + length ws < MAXARGS)%nat
  | Panic _ => True | OutOfFuel => (fuel <= length ts)%nat | _ => False end.
Proof.
  induction fuel as [|fuel IH]; intros n ts Hn; cbn [r_args].
  - destruct (sees _ ts); [|lia]. exists []. split; [done|]. split; [constructor|cbn; lia].
  - assert (∃ us, ts = us ++ ts ∧ g_args us [] [] ∧ (n + length (@nil bytes) < MAXARGS)%nat) as Hnil by (exists []; split; [done|]; split; [constructor|cbn; lia]).
    destruct (sees _ ts); [done|]. destruct ts as [|[w|c|] ts]; try done. case_bool_decide as Hmax; [done|].
    pose proof (r_redirs_sound (length ts) ts ltac:(lia)) as Hr. destruct (r_redirs ts) as [[rs ts1]|m| | |]; try done. destruct Hr as (us & -> & Hg). rewrite obind_Ret.
    specialize (IH (S n) ts1 ltac:(lia)). destruct (r_args fuel (S n) ts1) as [[[ws rs'] ts']|m| | |]; try done; [|cbn; rewrite length_app; lia].
    destruct IH as (us' & -> & Hg' & Hl). rewrite obind_Ret. exists (TWord w :: us ++ us'). cbn [app]. rewrite <- app_assoc. split; [done|]. split; [by constructor|cbn; lia].
Qed.
Lemma r_args_complete us ws rs : g_args us ws rs → ∀ fuel n rest, follows [bar; rpar; amp; semi] rest → (length us < fuel)%nat → (n + length ws < MAXARGS)%nat → r_args fuel n (us ++ rest) = Ret (ws, rs, rest).
Proof.
  induction 1 as [|w us rs us' ws rs' Hr Hg IH]; intros fuel n rest Hf Hfuel Hn; (destruct fuel as [|fuel]; [cbn in Hfuel; lia|]); cbn [app r_args].
  - destruct Hf as [->|Hf]; [done|]. by rewrite Hf.
  - cbn [sees]. rewrite bool_decide_false by (cbn in Hn; lia). rewrite <- app_assoc, (r_redirs_complete us rs (us' ++ rest) Hr), obind_Ret.
    + cbn in Hfuel, Hn. rewrite length_app in Hfuel. by rewrite IH by (done || lia).
    + destruct Hg; [by apply (follows_not [bar; rpar; amp; semi])|done].
Qed.
Lemma r_backs_sound ts : ∀ c, ∃ n, ts = replicate n (TSym amp) ++ (r_backs c ts).2 ∧ (r_backs c ts).1 = backs n c.
Proof.
  induction ts as [|k ts IH]; intros c; [by exists 0%nat|]. cbn [r_backs]. destruct (sees [amp] (k :: ts)) eqn:Es; [|by exists 0%nat]. apply sees_one in Es; [|done]. cbn in Es. injection Es as ->.
  destruct (IH (CBack c)) as (n & E1 & E2). exists (S n). cbn [replicate app backs]. by rewrite <- E1.
Qed.
Lemma r_backs_complete n rest : sees [amp] rest = false → ∀ c, r_backs c (replicate n (TSym amp) ++ rest) = (backs n c, rest).
Proof.
  intros Hr. induction n as [|n IH]; intros c; cbn [replicate app]; [|apply IH]. destruct rest as [|k rest]; [done|]. cbn [r_backs backs]. by rewrite Hr.
Qed.

Definition sound (k fuel n : nat) (g : list tok → cmd → Prop) (ts : list tok) (o : outcome (cmd * list tok)) : Prop :=
  match o with
  | Ret (c, ts') => ∃ us, ts = us ++ ts' ∧ g us c
  | OutOfFuel => (fuel < 4 * length ts + k)%nat
  | Panic _ => True
  | _ => False
  end.
Lemma ref_sound n : ∀ fuel ts, (length ts <= n)%nat →
  sound 4 fuel n g_line ts (r_line n fuel ts) ∧ sound 3 fuel n g_pipe ts (r_pipe n fuel ts) ∧ sound 2 fuel n g_exec ts (r_exec n fuel ts) ∧
  (sees [lpar] ts = true → sound 1 fuel n g_exec ts (r_block n fuel ts)).
Proof.
  induction fuel as [|fuel IH]; intros ts Hn; [split_and!; cbn; lia|]. destruct (IH ts Hn) as (_ & IHp & IHe & IHb). split_and!.
  - cbn [r_line]. destruct (r_pipe n fuel ts) as [[c ts1]|m| | |]; try done; [|unfold sound in *; cbn; lia]. destruct IHp as (us & -> & Hg). rewrite obind_Ret.
    destruct (r_backs_sound ts1 c) as (k & E1 & E2). destruct (r_backs c ts1) as [c2 ts2]. cbn [fst snd] in *. subst ts1 c2. destruct (sees [semi] ts2) eqn:Es.
    + apply sees_one in Es; [|done]. assert (length ts2 = S (length (tl ts2))) as Hl by (rewrite Es; done). rewrite !length_app in Hn. destruct (IH (tl ts2) ltac:(lia)) as (IHl & _).
      destruct (r_line n fuel (tl ts2)) as [[c' ts']|m| | |]; try done; [|unfold sound in *; cbn; rewrite !length_app; lia]. destruct IHl as (us' & E & Hg'). rewrite obind_Ret.
      exists (us ++ replicate k (TSym amp) ++ TSym semi :: us'). split; [|by constructor]. rewrite Es, E. by rewrite <- !app_assoc.
    + exists (us ++ replicate k (TSym amp)). split; [by rewrite <- app_assoc|by constructor].
  - cbn [r_pipe]. destruct (r_exec n fuel ts) as [[c ts1]|m| | |]; try done; [|unfold sound in *; cbn; lia]. destruct IHe as (us & -> & Hg). rewrite obind_Ret. destruct (sees [bar] ts1) eqn:Es.
    + apply sees_one in Es; [|done]. assert (length ts1 = S (length (tl ts1))) as Hl by (rewrite Es; done). rewrite !length_app in Hn. destruct (IH (tl ts1) ltac:(lia)) as (_ & IHp' & _).
      destruct (r_pipe n fuel (tl ts1)) as [[c' ts']|m| | |]; try done; [|unfold sound in *; cbn; rewrite !length_app; lia]. destruct IHp' as (us' & E & Hg'). rewrite obind_Ret.
      exists (us ++ TSym bar :: us'). split; [|by constructor]. rewrite Es, E. by rewrite <- !app_assoc.
    + exists us. split; [done|by constructor].
  - cbn [r_exec]. destruct (sees [lpar] ts) eqn:El; [specialize (IHb eq_refl); destruct (r_block n fuel ts) as [[c ts1]|m| | |]; try done; unfold sound in *; lia|].
    pose proof (r_redirs_sound (length ts) ts ltac:(lia)) as Hr. destruct (r_redirs ts) as [[rs ts1]|m| | |]; try done. destruct Hr as (us & -> & Hg). rewrite obind_Ret. rewrite length_app in Hn.
    pose proof (r_args_sound (S n) 0 ts1 ltac:(unfold MAXARGS; lia)) as Ha. destruct (r_args (S n) 0 ts1) as [[[ws rs'] ts']|m| | |]; try done; [|lia]. destruct Ha as (us' & -> & Hg' & Hl). rewrite obind_Ret.
    exists (us ++ us'). split; [by rewrite <- app_assoc|by constructor].
  - intros Es. cbn [r_block]. apply sees_one in Es; [|done]. assert (length ts = S (length (tl ts))) as Hl by (rewrite Es; done). destruct (IH (tl ts) ltac:(lia)) as (IHl & _).
    destruct (r_line n fuel (tl ts)) as [[c ts1]|m| | |]; try done; [|unfold sound in *; cbn; lia]. destruct IHl as (us & E & Hg). rewrite obind_Ret. destruct (sees [rpar] ts1) eqn:Er; [|done]. apply sees_one in Er; [|done].
    pose proof (r_redirs_sound (length (tl ts1)) (tl ts1) ltac:(lia)) as Hr. destruct (r_redirs (tl ts1)) as [[rs ts']|m| | |]; try done. destruct Hr as (us' & E' & Hg'). rewrite obind_Ret.
    exists (TSym lpar :: us ++ TSym rpar :: us'). split; [|by constructor]. rewrite Es, E, Er, E'. cbn [app]. by rewrite <- !app_assoc.
Qed.

Definition complete (k n : nat) (toks : bytes) (ref : nat → list tok → outcome (cmd * list tok)) (us : list tok) (c : cmd) : Prop :=
  ∀ fuel rest, follows toks rest → (4 * length (us ++ rest) + k <= fuel)%nat → (length (us ++ rest) <= n)%nat → ref fuel (us ++ rest) = Ret (c, rest).
Lemma ref_complete n us c : g_line us c → complete 4 n [rpar] (r_line n) us c.
Proof.
  apply (g_line_mut (λ us c _, complete 4 n [rpar] (r_line n) us c) (λ us c _, complete 3 n [rpar; amp; semi] (r_pipe n) us c) (λ us c _, complete 2 n [bar; rpar; amp; semi] (r_exec n) us c)); clear us c.
  - intros us c k _ IH fuel rest Hf Hfuel Hn. destruct fuel as [|fuel]; [lia|]. rewrite <- app_assoc in *. cbn [r_line].
    rewrite IH by (lia || (destruct k; [by apply (follows_sub [rpar])|by right])). rewrite obind_Ret, (r_backs_complete k rest) by (by apply (follows_not [rpar])).
    by rewrite (follows_not [rpar] [semi] rest eq_refl Hf).
  - intros us c k us' c' _ IH _ IH' fuel rest Hf Hfuel Hn. destruct fuel as [|fuel]; [lia|]. rewrite <- !app_assoc in *. cbn [r_line].
    rewrite IH by (lia || (destruct k; by right)). rewrite obind_Ret, (r_backs_complete k) by done. cbn [app sees tl]. change (strchr [semi] semi) with true. cbn iota.
    rewrite !length_app in Hfuel, Hn. cbn [length] in Hfuel, Hn. rewrite IH' by (try done; rewrite ?length_app; lia). done.
  - intros us c _ IH fuel rest Hf Hfuel Hn. destruct fuel as [|fuel]; [lia|]. cbn [r_pipe]. rewrite IH by (lia || by apply (follows_sub [rpar; amp; semi])). rewrite obind_Ret.
    by rewrite (follows_not [rpar; amp; semi] [bar] rest eq_refl Hf).
  - intros us c us' c' _ IH _ IH' fuel rest Hf Hfuel Hn. destruct fuel as [|fuel]; [lia|]. rewrite <- app_assoc in *. cbn [r_pipe app] in *. rewrite IH by (lia || by right). rewrite obind_Ret. cbn [sees tl].
    change (strchr [bar] bar) with true. cbn iota. rewrite length_app in Hfuel, Hn. cbn [length] in *. rewrite IH' by (try done; lia). done.
  - intros us0 rs0 us ws rs Hr Ha Hl fuel rest Hf Hfuel Hn. destruct fuel as [|fuel]; [lia|]. rewrite <- app_assoc in *. cbn [r_exec].
    assert (sees [langle; rangle] (us ++ rest) = false) as Hsr by (destruct Ha; [by apply (follows_not [bar; rpar; amp; semi])|done]).
    assert (sees [lpar] (us0 ++ us ++ rest) = false) as ->.
    { destruct Hr as [|k w m f us0 rs0 Hk _]; [destruct Ha; [by apply (follows_not [bar; rpar; amp; semi])|done]|]. cbn [app sees]. destruct k as [|c|]; [done| |done]. cbn in Hk.
      destruct (Z.eqb_spec c langle) as [->|]; [done|]. destruct (Z.eqb_spec c rangle) as [->|]; done. }
    rewrite (r_redirs_complete _ _ _ Hr Hsr), obind_Ret. rewrite !length_app in Hn. by rewrite (r_args_complete _ _ _ Ha) by (done || (cbn; lia)).
  - intros us c us' rs _ IH Hr fuel rest Hf Hfuel Hn. destruct fuel as [|fuel]; [lia|]. cbn [r_exec app sees]. change (strchr [lpar] lpar) with true. cbn iota.
    cbn [app length] in *. rewrite <- app_assoc in *. cbn [app] in *. destruct fuel as [|fuel]; [lia|]. cbn [r_block tl].
    rewrite IH by (lia || by right). rewrite obind_Ret. cbn [sees tl]. change (strchr [rpar] rpar) with true. cbn iota.
    by rewrite (r_redirs_complete _ _ _ Hr) by (by apply (follows_not [bar; rpar; amp; semi])).
Qed.

(** C19: The parser of the shell is the grammar: for a line without NULs in a buffer,
    if the grammar derives a tree from the tokens of the line, [parsecmd] returns
    that tree, with its words as strings in the line; otherwise it panics with a
    message. It never reads or writes outside the line, and always ends. *)
Theorem parsecmd_correct (t tail : bytes) (R : nat) : Forall (λ c, c ≠ 0) t → (2 * length t + 1 <= R)%nat →
  (∀ c, g_line (lex t) c → ∃ p l h, parsecmd (Sh (t ++ 0 :: tail) [] R) = Ret (p, Sh l h R) ∧ rep (λ q _ w, cstr l q = w) h p c) ∧
  ((∀ c, ¬ g_line (lex t) c) → ∃ msg, parsecmd (Sh (t ++ 0 :: tail) [] R) = Panic msg).
Proof.
  intros Hnz HR. unfold parsecmd. set (s0 := Sh (t ++ 0 :: tail) [] R). rewrite (bind_Ret (gets line) _ s0 (t ++ 0 :: tail) s0 eq_refl), (strlen_app t tail Hnz).
  pose proof (lex_length t) as Hlt. destruct (parse_sim t tail R Hnz (4 * length t + 4)) as (Hsim & _). specialize (Hsim 0%nat [] (lex t) ltac:(lia) ltac:(by rewrite drop_0) eq_refl ltac:(cbn; lia)). fold s0 in Hsim.
  pose proof (ref_sound (length t) (4 * length t + 4) (lex t) Hlt) as (Hsound & _). pose proof (λ c, ref_complete (length t) (lex t) c) as Hcomp. unfold complete in Hcomp.
  assert (∀ c, g_line (lex t) c → r_line (length t) (4 * length t + 4) (lex t) = Ret (c, [])) as Hcomp'.
  { intros c Hg. rewrite <- (app_nil_r (lex t)). apply Hcomp; [done|by left|rewrite app_nil_r; lia|by rewrite app_nil_r]. }
  destruct (r_line (length t) (4 * length t + 4) (lex t)) as [[c ts']|m| | |]; [| |done|done|cbn in Hsound; lia].
  2:{ rewrite (bind_Panic _ _ _ _ Hsim). split; [|by eexists]. intros c Hg. by apply Hcomp' in Hg. }
  destruct Hsim as (p & s1 & h & E & [M1 M2 _ _] & Hrep). rewrite (bind_Ret _ _ _ _ _ E).
  destruct (peek_run t tail R Hnz s1 h [] M1 eq_refl) as (s2 & E2 & Hs2 & Hl2 & Hend). rewrite (bind_Ret _ _ _ _ _ E2). rewrite M2 in *. destruct ts' as [|k ts'].
  - rewrite bool_decide_true by (by apply Hend). cbn [negb]. rewrite (bind_Ret (gets nodes) _ (Sh (t ++ 0 :: tail) h R) h (Sh (t ++ 0 :: tail) h R) eq_refl).
    destruct (nulterminate_run t tail R h p c Hrep (length h) (t ++ 0 :: tail) (rep_lt _ _ _ _ Hrep)) as (l & E3 & Hl & _ & Hr); [split; [done|by left]|]. rewrite (bind_Ret _ _ _ _ _ E3). split.
    + intros c' Hg. apply Hcomp' in Hg. injection Hg as <-. exists p, l, h. split; [done|]. eapply rep_str; [|exact Hr]. intros q eq w. by apply (ends_cstr t tail Hnz).
    + intros Hno. destruct Hsound as (us & E4 & Hg). rewrite app_nil_r in E4. subst us. by apply Hno in Hg.
  - rewrite bool_decide_false. 2:{ intros ->. rewrite drop_all in Hl2. done. } cbn [negb]. split; [|by eexists]. intros c' Hg. by apply Hcomp' in Hg.
Qed.

(** "ls -l >out|wc", in a buffer of 100 characters. *)
Definition demo_line : bytes := [108; 115; 32; 45; 108; 32; 62; 111; 117; 116; 124; 119; 99; 10].
Lemma parsecmd_correct_witness : ∃ p l h, parsecmd (Sh (demo_line ++ 0 :: replicate 85 0) [] 100) = Ret (p, Sh l h 100) ∧
  rep (λ q _ w, cstr l q = w) h p (CPipe (CRedir (CExec [[108; 115]; [45; 108]]) [111; 117; 116] 1537 1) (CExec [[119; 99]])).
Proof.
  apply (parsecmd_correct demo_line (replicate 85 0) 100); [by repeat constructor|cbn; lia|].
  destruct (ref_sound 14 100 (lex demo_line) ltac:(cbn; lia)) as (Hs & _). destruct Hs as (us & E & Hg). rewrite app_nil_r in E. rewrite E. exact Hg.
Defined.
