(* ===== verification/Vfs.v ===== *)
(** * The inode table: [iget], [idup], [iput] of [kernel/vfs.c], with the pool of
      [kernel/s5.c] and the mount table of [kernel/vfsmount.c]

    The state is the one of [S5]: [itable] and [pool], for one device. An entry of
    the table whose count is 0 is free. The mount table is a parameter, [mpoint]:
    an entry names the inode mounted on and the root of what is mounted there, [None]
    is an entry not in use, whose null pointers the code follows.

    [vfs_references] says, for a machine without mounts, that the counts are those of
    the references given out and not yet put back, that an inode has one entry, and
    that each entry in use has a pool entry of its own. *)
From S2P Require Import Prelude BlockCache Bio Log LogBio Trans TransLog S5 S5Bits S5Map S5Io S5Log S5Inode S5Dir.

Definition NINODE : nat := 50.
Definition ROOTINO : Z := 1.
Definition MOUNTSIZE : nat := 2.
Definition T_MOUNT : Z := 4.

Section code.
Context {W B U : Type} `{HT : Trans W B} `{HU : UserMem U} (sb : s5_superblock) (mpoint : list (option (nat * nat))).
Abbreviation FS := (M (s5 W U)).

Definition set_ref (r : Z) (ip : inode) : inode :=
  Inode (inum ip) r (i_busy ip) (i_valid ip) (i_private ip) (i_type ip) (i_major ip) (i_minor ip) (nlink ip) (i_size ip).
Definition set_type (t : Z) (ip : inode) : inode :=
  Inode (inum ip) (i_ref ip) (i_busy ip) (i_valid ip) (i_private ip) t (i_major ip) (i_minor ip) (nlink ip) (i_size ip).
Definition set_flags (busy valid : bool) (ip : inode) : inode :=
  Inode (inum ip) (i_ref ip) busy valid (i_private ip) (i_type ip) (i_major ip) (i_minor ip) (nlink ip) (i_size ip).

(** The root of what is mounted on inode [i]; the inode a root is mounted on; whether
    an inode is such a root. *)
Fixpoint mtable_find (l : list (option (nat * nat))) (key : nat * nat → nat) (ip : inode) : FS (option (nat * nat)) :=
  match l with
  | [] => mret None
  | None :: _ => fault
  | Some e :: l => mi ← get_inode (key e); if inum mi =? inum ip then mret (Some e) else mtable_find l key ip
  end.
Definition mtablertinode (i : nat) : FS (option nat) := ip ← get_inode i; e ← mtable_find mpoint fst ip; mret (snd <$> e).
Definition mtablemntinode (i : nat) : FS (option nat) := ip ← get_inode i; e ← mtable_find mpoint snd ip; mret (fst <$> e).
Fixpoint root_find (l : list (option (nat * nat))) (ip : inode) : FS bool :=
  match l with
  | [] => mret false
  | None :: l => root_find l ip
  | Some (_, r) :: l => ri ← get_inode r; if inum ri =? inum ip then mret true else root_find l ip
  end.
Definition isinoderoot (i : nat) : FS bool := ip ← get_inode i; root_find mpoint ip.

(** An entry of the pool for the inode. *)
Definition alloc_s5_inode : FS (option nat) :=
  p ← gets pool;
  match list_find (λ e, s5_used e = false) p with
  | Some (k, _) => modify (λ s, S5 (tr s) (um s) (itable s) (alter (λ e, S5Inode true (addrs e)) k (pool s))) ;; mret (Some k)
  | None => mret None
  end.
Definition s5_fill_inode (i : nat) : FS () :=
  p ← alloc_s5_inode;
  match p with
  | None => panic "No s5 inode available"
  | Some k => upd_inode i (λ ip, Inode (inum ip) (i_ref ip) (i_busy ip) (i_valid ip) k (i_type ip) (i_major ip) (i_minor ip) (nlink ip) (i_size ip))
  end.
Definition s5_cleanup (ip : inode) : FS () :=
  modify (λ s, S5 (tr s) (um s) (itable s) (alter (λ e, S5Inode false (replicate (length (addrs e)) 0)) (i_private ip) (pool s))).

(** The entry of inode [n], or else the first free entry. *)
Fixpoint iget_scan (t : list inode) (k : nat) (n : Z) (empty : option nat) : nat + option nat :=
  match t with
  | [] => inr empty
  | ip :: t =>
      if (0 <? i_ref ip) && (inum ip =? n) then inl k
      else iget_scan t (S k) n (match empty with None => if i_ref ip =? 0 then Some k else None | Some _ => empty end)
  end.
Definition incr_ref (i : nat) : FS () := upd_inode i (λ ip, set_ref (s32 (i_ref ip + 1)) ip).
Definition s5_iget (n : Z) : FS nat :=
  t ← gets itable;
  match iget_scan t 0 n None with
  | inl i =>
      ip ← get_inode i;
      if i_type ip =? T_MOUNT then
        r ← mtablertinode i;
        match r with None => panic "Invalid Inode on Mount Table" | Some r => incr_ref r ;; mret r end
      else incr_ref i ;; mret i
  | inr None => panic "iget: no inodes"
  | inr (Some i) =>
      upd_inode i (λ ip, Inode n 1 false false (i_private ip) (i_type ip) (i_major ip) (i_minor ip) (nlink ip) (i_size ip)) ;;
      s5_fill_inode i ;; mret i
  end.
Definition s5_getroot : FS nat := s5_iget ROOTINO.
Definition idup (i : nat) : FS nat := incr_ref i ;; mret i.
Definition iput (i : nat) : FS () :=
  ip ← get_inode i;
  (if (i_ref ip =? 1) && i_valid ip && (nlink ip =? 0) then
     if i_busy ip then panic "iput busy" else
     upd_inode i (set_busy true) ;;
     s5_itrunc sb i ;;
     upd_inode i (set_type 0) ;;
     s5_iupdate sb i ;;
     upd_inode i (set_flags false false)
   else mret ()) ;;
  upd_inode i (λ ip, set_ref (s32 (i_ref ip - 1)) ip) ;;
  ip ← get_inode i;
  if i_ref ip =? 0 then s5_cleanup ip else mret ().
Definition generic_iunlock (i : nat) : FS () :=
  ip ← get_inode i;
  if negb (i_busy ip) || (i_ref ip <? 1) then panic "iunlock" else upd_inode i (set_busy false).
Definition iunlockput (i : nat) : FS () := generic_iunlock i ;; iput i.
End code.

(** ** References *)

(** What the counts are about: the number, the count and the pool entry of each
    entry of the table, and which pool entries are taken. *)
Definition key (ip : inode) : Z * Z * nat := (inum ip, i_ref ip, i_private ip).
Section refs.
Context {W U : Type}.
Definition keys (s : s5 W U) : list (Z * Z * nat) := key <$> itable s.
Definition used (s : s5 W U) : list bool := s5_used <$> pool s.
(** An operation on contents, fields and blocks. *)
Definition same_refs (s s' : s5 W U) : Prop := keys s' = keys s ∧ used s' = used s.
End refs.

Definition uses_of (H : list nat) (i : nat) : Z := Z.of_nat (count_occ Nat.eq_dec H i).
Record refs_ok (ks : list (Z * Z * nat)) (us : list bool) (H : list nat) : Prop := {
  ro_count : ∀ i n r p, ks !! i = Some (n, r, p) → r = uses_of H i;
  ro_one : ∀ i j n r p n' r' p', ks !! i = Some (n, r, p) → ks !! j = Some (n', r', p') → 0 < r → 0 < r' → i ≠ j → n ≠ n' ∧ p ≠ p';
  ro_used : ∀ i n r p, ks !! i = Some (n, r, p) → 0 < r → us !! p = Some true;
  ro_owner : ∀ p, us !! p = Some true → ∃ i n r, ks !! i = Some (n, r, p) ∧ 0 < r;
  ro_length : length us = length ks;
  ro_held : ∀ i, i ∈ H → (i < length ks)%nat;
}.

Section steps.
Context {W B U : Type} `{HT : Trans W B} `{HU : UserMem U} (sb : s5_superblock) (mpoint : list (option (nat * nat))).
Implicit Types s : s5 W U.

(** What processes do with the references they hold. *)
Inductive ref_step : s5 W U * list nat → s5 W U * list nat → Prop :=
  | rs_iget s H n i s' : Z.of_nat (length H) < 2 ^ 31 - 1 → s5_iget mpoint n s = Ret (i, s') → ref_step (s, H) (s', i :: H)
  | rs_idup s H i s' : Z.of_nat (length H) < 2 ^ 31 - 1 → i ∈ H → idup i s = Ret (i, s') → ref_step (s, H) (s', i :: H)
  | rs_iput s H1 i H2 s' : iput sb i s = Ret ((), s') → ref_step (s, H1 ++ i :: H2) (s', H1 ++ H2)
  | rs_ilock s H i s' : i ∈ H → s5_ilock sb i s = Ret ((), s') → ref_step (s, H) (s', H)
  | rs_iunlock s H i s' : i ∈ H → generic_iunlock i s = Ret ((), s') → ref_step (s, H) (s', H)
  | rs_readi s H i user dst off n r s' : i ∈ H → s5_readi sb i user dst off n s = Ret (r, s') → ref_step (s, H) (s', H)
  | rs_writei s H i user src off n r s' : i ∈ H → s5_writei sb i user src off n s = Ret (r, s') → ref_step (s, H) (s', H)
  | rs_itrunc s H i s' : i ∈ H → s5_itrunc sb i s = Ret ((), s') → ref_step (s, H) (s', H)
  | rs_dirlookup s H de dp name r s' : Z.of_nat (length H) < 2 ^ 31 - 1 → s5_dirlookup sb de (s5_iget mpoint) dp name s = Ret (r, s') →
      ref_step (s, H) (s', match r with Some (i, _) => i :: H | None => H end)
  | rs_ialloc s H type i s' : Z.of_nat (length H) < 2 ^ 31 - 1 → s5_ialloc sb (s5_iget mpoint) type s = Ret (i, s') → ref_step (s, H) (s', i :: H)
  | rs_other s H s' : same_refs s s' → ref_step (s, H) (s', H).
End steps.

(** ** Operations that leave the references alone *)

Section inert.
Context {W B U : Type} `{HT : Trans W B} `{HU : UserMem U} (sb : s5_superblock).
Implicit Types s : s5 W U.
Definition inert {A} (m : M (s5 W U) A) : Prop := ∀ s, may m s (λ _ s', same_refs s s').

Lemma same_refs_refl s : same_refs s s.
Proof. done. Qed.
Lemma same_refs_trans s1 s2 s3 : same_refs s1 s2 → same_refs s2 s3 → same_refs s1 s3.
Proof. intros [E1 E2] [E3 E4]. split; congruence. Qed.
Lemma inert_bind {A C} (m : M (s5 W U) A) (f : A → M (s5 W U) C) : inert m → (∀ a, inert (f a)) → inert (m ≫= f).
Proof.
  intros Hm Hf s. apply may_bind. specialize (Hm s). unfold may in *. destruct (m s) as [[a s1]| | | |]; try done.
  specialize (Hf a s1). unfold may in Hf. destruct (f a s1) as [[b s2]| | | |]; try done. by eapply same_refs_trans.
Qed.
Lemma inert_ret {A} (a : A) : inert (mret a).
Proof. done. Qed.
Lemma inert_gets {A} (f : s5 W U → A) : inert (gets f).
Proof. done. Qed.
Lemma inert_fault {A} : inert (@fault _ A).
Proof. done. Qed.
Lemma inert_panic {A} msg : inert (@panic _ A msg).
Proof. done. Qed.
Lemma inert_block {A} : inert (@would_block _ A).
Proof. done. Qed.
Lemma inert_fuel {A} : inert (@out_of_fuel _ A).
Proof. done. Qed.
Lemma inert_oget {A} (o : option A) : inert (oget o).
Proof. by destruct o. Qed.
Lemma inert_tr {A} (m : M W A) : inert (in_tr m).
Proof. intros s. unfold may, in_tr. by destruct (m (tr s)) as [[a w]| | | |]. Qed.
Lemma inert_um {A} (m : M U A) : inert (in_um m).
Proof. intros s. unfold may, in_um. by destruct (m (um s)) as [[a u]| | | |]. Qed.
Lemma inert_get_inode i : inert (get_inode i).
Proof. apply inert_bind; [apply inert_gets|intros; apply inert_oget]. Qed.
Lemma inert_get_addrs ip : inert (get_addrs ip).
Proof. apply inert_bind; [apply inert_gets|]. intros p. apply inert_bind; [apply inert_oget|intros; apply inert_ret]. Qed.
Lemma inert_upd i f : (∀ ip, key (f ip) = key ip) → inert (upd_inode i f).
Proof.
  intros Hf s. split; [|done]. unfold keys. cbn. apply list_eq. intros k. rewrite !list_lookup_fmap. destruct (decide (k = i)) as [->|Hk]; [|by rewrite list_lookup_alter_ne].
  rewrite list_lookup_alter_eq. destruct (itable s !! i) as [ip|]; [|done]. cbn. by rewrite Hf.
Qed.
Lemma used_alter (l : list s5_inode) k f : (∀ e, s5_used (f e) = s5_used e) → s5_used <$> alter f k l = s5_used <$> l.
Proof.
  intros Hf. apply list_eq. intros j. rewrite !list_lookup_fmap. destruct (decide (j = k)) as [->|Hk]; [|by rewrite list_lookup_alter_ne].
  rewrite list_lookup_alter_eq. destruct (l !! k) as [e|]; [|done]. cbn. by rewrite Hf.
Qed.
Lemma inert_set_addr ip k a : inert (set_addr ip k a).
Proof. intros s. split; [done|]. by apply used_alter. Qed.
Lemma inert_set_addrs ip l : inert (set_addrs ip l).
Proof. intros s. split; [done|]. by apply used_alter. Qed.
Lemma inert_mapM {A} (f : A → M (s5 W U) ()) l : (∀ a, inert (f a)) → inert (mapM_ f l).
Proof. intros Hf. induction l as [|a l IH]; [apply inert_ret|]. cbn. apply inert_bind; [apply Hf|done]. Qed.
End inert.

Create HintDb inert discriminated.
#[local] Hint Resolve inert_ret inert_gets inert_fault inert_panic inert_block inert_fuel inert_oget inert_tr inert_um inert_get_inode inert_get_addrs inert_set_addr inert_set_addrs : inert.
(** Through the branches and binds of an operation. *)
Ltac inert_tac :=
  repeat first
    [ solve [eauto with inert]
    | apply inert_bind; [|intros]
    | apply inert_mapM; intros
    | apply inert_upd; intros; reflexivity
    | case_match ].

Section inert_ops.
Context {W B U : Type} `{HT : Trans W B} `{HU : UserMem U} (sb : s5_superblock).
Implicit Types s : s5 W U.

Lemma inert_field d o n : @inert W U _ (field d o n).
Proof using. unfold field. inert_tac. Qed.
Lemma inert_iupdate i : @inert W U _ (s5_iupdate sb i).
Proof using. unfold s5_iupdate. inert_tac. Qed.
Lemma inert_words n d : ∀ o, @inert W U _ (words n d o).
Proof using. induction n as [|n IH]; intros o; cbn [words]; [apply inert_ret|]. apply inert_bind; [apply inert_field|intros; apply inert_bind; [apply IH|intros; apply inert_ret]]. Qed.
Lemma inert_itrunc i : @inert W U _ (s5_itrunc sb i).
Proof using. unfold s5_itrunc, itrunc_indirect. pose proof inert_iupdate. inert_tac. Qed.
Lemma inert_bmap i bn : @inert W U _ (s5_bmap sb i bn).
Proof using. unfold s5_bmap. inert_tac. Qed.
Lemma inert_readi i user dst off n : @inert W U _ (s5_readi sb i user dst off n).
Proof using.
  assert (∀ fuel dst off n tot, @inert W U _ (readi_loop sb fuel i user dst off n tot)) as Hl.
  { pose proof (inert_bmap i). induction fuel as [|fuel IH]; intros; cbn [readi_loop]; inert_tac. }
  unfold s5_readi. inert_tac.
Qed.
Lemma inert_writei i user src off n : @inert W U _ (s5_writei sb i user src off n).
Proof using.
  assert (∀ fuel src off n tot, @inert W U _ (writei_loop sb fuel i user src off n tot)) as Hl.
  { pose proof (inert_bmap i). induction fuel as [|fuel IH]; intros; cbn [writei_loop]; inert_tac. }
  pose proof inert_iupdate. unfold s5_writei. inert_tac.
Qed.
Lemma inert_iunlock i : @inert W U _ (generic_iunlock i).
Proof using. unfold generic_iunlock. inert_tac. Qed.
Lemma inert_dirlookup_loop de dp name : ∀ fuel off, @inert W U _ (dirlookup_loop sb de fuel dp name off).
Proof using. pose proof inert_readi. induction fuel as [|fuel IH]; intros off; cbn [dirlookup_loop]; unfold read_entry, load_de; inert_tac. Qed.
Lemma inert_ialloc_loop type : ∀ fuel inum, @inert W U _ (ialloc_loop sb fuel inum type).
Proof using. pose proof inert_field. induction fuel as [|fuel IH]; intros inum; cbn [ialloc_loop]; inert_tac. Qed.

(** [ilock] fills in the fields of the entry it has locked. *)
Lemma field_pure d o n s : may (field d o n) s (λ _ s', s' = s).
Proof using. unfold field. apply may_bind. unfold may. by destruct (sub_bytes d o n). Qed.
Lemma may_pure {A C} (m : M (s5 W U) A) (f : A → M (s5 W U) C) s P : may m s (λ _ s', s' = s) → (∀ a, may (f a) s P) → may (m ≫= f) s P.
Proof using. intros Hm Hf. apply may_bind. unfold may in *. destruct (m s) as [[a s1]| | | |]; try done. subst s1. apply Hf. Qed.
Lemma from_dinode_pure d o ip s : may (from_dinode d o ip) s (λ ip' s', s' = s ∧ key ip' = key ip).
Proof using. unfold from_dinode. do 5 (apply may_pure; [apply field_pure|intros]). done. Qed.
Lemma words_pure n d : ∀ o s, may (words n d o) s (λ _ s', s' = s).
Proof using. induction n as [|n IH]; intros o s; cbn [words]; [done|]. apply may_pure; [apply field_pure|]. intros a. apply may_pure; [apply IH|done]. Qed.
Lemma inert_load i d (rest : inode → M (s5 W U) ()) : (∀ ip, inert (rest ip)) →
  inert (ip ← get_inode i; ip' ← from_dinode d (dinode_off ip) ip; l ← words 13 d (dinode_off ip + 12); upd_inode i (λ _, ip') ;; set_addrs ip l ;; rest ip').
Proof using.
  intros Hrest s. apply may_bind. unfold may at 1. unfold get_inode, gets, mbind, M_bind. cbn. destruct (itable s !! i) as [ip|] eqn:Ei; [|done]. cbn.
  apply may_bind. pose proof (from_dinode_pure d (dinode_off ip) ip s) as Hf. unfold may in *. destruct (from_dinode d (dinode_off ip) ip s) as [[ip' s1]| | | |]; try done. destruct Hf as [-> Hk].
  change (may (l ← words 13 d (dinode_off ip + 12); upd_inode i (λ _, ip') ;; set_addrs ip l ;; rest ip') s (λ _ s', same_refs s s')).
  apply may_pure; [apply words_pure|]. intros l. set (s1 := S5 (tr s) (um s) (alter (λ _, ip') i (itable s)) (pool s)).
  assert (same_refs s s1) as Hs1.
  { split; [|done]. unfold keys. cbn. rewrite (alter_insert _ _ _ _ Ei), list_fmap_insert, Hk. apply list_insert_id. by rewrite list_lookup_fmap, Ei. }
  assert (inert (set_addrs ip l ;; rest ip')) as Hin by (apply inert_bind; [apply inert_set_addrs|intros; apply Hrest]). specialize (Hin s1).
  unfold may in *. change ((upd_inode i (λ _, ip') ;; set_addrs ip l ;; rest ip') s) with ((set_addrs ip l ;; rest ip') s1). destruct ((set_addrs ip l ;; rest ip') s1) as [[b s2]| | | |]; try done. by eapply same_refs_trans.
Qed.
Lemma inert_ilock i : @inert W U _ (s5_ilock sb i).
Proof using.
  unfold s5_ilock. apply inert_bind; [apply inert_get_inode|intros ip]. case_match; [apply inert_panic|]. case_match; [apply inert_block|].
  apply inert_bind; [apply inert_upd; done|intros _]. case_match; [apply inert_ret|]. case_match; [apply inert_panic|].
  apply inert_bind; [apply inert_tr|intros bp]. apply inert_bind; [apply inert_tr|intros d]. apply inert_load. intros ip'. inert_tac.
Qed.
End inert_ops.

(** ** The counts *)

Lemma uses_cons i H j : uses_of (i :: H) j = uses_of H j + (if decide (i = j) then 1 else 0).
Proof. unfold uses_of. cbn [count_occ]. destruct (Nat.eq_dec i j), (decide (i = j)); lia. Qed.
Lemma uses_middle H1 i H2 j : uses_of (H1 ++ i :: H2) j = uses_of (H1 ++ H2) j + (if decide (i = j) then 1 else 0).
Proof. unfold uses_of. rewrite !count_occ_app. cbn [count_occ]. destruct (Nat.eq_dec i j), (decide (i = j)); lia. Qed.
Lemma uses_pos H i : 0 < uses_of H i ↔ i ∈ H.
Proof. unfold uses_of. rewrite list_elem_of_In, (count_occ_In Nat.eq_dec). lia. Qed.
Lemma uses_range H i : 0 <= uses_of H i <= Z.of_nat (length H).
Proof. unfold uses_of. pose proof (count_occ_bound Nat.eq_dec i H). lia. Qed.

Section refs_lists.
Implicit Types (ks : list (Z * Z * nat)) (us : list bool) (H : list nat).

Lemma refs_incr ks us H i n r p : refs_ok ks us H → ks !! i = Some (n, r, p) → 0 < r → refs_ok (<[i := (n, r + 1, p)]> ks) us (i :: H).
Proof.
  intros [] Hi Hr. pose proof (lookup_lt_Some _ _ _ Hi) as Hlt.
  assert (∀ j n' r' p', <[i := (n, r + 1, p)]> ks !! j = Some (n', r', p') → ∃ r0, ks !! j = Some (n', r0, p') ∧ (0 < r' → 0 < r0) ∧ r' = r0 + (if decide (i = j) then 1 else 0)) as Hl.
  { intros j n' r' p'. rewrite list_lookup_insert. case_decide as Hc; [destruct Hc as [<- _]; intros [= <- <- <-]; exists r; by rewrite decide_True|].
    intros Hj. exists r'. split; [done|]. split; [done|]. rewrite decide_False; [lia|]. intros ->. by apply Hc. }
  split.
  - intros j n' r' p' (r0 & Hj & _ & ->)%Hl. rewrite uses_cons. by rewrite (ro_count0 _ _ _ _ Hj).
  - intros j k n1 r1 p1 n2 r2 p2 (r0 & Hj & H1 & _)%Hl (r0' & Hk & H2 & _)%Hl Hr1 Hr2. by eapply ro_one0; eauto.
  - intros j n' r' p' (r0 & Hj & H1 & _)%Hl Hr'. by eapply ro_used0; eauto.
  - intros q (j & n' & r' & Hj & Hr')%ro_owner0. destruct (decide (i = j)) as [<-|Hne].
    + rewrite Hi in Hj. injection Hj as -> -> ->. exists i, n', (r' + 1). rewrite list_lookup_insert_eq by done. split; [done|lia].
    + exists j, n', r'. by rewrite list_lookup_insert_ne.
  - by rewrite length_insert.
  - intros j [->|Hj]%elem_of_cons; rewrite length_insert; [done|by apply ro_held0].
Qed.
Lemma refs_take ks us H i n n0 p0 q : refs_ok ks us H → ks !! i = Some (n0, 0, p0) → (∀ j m r p, ks !! j = Some (m, r, p) → 0 < r → m ≠ n) → us !! q = Some false →
  refs_ok (<[i := (n, 1, q)]> ks) (<[q := true]> us) (i :: H).
Proof.
  intros [] Hi Hn Hq. pose proof (lookup_lt_Some _ _ _ Hi) as Hlt. pose proof (lookup_lt_Some _ _ _ Hq) as Hqlt. pose proof (ro_count0 _ _ _ _ Hi) as H0.
  assert (∀ j m r p, ks !! j = Some (m, r, p) → 0 < r → p ≠ q ∧ j ≠ i) as Hpq.
  { intros j m r p Hj Hr. split; [intros ->; rewrite (ro_used0 _ _ _ _ Hj Hr) in Hq; done|]. intros ->. rewrite Hi in Hj. injection Hj as _ <- _. lia. }
  split.
  - intros j n' r' p'. rewrite list_lookup_insert, uses_cons. case_decide as Hc; [destruct Hc as [<- _]; intros [= <- <- <-]; rewrite decide_True by done; lia|].
    intros Hj. rewrite (ro_count0 _ _ _ _ Hj), decide_False; [lia|]. intros ->. by apply Hc.
  - intros j k n1 r1 p1 n2 r2 p2. rewrite !list_lookup_insert. case_decide as Hc1; case_decide as Hc2.
    + intros _ _ _ _ Hne. by destruct Hc1 as [<- _], Hc2 as [<- _].
    + intros [= <- <- <-] Hk _ Hr2 _. split; [symmetry; by eapply Hn|symmetry; by eapply Hpq].
    + intros Hj [= <- <- <-] Hr1 _ _. split; [by eapply Hn|by eapply Hpq].
    + intros Hj Hk. by eapply ro_one0.
  - intros j n' r' p'. rewrite list_lookup_insert. case_decide as Hc; [intros [= <- <- <-] _; by apply list_lookup_insert_eq|].
    intros Hj Hr. rewrite list_lookup_insert_ne; [by eapply ro_used0|]. intros ->. by destruct (Hpq _ _ _ _ Hj Hr).
  - intros p. rewrite list_lookup_insert. case_decide as Hc; [destruct Hc as [<- _]; intros _; exists i, n, 1; by rewrite list_lookup_insert_eq|].
    intros (j & m & r & Hj & Hr)%ro_owner0. exists j, m, r. rewrite list_lookup_insert_ne; [done|]. intros <-. by destruct (Hpq _ _ _ _ Hj Hr).
  - by rewrite !length_insert.
  - intros j [->|Hj]%elem_of_cons; rewrite length_insert; [done|by apply ro_held0].
Qed.
Lemma refs_decr ks us H1 H2 i n r p : refs_ok ks us (H1 ++ i :: H2) → ks !! i = Some (n, r, p) →
  refs_ok (<[i := (n, r - 1, p)]> ks) (if r - 1 =? 0 then <[p := false]> us else us) (H1 ++ H2).
Proof.
  intros [] Hi. pose proof (lookup_lt_Some _ _ _ Hi) as Hlt. pose proof (ro_count0 _ _ _ _ Hi) as Hr. rewrite uses_middle, decide_True in Hr by done. pose proof (uses_range (H1 ++ H2) i) as Hur.
  pose proof (ro_used0 _ _ _ _ Hi ltac:(lia)) as Hpu. pose proof (lookup_lt_Some _ _ _ Hpu) as Hplt.
  assert (∀ j n' r' p', <[i := (n, r - 1, p)]> ks !! j = Some (n', r', p') → ∃ r0, ks !! j = Some (n', r0, p') ∧ (0 < r' → 0 < r0) ∧ r0 = r' + (if decide (i = j) then 1 else 0)) as Hl.
  { intros j n' r' p'. rewrite list_lookup_insert. case_decide as Hc; [destruct Hc as [<- _]; intros [= <- <- <-]; exists r; rewrite decide_True by done; split_and!; [done|lia|lia]|].
    intros Hj. exists r'. split; [done|]. split; [done|]. rewrite decide_False; [lia|]. intros ->. by apply Hc. }
  split.
  - intros j n' r' p' (r0 & Hj & _ & E)%Hl. pose proof (ro_count0 _ _ _ _ Hj) as Hc. rewrite uses_middle in Hc. lia.
  - intros j k n1 r1 p1 n2 r2 p2 (r0 & Hj & H3 & _)%Hl (r0' & Hk & H4 & _)%Hl Hr1 Hr2. by eapply ro_one0; eauto.
  - intros j n' r' p' Hj Hr'. pose proof (Hl _ _ _ _ Hj) as (r0 & Hj0 & H3 & E). pose proof (ro_used0 _ _ _ _ Hj0 (H3 Hr')) as Hp'.
    destruct (Z.eqb_spec (r - 1) 0); [|done]. rewrite list_lookup_insert_ne; [done|]. intros <-. destruct (decide (i = j)) as [<-|Hne]; [rewrite list_lookup_insert_eq in Hj by done; simplify_eq; lia|].
    by destruct (ro_one0 _ _ _ _ _ _ _ _ Hi Hj0 ltac:(lia) (H3 Hr') Hne).
  - intros q Hq. assert (us !! q = Some true ∧ (r - 1 = 0 → q ≠ p)) as [Hq' Hqp].
    { destruct (Z.eqb_spec (r - 1) 0); [|done]. rewrite list_lookup_insert in Hq. case_decide as Hc; [done|]. split; [done|]. intros _ ->. by apply Hc. }
    apply ro_owner0 in Hq' as (j & m & r' & Hj & Hr'). destruct (decide (i = j)) as [<-|Hne].
    + rewrite Hi in Hj. injection Hj as <- <- <-. exists i, n, (r - 1). rewrite list_lookup_insert_eq by done. split; [done|]. destruct (decide (r - 1 = 0)) as [E|]; [by destruct (Hqp E)|lia].
    + exists j, m, r'. by rewrite list_lookup_insert_ne.
  - by destruct (r - 1 =? 0); rewrite !length_insert.
  - intros j Hj. rewrite length_insert. apply ro_held0. apply elem_of_app in Hj as [?|?]; apply elem_of_app; [by left|right; by right].
Qed.
(** Where an entry of the table is free, the pool has one. *)
Lemma refs_pool ks us H i n p : refs_ok ks us H → ks !! i = Some (n, 0, p) → ∃ q, us !! q = Some false.
Proof.
  intros [] Hi. destruct (decide (Forall (λ b, b = true) us)) as [Hall|Hnot].
  - exfalso. assert (∀ q, (q < length us)%nat → ∃ j, (j < length ks)%nat ∧ j ≠ i ∧ ∃ m r, ks !! j = Some (m, r, q) ∧ 0 < r) as Hown.
    { intros q Hq. destruct (lookup_lt_is_Some_2 us q Hq) as [b Hb]. rewrite Forall_forall in Hall. rewrite (Hall b) in Hb by (by eapply list_elem_of_lookup_2).
      destruct (ro_owner0 q Hb) as (j & m & r & Hj & Hr). exists j. split; [by eapply lookup_lt_Some|]. split; [|eauto]. intros ->. rewrite Hi in Hj. injection Hj as _ <- _. lia. }
    set (ps := (λ k : Z * Z * nat, k.2) <$> (take i ks ++ drop (S i) ks)).
    assert (seq 0 (length us) ⊆+ ps) as Hsub.
    { apply NoDup_submseteq; [apply NoDup_seq|]. intros q Hq%elem_of_seq. destruct (Hown q ltac:(lia)) as (j & _ & Hji & m & r & Hj & _). apply list_elem_of_fmap. exists (m, r, q). split; [done|].
      apply elem_of_app. destruct (decide (j < i)%nat); [left|right].
      - apply (list_elem_of_lookup_2 _ j). by rewrite lookup_take_lt.
      - apply (list_elem_of_lookup_2 _ (j - S i)). rewrite lookup_drop. by replace (S i + (j - S i))%nat with j by lia. }
    apply submseteq_length in Hsub. unfold ps in Hsub. rewrite length_seq, length_fmap, length_app, length_take, length_drop in Hsub. pose proof (lookup_lt_Some _ _ _ Hi). lia.
  - apply not_Forall_Exists in Hnot; [|apply _]. apply Exists_exists in Hnot as (b & Hb & Hne). apply list_elem_of_lookup in Hb as [q Hq]. exists q. rewrite Hq. destruct b; [by destruct Hne|done].
Qed.
End refs_lists.

(** ** What the operations on references do *)

Lemma iget_scan_spec n : ∀ (t : list inode) k e,
  match iget_scan t k n e with
  | inl i => ∃ ip, (k <= i)%nat ∧ t !! (i - k)%nat = Some ip ∧ 0 < i_ref ip ∧ inum ip = n
  | inr e' => (∀ ip, ip ∈ t → 0 < i_ref ip → inum ip ≠ n) ∧
      match e' with
      | Some i => e = Some i ∨ ∃ ip, (k <= i)%nat ∧ t !! (i - k)%nat = Some ip ∧ i_ref ip = 0
      | None => e = None ∧ ∀ ip, ip ∈ t → i_ref ip ≠ 0
      end
  end.
Proof.
  induction t as [|ip t IH]; intros k e; cbn [iget_scan].
  - split; [by intros ? ?%elem_of_nil|]. destruct e; [by left|]. split; [done|]. by intros ? ?%elem_of_nil.
  - destruct ((0 <? i_ref ip) && (inum ip =? n)) eqn:E.
    { apply andb_true_iff in E as [?%Z.ltb_lt ?%Z.eqb_eq]. exists ip. by rewrite Nat.sub_diag. }
    specialize (IH (S k) (match e with None => if i_ref ip =? 0 then Some k else None | Some _ => e end)).
    destruct (iget_scan t (S k) n _) as [i|e'].
    + destruct IH as (ip' & Hi & Hl & H). exists ip'. split; [lia|]. split; [|done]. by replace (i - k)%nat with (S (i - S k)) by lia.
    + destruct IH as [Hn He]. split.
      { intros ip' [->|Hip]%elem_of_cons Hr; [|by apply Hn]. apply andb_false_iff in E as [E|E]; [apply Z.ltb_ge in E; lia|by apply Z.eqb_neq]. }
      destruct e' as [i|].
      * destruct He as [He|(ip' & Hi & Hl & Hr)]; [|right; exists ip'; split; [lia|]; split; [|done]; by replace (i - k)%nat with (S (i - S k)) by lia].
        destruct e as [j|]; [by left|]. destruct (Z.eqb_spec (i_ref ip) 0); [|done]. injection He as <-. right. exists ip. by rewrite Nat.sub_diag.
      * destruct He as [He Hr]. destruct e; [done|]. destruct (Z.eqb_spec (i_ref ip) 0); [done|]. split; [done|]. intros ip' [->|Hip]%elem_of_cons; [done|by apply Hr].
Qed.

Section runs.
Context {W B U : Type} `{HT : Trans W B} `{HU : UserMem U} (sb : s5_superblock) (mpoint : list (option (nat * nat))).
Implicit Types s : s5 W U.

(** No file system is mounted on a directory. *)
Definition no_mounts : Prop := mpoint ≠ [] ∧ Forall (λ e, e = None) mpoint.
Definition with_inode s (i : nat) (ip : inode) : s5 W U := S5 (tr s) (um s) (<[i := ip]> (itable s)) (pool s).
Definition fresh_inode (n : Z) (q : nat) (ip : inode) : inode := Inode n 1 false false q (i_type ip) (i_major ip) (i_minor ip) (nlink ip) (i_size ip).

Lemma get_inode_at s i ip : itable s !! i = Some ip → get_inode i s = Ret (ip, s).
Proof. intros Hi. unfold get_inode, gets, mbind, M_bind. cbn. by rewrite Hi. Qed.
Lemma upd_inode_at s i ip f : itable s !! i = Some ip → upd_inode i f s = Ret ((), with_inode s i (f ip)).
Proof. intros Hi. unfold upd_inode, modify, with_inode. by rewrite (alter_insert _ _ _ _ Hi). Qed.
Lemma keys_with s i ip : keys (with_inode s i ip) = <[i := key ip]> (keys s).
Proof. unfold keys. cbn. apply list_fmap_insert. Qed.
Lemma lookup_keys s i n r p : keys s !! i = Some (n, r, p) ↔ ∃ ip, itable s !! i = Some ip ∧ inum ip = n ∧ i_ref ip = r ∧ i_private ip = p.
Proof.
  unfold keys. rewrite list_lookup_fmap. destruct (itable s !! i) as [ip|]; cbn; [|split; [done|by intros (? & ? & _)]].
  unfold key. split; [intros [= <- <- <-]; by exists ip|]. intros (ip' & [= <-] & <- & <- & <-). done.
Qed.

Lemma alloc_run s : match list_find (λ e, s5_used e = false) (pool s) with
  | Some (q, e) => alloc_s5_inode s = Ret (Some q, S5 (tr s) (um s) (itable s) (<[q := S5Inode true (addrs e)]> (pool s))) ∧ pool s !! q = Some e ∧ s5_used e = false
  | None => alloc_s5_inode s = Ret (None, s) ∧ ∀ q e, pool s !! q = Some e → s5_used e = true
  end.
Proof.
  unfold alloc_s5_inode, gets, mbind, M_bind. cbn. destruct (list_find _ (pool s)) as [[q e]|] eqn:E.
  - apply list_find_Some in E as (Hq & He & _). split; [|done]. unfold modify. cbn. by rewrite (alter_insert _ _ _ _ Hq).
  - split; [done|]. intros q e Hq. apply list_find_None in E. rewrite Forall_lookup in E. specialize (E _ _ Hq). cbn in E. by destruct (s5_used e).
Qed.

(** The ways a call of [iget] goes. *)
Inductive iget_way (n : Z) s : outcome (nat * s5 W U) → Prop :=
  | iw_cached i ip : itable s !! i = Some ip → 0 < i_ref ip → inum ip = n → i_type ip ≠ T_MOUNT →
      iget_way n s (Ret (i, with_inode s i (set_ref (s32 (i_ref ip + 1)) ip)))
  | iw_mount i ip : itable s !! i = Some ip → 0 < i_ref ip → inum ip = n → i_type ip = T_MOUNT → iget_way n s Fault
  | iw_full : (∀ i ip, itable s !! i = Some ip → i_ref ip ≠ 0) → iget_way n s (Panic "iget: no inodes")
  | iw_new i ip q e : itable s !! i = Some ip → i_ref ip = 0 → (∀ j ip, itable s !! j = Some ip → 0 < i_ref ip → inum ip ≠ n) → pool s !! q = Some e → s5_used e = false →
      iget_way n s (Ret (i, S5 (tr s) (um s) (<[i := fresh_inode n q ip]> (itable s)) (<[q := S5Inode true (addrs e)]> (pool s))))
  | iw_pool i ip : itable s !! i = Some ip → i_ref ip = 0 → (∀ q e, pool s !! q = Some e → s5_used e = true) → iget_way n s (Panic "No s5 inode available").
Lemma iget_run n s : no_mounts → iget_way n s (s5_iget mpoint n s).
Proof.
  intros [Hmp Hall]. pose proof (iget_scan_spec n (itable s) 0 None) as Hscan. unfold s5_iget. rewrite (bind_Ret (gets itable) _ s (itable s) s eq_refl).
  destruct (iget_scan (itable s) 0 n None) as [i|[i|]].
  - destruct Hscan as (ip & _ & Hi & Hr & Hn). rewrite Nat.sub_0_r in Hi. rewrite (bind_Ret _ _ _ _ _ (get_inode_at s i ip Hi)). destruct (Z.eqb_spec (i_type ip) T_MOUNT) as [Et|Et].
    + unfold mtablertinode. rewrite bind_assoc, (bind_Ret _ _ _ _ _ (get_inode_at s i ip Hi)). destruct mpoint as [|e l]; [done|]. apply Forall_cons in Hall as [-> _]. by eapply iw_mount.
    + unfold incr_ref. rewrite (bind_Ret _ _ _ _ _ (upd_inode_at s i ip _ Hi)). by apply iw_cached.
  - destruct Hscan as [Hn [?|(ip & _ & Hi & Hr)]]; [done|]. rewrite Nat.sub_0_r in Hi. rewrite (bind_Ret _ _ _ _ _ (upd_inode_at s i ip _ Hi)).
    set (s1 := with_inode s i _). unfold s5_fill_inode. rewrite !bind_assoc. pose proof (alloc_run s1) as Ha. cbn [s1 pool with_inode] in Ha.
    destruct (list_find _ (pool s)) as [[q e]|].
    + destruct Ha as (E & Hq & He). rewrite (bind_Ret _ _ _ _ _ E). cbn match. erewrite bind_Ret; [|apply upd_inode_at; by apply list_lookup_insert_eq; eapply lookup_lt_Some].
      subst s1. unfold with_inode. cbn [tr um itable pool inum i_ref i_busy i_valid i_type i_major i_minor nlink i_size]. rewrite list_insert_insert_eq. eapply iw_new; [done..| |done|done].
      intros j ip' Hj. apply Hn. by eapply list_elem_of_lookup_2.
    + destruct Ha as [E Hq]. rewrite (bind_Ret _ _ _ _ _ E). by eapply iw_pool.
  - destruct Hscan as [_ [_ Hr]]. apply iw_full. intros i ip Hi. apply Hr. by eapply list_elem_of_lookup_2.
Qed.

Lemma used_with s q e : s5_used <$> <[q := S5Inode true (addrs e)]> (pool s) = <[q := true]> (used s).
Proof. apply list_fmap_insert. Qed.
(** A count after one reference more. *)
Lemma ref_small ks us H i n r p : refs_ok ks us H → ks !! i = Some (n, r, p) → Z.of_nat (length H) < 2 ^ 31 - 1 → s32 (r + 1) = r + 1 ∧ (0 < r → i ∈ H).
Proof.
  intros Hok Hi Hlen. rewrite (ro_count _ _ _ Hok _ _ _ _ Hi). pose proof (uses_range H i). split; [apply swrap_small; lia|]. apply uses_pos.
Qed.
Lemma iget_refs n s H i s' : no_mounts → refs_ok (keys s) (used s) H → Z.of_nat (length H) < 2 ^ 31 - 1 → s5_iget mpoint n s = Ret (i, s') → refs_ok (keys s') (used s') (i :: H).
Proof.
  intros Hm Hok Hlen E. pose proof (iget_run n s Hm) as Hw. rewrite E in Hw. inversion Hw as [i' ip Hi Hr Hn Ht| | |i' ip q e Hi Hr Hn Hq He|]; subst i'.
  - assert (keys s !! i = Some (inum ip, i_ref ip, i_private ip)) as Hk by (apply lookup_keys; by exists ip). rewrite keys_with. destruct (ref_small _ _ _ _ _ _ _ Hok Hk Hlen) as [-> _]. by apply refs_incr.
  - assert (keys s !! i = Some (inum ip, 0, i_private ip)) as Hk by (apply lookup_keys; by exists ip). change (keys (S5 _ _ (<[i := fresh_inode n q ip]> _) _)) with (keys (with_inode s i (fresh_inode n q ip))).
    rewrite keys_with. change (used (S5 _ _ _ _)) with (s5_used <$> <[q := S5Inode true (addrs e)]> (pool s)). rewrite used_with. eapply refs_take; [done|exact Hk| |by unfold used; rewrite list_lookup_fmap, Hq; cbn; rewrite He].
    intros j m r p (ipj & Hj & <- & <- & <-)%lookup_keys. by eapply Hn.
Qed.
Lemma idup_refs s H i j s' : refs_ok (keys s) (used s) H → Z.of_nat (length H) < 2 ^ 31 - 1 → i ∈ H → idup i s = Ret (j, s') → refs_ok (keys s') (used s') (i :: H).
Proof.
  intros Hok Hlen Hin E. destruct (lookup_lt_is_Some_2 (keys s) i (ro_held _ _ _ Hok i Hin)) as [[[n r] p] Hk]. pose proof (proj1 (lookup_keys _ _ _ _ _) Hk) as (ip & Hi & <- & <- & <-).
  unfold idup, incr_ref in E. rewrite (bind_Ret _ _ _ _ _ (upd_inode_at s i ip _ Hi)) in E. injection E as <- <-. rewrite keys_with. destruct (ref_small _ _ _ _ _ _ _ Hok Hk Hlen) as [-> _].
  apply refs_incr; [done..|]. rewrite (ro_count _ _ _ Hok _ _ _ _ Hk). by apply uses_pos.
Qed.
(** The end of [iput], after the inode was given back if it was the last of its links. *)
Definition put_ref (i : nat) : M (s5 W U) () :=
  upd_inode i (λ ip, set_ref (s32 (i_ref ip - 1)) ip) ;;
  ip ← get_inode i;
  if i_ref ip =? 0 then s5_cleanup ip else mret ().
Lemma put_ref_run s H1 i H2 : refs_ok (keys s) (used s) (H1 ++ i :: H2) → Z.of_nat (length (H1 ++ i :: H2)) < 2 ^ 31 → ∃ s', put_ref i s = Ret ((), s') ∧ refs_ok (keys s') (used s') (H1 ++ H2).
Proof.
  intros Hok Hlen. destruct (lookup_lt_is_Some_2 (keys s) i (ro_held _ _ _ Hok i ltac:(apply elem_of_app; right; by left))) as [[[n r] p] Hk].
  pose proof (refs_decr _ _ _ _ _ _ _ _ Hok Hk) as Hd. pose proof (ro_count _ _ _ Hok _ _ _ _ Hk) as Hr. pose proof (uses_range (H1 ++ i :: H2) i). pose proof (proj2 (uses_pos (H1 ++ i :: H2) i) ltac:(apply elem_of_app; right; by left)).
  pose proof (proj1 (lookup_keys _ _ _ _ _) Hk) as (ip & Hi & <- & <- & <-). unfold put_ref. rewrite (bind_Ret _ _ _ _ _ (upd_inode_at s i ip _ Hi)). assert (s32 (i_ref ip - 1) = i_ref ip - 1) as -> by (apply swrap_small; lia).
  set (ip' := set_ref (i_ref ip - 1) ip). erewrite bind_Ret by (apply get_inode_at; apply list_lookup_insert_eq; by eapply lookup_lt_Some). cbn [i_ref ip' set_ref].
  assert (keys (with_inode s i ip') = <[i := (inum ip, i_ref ip - 1, i_private ip)]> (keys s)) as Ek by apply keys_with.
  destruct (Z.eqb_spec (i_ref ip - 1) 0) as [E0|E0]; (eexists; split; [done|]).
  - change (keys _) with (keys (with_inode s i ip')). rewrite Ek. change (used _) with (s5_used <$> alter (λ e, S5Inode false (replicate (length (addrs e)) 0)) (i_private ip) (pool s)).
    assert (s5_used <$> alter (λ e, S5Inode false (replicate (length (addrs e)) 0)) (i_private ip) (pool s) = <[i_private ip := false]> (used s)) as ->; [|exact Hd].
    pose proof (ro_used _ _ _ Hok _ _ _ _ Hk ltac:(lia)) as Hu. unfold used in *. rewrite list_lookup_fmap in Hu. destruct (pool s !! i_private ip) as [e|] eqn:Ee; [|done]. by rewrite (alter_insert _ _ _ _ Ee), list_fmap_insert.
  - rewrite Ek. exact Hd.
Qed.
Lemma iput_refs s H1 i H2 s' : refs_ok (keys s) (used s) (H1 ++ i :: H2) → Z.of_nat (length (H1 ++ i :: H2)) < 2 ^ 31 → iput sb i s = Ret ((), s') → refs_ok (keys s') (used s') (H1 ++ H2).
Proof.
  intros Hok Hlen E. unfold iput in E. apply bind_Ret_inv in E as (ip & s1 & E1 & E). pose proof (inert_get_inode i s) as Hin. unfold may in Hin. rewrite E1 in Hin. destruct Hin as [Hk1 Hu1].
  apply bind_Ret_inv in E as ([] & s2 & E2 & E).
  assert (same_refs s1 s2) as [Hk2 Hu2].
  { match type of E2 with ?m _ = _ => assert (inert m) as Hin2 end; [|specialize (Hin2 s1); unfold may in Hin2; by rewrite E2 in Hin2].
    pose proof (inert_itrunc (U := U) sb i). pose proof (inert_iupdate (U := U) sb i). inert_tac. }
  rewrite <- Hk1, <- Hu1, <- Hk2, <- Hu2 in Hok. destruct (put_ref_run s2 H1 i H2 Hok Hlen) as (s3 & E3 & Hok3). unfold put_ref in E3. rewrite E3 in E. by injection E as <-.
Qed.

Lemma inert_refs {A} (m : M (s5 W U) A) s a s' H : inert m → m s = Ret (a, s') → refs_ok (keys s) (used s) H → refs_ok (keys s') (used s') H.
Proof. intros Hin E. specialize (Hin s). unfold may in Hin. rewrite E in Hin. by destruct Hin as [-> ->]. Qed.
Lemma ref_step_ok s H s' H' : no_mounts → ref_step sb mpoint (s, H) (s', H') → refs_ok (keys s) (used s) H ∧ Z.of_nat (length H) < 2 ^ 31 → refs_ok (keys s') (used s') H' ∧ Z.of_nat (length H') < 2 ^ 31.
Proof.
  intros Hm Hst. remember (s, H) as x eqn:Ex. remember (s', H') as y eqn:Ey. destruct Hst as [s1 H1 n i s2 Hl E|s1 H1 i s2 Hl Hin E|s1 Ha i Hb s2 E|s1 H1 i s2 Hin E|s1 H1 i s2 Hin E|s1 H1 i user dst off n r s2 Hin E|s1 H1 i user src off n r s2 Hin E|s1 H1 i s2 Hin E|s1 H1 de dp name r s2 Hl E|s1 H1 type i s2 Hl E|s1 H1 s2 [Ek Eu]];
    injection Ex as ??; injection Ey as ??; subst; intros [Hok Hlen].
  - split; [by eapply iget_refs|cbn; lia].
  - split; [by eapply idup_refs|cbn; lia].
  - split; [by eapply iput_refs|rewrite length_app in *; cbn in Hlen; lia].
  - split; [|done]. eapply inert_refs; [apply (inert_ilock sb i)|exact E|done].
  - split; [|done]. eapply inert_refs; [apply (inert_iunlock i)|exact E|done].
  - split; [|done]. eapply inert_refs; [apply (inert_readi sb)|exact E|done].
  - split; [|done]. eapply inert_refs; [apply (inert_writei sb)|exact E|done].
  - split; [|done]. eapply inert_refs; [apply (inert_itrunc sb i)|exact E|done].
  - unfold s5_dirlookup in E. apply bind_Ret_inv in E as (ip & s3 & E1 & E). pose proof (inert_refs _ _ _ _ _ (inert_get_inode dp) E1 Hok) as Hok3.
    destruct ((i_type ip =? T_FILE) || (i_type ip =? T_DEVICE)); [done|]. apply bind_Ret_inv in E as (o & s4 & E2 & E). pose proof (inert_refs _ _ _ _ _ (inert_dirlookup_loop sb de dp name _ _) E2 Hok3) as Hok4.
    destruct o as [[n off]|]; [|injection E as <- <-; done]. apply bind_Ret_inv in E as (i & s5' & E3 & E). injection E as <- <-. split; [by eapply iget_refs|cbn; lia].
  - unfold s5_ialloc in E. apply bind_Ret_inv in E as (n & s3 & E1 & E). pose proof (inert_refs _ _ _ _ _ (inert_ialloc_loop sb type _ _) E1 Hok) as Hok3. split; [by eapply iget_refs|cbn; lia].
  - by rewrite Ek, Eu.
Qed.
End runs.

(** The table and the pool as they are at boot. *)
Definition vfs_boot {W U} (s : s5 W U) : Prop :=
  length (itable s) = NINODE ∧ length (pool s) = NINODE ∧ Forall (λ ip, i_ref ip = 0) (itable s) ∧ Forall (λ e, s5_used e = false) (pool s).

Section references.
Context {W B U : Type} `{HT : Trans W B} `{HU : UserMem U} (sb : s5_superblock) (mpoint : list (option (nat * nat))).

Lemma boot_refs (s : s5 W U) : vfs_boot s → refs_ok (keys s) (used s) [].
Proof.
  intros (H1 & H2 & H3 & H4). rewrite Forall_lookup in H3. rewrite Forall_lookup in H4. split.
  - intros i n r p (ip & Hi & _ & <- & _)%lookup_keys. by rewrite (H3 _ _ Hi).
  - intros i j n r p n' r' p' (ip & Hi & _ & <- & _)%lookup_keys. rewrite (H3 _ _ Hi). lia.
  - intros i n r p (ip & Hi & _ & <- & _)%lookup_keys. rewrite (H3 _ _ Hi). lia.
  - intros p Hp. unfold used in Hp. rewrite list_lookup_fmap in Hp. destruct (pool s !! p) as [e|] eqn:E; [|done]. specialize (H4 _ _ E). cbn in Hp. congruence.
  - unfold keys, used. rewrite !length_fmap. congruence.
  - by intros i ?%elem_of_nil.
Qed.

(** C6: On a machine on which nothing is mounted, after any sequence of operations on
    the inode table, one after another and each run to its end (the two critical
    sections of [iget] are one step), with fewer than [2^31] references given out:
    the count of an entry is the number of
    references given out for it and not put back; an inode has at most one entry in
    use; every entry in use has an entry of the pool for itself alone, and no other
    pool entry is taken. So [iget] never runs out of pool entries: it returns an
    entry of the inode asked for, or panics, and then every entry of the table is
    held, or it faults, and then some entry has the type [T_MOUNT] though nothing is
    mounted. *)
Theorem vfs_references (s0 s : s5 W U) (H : list nat) : no_mounts mpoint → vfs_boot s0 → rtc (ref_step sb mpoint) (s0, []) (s, H) →
  (∀ i ip, itable s !! i = Some ip → i_ref ip = uses_of H i) ∧
  (∀ i j ip jp, itable s !! i = Some ip → itable s !! j = Some jp → 0 < i_ref ip → 0 < i_ref jp → i ≠ j → inum ip ≠ inum jp ∧ i_private ip ≠ i_private jp) ∧
  (∀ q e, pool s !! q = Some e → s5_used e = true ↔ ∃ i ip, itable s !! i = Some ip ∧ 0 < i_ref ip ∧ i_private ip = q) ∧
  ∀ n, match s5_iget mpoint n s with
    | Ret (i, s') => ∃ ip, itable s' !! i = Some ip ∧ inum ip = n
    | Panic msg => msg = "iget: no inodes"%string ∧ ∀ i, (i < length (itable s))%nat → i ∈ H
    | Fault => ∃ ip, ip ∈ itable s ∧ i_type ip = T_MOUNT
    | _ => False
    end.
Proof.
  intros Hm Hb Hrtc. assert (refs_ok (keys s) (used s) H) as Hok.
  { assert (∀ x y, rtc (ref_step sb mpoint) x y → refs_ok (keys x.1) (used x.1) x.2 ∧ Z.of_nat (length x.2) < 2 ^ 31 → refs_ok (keys y.1) (used y.1) y.2 ∧ Z.of_nat (length y.2) < 2 ^ 31) as Hind.
    { intros x y Hxy. induction Hxy as [x|[s1 H1] [s2 H2] z Hst _ IH]; [done|]. intros Hx. apply IH. by apply (ref_step_ok sb mpoint s1 H1). }
    apply (Hind _ _ Hrtc). split; [by apply boot_refs|done]. }
  split_and!.
  - intros i ip Hi. apply (ro_count _ _ _ Hok i (inum ip) _ (i_private ip)). apply lookup_keys. by exists ip.
  - intros i j ip jp Hi Hj Hri Hrj Hne. apply (ro_one _ _ _ Hok i j (inum ip) (i_ref ip) (i_private ip) (inum jp) (i_ref jp) (i_private jp)); try done; apply lookup_keys; eauto.
  - intros q e Hq. assert (used s !! q = Some (s5_used e)) as Hu by (unfold used; by rewrite list_lookup_fmap, Hq). split.
    + intros Ht. rewrite Ht in Hu. apply (ro_owner _ _ _ Hok) in Hu as (i & n & r & Hk & Hr). apply lookup_keys in Hk as (ip & Hi & _ & <- & <-). by exists i, ip.
    + intros (i & ip & Hi & Hr & <-). rewrite (ro_used _ _ _ Hok i (inum ip) (i_ref ip) (i_private ip)) in Hu; [by injection Hu|apply lookup_keys; by exists ip|done].
  - intros n. destruct (iget_run mpoint n s Hm) as [i ip Hi Hr Hn Ht|i ip Hi Hr Hn Ht|Hall|i ip q e Hi Hr Hn Hq He|i ip Hi Hr Hall].
    + eexists. split; [apply list_lookup_insert_eq; by eapply lookup_lt_Some|done].
    + exists ip. split; [by eapply list_elem_of_lookup_2|done].
    + split; [done|]. intros i Hlt. destruct (lookup_lt_is_Some_2 (itable s) i Hlt) as [ip Hi]. apply uses_pos. specialize (Hall i ip Hi).
      rewrite (ro_count _ _ _ Hok i (inum ip) _ (i_private ip) ltac:(apply lookup_keys; by exists ip)) in Hall. pose proof (uses_range H i). lia.
    + eexists. split; [apply list_lookup_insert_eq; by eapply lookup_lt_Some|done].
    + exfalso. destruct (refs_pool _ _ _ i (inum ip) (i_private ip) Hok) as [q Hq]; [apply lookup_keys; by exists ip|]. unfold used in Hq. rewrite list_lookup_fmap in Hq.
      destruct (pool s !! q) as [e|] eqn:E; [|done]. specialize (Hall _ _ E). cbn in Hq. congruence.
Qed.
End references.

(** The table and the pool at boot, on the machine of [S5Log]. *)
Definition inode0 : inode := Inode 0 0 false false 0 0 0 0 0 0.
Definition demo_boot_files (c : bsys ()) : s5 (lsys (bsys ())) (Z → Z) := S5 (LSys demo_log c) demo_mem (replicate NINODE inode0) (replicate NINODE (S5Inode false (replicate 13 0))).
Lemma demo_files_boot c : vfs_boot (demo_boot_files c).
Proof. split_and!; [done|done|by apply Forall_replicate|by apply Forall_replicate]. Qed.
#[local] Existing Instance cache1.
#[local] Existing Instance cache1_spec.

(** The root, held [n] times. *)
Definition demo_root (c : bsys ()) (n : Z) : s5 (lsys (bsys ())) (Z → Z) :=
  S5 (LSys demo_log c) demo_mem (Inode ROOTINO n false false 0 0 0 0 0 0 :: replicate 49 inode0) (S5Inode true (replicate 13 0) :: replicate 49 (S5Inode false (replicate 13 0))).
Lemma vfs_references_witness : ∃ c : bsys (), rtc (ref_step demo_sb (replicate MOUNTSIZE None)) (demo_boot_files c, []) (demo_root c 2, [0%nat; 0%nat]) ∧ uses_of [0%nat; 0%nat] 0 = 2.
Proof.
  destruct demo_boot as [c _]. exists c. assert (s5_iget (replicate MOUNTSIZE None) ROOTINO (demo_boot_files c) = Ret (0%nat, demo_root c 1)) as E1 by reflexivity.
  assert (idup 0 (demo_root c 1) = Ret (0%nat, demo_root c 2)) as E2 by reflexivity.
  assert (rtc (ref_step demo_sb (replicate MOUNTSIZE None)) (demo_boot_files c, []) (demo_root c 2, [0%nat; 0%nat])) as Hrtc.
  { eapply rtc_l; [exact (rs_iget _ _ _ [] ROOTINO 0%nat _ eq_refl E1)|]. eapply rtc_l; [exact (rs_idup _ _ _ [0%nat] 0%nat _ eq_refl ltac:(by left) E2)|]. apply rtc_refl. }
  split; [exact Hrtc|]. apply (vfs_references demo_sb (replicate MOUNTSIZE None)) in Hrtc as (Hr & _); [|by repeat constructor|apply demo_files_boot].
  exact (eq_sym (Hr 0%nat _ eq_refl)).
Defined.
