(* ===== verification/S5File.v ===== *)
(** * Writing a file: [filewrite] of [kernel/file.c] on [s5] and the log

    The inode operations that [File] calls are here those of [S5] and [Vfs], and
    [begin_op] and [end_op] those of [Log]. [filewrite] writes in transactions of
    three blocks; [filewrite_correct] says what is on the disk when it returns, and
    what recovery finds if the machine stops at one of its disk writes. *)
From S2P Require Import Prelude File BlockCache Bio Log LogBio Trans TransLog S5 S5Bits S5Map S5Io S5Log Vfs.

(** Disks that differ at most in the log. *)
Definition agree (st : Z) (D D' : Z → block) : Prop := ∀ m, outside st m → D' m = D m.
Lemma agree_trans st D1 D2 D3 : agree st D1 D2 → agree st D2 D3 → agree st D1 D3.
Proof. intros H1 H2 m Hm. by rewrite H2, H1. Qed.
Lemma agree_sym st D D' : agree st D D' → agree st D' D.
Proof. intros H m Hm. by rewrite H. Qed.

Lemma size_list_le (k : list Z) : (base.size (list_to_set k : gset Z) <= length k)%nat.
Proof.
  induction k as [|x k IH]; cbn; [done|]. rewrite size_union_alt, size_singleton. assert (base.size ((list_to_set k : gset Z) ∖ {[x]}) <= base.size (list_to_set k : gset Z))%nat; [|lia]. apply subseteq_size. set_solver.
Qed.

Section filewrite.
Context {C B U : Type} `{HB : BlockCache C B} `{HC : !BlockCacheSpec C B} `{HU : UserMem U} `{HUS : !UserMemSpec U}.
Context (sb : s5_superblock) (st : Z) (Hst : 0 <= st) (Hsb : sb_ok (st + LOGSIZE) FSSIZE sb) (Hone : s5_size sb <= BPB).
Implicit Types (D : Z → block) (l : list Z) (s : s5 (lsys C) U).

(** ** What a disk says of files depends on no block of the log *)

#[local] Instance any_log : TransSpec (lsys C) (B * Z) := log_trans_spec st (λ _, []) [].
Lemma home_outside b : inodestart sb <= b < s5_size sb → outside st b.
Proof using Hsb Hst. intros Hb. unfold outside, LOGSIZE, Log.MAXOPBLOCKS in *. destruct Hsb. unfold LOGSIZE, Log.MAXOPBLOCKS in *. lia. Qed.

Section same.
Context D D' (Ha : agree st D D').
Lemma agree_data b : in_data sb b → D' b = D b.
Proof using Ha HC Hsb Hst. intros Hb. apply Ha, home_outside. pose proof (data_start_pos (HS := any_log) sb Hsb). unfold in_data in Hb. lia. Qed.
Lemma agree_bit y : in_dev sb y → bit sb D' y = bit sb D y.
Proof using Ha HC Hsb Hst.
  intros Hy. unfold bit. rewrite Ha; [done|]. apply home_outside. pose proof (BBLOCK_val (HS := any_log) sb Hsb y Hy). pose proof (data_start_pos (HS := any_log) sb Hsb). destruct Hsb. unfold data_start in *. lia.
Qed.
Lemma agree_inode j : an_inode sb j → inode_on_disk sb D' j = inode_on_disk sb D j.
Proof using Ha HC Hsb Hst.
  intros Hj. unfold inode_on_disk. rewrite Ha; [done|]. apply home_outside. destruct (IBLOCK_val (HS := any_log) sb Hsb j Hj) as [-> ?]. destruct Hsb. pose proof (data_start_pos (HS := any_log) sb Hsb). unfold data_start in *. lia.
Qed.
Lemma agree_meta : meta_used sb D → meta_used sb D'.
Proof using Ha HC Hsb Hst. intros Hm. apply (meta_used_mono (HS := any_log) sb Hsb D); [done|]. intros y Hy. by rewrite agree_bit. Qed.
Lemma agree_nfree : nfree sb D' = nfree sb D.
Proof using Ha HC Hsb Hst. unfold nfree. f_equal. apply set_eq. intros b. rewrite !elem_of_free. split; intros [Hb E]; (split; [done|]); [by rewrite agree_bit in E|by rewrite agree_bit]. Qed.
Lemma agree_wf l : wf sb D l → wf sb D' l ∧ (∀ b, uses D' l b ↔ uses D l b) ∧ ∀ z, dense D l z → dense D' l z ∧ contents D' l 0 z = contents D l 0 z.
Proof using Ha HC Hsb Hst.
  intros Hw. assert (∀ b, uses D l b → D' b = D b) as Hu by (intros b Hb; by apply agree_data, (wf_used _ _ _ Hw)).
  assert (ind l ≠ 0 → D' (ind l) = D (ind l)) as Hi by (intros; by apply Hu, uses_ind). split; [|split].
  - apply (wf_same sb D); try done. intros b Hb. by rewrite agree_bit by (by apply (data_dev (HS := any_log) sb Hsb)).
  - intros b. by apply uses_same.
  - intros z. by apply contents_same.
Qed.
Lemma agree_apart l lo : wf sb D l → apart sb D l lo → apart sb D' l lo.
Proof using Ha HC Hsb Hst.
  intros Hw [Hlo Hd]. destruct (agree_wf l Hw) as (_ & Hu & _), (agree_wf lo Hlo) as (Hlo' & Hu' & _). split; [done|]. intros b ? ?. by apply (Hd b); [apply Hu'|apply Hu].
Qed.
End same.

(** ** A write on the disk *)

(** The disk [D] has the inode [ip], with the blocks [l], and the contents [c]. *)
Record file_at D ip l (c : bytes) : Prop := {
  fa_wf : wf sb D l;
  fa_dense : dense D l (i_size ip);
  fa_meta : meta_used sb D;
  fa_inode : inode_on_disk sb D (inum ip) = Some (dinode_bytes ip l);
  fa_contents : contents D l 0 (i_size ip) = c;
}.
Definition grown_by (ip : inode) (off : Z) (d : bytes) : inode := set_size (Z.max (i_size ip) (off + Z.of_nat (length d))) ip.
(** The disk [D'] is [D] but for the bytes [d] of the file; other files that shared
    no block with it are as they were, and share none with it now. *)
Record wrote D ip l (off : Z) (d : bytes) D' l' : Prop := {
  wr_file : file_at D' (grown_by ip off d) l' (overwrite (contents D l 0 (i_size ip)) off d);
  wr_inodes : ∀ j, an_inode sb j → j ≠ inum ip → inode_on_disk sb D' j = inode_on_disk sb D j;
  wr_files : ∀ lo, apart sb D l lo → apart sb D' l' lo ∧ ∀ z, dense D lo z → dense D' lo z ∧ contents D' lo 0 z = contents D lo 0 z;
}.

Lemma file_at_agree D D' ip l c : an_inode sb (inum ip) → agree st D D' → file_at D ip l c → file_at D' ip l c.
Proof using HC Hsb Hst.
  intros Hj Ha [H1 H2 H3 H4 H5]. destruct (agree_wf D D' Ha l H1) as (Hw & _ & Hc). destruct (Hc _ H2) as [Hd E].
  constructor; [done|done|by apply (agree_meta D D')|by rewrite (agree_inode D D')|by rewrite E].
Qed.
Lemma grown_app ip off d1 d2 : grown_by (grown_by ip off d1) (off + Z.of_nat (length d1)) d2 = grown_by ip off (d1 ++ d2).
Proof using. unfold grown_by, set_size. cbn. f_equal. rewrite length_app. lia. Qed.
Lemma contents_length D l z : 0 <= z → Z.of_nat (length (contents D l 0 z)) = z.
Proof using. intros. unfold contents. rewrite length_fmap, length_seqZ. lia. Qed.

Lemma overwrite_contents D l off d size : 0 <= off <= size → 0 <= size →
  overwrite (contents D l 0 size) off d = contents D l 0 off ++ d ++ contents D l (off + Z.of_nat (length d)) (size - (off + Z.of_nat (length d))).
Proof using.
  intros Ho Hs. assert (∀ k, 0 <= k <= size → contents D l 0 size = contents D l 0 k ++ contents D l k (size - k)) as Hsplit.
  { intros k Hk. unfold contents. rewrite <- fmap_app. f_equal. replace size with (k + (size - k)) at 1 by lia. by rewrite seqZ_app by lia. }
  unfold overwrite. f_equal; [|f_equal].
  - rewrite (Hsplit off) by lia. rewrite take_app_length'; [done|]. pose proof (contents_length D l off). lia.
  - destruct (Z_le_gt_dec (off + Z.of_nat (length d)) size).
    + rewrite (Hsplit (off + Z.of_nat (length d))) by lia. rewrite drop_app_length'; [done|]. pose proof (contents_length D l (off + Z.of_nat (length d))). lia.
    + rewrite drop_ge by (pose proof (contents_length D l size); lia). unfold contents. by rewrite seqZ_nil by lia.
Qed.

Lemma wrote_nil D ip l off c : file_at D ip l c → 0 <= off <= i_size ip → wrote D ip l off [] D l.
Proof using.
  intros [H1 H2 H3 H4 H5] Ho. constructor; [|done|done]. assert (grown_by ip off [] = ip) as ->; [|by constructor; rewrite ?overwrite_nil].
  unfold grown_by. cbn. rewrite Z.max_l by lia. by destruct ip.
Qed.
Lemma wrote_app D1 D2 D3 ip l1 l2 l3 off d1 d2 : 0 <= off <= i_size ip → wrote D1 ip l1 off d1 D2 l2 →
  wrote D2 (grown_by ip off d1) l2 (off + Z.of_nat (length d1)) d2 D3 l3 → wrote D1 ip l1 off (d1 ++ d2) D3 l3.
Proof using.
  intros Ho [A1 A2 A3] [B1 B2 B3]. constructor.
  - rewrite grown_app in B1. rewrite (fa_contents _ _ _ _ A1), overwrite_app in B1; [done|]. rewrite contents_length; lia.
  - intros j Hj Hne. rewrite B2, A2; done.
  - intros lo Hlo. destruct (A3 lo Hlo) as [Hl2 C2]. destruct (B3 lo Hl2) as [Hl3 C3]. split; [done|]. intros z Hz. destruct (C2 z Hz) as [Hz2 E2].
    destruct (C3 z Hz2) as [Hz3 E3]. split; [done|]. by rewrite E3.
Qed.
(** What the log keeps for itself does not matter, before and after. *)
Lemma wrote_agree D1 D2 D1' D2' ip l off d c l' : an_inode sb (inum ip) → file_at D1 ip l c → agree st D1 D2 → agree st D1' D2' →
  wrote D2 ip l off d D1' l' → wrote D1 ip l off d D2' l'.
Proof using HC Hsb Hst.
  intros Hj Hfa Ha Ha' [W1 W2 W3]. destruct (agree_wf D1 D2 Ha l (fa_wf _ _ _ _ Hfa)) as (_ & _ & Hc). destruct (Hc _ (fa_dense _ _ _ _ Hfa)) as [_ Ec]. constructor.
  - rewrite <- Ec. by apply (file_at_agree D1').
  - intros j Hjj Hne. rewrite (agree_inode D1' D2'), W2, (agree_inode D1 D2); done.
  - intros lo Hlo. assert (apart sb D2 l lo) as Hlo2 by (apply (agree_apart D1 D2); [done|apply Hfa|done]). destruct (W3 lo Hlo2) as [Hl' Hz'].
    split; [apply (agree_apart D1' D2'); [done|apply W1|done]|]. intros z Hz.
    destruct (agree_wf D1 D2 Ha lo (proj1 Hlo)) as (_ & _ & Hz2). destruct (Hz2 z Hz) as [Hd2 E2]. destruct (Hz' z Hd2) as [Hd3 E3].
    destruct (agree_wf D1' D2' Ha' lo (proj1 Hl')) as (_ & _ & Hz4). destruct (Hz4 z Hd3) as [Hd4 E4]. split; [done|]. by rewrite E4, E3.
Qed.

(** ** One transaction *)

(** [begin_op] as the file system calls it, which waits for the log. *)
Definition begin_op_wait : M (lsys C) () := r ← Log.begin_op; match r with OpStarted => mret () | OpSleeping => would_block end.

(** Recovery of the disk [D] returns, and leaves a disk with [P]. *)
Definition recovers D (P : (Z → block) → Prop) : Prop := ∀ (c0 : C) a0 g0, fresh c0 a0 D → start g0 = st → Z.of_nat (length (lh_block g0)) = LOGSIZE →
  ∃ w a, recover_from_log (LSys g0 c0) = Ret ((), w) ∧ bc_rep (cache w) a ∧ P (a_disk a).
Lemma recovers_mono D D' (P P' : (Z → block) → Prop) : (∀ m, D' m = D m) → (∀ d, P d → P' d) → recovers D P → recovers D' P'.
Proof using.
  intros He HP Hr c0 a0 g0 [F1 F2 F3 F4 F5 F6] Hg Hl. destruct (Hr c0 a0 g0) as (w & a & E & Ha & Hp); [|done|done|exists w, a; split; [done|split; [done|by apply HP]]].
  constructor; try done. intros m Hm. by rewrite F5.
Qed.

Lemma rest_view a (w : lsys C) : at_rest st a w → agree st (a_disk a) (a_view a).
Proof using. intros [] m [Hm _]. by eapply bc_rep_clean; eauto. Qed.

(** A loaded inode that nobody has locked. *)
Record idle (ip : inode) : Prop := { id_ref : 1 <= i_ref ip; id_free : i_busy ip = false; id_valid : i_valid ip = true }.
Lemma ilock_idle s i ip l : has s i ip l → idle ip → s5_ilock sb i s = Ret ((), S5 (tr s) (um s) (<[i := set_busy true ip]> (itable s)) (pool s)).
Proof using.
  intros Hs []. unfold s5_ilock. rewrite (bind_Ret _ _ _ _ _ (get_inode_run s i ip l Hs)), (proj2 (Z.ltb_ge _ _)), id_free0 by lia.
  destruct Hs as [Hi _]. unfold upd_inode. rewrite (bind_Ret (modify _) _ _ () _ eq_refl), id_valid0. unfold mret, M_ret. do 3 f_equal. by apply alter_insert.
Qed.
Lemma iunlock_busy s i ip : itable s !! i = Some ip → 1 <= i_ref ip → i_busy ip = true →
  generic_iunlock i s = Ret ((), S5 (tr s) (um s) (<[i := set_busy false ip]> (itable s)) (pool s)).
Proof using.
  intros Hi Hr Hb. unfold generic_iunlock, get_inode. rewrite (bind_Ret _ _ s ip s) by (rewrite (bind_Ret _ _ s (itable s) s) by done; by rewrite Hi).
  rewrite Hb, (proj2 (Z.ltb_ge _ _)) by lia. unfold upd_inode, modify. cbn. do 3 f_equal. by apply alter_insert.
Qed.

Lemma touched_four off n : 0 <= off → 0 < n <= max_write → (touched off n <= 4)%nat.
Proof using.
  intros Ho [H0 Hn]. unfold touched. rewrite (proj2 (Z.leb_gt _ _)) by done. assert ((off + n - 1) / BSIZE <= off / BSIZE + 3); [|lia].
  change max_write with 3072 in Hn. unfold BSIZE. dlia.
Qed.
(** Four blocks of the file, the free map, the inode and an indirect block. *)
Lemma piece_fits (D0 : Z → block) h v l j k r : (k <= 4)%nat → (extra l + 4 + r <= nfree sb v)%nat →
  fits_res (HS := log_trans_spec st D0 h) sb r v l ∅ {[IBLOCK j sb]} k.
Proof using All.
  intros Hk Hf. split; [|lia]. unfold logging, extra in *. change (t_quota) with 20%nat. destruct (ind l =? 0).
  - assert (base.size ({[bmapstart sb]} ∪ ∅ ∪ {[IBLOCK j sb]} ∪ ∅ : gset Z) <= base.size (list_to_set [bmapstart sb; IBLOCK j sb] : gset Z))%nat by (apply subseteq_size; set_solver).
    pose proof (size_list_le [bmapstart sb; IBLOCK j sb]). cbn [length] in *. lia.
  - assert (base.size ({[bmapstart sb]} ∪ {[ind l]} ∪ {[IBLOCK j sb]} ∪ ∅ : gset Z) <= base.size (list_to_set [bmapstart sb; ind l; IBLOCK j sb] : gset Z))%nat by (apply subseteq_size; set_solver).
    pose proof (size_list_le [bmapstart sb; ind l; IBLOCK j sb]). cbn [length] in *. lia.
Qed.

Lemma piece_run s a i ip l off addr d r : at_rest st a (tr s) → has s i ip l → idle ip → an_inode sb (inum ip) →
  file_at (a_disk a) ip l (contents (a_disk a) l 0 (i_size ip)) → u_bytes (um s) true addr d → 0 <= off <= i_size ip → off + Z.of_nat (length d) <= MAXFILE * BSIZE →
  0 < Z.of_nat (length d) <= max_write → (extra l + 4 + r <= nfree sb (a_disk a))%nat → let n := Z.of_nat (length d) in
  ∃ s1 s2 s3 s4 w5 a' l' ws, let s5 := S5 w5 (um s) (<[i := grown_by ip off d]> (itable s)) (pool (with_addrs s ip l')) in
    in_tr begin_op_wait s = Ret ((), s1) ∧ s5_ilock sb i s1 = Ret ((), s2) ∧ s5_writei sb i true addr off n s2 = Ret (n, s3) ∧ generic_iunlock i s3 = Ret ((), s4) ∧ in_tr Log.end_op s4 = Ret ((), s5) ∧
    at_rest st a' w5 ∧ writes_between a a' ws ∧ wrote (a_disk a) ip l off d (a_disk a') l' ∧ (extra l' + r <= nfree sb (a_disk a'))%nat ∧
    ∀ k, recovers (after (a_disk a) (take k ws)) (λ D1, agree st (a_disk a) D1 ∨ agree st (a_disk a') D1).
Proof using All.
  intros Hrest Hs Hid Hj Hfa Hu Ho Hmax Hn Hfree n. destruct (begin_op_run st a (tr s) Hrest) as (w1 & E1 & Hh). pose proof (rest_view _ _ Hrest) as Hag.
  set (v := a_view a) in *. pose proof (file_at_agree _ v ip l _ Hj Hag Hfa) as [V1 V2 V3 V4 V5]. set (s1 := with_tr s w1).
  assert (in_tr begin_op_wait s = Ret ((), s1)) as E1' by (apply in_tr_Ret; unfold begin_op_wait; by rewrite (bind_Ret _ _ _ _ _ E1)).
  pose proof (ilock_idle s1 i ip l Hs Hid) as E2. set (ip1 := set_busy true ip) in *. set (s2 := S5 _ _ _ _) in E2.
  assert (has s2 i ip1 l) as Hs2 by (destruct Hs as [Hi Hp]; split; [apply list_lookup_insert_eq; by eapply lookup_lt_Some|done]).
  destruct (writei_spec (HS := log_trans_spec st (a_disk a) (a_hist a)) sb Hsb Hone r s2 i ip1 l v ∅ true addr off d)
    as (w3 & v3 & l' & L3 & E3 & (t & Ht & Hv & Hth & HL & Hdirty) & W1 & W2 & W3 & W4 & W5 & W6 & W7 & W8); try done.
  { by exists (TState ∅ v ∅ ∅). }
  { apply piece_fits; [apply touched_four; [lia|exact Hn]|]. unfold v. by rewrite (agree_nfree (a_disk a)). }
  { cbn. lia. }
  cbn zeta in *. fold n in E3, W2, W3, W4. set (z := Z.max (i_size ip1) (off + n)) in *. set (s3 := S5 _ _ _ _) in E3.
  pose proof (iunlock_busy s3 i (set_size z ip1)) as E4. destruct Hs as [Hi Hp]. pose proof (lookup_lt_Some _ _ _ Hi) as Hlt.
  specialize (E4 ltac:(unfold s3, s2; cbn [itable]; apply list_lookup_insert_eq; by rewrite length_insert) (id_ref _ Hid) eq_refl). set (s4 := S5 _ _ _ _) in E4.
  destruct (end_op_run st (a_disk a) (a_hist a) w3 t Ht Hth) as (w5 & a' & ws & E5 & Hrest' & Hhist & Hdisk & Hview & Hcrash); [rewrite HL; set_solver|by rewrite HL|apply Hrest|].
  assert (agree st v3 (a_disk a')) as Hag' by (intros m Hm; rewrite Hview by done; by rewrite Hv).
  exists s1, s2, s3, s4, w5, a', l', ws. split; [exact E1'|]. split; [exact E2|]. split; [exact E3|]. split; [exact E4|]. split; [|split; [exact Hrest'|split; [done|split; [|split]]]].
  - rewrite (in_tr_Ret Log.end_op s4 () w5 E5). unfold with_tr, s4, s3, s2. cbn [tr um itable pool]. do 3 f_equal. rewrite !list_insert_insert_eq. f_equal.
    unfold grown_by, z, set_size, set_busy. cbn. by rewrite (id_free _ Hid).
  - apply (wrote_agree _ v v3 _ ip l off d _ l' Hj Hfa Hag Hag'). constructor; [constructor; try done| |done].
    + apply (meta_used_mono (HS := any_log) sb Hsb v); done.
    + cbn [inum grown_by set_size]. rewrite W4 by done. by rewrite decide_True.
    + etrans; [exact W3|]. symmetry. apply (overwrite_contents v l off d (i_size ip)); lia.
    + intros j Hjj Hne. rewrite W4 by done. by rewrite decide_False.
  - rewrite (agree_nfree v3); done.
  - intros k c0 a0 g0 Hf Hg Hl. destruct (Hcrash k c0 a0 g0 Hf Hg Hl) as (w & b & E & Hb & Hres). exists w, b. split; [done|]. split; [done|].
    destruct Hres as [Hres|Hres]; [by left|right]. intros m Hm. rewrite Hres, Hview; done.
Qed.

(** ** [filewrite] *)

(** The operations of files that are inodes of [s5]; those of other files are any. *)
Context (others : Objects (s5 (lsys C) U)).
#[local] Instance s5_objects : Objects (s5 (lsys C) U) := {|
  pipeclose := @pipeclose _ others; piperead := @piperead _ others; pipewrite := @pipewrite _ others; socket_close := @socket_close _ others;
  File.begin_op := in_tr begin_op_wait; File.end_op := in_tr Log.end_op; File.iput := Vfs.iput sb; ilock := s5_ilock sb; iunlock := generic_iunlock;
  stati := @stati _ others; copyout_stat := @copyout_stat _ others;
  readi i a o n := s5_readi sb i true a o n; writei i a o n := s5_writei sb i true a o n;
  dev_read := @dev_read _ others; dev_write := @dev_write _ others; dev_ioctl := @dev_ioctl _ others |}.

(** The transactions of a write of [n] bytes, and what the first of them write. *)
Definition pieces (n : Z) : nat := Z.to_nat ((n + max_write - 1) / max_write).
Definition whole_pieces (m : nat) (n : nat) : Prop := m = n ∨ (m < n)%nat ∧ Z.of_nat m mod max_write = 0.

(** The bytes [d] of the user were written at the offset of [f], with the disk writes [ws]. *)
Record written_out (s : files (s5 (lsys C) U)) a fi f ip l d (s' : files (s5 (lsys C) U)) a' l' ws : Prop := {
  wo_table : ftable s' = <[fi := set_off (off f + Z.of_nat (length d)) f]> (ftable s);
  wo_inode : itable (objs s') = <[File.ip f := grown_by ip (off f) d]> (itable (objs s));
  wo_pool : pool (objs s') = pool (with_addrs (objs s) ip l');
  wo_user : um (objs s') = um (objs s);
  wo_rest : at_rest st a' (tr (objs s'));
  wo_writes : writes_between a a' ws;
  wo_disk : wrote (a_disk a) ip l (off f) d (a_disk a') l';
  wo_crash k : recovers (after (a_disk a) (take k ws)) (λ D1, ∃ m l1, whole_pieces m (length d) ∧ wrote (a_disk a) ip l (off f) (take m d) D1 l1);
}.

Lemma file_at_self D ip l c : file_at D ip l c → file_at D ip l (contents D l 0 (i_size ip)).
Proof using. by intros []. Qed.
Lemma rest_recovers a (w : lsys C) : at_rest st a w → recovers (a_disk a) (agree st (a_disk a)).
Proof using.
  intros [? ? ? ? ? ? ? ? ? ar_head] c0 a0 g0 Hf Hg Hl. destruct (recover_run (LSys g0 c0) a0 (a_disk a) []) as (s' & a' & d2 & E & Ha & _ & _ & _ & _ & _ & _ & Hd); cbn [lg]; rewrite ?Hg; try done.
  exists s', a'. split; [done|]. split; [done|]. intros m Hm. cbn [lg] in Hd. rewrite Hg in Hd. rewrite Hd by done. unfold recovered. by rewrite ar_head.
Qed.
Lemma pieces_step n n1 : 0 < n → n1 = Z.min n max_write → pieces n = S (pieces (n - n1)).
Proof using. intros Hn ->. unfold pieces. change max_write with 3072. dlia. Qed.

Lemma written_nothing (s : files (s5 (lsys C) U)) a fi f ip l w : ftable s !! fi = Some f → w = tr (objs s) → at_rest st a w → has (objs s) (File.ip f) ip l → an_inode sb (inum ip) →
  file_at (a_disk a) ip l (contents (a_disk a) l 0 (i_size ip)) → 0 <= off f <= i_size ip → written_out s a fi f ip l [] s a l [].
Proof using All.
  intros Hf -> Hr Hs Hj Hfa Ho. constructor; try done.
  - cbn. rewrite Z.add_0_r. rewrite list_insert_id; [done|]. by destruct f.
  - rewrite list_insert_id; [done|]. destruct Hs as [-> _]. f_equal. unfold grown_by. cbn. rewrite Z.max_l by lia. by destruct ip.
  - by rewrite (with_addrs_same _ _ _ _ Hs).
  - split; [by rewrite app_nil_r|done].
  - by eapply wrote_nil.
  - intros k. rewrite take_nil. eapply recovers_mono; [reflexivity| |by eapply rest_recovers]. intros D1 Ha. exists 0%nat, l. split; [by left|].
    apply (wrote_agree (a_disk a) (a_disk a) (a_disk a) D1 ip l (off f) [] _ l Hj Hfa); [done|done|]. by eapply wrote_nil.
Qed.

(** The first pieces of what is left to write are the first pieces of it all. *)
Lemma whole_later (n1 m n : nat) : n1 = n ∨ Z.of_nat n1 = max_write → (n1 <= n)%nat → whole_pieces m (n - n1) → whole_pieces (n1 + m) n.
Proof using. unfold whole_pieces. change max_write with 3072. intros H1 H2 [->|[H3 H4]]; [left; lia|]. right. split; [lia|]. destruct H1; [lia|]. dlia. Qed.

Lemma written_more (s s1 s2 : files (s5 (lsys C) U)) a fi f ip l d1 d2 a1 l1 ws1 a2 l2 ws2 : has (objs s) (File.ip f) ip l → an_inode sb (inum ip) → file_at (a_disk a) ip l (contents (a_disk a) l 0 (i_size ip)) →
  is_Some (ftable s !! fi) → 0 <= off f <= i_size ip → (0 < length d1)%nat → length d1 = length (d1 ++ d2) ∨ Z.of_nat (length d1) = max_write →
  ftable s1 = <[fi := set_off (off f + Z.of_nat (length d1)) f]> (ftable s) → itable (objs s1) = <[File.ip f := grown_by ip (off f) d1]> (itable (objs s)) →
  pool (objs s1) = pool (with_addrs (objs s) ip l1) → um (objs s1) = um (objs s) → writes_between a a1 ws1 → wrote (a_disk a) ip l (off f) d1 (a_disk a1) l1 →
  (∀ k, recovers (after (a_disk a) (take k ws1)) (λ D1, agree st (a_disk a) D1 ∨ agree st (a_disk a1) D1)) →
  written_out s1 a1 fi (set_off (off f + Z.of_nat (length d1)) f) (grown_by ip (off f) d1) l1 d2 s2 a2 l2 ws2 →
  written_out s a fi f ip l (d1 ++ d2) s2 a2 l2 (ws1 ++ ws2).
Proof using All.
  intros Hs Hj Hfa Hfi Ho Hn1 Hlen T1 I1 P1 U1 [H1 D1] W1 C1 [T2 I2 P2 U2 R2 [H2 D2] W2 C2]. cbn [File.ip off set_off] in *. constructor; try done.
  - rewrite T2, T1, list_insert_insert_eq. f_equal. unfold set_off. cbn. rewrite length_app. f_equal. lia.
  - by rewrite I2, I1, list_insert_insert_eq, grown_app.
  - rewrite P2. etrans; [|by apply (f_equal pool), (with_addrs_twice (objs s) (File.ip f) ip l l1 l2 Hs)]. unfold with_addrs. cbn. rewrite P1. done.
  - by rewrite U2.
  - by eapply writes_trans.
  - by eapply wrote_app.
  - intros k. destruct (decide (k <= length ws1)%nat) as [Hk|Hk].
    + rewrite take_app_le by done. eapply recovers_mono; [reflexivity| |apply C1]. intros D [Ha|Ha].
      * exists 0%nat, l. split; [right; rewrite length_app; split; [lia|done]|]. apply (wrote_agree (a_disk a) (a_disk a) (a_disk a) D ip l (off f) [] _ l Hj Hfa); [done|done|]. by eapply wrote_nil.
      * exists (length d1), l1. split; [|rewrite take_app_length; by apply (wrote_agree (a_disk a) (a_disk a) (a_disk a1) D ip l (off f) d1 _ l1 Hj Hfa)].
        rewrite length_app in *. destruct (decide (length d2 = 0%nat)); [left; lia|right]. split; [lia|]. destruct Hlen as [Hlen| ->]; [lia|done].
    + rewrite take_app_ge by lia. eapply recovers_mono; [| |apply (C2 (k - length ws1)%nat)].
      * intros m. rewrite after_app. by apply after_ext.
      * intros D (m & l3 & Hm & Hw). exists (length d1 + m)%nat, l3. split; [apply whole_later; [by destruct Hlen; [left|right]|rewrite length_app; lia|]|].
        -- rewrite length_app. by replace (length d1 + length d2 - length d1)%nat with (length d2) by lia.
        -- rewrite take_app_add. by eapply wrote_app.
Qed.

Lemma filewrite_loop fuel : ∀ (s : files (s5 (lsys C) U)) a fi f ip l addr i d,
  ftable s !! fi = Some f → at_rest st a (tr (objs s)) → has (objs s) (File.ip f) ip l → idle ip → an_inode sb (inum ip) →
  file_at (a_disk a) ip l (contents (a_disk a) l 0 (i_size ip)) → u_bytes (um (objs s)) true (u64 (addr + i)) d → 0 <= off f <= i_size ip →
  off f + Z.of_nat (length d) <= MAXFILE * BSIZE → (extra l + 4 * pieces (Z.of_nat (length d)) <= nfree sb (a_disk a))%nat → (length d <= fuel)%nat → let n := i + Z.of_nat (length d) in
  ∃ (s' : files (s5 (lsys C) U)) a' l' ws, write_loop fuel fi addr n i s = Ret (n, s') ∧ written_out s a fi f ip l d s' a' l' ws.
Proof using All.
  induction fuel as [|fuel IH]; intros s a fi f ip l addr i d Hf Hrest Hs Hid Hj Hfa Hu Ho Hmax Hfree Hfuel n; cbn [write_loop].
  all: destruct (Z.ltb_spec i n) as [Hlt|Hge]; cbn [negb]; [|assert (d = []) as -> by (destruct d; [done|cbn in *; lia]);
    exists s, a, l, []; split; [unfold n; cbn; by rewrite Z.add_0_r|by apply (written_nothing s a fi f ip l (tr (objs s)))]].
  { lia. }
  assert (0 < Z.of_nat (length d)) as Hd by lia. set (n1 := if max_write <? n - i then max_write else n - i).
  assert (n1 = Z.min (Z.of_nat (length d)) max_write) as En by (unfold n1; destruct (Z.ltb_spec max_write (n - i)); lia). assert (0 < max_write) by done.
  set (m := Z.to_nat n1). set (d1 := take m d). set (d2 := drop m d). assert (Z.of_nat (length d1) = n1) as Hl1 by (unfold d1; rewrite length_take; lia).
  assert (length d2 = (length d - length d1)%nat) as Hl2 by (unfold d2; rewrite length_drop; lia). rewrite (pieces_step _ n1) in Hfree by done.
  destruct (piece_run (objs s) a (File.ip f) ip l (off f) (u64 (addr + i)) d1 (4 * pieces (Z.of_nat (length d) - n1)))
    as (t1 & t2 & t3 & t4 & w5 & a1 & l1 & ws1 & E1 & E2 & E3 & E4 & E5 & Hrest1 & Hw1 & Hd1 & Hfree1 & Hcrash); try done; try lia.
  { by apply u_bytes_take. }
  set (w1 := S5 w5 _ _ _) in E5. set (f1 := set_off (off f + n1) f). set (s1 := Files (<[fi := f1]> (ftable s)) w1). rewrite Hl1 in E3.
  assert (write_piece fi (u64 (addr + i)) n1 s = Ret (n1, s1)) as Ep.
  { destruct s as [t w]. change (MAXFILE * BSIZE) with 274432 in Hmax. apply (write_piece_run t w t1 t2 t3 t4 w1 fi f); try done; lia. }
  rewrite (bind_Ret _ _ _ _ _ Ep), Z.eqb_refl. cbn [negb]. apply lookup_lt_Some in Hf as Hfi. pose proof (lookup_lt_Some _ _ _ (proj1 Hs)) as Hii.
  destruct (IH s1 a1 fi f1 (grown_by ip (off f) d1) l1 addr (i + n1) d2) as (s2 & a2 & l2 & ws2 & E & Hout).
  - by apply list_lookup_insert_eq.
  - exact Hrest1.
  - split; [by apply list_lookup_insert_eq|]. apply (with_addrs_has _ _ _ _ l1 Hs).
  - by destruct Hid.
  - done.
  - eapply file_at_self, Hd1.
  - destruct (copyin_ok (um (objs s)) true (u64 (addr + i)) d m Hu) as [_ Hu2]; [lia|]. cbn [um objs s1 w1].
    replace (u64 (addr + (i + n1))) with (u64 (u64 (addr + i) + Z.of_nat m)); [done|]. autorewrite with word. f_equal. lia.
  - cbn. lia.
  - cbn [off f1 set_off]. lia.
  - replace (Z.of_nat (length d2)) with (Z.of_nat (length d) - n1) by lia. done.
  - lia.
  - replace (i + n1 + Z.of_nat (length d2)) with n in E by lia. exists s2, a2, l2, (ws1 ++ ws2). split; [exact E|]. rewrite <- (take_drop m d). fold d1 d2.
    apply (written_more s s1 s2 a fi f ip l d1 d2 a1 l1 ws1 a2 l2 ws2); try done; try lia.
    + rewrite length_app. lia.
    + by rewrite Hl1.
    + by rewrite Hl1.
Qed.

(** C35: [filewrite] on a file of [s5] writes all the bytes of the user, in transactions
    of three blocks, when nobody else uses the log or the inode, the bytes can be
    read, the file stays within the largest size, and for each transaction there are
    four free blocks (and one for the indirect block, if the file has none): it
    returns their number, the offset is behind them, the disk has the new contents and
    the inode in memory, and no other file, inode or state changes. Whatever disk
    write the machine stops at, recovery leaves the file with a first part of the
    bytes, a whole number of transactions, and everything else as it was. *)
Theorem filewrite_correct (s : files (s5 (lsys C) U)) a fi f ip l addr d :
  ftable s !! fi = Some f → ftype f = FD_INODE → File.writable f = true → at_rest st a (tr (objs s)) → has (objs s) (File.ip f) ip l → idle ip → an_inode sb (inum ip) →
  file_at (a_disk a) ip l (contents (a_disk a) l 0 (i_size ip)) → in_range 64 addr → u_bytes (um (objs s)) true addr d → 0 <= off f <= i_size ip →
  off f + Z.of_nat (length d) <= MAXFILE * BSIZE → (extra l + 4 * pieces (Z.of_nat (length d)) <= nfree sb (a_disk a))%nat → let n := Z.of_nat (length d) in
  ∃ (s' : files (s5 (lsys C) U)) a' l' ws, filewrite fi addr n s = Ret (n, s') ∧ written_out s a fi f ip l d s' a' l' ws.
Proof using All.
  intros Hf Ht Hwr Hrest Hs Hid Hj Hfa Ha Hu Ho Hmax Hfree n.
  destruct (filewrite_loop (Z.to_nat n) s a fi f ip l addr 0 d) as (s' & a' & l' & ws & E & Hout); try done; [by rewrite Z.add_0_r, (wrap_small 64)|lia|].
  exists s', a', l', ws. split; [|done]. unfold filewrite. rewrite (bind_Ret _ _ _ _ _ (get_file_run _ _ _ Hf)), Hwr, Ht. cbn [negb].
  rewrite Z.add_0_l in E. fold n in E. rewrite (bind_Ret _ _ _ _ _ E), Z.eqb_refl. done.
Qed.
End filewrite.

(** ** A run *)

Section demo.
#[local] Existing Instance cache1.
#[local] Existing Instance cache1_spec.
(** The machine of [S5Log] between operations; the file in it is open, at offset 8. *)
Definition rest_log : log_t := set_outstanding 0 demo_log.
Definition rest_state : astate nat := AState (λ _, 0) (λ _, None) demo demo 30 [].
Definition rest_ip : inode := set_busy false demo_ip.
Definition counting (a : Z) : Z := a mod 256.
Definition counted (a n : Z) : bytes := (λ k, counting (u64 (a + k))) <$> seqZ 0 n.
Definition rest_s5 (c : bsys ()) : s5 (lsys (bsys ())) (Z → Z) := S5 (LSys rest_log c) counting [rest_ip] [S5Inode true demo_l].
Definition rest_file : file := File FD_INODE 1 true true 0 0 0 8 0.

Lemma demo_at_rest c : bc_rep c rest_state → at_rest 2 rest_state (LSys rest_log c).
Proof. intros Hc. constructor; try done. by apply placed_nil. Qed.
Lemma counted_bytes user a n : plain_bytes counting user a (counted a n).
Proof. intros k Hk. unfold counted in *. rewrite length_fmap, length_seqZ in Hk. rewrite list_lookup_fmap, lookup_seqZ_lt by lia. done. Qed.
Lemma counted_length a n : 0 <= n → Z.of_nat (length (counted a n)) = n.
Proof. intros. unfold counted. rewrite length_fmap, length_seqZ. lia. Qed.
Lemma rest_file_at : file_at demo_sb demo rest_ip demo_l (contents demo demo_l 0 (i_size rest_ip)).
Proof. constructor; [exact demo_wf|exact demo_dense|exact demo_meta|reflexivity|done]. Qed.
Lemma rest_zeros d : Z.of_nat (length d) = 4000 → overwrite (contents demo demo_l 0 10) 8 d = replicate 8 0 ++ d.
Proof. intros Hl. unfold overwrite. rewrite drop_ge, app_nil_r; [done|]. pose proof (contents_length demo demo_l 10). lia. Qed.

(** Four thousand bytes, in two transactions. *)
Lemma filewrite_correct_witness : ∃ (c : bsys ()) s' a' l', filewrite (HO := s5_objects demo_sb no_objects) 0 64 4000 (Files [rest_file] (rest_s5 c)) = Ret (4000, s') ∧
  at_rest 2 a' (tr (objs s')) ∧ contents (a_disk a') l' 0 4008 = replicate 8 0 ++ counted 64 4000 ∧ ftable s' = [File FD_INODE 1 true true 0 0 0 4008 0].
Proof.
  destruct demo_boot as [c Hc]. pose proof (counted_length 64 4000 ltac:(done)) as Hl. pose proof (counted_bytes true 64 4000) as Hb. remember (counted 64 4000) as d eqn:Ed. clear Ed.
  destruct (filewrite_correct demo_sb 2 ltac:(done) demo_sb_ok ltac:(done) no_objects (Files [rest_file] (rest_s5 c)) rest_state 0 rest_file rest_ip demo_l 64 d) as (s' & a' & l' & ws & E & W).
  - reflexivity.
  - reflexivity.
  - reflexivity.
  - by apply demo_at_rest.
  - split; [done|]. by exists true.
  - done.
  - done.
  - exact rest_file_at.
  - done.
  - exact Hb.
  - done.
  - rewrite Hl. done.
  - rewrite Hl. destruct (demo_fits 10) as [_ Hf]; [done|]. etrans; [|exact Hf]. apply Nat.leb_le. reflexivity.
  - exists c, s', a', l'. rewrite Hl in E. destruct W as [Wt _ _ _ Wr _ [[_ _ _ _ Ec] _ _] _]. split; [exact E|]. split; [exact Wr|]. split.
    + unfold grown_by in Ec. rewrite Hl in Ec. etrans; [exact Ec|]. by apply rest_zeros.
    + rewrite Wt, Hl. done.
Defined.
End demo.
