(* ===== verification/VfsPath.v ===== *)
(** * Path names: [skipelem] and [namex] of [kernel/vfs.c]

    Over the directories of [S5Dir] and the inode table of [Vfs], for one process at
    a time. [tree] describes a file system on disk: for each inode its fields and
    blocks, and for a directory the map of its names. [namex_correct] says that
    [namex] walks the tree along the components of the path, and which references
    it leaves behind: the one it returns, and one to the root for every component
    it has looked up, which nobody puts back. *)
From S2P Require Import Prelude BlockCache Bio Log LogBio Trans TransLog S5 S5Bits S5Map S5Io S5Log S5Inode S5Dir Vfs.

Definition slash : Z := 47.
Definition dot : Z := 46.

(** ** The code *)

(** A path is the list of its characters, without the NUL. *)
Fixpoint skip_slashes (p : bytes) : bytes := match p with c :: q => if c =? slash then skip_slashes q else p | [] => [] end.
Fixpoint take_elem (p : bytes) : bytes * bytes :=
  match p with c :: q => if c =? slash then ([], p) else let '(e, r) := take_elem q in (c :: e, r) | [] => ([], []) end.
(** The name is what [strncmp] sees of the buffer: at most [DIRSIZ] characters. *)
Definition skipelem (p : bytes) : option (bytes * bytes) :=
  match skip_slashes p with
  | [] => None
  | p => let '(e, r) := take_elem p in Some (take (Z.to_nat DIRSIZ) e, skip_slashes r)
  end.

Section code.
Context {W B U : Type} `{HT : Trans W B} `{HU : UserMem U} (sb : s5_superblock) (mpoint : list (option (nat * nat))) (de : Z).
Abbreviation FS := (M (s5 W U)).

(** From [component_search] on: the inode of the name, in the directory [ip] or, for
    the parent of a mounted root, in the one it is mounted on. *)
Fixpoint component_search (fuel : nat) (ip : nat) (name : bytes) : FS (option nat) :=
  match fuel with
  | O => out_of_fuel
  | S fuel =>
      r ← s5_dirlookup sb de (s5_iget mpoint) ip name;
      match r with
      | None => iunlockput sb ip ;; mret None
      | Some (next, _) =>
          ir ← s5_getroot mpoint;
          nx ← get_inode next; ri ← get_inode ir;
          root ← (if inum nx =? inum ri then isinoderoot mpoint ip else mret false);
          if root && (strncmp_l 2 name [dot; dot] =? 0) then
            m ← mtablemntinode mpoint ip;
            iunlockput sb ip ;;
            m ← oget m;
            s5_ilock sb m ;;
            incr_ref m ;;
            component_search fuel m name
          else iunlockput sb ip ;; mret (Some next)
      end
  end.
(** The inode, and the name of the last component for [nameiparent]. *)
Fixpoint namex_loop (fuel : nat) (parent : bool) (ip : nat) (path : bytes) : FS (option (nat * bytes)) :=
  match skipelem path with
  | None => if parent then iput sb ip ;; mret None else mret (Some (ip, []))
  | Some (name, path) =>
      match fuel with
      | O => out_of_fuel
      | S fuel =>
          s5_ilock sb ip ;;
          i ← get_inode ip;
          if negb (i_type i =? T_DIR) then iunlockput sb ip ;; mret None else
          if parent && bool_decide (path = []) then generic_iunlock ip ;; mret (Some (ip, name)) else
          next ← component_search (S MOUNTSIZE) ip name;
          match next with Some next => namex_loop fuel parent next path | None => mret None end
      end
  end.
Definition namex (cwd : nat) (path : bytes) (parent : bool) : FS (option (nat * bytes)) :=
  ip ← (if bool_decide (head path = Some slash) then s5_getroot mpoint else idup cwd);
  namex_loop (length path) parent ip path.
Definition namei (cwd : nat) (path : bytes) : FS (option nat) := r ← namex cwd path false; mret (fst <$> r).
Definition nameiparent (cwd : nat) (path : bytes) : FS (option (nat * bytes)) := namex cwd path true.
End code.

(** ** Components *)

(** The pieces between slashes, the empty ones left out. *)
Fixpoint pieces (cur : bytes) (p : bytes) : list bytes :=
  match p with
  | [] => if decide (cur = []) then [] else [cur]
  | c :: p => if c =? slash then (if decide (cur = []) then [] else [cur]) ++ pieces [] p else pieces (cur ++ [c]) p
  end.
Definition components (p : bytes) : list bytes := take (Z.to_nat DIRSIZ) <$> pieces [] p.

Lemma pieces_elem p : ∀ cur, let '(e, r) := take_elem p in pieces cur p = (if decide (cur ++ e = []) then [] else [cur ++ e]) ++ pieces [] (skip_slashes r).
Proof.
  induction p as [|c p IH]; intros cur; cbn [take_elem pieces].
  - cbn. by rewrite !app_nil_r.
  - destruct (Z.eqb_spec c slash) as [->|Hc].
    + cbn [skip_slashes]. rewrite Z.eqb_refl, app_nil_r. f_equal. clear IH cur. induction p as [|c p IH]; [done|]. cbn [skip_slashes]. destruct (Z.eqb_spec c slash) as [->|Hc]; [|done].
      cbn [pieces]. by rewrite Z.eqb_refl.
    + specialize (IH (cur ++ [c])). destruct (take_elem p) as [e r]. rewrite IH, <- app_assoc. done.
Qed.
Lemma take_elem_length p : let '(e, r) := take_elem p in (length r <= length p)%nat ∧ (e = [] → p = [] ∨ head p = Some slash) ∧ (e ≠ [] → (length r < length p)%nat).
Proof.
  induction p as [|c p IH]; cbn [take_elem]; [split_and!; [done|by left|done]|]. destruct (Z.eqb_spec c slash) as [->|Hc]; [split_and!; [done|by right|done]|].
  destruct (take_elem p) as [e r]. destruct IH as (H1 & H2 & H3). cbn. split_and!; [lia|done|lia].
Qed.
Lemma skip_slashes_head p : head (skip_slashes p) ≠ Some slash ∧ (length (skip_slashes p) <= length p)%nat ∧ pieces [] p = pieces [] (skip_slashes p).
Proof.
  induction p as [|c p IH]; [done|]. cbn [skip_slashes]. destruct (Z.eqb_spec c slash) as [->|Hc]; [|split_and!; [cbn; by intros [=]|done|done]].
  destruct IH as (H1 & H2 & H3). split_and!; [done|cbn; lia|]. cbn [pieces]. by rewrite Z.eqb_refl.
Qed.
(** [skipelem] goes through the components. *)
Lemma skipelem_components p :
  match skipelem p with
  | None => components p = []
  | Some (name, rest) => components p = name :: components rest ∧ (length rest < length p)%nat ∧ (rest = [] ↔ components rest = []) ∧ (Forall is_byte p → Forall is_byte name ∧ Forall is_byte rest)
  end.
Proof.
  unfold skipelem, components. destruct (skip_slashes_head p) as (H1 & H2 & ->). pose proof (pieces_elem (skip_slashes p) []) as Hp. pose proof (take_elem_length (skip_slashes p)) as Hl.
  assert (∀ q, Forall is_byte q → Forall is_byte (skip_slashes q)) as Hb1.
  { induction q as [|c q IH]; intros Hq; [done|]. cbn [skip_slashes]. destruct (c =? slash); [|done]. apply IH. by apply Forall_cons in Hq as [_ ?]. }
  assert (∀ q, Forall is_byte q → Forall is_byte (take_elem q).1 ∧ Forall is_byte (take_elem q).2) as Hb2.
  { induction q as [|c q IH]; intros Hq; [done|]. cbn [take_elem]. destruct (c =? slash); [done|]. apply Forall_cons in Hq as [Hc Hq]. destruct (IH Hq) as [? ?]. destruct (take_elem q) as [e r]. split; [by constructor|done]. }
  destruct (skip_slashes p) as [|c q] eqn:E; [done|]. rewrite <- E in *. destruct (take_elem (skip_slashes p)) as [e r] eqn:Ee. destruct Hl as (L1 & L2 & L3).
  assert (e ≠ []) as Hne by (intros He; destruct (L2 He); congruence). cbn [app] in Hp. rewrite decide_False in Hp by done. rewrite Hp. split; [done|].
  destruct (skip_slashes_head r) as (R1 & R2 & R3). split; [specialize (L3 Hne); lia|]. split.
  - split; [by intros ->|]. destruct (skip_slashes r) as [|d r'] eqn:Er; [done|]. intros Hc. exfalso. pose proof (pieces_elem (d :: r') []) as Hp'. pose proof (take_elem_length (d :: r')) as Hl'.
    destruct (take_elem (d :: r')) as [e' r'']. destruct Hl' as (_ & L2' & _). assert (e' ≠ []) as Hne' by (intros He; by destruct (L2' He)). cbn [app] in Hp'. rewrite decide_False in Hp' by done. by rewrite Hp' in Hc.
  - intros Hby. pose proof (Hb2 _ (Hb1 _ Hby)) as [Hb3 Hb4]. rewrite Ee in Hb3, Hb4. split; [by apply Forall_take|by apply Hb1].
Qed.

(** ** The file system on disk and in the table *)

(** An inode with its blocks; a directory's names. *)
Record tnode := TNode { t_ino : inode; t_addrs : list Z; t_dir : option (gmap bytes Z) }.
Definition same_fields (ip ip0 : inode) : Prop :=
  i_type ip = i_type ip0 ∧ i_major ip = i_major ip0 ∧ i_minor ip = i_minor ip0 ∧ nlink ip = nlink ip0 ∧ i_size ip = i_size ip0.
Definition is_node (nd : tnode) : Prop := i_type (t_ino nd) ≠ 0 ∧ i_type (t_ino nd) ≠ T_MOUNT ∧ nlink (t_ino nd) ≠ 0 ∧ inode_ok (t_ino nd) (t_addrs nd).

(** The walk from inode [j] along the names: where it ends (for the parent: before the
    last name, which is kept), and how many names it has looked up. *)
Fixpoint walk (T : gmap Z tnode) (parent : bool) (j : Z) (ns : list bytes) : option (Z * bytes) * nat :=
  match ns with
  | [] => (if parent then None else Some (j, []), 0%nat)
  | n :: ns =>
      match T !! j ≫= t_dir with
      | None => (None, 0%nat)
      | Some m =>
          if parent && bool_decide (ns = []) then (Some (j, n), 0%nat) else
          match m !! name_of n with Some j => let '(r, k) := walk T parent j ns in (r, S k) | None => (None, 0%nat) end
      end
  end.

Section tree.
Context {W B U : Type} `{HT : Trans W B} `{HU : UserMem U} `{HS : !TransSpec W B} `{HUS : !UserMemSpec U} `{HK : !KernelMem U}.
Context (sb : s5_superblock) (Hsb : sb_ok t_low t_size sb) (de : Z).
Context (mpoint : list (option (nat * nat))) (Hmp : no_mounts mpoint).
Context (T : gmap Z tnode) (v : Z → block) (L : gset Z).
Implicit Types (s : s5 W U) (H : list nat).
Local Abbreviation none := (∅ : gmap Z B).

(** The disk has the tree. *)
Definition tree : Prop := ∀ j nd, T !! j = Some nd →
  an_inode sb j ∧ is_node nd ∧ inode_on_disk sb v j = Some (dinode_bytes (t_ino nd) (t_addrs nd)) ∧
  match t_dir nd with
  | None => i_type (t_ino nd) ≠ T_DIR
  | Some m => i_type (t_ino nd) = T_DIR ∧ wf sb v (t_addrs nd) ∧ dense v (t_addrs nd) (i_size (t_ino nd)) ∧ i_size (t_ino nd) mod DIRENT = 0 ∧
      let c := contents v (t_addrs nd) 0 (i_size (t_ino nd)) in
      Forall is_byte c ∧ NoDup (names (dirents c)) ∧ dir_map (dirents c) = m ∧ ∀ n k, m !! n = Some k → is_Some (T !! k)
  end.
Context (Htree : tree) (Hroom : roomy none L 1).

(** The entry of the table agrees with the tree. *)
Definition loaded_as s (ip : inode) (nd : tnode) : Prop := same_fields ip (t_ino nd) ∧ ∃ u, pool s !! i_private ip = Some (S5Inode u (t_addrs nd)).
(** [H] are the references held, [lk] the inode that is locked. *)
Record vstate s (H : list nat) (lk : option nat) : Prop := {
  vs_tr : TR (tr s) v none L;
  vs_refs : refs_ok (keys s) (used s) H;
  vs_type : ∀ i ip, itable s !! i = Some ip → i_type ip ≠ T_MOUNT;
  vs_slot : ∀ i ip, itable s !! i = Some ip → 0 < i_ref ip → ∃ nd, T !! inum ip = Some nd ∧ i_busy ip = bool_decide (lk = Some i) ∧ (i_valid ip = true → loaded_as s ip nd);
}.

Lemma vrefs_perm ks us H H' : H ≡ₚ H' → refs_ok ks us H → refs_ok ks us H'.
Proof using.
  intros Hp [ro_count0 ro_one0 ro_used0 ro_owner0 ro_length0 ro_held0]. assert (∀ i, uses_of H i = uses_of H' i) as Hu.
  { intros i. unfold uses_of. f_equal. apply (Permutation_count_occ Nat.eq_dec). exact Hp. }
  split; try done; [intros; rewrite <- Hu; by eapply ro_count0|]. intros i Hi. apply ro_held0. by rewrite Hp.
Qed.
Lemma vstate_perm s H H' lk : H ≡ₚ H' → vstate s H lk → vstate s H' lk.
Proof using. intros Hp []. split; try done. by eapply vrefs_perm. Qed.
Lemma held_slot s H lk i : vstate s H lk → i ∈ H → ∃ ip, itable s !! i = Some ip ∧ 0 < i_ref ip.
Proof using.
  intros [] Hi. destruct (lookup_lt_is_Some_2 (keys s) i (ro_held _ _ _ vs_refs0 i Hi)) as [[[n r] p] Hk]. pose proof (ro_count _ _ _ vs_refs0 _ _ _ _ Hk) as Hr.
  apply lookup_keys in Hk as (ip & Hip & <- & <- & <-). exists ip. split; [done|]. rewrite Hr. by apply uses_pos.
Qed.
(** Operations that only touch the transaction and memory. *)
Lemma vstate_same s s' H lk : same_files s s' → TR (tr s') v none L → vstate s H lk → vstate s' H lk.
Proof using.
  intros [E1 E2] Ht []. assert (keys s' = keys s ∧ used s' = used s) as [Ek Eu] by (unfold keys, used; by rewrite E1, E2). split; [done|by rewrite Ek, Eu|by rewrite E1|].
  intros i ip Hi Hr. rewrite E1 in Hi. destruct (vs_slot0 i ip Hi Hr) as (nd & Hn & Hb & Hl). exists nd. split_and!; [done..|]. intros Hv. destruct (Hl Hv) as [Hf Hp]. split; [done|]. by rewrite E2.
Qed.
(** One entry of the table is changed, and at most its own pool entry. *)
Lemma vstate_inode s s' H lk lk' i ip ip' : vstate s H lk → itable s !! i = Some ip → 0 < i_ref ip → key ip' = key ip → itable s' = <[i := ip']> (itable s) → used s' = used s →
  (∀ q, q ≠ i_private ip → pool s' !! q = pool s !! q) → TR (tr s') v none L → i_type ip' ≠ T_MOUNT → (∀ j, j ≠ i → (lk = Some j ↔ lk' = Some j)) → i_busy ip' = bool_decide (lk' = Some i) →
  (∀ nd, T !! inum ip = Some nd → i_valid ip' = true → loaded_as s' ip' nd) → vstate s' H lk'.
Proof using.
  intros [] Hi Hr Hk Et Eu Hpool Ht Hty Hlk Hbusy Hval. unfold key in Hk. injection Hk as E1 E2 E3.
  assert (keys s' = keys s) as Ek.
  { unfold keys. rewrite Et, list_fmap_insert. apply list_insert_id. rewrite list_lookup_fmap, Hi. unfold key. cbn. by rewrite E1, E2, E3. }
  split; [done|by rewrite Ek, Eu|..].
  - intros j jp Hj. rewrite Et in Hj. apply list_lookup_insert_Some in Hj as [(<- & <- & _)|[_ Hj]]; [done|by eapply vs_type0].
  - intros j jp Hj Hrj. rewrite Et in Hj. apply list_lookup_insert_Some in Hj as [(<- & <- & _)|[Hne Hj]].
    + destruct (vs_slot0 i ip Hi Hr) as (nd & Hn & _). exists nd. rewrite E1. split; [done|]. split; [done|]. by apply Hval.
    + destruct (vs_slot0 j jp Hj Hrj) as (nd & Hn & Hb & Hl). exists nd. split; [done|]. split.
      * rewrite Hb. apply bool_decide_ext. by apply Hlk.
      * intros Hv. destruct (Hl Hv) as [Hf [u Hp]]. split; [done|]. exists u. rewrite Hpool; [done|].
        destruct (ro_one _ _ _ vs_refs0 i j (inum ip) (i_ref ip) (i_private ip) (inum jp) (i_ref jp) (i_private jp)) as [_ Hpp]; try done; [apply lookup_keys; by exists ip|apply lookup_keys; by exists jp].
Qed.

(** ** The operations *)

Lemma ilock_run s H i : vstate s H None → i ∈ H → ∃ s' ip nd, s5_ilock sb i s = Ret ((), s') ∧ vstate s' H (Some i) ∧
  itable s' !! i = Some ip ∧ T !! inum ip = Some nd ∧ loaded_as s' ip nd ∧ 0 < i_ref ip ∧ i_valid ip = true ∧ ∀ ip0, itable s !! i = Some ip0 → inum ip = inum ip0.
Proof using Hsb Htree Hroom.
  intros Hv Hin. destruct (held_slot s H None i Hv Hin) as (ip & Hi & Hr). pose proof Hv as []. destruct (vs_slot0 i ip Hi Hr) as (nd & Hn & Hbusy & Hload). cbn in Hbusy.
  destruct (Htree _ _ Hn) as (Hj & (Hty & Hmt & Hnl & Hok) & Hd & _).
  assert (used s !! i_private ip = Some true) as Hu by (apply (ro_used _ _ _ vs_refs0 i (inum ip) (i_ref ip)); [apply lookup_keys; by exists ip|done]).
  unfold used in Hu. rewrite list_lookup_fmap in Hu. destruct (pool s !! i_private ip) as [[u lm]|] eqn:Hp; [|done]. cbn in Hu. injection Hu as ->.
  assert (has s i ip lm) as Hhas by (split; [done|by exists true]).
  destruct (ilock_spec sb Hsb s i ip lm v L (t_ino nd) (t_addrs nd) vs_tr0 Hhas Hj Hroom Hok Hd) as (_ & _ & Hvalid & Hinv). destruct (i_valid ip) eqn:Evalid.
  - specialize (Hvalid ltac:(lia) Hbusy eq_refl). eexists _, (set_busy true ip), nd. split; [exact Hvalid|]. destruct (Hload eq_refl) as [Hf Hpl].
    assert (itable (S5 (tr s) (um s) (<[i := set_busy true ip]> (itable s)) (pool s)) !! i = Some (set_busy true ip)) as Hi' by (apply list_lookup_insert_eq; by eapply lookup_lt_Some).
    split; [|split_and!; try done; intros ip0 E0; by simplify_eq].
    eapply (vstate_inode s _ H None (Some i) i ip (set_busy true ip)); try done; [exact (vs_type0 i ip Hi)|intros j Hne; split; congruence|by rewrite bool_decide_true|].
    intros nd' Hn' _. rewrite Hn in Hn'. by injection Hn' as <-.
  - specialize (Hinv ltac:(lia) Hbusy eq_refl). rewrite (proj2 (Z.eqb_neq _ _) Hty) in Hinv. destruct Hinv as (w' & E & Ht'). set (ip' := loaded (set_busy true ip) (t_ino nd)) in *.
    set (s' := S5 w' (um s) (<[i := ip']> (itable s)) (pool (with_addrs s ip (t_addrs nd)))) in *. exists s', ip', nd. split; [exact E|].
    assert (itable s' !! i = Some ip') as Hi' by (apply list_lookup_insert_eq; by eapply lookup_lt_Some).
    assert (loaded_as s' ip' nd) as Hl by (split; [done|]; exists true; cbn; by rewrite list_lookup_alter_eq, Hp).
    split; [|split_and!; try done; intros ip0 E0; by simplify_eq].
    eapply (vstate_inode s s' H None (Some i) i ip ip'); try done.
    + unfold used. cbn. by apply used_alter.
    + intros q Hq. cbn. by rewrite list_lookup_alter_ne.
    + intros j Hne. split; congruence.
    + by rewrite bool_decide_true.
    + intros nd' Hn' _. rewrite Hn in Hn'. by injection Hn' as <-.
Qed.
Lemma iunlock_run s H i : vstate s H (Some i) → i ∈ H → ∃ s' ip ip', generic_iunlock i s = Ret ((), s') ∧ vstate s' H None ∧ itable s !! i = Some ip ∧ itable s' !! i = Some ip' ∧ inum ip' = inum ip.
Proof using.
  intros Hv Hin. destruct (held_slot s H _ i Hv Hin) as (ip & Hi & Hr). pose proof Hv as []. destruct (vs_slot0 i ip Hi Hr) as (nd & Hn & Hbusy & Hload). rewrite bool_decide_true in Hbusy by done.
  unfold generic_iunlock. rewrite (bind_Ret _ _ _ _ _ (get_inode_at s i ip Hi)), Hbusy. rewrite (proj2 (Z.ltb_ge _ _)) by lia. cbn [negb orb]. rewrite (upd_inode_at s i ip _ Hi).
  exists (with_inode s i (set_busy false ip)), ip, (set_busy false ip). split; [done|]. split; [|split_and!; [done|apply list_lookup_insert_eq; by eapply lookup_lt_Some|done]].
  eapply (vstate_inode s _ H (Some i) None i ip (set_busy false ip)); try done; [exact (vs_type0 i ip Hi)|intros j Hne; split; congruence|].
  intros nd' Hn' Hval. rewrite Hn in Hn'. injection Hn' as <-. destruct (Hload Hval) as [Hf Hp]. by split.
Qed.

(** ** References *)

(** Entry [i] of the table is the one of inode [n]; held entries keep their inode. *)
Definition slot_of s (i : nat) (n : Z) : Prop := ∃ ip, itable s !! i = Some ip ∧ inum ip = n.
Definition stable s s' H : Prop := length (itable s') = length (itable s) ∧ ∀ i n, i ∈ H → slot_of s i n → slot_of s' i n.
Lemma stable_refl s H : stable s s H.
Proof using. done. Qed.
Lemma stable_trans s1 s2 s3 H : stable s1 s2 H → stable s2 s3 H → stable s1 s3 H.
Proof using. intros [L1 S1] [L2 S2]. split; [congruence|]. auto. Qed.
Lemma stable_sub s s' H H' : (∀ i, i ∈ H' → i ∈ H) → stable s s' H → stable s s' H'.
Proof using. intros Hs [Hl Hi]. split; [done|]. auto. Qed.
Lemma stable_keys s s' H : same_refs s s' → stable s s' H.
Proof using.
  intros [Ek _]. split; [by rewrite <- (length_fmap key (itable s)), <- (length_fmap key (itable s')); f_equal|]. intros i n _ (ip & Hi & Hn).
  assert (keys s' !! i = Some (n, i_ref ip, i_private ip)) as Hk by (rewrite Ek; apply lookup_keys; by exists ip). apply lookup_keys in Hk as (ip' & Hi' & Hn' & _). by exists ip'.
Qed.
Lemma slot_insert s s' i ip ip' H : itable s !! i = Some ip → itable s' = <[i := ip']> (itable s) → (i ∈ H → inum ip' = inum ip) → stable s s' H.
Proof using.
  intros Hi Et Hn. split; [by rewrite Et, length_insert|]. intros j n Hj (jp & Hjp & <-). unfold slot_of. rewrite Et. destruct (decide (i = j)) as [<-|Hne].
  - rewrite list_lookup_insert_eq by (by eapply lookup_lt_Some). exists ip'. split; [done|]. rewrite Hi in Hjp. injection Hjp as <-. by apply Hn.
  - rewrite list_lookup_insert_ne by done. by exists jp.
Qed.

Lemma vstate_change s s' H H' lk i ip' : vstate s H lk → (i < length (itable s))%nat → itable s' = <[i := ip']> (itable s) → TR (tr s') v none L → refs_ok (keys s') (used s') H' → i_type ip' ≠ T_MOUNT →
  (∀ j jp, j ≠ i → itable s !! j = Some jp → 0 < i_ref jp → pool s' !! i_private jp = pool s !! i_private jp) →
  (0 < i_ref ip' → ∃ nd, T !! inum ip' = Some nd ∧ i_busy ip' = bool_decide (lk = Some i) ∧ (i_valid ip' = true → loaded_as s' ip' nd)) → vstate s' H' lk.
Proof using.
  intros [] Hi Et Ht Hrefs Hty Hpool Hslot. split; [done|done|..].
  - intros j jp Hj. rewrite Et in Hj. apply list_lookup_insert_Some in Hj as [(<- & <- & _)|[_ Hj]]; [done|by eapply vs_type0].
  - intros j jp Hj Hrj. rewrite Et in Hj. apply list_lookup_insert_Some in Hj as [(<- & <- & _)|[Hne Hj]]; [by apply Hslot|].
    destruct (vs_slot0 j jp Hj Hrj) as (nd & Hn & Hb & Hl). exists nd. split_and!; [done..|]. intros Hv. destruct (Hl Hv) as [Hf Hp]. split; [done|]. rewrite (Hpool j jp); done.
Qed.

Lemma iget_vstate s H lk n : vstate s H lk → is_Some (T !! n) → (base.size (list_to_set H : gset nat) < length (itable s))%nat → Z.of_nat (length H) < 2 ^ 31 - 1 → (∀ j, lk = Some j → j ∈ H) →
  ∃ i s', s5_iget mpoint n s = Ret (i, s') ∧ vstate s' (i :: H) lk ∧ slot_of s' i n ∧ stable s s' H.
Proof using Hmp.
  intros Hv Htn Hfull Hlen Hlk. pose proof (vs_refs _ _ _ Hv) as Hok. pose proof (iget_run mpoint n s Hmp) as Hw.
  assert (∀ i s', s5_iget mpoint n s = Ret (i, s') → refs_ok (keys s') (used s') (i :: H)) as Hrefs by (intros i s'; by apply iget_refs).
  assert (∀ i ip, itable s !! i = Some ip → i_ref ip = uses_of H i) as Hcnt.
  { intros i ip Hi. apply (ro_count _ _ _ Hok i (inum ip) _ (i_private ip)). apply lookup_keys. by exists ip. }
  destruct Hw as [i ip Hi Hr Hn Ht|i ip Hi Hr Hn Ht|Hall|i ip q e Hi Hr Hn Hq He|i ip Hi Hr Hall].
  - specialize (Hrefs _ _ eq_refl). eexists i, _. split; [done|]. split; [|split; [eexists; split; [apply list_lookup_insert_eq; by eapply lookup_lt_Some|done]|by eapply slot_insert]].
    eapply (vstate_change s _ H _ lk i); try done; [by eapply lookup_lt_Some|by apply Hv|]. intros _. destruct (vs_slot _ _ _ Hv i ip Hi Hr) as (nd & Hnd & Hb & Hl). exists nd. split_and!; [done..|].
    intros Hval. destruct (Hl Hval) as [Hf Hp]. by split.
  - by destruct (vs_type _ _ _ Hv i ip Hi).
  - exfalso. assert (list_to_set (seq 0 (length (itable s))) ⊆ (list_to_set H : gset nat)) as Hsub.
    { intros i Hi%elem_of_list_to_set%elem_of_seq. apply elem_of_list_to_set. destruct (lookup_lt_is_Some_2 (itable s) i ltac:(lia)) as [ip Hip]. apply uses_pos. specialize (Hall i ip Hip).
      rewrite (Hcnt i ip Hip) in Hall. pose proof (uses_range H i). lia. }
    apply subseteq_size in Hsub. rewrite size_list_to_set, length_seq in Hsub by apply NoDup_seq. lia.
  - specialize (Hrefs _ _ eq_refl). assert (i ∉ H) as HiH by (rewrite <- uses_pos, <- (Hcnt i ip Hi); lia).
    eexists i, _. split; [done|]. split; [|split; [eexists; split; [apply list_lookup_insert_eq; by eapply lookup_lt_Some|done]|by eapply slot_insert]].
    eapply (vstate_change s _ H _ lk i); try done; [by eapply lookup_lt_Some|by apply Hv|exact (vs_type _ _ _ Hv i ip Hi)| |].
    + intros j jp _ Hj Hrj. cbn. rewrite list_lookup_insert_ne; [done|]. intros Eq. pose proof (ro_used _ _ _ Hok j (inum jp) (i_ref jp) (i_private jp) ltac:(apply lookup_keys; by exists jp) Hrj) as Hu.
      unfold used in Hu. rewrite <- Eq, list_lookup_fmap, Hq in Hu. cbn in Hu. congruence.
    + intros _. destruct Htn as [nd Hnd]. exists nd. split; [done|]. split; [|done]. cbn. symmetry. apply bool_decide_false. intros E. by apply HiH, Hlk.
  - exfalso. destruct (refs_pool _ _ _ i (inum ip) (i_private ip) Hok) as [q Hq]; [apply lookup_keys; by exists ip|]. unfold used in Hq. rewrite list_lookup_fmap in Hq.
    destruct (pool s !! q) as [e|] eqn:E; [|done]. specialize (Hall _ _ E). cbn in Hq. congruence.
Qed.
Lemma idup_vstate s H i : vstate s H None → i ∈ H → Z.of_nat (length H) < 2 ^ 31 - 1 → ∃ s', idup i s = Ret (i, s') ∧ vstate s' (i :: H) None ∧ stable s s' H.
Proof using.
  intros Hv Hin Hlen. destruct (held_slot s H None i Hv Hin) as (ip & Hi & Hr). assert (idup i s = Ret (i, with_inode s i (set_ref (s32 (i_ref ip + 1)) ip))) as E.
  { unfold idup, incr_ref. by rewrite (bind_Ret _ _ _ _ _ (upd_inode_at s i ip _ Hi)). }
  eexists. split; [exact E|]. split; [|by eapply slot_insert]. eapply (vstate_change s _ H _ None i); try done; [by eapply lookup_lt_Some|by apply Hv|eapply idup_refs; [by apply Hv|done|done|exact E]|exact (vs_type _ _ _ Hv i ip Hi)|].
  intros _. destruct (vs_slot _ _ _ Hv i ip Hi Hr) as (nd & Hnd & Hb & Hl). exists nd. split_and!; [done..|]. intros Hval. destruct (Hl Hval) as [Hf Hp]. by split.
Qed.
Lemma iput_vstate s H i : vstate s (i :: H) None → Z.of_nat (length (i :: H)) < 2 ^ 31 → ∃ s', iput sb i s = Ret ((), s') ∧ vstate s' H None ∧ stable s s' H.
Proof using Htree.
  intros Hv Hlen. destruct (held_slot s _ None i Hv ltac:(by left)) as (ip & Hi & Hr). pose proof (vs_refs _ _ _ Hv) as Hok. destruct (vs_slot _ _ _ Hv i ip Hi Hr) as (nd & Hnd & Hb & Hl).
  destruct (put_ref_run s [] i H Hok Hlen) as (s' & E & Hok'). exists s'.
  assert (iput sb i s = Ret ((), s')) as E'.
  { unfold iput. rewrite (bind_Ret _ _ _ _ _ (get_inode_at s i ip Hi)). assert ((i_ref ip =? 1) && i_valid ip && (nlink ip =? 0) = false) as ->; [|by erewrite bind_Ret by done].
    destruct (i_valid ip) eqn:Ev; [|by rewrite andb_false_r]. destruct (Hl eq_refl) as [(_ & _ & _ & Hnl & _) _]. destruct (Htree _ _ Hnd) as (_ & (_ & _ & Hn0 & _) & _). rewrite (proj2 (Z.eqb_neq (nlink ip) 0)) by congruence. by rewrite andb_false_r. }
  split; [exact E'|]. pose proof (ro_count _ _ _ Hok i (inum ip) (i_ref ip) (i_private ip) ltac:(apply lookup_keys; by exists ip)) as Hcnt. pose proof (uses_range (i :: H) i) as Hur.
  unfold put_ref in E. rewrite (bind_Ret _ _ _ _ _ (upd_inode_at s i ip _ Hi)) in E. assert (s32 (i_ref ip - 1) = i_ref ip - 1) as Es by (apply swrap_small; lia). rewrite Es in E. set (ip' := set_ref (i_ref ip - 1) ip) in *.
  erewrite bind_Ret in E by (apply get_inode_at; apply list_lookup_insert_eq; by eapply lookup_lt_Some). cbn [i_ref ip' set_ref] in E.
  assert (itable s' = <[i := ip']> (itable s) ∧ tr s' = tr s ∧ (i_ref ip - 1 ≠ 0 → pool s' = pool s) ∧ ∀ q, q ≠ i_private ip → pool s' !! q = pool s !! q) as (Et & Etr & Ep & Eq).
  { destruct (Z.eqb_spec (i_ref ip - 1) 0); injection E as <-; (split; [done|]); (split; [done|]); (split; [done|]); [|done]. intros q Hq. cbn. by rewrite list_lookup_alter_ne. }
  split; [|eapply slot_insert; [exact Hi|exact Et|done]]. eapply (vstate_change s s' _ H None i ip'); try done; [by eapply lookup_lt_Some|rewrite Etr; by apply Hv|exact (vs_type _ _ _ Hv i ip Hi)| |].
  - intros j jp Hne Hj Hrj. apply Eq. destruct (ro_one _ _ _ Hok j i (inum jp) (i_ref jp) (i_private jp) (inum ip) (i_ref ip) (i_private ip)) as [_ ?]; try done; apply lookup_keys; eauto.
  - intros Hr'. cbn in Hr'. exists nd. split_and!; [done..|]. intros Hval. destruct (Hl Hval) as [Hf Hp]. split; [done|]. rewrite Ep by lia. exact Hp.
Qed.

Lemma slot_unique s H lk i j n : vstate s H lk → i ∈ H → j ∈ H → slot_of s i n → slot_of s j n → i = j.
Proof using.
  intros Hv Hi Hj (ip & Hip & Ei) (jp & Hjp & Ej). destruct (decide (i = j)) as [|Hne]; [done|]. exfalso. pose proof (vs_refs _ _ _ Hv) as Hok.
  destruct (held_slot s H lk i Hv Hi) as (ip' & Hip' & Hr). destruct (held_slot s H lk j Hv Hj) as (jp' & Hjp' & Hr'). rewrite Hip in Hip'. injection Hip' as <-. rewrite Hjp in Hjp'. injection Hjp' as <-.
  destruct (ro_one _ _ _ Hok i j (inum ip) (i_ref ip) (i_private ip) (inum jp) (i_ref jp) (i_private jp)) as [? _]; try done; [apply lookup_keys; eauto..|congruence].
Qed.
Lemma iunlockput_vstate s H i : vstate s (i :: H) (Some i) → Z.of_nat (length (i :: H)) < 2 ^ 31 → ∃ s', iunlockput sb i s = Ret ((), s') ∧ vstate s' H None ∧ stable s s' H.
Proof using Htree.
  intros Hv Hlen. destruct (iunlock_run s _ i Hv ltac:(by left)) as (s1 & ip & ip' & E1 & Hv1 & _). destruct (iput_vstate s1 H i Hv1 Hlen) as (s2 & E2 & Hv2 & Hst). exists s2.
  split; [unfold iunlockput; by rewrite (bind_Ret _ _ _ _ _ E1)|]. split; [done|]. eapply stable_trans; [|exact Hst]. apply stable_keys. pose proof (inert_iunlock i s) as Hin. unfold may in Hin. by rewrite E1 in Hin.
Qed.

(** The directory [i] is locked; the name in it. *)
Lemma dirlookup_vstate s H i ip nd m name : vstate s H (Some i) → i ∈ H → itable s !! i = Some ip → T !! inum ip = Some nd → loaded_as s ip nd → t_dir nd = Some m → Forall is_byte name →
  (base.size (list_to_set H : gset nat) < length (itable s))%nat → Z.of_nat (length H) < 2 ^ 31 - 1 →
  match m !! name_of name with
  | None => ∃ s', s5_dirlookup sb de (s5_iget mpoint) i name s = Ret (None, s') ∧ vstate s' H (Some i) ∧ stable s s' H
  | Some k => ∃ nx off s', s5_dirlookup sb de (s5_iget mpoint) i name s = Ret (Some (nx, off), s') ∧ vstate s' (nx :: H) (Some i) ∧ slot_of s' nx k ∧ stable s s' H
  end.
Proof using Hsb HK Hmp Htree Hroom.
  intros Hv Hin Hi Hn [Hf [u Hp]] Hm Hnm Hfull Hlen. destruct (Htree _ _ Hn) as (Hj & _ & _ & Hd). rewrite Hm in Hd. destruct Hd as (Hty & Hw & Hdn & Hmod & Hby & Hnd & Hdm & Hsub). destruct Hf as (Et & _ & _ & _ & Es).
  assert (is_dir sb s i ip (t_addrs nd) v L (contents v (t_addrs nd) 0 (i_size (t_ino nd)))) as Hdir.
  { split; try done; try (by rewrite Es); [by apply Hv|split; [done|by exists u]|]. rewrite Et, Hty. done. }
  destruct (dirlookup_correct sb Hsb de (s5_iget mpoint) s i ip (t_addrs nd) v L _ name Hdir Hroom Hnm) as (s1 & Hsame & Ht1 & Hres). rewrite Hdm in Hres.
  assert (vstate s1 H (Some i)) as Hv1 by (by eapply vstate_same). assert (stable s s1 H) as Hst.
  { apply stable_keys. destruct Hsame as [E1 E2]. unfold same_refs, keys, used. by rewrite E1, E2. }
  destruct (m !! name_of name) as [k|] eqn:Ek; [|by exists s1].
  destruct Hres as (kk & nm & _ & _ & _ & E). destruct (iget_vstate s1 H (Some i) k Hv1) as (nx & s2 & E2 & Hv2 & Hslot & Hst2); [by eapply Hsub|by rewrite (proj1 Hst)|done|by intros j [= <-]|].
  exists nx, (16 * Z.of_nat kk), s2. split; [rewrite E; by rewrite (bind_Ret _ _ _ _ _ E2)|]. split; [done|]. split; [done|]. by eapply stable_trans.
Qed.
Lemma root_find_none l ip s : Forall (λ e, e = None) l → root_find l ip s = Ret (false, s).
Proof using. induction l as [|e l IH]; intros Hall; [done|]. apply Forall_cons in Hall as [-> Hall]. cbn [root_find]. by apply IH. Qed.

(** ** One component *)

Lemma size_set_cons (x : nat) H : (base.size (list_to_set (x :: H) : gset nat) <= base.size (list_to_set H : gset nat) + 1)%nat.
Proof using.
  clear. change (list_to_set (x :: H) : gset nat) with ({[x]} ∪ list_to_set H : gset nat). rewrite size_union_alt, size_singleton.
  assert (base.size ((list_to_set H : gset nat) ∖ {[x]}) <= base.size (list_to_set H : gset nat))%nat; [|lia]. apply subseteq_size. set_solver.
Qed.

Lemma component_search_run s H i ip nd m name fuel r0 : vstate s (i :: H) (Some i) → itable s !! i = Some ip → T !! inum ip = Some nd → loaded_as s ip nd → t_dir nd = Some m → Forall is_byte name →
  is_Some (T !! ROOTINO) → r0 ∈ H → slot_of s r0 ROOTINO → (base.size (list_to_set H : gset nat) + 3 <= length (itable s))%nat → Z.of_nat (length H) < 2 ^ 31 - 4 →
  match m !! name_of name with
  | None => ∃ s', component_search sb mpoint de (S fuel) i name s = Ret (None, s') ∧ vstate s' H None ∧ stable s s' H
  | Some k => ∃ nx s', component_search sb mpoint de (S fuel) i name s = Ret (Some nx, s') ∧ vstate s' (nx :: r0 :: H) None ∧ slot_of s' nx k ∧ stable s s' H
  end.
Proof using Hsb HK Hmp Htree Hroom.
  intros Hv Hi Hn Hld Hm Hnm HR Hr0 Hroot Hsz Hlen. cbn [component_search].
  assert (∀ x, base.size (list_to_set (x :: H) : gset nat) <= base.size (list_to_set H : gset nat) + 1)%nat as Hsz1.
  { intros x. apply size_set_cons. }
  assert (∀ x y, base.size (list_to_set (x :: y :: H) : gset nat) <= base.size (list_to_set H : gset nat) + 2)%nat as Hsz2.
  { intros x y. specialize (Hsz1 y). pose proof (size_set_cons x (y :: H)). lia. }
  pose proof (dirlookup_vstate s (i :: H) i ip nd m name Hv ltac:(by left) Hi Hn Hld Hm Hnm ltac:(specialize (Hsz1 i); lia) ltac:(cbn; lia)) as Hlk.
  destruct (m !! name_of name) as [k|].
  - destruct Hlk as (nx & off & s1 & E1 & Hv1 & Hslot & Hst1). rewrite (bind_Ret _ _ _ _ _ E1). cbn match.
    destruct (iget_vstate s1 (nx :: i :: H) (Some i) ROOTINO Hv1 HR) as (ir & s2 & E2 & Hv2 & Hrs & Hst2); [rewrite (proj1 Hst1); specialize (Hsz2 nx i); lia|cbn; lia|intros j [= <-]; right; by left|].
    unfold s5_getroot. rewrite (bind_Ret _ _ _ _ _ E2).
    assert (ir = r0) as ->.
    { apply (slot_unique s2 (ir :: nx :: i :: H) (Some i) ir r0 ROOTINO Hv2); [by left|by do 3 right|done|]. apply Hst2; [by do 2 right|]. apply Hst1; [by right|done]. }
    destruct (Hst2) as [Hl2 Hs2]. destruct (Hs2 nx k ltac:(by left) Hslot) as (nip & Hnip & Hnn). destruct Hrs as (rip & Hrip & Hrn).
    rewrite (bind_Ret _ _ _ _ _ (get_inode_at s2 nx nip Hnip)), (bind_Ret _ _ _ _ _ (get_inode_at s2 r0 rip Hrip)).
    destruct (held_slot s2 _ _ i Hv2 ltac:(by right; right; left)) as (ip2 & Hi2 & _).
    assert ((if inum nip =? inum rip then isinoderoot mpoint i else mret false) s2 = Ret (false, s2)) as Eroot.
    { destruct (inum nip =? inum rip); [|done]. unfold isinoderoot. rewrite (bind_Ret _ _ _ _ _ (get_inode_at s2 i ip2 Hi2)). apply root_find_none, Hmp. }
    rewrite (bind_Ret _ _ _ _ _ Eroot). cbn [andb].
    destruct (iunlockput_vstate s2 (nx :: r0 :: H) i) as (s3 & E3 & Hv3 & Hst3); [eapply vstate_perm; [|exact Hv2]; solve_Permutation|cbn; lia|].
    rewrite (bind_Ret _ _ _ _ _ E3). exists nx, s3. split; [done|]. split; [done|]. split; [apply Hst3; [by left|by exists nip]|].
    eapply stable_trans; [eapply stable_sub; [|exact Hst1]; intros; by right|]. eapply stable_trans; [eapply stable_sub; [|exact Hst2]; intros; by do 2 right|]. eapply stable_sub; [|exact Hst3]. intros; by do 2 right.
  - destruct Hlk as (s1 & E1 & Hv1 & Hst1). rewrite (bind_Ret _ _ _ _ _ E1). destruct (iunlockput_vstate s1 H i Hv1) as (s2 & E2 & Hv2 & Hst2); [cbn; lia|].
    exists s2. split; [by rewrite (bind_Ret _ _ _ _ _ E2)|]. split; [done|]. eapply stable_trans; [eapply stable_sub; [|exact Hst1]; intros; by right|done].
Qed.

(** ** The walk *)

Definition walk_result (o : outcome (option (nat * bytes) * s5 W U)) s H (r0 : nat) (w : option (Z * bytes) * nat) : Prop :=
  ∃ hold s', vstate s' (hold ++ replicate w.2 r0 ++ H) None ∧ stable s s' H ∧
    match w.1 with
    | Some (j, nm) => ∃ i, o = Ret (Some (i, nm), s') ∧ hold = [i] ∧ slot_of s' i j
    | None => o = Ret (None, s') ∧ hold = []
    end.
Lemma namex_loop_run parent r0 : is_Some (T !! ROOTINO) → ∀ fuel path s H i j, vstate s (i :: H) None → slot_of s i j → (length path <= fuel)%nat → Forall is_byte path →
  r0 ∈ H → slot_of s r0 ROOTINO → (base.size (list_to_set H : gset nat) + 3 <= length (itable s))%nat → Z.of_nat (length H) + Z.of_nat (length path) < 2 ^ 31 - 4 →
  walk_result (namex_loop sb mpoint de fuel parent i path s) s H r0 (walk T parent j (components path)).
Proof using Hsb HK Hmp Htree Hroom.
  intros HR. induction fuel as [|fuel IH]; intros path s H i j Hv Hslot Hf Hby Hr0 Hroot Hsz Hlen; pose proof (skipelem_components path) as Hsk.
  { destruct path; [|cbn in Hf; lia]. cbn [namex_loop skipelem skip_slashes components pieces fmap list_fmap walk]. change (components []) with (@nil bytes). cbn [walk]. destruct parent.
    - destruct (iput_vstate s H i Hv) as (s1 & E1 & Hv1 & Hst1); [cbn; lia|]. exists [], s1. cbn. split; [done|]. split; [done|]. by rewrite (bind_Ret _ _ _ _ _ E1).
    - exists [i], s. cbn. split; [done|]. split; [apply stable_refl|]. by exists i. }
  cbn [namex_loop]. destruct (skipelem path) as [[name rest]|].
  2:{ rewrite Hsk. cbn [walk]. destruct parent.
    - destruct (iput_vstate s H i Hv) as (s1 & E1 & Hv1 & Hst1); [cbn; lia|]. exists [], s1. cbn. split; [done|]. split; [done|]. by rewrite (bind_Ret _ _ _ _ _ E1).
    - exists [i], s. cbn. split; [done|]. split; [apply stable_refl|]. by exists i. }
  destruct Hsk as (-> & Hrl & Hrest & Hbs). destruct (Hbs Hby) as [Hnm Hbr]. cbn [walk].
  destruct (ilock_run s (i :: H) i Hv ltac:(by left)) as (s1 & ip & nd & E1 & Hv1 & Hi & Hn & Hld & Hr & _ & Hinum). rewrite (bind_Ret _ _ _ _ _ E1), (bind_Ret _ _ _ _ _ (get_inode_at s1 i ip Hi)).
  assert (stable s s1 (i :: H)) as Hst1 by (apply stable_keys; pose proof (inert_ilock sb i s) as Hin; unfold may in Hin; by rewrite E1 in Hin).
  assert (inum ip = j) as Ej by (destruct Hslot as (ip0 & Hi0 & <-); by apply Hinum). rewrite Ej in Hn. rewrite Hn. cbn [mbind option_bind].
  assert (stable s s1 H) as Hst1' by (eapply stable_sub; [|exact Hst1]; intros; by right).
  destruct (Htree _ _ Hn) as (_ & _ & _ & Hd). destruct Hld as [Hf' Hp]. pose proof Hf' as (Ety & _). destruct (t_dir nd) as [m|] eqn:Em.
  2:{ rewrite (proj2 (Z.eqb_neq _ _)) by congruence. cbn [negb]. destruct (iunlockput_vstate s1 H i Hv1) as (s2 & E2 & Hv2 & Hst2); [cbn; lia|]. exists [], s2. cbn. split; [done|]. split; [by eapply stable_trans|]. by rewrite (bind_Ret _ _ _ _ _ E2). }
  destruct Hd as [Hty _]. rewrite Ety, Hty, Z.eqb_refl. cbn [negb].
  assert (bool_decide (rest = []) = bool_decide (components rest = [])) as <- by (by apply bool_decide_ext). destruct (parent && bool_decide (rest = [])).
  { destruct (iunlock_run s1 (i :: H) i Hv1 ltac:(by left)) as (s2 & ip1 & ip2 & E2 & Hv2 & Hi1 & Hi2 & E12). assert (ip1 = ip) as -> by congruence. exists [i], s2. cbn. split; [done|]. split.
    - eapply stable_trans; [exact Hst1'|]. apply stable_keys. pose proof (inert_iunlock i s1) as Hin. unfold may in Hin. by rewrite E2 in Hin.
    - exists i. split; [by rewrite (bind_Ret _ _ _ _ _ E2)|]. split; [done|]. exists ip2. split; [done|congruence]. }
  pose proof (component_search_run s1 H i ip nd m name MOUNTSIZE r0 Hv1 Hi ltac:(by rewrite Ej) ltac:(by split) Em Hnm HR Hr0 ltac:(by apply Hst1; [right|]) ltac:(by rewrite (proj1 Hst1)) ltac:(lia)) as Hcs.
  destruct (m !! name_of name) as [j'|].
  - destruct Hcs as (nx & s2 & E2 & Hv2 & Hslot2 & Hst2). rewrite (bind_Ret _ _ _ _ _ E2). cbn match.
    assert (stable s s2 H) as Hst by (by eapply stable_trans).
    assert (base.size (list_to_set (r0 :: H) : gset nat) = base.size (list_to_set H : gset nat)) as Esz by (f_equal; set_solver).
    destruct (IH rest s2 (r0 :: H) nx j') as (hold & s3 & Hv3 & Hst3 & Hres); try done; [lia|by left|by apply Hst|rewrite (proj1 Hst), Esz; lia|cbn; lia|].
    exists hold, s3. destruct (walk T parent j' (components rest)) as [w k]. cbn [fst snd] in *. split; [|split; [|exact Hres]].
    + eapply vstate_perm; [|exact Hv3]. cbn [replicate app]. apply Permutation_app_head. by rewrite Permutation_middle.
    + eapply stable_trans; [exact Hst|]. eapply stable_sub; [|exact Hst3]. intros; by right.
  - destruct Hcs as (s2 & E2 & Hv2 & Hst2). rewrite (bind_Ret _ _ _ _ _ E2). exists [], s2. cbn. split; [done|]. split; [by eapply stable_trans|done].
Qed.

(** C5: On a machine on which nothing is mounted, with room in the inode table: from
    the root for a path that begins with a slash, else from the current directory,
    [namex] walks the tree on disk along the components of the path: it returns the inode (or the parent and the last name) exactly when the walk gets
    there, with a reference, and 0 otherwise with its own references put back. But
    each component looked up leaves one more reference to the root ([getroot])
    behind. *)
Theorem namex_correct s H (cwd : nat) jc (r0 : nat) path parent : vstate s H None → cwd ∈ H → slot_of s cwd jc → r0 ∈ H → slot_of s r0 ROOTINO → is_Some (T !! ROOTINO) → Forall is_byte path →
  (base.size (list_to_set H : gset nat) + 3 <= length (itable s))%nat → Z.of_nat (length H) + Z.of_nat (length path) < 2 ^ 31 - 4 →
  let start := if bool_decide (head path = Some slash) then ROOTINO else jc in
  walk_result (namex sb mpoint de cwd path parent s) s H r0 (walk T parent start (components path)).
Proof using Hsb HK Hmp Htree Hroom.
  intros Hv Hc Hcs Hr Hrs HR Hby Hsz Hlen start. unfold namex, start. clear start. case_bool_decide as Habs.
  - destruct (iget_vstate s H None ROOTINO Hv HR) as (i & s1 & E1 & Hv1 & Hs1 & Hst1); [lia|lia|done|]. unfold s5_getroot. rewrite (bind_Ret _ _ _ _ _ E1).
    destruct (namex_loop_run parent r0 HR (length path) path s1 H i ROOTINO Hv1 Hs1) as (hold & s2 & Hv2 & Hst2 & Hres); try done; [by apply Hst1|by rewrite (proj1 Hst1)|].
    exists hold, s2. split; [done|]. split; [by eapply stable_trans|exact Hres].
  - destruct (idup_vstate s H cwd Hv Hc) as (s1 & E1 & Hv1 & Hst1); [lia|]. rewrite (bind_Ret _ _ _ _ _ E1).
    destruct (namex_loop_run parent r0 HR (length path) path s1 H cwd jc Hv1) as (hold & s2 & Hv2 & Hst2 & Hres); try done; [by apply Hst1|by apply Hst1|by rewrite (proj1 Hst1)|].
    exists hold, s2. split; [done|]. split; [by eapply stable_trans|exact Hres].
Qed.
End tree.

(** A disk with a root directory of one entry, "ab", which is inode 5, an empty file. *)
Definition demo_top : inode := Inode ROOTINO 1 true true 0 T_DIR 0 0 1 16.
Definition demo_file : inode := Inode 5 1 true true 0 T_FILE 0 0 1 0.
Definition tree_inodes : block := replicate 64 0 ++ dinode_bytes demo_top demo_l ++ replicate 192 0 ++ dinode_bytes demo_file (replicate 13 0) ++ replicate 640 0.
Definition tree_disk : list block :=
  replicate 32 zero_block ++ [tree_inodes] ++ replicate 12 zero_block ++ [demo_map; [5; 0; 97; 98] ++ replicate 1020 0] ++ replicate 1453 zero_block.
Definition tree_blocks (n : Z) : block := default [] (tree_disk !! Z.to_nat n).
Definition demo_tree : gmap Z tnode := {[ROOTINO := TNode demo_top demo_l (Some {[[97; 98] := 5]}); 5 := TNode demo_file (replicate 13 0) None]}.

#[local] Existing Instance cache1.
#[local] Existing Instance cache1_spec.
Lemma tree_wf : wf demo_sb tree_blocks demo_l.
Proof.
  constructor.
  - done.
  - intros b [H0 [->|(bn & Hb & E)]]; [done|]. change (blk_of demo demo_l bn = b) in E. rewrite demo_blk in E by done. case_decide; [|congruence]. subst b. split; [split; done|]. reflexivity.
  - intros bn Hb H0. exact H0.
  - intros bn bn' Hb Hb'. change (blk_of demo demo_l bn = blk_of demo demo_l bn' → blk_of demo demo_l bn ≠ 0 → bn = bn'). rewrite !demo_blk by done. by repeat case_decide; subst.
Qed.
Lemma demo_tree_on_disk : tree demo_sb demo_tree tree_blocks.
Proof.
  intros j nd Hj. unfold demo_tree in Hj. apply lookup_insert_Some in Hj as [[<- <-]|[_ [<- <-]%lookup_singleton_Some]].
  - split; [done|]. split; [split_and!; try done; constructor; try done; repeat constructor; done|]. split; [reflexivity|]. cbn [t_dir]. split; [done|]. split; [exact tree_wf|]. split.
    { split; [done|]. intros bn H1 H2. unfold BSIZE in H2. cbn in H2. replace bn with 0 by lia. done. }
    split; [done|]. split; [by repeat constructor|]. split; [by repeat constructor; set_solver|]. split; [reflexivity|].
    intros n k [<- <-]%lookup_singleton_Some. by eexists.
  - split; [done|]. split; [split_and!; try done; constructor; try done; repeat constructor; done|]. split; [reflexivity|]. done.
Qed.

Lemma namex_correct_witness : ∃ (c : bsys ()) s r s', s5_iget (replicate MOUNTSIZE None) ROOTINO (S5 (LSys demo_log c) demo_mem (replicate NINODE inode0) (replicate NINODE (S5Inode false (replicate 13 0)))) = Ret (r, s) ∧
  ∃ i, namex demo_sb (replicate MOUNTSIZE None) 1000 r [47; 97; 98] false s = Ret (Some (i, []), s') ∧ slot_of s' i 5.
Proof.
  destruct (bio_boot 1 (BSys (replicate (S NBUF) buf0) tree_disk () []) buf0 tree_disk) as (c & _ & Hc); try reflexivity.
  { repeat (apply Forall_app; split); try (by apply Forall_replicate); repeat constructor. }
  set (sb0 := S5 (LSys demo_log c) demo_mem (replicate NINODE inode0) (replicate NINODE (S5Inode false (replicate 13 0)))).
  assert (vstate (HS := log_trans_spec 2 tree_blocks []) demo_tree tree_blocks ∅ sb0 [] None) as Hv.
  { split.
    - exists (TState ∅ tree_blocks ∅ ∅). split_and!; try done. eexists _, []. constructor; try done; [by apply placed_nil|cbn; lia].
    - apply boot_refs, demo_files_boot.
    - intros i ip [-> _]%lookup_replicate. done.
    - intros i ip [-> _]%lookup_replicate. done. }
  assert (no_mounts (replicate MOUNTSIZE None)) as Hmp by (by repeat constructor).
  destruct (iget_vstate (replicate MOUNTSIZE None) Hmp demo_tree tree_blocks ∅ sb0 [] None ROOTINO Hv) as (r & s1 & E1 & Hv1 & Hs1 & Hst); [by eexists|rewrite list_to_set_nil, size_empty; cbn; lia|done|done|].
  exists c, s1, r. pose proof (namex_correct (HS := log_trans_spec 2 tree_blocks []) demo_sb demo_sb_ok 1000 (replicate MOUNTSIZE None) Hmp demo_tree tree_blocks ∅ demo_tree_on_disk) as Hn.
  specialize (Hn ltac:(unfold roomy; rewrite size_empty, map_size_empty; cbn; lia) s1 [r] r ROOTINO r [47; 97; 98] false Hv1 ltac:(by left) Hs1 ltac:(by left) Hs1 ltac:(by eexists) ltac:(by repeat constructor)).
  destruct Hn as (hold & s2 & _ & _ & Hres); [rewrite (proj1 Hst); change (list_to_set [r] : gset nat) with ({[r]} ∪ ∅ : gset nat); rewrite union_empty_r_L, size_singleton; cbn; lia|done|].
  change (walk demo_tree false _ _) with (Some (5, [] : bytes), 1%nat) in Hres. destruct Hres as (i & E & _ & Hi). exists s2. split; [exact E1|]. exists i. by split.
Defined.
